(* ===== verification/_CoqProject ===== *)
-Q . S2P
Prelude.v
JsonObject.v
JsonText.v
JsonAscii.v
ControlModels.v
ControlWorld.v
RunState.v
ControlStore.v
StoreDeletion.v
StoreJournal.v
SqlStore.v
SqlTenants.v
SqlSpec.v
SqlClaims.v
StoreContract.v
Delegation.v
Redaction.v
RunRecovery.v
ControlComputers.v
ControlTasks.v
ControlRuns.v
Fencing.v
RunContracts.v
Scenarios.v
StreamBuffer.v
StreamTail.v
RedisStream.v
RedisBuffer.v
AnswerText.v
StreamRecovery.v
AnswerBroker.v
TurnIndex.v
RunRegistry.v
TurnLiveness.v
ScheduleTiming.v
Scheduler.v
CommandRules.v
Approvals.v
AgentQuestions.v
TurnErrors.v
TurnRequest.v
TurnGrants.v
RemoteReplies.v
RemoteAnswers.v
SessionStore.v
SessionLog.v
SessionCodec.v
Uuid.v
Identity.v
TenantScope.v
TenantRoots.v
ScopedSession.v
TenantIsolation.v
ArtifactRevisions.v
ArtifactRepairs.v
Triples.v
ArtifactLog.v
ArtifactCrash.v
ArtifactReview.v
ArtifactDemo.v
ArtifactLock.v
DbUnits.v
ArtifactJournal.v
JournalConfined.v
JournalReadBack.v
Base64.v
Conversations.v
ConversationOrder.v
ConversationLog.v
ConversationTurns.v
ConversationPages.v
