(* ===== verification/Prelude.v ===== *)
(** * Verification of cowork-server

    The server runs AI agents for its users: a turn answers a question of a
    conversation, a coding task runs on one of the user's computers, a schedule
    starts a turn at its time.  This library models the parts that decide who
    may do what, exactly once, and in which order, and proves that they do.
    Sources are under [src/cowork].

    ** Parts and files

    Shared:
    - this file: exceptions, the state-and-exception monad [eff] and its
      inversion tactics, record update, JSON values, Python string and list
      operations, the [Platform] of unspecified orders and black-box functions;
    - [JsonObject]: dicts field by field;
    - [JsonText], [JsonAscii]: UTF-8, [json.dumps] and [json.loads] on bytes,
      and [json.dumps] with escapes and without spaces;
    - [RedisStream]: the entries of a Redis stream and reading after an id.

    The coding control plane ([coding/]) keeps computers, tasks, runs, workspaces,
    grants, commands and credentials as JSON documents, one file each:
    - [ControlModels]: the records and their validation
      ([control_models.py], [project_models.py], [contracts.py]);
    - [ControlWorld]: files, indexes, clock and random ids, and what an operation
      touches ([touches], the frame of the later files);
    - [RunState]: the status machine of a run ([run_state.py]);
    - [ControlStore], [StoreDeletion], [StoreJournal]: [LocalControlPlaneStore]
      ([control_store.py]), its parent indexes, deletion, and the journal of
      multi-document writes at the grain of single file-system calls;
    - [SqlStore], [SqlSpec], [SqlTenants], [SqlClaims]: [SqlControlPlaneStore]
      ([sql_control_store.py], [models/code_control.py]): a table shared by all
      tenants, sessions that see their own pending writes and roll back, row
      locks, and the transactions of several replicas interleaved;
    - [StoreContract]: the protocol both stores implement, as a class of
      operations with laws over one map of documents;
    - [Delegation]: connector capabilities ([connector_delegation.py],
      [security_audit.py]);
    - [Redaction]: [redaction.py], both regular expressions included;
    - [RunRecovery]: recovery plan and fence ([run_recovery.py]);
    - [ControlComputers], [ControlTasks], [ControlRuns]: [ControlPlaneService]
      ([control_service.py]) by its operations on computers, tasks and runs;
    - [Fencing], [RunContracts]: what holds over whole histories of operations;
    - [Scenarios]: concrete worlds on which the theorems are instantiated.

    Turn streaming ([streaming/]) records the events of a turn in a file that
    readers follow, and registers the turns in flight:
    - [StreamBuffer], [StreamTail]: records, the file they are written to, and
      the producer and a reader interleaved ([records.py], [buffer.py]);
    - [RedisBuffer]: the same records in a Redis stream that several replicas
      read, command by command ([buffer.py]);
    - [AnswerText]: the answer as the sum of its deltas ([answer_text.py]);
    - [StreamRecovery]: what a boot does to files left open ([recovery.py]);
    - [AnswerBroker]: questions a turn asks, the endpoint that answers them and
      the waiting turn ([answers.py], [elicitor.py], [responses.py]);
    - [TurnIndex]: the current turn of each conversation, in Redis
      ([turn_index.py]), at the grain of single commands;
    - [RunRegistry]: [RunRegistry] as code between [await]s ([registry.py],
      [cancellation.py]);
    - [TurnLiveness]: the idle watchdog and the model-wait ticker together
      ([registry.py], [liveness.py]).

    Schedules:
    - [ScheduleTiming]: recurrence ([schedule_timing.py]);
    - [Scheduler]: slots, leases, polls and runs of any number of replicas, one
      database unit a step ([scheduler.py], [services/schedules.py]).

    Turns that run in a sandbox pod ([turnqueue/]), behind a controller that is
    reached through Redis:
    - [TurnErrors]: what a user is told of a failure ([turn_errors.py]);
    - [TurnRequest]: the request and what is shed from it ([producer.py],
      [schemas/turn_skills.py]);
    - [TurnGrants]: datasource grants and the validation of the job
      ([producer.py], [models.py]);
    - [RemoteReplies]: queueing a turn and relaying its replies, interleaved with
      the controller ([producer.py]);
    - [RemoteAnswers]: answers to questions a pod asks ([answers.py], the remote
      branch of [answer_question]).

    What a coding agent asks of its user ([coding/]):
    - [CommandRules]: which commands may be remembered, with the shell lexer
      that splits them ([command_approvals.py]);
    - [Approvals]: the approval broker, its locked sections interleaved
      ([approvals.py]);
    - [AgentQuestions]: the question broker ([questions.py]).

    Coding sessions ([coding/]) are kept on disk, a metadata file and an event
    file each:
    - [SessionStore]: [CodingStore] ([store.py]), its files as text and its
      caches;
    - [SessionLog]: what holds over histories of its operations, restarts and
      crashes;
    - [SessionCodec]: a concrete event codec, on which the theorems are
      instantiated and the losses they exclude are evaluated.

    Who asks, and what a request may see:
    - [Uuid]: [uuid.UUID] of a string;
    - [Identity]: the trusted-header middleware and the permissions
      ([principal.py], [api/v1/permissions.py], the admission in [server.py]);
    - [TenantScope], [TenantRoots]: scopes, the resources kept per person, and
      the storage roots of a scope ([db/scoped.py], [db/personal_resources.py]);
    - [ScopedSession]: the session every query goes through, over a table of all
      tenants ([db/scoped.py]);
    - [TenantIsolation]: a request from its headers to its rows and files;
    - [DbUnits]: units of work, their slots, threads and the lock of a
      conversation ([db/units.py]).

    Conversations ([services/conversations.py]) are rows of messages and events:
    - [Base64]: URL-safe base64, as Python decodes it;
    - [Conversations]: the service, its contents and cursors;
    - [ConversationOrder], [ConversationLog]: the numbering of rows, and every
      operation as a step of a log;
    - [ConversationTurns]: deleting and recovering a turn, and who may;
    - [ConversationPages]: reading page by page.

    Artifacts are files an agent makes and a user edits and reviews:
    - [ArtifactRevisions], [ArtifactRepairs]: revisions, source writes and agent
      repairs ([services/artifact_revisions.py]);
    - [Triples]: a logic of pre- and postconditions for [eff];
    - [ArtifactLog], [ArtifactCrash], [ArtifactReview], [ArtifactDemo]: what
      holds over histories, when the process dies in between, of a review, and
      on concrete folders;
    - [ArtifactLock]: the lock file ([services/artifact_lock.py]);
    - [ArtifactJournal]: the journal folder on a file system that the agent
      shares ([services/artifact_journal.py], [common/paths.py]);
      [JournalConfined] and [JournalReadBack]: what holds of it.

    ** How code is modelled

    An operation is a function on explicit state that keeps the source's name
    (without leading underscore; a name that would clash gets the class as a
    prefix, as in [broker_open]).  An exception is a value; it does not undo the
    writes made before it, except in a database unit, which rolls back.  Code
    that shares objects (futures, run handles) has a heap of them.  Where code
    interleaves, an inductive step relation says which pieces run atomically:
    a file-system call, a Redis command, the code between two [await]s, or a
    database unit; where the process can die, a budget of writes
    ([fo_budget]) ends it after any of them; theorems about histories are about all finite sequences of
    such steps.  What the code reads but does not define is an argument with its
    documented laws: the clock, random ids, directory order, SHA-256, the zone
    database, the order in which a database or Redis lists things, [int(str)],
    and anton's request and snapshot types, of which only the fields read appear.  Integers are unbounded, as Python's are.

    Strings are 8-bit.  In the streaming files they are the UTF-8 bytes of the
    text; in the control plane a character is one byte, so lengths and slices
    count characters only for text of that range.  JSON objects keep their order
    and hold floats by their [repr].

    ** Fuel

    The JSON reader runs on fuel equal to the length of its text plus one, which
    every step consumes at least one character of ([loads_dumps] shows it is
    enough for all written text).  The recurrence loops run for up to 2^64
    rounds, built by doubling, more than the microseconds in Python's range of
    dates; [missed_counted] shows they return.  String replacement and splitting
    use the text's length.  A bounded file read has the size of the file plus one
    ([read_bounded_run]).  No other definition needs fuel.

    ** What the theorems show

    - Store: multi-document writes survive any number of crashes, of the write and
      of later starts, as all or nothing ([save_many_crash_atomic]); the indexed
      listing equals the scan, or raises where a document of that parent is
      invalid ([list_for_parent_refines]); deletion takes exactly what a task
      owns.
    - Hosted store: a tenant neither sees nor changes the rows of another
      ([tenants_isolated]), rows stay well typed ([hosted_rows_typed]; payloads
      are validated when read, not when written), a queued run is claimed once by
      any number of replicas, under the lease the claim returned
      ([hosted_claims_exclusive]), a failed update leaves no trace, and the two
      stores answer alike, [update_run] and [claim_run] apart, which store their
      own clock's time ([stores_agree]).
    - Runs: an event is applied at most once over all histories, under the
      current epoch and lease ([event_applied_at_most_once],
      [accept_event_fenced], [stale_epoch_refused]); a run moves forward until its
      task is deleted, restarts included ([run_fence_monotone]); a recovery
      supersedes everything minted before it.
    - Capabilities: used only when entitled, counted and audited, within their
      budget ([authorize_sound], [authorize_refused], [grant_budget]).
    - Streaming: a reader yields exactly the records written and ends
      ([tail_exact], [tail_ends]); writing and reading back, incremental reading,
      and merging of deltas lose nothing.  The same for the Redis stream as
      long as no entry is deleted under the reader and it does not give the turn
      up; what it yields otherwise is stated with it ([redis_tail_exact]).  A
      reader also outlives a dead producer ([redis_orphan_ends]).
    - Turns: one writer per conversation, discarded turns apart, admission at the moment of
      registration, a shutdown that misses no turn ([one_turn_writes],
      [start_admission], [shutdown_covers]); the watchdog reaps the idle turns
      and only those, and never one that waits on a model.
    - Questions: one answer each, fitting what was asked.
    - Approvals: an accepted action was approved in the store, a remembered
      approval covers its own context and words only, and only commands the
      shell takes literally are remembered ([approval_stored],
      [remembered_approval_scope], [command_rule_literal]); an agent gets the
      answer that was stored ([question_answer_stored]).
    - Sessions: the event file is the tail of what was written, numbered upwards,
      without duplicates, and the caches show in no number, source or order
      ([session_log_exact], [session_cache_transparent], [append_event_stores]);
      these hold for events without the separators U+0085, U+2028 and U+2029 and
      for crashes between file-system calls, and fail without that
      ([separator_lost], [torn_line_swallows], [torn_character_raises]); a new
      process settles the turns of the last one ([reconcile_settles]).
    - Schedules: a slot starts one turn, unless the slot was given back, reaped by
      age at a boot, or the conversation was deleted ([slot_turn_once]); catch-up
      loses no occurrence silently, in any zone where the same wall clock on a
      later day is a later instant ([missed_occurrences_counted]).
    - Remote turns: the replies of a turn are yielded exactly, none before its
      workspace is authorized ([remote_replies_exact],
      [remote_workspace_gated]); the request is the first that fits
      ([fit_request_spec], [fit_request_fits]); a grant block names what was
      granted, and the job is never refused by its own checks
      ([datasource_block_granted], [turn_job_accepted]); an answer gets its own
      verdict ([remote_answer_verdict]); no worker text reaches the user but
      where it is meant to ([remote_error_redacted]).
    - Requests: a request is admitted under the identity its headers carry, or
      without one in five cases ([admitted_identity]); its session hands out and
      writes the rows of its own organization and person, also over relationships
      and their cascades, and those without an organization
      ([scoped_session_isolated]); two identities share no storage folder
      ([request_storage_disjoint]).
    - Database units: a function runs at most once and never behind a caller that
      left, one writer per conversation, no more units than slots
      ([db_units_disciplined]).
    - Conversations: each is a log that only its own operations change, at the
      end or in place ([conversation_log_exact]); the pages are the whole
      ([message_pages_exact]); a turn is deleted from its question on
      ([delete_turn_cuts]), recovered once ([recovered_once]), and another
      member's conversation is as absent ([conversation_private]).
    - Artifacts: a source write survives a death at any write, all or nothing
      ([save_source_crash_atomic]); history only grows
      ([artifact_history_append_only]); an interrupted rejection of the newest
      revision is completed by its retry ([rejection_retry_completes]); of the
      processes inside the lock one is within its thirty seconds, and each removes
      only its own lock, as long as no lock appears where another is about to
      remove a stale one ([artifact_lock_exclusive]); the journal changes nothing outside
      the agent's folder, whatever the agent plants there ([journal_confined]),
      and reads back what was written where no folder stands at the name
      ([journal_write_read]).
    - Defects: theorems that state what the code does against its documentation
      ([seal_one_torn_line], [seal_sweep_stops], [forget_turn_hides_turn],
      [deleted_chat_frees_slot], [sync_session_unreadable_run],
      [sanitize_budget_overrun], [unstored_approval_accepted],
      [redis_orphan_sealed_twice], the second half of [remote_idle_timeout],
      [separator_lost], [torn_line_swallows], [torn_character_raises],
      [superseded_rejection_retry_refused], [stale_lock_race],
      [second_name_race]).

    ** Not modelled

    The HTTP calls that mint keys and list connections, whose answers are
    arguments; the producer of a turn, the agent harnesses and the responses
    handler around it (the registry's theorems hold for any producer of the
    stated shape); the database queries of the product services; HTTP routing
    and settings; git, subprocess and network code of coding sessions and
    runtimes; file access without directory descriptors (Windows); log lines. *)
From stdpp Require Import base list gmap strings sorting option.
From Stdlib Require Import ZArith Lia.

Declare Scope cowork_scope.
Delimit Scope cowork_scope with cowork.
Open Scope cowork_scope.

(** ** Python exceptions the modelled code raises or catches.

    Each constructor is one exception class; the argument is the message.  The
    subclass relations the code relies on ([except] clauses) are the boolean
    functions below. *)

Inductive exn :=
  | KeyError (msg : string)
  | ValueError (msg : string)
  | ValidationError (msg : string)
  | StateConflict (msg : string)
  | InvalidRunTransition (msg : string)
  | RuntimeError (msg : string)
  | NoEligibleComputer (msg : string)
  | RuntimeAuthenticationError (msg : string)
  | StaleRuntimeEvent (msg : string)
  | FileNotFoundError (msg : string)
  | TypeError (msg : string)
  | AttributeError (msg : string)
  | UnicodeDecodeError (msg : string)
  | IntegrityError (msg : string)
  | InvalidRequestError (msg : string)
  | RedisError (msg : string)
  | StopIteration
  | MissingTenantScopeError (msg : string)
  | TenantMismatchError (msg : string)
  | OSError (msg : string)
  | JournalFileRefused (msg : string)
  | TimeoutError (msg : string)
  | RevisionValidationError (msg : string)
  | RevisionConflict (msg current : string)
  | RepairAlreadyPending (repair : string)
  | InvalidPaginationParams (msg : string)
  | ProcessKilled                       (* not an exception: nothing catches it *)
  | ProductPermissionUnavailable
  | ProductPermissionDenied
  | TurnInProgress (conversation_id : string) (turn_id : Z)
  | ServerShuttingDown
  | CancelledError.

#[export] Instance exn_eq_dec : EqDecision exn.
Proof. solve_decision. Defined.

(** [except KeyError]. *)
Definition is_KeyError (e : exn) : bool :=
  match e with KeyError _ => true | _ => false end.

(** [except RuntimeAuthenticationError]. *)
Definition is_RuntimeAuthenticationError (e : exn) : bool :=
  match e with RuntimeAuthenticationError _ => true | _ => false end.

(** [str(exc)] for the exceptions built from one message. *)
Definition exn_str (e : exn) : string :=
  match e with
  | KeyError m | ValueError m | ValidationError m | StateConflict m
  | InvalidRunTransition m | RuntimeError m | NoEligibleComputer m
  | RuntimeAuthenticationError m | StaleRuntimeEvent m | FileNotFoundError m | TypeError m
  | AttributeError m | UnicodeDecodeError m | IntegrityError m | InvalidRequestError m
  | RedisError m | MissingTenantScopeError m | TenantMismatchError m | OSError m | JournalFileRefused m
  | TimeoutError m | RevisionValidationError m | RevisionConflict m _ | InvalidPaginationParams m => m
  | RepairAlreadyPending _ => "This artifact already has an agent repair awaiting review"
  | TurnInProgress c _ => c
  | ServerShuttingDown => "the server is shutting down and starts no new turn"
  | CancelledError | StopIteration | ProcessKilled => ""
  | ProductPermissionUnavailable =>
      "503: {'code': 'permission_unavailable', 'message': 'Your current permissions could not be verified. Try again.'}"
  | ProductPermissionDenied =>
      "403: {'code': 'permission_denied', 'message': 'Your current role does not allow this action.'}"
  end.

(** ** Effects: state passing with exceptions.

    An exception does not undo the state changes made before it, as in
    Python. *)

Definition eff (W A : Type) : Type := W → W * (exn + A).

Section Effects.
Context {W : Type}.

#[export] Instance eff_ret : MRet (eff W) := λ A a w, (w, inr a).
#[export] Instance eff_bind : MBind (eff W) := λ A B f m w,
  match m w with
  | (w', inl e) => (w', inl e)
  | (w', inr a) => f a w'
  end.

Definition raise {A} (e : exn) : eff W A := λ w, (w, inl e).
Definition gets {A} (f : W → A) : eff W A := λ w, (w, inr (f w)).
Definition modify (f : W → W) : eff W () := λ w, (f w, inr ()).

(** [if b: raise e]. *)
Definition raise_if (b : bool) (e : exn) : eff W () :=
  if b then raise e else mret ().

(** [try: m except ...: h(exc)], the handler deciding which exceptions it
    catches. *)
Definition catch {A} (m : eff W A) (h : exn → option (eff W A)) : eff W A := λ w,
  match m w with
  | (w', inl e) => match h e with Some k => k w' | None => (w', inl e) end
  | r => r
  end.

(** [for x in l: body(x)]. *)
Fixpoint for_each {A} (l : list A) (body : A → eff W ()) : eff W () :=
  match l with
  | [] => mret ()
  | x :: l' => body x ≫= λ _, for_each l' body
  end.

(** [[f(x) for x in l]] with effects, in order. *)
Fixpoint map_each {A B} (f : A → eff W B) (l : list A) : eff W (list B) :=
  match l with
  | [] => mret []
  | x :: l' => f x ≫= λ y, map_each f l' ≫= λ ys, mret (y :: ys)
  end.

Lemma bind_inr {A B} (m : eff W A) (f : A → eff W B) w w' b :
  (m ≫= f) w = (w', inr b) ↔ ∃ w1 a, m w = (w1, inr a) ∧ f a w1 = (w', inr b).
Proof.
  unfold mbind, eff_bind. destruct (m w) as [w1 [e|a]]; split.
  - done.
  - intros (?&?&[=]&_).
  - eauto.
  - by intros (?&?&[= <- <-]&?).
Qed.

Lemma bind_inl {A B} (m : eff W A) (f : A → eff W B) w w' e :
  (m ≫= f) w = (w', inl e) ↔
  m w = (w', inl e) ∨ ∃ w1 a, m w = (w1, inr a) ∧ f a w1 = (w', inl e).
Proof.
  unfold mbind, eff_bind. destruct (m w) as [w1 [e1|a]]; split.
  - intros [= <- <-]. by left.
  - intros [[= <- <-]|(?&?&[=]&_)]. done.
  - eauto.
  - intros [[=]|(?&?&[= <- <-]&?)]. done.
Qed.

Lemma raise_if_false e w : raise_if false e w = (w, inr ()).
Proof. done. Qed.
Lemma raise_if_true e w : raise_if true e w = (w, inl e).
Proof. done. Qed.

Lemma raise_if_inr b e w w' u :
  raise_if b e w = (w', inr u) ↔ b = false ∧ w' = w.
Proof. destruct b, u; cbn; unfold raise, mret, eff_ret; naive_solver. Qed.

Lemma raise_if_inl b e w w' e' :
  raise_if b e w = (w', inl e') ↔ b = true ∧ w' = w ∧ e' = e.
Proof. destruct b; cbn; unfold raise, mret, eff_ret; naive_solver. Qed.

Lemma map_each_elem {A B} (f : A → eff W B) l w w' ys y :
  map_each f l w = (w', inr ys) → y ∈ ys →
  ∃ l1 x l2 w1 w2 ys1, l = l1 ++ x :: l2 ∧ map_each f l1 w = (w1, inr ys1) ∧ f x w1 = (w2, inr y).
Proof.
  revert w ys. induction l as [|x l IH]; intros w ys H Hy; cbn in H.
  { injection H as _ <-. by apply not_elem_of_nil in Hy. }
  apply bind_inr in H as (w1 & z & Hz & H). apply bind_inr in H as (w2 & zs & Hzs & H).
  injection H as <- <-. apply elem_of_cons in Hy as [->|Hy].
  - by exists [], x, l, w, w1, [].
  - destruct (IH w1 zs Hzs Hy) as (l1 & x' & l2 & w3 & w4 & ys1 & -> & H1 & H2).
    exists (x :: l1), x', l2, w3, w4, (z :: ys1). split; [done|]. split; [|done].
    cbn. apply bind_inr. eexists _, _. split; [exact Hz|]. apply bind_inr. by exists w3, ys1.
Qed.

(** *** What an effect may do to the state, as a preorder.

    [within R m]: whatever [m] returns or raises, the state it leaves is
    related by [R] to the one it started in. *)
Definition within {A} (R : relation W) (m : eff W A) : Prop :=
  ∀ w, R w (m w).1.

Section Within.
Context (R : relation W) `{!PreOrder R}.

Lemma within_ret {A} (a : A) : within R (mret a).
Proof. intros w. cbn. reflexivity. Qed.
Lemma within_raise {A} e : within R (raise (A:=A) e).
Proof. intros w. cbn. reflexivity. Qed.
Lemma within_gets {A} (f : W → A) : within R (gets f).
Proof. intros w. cbn. reflexivity. Qed.
Lemma within_raise_if b e : within R (raise_if b e).
Proof. destruct b; [apply within_raise|apply within_ret]. Qed.
Lemma within_bind {A B} (m : eff W A) (f : A → eff W B) :
  within R m → (∀ a, within R (f a)) → within R (m ≫= f).
Proof.
  intros Hm Hf w. specialize (Hm w). unfold mbind, eff_bind.
  destruct (m w) as [w1 [e|a]]; cbn in *; [done|].
  etrans; [done|]. apply Hf.
Qed.
Lemma within_catch {A} (m : eff W A) h :
  within R m → (∀ e k, h e = Some k → within R k) → within R (catch m h).
Proof.
  intros Hm Hh w. specialize (Hm w). unfold catch.
  destruct (m w) as [w1 [e|a]]; cbn in *; [|done].
  destruct (h e) as [k|] eqn:E; cbn; [|done].
  etrans; [done|]. eapply Hh, E.
Qed.
Lemma within_for_each {A} (l : list A) body :
  (∀ x, within R (body x)) → within R (for_each l body).
Proof.
  intros Hb. induction l as [|x l IH]; cbn; [apply within_ret|].
  by apply within_bind.
Qed.
Lemma within_map_each {A B} (f : A → eff W B) l :
  (∀ x, within R (f x)) → within R (map_each f l).
Proof.
  intros Hb. induction l as [|x l IH]; cbn; [apply within_ret|].
  apply within_bind; [done|]. intros y.
  apply within_bind; [done|]. intros ys. apply within_ret.
Qed.
Lemma within_match_option {A B} (o : option A) (f : A → eff W B) (g : eff W B) :
  (∀ a, within R (f a)) → within R g →
  within R (match o with Some a => f a | None => g end).
Proof. by destruct o. Qed.
End Within.
End Effects.

Arguments raise_if : simpl never.

Create HintDb eff.
#[export] Hint Resolve within_ret within_raise within_gets within_raise_if
  within_bind within_catch within_for_each within_map_each within_match_option : eff.

(** Inversion of a successful or failed run of a sequence of effects. *)
Ltac inv_eff1 :=
  match goal with
  | H : (mbind _ _) _ = (_, inr _) |- _ =>
      apply bind_inr in H; destruct H as (? & ? & ? & H)
  | H : raise_if _ _ _ = (_, inr _) |- _ =>
      apply raise_if_inr in H; destruct H as [? ->]
  | H : mret _ _ = (_, _) |- _ => injection H as ?; subst
  | H : gets _ _ = (_, _) |- _ => injection H as ?; subst
  | H : modify _ _ = (_, _) |- _ => injection H as ?; subst
  | H : raise _ _ = (_, inr _) |- _ => discriminate H
  end.
Ltac inv_eff := repeat inv_eff1.

(** Closes a decidable goal about concrete values by evaluating it. *)
Ltac by_decide := refine (bool_decide_unpack _ _); vm_compute; exact I.

Lemma pair_eq_snd {A B} (p : A * B) b : p.2 = b → p = (p.1, b).
Proof. by intros <-; destruct p. Qed.

(** ** Record update: [r <| field := v |>] is attribute assignment on a
    mutable Python object, [r] with one field replaced. *)

(** Each mutated record declares its fields once, as an expansion of itself. *)
Class Fields (R : Type) := expand : R → R.

Class Updatable {R T : Type} (field : R → T) := update_field : T → R → R.
Arguments update_field {R T} field {_} _ _.

Ltac build_update :=
  match goal with
  | |- @Updatable ?R ?T ?field =>
      let v := fresh "v" in
      let r := fresh "r" in
      unfold Updatable; intros v r;
      let e := constr:(expand r) in
      let b := eval hnf in e in
      let p := eval pattern (field r) in b in
      match p with ?F _ => let u := eval cbv beta in (F v) in exact u end
  end.

#[export] Hint Extern 1 (Updatable _) => build_update : typeclass_instances.
#[global] Hint Mode Updatable + + + : typeclass_instances.

Notation "r <| field := v |>" := (update_field field v r)
  (at level 1, left associativity, format "r  <| field  :=  v |>") : cowork_scope.

(** ** JSON values, for payloads the code stores without looking inside.
    Floats are kept as their printed form. *)

Inductive json :=
  | JNull
  | JBool (b : bool)
  | JInt (n : Z)
  | JFloat (repr : string)
  | JStr (s : string)
  | JArr (items : list json)
  | JObj (fields : list (string * json)).

Fixpoint json_eqb (a b : json) {struct a} : bool :=
  match a, b with
  | JNull, JNull => true
  | JBool x, JBool y => Bool.eqb x y
  | JInt x, JInt y => Z.eqb x y
  | JFloat x, JFloat y => String.eqb x y
  | JStr x, JStr y => String.eqb x y
  | JArr xs, JArr ys =>
      (fix go (xs ys : list json) {struct xs} : bool :=
         match xs, ys with
         | [], [] => true
         | x :: xs', y :: ys' => json_eqb x y && go xs' ys'
         | _, _ => false
         end) xs ys
  | JObj xs, JObj ys =>
      (fix go (xs ys : list (string * json)) {struct xs} : bool :=
         match xs, ys with
         | [], [] => true
         | (k, x) :: xs', (l, y) :: ys' => String.eqb k l && json_eqb x y && go xs' ys'
         | _, _ => false
         end) xs ys
  | _, _ => false
  end.

Section JsonInd.
Context (P : json → Prop).
Context (Hnull : P JNull) (Hbool : ∀ b, P (JBool b)) (Hint : ∀ n, P (JInt n)).
Context (Hfloat : ∀ s, P (JFloat s)) (Hstr : ∀ s, P (JStr s)).
Context (Harr : ∀ l, Forall P l → P (JArr l)).
Context (Hobj : ∀ l, Forall (λ kv, P kv.2) l → P (JObj l)).

Fixpoint json_nested_ind (j : json) : P j :=
  match j with
  | JNull => Hnull
  | JBool b => Hbool b
  | JInt n => Hint n
  | JFloat s => Hfloat s
  | JStr s => Hstr s
  | JArr l => Harr l ((fix go (l : list json) : Forall P l :=
      match l with
      | [] => Forall_nil_2 P
      | x :: l' => Forall_cons_2 P x l' (json_nested_ind x) (go l')
      end) l)
  | JObj l => Hobj l ((fix go (l : list (string * json)) : Forall (λ kv, P kv.2) l :=
      match l with
      | [] => Forall_nil_2 _
      | x :: l' => Forall_cons_2 _ x l' (json_nested_ind x.2) (go l')
      end) l)
  end.
End JsonInd.

Lemma json_eqb_eq a b : json_eqb a b = true ↔ a = b.
Proof.
  revert b. induction a as [| | | | |l IH|l IH] using json_nested_ind;
    intros [| | | | |l'|l']; cbn; try (split; congruence).
  - rewrite Bool.eqb_true_iff. naive_solver.
  - rewrite Z.eqb_eq. naive_solver.
  - rewrite String.eqb_eq. naive_solver.
  - rewrite String.eqb_eq. naive_solver.
  - revert l'. induction IH as [|x l Hx _ IHl]; intros [|y l']; try (split; congruence).
    rewrite andb_true_iff, Hx, IHl. naive_solver.
  - revert l'. induction IH as [|[k x] l Hx _ IHl]; intros [|[k' y] l']; try (split; congruence).
    cbn in Hx. rewrite !andb_true_iff, String.eqb_eq, Hx, IHl. naive_solver.
Qed.

#[export] Instance json_eq_dec : EqDecision json.
Proof.
  refine (λ a b, match json_eqb a b as r return json_eqb a b = r → _ with
                 | true => λ H, left _ | false => λ H, right _ end eq_refl).
  - by apply json_eqb_eq.
  - intros E. apply json_eqb_eq in E. congruence.
Defined.

(** [payload.get(name)] on a JSON object: the value of the last binding of a
    key, as [json.loads] builds the dict. *)
Fixpoint obj_get (fields : list (string * json)) (name : string) : option json :=
  match fields with
  | [] => None
  | (k, v) :: fields' =>
      match obj_get fields' name with
      | Some v' => Some v'
      | None => if String.eqb k name then Some v else None
      end
  end.

(** [d[name] = value]: an existing key keeps its place. *)
Fixpoint obj_set (fields : list (string * json)) (name : string) (value : json) : list (string * json) :=
  match fields with
  | [] => [(name, value)]
  | (k, v) :: fields' =>
      if String.eqb k name then (k, value) :: fields' else (k, v) :: obj_set fields' name value
  end.

(** [d.pop(name)], of a dict (every key once). *)
Definition obj_del (fields : list (string * json)) (name : string) : list (string * json) :=
  base.filter (λ kv, kv.1 ≠ name) fields.

(** [bool(value)] of a JSON value. *)
Definition json_truthy (j : json) : bool :=
  match j with
  | JNull => false
  | JBool b => b
  | JInt n => negb (n =? 0)%Z
  | JFloat r => negb (String.eqb r "0.0" || String.eqb r "-0.0")
  | JStr s => negb (String.eqb s "")
  | JArr l => match l with [] => false | _ => true end
  | JObj l => match l with [] => false | _ => true end
  end.

(** ** Python strings, lists and truth values *)

(** [bool(s)] of a string. *)
Definition truthy (s : string) : bool := negb (String.eqb s "").

Lemma truthy_ne s : truthy s = true ↔ s ≠ "".
Proof. unfold truthy. rewrite negb_true_iff, String.eqb_neq. done. Qed.

(** [bool(s)] of a [str | None]. *)
Definition truthy_opt (o : option string) : bool :=
  match o with Some s => truthy s | None => false end.

(** [s[:n]]. *)
Definition str_take (n : nat) (s : string) : string := String.substring 0 n s.

Lemma substring_0_length n s :
  String.length (String.substring 0 n s) = Nat.min n (String.length s).
Proof.
  revert n. induction s as [|c s IH]; intros [|n]; cbn; try done. by rewrite IH.
Qed.

Lemma str_take_length n s : String.length (str_take n s) ≤ n.
Proof. unfold str_take. rewrite substring_0_length. lia. Qed.

(** [", ".join(l)] and [",".join(l)]. *)
Fixpoint str_join (sep : string) (l : list string) : string :=
  match l with
  | [] => ""
  | [s] => s
  | s :: l' => String.append s (String.append sep (str_join sep l'))
  end.

(** Characters are 8-bit; these are the ones [str.isspace] and [\s] accept. *)
Definition is_space (c : Ascii.ascii) : bool :=
  let n := Ascii.nat_of_ascii c in
  (Nat.leb 9 n && Nat.leb n 13) || (Nat.leb 28 n && Nat.leb n 32) || Nat.eqb n 133 || Nat.eqb n 160.

(** Whether [s] starts with [p], and what follows. *)
Fixpoint strip_prefix (p s : string) : option string :=
  match p, s with
  | EmptyString, _ => Some s
  | String.String c p', String.String d s' => if Ascii.eqb c d then strip_prefix p' s' else None
  | _, _ => None
  end.

(** [s.replace(old, new)]: left to right, without overlaps; an empty [old]
    matches between all characters. *)
Fixpoint replace_from (fuel : nat) (old new s : string) : string :=
  match fuel with
  | 0 => s
  | S fuel' =>
      match s with
      | EmptyString => ""
      | String.String c s' =>
          match strip_prefix old s with
          | Some rest => String.append new (replace_from fuel' old new rest)
          | None => String.String c (replace_from fuel' old new s')
          end
      end
  end.
Fixpoint interleave (new s : string) : string :=
  match s with
  | EmptyString => new
  | String.String c s' => String.append new (String.String c (interleave new s'))
  end.
Definition str_replace (old new s : string) : string :=
  if truthy old then replace_from (S (String.length s)) old new s else interleave new s.

(** [s.lower()], of the ASCII letters. *)
Definition lower (c : Ascii.ascii) : Ascii.ascii :=
  let n := Ascii.nat_of_ascii c in
  if Nat.leb 65 n && Nat.leb n 90 then Ascii.ascii_of_nat (n + 32) else c.

(** [needle in s]. *)
Fixpoint str_contains (needle s : string) : bool :=
  match strip_prefix needle s with
  | Some _ => true
  | None => match s with EmptyString => false | String.String _ s' => str_contains needle s' end
  end.

Fixpoint str_lower (s : string) : string :=
  match s with
  | EmptyString => ""
  | String.String c s' => String.String (lower c) (str_lower s')
  end.

(** [s.startswith(p)], [s.endswith(p)]. *)
Definition str_starts (p s : string) : bool := match strip_prefix p s with Some _ => true | None => false end.
Fixpoint str_ends (p s : string) : bool :=
  String.eqb s p || match s with EmptyString => false | String.String _ s' => str_ends p s' end.

(** [s.partition(c)] for a one-character separator: what is before it and what
    is after it. *)
Fixpoint str_partition (c : Ascii.ascii) (s : string) : string * string :=
  match s with
  | EmptyString => (EmptyString, EmptyString)
  | String.String d s' =>
      if Ascii.eqb d c then (EmptyString, s')
      else (String.String d (str_partition c s').1, (str_partition c s').2)
  end.

(** [s.split()]: the maximal runs of characters that are not spaces. *)
Fixpoint split_words (word s : string) : list string :=
  match s with
  | EmptyString => if truthy word then [word] else []
  | String.String c s' =>
      if is_space c then
        if truthy word then word :: split_words "" s' else split_words "" s'
      else split_words (String.append word (String.String c "")) s'
  end.
Definition str_split (s : string) : list string := split_words "" s.

(** [s.strip()]. *)
Fixpoint lstrip (s : string) : string :=
  match s with
  | String.String c s' => if is_space c then lstrip s' else s
  | EmptyString => ""
  end.
Fixpoint rstrip (s : string) : string :=
  match s with
  | EmptyString => ""
  | String.String c s' =>
      let t := rstrip s' in
      if truthy t then String.String c t else if is_space c then "" else String.String c ""
  end.
Definition str_strip (s : string) : string := rstrip (lstrip s).

(** [s[:n]] for any integer [n]: a negative one counts from the end. *)
Definition str_slice_to (n : Z) (s : string) : string :=
  if (n <? 0)%Z then str_take (Z.to_nat (Z.of_nat (String.length s) + n)) s
  else str_take (Z.to_nat n) s.

(** [list(dict.fromkeys(l))]: first occurrences, in order. *)
Fixpoint dict_fromkeys {A} `{EqDecision A} (seen l : list A) : list A :=
  match l with
  | [] => []
  | x :: l' =>
      if decide (x ∈ seen) then dict_fromkeys seen l'
      else x :: dict_fromkeys (x :: seen) l'
  end.
Definition unique_values {A} `{EqDecision A} (l : list A) : list A := dict_fromkeys [] l.

Lemma elem_of_dict_fromkeys {A} `{EqDecision A} (seen l : list A) x :
  x ∈ dict_fromkeys seen l ↔ x ∈ l ∧ x ∉ seen.
Proof.
  revert seen. induction l as [|y l IH]; intros seen; cbn; [set_solver|].
  case_decide; [rewrite IH; set_solver|].
  rewrite elem_of_cons, IH. destruct (decide (x = y)); set_solver.
Qed.

Lemma elem_of_unique_values {A} `{EqDecision A} (l : list A) x :
  x ∈ unique_values l ↔ x ∈ l.
Proof. unfold unique_values. rewrite elem_of_dict_fromkeys. set_solver. Qed.

Lemma filter_every {A} (P : A → Prop) `{∀ x, Decision (P x)} l : Forall P l → base.filter P l = l.
Proof. induction 1; [done|]. rewrite list.filter_cons_True by done. by f_equal. Qed.
Lemma filter_none {A} (P : A → Prop) `{∀ x, Decision (P x)} l :
  Forall (λ x, ¬ P x) l → base.filter P l = [].
Proof. induction 1; [done|]. by rewrite list.filter_cons_False. Qed.

(** [sorted(l, key=key, reverse=True)]: stable, largest key first. *)
Section SortDesc.
Context {A : Type} (key : A → Z).

Fixpoint insert_desc (x : A) (l : list A) : list A :=
  match l with
  | [] => [x]
  | y :: l' => if (key y <=? key x)%Z then x :: y :: l' else y :: insert_desc x l'
  end.

Fixpoint sorted_desc (l : list A) : list A :=
  match l with
  | [] => []
  | x :: l' => insert_desc x (sorted_desc l')
  end.

Lemma insert_desc_perm x l : insert_desc x l ≡ₚ x :: l.
Proof.
  induction l as [|y l IH]; cbn; [done|].
  case_match; [done|]. rewrite IH. apply Permutation_swap.
Qed.

Lemma sorted_desc_perm l : sorted_desc l ≡ₚ l.
Proof.
  induction l as [|x l IH]; cbn; [done|]. by rewrite insert_desc_perm, IH.
Qed.

Lemma elem_of_sorted_desc x l : x ∈ sorted_desc l ↔ x ∈ l.
Proof. by rewrite sorted_desc_perm. Qed.

Lemma insert_desc_sorted x l :
  StronglySorted (λ a b, (key b ≤ key a)%Z) l →
  StronglySorted (λ a b, (key b ≤ key a)%Z) (insert_desc x l).
Proof.
  induction 1 as [|y l Hs IH Hall]; cbn; [by repeat constructor|].
  case_match eqn:E.
  - apply Z.leb_le in E. constructor; [by constructor|]. constructor; [done|].
    revert Hall. apply Forall_impl. cbn. lia.
  - apply Z.leb_gt in E. constructor; [done|].
    rewrite insert_desc_perm. constructor; [lia|done].
Qed.

Lemma sorted_desc_sorted l :
  StronglySorted (λ a b, (key b ≤ key a)%Z) (sorted_desc l).
Proof. induction l; cbn; [constructor|by apply insert_desc_sorted]. Qed.
End SortDesc.

(** [min(l, key=key)]: the first element with the smallest key; [min] of an
    empty list raises, which callers exclude. *)
Fixpoint min_by {A} (key : A → Z) (best : A) (l : list A) : A :=
  match l with
  | [] => best
  | x :: l' => if (key x <? key best)%Z then min_by key x l' else min_by key best l'
  end.

Lemma min_by_elem {A} (key : A → Z) best l : min_by key best l ∈ best :: l.
Proof.
  revert best. induction l as [|x l IH]; intros best; cbn; [set_solver|].
  case_match.
  - specialize (IH x). set_solver.
  - specialize (IH best). set_solver.
Qed.

Lemma min_by_least {A} (key : A → Z) best l x :
  x ∈ best :: l → (key (min_by key best l) ≤ key x)%Z.
Proof.
  revert best x. induction l as [|y l IH]; intros best x; cbn.
  - intros ->%list_elem_of_singleton. lia.
  - intros Hx. case_match eqn:E.
    + apply Z.ltb_lt in E. apply elem_of_cons in Hx as [->|Hx]; [|by apply IH].
      specialize (IH y y (list_elem_of_here _ _)). lia.
    + apply Z.ltb_ge in E. apply elem_of_cons in Hx as [->|Hx].
      { apply IH. set_solver. }
      apply elem_of_cons in Hx as [->|Hx].
      { specialize (IH best best (list_elem_of_here _ _)). lia. }
      apply IH. set_solver.
Qed.

(** ** Iteration orders Python leaves unspecified.

    The order [Path.glob] yields files in, and the order a [set] is iterated
    in, are not fixed by the language.  [reorder] stands for either: some
    permutation of the elements.  [digest] is [hashlib.sha256(..).hexdigest()]
    and [casefold] is [str.casefold], used as black boxes, as is
    [container_repr], the [str()] of a list or dict. *)
Class Platform := {
  reorder : ∀ {A : Type}, list A → list A;
  reorder_perm : ∀ {A} (l : list A), reorder l ≡ₚ l;
  digest : string → string;
  casefold : string → string;
  container_repr : json → string;
}.

(** The simplest platform, on which concrete examples are evaluated. *)
Definition plain_platform : Platform := {|
  reorder A l := l;
  reorder_perm A l := Permutation_refl l;
  digest s := String.append "sha256:" s;
  casefold s := s;
  container_repr j := "...";
|}.

(** [str(value)] of a JSON value. *)
Definition json_str {PF : Platform} (j : json) : string :=
  match j with
  | JNull => "None"
  | JBool b => if b then "True" else "False"
  | JInt n => pretty.pretty n
  | JFloat r => r
  | JStr s => s
  | _ => container_repr j
  end.
