(* ===== verification/JsonObject.v ===== *)
(** * JSON objects as Python dicts: lookup, assignment and removal by key.

    Shared by the components that build or edit objects field by field. *)
From stdpp Require Import base list gmap strings option.
From S2P Require Import Prelude.

Lemma obj_get_set_eq l k v : NoDup (map fst l) → obj_get (obj_set l k v) k = Some v.
Proof.
  induction l as [|[k' v'] l IH]; intros Hnd; cbn [obj_set obj_get]; [by rewrite String.eqb_refl|].
  cbn in Hnd. apply list.NoDup_cons in Hnd as [Hni Hnd].
  destruct (String.eqb_spec k' k) as [->|Hne]; cbn [obj_get].
  - assert (Hg : obj_get l k = None).
    { clear -Hni. induction l as [|[k' v'] l IH]; [done|]. cbn in *. apply not_elem_of_cons in Hni as [Hne Hni].
      rewrite (IH Hni). destruct (String.eqb_spec k' k); congruence. }
    by rewrite Hg, String.eqb_refl.
  - by rewrite (IH Hnd).
Qed.

Lemma obj_get_set_ne l k k' v : k' ≠ k → obj_get (obj_set l k v) k' = obj_get l k'.
Proof.
  intros Hne. induction l as [|[k0 v0] l IH]; cbn [obj_set obj_get].
  - by destruct (String.eqb_spec k k').
  - destruct (String.eqb_spec k0 k) as [->|H0]; cbn [obj_get]; [|by rewrite IH].
    destruct (obj_get l k'); [done|]. by destruct (String.eqb_spec k k').
Qed.

(** The keys; every one once in a dict. *)
Definition keys (l : list (string * json)) : list string := map fst l.

Lemma obj_get_elem l k v : NoDup (keys l) → obj_get l k = Some v ↔ (k, v) ∈ l.
Proof.
  revert v. induction l as [|[k' v'] l IH]; cbn; intros v Hnd; [split; [done|by intros ?%not_elem_of_nil]|].
  apply list.NoDup_cons in Hnd as [Hni Hnd]. rewrite elem_of_cons.
  destruct (obj_get l k) as [v1|] eqn:E.
  - assert (Hin : (k, v1) ∈ l) by by apply (proj1 (IH v1 Hnd)). split.
    + intros [= <-]. by right.
    + intros [[= -> ->]|Hin']; [|apply (proj2 (IH _ Hnd)) in Hin'; congruence].
      exfalso. apply Hni. apply list_elem_of_fmap. by exists (k', v1).
  - destruct (String.eqb_spec k' k) as [-> |Hne]; split.
    + intros [= ->]. by left.
    + intros [[= ->]|Hin]; [done|]. apply (proj2 (IH _ Hnd)) in Hin. congruence.
    + done.
    + intros [[= -> ->]|Hin]; [done|]. apply (proj2 (IH _ Hnd)) in Hin. congruence.
Qed.

Lemma obj_get_split l k v :
  NoDup (keys l) → obj_get l k = Some v →
  ∃ l1 l2, l = l1 ++ (k, v) :: l2 ∧ k ∉ keys l1 ∧ k ∉ keys l2.
Proof.
  intros Hnd Hg. apply obj_get_elem in Hg; [|done]. apply list_elem_of_split in Hg as (l1 & l2 & ->).
  exists l1, l2. split; [done|]. unfold keys in Hnd. rewrite map_app in Hnd. cbn in Hnd.
  apply list.NoDup_app in Hnd as (_ & Hx & Hnd). apply list.NoDup_cons in Hnd as [Hnd _]. set_solver.
Qed.

Lemma obj_del_absent l k : k ∉ keys l → obj_del l k = l.
Proof.
  intros Hk. unfold obj_del. apply filter_every. apply list.Forall_forall. intros kv Hkv E. apply Hk.
  apply list_elem_of_fmap. eauto.
Qed.

Lemma obj_del_split l1 k v l2 : k ∉ keys l1 → k ∉ keys l2 → obj_del (l1 ++ (k, v) :: l2) k = l1 ++ l2.
Proof.
  intros H1 H2. unfold obj_del. rewrite list.filter_app, list.filter_cons_False by (cbn; auto).
  by f_equal; apply obj_del_absent.
Qed.

Lemma obj_set_split l1 k v l2 x : k ∉ keys l1 → obj_set (l1 ++ (k, v) :: l2) k x = l1 ++ (k, x) :: l2.
Proof.
  intros H1. induction l1 as [|[k' v'] l1 IH]; cbn; [by rewrite String.eqb_refl|].
  cbn in H1. apply not_elem_of_cons in H1 as [Hne H1]. destruct (String.eqb_spec k' k); [congruence|].
  by rewrite IH.
Qed.

Lemma obj_set_same l k v : NoDup (keys l) → obj_get l k = Some v → obj_set l k v = l.
Proof. intros Hnd Hg. destruct (obj_get_split l k v Hnd Hg) as (l1 & l2 & -> & H1 & _). by apply obj_set_split. Qed.

Lemma obj_set_set l k x y : obj_set (obj_set l k x) k y = obj_set l k y.
Proof.
  induction l as [|[k' v'] l IH]; cbn; [by rewrite String.eqb_refl|].
  destruct (String.eqb k' k) eqn:E; cbn; rewrite E; [done|by rewrite IH].
Qed.

Lemma keys_obj_set l k v x : NoDup (keys l) → obj_get l k = Some v → keys (obj_set l k x) = keys l.
Proof.
  intros Hnd Hg. destruct (obj_get_split l k v Hnd Hg) as (l1 & l2 & -> & H1 & _).
  rewrite obj_set_split by done. unfold keys. by rewrite !map_app.
Qed.

Lemma keys_obj_del l k : keys (obj_del l k) = base.filter (λ k', k' ≠ k) (keys l).
Proof.
  induction l as [|[k' v] l IH]; [done|]. unfold obj_del in *. cbn [keys map fst].
  destruct (decide (k' = k)).
  - rewrite !list.filter_cons_False by auto. done.
  - rewrite !list.filter_cons_True by auto. cbn. by f_equal.
Qed.

Lemma NoDup_obj_del l k : NoDup (keys l) → NoDup (keys (obj_del l k)).
Proof. intros Hnd. rewrite keys_obj_del. by apply list.NoDup_filter. Qed.

Lemma obj_get_del l k k' : NoDup (keys l) → k' ≠ k → obj_get (obj_del l k) k' = obj_get l k'.
Proof.
  intros Hnd Hne. apply option_eq. intros v. rewrite !obj_get_elem by eauto using NoDup_obj_del.
  unfold obj_del. rewrite list_elem_of_filter. cbn. naive_solver.
Qed.

Lemma obj_get_is_key l k v : obj_get l k = Some v → k ∈ keys l.
Proof.
  induction l as [|[k' v'] l IH]; cbn; [done|]. destruct (obj_get l k); [right; by apply IH|].
  destruct (String.eqb_spec k' k) as [-> |]; [left|done].
Qed.

Lemma key_obj_get l k : k ∈ keys l → is_Some (obj_get l k).
Proof.
  induction l as [|[k' v'] l IH]; cbn; [by intros ?%not_elem_of_nil|].
  intros [-> |H]%elem_of_cons; [destruct (obj_get l k'); rewrite ?String.eqb_refl; eauto|].
  destruct (IH H) as [v ->]. eauto.
Qed.
