(* ===== verification/JsonText.v ===== *)
(** * JSON text.

    [json.dumps(value, ensure_ascii=False)] and [json.loads] of the Python
    standard library, as the turn buffers use them
    ([src/cowork/streaming/buffer.py], [recovery.py]).  A [str] is its UTF-8
    encoding, so characters above ASCII are written as they are.  A float is its
    printed form.  The recursion limit of the library is not modelled. *)
From stdpp Require Import base list strings option.
From Stdlib Require Import ZArith Lia DecimalString DecimalZ DecimalFacts.
From S2P Require Import Prelude.

Notation chr := Ascii.ascii_of_nat.
Notation ord := Ascii.nat_of_ascii.

Definition cQuote : Ascii.ascii := chr 34.
Definition cBackslash : Ascii.ascii := chr 92.

(** ** UTF-8 *)

(** The decoder between two bytes: how many continuation bytes are due, and the
    range of the next one. *)
Definition utf8_state : Type := nat * (nat * nat).
Definition utf8_start : utf8_state := (0, (0, 0)).

(** One byte; [strict] refuses the encodings of surrogates, as the codec of a
    text file does and that of [json.loads] does not. *)
Definition utf8_step (strict : bool) (st : utf8_state) (c : Ascii.ascii) : option utf8_state :=
  let n := ord c in
  match st with
  | (0, _) =>
      if Nat.ltb n 128 then Some utf8_start
      else if Nat.leb 194 n && Nat.leb n 223 then Some (1, (128, 191))
      else if Nat.eqb n 224 then Some (2, (160, 191))
      else if Nat.eqb n 237 then Some (2, (128, if strict then 159 else 191))
      else if Nat.leb 225 n && Nat.leb n 239 then Some (2, (128, 191))
      else if Nat.eqb n 240 then Some (3, (144, 191))
      else if Nat.leb 241 n && Nat.leb n 243 then Some (3, (128, 191))
      else if Nat.eqb n 244 then Some (3, (128, 143))
      else None
  | (1, (lo, hi)) => if Nat.leb lo n && Nat.leb n hi then Some utf8_start else None
  | (S k, (lo, hi)) => if Nat.leb lo n && Nat.leb n hi then Some (k, (128, 191)) else None
  end.

Fixpoint utf8_run (strict : bool) (st : utf8_state) (s : string) : option utf8_state :=
  match s with
  | EmptyString => Some st
  | String.String c s' =>
      match utf8_step strict st c with Some st' => utf8_run strict st' s' | None => None end
  end.

(** Whether the bytes decode. *)
Definition utf8_valid (strict : bool) (s : string) : bool :=
  match utf8_run strict utf8_start s with Some (0, _) => true | _ => false end.

(** ** Writing *)

(** Digits of [\u00XX] for a control character. *)
Definition hex_digit (n : nat) : Ascii.ascii :=
  if Nat.ltb n 10 then chr (48 + n) else chr (87 + n).

(** [ESCAPE_DCT]: what [encode_basestring] writes for one character. *)
Definition escape_char (c : Ascii.ascii) : string :=
  let n := ord c in
  let esc (x : nat) := String.String cBackslash (String.String (chr x) "") in
  if Nat.eqb n 34 then esc 34
  else if Nat.eqb n 92 then esc 92
  else if Nat.eqb n 8 then esc 98
  else if Nat.eqb n 12 then esc 102
  else if Nat.eqb n 10 then esc 110
  else if Nat.eqb n 13 then esc 114
  else if Nat.eqb n 9 then esc 116
  else if Nat.ltb n 32 then
    String.append (String.String cBackslash "u00")
      (String.String (hex_digit (n / 16)) (String.String (hex_digit (n mod 16)) ""))
  else String.String c "".

Fixpoint escape (s : string) : string :=
  match s with
  | EmptyString => ""
  | String.String c s' => String.append (escape_char c) (escape s')
  end.

Definition dumps_str (s : string) : string :=
  String.String cQuote (String.append (escape s) (String.String cQuote "")).

Definition dumps_int (n : Z) : string := NilZero.string_of_int (Z.to_int n).

(** [", "] and [": "] are the default separators. *)
Fixpoint dumps (j : json) : string :=
  match j with
  | JNull => "null"
  | JBool b => if b then "true" else "false"
  | JInt n => dumps_int n
  | JFloat r => r
  | JStr s => dumps_str s
  | JArr l =>
      String.append "[" (String.append
        ((fix items (l : list json) : string :=
            match l with
            | [] => ""
            | [x] => dumps x
            | x :: l' => String.append (dumps x) (String.append ", " (items l'))
            end) l) "]")
  | JObj l =>
      String.append "{" (String.append
        ((fix members (l : list (string * json)) : string :=
            match l with
            | [] => ""
            | [(k, x)] => String.append (dumps_str k) (String.append ": " (dumps x))
            | (k, x) :: l' =>
                String.append (dumps_str k) (String.append ": "
                  (String.append (dumps x) (String.append ", " (members l'))))
            end) l) "}")
  end.

(** ** Reading *)

(** [WHITESPACE]. *)
Definition is_ws (c : Ascii.ascii) : bool :=
  let n := ord c in Nat.eqb n 32 || Nat.eqb n 9 || Nat.eqb n 10 || Nat.eqb n 13.
Fixpoint skip_ws (s : string) : string :=
  match s with
  | String.String c s' => if is_ws c then skip_ws s' else s
  | EmptyString => ""
  end.

Definition is_digit (c : Ascii.ascii) : bool := Nat.leb 48 (ord c) && Nat.leb (ord c) 57.
Fixpoint digits (s : string) : string * string :=
  match s with
  | String.String c s' =>
      if is_digit c then let '(d, r) := digits s' in (String.String c d, r) else ("", s)
  | EmptyString => ("", "")
  end.

Definition hex_value (c : Ascii.ascii) : option nat :=
  let n := ord c in
  if is_digit c then Some (n - 48)
  else if Nat.leb 97 n && Nat.leb n 102 then Some (n - 87)
  else if Nat.leb 65 n && Nat.leb n 70 then Some (n - 55)
  else None.

(** The pieces of a string literal: a plain character, or the code unit of a
    [\u] escape. *)
Inductive piece := Plain (c : Ascii.ascii) | Unit (n : nat).

Definition simple_escape (c : Ascii.ascii) : option Ascii.ascii :=
  let n := ord c in
  if Nat.eqb n 34 || Nat.eqb n 92 || Nat.eqb n 47 then Some c
  else if Nat.eqb n 98 then Some (chr 8)
  else if Nat.eqb n 102 then Some (chr 12)
  else if Nat.eqb n 110 then Some (chr 10)
  else if Nat.eqb n 114 then Some (chr 13)
  else if Nat.eqb n 116 then Some (chr 9)
  else None.

Definition piece_cons (p : piece) (r : option (list piece * string)) : option (list piece * string) :=
  match r with Some (ps, rest) => Some (p :: ps, rest) | None => None end.

(** [scanstring], strict: a control character ends it with an error. *)
Fixpoint scan_pieces (s : string) : option (list piece * string) :=
  match s with
  | EmptyString => None
  | String.String c s1 =>
      if Nat.eqb (ord c) 34 then Some ([], s1)
      else if Nat.eqb (ord c) 92 then
        match s1 with
        | String.String e s2 =>
            if Nat.eqb (ord e) 117 then
              match s2 with
              | String.String a (String.String b (String.String d (String.String f s6))) =>
                  match hex_value a, hex_value b, hex_value d, hex_value f with
                  | Some x, Some y, Some z, Some t =>
                      piece_cons (Unit (x * 4096 + y * 256 + z * 16 + t)) (scan_pieces s6)
                  | _, _, _, _ => None
                  end
              | _ => None
              end
            else
              match simple_escape e with
              | Some x => piece_cons (Plain x) (scan_pieces s2)
              | None => None
              end
        | EmptyString => None
        end
      else if Nat.ltb (ord c) 32 then None
      else piece_cons (Plain c) (scan_pieces s1)
  end.

(** The UTF-8 encoding of a code point; a lone surrogate keeps its three
    bytes. *)
Definition utf8 (n : nat) : string :=
  let cont x := chr (128 + x mod 64) in
  if Nat.ltb n 128 then String.String (chr n) ""
  else if Nat.ltb n 2048 then String.String (chr (192 + n / 64)) (String.String (cont n) "")
  else if Nat.ltb n 65536 then
    String.String (chr (224 + n / 4096)) (String.String (cont (n / 64)) (String.String (cont n) ""))
  else
    String.String (chr (240 + n / 262144)) (String.String (cont (n / 4096))
      (String.String (cont (n / 64)) (String.String (cont n) ""))).

Definition high_surrogate (n : nat) : bool := Nat.leb 55296 n && Nat.leb n 56319.
Definition low_surrogate (n : nat) : bool := Nat.leb 56320 n && Nat.leb n 57343.

Fixpoint join_pieces (ps : list piece) : string :=
  match ps with
  | [] => ""
  | Plain c :: ps' => String.String c (join_pieces ps')
  | Unit n :: ps' =>
      match ps' with
      | Unit m :: ps'' =>
          if high_surrogate n && low_surrogate m
          then String.append (utf8 (65536 + (n - 55296) * 1024 + (m - 56320))) (join_pieces ps'')
          else String.append (utf8 n) (join_pieces ps')
      | _ => String.append (utf8 n) (join_pieces ps')
      end
  end.

Definition scan_string (s : string) : option (string * string) :=
  match scan_pieces s with
  | Some (ps, rest) => Some (join_pieces ps, rest)
  | None => None
  end.

(** [NUMBER_RE]: the integer part, a fraction and an exponent. *)
Definition scan_fraction (s : string) : string * string :=
  match s with
  | String.String c r =>
      if Nat.eqb (ord c) 46 then
        match digits r with
        | (EmptyString, _) => ("", s)
        | (d, r') => (String.String c d, r')
        end
      else ("", s)
  | EmptyString => ("", s)
  end.
Definition scan_exponent (s : string) : string * string :=
  match s with
  | String.String c r =>
      if Nat.eqb (ord c) 101 || Nat.eqb (ord c) 69 then
        let '(sign, r1) :=
          match r with
          | String.String x r1 => if Nat.eqb (ord x) 43 || Nat.eqb (ord x) 45 then (String.String x "", r1) else ("", r)
          | EmptyString => ("", r)
          end in
        match digits r1 with
        | (EmptyString, _) => ("", s)
        | (d, r') => (String.String c (String.append sign d), r')
        end
      else ("", s)
  | EmptyString => ("", s)
  end.
Definition scan_natural (s : string) : option (string * string) :=
  match s with
  | String.String c r =>
      if Nat.eqb (ord c) 48 then Some (String.String c "", r)
      else if is_digit c then Some (digits s) else None
  | EmptyString => None
  end.
Definition scan_number (s : string) : option (json * string) :=
  let '(sign, body) :=
    match s with
    | String.String c r => if Nat.eqb (ord c) 45 then (String.String c "", r) else ("", s)
    | EmptyString => ("", s)
    end in
  match scan_natural body with
  | None => None
  | Some (d, r) =>
      let '(f, r1) := scan_fraction r in
      let '(e, r2) := scan_exponent r1 in
      let whole := String.append sign d in
      if truthy f || truthy e then Some (JFloat (String.append whole (String.append f e)), r2)
      else
        match NilZero.int_of_string whole with
        | Some i => Some (JInt (Z.of_int i), r2)
        | None => None
        end
  end.

(** [scan_once], [JSONObject] and [JSONArray]; the fuel bounds the nesting and
    the length, and [loads] gives as much as the text is long. *)
Fixpoint parse_value (fuel : nat) (s : string) {struct fuel} : option (json * string) :=
  match fuel with
  | 0 => None
  | S n =>
      match s with
      | EmptyString => None
      | String.String c r =>
          if Nat.eqb (ord c) 34 then
            match scan_string r with Some (x, rest) => Some (JStr x, rest) | None => None end
          else if Nat.eqb (ord c) 123 then
            match skip_ws r with
            | String.String d r' =>
                if Nat.eqb (ord d) 125 then Some (JObj [], r') else parse_members n [] (String.String d r')
            | EmptyString => None
            end
          else if Nat.eqb (ord c) 91 then
            match skip_ws r with
            | String.String d r' =>
                if Nat.eqb (ord d) 93 then Some (JArr [], r') else parse_items n [] (String.String d r')
            | EmptyString => None
            end
          else
            match strip_prefix "null" s with
            | Some r' => Some (JNull, r')
            | None =>
                match strip_prefix "true" s with
                | Some r' => Some (JBool true, r')
                | None =>
                    match strip_prefix "false" s with
                    | Some r' => Some (JBool false, r')
                    | None => scan_number s
                    end
                end
            end
      end
  end
with parse_members (fuel : nat) (acc : list (string * json)) (s : string) {struct fuel} :
    option (json * string) :=
  match fuel with
  | 0 => None
  | S n =>
      match s with
      | EmptyString => None
      | String.String c r =>
          if Nat.eqb (ord c) 34 then
            match scan_string r with
            | None => None
            | Some (k, r1) =>
                match skip_ws r1 with
                | String.String d r2 =>
                    if Nat.eqb (ord d) 58 then
                      match parse_value n (skip_ws r2) with
                      | None => None
                      | Some (v, r3) =>
                          match skip_ws r3 with
                          | String.String e r4 =>
                              if Nat.eqb (ord e) 125 then Some (JObj (obj_set acc k v), r4)
                              else if Nat.eqb (ord e) 44 then parse_members n (obj_set acc k v) (skip_ws r4)
                              else None
                          | EmptyString => None
                          end
                      end
                    else None
                | EmptyString => None
                end
            end
          else None
      end
  end
with parse_items (fuel : nat) (acc : list json) (s : string) {struct fuel} : option (json * string) :=
  match fuel with
  | 0 => None
  | S n =>
      match parse_value n s with
      | None => None
      | Some (v, r) =>
          match skip_ws r with
          | String.String e r' =>
              if Nat.eqb (ord e) 93 then Some (JArr (acc ++ [v]), r')
              else if Nat.eqb (ord e) 44 then parse_items n (acc ++ [v]) (skip_ws r')
              else None
          | EmptyString => None
          end
      end
  end.

(** [json.loads]; [None] is [JSONDecodeError]. *)
Definition loads (s : string) : option json :=
  match parse_value (S (String.length s)) (skip_ws s) with
  | Some (j, rest) => if truthy (skip_ws rest) then None else Some j
  | None => None
  end.

Example loads_example :
  loads (dumps (JObj [("seq", JInt 12); ("t", JStr (String.String (chr 10) "x")); ("f", JFloat "1.5e-3");
    ("l", JArr [JNull; JBool true; JInt (-7)]); ("e", JObj [])])) =
  Some (JObj [("seq", JInt 12); ("t", JStr (String.String (chr 10) "x")); ("f", JFloat "1.5e-3");
    ("l", JArr [JNull; JBool true; JInt (-7)]); ("e", JObj [])]).
Proof. vm_compute. reflexivity. Qed.

(** ** What is written can be read *)

(** A character takes part in a number. *)
Definition number_char (c : Ascii.ascii) : bool :=
  is_digit c || Nat.eqb (ord c) 46 || Nat.eqb (ord c) 101 || Nat.eqb (ord c) 69.

(** What may follow a number. *)
Definition stops (s : string) : Prop :=
  match s with String.String c _ => number_char c = false | EmptyString => True end.

(** The values Python objects can be: distinct keys, floats as printed, strings
    that can be encoded. *)
Fixpoint json_wf (j : json) : Prop :=
  match j with
  | JStr s => utf8_valid true s = true
  | JFloat r => scan_number r = Some (JFloat r, "")
  | JArr l => (fix go (l : list json) : Prop := match l with [] => True | x :: l' => json_wf x ∧ go l' end) l
  | JObj l => NoDup (map fst l) ∧
      (fix go (l : list (string * json)) : Prop :=
         match l with [] => True | (k, x) :: l' => (utf8_valid true k = true ∧ json_wf x) ∧ go l' end) l
  | _ => True
  end.

Lemma append_cons c s t : String.append (String.String c s) t = String.String c (String.append s t).
Proof. done. Qed.
Lemma append_nil t : String.append "" t = t.
Proof. done. Qed.
Lemma append_assoc (a b c : string) :
  String.append (String.append a b) c = String.append a (String.append b c).
Proof. induction a as [|x a IH]; [done|]. by rewrite !append_cons, IH. Qed.
Lemma append_empty_r (a : string) : String.append a "" = a.
Proof. induction a as [|x a IH]; [done|]. by rewrite append_cons, IH. Qed.
Lemma length_append (a b : string) :
  String.length (String.append a b) = String.length a + String.length b.
Proof. induction a as [|x a IH]; [done|]. rewrite append_cons. cbn. by rewrite IH. Qed.

(** *** Strings *)

Definition escaped_piece (c : Ascii.ascii) : piece :=
  let n := ord c in
  if Nat.ltb n 32 && negb (Nat.eqb n 8 || Nat.eqb n 9 || Nat.eqb n 10 || Nat.eqb n 12 || Nat.eqb n 13)
  then Unit n else Plain c.

Lemma scan_escape_char c t :
  scan_pieces (String.append (escape_char c) t) = piece_cons (escaped_piece c) (scan_pieces t).
Proof. destruct c as [[] [] [] [] [] [] [] []]; reflexivity. Qed.

Lemma scan_escape s t :
  scan_pieces (String.append (escape s) (String.String cQuote t)) =
    Some (map escaped_piece (String.list_ascii_of_string s), t).
Proof.
  induction s as [|c s IH]; cbn [escape]; [done|].
  by rewrite append_assoc, scan_escape_char, IH.
Qed.

Lemma join_escaped c ps : join_pieces (escaped_piece c :: ps) = String.String c (join_pieces ps).
Proof.
  assert (H : match escaped_piece c with Unit n => high_surrogate n = false ∧ utf8 n = String.String c "" | Plain d => d = c end)
    by (destruct c as [[] [] [] [] [] [] [] []]; vm_compute; repeat split).
  destruct (escaped_piece c) as [d|n]; [by subst|]. destruct H as [Hs Hu]. cbn [join_pieces].
  rewrite Hs, Hu. destruct ps as [|[] ?]; done.
Qed.

Lemma scan_dumps_str s t :
  scan_string (String.append (escape s) (String.String cQuote t)) = Some (s, t).
Proof.
  unfold scan_string. rewrite scan_escape. f_equal. f_equal.
  induction s as [|c s IH]; [done|]. cbn [String.list_ascii_of_string map]. by rewrite join_escaped, IH.
Qed.

(** *** Numbers *)

Lemma digits_app s d r t :
  digits s = (d, r) → (r = "" → stops t) → digits (String.append s t) = (d, String.append r t).
Proof.
  revert d. induction s as [|c s IH]; intros d H Ht; cbn [digits] in H.
  - injection H as <- <-. rewrite append_nil. specialize (Ht eq_refl). destruct t as [|x t]; [done|]. cbn.
    unfold stops, number_char in Ht. by rewrite !orb_false_iff in Ht; destruct Ht as [[[-> _] _] _].
  - rewrite append_cons. cbn [digits]. destruct (is_digit c); [|by injection H as <- <-].
    destruct (digits s) as [d' r'] eqn:E. injection H as <- <-. by rewrite (IH d' eq_refl Ht).
Qed.

Lemma stops_cases t :
  stops t → t = "" ∨ ∃ c r, t = String.String c r ∧ is_digit c = false ∧ Nat.eqb (ord c) 46 = false ∧
    Nat.eqb (ord c) 101 = false ∧ Nat.eqb (ord c) 69 = false.
Proof.
  destruct t as [|c r]; [by left|]. intros H. right. exists c, r. unfold stops, number_char in H.
  rewrite !orb_false_iff in H. naive_solver.
Qed.

Lemma scan_exponent_app s e t :
  scan_exponent s = (e, "") → stops t → scan_exponent (String.append s t) = (e, t).
Proof.
  intros H Ht. destruct s as [|c s]; cbn [scan_exponent] in H.
  - injection H as <-. destruct (stops_cases t Ht) as [->|(c & r & -> & _ & _ & H1 & H2)]; [done|].
    rewrite append_nil. cbn [scan_exponent]. by rewrite H1, H2.
  - rewrite append_cons. cbn [scan_exponent]. destruct (_ || _); [|done].
    destruct s as [|x s].
    { cbn in H. done. }
    rewrite append_cons. destruct (Nat.eqb (ord x) 43 || Nat.eqb (ord x) 45).
    + destruct (digits s) as [d r] eqn:Ed. destruct d as [|y d]; [done|]. injection H as <- ->.
      by rewrite (digits_app _ _ _ t Ed (λ _, Ht)).
    + destruct (digits (String.String x s)) as [d r] eqn:Ed. destruct d as [|y d]; [done|]. injection H as <- ->.
      rewrite <-append_cons. by rewrite (digits_app _ _ _ t Ed (λ _, Ht)).
Qed.

Lemma scan_fraction_app s f r e t :
  scan_fraction s = (f, r) → scan_exponent r = (e, "") → stops t →
  scan_fraction (String.append s t) = (f, String.append r t).
Proof.
  intros H He Ht. destruct s as [|c s]; cbn [scan_fraction] in H.
  - injection H as <- <-. destruct (stops_cases t Ht) as [->|(c & r & -> & _ & H1 & _)]; [done|].
    rewrite append_nil. cbn [scan_fraction]. by rewrite H1.
  - rewrite append_cons. cbn [scan_fraction]. destruct (Nat.eqb (ord c) 46) eqn:Ec; [|by injection H as <- <-].
    destruct (digits s) as [d r'] eqn:Ed. destruct d as [|x d].
    + injection H as <- <-. cbn [scan_exponent] in He. apply Nat.eqb_eq in Ec. by rewrite Ec in He.
    + injection H as <- <-. by rewrite (digits_app _ _ _ t Ed (λ _, Ht)).
Qed.

Lemma scan_natural_app s d r t :
  scan_natural s = Some (d, r) → (r = "" → stops t) →
  scan_natural (String.append s t) = Some (d, String.append r t).
Proof.
  destruct s as [|c s]; [done|]. rewrite append_cons. cbn [scan_natural].
  destruct (Nat.eqb (ord c) 48); [by intros [= <- <-]|]. destruct (is_digit c); [|done].
  intros H Ht. injection H as H. change (digits (String.String c s) = (d, r)) in H.
  rewrite <-append_cons. by rewrite (digits_app _ _ _ t H Ht).
Qed.

Lemma scan_number_app s v t :
  scan_number s = Some (v, "") → stops t → scan_number (String.append s t) = Some (v, t).
Proof.
  assert (Hbody : ∀ sign body d r f r1 e r2 rest,
    scan_natural body = Some (d, r) → scan_fraction r = (f, r1) → scan_exponent r1 = (e, r2) → r2 = "" → stops rest →
    scan_natural (String.append body rest) = Some (d, String.append r rest) ∧
    scan_fraction (String.append r rest) = (f, String.append r1 rest) ∧
    scan_exponent (String.append r1 rest) = (e, rest) ∧ sign = sign :> string).
  { intros sign body d r f r1 e r2 rest Hn Hf He -> Hr. split_and!; [|by eapply scan_fraction_app|by apply scan_exponent_app|done].
    by apply scan_natural_app. }
  intros H Ht. unfold scan_number in *.
  set (sb := match s with String.String c r => _ | EmptyString => _ end) in H.
  assert (Hsb : s ≠ "" → match String.append s t with
     | String.String c r => if Nat.eqb (ord c) 45 then (String.String c "", r) else ("", String.append s t)
     | EmptyString => ("", String.append s t) end = (sb.1, String.append sb.2 t)).
  { unfold sb. destruct s as [|c r]; [done|]. rewrite append_cons. by destruct (Nat.eqb _ _). }
  destruct sb as [sign body] eqn:Esb.
  assert (Hne : s ≠ "") by (intros ->; injection Esb as <- <-; done).
  rewrite (Hsb Hne). cbn [fst snd].
  destruct (scan_natural body) as [[d r]|] eqn:En; [|done].
  destruct (scan_fraction r) as [f r1] eqn:Ef. destruct (scan_exponent r1) as [e r2] eqn:Ee.
  assert (r2 = "") as ->.
  { destruct (truthy f || truthy e); [by injection H as <- ->|].
    destruct (NilZero.int_of_string _); [|done]. by injection H as <- ->. }
  destruct (Hbody sign body d r f r1 e "" t En Ef Ee eq_refl Ht) as (-> & E2 & E3 & _).
  rewrite E2, E3. destruct (truthy f || truthy e); [by injection H as <-|].
  destruct (NilZero.int_of_string _); [|done]. by injection H as <-.
Qed.

Lemma digits_uint u : digits (NilEmpty.string_of_uint u) = (NilEmpty.string_of_uint u, "").
Proof. induction u as [|u IH|u IH|u IH|u IH|u IH|u IH|u IH|u IH|u IH|u IH]; cbn; [done|by rewrite IH..]. Qed.

Lemma scan_natural_uint u :
  u ≠ Decimal.Nil → (∀ v, u = Decimal.D0 v → v = Decimal.Nil) →
  scan_natural (NilEmpty.string_of_uint u) = Some (NilEmpty.string_of_uint u, "").
Proof.
  intros Hn H0. destruct u as [|u|u|u|u|u|u|u|u|u|u]; [done| |..];
    [by rewrite (H0 u eq_refl)|cbn; by rewrite digits_uint..].
Qed.

Lemma unorm_head u :
  Decimal.unorm u ≠ Decimal.Nil ∧ ∀ v, Decimal.unorm u = Decimal.D0 v → v = Decimal.Nil.
Proof.
  split; [apply unorm_nonnil|]. intros v. unfold Decimal.unorm.
  destruct (Decimal.nzhead u) eqn:E; try done; [by intros [= <-]|]. by apply nzhead_nonzero in E.
Qed.

Lemma scan_dumps_int n : scan_number (dumps_int n) = Some (JInt n, "").
Proof.
  assert (Hnorm : Z.to_int n = Decimal.norm (Z.to_int n)) by (by rewrite <-DecimalZ.to_of, DecimalZ.of_to).
  assert (Hisi : ∀ i, i = Z.to_int n → i ≠ Decimal.Pos Decimal.Nil → i ≠ Decimal.Neg Decimal.Nil →
    ∀ sign u, NilZero.string_of_int i = String.append sign (NilEmpty.string_of_uint u) →
    match NilZero.int_of_string (String.append sign (NilEmpty.string_of_uint u)) with
    | Some i => Some (JInt (Z.of_int i), "") | None => None end = Some (JInt n, "")).
  { intros i Hi H1 H2 sign u E. rewrite <-E, NilZero.isi by done. by rewrite Hi, DecimalZ.of_to. }
  unfold dumps_int. destruct (Z.to_int n) as [u|u] eqn:Ez; cbn in Hnorm.
  - injection Hnorm as Hu. destruct (unorm_head u) as [Hn H0]. rewrite <-Hu in Hn, H0.
    assert (Es : NilZero.string_of_int (Decimal.Pos u) = NilEmpty.string_of_uint u) by (by destruct u).
    rewrite Es. unfold scan_number.
    assert (Eb : match NilEmpty.string_of_uint u with
      | String.String c r => if Nat.eqb (ord c) 45 then (String.String c "", r) else ("", NilEmpty.string_of_uint u)
      | EmptyString => ("", NilEmpty.string_of_uint u) end = ("", NilEmpty.string_of_uint u)) by (by destruct u).
    rewrite Eb, scan_natural_uint by done. cbn [scan_fraction scan_exponent truthy String.eqb negb orb].
    apply (Hisi (Decimal.Pos u)); [done|congruence|done|]. by rewrite append_nil.
  - assert (Hu : Decimal.nzhead u = u ∧ u ≠ Decimal.Nil).
    { destruct (Decimal.nzhead u) eqn:E0; [done|..]; injection Hnorm as ->; done. }
    destruct Hu as [Hu Hn].
    assert (Es : NilZero.string_of_int (Decimal.Neg u) = String.String (chr 45) (NilEmpty.string_of_uint u)) by (by destruct u).
    rewrite Es. unfold scan_number. change (Nat.eqb (ord (chr 45)) 45) with true. cbn iota.
    rewrite scan_natural_uint; [|done|intros v ->; by apply nzhead_nonzero in Hu].
    cbn [scan_fraction scan_exponent truthy String.eqb negb orb].
    apply (Hisi (Decimal.Neg u)); [done|done|congruence|]. by rewrite Es.
Qed.

(** *** Values *)

Lemma number_value n s v r :
  scan_number s = Some (v, r) → parse_value (S n) s = Some (v, r).
Proof.
  intros H. destruct s as [|c s]; [done|].
  assert (Hc : is_digit c = true ∨ Nat.eqb (ord c) 45 = true).
  { unfold scan_number in H. destruct (Nat.eqb (ord c) 45); [by right|]. left. cbn [scan_natural] in H.
    destruct (Nat.eqb (ord c) 48) eqn:E0; [apply Nat.eqb_eq in E0; unfold is_digit; by rewrite E0|].
    by destruct (is_digit c). }
  assert (Hd : Nat.eqb (ord c) 34 = false ∧ Nat.eqb (ord c) 123 = false ∧ Nat.eqb (ord c) 91 = false ∧
    strip_prefix "null" (String.String c s) = None ∧ strip_prefix "true" (String.String c s) = None ∧
    strip_prefix "false" (String.String c s) = None).
  { destruct c as [[] [] [] [] [] [] [] []]; vm_compute in Hc; destruct Hc as [Hc|Hc]; try discriminate Hc;
      repeat split. }
  destruct Hd as (E1 & E2 & E3 & E4 & E5 & E6). cbn [parse_value].
  by rewrite E1, E2, E3, E4, E5, E6.
Qed.

(** The first character of a value: not white space, and not the end of an
    object or array. *)
Definition value_head (s : string) : Prop :=
  match s with
  | String.String c _ => is_ws c = false ∧ Nat.eqb (ord c) 93 = false ∧ Nat.eqb (ord c) 125 = false
  | EmptyString => False
  end.

Lemma scan_number_head s v r : scan_number s = Some (v, r) → value_head s.
Proof.
  intros H. destruct s as [|c s]; [done|]. unfold scan_number in H. unfold value_head.
  destruct (Nat.eqb (ord c) 45) eqn:E; [apply Nat.eqb_eq in E; unfold is_ws; by rewrite E|].
  cbn [scan_natural] in H. destruct (Nat.eqb (ord c) 48) eqn:E0; [apply Nat.eqb_eq in E0; unfold is_ws; by rewrite E0|].
  destruct (is_digit c) eqn:Ed; [|done]. clear -Ed.
  destruct c as [[] [] [] [] [] [] [] []]; vm_compute in Ed; try discriminate Ed; by repeat split.
Qed.

Lemma value_head_app s t : value_head s → value_head (String.append s t).
Proof. by destruct s. Qed.

Lemma skip_ws_head s : value_head s → skip_ws s = s.
Proof. destruct s as [|c s]; [done|]. cbn. by intros [-> _]. Qed.

Lemma dumps_head j : json_wf j → value_head (dumps j).
Proof.
  destruct j as [|b|n|r|s|l|l]; cbn [json_wf dumps]; intros Hw; try done.
  - by destruct b.
  - eapply scan_number_head, scan_dumps_int.
  - by eapply scan_number_head.
Qed.

(** How much fuel reading back a value takes. *)
Fixpoint json_fuel (j : json) : nat :=
  match j with
  | JArr l => S ((fix go (l : list json) : nat := match l with [] => 0 | x :: l' => S (json_fuel x `max` go l') end) l)
  | JObj l => S ((fix go (l : list (string * json)) : nat :=
      match l with [] => 0 | (_, x) :: l' => S (json_fuel x `max` go l') end) l)
  | _ => 1
  end.

Definition arr_fuel (l : list json) : nat := pred (json_fuel (JArr l)).
Definition obj_fuel (l : list (string * json)) : nat := pred (json_fuel (JObj l)).

(** The text between the brackets. *)
Definition dumps_items (l : list json) : string :=
  (fix items (l : list json) : string :=
     match l with
     | [] => ""
     | [x] => dumps x
     | x :: l' => String.append (dumps x) (String.append ", " (items l'))
     end) l.
Definition dumps_members (l : list (string * json)) : string :=
  (fix members (l : list (string * json)) : string :=
     match l with
     | [] => ""
     | [(k, x)] => String.append (dumps_str k) (String.append ": " (dumps x))
     | (k, x) :: l' =>
         String.append (dumps_str k) (String.append ": "
           (String.append (dumps x) (String.append ", " (members l'))))
     end) l.

Lemma obj_set_fresh acc k v : k ∉ map fst acc → obj_set acc k v = acc ++ [(k, v)].
Proof.
  induction acc as [|[k' v'] acc IH]; cbn; [done|]. intros [Hne Hni]%not_elem_of_cons.
  destruct (String.eqb_spec k' k); [congruence|]. by rewrite IH.
Qed.

Definition reads_back (j : json) : Prop :=
  json_wf j → ∀ n t, json_fuel j ≤ n → stops t →
  parse_value n (String.append (dumps j) t) = Some (j, t).

Lemma items_read l :
  Forall reads_back l → json_wf (JArr l) → l ≠ [] → ∀ n acc t, arr_fuel l ≤ n →
  parse_items n acc (String.append (dumps_items l) (String.append "]" t)) = Some (JArr (acc ++ l), t).
Proof.
  intros Hl. induction Hl as [|x l Hx Hl IH]; intros Hw Hne n acc t Hn; [by destruct Hne|].
  destruct Hw as [Hwx Hwl]. unfold arr_fuel in Hn. cbn in Hn. destruct n as [|n]; [lia|].
  destruct l as [|y l].
  - cbn [dumps_items parse_items]. rewrite Hx; [|done|lia|exact eq_refl]. rewrite append_cons, append_nil. cbn [skip_ws].
    done.
  - change (dumps_items (x :: y :: l)) with (String.append (dumps x) (String.append ", " (dumps_items (y :: l)))).
    rewrite !append_assoc. cbn [parse_items]. rewrite Hx; [|done|lia|exact eq_refl].
    change (String.append ", " (String.append (dumps_items (y :: l)) (String.append "]" t)))
      with (String.String (chr 44) (String.String (chr 32) (String.append (dumps_items (y :: l)) (String.append "]" t)))).
    cbn [skip_ws is_ws Nat.eqb orb]. change (is_ws (chr 44)) with false. cbn iota.
    change (Nat.eqb (ord (chr 44)) 93) with false. change (Nat.eqb (ord (chr 44)) 44) with true. cbn iota.
    cbn [skip_ws]. change (is_ws (chr 32)) with true. cbn iota.
    rewrite skip_ws_head.
    + rewrite (IH Hwl); [|done|unfold arr_fuel; cbn; lia]. by rewrite <-(assoc_L (++)).
    + apply value_head_app. assert (Hy : value_head (dumps y)) by (apply dumps_head; apply Hwl).
      destruct l; [done|]. by apply value_head_app.
Qed.

Lemma dumps_str_app k t :
  String.append (dumps_str k) t = String.String cQuote (String.append (escape k) (String.String cQuote t)).
Proof. unfold dumps_str. by rewrite append_cons, append_assoc. Qed.

Lemma member_read n acc k x t :
  reads_back x → json_wf x → json_fuel x ≤ n → stops t →
  parse_members (S n) acc (String.append (dumps_str k) (String.append ": " (String.append (dumps x) t))) =
    match skip_ws t with
    | String.String e r4 =>
        if Nat.eqb (ord e) 125 then Some (JObj (obj_set acc k x), r4)
        else if Nat.eqb (ord e) 44 then parse_members n (obj_set acc k x) (skip_ws r4)
        else None
    | EmptyString => None
    end.
Proof.
  intros Hx Hw Hn Ht. rewrite dumps_str_app. cbn [parse_members].
  change (Nat.eqb (ord cQuote) 34) with true. cbn iota. rewrite scan_dumps_str.
  change (String.append ": " (String.append (dumps x) t))
    with (String.String (chr 58) (String.String (chr 32) (String.append (dumps x) t))).
  cbn [skip_ws]. change (is_ws (chr 58)) with false. cbn iota.
  change (Nat.eqb (ord (chr 58)) 58) with true. cbn iota. cbn [skip_ws].
  change (is_ws (chr 32)) with true. cbn iota.
  rewrite skip_ws_head by (by apply value_head_app, dumps_head). by rewrite Hx.
Qed.

Lemma members_read l :
  Forall (λ kv, reads_back kv.2) l → json_wf (JObj l) → l ≠ [] → ∀ n acc t,
  NoDup (map fst (acc ++ l)) → obj_fuel l ≤ n →
  parse_members n acc (String.append (dumps_members l) (String.append "}" t)) = Some (JObj (acc ++ l), t).
Proof.
  intros Hl [_ Hw]. revert Hw.
  induction Hl as [|[k x] l Hx Hl IH]; intros Hw Hne n acc t Hnd Hn; [by destruct Hne|].
  destruct Hw as [[_ Hwx] Hwl]. unfold obj_fuel in Hn. cbn in Hn, Hx. destruct n as [|n]; [lia|].
  assert (Hset : obj_set acc k x = acc ++ [(k, x)]).
  { apply obj_set_fresh. rewrite map_app in Hnd. apply list.NoDup_app in Hnd as (_ & Hd & _).
    intros Hk. apply (Hd k Hk). left. }
  destruct l as [|[k' y] l].
  - cbn [dumps_members]. rewrite !append_assoc.
    rewrite member_read; [|done|done|lia|exact eq_refl]. by rewrite Hset.
  - change (dumps_members ((k, x) :: (k', y) :: l)) with
      (String.append (dumps_str k) (String.append ": " (String.append (dumps x)
        (String.append ", " (dumps_members ((k', y) :: l)))))).
    rewrite !append_assoc. rewrite member_read; [|done|done|lia|exact eq_refl].
    change (String.append ", " (String.append (dumps_members ((k', y) :: l)) (String.append "}" t)))
      with (String.String (chr 44) (String.String (chr 32)
        (String.append (dumps_members ((k', y) :: l)) (String.append "}" t)))).
    cbn [skip_ws]. change (is_ws (chr 44)) with false. cbn iota.
    change (Nat.eqb (ord (chr 44)) 125) with false. change (Nat.eqb (ord (chr 44)) 44) with true. cbn iota.
    cbn [skip_ws]. change (is_ws (chr 32)) with true. cbn iota.
    rewrite skip_ws_head.
    + rewrite Hset, (IH Hwl).
      * by rewrite <-(assoc_L (++)).
      * done.
      * by rewrite <-(assoc_L (++)).
      * unfold obj_fuel. cbn. lia.
    + apply value_head_app. by destruct l.
Qed.

Lemma dumps_reads_back j : reads_back j.
Proof.
  induction j as [|b|z|r|s|l IH|l IH] using json_nested_ind; intros Hw n t Hn Ht;
    (destruct n as [|n]; [cbn in Hn; lia|]).
  - reflexivity.
  - by destruct b.
  - apply number_value, scan_number_app; [apply scan_dumps_int|done].
  - by apply number_value, scan_number_app.
  - cbn [dumps]. rewrite dumps_str_app. cbn [parse_value]. change (Nat.eqb (ord cQuote) 34) with true.
    cbn iota. by rewrite scan_dumps_str.
  - change (dumps (JArr l)) with (String.append "[" (String.append (dumps_items l) "]")).
    rewrite !append_assoc. change (String.append "[" ?x) with (String.String (chr 91) x). cbn [parse_value].
    change (Nat.eqb (ord (chr 91)) 34) with false. change (Nat.eqb (ord (chr 91)) 123) with false.
    change (Nat.eqb (ord (chr 91)) 91) with true. cbn iota.
    destruct l as [|x l]; [reflexivity|].
    assert (Hh : value_head (dumps_items (x :: l))).
    { assert (Hx : value_head (dumps x)) by (apply dumps_head, Hw). destruct l; [done|]. by apply value_head_app. }
    rewrite skip_ws_head by (by apply value_head_app).
    pose proof (items_read (x :: l) IH Hw ltac:(done) n [] t) as Hi.
    destruct (dumps_items (x :: l)) as [|c s]; [done|]. destruct Hh as (_ & Hh & _).
    rewrite append_cons. cbn iota beta. rewrite Hh. apply Hi. cbn in Hn. unfold arr_fuel. cbn. lia.
  - change (dumps (JObj l)) with (String.append "{" (String.append (dumps_members l) "}")).
    rewrite !append_assoc. change (String.append "{" ?x) with (String.String (chr 123) x). cbn [parse_value].
    change (Nat.eqb (ord (chr 123)) 34) with false. change (Nat.eqb (ord (chr 123)) 123) with true. cbn iota.
    destruct l as [|[k x] l]; [reflexivity|].
    assert (Hh : value_head (dumps_members ((k, x) :: l))) by (by destruct l).
    rewrite skip_ws_head by (by apply value_head_app).
    pose proof (members_read ((k, x) :: l) IH Hw ltac:(done) n [] t) as Hi.
    destruct (dumps_members ((k, x) :: l)) as [|c s]; [done|]. destruct Hh as (_ & _ & Hh).
    rewrite append_cons. cbn iota beta. rewrite Hh. apply Hi; [apply Hw|]. cbn in Hn. unfold obj_fuel. cbn. lia.
Qed.

(** The text is long enough for the fuel. *)
Lemma json_fuel_length j : json_wf j → json_fuel j ≤ String.length (dumps j).
Proof.
  assert (Hhead : ∀ s, value_head s → 1 ≤ String.length s) by (intros [|c s]; [done|cbn; lia]).
  induction j as [|b|z|r|s|l IH|l IH] using json_nested_ind; intros Hw;
    try (by apply Hhead, dumps_head).
  - change (dumps (JArr l)) with (String.append "[" (String.append (dumps_items l) "]")).
    rewrite !length_append. cbn [String.length].
    enough (arr_fuel l ≤ 1 + String.length (dumps_items l)) by (unfold arr_fuel in *; cbn in *; lia).
    induction IH as [|x l Hx _ IHl]; [cbn; lia|]. destruct Hw as [Hwx Hwl]. specialize (Hx Hwx). specialize (IHl Hwl).
    change (arr_fuel (x :: l)) with (S (json_fuel x `max` arr_fuel l)).
    destruct l as [|y l]; [cbn; lia|].
    change (dumps_items (x :: y :: l)) with (String.append (dumps x) (String.append ", " (dumps_items (y :: l)))).
    rewrite !length_append. cbn [String.length] in *. lia.
  - change (dumps (JObj l)) with (String.append "{" (String.append (dumps_members l) "}")).
    rewrite !length_append. cbn [String.length]. destruct Hw as [_ Hw].
    enough (obj_fuel l ≤ 1 + String.length (dumps_members l)) by (unfold obj_fuel in *; cbn in *; lia).
    induction IH as [|[k x] l Hx _ IHl]; [cbn; lia|]. destruct Hw as [[_ Hwx] Hwl]. specialize (Hx Hwx).
    specialize (IHl Hwl). cbn in Hx.
    change (obj_fuel ((k, x) :: l)) with (S (json_fuel x `max` obj_fuel l)).
    destruct l as [|[k' y] l].
    + cbn [dumps_members]. rewrite !length_append. cbn. lia.
    + change (dumps_members ((k, x) :: (k', y) :: l)) with
        (String.append (dumps_str k) (String.append ": " (String.append (dumps x)
          (String.append ", " (dumps_members ((k', y) :: l)))))).
      rewrite !length_append. cbn [String.length] in *. lia.
Qed.

Lemma loads_dumps j : json_wf j → loads (dumps j) = Some j.
Proof.
  intros Hw. unfold loads. rewrite skip_ws_head by (by apply dumps_head).
  pose proof (dumps_reads_back j Hw (S (String.length (dumps j))) "") as H.
  rewrite append_empty_r in H. rewrite H; [done| |done]. pose proof (json_fuel_length j Hw). lia.
Qed.

(** ** One value, one line *)

Fixpoint str_forall (p : Ascii.ascii → bool) (s : string) : bool :=
  match s with
  | EmptyString => true
  | String.String c s' => p c && str_forall p s'
  end.

Lemma str_forall_app p a b : str_forall p (String.append a b) = str_forall p a && str_forall p b.
Proof. induction a as [|c a IH]; [done|]. rewrite append_cons. cbn. by rewrite IH, andb_assoc. Qed.

Lemma str_forall_impl p q s :
  (∀ c, p c = true → q c = true) → str_forall p s = true → str_forall q s = true.
Proof.
  intros Hpq. induction s as [|c s IH]; [done|]. cbn. intros [Hc Hs]%andb_true_iff.
  by rewrite (Hpq c Hc), (IH Hs).
Qed.

Definition no_newline : string → bool := str_forall (λ c, negb (Nat.eqb (ord c) 10)).
Definition no_control : string → bool := str_forall (λ c, Nat.leb 32 (ord c)).
Definition is_ascii : string → bool := str_forall (λ c, Nat.ltb (ord c) 128).
(** The characters of numbers. *)
Definition number_text : string → bool :=
  str_forall (λ c, number_char c || Nat.eqb (ord c) 43 || Nat.eqb (ord c) 45).

Lemma number_text_plain s : number_text s = true → no_control s = true ∧ is_ascii s = true.
Proof.
  intros H. split; (eapply str_forall_impl; [|exact H]); intros c;
    destruct c as [[] [] [] [] [] [] [] []]; vm_compute; done.
Qed.

Lemma number_text_digits s d r : digits s = (d, r) → number_text d = true.
Proof.
  revert d. induction s as [|c s IH]; intros d; cbn [digits]; [by intros [= <- _]|].
  destruct (is_digit c) eqn:Ec; [|by intros [= <- _]].
  destruct (digits s) as [d' r'] eqn:E. intros [= <- <-]. specialize (IH d' eq_refl).
  unfold number_text, number_char in *. cbn [str_forall]. by rewrite Ec, IH.
Qed.

Lemma number_text_int n : number_text (dumps_int n) = true.
Proof.
  assert (Hu : ∀ u, number_text (NilEmpty.string_of_uint u) = true)
    by (intros u; eapply number_text_digits, digits_uint).
  unfold dumps_int. destruct (Z.to_int n) as [u|u]; cbn [NilZero.string_of_int];
    (destruct u; [done|exact (Hu _)..]).
Qed.

Lemma number_text_fraction s f r : scan_fraction s = (f, r) → number_text f = true.
Proof.
  destruct s as [|c s]; cbn [scan_fraction]; [by intros [= <- _]|].
  destruct (Nat.eqb (ord c) 46) eqn:Ec; [|by intros [= <- _]].
  destruct (digits s) as [d r'] eqn:Ed. destruct d as [|x d]; intros [= <- _]; [done|].
  apply number_text_digits in Ed. unfold number_text, number_char in *. cbn [str_forall] in *.
  rewrite Ed, Ec. by rewrite !orb_true_r.
Qed.

Lemma number_text_exponent s e r : scan_exponent s = (e, r) → number_text e = true.
Proof.
  destruct s as [|c s]; cbn [scan_exponent]; [by intros [= <- _]|].
  destruct (_ || _) eqn:Ec; [|by intros [= <- _]].
  set (p := match s with String.String x r1 => _ | EmptyString => _ end).
  assert (Hs : number_text p.1 = true).
  { unfold p. destruct s as [|x s]; [done|].
    destruct (Nat.eqb (ord x) 43 || Nat.eqb (ord x) 45) eqn:Ex; [|done].
    unfold number_text. cbn [fst str_forall]. apply orb_true_iff in Ex as [-> | ->]; by rewrite !orb_true_r. }
  destruct p as [sign r1]. cbn [fst] in Hs. destruct (digits r1) as [d r'] eqn:Ed.
  destruct d as [|x d]; intros [= <- _]; [done|]. apply number_text_digits in Ed.
  unfold number_text in *. cbn [str_forall]. rewrite str_forall_app, Hs, Ed, !andb_true_r.
  unfold number_char. apply orb_true_iff in Ec as [-> | ->]; by rewrite !orb_true_r.
Qed.

Lemma number_text_float r : scan_number r = Some (JFloat r, "") → number_text r = true.
Proof.
  unfold scan_number. set (p := match r with String.String c r => _ | EmptyString => _ end).
  assert (Hs : number_text p.1 = true).
  { unfold p. destruct r as [|c r']; [done|]. destruct (Nat.eqb (ord c) 45) eqn:Ec; [|done].
    unfold number_text. cbn [fst str_forall]. by rewrite Ec, orb_true_r. }
  destruct p as [sign body]. cbn [fst] in Hs. destruct (scan_natural body) as [[d t]|] eqn:En; [|done].
  assert (Hd : number_text d = true).
  { destruct body as [|c b]; [done|]. cbn [scan_natural] in En.
    destruct (Nat.eqb (ord c) 48) eqn:Ec; [injection En as <- _; apply Nat.eqb_eq in Ec; unfold number_text, number_char, is_digit; cbn [str_forall]; by rewrite Ec|].
    destruct (is_digit c); [|done]. injection En as En.
    change (digits (String.String c b) = (d, t)) in En. by eapply number_text_digits. }
  destruct (scan_fraction t) as [f r1] eqn:Ef. destruct (scan_exponent r1) as [e r2] eqn:Ee.
  apply number_text_fraction in Ef. apply number_text_exponent in Ee.
  destruct (truthy f || truthy e); [|by destruct (NilZero.int_of_string _)].
  intros [= <- _]. unfold number_text in *. by rewrite !str_forall_app, Hs, Hd, Ef, Ee.
Qed.

Lemma no_control_app a b : no_control (String.append a b) = no_control a && no_control b.
Proof. apply str_forall_app. Qed.

Lemma no_control_escape s : no_control (escape s) = true.
Proof.
  induction s as [|c s IH]; [done|]. cbn [escape]. rewrite no_control_app, IH, andb_true_r.
  destruct c as [[] [] [] [] [] [] [] []]; reflexivity.
Qed.

Lemma no_control_dumps j : json_wf j → no_control (dumps j) = true.
Proof.
  assert (Hstr : ∀ k, no_control (dumps_str k) = true).
  { intros k. change (dumps_str k) with
      (String.append (String.String cQuote "") (String.append (escape k) (String.String cQuote ""))).
    rewrite !no_control_app, no_control_escape. done. }
  induction j as [|b|z|r|s|l IH|l IH] using json_nested_ind; intros Hw.
  - done.
  - by destruct b.
  - apply number_text_plain, number_text_int.
  - by apply number_text_plain, number_text_float.
  - apply Hstr.
  - change (dumps (JArr l)) with (String.append "[" (String.append (dumps_items l) "]")).
    rewrite !no_control_app. enough (no_control (dumps_items l) = true) as -> by done.
    induction IH as [|x l Hx _ IHl]; [done|]. destruct Hw as [Hwx Hwl].
    destruct l as [|y l]; [by apply Hx|].
    change (dumps_items (x :: y :: l)) with (String.append (dumps x) (String.append ", " (dumps_items (y :: l)))).
    rewrite !no_control_app, Hx, IHl by done. done.
  - change (dumps (JObj l)) with (String.append "{" (String.append (dumps_members l) "}")).
    rewrite !no_control_app. enough (no_control (dumps_members l) = true) as -> by done.
    destruct Hw as [_ Hw].
    induction IH as [|[k x] l Hx _ IHl]; [done|]. destruct Hw as [[_ Hwx] Hwl]. cbn in Hx.
    destruct l as [|[k' y] l].
    + cbn [dumps_members]. rewrite !no_control_app, Hstr, Hx by done. done.
    + change (dumps_members ((k, x) :: (k', y) :: l)) with
        (String.append (dumps_str k) (String.append ": " (String.append (dumps x)
          (String.append ", " (dumps_members ((k', y) :: l)))))).
      rewrite !no_control_app, Hstr, Hx, IHl by done. done.
Qed.

Lemma no_newline_dumps j : json_wf j → no_newline (dumps j) = true.
Proof.
  intros Hw. apply no_control_dumps in Hw. revert Hw. apply str_forall_impl. intros c Hc%Nat.leb_le.
  destruct (Nat.eqb_spec (ord c) 10); [lia|done].
Qed.

(** ** What is written decodes *)

Lemma utf8_run_app strict st a b :
  utf8_run strict st (String.append a b) =
    match utf8_run strict st a with Some st' => utf8_run strict st' b | None => None end.
Proof.
  revert st. induction a as [|c a IH]; intros st; [done|]. rewrite append_cons. cbn [utf8_run].
  destruct (utf8_step strict st c); [apply IH|done].
Qed.

(** The states of the decoder. *)
Definition utf8_state_ok (st : utf8_state) : Prop :=
  match st with (0, r) => r = (0, 0) | (S _, (lo, _)) => 128 ≤ lo end.

Lemma utf8_step_ok strict st c st' : utf8_step strict st c = Some st' → utf8_state_ok st'.
Proof.
  unfold utf8_step. destruct st as [[|[|k]] [lo hi]].
  - repeat case_match; intros [= <-]; cbn; lia || done.
  - case_match; [by intros [= <-]|done].
  - case_match; [intros [= <-]; cbn; lia|done].
Qed.

Lemma utf8_run_ok strict st s st' : utf8_state_ok st → utf8_run strict st s = Some st' → utf8_state_ok st'.
Proof.
  revert st. induction s as [|c s IH]; intros st Hst; cbn; [by intros [= <-]|].
  destruct (utf8_step strict st c) as [st1|] eqn:E; [|done]. apply IH. by eapply utf8_step_ok.
Qed.

Lemma utf8_valid_run strict s : utf8_valid strict s = true ↔ utf8_run strict utf8_start s = Some utf8_start.
Proof.
  unfold utf8_valid. destruct (utf8_run strict utf8_start s) as [[[|k] r]|] eqn:E; [|done..].
  apply utf8_run_ok in E; [|done]. cbn in E. by subst r.
Qed.

Lemma utf8_valid_app strict a b :
  utf8_valid strict a = true → utf8_valid strict b = true → utf8_valid strict (String.append a b) = true.
Proof. rewrite !utf8_valid_run, utf8_run_app. by intros -> ->. Qed.

Lemma utf8_escape_char strict st c :
  utf8_state_ok st → utf8_run strict st (escape_char c) = utf8_step strict st c.
Proof.
  intros Hst.
  assert (Hc : escape_char c = String.String c "" ∨
    (ord c < 128 ∧ ∃ s, escape_char c = String.String cBackslash s ∧ utf8_run strict utf8_start s = Some utf8_start)).
  { destruct c as [[] [] [] [] [] [] [] []]; first [by left|right; split; [vm_compute; lia|eexists; split; reflexivity]]. }
  destruct Hc as [->|(Hlt & s & -> & Hs)]; [cbn; by destruct (utf8_step strict st c)|].
  destruct st as [[|k] [lo hi]].
  - cbn in Hst. injection Hst as -> ->. cbn [utf8_run]. change (utf8_step strict (0, (0, 0)) cBackslash) with (Some utf8_start).
    cbn iota. rewrite Hs. unfold utf8_step. apply Nat.ltb_lt in Hlt. by rewrite Hlt.
  - cbn in Hst. assert (Hfail : ∀ d, ord d < 128 → utf8_step strict (S k, (lo, hi)) d = None).
    { intros d Hd. unfold utf8_step. assert (Nat.leb lo (ord d) = false) as E by (apply Nat.leb_gt; lia).
      rewrite E. by destruct k. }
    cbn [utf8_run]. rewrite !Hfail; [done|done|vm_compute; lia].
Qed.

Lemma utf8_escape strict st s :
  utf8_state_ok st → utf8_run strict st (escape s) = utf8_run strict st s.
Proof.
  revert st. induction s as [|c s IH]; intros st Hst; [done|]. cbn [escape utf8_run].
  rewrite utf8_run_app, utf8_escape_char by done. destruct (utf8_step strict st c) as [st'|] eqn:E; [|done].
  apply IH. by eapply utf8_step_ok.
Qed.

Lemma utf8_dumps_str k : utf8_valid true k = true → utf8_valid true (dumps_str k) = true.
Proof.
  intros Hk. apply (utf8_valid_app true (String.String cQuote "")); [done|].
  apply utf8_valid_app; [|done]. rewrite utf8_valid_run in *. by rewrite utf8_escape.
Qed.

(** Text in ASCII decodes. *)
Lemma utf8_ascii strict s : is_ascii s = true → utf8_valid strict s = true.
Proof.
  intros H. apply utf8_valid_run. induction s as [|c s IH]; [done|]. unfold is_ascii in *. cbn [str_forall] in H.
  apply andb_true_iff in H as [Hc H]. cbn. unfold Nat.ltb in Hc. cbn in Hc. rewrite Hc. by apply IH.
Qed.

Lemma utf8_dumps j : json_wf j → utf8_valid true (dumps j) = true.
Proof.
  induction j as [|b|z|r|s|l IH|l IH] using json_nested_ind; intros Hw.
  - done.
  - by destruct b.
  - apply utf8_ascii, number_text_plain, number_text_int.
  - by apply utf8_ascii, number_text_plain, number_text_float.
  - by apply utf8_dumps_str.
  - change (dumps (JArr l)) with (String.append "[" (String.append (dumps_items l) "]")).
    apply utf8_valid_app; [done|]. apply utf8_valid_app; [|done].
    induction IH as [|x l Hx _ IHl]; [done|]. destruct Hw as [Hwx Hwl].
    destruct l as [|y l]; [by apply Hx|].
    apply utf8_valid_app; [by apply Hx|]. apply utf8_valid_app; [done|by apply IHl].
  - change (dumps (JObj l)) with (String.append "{" (String.append (dumps_members l) "}")).
    apply utf8_valid_app; [done|]. apply utf8_valid_app; [|done]. destruct Hw as [_ Hw].
    induction IH as [|[k x] l Hx _ IHl]; [done|]. destruct Hw as [[Hk Hwx] Hwl]. cbn in Hx.
    assert (Hm : utf8_valid true (String.append (dumps_str k) (String.append ": " (dumps x))) = true)
      by (apply utf8_valid_app; [by apply utf8_dumps_str|]; apply utf8_valid_app; [done|by apply Hx]).
    destruct l as [|[k' y] l]; [exact Hm|].
    change (dumps_members ((k, x) :: (k', y) :: l)) with
      (String.append (dumps_str k) (String.append ": " (String.append (dumps x)
        (String.append ", " (dumps_members ((k', y) :: l)))))).
    rewrite <-(append_assoc ": "), <-append_assoc.
    apply utf8_valid_app; [exact Hm|]. apply utf8_valid_app; [done|by apply IHl].
Qed.

(** What a text file accepts, [json.loads] accepts. *)
Definition utf8_le (st st' : utf8_state) : Prop :=
  st.1 = st'.1 ∧ st.2.1 = st'.2.1 ∧ st.2.2 ≤ st'.2.2.

Lemma utf8_strict_le s st st' : utf8_le st st' →
  ∀ r, utf8_run true st s = Some r → ∃ r', utf8_run false st' s = Some r' ∧ utf8_le r r'.
Proof.
  revert st st'. induction s as [|c s IH]; intros st st' Hle r; cbn [utf8_run]; [intros [= <-]; eauto|].
  destruct (utf8_step true st c) as [st1|] eqn:E; [|done]. intros Hr.
  assert (Hs : ∃ st1', utf8_step false st' c = Some st1' ∧ utf8_le st1 st1').
  { destruct st as [k [lo hi]], st' as [k' [lo' hi']]. destruct Hle as (Hk & Hlo & Hhi). cbn in Hk, Hlo, Hhi. subst k' lo'.
    assert (Hin : ∀ st2, (if Nat.leb lo (ord c) && Nat.leb (ord c) hi then Some st2 else None) = Some st1 →
      ∃ st1', (if Nat.leb lo (ord c) && Nat.leb (ord c) hi' then Some st2 else None) = Some st1' ∧ utf8_le st1 st1').
    { intros st2. destruct (Nat.leb_spec lo (ord c)); [|done]. destruct (Nat.leb_spec (ord c) hi); [|done].
      intros [= <-]. destruct (Nat.leb_spec (ord c) hi'); [|lia]. eexists. by split. }
    destruct k as [|[|k]]; [|exact (Hin _ E)|exact (Hin _ E)].
    unfold utf8_step in *. repeat case_match; simplify_eq; eexists; (split; [reflexivity|]); repeat split; cbn; lia. }
  destruct Hs as (st1' & -> & Hle1). by eapply IH.
Qed.

Lemma utf8_strict s : utf8_valid true s = true → utf8_valid false s = true.
Proof.
  rewrite utf8_valid_run. intros H.
  destruct (utf8_strict_le s utf8_start utf8_start ltac:(done) _ H) as ([k r'] & E & Hk & _).
  unfold utf8_valid. rewrite E. cbn in Hk. by subst k.
Qed.

(** ** What is cut off cannot be read *)

(** An object whose closing brace is missing, with anything after it that does
    not supply the brace or go on with a member. *)
Definition not_continued (t : string) : Prop :=
  stops t ∧ match skip_ws t with
            | String.String c _ => Nat.eqb (ord c) 125 = false ∧ Nat.eqb (ord c) 44 = false
            | EmptyString => True
            end.

Lemma members_stuck l :
  json_wf (JObj l) → l ≠ [] → ∀ n acc t, obj_fuel l ≤ n → not_continued t →
  parse_members n acc (String.append (dumps_members l) t) = None.
Proof.
  intros [_ Hw]. revert Hw. induction l as [|[k x] l IH]; intros Hw Hne n acc t Hn [Hs Ht]; [done|].
  destruct Hw as [[_ Hwx] Hwl]. unfold obj_fuel in Hn. cbn in Hn. destruct n as [|n]; [lia|].
  destruct l as [|[k' y] l].
  - cbn [dumps_members]. rewrite !append_assoc.
    rewrite member_read; [|apply dumps_reads_back|done|lia|done].
    destruct (skip_ws t) as [|c r]; [done|]. by destruct Ht as [-> ->].
  - change (dumps_members ((k, x) :: (k', y) :: l)) with
      (String.append (dumps_str k) (String.append ": " (String.append (dumps x)
        (String.append ", " (dumps_members ((k', y) :: l)))))).
    rewrite !append_assoc. rewrite member_read; [|apply dumps_reads_back|done|lia|exact eq_refl].
    change (String.append ", " (String.append (dumps_members ((k', y) :: l)) t))
      with (String.String (chr 44) (String.String (chr 32) (String.append (dumps_members ((k', y) :: l)) t))).
    cbn [skip_ws]. change (is_ws (chr 44)) with false. cbn iota.
    change (Nat.eqb (ord (chr 44)) 125) with false. change (Nat.eqb (ord (chr 44)) 44) with true. cbn iota.
    cbn [skip_ws]. change (is_ws (chr 32)) with true. cbn iota.
    rewrite skip_ws_head by (apply value_head_app; by destruct l).
    apply (IH Hwl); [done|unfold obj_fuel; cbn; lia|done].
Qed.

(** The text of an object without its last character. *)
Definition torn_object (l : list (string * json)) : string := String.append "{" (dumps_members l).

Lemma loads_torn l t :
  json_wf (JObj l) → l ≠ [] → not_continued t → loads (String.append (torn_object l) t) = None.
Proof.
  intros Hw Hne Ht. unfold loads, torn_object. rewrite append_assoc.
  change (String.append "{" (String.append (dumps_members l) t))
    with (String.String (chr 123) (String.append (dumps_members l) t)).
  cbn [skip_ws]. change (is_ws (chr 123)) with false. cbn iota.
  pose proof (json_fuel_length _ Hw) as Hf.
  change (dumps (JObj l)) with (String.append "{" (String.append (dumps_members l) "}")) in Hf.
  rewrite !length_append in Hf. change (json_fuel (JObj l)) with (S (obj_fuel l)) in Hf. cbn [String.length] in Hf.
  remember (String.length (String.String (chr 123) (String.append (dumps_members l) t))) as n eqn:En.
  cbn [String.length] in En. rewrite length_append in En.
  cbn [parse_value]. change (Nat.eqb (ord (chr 123)) 34) with false. change (Nat.eqb (ord (chr 123)) 123) with true.
  cbn iota. destruct l as [|[k x] l]; [done|].
  assert (Hh : value_head (dumps_members ((k, x) :: l))) by (by destruct l).
  rewrite skip_ws_head by (by apply value_head_app).
  pose proof (members_stuck ((k, x) :: l) Hw Hne n [] t ltac:(lia) Ht) as Hm.
  destruct (dumps_members ((k, x) :: l)) as [|c s]; [done|]. destruct Hh as (_ & _ & Hh).
  rewrite append_cons in *. cbn iota beta. by rewrite Hh, Hm.
Qed.
