(* ===== verification/JsonAscii.v ===== *)
(** * [json.dumps] with [ensure_ascii], the default.

    Texts are UTF-8 bytes; every code point above ASCII is written as one or two
    escaped UTF-16 units. *)
From stdpp Require Import base list strings.
From Stdlib Require Import ZArith Lia.
From S2P Require Import Prelude JsonText.

Definition hex4 (n : nat) : string :=
  String.String (hex_digit (n / 4096)) (String.String (hex_digit (n / 256 mod 16))
    (String.String (hex_digit (n / 16 mod 16)) (String.String (hex_digit (n mod 16)) ""))).
Definition escape_unit (n : nat) : string := String.append (String.String cBackslash "u") (hex4 n).

(** A code point above ASCII: one unit, or a surrogate pair. *)
Definition escape_point (n : nat) : string :=
  if Nat.ltb n 65536 then escape_unit n
  else String.append (escape_unit (55296 + (n - 65536) / 1024)) (escape_unit (56320 + (n - 65536) mod 1024)).

Definition low6 (c : Ascii.ascii) : nat := ord c mod 64.

Fixpoint escape_ascii (s : string) : string :=
  match s with
  | EmptyString => ""
  | String.String c s1 =>
      let n := ord c in
      if Nat.ltb n 127 then String.append (escape_char c) (escape_ascii s1)
      else if Nat.eqb n 127 then String.append (escape_unit 127) (escape_ascii s1)
      else
        match s1 with
        | EmptyString => ""
        | String.String d s2 =>
            if Nat.ltb n 224 then String.append (escape_point (n mod 32 * 64 + low6 d)) (escape_ascii s2)
            else
              match s2 with
              | EmptyString => ""
              | String.String e s3 =>
                  if Nat.ltb n 240
                  then String.append (escape_point (n mod 16 * 4096 + low6 d * 64 + low6 e)) (escape_ascii s3)
                  else
                    match s3 with
                    | EmptyString => ""
                    | String.String f s4 =>
                        String.append (escape_point (n mod 8 * 262144 + low6 d * 4096 + low6 e * 64 + low6 f))
                          (escape_ascii s4)
                    end
              end
        end
  end.

Definition dumps_ascii_str (s : string) : string :=
  String.String cQuote (String.append (escape_ascii s) (String.String cQuote "")).

(** [json.dumps(value, separators=(",", ":"))]. *)
Fixpoint dumps_compact (j : json) : string :=
  match j with
  | JNull => "null"
  | JBool b => if b then "true" else "false"
  | JInt n => dumps_int n
  | JFloat r => r
  | JStr s => dumps_ascii_str s
  | JArr l => String.append "[" (String.append (str_join "," (map dumps_compact l)) "]")
  | JObj l =>
      String.append "{" (String.append
        (str_join "," (map (λ kv, String.append (dumps_ascii_str kv.1) (String.append ":" (dumps_compact kv.2))) l))
        "}")
  end.

(** One member of a written object. *)
Definition dumps_member (kv : string * json) : string :=
  String.append (dumps_ascii_str kv.1) (String.append ":" (dumps_compact kv.2)).

Example dumps_compact_example :
  dumps_compact (JObj [("a", JArr [JInt 1; JNull]); ("b", JObj [])]) =
  String.append "{" (String.append (dumps_member ("a", JArr [JInt 1; JNull]))
    (String.append "," (String.append (dumps_member ("b", JObj [])) "}"))).
Proof. vm_compute. reflexivity. Qed.
