(* ===== verification/ControlModels.v ===== *)
(** * Durable records of the Code control plane.

    The data types of [src/cowork/coding/control_models.py], with the parts of
    [project_models.py] and [contracts.py] they are built from.  A field keeps
    its Python name behind a short prefix of its model ([run_] for [TaskRun],
    [cmp_] for [Computer], ...).  Instants are integers (microseconds since the
    epoch), JSON payloads are [json].

    [valid_*] is the part of the Pydantic field constraints (lengths, ranges,
    patterns, model validators) a document is checked against when it is built
    and every time it is read back from disk.  Attribute assignment is not
    checked, as in the source: no model sets [validate_assignment]. *)
From stdpp Require Import base list gmap strings option.
From Stdlib Require Import ZArith Lia.
From S2P Require Import Prelude.

Definition CONTROL_SCHEMA_VERSION : Z := 1.
Definition RUNTIME_PROTOCOL_VERSION : string := "1.0".

Inductive ComputerStatus := online | offline | draining.

#[export] Instance ComputerStatus_eq_dec : EqDecision ComputerStatus.
Proof. solve_decision. Defined.

Inductive RunStatus :=
  | queued | preparing | ready | running | awaiting_approval
  | completed | cancelled | interrupted | failed | recovering.

#[export] Instance RunStatus_eq_dec : EqDecision RunStatus.
Proof. solve_decision. Defined.

(** [RunStatus(value)], which raises [ValueError] on an unknown name. *)
Definition RunStatus_of_string (s : string) : option RunStatus :=
  if String.eqb s "queued" then Some queued
  else if String.eqb s "preparing" then Some preparing
  else if String.eqb s "ready" then Some ready
  else if String.eqb s "running" then Some running
  else if String.eqb s "awaiting_approval" then Some awaiting_approval
  else if String.eqb s "completed" then Some completed
  else if String.eqb s "cancelled" then Some cancelled
  else if String.eqb s "interrupted" then Some interrupted
  else if String.eqb s "failed" then Some failed
  else if String.eqb s "recovering" then Some recovering
  else None.

(** [status.value]. *)
Definition RunStatus_value (s : RunStatus) : string :=
  match s with
  | queued => "queued" | preparing => "preparing" | ready => "ready"
  | running => "running" | awaiting_approval => "awaiting_approval"
  | completed => "completed" | cancelled => "cancelled"
  | interrupted => "interrupted" | failed => "failed" | recovering => "recovering"
  end.

Definition TERMINAL_RUN_STATUSES : list RunStatus := [completed; cancelled; failed].

Definition is_terminal_status (s : RunStatus) : bool := bool_decide (s ∈ TERMINAL_RUN_STATUSES).

Inductive WorkspaceStatus := ws_pending | ws_preparing | ws_ready | ws_unavailable | ws_released.

#[export] Instance WorkspaceStatus_eq_dec : EqDecision WorkspaceStatus.
Proof. solve_decision. Defined.

Inductive WorkspaceKind := git_worktree | local_copy | direct_folder.

#[export] Instance WorkspaceKind_eq_dec : EqDecision WorkspaceKind.
Proof. solve_decision. Defined.

Inductive TaskCapability :=
  | cap_files | cap_review | cap_terminal | cap_project_actions | cap_slash_commands
  | cap_task_controls | cap_extensions | cap_platform_settings | cap_fork | cap_open_workspace.

#[export] Instance TaskCapability_eq_dec : EqDecision TaskCapability.
Proof. solve_decision. Defined.

(** ** Field constraints *)

(** [Field(min_length=lo, max_length=hi)] on a string. *)
Definition len_ok (lo hi : nat) (s : string) : bool :=
  (Nat.leb lo (String.length s)) && (Nat.leb (String.length s) hi).

(** [Field(default=None, max_length=hi)] on an optional string. *)
Definition max_len_opt (hi : nat) (o : option string) : bool :=
  match o with Some s => Nat.leb (String.length s) hi | None => true end.

Definition items_ok {A} (lo hi : nat) (l : list A) : bool :=
  (Nat.leb lo (length l)) && (Nat.leb (length l) hi).

(** The characters of [^[A-Za-z0-9_-]+$]. *)
Definition id_char (c : Ascii.ascii) : bool :=
  let n := Ascii.nat_of_ascii c in
  ((Nat.leb 48 n) && (Nat.leb n 57)) || ((Nat.leb 65 n) && (Nat.leb n 90))
  || ((Nat.leb 97 n) && (Nat.leb n 122)) || (Nat.eqb n 95) || (Nat.eqb n 45).

Fixpoint all_chars (p : Ascii.ascii → bool) (s : string) : bool :=
  match s with
  | EmptyString => true
  | String.String c s' => p c && all_chars p s'
  end.

Definition id_pattern (s : string) : bool := truthy s && all_chars id_char s.

(** ** Computers *)

Record ComputerCapabilities := {
  caps_platform : string;
  caps_architecture : string;
  caps_runtime_version : string;
  caps_protocol_versions : list string;
  caps_agent_engines : list string;
  caps_shells : list string;
  caps_has_git : bool;
  caps_has_terminal : bool;
  caps_supports_local_folders : bool;
  caps_task_capabilities : list TaskCapability;
  caps_max_concurrent_runs : Z;
}.

#[export] Instance ComputerCapabilities_eq_dec : EqDecision ComputerCapabilities.
Proof. solve_decision. Defined.

Definition valid_capabilities (c : ComputerCapabilities) : bool :=
  bool_decide (caps_platform c ∈ ["darwin"; "windows"; "linux"])
  && len_ok 1 64 (caps_architecture c) && len_ok 1 64 (caps_runtime_version c)
  && items_ok 1 8 (caps_protocol_versions c) && items_ok 0 32 (caps_agent_engines c)
  && items_ok 0 16 (caps_shells c) && items_ok 0 32 (caps_task_capabilities c)
  && (1 <=? caps_max_concurrent_runs c)%Z && (caps_max_concurrent_runs c <=? 64)%Z.

Record Computer := {
  cmp_schema_version : Z;
  cmp_id : string;
  cmp_name : string;
  cmp_is_local : bool;
  cmp_status : ComputerStatus;
  cmp_capabilities : ComputerCapabilities;
  cmp_registration_epoch : Z;
  cmp_active_run_count : Z;
  cmp_last_seen_at : Z;
  cmp_created_at : Z;
  cmp_updated_at : Z;
  cmp_revoked_at : option Z;
}.

#[export] Instance fields_Computer : Fields Computer := λ r, {|
  cmp_schema_version := cmp_schema_version r; cmp_id := cmp_id r; cmp_name := cmp_name r;
  cmp_is_local := cmp_is_local r; cmp_status := cmp_status r;
  cmp_capabilities := cmp_capabilities r; cmp_registration_epoch := cmp_registration_epoch r;
  cmp_active_run_count := cmp_active_run_count r; cmp_last_seen_at := cmp_last_seen_at r;
  cmp_created_at := cmp_created_at r; cmp_updated_at := cmp_updated_at r;
  cmp_revoked_at := cmp_revoked_at r |}.

#[export] Instance Computer_eq_dec : EqDecision Computer.
Proof. solve_decision. Defined.

Definition valid_computer (c : Computer) : bool :=
  len_ok 1 128 (cmp_id c) && id_pattern (cmp_id c) && len_ok 1 120 (cmp_name c)
  && valid_capabilities (cmp_capabilities c)
  && (1 <=? cmp_registration_epoch c)%Z && (0 <=? cmp_active_run_count c)%Z.

(** ** Credentials: only digests reach the store *)

Record RuntimeCredential := {
  rcred_id : string;
  rcred_computer_id : string;
  rcred_token_hash : string;
  rcred_registration_epoch : Z;
  rcred_created_at : Z;
}.

Record RuntimeRegistrationCredential := {
  reg_id : string;
  reg_token_hash : string;
  reg_expires_at : Z;
  reg_consumed_at : option Z;
  reg_created_at : Z;
}.

#[export] Instance fields_RuntimeRegistrationCredential : Fields RuntimeRegistrationCredential := λ r, {|
  reg_id := reg_id r; reg_token_hash := reg_token_hash r; reg_expires_at := reg_expires_at r;
  reg_consumed_at := reg_consumed_at r; reg_created_at := reg_created_at r |}.

Record TaskRunCredential := {
  tcred_id : string;
  tcred_run_id : string;
  tcred_computer_id : string;
  tcred_epoch : Z;
  tcred_token_hash : string;
  tcred_created_at : Z;
}.

(** ** Projects and task scopes *)

Record ProjectCommand := {
  pc_id : string;
  pc_label : string;
  pc_argv : list string;
  pc_phase : string;
}.

#[export] Instance ProjectCommand_eq_dec : EqDecision ProjectCommand.
Proof. solve_decision. Defined.

Record ProjectFolder := {
  pf_id : string;
  pf_name : string;
  pf_path : string;
  pf_base_branch : option string;
  pf_commands : list ProjectCommand;
}.

Record RepositoryResource := {
  repo_id : string;
  repo_name : string;
  repo_source_url : option string;
  repo_provider : string;
  repo_repository : option string;
  repo_connector_name : option string;
  repo_use_connector_for_clone : bool;
  repo_local_path : option string;
  repo_computer_id : option string;
  repo_default_branch : option string;
  repo_checkout_strategy : string;
  repo_commands : list ProjectCommand;
}.

#[export] Instance fields_RepositoryResource : Fields RepositoryResource := λ r, {|
  repo_id := repo_id r; repo_name := repo_name r; repo_source_url := repo_source_url r;
  repo_provider := repo_provider r; repo_repository := repo_repository r;
  repo_connector_name := repo_connector_name r;
  repo_use_connector_for_clone := repo_use_connector_for_clone r;
  repo_local_path := repo_local_path r; repo_computer_id := repo_computer_id r;
  repo_default_branch := repo_default_branch r;
  repo_checkout_strategy := repo_checkout_strategy r; repo_commands := repo_commands r |}.

Record LocalFolderResource := {
  lf_id : string;
  lf_name : string;
  lf_path : string;
  lf_computer_id : string;
  lf_commands : list ProjectCommand;
}.

#[export] Instance fields_LocalFolderResource : Fields LocalFolderResource := λ r, {|
  lf_id := lf_id r; lf_name := lf_name r; lf_path := lf_path r;
  lf_computer_id := lf_computer_id r; lf_commands := lf_commands r |}.

Inductive ProjectResource :=
  | Repository (r : RepositoryResource)
  | LocalFolder (f : LocalFolderResource).

Definition res_id (r : ProjectResource) : string :=
  match r with Repository x => repo_id x | LocalFolder x => lf_id x end.

Definition res_commands (r : ProjectResource) : list ProjectCommand :=
  match r with Repository x => repo_commands x | LocalFolder x => lf_commands x end.

(** [resource.model_copy(update={"commands": ...})]. *)
Definition res_with_commands (cs : list ProjectCommand) (r : ProjectResource) : ProjectResource :=
  match r with
  | Repository x => Repository (x <| repo_commands := cs |>)
  | LocalFolder x => LocalFolder (x <| lf_commands := cs |>)
  end.

Definition or_else (a b : option string) : option string :=
  if truthy_opt a then a else b.

Definition resource_folder (r : ProjectResource) : ProjectFolder :=
  match r with
  | Repository x => {|
      pf_id := repo_id x;
      pf_name := repo_name x;
      pf_path := default (repo_name x)
        (let o := or_else (repo_local_path x) (repo_source_url x) in
         if truthy_opt o then o else None);
      pf_base_branch := repo_default_branch x;
      pf_commands := repo_commands x |}
  | LocalFolder x => {|
      pf_id := lf_id x;
      pf_name := lf_name x;
      pf_path := lf_path x;
      pf_base_branch := None;
      pf_commands := lf_commands x |}
  end.

(** The parts of a project the control plane never looks into (playbook,
    environment, ...) are kept as JSON. *)
Record CodeProject := {
  proj_schema_version : Z;
  proj_id : string;
  proj_name : string;
  proj_resources : list ProjectResource;
  proj_folders : list ProjectFolder;
  proj_playbook : json;
  proj_skill_sources : list (string * json);
  proj_connections : list (string * string * string);
  proj_environment : json;
  proj_default_engine_id : string;
  proj_default_model : string;
  proj_default_reasoning_effort : option string;
  proj_permission_mode : string;
  proj_created_at : Z;
  proj_updated_at : Z;
}.

#[export] Instance fields_CodeProject : Fields CodeProject := λ r, {|
  proj_schema_version := proj_schema_version r; proj_id := proj_id r; proj_name := proj_name r;
  proj_resources := proj_resources r; proj_folders := proj_folders r;
  proj_playbook := proj_playbook r; proj_skill_sources := proj_skill_sources r;
  proj_connections := proj_connections r; proj_environment := proj_environment r;
  proj_default_engine_id := proj_default_engine_id r;
  proj_default_model := proj_default_model r;
  proj_default_reasoning_effort := proj_default_reasoning_effort r;
  proj_permission_mode := proj_permission_mode r; proj_created_at := proj_created_at r;
  proj_updated_at := proj_updated_at r |}.

Section ProjectValidation.
Context {PF : Platform}.

Definition resource_location (r : ProjectResource) : string :=
  match r with
  | Repository x => casefold (default "" (or_else (repo_source_url x) (repo_local_path x)))
  | LocalFolder x => casefold (lf_path x)
  end.

(** [CodeProject.model_validate] on a project whose resources are already
    validated instances: the length bounds, then the [after] validator,
    which also rebuilds the [folders] projection. *)
Definition validate_unique_resources (p : CodeProject) : exn + CodeProject :=
  if negb (len_ok 1 120 (proj_name p) && items_ok 1 24 (proj_resources p)
           && items_ok 0 24 (proj_skill_sources p) && items_ok 0 24 (proj_connections p))
  then inl (ValidationError "project field out of bounds")
  else if negb (bool_decide (NoDup (map res_id (proj_resources p))))
  then inl (ValidationError "project resource ids must be unique")
  else if negb (bool_decide (NoDup (map resource_location (proj_resources p))))
  then inl (ValidationError "the same folder cannot be added twice")
  else if negb (bool_decide (NoDup (map fst (proj_connections p))))
  then inl (ValidationError "the same connection cannot be added twice")
  else if negb (bool_decide (NoDup (map fst (proj_skill_sources p))))
  then inl (ValidationError "the same skill source cannot be added twice")
  else inr (p <| proj_folders := map resource_folder (proj_resources p) |>).
End ProjectValidation.

Record TaskResourceScope := {
  scope_all_project_resources : bool;
  scope_resource_ids : list string;
}.

(** [TaskResourceScope(all_project_resources=..., resource_ids=...)]. *)
Definition mk_TaskResourceScope (all : bool) (ids : list string) : exn + TaskResourceScope :=
  if negb (items_ok 0 64 ids) then inl (ValidationError "resource_ids")
  else
    let ids := unique_values ids in
    if all && negb (bool_decide (ids = []))
    then inl (ValidationError "all-resource scope cannot also name individual resources")
    else if negb all && bool_decide (ids = [])
    then inl (ValidationError "a narrowed task scope must include at least one resource")
    else inr {| scope_all_project_resources := all; scope_resource_ids := ids |}.

Record CodeTask := {
  task_schema_version : Z;
  task_id : string;
  task_title : string;
  task_prompt : string;
  task_engine_id : string;
  task_project_id : option string;
  task_resource_scope : TaskResourceScope;
  task_execution_project : option CodeProject;
  task_repository_setup : option json;
  task_source_contexts : list json;
  task_deliveries : list json;
  task_created_at : Z;
  task_updated_at : Z;
}.

#[export] Instance fields_CodeTask : Fields CodeTask := λ r, {|
  task_schema_version := task_schema_version r; task_id := task_id r;
  task_title := task_title r; task_prompt := task_prompt r; task_engine_id := task_engine_id r;
  task_project_id := task_project_id r; task_resource_scope := task_resource_scope r;
  task_execution_project := task_execution_project r;
  task_repository_setup := task_repository_setup r;
  task_source_contexts := task_source_contexts r; task_deliveries := task_deliveries r;
  task_created_at := task_created_at r; task_updated_at := task_updated_at r |}.

Definition valid_task (t : CodeTask) : bool :=
  len_ok 1 128 (task_id t) && id_pattern (task_id t) && len_ok 1 200 (task_title t)
  && len_ok 0 200000 (task_prompt t) && len_ok 1 128 (task_engine_id t)
  && max_len_opt 128 (task_project_id t) && items_ok 0 24 (task_source_contexts t)
  && items_ok 0 250 (task_deliveries t).

(** ** Runs *)

Inductive ResumeMode := resume_prepare | resume_restore | resume_recreate.

#[export] Instance ResumeMode_eq_dec : EqDecision ResumeMode.
Proof. solve_decision. Defined.

Record TaskRun := {
  run_schema_version : Z;
  run_id : string;
  run_task_id : string;
  run_computer_id : string;
  run_status : RunStatus;
  run_epoch : Z;
  run_lease_id : option string;
  run_lease_expires_at : option Z;
  run_last_event_seq : Z;
  run_last_event_id : option string;
  run_checkpoint : list (string * json);
  run_workspace_resume_mode : ResumeMode;
  run_recovery_count : Z;
  run_last_error : option string;
  run_created_at : Z;
  run_updated_at : Z;
  run_started_at : option Z;
  run_finished_at : option Z;
}.

#[export] Instance fields_TaskRun : Fields TaskRun := λ r, {|
  run_schema_version := run_schema_version r; run_id := run_id r; run_task_id := run_task_id r;
  run_computer_id := run_computer_id r; run_status := run_status r; run_epoch := run_epoch r;
  run_lease_id := run_lease_id r; run_lease_expires_at := run_lease_expires_at r;
  run_last_event_seq := run_last_event_seq r; run_last_event_id := run_last_event_id r;
  run_checkpoint := run_checkpoint r; run_workspace_resume_mode := run_workspace_resume_mode r;
  run_recovery_count := run_recovery_count r; run_last_error := run_last_error r;
  run_created_at := run_created_at r; run_updated_at := run_updated_at r;
  run_started_at := run_started_at r; run_finished_at := run_finished_at r |}.

#[export] Instance TaskRun_eq_dec : EqDecision TaskRun.
Proof. solve_decision. Defined.

(** Bound of [TaskRun.last_error]. *)
Definition LAST_ERROR_MAX : nat := 4000.

Definition valid_run (r : TaskRun) : bool :=
  len_ok 1 128 (run_id r) && id_pattern (run_id r) && len_ok 1 128 (run_task_id r)
  && len_ok 1 128 (run_computer_id r) && (1 <=? run_epoch r)%Z
  && max_len_opt 128 (run_lease_id r) && (0 <=? run_last_event_seq r)%Z
  && max_len_opt 128 (run_last_event_id r) && (0 <=? run_recovery_count r)%Z
  && max_len_opt LAST_ERROR_MAX (run_last_error r).

Record ExecutionWorkspace := {
  ws_schema_version : Z;
  ws_id : string;
  ws_run_id : string;
  ws_resource_id : string;
  ws_computer_id : string;
  ws_status : WorkspaceStatus;
  ws_path : string;
  ws_workspace_kind : option WorkspaceKind;
  ws_base_revision : option string;
  ws_task_branch : option string;
  ws_detail : string;
  ws_created_at : Z;
  ws_updated_at : Z;
}.

#[export] Instance fields_ExecutionWorkspace : Fields ExecutionWorkspace := λ r, {|
  ws_schema_version := ws_schema_version r; ws_id := ws_id r; ws_run_id := ws_run_id r;
  ws_resource_id := ws_resource_id r; ws_computer_id := ws_computer_id r;
  ws_status := ws_status r; ws_path := ws_path r; ws_workspace_kind := ws_workspace_kind r;
  ws_base_revision := ws_base_revision r; ws_task_branch := ws_task_branch r;
  ws_detail := ws_detail r; ws_created_at := ws_created_at r; ws_updated_at := ws_updated_at r |}.

Definition valid_workspace (w : ExecutionWorkspace) : bool :=
  len_ok 1 160 (ws_id w) && id_pattern (ws_id w) && len_ok 1 128 (ws_run_id w)
  && len_ok 1 128 (ws_resource_id w) && len_ok 1 128 (ws_computer_id w)
  && len_ok 0 32768 (ws_path w) && max_len_opt 512 (ws_base_revision w)
  && max_len_opt 512 (ws_task_branch w) && len_ok 0 4000 (ws_detail w).

(** ** Connector grants, audit events, commands, runtime events *)

Record ConnectorGrant := {
  grant_schema_version : Z;
  grant_id : string;
  grant_run_id : string;
  grant_computer_id : string;
  grant_epoch : Z;
  grant_provider : string;
  grant_connection_name : string;
  grant_actions : list string;
  grant_resource_constraints : list (string * string);
  grant_token_hash : string;
  grant_expires_at : Z;
  grant_max_uses : Z;
  grant_use_count : Z;
  grant_last_used_at : option Z;
  grant_revoked_at : option Z;
  grant_created_at : Z;
}.

#[export] Instance fields_ConnectorGrant : Fields ConnectorGrant := λ r, {|
  grant_schema_version := grant_schema_version r; grant_id := grant_id r;
  grant_run_id := grant_run_id r; grant_computer_id := grant_computer_id r;
  grant_epoch := grant_epoch r; grant_provider := grant_provider r;
  grant_connection_name := grant_connection_name r; grant_actions := grant_actions r;
  grant_resource_constraints := grant_resource_constraints r;
  grant_token_hash := grant_token_hash r; grant_expires_at := grant_expires_at r;
  grant_max_uses := grant_max_uses r; grant_use_count := grant_use_count r;
  grant_last_used_at := grant_last_used_at r; grant_revoked_at := grant_revoked_at r;
  grant_created_at := grant_created_at r |}.

Definition valid_grant (g : ConnectorGrant) : bool :=
  len_ok 1 128 (grant_id g) && id_pattern (grant_id g) && len_ok 1 128 (grant_run_id g)
  && len_ok 1 128 (grant_computer_id g) && (1 <=? grant_epoch g)%Z
  && bool_decide (grant_provider g ∈ ["github"; "linear"])
  && len_ok 1 512 (grant_connection_name g) && items_ok 1 32 (grant_actions g)
  && items_ok 0 32 (grant_resource_constraints g) && len_ok 64 64 (grant_token_hash g)
  && (1 <=? grant_max_uses g)%Z && (grant_max_uses g <=? 10000)%Z
  && (0 <=? grant_use_count g)%Z.

Record SecurityAuditEvent := {
  audit_schema_version : Z;
  audit_id : string;
  audit_action : string;
  audit_outcome : string;
  audit_actor_type : string;
  audit_target_id : string;
  audit_run_id : option string;
  audit_computer_id : option string;
  audit_detail : string;
  audit_created_at : Z;
}.

Definition valid_audit (e : SecurityAuditEvent) : bool :=
  len_ok 1 160 (audit_id e) && id_pattern (audit_id e) && len_ok 1 120 (audit_action e)
  && bool_decide (audit_outcome e ∈ ["allowed"; "denied"; "completed"])
  && bool_decide (audit_actor_type e ∈ ["user"; "runtime"; "agent"; "system"])
  && len_ok 0 160 (audit_target_id e) && max_len_opt 128 (audit_run_id e)
  && max_len_opt 128 (audit_computer_id e) && len_ok 0 1000 (audit_detail e).

Record RuntimeCommand := {
  cmd_schema_version : Z;
  cmd_protocol_version : string;
  cmd_id : string;
  cmd_run_id : string;
  cmd_epoch : Z;
  cmd_kind : string;
  cmd_payload : list (string * json);
  cmd_idempotency_key : string;
  cmd_created_at : Z;
  cmd_claimed_at : option Z;
  cmd_claim_expires_at : option Z;
  cmd_delivery_count : Z;
  cmd_acked_at : option Z;
  cmd_result : option (list (string * json));
  cmd_error : option string;
}.

#[export] Instance fields_RuntimeCommand : Fields RuntimeCommand := λ r, {|
  cmd_schema_version := cmd_schema_version r; cmd_protocol_version := cmd_protocol_version r;
  cmd_id := cmd_id r; cmd_run_id := cmd_run_id r; cmd_epoch := cmd_epoch r;
  cmd_kind := cmd_kind r; cmd_payload := cmd_payload r;
  cmd_idempotency_key := cmd_idempotency_key r; cmd_created_at := cmd_created_at r;
  cmd_claimed_at := cmd_claimed_at r; cmd_claim_expires_at := cmd_claim_expires_at r;
  cmd_delivery_count := cmd_delivery_count r; cmd_acked_at := cmd_acked_at r;
  cmd_result := cmd_result r; cmd_error := cmd_error r |}.

Definition COMMAND_KINDS : list string :=
  ["prepare"; "start"; "steer"; "agent_command"; "approve"; "cancel"; "checkpoint";
   "operation"; "release"].

(** [json.dumps] lengths are not modelled: the 2 MiB bound on [result] is left
    out of [valid_command]. *)
Definition valid_command (c : RuntimeCommand) : bool :=
  len_ok 1 128 (cmd_id c) && id_pattern (cmd_id c) && len_ok 1 128 (cmd_run_id c)
  && (1 <=? cmd_epoch c)%Z && bool_decide (cmd_kind c ∈ COMMAND_KINDS)
  && len_ok 0 256 (cmd_idempotency_key c) && (0 <=? cmd_delivery_count c)%Z
  && max_len_opt 4000 (cmd_error c).

Inductive EventKind :=
  | ev_status | ev_event | ev_approval | ev_checkpoint | ev_workspace
  | ev_turn_completed | ev_error.

#[export] Instance EventKind_eq_dec : EqDecision EventKind.
Proof. solve_decision. Defined.

Record RuntimeEvent := {
  event_protocol_version : string;
  event_id : string;
  event_run_id : string;
  event_computer_id : string;
  event_lease_id : string;
  event_epoch : Z;
  event_seq : Z;
  event_kind : EventKind;
  event_payload : list (string * json);
  event_timestamp : Z;
}.

Definition valid_hash64 (s : string) : bool := len_ok 64 64 s.

Definition valid_runtime_credential (c : RuntimeCredential) : bool :=
  len_ok 1 128 (rcred_id c) && id_pattern (rcred_id c) && len_ok 1 128 (rcred_computer_id c)
  && valid_hash64 (rcred_token_hash c) && (1 <=? rcred_registration_epoch c)%Z.

Definition hex_char (c : Ascii.ascii) : bool :=
  let n := Ascii.nat_of_ascii c in
  ((Nat.leb 48 n) && (Nat.leb n 57)) || ((Nat.leb 97 n) && (Nat.leb n 102)).

Definition valid_registration_credential (c : RuntimeRegistrationCredential) : bool :=
  len_ok 64 64 (reg_id c) && all_chars hex_char (reg_id c) && valid_hash64 (reg_token_hash c).

Definition valid_run_credential (c : TaskRunCredential) : bool :=
  len_ok 1 128 (tcred_id c) && id_pattern (tcred_id c) && len_ok 1 128 (tcred_run_id c)
  && len_ok 1 128 (tcred_computer_id c) && (1 <=? tcred_epoch c)%Z
  && valid_hash64 (tcred_token_hash c).

Record ResourceAvailability := {
  ra_resource_id : string;
  ra_status : string;
  ra_eligible_computer_ids : list string;
  ra_required_computer_id : option string;
  ra_detail : string;
}.

Record TaskControlSnapshot := {
  snap_task : CodeTask;
  snap_run : TaskRun;
  snap_computer : Computer;
  snap_workspaces : list ExecutionWorkspace;
}.

Record RecoveryOption := {
  opt_computer : Computer;
  opt_mode : ResumeMode;
  opt_preserves_workspace_changes : bool;
  opt_recommended : bool;
  opt_detail : string;
}.

#[export] Instance fields_RecoveryOption : Fields RecoveryOption := λ r, {|
  opt_computer := opt_computer r; opt_mode := opt_mode r;
  opt_preserves_workspace_changes := opt_preserves_workspace_changes r;
  opt_recommended := opt_recommended r; opt_detail := opt_detail r |}.

Record RecoveryPlan := {
  plan_run_id : string;
  plan_options : list RecoveryOption;
}.

(** ** Constructors with their Pydantic defaults *)

Definition new_Computer (id name : string) (is_local : bool) (caps : ComputerCapabilities)
    (now_seen now_created now_updated : Z) : Computer := {|
  cmp_schema_version := CONTROL_SCHEMA_VERSION; cmp_id := id; cmp_name := name;
  cmp_is_local := is_local; cmp_status := online; cmp_capabilities := caps;
  cmp_registration_epoch := 1; cmp_active_run_count := 0; cmp_last_seen_at := now_seen;
  cmp_created_at := now_created; cmp_updated_at := now_updated; cmp_revoked_at := None |}.

Definition new_TaskRun (id task_id computer_id : string) (now_created now_updated : Z) : TaskRun := {|
  run_schema_version := CONTROL_SCHEMA_VERSION; run_id := id; run_task_id := task_id;
  run_computer_id := computer_id; run_status := queued; run_epoch := 1; run_lease_id := None;
  run_lease_expires_at := None; run_last_event_seq := 0; run_last_event_id := None;
  run_checkpoint := []; run_workspace_resume_mode := resume_prepare; run_recovery_count := 0;
  run_last_error := None; run_created_at := now_created; run_updated_at := now_updated;
  run_started_at := None; run_finished_at := None |}.

Definition new_ExecutionWorkspace (id run_id resource_id computer_id : string)
    (now_created now_updated : Z) : ExecutionWorkspace := {|
  ws_schema_version := CONTROL_SCHEMA_VERSION; ws_id := id; ws_run_id := run_id;
  ws_resource_id := resource_id; ws_computer_id := computer_id; ws_status := ws_pending;
  ws_path := ""; ws_workspace_kind := None; ws_base_revision := None; ws_task_branch := None;
  ws_detail := ""; ws_created_at := now_created; ws_updated_at := now_updated |}.

Definition new_RuntimeCommand (id run_id : string) (epoch : Z) (kind : string)
    (payload : list (string * json)) (idempotency_key : string) (now : Z) : RuntimeCommand := {|
  cmd_schema_version := CONTROL_SCHEMA_VERSION; cmd_protocol_version := RUNTIME_PROTOCOL_VERSION;
  cmd_id := id; cmd_run_id := run_id; cmd_epoch := epoch; cmd_kind := kind;
  cmd_payload := payload; cmd_idempotency_key := idempotency_key; cmd_created_at := now;
  cmd_claimed_at := None; cmd_claim_expires_at := None; cmd_delivery_count := 0;
  cmd_acked_at := None; cmd_result := None; cmd_error := None |}.
