(* ===== verification/ControlWorld.v ===== *)
(** * The state the control plane runs in.

    [World] is what [ControlPlaneService] and [LocalControlPlaneStore]
    ([src/cowork/coding/control_service.py], [control_store.py]) read and
    write: the JSON documents on disk, the staging files and journal of a
    multi-document write, the in-memory parent index, the two small files
    holding this computer's id and name, and the sources of time, identifiers
    and secrets.

    Every call of [utc_now()] reads the next value of [w_clock], so two calls
    in one operation may see different instants; [uuid.uuid4().hex] and
    [secrets.token_urlsafe] likewise draw the next value of [w_uuid] and
    [w_token]. *)
From stdpp Require Import base list gmap strings option.
From Stdlib Require Import ZArith Lia.
From S2P Require Import Prelude ControlModels.

(** ** Documents and collections ([LocalControlPlaneStore._MODELS]) *)

Inductive Collection :=
  | computers | tasks | runs | workspaces | grants | commands
  | runtime_credentials | registration_credentials | run_credentials | audit.

#[export] Instance Collection_eq_dec : EqDecision Collection.
Proof. solve_decision. Defined.

#[export] Instance Collection_countable : Countable Collection.
Proof.
  refine (inj_countable'
    (λ c, match c with
          | computers => 0 | tasks => 1 | runs => 2 | workspaces => 3 | grants => 4
          | commands => 5 | runtime_credentials => 6 | registration_credentials => 7
          | run_credentials => 8 | audit => 9 end)
    (λ n, match n with
          | 0 => computers | 1 => tasks | 2 => runs | 3 => workspaces | 4 => grants
          | 5 => commands | 6 => runtime_credentials | 7 => registration_credentials
          | 8 => run_credentials | _ => audit end) _).
  by intros [].
Defined.

(** The collections [__init__] gives a parent index. *)
Definition indexed : list Collection :=
  [runs; workspaces; grants; commands; run_credentials; audit].

Inductive Doc :=
  | DComputer (d : Computer)
  | DTask (d : CodeTask)
  | DRun (d : TaskRun)
  | DWorkspace (d : ExecutionWorkspace)
  | DGrant (d : ConnectorGrant)
  | DCommand (d : RuntimeCommand)
  | DRuntimeCredential (d : RuntimeCredential)
  | DRegistrationCredential (d : RuntimeRegistrationCredential)
  | DRunCredential (d : TaskRunCredential)
  | DAudit (d : SecurityAuditEvent).

(** [document.id]. *)
Definition doc_id (d : Doc) : string :=
  match d with
  | DComputer x => cmp_id x | DTask x => task_id x | DRun x => run_id x
  | DWorkspace x => ws_id x | DGrant x => grant_id x | DCommand x => cmd_id x
  | DRuntimeCredential x => rcred_id x | DRegistrationCredential x => reg_id x
  | DRunCredential x => tcred_id x | DAudit x => audit_id x
  end.

(** The sort key of listings: [updated_at] where the model has it, else
    [created_at]. *)
Definition doc_stamp (d : Doc) : Z :=
  match d with
  | DComputer x => cmp_updated_at x | DTask x => task_updated_at x | DRun x => run_updated_at x
  | DWorkspace x => ws_updated_at x | DGrant x => grant_created_at x
  | DCommand x => cmd_created_at x | DRuntimeCredential x => rcred_created_at x
  | DRegistrationCredential x => reg_created_at x | DRunCredential x => tcred_created_at x
  | DAudit x => audit_created_at x
  end.

(** Whether [model_validate] accepts the stored document. *)
Definition doc_valid (d : Doc) : bool :=
  match d with
  | DComputer x => valid_computer x | DTask x => valid_task x | DRun x => valid_run x
  | DWorkspace x => valid_workspace x | DGrant x => valid_grant x
  | DCommand x => valid_command x | DRuntimeCredential x => valid_runtime_credential x
  | DRegistrationCredential x => valid_registration_credential x
  | DRunCredential x => valid_run_credential x | DAudit x => valid_audit x
  end.

(** Which collection holds which model. *)
Definition doc_collection (d : Doc) : Collection :=
  match d with
  | DComputer _ => computers | DTask _ => tasks | DRun _ => runs | DWorkspace _ => workspaces
  | DGrant _ => grants | DCommand _ => commands | DRuntimeCredential _ => runtime_credentials
  | DRegistrationCredential _ => registration_credentials
  | DRunCredential _ => run_credentials | DAudit _ => audit
  end.

(** A typed document: the model a read is validated against. *)
Class Document (D : Type) := {
  collection_of : Collection;
  model_name : string;
  wrap : D → Doc;
  unwrap : Doc → option D;
  unwrap_wrap : ∀ d, unwrap (wrap d) = Some d;
  unwrap_inv : ∀ a d, unwrap a = Some d → a = wrap d;
  wrap_collection : ∀ d, doc_collection (wrap d) = collection_of;
  unwrap_total : ∀ a, doc_collection a = collection_of → is_Some (unwrap a);
}.
Arguments collection_of D {_}.
Arguments model_name D {_}.

Ltac solve_document :=
  intros; solve [by simplify_eq/= | repeat case_match; by simplify_eq/= | repeat case_match; eauto].

#[export] Instance Document_Computer : Document Computer.
Proof.
  refine {| collection_of := computers; model_name := "Computer"; wrap := DComputer;
    unwrap a := match a with DComputer x => Some x | _ => None end |}; solve_document.
Defined.
#[export] Instance Document_CodeTask : Document CodeTask.
Proof.
  refine {| collection_of := tasks; model_name := "CodeTask"; wrap := DTask;
    unwrap a := match a with DTask x => Some x | _ => None end |}; solve_document.
Defined.
#[export] Instance Document_TaskRun : Document TaskRun.
Proof.
  refine {| collection_of := runs; model_name := "TaskRun"; wrap := DRun;
    unwrap a := match a with DRun x => Some x | _ => None end |}; solve_document.
Defined.
#[export] Instance Document_ExecutionWorkspace : Document ExecutionWorkspace.
Proof.
  refine {| collection_of := workspaces; model_name := "ExecutionWorkspace"; wrap := DWorkspace;
    unwrap a := match a with DWorkspace x => Some x | _ => None end |}; solve_document.
Defined.
#[export] Instance Document_ConnectorGrant : Document ConnectorGrant.
Proof.
  refine {| collection_of := grants; model_name := "ConnectorGrant"; wrap := DGrant;
    unwrap a := match a with DGrant x => Some x | _ => None end |}; solve_document.
Defined.
#[export] Instance Document_RuntimeCommand : Document RuntimeCommand.
Proof.
  refine {| collection_of := commands; model_name := "RuntimeCommand"; wrap := DCommand;
    unwrap a := match a with DCommand x => Some x | _ => None end |}; solve_document.
Defined.
#[export] Instance Document_RuntimeCredential : Document RuntimeCredential.
Proof.
  refine {| collection_of := runtime_credentials; model_name := "RuntimeCredential"; wrap := DRuntimeCredential;
    unwrap a := match a with DRuntimeCredential x => Some x | _ => None end |}; solve_document.
Defined.
#[export] Instance Document_RegistrationCredential : Document RuntimeRegistrationCredential.
Proof.
  refine {| collection_of := registration_credentials; model_name := "RuntimeRegistrationCredential"; wrap := DRegistrationCredential;
    unwrap a := match a with DRegistrationCredential x => Some x | _ => None end |}; solve_document.
Defined.
#[export] Instance Document_RunCredential : Document TaskRunCredential.
Proof.
  refine {| collection_of := run_credentials; model_name := "TaskRunCredential"; wrap := DRunCredential;
    unwrap a := match a with DRunCredential x => Some x | _ => None end |}; solve_document.
Defined.
#[export] Instance Document_Audit : Document SecurityAuditEvent.
Proof.
  refine {| collection_of := audit; model_name := "SecurityAuditEvent"; wrap := DAudit;
    unwrap a := match a with DAudit x => Some x | _ => None end |}; solve_document.
Defined.

(** ** The disk *)

(** One entry of [.transaction.json]. *)
Record JournalEntry := {
  je_collection : Collection;
  je_document_id : string;
  je_stage : string;
}.

Record Disk := {
  disk_docs : gmap (Collection * string) Doc;
  disk_stages : gmap (Collection * string) Doc;
  disk_journal_tmp : option (list JournalEntry);
  disk_journal : option (list JournalEntry);
}.

#[export] Instance fields_Disk : Fields Disk := λ d, {|
  disk_docs := disk_docs d; disk_stages := disk_stages d;
  disk_journal_tmp := disk_journal_tmp d; disk_journal := disk_journal d |}.

Record World := {
  w_disk : Disk;
  w_index : gmap Collection (gmap string (gset string));
  w_local_computer_id : option string;
  w_local_computer_name : option string;
  w_clock : nat → Z;
  w_reads : nat;
  w_uuid : nat → string;
  w_uuids : nat;
  w_token : nat → string;
  w_tokens : nat;
}.

#[export] Instance fields_World : Fields World := λ w, {|
  w_disk := w_disk w; w_index := w_index w;
  w_local_computer_id := w_local_computer_id w;
  w_local_computer_name := w_local_computer_name w;
  w_clock := w_clock w; w_reads := w_reads w; w_uuid := w_uuid w; w_uuids := w_uuids w;
  w_token := w_token w; w_tokens := w_tokens w |}.

Abbreviation op := (eff World).

(** The documents of a world. *)
Definition w_docs (w : World) : gmap (Collection * string) Doc := disk_docs (w_disk w).

Definition set_docs (m : gmap (Collection * string) Doc) (w : World) : World :=
  w <| w_disk := (w_disk w) <| disk_docs := m |> |>.

(** [utc_now()]. *)
Definition utc_now : op Z := λ w,
  (w <| w_reads := S (w_reads w) |>, inr (w_clock w (w_reads w))).

(** [uuid.uuid4().hex]. *)
Definition uuid4_hex : op string := λ w,
  (w <| w_uuids := S (w_uuids w) |>, inr (w_uuid w (w_uuids w))).

(** [secrets.token_urlsafe(n)]. *)
Definition token_urlsafe : op string := λ w,
  (w <| w_tokens := S (w_tokens w) |>, inr (w_token w (w_tokens w))).

(** The clock never runs backwards. *)
Definition clock_mono (w : World) : Prop := ∀ n m, n ≤ m → (w_clock w n ≤ w_clock w m)%Z.

(** The stored document of a given model, if there is one. *)
Definition stored (D : Type) `{!Document D} (w : World) (id : string) : option D :=
  w_docs w !! (collection_of D, id) ≫= unwrap.

(** ** Reads of the environment leave the documents alone *)

(** States with the same documents, index and oracles: only the counters of
    the clock, identifier and token sources have moved forward. *)
Record env_step (w w' : World) : Prop := {
  es_disk : w_disk w' = w_disk w;
  es_index : w_index w' = w_index w;
  es_lid : w_local_computer_id w' = w_local_computer_id w;
  es_lname : w_local_computer_name w' = w_local_computer_name w;
  es_clock : w_clock w' = w_clock w;
  es_uuid : w_uuid w' = w_uuid w;
  es_token : w_token w' = w_token w;
  es_reads : w_reads w ≤ w_reads w';
  es_uuids : w_uuids w ≤ w_uuids w';
  es_tokens : w_tokens w ≤ w_tokens w';
}.

#[export] Instance env_step_preorder : PreOrder env_step.
Proof.
  split; [by intros w; split|].
  intros w1 w2 w3 [] []. split; congruence || lia.
Qed.

Lemma env_step_docs w w' : env_step w w' → w_docs w' = w_docs w.
Proof. intros [Hd]. unfold w_docs. by rewrite Hd. Qed.

Lemma env_step_stored D `{!Document D} w w' id :
  env_step w w' → stored D w' id = stored D w id.
Proof. intros H. unfold stored. by rewrite (env_step_docs _ _ H). Qed.

Lemma utc_now_env w : env_step w (utc_now w).1.
Proof. split; cbn; try done; lia. Qed.
Lemma uuid4_hex_env w : env_step w (uuid4_hex w).1.
Proof. split; cbn; try done; lia. Qed.
Lemma token_urlsafe_env w : env_step w (token_urlsafe w).1.
Proof. split; cbn; try done; lia. Qed.

Lemma utc_now_inv w w' r :
  utc_now w = (w', r) → env_step w w' ∧ r = inr (w_clock w (w_reads w)) ∧ w_reads w' = S (w_reads w).
Proof. intros [= <- <-]. split; [apply (utc_now_env w)|]. done. Qed.

Lemma uuid4_hex_inv w w' r :
  uuid4_hex w = (w', r) → env_step w w' ∧ r = inr (w_uuid w (w_uuids w)) ∧ w_uuids w' = S (w_uuids w).
Proof. intros [= <- <-]. split; [apply (uuid4_hex_env w)|]. done. Qed.

Lemma token_urlsafe_inv w w' r :
  token_urlsafe w = (w', r) → env_step w w' ∧ r = inr (w_token w (w_tokens w)).
Proof. intros [= <- <-]. split; [apply (token_urlsafe_env w)|]. done. Qed.

(** A world for concrete examples: an empty store, clock ticks of one second,
    numbered identifiers and secrets. *)
Definition demo_name (prefix : string) (n : nat) : string :=
  String.append prefix (pretty.pretty (N.of_nat n)).

Definition empty_disk : Disk := {|
  disk_docs := ∅; disk_stages := ∅; disk_journal_tmp := None; disk_journal := None |}.

Definition demo_world (start : Z) : World := {|
  w_disk := empty_disk;
  w_index := list_to_map (map (λ c, (c, ∅)) indexed);
  w_local_computer_id := None;
  w_local_computer_name := None;
  w_clock n := (start + 1000000 * Z.of_nat n)%Z;
  w_reads := 0;
  w_uuid n := demo_name "u" n;
  w_uuids := 0;
  w_token n := demo_name "t" n;
  w_tokens := 0 |}.

Lemma demo_world_clock start : clock_mono (demo_world start).
Proof. intros n m Hnm. cbn. lia. Qed.
