(* ===== verification/RunState.v ===== *)
(** * The Task Run state machine ([src/cowork/coding/run_state.py]).

    [allowed_transitions] is the table [_ALLOWED_TRANSITIONS], [transition_run]
    the one function that moves a run along it.  The theorems describe every
    branch of it, the states a run can reach from each other by legal moves,
    and the fields a move may change. *)
From stdpp Require Import base list gmap strings option relations.
From Stdlib Require Import ZArith Lia.
From S2P Require Import Prelude ControlModels ControlWorld.

Definition allowed_transitions (s : RunStatus) : list RunStatus :=
  match s with
  | queued => [preparing; cancelled; failed]
  | preparing => [ready; cancelled; failed; interrupted; recovering]
  | ready => [running; completed; cancelled; failed; recovering]
  | running =>
      [awaiting_approval; completed; ready; cancelled; interrupted; failed; recovering]
  | awaiting_approval =>
      [running; ready; completed; cancelled; interrupted; failed; recovering]
  | interrupted => [recovering; cancelled; failed]
  | recovering => [preparing; ready; running; cancelled; failed]
  | completed => []
  | cancelled => []
  | failed => [recovering]
  end.

(** The message of [InvalidRunTransition]. *)
Definition invalid_transition_message (from to : RunStatus) : string :=
  String.append "Task Run cannot move from " (String.append (RunStatus_value from)
    (String.append " to " (RunStatus_value to))).

(** The assignments of [transition_run] after its two guards. *)
Definition moved_run (run : TaskRun) (target : RunStatus) (error : option string) (now : Z) : TaskRun :=
  let run := run <| run_status := target |> <| run_updated_at := now |> <| run_last_error := error |> in
  let run :=
    if bool_decide (target = running) && bool_decide (run_started_at run = None)
    then run <| run_started_at := Some now |> else run in
  if is_terminal_status target
  then run <| run_finished_at := Some now |> <| run_lease_id := None |> <| run_lease_expires_at := None |>
  else run.

Definition transition_run (run : TaskRun) (target : RunStatus) (error : option string) : op TaskRun :=
  if decide (target = run_status run) then mret run
  else if decide (target ∈ allowed_transitions (run_status run)) then
    now ← utc_now;
    mret (moved_run run target error now)
  else raise (InvalidRunTransition (invalid_transition_message (run_status run) target)).

(** ** What one move does *)

Lemma moved_run_frame run target error now :
  run_id (moved_run run target error now) = run_id run ∧
  run_task_id (moved_run run target error now) = run_task_id run ∧
  run_computer_id (moved_run run target error now) = run_computer_id run ∧
  run_epoch (moved_run run target error now) = run_epoch run ∧
  run_last_event_seq (moved_run run target error now) = run_last_event_seq run ∧
  run_last_event_id (moved_run run target error now) = run_last_event_id run ∧
  run_created_at (moved_run run target error now) = run_created_at run ∧
  run_status (moved_run run target error now) = target ∧
  run_last_error (moved_run run target error now) = error ∧
  run_recovery_count (moved_run run target error now) = run_recovery_count run.
Proof. unfold moved_run. by repeat case_match. Qed.

(** A move to a status that is not terminal leaves the lease and the recovery
    data alone. *)
Lemma moved_run_lease run target error now :
  is_terminal_status target = false →
  run_lease_id (moved_run run target error now) = run_lease_id run ∧
  run_lease_expires_at (moved_run run target error now) = run_lease_expires_at run ∧
  run_checkpoint (moved_run run target error now) = run_checkpoint run ∧
  run_workspace_resume_mode (moved_run run target error now) = run_workspace_resume_mode run.
Proof. unfold moved_run. intros ->. by case_match. Qed.

(** The three outcomes of [transition_run]. *)
Lemma transition_run_cases run target error w :
  (target = run_status run ∧ transition_run run target error w = (w, inr run)) ∨
  (target ≠ run_status run ∧ target ∈ allowed_transitions (run_status run) ∧
     transition_run run target error w =
       ((utc_now w).1, inr (moved_run run target error (w_clock w (w_reads w))))) ∨
  (target ≠ run_status run ∧ target ∉ allowed_transitions (run_status run) ∧
     transition_run run target error w =
       (w, inl (InvalidRunTransition (invalid_transition_message (run_status run) target)))).
Proof.
  unfold transition_run. destruct (decide (target = run_status run)); [by left|right].
  destruct (decide _); [left|right]; done.
Qed.

(** A successful transition leaves the store alone, ends in the requested
    status and keeps the identity, ownership and fencing fields of the run. *)
Lemma transition_run_inv run target error w w' run' :
  transition_run run target error w = (w', inr run') →
  env_step w w' ∧ run_status run' = target ∧ run_id run' = run_id run ∧
  run_task_id run' = run_task_id run ∧ run_computer_id run' = run_computer_id run ∧
  run_epoch run' = run_epoch run ∧ run_last_event_seq run' = run_last_event_seq run ∧
  run_last_event_id run' = run_last_event_id run ∧
  run_recovery_count run' = run_recovery_count run ∧
  (run' = run ∨ run_last_error run' = error).
Proof.
  intros H. destruct (transition_run_cases run target error w)
    as [(-> & E)|[(Hne & Hin & E)|(? & ? & E)]]; rewrite E in H; simplify_eq.
  - split; [reflexivity|]. naive_solver.
  - split; [apply utc_now_env|].
    destruct (moved_run_frame run target error (w_clock w (w_reads w))) as (?&?&?&?&?&?&?&?&?&?).
    naive_solver.
Qed.

Lemma transition_run_env run target error w : env_step w (transition_run run target error w).1.
Proof.
  destruct (transition_run_cases run target error w) as [(_ & E)|[(_ & _ & E)|(_ & _ & E)]];
    rewrite E; cbn; [reflexivity|apply utc_now_env|reflexivity].
Qed.

(** ** The machine as a step relation *)

(** One legal move between two different statuses. *)
Definition status_step (s t : RunStatus) : Prop := t ∈ allowed_transitions s.

(** Statuses reachable in at most ten moves, by saturation; ten statuses make
    ten rounds enough. *)
Fixpoint saturate (fuel : nat) (seen : list RunStatus) : list RunStatus :=
  match fuel with
  | 0 => seen
  | S n => saturate n (unique_values (seen ++ mjoin (map allowed_transitions seen)))
  end.
Definition reachable_statuses (s : RunStatus) : list RunStatus := saturate 10 [s].

Lemma reachable_statuses_closed s t u :
  t ∈ reachable_statuses s → status_step t u → u ∈ reachable_statuses s.
Proof.
  unfold status_step.
  assert (Hc : forallb (λ x, forallb (λ y, bool_decide (y ∈ reachable_statuses s))
                                     (allowed_transitions x)) (reachable_statuses s) = true).
  { destruct s; vm_compute; reflexivity. }
  rewrite forallb_forall in Hc. intros Ht Hu.
  specialize (Hc t (proj1 (list_elem_of_In _ _) Ht)). rewrite forallb_forall in Hc.
  specialize (Hc u (proj1 (list_elem_of_In _ _) Hu)). by apply bool_decide_eq_true in Hc.
Qed.

Lemma reachable_statuses_complete s t : rtc status_step s t → t ∈ reachable_statuses s.
Proof.
  apply (rtc_ind_r (λ t, t ∈ reachable_statuses s)).
  - destruct s; vm_compute; set_solver.
  - intros y z _ Hyz IH. eapply reachable_statuses_closed; eauto.
Qed.

(** a Task Run that completed or was cancelled never moves again, by any
    sequence of legal transitions; a failed one moves again only through
    recovery; and no run ever returns to the queue. *)
Theorem run_status_reachability s t :
  rtc status_step s t →
  (s = completed ∨ s = cancelled → t = s) ∧
  (s = failed → t = failed ∨ rtc status_step recovering t) ∧
  (t = queued → s = queued).
Proof.
  intros Hst. pose proof (reachable_statuses_complete s t Hst) as Hr. split_and!.
  - intros [-> | ->]; vm_compute in Hr; set_solver.
  - intros ->. apply rtc_inv in Hst as [->|(y & Hy & Hyt)]; [by left|right].
    by apply list_elem_of_singleton in Hy as ->.
  - intros ->. destruct s; [done|..]; exfalso; vm_compute in Hr; set_solver.
Qed.

Lemma run_status_reachability_witness :
  rtc status_step failed running ∧ (failed = failed → running = failed ∨ rtc status_step recovering running).
Proof.
  assert (H : rtc status_step failed running).
  { apply (rtc_l _ _ recovering); [unfold status_step; set_solver|].
    apply (rtc_l _ _ running); [unfold status_step; set_solver|]. constructor. }
  split; [exact H|]. exact (proj1 (proj2 (run_status_reachability failed running H))).
Defined.

(** [transition_run] raises exactly on a move outside the table and then
    changes nothing; on a legal move to a terminal status it stamps
    [finished_at] and gives up the lease, on a legal move to [running] it
    stamps [started_at] only the first time. *)
Theorem transition_run_spec run target error w :
  match transition_run run target error w with
  | (w', inl e) =>
      w' = w ∧ e = InvalidRunTransition (invalid_transition_message (run_status run) target) ∧
      target ≠ run_status run ∧ target ∉ allowed_transitions (run_status run)
  | (w', inr run') =>
      run_status run' = target ∧
      (target = run_status run → run' = run ∧ w' = w) ∧
      (target ≠ run_status run →
         target ∈ allowed_transitions (run_status run) ∧
         run_updated_at run' = w_clock w (w_reads w) ∧ run_last_error run' = error ∧
         (target ∈ TERMINAL_RUN_STATUSES →
            run_lease_id run' = None ∧ run_lease_expires_at run' = None ∧
            run_finished_at run' = Some (w_clock w (w_reads w))) ∧
         (target ∉ TERMINAL_RUN_STATUSES →
            run_lease_id run' = run_lease_id run ∧
            run_lease_expires_at run' = run_lease_expires_at run ∧
            run_finished_at run' = run_finished_at run) ∧
         (target = running →
            run_started_at run' =
              Some (default (w_clock w (w_reads w)) (run_started_at run))) ∧
         (target ≠ running → run_started_at run' = run_started_at run))
  end.
Proof.
  destruct (transition_run_cases run target error w) as [(-> & E)|[(Hne & Hin & E)|(Hne & Hin & E)]];
    rewrite E; [done| |done].
  split; [by destruct (moved_run_frame run target error (w_clock w (w_reads w))) as (?&?&?&?&?&?&?&?&?)|].
  split; [done|]. intros _. split; [done|].
  unfold moved_run, is_terminal_status.
  destruct (bool_decide_reflect (target ∈ TERMINAL_RUN_STATUSES));
    destruct (bool_decide_reflect (target = running));
    try (exfalso; subst target; set_solver);
    destruct (run_started_at run) eqn:Es; cbn; rewrite ?Es; cbn; rewrite ?Es; naive_solver.
Qed.
