(* ===== verification/ControlStore.v ===== *)
(** * The local control-plane store ([src/cowork/coding/control_store.py]).

    [LocalControlPlaneStore] keeps one JSON file per document and an in-memory
    index from a parent (a task for runs, a run for everything else) to the ids
    of its documents.  The generic operations [_save], [_get], [_list],
    [_list_for_parent], [_delete] and the index functions are modelled over
    [World]; the typed methods are built from them as in the source.

    [store_wf] is the representation invariant.  The section after the
    definitions shows that every operation keeps it, that a listing by parent is
    the filter of the whole collection the specification asks for, and what the
    compound operations ([claim_run], [update_run],
    [consume_registration_credential], [delete_task], [prune]) do. *)
From stdpp Require Import base list gmap strings option sorting.
From Stdlib Require Import ZArith Lia.
From S2P Require Import Prelude ControlModels ControlWorld RunState.

(** [_path]: a document id is a non-empty word over [A-Za-z0-9-_]. *)
Definition check_path (document_id : string) : op () :=
  raise_if (negb (truthy document_id) || negb (all_chars id_char document_id))
    (ValueError "invalid control-plane document id").

(** [_parent_id]. *)
Definition parent_id (c : Collection) (d : Doc) : option string :=
  match d with
  | DRun r => if decide (c = runs) then Some (run_task_id r) else None
  | DWorkspace x => if decide (c = workspaces) then
      (if truthy (ws_run_id x) then Some (ws_run_id x) else None) else None
  | DGrant x => if decide (c = grants) then
      (if truthy (grant_run_id x) then Some (grant_run_id x) else None) else None
  | DCommand x => if decide (c = commands) then
      (if truthy (cmd_run_id x) then Some (cmd_run_id x) else None) else None
  | DRunCredential x => if decide (c = run_credentials) then
      (if truthy (tcred_run_id x) then Some (tcred_run_id x) else None) else None
  | DAudit x => if decide (c = audit) then
      (if truthy_opt (audit_run_id x) then audit_run_id x else None) else None
  | _ => None
  end.

(** [if parent_id:], the guard of [_index_document]. *)
Definition indexed_parent (c : Collection) (d : Doc) : option string :=
  match parent_id c d with
  | Some p => if truthy p then Some p else None
  | None => None
  end.

(** The body of [_index_document] for a collection that has an index: drop
    the id everywhere, then add it under its parent. *)
Definition reindex (c : Collection) (d : Doc) (index : gmap string (gset string)) :
    gmap string (gset string) :=
  let index := (λ ids : gset string, ids ∖ {[ doc_id d ]}) <$> index in
  match indexed_parent c d with
  | Some p => <[p := default ∅ (index !! p) ∪ {[ doc_id d ]}]> index
  | None => index
  end.

(** [_index_document]. *)
Definition index_document (c : Collection) (d : Doc) (w : World) : World :=
  match w_index w !! c with
  | None => w
  | Some index => w <| w_index := <[c := reindex c d index]> (w_index w) |>
  end.

(** [_save]: the unique staging file and [os.replace] make the write of one
    document atomic, so it is one update of the disk. *)
Definition save (c : Collection) (d : Doc) : op () :=
  check_path (doc_id d);;
  modify (λ w, index_document c d (set_docs (<[(c, doc_id d) := d]> (w_docs w)) w)).

(** [_delete]. *)
Definition delete_doc (c : Collection) (document_id : string) : op () :=
  check_path document_id;;
  modify (λ w,
    let w := set_docs (delete (c, document_id) (w_docs w)) w in
    match w_index w !! c with
    | None => w
    | Some index =>
        let index := (λ ids : gset string, ids ∖ {[ document_id ]}) <$> index in
        let index := filter (λ kv, kv.2 ≠ ∅) index in
        w <| w_index := <[c := index]> (w_index w) |>
    end).

(** [_get]: the file, parsed and validated as the requested model. *)
Definition get (D : Type) `{!Document D} (document_id : string) : op D :=
  check_path document_id;;
  d ← gets (λ w, w_docs w !! (collection_of D, document_id));
  match d with
  | None => raise (KeyError (String.append (model_name D) " not found"))
  | Some a =>
      match unwrap a with
      | Some x => if doc_valid a then mret x else raise (ValidationError (model_name D))
      | None => raise (ValidationError (model_name D))
      end
  end.

(** The files of one collection that parse and validate as [D]. *)
Definition readable (D : Type) `{!Document D} (w : World) : list D :=
  omap (λ '((c, _), a), if decide (c = collection_of D) then
                          (if doc_valid a then unwrap a else None) else None)
       (map_to_list (w_docs w)).

Section Store.
Context {PF : Platform}.

(** [_list]: unreadable files are skipped. *)
Definition list_docs (D : Type) `{!Document D} : op (list D) :=
  gets (λ w, sorted_desc (λ x, doc_stamp (wrap x)) (reorder (readable D w))).

(** [_list_for_parent]: a missing file is skipped, an invalid one raises. *)
Definition get_unless_missing (D : Type) `{!Document D} (document_id : string) : op (option D) :=
  catch (x ← get D document_id; mret (Some x))
    (λ e, if is_KeyError e then Some (mret None) else None).

Definition list_for_parent (D : Type) `{!Document D} (p : string) : op (list D) :=
  ids ← gets (λ w, default ∅ (default ∅ (w_index w !! collection_of D) !! p));
  found ← map_each (get_unless_missing D) (reorder (elements ids));
  mret (sorted_desc (λ x, doc_stamp (wrap x)) (omap id found)).

(** [_rebuild_parent_index], from the readable documents. *)
Definition rebuild_index (D : Type) `{!Document D} : op () :=
  l ← list_docs D;
  for_each l (λ x, modify (index_document (collection_of D) (wrap x))).
End Store.

(** ** Typed methods *)

Section Methods.
Context {PF : Platform}.

Definition save_computer (x : Computer) : op Computer :=
  now ← utc_now;
  let x := x <| cmp_updated_at := now |> in
  save computers (DComputer x);; mret x.
Definition get_computer (id : string) : op Computer := get Computer id.
Definition list_computers : op (list Computer) := list_docs Computer.

Definition save_task (x : CodeTask) : op CodeTask :=
  now ← utc_now;
  let x := x <| task_updated_at := now |> in
  save tasks (DTask x);; mret x.
Definition get_task (id : string) : op CodeTask := get CodeTask id.
Definition list_tasks : op (list CodeTask) := list_docs CodeTask.

Definition save_run (x : TaskRun) : op TaskRun :=
  now ← utc_now;
  let x := x <| run_updated_at := now |> in
  save runs (DRun x);; mret x.
Definition get_run (id : string) : op TaskRun := get TaskRun id.
Definition list_runs : op (list TaskRun) := list_docs TaskRun.

Definition save_workspace (x : ExecutionWorkspace) : op ExecutionWorkspace :=
  now ← utc_now;
  let x := x <| ws_updated_at := now |> in
  save workspaces (DWorkspace x);; mret x.
Definition list_workspaces (run_id : option string) : op (list ExecutionWorkspace) :=
  match run_id with
  | Some p => list_for_parent ExecutionWorkspace p
  | None => list_docs ExecutionWorkspace
  end.

Definition save_grant (x : ConnectorGrant) : op ConnectorGrant :=
  save grants (DGrant x);; mret x.
Definition get_grant (id : string) : op ConnectorGrant := get ConnectorGrant id.
Definition list_grants (run_id : option string) : op (list ConnectorGrant) :=
  match run_id with
  | Some p => list_for_parent ConnectorGrant p
  | None => list_docs ConnectorGrant
  end.

(** [operation] mutates the grant in place; what it stores in variables of
    its enclosing scope comes back beside the grant. *)
Definition update_grant {A} (grant_id : string)
    (operation : ConnectorGrant → TaskRun → op (ConnectorGrant * A)) : op (ConnectorGrant * A) :=
  grant ← get_grant grant_id;
  run ← get_run (grant_run_id grant);
  '(grant, captured) ← operation grant run;
  grant ← save_grant grant;
  mret (grant, captured).

Definition save_command (x : RuntimeCommand) : op RuntimeCommand :=
  save commands (DCommand x);; mret x.
Definition get_command (id : string) : op RuntimeCommand := get RuntimeCommand id.
Definition list_commands (run_id : option string) : op (list RuntimeCommand) :=
  match run_id with
  | Some p => list_for_parent RuntimeCommand p
  | None => list_docs RuntimeCommand
  end.

Definition save_runtime_credential (x : RuntimeCredential) : op RuntimeCredential :=
  save runtime_credentials (DRuntimeCredential x);; mret x.
Definition get_runtime_credential (id : string) : op RuntimeCredential := get RuntimeCredential id.

Definition save_registration_credential (x : RuntimeRegistrationCredential) :
    op RuntimeRegistrationCredential :=
  save registration_credentials (DRegistrationCredential x);; mret x.

Definition consume_registration_credential (token_hash : string) (now : Z) : op bool :=
  found ← get_unless_missing RuntimeRegistrationCredential token_hash;
  match found with
  | None => mret false
  | Some credential =>
      if bool_decide (reg_consumed_at credential ≠ None) || (reg_expires_at credential <=? now)%Z
      then mret false
      else
        save registration_credentials
          (DRegistrationCredential (credential <| reg_consumed_at := Some now |>));;
        mret true
  end.

Definition save_run_credential (x : TaskRunCredential) : op TaskRunCredential :=
  save run_credentials (DRunCredential x);; mret x.
Definition get_run_credential (id : string) : op TaskRunCredential := get TaskRunCredential id.

Definition save_audit_event (x : SecurityAuditEvent) : op SecurityAuditEvent :=
  found ← get_unless_missing SecurityAuditEvent (audit_id x);
  match found with
  | None => save audit (DAudit x);; mret x
  | Some _ => raise (ValueError "security audit events are append-only")
  end.

Definition list_audit_events (run_id : option string) : op (list SecurityAuditEvent) :=
  match run_id with
  | Some p => list_for_parent SecurityAuditEvent p
  | None => list_docs SecurityAuditEvent
  end.

Definition delete_owned (D : Type) `{!Document D} (run_id : string) : op () :=
  l ← list_for_parent D run_id;
  for_each l (λ x, delete_doc (collection_of D) (doc_id (wrap x))).

Definition store_delete_task (task_id : string) : op () :=
  owned ← list_for_parent TaskRun task_id;
  for_each (map run_id owned) (λ rid,
    delete_owned ExecutionWorkspace rid;;
    delete_owned ConnectorGrant rid;;
    delete_owned RuntimeCommand rid;;
    delete_owned TaskRunCredential rid;;
    delete_owned SecurityAuditEvent rid;;
    delete_doc runs rid);;
  delete_doc tasks task_id.

(** One loop of [prune]: delete the documents that are retired, count them. *)
Definition prune_docs (D : Type) `{!Document D} (retired : D → bool) : op Z :=
  l ← list_docs D;
  let gone := base.filter (λ x, retired x = true) l in
  for_each gone (λ x, delete_doc (collection_of D) (doc_id (wrap x)));;
  mret (Z.of_nat (length gone)).

Definition or_instant (a : option Z) (b : Z) : Z := default b a.

Definition prune (auxiliary_older_than audit_older_than : Z) : op Z :=
  a ← prune_docs RuntimeCommand (λ c,
    match cmd_acked_at c with Some t => (t <? auxiliary_older_than)%Z | None => false end);
  b ← prune_docs ConnectorGrant (λ g,
    (or_instant (grant_revoked_at g) (grant_expires_at g) <? auxiliary_older_than)%Z);
  c ← prune_docs RuntimeRegistrationCredential (λ r,
    (or_instant (reg_consumed_at r) (reg_expires_at r) <? auxiliary_older_than)%Z);
  d ← prune_docs SecurityAuditEvent (λ e, (audit_created_at e <? audit_older_than)%Z);
  mret (a + b + c + d)%Z.

Definition claimable (computer_id : string) (run : TaskRun) : bool :=
  String.eqb (run_computer_id run) computer_id && bool_decide (run_status run ∈ [queued; recovering]).

Definition claim_run (computer_id lease_id : string) (lease_expires_at : Z) : op (option TaskRun) :=
  l ← list_runs;
  match base.filter (λ run, claimable computer_id run = true) l with
  | [] => mret None
  | first :: rest =>
      let run := min_by run_created_at first rest in
      let run := run <| run_lease_id := Some lease_id |>
                     <| run_lease_expires_at := Some lease_expires_at |> in
      run ← transition_run run preparing None;
      run ← save_run run;
      mret (Some run)
  end.

(** [operation] mutates the run it is given; an exception in it leaves the
    stored run as it was.  The unchanged run is not rewritten. *)
Definition update_run (run_id : string) (operation : TaskRun → op TaskRun) : op TaskRun :=
  before ← get_run run_id;
  run ← operation before;
  if decide (run = before) then mret run else save_run run.
End Methods.

(** ** Single-document operations *)

Lemma check_path_eq id w :
  check_path id w = if id_pattern id then (w, inr ())
                    else (w, inl (ValueError "invalid control-plane document id")).
Proof. unfold check_path, id_pattern, raise_if. by destruct (truthy id), (all_chars id_char id). Qed.

Lemma get_eq D `{!Document D} id w :
  get D id w =
    (w, if id_pattern id then
          match w_docs w !! (collection_of D, id) with
          | None => inl (KeyError (String.append (model_name D) " not found"))
          | Some a => match unwrap a with
                      | Some x => if doc_valid a then inr x else inl (ValidationError (model_name D))
                      | None => inl (ValidationError (model_name D))
                      end
          end
        else inl (ValueError "invalid control-plane document id")).
Proof.
  unfold get, mbind, eff_bind. rewrite check_path_eq. destruct (id_pattern id); [|done].
  cbn. destruct (w_docs w !! _) as [a|]; [|done].
  destruct (unwrap a); [|done]. by destruct (doc_valid a).
Qed.

Lemma get_inr D `{!Document D} id w w' x :
  get D id w = (w', inr x) ↔
  w' = w ∧ id_pattern id = true ∧ stored D w id = Some x ∧ doc_valid (wrap x) = true.
Proof.
  rewrite get_eq. unfold stored. destruct (id_pattern id); cbn; [|naive_solver].
  destruct (w_docs w !! _) as [a|]; cbn; [|naive_solver].
  destruct (unwrap a) as [y|] eqn:E; [|naive_solver].
  apply unwrap_inv in E as ->. destruct (doc_valid (wrap y)) eqn:Ev.
  - split; [intros [= <- <-]; done|intros (-> & _ & [= ->] & _); done].
  - split; [done|]. intros (_ & _ & [= ->] & Hv). congruence.
Qed.

Lemma get_env D `{!Document D} id w : (get D id w).1 = w.
Proof. by rewrite get_eq. Qed.

Lemma save_eq c d w :
  save c d w =
    if id_pattern (doc_id d)
    then (index_document c d (set_docs (<[(c, doc_id d) := d]> (w_docs w)) w), inr ())
    else (w, inl (ValueError "invalid control-plane document id")).
Proof.
  unfold save, mbind, eff_bind. rewrite check_path_eq. by destruct (id_pattern (doc_id d)).
Qed.

Lemma index_document_docs c d w : w_docs (index_document c d w) = w_docs w.
Proof. unfold index_document. by destruct (w_index w !! c). Qed.

Lemma set_docs_docs m w : w_docs (set_docs m w) = m.
Proof. done. Qed.

(** What a save leaves unchanged: the journal and the sources of time,
    identifiers and secrets, which only move forward. *)
Record rest_step (w w' : World) : Prop := {
  rs_journal : disk_journal (w_disk w') = disk_journal (w_disk w);
  rs_clock : w_clock w' = w_clock w;
  rs_uuid : w_uuid w' = w_uuid w;
  rs_token : w_token w' = w_token w;
  rs_reads : w_reads w ≤ w_reads w';
  rs_uuids : w_uuids w ≤ w_uuids w';
  rs_tokens : w_tokens w ≤ w_tokens w';
}.

#[export] Instance rest_step_preorder : PreOrder rest_step.
Proof.
  split; [by intros w; split|]. intros w1 w2 w3 [] []. split; congruence || lia.
Qed.

Lemma env_rest w w' : env_step w w' → rest_step w w'.
Proof. intros [Hd]. split; by rewrite ?Hd. Qed.

Lemma index_document_rest c d w : rest_step w (index_document c d w).
Proof. unfold index_document. destruct (w_index w !! c); [by split|reflexivity]. Qed.

Lemma save_inr c d w w' :
  save c d w = (w', inr ()) →
  id_pattern (doc_id d) = true ∧ w_docs w' = <[(c, doc_id d) := d]> (w_docs w) ∧ rest_step w w'.
Proof.
  rewrite save_eq. destruct (id_pattern (doc_id d)); [|done]. intros [= <-].
  rewrite index_document_docs. split_and!; [done|done|].
  etrans; [|apply index_document_rest]. by split.
Qed.

Lemma stored_insert_eq D `{!Document D} w w' x :
  w_docs w' = <[(collection_of D, doc_id (wrap x)) := wrap x]> (w_docs w) →
  stored D w' (doc_id (wrap x)) = Some x.
Proof. intros H. unfold stored. rewrite H, lookup_insert_eq. cbn. apply unwrap_wrap. Qed.

Lemma stored_insert_ne D `{!Document D} w w' k d id :
  w_docs w' = <[k := d]> (w_docs w) → k ≠ (collection_of D, id) →
  stored D w' id = stored D w id.
Proof. intros H Hne. unfold stored. by rewrite H, lookup_insert_ne. Qed.

(** ** The representation invariant *)

Record store_wf (w : World) : Prop := {
  wf_key : ∀ c id d, w_docs w !! (c, id) = Some d →
    doc_collection d = c ∧ doc_id d = id ∧ id_pattern id = true;
  wf_indexed : ∀ c, is_Some (w_index w !! c) ↔ c ∈ indexed;
  wf_index_id : ∀ c index p ids id,
    w_index w !! c = Some index → index !! p = Some ids → id ∈ ids → id_pattern id = true;
  wf_sound : ∀ c index p ids id d,
    w_index w !! c = Some index → index !! p = Some ids → id ∈ ids →
    w_docs w !! (c, id) = Some d → indexed_parent c d = Some p;
  wf_complete : ∀ c index p id d,
    w_index w !! c = Some index → w_docs w !! (c, id) = Some d →
    doc_valid d = true → indexed_parent c d = Some p →
    ∃ ids, index !! p = Some ids ∧ id ∈ ids;
}.

Lemma store_wf_env w w' : env_step w w' → store_wf w → store_wf w'.
Proof.
  intros [Hd Hi] [K X P S C]. unfold w_docs in *.
  split; unfold w_docs; rewrite ?Hd, ?Hi; eauto.
Qed.

(** The index of one collection after [_index_document]. *)
Lemma index_document_lookup c d w c' index' :
  w_index (index_document c d w) !! c' = Some index' →
  (c' ≠ c ∧ w_index w !! c' = Some index') ∨
  (c' = c ∧ ∃ index, w_index w !! c = Some index ∧ index' = reindex c d index).
Proof.
  unfold index_document. destruct (w_index w !! c) as [index|] eqn:E; cbn.
  - destruct (decide (c' = c)) as [->|Hne].
    + rewrite lookup_insert_eq. intros [= <-]. right. eauto.
    + rewrite lookup_insert_ne by done. by left.
  - intros H. left. split; [|done]. intros ->. congruence.
Qed.

(** Membership in a parent's entry of that index. *)
Lemma reindex_elem c d index p ids id :
  reindex c d index !! p = Some ids → id ∈ ids →
  (id = doc_id d ∧ indexed_parent c d = Some p) ∨
  (id ≠ doc_id d ∧ ∃ ids0, index !! p = Some ids0 ∧ id ∈ ids0).
Proof.
  unfold reindex. cbn zeta. destruct (indexed_parent c d) as [q|] eqn:Eq.
  - destruct (decide (q = p)) as [->|Hne].
    + rewrite lookup_insert_eq, lookup_fmap. intros [= <-].
      destruct (index !! p) as [ids0|]; cbn; [|set_solver].
      destruct (decide (id = doc_id d)); set_solver.
    + rewrite lookup_insert_ne, lookup_fmap by done.
      destruct (index !! p) as [ids0|]; cbn; [|done]. intros [= <-]. set_solver.
  - rewrite lookup_fmap. destruct (index !! p) as [ids0|]; cbn; [|done]. intros [= <-]. set_solver.
Qed.

Lemma reindex_keeps c d index p ids id :
  index !! p = Some ids → id ∈ ids → id ≠ doc_id d →
  ∃ ids', reindex c d index !! p = Some ids' ∧ id ∈ ids'.
Proof.
  intros Hp Hid Hne. unfold reindex. cbn zeta. destruct (indexed_parent c d) as [q|].
  - destruct (decide (q = p)) as [->|Hqp].
    + eexists. rewrite lookup_insert_eq. split; [done|]. rewrite lookup_fmap, Hp. set_solver.
    + eexists. rewrite lookup_insert_ne, lookup_fmap, Hp by done. split; [done|]. set_solver.
  - eexists. rewrite lookup_fmap, Hp. split; [done|]. set_solver.
Qed.

Lemma reindex_adds c d index p :
  indexed_parent c d = Some p → ∃ ids, reindex c d index !! p = Some ids ∧ doc_id d ∈ ids.
Proof.
  intros Hp. unfold reindex. rewrite Hp. eexists. rewrite lookup_insert_eq. split; [done|]. set_solver.
Qed.

(** A save keeps the representation invariant. *)
Lemma save_wf c d w :
  doc_collection d = c → store_wf w → store_wf (save c d w).1.
Proof.
  intros Hc [K X P S C]. rewrite save_eq.
  destruct (id_pattern (doc_id d)) eqn:Eid; cbn; [|by split].
  set (w0 := set_docs (<[(c, doc_id d):=d]> (w_docs w)) w).
  assert (Hidx : w_index w0 = w_index w) by done.
  split; rewrite ?index_document_docs.
  - intros c' id' d'. unfold w0. rewrite set_docs_docs, lookup_insert_Some.
    intros [[[= <- <-] <-]|[_ H]]; eauto.
  - intros c'. rewrite <-X. unfold index_document. rewrite Hidx.
    destruct (w_index w !! c) as [i|] eqn:E; [|done].
    cbn. rewrite lookup_insert_is_Some'. naive_solver.
  - intros c' index' p ids id Hi' Hp Hid.
    apply index_document_lookup in Hi' as [(_ & Hi)|(-> & index & Hi & ->)]; [eauto|].
    apply reindex_elem with (id:=id) in Hp as [(-> & _)|(_ & ids0 & Hp & Hid0)]; eauto.
  - intros c' index' p ids id d' Hi' Hp Hid. unfold w0.
    rewrite set_docs_docs, lookup_insert_Some. intros Hd'.
    apply index_document_lookup in Hi' as [(Hne & Hi)|(-> & index & Hi & ->)].
    { destruct Hd' as [[[= <- <-] _]|[_ Hd']]; [done|eauto]. }
    apply reindex_elem with (id:=id) in Hp as [(-> & Hpar)|(Hne & ids0 & Hp & Hid0)]; [| |done].
    + destruct Hd' as [[_ <-]|[Hx _]]; [done|by destruct Hx].
    + destruct Hd' as [[[= Hx] _]|[_ Hd']]; [by destruct Hne|eauto].
  - intros c' index' p id d' Hi'. unfold w0. rewrite set_docs_docs, lookup_insert_Some.
    intros Hd' Hv Hpar.
    apply index_document_lookup in Hi' as [(Hne & Hi)|(-> & index & Hi & ->)].
    { destruct Hd' as [[[= <- <-] _]|[_ Hd']]; [done|eauto]. }
    destruct Hd' as [[[= <-] <-]|[Hx Hd']]; [by apply reindex_adds|].
    destruct (C c index p id d' Hi Hd' Hv Hpar) as (ids & Hp & Hid).
    apply (reindex_keeps _ _ _ _ _ _ Hp Hid). intros ->. by destruct Hx.
Qed.

(** A delete keeps the representation invariant. *)
Lemma delete_doc_wf c id0 w : store_wf w → store_wf (delete_doc c id0 w).1.
Proof.
  intros [K X P S C]. unfold delete_doc, mbind, eff_bind. rewrite check_path_eq.
  destruct (id_pattern id0); [|by split]. cbn -[set_docs w_docs].
  set (w0 := set_docs _ w).
  destruct (w_index w0 !! c) as [i|] eqn:E; cbn -[w0].
  2:{ split; try (by eauto).
      - intros c' id' d'. unfold w0. rewrite set_docs_docs, lookup_delete_Some. intros [_ H]; eauto.
      - intros c' index p ids id d Hi Hp Hid. unfold w0.
        rewrite set_docs_docs, lookup_delete_Some. intros [_ H]. eauto.
      - intros c' index p id d Hi. unfold w0. rewrite set_docs_docs, lookup_delete_Some.
        intros [_ H]. eauto. }
  change (w_index w !! c = Some i) in E.
  assert (Hlk : ∀ c' index', <[c := filter (λ kv, kv.2 ≠ ∅)
       ((λ ids : gset string, ids ∖ {[id0]}) <$> i)]> (w_index w) !! c' = Some index' →
     ∀ p ids, index' !! p = Some ids →
     ∃ index ids0, w_index w !! c' = Some index ∧ index !! p = Some ids0 ∧ ids ⊆ ids0 ∧
       (c' = c → id0 ∉ ids)).
  { intros c' index'. destruct (decide (c' = c)) as [->|Hne].
    - rewrite lookup_insert_eq. intros [= <-] p ids.
      rewrite map_lookup_filter_Some, lookup_fmap_Some. intros [(ids0 & <- & Hi) _].
      eexists _, _. split_and!; [done|done|set_solver|set_solver].
    - rewrite lookup_insert_ne by done. intros Hi p ids Hp. eauto 10. }
  split.
  - intros c' id' d' H. apply (K c' id' d').
    revert H. unfold w0, w_docs at 1, set_docs. cbn. rewrite lookup_delete_Some. by intros [_ H].
  - intros c'. rewrite <-X. cbn. rewrite lookup_insert_is_Some'. naive_solver.
  - cbn. intros c' index' p ids id Hi Hp Hid.
    destruct (Hlk _ _ Hi _ _ Hp) as (index & ids0 & ? & ? & ? & _). eapply P; eauto.
  - intros c' index' p ids id d' Hi Hp Hid H.
    destruct (Hlk _ _ Hi _ _ Hp) as (index & ids0 & ? & ? & ? & _). eapply S; eauto.
    revert H. unfold w0, w_docs at 1, set_docs. cbn. rewrite lookup_delete_Some. by intros [_ H].
  - intros c' index' p id d' Hi H Hv Hpar.
    revert H. unfold w0, w_docs at 1, set_docs. cbn. rewrite lookup_delete_Some. intros [Hx H].
    cbn in Hi. destruct (decide (c' = c)) as [->|Hne].
    + rewrite lookup_insert_eq in Hi. injection Hi as <-.
      destruct (C c i p id d' E H Hv Hpar) as (ids & Hp & Hid).
      exists (ids ∖ {[id0]}). split; [|set_solver].
      rewrite map_lookup_filter_Some, lookup_fmap, Hp. split; [done|]. cbn. set_solver.
    + rewrite lookup_insert_ne in Hi by done. eauto.
Qed.

Lemma indexed_parent_run r p :
  indexed_parent runs (DRun r) = Some p ↔ run_task_id r = p ∧ truthy p = true.
Proof.
  unfold indexed_parent, parent_id. rewrite decide_True by done.
  destruct (truthy (run_task_id r)) eqn:E.
  - split; [by intros [= <-]|by intros [-> _]].
  - split; [done|]. intros [<- ?]. congruence.
Qed.

(** ** Listings *)

Lemma elem_of_readable D `{!Document D} w x :
  x ∈ readable D w ↔ ∃ id, stored D w id = Some x ∧ doc_valid (wrap x) = true.
Proof.
  unfold readable, stored. rewrite list_elem_of_omap. split.
  - intros ([[c id] a] & Ha & Hx). apply elem_of_map_to_list in Ha.
    case_decide as Hc; [subst c|done]. destruct (doc_valid a) eqn:Ev; [|done].
    exists id. rewrite Ha. cbn. pose proof (unwrap_inv _ _ Hx) as ->. done.
  - intros (id & Hs & Hv). destruct (w_docs w !! _) as [a|] eqn:Ha; [|done].
    exists ((collection_of D, id), a). rewrite elem_of_map_to_list. split; [done|].
    rewrite decide_True by done. cbn in Hs. pose proof (unwrap_inv _ _ Hs) as ->.
    by rewrite Hv.
Qed.

Lemma stored_key D `{!Document D} w id x :
  store_wf w → stored D w id = Some x → doc_id (wrap x) = id ∧ id_pattern id = true.
Proof.
  intros Hwf Hs. unfold stored in Hs. destruct (w_docs w !! _) as [a|] eqn:Ha; [|done].
  cbn in Hs. pose proof (unwrap_inv _ _ Hs) as ->. by apply (wf_key w Hwf) in Ha as (_ & ? & ?).
Qed.

Lemma readable_NoDup D `{!Document D} w : store_wf w → NoDup (readable D w).
Proof.
  intros Hwf. unfold readable.
  assert (Hall : ∀ k a, (k, a) ∈ map_to_list (w_docs w) → k = (doc_collection a, doc_id a)).
  { intros [c id] a Ha%elem_of_map_to_list. by apply (wf_key w Hwf) in Ha as (<- & <- & _). }
  pose proof (NoDup_fst_map_to_list (w_docs w)) as Hnd. revert Hnd Hall.
  induction (map_to_list (w_docs w)) as [|[[c id] a] l IH]; intros Hnd Hall; [constructor|].
  cbn. apply NoDup_cons in Hnd as [Hni Hnd].
  assert (IH' := IH Hnd (λ k a H, Hall k a (list_elem_of_further _ _ _ H))).
  case_decide; [|done]. destruct (doc_valid a); [|done].
  destruct (unwrap a) as [x|] eqn:Ex; [|done]. constructor; [|done].
  rewrite list_elem_of_omap. intros ([[c' id'] a'] & Hin & Hx').
  case_decide; [|done]. destruct (doc_valid a'); [|done].
  apply unwrap_inv in Ex as ->. apply unwrap_inv in Hx' as ->. apply Hni.
  apply list_elem_of_fmap. exists ((c', id'), wrap x). split; [|done].
  assert (Ea := Hall _ _ (list_elem_of_further _ _ _ Hin)).
  assert (Eb := Hall _ _ (list_elem_of_here _ _)). cbn. congruence.
Qed.

Lemma NoDup_omap_stored D `{!Document D} w l :
  store_wf w → NoDup l → NoDup (omap id (map (stored D w) l)).
Proof.
  intros Hwf. induction 1 as [|i l Hi Hl IH]; [constructor|].
  cbn. destruct (stored D w i) as [x|] eqn:Hx; cbn; [|done]. constructor; [|done].
  rewrite list_elem_of_omap. intros (o & Ho & Eo). cbn in Eo. subst o.
  apply list_elem_of_fmap in Ho as (j & Hj & Hjl).
  apply (stored_key _ _ _ _ Hwf) in Hx as [<- _]. symmetry in Hj.
  apply (stored_key _ _ _ _ Hwf) in Hj as [<- _]. done.
Qed.

Section Listings.
Context {PF : Platform}.

Lemma get_unless_missing_eq D `{!Document D} id w :
  get_unless_missing D id w =
    (w, match (get D id w).2 with
        | inr x => inr (Some x)
        | inl e => if is_KeyError e then inr None else inl e
        end).
Proof.
  unfold get_unless_missing, catch, mbind, eff_bind. rewrite get_eq. cbn.
  destruct (if id_pattern id then _ else _) as [e|x]; [|done]. by destruct (is_KeyError e).
Qed.

Lemma list_for_parent_state D `{!Document D} p w : (list_for_parent D p w).1 = w.
Proof.
  unfold list_for_parent, mbind, eff_bind. cbn.
  assert (Hm : ∀ l w, (map_each (get_unless_missing D) l w).1 = w).
  { induction l as [|i l IH]; intros w'; cbn; [done|]. unfold mbind, eff_bind.
    rewrite get_unless_missing_eq.
    destruct (match (get D i w').2 with inl e => _ | inr x => _ end) as [e|o]; [done|].
    specialize (IH w'). by destruct (map_each _ l w') as [w'' [e|ys]]. }
  specialize (Hm (reorder (elements (default ∅ (default ∅ (w_index w !! collection_of D) !! p)))) w).
  by destruct (map_each _ _ w) as [w' [e|found]].
Qed.

(** Reading a list of ids: the documents that are there, or the error of one
    that is not valid. *)
Lemma map_get_unless_missing D `{!Document D} w l :
  (∀ id a, w_docs w !! (collection_of D, id) = Some a → is_Some (unwrap a)) →
  (∀ id, id ∈ l → id_pattern id = true) →
  (map_each (get_unless_missing D) l w = (w, inr (map (stored D w) l)) ∧
     ∀ id x, id ∈ l → stored D w id = Some x → doc_valid (wrap x) = true) ∨
  (map_each (get_unless_missing D) l w = (w, inl (ValidationError (model_name D))) ∧
     ∃ id x, id ∈ l ∧ stored D w id = Some x ∧ doc_valid (wrap x) = false).
Proof.
  intros Hu. induction l as [|i l IH]; intros Hl; [left; split; [done|set_solver]|].
  cbn. unfold mbind, eff_bind. rewrite get_unless_missing_eq.
  assert (E : (get D i w).2 = match stored D w i with
     | Some x => if doc_valid (wrap x) then inr x else inl (ValidationError (model_name D))
     | None => inl (KeyError (String.append (model_name D) " not found")) end).
  { rewrite get_eq. rewrite (Hl i) by set_solver. unfold stored.
    destruct (w_docs w !! _) as [a|] eqn:Ha; [|done]. cbn.
    destruct (Hu i a Ha) as [x Hx]. rewrite Hx. by pose proof (unwrap_inv _ _ Hx) as ->. }
  rewrite E. destruct (stored D w i) as [x|] eqn:Es; [destruct (doc_valid (wrap x)) eqn:Ev|]; cbn.
  - destruct IH as [[-> Hv]|[-> (id & y & Hin & Hy)]]; [set_solver|left|right].
    + split; [done|]. intros id y [->|Hin]%elem_of_cons Hy; [by simplify_eq|by eapply Hv].
    + split; [done|]. exists id, y. set_solver.
  - right. split; [done|]. exists i, x. set_solver.
  - destruct IH as [[-> Hv]|[-> (id & y & Hin & Hy)]]; [set_solver|left|right].
    + split; [done|]. intros id y [->|Hin]%elem_of_cons Hy; [congruence|by eapply Hv].
    + split; [done|]. exists id, y. set_solver.
Qed.

(** Every document a listing by parent returns is stored and valid. *)
Lemma list_for_parent_elem D `{!Document D} p w w' l x :
  list_for_parent D p w = (w', inr l) → x ∈ l →
  ∃ id, stored D w id = Some x ∧ doc_valid (wrap x) = true.
Proof.
  unfold list_for_parent. intros H. apply bind_inr in H as (w1 & ids & [= <- <-] & H).
  apply bind_inr in H as (w2 & found & Hm & [= <- <-]).
  rewrite elem_of_sorted_desc, list_elem_of_omap. intros (o & Ho & Eo). cbn in Eo. subst o.
  revert found Hm Ho. induction (reorder _) as [|i js IH]; intros found Hm Ho; cbn in Hm.
  { injection Hm as _ <-. by apply not_elem_of_nil in Ho. }
  apply bind_inr in Hm as (w3 & o & Hg & Hm). apply bind_inr in Hm as (w4 & os & Hm & [= -> <-]).
  rewrite get_unless_missing_eq in Hg. injection Hg as <- Hg.
  apply elem_of_cons in Ho as [<-|Ho]; [|by eapply IH].
  destruct (get D i w) as [w5 [e|y]] eqn:Eg; cbn in Hg.
  - by destruct (is_KeyError e).
  - injection Hg as ->. apply get_inr in Eg as (_ & _ & ? & ?). eauto.
Qed.

(** A listing by parent names no document twice. *)
Lemma list_for_parent_NoDup D `{!Document D} p w w' l :
  store_wf w → list_for_parent D p w = (w', inr l) → NoDup (map (λ x, doc_id (wrap x)) l).
Proof.
  intros Hwf. unfold list_for_parent. intros H. apply bind_inr in H as (w1 & ids & [= <- <-] & H).
  apply bind_inr in H as (w2 & found & Hm & [= <- <-]). rewrite sorted_desc_perm.
  assert (Hnd : NoDup (reorder (elements (default ∅ (default ∅ (w_index w !! collection_of D) !! p)))))
    by (rewrite reorder_perm; apply NoDup_elements).
  revert found Hm Hnd. induction (reorder _) as [|i js IH]; intros found Hm Hnd; cbn in Hm.
  { injection Hm as _ <-. constructor. }
  apply bind_inr in Hm as (w3 & o & Hg & Hm). apply bind_inr in Hm as (w4 & os & Hm & [= -> <-]).
  rewrite get_unless_missing_eq in Hg. injection Hg as <- Hg.
  apply list.NoDup_cons in Hnd as [Hni Hnd]. specialize (IH _ Hm Hnd).
  destruct o as [x|]; [|done]. cbn. apply list.NoDup_cons. split; [|done].
  destruct (get D i w) as [w5 [e|y]] eqn:Eg; cbn in Hg; [by destruct (is_KeyError e)|]. injection Hg as ->.
  apply get_inr in Eg as (_ & _ & Hx & _). destruct (stored_key _ _ _ _ Hwf Hx) as [-> _].
  intros Hin. apply list_elem_of_fmap in Hin as (y & Ey & Hy). apply list_elem_of_omap in Hy as (o & Ho & Eo).
  cbn in Eo. subst o. destruct (map_each_elem _ _ _ _ _ _ Hm Ho) as (l1 & j & l2 & wa & wb & zs & -> & H1 & Hj).
  rewrite get_unless_missing_eq in Hj. injection Hj as _ Hj.
  assert (wa = w) as ->.
  { clear -H1. revert zs H1. induction l1 as [|z l1 IH]; intros zs H1; cbn in H1; [by injection H1 as ->|].
    apply bind_inr in H1 as (? & ? & Hz & H1). apply bind_inr in H1 as (? & ? & H1 & [= -> _]).
    rewrite get_unless_missing_eq in Hz. injection Hz as <- _. eauto. }
  destruct (get D j w) as [w6 [e|z]] eqn:Eg'; cbn in Hj; [by destruct (is_KeyError e)|]. injection Hj as ->.
  apply get_inr in Eg' as (_ & _ & Hz & _). destruct (stored_key _ _ _ _ Hwf Hz) as [E _].
  apply Hni. rewrite elem_of_app. right. rewrite Ey, E. left.
Qed.

(** What the index of a collection lists for a parent. *)
Lemma listed_by_parent D `{!Document D} p w index (ids : gset string) :
  store_wf w → w_index w !! collection_of D = Some index → ids = default ∅ (index !! p) →
  (∀ id, id ∈ ids → id_pattern id = true) ∧
  (∀ id x, id ∈ ids → stored D w id = Some x → indexed_parent (collection_of D) (wrap x) = Some p) ∧
  (∀ id x, stored D w id = Some x → doc_valid (wrap x) = true →
     indexed_parent (collection_of D) (wrap x) = Some p → id ∈ ids).
Proof.
  intros Hwf Hi ->.
  assert (Hids : ∀ id, id ∈ default ∅ (index !! p) → ∃ ids', index !! p = Some ids' ∧ id ∈ ids').
  { intros id. destruct (index !! p); cbn; [eauto|set_solver]. }
  assert (Hs : ∀ id x, stored D w id = Some x → w_docs w !! (collection_of D, id) = Some (wrap x)).
  { intros id x Hs. unfold stored in Hs. destruct (w_docs w !! _) as [a|] eqn:Ha; [|done].
    cbn in Hs. by pose proof (unwrap_inv _ _ Hs) as ->. }
  split_and!.
  - intros id (ids' & ? & ?)%Hids. eapply (wf_index_id w Hwf); eauto.
  - intros id x (ids' & ? & ?)%Hids Hx%Hs. eapply (wf_sound w Hwf); eauto.
  - intros id x Hx%Hs Hv Hp. destruct (wf_complete w Hwf _ _ _ _ _ Hi Hx Hv Hp) as (ids' & -> & Hid). done.
Qed.

(** A listing by parent is the collection filtered by parent, or fails on a
    document of that parent that is not valid. *)
Lemma list_for_parent_cases D `{!Document D} p w :
  store_wf w → collection_of D ∈ indexed →
  (∃ l, list_for_parent D p w = (w, inr l) ∧
     l ≡ₚ base.filter (λ x, indexed_parent (collection_of D) (wrap x) = Some p) (readable D w) ∧
     StronglySorted (λ a b, (doc_stamp (wrap b) ≤ doc_stamp (wrap a))%Z) l) ∨
  (list_for_parent D p w = (w, inl (ValidationError (model_name D))) ∧
     ∃ id x, stored D w id = Some x ∧ indexed_parent (collection_of D) (wrap x) = Some p ∧
       doc_valid (wrap x) = false).
Proof.
  intros Hwf Hc. apply (wf_indexed w Hwf) in Hc as [index Hi].
  destruct (listed_by_parent D p w index _ Hwf Hi eq_refl) as (Hpat & Hsound & Hcompl).
  set (ids := default ∅ (index !! p)) in *.
  assert (Hin : ∀ id, id ∈ reorder (elements ids) ↔ id ∈ ids)
    by (intros id; by rewrite reorder_perm, elem_of_elements).
  unfold list_for_parent, mbind, eff_bind. cbn. rewrite Hi. cbn. fold ids.
  destruct (map_get_unless_missing D w (reorder (elements ids))) as [[-> Hv]|[-> (id & x & Hid & Hx & Hbad)]].
  { intros id a Ha. apply unwrap_total. by apply (wf_key w Hwf) in Ha as (? & _). }
  { intros id Hid%Hin. by apply Hpat. }
  - left. eexists. split_and!; [done| |apply sorted_desc_sorted].
    rewrite sorted_desc_perm. apply NoDup_Permutation.
    + apply NoDup_omap_stored; [done|]. rewrite reorder_perm. apply NoDup_elements.
    + apply NoDup_filter, readable_NoDup, Hwf.
    + intros x. rewrite list_elem_of_filter, elem_of_readable, list_elem_of_omap. split.
      * intros (o & Ho & Eo). cbn in Eo. subst o. apply list_elem_of_fmap in Ho as (id & Hs & Hid).
        split; [by apply (Hsound id x); [apply Hin|]|]. eauto.
      * intros (Hpar & id & Hs & Hvx). exists (Some x). split; [|done].
        apply list_elem_of_fmap. exists id. split; [done|]. rewrite Hin. eauto.
  - right. split; [done|]. exists id, x. split_and!; [done| |done]. by apply (Hsound id x); [apply Hin|].
Qed.

Lemma list_for_parent_eq D `{!Document D} p w :
  store_wf w → collection_of D ∈ indexed →
  (∀ id x, stored D w id = Some x → doc_valid (wrap x) = true) →
  ∃ l, list_for_parent D p w = (w, inr l) ∧
    l ≡ₚ base.filter (λ x, indexed_parent (collection_of D) (wrap x) = Some p) (readable D w) ∧
    StronglySorted (λ a b, (doc_stamp (wrap b) ≤ doc_stamp (wrap a))%Z) l.
Proof.
  intros Hwf Hc Hv. destruct (list_for_parent_cases D p w Hwf Hc) as [H|(_ & id & x & Hx & _ & Hbad)]; [done|].
  by rewrite (Hv id x Hx) in Hbad.
Qed.

(** C9: [_list_for_parent] is the collection filtered by parent.  The parent
    index is an optimisation: on a well-formed store a listing by parent either
    returns exactly the readable documents of the collection whose parent is
    the given one, most recently updated first; or it raises a validation error,
    and then a stored document of that parent is not valid (the full listing
    [_list] skips such a document).  The store is not touched either way, and
    when every stored document of that parent is valid the listing returns. *)
Theorem list_for_parent_refines D `{!Document D} p w :
  store_wf w → collection_of D ∈ indexed →
  (∃ l, list_for_parent D p w = (w, inr l) ∧
     l ≡ₚ base.filter (λ x, indexed_parent (collection_of D) (wrap x) = Some p) (readable D w) ∧
     StronglySorted (λ a b, (doc_stamp (wrap b) ≤ doc_stamp (wrap a))%Z) l) ∨
  (list_for_parent D p w = (w, inl (ValidationError (model_name D))) ∧
     ∃ id x, stored D w id = Some x ∧ indexed_parent (collection_of D) (wrap x) = Some p ∧
       doc_valid (wrap x) = false).
Proof. apply list_for_parent_cases. Qed.
End Listings.

(** ** Frames: what the store methods may do to the state

    A [Frame] is a preorder on states that every access to the store respects:
    reads, and writes to the collections it allows.  The lemmas below lift it to
    every store method, so a property of states that is a frame (the
    representation invariant, "these collections are untouched", a monotone
    quantity) holds across any operation built from the methods, by walking
    through its body. *)

Class Frame (R : relation World) := {
  may_write : Collection → Prop;
  frame_preorder :: PreOrder R;
  frame_env : ∀ w w', env_step w w' → R w w';
  frame_save : ∀ c d, may_write c → doc_collection d = c → within R (save c d);
  frame_delete : ∀ c id, may_write c → within R (delete_doc c id);
  frame_local_id : ∀ w v, R w (w <| w_local_computer_id := v |>);
  frame_local_name : ∀ w v, R w (w <| w_local_computer_name := v |>);
}.
Arguments may_write R {_} _.

Create HintDb frame.
#[export] Hint Extern 2 (doc_collection _ = _) => reflexivity : frame.

(** Walks through a sequence of effects, closing the accesses with the lemmas
    of [frame]. *)
Ltac walk_frame :=
  repeat first
    [ progress intros
    | solve [eauto 4 with frame]
    | apply within_ret; apply _
    | apply within_raise; apply _
    | apply within_gets; apply _
    | apply within_raise_if; apply _
    | apply within_bind; [apply _| |]
    | apply within_for_each; [apply _|]
    | apply within_map_each; [apply _|]
    | match goal with
      | |- within _ (match ?x with _ => _ end) => destruct x
      | |- within _ (if ?b then _ else _) => destruct b
      | |- within _ (let '(_, _) := ?x in _) => destruct x
      end ].

Section FrameMethods.
Context {PF : Platform} {R : relation World} `{!Frame R}.

Lemma env_within {A} (m : op A) : (∀ w, env_step w (m w).1) → within R m.
Proof. intros Hm w. apply frame_env, Hm. Qed.
Lemma utc_now_frame : within R utc_now.
Proof. apply env_within, utc_now_env. Qed.
Lemma uuid4_hex_frame : within R uuid4_hex.
Proof. apply env_within, uuid4_hex_env. Qed.
Lemma token_urlsafe_frame : within R token_urlsafe.
Proof. apply env_within, token_urlsafe_env. Qed.
Lemma transition_run_frame run target error : within R (transition_run run target error).
Proof. apply env_within, transition_run_env. Qed.
Lemma get_frame D `{!Document D} id : within R (get D id).
Proof. intros w. rewrite get_env. reflexivity. Qed.
Lemma get_unless_missing_frame D `{!Document D} id : within R (get_unless_missing D id).
Proof. intros w. rewrite get_unless_missing_eq. cbn. reflexivity. Qed.
Lemma list_docs_frame D `{!Document D} : within R (list_docs D).
Proof. apply within_gets, _. Qed.
Lemma list_for_parent_frame D `{!Document D} p : within R (list_for_parent D p).
Proof. intros w. rewrite list_for_parent_state. reflexivity. Qed.
Lemma save_frame c d : may_write R c → doc_collection d = c → within R (save c d).
Proof. apply frame_save. Qed.
Lemma delete_doc_frame c id : may_write R c → within R (delete_doc c id).
Proof. apply frame_delete. Qed.
End FrameMethods.

#[export] Hint Resolve utc_now_frame uuid4_hex_frame token_urlsafe_frame transition_run_frame
  get_frame get_unless_missing_frame list_docs_frame list_for_parent_frame save_frame
  delete_doc_frame : frame.

Section FrameTyped.
Context {PF : Platform} {R : relation World} `{!Frame R}.

Lemma save_computer_frame x : may_write R computers → within R (save_computer x).
Proof. unfold save_computer. walk_frame. Qed.
Lemma save_task_frame x : may_write R tasks → within R (save_task x).
Proof. unfold save_task. walk_frame. Qed.
Lemma save_run_frame x : may_write R runs → within R (save_run x).
Proof. unfold save_run. walk_frame. Qed.
Lemma save_workspace_frame x : may_write R workspaces → within R (save_workspace x).
Proof. unfold save_workspace. walk_frame. Qed.
Lemma save_grant_frame x : may_write R grants → within R (save_grant x).
Proof. unfold save_grant. walk_frame. Qed.
Lemma save_command_frame x : may_write R commands → within R (save_command x).
Proof. unfold save_command. walk_frame. Qed.
Lemma save_runtime_credential_frame x : may_write R runtime_credentials → within R (save_runtime_credential x).
Proof. unfold save_runtime_credential. walk_frame. Qed.
Lemma save_registration_credential_frame x : may_write R registration_credentials → within R (save_registration_credential x).
Proof. unfold save_registration_credential. walk_frame. Qed.
Lemma save_run_credential_frame x : may_write R run_credentials → within R (save_run_credential x).
Proof. unfold save_run_credential. walk_frame. Qed.
Lemma save_audit_event_frame x : may_write R audit → within R (save_audit_event x).
Proof. unfold save_audit_event. walk_frame. Qed.
Lemma consume_registration_credential_frame h now : may_write R registration_credentials → within R (consume_registration_credential h now).
Proof. unfold consume_registration_credential. walk_frame. Qed.
Lemma list_workspaces_frame r : within R (list_workspaces r).
Proof. unfold list_workspaces. walk_frame. Qed.
Lemma list_grants_frame r : within R (list_grants r).
Proof. unfold list_grants. walk_frame. Qed.
Lemma list_commands_frame r : within R (list_commands r).
Proof. unfold list_commands. walk_frame. Qed.
Lemma list_audit_events_frame r : within R (list_audit_events r).
Proof. unfold list_audit_events. walk_frame. Qed.
Lemma update_run_frame id f :
  may_write R runs → (∀ r, within R (f r)) → within R (update_run id f).
Proof. intros Hc Hf. unfold update_run, get_run. pose proof save_run_frame. walk_frame; auto. Qed.
Lemma update_grant_frame {A} id (f : ConnectorGrant → TaskRun → op (ConnectorGrant * A)) :
  may_write R grants → (∀ g r, within R (f g r)) → within R (update_grant id f).
Proof.
  intros Hc Hf. unfold update_grant, get_run, get_grant. pose proof save_grant_frame.
  walk_frame; auto.
Qed.
Lemma claim_run_frame c l e : may_write R runs → within R (claim_run c l e).
Proof. intros Hc. unfold claim_run, list_runs. pose proof save_run_frame. walk_frame; auto. Qed.
Lemma store_delete_task_frame t : (∀ c, may_write R c) → within R (store_delete_task t).
Proof. intros Hc. unfold store_delete_task, delete_owned. walk_frame. Qed.
Lemma prune_frame a b : (∀ c, may_write R c) → within R (prune a b).
Proof. intros Hc. unfold prune, prune_docs. walk_frame. Qed.
Lemma get_run_frame id : within R (get_run id).
Proof. apply get_frame. Qed.
Lemma get_task_frame id : within R (get_task id).
Proof. apply get_frame. Qed.
Lemma get_computer_frame id : within R (get_computer id).
Proof. apply get_frame. Qed.
Lemma get_grant_frame id : within R (get_grant id).
Proof. apply get_frame. Qed.
Lemma get_command_frame id : within R (get_command id).
Proof. apply get_frame. Qed.
Lemma get_runtime_credential_frame id : within R (get_runtime_credential id).
Proof. apply get_frame. Qed.
Lemma get_run_credential_frame id : within R (get_run_credential id).
Proof. apply get_frame. Qed.
Lemma list_runs_frame : within R list_runs.
Proof. apply list_docs_frame. Qed.
Lemma list_tasks_frame : within R list_tasks.
Proof. apply list_docs_frame. Qed.
Lemma list_computers_frame : within R list_computers.
Proof. apply list_docs_frame. Qed.
End FrameTyped.

#[export] Hint Resolve save_computer_frame save_task_frame save_run_frame save_workspace_frame save_grant_frame save_command_frame save_runtime_credential_frame save_registration_credential_frame save_run_credential_frame save_audit_event_frame consume_registration_credential_frame
  list_workspaces_frame list_grants_frame
  list_commands_frame list_audit_events_frame update_run_frame update_grant_frame
  claim_run_frame store_delete_task_frame prune_frame get_run_frame get_task_frame
  get_computer_frame get_grant_frame get_command_frame get_runtime_credential_frame
  get_run_credential_frame list_runs_frame list_tasks_frame list_computers_frame : frame.

(** *** The representation invariant is a frame *)

Definition keeps_wf : relation World := λ w w', store_wf w → store_wf w'.

#[export] Instance keeps_wf_frame : Frame keeps_wf.
Proof.
  refine {| may_write _ := True |}.
  - split; unfold keeps_wf; [by intros w|]. intros w1 w2 w3 H1 H2 H. by apply H2, H1.
  - exact store_wf_env.
  - intros c d _ Hc w Hw. by apply save_wf.
  - intros c id _ w Hw. by apply delete_doc_wf.
  - intros w v []. by split.
  - intros w v []. by split.
Defined.
#[export] Hint Extern 1 (may_write keeps_wf _) => exact I : frame.

Lemma wf_after {A} (m : op A) w : within keeps_wf m → store_wf w → store_wf (m w).1.
Proof. intros Hm Hw. by apply Hm. Qed.

(** *** Writing to some collections only *)

Definition touches (cs : list Collection) : relation World := λ w w',
  rest_step w w' ∧ ∀ c id, c ∉ cs → w_docs w' !! (c, id) = w_docs w !! (c, id).

#[export] Instance touches_frame cs : Frame (touches cs).
Proof.
  refine {| may_write c := c ∈ cs |}.
  - split; [by intros w|]. intros w1 w2 w3 [R1 H1] [R2 H2]. split; [by etrans|].
    intros c id Hc. by rewrite H2, H1.
  - intros w w' He. split; [by apply env_rest|]. intros c id _. by rewrite (env_step_docs _ _ He).
  - intros c d Hc _ w. rewrite save_eq. destruct (id_pattern (doc_id d)); cbn; [|by split].
    split; [etrans; [|apply index_document_rest]; by split|]. intros c' id Hc'.
    rewrite index_document_docs, set_docs_docs, lookup_insert_ne; [done|]. intros [= -> _]. done.
  - intros c id0 Hc w. unfold delete_doc, mbind, eff_bind. rewrite check_path_eq.
    destruct (id_pattern id0); cbn -[set_docs]; [|by split].
    split; [destruct (w_index _ !! c); by split|]. intros c' id Hc'.
    assert (Hne : (c, id0) ≠ (c', id)) by (intros [= -> _]; done).
    destruct (w_index _ !! c); unfold w_docs, set_docs; cbn; by rewrite lookup_delete_ne.
  - intros w v. split; [by split|done].
  - intros w v. split; [by split|done].
Defined.
Ltac by_touches :=
  lazymatch goal with |- may_write (touches ?cs) ?c => change (c ∈ cs); by_decide end.
#[export] Hint Extern 1 (may_write (touches _) _) => by_touches : frame.

Lemma touches_stored D `{!Document D} cs w w' id :
  touches cs w w' → collection_of D ∉ cs → stored D w' id = stored D w id.
Proof. intros [_ H] Hc. unfold stored. by rewrite H. Qed.

Lemma touches_weaken cs cs' w w' : cs ⊆ cs' → touches cs w w' → touches cs' w w'.
Proof. intros Hs [Hr H]. split; [done|]. intros c id Hc. apply H. set_solver. Qed.

(** ** Claims and single-use credentials *)

Definition all_valid (w : World) : Prop := ∀ k d, w_docs w !! k = Some d → doc_valid d = true.

Definition all_validb (w : World) : bool :=
  forallb (λ kv, doc_valid kv.2) (map_to_list (w_docs w)).

Lemma all_validb_true w : all_validb w = true → all_valid w.
Proof.
  intros H k d Hd. unfold all_validb in H. rewrite forallb_forall in H.
  apply (H (k, d)), list_elem_of_In. by apply elem_of_map_to_list.
Qed.

Lemma all_valid_stored D `{!Document D} w id x :
  all_valid w → stored D w id = Some x → doc_valid (wrap x) = true.
Proof.
  intros Hv Hs. unfold stored in Hs. destruct (w_docs w !! _) as [a|] eqn:Ha; [|done].
  cbn in Hs. apply unwrap_inv in Hs as ->. eauto.
Qed.

Lemma save_run_inr x w w' y :
  save_run x w = (w', inr y) →
  y = x <| run_updated_at := w_clock w (w_reads w) |> ∧ id_pattern (run_id x) = true ∧
  w_docs w' = <[(runs, run_id x) := DRun y]> (w_docs w) ∧ rest_step w w'.
Proof.
  unfold save_run. intros H. apply bind_inr in H as (w1 & now & Hn & H).
  apply bind_inr in H as (w2 & [] & Hs & [= <- <-]). apply utc_now_inv in Hn as (He & [= ->] & _).
  apply save_inr in Hs as (Hid & Hd & Hr). split_and!; [done|done| |].
  - rewrite Hd. by rewrite (env_step_docs _ _ He).
  - etrans; [apply env_rest, He|done].
Qed.

Lemma save_run_stored x w w' y :
  save_run x w = (w', inr y) →
  stored TaskRun w' (run_id x) = Some y ∧
  (∀ id, id ≠ run_id x → stored TaskRun w' id = stored TaskRun w id).
Proof.
  intros (-> & _ & Hd & _)%save_run_inr. split.
  - exact (stored_insert_eq TaskRun w w' (x <| run_updated_at := w_clock w (w_reads w) |>) Hd).
  - intros id Hne. eapply (stored_insert_ne TaskRun); [exact Hd|]. intros E. injection E. congruence.
Qed.

(** [update_run], inverted: the operation ran on the stored run, and its result
    was saved unless it is the run itself. *)
Lemma update_run_inr id f w w' r :
  update_run id f w = (w', inr r) →
  ∃ before w1 after, stored TaskRun w id = Some before ∧ valid_run before = true ∧
    f before w = (w1, inr after) ∧
    ((after = before ∧ r = before ∧ w' = w1) ∨ (after ≠ before ∧ save_run after w1 = (w', inr r))).
Proof.
  unfold update_run. intros H. apply bind_inr in H as (w0 & before & Hg & H).
  apply get_inr in Hg as (-> & _ & Hs & Hv). apply bind_inr in H as (w1 & after & Hf & H).
  exists before, w1, after. split_and!; [done..|].
  destruct (decide (after = before)) as [->|Hne]; [left|by right]. by injection H as <- <-.
Qed.

Section StoreTheorems.
Context {PF : Platform}.

(** a runtime registration token works once.  If consuming it succeeds,
    it was stored, unexpired and unconsumed, and from then on, as long as the
    credential's file is not rewritten, every later attempt is refused and
    changes nothing. *)
Theorem registration_single_use token_hash now w w1 :
  consume_registration_credential token_hash now w = (w1, inr true) →
  store_wf w →
  (∃ cred, stored RuntimeRegistrationCredential w token_hash = Some cred ∧
     reg_consumed_at cred = None ∧ (now < reg_expires_at cred)%Z) ∧
  ∀ w2 now2,
    stored RuntimeRegistrationCredential w2 token_hash =
      stored RuntimeRegistrationCredential w1 token_hash →
    (consume_registration_credential token_hash now2 w2).2 ≠ inr true ∧
    (consume_registration_credential token_hash now2 w2).1 = w2.
Proof.
  unfold consume_registration_credential at 1. intros H Hwf.
  apply bind_inr in H as (w0 & found & Hf & H).
  rewrite get_unless_missing_eq in Hf. injection Hf as <- Hf.
  destruct (get RuntimeRegistrationCredential token_hash w) as [w0' [e|cred]] eqn:Eg; cbn in Hf.
  { destruct (is_KeyError e); [|done]. injection Hf as <-. done. }
  injection Hf as <-. apply get_inr in Eg as (-> & Hid & Hs & Hv).
  destruct (_ || _) eqn:Eb; [done|]. apply orb_false_iff in Eb as [Hc He].
  apply bool_decide_eq_false in Hc. apply Z.leb_gt in He.
  split. { exists cred. split_and!; [done| |lia]. destruct (reg_consumed_at cred); [|done]. by destruct Hc. }
  apply bind_inr in H as (w3 & [] & Hsv & [= <-]). apply save_inr in Hsv as (_ & Hd & _).
  destruct (stored_key _ _ _ _ Hwf Hs) as [Hk _]. cbn in Hk.
  assert (Hs1 : stored RuntimeRegistrationCredential w3 token_hash =
            Some (cred <| reg_consumed_at := Some now |>)).
  { rewrite <-Hk. exact (stored_insert_eq RuntimeRegistrationCredential w w3
      (cred <| reg_consumed_at := Some now |>) Hd). }
  intros w2 now2 Hs2. rewrite Hs1 in Hs2. unfold consume_registration_credential, mbind, eff_bind.
  rewrite get_unless_missing_eq.
  assert (E2 : get RuntimeRegistrationCredential token_hash w2 =
                 (w2, inr (cred <| reg_consumed_at := Some now |>))).
  { apply get_inr. split_and!; try done. }
  by rewrite E2.
Qed.

(** [claim_run] hands a computer the oldest run waiting for it.  It answers
    [None] exactly when no readable run of that computer is queued or
    recovering; otherwise the run it returns belonged to the computer, was
    waiting, is no younger than any other candidate, is now [preparing] under
    the given lease, is stored so, and no other run changed. *)
Theorem claim_run_oldest computer_id lease_id expires w w' o :
  store_wf w →
  claim_run computer_id lease_id expires w = (w', inr o) →
  match o with
  | None => w' = w ∧ ∀ id r, stored TaskRun w id = Some r → valid_run r = true →
      run_computer_id r = computer_id → run_status r ∉ [queued; recovering]
  | Some run =>
      (∃ old, stored TaskRun w (run_id run) = Some old ∧ run_computer_id old = computer_id ∧
         run_status old ∈ [queued; recovering] ∧ run_created_at run = run_created_at old ∧
         run_epoch run = run_epoch old) ∧
      (∀ id r, stored TaskRun w id = Some r → valid_run r = true →
         run_computer_id r = computer_id → run_status r ∈ [queued; recovering] →
         (run_created_at run ≤ run_created_at r)%Z) ∧
      run_status run = preparing ∧ run_lease_id run = Some lease_id ∧
      run_lease_expires_at run = Some expires ∧
      stored TaskRun w' (run_id run) = Some run ∧
      (∀ id, id ≠ run_id run → stored TaskRun w' id = stored TaskRun w id)
  end.
Proof.
  intros Hwf. unfold claim_run. intros H. apply bind_inr in H as (w0 & l & Hl & H).
  injection Hl as <- <-.
  set (l := sorted_desc _ _) in H.
  assert (Hin : ∀ r, r ∈ base.filter (λ run, claimable computer_id run = true) l ↔
     run_computer_id r = computer_id ∧ run_status r ∈ [queued; recovering] ∧
     ∃ id, stored TaskRun w id = Some r ∧ valid_run r = true).
  { intros r. unfold l. rewrite list_elem_of_filter, elem_of_sorted_desc, reorder_perm, elem_of_readable.
    unfold claimable. rewrite andb_true_iff, String.eqb_eq, bool_decide_eq_true. naive_solver. }
  destruct (base.filter _ l) as [|first rest] eqn:Ef.
  - injection H as <- <-. split; [done|]. intros id r Hs Hv Hc Hq.
    assert (r ∈ []) by (apply Hin; eauto). set_solver.
  - set (r0 := min_by run_created_at first rest) in *.
    assert (Hr0 : r0 ∈ first :: rest) by apply min_by_elem.
    apply Hin in Hr0 as (Hc & Hq & id0 & Hs0 & Hv0).
    apply bind_inr in H as (w1 & r1 & Ht & H). apply bind_inr in H as (w2 & r2 & Hsv & H).
    injection H as <- <-.
    assert (Hrec : run_status r2 = preparing ∧ run_lease_id r2 = Some lease_id ∧
      run_lease_expires_at r2 = Some expires ∧ run_id r2 = run_id r0 ∧
      run_created_at r2 = run_created_at r0 ∧ run_epoch r2 = run_epoch r0 ∧ env_step w w1).
    { pose proof (transition_run_env (r0 <| run_lease_id := Some lease_id |>
        <| run_lease_expires_at := Some expires |>) preparing None w) as He.
      rewrite Ht in He. apply save_run_inr in Hsv as (-> & _ & _ & _).
      destruct (transition_run_cases (r0 <| run_lease_id := Some lease_id |>
        <| run_lease_expires_at := Some expires |>) preparing None w) as [(E & _)|[(_ & _ & E)|(_ & _ & E)]].
      - cbn in E. rewrite <-E in Hq. set_solver.
      - rewrite E in Ht. injection Ht as <- <-. done.
      - rewrite E in Ht. done. }
    destruct Hrec as (? & ? & ? & Hid & Hcr & Hep & He).
    destruct (save_run_stored _ _ _ _ Hsv) as [Hst Hfr].
    assert (Hid1 : run_id r1 = run_id r2) by (apply save_run_inr in Hsv as (-> & _); done).
    destruct (stored_key _ _ _ _ Hwf Hs0) as [Hk _]. cbn in Hk. subst id0.
    split_and!; try done.
    + exists r0. rewrite Hid. done.
    + intros id r Hs Hv Hcr' Hqr. rewrite Hcr. apply min_by_least. apply Hin. eauto.
    + by rewrite <-Hid1.
    + intros id Hne. rewrite Hfr by congruence. by apply env_step_stored.
Qed.
End StoreTheorems.

(** ** Concrete stores *)

Lemma demo_world_wf start : store_wf (demo_world start).
Proof.
  assert (Hi : ∀ c index, w_index (demo_world start) !! c = Some index → index = ∅).
  { intros c index H. apply elem_of_list_to_map_2, list_elem_of_In, in_map_iff in H
      as (? & [= <- <-] & _). done. }
  split.
  - intros c id d H. exfalso. exact (lookup_empty_Some _ _ H).
  - intros c. rewrite <-(bool_decide_eq_true (c ∈ indexed)).
    destruct c; (split; [intros [x Hx]|intros Hb]);
      first [reflexivity|eexists; reflexivity|discriminate|vm_compute in Hx; discriminate].
  - intros c index p ids id Hc Hp. apply Hi in Hc as ->. by rewrite lookup_empty in Hp.
  - intros c index p ids id d Hc Hp. apply Hi in Hc as ->. by rewrite lookup_empty in Hp.
  - intros c index p id d _ H. exfalso. exact (lookup_empty_Some _ _ H).
Qed.

Definition demo_hash : string := "aaaaaaaaaaaaaaaaaaaaaaaaaaaaaaaaaaaaaaaaaaaaaaaaaaaaaaaaaaaaaaaa".

Definition demo_registration : RuntimeRegistrationCredential := {|
  reg_id := demo_hash; reg_token_hash := demo_hash; reg_expires_at := 600;
  reg_consumed_at := None; reg_created_at := 0 |}.

Definition demo_registered : World :=
  (save_registration_credential demo_registration (demo_world 0)).1.

Lemma registration_single_use_witness :
  (consume_registration_credential demo_hash 5
     (consume_registration_credential demo_hash 1 demo_registered).1).2 ≠ inr true.
Proof.
  assert (E : (consume_registration_credential demo_hash 1 demo_registered).2 = inr true)
    by (vm_compute; reflexivity).
  assert (Hwf : store_wf demo_registered)
    by (apply wf_after; [walk_frame|apply demo_world_wf]).
  apply (registration_single_use demo_hash 1 demo_registered _
           (pair_eq_snd _ _ E) Hwf). reflexivity.
Defined.

Definition demo_run (id task computer : string) (created : Z) : TaskRun :=
  new_TaskRun id task computer created created.

Definition demo_queue : World :=
  (save_run (demo_run "r2" "t" "c1" 20) (save_run (demo_run "r1" "t" "c1" 10) (demo_world 0)).1).1.

Lemma demo_queue_wf : store_wf demo_queue.
Proof. apply wf_after; [walk_frame|]. apply wf_after; [walk_frame|apply demo_world_wf]. Qed.

Lemma claim_run_oldest_witness :
  (let run := (claim_run (PF := plain_platform) "c1" "lease" 99 demo_queue).2 in
   match run with inr (Some r) => run_id r = "r1" ∧ run_status r = preparing | _ => False end).
Proof.
  assert (E : ∃ r, (claim_run (PF := plain_platform) "c1" "lease" 99 demo_queue).2 = inr (Some r) ∧ run_id r = "r1")
    by (vm_compute; eauto).
  destruct E as (r & E & Hr). rewrite E. split; [exact Hr|].
  destruct (claim_run_oldest (PF := plain_platform) "c1" "lease" 99 demo_queue _ (Some r)
    demo_queue_wf (pair_eq_snd _ _ E)) as (_ & _ & Hp & _). exact Hp.
Defined.

Lemma list_for_parent_refines_witness :
  ∃ l, list_for_parent (PF := plain_platform) TaskRun "t" demo_queue = (demo_queue, inr l) ∧
    Permutation (map run_id l) ["r1"; "r2"].
Proof.
  destruct (list_for_parent_refines (PF := plain_platform) TaskRun "t" demo_queue
    demo_queue_wf) as [(l & Hl & Hp & _)|(_ & id & x & Hx & _ & Hbad)].
  - vm_compute. set_solver.
  - exists l. split; [exact Hl|]. rewrite Hp.
    match goal with |- Permutation ?a ?b => let v := eval vm_compute in a in change (Permutation v b) end.
    apply perm_swap || apply Permutation_refl.
  - assert (Hv : doc_valid (wrap x) = true).
    { revert Hx. apply all_valid_stored, all_validb_true. vm_compute. reflexivity. }
    rewrite Hv in Hbad. discriminate Hbad.
Defined.
