(* ===== verification/StoreDeletion.v ===== *)
(** * Deleting a task, and pruning protocol history.

    [delete_task] and [prune] of [src/cowork/coding/control_store.py] remove
    documents through the parent index.  On a well-formed store with valid
    documents both remove exactly what their specification names: a task with
    its runs and everything those runs own, respectively the retired protocol
    records, and nothing else. *)
From stdpp Require Import base list gmap strings option.
From Stdlib Require Import ZArith Lia.
From S2P Require Import Prelude ControlModels ControlWorld RunState ControlStore.

Abbreviation docs := (gmap (Collection * string) Doc).

Lemma delete_doc_docs c id w :
  id_pattern id = true →
  ∃ w', delete_doc c id w = (w', inr ()) ∧ w_docs w' = delete (c, id) (w_docs w).
Proof.
  intros Hid. unfold delete_doc, mbind, eff_bind. rewrite check_path_eq, Hid. cbn -[set_docs w_docs].
  eexists. split; [done|]. by case_match.
Qed.

(** Deleting a list of documents of one collection, one after the other. *)
Lemma delete_all_docs c (ids : list string) w :
  (∀ id, id ∈ ids → id_pattern id = true) → store_wf w →
  ∃ w', for_each ids (delete_doc c) w = (w', inr ()) ∧ store_wf w' ∧
    ∀ c' id', w_docs w' !! (c', id') =
      if decide (c' = c ∧ id' ∈ ids) then None else w_docs w !! (c', id').
Proof.
  revert w. induction ids as [|i ids IH]; intros w Hid Hwf.
  - exists w. split_and!; [done|done|]. intros c' id'. rewrite decide_False; [done|set_solver].
  - destruct (delete_doc_docs c i w) as (w1 & E1 & D1); [set_solver|].
    assert (Hwf1 : store_wf w1) by (pose proof (delete_doc_wf c i w Hwf) as H; by rewrite E1 in H).
    destruct (IH w1) as (w2 & E2 & Hwf2 & D2); [set_solver|done|].
    exists w2. cbn. unfold mbind, eff_bind. rewrite E1, E2. split_and!; [done|done|].
    intros c' id'. rewrite D2, D1.
    destruct (decide (c' = c ∧ id' ∈ ids)) as [[-> Hi]|Hni].
    { rewrite decide_True; [done|set_solver]. }
    destruct (decide ((c, i) = (c', id'))) as [[= <- <-]|Hne].
    { rewrite lookup_delete_eq, decide_True; [done|set_solver]. }
    rewrite lookup_delete_ne by done. rewrite decide_False; [done|].
    intros [-> [->|Hi]%elem_of_cons]; [by destruct Hne|naive_solver].
Qed.

Section Deletion.
Context {PF : Platform}.

Lemma all_valid_sub w w' :
  (∀ k d, w_docs w' !! k = Some d → w_docs w !! k = Some d) → all_valid w → all_valid w'.
Proof. intros H Hv k d Hd. eauto. Qed.

(** [delete_owned] removes exactly the documents of the collection whose
    parent is the run. *)
Lemma delete_owned_docs D `{!Document D} rid w :
  store_wf w → all_valid w → collection_of D ∈ indexed →
  ∃ w', delete_owned D rid w = (w', inr ()) ∧ store_wf w' ∧ all_valid w' ∧
    ∀ c id d, w_docs w' !! (c, id) = Some d ↔
      w_docs w !! (c, id) = Some d ∧ ¬ (c = collection_of D ∧ indexed_parent c d = Some rid).
Proof.
  intros Hwf Hv Hc.
  destruct (list_for_parent_eq D rid w Hwf Hc) as (l & El & Hl & _).
  { intros id x. by apply all_valid_stored. }
  assert (Hin : ∀ id, id ∈ map (λ x, doc_id (wrap x)) l ↔
    ∃ d, w_docs w !! (collection_of D, id) = Some d ∧ indexed_parent (collection_of D) d = Some rid).
  { intros id. rewrite list_elem_of_fmap. split.
    - intros (x & -> & Hx). rewrite Hl in Hx. apply list_elem_of_filter in Hx as [Hp Hx].
      apply elem_of_readable in Hx as (id & Hs & Hvx). exists (wrap x).
      destruct (stored_key _ _ _ _ Hwf Hs) as [<- _]. unfold stored in Hs.
      destruct (w_docs w !! _) as [a|]; [|done]. cbn in Hs. apply unwrap_inv in Hs as ->. done.
    - intros (d & Hd & Hp). destruct (wf_key w Hwf _ _ _ Hd) as (Hcd & Hid & _).
      destruct (unwrap_total (D:=D) d Hcd) as [x Hx]. pose proof (unwrap_inv _ _ Hx) as ->.
      exists x. split; [done|]. rewrite Hl, list_elem_of_filter, elem_of_readable.
      split; [done|]. exists id. unfold stored. rewrite Hd. cbn. split; [done|]. eauto. }
  destruct (delete_all_docs (collection_of D) (map (λ x, doc_id (wrap x)) l) w) as (w' & Ed & Hwf' & Dd).
  { intros id (d & Hd & _)%Hin. by apply (wf_key w Hwf) in Hd as (_ & _ & ?). }
  { done. }
  assert (Hiff : ∀ c id d, w_docs w' !! (c, id) = Some d ↔
      w_docs w !! (c, id) = Some d ∧ ¬ (c = collection_of D ∧ indexed_parent c d = Some rid)).
  { intros c id d. rewrite Dd. destruct (decide _) as [[-> Hi]|Hni].
    - split; [done|]. intros [Hd Hn]. apply Hin in Hi as (d' & Hd' & Hp'). exfalso. apply Hn.
      split; [done|]. congruence.
    - split; [|by intros [? _]]. intros Hd. split; [done|]. intros [-> Hp]. apply Hni.
      split; [done|]. apply Hin. eauto. }
  exists w'. split_and!; [|done| |done].
  - unfold delete_owned, mbind, eff_bind. rewrite El. rewrite <-Ed.
    clear. revert w. induction l as [|x l IH]; intros w; [done|]. cbn. unfold mbind, eff_bind.
    destruct (delete_doc _ _ w) as [w1 [e|[]]]; [done|]. apply IH.
  - apply (all_valid_sub w); [|done]. intros [c id] d Hd. by apply Hiff in Hd as [? _].
Qed.

(** The collections whose documents belong to a run. *)
Definition run_owned : list Collection := [workspaces; grants; commands; run_credentials; audit].

(** What the loop body of [delete_task] does for one run. *)
Lemma delete_run_docs rid w :
  store_wf w → all_valid w → id_pattern rid = true →
  ∃ w', (delete_owned ExecutionWorkspace rid;; delete_owned ConnectorGrant rid;;
         delete_owned RuntimeCommand rid;; delete_owned TaskRunCredential rid;;
         delete_owned SecurityAuditEvent rid;; delete_doc runs rid) w = (w', inr ()) ∧
    store_wf w' ∧ all_valid w' ∧
    ∀ c id d, w_docs w' !! (c, id) = Some d ↔
      w_docs w !! (c, id) = Some d ∧ ¬ (c ∈ run_owned ∧ indexed_parent c d = Some rid) ∧
      ¬ (c = runs ∧ id = rid).
Proof.
  intros Hwf Hv Hid.
  destruct (delete_owned_docs ExecutionWorkspace rid w) as (w1 & E1 & Hwf1 & Hv1 & D1);
    [done|done|set_solver|].
  destruct (delete_owned_docs ConnectorGrant rid w1) as (w2 & E2 & Hwf2 & Hv2 & D2);
    [done|done|set_solver|].
  destruct (delete_owned_docs RuntimeCommand rid w2) as (w3 & E3 & Hwf3 & Hv3 & D3);
    [done|done|set_solver|].
  destruct (delete_owned_docs TaskRunCredential rid w3) as (w4 & E4 & Hwf4 & Hv4 & D4);
    [done|done|set_solver|].
  destruct (delete_owned_docs SecurityAuditEvent rid w4) as (w5 & E5 & Hwf5 & Hv5 & D5);
    [done|done|set_solver|].
  destruct (delete_doc_docs runs rid w5 Hid) as (w6 & E6 & D6).
  assert (Hwf6 : store_wf w6) by (pose proof (delete_doc_wf runs rid w5 Hwf5) as H; by rewrite E6 in H).
  assert (Hiff : ∀ c id d, w_docs w6 !! (c, id) = Some d ↔
      w_docs w !! (c, id) = Some d ∧ ¬ (c ∈ run_owned ∧ indexed_parent c d = Some rid) ∧
      ¬ (c = runs ∧ id = rid)).
  { intros c id d. rewrite D6, lookup_delete_Some, D5, D4, D3, D2, D1. cbn [collection_of].
    unfold run_owned. rewrite !elem_of_cons, elem_of_nil.
    assert (Hk : (runs, rid) ≠ (c, id) ↔ ¬ (c = runs ∧ id = rid)) by naive_solver.
    rewrite Hk. cbn. tauto. }
  exists w6. split_and!; [|done| |done].
  - unfold mbind, eff_bind. by rewrite E1, E2, E3, E4, E5, E6.
  - apply (all_valid_sub w5); [|done]. intros k d. rewrite D6, lookup_delete_Some. tauto.
Qed.

Lemma delete_runs_docs (rids : list string) w :
  store_wf w → all_valid w → (∀ rid, rid ∈ rids → id_pattern rid = true) →
  ∃ w', for_each rids (λ rid, delete_owned ExecutionWorkspace rid;; delete_owned ConnectorGrant rid;;
         delete_owned RuntimeCommand rid;; delete_owned TaskRunCredential rid;;
         delete_owned SecurityAuditEvent rid;; delete_doc runs rid) w = (w', inr ()) ∧
    store_wf w' ∧ all_valid w' ∧
    ∀ c id d, w_docs w' !! (c, id) = Some d ↔
      w_docs w !! (c, id) = Some d ∧
      (∀ rid, rid ∈ rids → ¬ (c ∈ run_owned ∧ indexed_parent c d = Some rid) ∧ ¬ (c = runs ∧ id = rid)).
Proof.
  revert w. induction rids as [|rid rids IH]; intros w Hwf Hv Hid.
  - exists w. split_and!; [done|done|done|]. intros c id d. split; [|by intros [? _]].
    intros Hd. split; [done|]. set_solver.
  - destruct (delete_run_docs rid w Hwf Hv) as (w1 & E1 & Hwf1 & Hv1 & D1); [apply Hid; set_solver|].
    destruct (IH w1 Hwf1 Hv1) as (w2 & E2 & Hwf2 & Hv2 & D2); [set_solver|].
    exists w2. split_and!; [|done|done|].
    + cbn [for_each]. unfold mbind at 1, eff_bind at 1. by rewrite E1.
    + intros c id d. rewrite D2, D1. setoid_rewrite elem_of_cons. split.
      * intros ((Hd & Hn & Hk) & Hr). split; [done|]. intros rid' [->|Hin]; [done|]. by apply Hr.
      * intros (Hd & Hr). destruct (Hr rid (or_introl eq_refl)). split; [done|].
        intros rid' Hin. apply Hr. by right.
Qed.

(** The documents [delete_task] is meant to remove: the task, its runs, and
    what those runs own. *)
Definition owned_by_task (w : World) (t : string) (c : Collection) (id : string) (d : Doc) : Prop :=
  (c = tasks ∧ id = t) ∨
  (∃ run, stored TaskRun w id = Some run ∧ run_task_id run = t ∧ c = runs) ∨
  (∃ rid run, stored TaskRun w rid = Some run ∧ run_task_id run = t ∧
     c ∈ run_owned ∧ indexed_parent c d = Some rid).

(** [delete_task] removes exactly the task, its runs, and every workspace,
    grant, command, run credential and audit event of those runs; all other
    documents survive unchanged, and the index stays in step. *)
Theorem delete_task_exact t w :
  store_wf w → all_valid w → id_pattern t = true →
  ∃ w', store_delete_task t w = (w', inr ()) ∧ store_wf w' ∧
    ∀ c id d, w_docs w' !! (c, id) = Some d ↔
      w_docs w !! (c, id) = Some d ∧ ¬ owned_by_task w t c id d.
Proof.
  intros Hwf Hv Ht.
  destruct (list_for_parent_eq TaskRun t w Hwf) as (l & El & Hl & _).
  { set_solver. } { intros id x. by apply all_valid_stored. }
  assert (Hin : ∀ rid, rid ∈ map run_id l ↔
    ∃ run, stored TaskRun w rid = Some run ∧ run_task_id run = t).
  { intros rid. rewrite list_elem_of_fmap. split.
    - intros (x & -> & Hx). rewrite Hl in Hx. apply list_elem_of_filter in Hx as [Hp Hx].
      apply elem_of_readable in Hx as (id & Hs & _). exists x.
      destruct (stored_key _ _ _ _ Hwf Hs) as [Hk _]. cbn in Hk. subst id. split; [done|].
      by apply (indexed_parent_run x t) in Hp as [? _].
    - intros (x & Hs & Hp). destruct (stored_key _ _ _ _ Hwf Hs) as [Hk _]. cbn in Hk. subst rid.
      exists x. split; [done|]. rewrite Hl, list_elem_of_filter, elem_of_readable. split.
      + apply (indexed_parent_run x t). split; [done|].
        by apply andb_true_iff in Ht as [? _].
      + exists (run_id x). split; [done|]. by apply (all_valid_stored TaskRun w (run_id x)). }
  destruct (delete_runs_docs (map run_id l) w Hwf Hv) as (w1 & E1 & Hwf1 & Hv1 & D1).
  { intros rid (run & Hs & _)%Hin. by destruct (stored_key _ _ _ _ Hwf Hs). }
  destruct (delete_doc_docs tasks t w1 Ht) as (w2 & E2 & D2).
  exists w2. split_and!.
  - unfold store_delete_task, mbind at 1, eff_bind at 1. rewrite El.
    unfold mbind at 1, eff_bind at 1. by rewrite E1.
  - pose proof (delete_doc_wf tasks t w1 Hwf1) as H. by rewrite E2 in H.
  - intros c id d. rewrite D2, lookup_delete_Some, D1. unfold owned_by_task. split.
    + intros (Hk & Hd & Hr). split; [done|].
      intros [[-> ->]|[(run & Hs & Hp & ->)|(rid & run & Hs & Hp & Hc & Hpar)]]; [done| |].
      * by destruct (Hr id (proj2 (Hin id) (ex_intro _ _ (conj Hs Hp)))) as [_ []].
      * by destruct (Hr rid (proj2 (Hin rid) (ex_intro _ _ (conj Hs Hp)))) as [[] _].
    + intros (Hd & Hn). split_and!; [intros [= <- <-]; naive_solver|done|].
      intros rid (run & Hs & Hp)%Hin. split; [naive_solver|].
      intros [-> ->]. naive_solver.
Qed.
End Deletion.

(** A task with one run, which owns one command; beside it an unrelated run. *)
Definition demo_owned : World :=
  (save_command (new_RuntimeCommand "cmd1" "r1" 1 "start" [] "" 30) demo_queue).1.

Lemma demo_owned_wf : store_wf demo_owned.
Proof. apply wf_after; [walk_frame|apply demo_queue_wf]. Qed.

Lemma delete_task_exact_witness :
  ∃ w', store_delete_task (PF := plain_platform) "t" demo_owned = (w', inr ()) ∧
    w_docs w' !! (commands, "cmd1") = None.
Proof.
  destruct (delete_task_exact (PF := plain_platform) "t" demo_owned) as (w' & E & _ & H).
  - exact demo_owned_wf.
  - apply all_validb_true. vm_compute. reflexivity.
  - reflexivity.
  - exists w'. split; [exact E|]. destruct (w_docs w' !! (commands, "cmd1")) as [d|] eqn:Ed; [|reflexivity].
    exfalso. apply H in Ed as [Hd Hn]. apply Hn. right. right.
    exists "r1", ((demo_run "r1" "t" "c1" 10) <| run_updated_at := 0%Z |>).
    split; [vm_compute; reflexivity|]. split; [reflexivity|]. split; [by_decide|].
    assert (E' : w_docs demo_owned !! (commands, "cmd1") =
      Some (DCommand (new_RuntimeCommand "cmd1" "r1" 1 "start" [] "" 30))) by (vm_compute; reflexivity).
    rewrite E' in Hd. injection Hd as <-. reflexivity.
Defined.
