(* ===== verification/StoreJournal.v ===== *)
(** * Crash safety of multi-document writes.

    [_save_many] and [_recover_transaction] of
    [src/cowork/coding/control_store.py]: a task, its run and its workspaces are
    staged in temporary files, a journal naming them is put in place, the
    staging files are renamed over their targets, and the journal is removed.
    Each file-system call is one atomic step ([fsop]); a crash is any prefix of
    the steps, and the next start runs [recover_transaction].

    The theorems: whatever the crash point, recovery leaves either all the
    documents or none of them, and a crash during recovery itself changes
    nothing about that.  Failing file-system calls are not modelled. *)
From stdpp Require Import base list gmap strings option.
From Stdlib Require Import ZArith Lia.
From S2P Require Import Prelude ControlModels ControlWorld RunState ControlStore.

Inductive fsop :=
  | WriteStage (c : Collection) (stage : string) (d : Doc)
  | WriteJournalTmp (entries : list JournalEntry)
  | RenameJournal
  | RenameStage (e : JournalEntry)
  | UnlinkJournal
  | UnlinkJournalTmp
  | UnlinkStage (c : Collection) (stage : string)
  | UnlinkTarget (c : Collection) (id : string).

Definition apply_fsop (o : fsop) (k : Disk) : Disk :=
  match o with
  | WriteStage c stage d => k <| disk_stages := <[(c, stage) := d]> (disk_stages k) |>
  | WriteJournalTmp es => k <| disk_journal_tmp := Some es |>
  | RenameJournal =>
      match disk_journal_tmp k with
      | Some es => k <| disk_journal := Some es |> <| disk_journal_tmp := None |>
      | None => k
      end
  | RenameStage e =>
      match disk_stages k !! (je_collection e, je_stage e) with
      | Some d =>
          k <| disk_docs := <[(je_collection e, je_document_id e) := d]> (disk_docs k) |>
            <| disk_stages := delete (je_collection e, je_stage e) (disk_stages k) |>
      | None => k
      end
  | UnlinkJournal => k <| disk_journal := None |>
  | UnlinkJournalTmp => k <| disk_journal_tmp := None |>
  | UnlinkStage c stage => k <| disk_stages := delete (c, stage) (disk_stages k) |>
  | UnlinkTarget c id => k <| disk_docs := delete (c, id) (disk_docs k) |>
  end.

Definition run_fsops (os : list fsop) (k : Disk) : Disk := foldl (λ k o, apply_fsop o k) k os.

Definition fs (o : fsop) : op () := modify (λ w, w <| w_disk := apply_fsop o (w_disk w) |>).

(** [f".{document.id}.{transaction_id}.tmp"]. *)
Definition stage_name (tx id : string) : string :=
  String.append "." (String.append id (String.append "." (String.append tx ".tmp"))).

Definition entry_of (tx : string) (cd : Collection * Doc) : JournalEntry :=
  {| je_collection := cd.1; je_document_id := doc_id cd.2; je_stage := stage_name tx (doc_id cd.2) |}.

(** [collection.rstrip('s')], of the collections [create_task_run] writes. *)
Definition singular (c : Collection) : string :=
  match c with
  | tasks => "task" | runs => "run" | workspaces => "workspace" | computers => "computer"
  | grants => "grant" | commands => "command" | runtime_credentials => "runtime_credential"
  | registration_credentials => "registration_credential"
  | run_credentials => "run_credential" | audit => "audit"
  end.

(** The first loop of [_save_many]: what was staged, and the exception that
    stopped it, if any. *)
Fixpoint stage_all (tx : string) (documents : list (Collection * Doc)) :
    op (list JournalEntry * option exn) :=
  match documents with
  | [] => mret ([], None)
  | (c, d) :: rest =>
      found ← gets (λ w, w_docs w !! (c, doc_id d));
      if negb (id_pattern (doc_id d))
      then mret ([], Some (ValueError "invalid control-plane document id"))
      else if bool_decide (found ≠ None)
      then mret ([], Some (StateConflict (String.append (singular c) " already exists")))
      else
        fs (WriteStage c (stage_name tx (doc_id d)) d);;
        '(entries, failure) ← stage_all tx rest;
        mret (entry_of tx (c, d) :: entries, failure)
  end.

(** [_recover_transaction]: undo an unfinished write. *)
Definition undo_entry (e : JournalEntry) : list fsop :=
  [UnlinkTarget (je_collection e) (je_document_id e); UnlinkStage (je_collection e) (je_stage e)].

Definition recover_ops (k : Disk) : list fsop :=
  match disk_journal k with
  | None => []
  | Some entries => mjoin (map undo_entry entries) ++ [UnlinkJournal]
  end.

Definition recover_transaction : op () :=
  os ← gets (λ w, recover_ops (w_disk w));
  for_each os fs.

(** The [finally] clause. *)
Definition cleanup_ops (entries : list JournalEntry) : list fsop :=
  UnlinkJournalTmp :: map (λ e, UnlinkStage (je_collection e) (je_stage e)) entries.

(** The second loop: [os.replace(stage, target)] raises when the staging file
    is gone, which happens when two documents share an id. *)
Fixpoint rename_all (entries : list JournalEntry) : op (option exn) :=
  match entries with
  | [] => mret None
  | e :: rest =>
      found ← gets (λ w, disk_stages (w_disk w) !! (je_collection e, je_stage e));
      match found with
      | None => mret (Some (FileNotFoundError (je_stage e)))
      | Some _ => fs (RenameStage e);; rename_all rest
      end
  end.

(** From the journal to its removal. *)
Definition put_in_place (documents : list (Collection * Doc)) (entries : list JournalEntry) :
    op (option exn) :=
  fs (WriteJournalTmp entries);;
  fs RenameJournal;;
  failure ← rename_all entries;
  match failure with
  | Some e => mret (Some e)
  | None =>
      for_each documents (λ cd, modify (index_document cd.1 cd.2));;
      fs UnlinkJournal;;
      mret None
  end.

Definition save_many (documents : list (Collection * Doc)) : op () :=
  tx ← uuid4_hex;
  '(entries, failure) ← stage_all tx documents;
  failure ←
    match failure with
    | Some e => mret (Some e)
    | None => put_in_place documents entries
    end;
  match failure with
  | Some e =>
      journal ← gets (λ w, disk_journal (w_disk w));
      (if bool_decide (journal ≠ None) then recover_transaction else mret ());;
      for_each (cleanup_ops entries) fs;;
      raise e
  | None => for_each (cleanup_ops entries) fs
  end.

(** [create_task_run] of the store. *)
Definition store_create_task_run (task : CodeTask) (run : TaskRun) (ws : list ExecutionWorkspace) :
    op (CodeTask * TaskRun * list ExecutionWorkspace) :=
  save_many ((tasks, DTask task) :: (runs, DRun run) :: map (λ x, (workspaces, DWorkspace x)) ws);;
  mret (task, run, ws).

Section Restart.
Context {PF : Platform}.

(** [LocalControlPlaneStore.__init__] on an existing directory. *)
Definition open_store : op () :=
  recover_transaction;;
  modify (λ w, w <| w_index := list_to_map (map (λ c, (c, ∅)) indexed) |>);;
  rebuild_index TaskRun;;
  rebuild_index ExecutionWorkspace;;
  rebuild_index ConnectorGrant;;
  rebuild_index RuntimeCommand;;
  rebuild_index TaskRunCredential;;
  rebuild_index SecurityAuditEvent.
End Restart.

(** ** The file-system steps of a successful [_save_many] *)

Definition write_stages (tx : string) (documents : list (Collection * Doc)) : list fsop :=
  map (λ cd, WriteStage cd.1 (stage_name tx (doc_id cd.2)) cd.2) documents.

Definition commit_ops (tx : string) (documents : list (Collection * Doc)) : list fsop :=
  let entries := map (entry_of tx) documents in
  write_stages tx documents ++
  [WriteJournalTmp entries; RenameJournal] ++
  map RenameStage entries ++
  [UnlinkJournal] ++ cleanup_ops entries.

Definition doc_key (cd : Collection * Doc) : Collection * string := (cd.1, doc_id cd.2).
Definition stage_key (tx : string) (cd : Collection * Doc) : Collection * string :=
  (cd.1, stage_name tx (doc_id cd.2)).

(** The documents after the transaction. *)
Definition insert_all (documents : list (Collection * Doc)) (m : gmap (Collection * string) Doc) :
    gmap (Collection * string) Doc :=
  foldl (λ m cd, <[doc_key cd := cd.2]> m) m documents.

(** ** Helper lemmas *)

Lemma string_append_cons c a b : String.append (String c a) b = String c (String.append a b).
Proof. reflexivity. Qed.

Lemma string_append_length a b :
  String.length (String.append a b) = String.length a + String.length b.
Proof. induction a as [|c a IH]; [done|]. rewrite string_append_cons. cbn. by rewrite IH. Qed.

Lemma string_append_inj_r (a b s : string) : String.append a s = String.append b s → a = b.
Proof.
  intros H. assert (String.length a = String.length b) as Hl.
  { apply (f_equal String.length) in H. rewrite !string_append_length in H. lia. }
  revert b H Hl. induction a as [|c a IH]; intros [|c' b]; [done..|].
  rewrite !string_append_cons. intros [= -> H] [= Hl]. f_equal. auto.
Qed.

Lemma stage_name_inj tx a b : stage_name tx a = stage_name tx b → a = b.
Proof.
  unfold stage_name. intros H. apply (inj (String.append ".")) in H.
  by apply string_append_inj_r in H.
Qed.

Lemma stage_key_inj tx a b : stage_key tx a = stage_key tx b → doc_key a = doc_key b.
Proof.
  unfold stage_key, doc_key. intros [Ec En]%pair_eq. apply stage_name_inj in En. congruence.
Qed.

#[local] Arguments run_fsops : simpl never.

Lemma run_fsops_cons o os k : run_fsops (o :: os) k = run_fsops os (apply_fsop o k).
Proof. done. Qed.

Lemma run_fsops_app a b k : run_fsops (a ++ b) k = run_fsops b (run_fsops a k).
Proof. apply foldl_app. Qed.

Lemma for_each_fs os w :
  for_each os fs w = (w <| w_disk := run_fsops os (w_disk w) |>, inr ()).
Proof.
  revert w. induction os as [|o os IH]; intros w; [by destruct w|].
  cbn [for_each]. unfold mbind, eff_bind. rewrite run_fsops_cons. cbn. rewrite IH. reflexivity.
Qed.

(** Steps that cannot touch the documents, or the journal. *)
Definition keeps_docs (o : fsop) : bool :=
  match o with RenameStage _ | UnlinkTarget _ _ => false | _ => true end.
Definition keeps_journal (o : fsop) : bool :=
  match o with RenameJournal | UnlinkJournal => false | _ => true end.

Lemma run_keeps_docs os k :
  forallb keeps_docs os = true → disk_docs (run_fsops os k) = disk_docs k.
Proof.
  revert k. induction os as [|o os IH]; intros k; [done|].
  cbn [forallb]. rewrite andb_true_iff, run_fsops_cons.
  intros [Ho Hos]. rewrite IH by done. destruct o; try done. cbn. by case_match.
Qed.

Lemma run_keeps_journal os k :
  forallb keeps_journal os = true → disk_journal (run_fsops os k) = disk_journal k.
Proof.
  revert k. induction os as [|o os IH]; intros k; [done|].
  cbn [forallb]. rewrite andb_true_iff, run_fsops_cons.
  intros [Ho Hos]. rewrite IH by done. destruct o; try done. cbn. by case_match.
Qed.

Lemma forallb_take {A} (f : A → bool) l n : forallb f l = true → forallb f (take n l) = true.
Proof.
  revert n. induction l as [|x l IH]; intros [|n]; cbn; [done..|].
  rewrite !andb_true_iff. naive_solver.
Qed.

Lemma forallb_map_all {A} (f : fsop → bool) (g : A → fsop) l :
  (∀ x, f (g x) = true) → forallb f (map g l) = true.
Proof. intros H. induction l; cbn; [done|]. by rewrite H. Qed.

Lemma insert_all_lookup documents m key :
  NoDup (map doc_key documents) →
  insert_all documents m !! key =
    match list_find (λ cd, doc_key cd = key) documents with
    | Some (_, cd) => Some cd.2
    | None => m !! key
    end.
Proof.
  revert m. induction documents as [|cd l IH]; intros m Hnd; [done|]. cbn in *.
  apply list.NoDup_cons in Hnd as [Hni Hnd]. unfold insert_all in *. cbn. rewrite IH by done.
  destruct (decide (doc_key cd = key)) as [<-|Hne].
  - destruct (list_find _ l) as [[i cd']|] eqn:Ef; cbn.
    + apply list_find_Some in Ef as (Hl & Hk & _). exfalso. apply Hni. rewrite <-Hk.
      apply list_elem_of_fmap. exists cd'. split; [done|]. eapply list_elem_of_lookup_2, Hl.
    + by rewrite lookup_insert_eq.
  - destruct (list_find _ l) as [[i cd']|] eqn:Ef; cbn; [done|]. by rewrite lookup_insert_ne.
Qed.

(** Undoing entries deletes their targets. *)
Lemma undo_docs entries k key :
  disk_docs (run_fsops (mjoin (map undo_entry entries)) k) !! key =
    if decide (key ∈ map (λ e, (je_collection e, je_document_id e)) entries)
    then None else disk_docs k !! key.
Proof.
  revert k. induction entries as [|e es IH]; intros k; cbn.
  - rewrite decide_False; [done|set_solver].
  - rewrite !run_fsops_cons, IH. destruct (decide (key ∈ map _ es)) as [Hin|Hni].
    + rewrite decide_True; [done|set_solver].
    + cbn. destruct (decide ((je_collection e, je_document_id e) = key)) as [<-|Hne].
      * rewrite lookup_delete_eq, decide_True; [done|set_solver].
      * rewrite lookup_delete_ne by done. rewrite decide_False; [done|set_solver].
Qed.

Lemma undo_journal entries k :
  disk_journal (run_fsops (mjoin (map undo_entry entries)) k) = disk_journal k.
Proof.
  revert k. induction entries as [|e es IH]; intros k; [done|].
  cbn. by rewrite !run_fsops_cons, IH.
Qed.

(** The disk after recovery, as a function of the disk before. *)
Definition recovered (k : Disk) : Disk := run_fsops (recover_ops k) k.

Lemma recovered_journal k : disk_journal (recovered k) = None.
Proof.
  unfold recovered, recover_ops. destruct (disk_journal k) as [es|] eqn:E; [|done].
  by rewrite run_fsops_app.
Qed.

Lemma recovered_docs k key :
  disk_docs (recovered k) !! key =
    match disk_journal k with
    | None => disk_docs k !! key
    | Some es => if decide (key ∈ map (λ e, (je_collection e, je_document_id e)) es)
                 then None else disk_docs k !! key
    end.
Proof.
  unfold recovered, recover_ops. destruct (disk_journal k) as [es|]; [|done].
  rewrite run_fsops_app. cbn. apply undo_docs.
Qed.

Lemma recovered_subset k : disk_docs (recovered k) ⊆ disk_docs k.
Proof.
  apply map_subseteq_spec. intros key d. rewrite recovered_docs.
  destruct (disk_journal k); [|done]. by case_decide.
Qed.

(** ** Crash points *)

Lemma take_singleton_run o os n k :
  run_fsops (take n (o :: os)) k =
    match n with 0 => k | S n' => run_fsops (take n' os) (apply_fsop o k) end.
Proof. by destruct n. Qed.

(** Part of the undo steps leaves every other document alone. *)
Lemma undo_prefix_docs entries n k key :
  key ∉ map (λ e, (je_collection e, je_document_id e)) entries →
  disk_docs (run_fsops (take n (mjoin (map undo_entry entries))) k) !! key = disk_docs k !! key.
Proof.
  revert n k. induction entries as [|e es IH]; intros n k Hk; cbn; [by rewrite take_nil|].
  apply not_elem_of_cons in Hk as [Hne Hk].
  destruct n as [|[|n]]; cbn; [done|unfold run_fsops; cbn|rewrite !run_fsops_cons, IH by done; cbn];
    by rewrite lookup_delete_ne.
Qed.

Lemma undo_prefix_journal entries n k :
  disk_journal (run_fsops (take n (mjoin (map undo_entry entries))) k) = disk_journal k.
Proof.
  apply run_keeps_journal, forallb_take.
  induction entries as [|e es IH]; cbn; [done|]. exact IH.
Qed.

(** A crash inside recovery, followed by another recovery, is one recovery. *)
Lemma recover_restartable k n :
  disk_docs (recovered (run_fsops (take n (recover_ops k)) k)) = disk_docs (recovered k) ∧
  disk_journal (recovered (run_fsops (take n (recover_ops k)) k)) = None.
Proof.
  split; [|apply recovered_journal]. apply map_eq. intros key.
  rewrite !recovered_docs. unfold recover_ops.
  destruct (disk_journal k) as [es|] eqn:Ej; [|rewrite take_nil; change (run_fsops [] k) with k; by rewrite Ej].
  rewrite take_app, run_fsops_app, take_singleton_run.
  destruct (n - length (mjoin (map undo_entry es))) as [|n'] eqn:En.
  - rewrite undo_prefix_journal, Ej. case_decide; [done|]. by apply undo_prefix_docs.
  - rewrite take_nil, take_ge by lia. cbn. apply undo_docs.
Qed.

Section Crash.
Context (tx : string) (documents : list (Collection * Doc)) (k : Disk).
Hypothesis Hjournal : disk_journal k = None.
Hypothesis Hnodup : NoDup (map doc_key documents).
Hypothesis Hfresh : ∀ cd, cd ∈ documents → disk_docs k !! doc_key cd = None.

Let entries := map (entry_of tx) documents.

Lemma entry_targets : map (λ e, (je_collection e, je_document_id e)) entries = map doc_key documents.
Proof. unfold entries. rewrite map_map. done. Qed.

(** Writing the staging files. *)
Lemma write_stages_stages l k0 cd :
  NoDup (map doc_key l) → cd ∈ l →
  disk_stages (run_fsops (write_stages tx l) k0) !! stage_key tx cd = Some cd.2.
Proof using.
  clear. revert k0. induction l as [|x l IH]; intros k0 Hnd Hin; [set_solver|].
  cbn in Hnd. apply list.NoDup_cons in Hnd as [Hx Hnd]. cbn.
  rewrite run_fsops_cons. apply elem_of_cons in Hin as [->|Hin]; [|by apply IH].
  assert (Hkeep : ∀ k1, disk_stages k1 !! stage_key tx x = Some x.2 →
    disk_stages (run_fsops (write_stages tx l) k1) !! stage_key tx x = Some x.2).
  { clear IH Hnd. induction l as [|y l IH]; intros k1 Hk1; [done|]. cbn in *.
    rewrite run_fsops_cons.
    apply not_elem_of_cons in Hx as [Hxy Hx].
    apply IH; [done|]. cbn. rewrite lookup_insert_ne; [done|].
    intros E. apply Hxy. by apply (stage_key_inj tx x y). }
  apply Hkeep. cbn. by rewrite lookup_insert_eq.
Qed.

(** Renaming every staging file installs every document. *)
Lemma rename_all_docs l k0 :
  NoDup (map doc_key l) → (∀ cd, cd ∈ l → disk_stages k0 !! stage_key tx cd = Some cd.2) →
  disk_docs (run_fsops (map RenameStage (map (entry_of tx) l)) k0) = insert_all l (disk_docs k0).
Proof using.
  clear. revert k0. induction l as [|x l IH]; intros k0 Hnd Hst; [done|]. cbn in *.
  apply list.NoDup_cons in Hnd as [Hx Hnd].
  pose proof (Hst x (list_elem_of_here _ _)) as Hsx. unfold stage_key in Hsx.
  rewrite run_fsops_cons. cbn. rewrite Hsx. rewrite IH; [done|done|]. intros cd Hcd. cbn. rewrite lookup_delete_ne; [by apply Hst; right|].
  intros E. apply Hx. apply list_elem_of_fmap. exists cd.
  split; [by apply (stage_key_inj tx x cd)|done].
Qed.

(** Renames of journalled stages touch only journalled targets. *)
Lemma rename_prefix_docs es n k0 key :
  key ∉ map (λ e, (je_collection e, je_document_id e)) es →
  disk_docs (run_fsops (take n (map RenameStage es)) k0) !! key = disk_docs k0 !! key.
Proof using.
  clear. revert n k0. induction es as [|e es IH]; intros n k0 Hk; cbn; [by rewrite take_nil|].
  apply not_elem_of_cons in Hk as [Hne Hk]. destruct n as [|n]; cbn; [done|].
  rewrite run_fsops_cons, IH by done. cbn. case_match; [|done]. cbn. by rewrite lookup_insert_ne.
Qed.

Lemma commit_crash_docs n :
  disk_docs (recovered (run_fsops (take n (commit_ops tx documents)) k)) =
    if decide (n ≤ 2 * length documents + 2) then disk_docs k
    else insert_all documents (disk_docs k).
Proof using Hjournal Hnodup Hfresh.
  unfold commit_ops. fold entries.
  set (kw := run_fsops (write_stages tx documents) k).
  assert (Hwl : length (write_stages tx documents) = length documents) by apply length_map.
  assert (Hkd : forallb keeps_docs (write_stages tx documents) = true)
    by by apply forallb_map_all.
  assert (Hkj : forallb keeps_journal (write_stages tx documents) = true)
    by by apply forallb_map_all.
  rewrite take_app, run_fsops_app, Hwl.
  destruct (decide (n ≤ length documents + 1)) as [Hn|Hn].
  { (* staging, journal not in place *)
    rewrite decide_True by lia. apply map_eq. intros key. rewrite recovered_docs.
    assert (Hn' : n - length documents = 0 ∨ n - length documents = 1) by lia.
    destruct Hn' as [-> | ->]; cbn;
      rewrite !run_keeps_journal, Hjournal by (first [done | by apply forallb_take]);
      by rewrite !run_keeps_docs by (first [done | by apply forallb_take]). }
  rewrite (take_ge (write_stages _ _)) by lia. fold kw.
  destruct (n - length documents) as [|[|n']] eqn:En; [lia..|]. cbn [app].
  rewrite !take_singleton_run. cbn [apply_fsop]. cbn [disk_journal_tmp].
  set (kj := apply_fsop RenameJournal (apply_fsop (WriteJournalTmp entries) kw)).
  change (disk_docs (recovered (run_fsops (take n'
    (map RenameStage entries ++ [UnlinkJournal] ++ cleanup_ops entries)) kj)) = 
    if decide (n ≤ 2 * length documents + 2) then disk_docs k
    else insert_all documents (disk_docs k)).
  assert (Hjd : disk_docs kj = disk_docs k) by (by apply run_keeps_docs).
  assert (Hjj : disk_journal kj = Some entries) by done.
  assert (Hel : length (map RenameStage entries) = length documents)
    by (unfold entries; by rewrite !length_map).
  rewrite take_app, run_fsops_app, Hel.
  case_decide as Hphase.
  - (* journal in place *)
    replace (n' - length documents) with 0 by lia.
    change (take 0 _) with (@nil fsop). rewrite <-run_fsops_app, app_nil_r.
    apply map_eq. intros key. rewrite recovered_docs.
    rewrite run_keeps_journal by (by apply forallb_take, forallb_map_all). rewrite Hjj.
    case_decide as Hin.
    + rewrite entry_targets in Hin. apply list_elem_of_fmap in Hin as (cd & -> & Hcd).
      by rewrite Hfresh.
    + by rewrite rename_prefix_docs, Hjd.
  - (* committed *)
    destruct (n' - length documents) as [|m] eqn:Em; [lia|].
    rewrite (take_ge (map RenameStage entries)) by lia. cbn [app].
    rewrite take_singleton_run. apply map_eq. intros key. rewrite recovered_docs.
    assert (Hcd : forallb keeps_docs (cleanup_ops entries) = true)
      by (cbn; by apply forallb_map_all).
    assert (Hcj : forallb keeps_journal (cleanup_ops entries) = true)
      by (cbn; by apply forallb_map_all).
    rewrite run_keeps_journal by (by apply forallb_take). cbn [apply_fsop]. cbn [disk_journal].
    rewrite run_keeps_docs by (by apply forallb_take). cbn [disk_docs].
    change (disk_docs (run_fsops (map RenameStage entries) kj) !! key =
            insert_all documents (disk_docs k) !! key).
    unfold entries at 1. rewrite rename_all_docs; [by rewrite Hjd|done|].
    intros cd Hin. cbn. by apply write_stages_stages.
Qed.
End Crash.

(** ** [_save_many] on every outcome *)

(** The documents [_save_many] accepts: a legal id and no such file yet. *)
Definition creatable (w : World) (cd : Collection * Doc) : Prop :=
  id_pattern (doc_id cd.2) = true ∧ w_docs w !! doc_key cd = None.

Definition with_disk (k : Disk) (w : World) : World := w <| w_disk := k |>.

Lemma with_disk_self w : with_disk (w_disk w) w = w.
Proof. by destruct w. Qed.

Lemma stage_all_spec tx documents w :
  ∃ l1 l2 failure, documents = l1 ++ l2 ∧ Forall (creatable w) l1 ∧
    stage_all tx documents w =
      (with_disk (run_fsops (write_stages tx l1) (w_disk w)) w, inr (map (entry_of tx) l1, failure)) ∧
    match failure with
    | None => l2 = []
    | Some e => ∃ cd l3, l2 = cd :: l3 ∧ ¬ creatable w cd
    end.
Proof.
  revert w. induction documents as [|[c d] rest IH]; intros w.
  { exists [], [], None. split_and!; try done. cbn. change (run_fsops [] (w_disk w)) with (w_disk w).
    by rewrite with_disk_self. }
  cbn [stage_all]. unfold mbind, eff_bind. cbn [gets].
  assert (Hbad : ∀ e, ¬ creatable w (c, d) →
    ∃ l1 l2 failure, (c, d) :: rest = l1 ++ l2 ∧ Forall (creatable w) l1 ∧
    (mret ([], Some e) : op (list JournalEntry * option exn)) w =
      (with_disk (run_fsops (write_stages tx l1) (w_disk w)) w, inr (map (entry_of tx) l1, failure)) ∧
    match failure with
    | None => l2 = []
    | Some e => ∃ cd l3, l2 = cd :: l3 ∧ ¬ creatable w cd
    end).
  { intros e Hb. exists [], ((c, d) :: rest), (Some e). split_and!; [done|done| |eauto].
    change (run_fsops _ (w_disk w)) with (w_disk w). by rewrite with_disk_self. }
  unfold gets. destruct (id_pattern (doc_id d)) eqn:Eid; cbn [negb];
    [|apply Hbad; unfold creatable; cbn; intros [? _]; congruence].
  case_bool_decide as Hf; [apply Hbad; unfold creatable; cbn; by intros [_ ?]|].
  set (w1 := with_disk (apply_fsop (WriteStage c (stage_name tx (doc_id d)) d) (w_disk w)) w).
  destruct (IH w1) as (l1 & l2 & failure & -> & Hl1 & Hs & Hf2).
  exists ((c, d) :: l1), l2, failure. split_and!; [done| | |done].
  - constructor; [done|exact Hl1].
  - change (fs _ w) with (w1, @inr exn () ()). cbn iota beta. rewrite Hs. done.
Qed.

(** A successful second loop consumed only staging files that were there. *)
Lemma rename_all_gone entries w w' key :
  rename_all entries w = (w', inr None) → disk_stages (w_disk w) !! key = None →
  key ∉ map (λ e, (je_collection e, je_stage e)) entries.
Proof.
  revert w. induction entries as [|e rest IH]; intros w Hr Hgone; [by apply not_elem_of_nil|].
  cbn [rename_all] in Hr. unfold mbind, eff_bind, gets in Hr.
  destruct (disk_stages (w_disk w) !! (je_collection e, je_stage e)) as [d|] eqn:Es; [|done].
  cbn. apply not_elem_of_cons. split; [congruence|].
  set (w1 := with_disk (apply_fsop (RenameStage e) (w_disk w)) w).
  change (fs _ w) with (w1, @inr exn () ()) in Hr. cbn iota beta in Hr.
  apply (IH w1 Hr). unfold w1. cbn. rewrite Es. cbn. rewrite lookup_delete_None. by right.
Qed.

Lemma rename_all_spec entries w :
  ∃ n failure,
    rename_all entries w =
      (with_disk (run_fsops (take n (map RenameStage entries)) (w_disk w)) w, inr failure) ∧
    (failure = None → n = length entries ∧
       NoDup (map (λ e, (je_collection e, je_stage e)) entries)).
Proof.
  revert w. induction entries as [|e rest IH]; intros w.
  { exists 0, None. cbn. change (run_fsops [] (w_disk w)) with (w_disk w). rewrite with_disk_self. split; [done|]. split; [done|constructor]. }
  cbn [rename_all]. unfold mbind, eff_bind. unfold gets.
  destruct (disk_stages (w_disk w) !! _) as [d|] eqn:Es.
  2:{ exists 0, (Some (FileNotFoundError (je_stage e))). split; [|done].
       change (run_fsops _ (w_disk w)) with (w_disk w). by rewrite with_disk_self. }
  set (w1 := with_disk (apply_fsop (RenameStage e) (w_disk w)) w).
  destruct (IH w1) as (n & failure & Hr & Hn). exists (S n), failure. split.
  { change (fs _ w) with (w1, @inr exn () ()). cbn iota beta. rewrite Hr. done. }
  intros ->. destruct (Hn eq_refl) as [-> Hnd]. split; [done|]. cbn. apply list.NoDup_cons. split; [|done].
  assert (Hgone : disk_stages (w_disk w1) !! (je_collection e, je_stage e) = None).
  { unfold w1. cbn. rewrite Es. cbn. by rewrite lookup_delete_eq. }
  by eapply rename_all_gone.
Qed.

Lemma index_all_spec documents w :
  for_each documents (λ cd, modify (index_document cd.1 cd.2)) w =
    (foldl (λ w cd, index_document cd.1 cd.2 w) w documents, inr ()).
Proof. revert w. induction documents as [|cd l IH]; intros w; [done|]. apply IH. Qed.

Lemma index_document_disk c d w : w_disk (index_document c d w) = w_disk w.
Proof. unfold index_document. by destruct (w_index w !! c). Qed.

Lemma index_all_disk documents w :
  w_disk (foldl (λ w cd, index_document cd.1 cd.2 w) w documents) = w_disk w.
Proof.
  revert w. induction documents as [|cd l IH]; intros w; [done|]. cbn.
  by rewrite IH, index_document_disk.
Qed.

(** The index updates depend on the index alone. *)
Lemma index_all_ext documents a b :
  w_index a = w_index b →
  w_index (foldl (λ w cd, index_document cd.1 cd.2 w) a documents) =
  w_index (foldl (λ w cd, index_document cd.1 cd.2 w) b documents).
Proof.
  revert a b. induction documents as [|cd l IH]; intros a b E; [done|]. cbn. apply IH.
  unfold index_document. rewrite E. destruct (w_index b !! cd.1); cbn; congruence.
Qed.

Lemma stage_keys_docs tx documents :
  NoDup (map (λ e, (je_collection e, je_stage e)) (map (entry_of tx) documents)) →
  NoDup (map doc_key documents).
Proof.
  rewrite map_map. induction documents as [|cd l IH]; cbn; [done|].
  rewrite !list.NoDup_cons. intros [Hn Hnd]. split; [|auto]. intros Hin. apply Hn.
  apply list_elem_of_fmap in Hin as (cd' & E & Hin). apply list_elem_of_fmap. exists cd'.
  split; [|done]. injection E as -> ->. done.
Qed.

Lemma rename_all_ok tx documents w :
  NoDup (map doc_key documents) →
  (∀ cd, cd ∈ documents → disk_stages (w_disk w) !! stage_key tx cd = Some cd.2) →
  ∃ w', rename_all (map (entry_of tx) documents) w = (w', inr None).
Proof.
  revert w. induction documents as [|cd l IH]; intros w Hnd Hst; [by eexists|].
  cbn in Hnd. apply list.NoDup_cons in Hnd as [Hn Hnd].
  pose proof (Hst cd (list_elem_of_here _ _)) as Hcd. unfold stage_key in Hcd.
  cbn [map rename_all]. unfold mbind, eff_bind, gets. cbn [entry_of je_collection je_stage].
  rewrite Hcd. apply (IH (with_disk (apply_fsop (RenameStage (entry_of tx cd)) (w_disk w)) w)); [done|].
  intros cd' Hin. cbn. rewrite Hcd. cbn. rewrite lookup_delete_ne; [by apply Hst; right|].
  intros E. apply Hn. apply list_elem_of_fmap. exists cd'.
  split; [by apply (stage_key_inj tx cd cd')|done].
Qed.

(** The commit phase. *)
Lemma put_in_place_spec tx documents w :
  Forall (λ cd, w_docs w !! doc_key cd = None) documents →
  (NoDup (map doc_key documents) →
     ∀ cd, cd ∈ documents → disk_stages (w_disk w) !! stage_key tx cd = Some cd.2) →
  let entries := map (entry_of tx) documents in
  (∃ w', put_in_place documents entries w = (w', inr None) ∧ NoDup (map doc_key documents) ∧
     w_disk w' = run_fsops ([WriteJournalTmp entries; RenameJournal] ++ map RenameStage entries ++
                   [UnlinkJournal]) (w_disk w) ∧
     w_index w' = w_index (foldl (λ w cd, index_document cd.1 cd.2 w) w documents)) ∨
  (∃ w' e, put_in_place documents entries w = (w', inr (Some e)) ∧ ¬ NoDup (map doc_key documents) ∧
     disk_journal (w_disk w') = Some entries ∧ disk_docs (recovered (w_disk w')) = w_docs w ∧
     w_index w' = w_index w).
Proof.
  intros Hfresh Hst entries.
  set (kj := run_fsops [WriteJournalTmp entries; RenameJournal] (w_disk w)).
  set (wj := with_disk kj w).
  destruct (rename_all_spec entries wj) as (n & failure & Hr & Hn).
  assert (Hp : put_in_place documents entries w =
    ((failure ← rename_all entries;
      match failure with
      | Some e => mret (Some e)
      | None => for_each documents (λ cd, modify (index_document cd.1 cd.2));;
                fs UnlinkJournal;; mret None
      end) : op (option exn)) wj) by done.
  rewrite Hp. unfold mbind, eff_bind. rewrite Hr. clear Hp.
  destruct failure as [e|].
  - right. eexists _, e. split; [done|]. split_and!.
    + intros Hnd. destruct (rename_all_ok tx documents wj Hnd (Hst Hnd)) as [w' Hok].
      fold entries in Hok. rewrite Hok in Hr. done.
    + cbn. rewrite run_keeps_journal; [done|]. by apply forallb_take, forallb_map_all.
    + apply map_eq. intros key. rewrite recovered_docs. cbn [with_disk w_disk].
      change (w_disk (with_disk ?x _)) with x.
      rewrite run_keeps_journal by (by apply forallb_take, forallb_map_all).
      change (disk_journal (w_disk wj)) with (Some entries). cbn iota.
      case_decide as Hin.
      * unfold entries in Hin. rewrite map_map in Hin.
        apply list_elem_of_fmap in Hin as (cd & -> & Hcd).
        rewrite list.Forall_forall in Hfresh. symmetry. exact (Hfresh cd Hcd).
      * by rewrite rename_prefix_docs.
    + done.
  - left. destruct (Hn eq_refl) as [-> Hnd]. eexists. rewrite index_all_spec.
    split; [done|]. split_and!.
    + by apply stage_keys_docs in Hnd.
    + cbn. rewrite index_all_disk. cbn [with_disk w_disk]. rewrite take_ge by (by rewrite length_map).
      rewrite !run_fsops_cons, run_fsops_app. done.
    + by apply index_all_ext.
Qed.

Lemma run_recover w : recover_transaction w = (with_disk (recovered (w_disk w)) w, inr ()).
Proof. unfold recover_transaction, mbind, eff_bind, gets. by rewrite for_each_fs. Qed.

Lemma cleanup_keeps tx l k :
  disk_docs (run_fsops (cleanup_ops (map (entry_of tx) l)) k) = disk_docs k ∧
  disk_journal (run_fsops (cleanup_ops (map (entry_of tx) l)) k) = disk_journal k.
Proof.
  split; [apply run_keeps_docs|apply run_keeps_journal]; cbn; by apply forallb_map_all.
Qed.

(** Both outcomes of [_save_many]. *)
Lemma save_many_cases documents w :
  let tx := w_uuid w (w_uuids w) in
  (∃ w', save_many documents w = (w', inr ()) ∧ Forall (creatable w) documents ∧
     NoDup (map doc_key documents) ∧
     w_disk w' = run_fsops (commit_ops tx documents) (w_disk w) ∧
     w_index w' = w_index (foldl (λ w cd, index_document cd.1 cd.2 w) w documents)) ∨
  (∃ w' e, save_many documents w = (w', inl e) ∧
     ¬ (Forall (creatable w) documents ∧ NoDup (map doc_key documents)) ∧
     w_docs w' ⊆ w_docs w ∧ (disk_journal (w_disk w) = None → w_docs w' = w_docs w) ∧
     disk_journal (w_disk w') = None ∧ w_index w' = w_index w).
Proof.
  intros tx. unfold save_many, mbind, eff_bind. cbn -[stage_all put_in_place cleanup_ops].
  set (w0 := update_field w_uuids _ w). fold tx.
  destruct (stage_all_spec tx documents w0) as (l1 & l2 & failure & Hd & Hok & Hs & Hf).
  rewrite Hs. cbn iota beta. set (w1 := with_disk _ w0).
  assert (Hw1d : w_docs w1 = w_docs w).
  { unfold w_docs at 1, w1. cbn. rewrite run_keeps_docs; [done|]. by apply forallb_map_all. }
  assert (Hw1j : disk_journal (w_disk w1) = disk_journal (w_disk w)).
  { unfold w1. cbn. rewrite run_keeps_journal; [done|]. by apply forallb_map_all. }
  destruct failure as [e|].
  - destruct Hf as (cd & l3 & -> & Hbad). right. cbn [mret eff_ret gets]. cbn iota beta. unfold gets.
    assert (Hrec : (if bool_decide (disk_journal (w_disk w1) ≠ None) then recover_transaction
                    else mret ()) w1 = (with_disk (recovered (w_disk w1)) w1, inr ())).
    { case_bool_decide as E; [apply run_recover|]. unfold recovered, recover_ops.
      assert (E' : disk_journal (w_disk w1) = None) by done. rewrite E'.
      change (run_fsops [] (w_disk w1)) with (w_disk w1). by rewrite with_disk_self. }
    assert (Hsame : disk_journal (w_disk w) = None → disk_docs (recovered (w_disk w1)) = w_docs w).
    { intros Hj. rewrite <-Hw1d. apply map_eq. intros key. by rewrite recovered_docs, Hw1j, Hj. }
    rewrite Hrec. cbn -[cleanup_ops recovered]. rewrite for_each_fs. eexists _, e. split; [done|].
    unfold w_docs at 1 3. cbn -[cleanup_ops recovered].
    rewrite (proj1 (cleanup_keeps tx l1 _)), (proj2 (cleanup_keeps tx l1 _)).
    split_and!; [|rewrite <-Hw1d; apply recovered_subset| |apply recovered_journal|done].
    + intros [HF _]. rewrite Hd in HF. apply Forall_app in HF as [_ HF].
      by apply Forall_inv in HF.
    + exact Hsame.
  - subst l2. rewrite app_nil_r in Hd. subst l1.
    destruct (put_in_place_spec tx documents w1) as
      [(w' & Hp & Hnd & Hdisk & Hidx)|(w' & e & Hp & Hnd & Hj' & Hrec & Hidx)].
    { revert Hok. apply Forall_impl. intros cd [_ H]. by rewrite Hw1d. }
    { intros Hnd cd Hin. unfold w1. cbn. by apply write_stages_stages. }
    + left. rewrite Hp, for_each_fs. eexists. split; [done|]. split_and!; [done|done| |].
      * cbn -[cleanup_ops]. rewrite Hdisk. unfold commit_ops, w1.
        rewrite !run_fsops_app. done.
      * cbn. rewrite Hidx. by apply index_all_ext.
    + right. rewrite Hp. cbn -[cleanup_ops].
      rewrite Hj', bool_decide_eq_true_2 by done. rewrite run_recover. cbn -[cleanup_ops].
      rewrite for_each_fs. eexists _, e. split; [done|].
      unfold w_docs at 1 3. cbn -[cleanup_ops recovered].
      rewrite (proj1 (cleanup_keeps tx documents _)), (proj2 (cleanup_keeps tx documents _)).
      split_and!; [by intros [_ ?]|by rewrite Hrec, Hw1d|by rewrite Hrec, Hw1d|
                   apply recovered_journal|by cbn; rewrite Hidx].
Qed.

(** ** Representation invariant *)

(** Fewer documents under the same index. *)
Lemma store_wf_subset w w' :
  w_docs w' ⊆ w_docs w → w_index w' = w_index w → store_wf w → store_wf w'.
Proof.
  intros Hd Hi [K X P S C].
  assert (Hsub : ∀ key d, w_docs w' !! key = Some d → w_docs w !! key = Some d)
    by (intros; by eapply lookup_weaken).
  split; rewrite ?Hi; eauto.
Qed.

(** Saving documents one by one, as a reference for the index and documents
    of a bulk write. *)
Lemma save_each_wf documents w :
  Forall (λ cd, doc_collection cd.2 = cd.1 ∧ id_pattern (doc_id cd.2) = true) documents →
  store_wf w →
  ∃ w', store_wf w' ∧ w_docs w' = insert_all documents (w_docs w) ∧
    w_index w' = w_index (foldl (λ w cd, index_document cd.1 cd.2 w) w documents).
Proof.
  revert w. induction documents as [|cd l IH]; intros w Hall Hwf; [by exists w|].
  apply list.Forall_cons in Hall as [[Hc Hid] Hall].
  pose proof (save_wf cd.1 cd.2 w Hc Hwf) as Hwf1. rewrite save_eq, Hid in Hwf1. cbn in Hwf1.
  destruct (IH _ Hall Hwf1) as (w' & Hw' & Hd & Hi). exists w'. split; [done|].
  rewrite index_document_docs, set_docs_docs in Hd. split; [done|].
  rewrite Hi. cbn. apply index_all_ext. unfold index_document. cbn.
  by destruct (w_index w !! cd.1).
Qed.

Lemma commit_docs documents k tx :
  NoDup (map doc_key documents) →
  disk_docs (run_fsops (commit_ops tx documents) k) = insert_all documents (disk_docs k) ∧
  disk_journal (run_fsops (commit_ops tx documents) k) = None.
Proof.
  intros Hnd. unfold commit_ops. rewrite !run_fsops_app.
  rewrite (proj1 (cleanup_keeps tx documents _)), (proj2 (cleanup_keeps tx documents _)).
  split; [|done]. rewrite run_fsops_cons. cbn [apply_fsop]. change (run_fsops [] ?x) with x.
  change (disk_docs (update_field disk_journal None ?x)) with (disk_docs x).
  rewrite rename_all_docs.
  - rewrite run_keeps_docs by done. rewrite run_keeps_docs; [done|]. by apply forallb_map_all.
  - done.
  - intros cd Hin. cbn. by apply write_stages_stages.
Qed.

(** A bulk write keeps the invariant, whether it succeeds or fails. *)
Lemma save_many_keeps documents :
  Forall (λ cd, doc_collection cd.2 = cd.1) documents → within keeps_wf (save_many documents).
Proof.
  intros Hc w Hwf.
  destruct (save_many_cases documents w) as
    [(w' & -> & Hok & Hnd & Hd & Hi)|(w' & e & -> & _ & Hd & _ & Hj' & Hi)]; cbn.
  - destruct (commit_docs documents (w_disk w) (w_uuid w (w_uuids w)) Hnd) as [Hdocs Hj'].
    destruct (save_each_wf documents w) as (g & Hg & Hgd & Hgi); [|done|].
    { apply list.Forall_forall. intros cd Hin. rewrite list.Forall_forall in Hc, Hok.
      split; [by apply Hc|by apply Hok]. }
    apply (store_wf_subset g); [|congruence|done].
    unfold w_docs at 1. rewrite Hd, Hdocs, Hgd. done.
  - by apply (store_wf_subset w).
Qed.

Lemma store_create_task_run_keeps task run ws :
  within keeps_wf (store_create_task_run task run ws).
Proof.
  apply within_bind; [apply _| |intros _; apply within_ret, _].
  apply save_many_keeps. constructor; [done|]. constructor; [done|].
  induction ws; cbn; by constructor.
Qed.
#[export] Hint Resolve store_create_task_run_keeps : frame.

(** ** Restart *)

Section RestartFacts.
Context {PF : Platform}.

Definition listed (D : Type) `{!Document D} (w : World) : list (Collection * Doc) :=
  map (λ x, (collection_of D, wrap x)) (sorted_desc (λ x, doc_stamp (wrap x)) (reorder (readable D w))).

Lemma rebuild_index_eq D `{!Document D} w :
  rebuild_index D w = (foldl (λ w cd, index_document cd.1 cd.2 w) w (listed D w), inr ()).
Proof.
  unfold rebuild_index, mbind, eff_bind, list_docs, gets, listed. cbn.
  generalize (sorted_desc (λ x, doc_stamp (wrap x)) (reorder (readable D w))) as l.
  intros l. revert w. induction l as [|x l IH]; intros w; [done|]. cbn. unfold mbind, eff_bind.
  apply IH.
Qed.

Lemma rebuild_index_of D `{!Document D} w1 w :
  w_docs w = w_docs w1 →
  rebuild_index D w = (foldl (λ w cd, index_document cd.1 cd.2 w) w (listed D w1), inr ()).
Proof. intros H. rewrite rebuild_index_eq. unfold listed, readable. by rewrite H. Qed.

Lemma index_all_docs documents w :
  w_docs (foldl (λ w cd, index_document cd.1 cd.2 w) w documents) = w_docs w.
Proof. unfold w_docs. by rewrite index_all_disk. Qed.

(** Every document the restart indexes. *)
Definition restart_list (w : World) : list (Collection * Doc) :=
  listed TaskRun w ++ listed ExecutionWorkspace w ++ listed ConnectorGrant w ++
  listed RuntimeCommand w ++ listed TaskRunCredential w ++ listed SecurityAuditEvent w.

Lemma open_store_eq w :
  let w1 := (with_disk (recovered (w_disk w)) w)
              <| w_index := list_to_map (map (λ c, (c, ∅)) indexed) |> in
  open_store w = (foldl (λ w cd, index_document cd.1 cd.2 w) w1 (restart_list w1), inr ()).
Proof.
  intros w1. unfold open_store, mbind, eff_bind. rewrite run_recover. cbn [modify].
  change (modify _ _) with (w1, @inr exn () ()). cbn iota beta.
  unfold restart_list. rewrite !foldl_app.
  do 6 (rewrite (rebuild_index_of _ w1) by (by rewrite ?index_all_docs); cbn iota beta).
  done.
Qed.

(** The readable documents of one collection, with their keys. *)
Lemma elem_of_listed D `{!Document D} w cd :
  (∀ c id d, w_docs w !! (c, id) = Some d → doc_collection d = c ∧ doc_id d = id) →
  cd ∈ listed D w ↔
    cd.1 = collection_of D ∧ w_docs w !! doc_key cd = Some cd.2 ∧ doc_valid cd.2 = true.
Proof.
  intros Hkey. unfold listed. rewrite list_elem_of_fmap. destruct cd as [c d]. cbn. split.
  - intros (x & [= -> ->] & Hx). rewrite elem_of_sorted_desc, reorder_perm, elem_of_readable in Hx.
    destruct Hx as (id & Hs & Hv). split; [done|]. split; [|done]. unfold stored in Hs.
    destruct (w_docs w !! _) as [a|] eqn:Ha; [|done]. cbn in Hs. apply unwrap_inv in Hs as ->.
    destruct (Hkey _ _ _ Ha) as [_ Hid]. unfold doc_key. cbn. by rewrite Hid.
  - intros (-> & Hd & Hv). destruct (Hkey _ _ _ Hd) as [Hc _].
    destruct (unwrap_total d Hc) as [x Hx]. pose proof (unwrap_inv _ _ Hx) as ->.
    exists x. split; [done|]. rewrite elem_of_sorted_desc, reorder_perm, elem_of_readable.
    exists (doc_id (wrap x)). split; [|done]. unfold stored. unfold doc_key in Hd. cbn in Hd.
    rewrite Hd. cbn. apply unwrap_wrap.
Qed.

Lemma elem_of_restart_list w cd :
  (∀ c id d, w_docs w !! (c, id) = Some d → doc_collection d = c ∧ doc_id d = id) →
  cd ∈ restart_list w ↔
    cd.1 ∈ indexed ∧ w_docs w !! doc_key cd = Some cd.2 ∧ doc_valid cd.2 = true.
Proof.
  intros Hkey. unfold restart_list, indexed.
  rewrite !elem_of_app, !elem_of_listed, !elem_of_cons, elem_of_nil by done. cbn. tauto.
Qed.

(** Insertions that agree with a map [M] stay below it and reach its values. *)
Lemma insert_all_agree (documents : list (Collection * Doc)) (m M : gmap (Collection * string) Doc) :
  (∀ cd, cd ∈ documents → M !! doc_key cd = Some cd.2) → m ⊆ M →
  insert_all documents m ⊆ M ∧ m ⊆ insert_all documents m ∧
  (∀ cd, cd ∈ documents → insert_all documents m !! doc_key cd = Some cd.2).
Proof.
  revert m. induction documents as [|cd l IH]; intros m HM Hm.
  { split_and!; [done|done|]. intros cd H. by apply not_elem_of_nil in H. }
  cbn. assert (Hcd : M !! doc_key cd = Some cd.2) by (apply HM; left).
  destruct (IH (<[doc_key cd := cd.2]> m)) as (H1 & H2 & H3).
  { intros cd' H. apply HM. by right. }
  { apply insert_subseteq_l; [done|by trans m]. }
  assert (Hsub : m ⊆ <[doc_key cd := cd.2]> m).
  { apply map_subseteq_spec. intros key d Hd.
    destruct (decide (key = doc_key cd)) as [->|Hne].
    - pose proof (lookup_weaken _ _ _ _ Hd Hm). rewrite lookup_insert_eq. congruence.
    - by rewrite lookup_insert_ne. }
  split_and!; [done|by trans (<[doc_key cd := cd.2]> m)|].
  intros cd' [->|Hin]%elem_of_cons; [|by apply H3].
  eapply lookup_weaken; [|exact H2]. apply lookup_insert_eq.
Qed.
End RestartFacts.

Definition empty_index : gmap Collection (gmap string (gset string)) :=
  list_to_map (map (λ c, (c, ∅)) indexed).

Lemma empty_index_lookup c index :
  empty_index !! c = Some index → index = ∅ ∧ c ∈ indexed.
Proof.
  intros H. apply elem_of_list_to_map_2 in H. apply list_elem_of_fmap in H as (c' & [= -> ->] & Hc).
  done.
Qed.

Lemma empty_index_is_Some c : is_Some (empty_index !! c) ↔ c ∈ indexed.
Proof.
  split; [intros [i H]; by apply empty_index_lookup in H as [_ ?]|].
  intros Hc. exists ∅. unfold indexed in Hc. repeat (apply elem_of_cons in Hc as [->|Hc]; [done|]).
  by apply not_elem_of_nil in Hc.
Qed.

(** With an empty index, the invariant holds of the documents a listing by
    parent never needs. *)
Lemma unlisted_wf w :
  (∀ c id d, w_docs w !! (c, id) = Some d → doc_collection d = c ∧ doc_id d = id ∧ id_pattern id = true) →
  (∀ c id d, w_docs w !! (c, id) = Some d → c ∈ indexed → doc_valid d = false) →
  w_index w = empty_index → store_wf w.
Proof.
  intros Hkey Hun Hi. split; rewrite ?Hi.
  - exact Hkey.
  - apply empty_index_is_Some.
  - intros c index p ids id [-> _]%empty_index_lookup. by rewrite lookup_empty.
  - intros c index p ids id d [-> _]%empty_index_lookup. by rewrite lookup_empty.
  - intros c index p id d [_ Hc]%empty_index_lookup Hd Hv. by rewrite (Hun _ _ _ Hd Hc) in Hv.
Qed.

Section StoreTheorems.
Context {PF : Platform}.

(** Opening the store, when what is left after the rollback is keyed by its
    path. *)
Lemma open_store_after_rollback w :
  (∀ c id d, disk_docs (recovered (w_disk w)) !! (c, id) = Some d →
     doc_collection d = c ∧ doc_id d = id ∧ id_pattern id = true) →
  ∃ w', open_store w = (w', inr ()) ∧ store_wf w' ∧
    w_docs w' = disk_docs (recovered (w_disk w)) ∧ disk_journal (w_disk w') = None.
Proof.
  intros Hkey0. rewrite open_store_eq. set (w1 := update_field w_index _ _).
  assert (Hkey : ∀ c id d, w_docs w1 !! (c, id) = Some d →
     doc_collection d = c ∧ doc_id d = id ∧ id_pattern id = true) by exact Hkey0.
  assert (Hkey2 : ∀ c id d, w_docs w1 !! (c, id) = Some d → doc_collection d = c ∧ doc_id d = id)
    by (intros c id d Hd; by apply Hkey in Hd as (? & ? & _)).
  eexists. split; [done|].
  assert (Hfin : w_docs (foldl (λ w cd, index_document cd.1 cd.2 w) w1 (restart_list w1)) = w_docs w1)
    by apply index_all_docs.
  split_and!; [|by rewrite Hfin|rewrite index_all_disk; apply recovered_journal].
  set (g := set_docs (base.filter (λ kv, ¬ (kv.1.1 ∈ indexed ∧ doc_valid kv.2 = true)) (w_docs w1)) w1).
  assert (Hg : store_wf g).
  { apply unlisted_wf; [| |done].
    - intros c id d. unfold g. rewrite set_docs_docs, map_lookup_filter_Some. intros [Hd _]. by apply Hkey.
    - intros c id d. unfold g. rewrite set_docs_docs, map_lookup_filter_Some. cbn. intros [_ Hn] Hc.
      apply not_true_is_false. naive_solver. }
  destruct (insert_all_agree (restart_list w1) (w_docs g) (w_docs w1)) as (Hle & Hge & Hat).
  { intros cd Hcd. by apply elem_of_restart_list in Hcd as (_ & ? & _). }
  { apply map_filter_subseteq. }
  destruct (save_each_wf (restart_list w1) g) as (g' & Hg' & Hgd & Hgi); [|done|].
  { apply list.Forall_forall. intros [c d] Hcd.
    apply elem_of_restart_list in Hcd as (_ & Hd & _); [|done]. by apply Hkey in Hd as (? & _ & ?). }
  apply (store_wf_subset g'); [|rewrite Hgi; by apply index_all_ext|done].
  rewrite Hfin, Hgd. apply map_subseteq_spec. intros [c id] d Hd.
  destruct (decide (c ∈ indexed ∧ doc_valid d = true)) as [[Hc Hv]|Hn].
  - destruct (Hkey2 _ _ _ Hd) as [_ Hid]. specialize (Hat (c, d)). unfold doc_key in Hat. cbn in Hat.
    rewrite Hid in Hat. apply Hat. apply elem_of_restart_list; [done|]. unfold doc_key. cbn.
    by rewrite Hid.
  - eapply lookup_weaken; [|exact Hge]. unfold g. rewrite set_docs_docs, map_lookup_filter_Some. done.
Qed.
(** A restart rebuilds a consistent store.  Whatever a previous process
    left on disk (staging files, a half-applied journal), opening the store
    rolls back the unfinished write, keeps every other document, and leaves
    an index that is sound and complete for the documents that are there.
    The only assumption is that each file holds the document its path says. *)
Theorem open_store_establishes_wf w :
  (∀ c id d, w_docs w !! (c, id) = Some d →
     doc_collection d = c ∧ doc_id d = id ∧ id_pattern id = true) →
  ∃ w', open_store w = (w', inr ()) ∧ store_wf w' ∧
    w_docs w' = disk_docs (recovered (w_disk w)) ∧ disk_journal (w_disk w') = None.
Proof.
  intros Hkey. apply open_store_after_rollback. intros c id d Hd. apply Hkey.
  eapply lookup_weaken; [exact Hd|apply recovered_subset].
Qed.

(** A start of the store that dies part way: some of the steps of its recovery
    are done. *)
Definition crashed_start (k k' : Disk) : Prop := ∃ m, k' = run_fsops (take m (recover_ops k)) k.

Lemma crashed_starts_recovered k k' :
  rtc crashed_start k k' → disk_docs (recovered k') = disk_docs (recovered k).
Proof.
  induction 1 as [k|k1 k2 k3 [m ->] _ IH]; [done|]. rewrite IH. apply recover_restartable.
Qed.

End StoreTheorems.

(** A rejected [create_task_run] leaves no trace.  When some document has an
    illegal id or already exists, or two of them share an id, the call raises,
    and documents, index and journal are what they were. *)
Theorem create_task_run_rejected task run ws w :
  let documents := (tasks, DTask task) :: (runs, DRun run) :: map (λ x, (workspaces, DWorkspace x)) ws in
  disk_journal (w_disk w) = None →
  ¬ (Forall (creatable w) documents ∧ NoDup (map doc_key documents)) →
  ∃ w' e, store_create_task_run task run ws w = (w', inl e) ∧
    w_docs w' = w_docs w ∧ w_index w' = w_index w ∧ disk_journal (w_disk w') = None.
Proof.
  intros documents Hj Hbad. unfold store_create_task_run, mbind, eff_bind. fold documents.
  destruct (save_many_cases documents w) as
    [(w' & _ & ? & ? & _)|(w' & e & -> & _ & _ & Hd & Hj' & Hi)]; [by destruct Hbad|].
  exists w', e. auto.
Qed.

(** ** Concrete transactions *)

Definition demo_write : list (Collection * Doc) :=
  [(runs, DRun (demo_run "r7" "t" "c1" 20)); (runs, DRun (demo_run "r8" "t" "c1" 20))].

Definition creatableb (w : World) (cd : Collection * Doc) : bool :=
  id_pattern (doc_id cd.2) && bool_decide (w_docs w !! doc_key cd = None).

Lemma creatableb_true w l : forallb (creatableb w) l = true → Forall (creatable w) l.
Proof.
  rewrite forallb_forall, List.Forall_forall. intros H cd Hin. specialize (H cd Hin).
  apply andb_true_iff in H as [? ?%bool_decide_eq_true]. by split.
Qed.

(** Five steps into a write of two documents the journal and the first of them
    are in place; the next start that gets through removes both, after two
    starts that died. *)
Definition demo_crashed : Disk :=
  run_fsops (take 5 (commit_ops (w_uuid demo_queue (w_uuids demo_queue)) demo_write)) (w_disk demo_queue).
Definition demo_crashed_starts : Disk :=
  run_fsops (take 2 (recover_ops (run_fsops (take 1 (recover_ops demo_crashed)) demo_crashed)))
    (run_fsops (take 1 (recover_ops demo_crashed)) demo_crashed).


Lemma open_store_establishes_wf_witness :
  let crashed := (demo_queue <| w_disk :=
    run_fsops (take 5 (commit_ops "u0" demo_write)) (w_disk demo_queue) |>) in
  ∃ w', open_store (PF := plain_platform) crashed = (w', inr ()) ∧ store_wf w'.
Proof.
  intros crashed.
  destruct (open_store_establishes_wf (PF := plain_platform) crashed) as (w' & E & Hwf & _).
  - intros c id d Hd.
    assert (Hall : map_Forall (λ k d, doc_collection d = k.1 ∧ doc_id d = k.2 ∧ id_pattern k.2 = true)
      (w_docs crashed)) by by_decide.
    exact (Hall _ _ Hd).
  - exists w'. split; [exact E|exact Hwf].
Defined.

Definition demo_task (id : string) : CodeTask := {|
  task_schema_version := CONTROL_SCHEMA_VERSION; task_id := id; task_title := "Fix the build";
  task_prompt := "Fix the build"; task_engine_id := "codex"; task_project_id := None;
  task_resource_scope := {| scope_all_project_resources := true; scope_resource_ids := [] |};
  task_execution_project := None; task_repository_setup := None; task_source_contexts := [];
  task_deliveries := []; task_created_at := 5; task_updated_at := 5 |}.

Lemma create_task_run_rejected_witness :
  ∃ w' e, store_create_task_run (demo_task "t") (demo_run "r1" "t" "c1" 20) [] demo_queue = (w', inl e) ∧
    w_docs w' = w_docs demo_queue.
Proof.
  destruct (create_task_run_rejected (demo_task "t") (demo_run "r1" "t" "c1" 20) [] demo_queue)
    as (w' & e & E & Hd & _).
  - reflexivity.
  - intros [H _]. apply list.Forall_cons in H as [_ H]. apply list.Forall_cons in H as [[_ H] _].
    vm_compute in H. discriminate H.
  - exists w', e. split; [exact E|exact Hd].
Defined.
