(* ===== verification/SqlStore.v ===== *)
(** * The hosted control-plane store ([src/cowork/coding/sql_control_store.py],
    [src/cowork/models/code_control.py]).

    [SqlControlPlaneStore] keeps every document as one row of the table
    [code_control_records], keyed by tenant namespace, collection and document
    id.  Beside the payload a row has three projected columns (the computer and
    status of a run, the parent of anything that has one) that queries filter
    on.

    The table is a finite map.  A session is SQLAlchemy's: [session.add] of a
    new object and assignments to a loaded one stay in the session until a
    flush, and because the session factory is made with [autoflush=False] a
    query does not see them.  [session_write] is [sessionmaker.begin()]: it
    flushes and commits when the block returns and rolls back when it raises.
    An operation called by the callback of [update_run] joins the transaction
    that is open.  What other replicas do meanwhile shows in two sets: rows they
    hold locked ([SKIP LOCKED]) and keys they have inserted but not yet
    committed, which no query sees and on which an insert fails. *)
From stdpp Require Import base list gmap strings option sorting.
From Stdlib Require Import ZArith Lia.
From S2P Require Import Prelude ControlModels ControlWorld RunState ControlStore StoreJournal.

(** ** Rows *)

(** The primary key: namespace, collection, document id. *)
Abbreviation Key := (string * Collection * string)%type.

Definition key_ns (k : Key) : string := k.1.1.
Definition key_collection (k : Key) : Collection := k.1.2.
Definition key_document (k : Key) : string := k.2.

Record CodeControlRecord := {
  rec_payload : Doc;
  rec_assigned_computer_id : option string;
  rec_lifecycle_status : option string;
  rec_parent_id : option string;
  rec_revision : Z;
  rec_created_at : Z;
  rec_updated_at : Z;
}.

#[export] Instance fields_CodeControlRecord : Fields CodeControlRecord := λ r, {|
  rec_payload := rec_payload r; rec_assigned_computer_id := rec_assigned_computer_id r;
  rec_lifecycle_status := rec_lifecycle_status r; rec_parent_id := rec_parent_id r;
  rec_revision := rec_revision r; rec_created_at := rec_created_at r;
  rec_updated_at := rec_updated_at r |}.

(** [getattr(document, "run_id", None)]. *)
Definition doc_run_id (d : Doc) : option string :=
  match d with
  | DWorkspace x => Some (ws_run_id x)
  | DGrant x => Some (grant_run_id x)
  | DCommand x => Some (cmd_run_id x)
  | DRunCredential x => Some (tcred_run_id x)
  | DAudit x => audit_run_id x
  | _ => None
  end.

(** [_apply_projection]. *)
Definition apply_projection (c : Collection) (d : Doc) (record : CodeControlRecord) : CodeControlRecord :=
  match c, d with
  | runs, DRun r =>
      record <| rec_assigned_computer_id := Some (run_computer_id r) |>
             <| rec_lifecycle_status := Some (RunStatus_value (run_status r)) |>
             <| rec_parent_id := Some (run_task_id r) |>
  | _, _ =>
      record <| rec_assigned_computer_id := None |>
             <| rec_lifecycle_status := None |>
             <| rec_parent_id :=
                  if decide (c ∈ [workspaces; grants; commands; run_credentials; audit])
                  then (if truthy_opt (doc_run_id d) then doc_run_id d else None) else None |>
  end.

(** ** The database and the session *)

Abbreviation Table := (gmap Key CodeControlRecord).

Record SqlWorld := {
  (** The rows this transaction's queries see: committed or flushed. *)
  sql_rows : Table;
  (** Objects added to the session, assigned to, or marked deleted, since the
      last flush. *)
  sql_new : list (Key * CodeControlRecord);
  sql_dirty : Table;
  sql_deleted : list Key;
  (** [_active_session] is set. *)
  sql_active : bool;
  (** Rows locked, and keys inserted, by transactions of other replicas. *)
  sql_locked : gset Key;
  sql_rivals : gset Key;
  (** The clock; the documents of the local store in it are not used. *)
  sql_env : World;
}.

#[export] Instance fields_SqlWorld : Fields SqlWorld := λ s, {|
  sql_rows := sql_rows s; sql_new := sql_new s; sql_dirty := sql_dirty s;
  sql_deleted := sql_deleted s; sql_active := sql_active s; sql_locked := sql_locked s;
  sql_rivals := sql_rivals s; sql_env := sql_env s |}.

Abbreviation sql := (eff SqlWorld).

(** Code that uses the clock and not the store. *)
Definition env {A} (m : op A) : sql A := λ s,
  let '(w, r) := m (sql_env s) in (s <| sql_env := w |>, r).

Definition clear_session (s : SqlWorld) : SqlWorld :=
  s <| sql_new := [] |> <| sql_dirty := ∅ |> <| sql_deleted := [] |>.

(** The state of an object as the session holds it. *)
Definition in_session (s : SqlWorld) (k : Key) (row : CodeControlRecord) : CodeControlRecord :=
  default row (sql_dirty s !! k).

(** [session.get(CodeControlRecord, key)]. *)
Definition session_get (k : Key) : sql (option CodeControlRecord) :=
  gets (λ s, in_session s k <$> sql_rows s !! k).

(** [session.add] of a new object, and of one that was loaded and changed. *)
Definition session_add (k : Key) (row : CodeControlRecord) : sql () :=
  modify (λ s, s <| sql_new := sql_new s ++ [(k, row)] |>).
Definition session_update (k : Key) (row : CodeControlRecord) : sql () :=
  modify (λ s, s <| sql_dirty := <[k := row]> (sql_dirty s) |>).

(** [session.delete(row)]. *)
Definition session_delete (k : Key) : sql () :=
  modify (λ s, s <| sql_deleted := sql_deleted s ++ [k] |>).

(** Whether the pending inserts break the primary key. *)
Definition insertable (s : SqlWorld) : bool :=
  bool_decide (NoDup (map fst (sql_new s))) &&
  forallb (λ kr, bool_decide (sql_rows s !! kr.1 = None ∧ kr.1 ∉ sql_rivals s)) (sql_new s).

(** [session.flush()]. *)
Definition flush : sql () := λ s,
  if insertable s then
    (clear_session (s <| sql_rows := foldr delete (sql_dirty s ∪ (list_to_map (sql_new s) ∪ sql_rows s))
                                        (sql_deleted s) |>), inr ())
  else (s, inl (IntegrityError "UNIQUE constraint failed: code_control_records")).

(** [_session(write=True)]. *)
Definition session_write {A} (body : sql A) : sql A := λ s,
  if sql_active s then body s
  else
    match (x ← body; flush;; mret x) (clear_session s) with
    | (s', inr x) => (clear_session s', inr x)
    | (s', inl e) => (clear_session (s' <| sql_rows := sql_rows s |>), inl e)
    end.

(** [_session(write=False)]: a session with nothing pending, or the open one. *)
Definition session_read {A} (body : sql A) : sql A := λ s,
  if sql_active s then body s else body (clear_session s).

(** [_active_session.set(session)] ... [finally: reset(token)]. *)
Definition with_active {A} (body : sql A) : sql A := λ s,
  let '(s', r) := body (s <| sql_active := true |>) in (s' <| sql_active := sql_active s |>, r).

(** The rows a [WHERE] clause selects, in no particular order: the condition
    is evaluated on the table. *)
Definition rows_where {PF : Platform} (P : Key → CodeControlRecord → bool) (s : SqlWorld) :
    list (Key * CodeControlRecord) :=
  reorder (map_to_list (base.filter (λ kr, P kr.1 kr.2 = true) (sql_rows s))).

(** The objects the session returns for selected rows. *)
Definition objects (s : SqlWorld) (l : list (Key * CodeControlRecord)) : list (Key * CodeControlRecord) :=
  map (λ kr, (kr.1, in_session s kr.1 kr.2)) l.

(** [session.exec(delete(CodeControlRecord).where(...))]; the session forgets
    the objects of deleted rows. *)
Definition bulk_delete (P : Key → CodeControlRecord → bool) : sql () :=
  modify (λ s,
    let gone := base.filter (λ kr, P kr.1 kr.2 = true) (sql_rows s) in
    s <| sql_rows := sql_rows s ∖ gone |> <| sql_dirty := sql_dirty s ∖ gone |>).

(** [model.model_validate(row.payload)]. *)
Definition validate_payload (D : Type) `{!Document D} (row : CodeControlRecord) : sql D :=
  match unwrap (rec_payload row) with
  | Some x => if doc_valid (rec_payload row) then mret x else raise (ValidationError (model_name D))
  | None => raise (ValidationError (model_name D))
  end.

(** [__init__]: the namespace a store is bound to. *)
Definition sql_namespace (namespace_id : string) : exn + string :=
  let normalized := str_strip namespace_id in
  if negb (truthy normalized) || (128 <? String.length normalized)%nat
  then inl (ValueError "a valid control-plane namespace is required")
  else inr normalized.

Section SqlStore.
Context {PF : Platform} (ns : string).

(** The [WHERE] conditions on namespace and collection. *)
Definition in_collection (c : Collection) (k : Key) : bool :=
  bool_decide (key_ns k = ns) && bool_decide (key_collection k = c).

(** [_record]: the two timestamps are the defaults of the columns. *)
Definition sql_record (c : Collection) (d : Doc) : sql CodeControlRecord :=
  created ← env utc_now;
  updated ← env utc_now;
  mret (apply_projection c d {|
    rec_payload := d; rec_assigned_computer_id := None; rec_lifecycle_status := None;
    rec_parent_id := None; rec_revision := 1; rec_created_at := created;
    rec_updated_at := updated |}).

(** [_save]. *)
Definition sql_save (c : Collection) (d : Doc) : sql () :=
  session_write (
    row ← session_get (ns, c, doc_id d);
    match row with
    | None =>
        new ← sql_record c d;
        session_add (ns, c, doc_id d) new
    | Some row =>
        now ← env utc_now;
        let row := apply_projection c d (row <| rec_payload := d |>) in
        session_update (ns, c, doc_id d)
          (row <| rec_revision := (rec_revision row + 1)%Z |> <| rec_updated_at := now |>)
    end;;
    flush).

(** [_get]. *)
Definition sql_get (D : Type) `{!Document D} (document_id : string) : sql D :=
  session_read (
    row ← session_get (ns, collection_of D, document_id);
    match row with
    | None => raise (KeyError (String.append (model_name D) " not found"))
    | Some row => validate_payload D row
    end).

(** [_list]. *)
Definition sql_list (D : Type) `{!Document D} (parent : option string) : sql (list D) :=
  session_read (
    rows ← gets (λ s, objects s (sorted_desc (λ kr, rec_updated_at kr.2) (rows_where (λ k row,
      in_collection (collection_of D) k &&
      match parent with
      | None => true
      | Some p => bool_decide (rec_parent_id row = Some p)
      end) s)));
    map_each (λ kr, validate_payload D kr.2) rows).

(** [_locked_row]. *)
Definition locked_row (D : Type) `{!Document D} (document_id : string) : sql CodeControlRecord :=
  row ← gets (λ s, in_session s (ns, collection_of D, document_id) <$>
                     sql_rows s !! (ns, collection_of D, document_id));
  match row with
  | None => raise (KeyError (String.append (model_name D) " not found"))
  | Some row => mret row
  end.

(** ** The typed methods *)

Definition sql_save_computer (x : Computer) : sql Computer :=
  now ← env utc_now;
  let x := x <| cmp_updated_at := now |> in
  sql_save computers (DComputer x);; mret x.
Definition sql_get_computer (id : string) : sql Computer := sql_get Computer id.
Definition sql_list_computers : sql (list Computer) := sql_list Computer None.

Definition sql_save_task (x : CodeTask) : sql CodeTask :=
  now ← env utc_now;
  let x := x <| task_updated_at := now |> in
  sql_save tasks (DTask x);; mret x.
Definition sql_get_task (id : string) : sql CodeTask := sql_get CodeTask id.
Definition sql_list_tasks : sql (list CodeTask) := sql_list CodeTask None.

Definition sql_save_run (x : TaskRun) : sql TaskRun :=
  now ← env utc_now;
  let x := x <| run_updated_at := now |> in
  sql_save runs (DRun x);; mret x.
Definition sql_get_run (id : string) : sql TaskRun := sql_get TaskRun id.
Definition sql_list_runs : sql (list TaskRun) := sql_list TaskRun None.

Definition sql_save_workspace (x : ExecutionWorkspace) : sql ExecutionWorkspace :=
  now ← env utc_now;
  let x := x <| ws_updated_at := now |> in
  sql_save workspaces (DWorkspace x);; mret x.
Definition sql_list_workspaces (run_id : option string) : sql (list ExecutionWorkspace) :=
  sql_list ExecutionWorkspace run_id.

Definition sql_save_grant (x : ConnectorGrant) : sql ConnectorGrant :=
  sql_save grants (DGrant x);; mret x.
Definition sql_get_grant (id : string) : sql ConnectorGrant := sql_get ConnectorGrant id.
Definition sql_list_grants (run_id : option string) : sql (list ConnectorGrant) :=
  sql_list ConnectorGrant run_id.

(** [update_grant]: the two rows are locked and the grant written back; the
    callback sees both and does not use the store. *)
Definition sql_update_grant {A} (grant_id : string)
    (operation : ConnectorGrant → TaskRun → op (ConnectorGrant * A)) : sql (ConnectorGrant * A) :=
  session_write (
    row ← locked_row ConnectorGrant grant_id;
    grant ← validate_payload ConnectorGrant row;
    run_row ← locked_row TaskRun (grant_run_id grant);
    run ← validate_payload TaskRun run_row;
    '(grant, captured) ← env (operation grant run);
    now ← env utc_now;
    session_update (ns, grants, grant_id)
      (row <| rec_payload := DGrant grant |> <| rec_revision := (rec_revision row + 1)%Z |>
           <| rec_updated_at := now |>);;
    mret (grant, captured)).

Definition sql_save_command (x : RuntimeCommand) : sql RuntimeCommand :=
  sql_save commands (DCommand x);; mret x.
Definition sql_get_command (id : string) : sql RuntimeCommand := sql_get RuntimeCommand id.
Definition sql_list_commands (run_id : option string) : sql (list RuntimeCommand) :=
  sql_list RuntimeCommand run_id.

Definition sql_save_runtime_credential (x : RuntimeCredential) : sql RuntimeCredential :=
  sql_save runtime_credentials (DRuntimeCredential x);; mret x.
Definition sql_get_runtime_credential (id : string) : sql RuntimeCredential :=
  sql_get RuntimeCredential id.

Definition sql_save_registration_credential (x : RuntimeRegistrationCredential) :
    sql RuntimeRegistrationCredential :=
  sql_save registration_credentials (DRegistrationCredential x);; mret x.

Definition sql_consume_registration_credential (token_hash : string) (now : Z) : sql bool :=
  session_write (
    found ← catch (row ← locked_row RuntimeRegistrationCredential token_hash; mret (Some row))
              (λ e, if is_KeyError e then Some (mret None) else None);
    match found with
    | None => mret false
    | Some row =>
        credential ← validate_payload RuntimeRegistrationCredential row;
        if bool_decide (reg_consumed_at credential ≠ None) || (reg_expires_at credential <=? now)%Z
        then mret false
        else
          let credential := credential <| reg_consumed_at := Some now |> in
          session_update (ns, registration_credentials, token_hash)
            (row <| rec_payload := DRegistrationCredential credential |>
                 <| rec_revision := (rec_revision row + 1)%Z |> <| rec_updated_at := now |>);;
          mret true
    end).

Definition sql_save_run_credential (x : TaskRunCredential) : sql TaskRunCredential :=
  sql_save run_credentials (DRunCredential x);; mret x.
Definition sql_get_run_credential (id : string) : sql TaskRunCredential := sql_get TaskRunCredential id.

Definition sql_save_audit_event (x : SecurityAuditEvent) : sql SecurityAuditEvent :=
  session_write (
    row ← session_get (ns, audit, audit_id x);
    match row with
    | Some _ => raise (ValueError "security audit events are append-only")
    | None => new ← sql_record audit (DAudit x); session_add (ns, audit, audit_id x) new
    end);;
  mret x.
Definition sql_list_audit_events (run_id : option string) : sql (list SecurityAuditEvent) :=
  sql_list SecurityAuditEvent run_id.

(** [create_task_run]: rows that exist are refused one by one; what only the
    flush can see (a rival's insert, one document given twice) is refused by
    the primary key. *)
Definition add_document (cd : Collection * Doc) : sql () :=
  row ← session_get (ns, cd.1, doc_id cd.2);
  match row with
  | Some _ => raise (StateConflict (String.append (singular cd.1) " already exists"))
  | None => new ← sql_record cd.1 cd.2; session_add (ns, cd.1, doc_id cd.2) new
  end.

Definition is_IntegrityError (e : exn) : bool :=
  match e with IntegrityError _ => true | _ => false end.

Definition sql_create_task_run (task : CodeTask) (run : TaskRun) (ws : list ExecutionWorkspace) :
    sql (CodeTask * TaskRun * list ExecutionWorkspace) :=
  session_write (
    for_each ((tasks, DTask task) :: (runs, DRun run) :: map (λ x, (workspaces, DWorkspace x)) ws)
      add_document;;
    catch flush (λ e, if is_IntegrityError e
                      then Some (raise (StateConflict "task run already exists")) else None));;
  mret (task, run, ws).

Definition sql_delete_task (task_id : string) : sql () :=
  session_write (
    run_ids ← gets (λ s, map (λ kr, key_document kr.1) (rows_where (λ k row,
      in_collection runs k && bool_decide (rec_parent_id row = Some task_id)) s));
    (if bool_decide (run_ids = []) then mret () else
      bulk_delete (λ k row, bool_decide (key_ns k = ns) &&
        match rec_parent_id row with Some p => bool_decide (p ∈ run_ids) | None => false end);;
      bulk_delete (λ k row, in_collection runs k && bool_decide (key_document k ∈ run_ids)));;
    bulk_delete (λ k row, in_collection tasks k && bool_decide (key_document k = task_id))).

(** Whether [prune] removes a row; an invalid payload raises. *)
Definition should_remove (auxiliary_older_than audit_older_than : Z) (k : Key)
    (row : CodeControlRecord) : sql bool :=
  match key_collection k with
  | commands =>
      c ← validate_payload RuntimeCommand row;
      mret (match cmd_acked_at c with Some t => (t <? auxiliary_older_than)%Z | None => false end)
  | grants =>
      g ← validate_payload ConnectorGrant row;
      mret (or_instant (grant_revoked_at g) (grant_expires_at g) <? auxiliary_older_than)%Z
  | registration_credentials =>
      r ← validate_payload RuntimeRegistrationCredential row;
      mret (or_instant (reg_consumed_at r) (reg_expires_at r) <? auxiliary_older_than)%Z
  | audit =>
      e ← validate_payload SecurityAuditEvent row;
      mret (audit_created_at e <? audit_older_than)%Z
  | _ => mret false
  end.

Definition PRUNED_COLLECTIONS : list Collection := [commands; grants; registration_credentials; audit].

Definition sql_prune (auxiliary_older_than audit_older_than : Z) : sql Z :=
  session_write (
    rows ← gets (λ s, objects s (rows_where (λ k _,
      bool_decide (key_ns k = ns) && bool_decide (key_collection k ∈ PRUNED_COLLECTIONS)) s));
    removed ← map_each (λ kr,
      remove ← should_remove auxiliary_older_than audit_older_than kr.1 kr.2;
      if remove : bool then session_delete kr.1;; mret 1%Z else mret 0%Z) rows;
    mret (foldr Z.add 0%Z removed)).

(** The rows [claim_run] may take: queued or recovering on this computer,
    and not locked by another replica. *)
Definition claimable_row (computer_id : string) (locked : gset Key) (k : Key)
    (row : CodeControlRecord) : bool :=
  in_collection runs k && bool_decide (rec_assigned_computer_id row = Some computer_id) &&
  match rec_lifecycle_status row with
  | Some v => bool_decide (v ∈ [RunStatus_value queued; RunStatus_value recovering])
  | None => false
  end && bool_decide (k ∉ locked).

(** The query of [claim_run]: the oldest such row, which stays locked. *)
Definition claim_select (computer_id : string) : sql (option (Key * CodeControlRecord)) :=
  rows ← gets (λ s, rows_where (claimable_row computer_id (sql_locked s)) s);
  match rows with
  | [] => mret None
  | first :: rest =>
      let '(k, row) := min_by (λ kr, rec_created_at kr.2) first rest in
      row ← gets (λ s, in_session s k row);
      mret (Some (k, row))
  end.

(** What [claim_run] does with the row. *)
Definition claim_write (lease_id : string) (lease_expires_at : Z) (k : Key) (row : CodeControlRecord) :
    sql TaskRun :=
  run ← validate_payload TaskRun row;
  let run := run <| run_lease_id := Some lease_id |>
                 <| run_lease_expires_at := Some lease_expires_at |> in
  run ← env (transition_run run preparing None);
  now ← env utc_now;
  let run := run <| run_updated_at := now |> in
  let row := apply_projection runs (DRun run) (row <| rec_payload := DRun run |>) in
  session_update k (row <| rec_revision := (rec_revision row + 1)%Z |>
                        <| rec_updated_at := run_updated_at run |>);;
  mret run.

Definition sql_claim_run (computer_id lease_id : string) (lease_expires_at : Z) : sql (option TaskRun) :=
  session_write (
    found ← claim_select computer_id;
    match found with
    | None => mret None
    | Some (k, row) => run ← claim_write lease_id lease_expires_at k row; mret (Some run)
    end).

(** [run.model_dump(mode="json") == row.payload]. *)
Definition same_payload (run : TaskRun) (row : CodeControlRecord) : bool :=
  match rec_payload row with DRun r => bool_decide (r = run) | _ => false end.

(** [update_run]: the callback's own store calls join the transaction.  The
    row compared and written afterwards is the session's object, as the callback
    left it; writing to one whose row the callback deleted is refused by the
    session. *)
Definition sql_update_run (run_id : string) (operation : TaskRun → sql TaskRun) : sql TaskRun :=
  session_write (with_active (
    row ← locked_row TaskRun run_id;
    run ← validate_payload TaskRun row;
    run ← operation run;
    found ← session_get (ns, runs, run_id);
    let row := default row found in
    if same_payload run row then mret run
    else
      now ← env utc_now;
      let run := run <| run_updated_at := now |> in
      let row := apply_projection runs (DRun run) (row <| rec_payload := DRun run |>) in
      now ← env utc_now;
      raise_if (bool_decide (found = None)) (InvalidRequestError "Instance has been deleted");;
      session_update (ns, runs, run_id)
        (row <| rec_revision := (rec_revision row + 1)%Z |> <| rec_updated_at := now |>);;
      mret run)).
End SqlStore.

(** ** Well-typed rows *)

(** A row belongs to its key: the payload is a document of the collection with
    that id, the projected columns are those of the payload, and the revision
    counts from one. *)
Record row_wf (k : Key) (row : CodeControlRecord) : Prop := {
  rw_collection : doc_collection (rec_payload row) = key_collection k;
  rw_document : doc_id (rec_payload row) = key_document k;
  rw_projection : apply_projection (key_collection k) (rec_payload row) row = row;
  rw_revision : (1 <= rec_revision row)%Z;
}.

(** What the operations of the store of one namespace maintain.  [T] is the
    table they started from: rows of other namespaces stay as they are there,
    and nothing of another namespace is ever pending in the session. *)
Record sound (ns : string) (T : Table) (s : SqlWorld) : Prop := {
  sd_rows : ∀ k row, sql_rows s !! k = Some row → row_wf k row;
  sd_dirty : ∀ k row, sql_dirty s !! k = Some row → row_wf k row ∧ key_ns k = ns;
  sd_new : Forall (λ kr, row_wf kr.1 kr.2 ∧ key_ns kr.1 = ns) (sql_new s);
  sd_deleted : Forall (λ k, key_ns k = ns) (sql_deleted s);
  sd_others : ∀ k, key_ns k ≠ ns → sql_rows s !! k = T !! k;
}.

(** [keeps P m Q]: [m] keeps [P] whether it returns or raises, and what it
    returns satisfies [Q]. *)
Definition keeps {A} (P : SqlWorld → Prop) (m : sql A) (Q : A → Prop) : Prop :=
  ∀ s, P s → P (m s).1 ∧ ∀ a, (m s).2 = inr a → Q a.

Section Keeps.
Context (P : SqlWorld → Prop).

Lemma keeps_ret {A} (a : A) (Q : A → Prop) : Q a → keeps P (mret a) Q.
Proof. intros Ha s Hs. split; [done|]. by intros ? [= <-]. Qed.
Lemma keeps_raise {A} e (Q : A → Prop) : keeps P (raise e) Q.
Proof. intros s Hs. by split. Qed.
Lemma keeps_raise_if b e Q : Q () → keeps P (raise_if b e) Q.
Proof. destruct b; [intros _; apply keeps_raise|apply keeps_ret]. Qed.
Lemma keeps_gets {A} (f : SqlWorld → A) (Q : A → Prop) : (∀ s, P s → Q (f s)) → keeps P (gets f) Q.
Proof. intros Hf s Hs. split; [done|]. intros ? [= <-]. auto. Qed.
Lemma keeps_modify f (Q : () → Prop) : (∀ s, P s → P (f s)) → Q () → keeps P (modify f) Q.
Proof. intros Hf HQ s Hs. split; [by apply Hf|]. by intros []. Qed.
Lemma keeps_bind {A B} (m : sql A) (f : A → sql B) Q R :
  keeps P m Q → (∀ a, Q a → keeps P (f a) R) → keeps P (m ≫= f) R.
Proof.
  intros Hm Hf s Hs. destruct (Hm s Hs) as [H1 H2]. unfold mbind, eff_bind.
  destruct (m s) as [s1 [e|a]]; [done|]. apply Hf; [by apply H2|done].
Qed.
Lemma keeps_weaken {A} (m : sql A) (Q R : A → Prop) : keeps P m Q → (∀ a, Q a → R a) → keeps P m R.
Proof. intros Hm HQR s Hs. destruct (Hm s Hs). split; [done|]. eauto. Qed.
Lemma keeps_catch {A} (m : sql A) h (Q : A → Prop) :
  keeps P m Q → (∀ e k, h e = Some k → keeps P k Q) → keeps P (catch m h) Q.
Proof.
  intros Hm Hh s Hs. destruct (Hm s Hs) as [H1 H2]. unfold catch.
  destruct (m s) as [s1 [e|a]]; [|done]. destruct (h e) as [k|] eqn:E; [|done].
  by apply (Hh e k E).
Qed.
Lemma keeps_for_each {A} (l : list A) body Q :
  (∀ x, x ∈ l → keeps P (body x) (λ _, True)) → Q () → keeps P (for_each l body) Q.
Proof.
  intros Hb HQ. induction l as [|x l IH]; cbn; [by apply keeps_ret|].
  eapply keeps_bind; [apply Hb; set_solver|]. intros _ _. apply IH. set_solver.
Qed.
Lemma keeps_map_each {A B} (f : A → sql B) l :
  (∀ x, x ∈ l → keeps P (f x) (λ _, True)) → keeps P (map_each f l) (λ _, True).
Proof.
  intros Hb. induction l as [|x l IH]; cbn; [by apply keeps_ret|].
  eapply keeps_bind; [apply Hb; set_solver|]. intros y _.
  eapply keeps_bind; [apply IH; set_solver|]. intros ys _. by apply keeps_ret.
Qed.
End Keeps.

Lemma apply_projection_frame c d row :
  rec_payload (apply_projection c d row) = rec_payload row ∧
  rec_revision (apply_projection c d row) = rec_revision row ∧
  rec_created_at (apply_projection c d row) = rec_created_at row ∧
  rec_updated_at (apply_projection c d row) = rec_updated_at row.
Proof. by destruct c, d. Qed.

(** A row built from a document, or rebuilt around one, is well typed. *)
Lemma row_wf_projected ns c d row revision updated :
  doc_collection d = c → (1 <= revision)%Z →
  row_wf (ns, c, doc_id d)
    ((apply_projection c d (row <| rec_payload := d |>)) <| rec_revision := revision |>
       <| rec_updated_at := updated |>).
Proof. intros <- Hr. by destruct d. Qed.

Lemma row_wf_new ns c d created updated :
  doc_collection d = c →
  row_wf (ns, c, doc_id d) (apply_projection c d {|
    rec_payload := d; rec_assigned_computer_id := None; rec_lifecycle_status := None;
    rec_parent_id := None; rec_revision := 1; rec_created_at := created; rec_updated_at := updated |}).
Proof. intros <-. by destruct d. Qed.

Section Sound.
Context {PF : Platform} (ns : string) (T : Table).

Abbreviation ok := (sound ns T).

Lemma sound_env s w : ok s → ok (s <| sql_env := w |>).
Proof. intros []. by split. Qed.
Lemma sound_active s b : ok s → ok (s <| sql_active := b |>).
Proof. intros []. by split. Qed.
Lemma sound_clear s : ok s → ok (clear_session s).
Proof. intros []. split; cbn; try done. Qed.
Lemma sound_rollback s s' : ok s → ok s' → ok (clear_session (s' <| sql_rows := sql_rows s |>)).
Proof. intros [] []. split; cbn; try done. Qed.

Lemma env_keeps {A} (m : op A) (Q : A → Prop) :
  (∀ w a, (m w).2 = inr a → Q a) → keeps ok (env m) Q.
Proof.
  intros Hm s Hs. unfold env. specialize (Hm (sql_env s)). destruct (m (sql_env s)) as [w r].
  split; [by apply sound_env|]. exact Hm.
Qed.

Lemma in_session_wf s k row :
  ok s → in_session s k <$> sql_rows s !! k = Some row → row_wf k row.
Proof.
  intros Hs. destruct (sql_rows s !! k) as [r|] eqn:E; [|done]. cbn. intros [= <-].
  unfold in_session. destruct (sql_dirty s !! k) as [r'|] eqn:Ed; cbn; [|by eapply sd_rows].
  by apply (sd_dirty ns T s Hs) in Ed as [? _].
Qed.

Lemma session_get_keeps k : keeps ok (session_get k) (λ o, ∀ row, o = Some row → row_wf k row).
Proof. apply keeps_gets. intros s Hs row. by apply in_session_wf. Qed.

Lemma locked_row_keeps D `{!Document D} id :
  keeps ok (locked_row ns D id) (λ row, row_wf (ns, collection_of D, id) row).
Proof.
  eapply keeps_bind; [apply session_get_keeps|]. cbn. intros [row|] H; [|apply keeps_raise].
  apply keeps_ret. by apply H.
Qed.

Lemma session_add_keeps k row : row_wf k row → key_ns k = ns → keeps ok (session_add k row) (λ _, True).
Proof.
  intros Hw Hk. apply keeps_modify; [|done]. intros s []. split; cbn; try done.
  apply list.Forall_app. split; [done|]. apply list.Forall_cons. split; [done|constructor].
Qed.
Lemma session_update_keeps k row : row_wf k row → key_ns k = ns → keeps ok (session_update k row) (λ _, True).
Proof.
  intros Hw Hk. apply keeps_modify; [|done]. intros s []. split; cbn; try done.
  intros k' row' [[<- <-]|[_ H]]%lookup_insert_Some; [done|]. eauto.
Qed.
Lemma session_delete_keeps k : key_ns k = ns → keeps ok (session_delete k) (λ _, True).
Proof.
  intros Hk. apply keeps_modify; [|done]. intros s []. split; cbn; try done.
  apply list.Forall_app. split; [done|]. apply list.Forall_cons. split; [done|constructor].
Qed.
Lemma bulk_delete_keeps P :
  (∀ k row, P k row = true → key_ns k = ns) → keeps ok (bulk_delete P) (λ _, True).
Proof.
  intros HP. apply keeps_modify; [|done]. intros s []. split; cbn; try done.
  - intros k row [H _]%lookup_difference_Some. eauto.
  - intros k row [H _]%lookup_difference_Some. eauto.
  - intros k Hk. rewrite <-sd_others0 by done. apply option_eq. intros row.
    rewrite lookup_difference_Some, map_lookup_filter_None. split; [by intros [? _]|].
    intros H. split; [done|]. right. intros row' _ Hp. cbn in Hp. by apply HP in Hp.
Qed.

(** What a flush leaves under a key. *)
Lemma lookup_foldr_delete (m : Table) l k :
  foldr delete m l !! k = if decide (k ∈ l) then None else m !! k.
Proof.
  induction l as [|k' l IH]; cbn; [by rewrite decide_False by set_solver|].
  destruct (decide (k = k')) as [->|Hne].
  - rewrite lookup_delete_eq, decide_True; [done|set_solver].
  - rewrite lookup_delete_ne by done. rewrite IH.
    destruct (decide (k ∈ l)); [rewrite decide_True by set_solver|rewrite decide_False by set_solver]; done.
Qed.

Lemma flush_keeps : keeps ok flush (λ _, True).
Proof.
  intros s Hs. unfold flush. destruct (insertable s); [|by split]. split; [|done].
  pose proof Hs as []. split; cbn; try done.
  - intros k row. rewrite lookup_foldr_delete. destruct (decide _); [done|].
    intros [H|[_ [H|[_ H]]%lookup_union_Some_raw]]%lookup_union_Some_raw; [by apply sd_dirty0 in H as [? _]| |eauto].
    apply elem_of_list_to_map_2 in H. rewrite list.Forall_forall in sd_new0.
    by apply sd_new0 in H as [? _].
  - intros k Hk. rewrite lookup_foldr_delete, decide_False, <-sd_others0; [|done|].
    + rewrite lookup_union_r, lookup_union_r; [done| |].
      * apply not_elem_of_list_to_map_1. intros (kr & -> & Hkr)%list_elem_of_fmap.
        rewrite list.Forall_forall in sd_new0. by apply sd_new0 in Hkr as [_ ?].
      * destruct (sql_dirty s !! k) eqn:E; [|done]. by apply sd_dirty0 in E as [_ ?].
    + rewrite list.Forall_forall in sd_deleted0. intros Hin. by apply sd_deleted0 in Hin.
Qed.

Lemma session_write_keeps {A} (body : sql A) Q : keeps ok body Q → keeps ok (session_write body) Q.
Proof.
  intros Hb s Hs. unfold session_write. destruct (sql_active s); [by apply Hb|].
  assert (Hk : keeps ok (x ← body; flush;; mret x) Q).
  { eapply keeps_bind; [exact Hb|]. intros x Hx. eapply keeps_bind; [apply flush_keeps|].
    intros _ _. by apply keeps_ret. }
  destruct (Hk (clear_session s) (sound_clear s Hs)) as [H1 H2].
  revert H1 H2. generalize ((x ← body; flush;; mret x) (clear_session s)).
  intros [s' [e|x]] H1 H2; (split; [|done]).
  - by apply sound_rollback.
  - by apply sound_clear.
Qed.
Lemma session_read_keeps {A} (body : sql A) Q : keeps ok body Q → keeps ok (session_read body) Q.
Proof.
  intros Hb s Hs. unfold session_read. destruct (sql_active s); [by apply Hb|].
  by apply Hb, sound_clear.
Qed.
Lemma with_active_keeps {A} (body : sql A) Q : keeps ok body Q → keeps ok (with_active body) Q.
Proof.
  intros Hb s Hs. unfold with_active.
  destruct (Hb _ (sound_active s true Hs)) as [H1 H2]. destruct (body _) as [s' r].
  split; [by apply sound_active|done].
Qed.

Lemma validate_payload_keeps D `{!Document D} row :
  keeps ok (validate_payload D row) (λ x, rec_payload row = wrap x).
Proof.
  unfold validate_payload. destruct (unwrap (rec_payload row)) as [x|] eqn:E; [|apply keeps_raise].
  destruct (doc_valid _); [|apply keeps_raise]. apply keeps_ret. by apply unwrap_inv.
Qed.
End Sound.

(** ** Every operation keeps the table sound *)

Section SoundOperations.
Context {PF : Platform} (ns : string) (T : Table).

Abbreviation ok := (sound ns T).

Lemma utc_now_keeps : keeps ok (env utc_now) (λ _, True).
Proof. by apply env_keeps. Qed.

Lemma sql_record_keeps c d :
  doc_collection d = c → keeps ok (sql_record c d) (row_wf (ns, c, doc_id d)).
Proof.
  intros Hd. eapply keeps_bind; [apply utc_now_keeps|]. intros t _.
  eapply keeps_bind; [apply utc_now_keeps|]. intros t' _. by apply keeps_ret, row_wf_new.
Qed.

Lemma sql_save_keeps c d : doc_collection d = c → keeps ok (sql_save ns c d) (λ _, True).
Proof.
  intros Hd. apply session_write_keeps.
  eapply keeps_bind; [apply session_get_keeps|]. intros row Hrow.
  eapply keeps_bind; [|intros _ _; apply flush_keeps]. destruct row as [row|].
  - eapply keeps_bind; [apply utc_now_keeps|]. intros now _.
    apply session_update_keeps; [|done]. apply row_wf_projected; [done|].
    destruct (apply_projection_frame c d (row <| rec_payload := d |>)) as (_ & -> & _).
    destruct (Hrow row eq_refl). cbn. lia.
  - eapply keeps_bind; [by apply sql_record_keeps|]. intros row Hw. by apply session_add_keeps.
Qed.

Lemma sql_get_keeps D `{!Document D} id : keeps ok (sql_get ns D id) (λ _, True).
Proof.
  apply session_read_keeps. eapply keeps_bind; [apply session_get_keeps|].
  intros [row|] _; [|apply keeps_raise]. eapply keeps_weaken; [apply validate_payload_keeps|done].
Qed.

Lemma sql_list_keeps D `{!Document D} p : keeps ok (sql_list ns D p) (λ _, True).
Proof.
  apply session_read_keeps. eapply (keeps_bind _ _ _ (λ _, True)); [by apply keeps_gets|]. intros l _.
  apply keeps_map_each. intros kr _. eapply keeps_weaken; [apply validate_payload_keeps|done].
Qed.

(** A row that keeps its key columns may get a new payload. *)
Lemma row_wf_payload k row d revision updated :
  row_wf k row → doc_collection d = key_collection k → doc_id d = key_document k →
  apply_projection (key_collection k) d row = row → (1 <= revision)%Z →
  row_wf k (row <| rec_payload := d |> <| rec_revision := revision |> <| rec_updated_at := updated |>).
Proof.
  intros [] Hc Hd Hp Hr. split; cbn [rec_payload rec_revision update_field]; try done.
  rewrite <-Hp at 2. by destruct (key_collection k), d.
Qed.

Lemma sql_update_grant_keeps {A} id (f : ConnectorGrant → TaskRun → op (ConnectorGrant * A)) :
  (∀ g r w g' a, (f g r w).2 = inr (g', a) → grant_id g' = grant_id g ∧ grant_run_id g' = grant_run_id g) →
  keeps ok (sql_update_grant ns id f) (λ _, True).
Proof.
  intros Hf. apply session_write_keeps.
  eapply keeps_bind; [apply (locked_row_keeps ns T ConnectorGrant)|]. intros row Hrow.
  eapply keeps_bind; [apply validate_payload_keeps|]. intros g Hg.
  eapply keeps_bind; [apply (locked_row_keeps ns T TaskRun)|]. intros rrow _.
  eapply keeps_bind; [apply validate_payload_keeps|]. intros r _.
  eapply keeps_bind; [apply env_keeps, (λ w a H, Hf g r w a.1 a.2 (eq_trans H (f_equal inr (surjective_pairing a))))|].
  intros [g' a] [Hi Hr]. cbn in Hi, Hr.
  eapply keeps_bind; [apply utc_now_keeps|]. intros now _.
  eapply keeps_bind; [|intros _ _; by apply keeps_ret].
  apply session_update_keeps; [|done].
  destruct Hrow as [Hc Hd Hp Hv]. rewrite Hg in Hc, Hd, Hp. cbn in Hc, Hd, Hp.
  apply row_wf_payload; cbn; [by split; rewrite ?Hg|done|congruence| |lia].
  rewrite Hr. exact Hp.
Qed.

Lemma sql_consume_keeps h now : keeps ok (sql_consume_registration_credential ns h now) (λ _, True).
Proof.
  apply session_write_keeps.
  eapply (keeps_bind _ _ _ (λ o, ∀ row, o = Some row → row_wf (ns, registration_credentials, h) row)).
  { apply keeps_catch.
    - eapply keeps_bind; [apply (locked_row_keeps ns T RuntimeRegistrationCredential)|].
      intros row Hrow. apply keeps_ret. by intros ? [= <-].
    - intros e k. destruct (is_KeyError e); intros [= <-]. by apply keeps_ret. }
  intros [row|] Hrow; [|by apply keeps_ret]. specialize (Hrow row eq_refl).
  eapply keeps_bind; [apply validate_payload_keeps|]. intros c Hc.
  destruct (_ || _); [by apply keeps_ret|].
  eapply keeps_bind; [|intros _ _; by apply keeps_ret]. apply session_update_keeps; [|done].
  destruct Hrow as [H1 H2 H3 H4]. rewrite Hc in H1, H2, H3. cbn in H1, H2, H3.
  apply row_wf_payload; cbn; [by split; rewrite ?Hc|done|done|exact H3|lia].
Qed.

Lemma sql_save_audit_event_keeps x : keeps ok (sql_save_audit_event ns x) (λ _, True).
Proof.
  eapply (keeps_bind _ _ _ (λ _, True)); [|intros; by apply keeps_ret]. apply session_write_keeps.
  eapply keeps_bind; [apply session_get_keeps|]. intros [row|] _; [apply keeps_raise|].
  eapply keeps_bind; [by apply (sql_record_keeps audit (DAudit x))|].
  intros row Hw. by apply session_add_keeps.
Qed.

Lemma add_document_keeps cd : doc_collection cd.2 = cd.1 → keeps ok (add_document ns cd) (λ _, True).
Proof.
  intros Hd. eapply keeps_bind; [apply session_get_keeps|]. intros [row|] _; [apply keeps_raise|].
  eapply keeps_bind; [by apply sql_record_keeps|]. intros row Hw. by apply session_add_keeps.
Qed.

Lemma sql_create_task_run_keeps t r ws : keeps ok (sql_create_task_run ns t r ws) (λ _, True).
Proof.
  eapply (keeps_bind _ _ _ (λ _, True)); [|intros; by apply keeps_ret]. apply session_write_keeps.
  eapply (keeps_bind _ _ _ (λ _, True)).
  - apply keeps_for_each; [|done]. intros cd Hcd. apply add_document_keeps.
    apply elem_of_cons in Hcd as [->|[->|(x & -> & _)%list_elem_of_fmap]%elem_of_cons]; done.
  - intros _ _. apply keeps_catch; [apply flush_keeps|]. intros e k.
    destruct (is_IntegrityError e); intros [= <-]. apply keeps_raise.
Qed.

Lemma in_collection_ns c k : in_collection ns c k = true → key_ns k = ns.
Proof. unfold in_collection. intros [H _]%andb_true_iff. by apply bool_decide_eq_true in H. Qed.

Lemma sql_delete_task_keeps t : keeps ok (sql_delete_task ns t) (λ _, True).
Proof.
  apply session_write_keeps. eapply (keeps_bind _ _ _ (λ _, True)); [by apply keeps_gets|]. intros ids _.
  eapply (keeps_bind _ _ _ (λ _, True)).
  - destruct (bool_decide (ids = [])); [by apply keeps_ret|].
    eapply keeps_bind; [apply bulk_delete_keeps|intros _ _; apply bulk_delete_keeps].
    + intros k row [H _]%andb_true_iff. by apply bool_decide_eq_true in H.
    + intros k row [H _]%andb_true_iff. by apply in_collection_ns in H.
  - intros _ _. apply bulk_delete_keeps. intros k row [H _]%andb_true_iff. by apply in_collection_ns in H.
Qed.

Lemma should_remove_keeps a b k row : keeps ok (should_remove a b k row) (λ _, True).
Proof.
  unfold should_remove. destruct (key_collection k); try (by apply keeps_ret);
    (eapply keeps_bind; [apply validate_payload_keeps|intros; by apply keeps_ret]).
Qed.

Lemma elem_of_rows_where P s k row :
  (k, row) ∈ rows_where P s ↔ sql_rows s !! k = Some row ∧ P k row = true.
Proof.
  unfold rows_where. rewrite reorder_perm, elem_of_map_to_list, map_lookup_filter_Some. done.
Qed.

Lemma elem_of_objects s l k row :
  (k, row) ∈ objects s l ↔ ∃ r, (k, r) ∈ l ∧ row = in_session s k r.
Proof.
  unfold objects. rewrite list_elem_of_fmap. split.
  - intros ([k' r] & [= -> ->] & H). eauto.
  - intros (r & H & ->). by exists (k, r).
Qed.

Lemma sql_prune_keeps a b : keeps ok (sql_prune ns a b) (λ _, True).
Proof.
  apply session_write_keeps.
  eapply (keeps_bind _ _ _ (λ l, ∀ kr, kr ∈ l → key_ns kr.1 = ns)).
  - apply keeps_gets. intros s Hs [k row] (r & H & _)%elem_of_objects.
    apply elem_of_rows_where in H as [_ [H _]%andb_true_iff]. by apply bool_decide_eq_true in H.
  - intros l Hl. eapply keeps_bind; [|intros; by apply keeps_ret].
    apply keeps_map_each. intros kr Hkr.
    eapply keeps_bind; [apply should_remove_keeps|]. intros [] _; [|by apply keeps_ret].
    eapply keeps_bind; [by apply session_delete_keeps, Hl|intros; by apply keeps_ret].
Qed.

Lemma transition_run_id run target error w r : (transition_run run target error w).2 = inr r → run_id r = run_id run.
Proof.
  intros H. destruct (transition_run run target error w) as [w' r'] eqn:E. cbn in H. subst r'.
  by apply transition_run_inv in E as (_ & _ & ? & _).
Qed.

(** The row a claim or an update of a run writes. *)
Lemma write_run_keeps k row run revision updated :
  row_wf k row → key_collection k = runs → key_ns k = ns → run_id run = key_document k →
  (1 <= revision)%Z →
  keeps ok (session_update k
    ((apply_projection runs (DRun run) (row <| rec_payload := DRun run |>)) <| rec_revision := revision |>
       <| rec_updated_at := updated |>)) (λ _, True).
Proof.
  destruct k as [[n c] id]. cbn. intros Hw -> -> <- Hr. apply session_update_keeps; [|done].
  by apply (row_wf_projected ns runs (DRun run)).
Qed.

Lemma claim_select_keeps c :
  keeps ok (claim_select ns c) (λ o, ∀ k row, o = Some (k, row) →
    row_wf k row ∧ key_ns k = ns ∧ key_collection k = runs).
Proof.
  eapply (keeps_bind _ _ _ (λ rows, ∀ k row, (k, row) ∈ rows → row_wf k row ∧ key_ns k = ns ∧ key_collection k = runs)).
  { apply keeps_gets. intros s Hs k row [H1 H2]%elem_of_rows_where. split; [by eapply sd_rows|].
    unfold claimable_row, in_collection in H2. rewrite !andb_true_iff, !bool_decide_eq_true in H2. naive_solver. }
  intros [|first rest] Hrows; [by apply keeps_ret|].
  destruct (min_by _ first rest) as [k row0] eqn:Em.
  assert (Hin : (k, row0) ∈ first :: rest) by (rewrite <-Em; apply min_by_elem).
  destruct (Hrows _ _ Hin) as (Hw0 & Hns & Hc).
  eapply (keeps_bind _ _ _ (λ row, row_wf k row)).
  { apply keeps_gets. intros s Hs. unfold in_session. destruct (sql_dirty s !! k) eqn:E; cbn; [|done].
    by apply (sd_dirty ns T s Hs) in E as [? _]. }
  intros row Hw. apply keeps_ret. by intros ? ? [= <- <-].
Qed.

Lemma claim_write_keeps l e k row :
  row_wf k row → key_ns k = ns → key_collection k = runs → keeps ok (claim_write l e k row) (λ _, True).
Proof.
  intros Hw Hns Hc. eapply keeps_bind; [apply validate_payload_keeps|]. intros run Hrun.
  eapply keeps_bind; [apply env_keeps; intros w r; apply transition_run_id|]. intros run' Hid.
  eapply keeps_bind; [apply utc_now_keeps|]. intros now _. cbn zeta.
  eapply keeps_bind; [|intros; by apply keeps_ret].
  pose proof Hw as [_ Hd _ Hr]. apply write_run_keeps; try done.
  - cbn. rewrite Hid. cbn. rewrite <-Hd, Hrun. done.
  - cbn. lia.
Qed.

Lemma sql_claim_run_keeps c l e : keeps ok (sql_claim_run ns c l e) (λ _, True).
Proof.
  apply session_write_keeps. eapply keeps_bind; [apply claim_select_keeps|].
  intros [[k row]|] H; [|by apply keeps_ret]. destruct (H k row eq_refl) as (? & ? & ?).
  eapply keeps_bind; [by apply claim_write_keeps|]. intros; by apply keeps_ret.
Qed.

Lemma sql_update_run_keeps id f :
  (∀ run, keeps ok (f run) (λ run', run_id run' = run_id run)) →
  keeps ok (sql_update_run ns id f) (λ _, True).
Proof.
  intros Hf. apply session_write_keeps, with_active_keeps.
  eapply keeps_bind; [apply (locked_row_keeps ns T TaskRun)|]. intros row0 Hw0.
  eapply keeps_bind; [apply validate_payload_keeps|]. intros run0 Hrun0.
  eapply keeps_bind; [apply Hf|]. intros run Hid.
  eapply keeps_bind; [apply session_get_keeps|]. intros found Hfound. cbn zeta.
  assert (Hw : row_wf (ns, runs, id) (default row0 found)) by (destruct found; [by apply Hfound|done]).
  destruct (same_payload _ _); [by apply keeps_ret|].
  eapply keeps_bind; [apply utc_now_keeps|]. intros now _.
  eapply keeps_bind; [apply utc_now_keeps|]. intros now' _.
  eapply (keeps_bind _ _ _ (λ _, True)); [by apply keeps_raise_if|]. intros _ _.
  eapply keeps_bind; [|intros; by apply keeps_ret].
  apply write_run_keeps; try done.
  - cbn. rewrite Hid. destruct Hw0 as [_ Hd _ _]. rewrite Hrun0 in Hd. exact Hd.
  - destruct Hw as [_ _ _ Hr]. cbn. lia.
Qed.
End SoundOperations.
