(* ===== verification/SqlTenants.v ===== *)
(** * Tenant isolation of the hosted store.

    A [SqlControlPlaneStore] ([src/cowork/coding/sql_control_store.py]) is bound
    to one namespace.  [store_program] is the code that can be written against
    it: any composition of its methods with pure computation, exceptions and
    handlers, [update_run] callbacks included.  By rule induction such a program
    keeps every row of the table well typed, leaves the rows of other namespaces
    alone, and computes the same on any two databases that agree on its own
    namespace. *)
From stdpp Require Import base list gmap strings option.
From Stdlib Require Import ZArith Lia.
From S2P Require Import Prelude ControlModels ControlWorld RunState ControlStore StoreJournal SqlStore.

(** ** What an operation depends on

    Two databases look the same to the store of one namespace when they have
    the same rows, locks and rival inserts in that namespace; the sessions and
    clocks are the same. *)
Record same_view (ns : string) (s1 s2 : SqlWorld) : Prop := {
  sv_rows : ∀ k, key_ns k = ns → sql_rows s1 !! k = sql_rows s2 !! k;
  sv_locked : ∀ k, key_ns k = ns → k ∈ sql_locked s1 ↔ k ∈ sql_locked s2;
  sv_rivals : ∀ k, key_ns k = ns → k ∈ sql_rivals s1 ↔ k ∈ sql_rivals s2;
  sv_new : sql_new s1 = sql_new s2;
  sv_own : Forall (λ kr, key_ns kr.1 = ns) (sql_new s1);
  sv_dirty : sql_dirty s1 = sql_dirty s2;
  sv_deleted : sql_deleted s1 = sql_deleted s2;
  sv_active : sql_active s1 = sql_active s2;
  sv_env : sql_env s1 = sql_env s2;
}.

(** [blind ns m]: on databases that look the same to [ns], [m] does the same. *)
Definition blind (ns : string) {A} (m : sql A) : Prop :=
  ∀ s1 s2, same_view ns s1 s2 → same_view ns (m s1).1 (m s2).1 ∧ (m s1).2 = (m s2).2.

Create HintDb blind.

Section Blind.
Context {PF : Platform} (ns : string).

Lemma blind_ret {A} (a : A) : blind ns (mret a).
Proof. by intros s1 s2 H. Qed.
Lemma blind_raise {A} e : blind ns (raise (A:=A) e).
Proof. by intros s1 s2 H. Qed.
Lemma blind_raise_if b e : blind ns (raise_if b e).
Proof. destruct b; [apply blind_raise|apply blind_ret]. Qed.
Lemma blind_gets {A} (f : SqlWorld → A) :
  (∀ s1 s2, same_view ns s1 s2 → f s1 = f s2) → blind ns (gets f).
Proof. intros Hf s1 s2 H. split; [done|]. cbn. by rewrite (Hf s1 s2 H). Qed.
Lemma blind_modify f :
  (∀ s1 s2, same_view ns s1 s2 → same_view ns (f s1) (f s2)) → blind ns (modify f).
Proof. intros Hf s1 s2 H. split; [by apply Hf|done]. Qed.
Lemma blind_bind {A B} (m : sql A) (f : A → sql B) :
  blind ns m → (∀ a, blind ns (f a)) → blind ns (m ≫= f).
Proof.
  intros Hm Hf s1 s2 H. destruct (Hm s1 s2 H) as [H1 H2]. unfold mbind, eff_bind.
  destruct (m s1) as [t1 [e1|a1]], (m s2) as [t2 [e2|a2]]; cbn in H1, H2; simplify_eq; [done|].
  by apply Hf.
Qed.
Lemma blind_catch {A} (m : sql A) h :
  blind ns m → (∀ e k, h e = Some k → blind ns k) → blind ns (catch m h).
Proof.
  intros Hm Hh s1 s2 H. destruct (Hm s1 s2 H) as [H1 H2]. unfold catch.
  destruct (m s1) as [t1 [e1|a1]], (m s2) as [t2 [e2|a2]]; cbn in H1, H2; simplify_eq; [|done].
  destruct (h e2) as [k|] eqn:E; [|done]. by apply (Hh e2 k E).
Qed.
Lemma blind_for_each {A} (l : list A) body : (∀ x, blind ns (body x)) → blind ns (for_each l body).
Proof. intros Hb. induction l; cbn; [apply blind_ret|by apply blind_bind]. Qed.
Lemma blind_map_each {A B} (f : A → sql B) l : (∀ x, blind ns (f x)) → blind ns (map_each f l).
Proof.
  intros Hb. induction l; cbn; [apply blind_ret|]. apply blind_bind; [done|]. intros y.
  apply blind_bind; [done|]. intros ys. apply blind_ret.
Qed.
Lemma blind_env {A} (m : op A) : blind ns (env m).
Proof.
  intros s1 s2 H. unfold env. rewrite (sv_env ns s1 s2 H). destruct (m (sql_env s2)) as [w r].
  split; [|done]. destruct H. by split.
Qed.

Lemma same_view_clear s1 s2 : same_view ns s1 s2 → same_view ns (clear_session s1) (clear_session s2).
Proof. intros []. split; cbn; try done. Qed.
Lemma same_view_active s1 s2 b :
  same_view ns s1 s2 → same_view ns (s1 <| sql_active := b |>) (s2 <| sql_active := b |>).
Proof. intros []. by split. Qed.

Lemma session_get_blind k : key_ns k = ns → blind ns (session_get k).
Proof.
  intros Hk. apply blind_gets. intros s1 s2 H. unfold in_session.
  by rewrite (sv_rows ns s1 s2 H k Hk), (sv_dirty ns s1 s2 H).
Qed.
Lemma session_add_blind k row : key_ns k = ns → blind ns (session_add k row).
Proof.
  intros Hk. apply blind_modify. intros s1 s2 []. split; cbn; try done; [congruence|].
  apply list.Forall_app. split; [done|]. apply list.Forall_cons. split; [done|constructor].
Qed.
Lemma session_update_blind k row : blind ns (session_update k row).
Proof. apply blind_modify. intros s1 s2 []. split; cbn; try done. congruence. Qed.
Lemma session_delete_blind k : blind ns (session_delete k).
Proof. apply blind_modify. intros s1 s2 []. split; cbn; try done. congruence. Qed.

Lemma insertable_view s1 s2 : same_view ns s1 s2 → insertable s1 = insertable s2.
Proof.
  intros [Hrows _ Hrivals Hnew Hown _ _ _ _]. unfold insertable. rewrite <-Hnew. clear Hnew. f_equal.
  induction (sql_new s1) as [|kr l IH]; [done|]. apply list.Forall_cons in Hown as [Hk Hown].
  cbn. rewrite IH by done. f_equal. apply bool_decide_ext. rewrite (Hrows _ Hk). naive_solver.
Qed.

Lemma flush_blind : blind ns flush.
Proof.
  intros s1 s2 H. unfold flush. rewrite (insertable_view s1 s2 H).
  destruct (insertable s2); [|done]. split; [|done]. destruct H. split; cbn; try done.
  intros k Hk. rewrite !lookup_foldr_delete, !lookup_union, sv_dirty0, sv_new0, (sv_rows0 k Hk).
  by rewrite sv_deleted0.
Qed.

Lemma session_write_blind {A} (body : sql A) : blind ns body → blind ns (session_write body).
Proof.
  intros Hb s1 s2 H. unfold session_write. rewrite (sv_active ns s1 s2 H).
  destruct (sql_active s2); [by apply Hb|].
  assert (Hk : blind ns (x ← body; flush;; mret x)).
  { apply blind_bind; [done|]. intros x. apply blind_bind; [apply flush_blind|]. intros _. apply blind_ret. }
  destruct (Hk _ _ (same_view_clear s1 s2 H)) as [H1 H2]. revert H1 H2.
  generalize ((x ← body; flush;; mret x) (clear_session s1)), ((x ← body; flush;; mret x) (clear_session s2)).
  intros [t1 [e1|a1]] [t2 [e2|a2]] H1 H2; cbn in H1, H2; simplify_eq; (split; [|done]).
  - apply same_view_clear. destruct H1. split; cbn; try done. apply (sv_rows ns s1 s2 H).
  - by apply same_view_clear.
Qed.
Lemma session_read_blind {A} (body : sql A) : blind ns body → blind ns (session_read body).
Proof.
  intros Hb s1 s2 H. unfold session_read. rewrite (sv_active ns s1 s2 H).
  destruct (sql_active s2); [by apply Hb|]. by apply Hb, same_view_clear.
Qed.
Lemma with_active_blind {A} (body : sql A) : blind ns body → blind ns (with_active body).
Proof.
  intros Hb s1 s2 H. unfold with_active. rewrite (sv_active ns s1 s2 H).
  destruct (Hb _ _ (same_view_active s1 s2 true H)) as [H1 H2].
  destruct (body (s1 <| sql_active := true |>)), (body (s2 <| sql_active := true |>)).
  split; [by apply same_view_active|done].
Qed.

(** A query whose condition names the namespace. *)
Lemma filter_view P1 P2 s1 s2 :
  same_view ns s1 s2 → (∀ k row, P1 k row = true → key_ns k = ns) →
  (∀ k row, P2 k row = true → key_ns k = ns) → (∀ k row, key_ns k = ns → P1 k row = P2 k row) →
  base.filter (λ kr, P1 kr.1 kr.2 = true) (sql_rows s1) =
  base.filter (λ kr : Key * CodeControlRecord, P2 kr.1 kr.2 = true) (sql_rows s2).
Proof.
  intros H HP1 HP2 HP. apply map_eq. intros k. apply option_eq. intros row.
  rewrite !map_lookup_filter_Some. cbn. destruct (decide (key_ns k = ns)) as [Hk|Hk].
  - by rewrite (sv_rows ns s1 s2 H k Hk), HP.
  - split; intros [_ ?]; exfalso; eauto.
Qed.
Lemma rows_where_view P1 P2 s1 s2 :
  same_view ns s1 s2 → (∀ k row, P1 k row = true → key_ns k = ns) →
  (∀ k row, P2 k row = true → key_ns k = ns) → (∀ k row, key_ns k = ns → P1 k row = P2 k row) →
  rows_where P1 s1 = rows_where P2 s2.
Proof. intros H H1 H2 H3. unfold rows_where. by rewrite (filter_view P1 P2 s1 s2 H H1 H2 H3). Qed.

Lemma objects_view s1 s2 l : same_view ns s1 s2 → objects s1 l = objects s2 l.
Proof.
  intros H. unfold objects. apply map_ext. intros kr. unfold in_session. by rewrite (sv_dirty ns s1 s2 H).
Qed.

Lemma bulk_delete_blind P : (∀ k row, P k row = true → key_ns k = ns) → blind ns (bulk_delete P).
Proof.
  intros HP. apply blind_modify. intros s1 s2 H.
  pose proof (filter_view P P s1 s2 H HP HP (λ _ _ _, eq_refl)) as E.
  destruct H. split; cbn; try done.
  - intros k Hk. by rewrite !lookup_difference, (sv_rows0 k Hk), E.
  - by rewrite E, sv_dirty0.
Qed.
End Blind.

#[export] Hint Resolve blind_ret blind_raise blind_raise_if blind_env session_add_blind
  session_get_blind session_update_blind session_delete_blind flush_blind : blind.

(** Walks through an operation; what is left are its queries. *)
Ltac walk_blind :=
  repeat first
    [ progress intros
    | solve [eauto 2 with blind]
    | apply session_write_blind
    | apply session_read_blind
    | apply with_active_blind
    | apply blind_for_each
    | apply blind_map_each
    | apply blind_catch
    | apply blind_bind
    | progress cbn zeta
    | match goal with
      | |- blind _ (match ?x with _ => _ end) => destruct x
      | |- blind _ (if ?b then _ else _) => destruct b
      | H : (if ?b then Some _ else None) = Some _ |- _ => destruct b; simplify_eq
      end ].

Section BlindOperations.
Context {PF : Platform} (ns : string).

Lemma validate_payload_blind D `{!Document D} row : blind ns (validate_payload D row).
Proof. unfold validate_payload. walk_blind. Qed.
Lemma locked_row_blind D `{!Document D} id : blind ns (locked_row ns D id).
Proof. unfold locked_row. apply blind_bind; [by apply session_get_blind|]. walk_blind. Qed.
Lemma sql_record_blind c d : blind ns (sql_record c d).
Proof. unfold sql_record. walk_blind. Qed.
Hint Resolve validate_payload_blind locked_row_blind sql_record_blind : blind.

Lemma sql_save_blind c d : blind ns (sql_save ns c d).
Proof. unfold sql_save. walk_blind. Qed.
Lemma sql_get_blind D `{!Document D} id : blind ns (sql_get ns D id).
Proof. unfold sql_get. walk_blind. Qed.
Lemma sql_list_blind D `{!Document D} p : blind ns (sql_list ns D p).
Proof.
  unfold sql_list. apply session_read_blind, blind_bind; [|walk_blind]. apply blind_gets. intros s1 s2 H.
  rewrite (objects_view ns s1 s2 _ H). f_equal. f_equal.
  apply (rows_where_view ns); [done| | |done]; intros k row [Hc _]%andb_true_iff;
    by apply in_collection_ns in Hc.
Qed.
Lemma sql_update_grant_blind {A} id (f : ConnectorGrant → TaskRun → op (ConnectorGrant * A)) :
  blind ns (sql_update_grant ns id f).
Proof. unfold sql_update_grant. walk_blind. Qed.
Lemma sql_consume_blind h now : blind ns (sql_consume_registration_credential ns h now).
Proof. unfold sql_consume_registration_credential. walk_blind. Qed.
Lemma sql_save_audit_event_blind x : blind ns (sql_save_audit_event ns x).
Proof. unfold sql_save_audit_event. walk_blind. Qed.
Lemma add_document_blind cd : blind ns (add_document ns cd).
Proof. unfold add_document. walk_blind. Qed.
Hint Resolve add_document_blind : blind.
Lemma sql_create_task_run_blind t r ws : blind ns (sql_create_task_run ns t r ws).
Proof. unfold sql_create_task_run. walk_blind. Qed.
Lemma sql_delete_task_blind t : blind ns (sql_delete_task ns t).
Proof.
  unfold sql_delete_task. apply session_write_blind, blind_bind.
  - apply blind_gets. intros s1 s2 H. f_equal.
    apply (rows_where_view ns); [done| | |done]; intros k row [Hc _]%andb_true_iff;
      by apply in_collection_ns in Hc.
  - walk_blind; apply bulk_delete_blind; intros k row [Hc _]%andb_true_iff;
      first [by apply in_collection_ns in Hc|by apply bool_decide_eq_true in Hc].
Qed.
Lemma sql_prune_blind a b : blind ns (sql_prune ns a b).
Proof.
  unfold sql_prune. apply session_write_blind, blind_bind.
  - apply blind_gets. intros s1 s2 H. rewrite (objects_view ns s1 s2 _ H). f_equal.
    apply (rows_where_view ns); [done| | |done]; intros k row [Hc _]%andb_true_iff;
      by apply bool_decide_eq_true in Hc.
  - unfold should_remove. walk_blind.
Qed.
Lemma claim_select_blind c : blind ns (claim_select ns c).
Proof.
  unfold claim_select. apply blind_bind.
  - apply blind_gets. intros s1 s2 H.
    assert (Hc : ∀ L k row, claimable_row ns c L k row = true → key_ns k = ns).
    { unfold claimable_row. intros L k row. rewrite !andb_true_iff. intros [[[Hc _] _] _].
      by apply in_collection_ns in Hc. }
    apply (rows_where_view ns); [done|apply Hc|apply Hc|].
    intros k row Hk. unfold claimable_row. f_equal. apply bool_decide_ext.
    by rewrite (sv_locked ns s1 s2 H k Hk).
  - walk_blind. apply blind_gets. intros s1 s2 H. unfold in_session. by rewrite (sv_dirty ns s1 s2 H).
Qed.
Hint Resolve claim_select_blind : blind.
Lemma sql_claim_run_blind c l e : blind ns (sql_claim_run ns c l e).
Proof. unfold sql_claim_run, claim_write. walk_blind. Qed.
Lemma sql_update_run_blind id f : (∀ run, blind ns (f run)) → blind ns (sql_update_run ns id f).
Proof. intros Hf. unfold sql_update_run. walk_blind. Qed.
End BlindOperations.

(** ** Programs against one store *)

(** The code that holds a store of namespace [ns]: the methods of the store
    ([_save], [_get] and [_list] stand for the typed methods built on them),
    computation that uses the clock, and Python's sequencing, [raise] and
    [try].  A callback changes the document it is given, not its identity. *)
Inductive store_program {PF : Platform} (ns : string) : ∀ A : Type, sql A → Prop :=
  | p_ret A (a : A) : store_program ns A (mret a)
  | p_raise A e : store_program ns A (raise e)
  | p_env A (m : op A) : store_program ns A (env m)
  | p_bind A B (m : sql A) (f : A → sql B) :
      store_program ns A m → (∀ a, store_program ns B (f a)) → store_program ns B (m ≫= f)
  | p_catch A (m : sql A) (h : exn → option (sql A)) :
      store_program ns A m → (∀ e k, h e = Some k → store_program ns A k) →
      store_program ns A (catch m h)
  | p_save c d : doc_collection d = c → store_program ns () (sql_save ns c d)
  | p_get D `{!Document D} id : store_program ns D (sql_get ns D id)
  | p_list D `{!Document D} p : store_program ns (list D) (sql_list ns D p)
  | p_update_grant A id (f : ConnectorGrant → TaskRun → op (ConnectorGrant * A)) :
      (∀ g r w g' a, (f g r w).2 = inr (g', a) →
         grant_id g' = grant_id g ∧ grant_run_id g' = grant_run_id g) →
      store_program ns (ConnectorGrant * A) (sql_update_grant ns id f)
  | p_consume h now : store_program ns bool (sql_consume_registration_credential ns h now)
  | p_save_audit_event x : store_program ns _ (sql_save_audit_event ns x)
  | p_create_task_run t r ws : store_program ns _ (sql_create_task_run ns t r ws)
  | p_delete_task t : store_program ns () (sql_delete_task ns t)
  | p_prune a b : store_program ns Z (sql_prune ns a b)
  | p_claim_run c l e : store_program ns _ (sql_claim_run ns c l e)
  | p_update_run id (f : TaskRun → sql TaskRun) :
      (∀ run, store_program ns TaskRun (f run)) →
      (∀ run s run', (f run s).2 = inr run' → run_id run' = run_id run) →
      store_program ns TaskRun (sql_update_run ns id f).

Create HintDb store_program.
#[export] Hint Constructors store_program : store_program.

(** Finds the derivation of a program built from the methods. *)
Ltac program :=
  repeat first
    [ progress intros
    | progress cbn zeta
    | solve [eauto 2 with store_program]
    | apply p_bind
    | apply p_catch
    | apply p_save; reflexivity
    | match goal with
      | |- store_program _ _ (match ?x with _ => _ end) => destruct x
      | |- store_program _ _ (if ?b then _ else _) => destruct b
      end ].

Section Programs.
Context {PF : Platform} (ns : string).

(** The typed methods that stamp a document before they save it. *)
Lemma typed_saves_are_programs :
  (∀ x, store_program ns _ (sql_save_computer ns x)) ∧ (∀ x, store_program ns _ (sql_save_task ns x)) ∧
  (∀ x, store_program ns _ (sql_save_run ns x)) ∧ (∀ x, store_program ns _ (sql_save_workspace ns x)) ∧
  (∀ x, store_program ns _ (sql_save_grant ns x)) ∧ (∀ x, store_program ns _ (sql_save_command ns x)) ∧
  (∀ x, store_program ns _ (sql_save_runtime_credential ns x)) ∧
  (∀ x, store_program ns _ (sql_save_registration_credential ns x)) ∧
  (∀ x, store_program ns _ (sql_save_run_credential ns x)).
Proof.
  unfold sql_save_computer, sql_save_task, sql_save_run, sql_save_workspace, sql_save_grant,
    sql_save_command, sql_save_runtime_credential, sql_save_registration_credential,
    sql_save_run_credential.
  repeat (split; [program|]). program.
Qed.

Lemma program_keeps T A (m : sql A) : store_program ns A m → keeps (sound ns T) m (λ _, True).
Proof.
  induction 1.
  - by apply keeps_ret.
  - apply keeps_raise.
  - by apply env_keeps.
  - eapply keeps_bind; eauto.
  - apply keeps_catch; eauto.
  - by apply sql_save_keeps.
  - apply sql_get_keeps.
  - apply sql_list_keeps.
  - by apply sql_update_grant_keeps.
  - apply sql_consume_keeps.
  - apply sql_save_audit_event_keeps.
  - apply sql_create_task_run_keeps.
  - apply sql_delete_task_keeps.
  - apply sql_prune_keeps.
  - apply sql_claim_run_keeps.
  - apply sql_update_run_keeps. intros run s Hs.
    match goal with IH : ∀ run, keeps _ (f run) _ |- _ => destruct (IH run s Hs) as [Hk _] end.
    split; [done|]. eauto.
Qed.

Lemma program_blind A (m : sql A) : store_program ns A m → blind ns m.
Proof.
  induction 1; eauto using blind_ret, blind_raise, blind_env, blind_bind, blind_catch, sql_save_blind,
    sql_get_blind, sql_list_blind, sql_update_grant_blind, sql_consume_blind,
    sql_save_audit_event_blind, sql_create_task_run_blind, sql_delete_task_blind, sql_prune_blind,
    sql_claim_run_blind, sql_update_run_blind.
Qed.
End Programs.

(** A database between operations: nothing pending. *)
Record at_rest (s : SqlWorld) : Prop := {
  rest_active : sql_active s = false;
  rest_clear : clear_session s = s;
}.

(** The table is well typed. *)
Definition table_wf (T : Table) : Prop := map_Forall row_wf T.

Lemma at_rest_sound ns s : at_rest s → table_wf (sql_rows s) → sound ns (sql_rows s) s.
Proof.
  intros [_ Hc] Hwf. rewrite <-Hc. split; cbn; try done.
Qed.

Lemma at_rest_new s : at_rest s → sql_new s = [].
Proof. intros [_ H]. by rewrite <-H. Qed.
Lemma at_rest_dirty s : at_rest s → sql_dirty s = ∅.
Proof. intros [_ H]. by rewrite <-H. Qed.
Lemma at_rest_deleted s : at_rest s → sql_deleted s = [].
Proof. intros [_ H]. by rewrite <-H. Qed.

(** C36: every row of the hosted table stays well typed under any code that
    holds a store, for every tenant and whatever raises on the way: its payload
    is a document of the collection and id in its key, the columns that queries
    filter on (assigned computer, status, parent) are those of the payload, and
    its revision is positive.  Whether the payload passes its model's validation
    is not claimed: [_save] writes the document it is given, and readers check
    it. *)
Theorem hosted_rows_typed {PF : Platform} ns A (m : sql A) s :
  store_program ns A m → at_rest s → table_wf (sql_rows s) → table_wf (sql_rows (m s).1).
Proof.
  intros Hm Hr Hwf k row Hk.
  destruct (program_keeps ns (sql_rows s) A m Hm s) as [Hs _]; [by apply at_rest_sound|].
  exact (sd_rows _ _ _ Hs k row Hk).
Qed.

(** C30: tenants are isolated. Code that holds the store of one namespace leaves
    every row of every other namespace as it was, and on two databases that
    agree on its own namespace (and in the clock) it returns or raises the same
    and leaves its own rows the same, whatever other tenants have stored. *)
Theorem tenants_isolated {PF : Platform} ns A (m : sql A) s1 s2 :
  store_program ns A m → at_rest s1 → at_rest s2 →
  table_wf (sql_rows s1) → same_view ns s1 s2 →
  (m s1).2 = (m s2).2 ∧
  (∀ k, key_ns k = ns → sql_rows (m s1).1 !! k = sql_rows (m s2).1 !! k) ∧
  (∀ k, key_ns k ≠ ns → sql_rows (m s1).1 !! k = sql_rows s1 !! k).
Proof.
  intros Hm H1 H2 Hwf Hv. destruct (program_blind ns A m Hm s1 s2 Hv) as [Hv' Hr].
  destruct (program_keeps ns (sql_rows s1) A m Hm s1) as [Hs _]; [by apply at_rest_sound|].
  split; [done|]. split; [apply (sv_rows _ _ _ Hv')|apply (sd_others _ _ _ Hs)].
Qed.

(** ** Concrete databases *)

Definition demo_sql (start : Z) : SqlWorld := {|
  sql_rows := ∅; sql_new := []; sql_dirty := ∅; sql_deleted := []; sql_active := false;
  sql_locked := ∅; sql_rivals := ∅; sql_env := demo_world start |}.

Lemma demo_sql_rest start : at_rest (demo_sql start).
Proof. done. Qed.
Lemma demo_sql_wf start : table_wf (sql_rows (demo_sql start)).
Proof. apply map_Forall_empty. Qed.

Definition demo_task (id : string) : CodeTask := {|
  task_schema_version := 1; task_id := id; task_title := "Task"; task_prompt := "";
  task_engine_id := "codex"; task_project_id := None;
  task_resource_scope := {| scope_all_project_resources := true; scope_resource_ids := [] |};
  task_execution_project := None; task_repository_setup := None; task_source_contexts := [];
  task_deliveries := []; task_created_at := 0; task_updated_at := 0 |}.

(** Two tenants whose tasks share an id, and the work of one of them. *)
Definition demo_tenants : SqlWorld :=
  (sql_save_task "org-b" (demo_task "t") (sql_save_task "org-a" (demo_task "t") (demo_sql 0)).1).1.

Definition demo_work {PF : Platform} : sql () :=
  sql_save_run "org-a" (demo_run "r1" "t" "c1" 10);; sql_delete_task "org-a" "t".

Lemma demo_work_program {PF : Platform} : store_program "org-a" () demo_work.
Proof. unfold demo_work, sql_save_run. program. Qed.

Lemma demo_tenants_rest : at_rest demo_tenants.
Proof. split; vm_compute; reflexivity. Qed.

Lemma demo_save_task_wf ns s :
  at_rest s → table_wf (sql_rows s) → table_wf (sql_rows (sql_save_task ns (demo_task "t") s).1).
Proof.
  intros Hs Hwf k row Hk.
  assert (Hp : store_program (PF := plain_platform) ns _ (sql_save_task ns (demo_task "t"))) by (unfold sql_save_task; program).
  destruct (program_keeps ns (sql_rows s) _ _ Hp s) as [H _]; [by apply at_rest_sound|].
  exact (sd_rows _ _ _ H k row Hk).
Qed.

Lemma demo_tenants_wf : table_wf (sql_rows demo_tenants).
Proof.
  apply demo_save_task_wf; [split; vm_compute; reflexivity|].
  apply demo_save_task_wf; [apply demo_sql_rest|apply demo_sql_wf].
Qed.

Lemma hosted_rows_typed_witness :
  table_wf (sql_rows (demo_work (PF := plain_platform) demo_tenants).1).
Proof.
  apply (hosted_rows_typed (PF := plain_platform) "org-a" () demo_work demo_tenants).
  - apply demo_work_program.
  - exact demo_tenants_rest.
  - exact demo_tenants_wf.
Defined.

(** The other tenant's task survives the deletion of the one with its id. *)
Lemma tenants_isolated_witness :
  sql_rows (demo_work (PF := plain_platform) demo_tenants).1 !! ("org-a", tasks, "t") = None ∧
  sql_rows (demo_work (PF := plain_platform) demo_tenants).1 !! ("org-b", tasks, "t") =
    sql_rows demo_tenants !! ("org-b", tasks, "t").
Proof.
  split; [vm_compute; reflexivity|].
  apply (tenants_isolated (PF := plain_platform) "org-a" () demo_work demo_tenants demo_tenants).
  - apply demo_work_program.
  - exact demo_tenants_rest.
  - exact demo_tenants_rest.
  - exact demo_tenants_wf.
  - split; try reflexivity. constructor.
  - vm_compute. discriminate.
Defined.
