(* ===== verification/SqlSpec.v ===== *)
(** * What the methods of the hosted store do.

    Each method of [SqlControlPlaneStore]
    ([src/cowork/coding/sql_control_store.py]), called outside any transaction,
    runs in one of its own: it either raises and leaves the table as it was, or
    commits.  This file describes the committed table of every method that
    writes, and what the readers return. *)
From stdpp Require Import base list gmap strings option sorting.
From Stdlib Require Import ZArith Lia.
From S2P Require Import Prelude ControlModels ControlWorld RunState ControlStore StoreJournal SqlStore SqlTenants.

(** ** Transactions *)

(** The table a flush leaves. *)
Definition flushed (s : SqlWorld) : Table :=
  foldr delete (sql_dirty s ∪ (list_to_map (sql_new s) ∪ sql_rows s)) (sql_deleted s).

(** The state after a commit. *)
Definition committed (s : SqlWorld) : SqlWorld := clear_session (s <| sql_rows := flushed s |>).

(** A transaction that returned has committed what its body left pending. *)
Lemma session_write_inr {A} (body : sql A) s s' x :
  at_rest s → session_write body s = (s', inr x) →
  ∃ s1, body s = (s1, inr x) ∧ insertable s1 = true ∧ s' = committed s1.
Proof.
  intros [Ha Hc]. unfold session_write. rewrite Ha, Hc. unfold mbind, eff_bind.
  destruct (body s) as [s1 [e|y]]; [done|]. unfold flush. destruct (insertable s1) eqn:Hi; [|done].
  cbn. intros [= <- <-]. exists s1. by rewrite Hi.
Qed.

(** A transaction that raised has changed no row. *)
Lemma session_write_inl {A} (body : sql A) s s' e :
  at_rest s → session_write body s = (s', inl e) → sql_rows s' = sql_rows s.
Proof.
  intros [Ha Hc]. unfold session_write. rewrite Ha, Hc. unfold mbind, eff_bind.
  destruct (body s) as [s1 [e1|y]]; [by intros [= <- <-]|].
  unfold flush. destruct (insertable s1); [done|]. by intros [= <- <-].
Qed.

Lemma session_write_commits {A} (body : sql A) s s1 x :
  at_rest s → body s = (s1, inr x) → insertable s1 = true →
  session_write body s = (committed s1, inr x).
Proof.
  intros [Ha Hc] Hb Hi. unfold session_write. rewrite Ha, Hc. unfold mbind, eff_bind.
  rewrite Hb. unfold flush. by rewrite Hi.
Qed.

Lemma session_write_fails {A} (body : sql A) s s1 e :
  at_rest s → body s = (s1, inl e) →
  session_write body s = (clear_session (s1 <| sql_rows := sql_rows s |>), inl e).
Proof.
  intros [Ha Hc] Hb. unfold session_write. rewrite Ha, Hc. unfold mbind, eff_bind. by rewrite Hb.
Qed.

Lemma session_read_rest {A} (body : sql A) s : at_rest s → session_read body s = body s.
Proof. intros [Ha Hc]. unfold session_read. by rewrite Ha, Hc. Qed.

(** What other replicas hold is not the store's to change; only [update_run]
    touches the flag of an open transaction, and it puts it back. *)
Record same_peers (s s' : SqlWorld) : Prop := {
  sp_active : sql_active s' = sql_active s;
  sp_locked : sql_locked s' = sql_locked s;
  sp_rivals : sql_rivals s' = sql_rivals s;
}.

#[export] Instance same_peers_preorder : PreOrder same_peers.
Proof. split; [done|]. intros s1 s2 s3 [] []. split; congruence. Qed.

Lemma env_same_peers {A} (m : op A) : within same_peers (env m).
Proof. intros s. unfold env. by destruct (m (sql_env s)). Qed.
Lemma flush_same_peers : within same_peers flush.
Proof. intros s. unfold flush. by destruct (insertable s). Qed.
Lemma modify_same_peers (f : SqlWorld → SqlWorld) :
  (∀ s, same_peers s (f s)) → within same_peers (modify f).
Proof. intros Hf s. apply Hf. Qed.
Lemma session_write_same_peers {A} (body : sql A) :
  within same_peers body → within same_peers (session_write body).
Proof.
  intros Hb s. unfold session_write. destruct (sql_active s) eqn:Ha; [apply Hb|].
  assert (Hk : within same_peers (x ← body; flush;; mret x)).
  { apply within_bind; [apply _|done|]. intros x. apply within_bind; [apply _|apply flush_same_peers|].
    intros _. apply within_ret, _. }
  specialize (Hk (clear_session s)). revert Hk.
  generalize ((x ← body; flush;; mret x) (clear_session s)).
  intros [s' [e|x]] Hk; destruct Hk as [H1 H2 H3]; split; (etrans; [first [exact H1|exact H2|exact H3]|done]).
Qed.
Lemma session_read_same_peers {A} (body : sql A) :
  within same_peers body → within same_peers (session_read body).
Proof.
  intros Hb s. unfold session_read. destruct (sql_active s); [apply Hb|].
  destruct (Hb (clear_session s)). by split.
Qed.
Lemma with_active_same_peers {A} (body : sql A) :
  within same_peers body → within same_peers (with_active body).
Proof.
  intros Hb s. unfold with_active. specialize (Hb (s <| sql_active := true |>)).
  destruct (body _) as [s' r]. by destruct Hb.
Qed.

Ltac walk_peers :=
  repeat first
    [ progress intros
    | progress cbn zeta
    | apply env_same_peers
    | apply flush_same_peers
    | apply modify_same_peers; intros; split; reflexivity
    | apply session_write_same_peers
    | apply session_read_same_peers
    | apply with_active_same_peers
    | apply within_ret; apply _
    | apply within_raise; apply _
    | apply within_gets; apply _
    | apply within_raise_if; apply _
    | apply within_bind; [apply _| |]
    | apply within_catch; [apply _| |]
    | apply within_for_each; [apply _|]
    | apply within_map_each; [apply _|]
    | match goal with
      | |- within _ (match ?x with _ => _ end) => destruct x
      | |- within _ (if ?b then _ else _) => destruct b
      | H : (if ?b then Some _ else None) = Some _ |- _ => destruct b; simplify_eq
      end ].

(** A transaction or a read outside one leaves nothing pending. *)
Lemma session_write_rest {A} (body : sql A) s :
  within same_peers body → at_rest s → at_rest (session_write body s).1.
Proof.
  intros Hb Hs. pose proof (session_write_same_peers body Hb s) as Hact. destruct Hs as [Ha Hc].
  split; [by rewrite (sp_active _ _ Hact)|]. unfold session_write. rewrite Ha, Hc.
  destruct ((x ← body; flush;; mret x) s) as [s' [e|x]]; done.
Qed.

Lemma then_rest {A B} (m : sql A) (f : A → B) s :
  at_rest (m s).1 → at_rest ((x ← m; mret (f x)) s).1.
Proof. unfold mbind, eff_bind. by destruct (m s) as [s' [e|x]]. Qed.

(** Validating a list of payloads leaves the state alone. *)
Lemma validate_each_state D `{!Document D} (l : list (Key * CodeControlRecord)) s :
  (map_each (λ kr, validate_payload D kr.2) l s).1 = s.
Proof.
  induction l as [|kr l IH]; [done|]. cbn. unfold mbind, eff_bind. unfold validate_payload at 1.
  destruct (unwrap (rec_payload kr.2)); [|done]. destruct (doc_valid _); [|done]. cbn.
  revert IH. generalize (map_each (λ kr : Key * CodeControlRecord, validate_payload D kr.2) l s).
  by intros [? [?|?]].
Qed.

Section AtRest.
Context {PF : Platform} (ns : string).

Lemma program_peers A (m : sql A) : store_program ns A m → within same_peers m.
Proof.
  induction 1; unfold sql_save, sql_get, sql_list, sql_update_grant, sql_consume_registration_credential,
    sql_save_audit_event, sql_create_task_run, sql_delete_task, sql_prune, sql_claim_run, sql_update_run,
    claim_select, claim_write, should_remove, add_document, locked_row, session_get, session_add,
    session_update, session_delete, bulk_delete, sql_record, validate_payload;
    walk_peers; eauto.
Qed.

Lemma program_at_rest A (m : sql A) s : store_program ns A m → at_rest s → at_rest (m s).1.
Proof.
  intros Hm. revert s. induction Hm; intros s Hs.
  - done.
  - done.
  - unfold env. destruct (m (sql_env s)) as [w r]. pose proof Hs as [Ha Hc]. split; [done|].
    rewrite <-Hc. done.
  - unfold mbind, eff_bind. specialize (IHHm s Hs). destruct (m s) as [s1 [e|a]]; [done|]. eauto.
  - unfold catch. specialize (IHHm s Hs). destruct (m s) as [s1 [e|a]]; [|done].
    destruct (h e) as [k|] eqn:E; [eauto|done].
  - apply session_write_rest; [|done]. unfold session_get, session_add, session_update, sql_record. walk_peers.
  - unfold sql_get. rewrite session_read_rest by done. unfold session_get, validate_payload, mbind, eff_bind. cbn.
    by repeat case_match.
  - unfold sql_list. rewrite session_read_rest by done. unfold mbind, eff_bind. cbn.
    by rewrite validate_each_state.
  - apply session_write_rest; [|done]. unfold locked_row, validate_payload, session_update. walk_peers.
  - apply session_write_rest; [|done]. unfold locked_row, validate_payload, session_update. walk_peers.
  - apply then_rest, session_write_rest; [|done].
    unfold session_get, session_add, sql_record. walk_peers.
  - apply then_rest, session_write_rest; [|done].
    unfold add_document, session_get, session_add, sql_record. walk_peers.
  - apply session_write_rest; [|done]. unfold bulk_delete. walk_peers.
  - apply session_write_rest; [|done]. unfold should_remove, validate_payload, session_delete. walk_peers.
  - apply session_write_rest; [|done]. unfold claim_select, claim_write, validate_payload, session_update.
    walk_peers.
  - apply session_write_rest; [|done]. unfold locked_row, validate_payload, session_get, session_update.
    walk_peers. by apply program_peers.
Qed.
End AtRest.

(** ** Single documents *)

Lemma flushed_clear s : flushed (clear_session s) = sql_rows s.
Proof. unfold flushed. cbn. by rewrite !(left_id_L ∅ (∪)). Qed.

Lemma committed_clear s : sql_rows (committed (clear_session s)) = sql_rows s.
Proof. apply flushed_clear. Qed.

Lemma insertable_clear s : insertable (clear_session s) = true.
Proof. done. Qed.

Section Documents.
Context {PF : Platform} (ns : string).

(** The document of the namespace under a collection and id. *)
Definition hosted (s : SqlWorld) (c : Collection) (id : string) : option Doc :=
  rec_payload <$> sql_rows s !! (ns, c, id).

Lemma session_get_rest s k : at_rest s → session_get k s = (s, inr (sql_rows s !! k)).
Proof.
  intros Hs. unfold session_get, gets, in_session. rewrite (at_rest_dirty s Hs).
  destruct (sql_rows s !! k); cbn; by rewrite ?lookup_empty.
Qed.

Lemma sql_get_rest D `{!Document D} id s :
  at_rest s →
  sql_get ns D id s = (s,
    match hosted s (collection_of D) id with
    | None => inl (KeyError (String.append (model_name D) " not found"))
    | Some a => match unwrap a with
                | Some x => if doc_valid a then inr x else inl (ValidationError (model_name D))
                | None => inl (ValidationError (model_name D))
                end
    end).
Proof.
  intros Hs. unfold sql_get. rewrite session_read_rest by done. unfold mbind, eff_bind.
  rewrite session_get_rest by done. unfold hosted. destruct (sql_rows s !! _) as [row|]; [|done]. cbn.
  unfold validate_payload. destruct (unwrap (rec_payload row)); [|done]. by destruct (doc_valid _).
Qed.

(** [_save] outside a transaction: one row is written, with the next
    revision; a new row collides only with an insert a rival has not committed
    yet. *)
Lemma sql_save_rest c d s :
  at_rest s →
  match sql_save ns c d s with
  | (s', inr _) =>
      ∃ row, sql_rows s' = <[(ns, c, doc_id d) := row]> (sql_rows s) ∧ rec_payload row = d ∧
        (sql_rows s !! (ns, c, doc_id d) = None → (ns, c, doc_id d) ∉ sql_rivals s ∧ rec_revision row = 1%Z) ∧
        (∀ old, sql_rows s !! (ns, c, doc_id d) = Some old →
           rec_revision row = (rec_revision old + 1)%Z ∧ rec_created_at row = rec_created_at old)
  | (s', inl e) =>
      sql_rows s !! (ns, c, doc_id d) = None ∧ (ns, c, doc_id d) ∈ sql_rivals s ∧
      is_IntegrityError e = true ∧ sql_rows s' = sql_rows s
  end.
Proof.
  intros Hs. unfold sql_save.
  set (k := (ns, c, doc_id d)).
  match goal with |- context [session_write ?b s] => set (body := b) end.
  destruct (sql_rows s !! k) as [old|] eqn:Ek.
  - assert (Hb : ∃ row s1, body s = (clear_session s1, inr ()) ∧
      sql_rows s1 = <[k := row]> (sql_rows s) ∧ rec_payload row = d ∧
      rec_revision row = (rec_revision old + 1)%Z ∧ rec_created_at row = rec_created_at old).
    { unfold body, mbind, eff_bind. rewrite session_get_rest, Ek by done. cbn.
      unfold flush, insertable. cbn. rewrite at_rest_new by done. cbn.
      rewrite at_rest_dirty, at_rest_deleted by done. eexists _, _. split; [reflexivity|]. cbn.
      rewrite (left_id_L ∅ (∪)), insert_empty, <-insert_union_singleton_l.
      split; [reflexivity|]. by destruct c, d. }
    destruct Hb as (row & s1 & Hb & Hr & Hp & Hv & Hc).
    rewrite (session_write_commits body s _ _ Hs Hb) by apply insertable_clear.
    rewrite committed_clear. exists row. split_and!; try done. by intros ? [= <-].
  - assert (Hb : ∃ row s1, body s = flush s1 ∧ sql_new s1 = [(k, row)] ∧ sql_dirty s1 = ∅ ∧
      sql_deleted s1 = [] ∧ sql_rivals s1 = sql_rivals s ∧ sql_rows s1 = sql_rows s ∧
      rec_payload row = d ∧ rec_revision row = 1%Z).
    { unfold body, mbind, eff_bind. rewrite session_get_rest, Ek by done. cbn.
      eexists _, _. split; [reflexivity|]. cbn. rewrite at_rest_new, at_rest_dirty, at_rest_deleted by done.
      split_and!; try done; by destruct c, d. }
    destruct Hb as (row & s1 & Hb & Hn & Hd & Hx & Hv & Hr & Hp & H1).
    assert (Hi : insertable s1 = bool_decide (k ∉ sql_rivals s)).
    { unfold insertable. rewrite Hn, Hr, Hv. cbn. rewrite bool_decide_eq_true_2 by apply NoDup_singleton. cbn.
      rewrite andb_true_r. apply bool_decide_ext. naive_solver. }
    unfold flush in Hb. rewrite Hi in Hb. case_bool_decide as Hriv.
    + rewrite (session_write_commits body s _ _ Hs Hb) by apply insertable_clear.
      rewrite committed_clear. cbn. rewrite Hn, Hd, Hx, Hr. cbn.
      exists row. rewrite (left_id_L ∅ (∪)), insert_empty, <-insert_union_singleton_l. split_and!; try done.
    + rewrite (session_write_fails body s _ _ Hs Hb). cbn. split; [done|].
      split; [by destruct (decide (k ∈ sql_rivals s))|]. done.
Qed.
End Documents.

(** ** Listings, deletion and the single-use registration *)

Section Queries.
Context {PF : Platform} (ns : string).

Lemma objects_rest s l : at_rest s → objects s l = l.
Proof.
  intros Hs. unfold objects, in_session. rewrite (at_rest_dirty s Hs).
  rewrite <-(map_id l) at 2. apply map_ext. by intros [k row].
Qed.

(** Validation of rows that all hold valid documents of the model. *)
Lemma validate_each_valid D `{!Document D} (l : list (Key * CodeControlRecord)) s :
  (∀ kr, kr ∈ l → doc_collection (rec_payload kr.2) = collection_of D ∧ doc_valid (rec_payload kr.2) = true) →
  ∃ xs, map_each (λ kr, validate_payload D kr.2) l s = (s, inr xs) ∧
    map wrap xs = map (λ kr, rec_payload kr.2) l.
Proof.
  induction l as [|kr l IH]; intros Hl; [by exists []|].
  destruct IH as (xs & E & Hxs); [set_solver|]. destruct (Hl kr) as [Hc Hv]; [set_solver|].
  destruct (unwrap_total _ Hc) as [x Hx]. exists (x :: xs). cbn. unfold mbind, eff_bind.
  unfold validate_payload at 1. rewrite Hx, Hv. cbn. rewrite E. split; [done|]. cbn. f_equal; [|done].
  by rewrite (unwrap_inv _ _ Hx).
Qed.

(** [_list] outside a transaction, on well-typed rows with valid payloads: the
    documents of the collection (of one parent, if it is given), newest row
    first. *)
Lemma sql_list_rest D `{!Document D} parent s :
  at_rest s → table_wf (sql_rows s) →
  (∀ id a, hosted ns s (collection_of D) id = Some a → doc_valid a = true) →
  ∃ rows xs, sql_list ns D parent s = (s, inr xs) ∧
    map wrap xs = map (λ kr, rec_payload kr.2) rows ∧
    StronglySorted (λ a b, (rec_updated_at b.2 <= rec_updated_at a.2)%Z) rows ∧
    NoDup rows ∧
    ∀ k row, (k, row) ∈ rows ↔
      sql_rows s !! k = Some row ∧ key_ns k = ns ∧ key_collection k = collection_of D ∧
      (∀ p, parent = Some p → rec_parent_id row = Some p).
Proof.
  intros Hs Hwf Hv.
  set (P := λ (k : Key) (row : CodeControlRecord), in_collection ns (collection_of D) k &&
      match parent with None => true | Some p => bool_decide (rec_parent_id row = Some p) end).
  set (rows := sorted_desc (λ kr, rec_updated_at kr.2) (rows_where P s)).
  assert (Hin : ∀ k row, (k, row) ∈ rows ↔
      sql_rows s !! k = Some row ∧ key_ns k = ns ∧ key_collection k = collection_of D ∧
      (∀ p, parent = Some p → rec_parent_id row = Some p)).
  { intros k row. unfold rows. rewrite elem_of_sorted_desc, elem_of_rows_where.
    unfold P, in_collection. destruct parent as [p|]; rewrite !andb_true_iff, !bool_decide_eq_true; naive_solver. }
  destruct (validate_each_valid D rows s) as (xs & E & Hxs).
  { intros [[[n c] id] row] H. apply Hin in H as (H & Hn & Hc & _). cbn in Hn, Hc. subst n c.
    split; [apply (Hwf _ _ H)|]. apply (Hv id). unfold hosted. by rewrite H. }
  exists rows, xs. split_and!; [|done|apply (sorted_desc_sorted (λ kr : Key * CodeControlRecord, rec_updated_at kr.2))| |done].
  - unfold sql_list. rewrite session_read_rest by done. unfold mbind at 1, eff_bind at 1. cbn.
    fold P. rewrite objects_rest by done. exact E.
  - unfold rows. rewrite sorted_desc_perm. unfold rows_where. rewrite reorder_perm. apply NoDup_map_to_list.
Qed.

Lemma bulk_delete_rest P s :
  at_rest s →
  ∃ s', bulk_delete P s = (s', inr ()) ∧ at_rest s' ∧ sql_env s' = sql_env s ∧
    ∀ k row, sql_rows s' !! k = Some row ↔ sql_rows s !! k = Some row ∧ P k row = false.
Proof.
  intros Hs. eexists. split; [reflexivity|]. split; [|split; [done|]].
  - pose proof (at_rest_dirty s Hs) as Hd. destruct Hs as [Ha Hc]. split; [done|]. rewrite <-Hc. cbn.
    assert (H0 : ∀ m : Table, ∅ ∖ m = ∅) by
      (intros m; apply map_eq; intros k; rewrite lookup_difference, lookup_empty; by case_match).
    by rewrite H0.
  - intros k row. cbn. rewrite lookup_difference_Some, map_lookup_filter_None. split.
    + intros [Hk [Hn|Hn]]; [congruence|]. split; [done|]. specialize (Hn row Hk). cbn in Hn.
      by destruct (P k row).
    + intros [Hk Hp]. split; [done|]. right. intros row' Hk' Hp'. cbn in Hp'. congruence.
Qed.

Lemma committed_rest s : at_rest s → committed s = s.
Proof.
  intros Hs. pose proof (flushed_clear s) as H. destruct Hs as [Ha Hc]. rewrite Hc in H.
  unfold committed. rewrite H. rewrite <-Hc at 2. by destruct s.
Qed.

Lemma insertable_rest s : at_rest s → insertable s = true.
Proof. intros Hs. unfold insertable. by rewrite (at_rest_new s Hs). Qed.

(** The runs of a task. *)
Definition task_run (s : SqlWorld) (task_id run_id : string) : Prop :=
  ∃ row, sql_rows s !! (ns, runs, run_id) = Some row ∧ rec_parent_id row = Some task_id.

(** The rows [delete_task] removes: the task, its runs, and whatever has one of
    its runs for parent. *)
Definition owned_rows (s : SqlWorld) (task_id : string) (k : Key) (row : CodeControlRecord) : Prop :=
  key_ns k = ns ∧
  ((key_collection k = tasks ∧ key_document k = task_id) ∨
   (key_collection k = runs ∧ task_run s task_id (key_document k)) ∨
   (∃ rid, rec_parent_id row = Some rid ∧ task_run s task_id rid)).

Lemma sql_delete_task_rest t s :
  at_rest s →
  ∃ s', sql_delete_task ns t s = (s', inr ()) ∧ at_rest s' ∧
    ∀ k row, sql_rows s' !! k = Some row ↔ sql_rows s !! k = Some row ∧ ¬ owned_rows s t k row.
Proof.
  intros Hs.
  set (rids := map (λ kr, key_document kr.1) (rows_where (λ k row,
      in_collection ns runs k && bool_decide (rec_parent_id row = Some t)) s)).
  assert (Hrids : ∀ id, id ∈ rids ↔ task_run s t id).
  { intros id. unfold rids, task_run. rewrite list_elem_of_fmap. split.
    - intros ([[[n c] i] row] & -> & H). apply elem_of_rows_where in H as [H1 H2].
      unfold in_collection in H2. rewrite !andb_true_iff, !bool_decide_eq_true in H2. cbn in H2.
      destruct H2 as [[-> ->] H2]. eauto.
    - intros (row & H1 & H2). exists (ns, runs, id, row). split; [done|]. apply elem_of_rows_where.
      unfold in_collection. rewrite !andb_true_iff, !bool_decide_eq_true. done. }
  set (P1 := λ (k : Key) (row : CodeControlRecord), bool_decide (key_ns k = ns) &&
        match rec_parent_id row with Some p => bool_decide (p ∈ rids) | None => false end).
  set (P2 := λ (k : Key) (_ : CodeControlRecord), in_collection ns runs k && bool_decide (key_document k ∈ rids)).
  set (P3 := λ (k : Key) (_ : CodeControlRecord), in_collection ns tasks k && bool_decide (key_document k = t)).
  assert (Hmid : ∃ s2, (if bool_decide (rids = []) then mret () else bulk_delete P1;; bulk_delete P2) s = (s2, inr ()) ∧
    at_rest s2 ∧ ∀ k row, sql_rows s2 !! k = Some row ↔
      sql_rows s !! k = Some row ∧ P1 k row = false ∧ P2 k row = false).
  { case_bool_decide as Hnil.
    - exists s. split_and!; [done|done|]. intros k row. split; [|naive_solver].
      intros H. unfold P1, P2. rewrite Hnil. split; [done|].
      split; [|by rewrite bool_decide_eq_false_2, andb_false_r by set_solver].
      destruct (rec_parent_id row); [|by rewrite andb_false_r].
      by rewrite (bool_decide_eq_false_2 (_ ∈ [])), andb_false_r by set_solver.
    - destruct (bulk_delete_rest P1 s Hs) as (s1 & E1 & Hs1 & _ & H1).
      destruct (bulk_delete_rest P2 s1 Hs1) as (s2 & E2 & Hs2 & _ & H2).
      exists s2. split; [unfold mbind, eff_bind; by rewrite E1|]. split; [done|].
      intros k row. rewrite H2, H1. naive_solver. }
  destruct Hmid as (s2 & E2 & Hs2 & H2). destruct (bulk_delete_rest P3 s2 Hs2) as (s3 & E3 & Hs3 & _ & H3).
  exists s3. split; [|split; [done|]].
  - rewrite <-(committed_rest s3 Hs3). apply session_write_commits; [done| |by apply insertable_rest].
    unfold mbind at 1, eff_bind at 1. cbn -[bulk_delete]. fold rids. fold P1 P2.
    unfold mbind at 1, eff_bind at 1. rewrite E2. exact E3.
  - intros k row. rewrite H3, H2. unfold P1, P2, P3, owned_rows, in_collection. split.
    + intros [(Hk & Hp1 & Hp2) Hp3]. split; [done|].
      rewrite !andb_false_iff, !bool_decide_eq_false in Hp2, Hp3.
      intros [Hn [[? ?]|[[? ?%Hrids]|(rid & Hrid & ?%Hrids)]]]; [naive_solver|naive_solver|].
      rewrite Hrid, andb_false_iff, !bool_decide_eq_false in Hp1. naive_solver.
    + intros [Hk Hno]. rewrite !andb_false_iff, !bool_decide_eq_false.
      destruct (decide (key_ns k = ns)) as [Hn|Hn]; [|by split_and!; auto].
      split_and!; [done| | |].
      * destruct (rec_parent_id row) as [p|] eqn:Ep; [|by right]. right. apply bool_decide_eq_false.
        intros ?%Hrids. apply Hno. split; [done|]. right. right. eauto.
      * destruct (decide (key_collection k = runs)); [|by left; right]. right. intros ?%Hrids.
        apply Hno. split; [done|]. right. by left.
      * destruct (decide (key_collection k = tasks)); [|by left; right]. right. intros ?.
        apply Hno. split; [done|]. by left.
Qed.
End Queries.

Section Writers.
Context {PF : Platform} (ns : string).

Lemma locked_row_rest D `{!Document D} id s :
  at_rest s →
  locked_row ns D id s = (s,
    match sql_rows s !! (ns, collection_of D, id) with
    | None => inl (KeyError (String.append (model_name D) " not found"))
    | Some row => inr row
    end).
Proof.
  intros Hs. unfold locked_row, mbind, eff_bind.
  change (gets _) with (session_get (ns, collection_of D, id)). rewrite session_get_rest by done.
  by destruct (sql_rows s !! _).
Qed.

Lemma validate_payload_eq D `{!Document D} row s :
  validate_payload D row s = (s,
    match unwrap (rec_payload row) with
    | Some x => if doc_valid (rec_payload row) then inr x else inl (ValidationError (model_name D))
    | None => inl (ValidationError (model_name D))
    end).
Proof. unfold validate_payload. destruct (unwrap _); [|done]. by destruct (doc_valid _). Qed.

(** A commit of one changed row. *)
Lemma committed_update s k row old :
  at_rest s → sql_rows s !! k = Some old →
  let s1 := s <| sql_dirty := <[k := row]> (sql_dirty s) |> in
  insertable s1 = true ∧ sql_rows (committed s1) = <[k := row]> (sql_rows s).
Proof.
  intros Hs Hk. cbn. split.
  - unfold insertable. cbn. by rewrite (at_rest_new s Hs).
  - unfold committed, flushed. cbn.
    rewrite (at_rest_new s Hs), (at_rest_dirty s Hs), (at_rest_deleted s Hs). cbn.
    by rewrite (left_id_L ∅ (∪)), insert_empty, <-insert_union_singleton_l.
Qed.

Lemma at_rest_env s w : at_rest s → at_rest (s <| sql_env := w |>).
Proof. intros [Ha Hc]. split; [done|]. rewrite <-Hc. done. Qed.

(** [consume_registration_credential], every branch. *)
Lemma sql_consume_rest h now s :
  at_rest s → table_wf (sql_rows s) →
  match sql_consume_registration_credential ns h now s with
  | (s', inr true) =>
      ∃ c row, hosted ns s registration_credentials h = Some (DRegistrationCredential c) ∧
        reg_consumed_at c = None ∧ (now < reg_expires_at c)%Z ∧
        sql_rows s' = <[(ns, registration_credentials, h) := row]> (sql_rows s) ∧
        rec_payload row = DRegistrationCredential (c <| reg_consumed_at := Some now |>)
  | (s', inr false) =>
      sql_rows s' = sql_rows s ∧
      ∀ c, hosted ns s registration_credentials h = Some (DRegistrationCredential c) →
        reg_consumed_at c ≠ None ∨ (reg_expires_at c <= now)%Z
  | (s', inl e) =>
      sql_rows s' = sql_rows s ∧
      ∃ a, hosted ns s registration_credentials h = Some a ∧ doc_valid a = false
  end.
Proof.
  intros Hs Hwf. unfold sql_consume_registration_credential.
  match goal with |- context [session_write ?b s] => set (body := b) end.
  assert (Hfind : catch (row ← locked_row ns RuntimeRegistrationCredential h; mret (Some row))
    (λ e, if is_KeyError e then Some (mret None) else None) s =
    (s, inr (sql_rows s !! (ns, registration_credentials, h)))).
  { unfold catch, mbind, eff_bind. rewrite locked_row_rest by done. cbn [collection_of].
    by destruct (sql_rows s !! _). }
  unfold hosted. destruct (sql_rows s !! (ns, registration_credentials, h)) as [row|] eqn:Ek; cbn.
  2: { rewrite (session_write_commits body s s false); [by rewrite committed_rest|done| |by apply insertable_rest].
    unfold body. unfold mbind at 1, eff_bind at 1. by rewrite Hfind. }
  destruct (Hwf _ _ Ek) as [Hc _ _ _]. cbn in Hc.
  destruct (rec_payload row) as [ | | | | | | |c| | ] eqn:Ep; try done.
  assert (Hval : validate_payload RuntimeRegistrationCredential row s =
    (s, if valid_registration_credential c then inr c else inl (ValidationError "RuntimeRegistrationCredential"))).
  { rewrite validate_payload_eq, Ep. cbn. done. }
  assert (Hbody : body s =
    (c ← validate_payload RuntimeRegistrationCredential row;
     if bool_decide (reg_consumed_at c ≠ None) || (reg_expires_at c <=? now)%Z then mret false else
     session_update (ns, registration_credentials, h)
       (row <| rec_payload := DRegistrationCredential (c <| reg_consumed_at := Some now |>) |>
            <| rec_revision := (rec_revision row + 1)%Z |> <| rec_updated_at := now |>);; mret true) s).
  { unfold body. unfold mbind at 1, eff_bind at 1. by rewrite Hfind. }
  clearbody body. unfold mbind at 1, eff_bind at 1 in Hbody. rewrite Hval in Hbody.
  destruct (valid_registration_credential c) eqn:Ev.
  2: { rewrite (session_write_fails body s _ _ Hs Hbody). cbn. split; [done|]. eauto. }
  destruct (_ || _) eqn:Eo in Hbody.
  - rewrite (session_write_commits body s s false Hs Hbody) by by apply insertable_rest.
    rewrite committed_rest by done. split; [done|]. intros ? [= <-].
    apply orb_true_iff in Eo as [?%bool_decide_eq_true|?%Z.leb_le]; auto.
  - rewrite orb_false_iff, bool_decide_eq_false, Z.leb_gt in Eo. destruct Eo as [E1 E2].
    destruct (committed_update s (ns, registration_credentials, h)
      (row <| rec_payload := DRegistrationCredential (c <| reg_consumed_at := Some now |>) |>
            <| rec_revision := (rec_revision row + 1)%Z |> <| rec_updated_at := now |>) row Hs Ek) as [Hi Hcm].
    rewrite (session_write_commits body s _ true Hs Hbody Hi). eexists c, _.
    split; [done|]. split; [by destruct (reg_consumed_at c); [destruct E1|]|]. split; [lia|]. split; [exact Hcm|done].
Qed.

(** [update_grant], every branch. *)
Lemma sql_update_grant_rest {A} id (f : ConnectorGrant → TaskRun → op (ConnectorGrant * A)) s :
  at_rest s →
  match hosted ns s grants id with
  | Some (DGrant g) =>
      if doc_valid (DGrant g) then
        match hosted ns s runs (grant_run_id g) with
        | Some (DRun r) =>
            if doc_valid (DRun r) then
              match f g r (sql_env s) with
              | (_, inl e) => ∃ s', sql_update_grant ns id f s = (s', inl e) ∧ sql_rows s' = sql_rows s
              | (_, inr (g', a)) =>
                  ∃ s' row, sql_update_grant ns id f s = (s', inr (g', a)) ∧
                    sql_rows s' = <[(ns, grants, id) := row]> (sql_rows s) ∧ rec_payload row = DGrant g'
              end
            else True
        | None => ∃ s', sql_update_grant ns id f s = (s', inl (KeyError "TaskRun not found")) ∧ sql_rows s' = sql_rows s
        | _ => True
        end
      else True
  | None => ∃ s', sql_update_grant ns id f s = (s', inl (KeyError "ConnectorGrant not found")) ∧ sql_rows s' = sql_rows s
  | _ => True
  end.
Proof.
  intros Hs. unfold hosted, sql_update_grant.
  match goal with |- context [session_write ?b s] => set (body := b) end.
  assert (Hraise : ∀ s1 e, body s = (s1, inl e) → ∃ s', session_write body s = (s', inl e) ∧ sql_rows s' = sql_rows s).
  { intros s1 e Hb. eexists. split; [by apply session_write_fails|]. done. }
  assert (H1 := locked_row_rest ConnectorGrant id s Hs). cbn [collection_of Document_ConnectorGrant] in H1.
  destruct (sql_rows s !! (ns, grants, id)) as [row|] eqn:Ek; cbn.
  2: { apply (Hraise s). unfold body. unfold mbind at 1, eff_bind at 1. by rewrite H1. }
  destruct (rec_payload row) as [| | | |g| | | | | ] eqn:Ep; try done.
  destruct (valid_grant g) eqn:Ev; [|done].
  assert (Hb1 : body s = (run_row ← locked_row ns TaskRun (grant_run_id g);
    run ← validate_payload TaskRun run_row;
    '(grant, captured) ← env (f g run);
    now ← env utc_now;
    session_update (ns, grants, id)
      (row <| rec_payload := DGrant grant |> <| rec_revision := (rec_revision row + 1)%Z |>
           <| rec_updated_at := now |>);;
    mret (grant, captured)) s).
  { unfold body. unfold mbind at 1, eff_bind at 1. rewrite H1. unfold mbind at 1, eff_bind at 1.
    rewrite validate_payload_eq, Ep. cbn. by rewrite Ev. }
  assert (H2 := locked_row_rest TaskRun (grant_run_id g) s Hs). cbn [collection_of Document_TaskRun] in H2.
  unfold mbind at 1, eff_bind at 1 in Hb1. rewrite H2 in Hb1.
  destruct (sql_rows s !! (ns, runs, grant_run_id g)) as [run_row|] eqn:Er; cbn; [|by apply (Hraise s)].
  destruct (rec_payload run_row) as [| |r| | | | | | | ] eqn:Epr; try done.
  destruct (valid_run r) eqn:Evr; [|done].
  unfold mbind at 1, eff_bind at 1 in Hb1. rewrite validate_payload_eq, Epr in Hb1. cbn [unwrap Document_TaskRun doc_valid] in Hb1.
  rewrite Evr in Hb1. unfold mbind at 1, eff_bind at 1, env at 1 in Hb1.
  destruct (f g r (sql_env s)) as [w' [e|[g' a]]] eqn:Ef; [by eapply Hraise|].
  set (s1 := s <| sql_env := w' |>) in *.
  set (new := row <| rec_payload := DGrant g' |> <| rec_revision := (rec_revision row + 1)%Z |>
           <| rec_updated_at := w_clock w' (w_reads w') |>).
  set (s2 := s1 <| sql_env := w' <| w_reads := S (w_reads w') |> |>).
  assert (Hb2 : body s = (s2 <| sql_dirty := <[(ns, grants, id) := new]> (sql_dirty s2) |>, inr (g', a))) by (rewrite Hb1; done).
  assert (Hs2 : at_rest s2) by (by repeat apply at_rest_env).
  destruct (committed_update s2 (ns, grants, id) new row Hs2 Ek) as [Hi Hcm].
  rewrite (session_write_commits body s _ _ Hs Hb2 Hi). eexists _, new. split; [done|]. split; [exact Hcm|done].
Qed.
End Writers.

(** ** Creating a task with its run *)

Section Creation.
Context {PF : Platform} (ns : string).

Abbreviation row_key cd := (ns, cd.1, doc_id cd.2).

(** The loop of [create_task_run], from a session with no changed objects: it
    stops at the first document that exists, and otherwise has added them all. *)
Lemma add_documents l s :
  sql_dirty s = ∅ →
  match for_each l (add_document ns) s with
  | (s', inr _) =>
      (∀ cd, cd ∈ l → sql_rows s !! row_key cd = None) ∧
      ∃ new, sql_new s' = sql_new s ++ new ∧ map fst new = map (λ cd, row_key cd) l ∧
        map (λ kr, rec_payload kr.2) new = map snd l ∧
        sql_dirty s' = ∅ ∧ sql_rows s' = sql_rows s ∧ sql_deleted s' = sql_deleted s ∧
        sql_rivals s' = sql_rivals s
  | (s', inl e) =>
      ∃ cd, cd ∈ l ∧ is_Some (sql_rows s !! row_key cd) ∧
        e = StateConflict (String.append (singular cd.1) " already exists")
  end.
Proof.
  revert s. induction l as [|cd l IH]; intros s Hd.
  { cbn. split; [set_solver|]. exists []. by rewrite app_nil_r. }
  cbn [for_each]. unfold mbind at 1, eff_bind at 1.
  assert (Ha : add_document ns cd s =
    match sql_rows s !! row_key cd with
    | Some _ => (s, inl (StateConflict (String.append (singular cd.1) " already exists")))
    | None => (new ← sql_record cd.1 cd.2; session_add (row_key cd) new) s
    end).
  { unfold add_document. unfold mbind at 1, eff_bind at 1, session_get, gets, in_session. rewrite Hd.
    by destruct (sql_rows s !! row_key cd). }
  rewrite Ha. destruct (sql_rows s !! row_key cd) as [old|] eqn:Ek.
  { exists cd. rewrite Ek. split; [set_solver|]. eauto. }
  assert (Hstep : ∃ s1 row, (new ← sql_record cd.1 cd.2; session_add (row_key cd) new) s = (s1, inr ()) ∧
    sql_new s1 = sql_new s ++ [(row_key cd, row)] ∧ rec_payload row = cd.2 ∧ sql_dirty s1 = sql_dirty s ∧
    sql_rows s1 = sql_rows s ∧ sql_deleted s1 = sql_deleted s ∧ sql_rivals s1 = sql_rivals s).
  { eexists _, _. split; [reflexivity|]. split; [reflexivity|]. split; [|done].
    by destruct (apply_projection_frame cd.1 cd.2 {| rec_payload := cd.2;
      rec_assigned_computer_id := None; rec_lifecycle_status := None; rec_parent_id := None;
      rec_revision := 1; rec_created_at := w_clock (sql_env s) (w_reads (sql_env s));
      rec_updated_at := w_clock (sql_env s) (S (w_reads (sql_env s))) |}) as [? _]. }
  destruct Hstep as (s1 & row & -> & Hn1 & Hp1 & Hd1 & Hr1 & Hx1 & Hv1).
  specialize (IH s1). rewrite Hd1 in IH. specialize (IH Hd). rewrite Hr1 in IH.
  destruct (for_each l (add_document ns) s1) as [s' [e|[]]].
  - destruct IH as (cd' & H1 & H2 & H3). exists cd'. split; [set_solver|]. done.
  - destruct IH as (Hfresh & new & Hn & Hk & Hp & Hd' & Hr' & Hx' & Hv'). split.
    { intros cd' [->|H]%elem_of_cons; [done|]. by apply Hfresh. }
    exists ((row_key cd, row) :: new). rewrite Hn, Hn1, <-app_assoc. split; [reflexivity|].
    cbn. rewrite Hk, Hp, Hp1. split_and!; congruence.
Qed.

(** [save_audit_event]: a new row, or the event exists. *)
Lemma sql_save_audit_rest x s :
  at_rest s →
  match sql_save_audit_event ns x s with
  | (s', inr y) =>
      y = x ∧ sql_rows s !! (ns, audit, audit_id x) = None ∧
      ∃ row, sql_rows s' = <[(ns, audit, audit_id x) := row]> (sql_rows s) ∧ rec_payload row = DAudit x
  | (s', inl e) =>
      sql_rows s' = sql_rows s ∧
      ((is_Some (sql_rows s !! (ns, audit, audit_id x)) ∧ e = ValueError "security audit events are append-only") ∨
       (ns, audit, audit_id x) ∈ sql_rivals s)
  end.
Proof.
  intros Hs. unfold sql_save_audit_event. unfold mbind at 1, eff_bind at 1.
  set (k := (ns, audit, audit_id x)).
  match goal with |- context [session_write ?b s] => set (body := b) end.
  destruct (sql_rows s !! k) as [old|] eqn:Ek.
  - assert (Hb : body s = (s, inl (ValueError "security audit events are append-only"))).
    { unfold body. unfold mbind at 1, eff_bind at 1. by rewrite session_get_rest, Ek. }
    rewrite (session_write_fails body s s _ Hs Hb). cbn. eauto.
  - assert (Hb : ∃ row s1, body s = (s1, inr ()) ∧ sql_new s1 = [(k, row)] ∧ sql_dirty s1 = ∅ ∧
      sql_deleted s1 = [] ∧ sql_rivals s1 = sql_rivals s ∧ sql_rows s1 = sql_rows s ∧ rec_payload row = DAudit x).
    { unfold body, mbind, eff_bind. rewrite session_get_rest, Ek by done. cbn.
      eexists _, _. split; [reflexivity|]. cbn. rewrite at_rest_new, at_rest_dirty, at_rest_deleted by done. done. }
    destruct Hb as (row & s1 & Hb & Hn & Hd & Hx & Hv & Hr & Hp).
    assert (Hi : insertable s1 = bool_decide (k ∉ sql_rivals s)).
    { unfold insertable. rewrite Hn, Hr, Hv. cbn. rewrite bool_decide_eq_true_2 by apply NoDup_singleton. cbn.
      rewrite andb_true_r. apply bool_decide_ext. naive_solver. }
    destruct (bool_decide_reflect (k ∉ sql_rivals s)) as [Hriv|Hriv].
    + rewrite (session_write_commits body s s1 () Hs Hb Hi). split; [done|]. split; [done|]. exists row.
      split; [|done]. unfold committed, flushed. cbn. rewrite Hn, Hd, Hx, Hr. cbn.
      by rewrite (left_id_L ∅ (∪)), insert_empty, <-insert_union_singleton_l.
    + assert (Hf : ∃ s' e, session_write body s = (s', inl e) ∧ sql_rows s' = sql_rows s).
      { pose proof Hs as [Ha Hc]. unfold session_write. rewrite Ha, Hc. unfold mbind, eff_bind. rewrite Hb.
        unfold flush. rewrite Hi. eexists _, _. split; [reflexivity|]. done. }
      destruct Hf as (s' & e & -> & Hrows). split; [done|]. right. by destruct (decide (k ∈ sql_rivals s)).
Qed.

(** The documents [create_task_run] writes. *)
Definition created_documents (t : CodeTask) (r : TaskRun) (ws : list ExecutionWorkspace) :
    list (Collection * Doc) :=
  (tasks, DTask t) :: (runs, DRun r) :: map (λ x, (workspaces, DWorkspace x)) ws.

(** Whether it can: no document exists or is being inserted, none is given
    twice. *)
Definition creatable_rows (s : SqlWorld) (l : list (Collection * Doc)) : Prop :=
  NoDup (map (λ cd, row_key cd) l) ∧
  ∀ cd, cd ∈ l → sql_rows s !! row_key cd = None ∧ row_key cd ∉ sql_rivals s.

Lemma insertable_added s new l :
  sql_new s = new → map fst new = map (λ cd, row_key cd) l →
  insertable s = true ↔ NoDup (map (λ cd, row_key cd) l) ∧
    ∀ cd, cd ∈ l → sql_rows s !! row_key cd = None ∧ row_key cd ∉ sql_rivals s.
Proof.
  intros Hn Hk. unfold insertable. rewrite Hn, andb_true_iff, bool_decide_eq_true, Hk, forallb_forall.
  f_equiv. split.
  - intros H cd Hcd. assert (Hin : row_key cd ∈ map fst new) by (rewrite Hk; apply list_elem_of_fmap; eauto).
    apply list_elem_of_fmap in Hin as (kr & -> & Hkr). apply list_elem_of_In in Hkr.
    by apply H, bool_decide_eq_true in Hkr.
  - intros H kr Hkr%list_elem_of_In. apply bool_decide_eq_true.
    assert (Hin : kr.1 ∈ map fst new) by (apply list_elem_of_fmap; eauto).
    rewrite Hk in Hin. apply list_elem_of_fmap in Hin as (cd & -> & Hcd). by apply H.
Qed.

Lemma sql_create_rest t r ws s :
  at_rest s →
  match sql_create_task_run ns t r ws s with
  | (s', inr res) =>
      res = (t, r, ws) ∧ creatable_rows s (created_documents t r ws) ∧
      (∀ cd, cd ∈ created_documents t r ws → hosted ns s' cd.1 (doc_id cd.2) = Some cd.2) ∧
      (∀ k, (∀ cd, cd ∈ created_documents t r ws → k ≠ row_key cd) → sql_rows s' !! k = sql_rows s !! k)
  | (s', inl e) =>
      sql_rows s' = sql_rows s ∧ ¬ creatable_rows s (created_documents t r ws) ∧ ∃ msg, e = StateConflict msg
  end.
Proof.
  intros Hs. unfold sql_create_task_run. fold (created_documents t r ws).
  generalize (created_documents t r ws) as l. intros l. unfold mbind at 1, eff_bind at 1.
  match goal with |- context [session_write ?b s] => set (body := b) end.
  pose proof (add_documents l s (at_rest_dirty s Hs)) as Hadd.
  destruct (for_each l (add_document ns) s) as [s1 [e|u]] eqn:El.
  - destruct Hadd as (cd & Hcd & [row Hrow] & He).
    rewrite (session_write_fails body s s1 e Hs) by (unfold body, mbind, eff_bind; by rewrite El).
    cbn. split; [done|]. split; [|eauto]. intros [_ H]. destruct (H cd Hcd) as [H0 _]. congruence.
  - destruct Hadd as (Hfresh & new & Hn & Hk & Hp & Hd & Hr & Hx & Hv).
    rewrite (at_rest_new s Hs) in Hn. cbn in Hn. rewrite (at_rest_deleted s Hs) in Hx.
    pose proof (insertable_added s1 new l Hn Hk) as Hi. rewrite Hr, Hv in Hi.
    fold (creatable_rows s l) in Hi. destruct (insertable s1) eqn:Ei.
    + assert (Hb : body s = (clear_session (s1 <| sql_rows := flushed s1 |>), inr ())).
      { unfold body. unfold mbind at 1, eff_bind at 1. rewrite El. unfold catch, flush. by rewrite Ei. }
      rewrite (session_write_commits body s _ () Hs Hb) by apply insertable_clear.
      split; [done|]. split; [by apply Hi|].
      assert (Hrows : sql_rows (committed (clear_session (s1 <| sql_rows := flushed s1 |>))) =
        list_to_map new ∪ sql_rows s).
      { rewrite committed_clear. cbn. unfold flushed. rewrite Hd, Hn, Hx, Hr. cbn.
        by rewrite (left_id_L ∅ (∪)). }
      destruct Hi as [Hi _]. destruct (Hi eq_refl) as [Hnd _].
      split.
      * intros cd Hcd. unfold hosted. rewrite Hrows. apply list_elem_of_lookup in Hcd as [i Hcd].
        assert (Hki : (fst <$> new) !! i = Some (row_key cd)).
        { trans (((λ cd, row_key cd) <$> l) !! i); [by f_equal|]. by rewrite list_lookup_fmap, Hcd. }
        assert (Hpi : ((λ kr : Key * CodeControlRecord, rec_payload kr.2) <$> new) !! i = Some cd.2).
        { trans ((snd <$> l) !! i); [by f_equal|]. by rewrite list_lookup_fmap, Hcd. }
        rewrite (list_lookup_fmap (λ kr : Key * CodeControlRecord, rec_payload kr.2) new i) in Hpi.
        rewrite (list_lookup_fmap fst new i) in Hki.
        destruct (new !! i) as [[k row]|] eqn:Hkr; [|done].
        cbn in Hki, Hpi. injection Hki as ->. injection Hpi as Hpl.
        assert (Hl : list_to_map (M := Table) new !! row_key cd = Some row).
        { apply elem_of_list_to_map_1; [|by eapply list_elem_of_lookup_2].
          change (NoDup (map fst new)). by rewrite Hk. }
        rewrite (lookup_union_Some_l _ _ _ _ Hl). cbn. by rewrite Hpl.
      * intros k Hne. rewrite Hrows. apply lookup_union_r, not_elem_of_list_to_map_1.
        change (k ∉ map fst new). rewrite Hk. intros (cd & -> & Hcd)%list_elem_of_fmap. by apply (Hne cd).
    + assert (Hb : body s = (s1, inl (StateConflict "task run already exists"))).
      { unfold body. unfold mbind at 1, eff_bind at 1. rewrite El. unfold catch, flush. by rewrite Ei. }
      rewrite (session_write_fails body s _ _ Hs Hb). cbn. split; [done|]. split; [|eauto].
      intros Hc. apply Hi in Hc. done.
Qed.
End Creation.

(** ** Updating and claiming a run *)

Section Runs.
Context {PF : Platform} (ns : string).

(** What a flush leaves under the key of a row that exists: the object as the
    session holds it. *)
Lemma flushed_row s k row :
  insertable s = true → sql_rows s !! k = Some row → k ∉ sql_deleted s →
  flushed s !! k = Some (in_session s k row).
Proof.
  intros Hi Hk Hd. unfold flushed, in_session. rewrite lookup_foldr_delete, decide_False by done.
  destruct (sql_dirty s !! k) as [row'|] eqn:E; [by rewrite (lookup_union_Some_l _ _ _ _ E)|].
  rewrite lookup_union_r by done. rewrite lookup_union_r; [done|].
  apply not_elem_of_list_to_map_1. intros (kr & -> & Hkr)%list_elem_of_fmap.
  unfold insertable in Hi. apply andb_true_iff in Hi as [_ Hi]. rewrite forallb_forall in Hi.
  apply list_elem_of_In, Hi, bool_decide_eq_true in Hkr as [Hn _]. congruence.
Qed.

Lemma sql_update_run_rest id f s :
  at_rest s → table_wf (sql_rows s) →
  match sql_update_run ns id f s with
  | (s', inl e) => sql_rows s' = sql_rows s
  | (s', inr run) =>
      ∃ run0 run1 s1, hosted ns s runs id = Some (DRun run0) ∧ valid_run run0 = true ∧
        f run0 (s <| sql_active := true |>) = (s1, inr run1) ∧
        (run = run1 ∨ ∃ now, run = run1 <| run_updated_at := now |>) ∧
        (is_Some (sql_rows s1 !! (ns, runs, id)) → (ns, runs, id) ∉ sql_deleted s1 →
           hosted ns s' runs id = Some (DRun run)) ∧
        (∀ k, k ≠ (ns, runs, id) → sql_rows s' !! k = flushed s1 !! k)
  end.
Proof.
  intros Hs Hwf. destruct (sql_update_run ns id f s) as [s' [e|run]] eqn:E.
  { exact (session_write_inl _ s s' e Hs E). }
  unfold sql_update_run in E. apply session_write_inr in E as (s2 & E & Hi & ->); [|done].
  unfold with_active in E.
  match type of E with (let '(_, _) := ?b ?t in _) = _ => set (body := b) in E; set (sa := t) in E end.
  destruct (body sa) as [s3 r3] eqn:Eb. injection E as <- ->.
  match type of Hi with insertable ?x = _ =>
    change (insertable s3 = true) in Hi;
    assert (Hcm : sql_rows (committed x) = flushed s3) by done;
    revert Hcm; generalize (committed x) end.
  intros s' Hcm. unfold hosted. rewrite Hcm. clear Hcm.
  assert (Hsa : sql_rows sa = sql_rows s ∧ sql_dirty sa = ∅) by (split; [done|apply (at_rest_dirty s Hs)]).
  destruct Hsa as [Hra Hda]. unfold body in Eb. clear body.
  apply bind_inr in Eb as (w & row0 & H0 & Eb).
  assert (Hrow0 : w = sa ∧ sql_rows s !! (ns, runs, id) = Some row0).
  { unfold locked_row, mbind, eff_bind, in_session in H0. cbn [gets] in H0. rewrite Hra, Hda in H0.
    cbn [collection_of Document_TaskRun] in H0. destruct (sql_rows s !! (ns, runs, id)); [|done]. cbn in H0.
    rewrite lookup_empty in H0. by injection H0 as <- <-. }
  destruct Hrow0 as [-> Hrow0]. apply bind_inr in Eb as (w & run0 & H1 & Eb).
  rewrite validate_payload_eq in H1.
  destruct (unwrap (rec_payload row0)) as [x|] eqn:Eu; [|done]. apply unwrap_inv in Eu.
  rewrite Eu in H1. destruct (doc_valid (wrap x)) eqn:Ev; [|done]. injection H1 as <- <-.
  apply bind_inr in Eb as (s1 & run1 & Hf & Eb). apply bind_inr in Eb as (w & found & Hg & Eb).
  injection Hg as <- <-. cbn zeta in Eb. exists x, run1, s1.
  rewrite Hrow0. cbn [fmap option_fmap option_map]. rewrite Eu. split; [done|]. split; [done|]. split; [exact Hf|].
  match type of Eb with (if same_payload run1 ?r then _ else _) _ = _ => set (row := r) in Eb end.
  destruct (same_payload run1 row) eqn:Esp.
  - injection Eb as <- <-. split; [by left|]. split; [|done].
    intros [rw Hrw] Hd. rewrite (flushed_row s1 _ rw Hi Hrw Hd). cbn [fmap option_fmap option_map].
    assert (Er : row = in_session s1 (ns, runs, id) rw) by (unfold row; by rewrite Hrw).
    rewrite <-Er. unfold same_payload in Esp. destruct (rec_payload row); try done.
    by apply bool_decide_eq_true in Esp as ->.
  - apply bind_inr in Eb as (w1 & now & Hn & Eb). unfold env in Hn. cbn in Hn. injection Hn as <- <-.
    apply bind_inr in Eb as (w2 & now' & Hn & Eb). unfold env in Hn. cbn in Hn. injection Hn as <- <-.
    apply bind_inr in Eb as (w3 & u & Hn & Eb). apply raise_if_inr in Hn as [Hfnd ->].
    apply bind_inr in Eb as (w4 & u' & Hn & Eb). injection Hn as <- <-. injection Eb as <- <-.
    split; [right; eauto|]. split.
    + intros [rw Hrw] Hd. erewrite flushed_row; [|exact Hi|exact Hrw|exact Hd].
      unfold in_session. cbn. by rewrite lookup_insert_eq.
    + intros k Hk. unfold flushed. rewrite !lookup_foldr_delete. cbn. destruct (decide _); [done|].
      rewrite !lookup_union. by rewrite lookup_insert_ne.
Qed.
End Runs.

(** an update of a run in the hosted store is one transaction with
    everything its callback stores. If anything raises, the lookup, the
    callback or the commit, no row of the table has changed; if it returns, the
    callback ran on the stored run, the run it returned is what is stored now
    (unless the callback removed the row), and every other row is as the
    callback left it. *)
Theorem hosted_update_run_atomic ns id f s :
  at_rest s → table_wf (sql_rows s) →
  match sql_update_run ns id f s with
  | (s', inl e) => sql_rows s' = sql_rows s
  | (s', inr run) =>
      ∃ run0 run1 s1, hosted ns s runs id = Some (DRun run0) ∧ valid_run run0 = true ∧
        f run0 (s <| sql_active := true |>) = (s1, inr run1) ∧
        (run = run1 ∨ ∃ now, run = run1 <| run_updated_at := now |>) ∧
        (is_Some (sql_rows s1 !! (ns, runs, id)) → (ns, runs, id) ∉ sql_deleted s1 →
           hosted ns s' runs id = Some (DRun run)) ∧
        (∀ k, k ≠ (ns, runs, id) → sql_rows s' !! k = flushed s1 !! k)
  end.
Proof. apply sql_update_run_rest. Qed.

(** A callback that stores a workspace, changes the run, and then fails, as the
    callback of an event whose side effect raises. *)
Definition demo_half_applied (run : TaskRun) : sql TaskRun :=
  sql_save_workspace "org-a" (new_ExecutionWorkspace "w1" (run_id run) "repo" "c1" 0 0);;
  raise (RuntimeError "side effect failed").

Definition demo_running : SqlWorld :=
  (sql_save_run "org-a" (demo_run "r1" "t" "c1" 10) demo_tenants).1.

Lemma demo_running_ok : at_rest demo_running ∧ table_wf (sql_rows demo_running).
Proof.
  assert (Hp : store_program (PF := plain_platform) "org-a" _ (sql_save_run "org-a" (demo_run "r1" "t" "c1" 10)))
    by (unfold sql_save_run; program).
  unfold demo_running. split.
  - by apply (program_at_rest "org-a" _ _ demo_tenants Hp), demo_tenants_rest.
  - intros k row Hk. destruct (program_keeps "org-a" (sql_rows demo_tenants) _ _ Hp demo_tenants) as [H _].
    + apply at_rest_sound; [exact demo_tenants_rest|exact demo_tenants_wf].
    + exact (sd_rows _ _ _ H k row Hk).
Qed.

Lemma hosted_update_run_atomic_witness :
  (sql_update_run "org-a" "r1" demo_half_applied demo_running).2 =
    inl (RuntimeError "side effect failed") ∧
  sql_rows (sql_update_run "org-a" "r1" demo_half_applied demo_running).1 =
    sql_rows demo_running.
Proof.
  assert (E : (sql_update_run "org-a" "r1" demo_half_applied demo_running).2 =
    inl (RuntimeError "side effect failed")) by (vm_compute; reflexivity).
  split; [exact E|].
  pose proof (hosted_update_run_atomic "org-a" "r1" demo_half_applied demo_running
    (proj1 demo_running_ok) (proj2 demo_running_ok)) as H.
  destruct (sql_update_run "org-a" "r1" demo_half_applied demo_running) as [s' r]. cbn in E. subst r. exact H.
Defined.
