(* ===== verification/SqlClaims.v ===== *)
(** * Claiming runs from many schedulers.

    [claim_run] of [src/cowork/coding/sql_control_store.py] takes the oldest
    waiting run of a computer with [SELECT ... FOR UPDATE SKIP LOCKED], so that
    "multiple scheduler replicas make progress without assigning the same run
    twice".  Here the two halves of that transaction, the locking query and the
    write that commits, are steps of different replicas, interleaved in any
    order with each other, with replicas that crash or fail, and with any other
    transaction; a row another transaction has locked can be written only after
    it lets go. *)
From stdpp Require Import base list gmap strings option relations.
From Stdlib Require Import ZArith Lia.
From S2P Require Import Prelude ControlModels ControlWorld RunState ControlStore StoreJournal SqlStore SqlTenants SqlSpec.

(** Whether a row waits for a computer to take it. *)
Definition waiting_row (row : CodeControlRecord) : bool :=
  match rec_lifecycle_status row with
  | Some v => bool_decide (v ∈ [RunStatus_value queued; RunStatus_value recovering])
  | None => false
  end.

Section Claims.
Context {PF : Platform} (ns : string).

Lemma claimable_row_iff c L k row :
  claimable_row ns c L k row = true ↔
  key_ns k = ns ∧ key_collection k = runs ∧ rec_assigned_computer_id row = Some c ∧
  waiting_row row = true ∧ k ∉ L.
Proof.
  unfold claimable_row, in_collection. fold (waiting_row row).
  rewrite !andb_true_iff, !bool_decide_eq_true. naive_solver.
Qed.

(** The locking query takes the oldest waiting row nobody else holds. *)
Lemma claim_select_rest c s :
  at_rest s →
  ∃ o, claim_select ns c s = (s, inr o) ∧
    match o with
    | None => ∀ k row, sql_rows s !! k = Some row → claimable_row ns c (sql_locked s) k row = false
    | Some (k, row) =>
        sql_rows s !! k = Some row ∧ claimable_row ns c (sql_locked s) k row = true ∧
        ∀ k' row', sql_rows s !! k' = Some row' → claimable_row ns c (sql_locked s) k' row' = true →
          (rec_created_at row <= rec_created_at row')%Z
    end.
Proof.
  intros Hs. unfold claim_select. unfold mbind at 1, eff_bind at 1. cbn [gets].
  assert (Hin : ∀ k row, (k, row) ∈ rows_where (claimable_row ns c (sql_locked s)) s ↔
    sql_rows s !! k = Some row ∧ claimable_row ns c (sql_locked s) k row = true)
    by (intros; apply elem_of_rows_where).
  destruct (rows_where _ s) as [|first rest].
  - exists None. split; [done|]. intros k row Hk. destruct (claimable_row _ _ _ k row) eqn:E; [|done].
    assert (H : (k, row) ∈ []) by by apply Hin. by apply not_elem_of_nil in H.
  - destruct (min_by (λ kr, rec_created_at kr.2) first rest) as [k row] eqn:Em. exists (Some (k, row)).
    split.
    { unfold mbind, eff_bind. cbn. unfold in_session. by rewrite (at_rest_dirty s Hs), lookup_empty. }
    assert (Hk : (k, row) ∈ first :: rest) by (rewrite <-Em; apply min_by_elem).
    apply Hin in Hk as [H1 H2]. split; [done|]. split; [done|]. intros k' row' H1' H2'.
    pose proof (min_by_least (λ kr : Key * CodeControlRecord, rec_created_at kr.2) first rest (k', row')) as Hl.
    rewrite Em in Hl. apply Hl, Hin. done.
Qed.

Lemma waiting_status row r :
  rec_lifecycle_status row = Some (RunStatus_value (run_status r)) → waiting_row row = true →
  run_status r ∈ [queued; recovering].
Proof.
  unfold waiting_row. intros ->. rewrite bool_decide_eq_true.
  destruct (run_status r); vm_compute; set_solver.
Qed.

(** The write half, committed: it fails only on an invalid payload, and then
    changes nothing. *)
Lemma claim_write_rest l e k row s :
  at_rest s → sql_rows s !! k = Some row → row_wf k row → key_collection k = runs →
  waiting_row row = true →
  match session_write (claim_write l e k row) s with
  | (s', inl _) => sql_rows s' = sql_rows s ∧ doc_valid (rec_payload row) = false
  | (s', inr run) =>
      run_id run = key_document k ∧ run_status run = preparing ∧ run_lease_id run = Some l ∧
      run_lease_expires_at run = Some e ∧
      ∃ row', sql_rows s' = <[k := row']> (sql_rows s) ∧ rec_payload row' = DRun run ∧
        rec_lifecycle_status row' = Some (RunStatus_value preparing)
  end.
Proof.
  intros Hs Hk Hw Hc Hwait. pose proof Hw as [Hcd Hd Hp Hr]. rewrite Hc in Hcd, Hp.
  destruct (rec_payload row) as [| |r0| | | | | | | ] eqn:Epl; try done.
  assert (Hst : run_status r0 ∈ [queued; recovering]).
  { apply (waiting_status row); [|done]. rewrite <-Hp. done. }
  set (body := claim_write l e k row).
  assert (Hv : validate_payload TaskRun row s =
    (s, if valid_run r0 then inr r0 else inl (ValidationError "TaskRun"))).
  { rewrite validate_payload_eq, Epl. done. }
  destruct (valid_run r0) eqn:Ev.
  2: { rewrite (session_write_fails body s s (ValidationError "TaskRun") Hs); [done|].
       unfold body, claim_write. unfold mbind at 1, eff_bind at 1. by rewrite Hv. }
  set (r1 := r0 <| run_lease_id := Some l |> <| run_lease_expires_at := Some e |>).
  set (w := sql_env s).
  set (r2 := moved_run r1 preparing None (w_clock w (w_reads w))).
  assert (Ht : transition_run r1 preparing None w = ((utc_now w).1, inr r2)).
  { destruct (transition_run_cases r1 preparing None w) as [(E & _)|[(_ & _ & E)|(_ & Hn & _)]]; [|exact E|].
    - cbn in E. rewrite <-E in Hst. set_solver.
    - exfalso. apply Hn. cbn. destruct (run_status r0); set_solver. }
  set (r3 := r2 <| run_updated_at := w_clock w (S (w_reads w)) |>).
  assert (Hb : ∃ w' row', body s = ((s <| sql_env := w' |>) <| sql_dirty := <[k := row']> (sql_dirty s) |>, inr r3) ∧
    rec_payload row' = DRun r3 ∧ rec_lifecycle_status row' = Some (RunStatus_value (run_status r3))).
  { unfold body, claim_write. unfold mbind at 1, eff_bind at 1. rewrite Hv. cbn zeta. fold r1.
    unfold mbind at 1, eff_bind at 1. unfold env at 1. fold w. rewrite Ht.
    eexists _, _. split; [reflexivity|]. done. }
  destruct Hb as (w' & row' & Hb & Hp' & Hl').
  destruct (committed_update (s <| sql_env := w' |>) k row' row (at_rest_env s w' Hs) Hk) as [Hi Hcm].
  rewrite (session_write_commits body s _ r3 Hs Hb Hi).
  destruct (moved_run_frame r1 preparing None (w_clock w (w_reads w))) as (Hid & _ & _ & _ & _ & _ & _ & Hs' & _).
  destruct (moved_run_lease r1 preparing None (w_clock w (w_reads w)) eq_refl) as (Hl1 & Hl2 & _).
  split; [etrans; [exact Hid|exact Hd]|]. split; [exact Hs'|]. split; [exact Hl1|]. split; [exact Hl2|].
  exists row'. split; [exact Hcm|]. split; [done|]. rewrite Hl'. exact (f_equal (Some ∘ RunStatus_value) Hs').
Qed.
End Claims.

(** ** Replicas *)

(** What is recorded of a history: a committed call of [claim_run], with the
    lease and expiry it was given and the run it returned, and a committed write
    of a row by anything else. *)
Inductive claim_event :=
  | Claimed (k : Key) (lease_id : string) (lease_expires_at : Z) (run : TaskRun)
  | Wrote (k : Key).

Record Cluster := {
  cl_db : SqlWorld;
  (** The row each replica has locked and read in its open claim. *)
  cl_open : gmap nat (Key * CodeControlRecord);
  (** Newest first. *)
  cl_log : list claim_event;
}.

Definition open_keys (o : gmap nat (Key * CodeControlRecord)) : gset Key :=
  list_to_set ((λ x, x.2.1) <$> map_to_list o).

Lemma elem_of_open_keys o k : k ∈ open_keys o ↔ ∃ r row, o !! r = Some (k, row).
Proof.
  unfold open_keys. rewrite elem_of_list_to_set, list_elem_of_fmap. split.
  - intros ([r [k' row]] & -> & H). apply elem_of_map_to_list in H. eauto.
  - intros (r & row & H). exists (r, (k, row)). split; [done|]. by apply elem_of_map_to_list.
Qed.

Section Cluster.
Context {PF : Platform} (ns : string).

Inductive claim_step : Cluster → Cluster → Prop :=
  (** The query of [claim_run]: rows other replicas hold are skipped. *)
  | step_select cl r c s k row :
      cl_open cl !! r = None →
      claim_select ns c ((cl_db cl) <| sql_locked := open_keys (cl_open cl) |>) = (s, inr (Some (k, row))) →
      claim_step cl {| cl_db := cl_db cl; cl_open := <[r := (k, row)]> (cl_open cl); cl_log := cl_log cl |}
  (** The rest of [claim_run] and the commit. *)
  | step_commit cl r k row l e s run :
      cl_open cl !! r = Some (k, row) →
      session_write (claim_write l e k row) (cl_db cl) = (s, inr run) →
      claim_step cl {| cl_db := s; cl_open := delete r (cl_open cl); cl_log := Claimed k l e run :: cl_log cl |}
  (** The replica fails or dies: its transaction rolls back. *)
  | step_abort cl r :
      claim_step cl {| cl_db := cl_db cl; cl_open := delete r (cl_open cl); cl_log := cl_log cl |}
  (** Another transaction commits, having waited for the rows it writes. *)
  | step_other cl s ks :
      at_rest s → table_wf (sql_rows s) →
      (∀ k, k ∈ ks → k ∉ open_keys (cl_open cl)) →
      (∀ k, k ∉ ks → sql_rows s !! k = sql_rows (cl_db cl) !! k) →
      claim_step cl {| cl_db := s; cl_open := cl_open cl; cl_log := (Wrote <$> ks) ++ cl_log cl |}.

(** The claim that is the latest event about a row. *)
Fixpoint last_claim (log : list claim_event) (k : Key) : option (string * Z * TaskRun) :=
  match log with
  | [] => None
  | Claimed k' l e run :: log' => if decide (k' = k) then Some (l, e, run) else last_claim log' k
  | Wrote k' :: log' => if decide (k' = k) then None else last_claim log' k
  end.

(** Between two claims of a row there is a write of it. *)
Definition claims_separated (log : list claim_event) : Prop :=
  ∀ k a b ea eb ra rb l1 l2 l3, log = l1 ++ Claimed k a ea ra :: l2 ++ Claimed k b eb rb :: l3 → Wrote k ∈ l2.

(** What the caller of a claim gets: the run of the row, being prepared, under
    the lease the caller asked for. *)
Record leased (k : Key) (l : string) (e : Z) (run : TaskRun) : Prop := {
  ls_id : run_id run = key_document k;
  ls_status : run_status run = preparing;
  ls_lease : run_lease_id run = Some l;
  ls_expires : run_lease_expires_at run = Some e;
}.

Lemma last_claim_wrote ks log k x :
  last_claim ((Wrote <$> ks) ++ log) k = Some x → k ∉ ks ∧ last_claim log k = Some x.
Proof.
  induction ks as [|k' ks IH]; cbn; [by split; [apply not_elem_of_nil|]|].
  destruct (decide (k' = k)) as [|Hne]; [done|]. intros [H1 H2]%IH. split; [|done].
  apply not_elem_of_cons. done.
Qed.

Lemma last_claim_none log k b eb rb l2 l3 :
  last_claim log k = None → log = l2 ++ Claimed k b eb rb :: l3 → Wrote k ∈ l2.
Proof.
  revert l2. induction log as [|ev log IH]; intros l2 Hl E; [by destruct l2|].
  destruct l2 as [|ev' l2]; injection E as -> ->; cbn in Hl.
  - by destruct (decide (k = k)).
  - destruct ev' as [k' a ea ra|k']; destruct (decide (k' = k)) as [->|]; try done;
      apply elem_of_cons; first [by left|right; by apply IH].
Qed.

Record cluster_inv (cl : Cluster) : Prop := {
  ci_rest : at_rest (cl_db cl);
  ci_wf : table_wf (sql_rows (cl_db cl));
  (** A locked row is still what its replica read, and waits. *)
  ci_open : ∀ r k row, cl_open cl !! r = Some (k, row) →
    sql_rows (cl_db cl) !! k = Some row ∧ key_ns k = ns ∧ key_collection k = runs ∧ waiting_row row = true;
  ci_inj : ∀ r1 r2 k row1 row2,
    cl_open cl !! r1 = Some (k, row1) → cl_open cl !! r2 = Some (k, row2) → r1 = r2;
  (** A claimed row nobody wrote since holds the run its claimer got. *)
  ci_claimed : ∀ k l e run, last_claim (cl_log cl) k = Some (l, e, run) →
    ∃ row, sql_rows (cl_db cl) !! k = Some row ∧ rec_payload row = DRun run ∧ waiting_row row = false;
  ci_leased : ∀ k l e run, Claimed k l e run ∈ cl_log cl → leased k l e run;
  ci_log : claims_separated (cl_log cl);
}.

Lemma claim_write_program l e k row s :
  at_rest s → table_wf (sql_rows s) → row_wf k row → key_ns k = ns → key_collection k = runs →
  at_rest (session_write (claim_write l e k row) s).1 ∧
  table_wf (sql_rows (session_write (claim_write l e k row) s).1).
Proof.
  intros Hs Hwf Hw Hn Hc. split.
  - apply session_write_rest; [|done]. unfold claim_write, validate_payload, session_update. walk_peers.
  - destruct (session_write_keeps ns (sql_rows s) _ _ (claim_write_keeps ns (sql_rows s) l e k row Hw Hn Hc)
      s (at_rest_sound ns s Hs Hwf)) as [Hk _].
    intros k' row' H. exact (sd_rows _ _ _ Hk k' row' H).
Qed.

Lemma separated_others ks log : claims_separated log → claims_separated ((Wrote <$> ks) ++ log).
Proof.
  induction ks as [|k' ks IH]; [done|]. intros Hl k a b ea eb ra rb l1 l2 l3 E. cbn in E.
  destruct l1 as [|ev l1]; [done|]. injection E as _ E. by eapply (IH Hl).
Qed.

Lemma claim_step_inv cl cl' : claim_step cl cl' → cluster_inv cl → cluster_inv cl'.
Proof.
  intros Hstep [Hs Hwf Hop Hinj Hcl Hls Hlog]. destruct Hstep as [cl r c s k row Hr Hsel|cl r k row l e s run Hr Hw|cl r|cl s ks Hs' Hwf' Hks Hsame].
  - assert (Hs1 : at_rest ((cl_db cl) <| sql_locked := open_keys (cl_open cl) |>)).
    { destruct Hs as [Ha Hc]. split; [done|]. rewrite <-Hc. done. }
    destruct (claim_select_rest ns c _ Hs1) as (o & Eo & Ho). rewrite Eo in Hsel. injection Hsel as <- ->.
    destruct Ho as (H1 & H2 & _). cbn in H1. apply claimable_row_iff in H2 as (Hn & Hc & _ & Hwait & Hfree).
    cbn in Hfree. split; cbn; try done.
    + intros r' k' row' [[<- [= <- <-]]|[_ H]]%lookup_insert_Some; [done|]. eauto.
    + intros r1 r2 k' row1 row2 [[<- [= <- <-]]|[Hn1 Ho1]]%lookup_insert_Some
        [[<- E2]|[Hn2 Ho2]]%lookup_insert_Some; [done| |injection E2 as <- <-|by eauto].
      * destruct Hfree. apply elem_of_open_keys. eauto.
      * destruct Hfree. apply elem_of_open_keys. eauto.
  - destruct (Hop r k row Hr) as (Hk & Hn & Hc & Hwait). pose proof (Hwf k row Hk) as Hrow.
    pose proof (claim_write_rest l e k row (cl_db cl) Hs Hk Hrow Hc Hwait) as Hspec. rewrite Hw in Hspec.
    destruct Hspec as (Hsid & Hsst & Hsl & Hse & row' & Hrows & Hpay & Hlc).
    destruct (claim_write_program l e k row (cl_db cl) Hs Hwf Hrow Hn Hc) as [Hrest Hwf']. rewrite Hw in Hrest, Hwf'.
    assert (Hnw : waiting_row row' = false) by (unfold waiting_row; by rewrite Hlc).
    split; cbn; try done.
    + intros r' k' row1 [Hne H]%lookup_delete_Some. destruct (Hop r' k' row1 H) as (Hk' & ?).
      split; [|done]. rewrite Hrows, lookup_insert_ne; [done|]. intros <-. by destruct (Hinj _ _ _ _ _ Hr H).
    + intros r1 r2 k' row1 row2 [_ H1]%lookup_delete_Some [_ H2]%lookup_delete_Some. eauto.
    + intros k' l' e' run'. rewrite Hrows. destruct (decide (k = k')) as [<-|Hne].
      * intros [= <- <- <-]. rewrite lookup_insert_eq. eauto.
      * rewrite lookup_insert_ne by done. apply Hcl.
    + intros k' l' e' run' [[= -> -> -> ->]|Hin]%elem_of_cons; [by split|by apply Hls].
    + assert (Hlast : last_claim (cl_log cl) k = None).
      { destruct (last_claim _ k) as [[[l' e'] run']|] eqn:E; [|done].
        apply Hcl in E as (row1 & Hk1 & _ & Hw1). congruence. }
      intros k' a b ea eb ra rb [|ev l1] l2 l3 E; cbn in E.
      * injection E as <- _ _ _ E. by eapply last_claim_none.
      * injection E as <- E. by eapply Hlog.
  - split; cbn; try done.
    + intros r' k row [_ H]%lookup_delete_Some. eauto.
    + intros r1 r2 k row1 row2 [_ H1]%lookup_delete_Some [_ H2]%lookup_delete_Some. eauto.
  - split; cbn; try done.
    + intros r k row H. destruct (Hop r k row H) as (Hk & ?). split; [|done].
      rewrite Hsame; [done|]. intros Hin. apply (Hks k Hin), elem_of_open_keys. eauto.
    + intros k l e run [H1 H2]%last_claim_wrote. rewrite Hsame by done. by apply (Hcl _ l e).
    + intros k l e run [H|H]%elem_of_app; [by apply list_elem_of_fmap in H as (? & ? & _)|by apply Hls].
    + by apply separated_others.
Qed.

(** A deployment before its first claim. *)
Definition cluster_start (s : SqlWorld) : Cluster := {| cl_db := s; cl_open := ∅; cl_log := [] |}.

Lemma cluster_inv_reachable s cl :
  at_rest s → table_wf (sql_rows s) → rtc claim_step (cluster_start s) cl → cluster_inv cl.
Proof.
  intros Hs Hwf Hst. assert (H0 : cluster_inv (cluster_start s)).
  { split; cbn; try done.
    - intros k l e run H. by apply not_elem_of_nil in H.
    - intros k a b ea eb ra rb [|? ?] l2 l3 E; done. }
  revert H0. generalize (cluster_start s), Hst. intros c0 Hst'. clear Hst.
  induction Hst'; eauto using claim_step_inv.
Qed.
End Cluster.

(** C32: no run is assigned twice, and a claim is what its caller was told.
    Whatever schedulers, crashes and other transactions do, in any interleaving
    of the locking query and the commit of [claim_run], two replicas never hold
    the same run, and between two committed claims of a run some other
    transaction wrote that run (put it back in the queue).  The run a claim
    returned is the claimed one, in preparation, under the lease and expiry
    [claim_run] was called with, and that very run stays stored in the row until
    another transaction writes the row. *)
Theorem hosted_claims_exclusive {PF : Platform} ns s cl :
  at_rest s → table_wf (sql_rows s) → rtc (claim_step ns) (cluster_start s) cl →
  (∀ r1 r2 k row1 row2, cl_open cl !! r1 = Some (k, row1) → cl_open cl !! r2 = Some (k, row2) → r1 = r2) ∧
  claims_separated (cl_log cl) ∧
  (∀ k l e run, Claimed k l e run ∈ cl_log cl → leased k l e run) ∧
  (∀ k l e run, last_claim (cl_log cl) k = Some (l, e, run) →
     ∃ row, sql_rows (cl_db cl) !! k = Some row ∧ rec_payload row = DRun run).
Proof.
  intros Hs Hwf Hst. destruct (cluster_inv_reachable ns s cl Hs Hwf Hst) as [_ _ _ Hinj Hcl Hls Hlog].
  split_and!; [done|done|done|]. intros k l e run H. destruct (Hcl k l e run H) as (row & ? & ? & _). eauto.
Qed.

(** Two schedulers ask at the same time: the second skips the run the first has
    locked, and the first commits. *)
Definition demo_first : Cluster := cluster_start demo_running.

Lemma hosted_claims_exclusive_witness :
  ∃ cl run, rtc (claim_step (PF := plain_platform) "org-a") demo_first cl ∧
    cl_log cl = [Claimed ("org-a", runs, "r1") "lease" 99 run] ∧ run_lease_id run = Some "lease" ∧
    rec_payload <$> sql_rows (cl_db cl) !! ("org-a", runs, "r1") = Some (DRun run).
Proof.
  assert (H1 : ∃ row, claim_select (PF := plain_platform) "org-a" "c1"
    (demo_running <| sql_locked := ∅ |>) = (demo_running <| sql_locked := ∅ |>, inr (Some (("org-a", runs, "r1"), row))) ∧
    ∃ s run, session_write (claim_write "lease" 99 ("org-a", runs, "r1") row) demo_running = (s, inr run)).
  { eexists. split; [vm_compute; reflexivity|]. eexists _, _. vm_compute. reflexivity. }
  destruct H1 as (row & E1 & s & run & E2).
  assert (Hst : rtc (claim_step (PF := plain_platform) "org-a") demo_first
    {| cl_db := s; cl_open := ∅; cl_log := [Claimed ("org-a", runs, "r1") "lease" 99 run] |}).
  { eapply rtc_l; [eapply (step_select "org-a" demo_first 0 "c1"); [reflexivity|exact E1]|].
    eapply rtc_l; [eapply (step_commit "org-a" _ 0); [reflexivity|exact E2]|].
    apply rtc_refl. }
  destruct (hosted_claims_exclusive (PF := plain_platform) "org-a" demo_running _
    (proj1 demo_running_ok) (proj2 demo_running_ok) Hst) as (_ & _ & Hl & Hc).
  eexists _, run. split; [exact Hst|]. split; [reflexivity|]. split.
  - refine (ls_lease _ _ _ _ (Hl ("org-a", runs, "r1") "lease" 99%Z run _)). left.
  - destruct (Hc ("org-a", runs, "r1") "lease" 99%Z run) as (row' & Hr & Hp); [reflexivity|].
    cbn in Hr |- *. rewrite Hr. cbn. f_equal. exact Hp.
Defined.
