(* ===== verification/StoreContract.v ===== *)
(** * The storage contract of the control plane.

    [ControlPlaneStore] in [src/cowork/coding/control_store.py] is the protocol
    both stores implement: the local one, files and an in-memory parent index,
    and the hosted one, rows and projected columns.  Here the protocol is a
    class of operations, its meaning a specification over a plain finite map of
    documents, and [StoreLaws] says that an implementation refines it.  Both
    stores are instances.  What is proved from the laws alone holds for either:
    any sequence of calls is answer_of as the specification says, so the two
    stores cannot be told apart by them.

    The methods of the protocol are here but for two: [update_run] and
    [claim_run] write the time of the store's own clock into the document they
    return, and [claim_run] takes the oldest run by the document's own creation
    time in one store and by the row's in the other, so their answers are not
    the same.  [SqlClaims], [SqlSpec] and [Fencing] have theorems on them. *)
From stdpp Require Import base list gmap strings option.
From Stdlib Require Import ZArith Lia.
From S2P Require Import Prelude ControlModels ControlWorld RunState ControlStore StoreDeletion StoreJournal SqlStore SqlTenants SqlSpec.

Abbreviation Docs := (gmap (Collection * string) Doc).

(** ** The protocol *)

(** [_save], [_get] and the two listings stand for the typed methods (the
    [save_...] of a model that carries a time set it before they call [_save]).
    The callback of [update_grant] is a function of the grant and its run that
    may raise. *)
Class ControlPlaneStore (S : Type) := {
  cp_save : Collection → Doc → eff S ();
  cp_get : ∀ (D : Type) `{!Document D}, string → eff S D;
  cp_list : ∀ (D : Type) `{!Document D}, eff S (list D);
  cp_children : ∀ (D : Type) `{!Document D}, string → eff S (list D);
  cp_update_grant : string → (ConnectorGrant → TaskRun → exn + ConnectorGrant) → eff S ConnectorGrant;
  cp_audit : SecurityAuditEvent → eff S SecurityAuditEvent;
  cp_prune : Z → Z → eff S Z;
  cp_consume : string → Z → eff S bool;
  cp_create : CodeTask → TaskRun → list ExecutionWorkspace → eff S (CodeTask * TaskRun * list ExecutionWorkspace);
  cp_delete_task : string → eff S ();
}.

(** ** The specification *)

(** Documents that are where they belong and valid. *)
Definition docs_ok (M : Docs) : Prop :=
  ∀ c id d, M !! (c, id) = Some d →
    doc_collection d = c ∧ doc_id d = id ∧ id_pattern id = true ∧ doc_valid d = true.

Definition spec_put (d : Doc) (M : Docs) : Docs := <[(doc_collection d, doc_id d) := d]> M.

Definition spec_children (c : Collection) (p : string) (M : Docs) : list Doc :=
  snd <$> map_to_list (base.filter (λ kd, kd.1.1 = c ∧ parent_id c kd.2 = Some p) M).

Definition spec_list (c : Collection) (M : Docs) : list Doc :=
  snd <$> map_to_list (base.filter (λ kd, kd.1.1 = c) M).

(** [update_grant], with the run the grant is for. *)
Definition spec_update_grant (id : string) (f : ConnectorGrant → TaskRun → exn + ConnectorGrant) (M : Docs) :
    Docs * (exn + ConnectorGrant) :=
  match M !! (grants, id) with
  | Some (DGrant g) =>
      match M !! (runs, grant_run_id g) with
      | Some (DRun r) =>
          match f g r with
          | inr g' => (spec_put (DGrant g') M, inr g')
          | inl e => (M, inl e)
          end
      | _ => (M, inl (KeyError "TaskRun not found"))
      end
  | _ => (M, inl (KeyError "ConnectorGrant not found"))
  end.

(** Audit events are append-only. *)
Definition spec_audit (x : SecurityAuditEvent) (M : Docs) : Docs * (exn + SecurityAuditEvent) :=
  match M !! (audit, audit_id x) with
  | Some _ => (M, inl (ValueError "security audit events are append-only"))
  | None => (spec_put (DAudit x) M, inr x)
  end.

(** [prune]: what is over and older than the time for its kind. *)
Definition retired (auxiliary_older_than audit_older_than : Z) (d : Doc) : bool :=
  match d with
  | DCommand c => match cmd_acked_at c with Some t => (t <? auxiliary_older_than)%Z | None => false end
  | DGrant g => (or_instant (grant_revoked_at g) (grant_expires_at g) <? auxiliary_older_than)%Z
  | DRegistrationCredential r => (or_instant (reg_consumed_at r) (reg_expires_at r) <? auxiliary_older_than)%Z
  | DAudit e => (audit_created_at e <? audit_older_than)%Z
  | _ => false
  end.

Definition chosen (p : (Collection * string) * Doc → bool) (M : Docs) : Docs := base.filter (λ kd, p kd = true) M.
Definition left_over (p : (Collection * string) * Doc → bool) (M : Docs) : Docs := base.filter (λ kd, p kd = false) M.

Definition spec_prune (a b : Z) (M : Docs) : Docs * Z :=
  (left_over (λ kd, retired a b kd.2) M, Z.of_nat (size (chosen (λ kd, retired a b kd.2) M))).

Definition spec_consume (h : string) (now : Z) (M : Docs) : Docs * bool :=
  match M !! (registration_credentials, h) with
  | Some (DRegistrationCredential c) =>
      if bool_decide (reg_consumed_at c ≠ None) || (reg_expires_at c <=? now)%Z then (M, false)
      else (<[(registration_credentials, h) :=
                DRegistrationCredential (c <| reg_consumed_at := Some now |>)]> M, true)
  | _ => (M, false)
  end.

(** [create_task_run]: all the documents, or none of them. *)
Definition spec_create (l : list (Collection * Doc)) (M : Docs) : option Docs :=
  if bool_decide (NoDup (map doc_key l)) && forallb (λ cd, bool_decide (M !! doc_key cd = None)) l
  then Some (insert_all l M) else None.

(** The runs of a task, and what goes with a task. *)
Definition is_run_of (t : string) (M : Docs) (rid : string) : bool :=
  match M !! (runs, rid) with Some (DRun r) => String.eqb (run_task_id r) t | _ => false end.

Definition goes_with_task (t : string) (M : Docs) (c : Collection) (id : string) (d : Doc) : bool :=
  (bool_decide (c = tasks) && String.eqb id t) ||
  (bool_decide (c = runs) && is_run_of t M id) ||
  (bool_decide (c ∈ run_owned) &&
     match parent_id c d with Some rid => is_run_of t M rid | None => false end).

Definition spec_delete_task (t : string) (M : Docs) : Docs :=
  base.filter (λ kd, goes_with_task t M kd.1.1 kd.1.2 kd.2 = false) M.

(** No run belongs to a task whose id is the id of one of [t]'s runs.  (Run
    ids are drawn at random; the hosted store takes such a run for one of [t]'s
    belongings.) *)
Definition runs_are_not_tasks (t : string) (M : Docs) : Prop :=
  ∀ rid r, M !! (runs, rid) = Some (DRun r) → is_run_of t M (run_task_id r) = false.

Lemma runs_are_not_tasks_check t M :
  forallb (λ kd, match kd.2 with DRun r => negb (is_run_of t M (run_task_id r)) | _ => true end)
    (map_to_list M) = true → runs_are_not_tasks t M.
Proof.
  rewrite forallb_forall. intros H rid r Hr.
  specialize (H ((runs, rid), DRun r) (proj1 (list_elem_of_In _ _) (proj2 (elem_of_map_to_list _ _ _) Hr))).
  cbn in H. by apply negb_true_iff in H.
Qed.

(** A callback of [update_grant] that keeps the grant's identity and validity,
    on a grant whose run has a file name for id. *)
Definition grant_update_ok (id : string) (f : ConnectorGrant → TaskRun → exn + ConnectorGrant) (M : Docs) : Prop :=
  (∀ g r g', f g r = inr g' →
     grant_id g' = grant_id g ∧ grant_run_id g' = grant_run_id g ∧
     (doc_valid (DGrant g) = true → doc_valid (DGrant g') = true)) ∧
  ∀ g, M !! (grants, id) = Some (DGrant g) → id_pattern (grant_run_id g) = true.

(** ** What an implementation promises *)

(** [cp_models s M]: the store [s] is in order and holds exactly [M]. *)
Class StoreLaws (S : Type) `{!ControlPlaneStore S} := {
  cp_models : S → Docs → Prop;
  cp_models_ok : ∀ s M, cp_models s M → docs_ok M;
  law_save : ∀ s M d, cp_models s M → id_pattern (doc_id d) = true → doc_valid d = true →
    ∃ s', cp_save (doc_collection d) d s = (s', inr ()) ∧ cp_models s' (spec_put d M);
  law_get : ∀ D `{!Document D} s M id, cp_models s M → id_pattern id = true →
    cp_get D id s = (s, match M !! (collection_of D, id) ≫= unwrap with
                        | Some x => inr x
                        | None => inl (KeyError (String.append (model_name D) " not found"))
                        end);
  law_children : ∀ D `{!Document D} s M p, cp_models s M → collection_of D ∈ indexed →
    ∃ l, cp_children D p s = (s, inr l) ∧ map wrap l ≡ₚ spec_children (collection_of D) p M;
  law_list : ∀ D `{!Document D} s M, cp_models s M →
    ∃ l, cp_list D s = (s, inr l) ∧ map wrap l ≡ₚ spec_list (collection_of D) M;
  law_update_grant : ∀ s M id f, cp_models s M → id_pattern id = true → grant_update_ok id f M →
    ∃ s', cp_update_grant id f s = (s', (spec_update_grant id f M).2) ∧
      cp_models s' (spec_update_grant id f M).1;
  law_audit : ∀ s M x, cp_models s M → id_pattern (audit_id x) = true → doc_valid (DAudit x) = true →
    ∃ s', cp_audit x s = (s', (spec_audit x M).2) ∧ cp_models s' (spec_audit x M).1;
  law_prune : ∀ s M a b, cp_models s M →
    ∃ s', cp_prune a b s = (s', inr (spec_prune a b M).2) ∧ cp_models s' (spec_prune a b M).1;
  law_consume : ∀ s M h now, cp_models s M → id_pattern h = true →
    ∃ s', cp_consume h now s = (s', inr (spec_consume h now M).2) ∧
      cp_models s' (spec_consume h now M).1;
  law_create : ∀ s M t r ws, cp_models s M →
    Forall (λ cd, id_pattern (doc_id cd.2) = true ∧ doc_valid cd.2 = true) (created_documents t r ws) →
    match spec_create (created_documents t r ws) M with
    | Some M' => ∃ s', cp_create t r ws s = (s', inr (t, r, ws)) ∧ cp_models s' M'
    | None => ∃ s' e, cp_create t r ws s = (s', inl e) ∧ cp_models s' M
    end;
  law_delete_task : ∀ s M t, cp_models s M → id_pattern t = true → runs_are_not_tasks t M →
    ∃ s', cp_delete_task t s = (s', inr ()) ∧ cp_models s' (spec_delete_task t M);
}.

(** ** Calls and their answers *)

Inductive store_call :=
  | CallSave (d : Doc)
  | CallGet (D : Type) {doc : Document D} (id : string)
  | CallList (D : Type) {doc : Document D}
  | CallChildren (D : Type) {doc : Document D} (parent : string)
  | CallUpdateGrant (id : string) (f : ConnectorGrant → TaskRun → exn + ConnectorGrant)
  | CallAudit (x : SecurityAuditEvent)
  | CallPrune (auxiliary_older_than audit_older_than : Z)
  | CallConsume (token_hash : string) (now : Z)
  | CallCreate (t : CodeTask) (r : TaskRun) (ws : list ExecutionWorkspace)
  | CallDelete (t : string).

(** [Refused]: a creation that raised (for a document given twice the stores
    raise different exceptions); every other exception is compared. *)
Inductive answer :=
  | Done
  | Refused
  | Raised (e : exn)
  | Found (d : Doc)
  | Listed (l : list Doc)
  | Pruned (n : Z)
  | Consumed (b : bool).

Definition answer_of {A} (ok : A → answer) (r : exn + A) : answer :=
  match r with inr a => ok a | inl e => Raised e end.

(** Listings are compared as multisets: one store sorts by a time of the
    document, the other by the row's. *)
Inductive same_answer : answer → answer → Prop :=
  | same_equal a : same_answer a a
  | same_listed l1 l2 : l1 ≡ₚ l2 → same_answer (Listed l1) (Listed l2).

#[export] Instance same_answer_equivalence : Equivalence same_answer.
Proof.
  split.
  - constructor.
  - intros a b Hab. destruct Hab as [a|l1 l2 Hl]; [constructor|]. by constructor.
  - intros a b c Hab Hbc. destruct Hab as [a|l1 l2 Hl]; [done|].
    inversion Hbc as [x|m1 m2 Hm]; subst; constructor; [done|]. by etrans.
Qed.

Definition spec_call (call : store_call) (M : Docs) : Docs * answer :=
  match call with
  | CallSave d => (spec_put d M, Done)
  | CallGet D id =>
      (M, match M !! (collection_of D, id) ≫= unwrap (D:=D) with
          | Some x => Found (wrap x)
          | None => Raised (KeyError (String.append (model_name D) " not found"))
          end)
  | CallList D => (M, Listed (spec_list (collection_of D) M))
  | CallUpdateGrant id f =>
      ((spec_update_grant id f M).1, answer_of (λ g, Found (DGrant g)) (spec_update_grant id f M).2)
  | CallAudit x => ((spec_audit x M).1, answer_of (λ x, Found (DAudit x)) (spec_audit x M).2)
  | CallPrune a b => ((spec_prune a b M).1, Pruned (spec_prune a b M).2)
  | CallChildren D p => (M, Listed (spec_children (collection_of D) p M))
  | CallConsume h now => ((spec_consume h now M).1, Consumed (spec_consume h now M).2)
  | CallCreate t r ws =>
      match spec_create (created_documents t r ws) M with
      | Some M' => (M', Done)
      | None => (M, Refused)
      end
  | CallDelete t => (spec_delete_task t M, Done)
  end.

(** What the caller owes: ids that are file names, valid documents. *)
Definition call_ok (M : Docs) (call : store_call) : Prop :=
  match call with
  | CallSave d => id_pattern (doc_id d) = true ∧ doc_valid d = true
  | CallGet D id => id_pattern id = true
  | CallList D => True
  | CallChildren D p => collection_of D ∈ indexed
  | CallUpdateGrant id f => id_pattern id = true ∧ grant_update_ok id f M
  | CallAudit x => id_pattern (audit_id x) = true ∧ doc_valid (DAudit x) = true
  | CallPrune a b => True
  | CallConsume h now => id_pattern h = true
  | CallCreate t r ws =>
      Forall (λ cd, id_pattern (doc_id cd.2) = true ∧ doc_valid cd.2 = true) (created_documents t r ws)
  | CallDelete t => id_pattern t = true ∧ runs_are_not_tasks t M
  end.

Section Client.
Context {S : Type} `{!ControlPlaneStore S}.

(** How a caller sees the outcome of a call. *)
Definition outcome {A} (ok : A → answer) (r : S * (exn + A)) : S * answer := (r.1, answer_of ok r.2).

Definition run_call (call : store_call) (s : S) : S * answer :=
  match call with
  | CallSave d => outcome (λ _, Done) (cp_save (doc_collection d) d s)
  | CallGet D id => outcome (λ x, Found (wrap x)) (cp_get D id s)
  | CallList D => outcome (λ l, Listed (map wrap l)) (cp_list D s)
  | CallUpdateGrant id f => outcome (λ g, Found (DGrant g)) (cp_update_grant id f s)
  | CallAudit x => outcome (λ x, Found (DAudit x)) (cp_audit x s)
  | CallPrune a b => outcome Pruned (cp_prune a b s)
  | CallChildren D p => outcome (λ l, Listed (map wrap l)) (cp_children D p s)
  | CallConsume h now => outcome Consumed (cp_consume h now s)
  | CallCreate t r ws =>
      let '(s, res) := cp_create t r ws s in (s, match res with inr _ => Done | inl _ => Refused end)
  | CallDelete t => outcome (λ _, Done) (cp_delete_task t s)
  end.

Fixpoint run_calls (calls : list store_call) (s : S) : S * list answer :=
  match calls with
  | [] => (s, [])
  | call :: rest =>
      let '(s, a) := run_call call s in
      let '(s, l) := run_calls rest s in
      (s, a :: l)
  end.
End Client.

Fixpoint spec_calls (calls : list store_call) (M : Docs) : Docs * list answer :=
  match calls with
  | [] => (M, [])
  | call :: rest =>
      let '(M, a) := spec_call call M in
      let '(M, l) := spec_calls rest M in
      (M, a :: l)
  end.

Fixpoint calls_ok (M : Docs) (calls : list store_call) : Prop :=
  match calls with
  | [] => True
  | call :: rest => call_ok M call ∧ calls_ok (spec_call call M).1 rest
  end.

Section Refinement.
Context {S : Type} `{!ControlPlaneStore S} `{!StoreLaws S}.

(** One call of any lawful store is one call of the specification. *)
Lemma call_refines call s M :
  cp_models s M → call_ok M call →
  cp_models (run_call call s).1 (spec_call call M).1 ∧
  same_answer (run_call call s).2 (spec_call call M).2.
Proof.
  intros Hm Hok. destruct call as [d|D doc id|D doc|D doc p|id f|x|a b|h now|t r ws|t];
    cbn -[spec_update_grant spec_audit spec_prune] in Hok |- *.
  - destruct Hok as [Hi Hv]. destruct (law_save s M d Hm Hi Hv) as (s' & -> & Hm'). (split; [done|constructor]).
  - rewrite (law_get D s M id Hm Hok). cbn.
    destruct (M !! (collection_of D, id) ≫= unwrap) as [x|]; (split; [done|constructor]).
  - destruct (law_list D s M Hm) as (l & -> & Hl). split; [done|]. by constructor.
  - destruct (law_children D s M p Hm Hok) as (l & -> & Hl). split; [done|]. by constructor.
  - destruct Hok as [Hi Hf]. destruct (law_update_grant s M id f Hm Hi Hf) as (s' & -> & Hm'). (split; [done|constructor]).
  - destruct Hok as [Hi Hv]. destruct (law_audit s M x Hm Hi Hv) as (s' & -> & Hm'). (split; [done|constructor]).
  - destruct (law_prune s M a b Hm) as (s' & -> & Hm'). (split; [done|constructor]).
  - destruct (law_consume s M h now Hm Hok) as (s' & -> & Hm'). (split; [done|constructor]).
  - pose proof (law_create s M t r ws Hm Hok) as H.
    destruct (spec_create _ M) as [M'|]; [destruct H as (s' & -> & H)|destruct H as (s' & e & -> & H)]; (split; [done|constructor]).
  - destruct Hok as [Hi Hr]. destruct (law_delete_task s M t Hm Hi Hr) as (s' & -> & Hm'). (split; [done|constructor]).
Qed.

Lemma calls_refine calls s M :
  cp_models s M → calls_ok M calls →
  cp_models (run_calls calls s).1 (spec_calls calls M).1 ∧
  Forall2 same_answer (run_calls calls s).2 (spec_calls calls M).2.
Proof.
  revert s M. induction calls as [|call rest IH]; intros s M Hm Hok; [by split|].
  destruct Hok as [Hok Hrest]. destruct (call_refines call s M Hm Hok) as [Hm1 Ha]. cbn.
  destruct (run_call call s) as [s1 a1], (spec_call call M) as [M1 b1]. cbn in *.
  destruct (IH s1 M1 Hm1 Hrest) as [Hm2 Hl].
  destruct (run_calls rest s1), (spec_calls rest M1). cbn in *. split; [done|]. by constructor.
Qed.

(** On any lawful store a registration token works once. *)
Lemma consume_once s M h now1 now2 s1 :
  cp_models s M → id_pattern h = true → cp_consume h now1 s = (s1, inr true) →
  (cp_consume h now2 s1).2 = inr false.
Proof.
  intros Hm Hh E. destruct (law_consume s M h now1 Hm Hh) as (s1' & E1 & Hm1).
  rewrite E in E1. injection E1 as <- Hb.
  destruct (law_consume s1 _ h now2 Hm1 Hh) as (s2 & -> & _). cbn. f_equal.
  revert Hb. unfold spec_consume at 1 3. destruct (M !! _) as [[]|]; try done.
  destruct (_ || _); [done|]. intros _. cbn. unfold spec_consume. by rewrite lookup_insert_eq.
Qed.
End Refinement.

(** ** Facts both stores use *)

Lemma docs_ok_put M d :
  docs_ok M → id_pattern (doc_id d) = true → doc_valid d = true → docs_ok (spec_put d M).
Proof.
  intros HM Hi Hv c id d'. unfold spec_put.
  intros [[[= <- <-] <-]|[_ H]]%lookup_insert_Some; [done|]. by apply HM.
Qed.

(** A valid document that names a parent names one that is not empty. *)
Lemma indexed_parent_valid d :
  doc_valid d = true → indexed_parent (doc_collection d) d = parent_id (doc_collection d) d.
Proof.
  intros Hv. unfold indexed_parent. destruct (parent_id (doc_collection d) d) as [p|] eqn:E; [|done].
  assert (Hp : truthy p = true); [|by rewrite Hp].
  destruct d as [| |r| | | | | | | ]; cbn in E; try done; try (repeat case_match; by simplify_eq).
  - injection E as <-. cbn in Hv. unfold valid_run in Hv. rewrite !andb_true_iff in Hv.
    destruct Hv as [[[[[[[[[_ _] Hl] _] _] _] _] _] _] _].
    unfold truthy. destruct (run_task_id r); done.
  - destruct (audit_run_id _) as [q|]; cbn in E; [|done].
    destruct (truthy q) eqn:Eq; [|done]. by injection E as <-.
Qed.

(** A list of documents that is a selection of the specification's. *)
Lemma selected_perm (P : (Collection * string) * Doc → Prop) `{∀ kd, Decision (P kd)} (l : list Doc) M :
  docs_ok M → NoDup l →
  (∀ d, d ∈ l ↔ M !! (doc_collection d, doc_id d) = Some d ∧ P ((doc_collection d, doc_id d), d)) →
  l ≡ₚ snd <$> map_to_list (base.filter P M).
Proof.
  intros HM Hnd Hl. apply NoDup_Permutation; [done| |].
  - apply NoDup_fmap_2_strong; [|apply NoDup_map_to_list].
    intros [[c1 i1] d1] [[c2 i2] d2] H1 H2 E. cbn in E. subst d2.
    apply elem_of_map_to_list, map_lookup_filter_Some in H1 as [H1 _].
    apply elem_of_map_to_list, map_lookup_filter_Some in H2 as [H2 _].
    apply HM in H1 as (? & ? & _). apply HM in H2 as (? & ? & _). congruence.
  - intros d. rewrite Hl, list_elem_of_fmap. split.
    + intros [H1 H2]. exists ((doc_collection d, doc_id d), d). split; [done|].
      by apply elem_of_map_to_list, map_lookup_filter_Some.
    + intros ([[c i] d'] & -> & Hd). apply elem_of_map_to_list, map_lookup_filter_Some in Hd as [Hd Hp].
      cbn. apply HM in Hd as Hd'. destruct Hd' as (-> & -> & _). done.
Qed.

Lemma at_home M d c : docs_ok M → M !! (c, doc_id d) = Some d ↔ M !! (doc_collection d, doc_id d) = Some d ∧ doc_collection d = c.
Proof.
  intros HM. split.
  - intros H. apply HM in H as H'. by destruct H' as (-> & _).
  - by intros [H <-].
Qed.

(** The listing of a parent, and of a collection. *)
Lemma children_perm (l : list Doc) c p M :
  docs_ok M → NoDup l →
  (∀ d, d ∈ l ↔ M !! (c, doc_id d) = Some d ∧ parent_id c d = Some p) →
  l ≡ₚ spec_children c p M.
Proof. intros HM Hnd Hl. apply selected_perm; [done|done|]. intros d. rewrite Hl, (at_home M d c HM). naive_solver. Qed.

Lemma list_perm (l : list Doc) c M :
  docs_ok M → NoDup l → (∀ d, d ∈ l ↔ M !! (c, doc_id d) = Some d) → l ≡ₚ spec_list c M.
Proof. intros HM Hnd Hl. apply selected_perm; [done|done|]. intros d. by rewrite Hl, (at_home M d c HM). Qed.

(** Removing in two rounds. *)
Lemma left_over_twice p q M : left_over q (left_over p M) = left_over (λ kd, p kd || q kd) M.
Proof.
  unfold left_over. rewrite map_filter_filter. apply map_filter_ext. intros k d _. rewrite orb_false_iff. naive_solver.
Qed.

Lemma chosen_twice p q M : size (chosen p M) + size (chosen q (left_over p M)) = size (chosen (λ kd, p kd || q kd) M).
Proof.
  assert (Hdis : chosen p M ##ₘ base.filter (λ kd, q kd = true ∧ p kd = false) M).
  { apply map_disjoint_spec. intros k d1 d2 [H1 Hp]%map_lookup_filter_Some [H2 [_ Hp']]%map_lookup_filter_Some.
    congruence. }
  unfold chosen, left_over in *. rewrite map_filter_filter, <-map_size_disj_union.
  - f_equal. apply map_eq. intros k. apply option_eq. intros d.
    rewrite lookup_union_Some, !map_lookup_filter_Some; cbn.
    + rewrite orb_true_iff. destruct (p (k, d)); naive_solver.
    + apply Hdis.
  - apply Hdis.
Qed.

Lemma chosen_ext p q M : (∀ k d, M !! k = Some d → p (k, d) = q (k, d)) → chosen p M = chosen q M.
Proof. intros H. apply map_filter_ext. intros k d Hk. by rewrite (H k d Hk). Qed.
Lemma left_over_ext p q M : (∀ k d, M !! k = Some d → p (k, d) = q (k, d)) → left_over p M = left_over q M.
Proof. intros H. apply map_filter_ext. intros k d Hk. by rewrite (H k d Hk). Qed.

Lemma left_over_ok p M : docs_ok M → docs_ok (left_over p M).
Proof. intros HM c id d [H _]%map_lookup_filter_Some. by apply HM. Qed.

Lemma spec_consume_ok h now M : docs_ok M → docs_ok (spec_consume h now M).1.
Proof.
  intros HM. unfold spec_consume. destruct (M !! (registration_credentials, h)) as [[]|] eqn:E; try done.
  destruct (_ || _); [done|]. apply HM in E as (_ & Hid & Hp & Hv). intros c id d'. cbn [fst].
  intros [[[= <- <-] <-]|[_ H]]%lookup_insert_Some; [|by apply HM]. done.
Qed.

Lemma spec_delete_ok t M : docs_ok M → docs_ok (spec_delete_task t M).
Proof. intros HM c id d [H _]%map_lookup_filter_Some. by apply HM. Qed.

Lemma created_collections t r ws cd : cd ∈ created_documents t r ws → doc_collection cd.2 = cd.1.
Proof. intros [->|[->|(x & -> & _)%list_elem_of_fmap]%elem_of_cons]%elem_of_cons; done. Qed.

Lemma insert_all_ok t r ws M :
  docs_ok M → NoDup (map doc_key (created_documents t r ws)) →
  Forall (λ cd, id_pattern (doc_id cd.2) = true ∧ doc_valid cd.2 = true) (created_documents t r ws) →
  docs_ok (insert_all (created_documents t r ws) M).
Proof.
  pose proof (created_collections t r ws) as Hc. revert Hc.
  generalize (created_documents t r ws) as l. intros l. revert M.
  induction l as [|cd l IH]; intros M Hc HM Hnd Hall; [done|].
  apply list.Forall_cons in Hall as [[Hi Hv] Hall]. cbn in Hnd. apply list.NoDup_cons in Hnd as [_ Hnd].
  cbn. apply IH; [set_solver| |done|done]. unfold doc_key. rewrite <-(Hc cd) by set_solver. by apply docs_ok_put.
Qed.

Lemma spec_create_iff l M :
  is_Some (spec_create l M) ↔ NoDup (map doc_key l) ∧ ∀ cd, cd ∈ l → M !! doc_key cd = None.
Proof.
  assert (Hf : forallb (λ cd, bool_decide (M !! doc_key cd = None)) l = true ↔ ∀ cd, cd ∈ l → M !! doc_key cd = None).
  { rewrite forallb_forall. split; intros H cd Hcd.
    - by apply list_elem_of_In, H, bool_decide_eq_true in Hcd.
    - by apply bool_decide_eq_true, H, list_elem_of_In. }
  rewrite <-Hf. unfold spec_create. destruct (bool_decide_reflect (NoDup (map doc_key l))), (forallb _ l); cbn;
    (split; [intros [x Hx]; done|intros [? ?]; try done; by eexists]).
Qed.

Lemma spec_create_eq l M M' : spec_create l M = Some M' → M' = insert_all l M.
Proof. unfold spec_create. case_match; [|done]. by intros [= <-]. Qed.

(** The callback of [update_grant], as both stores take it. *)
Definition grant_callback (f : ConnectorGrant → TaskRun → exn + ConnectorGrant) :
    ConnectorGrant → TaskRun → op (ConnectorGrant * ()) :=
  λ g r, match f g r with inr g' => mret (g', ()) | inl e => raise e end.

(** ** The local store *)

#[export] Instance local_store {PF : Platform} : ControlPlaneStore World := {|
  cp_save := save;
  cp_get := λ D _, get D;
  cp_list := λ D _, list_docs D;
  cp_children := λ D _, list_for_parent D;
  cp_update_grant := λ id f, '(g, _) ← update_grant id (grant_callback f); mret g;
  cp_audit := save_audit_event;
  cp_prune := prune;
  cp_consume := consume_registration_credential;
  cp_create := store_create_task_run;
  cp_delete_task := store_delete_task;
|}.

(** Neither a save nor a deletion touches the journal. *)
Definition keeps_journal : relation World := λ w w', disk_journal (w_disk w') = disk_journal (w_disk w).

#[export] Instance keeps_journal_frame : Frame keeps_journal.
Proof.
  refine {| may_write := λ _, True |}.
  - split; [done|]. intros w1 w2 w3. unfold keeps_journal. congruence.
  - intros w w' H. unfold keeps_journal. by rewrite (es_disk _ _ H).
  - intros c d _ Hc w. rewrite save_eq. destruct (id_pattern _); [|done]. cbn.
    unfold keeps_journal, index_document. by case_match.
  - intros c id _ w. unfold keeps_journal, delete_doc, mbind, eff_bind. rewrite check_path_eq.
    destruct (id_pattern id); [|done]. cbn. by case_match.
  - done.
  - done.
Defined.

Definition local_models (w : World) (M : Docs) : Prop :=
  store_wf w ∧ disk_journal (w_disk w) = None ∧ docs_ok M ∧ w_docs w = M.

Section Local.
Context {PF : Platform}.

Lemma local_all_valid w M : local_models w M → all_valid w.
Proof. intros (_ & _ & HM & <-) [c id] d H. by apply HM in H as (_ & _ & _ & ?). Qed.

Lemma local_save w M d :
  local_models w M → id_pattern (doc_id d) = true → doc_valid d = true →
  ∃ w', save (doc_collection d) d w = (w', inr ()) ∧ local_models w' (spec_put d M).
Proof.
  intros (Hwf & Hj & HM & Hd) Hi Hv.
  pose proof (save_wf (doc_collection d) d w eq_refl Hwf) as Hwf'.
  destruct (save (doc_collection d) d w) as [w' [e|[]]] eqn:E.
  { rewrite save_eq, Hi in E. done. }
  destruct (save_inr _ _ _ _ E) as (_ & Hdocs & Hrest). exists w'. split; [done|].
  split; [exact Hwf'|]. split; [by rewrite (rs_journal _ _ Hrest)|].
  split; [by apply docs_ok_put|]. by rewrite Hdocs, Hd.
Qed.

Lemma local_get D `{!Document D} w M id :
  local_models w M → id_pattern id = true →
  get D id w = (w, match M !! (collection_of D, id) ≫= unwrap with
                   | Some x => inr x
                   | None => inl (KeyError (String.append (model_name D) " not found"))
                   end).
Proof.
  intros (Hwf & Hj & HM & Hd) Hi. rewrite get_eq, Hi, Hd.
  destruct (M !! (collection_of D, id)) as [a|] eqn:E; [|done]. cbn.
  apply HM in E as (Hc & _ & _ & Hv). destruct (unwrap_total _ Hc) as [x Hx]. by rewrite Hx, Hv.
Qed.

Lemma local_children D `{!Document D} w M p :
  local_models w M → collection_of D ∈ indexed →
  ∃ l, list_for_parent D p w = (w, inr l) ∧ map wrap l ≡ₚ spec_children (collection_of D) p M.
Proof.
  intros Hm Hc. pose proof (local_all_valid w M Hm) as Hav. pose proof Hm as (Hwf & Hj & HM & Hd).
  destruct (list_for_parent_eq D p w Hwf Hc) as (l & E & Hl & _).
  { intros id x. by apply all_valid_stored. }
  exists l. split; [done|]. apply children_perm; [done| |].
  - apply NoDup_fmap_2_strong; [|rewrite Hl; by apply list.NoDup_filter, readable_NoDup].
    intros x y _ _ Exy. pose proof (unwrap_wrap x) as Hx. rewrite Exy, unwrap_wrap in Hx. by injection Hx.
  - intros d. rewrite list_elem_of_fmap. split.
    + intros (x & -> & Hx). rewrite Hl in Hx. apply list_elem_of_filter in Hx as [Hp Hx].
      apply elem_of_readable in Hx as (id & Hs & Hv).
      destruct (stored_key _ _ _ _ Hwf Hs) as [Hk _]. subst id. unfold stored in Hs. rewrite Hd in Hs.
      destruct (M !! _) as [a|] eqn:Ea; [|done]. cbn in Hs. apply unwrap_inv in Hs as ->. split; [done|].
      pose proof (indexed_parent_valid (wrap x) Hv) as Hip. rewrite wrap_collection in Hip. by rewrite <-Hip.
    + intros [H Hp]. destruct (HM _ _ _ H) as (Hcd & _ & _ & Hv).
      destruct (unwrap_total d Hcd) as [x Hx]. apply unwrap_inv in Hx as Hx'. exists x. split; [done|].
      rewrite Hl, list_elem_of_filter, elem_of_readable. subst d. split.
      * pose proof (indexed_parent_valid (wrap x) Hv) as Hip. rewrite wrap_collection in Hip. by rewrite Hip.
      * exists (doc_id (wrap x)). unfold stored. rewrite Hd, H. cbn. split; [done|]. exact Hv.
Qed.

Lemma local_readable D `{!Document D} w M d :
  local_models w M → d ∈ map wrap (readable D w) ↔ M !! (collection_of D, doc_id d) = Some d.
Proof.
  intros (Hwf & _ & HM & Hd). rewrite list_elem_of_fmap. split.
  - intros (x & -> & (id & Hs & Hv)%elem_of_readable). destruct (stored_key _ _ _ _ Hwf Hs) as [Hk _]. subst id.
    unfold stored in Hs. rewrite Hd in Hs. destruct (M !! _) as [a|] eqn:Ea; [|done].
    cbn in Hs. by apply unwrap_inv in Hs as ->.
  - intros H. destruct (HM _ _ _ H) as (Hcd & _ & _ & Hv). destruct (unwrap_total d Hcd) as [x Hx].
    apply unwrap_inv in Hx as Hx'. exists x. split; [done|]. apply elem_of_readable. subst d.
    exists (doc_id (wrap x)). unfold stored. by rewrite Hd, H.
Qed.

Lemma wrap_inj D `{!Document D} (x y : D) : wrap x = wrap y → x = y.
Proof. intros E. pose proof (unwrap_wrap x) as Hx. rewrite E, unwrap_wrap in Hx. by injection Hx. Qed.

Lemma local_list D `{!Document D} w M :
  local_models w M →
  ∃ l, list_docs D w = (w, inr l) ∧ map wrap l ≡ₚ spec_list (collection_of D) M ∧ l ≡ₚ readable D w.
Proof.
  intros Hm. pose proof Hm as (Hwf & _ & HM & _).
  assert (Hp : sorted_desc (λ x, doc_stamp (wrap x)) (reorder (readable D w)) ≡ₚ readable D w)
    by by rewrite sorted_desc_perm, reorder_perm.
  eexists. split; [reflexivity|]. split; [|exact Hp]. rewrite Hp. apply list_perm; [done| |].
  - apply NoDup_fmap_2_strong; [|by apply readable_NoDup]. intros x y _ _. apply wrap_inj.
  - intros d. by apply local_readable.
Qed.

Lemma local_update_grant w M id f :
  local_models w M → id_pattern id = true → grant_update_ok id f M →
  ∃ w', cp_update_grant id f w = (w', (spec_update_grant id f M).2) ∧
    local_models w' (spec_update_grant id f M).1.
Proof.
  intros Hm Hi [Hf Hr]. pose proof Hm as (_ & _ & HM & _).
  pose proof (local_get ConnectorGrant w M id Hm Hi) as Hg. cbn [collection_of Document_ConnectorGrant] in Hg.
  cbn. unfold mbind, eff_bind. unfold update_grant, get_grant, mbind, eff_bind. rewrite Hg. unfold spec_update_grant.
  destruct (M !! (grants, id)) as [d|] eqn:E; [|cbn; eauto].
  pose proof (HM _ _ _ E) as (Hc & Hid & _ & Hv). destruct d as [| | | |g| | | | | ]; try done. cbn.
  pose proof (local_get TaskRun w M (grant_run_id g) Hm (Hr g eq_refl)) as Hgr. cbn [collection_of Document_TaskRun] in Hgr.
  unfold get_run. rewrite Hgr. destruct (M !! (runs, grant_run_id g)) as [d|] eqn:Er; [|cbn; eauto].
  pose proof (HM _ _ _ Er) as (Hcr & _). destruct d as [| |r| | | | | | | ]; try done. cbn.
  unfold grant_callback. destruct (f g r) as [e|g'] eqn:Ef; [cbn; eauto|]. cbn.
  destruct (Hf g r g' Ef) as (Hg1 & _ & Hv'). cbn in Hid.
  destruct (local_save w M (DGrant g') Hm) as (w' & Es & Hm'); [by cbn; rewrite Hg1, Hid|by apply Hv'|].
  cbn in Es. exists w'. split; [|exact Hm']. unfold save_grant, mbind, eff_bind. by rewrite Es.
Qed.

Lemma local_audit w M x :
  local_models w M → id_pattern (audit_id x) = true → doc_valid (DAudit x) = true →
  ∃ w', save_audit_event x w = (w', (spec_audit x M).2) ∧ local_models w' (spec_audit x M).1.
Proof.
  intros Hm Hi Hv. pose proof Hm as (_ & _ & HM & _).
  pose proof (local_get SecurityAuditEvent w M (audit_id x) Hm Hi) as Hg. cbn [collection_of Document_Audit] in Hg.
  unfold save_audit_event. unfold mbind at 1, eff_bind at 1. rewrite get_unless_missing_eq, Hg. unfold spec_audit.
  destruct (M !! (audit, audit_id x)) as [d|] eqn:E.
  - pose proof (HM _ _ _ E) as (Hc & _). destruct d; try done. cbn. eauto.
  - cbn. destruct (local_save w M (DAudit x) Hm Hi Hv) as (w' & Es & Hm'). cbn in Es. exists w'.
    split; [|exact Hm']. unfold mbind, eff_bind. by rewrite Es.
Qed.

(** One loop of [prune]. *)
Definition loop_takes (D : Type) `{!Document D} (f : D → bool) : (Collection * string) * Doc → bool :=
  λ kd, match unwrap (D:=D) kd.2 with Some x => f x | None => false end.

Lemma local_prune_loop D `{!Document D} f w M :
  local_models w M →
  ∃ w', prune_docs D f w = (w', inr (Z.of_nat (size (chosen (loop_takes D f) M)))) ∧
    local_models w' (left_over (loop_takes D f) M).
Proof.
  intros Hm. pose proof Hm as (Hwf & Hj & HM & Hd). destruct (local_list D w M Hm) as (l & El & _ & Hl).
  unfold prune_docs. unfold mbind at 1, eff_bind at 1. rewrite El.
  set (gone := base.filter (λ x, f x = true) l).
  assert (Hgone : map wrap gone ≡ₚ snd <$> map_to_list (chosen (loop_takes D f) M)).
  { apply selected_perm; [done| |].
    - apply NoDup_fmap_2_strong; [intros x y _ _; apply wrap_inj|]. apply list.NoDup_filter. rewrite Hl.
      by apply readable_NoDup.
    - intros d. rewrite list_elem_of_fmap. unfold loop_takes. cbn. split.
      + intros (x & -> & [Hx Hin]%list_elem_of_filter). rewrite Hl in Hin. rewrite unwrap_wrap. split; [|done].
        rewrite wrap_collection. apply (local_readable D w M (wrap x) Hm), list_elem_of_fmap. eauto.
      + intros [H Hx]. destruct (unwrap d) as [x|] eqn:Ex; [|done]. apply unwrap_inv in Ex as ->.
        exists x. split; [done|]. apply list_elem_of_filter. split; [done|]. rewrite Hl.
        rewrite wrap_collection in H. apply (local_readable D w M (wrap x) Hm), list_elem_of_fmap in H as (y & Ey & Hy).
        by apply wrap_inj in Ey as ->. }
  assert (Hlen : length gone = size (chosen (loop_takes D f) M)).
  { rewrite <-(length_map wrap gone), Hgone, length_fmap. apply length_map_to_list. }
  destruct (delete_all_docs (collection_of D) (map (λ x, doc_id (wrap x)) gone) w) as (w' & Ed & Hwf' & Dd); [|done|].
  { intros id (x & -> & Hx)%list_elem_of_fmap.
    assert (Hw : wrap x ∈ map wrap gone) by (apply list_elem_of_fmap; eauto).
    rewrite Hgone in Hw. apply list_elem_of_fmap in Hw as ([[c i] d] & E & Hk). cbn in E.
    apply elem_of_map_to_list, map_lookup_filter_Some in Hk as [Hk _]. apply HM in Hk as (_ & Hi & Hp & _).
    by rewrite E, Hi. }
  assert (Efor : for_each gone (λ x, delete_doc (collection_of D) (doc_id (wrap x))) w = (w', inr ())).
  { rewrite <-Ed. clear. clearbody gone. revert w. induction gone as [|x gone IH]; intros w; [done|]. cbn. unfold mbind, eff_bind.
    destruct (delete_doc _ _ w) as [w1 [e|[]]]; [done|]. apply IH. }
  assert (Hjj : keeps_journal w w').
  { assert (Hw : within keeps_journal (for_each gone (λ x, delete_doc (collection_of D) (doc_id (wrap x)))))
      by (apply within_for_each; [apply _|]; intros x; by apply delete_doc_frame).
    specialize (Hw w). by rewrite Efor in Hw. }
  exists w'. split; [unfold mbind, eff_bind; by rewrite Efor, Hlen|]. split; [done|].
  split; [by rewrite Hjj|]. split; [by apply left_over_ok|].
  apply map_eq. intros [c id]. apply option_eq. intros d. rewrite Dd, Hd. unfold left_over.
  rewrite map_lookup_filter_Some. cbn.
  assert (Hin : id ∈ map (λ x, doc_id (wrap x)) gone ↔ ∃ d, M !! (collection_of D, id) = Some d ∧ loop_takes D f ((collection_of D, id), d) = true).
  { trans (∃ d, d ∈ map wrap gone ∧ doc_id d = id).
    - rewrite list_elem_of_fmap. setoid_rewrite list_elem_of_fmap. naive_solver.
    - setoid_rewrite Hgone. setoid_rewrite list_elem_of_fmap. split.
      + intros (d' & ([[c' i'] d''] & -> & Hk) & <-). apply elem_of_map_to_list, map_lookup_filter_Some in Hk as [Hk Ht].
        cbn. apply HM in Hk as Hk'. destruct Hk' as (Hc' & -> & _). unfold loop_takes in Ht. cbn in Ht.
        destruct (unwrap d'') as [x|] eqn:Ex; [|done]. pose proof (unwrap_inv _ _ Ex) as Ex'.
        rewrite Ex', wrap_collection in Hc'. subst c'. exists d''. split; [done|]. unfold loop_takes. cbn. by rewrite Ex.
      + intros (d' & Hk & Ht). exists d'. apply HM in Hk as Hk'. split; [|apply Hk'].
        exists ((collection_of D, id), d'). split; [done|]. by apply elem_of_map_to_list, map_lookup_filter_Some. }
  destruct (decide _) as [[-> Hi]|Hni].
  - apply Hin in Hi as (d' & Hk & Ht). split; [done|]. intros [Hk' Hf]. rewrite Hk in Hk'.
    injection Hk' as ->. congruence.
  - split; [|by intros [? _]]. intros Hk. split; [done|]. apply not_true_iff_false. intros Ht. apply Hni.
    assert (c = collection_of D) as ->; [|split; [done|]; apply Hin; eauto].
    unfold loop_takes in Ht. cbn in Ht. destruct (unwrap d) as [x|] eqn:Ex; [|done].
    apply unwrap_inv in Ex as ->. apply HM in Hk as (<- & _). by rewrite wrap_collection.
Qed.

Lemma local_prune w M a b :
  local_models w M →
  ∃ w', prune a b w = (w', inr (spec_prune a b M).2) ∧ local_models w' (spec_prune a b M).1.
Proof.
  intros Hm. unfold prune.
  set (f1 := λ c : RuntimeCommand, match cmd_acked_at c with Some t => (t <? a)%Z | None => false end).
  set (f2 := λ g : ConnectorGrant, (or_instant (grant_revoked_at g) (grant_expires_at g) <? a)%Z).
  set (f3 := λ r : RuntimeRegistrationCredential, (or_instant (reg_consumed_at r) (reg_expires_at r) <? a)%Z).
  set (f4 := λ e : SecurityAuditEvent, (audit_created_at e <? b)%Z).
  destruct (local_prune_loop RuntimeCommand f1 w M Hm) as (w1 & E1 & H1).
  destruct (local_prune_loop ConnectorGrant f2 w1 _ H1) as (w2 & E2 & H2).
  destruct (local_prune_loop RuntimeRegistrationCredential f3 w2 _ H2) as (w3 & E3 & H3).
  destruct (local_prune_loop SecurityAuditEvent f4 w3 _ H3) as (w4 & E4 & H4).
  rewrite !left_over_twice in H4.
  set (p1 := loop_takes RuntimeCommand f1) in *. set (p2 := loop_takes ConnectorGrant f2) in *.
  set (p3 := loop_takes RuntimeRegistrationCredential f3) in *. set (p4 := loop_takes SecurityAuditEvent f4) in *.
  assert (Hp : ∀ kd, p1 kd || (p2 kd || (p3 kd || p4 kd)) = retired a b kd.2).
  { intros [k d]. unfold p1, p2, p3, p4, loop_takes. by destruct d; cbn; rewrite ?orb_false_r. }
  assert (Hc : chosen (λ kd, retired a b kd.2) M = chosen (λ kd, p1 kd || (p2 kd || (p3 kd || p4 kd))) M).
  { apply chosen_ext. intros k d _. by rewrite Hp. }
  assert (Hl : left_over (λ kd, retired a b kd.2) M = left_over (λ kd, p1 kd || (p2 kd || (p3 kd || p4 kd))) M).
  { apply left_over_ext. intros k d _. by rewrite Hp. }
  exists w4. unfold spec_prune. rewrite Hc, Hl. split; [|exact H4].
  unfold mbind, eff_bind. rewrite E1, E2, E3, E4. cbn [snd]. unfold mret, eff_ret. do 2 f_equal.
  rewrite <-(chosen_twice p1 (λ kd, p2 kd || (p3 kd || p4 kd)) M),
    <-(chosen_twice p2 (λ kd, p3 kd || p4 kd)), <-(chosen_twice p3 p4).
  lia.
Qed.

Lemma local_consume w M h now :
  local_models w M → id_pattern h = true →
  ∃ w', consume_registration_credential h now w = (w', inr (spec_consume h now M).2) ∧
    local_models w' (spec_consume h now M).1.
Proof.
  intros Hm Hh. pose proof (local_get RuntimeRegistrationCredential w M h Hm Hh) as Hg. cbn [collection_of Document_RegistrationCredential] in Hg.
  unfold consume_registration_credential. unfold mbind at 1, eff_bind at 1.
  rewrite get_unless_missing_eq, Hg. unfold spec_consume.
  pose proof Hm as (_ & _ & HM & _).
  destruct (M !! (registration_credentials, h)) as [d|] eqn:E; [|cbn; eauto].
  pose proof (HM _ _ _ E) as (Hc & Hid & _ & Hv). destruct d as [| | | | | | |c| | ]; try done. cbn.
  destruct (_ || _); [cbn; eauto|]. cbn in Hid. subst h.
  set (c' := c <| reg_consumed_at := Some now |>).
  destruct (local_save w M (DRegistrationCredential c') Hm Hh Hv) as (w' & Es & Hm').
  cbn in Es. exists w'. split; [|exact Hm']. unfold mbind, eff_bind. by rewrite Es.
Qed.

Lemma local_create w M t r ws :
  local_models w M →
  Forall (λ cd, id_pattern (doc_id cd.2) = true ∧ doc_valid cd.2 = true) (created_documents t r ws) →
  match spec_create (created_documents t r ws) M with
  | Some M' => ∃ w', store_create_task_run t r ws w = (w', inr (t, r, ws)) ∧ local_models w' M'
  | None => ∃ w' e, store_create_task_run t r ws w = (w', inl e) ∧ local_models w' M
  end.
Proof.
  intros (Hwf & Hj & HM & Hd) Hall.
  assert (Hiff : is_Some (spec_create (created_documents t r ws) M) ↔
    Forall (creatable w) (created_documents t r ws) ∧ NoDup (map doc_key (created_documents t r ws))).
  { rewrite spec_create_iff, list.Forall_forall. unfold creatable. rewrite Hd.
    rewrite list.Forall_forall in Hall. naive_solver. }
  pose proof (store_create_task_run_keeps t r ws w Hwf) as Hwf'.
  unfold store_create_task_run in *. fold (created_documents t r ws) in *. unfold mbind, eff_bind in *.
  destruct (save_many_cases (created_documents t r ws) w) as
    [(w' & E & Hok & Hnd & Hdisk & Hidx)|(w' & e & E & Hbad & _ & Hsame & Hj' & Hi)]; rewrite E in *.
  - destruct (proj2 Hiff (conj Hok Hnd)) as [M' EM]. rewrite EM. exists w'. split; [done|].
    apply spec_create_eq in EM as ->.
    destruct (commit_docs (created_documents t r ws) (w_disk w) (w_uuid w (w_uuids w)) Hnd) as [Hc1 Hc2].
    rewrite <-Hdisk in Hc1, Hc2. split; [exact Hwf'|]. split; [done|].
    split; [by apply insert_all_ok|]. unfold w_docs. rewrite Hc1. unfold w_docs in Hd. by rewrite Hd.
  - destruct (spec_create _ M) as [M'|] eqn:EM; [by destruct Hbad; apply Hiff|].
    exists w', e. split; [done|]. split; [exact Hwf'|]. split; [done|]. split; [done|].
    by rewrite (Hsame Hj).
Qed.

Lemma local_delete_task w M t :
  local_models w M → id_pattern t = true →
  ∃ w', store_delete_task t w = (w', inr ()) ∧ local_models w' (spec_delete_task t M).
Proof.
  intros Hm Ht. pose proof (local_all_valid w M Hm) as Hav. pose proof Hm as (Hwf & Hj & HM & Hd).
  destruct (delete_task_exact t w Hwf Hav Ht) as (w' & E & Hwf' & Hdocs). exists w'. split; [done|].
  assert (Hjj : keeps_journal w w').
  { pose proof (store_delete_task_frame (R := keeps_journal) t) as H.
    specialize (H ltac:(done) w). by rewrite E in H. }
  assert (Hrun : ∀ rid, is_run_of t M rid = true ↔ ∃ run, stored TaskRun w rid = Some run ∧ run_task_id run = t).
  { intros rid. unfold is_run_of, stored. rewrite Hd. cbn.
    destruct (M !! (runs, rid)) as [d|] eqn:Er; cbn; [|split; [done|by intros (? & ? & _)]].
    destruct d; cbn; try (split; [done|by intros (? & ? & _)]).
    rewrite String.eqb_eq. split; [eauto|]. by intros (run & [= ->] & ?). }
  split; [done|]. split; [by rewrite Hjj|]. split; [by apply spec_delete_ok|].
  apply map_eq. intros [c id]. apply option_eq. intros d. rewrite Hdocs, Hd.
  unfold spec_delete_task. rewrite map_lookup_filter_Some, <-not_true_iff_false. cbn.
  assert (Hgo : M !! (c, id) = Some d → goes_with_task t M c id d = true ↔ owned_by_task w t c id d); [|naive_solver].
  intros Hk. destruct (HM _ _ _ Hk) as (Hc & _ & _ & Hv).
  pose proof (indexed_parent_valid d Hv) as Hip. rewrite Hc in Hip.
  unfold goes_with_task, owned_by_task. rewrite Hip, !orb_true_iff, !andb_true_iff, !bool_decide_eq_true, String.eqb_eq.
  assert (Hch : (match parent_id c d with Some rid => is_run_of t M rid | None => false end) = true ↔
    ∃ rid, parent_id c d = Some rid ∧ is_run_of t M rid = true)
    by (destruct (parent_id c d); naive_solver).
  rewrite Hch, Hrun. setoid_rewrite Hrun. split.
  - intros [[H|(Hr & run & H1 & H2)]|(Ho & rid & H1 & run & H2 & H3)]; [by left|right; left; eauto|].
    right. right. eauto 10.
  - intros [H|[(run & H1 & H2 & H3)|(rid & run & H1 & H2 & H3 & H4)]]; [by left; left|left; right; eauto|].
    right. eauto 10.
Qed.

#[export] Instance local_laws : StoreLaws World := {|
  cp_models := local_models;
  cp_models_ok := λ w M H, proj1 (proj2 (proj2 H));
  law_save := local_save;
  law_get := λ D _, local_get D;
  law_children := λ D _, local_children D;
  law_list := λ D _ w M Hm, let '(ex_intro _ l H) := local_list D w M Hm in ex_intro _ l (conj (proj1 H) (proj1 (proj2 H)));
  law_update_grant := local_update_grant;
  law_audit := local_audit;
  law_prune := local_prune;
  law_consume := local_consume;
  law_create := local_create;
  law_delete_task := λ w M t Hm Ht _, local_delete_task w M t Hm Ht;
|}.
End Local.

(** ** The hosted store *)

Definition hosted_store {PF : Platform} (ns : string) : ControlPlaneStore SqlWorld := {|
  cp_save := sql_save ns;
  cp_get := λ D _, sql_get ns D;
  cp_list := λ D _, sql_list ns D None;
  cp_children := λ D _ p, sql_list ns D (Some p);
  cp_update_grant := λ id f, '(g, _) ← sql_update_grant ns id (grant_callback f); mret g;
  cp_audit := sql_save_audit_event ns;
  cp_prune := sql_prune ns;
  cp_consume := sql_consume_registration_credential ns;
  cp_create := sql_create_task_run ns;
  cp_delete_task := sql_delete_task ns;
|}.

(** The database is between transactions, its rows are well typed, no replica
    is inserting, and the documents of the namespace are [M]. *)
Record hosted_models (ns : string) (s : SqlWorld) (M : Docs) : Prop := {
  hm_rest : at_rest s;
  hm_wf : table_wf (sql_rows s);
  hm_rivals : sql_rivals s = ∅;
  hm_ok : docs_ok M;
  hm_docs : ∀ c id, hosted ns s c id = M !! (c, id);
}.

Section HostedLaws.
Context {PF : Platform} (ns : string).

(** A method that left the documents [M'] in the table has kept the rest. *)
Lemma hosted_models_after {A} (m : sql A) s M s' r M' :
  store_program ns A m → hosted_models ns s M → m s = (s', r) → docs_ok M' →
  (∀ c id, hosted ns s' c id = M' !! (c, id)) → hosted_models ns s' M'.
Proof.
  intros Hm [Hs Hwf Hr HM Hd] E HM' Hd'.
  pose proof (program_at_rest ns A m s Hm Hs) as Hs'. pose proof (program_peers ns A m Hm s) as Hp.
  destruct (program_keeps ns (sql_rows s) A m Hm s (at_rest_sound ns s Hs Hwf)) as [Hk _].
  rewrite E in Hs', Hp, Hk. cbn in Hs', Hp, Hk. split; try done.
  - intros k row H. exact (sd_rows _ _ _ Hk k row H).
  - by rewrite (sp_rivals _ _ Hp).
Qed.

Lemma hosted_insert s s' k row c id :
  sql_rows s' = <[k := row]> (sql_rows s) →
  hosted ns s' c id = if decide (k = (ns, c, id)) then Some (rec_payload row) else hosted ns s c id.
Proof.
  intros E. unfold hosted. rewrite E. destruct (decide (k = (ns, c, id))) as [->|Hne].
  - by rewrite lookup_insert_eq.
  - by rewrite lookup_insert_ne.
Qed.

Lemma hosted_save_law s M d :
  hosted_models ns s M → id_pattern (doc_id d) = true → doc_valid d = true →
  ∃ s', sql_save ns (doc_collection d) d s = (s', inr ()) ∧ hosted_models ns s' (spec_put d M).
Proof.
  intros Hm Hi Hv. pose proof Hm as [Hs Hwf Hr HM Hd].
  pose proof (sql_save_rest ns (doc_collection d) d s Hs) as Hspec.
  destruct (sql_save ns (doc_collection d) d s) as [s' [e|[]]] eqn:E.
  { destruct Hspec as (_ & H & _). rewrite Hr in H. set_solver. }
  destruct Hspec as (row & Hrows & Hp & _). exists s'. split; [done|].
  eapply hosted_models_after; [by apply p_save|done|exact E|by apply docs_ok_put|].
  intros c id. rewrite (hosted_insert s s' _ row c id Hrows). unfold spec_put.
  destruct (decide _) as [[= <- <-]|Hne].
  - by rewrite lookup_insert_eq, Hp.
  - rewrite lookup_insert_ne; [apply Hd|]. congruence.
Qed.

Lemma hosted_get_law D `{!Document D} s M id :
  hosted_models ns s M →
  sql_get ns D id s = (s, match M !! (collection_of D, id) ≫= unwrap with
                          | Some x => inr x
                          | None => inl (KeyError (String.append (model_name D) " not found"))
                          end).
Proof.
  intros [Hs Hwf Hr HM Hd]. rewrite sql_get_rest, Hd by done.
  destruct (M !! (collection_of D, id)) as [a|] eqn:E; [|done]. cbn.
  apply HM in E as (Hc & _ & _ & Hv). destruct (unwrap_total _ Hc) as [x Hx]. by rewrite Hx, Hv.
Qed.

(** The projected parent of a well-typed row is the parent of its document. *)
Lemma rec_parent_eq k row : row_wf k row → rec_parent_id row = parent_id (key_collection k) (rec_payload row).
Proof.
  intros [Hc _ Hp _]. apply (f_equal rec_parent_id) in Hp. rewrite <-Hp, <-Hc.
  by destruct (rec_payload row).
Qed.

(** Rows of one collection hold different documents. *)
Lemma payloads_nodup c s (rows : list (Key * CodeControlRecord)) :
  table_wf (sql_rows s) → NoDup rows →
  (∀ k row, (k, row) ∈ rows → sql_rows s !! k = Some row ∧ key_ns k = ns ∧ key_collection k = c) →
  NoDup (map (λ kr, rec_payload kr.2) rows).
Proof.
  intros Hwf Hnd Hin. apply NoDup_fmap_2_strong; [|done].
  intros [[[n1 c1] i1] r1] [[[n2 c2] i2] r2] H1 H2 Ep. cbn in Ep.
  apply Hin in H1 as (H1 & Hn1 & Hc1). apply Hin in H2 as (H2 & Hn2 & Hc2). cbn in *. subst.
  destruct (Hwf _ _ H1) as [_ Hd1 _ _], (Hwf _ _ H2) as [_ Hd2 _ _]. cbn in Hd1, Hd2.
  rewrite Ep in Hd1. congruence.
Qed.

Lemma hosted_children_law D `{!Document D} s M p :
  hosted_models ns s M →
  ∃ l, sql_list ns D (Some p) s = (s, inr l) ∧ map wrap l ≡ₚ spec_children (collection_of D) p M.
Proof.
  intros [Hs Hwf Hr HM Hd].
  destruct (sql_list_rest ns D (Some p) s Hs Hwf) as (rows & xs & E & Hxs & _ & Hnd & Hin).
  { intros id a. rewrite Hd. intros H. by apply HM in H as (_ & _ & _ & ?). }
  exists xs. split; [done|]. rewrite Hxs. apply children_perm; [done| |].
  - apply (payloads_nodup (collection_of D) s); [done|done|]. intros k row H. apply Hin in H. naive_solver.
  - intros d. rewrite list_elem_of_fmap. split.
    + intros ([[[n c] i] row] & -> & H). apply Hin in H as (H & Hn & Hc & Hp). cbn in Hn, Hc |- *. subst n c.
      pose proof (Hwf _ _ H) as Hw.
      pose proof (rw_document _ _ Hw) as Hdoc. cbn in Hdoc. rewrite Hdoc, <-Hd. unfold hosted.
      rewrite H. split; [done|]. rewrite <-(Hp p eq_refl). by rewrite (rec_parent_eq _ _ Hw).
    + intros [H Hp]. rewrite <-Hd in H. unfold hosted in H.
      destruct (sql_rows s !! (ns, collection_of D, doc_id d)) as [row|] eqn:Ek; [|done].
      injection H as <-. eexists (_, row). split; [done|]. apply Hin. split; [exact Ek|].
      split; [done|]. split; [done|]. intros p' [= <-]. by rewrite (rec_parent_eq _ _ (Hwf _ _ Ek)).
Qed.

Lemma hosted_list_law D `{!Document D} s M :
  hosted_models ns s M →
  ∃ l, sql_list ns D None s = (s, inr l) ∧ map wrap l ≡ₚ spec_list (collection_of D) M.
Proof.
  intros [Hs Hwf Hr HM Hd].
  destruct (sql_list_rest ns D None s Hs Hwf) as (rows & xs & E & Hxs & _ & Hnd & Hin).
  { intros id a. rewrite Hd. intros H. by apply HM in H as (_ & _ & _ & ?). }
  exists xs. split; [done|]. rewrite Hxs. apply list_perm; [done| |].
  - apply (payloads_nodup (collection_of D) s); [done|done|]. intros k row H. apply Hin in H. naive_solver.
  - intros d. rewrite list_elem_of_fmap. split.
    + intros ([[[n c] i] row] & -> & H). apply Hin in H as (H & Hn & Hc & _). cbn in Hn, Hc |- *. subst n c.
      pose proof (rw_document _ _ (Hwf _ _ H)) as Hdoc. cbn in Hdoc. rewrite Hdoc, <-Hd. unfold hosted. by rewrite H.
    + intros H. rewrite <-Hd in H. unfold hosted in H.
      destruct (sql_rows s !! (ns, collection_of D, doc_id d)) as [row|] eqn:Ek; [|done].
      injection H as <-. eexists (_, row). split; [done|]. apply Hin. by split_and!.
Qed.

Lemma hosted_audit_law s M x :
  hosted_models ns s M → doc_valid (DAudit x) = true → id_pattern (audit_id x) = true →
  ∃ s', sql_save_audit_event ns x s = (s', (spec_audit x M).2) ∧ hosted_models ns s' (spec_audit x M).1.
Proof.
  intros Hm Hv Hi. pose proof Hm as [Hs Hwf Hr HM Hd].
  pose proof (sql_save_audit_rest ns x s Hs) as Hspec. unfold spec_audit.
  destruct (sql_save_audit_event ns x s) as [s' [e|y]] eqn:E.
  - destruct Hspec as (Hrows & [[[row Hrow] ->]|Hriv]); [|rewrite Hr in Hriv; set_solver].
    assert (Hk : M !! (audit, audit_id x) = Some (rec_payload row)) by (rewrite <-Hd; unfold hosted; by rewrite Hrow).
    rewrite Hk. exists s'. split; [done|].
    eapply hosted_models_after; [apply (p_save_audit_event ns x)|done|exact E|done|].
    intros c id. unfold hosted. rewrite Hrows. apply Hd.
  - destruct Hspec as (-> & Hnone & row & Hrows & Hp).
    assert (Hk : M !! (audit, audit_id x) = None) by (rewrite <-Hd; unfold hosted; by rewrite Hnone).
    rewrite Hk. exists s'. split; [done|].
    eapply hosted_models_after; [apply (p_save_audit_event ns x)|done|exact E|by apply (docs_ok_put M (DAudit x))|].
    intros c id. rewrite (hosted_insert s s' _ row c id Hrows). unfold spec_put. cbn [fst doc_collection doc_id].
    destruct (decide _) as [[= <- <-]|Hne]; [by rewrite lookup_insert_eq, Hp|].
    rewrite lookup_insert_ne; [apply Hd|]. congruence.
Qed.

Lemma hosted_update_grant_law s M id f :
  hosted_models ns s M → id_pattern id = true → grant_update_ok id f M →
  ∃ s', ('(g, _) ← sql_update_grant ns id (grant_callback f); mret g) s = (s', (spec_update_grant id f M).2) ∧
    hosted_models ns s' (spec_update_grant id f M).1.
Proof.
  intros Hm Hi [Hf _]. pose proof Hm as [Hs Hwf Hr HM Hd]. unfold mbind at 1, eff_bind at 1.
  pose proof (sql_update_grant_rest ns id (grant_callback f) s Hs) as Hspec. rewrite Hd in Hspec.
  assert (Hprog : store_program ns _ (sql_update_grant ns id (grant_callback f))).
  { apply p_update_grant. intros g r w g' a. unfold grant_callback. destruct (f g r) as [e|g1] eqn:Ef; [done|].
    cbn. intros [= <- _]. by destruct (Hf g r g1 Ef) as (? & ? & _). }
  assert (Hsame : ∀ s' e, sql_update_grant ns id (grant_callback f) s = (s', inl e) → sql_rows s' = sql_rows s →
    hosted_models ns s' M).
  { intros s' e E Hrows. eapply hosted_models_after; [exact Hprog|done|exact E|done|].
    intros c i. unfold hosted. rewrite Hrows. apply Hd. }
  unfold spec_update_grant. destruct (M !! (grants, id)) as [d|] eqn:E.
  2: { destruct Hspec as (s' & Es & Hrows). rewrite Es. exists s'. split; [done|]. by eapply Hsame. }
  pose proof (HM _ _ _ E) as (Hc & Hid & _ & Hv). destruct d as [| | | |g| | | | | ]; try done.
  rewrite Hv, Hd in Hspec. destruct (M !! (runs, grant_run_id g)) as [d|] eqn:Er.
  2: { destruct Hspec as (s' & Es & Hrows). rewrite Es. exists s'. split; [done|]. by eapply Hsame. }
  pose proof (HM _ _ _ Er) as (Hcr & _ & _ & Hvr). destruct d as [| |r| | | | | | | ]; try done.
  rewrite Hvr in Hspec. unfold grant_callback at 1 in Hspec. destruct (f g r) as [e|g'] eqn:Ef; cbn in Hspec.
  { destruct Hspec as (s' & Es & Hrows). rewrite Es. exists s'. split; [done|]. by eapply Hsame. }
  destruct Hspec as (s' & row & Es & Hrows & Hp). rewrite Es. exists s'. split; [done|]. cbn [fst].
  destruct (Hf g r g' Ef) as (Hg1 & Hg2 & Hv'). cbn in Hid.
  assert (Hid' : grant_id g' = id) by congruence.
  eapply hosted_models_after; [exact Hprog|done|exact Es| |].
  - apply docs_ok_put; [done| |by apply Hv']. cbn. by rewrite Hid'.
  - intros c i. rewrite (hosted_insert s s' _ row c i Hrows). unfold spec_put. cbn. rewrite Hid'.
    destruct (decide _) as [[= <- <-]|Hne]; [by rewrite lookup_insert_eq, Hp|].
    rewrite lookup_insert_ne; [apply Hd|]. congruence.
Qed.

(** One row of [prune]. *)
Lemma should_remove_eq a b k row s :
  row_wf k row → doc_valid (rec_payload row) = true →
  should_remove a b k row s = (s, inr (retired a b (rec_payload row))).
Proof.
  intros [Hc _ _ _] Hv. unfold should_remove. destruct (rec_payload row) as [ | | | | | | | | | ] eqn:Ep;
    cbn in Hc; rewrite <-Hc; try done; unfold mbind, eff_bind; rewrite validate_payload_eq, Ep; cbn in Hv |- *;
    by rewrite Hv.
Qed.

Lemma prune_rows a b (l : list (Key * CodeControlRecord)) s :
  (∀ k row, (k, row) ∈ l → row_wf k row ∧ doc_valid (rec_payload row) = true) →
  let gone := base.filter (λ kr, retired a b (rec_payload kr.2) = true) l in
  ∃ counts, map_each (λ kr,
      remove ← should_remove a b kr.1 kr.2;
      if remove : bool then session_delete kr.1;; mret 1%Z else mret 0%Z) l s =
    (s <| sql_deleted := sql_deleted s ++ map fst gone |>, inr counts) ∧
    foldr Z.add 0%Z counts = Z.of_nat (length gone).
Proof.
  set (body := λ kr : Key * CodeControlRecord, remove ← should_remove a b kr.1 kr.2;
      if remove : bool then session_delete kr.1;; mret 1%Z else mret 0%Z).
  revert s. induction l as [|[k row] l IH]; intros s Hl.
  { exists []. cbn. rewrite app_nil_r. split; [|done]. by destruct s. }
  destruct (Hl k row) as [Hw Hv]; [set_solver|].
  assert (Hbody : body (k, row) s = if retired a b (rec_payload row)
    then (s <| sql_deleted := sql_deleted s ++ [k] |>, inr 1%Z) else (s, inr 0%Z)).
  { unfold body. unfold mbind at 1, eff_bind at 1. cbn [fst snd]. rewrite should_remove_eq by done.
    by destruct (retired a b (rec_payload row)). }
  cbn [map_each]. unfold mbind at 1, eff_bind at 1. rewrite Hbody. destruct (retired a b (rec_payload row)) eqn:Er.
  - destruct (IH (s <| sql_deleted := sql_deleted s ++ [k] |>)) as (counts & E & Hc); [set_solver|].
    exists (1 :: counts)%Z. unfold mbind at 1, eff_bind at 1. rewrite E, list.filter_cons_True by done.
    cbn [map fst length foldr]. rewrite Hc. split; [|lia]. cbn [sql_deleted update_field].
    unfold mret, eff_ret. rewrite <-app_assoc. by destruct s.
  - destruct (IH s) as (counts & E & Hc); [set_solver|]. exists (0 :: counts)%Z.
    unfold mbind at 1, eff_bind at 1. rewrite E, list.filter_cons_False by (cbn; congruence).
    cbn [foldr]. by rewrite Hc.
Qed.

Lemma hosted_prune_law s M a b :
  hosted_models ns s M →
  ∃ s', sql_prune ns a b s = (s', inr (spec_prune a b M).2) ∧ hosted_models ns s' (spec_prune a b M).1.
Proof.
  intros Hm. pose proof Hm as [Hs Hwf Hr HM Hd].
  set (P := λ (k : Key) (_ : CodeControlRecord), bool_decide (key_ns k = ns) && bool_decide (key_collection k ∈ PRUNED_COLLECTIONS)).
  set (rows := rows_where P s). set (gone := base.filter (λ kr, retired a b (rec_payload kr.2) = true) rows).
  assert (Hdoc : ∀ c id row, sql_rows s !! (ns, c, id) = Some row → M !! (c, id) = Some (rec_payload row)).
  { intros c id row Hk. rewrite <-Hd. unfold hosted. by rewrite Hk. }
  assert (Hin : ∀ c id row, ((ns, c, id), row) ∈ gone ↔ sql_rows s !! (ns, c, id) = Some row ∧ retired a b (rec_payload row) = true).
  { intros c id row. unfold gone, rows. rewrite list_elem_of_filter, elem_of_rows_where. unfold P. cbn.
    rewrite bool_decide_eq_true_2 by done. cbn. split; [naive_solver|]. intros [Hk Ht]. split; [done|]. split; [done|].
    apply bool_decide_eq_true. destruct (Hwf _ _ Hk) as [Hc _ _ _]. cbn in Hc. subst c.
    destruct (rec_payload row); try done; cbn; unfold PRUNED_COLLECTIONS; set_solver. }
  assert (Hns : ∀ n c id row, ((n, c, id), row) ∈ gone → n = ns).
  { intros n c id row [_ H]%list_elem_of_filter. apply elem_of_rows_where in H as [_ H]. unfold P in H.
    apply andb_true_iff in H as [H _]. by apply bool_decide_eq_true in H. }
  set (doc_of := λ kr : Key * CodeControlRecord, ((key_collection kr.1, key_document kr.1), rec_payload kr.2)).
  destruct (prune_rows a b rows s) as (counts & E & Hcount).
  { intros [[n c] id] row. unfold rows. rewrite elem_of_rows_where. unfold P. cbn.
    intros [Hk [Hn _]%andb_true_iff]. apply bool_decide_eq_true in Hn. subst n. split; [by apply Hwf|].
    apply Hdoc in Hk. by apply HM in Hk as (_ & _ & _ & ?). }
  fold gone in E, Hcount. set (s1 := s <| sql_deleted := sql_deleted s ++ map fst gone |>) in *.
  assert (Hi : insertable s1 = true) by (unfold insertable; cbn; by rewrite (at_rest_new s Hs)).
  assert (Hrun : sql_prune ns a b s = (committed s1, inr (foldr Z.add 0%Z counts))).
  { apply session_write_commits; [done| |done]. unfold mbind at 1, eff_bind at 1. cbn [gets]. unfold gets.
    fold P. fold rows. rewrite objects_rest by done. unfold mbind at 1, eff_bind at 1. by rewrite E. }
  assert (Hrows : ∀ k, sql_rows (committed s1) !! k = if decide (k ∈ map fst gone) then None else sql_rows s !! k).
  { intros k. unfold committed, flushed. cbn. rewrite lookup_foldr_delete.
    rewrite (at_rest_dirty s Hs), (at_rest_new s Hs), (at_rest_deleted s Hs). cbn.
    by rewrite !(left_id_L ∅ (∪)). }
  exists (committed s1). rewrite Hrun, Hcount. unfold spec_prune. cbn [fst snd]. split.
  - do 3 f_equal. rewrite <-length_map_to_list, <-(length_map doc_of gone). apply Permutation_length, NoDup_Permutation.
    + apply NoDup_fmap_2_strong; [|unfold gone, rows, rows_where; rewrite reorder_perm; apply list.NoDup_filter, NoDup_map_to_list].
      intros [[[n1 c1] i1] r1] [[[n2 c2] i2] r2] H1 H2 Ep.
      unfold doc_of, key_collection, key_document in Ep. cbn in Ep. injection Ep as -> -> _.
      pose proof (Hns _ _ _ _ H1) as ->. pose proof (Hns _ _ _ _ H2) as ->. apply Hin in H1 as [H1 _]. apply Hin in H2 as [H2 _]. congruence.
    + apply NoDup_map_to_list.
    + intros [[c id] d]. rewrite elem_of_map_to_list, list_elem_of_fmap. unfold chosen. rewrite map_lookup_filter_Some.
      cbn. rewrite <-Hd. unfold hosted. split.
      * intros ([[[n c'] i'] row] & Ed & H). unfold doc_of, key_collection, key_document in Ed. cbn in Ed.
        injection Ed as -> -> ->. pose proof (Hns _ _ _ _ H) as ->. apply Hin in H as [Hk Ht]. by rewrite Hk.
      * intros [Hk Ht]. destruct (sql_rows s !! (ns, c, id)) as [row|] eqn:Ek; [|done]. injection Hk as <-.
        exists ((ns, c, id), row). split; [done|]. by apply Hin.
  - eapply hosted_models_after; [apply (p_prune ns a b)|done|exact Hrun|by apply left_over_ok|].
    intros c id. unfold hosted. rewrite Hrows. apply option_eq. intros d. unfold left_over.
    rewrite map_lookup_filter_Some. cbn. rewrite <-Hd. unfold hosted.
    assert (Hg : (ns, c, id) ∈ map fst gone ↔ ∃ row, sql_rows s !! (ns, c, id) = Some row ∧ retired a b (rec_payload row) = true).
    { rewrite list_elem_of_fmap. split.
      - intros ([k row] & Ek & H). cbn in Ek. subst k. exists row. by apply Hin.
      - intros (row & H). exists ((ns, c, id), row). split; [done|]. by apply Hin. }
    destruct (decide _) as [(row & Hk & Ht)%Hg|Hn].
    + rewrite Hk. cbn. split; [done|]. intros [[= <-] Hf]. congruence.
    + destruct (sql_rows s !! (ns, c, id)) as [row|] eqn:Hk; cbn; [|naive_solver]. split; [|by intros [? _]].
      intros [= <-]. split; [done|]. apply not_true_iff_false. intros Ht. apply Hn, Hg. eauto.
Qed.

Lemma hosted_consume_law s M h now :
  hosted_models ns s M →
  ∃ s', sql_consume_registration_credential ns h now s = (s', inr (spec_consume h now M).2) ∧
    hosted_models ns s' (spec_consume h now M).1.
Proof.
  intros Hm. pose proof Hm as [Hs Hwf Hr HM Hd].
  pose proof (sql_consume_rest ns h now s Hs Hwf) as Hspec.
  assert (Hafter : ∀ s' r, sql_consume_registration_credential ns h now s = (s', r) →
    (∀ c id, hosted ns s' c id = (spec_consume h now M).1 !! (c, id)) →
    hosted_models ns s' (spec_consume h now M).1).
  { intros s' r E H. eapply hosted_models_after; [apply (p_consume ns h now)|done|exact E| |done].
    by apply spec_consume_ok. }
  destruct (sql_consume_registration_credential ns h now s) as [s' [e|[|]]] eqn:E.
  - destruct Hspec as (_ & a & Ha & Hv). rewrite Hd in Ha. apply HM in Ha as (_ & _ & _ & ?). congruence.
  - destruct Hspec as (c & row & Hc & Hn & He & Hrows & Hp). rewrite Hd in Hc.
    assert (Hsp : spec_consume h now M = (<[(registration_credentials, h) :=
      DRegistrationCredential (c <| reg_consumed_at := Some now |>)]> M, true)).
    { unfold spec_consume. rewrite Hc, Hn. cbn. by rewrite (proj2 (Z.leb_gt _ _) He). }
    exists s'. split; [by rewrite Hsp|]. apply (Hafter s' (inr true) eq_refl).
    intros c' id. rewrite Hsp, (hosted_insert s s' _ row c' id Hrows). cbn.
    destruct (decide _) as [[= <- <-]|Hne].
    + by rewrite lookup_insert_eq, Hp.
    + rewrite lookup_insert_ne; [apply Hd|]. congruence.
  - destruct Hspec as [Hrows Hno].
    assert (Hsp : spec_consume h now M = (M, false)).
    { unfold spec_consume. destruct (M !! (registration_credentials, h)) as [[]|] eqn:Ek; try done.
      rewrite <-Hd in Ek. apply Hno in Ek as [Hc|Hx].
      - by rewrite bool_decide_eq_true_2.
      - by rewrite (proj2 (Z.leb_le _ _) Hx), orb_true_r. }
    exists s'. split; [by rewrite Hsp|]. apply (Hafter s' (inr false) eq_refl).
    intros c' id. rewrite Hsp. cbn. unfold hosted. rewrite Hrows. apply Hd.
Qed.

Lemma insert_all_in (l : list (Collection * Doc)) M cd :
  NoDup (map doc_key l) → cd ∈ l → insert_all l M !! doc_key cd = Some cd.2.
Proof.
  intros Hnd Hcd. rewrite insert_all_lookup by done.
  destruct (list_find _ l) as [[i cd']|] eqn:Ef.
  - apply list_find_Some in Ef as (Hl & Hk & _). f_equal. apply list_elem_of_lookup in Hcd as [j Hj].
    assert (Hij : i = j); [|congruence].
    apply (NoDup_lookup (doc_key <$> l) i j (doc_key cd) Hnd).
    + rewrite list_lookup_fmap, Hl. cbn. by rewrite Hk.
    + by rewrite list_lookup_fmap, Hj.
  - apply list_find_None in Ef. rewrite list.Forall_forall in Ef. by destruct (Ef cd Hcd).
Qed.

Lemma insert_all_out (l : list (Collection * Doc)) M key :
  NoDup (map doc_key l) → key ∉ map doc_key l → insert_all l M !! key = M !! key.
Proof.
  intros Hnd Hk. rewrite insert_all_lookup by done. destruct (list_find _ l) as [[i cd]|] eqn:Ef; [|done].
  apply list_find_Some in Ef as (Hl & <- & _). destruct Hk. apply list_elem_of_fmap. exists cd.
  split; [done|]. by eapply list_elem_of_lookup_2.
Qed.

Lemma row_keys_nodup (l : list (Collection * Doc)) :
  NoDup (map (λ cd, (ns, cd.1, doc_id cd.2)) l) ↔ NoDup (map doc_key l).
Proof.
  assert (E : map (λ cd : Collection * Doc, (ns, cd.1, doc_id cd.2)) l =
    map (λ k : Collection * string, (ns, k.1, k.2)) (map doc_key l)) by (rewrite map_map; done).
  rewrite E. split.
  - intros H. exact (NoDup_fmap_1 _ _ H).
  - apply (NoDup_fmap_2_strong (λ k : Collection * string, (ns, k.1, k.2))).
    intros [c1 i1] [c2 i2] _ _ [= -> ->]. done.
Qed.

Lemma hosted_create_law s M t r ws :
  hosted_models ns s M →
  Forall (λ cd, id_pattern (doc_id cd.2) = true ∧ doc_valid cd.2 = true) (created_documents t r ws) →
  match spec_create (created_documents t r ws) M with
  | Some M' => ∃ s', sql_create_task_run ns t r ws s = (s', inr (t, r, ws)) ∧ hosted_models ns s' M'
  | None => ∃ s' e, sql_create_task_run ns t r ws s = (s', inl e) ∧ hosted_models ns s' M
  end.
Proof.
  intros Hm Hall. pose proof Hm as [Hs Hwf Hr HM Hd].
  assert (Hiff : is_Some (spec_create (created_documents t r ws) M) ↔
    creatable_rows ns s (created_documents t r ws)).
  { rewrite spec_create_iff. unfold creatable_rows. rewrite row_keys_nodup. f_equiv.
    split; intros H cd Hcd; specialize (H cd Hcd); unfold doc_key in *.
    - rewrite <-Hd in H. unfold hosted in H. rewrite Hr.
      split; [|set_solver]. by destruct (sql_rows s !! (ns, cd.1, doc_id cd.2)).
    - rewrite <-Hd. unfold hosted. by rewrite (proj1 H). }
  pose proof (sql_create_rest ns t r ws s Hs) as Hspec.
  destruct (sql_create_task_run ns t r ws s) as [s' [e|res]] eqn:E.
  - destruct Hspec as (Hrows & Hno & _). destruct (spec_create _ M) as [M'|] eqn:EM.
    { by destruct Hno; apply Hiff. }
    exists s', e. split; [done|]. eapply hosted_models_after; [apply p_create_task_run|done|exact E|done|].
    intros c id. unfold hosted. rewrite Hrows. apply Hd.
  - destruct Hspec as (-> & Hcr & Hin & Hout). apply Hiff in Hcr as Hsome. destruct Hsome as [M' EM]. rewrite EM.
    exists s'. split; [done|]. apply spec_create_eq in EM as ->.
    destruct Hcr as [Hnd _]. apply row_keys_nodup in Hnd.
    eapply hosted_models_after; [apply p_create_task_run|done|exact E|by apply insert_all_ok|].
    intros c id. destruct (decide ((c, id) ∈ map doc_key (created_documents t r ws))) as [Hk|Hk].
    + apply list_elem_of_fmap in Hk as (cd & Ecd & Hcd). unfold doc_key in Ecd. injection Ecd as -> ->.
      rewrite (Hin cd Hcd). symmetry. exact (insert_all_in _ M cd Hnd Hcd).
    + rewrite insert_all_out by done. rewrite <-Hd. unfold hosted. rewrite Hout; [done|].
      intros cd Hcd [= -> ->]. apply Hk, list_elem_of_fmap. by exists cd.
Qed.

Lemma hosted_delete_law s M t :
  hosted_models ns s M → runs_are_not_tasks t M →
  ∃ s', sql_delete_task ns t s = (s', inr ()) ∧ hosted_models ns s' (spec_delete_task t M).
Proof.
  intros Hm Hrt. pose proof Hm as [Hs Hwf Hr HM Hd].
  destruct (sql_delete_task_rest ns t s Hs) as (s' & E & _ & Hrows). exists s'. split; [done|].
  eapply hosted_models_after; [apply (p_delete_task ns t)|done|exact E|by apply spec_delete_ok|].
  assert (Hrun : ∀ rid, is_run_of t M rid = true ↔ task_run ns s t rid).
  { intros rid. unfold is_run_of, task_run. rewrite <-Hd. unfold hosted.
    destruct (sql_rows s !! (ns, runs, rid)) as [row|] eqn:Ek; cbn; [|split; [done|by intros (? & ? & _)]].
    pose proof (Hwf _ _ Ek) as Hw. pose proof (rec_parent_eq _ _ Hw) as Hp. destruct Hw as [Hc _ _ _]. cbn in Hc, Hp.
    destruct (rec_payload row) as [| |run| | | | | | | ]; try done.
    change (rec_parent_id row = Some (run_task_id run)) in Hp. rewrite String.eqb_eq.
    split; [intros <-; eauto|]. intros (row' & [= <-] & Hp'). congruence. }
  intros c id. apply option_eq. intros d. unfold spec_delete_task. rewrite map_lookup_filter_Some. cbn.
  assert (Hgo : ∀ row, sql_rows s !! (ns, c, id) = Some row →
    owned_rows ns s t (ns, c, id) row ↔ goes_with_task t M c id (rec_payload row) = true).
  { intros row Hk. pose proof (rec_parent_eq _ _ (Hwf _ _ Hk)) as Hp. cbn in Hp.
    destruct (Hwf _ _ Hk) as [Hc _ _ _]. cbn in Hc.
    unfold owned_rows, goes_with_task. cbn. rewrite !orb_true_iff, !andb_true_iff, !bool_decide_eq_true, String.eqb_eq, Hrun, Hp.
    assert (Hch : (match parent_id c (rec_payload row) with Some rid => is_run_of t M rid | None => false end) = true ↔
      ∃ rid, parent_id c (rec_payload row) = Some rid ∧ task_run ns s t rid)
      by (setoid_rewrite <-Hrun; destruct (parent_id c (rec_payload row)); naive_solver).
    rewrite Hch. split.
    - intros [_ [H|[H|(rid & H1 & H2)]]]; [by left; left|by left; right|]. right. split; [|eauto].
      destruct (decide (c = runs)) as [->|Hne].
      + exfalso. assert (Hlook : M !! (runs, id) = Some (rec_payload row)) by (rewrite <-Hd; unfold hosted; by rewrite Hk).
        destruct (rec_payload row) as [| |run| | | | | | | ]; try done. cbn in H1. injection H1 as <-.
        specialize (Hrt id run Hlook). apply Hrun in H2. congruence.
      + destruct (rec_payload row); cbn in Hc; subst c; cbn in H1; try done; try (by destruct Hne); set_solver.
    - intros [[H|H]|[_ H]]; (split; [done|]); [by left|by right; left|by right; right]. }
  split.
  - unfold hosted. destruct (sql_rows s' !! (ns, c, id)) as [row|] eqn:Ek; [|done]. cbn. intros [= <-].
    apply Hrows in Ek as [Ek Hno]. rewrite <-Hd. unfold hosted. rewrite Ek. split; [done|].
    apply not_true_iff_false. by rewrite <-(Hgo row Ek).
  - intros [Hk Hg]. rewrite <-Hd in Hk. unfold hosted in Hk |- *.
    destruct (sql_rows s !! (ns, c, id)) as [row|] eqn:Ek; [|done]. cbn in Hk. injection Hk as <-.
    rewrite (proj2 (Hrows (ns, c, id) row)); [done|]. split; [done|]. rewrite (Hgo row eq_refl). congruence.
Qed.

Definition hosted_laws : @StoreLaws SqlWorld (hosted_store ns) :=
  Build_StoreLaws SqlWorld (hosted_store ns) (hosted_models ns) (hm_ok ns) hosted_save_law
    (λ D _ s M id Hm _, hosted_get_law D s M id Hm)
    (λ D _ s M p Hm _, hosted_children_law D s M p Hm)
    (λ D _ s M Hm, hosted_list_law D s M Hm)
    hosted_update_grant_law
    (λ s M x Hm Hi Hv, hosted_audit_law s M x Hm Hv Hi)
    hosted_prune_law
    (λ s M h now Hm _, hosted_consume_law s M h now Hm)
    hosted_create_law
    (λ s M t Hm _ Hr, hosted_delete_law s M t Hm Hr).
End HostedLaws.

(** C31: the local and the hosted store answer alike. Started on the same
    documents, any sequence of saves, reads, listings (of a collection or of a
    parent), grant updates, audit records, prunings, registrations, task
    creations and task deletions is answer_of the same by both: the same results
    and the same exceptions, but for the order of a listing and for the exception
    of a refused creation.  Each answer is the one of a specification over a plain
    map, and both end up holding its documents.  The caller owes what [calls_ok]
    says: ids that are file names, valid documents, callbacks of [update_grant]
    that keep the grant's ids and validity, and, when a task is deleted, no run
    filed under a task whose id is that of one of the deleted runs.  The hosted
    table is between transactions and no replica is inserting.  [update_run] and
    [claim_run] are not among the calls: they store the time of the store's own
    clock. *)
Theorem stores_agree {PF : Platform} ns calls w s M :
  local_models w M → hosted_models ns s M → calls_ok M calls →
  let local := run_calls calls w in
  let remote := @run_calls SqlWorld (hosted_store ns) calls s in
  let spec := spec_calls calls M in
  Forall2 same_answer local.2 remote.2 ∧ Forall2 same_answer local.2 spec.2 ∧
  local_models local.1 spec.1 ∧ hosted_models ns remote.1 spec.1.
Proof.
  intros Hl Hh Hok local remote spec.
  destruct (@calls_refine World local_store local_laws calls w M Hl Hok) as [Hl1 Hl2].
  destruct (@calls_refine SqlWorld (hosted_store ns) (hosted_laws ns) calls s M Hh Hok) as [Hh1 Hh2].
  split; [|done]. etrans; [exact Hl2|]. by symmetry.
Qed.

(** ** Concrete stores *)

Definition contract_grant : ConnectorGrant := {|
  grant_schema_version := 1; grant_id := "g1"; grant_run_id := "r1"; grant_computer_id := "c1"; grant_epoch := 1;
  grant_provider := "github"; grant_connection_name := "gh"; grant_actions := ["read"];
  grant_resource_constraints := []; grant_token_hash := demo_hash; grant_expires_at := 60; grant_max_uses := 1;
  grant_use_count := 0; grant_last_used_at := None; grant_revoked_at := None; grant_created_at := 20 |}.

Definition contract_event : SecurityAuditEvent := {|
  audit_schema_version := 1; audit_id := "a1"; audit_action := "connector.use"; audit_outcome := "allowed";
  audit_actor_type := "agent"; audit_target_id := "g1"; audit_run_id := Some "r1"; audit_computer_id := None;
  audit_detail := ""; audit_created_at := 40 |}.

(** A callback: one more use, if there is one left. *)
Definition use_once (g : ConnectorGrant) (r : TaskRun) : exn + ConnectorGrant :=
  if (grant_max_uses g <=? grant_use_count g)%Z then inl (ValueError "no uses left")
  else inr (g <| grant_use_count := (grant_use_count g + 1)%Z |>).

Definition demo_calls : list store_call :=
  [CallCreate (demo_task "t") (demo_run "r1" "t" "c1" 10) [];
   CallSave (DCommand (new_RuntimeCommand "cmd1" "r1" 1 "start" [] "" 30));
   CallChildren RuntimeCommand "r1";
   CallCreate (demo_task "t2") (demo_run "r1" "t2" "c1" 10) [];
   CallSave (DRegistrationCredential demo_registration);
   CallConsume demo_hash 1; CallConsume demo_hash 2;
   CallSave (DGrant contract_grant); CallUpdateGrant "g1" use_once; CallUpdateGrant "g1" use_once; CallList ConnectorGrant;
   CallAudit contract_event; CallAudit contract_event; CallPrune 50 1000;
   CallDelete "t"; CallGet TaskRun "r1"].

Lemma use_once_ok M : M !! (grants, "g1") = Some (DGrant contract_grant) ∨
    M !! (grants, "g1") = Some (DGrant (contract_grant <| grant_use_count := 1%Z |>)) →
  grant_update_ok "g1" use_once M.
Proof.
  intros HM. split.
  - intros g r g'. unfold use_once. destruct (_ <=? _)%Z; [done|]. intros [= <-]. do 2 (split; [done|]).
    cbn. unfold valid_grant. cbn. rewrite !andb_true_iff, !Z.leb_le. intros H. split_and!; try apply H. destruct H. lia.
  - intros g Hg. destruct HM as [HM|HM]; rewrite Hg in HM; injection HM as ->; done.
Qed.

Lemma stores_agree_witness :
  Forall2 same_answer (@run_calls World (local_store (PF := plain_platform)) demo_calls (demo_world 0)).2
    [Done; Done; Listed [DCommand (new_RuntimeCommand "cmd1" "r1" 1 "start" [] "" 30)]; Refused; Done;
     Consumed true; Consumed false; Done; Found (DGrant (contract_grant <| grant_use_count := 1%Z |>));
     Raised (ValueError "no uses left"); Listed [DGrant (contract_grant <| grant_use_count := 1%Z |>)];
     Found (DAudit contract_event); Raised (ValueError "security audit events are append-only"); Pruned 2; Done;
     Raised (KeyError "TaskRun not found")].
Proof.
  assert (Hok : calls_ok ∅ demo_calls).
  { unfold demo_calls. cbn [calls_ok].
    split; [repeat apply Forall_cons_2; try (split; vm_compute; reflexivity); constructor|].
    split; [split; vm_compute; reflexivity|].
    split; [change (commands ∈ indexed); by_decide|].
    split; [repeat apply Forall_cons_2; try (split; vm_compute; reflexivity); constructor|].
    split; [split; vm_compute; reflexivity|].
    split; [vm_compute; reflexivity|].
    split; [vm_compute; reflexivity|].
    split; [split; vm_compute; reflexivity|].
    split; [split; [vm_compute; reflexivity|apply use_once_ok; left; vm_compute; reflexivity]|].
    split; [split; [vm_compute; reflexivity|apply use_once_ok; right; vm_compute; reflexivity]|].
    split; [exact I|].
    split; [split; vm_compute; reflexivity|].
    split; [split; vm_compute; reflexivity|].
    split; [exact I|].
    split; [split; [vm_compute; reflexivity|apply runs_are_not_tasks_check; vm_compute; reflexivity]|].
    split; [vm_compute; reflexivity|exact I]. }
  assert (Hl : local_models (demo_world 0) ∅).
  { split; [apply demo_world_wf|]. done. }
  assert (Hh : hosted_models "org" (demo_sql 0) ∅).
  { split; [apply demo_sql_rest|apply demo_sql_wf|done|done|done]. }
  destruct (stores_agree (PF := plain_platform) "org" demo_calls (demo_world 0) (demo_sql 0) ∅ Hl Hh Hok)
    as (_ & H & _).
  assert (Hspec : (spec_calls demo_calls ∅).2 =
    [Done; Done; Listed [DCommand (new_RuntimeCommand "cmd1" "r1" 1 "start" [] "" 30)]; Refused; Done;
     Consumed true; Consumed false; Done; Found (DGrant (contract_grant <| grant_use_count := 1%Z |>));
     Raised (ValueError "no uses left"); Listed [DGrant (contract_grant <| grant_use_count := 1%Z |>)];
     Found (DAudit contract_event); Raised (ValueError "security audit events are append-only"); Pruned 2; Done;
     Raised (KeyError "TaskRun not found")]) by (vm_compute; reflexivity).
  rewrite <-Hspec. exact H.
Defined.
