(* ===== verification/Delegation.v ===== *)
(** * Connector delegation.

    [ConnectorDelegationService] ([src/cowork/coding/connector_delegation.py])
    issues short-lived connector capabilities to a Task Run, authorizes their
    use and revokes them; [record_security_event]
    ([src/cowork/coding/security_audit.py]) writes the audit trail.

    The theorems: what a successful authorization proves about the grant, the
    run, the token, the action and the resource; that the uses of a grant never
    exceed its budget whatever the sequence of calls; that a refusal is recorded
    and changes no grant; and that a revoked grant is refused. *)
From stdpp Require Import base list gmap strings option.
From Stdlib Require Import ZArith Lia.
From S2P Require Import Prelude ControlModels ControlWorld RunState ControlStore.

(** [Model(...)]: the constructor validates its arguments. *)
Definition construct {D} `{!Document D} (x : D) : op D :=
  if doc_valid (wrap x) then mret x else raise (ValidationError (model_name D)).

(** [d.get(name)] of a [dict[str, str]], kept as its list of items. *)
Fixpoint dict_get (d : list (string * string)) (name : string) : option string :=
  match d with
  | [] => None
  | (k, v) :: d' => if String.eqb k name then Some v else dict_get d' name
  end.

Section Delegation.
Context {PF : Platform}.

Definition record_security_event (action outcome actor_type target_id : string)
    (run_id computer_id : option string) (detail : string) : op () :=
  uuid ← uuid4_hex;
  now ← utc_now;
  event ← construct {|
    audit_schema_version := CONTROL_SCHEMA_VERSION;
    audit_id := String.append "audit-" uuid;
    audit_action := action; audit_outcome := outcome; audit_actor_type := actor_type;
    audit_target_id := target_id; audit_run_id := run_id; audit_computer_id := computer_id;
    audit_detail := detail; audit_created_at := now |};
  save_audit_event event;;
  mret ().

(** [issue]. *)
Definition issue (run_id provider connection_name : string) (actions : list string)
    (resource_constraints : list (string * string)) (ttl : Z) : op (ConnectorGrant * string) :=
  run ← get_run run_id;
  raise_if (bool_decide (run_status run ∈ [completed; cancelled; failed]))
    (StateConflict "Connector access is unavailable after a Task Run ends");;
  token ← token_urlsafe;
  uuid ← uuid4_hex;
  now ← utc_now;
  created ← utc_now;
  grant ← construct {|
    grant_schema_version := CONTROL_SCHEMA_VERSION;
    grant_id := String.append "grant-" uuid;
    grant_run_id := ControlModels.run_id run;
    grant_computer_id := run_computer_id run;
    grant_epoch := run_epoch run;
    grant_provider := provider;
    grant_connection_name := connection_name;
    grant_actions := unique_values actions;
    grant_resource_constraints := resource_constraints;
    grant_token_hash := digest token;
    grant_expires_at := (now + ttl)%Z;
    grant_max_uses := 100; grant_use_count := 0;
    grant_last_used_at := None; grant_revoked_at := None; grant_created_at := created |};
  saved ← save_grant grant;
  record_security_event "connector.grant" "allowed" "system" (grant_id grant)
    (Some (ControlModels.run_id run)) (Some (run_computer_id run))
    (String.append provider (String.append ":" (str_join "," actions)));;
  mret (saved, token).

(** The constraint names [_validate_constraints] checks for an action. *)
Definition required_names (grant : ConnectorGrant) (action : string) : list string :=
  let keys := map fst (grant_resource_constraints grant) in
  let action_constraint_names :=
    if String.eqb action "read_source" then ["url"]
    else if String.eqb action "pull_request_status" then ["target_url"]
    else if String.eqb action "search_work" then ["repository"]
    else keys in
  match base.filter (λ name, name ∈ keys) action_constraint_names with
  | [] => keys
  | names => names
  end.

(** [_validate_constraints]. *)
Definition validate_constraints (grant : ConnectorGrant) (action : string)
    (requested : list (string * string)) : op () :=
  for_each (required_names grant action) (λ name,
    match dict_get (grant_resource_constraints grant) name with
    | None => mret ()
    | Some allowed =>
        raise_if (negb (bool_decide (dict_get requested name = Some allowed)))
          (RuntimeAuthenticationError "Connector capability is outside its resource scope")
    end).

(** [_validate]. *)
Definition validate (grant : ConnectorGrant) (run : TaskRun) (token action : string)
    (constraints : list (string * string)) (computer_id : option string) : op () :=
  (if decide (grant_revoked_at grant = None) then
     now ← utc_now;
     raise_if (grant_expires_at grant <=? now)%Z
       (RuntimeAuthenticationError "Connector capability expired")
   else raise (RuntimeAuthenticationError "Connector capability expired"));;
  raise_if (negb (grant_epoch grant =? run_epoch run)%Z || is_terminal_status (run_status run))
    (RuntimeAuthenticationError "Connector capability belongs to a stale Task Run");;
  raise_if (negb (String.eqb (grant_computer_id grant) (run_computer_id run)) ||
            match computer_id with
            | Some c => negb (String.eqb (grant_computer_id grant) c)
            | None => false
            end)
    (RuntimeAuthenticationError "Connector capability belongs to another computer");;
  raise_if (negb (String.eqb (grant_token_hash grant) (digest token)))
    (RuntimeAuthenticationError "Connector capability authentication failed");;
  raise_if (negb (bool_decide (action ∈ grant_actions grant)))
    (RuntimeAuthenticationError "Connector capability does not allow this action");;
  validate_constraints grant action constraints;;
  raise_if (grant_max_uses grant <=? grant_use_count grant)%Z
    (RuntimeAuthenticationError "Connector capability use limit reached").

(** [authorize_grant], the operation run under the store's lock; the run it
    saw is captured. *)
Definition authorize_grant (token action : string) (constraints : list (string * string))
    (computer_id : option string) (grant : ConnectorGrant) (run : TaskRun) :
    op (ConnectorGrant * TaskRun) :=
  validate grant run token action constraints computer_id;;
  now ← utc_now;
  mret (grant <| grant_use_count := (grant_use_count grant + 1)%Z |>
              <| grant_last_used_at := Some now |>, run).

(** [computer_id or run_snapshot.computer_id]. *)
Definition computer_or (computer_id : option string) (run : TaskRun) : string :=
  match computer_id with
  | Some c => if truthy c then c else run_computer_id run
  | None => run_computer_id run
  end.

(** [authorize].  Reading the snapshot raises none of the exceptions the
    handler catches. *)
Definition authorize (grant_id token action : string) (constraints : list (string * string))
    (computer_id : option string) : op ConnectorGrant :=
  grant_snapshot ← get_grant grant_id;
  catch
    ('(grant, run) ← update_grant grant_id (authorize_grant token action constraints computer_id);
     record_security_event "connector.invoke" "allowed" "agent" (ControlModels.grant_id grant)
       (Some (run_id run)) (Some (computer_or computer_id run))
       (String.append (grant_provider grant) (String.append ":" action));;
     mret grant)
    (λ e, if is_RuntimeAuthenticationError e then
            Some (record_security_event "connector.invoke" "denied" "agent" grant_id
                    (Some (grant_run_id grant_snapshot)) computer_id (exn_str e);;
                  raise e)
          else None).

(** The body of the loop of [revoke_for_run]. *)
Definition revoke_one (run_id : string) (now : Z) (grant : ConnectorGrant) : op () :=
  if decide (grant_revoked_at grant = None) then
    save_grant (grant <| grant_revoked_at := Some now |>);;
    record_security_event "connector.revoke" "completed" "system" (ControlModels.grant_id grant)
      (Some run_id) (Some (grant_computer_id grant)) ""
  else mret ().

(** [revoke_for_run]. *)
Definition revoke_for_run (run_id : string) : op () :=
  now ← utc_now;
  l ← list_grants (Some run_id);
  for_each l (revoke_one run_id now).
End Delegation.

(** ** What the operations may write *)

Section DelegationFrames.
Context {PF : Platform} {R : relation World} `{!Frame R}.

Lemma construct_frame {D} `{!Document D} (x : D) : within R (construct x).
Proof. unfold construct. walk_frame. Qed.
#[local] Hint Resolve construct_frame : frame.

Lemma record_security_event_frame a o t g r c d :
  may_write R audit → within R (record_security_event a o t g r c d).
Proof. unfold record_security_event. walk_frame. Qed.
#[local] Hint Resolve record_security_event_frame : frame.

Lemma issue_frame r p n a rc ttl :
  may_write R grants → may_write R audit → within R (issue r p n a rc ttl).
Proof. unfold issue. walk_frame. Qed.

Lemma validate_constraints_frame g a rc : within R (validate_constraints g a rc).
Proof. unfold validate_constraints. walk_frame. Qed.
#[local] Hint Resolve validate_constraints_frame : frame.

Lemma validate_frame g r t a cs c : within R (validate g r t a cs c).
Proof. unfold validate. walk_frame. Qed.
#[local] Hint Resolve validate_frame : frame.

Lemma authorize_grant_frame t a cs c g r : within R (authorize_grant t a cs c g r).
Proof. unfold authorize_grant. walk_frame. Qed.
#[local] Hint Resolve authorize_grant_frame : frame.

Lemma authorize_frame g t a cs c :
  may_write R grants → may_write R audit → within R (authorize g t a cs c).
Proof.
  intros Hg Ha. unfold authorize. apply within_bind; [apply _|walk_frame|]. intros snap.
  apply within_catch; [apply _|walk_frame|].
  intros e k. destruct (is_RuntimeAuthenticationError e); [|done]. intros [= <-]. walk_frame.
Qed.

Lemma revoke_for_run_frame r :
  may_write R grants → may_write R audit → within R (revoke_for_run r).
Proof. unfold revoke_for_run, revoke_one. walk_frame. Qed.
End DelegationFrames.

#[export] Hint Resolve construct_frame record_security_event_frame issue_frame
  validate_constraints_frame validate_frame authorize_grant_frame authorize_frame
  revoke_for_run_frame : frame.

(** ** What a capability allows *)

Section Admission.
Context {PF : Platform}.

(** The constraints of a grant for an action, met by a request. *)
Definition constraints_met (grant : ConnectorGrant) (action : string)
    (requested : list (string * string)) : Prop :=
  ∀ name allowed, name ∈ required_names grant action →
    dict_get (grant_resource_constraints grant) name = Some allowed →
    dict_get requested name = Some allowed.

(** The specification of a usable capability at an instant. *)
Record admissible (grant : ConnectorGrant) (run : TaskRun) (token action : string)
    (requested : list (string * string)) (computer_id : option string) (now : Z) : Prop := {
  adm_live : grant_revoked_at grant = None;
  adm_unexpired : (now < grant_expires_at grant)%Z;
  adm_epoch : grant_epoch grant = run_epoch run;
  adm_active : is_terminal_status (run_status run) = false;
  adm_computer : grant_computer_id grant = run_computer_id run;
  adm_caller : ∀ c, computer_id = Some c → grant_computer_id grant = c;
  adm_token : grant_token_hash grant = digest token;
  adm_action : action ∈ grant_actions grant;
  adm_constraints : constraints_met grant action requested;
  adm_budget : (grant_use_count grant < grant_max_uses grant)%Z;
}.

Lemma validate_constraints_spec grant action requested w :
  (validate_constraints grant action requested w = (w, inr ()) ∧
     constraints_met grant action requested) ∨
  (validate_constraints grant action requested w =
     (w, inl (RuntimeAuthenticationError "Connector capability is outside its resource scope")) ∧
     ¬ constraints_met grant action requested).
Proof.
  unfold validate_constraints, constraints_met.
  induction (required_names grant action) as [|name l IH]; cbn [for_each].
  { left. split; [done|]. intros name allowed H. by apply not_elem_of_nil in H. }
  unfold mbind, eff_bind.
  destruct (dict_get (grant_resource_constraints grant) name) as [allowed|] eqn:Ea.
  - case_bool_decide as Hr; cbn [negb]; rewrite ?raise_if_false, ?raise_if_true; cbn iota beta.
    + destruct IH as [[-> H]|[-> H]]; [left|right]; (split; [done|]).
      * intros n a [->|Hn]%elem_of_cons; [congruence|]. by apply H.
      * intros H'. apply H. intros n a Hn. apply H'. by right.
    + right. split; [done|]. intros H'. apply Hr. apply H'; [by left|done].
  - change ((mret () : op ()) w) with (w, @inr exn () ()). cbn iota beta.
    destruct IH as [[-> H]|[-> H]]; [left|right]; (split; [done|]).
    + intros n a [->|Hn]%elem_of_cons; [congruence|]. by apply H.
    + intros H'. apply H. intros n a Hn. apply H'. by right.
Qed.

Ltac refuse := right; eexists; split; [reflexivity|]; intros []; congruence || lia || done.

Ltac pass := cbn [negb orb]; rewrite ?raise_if_false; cbn iota beta.

(** [_validate] decides [admissible]. *)
Lemma validate_spec grant run token action requested computer_id w :
  ∃ w', env_step w w' ∧
    ((validate grant run token action requested computer_id w = (w', inr ()) ∧
        admissible grant run token action requested computer_id (w_clock w (w_reads w))) ∨
     (∃ m, validate grant run token action requested computer_id w =
        (w', inl (RuntimeAuthenticationError m)) ∧
        ¬ admissible grant run token action requested computer_id (w_clock w (w_reads w)))).
Proof.
  unfold validate, mbind, eff_bind.
  destruct (decide (grant_revoked_at grant = None)) as [Hr|Hr].
  2:{ exists w. split; [reflexivity|]. refuse. }
  exists (utc_now w).1. split; [apply utc_now_env|].
  change (utc_now w) with ((utc_now w).1, @inr exn Z (w_clock w (w_reads w))). cbn iota beta.
  set (w1 := (utc_now w).1).
  destruct (Z.leb_spec (grant_expires_at grant) (w_clock w (w_reads w))); [refuse|]. pass.
  destruct (Z.eqb_spec (grant_epoch grant) (run_epoch run)); [|refuse]. pass.
  destruct (is_terminal_status (run_status run)) eqn:Et; [refuse|]. pass.
  destruct (String.eqb_spec (grant_computer_id grant) (run_computer_id run)); [|refuse]. pass.
  assert (Hc : (∃ c, computer_id = Some c ∧ grant_computer_id grant ≠ c ∧
      match computer_id with Some c => negb (String.eqb (grant_computer_id grant) c) | None => false end = true) ∨
    ((∀ c, computer_id = Some c → grant_computer_id grant = c) ∧
      match computer_id with Some c => negb (String.eqb (grant_computer_id grant) c) | None => false end = false)).
  { destruct computer_id as [c|]; [|by right].
    destruct (String.eqb_spec (grant_computer_id grant) c); [right; naive_solver|left; eauto]. }
  destruct Hc as [(c & -> & Hne & ->)|[Hc ->]]; pass.
  { right. eexists. split; [reflexivity|]. intros []. by apply Hne, adm_caller0. }
  destruct (String.eqb_spec (grant_token_hash grant) (digest token)); [|refuse]. pass.
  case_bool_decide as Ha; [|refuse]. pass.
  destruct (validate_constraints_spec grant action requested w1) as [[-> Hcs]|[-> Hcs]]; [|refuse].
  destruct (Z.leb_spec (grant_max_uses grant) (grant_use_count grant)); [refuse|].
  rewrite raise_if_false.
  left. split; [done|]. by split.
Qed.
End Admission.

(** ** The audit trail *)

Section Audit.
Context {PF : Platform}.

(** Recording an event either appends one new document or raises something
    that is not an authentication error and writes nothing. *)
Lemma record_security_event_spec action outcome actor target run_id computer_id detail w :
  ∃ w', (∃ ev, record_security_event action outcome actor target run_id computer_id detail w = (w', inr ()) ∧
      w_docs w !! (audit, audit_id ev) = None ∧
      w_docs w' = <[(audit, audit_id ev) := DAudit ev]> (w_docs w) ∧
      audit_action ev = action ∧ audit_outcome ev = outcome ∧ audit_target_id ev = target ∧
      audit_run_id ev = run_id ∧ audit_computer_id ev = computer_id ∧ audit_detail ev = detail) ∨
    (∃ e, record_security_event action outcome actor target run_id computer_id detail w = (w', inl e) ∧
      is_RuntimeAuthenticationError e = false ∧ w_docs w' = w_docs w).
Proof.
  unfold record_security_event, mbind, eff_bind. unfold uuid4_hex, utc_now at 1 2. cbn iota beta.
  set (w1 := update_field w_reads _ _). unfold construct at 1 2.
  set (ev := {| audit_id := _ |}). change (doc_valid (wrap ev)) with (valid_audit ev).
  assert (Hd1 : w_docs w1 = w_docs w) by done.
  destruct (valid_audit ev) eqn:Ev.
  2:{ exists w1. right. eexists. split; [done|]. done. }
  change ((mret ev : op _) w1) with (w1, @inr exn _ ev). cbn iota beta.
  unfold save_audit_event, mbind, eff_bind. rewrite get_unless_missing_eq, get_eq. cbn [snd].
  assert (Hid : id_pattern (audit_id ev) = true).
  { unfold valid_audit in Ev. repeat (apply andb_true_iff in Ev as [Ev ?]). done. }
  rewrite Hid. change (collection_of SecurityAuditEvent) with audit.
  destruct (w_docs w1 !! (audit, audit_id ev)) as [a|] eqn:Ea.
  - exists w1. right. destruct (unwrap a) as [x|]; [destruct (doc_valid a)|]; cbn;
      eexists; (split; [reflexivity|]; done).
  - cbn [is_KeyError]. cbn iota beta. unfold mbind, eff_bind. rewrite save_eq. change (doc_id (DAudit ev)) with (audit_id ev). rewrite Hid.
    cbn iota beta. eexists. left. exists ev. split; [reflexivity|].
    rewrite index_document_docs, set_docs_docs, Hd1. rewrite Hd1 in Ea. done.
Qed.

Lemma record_security_event_grants action outcome actor target run_id computer_id detail w w' r id :
  record_security_event action outcome actor target run_id computer_id detail w = (w', r) →
  stored ConnectorGrant w' id = stored ConnectorGrant w id.
Proof.
  intros H. destruct (record_security_event_spec action outcome actor target run_id computer_id detail w)
    as (w1 & [(ev & E & _ & Hd & _)|(e & E & _ & Hd)]); rewrite E in H; simplify_eq.
  - by eapply (stored_insert_ne ConnectorGrant).
  - unfold stored. by rewrite Hd.
Qed.

Lemma save_grant_spec (x : ConnectorGrant) w :
  id_pattern (grant_id x) = true →
  ∃ w', save_grant x w = (w', inr x) ∧ w_docs w' = <[(grants, grant_id x) := DGrant x]> (w_docs w).
Proof.
  intros Hid. unfold save_grant, mbind, eff_bind. rewrite save_eq.
  change (doc_id (DGrant x)) with (grant_id x). rewrite Hid. eexists. split; [done|].
  by rewrite index_document_docs.
Qed.

(** The guarded update: the two ways it ends once the grant and its run are
    read. *)
Lemma authorize_update_spec gid token action requested computer_id g run w :
  store_wf w → stored ConnectorGrant w gid = Some g → valid_grant g = true →
  stored TaskRun w (grant_run_id g) = Some run → valid_run run = true →
  let m := update_grant gid (authorize_grant token action requested computer_id) in
  ∃ w', (∃ t, let g' := g <| grant_use_count := (grant_use_count g + 1)%Z |>
                        <| grant_last_used_at := Some t |> in
        m w = (w', inr (g', run)) ∧ w_docs w' = <[(grants, gid) := DGrant g']> (w_docs w) ∧
        admissible g run token action requested computer_id (w_clock w (w_reads w))) ∨
    (∃ msg, m w = (w', inl (RuntimeAuthenticationError msg)) ∧ w_docs w' = w_docs w ∧
        ¬ admissible g run token action requested computer_id (w_clock w (w_reads w))).
Proof.
  intros Hwf Hg Hvg Hr Hvr m. destruct (stored_key _ _ _ _ Hwf Hg) as [Hgid Hpat].
  change (doc_id (wrap g)) with (grant_id g) in Hgid.
  destruct (stored_key _ _ _ _ Hwf Hr) as [Hrid Hrpat].
  unfold m, update_grant, mbind, eff_bind.
  assert (E1 : get_grant gid w = (w, inr g)) by (by apply get_inr).
  rewrite E1. assert (E2 : get_run (grant_run_id g) w = (w, inr run)) by (by apply get_inr).
  rewrite E2. unfold authorize_grant at 1 2, mbind, eff_bind.
  destruct (validate_spec g run token action requested computer_id w)
    as (w1 & He & [[Hv Hadm]|(msg & Hv & Hadm)]); rewrite Hv; cbn iota beta.
  - unfold utc_now at 1 2. cbn iota beta. set (w2 := update_field w_reads _ w1).
    cbn -[save_grant w2]. set (g' := update_field grant_last_used_at _ _).
    destruct (save_grant_spec g' w2) as (w3 & E3 & Hd3).
    { change (id_pattern (grant_id g) = true). by rewrite Hgid. }
    rewrite E3. exists w3. left. eexists. split; [reflexivity|]. split; [|done].
    rewrite Hd3. change (w_docs w2) with (w_docs w1). rewrite (env_step_docs _ _ He).
    change (grant_id g') with (grant_id g). by rewrite Hgid.
  - exists w1. right. exists msg. split; [done|]. split; [by apply env_step_docs|done].
Qed.
End Audit.

(** ** Authorization *)

Section Authorization.
Context {PF : Platform}.

(** Everything an authorization can do: it reads an intact grant and run and
    then either spends one use of an admissible grant, or spends none. *)
Lemma authorize_cases gid token action requested computer_id w :
  store_wf w →
  let m := authorize gid token action requested computer_id in
  let now := w_clock w (w_reads w) in
  (∃ w' e, m w = (w', inl e) ∧ w' = w ∧ is_RuntimeAuthenticationError e = false) ∨
  ∃ g run, stored ConnectorGrant w gid = Some g ∧ stored TaskRun w (grant_run_id g) = Some run ∧
    ((∃ t w1 w' r, let g' := g <| grant_use_count := (grant_use_count g + 1)%Z |>
                             <| grant_last_used_at := Some t |> in
        m w = (w', r) ∧ admissible g run token action requested computer_id now ∧
        w_docs w1 = <[(grants, gid) := DGrant g']> (w_docs w) ∧
        ((∃ ev, r = inr g' ∧ w_docs w1 !! (audit, audit_id ev) = None ∧
            w_docs w' = <[(audit, audit_id ev) := DAudit ev]> (w_docs w1) ∧
            audit_outcome ev = "allowed" ∧ audit_target_id ev = gid ∧
            audit_run_id ev = Some (run_id run)) ∨
         (∃ e, r = inl e ∧ is_RuntimeAuthenticationError e = false ∧ w_docs w' = w_docs w1))) ∨
     (∃ w' e, m w = (w', inl e) ∧ ¬ admissible g run token action requested computer_id now ∧
        ((∃ ev msg, e = RuntimeAuthenticationError msg ∧
            w_docs w !! (audit, audit_id ev) = None ∧
            w_docs w' = <[(audit, audit_id ev) := DAudit ev]> (w_docs w) ∧
            audit_outcome ev = "denied" ∧ audit_target_id ev = gid ∧ audit_detail ev = msg ∧
            audit_run_id ev = Some (grant_run_id g)) ∨
         (is_RuntimeAuthenticationError e = false ∧ w_docs w' = w_docs w)))).
Proof.
  intros Hwf m now. unfold m, authorize, mbind, eff_bind.
  destruct (get_grant gid w) as [w0 [e|g]] eqn:Eg.
  { left. unfold get_grant in Eg. rewrite get_eq in Eg. injection Eg as <- He.
    exists w, e. split; [done|]. split; [done|]. repeat case_match; by simplify_eq/=. }
  pose proof Eg as Eg'. apply get_inr in Eg' as (-> & Hpat & Hg & Hvg).
  unfold catch, mbind, eff_bind.
  destruct (get_run (grant_run_id g) w) as [w0 [e|run]] eqn:Er.
  { left. pose proof (get_eq TaskRun (grant_run_id g) w) as He.
    change (get TaskRun) with get_run in He. rewrite Er in He. injection He as -> He.
    assert (Hne : is_RuntimeAuthenticationError e = false) by (repeat case_match; by simplify_eq/=).
    exists w, e. split; [|done].
    unfold update_grant, mbind, eff_bind. rewrite Eg, Er. cbn. by rewrite Hne. }
  pose proof Er as Er'. apply get_inr in Er' as (-> & Hrpat & Hr & Hvr).
  right. exists g, run. split; [done|]. split; [done|].
  destruct (stored_key _ _ _ _ Hwf Hg) as [Hgid _]. change (doc_id (wrap g)) with (grant_id g) in Hgid.
  destruct (authorize_update_spec gid token action requested computer_id g run w)
    as (w1 & [(t & Hu & Hd & Hadm)|(msg & Hu & Hd & Hadm)]); try done; rewrite Hu; cbn iota beta.
  - left. set (g' := update_field grant_last_used_at _ _) in *. exists t, w1.
    change (ControlModels.grant_id g') with (ControlModels.grant_id g). rewrite Hgid.
    destruct (record_security_event_spec "connector.invoke" "allowed" "agent" gid (Some (run_id run))
      (Some (computer_or computer_id run)) (grant_provider g' +:+ ":" +:+ action) w1)
      as (w2 & [(ev & Hrec & Hnew & Hins & Hev)|(e & Hrec & Hne & Hsame)]); rewrite Hrec; cbn iota beta.
    + exists w2, (inr g'). split; [done|]. split; [done|]. split; [done|]. left. exists ev. naive_solver.
    + exists w2, (inl e). rewrite Hne. split; [done|]. split; [done|]. split; [done|]. right. eauto.
  - right. cbn [is_RuntimeAuthenticationError exn_str].
    destruct (record_security_event_spec "connector.invoke" "denied" "agent" gid
      (Some (grant_run_id g)) computer_id msg w1)
      as (w2 & [(ev & Hrec & Hnew & Hins & Hev)|(e & Hrec & Hne & Hsame)]); rewrite Hrec; cbn iota beta.
    + eexists w2, _. split; [reflexivity|]. split; [done|]. left. exists ev, msg. rewrite Hd in *. naive_solver.
    + eexists w2, _. split; [reflexivity|]. split; [done|]. right. split; [done|]. by rewrite Hsame.
Qed.

Lemma authorize_inr gid token action requested computer_id w w' g' :
  store_wf w → authorize gid token action requested computer_id w = (w', inr g') →
  ∃ g run t ev,
    stored ConnectorGrant w gid = Some g ∧ stored TaskRun w (grant_run_id g) = Some run ∧
    admissible g run token action requested computer_id (w_clock w (w_reads w)) ∧
    g' = g <| grant_use_count := (grant_use_count g + 1)%Z |> <| grant_last_used_at := Some t |> ∧
    w_docs w !! (audit, audit_id ev) = None ∧
    audit_outcome ev = "allowed" ∧ audit_target_id ev = gid ∧ audit_run_id ev = Some (run_id run) ∧
    w_docs w' = <[(audit, audit_id ev) := DAudit ev]> (<[(grants, gid) := DGrant g']> (w_docs w)).
Proof.
  intros Hwf H. destruct (authorize_cases gid token action requested computer_id w Hwf)
    as [(w1 & e & E & _)|(g & run & Hg & Hr & [(t & w1 & w2 & r & E & Hadm & Hd & Hout)|(w2 & e & E & _)])];
    rewrite E in H; simplify_eq.
  destruct Hout as [(ev & [= ->] & Hnew & Hins & Ho & Ht & Hri)|(e & [=] & _)].
  exists g, run, t, ev. rewrite Hd in Hnew. rewrite lookup_insert_ne in Hnew by done.
  rewrite Hins, Hd. naive_solver.
Qed.

(** C6: an authorized use was entitled to it, and is accounted for.  When
    [authorize] returns, the stored grant was live and unexpired, of the run's
    current epoch and computer, the run had not ended, the token matched the
    stored hash, the action was listed, every constraint the action is subject
    to was met and the budget was not spent; the only changes to the store are
    one more use of that grant and one new "allowed" audit event. *)
Theorem authorize_sound gid token action requested computer_id w w' g' :
  store_wf w → authorize gid token action requested computer_id w = (w', inr g') →
  ∃ g run t ev,
    stored ConnectorGrant w gid = Some g ∧ stored TaskRun w (grant_run_id g) = Some run ∧
    admissible g run token action requested computer_id (w_clock w (w_reads w)) ∧
    g' = g <| grant_use_count := (grant_use_count g + 1)%Z |> <| grant_last_used_at := Some t |> ∧
    w_docs w !! (audit, audit_id ev) = None ∧
    audit_outcome ev = "allowed" ∧ audit_target_id ev = gid ∧ audit_run_id ev = Some (run_id run) ∧
    w_docs w' = <[(audit, audit_id ev) := DAudit ev]> (<[(grants, gid) := DGrant g']> (w_docs w)).
Proof. apply authorize_inr. Qed.

(** a use that is not entitled is refused and leaves a trace.  For an
    intact grant and run that are not [admissible], the call raises, no grant
    changes, and an authentication error is only raised after exactly one
    "denied" audit event naming the grant and the reason was appended. *)
Theorem authorize_refused gid token action requested computer_id w g run :
  store_wf w → stored ConnectorGrant w gid = Some g → stored TaskRun w (grant_run_id g) = Some run →
  ¬ admissible g run token action requested computer_id (w_clock w (w_reads w)) →
  ∃ w' e, authorize gid token action requested computer_id w = (w', inl e) ∧
    (∀ id, stored ConnectorGrant w' id = stored ConnectorGrant w id) ∧
    (is_RuntimeAuthenticationError e = true →
     ∃ ev, w_docs w !! (audit, audit_id ev) = None ∧ audit_outcome ev = "denied" ∧
       audit_target_id ev = gid ∧ audit_detail ev = exn_str e ∧
       w_docs w' = <[(audit, audit_id ev) := DAudit ev]> (w_docs w)).
Proof.
  intros Hwf Hg Hr Hadm. destruct (authorize_cases gid token action requested computer_id w Hwf)
    as [(w1 & e & E & -> & Hne)|(g0 & run0 & Hg0 & Hr0 & [(t & w1 & w2 & r & E & Hadm' & _)|(w2 & e & E & _ & Hout)])].
  - exists w, e. split; [done|]. split; [done|]. congruence.
  - simplify_eq. done.
  - exists w2, e. split; [done|]. destruct Hout as [(ev & msg & -> & Hnew & Hins & ?)|(Hne & Hsame)].
    + split; [|naive_solver]. intros id. by eapply (stored_insert_ne ConnectorGrant).
    + split; [|congruence]. intros id. unfold stored. by rewrite Hsame.
Qed.
End Authorization.

(** ** Revocation and the budget over whole histories *)

Section Histories.
Context {PF : Platform}.

(** What may happen to a stored grant. *)
Record grant_step (g g' : ConnectorGrant) : Prop := {
  gs_max : grant_max_uses g' = grant_max_uses g;
  gs_uses : (grant_use_count g ≤ grant_use_count g')%Z;
  gs_bound : (grant_use_count g ≤ grant_max_uses g → grant_use_count g' ≤ grant_max_uses g')%Z;
  gs_revoked : grant_revoked_at g ≠ None → grant_revoked_at g' ≠ None;
}.

#[export] Instance grant_step_preorder : PreOrder grant_step.
Proof.
  split; [by intros g; split|]. intros g1 g2 g3 [] []. split; try congruence; try lia; auto.
Qed.

(** Every stored grant survives, moved along [grant_step]. *)
Definition grants_step (w w' : World) : Prop :=
  ∀ id g, stored ConnectorGrant w id = Some g →
    ∃ g', stored ConnectorGrant w' id = Some g' ∧ grant_step g g'.

#[export] Instance grants_step_preorder : PreOrder grants_step.
Proof.
  split; [intros w id g H; by exists g|].
  intros w1 w2 w3 H1 H2 id g H. destruct (H1 _ _ H) as (g2 & ? & ?).
  destruct (H2 id g2) as (g3 & ? & ?); [done|]. exists g3. split; [done|]. by etrans.
Qed.

Lemma grants_step_same w w' :
  (∀ id, stored ConnectorGrant w' id = stored ConnectorGrant w id) → grants_step w w'.
Proof. intros H id g Hg. exists g. by rewrite H. Qed.

(** Whatever its outcome, an authorization moves every grant along
    [grant_step]. *)
Lemma authorize_grants gid token action requested computer_id w w' r :
  store_wf w → authorize gid token action requested computer_id w = (w', r) → grants_step w w'.
Proof.
  intros Hwf H. destruct (authorize_cases gid token action requested computer_id w Hwf)
    as [(w1 & e & E & -> & _)|(g0 & run & Hg0 & Hr & [(t & w1 & w2 & r0 & E & Hadm & Hd & Hout)|(w2 & e & E & _ & Hout)])];
    rewrite E in H; simplify_eq; [done| |].
  - trans w1.
    + intros id g Hg. destruct (decide (id = gid)) as [->|Hne].
      * rewrite Hg in Hg0. injection Hg0 as <-. eexists. split.
        { unfold stored. rewrite Hd. change (collection_of ConnectorGrant) with grants.
          rewrite lookup_insert_eq. reflexivity. }
        pose proof (adm_budget _ _ _ _ _ _ _ Hadm). split; cbn; done || lia.
      * exists g. split; [|done]. rewrite <-Hg.
        eapply (stored_insert_ne ConnectorGrant); [exact Hd|]. intros [= ->]. done.
    + apply grants_step_same. intros id.
      destruct Hout as [(ev & _ & _ & Hins & _)|(e & _ & _ & Hsame)].
      * by eapply (stored_insert_ne ConnectorGrant).
      * unfold stored. by rewrite Hsame.
  - apply grants_step_same. intros id.
    destruct Hout as [(ev & msg & -> & _ & Hins & _)|(_ & Hsame)].
    + by eapply (stored_insert_ne ConnectorGrant).
    + unfold stored. by rewrite Hsame.
Qed.

(** One iteration: the grant is saved as revoked, or nothing is. *)
Lemma revoke_one_grants run_id now g w w' r :
  revoke_one run_id now g w = (w', r) →
  (∀ id, id ≠ grant_id g → stored ConnectorGrant w' id = stored ConnectorGrant w id) ∧
  (stored ConnectorGrant w' (grant_id g) = stored ConnectorGrant w (grant_id g) ∨
   stored ConnectorGrant w' (grant_id g) = Some (g <| grant_revoked_at := Some now |>)) ∧
  (r = inr () → grant_revoked_at g = None →
     stored ConnectorGrant w' (grant_id g) = Some (g <| grant_revoked_at := Some now |>)).
Proof.
  unfold revoke_one. destruct (decide _) as [Hn|Hn].
  2:{ intros [= <- <-]. split_and!; [done|by left|by intros]. }
  set (g' := update_field grant_revoked_at _ g). unfold mbind, eff_bind.
  destruct (save_grant g' w) as [w1 [e|x]] eqn:Es.
  { intros [= <- <-]. unfold save_grant in Es. apply bind_inl in Es as [Es|(w2 & [] & _ & [=])].
    rewrite save_eq in Es. destruct (id_pattern _); [done|]. injection Es as <- _.
    split_and!; [done|by left|done]. }
  unfold save_grant in Es. apply bind_inr in Es as (w2 & [] & Es & [= -> <-]).
  apply save_inr in Es as (_ & Hd & _). intros Hrec.
  assert (Hsame : ∀ id, stored ConnectorGrant w' id = stored ConnectorGrant w1 id)
    by (intros; by eapply record_security_event_grants).
  assert (Hnew : stored ConnectorGrant w' (grant_id g) = Some g').
  { rewrite Hsame. exact (stored_insert_eq ConnectorGrant w w1 g' Hd). }
  split_and!; [|by right|done].
  intros id Hne. rewrite Hsame. eapply (stored_insert_ne ConnectorGrant); [exact Hd|].
  intros E. injection E. congruence.
Qed.

(** The loop, over grants read from the store it started in. *)
Lemma revoke_loop_grants run_id now l w0 w w' r :
  (∀ g, g ∈ l → stored ConnectorGrant w0 (grant_id g) = Some g) →
  (∀ id g, stored ConnectorGrant w0 id = Some g →
     stored ConnectorGrant w id = Some g ∨
     stored ConnectorGrant w id = Some (g <| grant_revoked_at := Some now |>)) →
  for_each l (revoke_one run_id now) w = (w', r) →
  (∀ id g, stored ConnectorGrant w0 id = Some g →
     stored ConnectorGrant w' id = Some g ∨
     stored ConnectorGrant w' id = Some (g <| grant_revoked_at := Some now |>)) ∧
  (r = inr () → ∀ g, g ∈ l → ∃ g', stored ConnectorGrant w' (grant_id g) = Some g' ∧
     grant_revoked_at g' ≠ None).
Proof.
  revert w. induction l as [|g l IH]; intros w Hl Hinv; cbn [for_each].
  { intros [= <- <-]. split; [done|]. intros _ g Hg. by apply not_elem_of_nil in Hg. }
  unfold mbind, eff_bind. destruct (revoke_one run_id now g w) as [w1 r1] eqn:E1.
  pose proof (revoke_one_grants _ _ _ _ _ _ E1) as (Hother & Hthis & Hdone).
  assert (Hg0 : stored ConnectorGrant w0 (grant_id g) = Some g) by (apply Hl; left).
  assert (Hinv1 : ∀ id x, stored ConnectorGrant w0 id = Some x →
     stored ConnectorGrant w1 id = Some x ∨
     stored ConnectorGrant w1 id = Some (x <| grant_revoked_at := Some now |>)).
  { intros id x Hx. destruct (decide (id = grant_id g)) as [->|Hne]; [|rewrite Hother by done; auto].
    assert (x = g) as -> by congruence. destruct Hthis as [-> | ->]; auto. }
  destruct r1 as [e|[]].
  { intros [= <- <-]. split; [done|]. done. }
  intros H. destruct (IH w1) as [HA HB]; [|done|done|].
  { intros x Hx. apply Hl. by right. }
  split; [done|]. intros Hr x [->|Hx]%elem_of_cons; [|by apply HB].
  destruct (HA (grant_id g) g Hg0) as [Hs|Hs]; [|by eexists].
  exists g. split; [done|]. intros Hn. specialize (Hdone eq_refl Hn).
  assert (Hmono : ∀ w2 w3 r3, for_each l (revoke_one run_id now) w2 = (w3, r3) →
    (∃ y, stored ConnectorGrant w2 (grant_id g) = Some y ∧ grant_revoked_at y ≠ None) →
    (∃ y, stored ConnectorGrant w3 (grant_id g) = Some y ∧ grant_revoked_at y ≠ None)).
  { clear. induction l as [|z l IH]; intros w2 w3 r3; cbn [for_each]; [by intros [= <- _]|].
    unfold mbind, eff_bind. destruct (revoke_one run_id now z w2) as [w4 r4] eqn:E4. intros H Hy.
    assert (H4 : ∃ y, stored ConnectorGrant w4 (grant_id g) = Some y ∧ grant_revoked_at y ≠ None).
    { apply revoke_one_grants in E4 as (Ho & Ht & _).
      destruct (decide (grant_id g = grant_id z)) as [E|Hne]; [|by rewrite Ho].
      rewrite E in *. destruct Ht as [-> | ->]; [done|by eexists]. }
    destruct r4 as [e|[]]; [injection H as <- _; done|]. by eapply IH. }
  destruct (Hmono _ _ _ H) as (y & Hy & Hny); [by eexists|]. congruence.
Qed.

Lemma revoke_for_run_inv run_id w w' r :
  store_wf w → revoke_for_run run_id w = (w', r) →
  ∃ now, (∀ id g, stored ConnectorGrant w id = Some g →
     stored ConnectorGrant w' id = Some g ∨
     stored ConnectorGrant w' id = Some (g <| grant_revoked_at := Some now |>)) ∧
  ((∀ id g, stored ConnectorGrant w id = Some g → valid_grant g = true) → r = inr () →
   ∀ id g, stored ConnectorGrant w id = Some g → grant_run_id g = run_id →
     ∃ g', stored ConnectorGrant w' id = Some g' ∧ grant_revoked_at g' ≠ None).
Proof.
  intros Hwf H. unfold revoke_for_run, mbind, eff_bind in H. unfold utc_now at 1 in H.
  set (w1 := update_field w_reads _ w) in H. set (now := w_clock w (w_reads w)) in H. exists now.
  assert (He : env_step w w1) by apply (utc_now_env w).
  pose proof (store_wf_env _ _ He Hwf) as Hwf1.
  assert (Hs1 : ∀ id, stored ConnectorGrant w1 id = stored ConnectorGrant w id)
    by (intros; by apply env_step_stored).
  pose proof (list_for_parent_state ConnectorGrant run_id w1) as Hst.
  cbn [list_grants] in H. destruct (list_for_parent ConnectorGrant run_id w1) as [w2 [e|l]] eqn:El;
    cbn in Hst; subst w2.
  { injection H as <- <-. split; [intros id g Hg; left; by rewrite Hs1|done]. }
  assert (Hl : ∀ g, g ∈ l → stored ConnectorGrant w1 (grant_id g) = Some g).
  { intros g Hg. destruct (list_for_parent_elem _ _ _ _ _ _ El Hg) as (id & Hid & _).
    destruct (stored_key _ _ _ _ Hwf1 Hid) as [E _].
    change (doc_id (wrap g)) with (grant_id g) in E. by rewrite E. }
  destruct (revoke_loop_grants run_id now l w1 w1 w' r Hl) as [HA HB]; [by left|done|].
  split; [intros id g Hg; apply HA; by rewrite Hs1|].
  intros Hv Hr id g Hg Hrun. rewrite <-Hs1 in Hg.
  destruct (stored_key _ _ _ _ Hwf1 Hg) as [E _]. change (doc_id (wrap g)) with (grant_id g) in E.
  rewrite <-E. apply HB; [done|].
  destruct (list_for_parent_eq ConnectorGrant run_id w1 Hwf1) as (l' & El' & Hp & _).
  { by_decide. }
  { intros id' x. rewrite Hs1. apply Hv. }
  rewrite El in El'. injection El' as <-. rewrite Hp. apply list_elem_of_filter.
  rewrite Hs1 in Hg. pose proof (Hv _ _ Hg) as Hvg. split.
  - change (indexed_parent grants (DGrant g) = Some run_id).
    unfold indexed_parent, parent_id. rewrite decide_True by done. rewrite Hrun.
    assert (Ht : truthy run_id = true); [|by rewrite !Ht].
    subst run_id. unfold valid_grant in Hvg. repeat (apply andb_true_iff in Hvg as [Hvg ?]).
    destruct (grant_run_id g); [|done]. done.
  - apply elem_of_readable. exists id. rewrite Hs1. done.
Qed.

(** Revocation is final.  Once [revoke_for_run] has returned, no grant
    that the run had authorizes anything: every later call on it raises,
    whatever the token, action, resource or computer. *)
Theorem revoked_run_cannot_authorize run_id w w' gid g token action requested computer_id :
  store_wf w → (∀ id g, stored ConnectorGrant w id = Some g → valid_grant g = true) →
  revoke_for_run run_id w = (w', inr ()) →
  stored ConnectorGrant w gid = Some g → grant_run_id g = run_id →
  ∃ e, (authorize gid token action requested computer_id w').2 = inl e.
Proof.
  intros Hwf Hv H Hg Hrun.
  assert (Hwf' : store_wf w').
  { pose proof (wf_after (revoke_for_run run_id) w) as Hw. rewrite H in Hw. apply Hw; [walk_frame|done]. }
  destruct (revoke_for_run_inv _ _ _ _ Hwf H) as (now & _ & HB).
  destruct (HB Hv eq_refl gid g Hg Hrun) as (g' & Hg' & Hrev).
  destruct (authorize gid token action requested computer_id w') as [w2 [e|x]] eqn:Ea; [by exists e|].
  destruct (authorize_inr _ _ _ _ _ _ _ _ Hwf' Ea) as (g2 & run & t & ev & Hg2 & _ & Hadm & _).
  rewrite Hg' in Hg2. injection Hg2 as ->. by destruct Hadm.
Qed.

(** *** Histories of one grant *)

(** What may happen while a grant [gid] exists; the flag marks a successful
    use of it.  New grants get identifiers that are not in use, and the rest
    of the system leaves grants alone. *)
Inductive delegation_step (gid : string) : bool → World → World → Prop :=
  | step_used token action requested computer_id w w' g :
      authorize gid token action requested computer_id w = (w', inr g) →
      delegation_step gid true w w'
  | step_refused token action requested computer_id w w' e :
      authorize gid token action requested computer_id w = (w', inl e) →
      delegation_step gid false w w'
  | step_other other token action requested computer_id w w' r :
      other ≠ gid → authorize other token action requested computer_id w = (w', r) →
      delegation_step gid false w w'
  | step_issue run_id provider connection actions constraints ttl w w' r :
      w_docs w !! (grants, String.append "grant-" (w_uuid w (w_uuids w))) = None →
      issue run_id provider connection actions constraints ttl w = (w', r) →
      delegation_step gid false w w'
  | step_revoke run_id w w' r :
      revoke_for_run run_id w = (w', r) → delegation_step gid false w w'
  | step_rest w w' :
      (∀ id, stored ConnectorGrant w' id = stored ConnectorGrant w id) → store_wf w' →
      delegation_step gid false w w'.

(** A history with [n] successful uses. *)
Inductive delegation_history (gid : string) : nat → World → World → Prop :=
  | history_nil w : delegation_history gid 0 w w
  | history_snoc n (b : bool) w1 w2 w3 :
      delegation_history gid n w1 w2 → delegation_step gid b w2 w3 →
      delegation_history gid ((if b then 1 else 0) + n) w1 w3.

Lemma issue_grants run_id provider connection actions constraints ttl w w' r id g :
  w_docs w !! (grants, String.append "grant-" (w_uuid w (w_uuids w))) = None →
  issue run_id provider connection actions constraints ttl w = (w', r) →
  stored ConnectorGrant w id = Some g → stored ConnectorGrant w' id = Some g.
Proof.
  intros Hnew H Hg. unfold issue, mbind, eff_bind in H.
  pose proof (get_env TaskRun run_id w) as Hge. change (get TaskRun) with get_run in Hge.
  destruct (get_run run_id w) as [w0 [e|run]]; cbn in Hge; subst w0; [by injection H as <- _|].
  unfold raise_if in H. case_bool_decide; [by injection H as <- _|].
  cbn -[construct save_grant record_security_event] in H.
  set (w4 := update_field w_reads _ _) in H. set (new := {| grant_id := _ |}) in H.
  assert (Hd4 : w_docs w4 = w_docs w) by done.
  unfold construct in H. destruct (doc_valid (wrap new)) eqn:Ev.
  2:{ injection H as <- _. unfold stored. by rewrite Hd4. }
  assert (Hpat : id_pattern (grant_id new) = true).
  { cbn in Ev. unfold valid_grant in Ev. repeat (apply andb_true_iff in Ev as [Ev ?]). done. }
  destruct (save_grant_spec new w4 Hpat) as (w5 & E5 & Hd5).
  change ((mret new : op ConnectorGrant) w4) with (w4, @inr exn _ new) in H. cbn iota beta in H.
  rewrite E5 in H.
  assert (Hs5 : stored ConnectorGrant w5 id = Some g).
  { rewrite <-Hg. rewrite <-(stored_insert_ne ConnectorGrant w w5 (grants, grant_id new) (DGrant new)).
    - done.
    - by rewrite Hd5, Hd4.
    - intros [= <-]. unfold stored in Hg. change (collection_of ConnectorGrant) with grants in Hg.
      cbn [grant_id new] in Hg. rewrite Hnew in Hg. done. }
  destruct (record_security_event _ _ _ _ _ _ _ w5) as [w6 r6] eqn:E6.
  apply record_security_event_grants with (id := id) in E6.
  destruct r6 as [e|[]]; injection H as <- _; by rewrite E6.
Qed.

(** One step, on the grant itself. *)
Lemma delegation_step_grant gid b w w' g :
  store_wf w → delegation_step gid b w w' → stored ConnectorGrant w gid = Some g →
  store_wf w' ∧ ∃ g', stored ConnectorGrant w' gid = Some g' ∧ grant_step g g' ∧
    (b = true → grant_revoked_at g = None ∧ (grant_use_count g + 1 ≤ grant_use_count g')%Z).
Proof.
  intros Hwf Hstep Hg.
  assert (Hkeep : ∀ {A} (m : op A) r, within keeps_wf m → m w = (w', r) → store_wf w').
  { intros A m r Hm E. specialize (Hm w Hwf). by rewrite E in Hm. }
  destruct Hstep as [token action requested computer_id w w' x E|token action requested computer_id w w' e E
    |other token action requested computer_id w w' r Hne E|run_id provider connection actions constraints ttl w w' r Hn E
    |run_id w w' r E|w w' Hs Hwf'].
  - split; [eapply Hkeep; [|exact E]; walk_frame|].
    destruct (authorize_inr _ _ _ _ _ _ _ _ Hwf E) as (g0 & run & t & ev & Hg0 & _ & Hadm & -> & _ & _ & _ & _ & Hd).
    rewrite Hg in Hg0. injection Hg0 as <-. eexists. split.
    { unfold stored. rewrite Hd, lookup_insert_ne by done. change (collection_of ConnectorGrant) with grants.
      rewrite lookup_insert_eq. reflexivity. }
    pose proof (adm_budget _ _ _ _ _ _ _ Hadm). split; [split; cbn; lia || done|].
    intros _. split; [by eapply adm_live|]. cbn. lia.
  - split; [eapply Hkeep; [|exact E]; walk_frame|].
    destruct (authorize_grants _ _ _ _ _ _ _ _ Hwf E _ _ Hg) as (g' & Hg' & Hst). by exists g'.
  - split; [eapply Hkeep; [|exact E]; walk_frame|].
    destruct (authorize_grants _ _ _ _ _ _ _ _ Hwf E _ _ Hg) as (g' & Hg' & Hst). by exists g'.
  - split; [eapply Hkeep; [|exact E]; walk_frame|].
    exists g. split; [|done]. by eapply issue_grants.
  - split; [eapply Hkeep; [|exact E]; walk_frame|].
    destruct (revoke_for_run_inv _ _ _ _ Hwf E) as (now & HA & _).
    destruct (HA _ _ Hg) as [Hg'|Hg']; eexists; (split; [exact Hg'|]); split; done || (by split).
  - split; [done|]. exists g. by rewrite Hs.
Qed.

(** C8: a grant never exceeds its budget.  Over any history in which the grant
    is used, refused, revoked, and other grants are issued and used, the
    number of successful authorizations is at most what was left of its
    [max_uses], every one of them is counted, and a grant that was revoked at
    the start authorizes nothing. *)
Theorem grant_budget gid n w w' g :
  store_wf w → stored ConnectorGrant w gid = Some g →
  (grant_use_count g ≤ grant_max_uses g)%Z →
  delegation_history gid n w w' →
  ∃ g', stored ConnectorGrant w' gid = Some g' ∧
    grant_max_uses g' = grant_max_uses g ∧
    (grant_use_count g + Z.of_nat n ≤ grant_use_count g' ≤ grant_max_uses g)%Z ∧
    (grant_revoked_at g ≠ None → n = 0).
Proof.
  intros Hwf Hg Hle H.
  assert (Hmain : store_wf w' ∧ ∃ g', stored ConnectorGrant w' gid = Some g' ∧ grant_step g g' ∧
    (grant_use_count g + Z.of_nat n ≤ grant_use_count g')%Z ∧ (grant_revoked_at g ≠ None → n = 0)).
  { induction H as [w|n b w1 w2 w3 Hh IH Hs].
    - split; [done|]. exists g. split_and!; [done|done|lia|done].
    - destruct (IH Hwf Hg) as (Hwf2 & g2 & Hg2 & Hst2 & Hc2 & Hr2).
      destruct (delegation_step_grant gid b w2 w3 g2 Hwf2 Hs Hg2) as (Hwf3 & g3 & Hg3 & Hst3 & Hb).
      split; [done|]. exists g3. split; [done|]. split; [by trans g2|]. split.
      + pose proof (gs_uses _ _ Hst3). destruct b; [destruct (Hb eq_refl); lia|cbn; lia].
      + intros Hrev. destruct b; [|by apply Hr2]. destruct (Hb eq_refl) as [Hn _].
        by apply (gs_revoked _ _ Hst2) in Hrev. }
  destruct Hmain as (_ & g' & Hg' & [] & Hc & Hr). exists g'. split_and!; [done|done|done|lia|done].
Qed.
End Histories.

(** ** A concrete capability *)

Definition demo_secret : string := "sssssssssssssssssssssssssssssssssssssssssssssssssssssssss".

Definition demo_grant : ConnectorGrant := {|
  grant_schema_version := CONTROL_SCHEMA_VERSION; grant_id := "grant-1"; grant_run_id := "r1";
  grant_computer_id := "c1"; grant_epoch := 1; grant_provider := "github";
  grant_connection_name := "work"; grant_actions := ["read_source"];
  grant_resource_constraints := [("url", "https://example.com/r")];
  grant_token_hash := digest (Platform := plain_platform) demo_secret;
  grant_expires_at := 900000000; grant_max_uses := 2; grant_use_count := 0;
  grant_last_used_at := None; grant_revoked_at := None; grant_created_at := 0 |}.

Definition demo_delegated : World := (save_grant demo_grant demo_queue).1.

Lemma demo_delegated_wf : store_wf demo_delegated.
Proof. apply wf_after; [walk_frame|apply demo_queue_wf]. Qed.

#[local] Abbreviation demo_authorize :=
  (authorize (PF := plain_platform) "grant-1" demo_secret "read_source"
    [("url", "https://example.com/r")] (Some "c1")).

Lemma authorize_sound_witness :
  ∃ g', (demo_authorize demo_delegated).2 = inr g' ∧ grant_use_count g' = 1%Z.
Proof.
  assert (E : ∃ g', (demo_authorize demo_delegated).2 = inr g') by (vm_compute; eauto).
  destruct E as (g' & E). exists g'. split; [exact E|].
  destruct (authorize_sound (PF := plain_platform) "grant-1" demo_secret "read_source" [("url", "https://example.com/r")]
    (Some "c1") demo_delegated _ g' demo_delegated_wf (pair_eq_snd _ _ E))
    as (g & run & t & ev & Hg & _ & _ & -> & _).
  assert (Hs : stored ConnectorGrant demo_delegated "grant-1" = Some demo_grant) by (vm_compute; reflexivity).
  rewrite Hs in Hg. injection Hg as <-. reflexivity.
Defined.

Lemma authorize_refused_witness :
  ∃ e, (authorize (PF := plain_platform) "grant-1" "guess" "read_source" [] None demo_delegated).2 = inl e.
Proof.
  destruct (authorize_refused (PF := plain_platform) "grant-1" "guess" "read_source" [] None demo_delegated
    demo_grant ((demo_run "r1" "t" "c1" 10) <| run_updated_at := 0%Z |>)) as (w' & e & E & _).
  - exact demo_delegated_wf.
  - vm_compute. reflexivity.
  - vm_compute. reflexivity.
  - intros [_ _ _ _ _ _ H]. vm_compute in H. discriminate H.
  - exists e. rewrite E. reflexivity.
Defined.

Lemma revoked_run_cannot_authorize_witness :
  ∃ e, (demo_authorize (revoke_for_run (PF := plain_platform) "r1" demo_delegated).1).2 = inl e.
Proof.
  assert (E : (revoke_for_run (PF := plain_platform) "r1" demo_delegated).2 = inr ()) by (vm_compute; reflexivity).
  apply (revoked_run_cannot_authorize (PF := plain_platform) "r1" demo_delegated _ "grant-1" demo_grant
    demo_secret "read_source" [("url", "https://example.com/r")] (Some "c1")).
  - exact demo_delegated_wf.
  - assert (Hv : all_valid demo_delegated) by (apply all_validb_true; vm_compute; reflexivity).
    intros id g Hg. exact (all_valid_stored ConnectorGrant demo_delegated id g Hv Hg).
  - exact (pair_eq_snd _ _ E).
  - vm_compute. reflexivity.
  - reflexivity.
Defined.

Lemma grant_budget_witness :
  ∃ g', stored ConnectorGrant (demo_authorize (demo_authorize demo_delegated).1).1 "grant-1" = Some g' ∧
    (2 ≤ grant_use_count g' ≤ 2)%Z.
Proof.
  assert (E1 : ∃ g', (demo_authorize demo_delegated).2 = inr g') by (vm_compute; eauto).
  assert (E2 : ∃ g', (demo_authorize (demo_authorize demo_delegated).1).2 = inr g') by (vm_compute; eauto).
  destruct E1 as (g1 & E1). destruct E2 as (g2 & E2).
  destruct (grant_budget (PF := plain_platform) "grant-1" 2 demo_delegated
    (demo_authorize (demo_authorize demo_delegated).1).1 demo_grant) as (g' & Hg & _ & Hb & _).
  - exact demo_delegated_wf.
  - vm_compute. reflexivity.
  - vm_compute. discriminate.
  - exact (history_snoc _ 1 true _ _ _
      (history_snoc _ 0 true _ _ _ (history_nil _ _) (step_used _ _ _ _ _ _ _ _ (pair_eq_snd _ _ E1)))
      (step_used _ _ _ _ _ _ _ _ (pair_eq_snd _ _ E2))).
  - exists g'. split; [exact Hg|exact Hb].
Defined.
