(* ===== verification/Redaction.v ===== *)
(** * Redaction of untrusted payloads ([src/cowork/coding/redaction.py]).

    [redact_text] removes values that follow a sensitive name, [sanitize] bounds
    and redacts a whole JSON payload before it is stored or shown.  The three
    regular expressions are data ([re]), matched by [matches]: a backtracking
    matcher that lists the possible rests of the input in the order Python's
    [re] tries them, so its first answer is the one Python takes.

    The theorems: the shape every sanitized payload has (nesting, sizes, and no
    value left under a sensitive name), that sanitizing terminates on every
    input by construction, and the one case in which the size budget is not
    respected. *)
From stdpp Require Import base list strings option.
From Stdlib Require Import ZArith Lia.
From S2P Require Import Prelude.

(** ** Regular expressions *)

Inductive re :=
  | Eps
  | Chr (p : Ascii.ascii → bool)
  | Seq (a b : re)
  | Alt (a b : re)
  | Star (a : re).

(** The rests of [s] after a match of [r], most preferred first.  A starred
    body that consumes nothing is not repeated, as in [re]. *)
Fixpoint matches (r : re) (s : string) : list string :=
  match r with
  | Eps => [s]
  | Chr p => match s with String.String c s' => if p c then [s'] else [] | EmptyString => [] end
  | Seq a b => mjoin (map (matches b) (matches a s))
  | Alt a b => matches a s ++ matches b s
  | Star a =>
      (fix go (fuel : nat) (s : string) : list string :=
         match fuel with
         | 0 => [s]
         | S fuel' =>
             mjoin (map (go fuel')
               (base.filter (λ t, Nat.ltb (String.length t) (String.length s) = true) (matches a s))) ++ [s]
         end) (String.length s) s
  end.

(** [a?] and [a+]. *)
Definition Opt (a : re) : re := Alt a Eps.
Definition Plus (a : re) : re := Seq a (Star a).

(** A literal, ignoring case. *)
Fixpoint Lit (w : string) : re :=
  match w with
  | EmptyString => Eps
  | String.String c w' => Seq (Chr (λ d, Ascii.eqb (lower d) c)) (Lit w')
  end.

Definition one (w : string) : re :=
  Chr (λ d, existsb (Ascii.eqb d) (String.list_ascii_of_string w)).
Definition none_of (w : string) : re :=
  Chr (λ d, negb (existsb (Ascii.eqb d) (String.list_ascii_of_string w))).
Definition Space : re := Chr is_space.
(** [.]: anything but a line feed. *)
Definition Dot : re := Chr (λ d, negb (Nat.eqb (Ascii.nat_of_ascii d) 10)).

Fixpoint alternatives (l : list re) : re :=
  match l with
  | [] => Chr (λ _, false)
  | [a] => a
  | a :: l' => Alt a (alternatives l')
  end.
Definition sequence (l : list re) : re := foldr Seq Eps l.

Definition quote_char : string := String.String (Ascii.ascii_of_nat 34) "".
Definition backslash : string := String.String (Ascii.ascii_of_nat 92) "".

(** [_SENSITIVE_KEY_WORDS]. *)
Definition SENSITIVE_KEY_WORDS : re := alternatives
  [Lit "authorization"; sequence [Lit "api"; Opt Dot; Lit "key"]; Lit "token"; Lit "password";
   Lit "secret"; Lit "credential"; Lit "cookie"].

(** The two groups of [_SENSITIVE_TEXT]. *)
Definition SENSITIVE_TEXT_name : re := sequence
  [alternatives
     [Lit "authorization"; sequence [Lit "api"; Opt (one "_-"); Lit "key"];
      sequence [Opt (sequence [Lit "access"; Opt (one "_-")]); Lit "token"];
      Lit "password"; Lit "secret"; Lit "cookie"];
   Star Space; one ":="; Star Space; Opt (sequence [Lit "bearer"; Plus Space])].
Definition SENSITIVE_TEXT_value : re :=
  Plus (Chr (λ d, negb (is_space d || existsb (Ascii.eqb d) (String.list_ascii_of_string ",;&")))).

(** [_SENSITIVE_JSON_TEXT]: its first group, the value, its second group. *)
Definition plain : re := none_of (String.append quote_char backslash).
Definition SENSITIVE_JSON_name : re := sequence
  [one quote_char; Star plain; SENSITIVE_KEY_WORDS; Star plain; one quote_char;
   Star Space; one ":"; Star Space; one quote_char].
Definition SENSITIVE_JSON_value : re := Star (Alt plain (Seq (one backslash) Dot)).

(** [pattern.search(s)]: a match somewhere. *)
Fixpoint search (r : re) (s : string) : bool :=
  match matches r s with
  | _ :: _ => true
  | [] => match s with EmptyString => false | String.String _ s' => search r s' end
  end.

Definition REDACTED : string := "[redacted]".

(** The preferred match of [(g1) value (g2)] at the start of [s]: what is left
    after each part. *)
Definition first_match (g1 value g2 : re) (s : string) : option (string * string * string) :=
  head (mjoin (map (λ s1, mjoin (map (λ s2, map (λ s3, (s1, s2, s3)) (matches g2 s2))
    (matches value s1))) (matches g1 s))).

(** The text between [s] and a rest of it. *)
Definition consumed (s rest : string) : string := str_take (String.length s - String.length rest) s.

(** [pattern.sub(lambda match: match.group(1) + REDACTED + match.group(2), s)]. *)
Fixpoint sub_from (fuel : nat) (g1 value g2 : re) (s : string) : string :=
  match fuel with
  | 0 => s
  | S fuel' =>
      match s with
      | EmptyString => ""
      | String.String c s' =>
          match first_match g1 value g2 s with
          | Some (s1, s2, s3) =>
              String.append (consumed s s1) (String.append REDACTED
                (String.append (consumed s2 s3) (sub_from fuel' g1 value g2 s3)))
          | None => String.String c (sub_from fuel' g1 value g2 s')
          end
      end
  end.
Definition sub (g1 value g2 : re) (s : string) : string :=
  sub_from (S (String.length s)) g1 value g2 s.

Definition MAX_SANITIZED_CHARS : Z := 128 * 1024.
Definition MAX_REDACTION_INPUT_CHARS : Z := 256 * 1024.

Definition redact_text (value : string) (secrets : list string) : string :=
  let safe := str_slice_to MAX_REDACTION_INPUT_CHARS value in
  let safe := foldl (λ safe secret, str_replace secret REDACTED safe) safe secrets in
  let safe := sub SENSITIVE_JSON_name SENSITIVE_JSON_value (one quote_char) safe in
  sub SENSITIVE_TEXT_name SENSITIVE_TEXT_value Eps safe.

(** [_SENSITIVE_KEY.search(key)]. *)
Definition sensitive_key (key : string) : bool := search SENSITIVE_KEY_WORDS key.

(** The two loops of [_sanitize], over the sanitizer of the next depth; [seen]
    is the position in [list(value.items())[:100]] and [value[:100]]. *)
Section Loops.
Context (rec : json → Z → json * Z).

Fixpoint sanitize_fields (seen : nat) (fields output : list (string * json)) (budget : Z) :
    json * Z :=
  match fields with
  | (key, item) :: fields' =>
      if Nat.leb 100 seen || (budget <=? 0)%Z then (JObj output, budget)
      else
        let safe_key := str_take 256 key in
        let budget := (budget - Z.of_nat (String.length safe_key))%Z in
        if sensitive_key safe_key
        then sanitize_fields (S seen) fields' (obj_set output safe_key (JStr REDACTED)) budget
        else
          let '(safe, budget) := rec item budget in
          sanitize_fields (S seen) fields' (obj_set output safe_key safe) budget
  | [] => (JObj output, budget)
  end.

Fixpoint sanitize_items (seen : nat) (items output : list json) (budget : Z) : json * Z :=
  match items with
  | item :: items' =>
      if Nat.leb 100 seen || (budget <=? 0)%Z then (JArr output, budget)
      else
        let '(safe, budget) := rec item budget in
        sanitize_items (S seen) items' (output ++ [safe]) budget
  | [] => (JArr output, budget)
  end.
End Loops.

(** [_sanitize]: the value and what is left of the shared budget. *)
Fixpoint sanitize_at (value : json) (depth : nat) (budget : Z) : json * Z :=
  if (budget <=? 0)%Z then (JStr "[truncated]", budget)
  else
    let budget := (budget - 16)%Z in
    if Nat.ltb 5 depth then (JStr "[truncated]", budget)
    else
      match value with
      | JObj fields =>
          sanitize_fields (λ item budget, sanitize_at item (S depth) budget) 0 fields [] budget
      | JArr items =>
          sanitize_items (λ item budget, sanitize_at item (S depth) budget) 0 items [] budget
      | JStr s =>
          let safe := str_slice_to (Z.min 8192 budget) (redact_text s []) in
          (JStr safe, (budget - Z.of_nat (String.length safe))%Z)
      | _ => (value, (budget - 8)%Z)
      end.

Definition sanitize (value : json) : json := (sanitize_at value 0 MAX_SANITIZED_CHARS).1.

(** [redact_secrets]: known secret values are removed everywhere as well. *)
Fixpoint replace_secrets (secrets : list string) (item : json) : json :=
  match item with
  | JObj fields => JObj (map (λ kv, (kv.1, replace_secrets secrets kv.2)) fields)
  | JArr items => JArr (map (replace_secrets secrets) items)
  | JStr s => JStr (redact_text s secrets)
  | _ => item
  end.
Definition redact_secrets (value : json) (secrets : list string) : json :=
  replace_secrets secrets (sanitize value).

Definition qq (s : string) : string := String.append quote_char (String.append s quote_char).

Example redact_text_examples :
  redact_text "Authorization: Bearer abc.def, ok" [] = "Authorization: Bearer [redacted], ok" ∧
  redact_text "x ACCESS_TOKEN=zz&y" [] = "x ACCESS_TOKEN=[redacted]&y" ∧
  redact_text (String.append "{" (String.append (qq "my_api.key") (String.append " : " (String.append (qq "v") "}")))) []
    = String.append "{" (String.append (qq "my_api.key") (String.append " : " (String.append (qq "[redacted]") "}"))) ∧
  redact_text "no password here" [] = "no password here".
Proof. vm_compute. repeat split. Qed.

(** ** The shape of a sanitized payload *)

(** What may be stored at a given depth. *)
Inductive clean (depth : nat) : json → Prop :=
  | clean_obj fields :
      depth ≤ 5 → length fields ≤ 100 →
      Forall (λ kv, String.length kv.1 ≤ 256 ∧
        (sensitive_key kv.1 = true ∧ kv.2 = JStr REDACTED ∨
         sensitive_key kv.1 = false ∧ clean (S depth) kv.2)) fields →
      clean depth (JObj fields)
  | clean_arr items :
      depth ≤ 5 → length items ≤ 100 → Forall (clean (S depth)) items → clean depth (JArr items)
  | clean_leaf j :
      match j with JObj _ | JArr _ => False | _ => True end → clean depth j.

Definition clean_field (depth : nat) (kv : string * json) : Prop :=
  String.length kv.1 ≤ 256 ∧
  (sensitive_key kv.1 = true ∧ kv.2 = JStr REDACTED ∨
         sensitive_key kv.1 = false ∧ clean (S depth) kv.2).

Lemma obj_set_length fields key v : length (obj_set fields key v) ≤ S (length fields).
Proof. induction fields as [|[k x] l IH]; cbn; [lia|]. destruct (String.eqb k key); cbn; lia. Qed.

Lemma obj_set_clean depth fields key v :
  Forall (clean_field depth) fields → clean_field depth (key, v) →
  Forall (clean_field depth) (obj_set fields key v).
Proof.
  intros Hf Hv. induction Hf as [|[k x] l Hx Hl IH]; cbn; [by constructor|].
  destruct (String.eqb_spec k key) as [->|]; by constructor.
Qed.

Lemma sanitize_fields_clean rec depth seen fields output budget :
  depth ≤ 5 → length output ≤ seen → seen ≤ 100 → Forall (clean_field depth) output →
  Forall (λ kv, ∀ b, clean (S depth) (rec kv.2 b).1) fields →
  clean depth (sanitize_fields rec seen fields output budget).1.
Proof.
  intros Hd Hlen Hseen Hout Hrec. revert seen output budget Hlen Hseen Hout.
  induction Hrec as [|[key item] fields Hitem _ IH]; intros seen output budget Hlen Hseen Hout;
    cbn [sanitize_fields].
  { by apply clean_obj; [|lia|]. }
  destruct (Nat.leb_spec 100 seen) as [Hge|Hlt]; cbn [orb]; [by apply clean_obj; [|lia|]|].
  destruct (budget <=? 0)%Z; [by apply clean_obj; [|lia|]|].
  set (b := (budget - _)%Z). clearbody b.
  pose proof (str_take_length 256 key) as Hkey. pose proof (obj_set_length output (str_take 256 key)) as Hl.
  destruct (sensitive_key (str_take 256 key)) eqn:Ek.
  - apply IH; [specialize (Hl (JStr REDACTED)); lia|lia|].
    apply obj_set_clean; [done|]. split; cbn [fst snd]; auto.
  - specialize (Hitem b). cbn in Hitem. destruct (rec item b) as [safe b']. cbn in Hitem.
    apply IH; [specialize (Hl safe); lia|lia|].
    apply obj_set_clean; [done|]. split; cbn [fst snd]; auto.
Qed.

Lemma sanitize_items_clean rec depth seen items output budget :
  depth ≤ 5 → length output ≤ seen → seen ≤ 100 → Forall (clean (S depth)) output →
  Forall (λ x, ∀ b, clean (S depth) (rec x b).1) items →
  clean depth (sanitize_items rec seen items output budget).1.
Proof.
  intros Hd Hlen Hseen Hout Hrec. revert seen output budget Hlen Hseen Hout.
  induction Hrec as [|item items Hitem _ IH]; intros seen output budget Hlen Hseen Hout;
    cbn [sanitize_items].
  { by apply clean_arr; [|lia|]. }
  destruct (Nat.leb_spec 100 seen) as [Hge|Hlt]; cbn [orb]; [by apply clean_arr; [|lia|]|].
  destruct (budget <=? 0)%Z; [by apply clean_arr; [|lia|]|].
  specialize (Hitem budget). destruct (rec item budget) as [safe b']. cbn in Hitem.
  apply IH; [rewrite length_app; cbn; lia|lia|]. apply Forall_app. split; [done|by constructor].
Qed.

Lemma sanitize_at_clean value : ∀ depth budget, clean depth (sanitize_at value depth budget).1.
Proof.
  induction value as [| | | | |items IH|fields IH] using json_nested_ind; intros depth budget;
    cbn [sanitize_at]; (destruct (budget <=? 0)%Z; [by apply clean_leaf|]);
    (destruct (Nat.ltb_spec 5 depth); [by apply clean_leaf|]); try by apply clean_leaf.
  - apply sanitize_items_clean; [lia|cbn; lia|lia|constructor|].
    revert IH. apply Forall_impl. intros j Hj b. apply Hj.
  - apply sanitize_fields_clean; [lia|cbn; lia|lia|constructor|].
    revert IH. apply Forall_impl. intros j Hj b. apply Hj.
Qed.

(** every sanitized payload is bounded and keeps no value under a sensitive
    name.  Whatever the input, [sanitize] yields at most six levels of
    containers of at most 100 entries, with keys of at most 256 characters, and
    the value under every key that matches the sensitive words is the redaction
    mark, at every depth. *)
Theorem sanitize_clean value : clean 0 (sanitize value).
Proof. apply sanitize_at_clean. Qed.

(** ** The size budget *)

Lemma str_slice_to_negative s :
  String.length (str_slice_to (-8) s) = String.length s - 8.
Proof. unfold str_slice_to, str_take. cbn -[String.substring]. rewrite substring_0_length. lia. Qed.

(** Appending one item to a list that was sanitized with budget to spare. *)
Lemma sanitize_items_snoc rec seen items output budget output' budget' x :
  sanitize_items rec seen items output budget = (JArr output', budget') →
  seen + length items < 100 → (0 < budget')%Z →
  sanitize_items rec seen (items ++ [x]) output budget =
    (JArr (output' ++ [(rec x budget').1]), (rec x budget').2).
Proof.
  revert seen output budget. induction items as [|y items IH]; intros seen output budget;
    cbn [sanitize_items app length]; intros H Hlen Hb.
  - injection H as -> ->. rewrite (proj2 (Nat.leb_gt 100 seen)) by lia.
    rewrite (proj2 (Z.leb_gt budget' 0)) by done. cbn [orb]. by destruct (rec x budget').
  - rewrite (proj2 (Nat.leb_gt 100 seen)) in * by lia. cbn [orb] in *.
    destruct (Z.leb_spec budget 0); [injection H as -> ->; lia|].
    destruct (rec y budget) as [safe b]. apply IH; [done|lia|done].
Qed.

(** 57 small entries that leave eight characters of budget. *)
Definition overrun_prefix : list json :=
  replicate 54 (JArr (replicate 100 (JInt 0))) ++ [JArr (replicate 23 (JInt 0)); JArr []].

Lemma sanitize_at_arr items depth budget :
  (0 < budget)%Z → depth ≤ 5 →
  sanitize_at (JArr items) depth budget =
    sanitize_items (λ item budget, sanitize_at item (S depth) budget) 0 items [] (budget - 16).
Proof.
  intros Hb Hd. cbn [sanitize_at]. rewrite (proj2 (Z.leb_gt budget 0)) by done.
  by rewrite (proj2 (Nat.ltb_ge 5 depth)).
Qed.

Lemma sanitize_at_str s depth budget :
  (0 < budget)%Z → depth ≤ 5 →
  (sanitize_at (JStr s) depth budget).1 =
    JStr (str_slice_to (Z.min 8192 (budget - 16)) (redact_text s [])).
Proof.
  intros Hb Hd. cbn [sanitize_at]. rewrite (proj2 (Z.leb_gt budget 0)) by done.
  by rewrite (proj2 (Nat.ltb_ge 5 depth)).
Qed.

Lemma overrun_prefix_sanitized :
  sanitize_items (λ item budget, sanitize_at item 1 budget) 0 overrun_prefix [] 131056%Z =
    (JArr overrun_prefix, 8%Z).
Proof. vm_compute. reflexivity. Qed.

(** the size budget has a hole.  A string reached with between 1 and 15
    characters of budget left is charged 16 first, so the bound of its slice is
    negative and Python counts it from the end: all but a few characters of the
    string are kept, however long it is, although a string may have at most 8192
    characters and the budget is spent. *)
Theorem sanitize_budget_overrun s :
  ∃ items, sanitize (JArr (overrun_prefix ++ [JStr s])) =
    JArr (items ++ [JStr (str_slice_to (-8) (redact_text s []))]) ∧
  String.length (str_slice_to (-8) (redact_text s [])) = String.length (redact_text s []) - 8.
Proof.
  exists overrun_prefix. split; [|apply str_slice_to_negative].
  unfold sanitize. rewrite sanitize_at_arr by (done || lia).
  change (MAX_SANITIZED_CHARS - 16)%Z with 131056%Z.
  rewrite (sanitize_items_snoc _ _ _ _ _ _ _ (JStr s) overrun_prefix_sanitized) by (done || (cbn; lia)).
  by rewrite sanitize_at_str by lia.
Qed.
