(* ===== verification/RunRecovery.v ===== *)
(** * Recovering a Task Run ([src/cowork/coding/run_recovery.py]).

    [recover_run] fences the old execution of a run (a new epoch, no lease, the
    event sequence restarted) and prepares a restore in place or, when the run
    moves to another computer, a fresh working copy; [build_recovery_plan] lists
    the choices.  The theorems describe the fence field by field and the two
    cases in which a run may move. *)
From stdpp Require Import base list gmap strings option.
From Stdlib Require Import ZArith Lia.
From S2P Require Import Prelude ControlModels ControlWorld RunState ControlStore.

Section Recovery.
Context {PF : Platform}.

(** [_option]. *)
Definition recovery_option (computer : Computer) (preserves_changes : bool) : RecoveryOption := {|
  opt_computer := computer;
  opt_mode := if preserves_changes then resume_restore else resume_recreate;
  opt_preserves_workspace_changes := preserves_changes;
  opt_recommended := preserves_changes;
  opt_detail :=
    if preserves_changes then "Reopen the saved working copy and its current changes."
    else String.append "Create a fresh isolated working copy from the task's saved repository definitions. "
           "Changes that were not pushed are not carried over." |}.

(** [options[0].recommended = True] when none is recommended. *)
Definition recommend_one (options : list RecoveryOption) : list RecoveryOption :=
  match options with
  | first :: rest =>
      if existsb opt_recommended options then options
      else (first <| opt_recommended := true |>) :: rest
  | [] => []
  end.

Definition build_recovery_plan (run : TaskRun) (eligible_computers : list Computer) : op RecoveryPlan :=
  task ← get_task (run_task_id run);
  match task_execution_project task with
  | None =>
      original ← get_unless_missing Computer (run_computer_id run);
      mret {| plan_run_id := run_id run;
              plan_options :=
                match original with
                | Some computer =>
                    if decide (cmp_status computer = online) then [recovery_option computer true] else []
                | None => []
                end |}
  | Some _ =>
      mret {| plan_run_id := run_id run;
              plan_options := recommend_one
                (map (λ computer, recovery_option computer (String.eqb (cmp_id computer) (run_computer_id run)))
                   eligible_computers) |}
  end.

(** A resource that another computer can obtain: a repository with a source
    URL. *)
Definition portable (resource : ProjectResource) : bool :=
  match resource with
  | Repository r => truthy_opt (repo_source_url r)
  | LocalFolder _ => false
  end.

(** The operation [fence]. *)
Definition fence (target : Computer) (allow_recreate : bool) (run : TaskRun) : op TaskRun :=
  let moving := negb (String.eqb (cmp_id target) (run_computer_id run)) in
  (if moving then
     task ← get_task (run_task_id run);
     raise_if (match task_execution_project task with
               | None => true
               | Some project => existsb (λ r, negb (portable r)) (proj_resources project)
               end)
       (NoEligibleComputer "This task includes resources that only exist on its original computer");;
     raise_if (negb allow_recreate)
       (NoEligibleComputer "Moving this task starts a fresh working copy and requires confirmation")
   else mret ());;
  let run := run <| run_computer_id := cmp_id target |>
                 <| run_epoch := (run_epoch run + 1)%Z |>
                 <| run_lease_id := None |>
                 <| run_lease_expires_at := None |>
                 <| run_last_event_seq := 0%Z |>
                 <| run_last_event_id := None |>
                 <| run_checkpoint := [] |>
                 <| run_workspace_resume_mode := if moving then resume_recreate else resume_restore |>
                 <| run_recovery_count := (run_recovery_count run + 1)%Z |> in
  transition_run run recovering None.

(** The workspace reset of a run that moves. *)
Definition recreated_workspace (target : Computer) (workspace : ExecutionWorkspace) : ExecutionWorkspace :=
  workspace <| ws_computer_id := cmp_id target |>
            <| ws_status := ws_pending |>
            <| ws_path := "" |>
            <| ws_workspace_kind := None |>
            <| ws_base_revision := None |>
            <| ws_task_branch := None |>
            <| ws_detail := "Recreating an isolated working copy from the task snapshot" |>.

(** [recover_run] of the module, called [apply_recovery] by the service. *)
Definition apply_recovery (run_id : string) (target : Computer) (allow_recreate : bool) : op TaskRun :=
  raise_if (negb (bool_decide (cmp_status target = online)))
    (NoEligibleComputer "Choose an online computer to resume this task");;
  saved ← update_run run_id (fence target allow_recreate);
  (if decide (run_workspace_resume_mode saved = resume_recreate) then
     l ← list_workspaces (Some (ControlModels.run_id saved));
     for_each l (λ workspace, save_workspace (recreated_workspace target workspace);; mret ())
   else mret ());;
  mret saved.
End Recovery.

Section RecoveryFacts.
Context {PF : Platform}.

Lemma fence_frame {R : relation World} `{!Frame R} target allow run : within R (fence target allow run).
Proof. unfold fence. walk_frame. Qed.

#[local] Hint Resolve fence_frame : frame.

Lemma apply_recovery_frame {R : relation World} `{!Frame R} id target allow :
  may_write R runs → may_write R workspaces → within R (apply_recovery id target allow).
Proof. unfold apply_recovery. walk_frame. Qed.

(** What a successful fence returns. *)
Lemma fence_inv target allow run w w' run' :
  fence target allow run w = (w', inr run') →
  env_step w w' ∧ run_id run' = run_id run ∧ run_task_id run' = run_task_id run ∧
  run_computer_id run' = cmp_id target ∧
  run_epoch run' = (run_epoch run + 1)%Z ∧ run_last_event_seq run' = 0%Z ∧
  run_last_event_id run' = None ∧ run_status run' = recovering ∧
  run_lease_id run' = None ∧ run_lease_expires_at run' = None ∧ run_checkpoint run' = [] ∧
  run_recovery_count run' = (run_recovery_count run + 1)%Z ∧
  run_workspace_resume_mode run' =
    (if String.eqb (cmp_id target) (run_computer_id run) then resume_restore else resume_recreate) ∧
  (cmp_id target ≠ run_computer_id run → allow = true ∧
     ∃ task project, stored CodeTask w (run_task_id run) = Some task ∧
       task_execution_project task = Some project ∧ Forall (λ r, portable r = true) (proj_resources project)).
Proof.
  unfold fence. intros H. apply bind_inr in H as (w1 & [] & Hm & H).
  assert (He : env_step w w1 ∧ (cmp_id target ≠ run_computer_id run → allow = true ∧
     ∃ task project, stored CodeTask w (run_task_id run) = Some task ∧
       task_execution_project task = Some project ∧ Forall (λ r, portable r = true) (proj_resources project))).
  { destruct (String.eqb_spec (cmp_id target) (run_computer_id run)) as [E|E]; cbn [negb] in Hm.
    { injection Hm as <-. split; [reflexivity|done]. }
    apply bind_inr in Hm as (w2 & task & Ht & Hm). apply get_inr in Ht as (-> & _ & Ht & _).
    apply bind_inr in Hm as (w3 & [] & Hp & Ha). apply raise_if_inr in Hp as [Hp ->].
    apply raise_if_inr in Ha as [Ha ->]. split; [reflexivity|]. intros _.
    split; [by destruct allow|]. destruct (task_execution_project task) as [project|] eqn:Ep; [|done].
    exists task, project. split_and!; [done|done|].
    apply list.Forall_forall. intros r Hr. destruct (portable r) eqn:Er; [done|].
    assert (existsb (λ r, negb (portable r)) (proj_resources project) = true) as Hc; [|congruence].
    apply existsb_exists. exists r. rewrite Er. split; [by apply list_elem_of_In|done]. }
  destruct He as [He Hmove].
  set (mode := if negb _ then _ else _) in H.
  assert (Hmode : mode = if String.eqb (cmp_id target) (run_computer_id run) then resume_restore else resume_recreate)
    by (unfold mode; by destruct (String.eqb _ _)).
  clearbody mode. set (r0 := update_field run_recovery_count _ _) in H.
  assert (Hr0 : run_id r0 = run_id run ∧ run_task_id r0 = run_task_id run ∧
    run_computer_id r0 = cmp_id target ∧ run_epoch r0 = (run_epoch run + 1)%Z ∧
    run_last_event_seq r0 = 0%Z ∧ run_last_event_id r0 = None ∧ run_lease_id r0 = None ∧
    run_lease_expires_at r0 = None ∧ run_checkpoint r0 = [] ∧
    run_recovery_count r0 = (run_recovery_count run + 1)%Z ∧
    run_workspace_resume_mode r0 = mode) by (repeat split).
  clearbody r0. destruct Hr0 as (?&?&?&?&?&?&?&?&?&?&?).
  pose proof (transition_run_inv _ _ _ _ _ _ H) as (He' & ? & ? & ? & ? & ? & ? & ? & ? & _).
  assert (Hrest : run_lease_id run' = run_lease_id r0 ∧ run_lease_expires_at run' = run_lease_expires_at r0 ∧
    run_checkpoint run' = run_checkpoint r0 ∧ run_workspace_resume_mode run' = run_workspace_resume_mode r0).
  { destruct (transition_run_cases r0 recovering None w1) as [(_ & E)|[(_ & _ & E)|(_ & _ & E)]];
      rewrite E in H; [|injection H as _ <-; by apply moved_run_lease|done].
    by injection H as _ <-. }
  destruct Hrest as (?&?&?&?).
  split; [by etrans|]. split_and!; (congruence || done).
Qed.
End RecoveryFacts.

#[export] Hint Resolve fence_frame apply_recovery_frame : frame.
