(* ===== verification/ControlComputers.v ===== *)
(** * Computers and credentials in the control plane.

    The part of [ControlPlaneService] ([src/cowork/coding/control_service.py])
    that registers computers, keeps their presence, authenticates runtimes and
    Task Runs by digest, and decides which computers can execute a task.

    [local_id] is [self.local_computer.id]; [hostname] is [platform.node()].
    Times are in microseconds. *)
From stdpp Require Import base list gmap strings option.
From Stdlib Require Import ZArith Lia.
From S2P Require Import Prelude ControlModels ControlWorld RunState ControlStore Delegation.

Definition seconds (n : Z) : Z := (n * 1000000)%Z.
Definition OFFLINE_AFTER : Z := seconds 35.
Definition LEASE_DURATION : Z := seconds 30.
Definition COMMAND_CLAIM_DURATION : Z := seconds 20.

(** [_computer_name]. *)
Definition computer_name (value : string) : string :=
  let normalized := str_join " " (str_split (str_replace "-" " " (str_replace ".local" "" value))) in
  str_take 120 (if truthy normalized then normalized else "This computer").

Section Computers.
Context {PF : Platform} (local_id : string).

(** [_active_count]. *)
Definition capacity_statuses : list RunStatus := [preparing; running; awaiting_approval; recovering].
Definition active_count (computer_id : string) : op Z :=
  l ← list_runs;
  mret (Z.of_nat (length (base.filter
    (λ run, run_computer_id run = computer_id ∧ run_status run ∈ capacity_statuses) l))).

Definition heartbeat (computer_id : string) (active_run_count : Z) : op Computer :=
  computer ← get_computer computer_id;
  raise_if (bool_decide (cmp_revoked_at computer ≠ None))
    (RuntimeAuthenticationError "This computer has been revoked");;
  now ← utc_now;
  let computer := computer <| cmp_last_seen_at := now |> <| cmp_updated_at := now |>
                           <| cmp_active_run_count := active_run_count |> in
  let computer := if decide (cmp_status computer = draining) then computer
                  else computer <| cmp_status := online |> in
  save_computer computer.

Definition expire_stale_computers : op () :=
  now ← utc_now;
  let threshold := (now - OFFLINE_AFTER)%Z in
  l ← list_computers;
  for_each l (λ computer,
    if String.eqb (cmp_id computer) local_id || bool_decide (cmp_status computer = draining) then mret ()
    else if (cmp_last_seen_at computer <? threshold)%Z && negb (bool_decide (cmp_status computer = offline))
    then save_computer (computer <| cmp_status := offline |>);; mret ()
    else mret ()).

(** [list_computers] of the service. *)
Definition service_list_computers : op (list Computer) :=
  n ← active_count local_id;
  heartbeat local_id n;;
  expire_stale_computers;;
  l ← list_computers;
  mret (base.filter (λ c, cmp_revoked_at c = None) l).

(** [_write_local_computer_name]: the temporary file and rename make it one
    update; its name takes one [uuid4]. *)
Definition newline : string := String.String (Ascii.ascii_of_nat 10) "".
Definition write_local_computer_name (name : string) : op () :=
  uuid4_hex;;
  modify (λ w, w <| w_local_computer_name := Some (String.append (computer_name name) newline) |>).

Definition read_local_computer_name : op (option string) :=
  content ← gets w_local_computer_name;
  mret (match content with
        | None => None
        | Some c => let value := str_strip c in if truthy value then Some (computer_name value) else None
        end).

Definition local_computer_id : op string :=
  content ← gets w_local_computer_id;
  match content with
  | Some c =>
      if truthy (str_strip c) then mret (str_strip c)
      else
        uuid ← uuid4_hex;
        let value := String.append "computer-" uuid in
        modify (λ w, w <| w_local_computer_id := Some (String.append value newline) |>);;
        mret value
  | None =>
      uuid ← uuid4_hex;
      let value := String.append "computer-" uuid in
      modify (λ w, w <| w_local_computer_id := Some (String.append value newline) |>);;
      mret value
  end.

Definition rename_computer (computer_id name : string) : op Computer :=
  computer ← get_computer computer_id;
  raise_if (bool_decide (cmp_revoked_at computer ≠ None)) (KeyError "Computer not found");;
  let computer := computer <| cmp_name := computer_name name |> in
  (if cmp_is_local computer then write_local_computer_name (cmp_name computer) else mret ());;
  save_computer computer.

Definition revoke_computer (computer_id : string) : op () :=
  computer ← get_computer computer_id;
  raise_if (bool_decide (cmp_revoked_at computer ≠ None)) (KeyError "Computer not found");;
  raise_if (cmp_is_local computer) (ValueError "This computer cannot be revoked from itself");;
  l ← list_runs;
  raise_if (existsb (λ run, String.eqb (run_computer_id run) computer_id
                              && negb (is_terminal_status (run_status run))) l)
    (StateConflict "Finish or move this computer's active tasks before revoking it");;
  now ← utc_now;
  save_computer (computer <| cmp_registration_epoch := (cmp_registration_epoch computer + 1)%Z |>
                          <| cmp_status := offline |> <| cmp_active_run_count := 0%Z |>
                          <| cmp_revoked_at := Some now |>);;
  mret ().

Definition issue_registration_token : op string :=
  token ← token_urlsafe;
  now ← utc_now;
  created ← utc_now;
  credential ← construct {|
    reg_id := digest token; reg_token_hash := digest token;
    reg_expires_at := (now + seconds 600)%Z; reg_consumed_at := None; reg_created_at := created |};
  save_registration_credential credential;;
  mret token.

(** [Computer(id=..., name=..., is_local=..., capabilities=...)]. *)
Definition make_computer (id name : string) (is_local : bool) (caps : ComputerCapabilities) : op Computer :=
  seen ← utc_now;
  created ← utc_now;
  updated ← utc_now;
  construct (new_Computer id name is_local caps seen created updated).

Definition register_runtime (registration_token name : string) (capabilities : ComputerCapabilities) :
    op (Computer * string) :=
  raise_if (negb (bool_decide (RUNTIME_PROTOCOL_VERSION ∈ caps_protocol_versions capabilities)))
    (ValueError (String.append "Runtime protocol " (String.append RUNTIME_PROTOCOL_VERSION " is required")));;
  now ← utc_now;
  ok ← consume_registration_credential (digest registration_token) now;
  raise_if (negb ok) (RuntimeAuthenticationError "Runtime registration expired or was already used");;
  uuid ← uuid4_hex;
  let identifier := String.append "computer-" uuid in
  computer ← make_computer identifier (computer_name name) false capabilities;
  runtime_token ← token_urlsafe;
  created ← utc_now;
  credential ← construct {|
    rcred_id := identifier; rcred_computer_id := identifier;
    rcred_token_hash := digest runtime_token;
    rcred_registration_epoch := cmp_registration_epoch computer; rcred_created_at := created |};
  save_runtime_credential credential;;
  record_security_event "runtime.register" "completed" "runtime" (cmp_id computer) None
    (Some (cmp_id computer)) (String.append "protocol=" RUNTIME_PROTOCOL_VERSION);;
  saved ← save_computer computer;
  mret (saved, runtime_token).

Definition authenticate_runtime (computer_id runtime_token : string) : op Computer :=
  credential ← catch (get_runtime_credential computer_id)
    (λ e, if is_KeyError e
          then Some (raise (RuntimeAuthenticationError "Runtime authentication failed")) else None);
  computer ← get_computer computer_id;
  raise_if (bool_decide (cmp_revoked_at computer ≠ None))
    (RuntimeAuthenticationError "This computer has been revoked");;
  raise_if (negb (rcred_registration_epoch credential =? cmp_registration_epoch computer)%Z
            || negb (String.eqb (rcred_token_hash credential) (digest runtime_token)))
    (RuntimeAuthenticationError "Runtime authentication failed");;
  mret computer.

Definition leased_statuses : list RunStatus := [preparing; ready; running; awaiting_approval].

Definition issue_run_token (run_id : string) : op string :=
  run ← get_run run_id;
  raise_if (negb (truthy_opt (run_lease_id run)) || negb (bool_decide (run_status run ∈ leased_statuses)))
    (RuntimeAuthenticationError "Task Run is not actively leased");;
  token ← token_urlsafe;
  created ← utc_now;
  credential ← construct {|
    tcred_id := ControlModels.run_id run; tcred_run_id := ControlModels.run_id run;
    tcred_computer_id := run_computer_id run; tcred_epoch := run_epoch run;
    tcred_token_hash := digest token; tcred_created_at := created |};
  save_run_credential credential;;
  mret token.

(** The clock is read only when the lease has an expiry to compare, as the
    disjunction is evaluated left to right. *)
Definition authenticate_run_token (run_id computer_id token : string) : op TaskRun :=
  '(credential, run) ← catch
    (credential ← get_run_credential run_id;
     run ← get_run run_id;
     mret (credential, run))
    (λ e, if is_KeyError e
          then Some (raise (RuntimeAuthenticationError "Task Run authentication failed")) else None);
  let refuse := RuntimeAuthenticationError "Task Run authentication failed" in
  raise_if (negb (String.eqb (tcred_computer_id credential) computer_id)
            || negb (tcred_epoch credential =? run_epoch run)%Z
            || negb (String.eqb (run_computer_id run) computer_id)
            || negb (truthy_opt (run_lease_id run))) refuse;;
  match run_lease_expires_at run with
  | None => raise refuse
  | Some expires =>
      now ← utc_now;
      raise_if ((expires <? now)%Z || is_terminal_status (run_status run)
                || negb (String.eqb (tcred_token_hash credential) (digest token))) refuse;;
      mret run
  end.

(** [_resource_eligible]. *)
Definition resource_eligible (resource : ProjectResource) (computer : Computer) : bool :=
  match resource with
  | LocalFolder f =>
      caps_supports_local_folders (cmp_capabilities computer) && String.eqb (lf_computer_id f) (cmp_id computer)
  | Repository r =>
      caps_has_git (cmp_capabilities computer)
      && (truthy_opt (repo_source_url r) || bool_decide (repo_computer_id r = Some (cmp_id computer)))
  end.

(** [scoped_resources]. *)
Definition find_resource (resources : list ProjectResource) (id : string) : option ProjectResource :=
  list.last (base.filter (λ r, res_id r = id) resources).

Definition scoped_resources (project : option CodeProject) (scope : TaskResourceScope) :
    exn + list ProjectResource :=
  match project with
  | None => inr []
  | Some p =>
      if scope_all_project_resources scope then inr (proj_resources p)
      else
        match base.filter (λ id, find_resource (proj_resources p) id = None) (scope_resource_ids scope) with
        | [] => inr (omap (find_resource (proj_resources p)) (scope_resource_ids scope))
        | missing => inl (ValueError (String.append "Unknown project resources: " (str_join ", " missing)))
        end
  end.

Definition lift {A} (r : exn + A) : op A :=
  match r with inl e => raise e | inr a => mret a end.

(** One iteration of [eligible_computers]. *)
Definition computer_eligible (resources : list ProjectResource) (engine_id : option string)
    (computer : Computer) : op bool :=
  let capabilities := cmp_capabilities computer in
  if negb (bool_decide (cmp_status computer = online)) then mret false
  else
    n ← active_count (cmp_id computer);
    let active_runs := Z.max (cmp_active_run_count computer) n in
    mret (negb (caps_max_concurrent_runs capabilities <=? active_runs)%Z
          && match engine_id with
             | Some e => negb (truthy e) || bool_decide (e ∈ caps_agent_engines capabilities)
             | None => true
             end
          && forallb (λ r, resource_eligible r computer) resources).

Definition eligible_computers (project : option CodeProject) (scope : TaskResourceScope)
    (engine_id : option string) : op (list Computer) :=
  resources ← lift (scoped_resources project scope);
  computers ← service_list_computers;
  flags ← map_each (λ c, ok ← computer_eligible resources engine_id c;
                         mret (if ok : bool then Some c else None)) computers;
  mret (omap id flags).

Definition resource_availability (project : CodeProject) : op (list ResourceAvailability) :=
  computers ← service_list_computers;
  mret (map (λ resource,
    let eligible := map cmp_id (base.filter
      (λ c, cmp_status c = online ∧ resource_eligible resource c = true) computers) in
    let required := match resource with LocalFolder f => Some (lf_computer_id f) | Repository _ => None end in
    let '(status, detail) :=
      if negb (bool_decide (eligible = [])) then ("available", "")
      else if truthy_opt required && existsb (λ c, bool_decide (required = Some (cmp_id c))) computers
      then ("offline", "The computer with this folder is offline")
      else ("unavailable", "No registered computer can access this resource") in
    {| ra_resource_id := res_id resource; ra_status := status; ra_eligible_computer_ids := eligible;
       ra_required_computer_id := required; ra_detail := detail |}) (proj_resources project)).
End Computers.

(** [_register_local], and [__init__]: protocol records are pruned before this
    computer is registered. *)
Section Startup.
Context {PF : Platform} (hostname : string).

Definition register_local (capabilities : ComputerCapabilities) : op Computer :=
  identifier ← local_computer_id;
  stored_name ← read_local_computer_name;
  let name := match stored_name with
              | Some n => if truthy n then n else computer_name hostname
              | None => computer_name hostname
              end in
  catch
    (existing ← get_computer identifier;
     now ← utc_now;
     save_computer (existing <| cmp_name := name |> <| cmp_is_local := true |>
       <| cmp_capabilities := capabilities |> <| cmp_status := online |>
       <| cmp_last_seen_at := now |> <| cmp_revoked_at := None |>))
    (λ e, if is_KeyError e then
            Some (computer ← make_computer identifier name true capabilities; save_computer computer)
          else None).

Definition start_service (capabilities : ComputerCapabilities) : op Computer :=
  now ← utc_now;
  prune (now - seconds (30 * 86400))%Z (now - seconds (90 * 86400))%Z;;
  register_local capabilities.
End Startup.

(** ** What the operations may write *)

Section ComputerFrames.
Context {PF : Platform} {R : relation World} `{!Frame R} (local_id : string).

Lemma active_count_frame c : within R (active_count c).
Proof. unfold active_count. walk_frame. Qed.
#[local] Hint Resolve active_count_frame : frame.
Lemma heartbeat_frame c n : may_write R computers → within R (heartbeat c n).
Proof. unfold heartbeat. walk_frame. Qed.
#[local] Hint Resolve heartbeat_frame : frame.
Lemma expire_stale_computers_frame : may_write R computers → within R (expire_stale_computers local_id).
Proof. unfold expire_stale_computers. walk_frame. Qed.
#[local] Hint Resolve expire_stale_computers_frame : frame.
Lemma service_list_computers_frame : may_write R computers → within R (service_list_computers local_id).
Proof. unfold service_list_computers. walk_frame. Qed.
#[local] Hint Resolve service_list_computers_frame : frame.
Lemma write_local_computer_name_frame n : within R (write_local_computer_name n).
Proof.
  unfold write_local_computer_name. walk_frame. intros w. apply frame_local_name.
Qed.
#[local] Hint Resolve write_local_computer_name_frame : frame.
Lemma local_computer_id_frame : within R local_computer_id.
Proof.
  unfold local_computer_id. walk_frame; intros w; apply frame_local_id.
Qed.
#[local] Hint Resolve local_computer_id_frame : frame.
Lemma rename_computer_frame c n : may_write R computers → within R (rename_computer c n).
Proof. unfold rename_computer. walk_frame. Qed.
Lemma revoke_computer_frame c : may_write R computers → within R (revoke_computer c).
Proof. unfold revoke_computer. walk_frame. Qed.
Lemma issue_registration_token_frame :
  may_write R registration_credentials → within R issue_registration_token.
Proof. unfold issue_registration_token. walk_frame. Qed.
Lemma make_computer_frame i n l c : within R (make_computer i n l c).
Proof. unfold make_computer. walk_frame. Qed.
#[local] Hint Resolve make_computer_frame : frame.
Lemma register_runtime_frame t n c :
  may_write R registration_credentials → may_write R runtime_credentials → may_write R audit →
  may_write R computers → within R (register_runtime t n c).
Proof. unfold register_runtime. walk_frame. Qed.
Lemma catch_key_frame {A} (m : op A) (k : op A) :
  within R m → within R k → within R (catch m (λ e, if is_KeyError e then Some k else None)).
Proof.
  intros Hm Hk. apply within_catch; [apply _|done|]. intros e k'. destruct (is_KeyError e); [|done].
  by intros [= <-].
Qed.
Lemma authenticate_runtime_frame c t : within R (authenticate_runtime c t).
Proof.
  unfold authenticate_runtime. apply within_bind; [apply _| |walk_frame].
  apply catch_key_frame; walk_frame.
Qed.
Lemma issue_run_token_frame r : may_write R run_credentials → within R (issue_run_token r).
Proof. unfold issue_run_token. walk_frame. Qed.
Lemma authenticate_run_token_frame r c t : within R (authenticate_run_token r c t).
Proof.
  unfold authenticate_run_token. apply within_bind; [apply _| |walk_frame].
  apply catch_key_frame; walk_frame.
Qed.
Lemma lift_frame {A} (r : exn + A) : within R (lift r).
Proof. unfold lift. walk_frame. Qed.
#[local] Hint Resolve lift_frame : frame.
Lemma eligible_computers_frame p s e :
  may_write R computers → within R (eligible_computers local_id p s e).
Proof. unfold eligible_computers, computer_eligible. walk_frame. Qed.
Lemma resource_availability_frame p :
  may_write R computers → within R (resource_availability local_id p).
Proof. unfold resource_availability. walk_frame. Qed.
Lemma register_local_frame h c : may_write R computers → within R (register_local h c).
Proof.
  intros Hc. unfold register_local, read_local_computer_name.
  apply within_bind; [apply _|walk_frame|intros i]. apply within_bind; [apply _|walk_frame|intros o].
  apply catch_key_frame; walk_frame.
Qed.
#[local] Hint Resolve register_local_frame : frame.
Lemma start_service_frame h c : (∀ x, may_write R x) → within R (start_service h c).
Proof. intros Hc. unfold start_service. walk_frame. Qed.
End ComputerFrames.

#[export] Hint Resolve active_count_frame heartbeat_frame expire_stale_computers_frame
  service_list_computers_frame rename_computer_frame revoke_computer_frame
  issue_registration_token_frame register_runtime_frame authenticate_runtime_frame
  issue_run_token_frame authenticate_run_token_frame lift_frame eligible_computers_frame
  resource_availability_frame start_service_frame : frame.

(** ** Authentication *)

Lemma get_unwrap_inr {D} `{!Document D} id (e : exn) w w' x :
  catch (get D id) (λ e', if is_KeyError e' then Some (raise e) else None) w = (w', inr x) →
  get D id w = (w', inr x).
Proof.
  unfold catch. destruct (get D id w) as [w1 [e1|y]]; [|done]. by destruct (is_KeyError e1).
Qed.

Section Authentication.
Context {PF : Platform}.

Lemma authenticate_runtime_inr computer_id runtime_token w w' computer :
  authenticate_runtime computer_id runtime_token w = (w', inr computer) →
  w' = w ∧ stored Computer w computer_id = Some computer ∧ cmp_revoked_at computer = None ∧
  ∃ credential, stored RuntimeCredential w computer_id = Some credential ∧
    rcred_registration_epoch credential = cmp_registration_epoch computer ∧
    rcred_token_hash credential = digest runtime_token.
Proof.
  unfold authenticate_runtime. intros H. apply bind_inr in H as (w1 & credential & Hc & H).
  apply get_unwrap_inr, get_inr in Hc as (-> & _ & Hc & _).
  apply bind_inr in H as (w2 & c & Hg & H). apply get_inr in Hg as (-> & _ & Hg & _).
  apply bind_inr in H as (w3 & [] & Hr & H). apply raise_if_inr in Hr as [Hr ->].
  apply bind_inr in H as (w4 & [] & Ha & H). apply raise_if_inr in Ha as [Ha ->].
  injection H as <- <-. apply orb_false_iff in Ha as [He Ht].
  apply negb_false_iff, Z.eqb_eq in He. apply negb_false_iff, String.eqb_eq in Ht.
  split_and!; [done|done| |eauto].
  case_bool_decide as Hb; [done|]. by destruct (cmp_revoked_at c).
Qed.

(** Revoking a computer locks it out.  [revoke_computer] succeeds only when
    no run on that computer is unfinished; afterwards neither its runtime
    token nor a heartbeat is accepted, and this stays so in any later state in
    which its record is still the revoked one. *)
Theorem revoke_computer_locks_out computer_id w w' :
  store_wf w → revoke_computer computer_id w = (w', inr ()) →
  (∀ run, run ∈ readable TaskRun w → run_computer_id run = computer_id →
     is_terminal_status (run_status run) = true) ∧
  ∃ computer, stored Computer w' computer_id = Some computer ∧ cmp_revoked_at computer ≠ None ∧
    cmp_status computer = offline ∧
    ∀ w2 runtime_token n, stored Computer w2 computer_id = Some computer →
      (∃ e, (authenticate_runtime computer_id runtime_token w2).2 = inl e) ∧
      (∃ e, heartbeat computer_id n w2 = (w2, inl e)).
Proof.
  intros Hwf. unfold revoke_computer. intros H.
  apply bind_inr in H as (w1 & c & Hg & H). apply get_inr in Hg as (-> & _ & Hg & _).
  apply bind_inr in H as (w2 & [] & Hr & H). apply raise_if_inr in Hr as [_ ->].
  apply bind_inr in H as (w3 & [] & Hl & H). apply raise_if_inr in Hl as [_ ->].
  apply bind_inr in H as (w4 & l & [= <- <-] & H).
  apply bind_inr in H as (w5 & [] & Hex & H). apply raise_if_inr in Hex as [Hex ->].
  apply bind_inr in H as (w6 & now & Hn & H). apply utc_now_inv in Hn as (He & _ & _).
  apply bind_inr in H as (w7 & saved & Hs & [= <-]).
  unfold save_computer in Hs. apply bind_inr in Hs as (w8 & now2 & Hn2 & Hs).
  apply utc_now_inv in Hn2 as (He2 & _ & _). apply bind_inr in Hs as (w9 & [] & Hs & [= <- <-]).
  apply save_inr in Hs as (_ & Hd & _).
  destruct (stored_key _ _ _ _ Hwf Hg) as [Hid _]. change (doc_id (wrap c)) with (cmp_id c) in Hid.
  split.
  - intros run Hrun Hc. destruct (is_terminal_status (run_status run)) eqn:Et; [done|].
    rewrite <-not_true_iff_false in Hex. destruct Hex.
    apply existsb_exists. exists run. split.
    + apply list_elem_of_In. by rewrite elem_of_sorted_desc, reorder_perm.
    + by rewrite Et, Hc, String.eqb_refl.
  - eexists. split.
    { unfold stored. rewrite Hd. change (collection_of Computer) with computers.
      cbn -[lookup]. rewrite Hid, lookup_insert_eq. reflexivity. }
    split; [done|]. split; [done|]. intros wx token n Hst. split.
    + destruct (authenticate_runtime computer_id token wx) as [wy [e|x]] eqn:Ea; [by exists e|].
      apply authenticate_runtime_inr in Ea as (_ & Hx & Hrev & _). by simplify_eq.
    + unfold heartbeat, mbind, eff_bind.
      pose proof (get_env Computer computer_id wx) as Hge. change (get Computer) with get_computer in Hge.
      destruct (get_computer computer_id wx) as [wy [e|x]] eqn:Eg; cbn in Hge; subst wy; [by exists e|].
      apply get_inr in Eg as (_ & _ & Hx & _). rewrite Hst in Hx. injection Hx as <-.
      eexists. reflexivity.
Qed.

Lemma authenticate_run_token_inr run_id computer_id token w w' run :
  authenticate_run_token run_id computer_id token w = (w', inr run) →
  env_step w w' ∧ stored TaskRun w run_id = Some run ∧
  run_computer_id run = computer_id ∧ is_terminal_status (run_status run) = false ∧
  truthy_opt (run_lease_id run) = true ∧
  (∃ expires, run_lease_expires_at run = Some expires ∧ (w_clock w (w_reads w) ≤ expires)%Z) ∧
  ∃ credential, stored TaskRunCredential w run_id = Some credential ∧
    tcred_computer_id credential = computer_id ∧ tcred_epoch credential = run_epoch run ∧
    tcred_token_hash credential = digest token.
Proof.
  unfold authenticate_run_token. intros H. apply bind_inr in H as (w1 & [credential r] & Hc & H).
  unfold catch in Hc.
  destruct ((credential ← get_run_credential run_id; run ← get_run run_id; mret (credential, run)) w)
    as [w2 [e|p]] eqn:Em.
  { by destruct (is_KeyError e). }
  injection Hc as -> ->. apply bind_inr in Em as (w3 & c & Hc & Em). apply get_inr in Hc as (-> & _ & Hc & _).
  apply bind_inr in Em as (w4 & r' & Hr & [= -> -> ->]). apply get_inr in Hr as (-> & _ & Hr & _).
  apply bind_inr in H as (w5 & [] & Hg & H). apply raise_if_inr in Hg as [Hg ->].
  destruct (run_lease_expires_at r) as [expires|] eqn:Ex; [|done].
  apply bind_inr in H as (w6 & now & Hn & H). apply utc_now_inv in Hn as (He & [= ->] & _).
  apply bind_inr in H as (w7 & [] & Hg2 & H). apply raise_if_inr in Hg2 as [Hg2 ->]. injection H as <- <-.
  repeat (apply orb_false_iff in Hg as [Hg ?]). repeat (apply orb_false_iff in Hg2 as [Hg2 ?]).
  repeat match goal with Hx : negb _ = false |- _ => apply negb_false_iff in Hx end.
  repeat match goal with Hx : String.eqb _ _ = true |- _ => apply String.eqb_eq in Hx end.
  match goal with Hx : (_ =? _)%Z = true |- _ => apply Z.eqb_eq in Hx end.
  apply Z.ltb_ge in Hg2. split_and!; eauto 10.
Qed.

End Authentication.

(** ** Eligibility *)

Section Eligibility.
Context {PF : Platform} (local_id : string).

(** The specification of a computer that can take a task. *)
Record can_execute (computer : Computer) (resources : list ProjectResource)
    (engine_id : option string) : Prop := {
  ce_online : cmp_status computer = online;
  ce_not_revoked : cmp_revoked_at computer = None;
  ce_reported_load : (cmp_active_run_count computer < caps_max_concurrent_runs (cmp_capabilities computer))%Z;
  ce_engine : ∀ e, engine_id = Some e → truthy e = true → e ∈ caps_agent_engines (cmp_capabilities computer);
  ce_resources : ∀ r, r ∈ resources → resource_eligible r computer = true;
}.

Lemma computer_eligible_true resources engine_id computer w w' :
  cmp_revoked_at computer = None →
  computer_eligible resources engine_id computer w = (w', inr true) →
  w' = w ∧ can_execute computer resources engine_id ∧
  ∃ n, active_count (cmp_id computer) w = (w, inr n) ∧
    (n < caps_max_concurrent_runs (cmp_capabilities computer))%Z.
Proof.
  intros Hrev. unfold computer_eligible. case_bool_decide as Hs; cbn [negb]; [|done].
  unfold mbind, eff_bind, active_count at 1, mbind, eff_bind, list_runs, list_docs, gets.
  cbn iota beta. set (n := Z.of_nat _). intros [= <- H].
  apply andb_true_iff in H as [H Hres]. apply andb_true_iff in H as [Hcap Heng].
  apply negb_true_iff, Z.leb_gt in Hcap.
  split; [done|]. split; [|exists n; split; [done|lia]].
  split; [done|done|lia| |].
  - intros e -> Ht. rewrite Ht in Heng. cbn in Heng. by case_bool_decide.
  - intros r Hr. rewrite forallb_forall in Hres. by apply Hres, list_elem_of_In.
Qed.

Lemma eligible_computers_inr project scope engine_id w w' l :
  eligible_computers local_id project scope engine_id w = (w', inr l) →
  touches [computers] w w' ∧
  ∃ resources, scoped_resources project scope = inr resources ∧
  ∀ c, c ∈ l → can_execute c resources engine_id ∧
    ∃ w1 n, touches [computers] w w1 ∧ active_count (cmp_id c) w1 = (w1, inr n) ∧
      (n < caps_max_concurrent_runs (cmp_capabilities c))%Z.
Proof.
  intros H. split.
  { pose proof (eligible_computers_frame (R := touches [computers]) local_id project scope engine_id) as Hf.
    specialize (Hf ltac:(by_touches) w). by rewrite H in Hf. }
  unfold eligible_computers in H. apply bind_inr in H as (w1 & resources & Hr & H).
  unfold lift in Hr. destruct (scoped_resources project scope) as [e|res]; [done|].
  injection Hr as <- <-. exists res. split; [done|].
  apply bind_inr in H as (w2 & cs & Hcs & H). apply bind_inr in H as (w3 & flags & Hm & [= _ <-]).
  assert (Ht : touches [computers] w w2).
  { pose proof (service_list_computers_frame (R := touches [computers]) local_id) as Hf.
    specialize (Hf ltac:(by_touches) w). by rewrite Hcs in Hf. }
  assert (Hrev : ∀ c, c ∈ cs → cmp_revoked_at c = None).
  { unfold service_list_computers in Hcs. apply bind_inr in Hcs as (?&?&_&Hcs).
    apply bind_inr in Hcs as (?&?&_&Hcs). apply bind_inr in Hcs as (?&?&_&Hcs).
    apply bind_inr in Hcs as (?&?&_&[= _ <-]). intros c Hc. by apply list_elem_of_filter in Hc as [? _]. }
  intros c Hc. apply list_elem_of_omap in Hc as (o & Ho & Eo). cbn in Eo. subst o.
  destruct (map_each_elem _ _ _ _ _ _ Hm Ho) as (l1 & x & l2 & w4 & w5 & ys1 & -> & H1 & Hx).
  apply bind_inr in Hx as (w6 & ok & Hok & [= -> Hx]). destruct ok; [|done]. injection Hx as ->.
  apply computer_eligible_true in Hok as (-> & Hcan & n & Hn & Hlt); [|by apply Hrev, elem_of_app; right; left].
  split; [done|]. exists w4, n. split; [|done]. trans w2; [done|].
  assert (Hm1 : within (touches [computers]) (map_each (λ c, ok ← computer_eligible res engine_id c;
    mret (if ok : bool then Some c else None)) l1)).
  { unfold computer_eligible. walk_frame. }
  specialize (Hm1 w2). by rewrite H1 in Hm1.
Qed.

End Eligibility.
