(* ===== verification/ControlTasks.v ===== *)
(** * Tasks, their snapshots and the session bridge.

    The part of [ControlPlaneService] ([src/cowork/coding/control_service.py])
    that creates a task with its run and workspaces, freezes the project it runs
    against, resolves that snapshot for a computer, continues a task with a new
    run, and keeps the older [CodingSession] records
    ([src/cowork/coding/contracts.py]) and runs in step. *)
From stdpp Require Import base list gmap strings option.
From Stdlib Require Import ZArith Lia.
From S2P Require Import Prelude ControlModels ControlWorld RunState ControlStore StoreJournal Delegation ControlComputers.

(** ** The session records, with the fields the control plane reads *)

Inductive SessionStatus :=
  | s_ready | s_running | s_awaiting_approval | s_completed | s_cancelled | s_interrupted | s_failed.

#[export] Instance SessionStatus_eq_dec : EqDecision SessionStatus.
Proof. solve_decision. Defined.

(** [_SESSION_STATUS]. *)
Definition SESSION_STATUS (s : SessionStatus) : RunStatus :=
  match s with
  | s_ready => ready | s_running => running | s_awaiting_approval => awaiting_approval
  | s_completed => completed | s_cancelled => cancelled | s_interrupted => interrupted
  | s_failed => failed
  end.

Record TaskWorkspace := {
  tw_folder_id : string;
  tw_workspace_path : string;
  tw_workspace_kind : WorkspaceKind;
  tw_base_revision : option string;
  tw_task_branch : option string;
}.

Record CodingSession := {
  sess_id : string;
  sess_title : string;
  sess_engine_id : string;
  sess_status : SessionStatus;
  sess_task_id : option string;
  sess_run_id : option string;
  sess_computer_id : option string;
  sess_resource_ids : list string;
  sess_scope_all_project_resources : bool;
  sess_runtime_epoch : Z;
  sess_project_id : option string;
  sess_workspace_path : string;
  sess_workspace_kind : WorkspaceKind;
  sess_workspaces : list TaskWorkspace;
  sess_base_revision : option string;
  sess_source_contexts : list json;
  sess_deliveries : list json;
  sess_last_error : option string;
}.

(** [a or b] for an optional string. *)
Definition str_or (a : option string) (b : string) : string :=
  match a with Some s => if truthy s then s else b | None => b end.

Section Tasks.
Context {PF : Platform} (local_id : string).

(** [execution_project_snapshot]. *)
Definition execution_project_snapshot (project : option CodeProject) (resources : list ProjectResource) :
    exn + option CodeProject :=
  match project with
  | None => inr None
  | Some p =>
      match validate_unique_resources (p <| proj_resources := resources |> <| proj_folders := [] |>) with
      | inl e => inl e
      | inr p' => inr (Some p')
      end
  end.

Definition make_task_run (id task_id computer_id : string) : op TaskRun :=
  created ← utc_now;
  updated ← utc_now;
  construct (new_TaskRun id task_id computer_id created updated).

Definition make_workspace (run_id resource_id computer_id : string) : op ExecutionWorkspace :=
  uuid ← uuid4_hex;
  created ← utc_now;
  updated ← utc_now;
  construct (new_ExecutionWorkspace (String.append "workspace-" uuid) run_id resource_id computer_id created updated).

(** The choice of a computer in [_create_task_run]. *)
Definition choose_computer (eligible : list Computer) (computer_id : option string) : exn + Computer :=
  let wanted := if truthy_opt computer_id then computer_id else None in
  match wanted with
  | Some id =>
      match base.filter (λ c, cmp_id c = id) eligible with
      | c :: _ => inr c
      | [] => inl (NoEligibleComputer "That computer cannot access every resource selected for this task")
      end
  | None =>
      match eligible with
      | c :: _ => inr c
      | [] => inl (NoEligibleComputer "No online computer can access every resource selected for this task")
      end
  end.

Definition create_task_run (task_id title prompt : string) (project : option CodeProject)
    (requested_resource_ids : option (list string)) (computer_id : option string) (engine_id : string)
    (standalone_computer_id : option string) (repository_setup : option json) : op TaskControlSnapshot :=
  scope ← lift (mk_TaskResourceScope (bool_decide (requested_resource_ids = None))
                  (default [] requested_resource_ids));
  resources ← lift (scoped_resources project scope);
  eligible ← eligible_computers local_id project scope (Some engine_id);
  let eligible :=
    match project, standalone_computer_id with
    | None, Some id => if truthy id then base.filter (λ c, cmp_id c = id) eligible else eligible
    | _, _ => eligible
    end in
  selected ← lift (choose_computer eligible computer_id);
  snapshot ← lift (execution_project_snapshot project resources);
  created ← utc_now;
  updated ← utc_now;
  task ← construct {|
    task_schema_version := CONTROL_SCHEMA_VERSION; ControlModels.task_id := task_id;
    task_title := title; task_prompt := prompt; task_engine_id := engine_id;
    task_project_id := proj_id <$> project; task_resource_scope := scope;
    task_execution_project := snapshot; task_repository_setup := repository_setup;
    task_source_contexts := []; task_deliveries := [];
    task_created_at := created; task_updated_at := updated |};
  uuid ← uuid4_hex;
  run ← make_task_run (String.append "run-" uuid) (ControlModels.task_id task) (cmp_id selected);
  workspaces ← map_each (λ r, make_workspace (run_id run) (res_id r) (cmp_id selected)) resources;
  '(task, run, workspaces) ← store_create_task_run task run workspaces;
  mret {| snap_task := task; snap_run := run; snap_computer := selected; snap_workspaces := workspaces |}.

(** A repository that the target computer fetches itself loses the path and
    computer it was recorded on. *)
Definition runtime_resource (computer_id : string) (resource : ProjectResource) : ProjectResource :=
  match resource with
  | Repository r =>
      if truthy_opt (repo_source_url r) && negb (bool_decide (repo_computer_id r = Some computer_id))
      then Repository (r <| repo_local_path := None |> <| repo_computer_id := None |>)
      else resource
  | LocalFolder _ => resource
  end.

Definition runtime_project (project : CodeProject) (scope : TaskResourceScope) (computer_id : string) :
    exn + CodeProject :=
  match scoped_resources (Some project) scope with
  | inl e => inl e
  | inr resources =>
      validate_unique_resources (project <| proj_resources := map (runtime_resource computer_id) resources |>)
  end.

Definition all_scope : TaskResourceScope := {| scope_all_project_resources := true; scope_resource_ids := [] |}.

Definition runtime_project_for_task (task : CodeTask) (computer_id : string) : exn + option CodeProject :=
  match task_execution_project task with
  | None => inr None
  | Some p =>
      match runtime_project p all_scope computer_id with
      | inl e => inl e
      | inr p' => inr (Some p')
      end
  end.

(** The resources of [refresh_task_commands]. *)
Definition refreshed_resource (live : list ProjectResource) (resource : ProjectResource) : ProjectResource :=
  match find_resource live (res_id resource) with
  | Some current => res_with_commands (res_commands current) resource
  | None => resource
  end.

Definition refresh_task_commands (task_id : string) (project : CodeProject) : op CodeTask :=
  task ← get_task task_id;
  match task_execution_project task with
  | None => raise (ValueError "This task has no saved Code Project to update")
  | Some frozen =>
      raise_if (negb (bool_decide (task_project_id task = Some (proj_id project))))
        (ValueError "That project does not belong to this task");;
      updated ← lift (validate_unique_resources
        (frozen <| proj_resources := map (refreshed_resource (proj_resources project)) (proj_resources frozen) |>));
      now ← utc_now;
      save_task (task <| task_execution_project := Some updated |> <| task_updated_at := now |>)
  end.

Definition set_run_status (run_id : string) (status : RunStatus) (error : option string) : op TaskRun :=
  update_run run_id (λ run, transition_run run status error).

(** [bool(workspaces) and all(status == ready and path)]. *)
Definition restorable (l : list ExecutionWorkspace) : bool :=
  negb (bool_decide (length l = 0)) &&
  forallb (λ x, bool_decide (ws_status x = ws_ready) && truthy (ws_path x)) l.

Definition continue_task (task_id previous_run_id : string) : op TaskRun :=
  previous ← get_run previous_run_id;
  raise_if (negb (String.eqb (run_task_id previous) task_id)) (ValueError "Task Run belongs to another task");;
  computer ← get_computer (run_computer_id previous);
  raise_if (negb (bool_decide (cmp_status computer = online))) (NoEligibleComputer "The task's computer is offline");;
  workspaces ← list_workspaces (Some (run_id previous));
  let keep := restorable workspaces in
  uuid ← uuid4_hex;
  created ← utc_now;
  updated ← utc_now;
  run ← construct ((new_TaskRun (String.append "run-" uuid) task_id (cmp_id computer) created updated)
    <| run_status := if String.eqb (cmp_id computer) local_id then ready else queued |>
    <| run_epoch := (run_epoch previous + 1)%Z |>
    <| run_workspace_resume_mode := if keep then resume_restore else resume_prepare |>
    <| run_recovery_count := run_recovery_count previous |>);
  run ← save_run run;
  for_each workspaces (λ workspace,
    record ← (if keep then
                uuid ← uuid4_hex;
                mret (workspace <| ws_id := String.append "workspace-" uuid |> <| ws_run_id := run_id run |>)
              else make_workspace (run_id run) (ws_resource_id workspace) (cmp_id computer));
    save_workspace record;; mret ());;
  mret run.

(** The record a prepared workspace is written to: the existing one of its
    folder (the last listed wins in the dict), or a new one. *)
Definition existing_workspace (l : list ExecutionWorkspace) (folder_id : string) : option ExecutionWorkspace :=
  list.last (base.filter (λ x, ws_resource_id x = folder_id) l).

Definition prepared_workspace (run : TaskRun) (tw : TaskWorkspace) (record : ExecutionWorkspace) : ExecutionWorkspace :=
  record <| ws_status := ws_ready |> <| ws_computer_id := run_computer_id run |>
         <| ws_path := tw_workspace_path tw |> <| ws_workspace_kind := Some (tw_workspace_kind tw) |>
         <| ws_base_revision := tw_base_revision tw |> <| ws_task_branch := tw_task_branch tw |>
         <| ws_detail := "" |>.

Definition attach_prepared_workspaces (run_id : string) (prepared : list TaskWorkspace) :
    op (list ExecutionWorkspace) :=
  run ← get_run run_id;
  existing ← list_workspaces (Some run_id);
  map_each (λ tw,
    record ← match existing_workspace existing (tw_folder_id tw) with
             | Some record => mret record
             | None => make_workspace (ControlModels.run_id run) (tw_folder_id tw) (run_computer_id run)
             end;
    save_workspace (prepared_workspace run tw record)) prepared.

Definition release_workspaces (run_id : string) : op (list ExecutionWorkspace) :=
  l ← list_workspaces (Some run_id);
  map_each (λ x, save_workspace (x <| ws_status := ws_released |> <| ws_path := "" |>
                                   <| ws_detail := "Workspace released" |>)) l.

(** [_fallback_workspace] and [_execution_workspace]. *)
Definition fallback_workspace (session : CodingSession) : TaskWorkspace := {|
  tw_folder_id := "folder"; tw_workspace_path := sess_workspace_path session;
  tw_workspace_kind := sess_workspace_kind session; tw_base_revision := sess_base_revision session;
  tw_task_branch := None |}.

Definition execution_workspace (run : TaskRun) (tw : TaskWorkspace) : op ExecutionWorkspace :=
  uuid ← uuid4_hex;
  created ← utc_now;
  updated ← utc_now;
  construct ((new_ExecutionWorkspace (String.append "workspace-" uuid) (run_id run) (tw_folder_id tw)
                (run_computer_id run) created updated)
    <| ws_status := ws_ready |> <| ws_path := tw_workspace_path tw |>
    <| ws_workspace_kind := Some (tw_workspace_kind tw) |>
    <| ws_base_revision := tw_base_revision tw |> <| ws_task_branch := tw_task_branch tw |>).

Definition migrate_session (session : CodingSession) (project : option CodeProject) : op TaskControlSnapshot :=
  let task_id := str_or (sess_task_id session) (sess_id session) in
  let run_id := str_or (sess_run_id session) (String.append "run-" (sess_id session)) in
  let computer_id := str_or (sess_computer_id session) local_id in
  let resource_ids := if bool_decide (sess_resource_ids session = [])
                      then map tw_folder_id (sess_workspaces session) else sess_resource_ids session in
  let resource_ids := match project with
                      | Some p => if bool_decide (resource_ids = []) then map res_id (proj_resources p) else resource_ids
                      | None => resource_ids
                      end in
  scope ← lift (mk_TaskResourceScope (sess_scope_all_project_resources session)
                  (if sess_scope_all_project_resources session then [] else resource_ids));
  task ← catch (get_task task_id)
    (λ e, if is_KeyError e then Some (
            resources ← lift (scoped_resources project scope);
            snapshot ← lift (execution_project_snapshot project resources);
            created ← utc_now;
            updated ← utc_now;
            task ← construct {|
              task_schema_version := CONTROL_SCHEMA_VERSION; ControlModels.task_id := task_id;
              task_title := sess_title session; task_prompt := ""; task_engine_id := sess_engine_id session;
              task_project_id := sess_project_id session; task_resource_scope := scope;
              task_execution_project := snapshot; task_repository_setup := None;
              task_source_contexts := sess_source_contexts session;
              task_deliveries := sess_deliveries session;
              task_created_at := created; task_updated_at := updated |};
            save_task task)
          else None);
  run ← catch (get_run run_id)
    (λ e, if is_KeyError e then Some (
            created ← utc_now;
            updated ← utc_now;
            run ← construct ((new_TaskRun run_id (ControlModels.task_id task) computer_id created updated)
              <| run_status := SESSION_STATUS (sess_status session) |>
              <| run_epoch := sess_runtime_epoch session |>);
            save_run run)
          else None);
  found ← list_workspaces (Some (ControlModels.run_id run));
  workspaces ←
    (if bool_decide (length found = 0) then
       let source := match sess_workspaces session with [] => [fallback_workspace session] | l => l end in
       map_each (λ tw, x ← execution_workspace run tw; save_workspace x) source
     else mret found);
  computer ← get_computer computer_id;
  mret {| snap_task := task; snap_run := run; snap_computer := computer; snap_workspaces := workspaces |}.

(** The operation [reconcile]. *)
Definition reconcile (session : CodingSession) (run : TaskRun) : op TaskRun :=
  if negb (String.eqb (run_computer_id run) local_id) then mret run
  else if bool_decide (run_status run = preparing) && bool_decide (sess_status session = s_running) then mret run
  else transition_run run (SESSION_STATUS (sess_status session)) (sess_last_error session).

Definition sync_session (session : CodingSession) : op TaskRun :=
  match sess_run_id session with
  | Some id =>
      if truthy id then update_run id (reconcile session)
      else raise (StateConflict "Coding session has not been linked to a Task Run")
  | None => raise (StateConflict "Coding session has not been linked to a Task Run")
  end.

(** [delete_task] of the service. *)
Definition delete_task (run_id : string) : op () :=
  run ← get_run run_id;
  store_delete_task (run_task_id run).
End Tasks.

(** ** What the operations may write *)

Section TaskFrames.
Context {PF : Platform} {R : relation World} `{!Frame R} (local_id : string).

Lemma make_task_run_frame i t c : within R (make_task_run i t c).
Proof. unfold make_task_run. walk_frame. Qed.
Lemma make_workspace_frame r i c : within R (make_workspace r i c).
Proof. unfold make_workspace. walk_frame. Qed.
#[local] Hint Resolve make_task_run_frame make_workspace_frame : frame.
Lemma refresh_task_commands_frame t p : may_write R tasks → within R (refresh_task_commands t p).
Proof. unfold refresh_task_commands. walk_frame. Qed.
Lemma set_run_status_frame r s e : may_write R runs → within R (set_run_status r s e).
Proof. unfold set_run_status. intros Hr. apply update_run_frame; walk_frame. Qed.
Lemma attach_prepared_workspaces_frame r l :
  may_write R workspaces → within R (attach_prepared_workspaces r l).
Proof. unfold attach_prepared_workspaces. walk_frame. Qed.
Lemma release_workspaces_frame r : may_write R workspaces → within R (release_workspaces r).
Proof. unfold release_workspaces. walk_frame. Qed.
Lemma continue_task_frame t r :
  may_write R runs → may_write R workspaces → within R (continue_task local_id t r).
Proof. unfold continue_task. walk_frame. Qed.
Lemma execution_workspace_frame r t : within R (execution_workspace r t).
Proof. unfold execution_workspace. walk_frame. Qed.
#[local] Hint Resolve execution_workspace_frame : frame.
Lemma migrate_session_frame s p :
  may_write R tasks → may_write R runs → may_write R workspaces → within R (migrate_session local_id s p).
Proof.
  intros. unfold migrate_session. apply within_bind; [apply _|walk_frame|intros scope].
  apply within_bind; [apply _|apply catch_key_frame; walk_frame|intros task].
  apply within_bind; [apply _|apply catch_key_frame; walk_frame|intros run]. walk_frame.
Qed.
Lemma reconcile_frame s r : within R (reconcile local_id s r).
Proof. unfold reconcile. walk_frame. Qed.
Lemma sync_session_frame s : may_write R runs → within R (sync_session local_id s).
Proof.
  intros Hr. unfold sync_session. pose proof reconcile_frame.
  destruct (sess_run_id s) as [i|]; [|walk_frame]. destruct (truthy i); [|walk_frame].
  apply update_run_frame; [done|]. intros; apply reconcile_frame.
Qed.
Lemma delete_task_frame r : (∀ c, may_write R c) → within R (delete_task r).
Proof. intros Hc. unfold delete_task. walk_frame. Qed.
End TaskFrames.

#[export] Hint Resolve make_task_run_frame make_workspace_frame refresh_task_commands_frame
  set_run_status_frame attach_prepared_workspaces_frame release_workspaces_frame
  continue_task_frame execution_workspace_frame migrate_session_frame reconcile_frame
  sync_session_frame delete_task_frame : frame.

(** ** The frozen snapshot *)

Section Snapshots.
Context {PF : Platform}.

Lemma validate_unique_resources_inr p p' :
  validate_unique_resources p = inr p' →
  p' = p <| proj_folders := map resource_folder (proj_resources p) |> ∧ NoDup (map res_id (proj_resources p)).
Proof.
  unfold validate_unique_resources. destruct (negb _); [done|].
  case_bool_decide as Hn; cbn [negb]; [|done]. repeat (case_bool_decide; cbn [negb]; [|done]).
  by intros [= <-].
Qed.

Lemma res_with_commands_id cs r : res_id (res_with_commands cs r) = res_id r.
Proof. by destruct r. Qed.

Lemma refreshed_resource_spec live r :
  ∃ cs, refreshed_resource live r = res_with_commands cs r ∧
    (find_resource live (res_id r) = None → cs = res_commands r) ∧
    (∀ x, find_resource live (res_id r) = Some x → cs = res_commands x).
Proof.
  unfold refreshed_resource. destruct (find_resource live (res_id r)) as [x|].
  - exists (res_commands x). naive_solver.
  - exists (res_commands r). split; [by destruct r as [[]|[]]|]. naive_solver.
Qed.

(** Adopting newer project settings changes commands and nothing else.
    When [refresh_task_commands] returns, the task is the stored one with a
    new snapshot and time stamp only; the new snapshot has the same resources
    in the same order, each with its old fields and with the commands of the
    live resource of that id (its own if the project has dropped it), and the
    folder projection is that of the new resources. *)
Theorem refresh_task_commands_only_commands task_id project w w' task' :
  refresh_task_commands task_id project w = (w', inr task') →
  touches [tasks] w w' ∧
  ∃ task frozen updated t, stored CodeTask w task_id = Some task ∧
    task_execution_project task = Some frozen ∧
    task' = task <| task_execution_project := Some updated |> <| task_updated_at := t |> ∧
    updated = frozen <| proj_resources := proj_resources updated |> <| proj_folders := map resource_folder (proj_resources updated) |> ∧
    map res_id (proj_resources updated) = map res_id (proj_resources frozen) ∧
    Forall2 (λ old new, ∃ cs, new = res_with_commands cs old ∧
        (find_resource (proj_resources project) (res_id old) = None → cs = res_commands old) ∧
        (∀ x, find_resource (proj_resources project) (res_id old) = Some x → cs = res_commands x))
      (proj_resources frozen) (proj_resources updated).
Proof.
  intros H. split.
  { pose proof (refresh_task_commands_frame (R := touches [tasks]) task_id project) as Hf.
    specialize (Hf ltac:(by_touches) w). by rewrite H in Hf. }
  unfold refresh_task_commands in H. apply bind_inr in H as (w1 & task & Ht & H).
  apply get_inr in Ht as (-> & _ & Ht & _).
  destruct (task_execution_project task) as [frozen|] eqn:Ef; [|done].
  apply bind_inr in H as (w2 & [] & Hp & H). apply raise_if_inr in Hp as [_ ->].
  apply bind_inr in H as (w3 & updated & Hu & H). unfold lift in Hu.
  destruct (validate_unique_resources _) as [e|u] eqn:Eu; [done|]. injection Hu as <- <-.
  apply validate_unique_resources_inr in Eu as [-> _]. cbn [proj_resources] in *.
  apply bind_inr in H as (w4 & now & Hn & H). apply utc_now_inv in Hn as (_ & _ & _).
  unfold save_task in H. apply bind_inr in H as (w5 & now2 & Hn2 & H).
  apply bind_inr in H as (w6 & [] & _ & H). injection H as _ <-.
  eexists task, frozen, _, now2. split; [done|]. split; [done|]. split; [reflexivity|].
  set (new := map (refreshed_resource (proj_resources project)) (proj_resources frozen)).
  split; [done|]. split.
  - change (map res_id new = map res_id (proj_resources frozen)). unfold new. rewrite map_map.
    apply map_ext. intros r. destruct (refreshed_resource_spec (proj_resources project) r) as (cs & -> & _).
    apply res_with_commands_id.
  - match goal with |- Forall2 ?P ?a _ => change (Forall2 P a new) end. unfold new. apply Forall2_fmap_r.
    apply Forall_Forall2_diag, list.Forall_forall. intros r _. apply refreshed_resource_spec.
Qed.

(** A project sent to a computer carries no other machine's paths.  In
    [runtime_project] every repository with a source URL that was not recorded
    on the target computer has neither local path nor computer, every other
    resource is unchanged, and so are all other fields of the project except
    the folder projection, which is rebuilt. *)
Theorem runtime_project_strips project computer_id p' :
  runtime_project project all_scope computer_id = inr p' →
  p' = project <| proj_resources := proj_resources p' |> <| proj_folders := map resource_folder (proj_resources p') |> ∧
  Forall2 (λ old new,
    match old with
    | Repository r =>
        if truthy_opt (repo_source_url r) && negb (bool_decide (repo_computer_id r = Some computer_id))
        then new = Repository (r <| repo_local_path := None |> <| repo_computer_id := None |>) ∧
             (∀ path, repo_local_path r = Some path → pf_path (resource_folder new) ≠ path ∨
                repo_source_url r = Some path)
        else new = old
    | LocalFolder _ => new = old
    end) (proj_resources project) (proj_resources p').
Proof.
  unfold runtime_project. cbn [scoped_resources scope_all_project_resources all_scope]. intros H.
  apply validate_unique_resources_inr in H as [-> _]. split; [done|].
  match goal with |- Forall2 ?P ?a _ =>
    change (Forall2 P a (map (runtime_resource computer_id) (proj_resources project))) end.
  apply Forall2_fmap_r, Forall_Forall2_diag, list.Forall_forall. intros [r|f] _; [|done].
  unfold runtime_resource, compose. cbn iota beta.
  destruct (truthy_opt (repo_source_url r) && negb (bool_decide (repo_computer_id r = Some computer_id))) eqn:E;
    [|done]. split; [done|].
  intros path Hp. apply andb_true_iff in E as [E _]. unfold resource_folder. cbn.
  unfold or_else. cbn. rewrite E. destruct (repo_source_url r) as [u|]; [|done]. cbn.
  destruct (decide (u = path)) as [->|]; auto.
Qed.
End Snapshots.

(** ** Creating a task *)

Section Creation.
Context {PF : Platform} (local_id : string).

Lemma construct_inr {D} `{!Document D} (x : D) w w' y :
  construct x w = (w', inr y) → w' = w ∧ y = x ∧ doc_valid (wrap x) = true.
Proof. unfold construct. destruct (doc_valid (wrap x)); [|done]. by intros [= -> ->]. Qed.

Lemma make_task_run_inr id task computer w w' run :
  make_task_run id task computer w = (w', inr run) →
  env_step w w' ∧ ∃ a b, run = new_TaskRun id task computer a b ∧ valid_run run = true.
Proof.
  unfold make_task_run. intros H. apply bind_inr in H as (w1 & a & Ha & H).
  apply bind_inr in H as (w2 & b & Hb & H). apply construct_inr in H as (-> & -> & Hv).
  apply utc_now_inv in Ha as (H1 & _ & _). apply utc_now_inv in Hb as (H2 & _ & _).
  split; [by etrans|]. eauto.
Qed.

(** A workspace as created for a resource of a run. *)
Definition fresh_workspace (rid cid : string) (r : ProjectResource) (x : ExecutionWorkspace) : Prop :=
  ws_run_id x = rid ∧ ws_resource_id x = res_id r ∧ ws_computer_id x = cid ∧
  ws_status x = ws_pending ∧ ws_path x = "" ∧ valid_workspace x = true.

Lemma make_workspaces_inr rid cid l w w' xs :
  map_each (λ r, make_workspace rid (res_id r) cid) l w = (w', inr xs) →
  env_step w w' ∧ Forall2 (fresh_workspace rid cid) l xs.
Proof.
  revert w xs. induction l as [|r l IH]; intros w xs H; cbn [map_each] in H.
  { injection H as <- <-. split; [reflexivity|constructor]. }
  apply bind_inr in H as (w1 & x & Hx & H). apply bind_inr in H as (w2 & ys & Hys & [= <- <-]).
  apply IH in Hys as [He Hf]. unfold make_workspace in Hx.
  apply bind_inr in Hx as (w3 & u & Hu & Hx). apply bind_inr in Hx as (w4 & a & Ha & Hx).
  apply bind_inr in Hx as (w5 & b & Hb & Hx). apply construct_inr in Hx as (-> & -> & Hv).
  apply uuid4_hex_inv in Hu as (H1 & _ & _). apply utc_now_inv in Ha as (H2 & _ & _).
  apply utc_now_inv in Hb as (H3 & _ & _).
  split; [etrans; [exact H1|]; etrans; [exact H2|]; by etrans|]. constructor; [|done]. by split_and!.
Qed.

Lemma choose_computer_inr eligible computer_id c :
  choose_computer eligible computer_id = inr c →
  c ∈ eligible ∧ (∀ id, computer_id = Some id → truthy id = true → cmp_id c = id).
Proof.
  unfold choose_computer. destruct computer_id as [id|]; cbn [truthy_opt].
  - destruct (truthy id) eqn:Et.
    + destruct (base.filter _ eligible) as [|x l] eqn:Ef; [done|]. intros [= ->].
      assert (Hc : c ∈ base.filter (λ c, cmp_id c = id) eligible) by (rewrite Ef; left).
      apply list_elem_of_filter in Hc as [Hid Hc]. split; [done|]. by intros ? [= <-].
    + destruct eligible as [|x l]; [done|]. intros [= ->]. split; [left|]. intros ? [= <-]. congruence.
  - destruct eligible as [|x l]; [done|]. intros [= ->]. split; [left|done].
Qed.

(** a created task is complete and placed on a capable computer.  When
    [create_task_run] returns, exactly the new task, its run and one pending
    workspace per resource of the scope (in order) have been added to the
    store, all three consistent with each other; the run is queued in its
    first epoch without a lease; the computer is the requested one if one was
    requested, and can execute the task; and the frozen project holds exactly
    the resources of the scope. *)
Theorem create_task_run_creates task_id title prompt project requested computer_id engine_id
    standalone setup w w' snap :
  create_task_run local_id task_id title prompt project requested computer_id engine_id
    standalone setup w = (w', inr snap) →
  ∃ w1 scope resources,
    touches [computers] w w1 ∧
    mk_TaskResourceScope (bool_decide (requested = None)) (default [] requested) = inr scope ∧
    scoped_resources project scope = inr resources ∧
    w_docs w' = insert_all ((tasks, DTask (snap_task snap)) :: (runs, DRun (snap_run snap)) ::
                  map (λ x, (workspaces, DWorkspace x)) (snap_workspaces snap)) (w_docs w1) ∧
    w_docs w1 !! (tasks, task_id) = None ∧ w_docs w1 !! (runs, run_id (snap_run snap)) = None ∧
    ControlModels.task_id (snap_task snap) = task_id ∧ run_task_id (snap_run snap) = task_id ∧
    run_status (snap_run snap) = queued ∧ run_epoch (snap_run snap) = 1%Z ∧ run_lease_id (snap_run snap) = None ∧
    run_computer_id (snap_run snap) = cmp_id (snap_computer snap) ∧
    can_execute (snap_computer snap) resources (Some engine_id) ∧
    (∀ id, computer_id = Some id → truthy id = true → cmp_id (snap_computer snap) = id) ∧
    Forall2 (fresh_workspace (run_id (snap_run snap)) (cmp_id (snap_computer snap))) resources (snap_workspaces snap) ∧
    (proj_resources <$> task_execution_project (snap_task snap)) = (const resources <$> project).
Proof.
  unfold create_task_run. intros H.
  apply bind_inr in H as (w1 & scope & Hs & H). unfold lift in Hs at 1.
  destruct (mk_TaskResourceScope _ _) as [e|sc] eqn:Esc; [done|]. injection Hs as <- <-.
  apply bind_inr in H as (w2 & resources & Hr & H). unfold lift in Hr at 1.
  destruct (scoped_resources project sc) as [e|rs] eqn:Ers; [done|]. injection Hr as <- <-.
  apply bind_inr in H as (w3 & eligible & Hel & H).
  apply eligible_computers_inr in Hel as (Ht & rs' & Ers' & Hcan). rewrite Ers in Ers'. injection Ers' as <-.
  set (el := match project with None => _ | _ => _ end) in H.
  assert (Hel : ∀ c, c ∈ el → c ∈ eligible).
  { unfold el. intros c. destruct project, standalone as [i|]; try done.
    destruct (truthy i); [|done]. by intros [_ ?]%list_elem_of_filter. }
  clearbody el.
  apply bind_inr in H as (w4 & selected & Hsel & H). unfold lift in Hsel at 1.
  destruct (choose_computer el computer_id) as [e|c] eqn:Ec; [done|]. injection Hsel as <- <-.
  apply choose_computer_inr in Ec as [Hc Hwant].
  apply bind_inr in H as (w5 & snapshot & Hsn & H). unfold lift in Hsn at 1.
  destruct (execution_project_snapshot project rs) as [e|sn] eqn:Esn; [done|]. injection Hsn as <- <-.
  apply bind_inr in H as (w6 & a & Ha & H). apply bind_inr in H as (w7 & b & Hb & H).
  apply bind_inr in H as (w8 & task & Htask & H). apply construct_inr in Htask as (-> & -> & Hvt).
  apply bind_inr in H as (w9 & u & Hu & H). apply bind_inr in H as (w10 & run & Hrun & H).
  apply make_task_run_inr in Hrun as (Herun & ra & rb & -> & Hvr).
  apply bind_inr in H as (w11 & ws & Hws & H). apply make_workspaces_inr in Hws as [Hews Hws].
  apply bind_inr in H as (w12 & [[task run] xs] & Hst & H). injection H as <- <-.
  unfold store_create_task_run in Hst. apply bind_inr in Hst as (w13 & [] & Hsm & [= <- <- <- <-]).
  apply utc_now_inv in Ha as (H1 & _ & _). apply utc_now_inv in Hb as (H2 & _ & _).
  apply uuid4_hex_inv in Hu as (H3 & _ & _).
  set (t0 := {| ControlModels.task_id := _ |}) in *. set (r0 := new_TaskRun _ _ _ _ _) in *.
  assert (Hdocs : w_docs w11 = w_docs w3).
  { rewrite (env_step_docs _ _ Hews), (env_step_docs _ _ Herun), (env_step_docs _ _ H3),
      (env_step_docs _ _ H2), (env_step_docs _ _ H1). done. }
  set (docs := (tasks, DTask t0) :: _) in Hsm.
  destruct (save_many_cases docs w11) as [(wx & E & Hok & Hnd & Hd & _)|(wx & e & E & _)];
    rewrite E in Hsm; simplify_eq.
  apply list.Forall_cons in Hok as [[_ Hnt] Hok]. apply list.Forall_cons in Hok as [[_ Hnr] _].
  exists w3, sc, rs. cbn [snap_task snap_run snap_computer snap_workspaces].
  split_and!; try done.
  - unfold w_docs at 1. rewrite Hd. rewrite (proj1 (commit_docs docs (w_disk w11) _ Hnd)).
    change (disk_docs (w_disk w11)) with (w_docs w11). by rewrite Hdocs.
  - rewrite <-Hdocs. exact Hnt.
  - rewrite <-Hdocs. exact Hnr.
  - apply Hcan, Hel, Hc.
  - unfold execution_project_snapshot in Esn. destruct project as [p|]; [|by injection Esn as <-].
    destruct (validate_unique_resources _) as [e|p'] eqn:Ev; [done|]. injection Esn as <-.
    by apply validate_unique_resources_inr in Ev as [-> _].
Qed.
End Creation.

(** ** Sessions and runs *)

Section Sessions.
Context {PF : Platform} (local_id : string).

(** an over-long session error makes its run unreadable.  A session's
    [last_error] has no length bound, a run's has ([LAST_ERROR_MAX]), and the
    local store does not validate what it writes: when [sync_session] moves a
    local run to the session's status with such an error, the call succeeds,
    and from then on the run can no longer be read ([get_run] raises a
    validation error) and every listing silently leaves it out. *)
Theorem sync_session_unreadable_run session id run error w :
  store_wf w → sess_run_id session = Some id →
  stored TaskRun w id = Some run → valid_run run = true → run_computer_id run = local_id →
  SESSION_STATUS (sess_status session) ≠ run_status run →
  SESSION_STATUS (sess_status session) ∈ allowed_transitions (run_status run) →
  (run_status run = preparing → sess_status session ≠ s_running) →
  sess_last_error session = Some error → LAST_ERROR_MAX < String.length error →
  ∃ w' r, sync_session local_id session w = (w', inr r) ∧
    get_run id w' = (w', inl (ValidationError "TaskRun")) ∧
    (∀ x, x ∈ readable TaskRun w' → run_id x ≠ id).
Proof.
  intros Hwf Hid Hrun Hv Hloc Hne Hin Hprep Herr Hlen.
  destruct (stored_key _ _ _ _ Hwf Hrun) as [Hkey Hpat]. change (doc_id (wrap run)) with (run_id run) in Hkey.
  assert (Htr : truthy id = true) by (unfold id_pattern in Hpat; by apply andb_true_iff in Hpat as [? _]).
  set (moved := moved_run run (SESSION_STATUS (sess_status session)) (Some error) (w_clock w (w_reads w))).
  destruct (moved_run_frame run (SESSION_STATUS (sess_status session)) (Some error) (w_clock w (w_reads w)))
    as (Hmid & _ & _ & _ & _ & _ & _ & Hms & Hme & _). fold moved in Hmid, Hms, Hme.
  set (w1 := (utc_now w).1).
  assert (Hrec : reconcile local_id session run w = (w1, inr moved)).
  { unfold reconcile. rewrite Hloc, String.eqb_refl. cbn [negb].
    replace (bool_decide (run_status run = preparing) && bool_decide (sess_status session = s_running)) with false
      by (repeat case_bool_decide; naive_solver).
    rewrite Herr. destruct (transition_run_cases run (SESSION_STATUS (sess_status session)) (Some error) w)
      as [(? & _)|[(_ & _ & E)|(_ & ? & _)]]; done. }
  assert (Hget : get_run id w = (w, inr run)) by (by apply get_inr).
  assert (Hup : update_run id (reconcile local_id session) w = save_run moved w1).
  { unfold update_run, mbind, eff_bind. rewrite Hget, Hrec.
    destruct (decide (moved = run)) as [E|_]; [|done]. exfalso. apply Hne. by rewrite <-Hms, E. }
  destruct (save_run moved w1) as [w' [e|r]] eqn:Es.
  { exfalso. unfold save_run in Es. apply bind_inl in Es as [Es|(w2 & now & Hn & Es)]; [done|].
    apply bind_inl in Es as [Es|(w3 & [] & _ & [=])]. rewrite save_eq in Es.
    change (doc_id (DRun _)) with (run_id moved) in Es. by rewrite Hmid, Hkey, Hpat in Es. }
  exists w', r. split.
  { unfold sync_session. by rewrite Hid, Htr, Hup. }
  assert (Hwf' : store_wf w').
  { pose proof (save_run_frame (R := keeps_wf) moved I w1) as Hk. rewrite Es in Hk. apply Hk.
    eapply store_wf_env; [apply utc_now_env|done]. }
  pose proof (save_run_stored _ _ _ _ Es) as [Hst _]. rewrite Hmid, Hkey in Hst.
  apply save_run_inr in Es as (-> & _ & _ & _).
  assert (Hbad : valid_run (moved <| run_updated_at := w_clock w1 (w_reads w1) |>) = false).
  { apply not_true_iff_false. unfold valid_run. intros Hb. repeat (apply andb_true_iff in Hb as [Hb ?]).
    match goal with Hx : max_len_opt LAST_ERROR_MAX _ = true |- _ => revert Hx end.
    change (max_len_opt LAST_ERROR_MAX (run_last_error moved) = true → False). rewrite Hme.
    unfold max_len_opt. intros Hx%Nat.leb_le. lia. }
  split.
  - unfold get_run. rewrite get_eq, Hpat. unfold stored in Hst.
    destruct (w_docs w' !! _) as [d|]; [|done]. cbn [mbind option_bind] in Hst. rewrite Hst.
    apply unwrap_inv in Hst as ->. change (doc_valid (wrap _)) with (valid_run (moved <| run_updated_at := w_clock w1 (w_reads w1) |>)).
    by rewrite Hbad.
  - intros x Hx Hxid. apply elem_of_readable in Hx as (id' & Hx & Hvx).
    destruct (stored_key _ _ _ _ Hwf' Hx) as [E _]. change (doc_id (wrap x)) with (run_id x) in E.
    assert (id' = id) as -> by congruence. rewrite Hst in Hx. injection Hx as <-.
    change (valid_run (moved <| run_updated_at := w_clock w1 (w_reads w1) |>) = true) in Hvx. congruence.
Qed.
End Sessions.
