(* ===== verification/ControlRuns.v ===== *)
(** * Leases, events and commands of Task Runs.

    The part of [ControlPlaneService] ([src/cowork/coding/control_service.py])
    that hands runs to computers under a lease, accepts the events a runtime
    reports, exchanges commands with it, and recovers or reassigns a run.  A run
    is fenced by its computer, its epoch and its lease: [require_fence]. *)
From stdpp Require Import base list gmap strings option.
From Stdlib Require Import ZArith Lia.
From S2P Require Import Prelude ControlModels ControlWorld RunState ControlStore Delegation Redaction RunRecovery ControlComputers ControlTasks.

Section Runs.
Context {PF : Platform} (local_id : string).

(** [_require_event_owner] and [_require_fence]. *)
Definition require_event_owner (run : TaskRun) (computer_id : string) (epoch : Z) : op () :=
  raise_if (negb (String.eqb (run_computer_id run) computer_id) || negb (run_epoch run =? epoch)%Z)
    (StaleRuntimeEvent "Task Run ownership changed").

Definition require_fence (run : TaskRun) (computer_id lease_id : string) (epoch : Z) : op () :=
  require_event_owner run computer_id epoch;;
  match run_lease_id run with
  | None => raise (StaleRuntimeEvent "Task Run ownership changed")
  | Some held =>
      raise_if (negb (truthy held)) (StaleRuntimeEvent "Task Run ownership changed");;
      raise_if (negb (String.eqb held lease_id)) (StaleRuntimeEvent "Task Run lease is stale");;
      match run_lease_expires_at run with
      | None => raise (StaleRuntimeEvent "Task Run lease expired")
      | Some expires =>
          now ← utc_now;
          raise_if (expires <? now)%Z (StaleRuntimeEvent "Task Run lease expired")
      end
  end.

(** [_expire_lease]. *)
Definition expire_lease (run : TaskRun) (now : Z) (mode : ResumeMode) : op TaskRun :=
  match run_lease_expires_at run with
  | None => mret run
  | Some expires =>
      if (now <=? expires)%Z then mret run
      else if negb (bool_decide (run_status run ∈ leased_statuses)) then mret run
      else
        transition_run
          (run <| run_lease_id := None |> <| run_lease_expires_at := None |>
               <| run_epoch := (run_epoch run + 1)%Z |>
               <| run_last_event_seq := 0%Z |> <| run_last_event_id := None |>
               <| run_checkpoint := [] |> <| run_workspace_resume_mode := mode |>
               <| run_recovery_count := (run_recovery_count run + 1)%Z |>)
          recovering (Some "The computer stopped responding. The task can be resumed safely.")
  end.

Definition expire_leases : op () :=
  now ← utc_now;
  l ← list_runs;
  for_each l (λ candidate,
    match run_lease_expires_at candidate with
    | None => mret ()
    | Some expires =>
        if (now <=? expires)%Z then mret ()
        else
          workspaces ← list_workspaces (Some (run_id candidate));
          let mode := if restorable workspaces then resume_restore else resume_prepare in
          update_run (run_id candidate) (λ run, expire_lease run now mode);; mret ()
    end).

Definition acquire_lease (computer_id : string) : op (option (TaskRun * string)) :=
  computer ← get_computer computer_id;
  raise_if (bool_decide (cmp_revoked_at computer ≠ None))
    (RuntimeAuthenticationError "This computer has been revoked");;
  expire_leases;;
  lease_id ← token_urlsafe;
  now ← utc_now;
  run ← claim_run computer_id lease_id (now + LEASE_DURATION)%Z;
  mret ((λ r, (r, lease_id)) <$> run).

(** [_apply_event]. *)
Definition error_message (payload : list (string * json)) : string :=
  let value :=
    match obj_get payload "message" with
    | Some m => if json_truthy m then m else
        match obj_get payload "detail" with
        | Some d => if json_truthy d then d else JStr "Runtime failed"
        | None => JStr "Runtime failed"
        end
    | None =>
        match obj_get payload "detail" with
        | Some d => if json_truthy d then d else JStr "Runtime failed"
        | None => JStr "Runtime failed"
        end
    end in
  str_take 4000 (redact_text (json_str value) []).

Definition apply_event (run : TaskRun) (event : RuntimeEvent) : op TaskRun :=
  match event_kind event with
  | ev_checkpoint =>
      mret (run <| run_checkpoint :=
        match sanitize (JObj (event_payload event)) with JObj fields => fields | _ => [] end |>)
  | ev_status =>
      match obj_get (event_payload event) "status" with
      | Some (JStr s) =>
          match RunStatus_of_string s with
          | Some status => transition_run run status None
          | None => raise (ValueError (String.append s " is not a valid RunStatus"))
          end
      | _ => mret run
      end
  | ev_turn_completed => transition_run run ready None
  | ev_error => transition_run run failed (Some (error_message (event_payload event)))
  | _ => mret run
  end.

(** The operation of [accept_event]; [apply] is the caller's further effect,
    run inside the same store operation. *)
Definition event_operation (event : RuntimeEvent) (apply : option (TaskRun → op TaskRun))
    (run : TaskRun) : op TaskRun :=
  if (event_seq event =? run_last_event_seq run)%Z
     && bool_decide (run_last_event_id run = Some (event_id event))
  then
    require_event_owner run (event_computer_id event) (event_epoch event);;
    mret run
  else
    require_fence run (event_computer_id event) (event_lease_id event) (event_epoch event);;
    now ← utc_now;
    let run := run <| run_lease_expires_at := Some (now + LEASE_DURATION)%Z |> in
    raise_if (event_seq event <=? run_last_event_seq run)%Z
      (StaleRuntimeEvent "Runtime event sequence is stale");;
    run ← apply_event run event;
    run ← match apply with Some f => f run | None => mret run end;
    mret (run <| run_last_event_seq := event_seq event |>
              <| run_last_event_id := Some (event_id event) |>).

Definition accept_event (event : RuntimeEvent) (apply : option (TaskRun → op TaskRun)) : op TaskRun :=
  raise_if (negb (String.eqb (event_protocol_version event) RUNTIME_PROTOCOL_VERSION))
    (StaleRuntimeEvent "Runtime protocol version is not supported");;
  update_run (event_run_id event) (event_operation event apply).

(** [queue_command]. *)
Definition queue_command (run_id kind : string) (payload : list (string * json))
    (idempotency_key : string) : op RuntimeCommand :=
  run ← get_run run_id;
  existing ←
    (if truthy idempotency_key then
       l ← list_commands (Some run_id);
       mret (head (base.filter
         (λ c, cmd_epoch c = run_epoch run ∧ cmd_idempotency_key c = idempotency_key) l))
     else mret None);
  match existing with
  | Some command => mret command
  | None =>
      uuid ← uuid4_hex;
      now ← utc_now;
      command ← construct (new_RuntimeCommand (String.append "command-" uuid) (ControlModels.run_id run)
        (run_epoch run) kind payload idempotency_key now);
      save_command command
  end.

(** [claim_commands]: the claimed commands are collected while the run stays
    as it is, so [update_run] writes nothing. *)
Definition claim_one (run : TaskRun) (now : Z) (command : RuntimeCommand) : op (option RuntimeCommand) :=
  if bool_decide (cmd_acked_at command ≠ None) || negb (cmd_epoch command =? run_epoch run)%Z then mret None
  else
    match cmd_claim_expires_at command with
    | Some expires =>
        if (now <? expires)%Z then mret None
        else
          saved ← save_command (command <| cmd_claimed_at := Some now |>
            <| cmd_claim_expires_at := Some (now + COMMAND_CLAIM_DURATION)%Z |>
            <| cmd_delivery_count := (cmd_delivery_count command + 1)%Z |>);
          mret (Some saved)
    | None =>
        saved ← save_command (command <| cmd_claimed_at := Some now |>
          <| cmd_claim_expires_at := Some (now + COMMAND_CLAIM_DURATION)%Z |>
          <| cmd_delivery_count := (cmd_delivery_count command + 1)%Z |>);
        mret (Some saved)
    end.

Definition claim_commands (run_id computer_id lease_id : string) (epoch : Z) : op (list RuntimeCommand) :=
  run ← get_run run_id;
  require_fence run computer_id lease_id epoch;;
  now ← utc_now;
  l ← list_commands (Some run_id);
  claimed ← map_each (claim_one run now) l;
  mret (omap id claimed).

(** Reading the command inside [acknowledge_command] and [wait_for_command]. *)
Definition command_of_run (run_id command_id stale_message : string) (run : TaskRun) : op RuntimeCommand :=
  command ← catch (get_command command_id)
    (λ e, if is_KeyError e then Some (raise (KeyError "Runtime command not found")) else None);
  raise_if (negb (String.eqb (cmd_run_id command) run_id)) (KeyError "Runtime command not found");;
  raise_if (negb (cmd_epoch command =? run_epoch run)%Z) (StaleRuntimeEvent stale_message);;
  mret command.

Definition acknowledge_command (run_id command_id computer_id lease_id : string) (epoch : Z)
    (result : option (list (string * json))) (error : option string) : op (RuntimeCommand * bool) :=
  run ← get_run run_id;
  require_fence run computer_id lease_id epoch;;
  command ← command_of_run run_id command_id "Runtime command belongs to a stale epoch" run;
  if decide (cmd_acked_at command = None) then
    now ← utc_now;
    let command := command <| cmd_acked_at := Some now |> <| cmd_claim_expires_at := None |>
                           <| cmd_result := result |> <| cmd_error := error |> in
    save_command command;;
    mret (command, true)
  else mret (command, false).

(** One turn of the loop of [wait_for_command]: [None] means sleep and look
    again; [expired] is whether the monotonic clock has reached the deadline. *)
Definition wait_poll (run_id command_id : string) (expired : bool) : op (option RuntimeCommand) :=
  run ← get_run run_id;
  command ← command_of_run run_id command_id "Runtime command belongs to a superseded execution" run;
  if decide (cmd_acked_at command = None) then
    raise_if expired (RuntimeError "The selected computer did not answer in time");;
    mret None
  else mret (Some command).

Definition recovery_plan (run_id : string) : op RecoveryPlan :=
  run ← get_run run_id;
  task ← get_task (run_task_id run);
  eligible ←
    match task_execution_project task with
    | Some project => eligible_computers local_id (Some project) all_scope (Some (task_engine_id task))
    | None => mret []
    end;
  let eligible := match task_repository_setup task with
                  | Some _ => base.filter (λ c, cmp_id c = run_computer_id run) eligible
                  | None => eligible
                  end in
  build_recovery_plan run eligible.

Definition recover_run (run_id : string) (computer_id : option string) (allow_recreate : bool) : op TaskRun :=
  run ← get_run run_id;
  computer ← get_computer (str_or computer_id (run_computer_id run));
  task ← get_task (run_task_id run);
  raise_if (bool_decide (task_repository_setup task ≠ None)
            && negb (String.eqb (cmp_id computer) (run_computer_id run)))
    (StateConflict "This task uses repository choices from its original computer. Resume it there");;
  apply_recovery (ControlModels.run_id run) computer allow_recreate.

Definition not_queued : exn :=
  StateConflict "Only queued Task Runs can be reassigned; recover a leased run instead".

Definition reassign_queued_run (run_id computer_id : string) : op TaskRun :=
  run ← get_run run_id;
  raise_if (negb (bool_decide (run_status run = queued))) not_queued;;
  task ← get_task (run_task_id run);
  raise_if (bool_decide (task_repository_setup task ≠ None)
            && negb (String.eqb computer_id (run_computer_id run)))
    (StateConflict "This task uses repository choices from its original computer. Run it there");;
  match task_execution_project task with
  | None => raise (NoEligibleComputer "This task includes resources that only exist on its original computer")
  | Some project =>
      eligible ← eligible_computers local_id (Some project) all_scope (Some (task_engine_id task));
      raise_if (negb (existsb (λ c, String.eqb (cmp_id c) computer_id) eligible))
        (NoEligibleComputer "That computer cannot access every resource selected for this task");;
      saved ← update_run (ControlModels.run_id run) (λ current,
        raise_if (negb (bool_decide (run_status current = queued))) not_queued;;
        mret (current <| run_computer_id := computer_id |>));
      l ← list_workspaces (Some (ControlModels.run_id run));
      for_each l (λ x, save_workspace (x <| ws_computer_id := computer_id |>);; mret ());;
      record_security_event "run.reassign" "completed" "user" (ControlModels.run_id run)
        (Some (ControlModels.run_id run)) (Some computer_id) (String.append "from=" (run_computer_id run));;
      mret saved
  end.
End Runs.

(** ** What the operations may write *)

Section RunFrames.
Context {PF : Platform} {R : relation World} `{!Frame R} (local_id : string).

Lemma require_event_owner_frame r c e : within R (require_event_owner r c e).
Proof. unfold require_event_owner. walk_frame. Qed.
#[local] Hint Resolve require_event_owner_frame : frame.
Lemma require_fence_frame r c l e : within R (require_fence r c l e).
Proof. unfold require_fence. walk_frame. Qed.
#[local] Hint Resolve require_fence_frame : frame.
Lemma expire_lease_frame r n m : within R (expire_lease r n m).
Proof. unfold expire_lease. walk_frame. Qed.
#[local] Hint Resolve expire_lease_frame : frame.
Lemma expire_leases_frame : may_write R runs → within R expire_leases.
Proof. unfold expire_leases. walk_frame. Qed.
#[local] Hint Resolve expire_leases_frame : frame.
Lemma acquire_lease_frame c : may_write R runs → within R (acquire_lease c).
Proof. unfold acquire_lease. walk_frame. Qed.
Lemma apply_event_frame r e : within R (apply_event r e).
Proof. unfold apply_event. walk_frame. Qed.
#[local] Hint Resolve apply_event_frame : frame.
Lemma event_operation_frame e (f : option (TaskRun → op TaskRun)) r :
  (∀ g x, f = Some g → within R (g x)) → within R (event_operation e f r).
Proof. intros Hf. unfold event_operation. walk_frame. Qed.
Lemma accept_event_frame e (f : option (TaskRun → op TaskRun)) :
  may_write R runs → (∀ g x, f = Some g → within R (g x)) → within R (accept_event e f).
Proof.
  intros Hr Hf. unfold accept_event. apply within_bind; [apply _|walk_frame|intros _].
  apply update_run_frame; [done|]. intros r. by apply event_operation_frame.
Qed.
Lemma queue_command_frame r k p i : may_write R commands → within R (queue_command r k p i).
Proof. unfold queue_command. walk_frame. Qed.
Lemma claim_one_frame r n c : may_write R commands → within R (claim_one r n c).
Proof. unfold claim_one. walk_frame. Qed.
#[local] Hint Resolve claim_one_frame : frame.
Lemma claim_commands_frame r c l e : may_write R commands → within R (claim_commands r c l e).
Proof. unfold claim_commands. walk_frame. Qed.
Lemma command_of_run_frame r c m x : within R (command_of_run r c m x).
Proof.
  unfold command_of_run. apply within_bind; [apply _| |walk_frame]. apply catch_key_frame; walk_frame.
Qed.
#[local] Hint Resolve command_of_run_frame : frame.
Lemma acknowledge_command_frame r c x l e s m :
  may_write R commands → within R (acknowledge_command r c x l e s m).
Proof. unfold acknowledge_command. walk_frame. Qed.
Lemma wait_poll_frame r c x : within R (wait_poll r c x).
Proof. unfold wait_poll. walk_frame. Qed.
Lemma recovery_plan_frame r : may_write R computers → within R (recovery_plan local_id r).
Proof. unfold recovery_plan, build_recovery_plan. walk_frame. Qed.
Lemma recover_run_frame r c a :
  may_write R runs → may_write R workspaces → within R (recover_run r c a).
Proof. unfold recover_run. walk_frame. Qed.
Lemma reassign_queued_run_frame r c :
  may_write R runs → may_write R workspaces → may_write R computers → may_write R audit →
  within R (reassign_queued_run local_id r c).
Proof. unfold reassign_queued_run. walk_frame. Qed.
End RunFrames.

#[export] Hint Resolve require_event_owner_frame require_fence_frame expire_lease_frame
  expire_leases_frame acquire_lease_frame apply_event_frame event_operation_frame accept_event_frame
  queue_command_frame claim_one_frame claim_commands_frame command_of_run_frame
  acknowledge_command_frame wait_poll_frame recovery_plan_frame recover_run_frame
  reassign_queued_run_frame : frame.

(** ** The fence *)

(** The specification of "this caller owns the run right now". *)
Record fenced (run : TaskRun) (computer_id lease_id : string) (epoch now : Z) : Prop := {
  fen_computer : run_computer_id run = computer_id;
  fen_epoch : run_epoch run = epoch;
  fen_lease : run_lease_id run = Some lease_id;
  fen_lease_set : truthy lease_id = true;
  fen_live : ∃ expires, run_lease_expires_at run = Some expires ∧ (now ≤ expires)%Z;
}.

Section Fence.
Context {PF : Platform}.

Lemma require_event_owner_spec run computer_id epoch w :
  (require_event_owner run computer_id epoch w = (w, inr ()) ∧
     run_computer_id run = computer_id ∧ run_epoch run = epoch) ∨
  (require_event_owner run computer_id epoch w = (w, inl (StaleRuntimeEvent "Task Run ownership changed")) ∧
     ¬ (run_computer_id run = computer_id ∧ run_epoch run = epoch)).
Proof.
  unfold require_event_owner.
  destruct (String.eqb_spec (run_computer_id run) computer_id), (Z.eqb_spec (run_epoch run) epoch);
    [left|right..]; split; try done; naive_solver.
Qed.

(** [_require_fence] decides [fenced] and raises [StaleRuntimeEvent] else. *)
Lemma require_fence_spec run computer_id lease_id epoch w :
  ∃ w', env_step w w' ∧
    ((require_fence run computer_id lease_id epoch w = (w', inr ()) ∧
        fenced run computer_id lease_id epoch (w_clock w (w_reads w))) ∨
     (∃ m, require_fence run computer_id lease_id epoch w = (w', inl (StaleRuntimeEvent m)) ∧
        ¬ fenced run computer_id lease_id epoch (w_clock w (w_reads w)))).
Proof.
  unfold require_fence, mbind, eff_bind.
  destruct (require_event_owner_spec run computer_id epoch w) as [(-> & Hc & He)|(-> & Hn)].
  2:{ exists w. split; [reflexivity|]. right. eexists. split; [reflexivity|]. intros []. by apply Hn. }
  destruct (run_lease_id run) as [held|] eqn:El.
  2:{ exists w. split; [reflexivity|]. right. eexists. split; [reflexivity|]. intros []. congruence. }
  destruct (truthy held) eqn:Et; cbn [negb]; rewrite ?raise_if_true, ?raise_if_false.
  2:{ exists w. split; [reflexivity|]. right. eexists. split; [reflexivity|]. intros []. congruence. }
  destruct (String.eqb_spec held lease_id) as [->|Hne]; cbn [negb]; rewrite ?raise_if_true, ?raise_if_false.
  2:{ exists w. split; [reflexivity|]. right. eexists. split; [reflexivity|]. intros []. congruence. }
  destruct (run_lease_expires_at run) as [expires|] eqn:Ex.
  2:{ exists w. split; [reflexivity|]. right. eexists. split; [reflexivity|].
      intros [_ _ _ _ (? & ? & _)]. congruence. }
  exists (utc_now w).1. split; [apply utc_now_env|]. cbn -[raise_if].
  destruct (Z.ltb_spec expires (w_clock w (w_reads w))); [right|left].
  - eexists. split; [reflexivity|]. intros [_ _ _ _ (x & Hx & ?)]. rewrite Ex in Hx. injection Hx as ->. lia.
  - split; [done|]. split; eauto.
Qed.

(** Applying an event moves the run but not its fence. *)
Lemma apply_event_inv run event w w' run' :
  apply_event run event w = (w', inr run') →
  env_step w w' ∧ run_id run' = run_id run ∧ run_task_id run' = run_task_id run ∧
  run_computer_id run' = run_computer_id run ∧ run_epoch run' = run_epoch run ∧
  run_recovery_count run' = run_recovery_count run.
Proof.
  assert (Ht : ∀ target error, transition_run run target error w = (w', inr run') →
    env_step w w' ∧ run_id run' = run_id run ∧ run_task_id run' = run_task_id run ∧
    run_computer_id run' = run_computer_id run ∧ run_epoch run' = run_epoch run ∧
    run_recovery_count run' = run_recovery_count run).
  { intros target error H. apply transition_run_inv in H as (?&_&?&?&?&?&_&_&?&_). done. }
  unfold apply_event. destruct (event_kind event); intros H;
    try (injection H as <- <-; split; [reflexivity|done]); eauto.
  destruct (obj_get _ _) as [[]|]; try (injection H as <- <-; split; [reflexivity|done]).
  destruct (RunStatus_of_string _); [eauto|done].
Qed.
End Fence.
