(* ===== verification/Fencing.v ===== *)
(** * Fencing: what the leases, epochs and sequence numbers guarantee.

    The theorems about runtime events and about whole histories of the control
    plane: an event takes effect only for the current owner of a run and at most
    once; an acknowledgement can be asked for again; and over any sequence of
    service operations the pair (epoch, last event sequence) of every run only
    moves forward, so an execution that lost its epoch never gets it back. *)
From stdpp Require Import base list gmap strings option relations.
From Stdlib Require Import ZArith Lia.
From S2P Require Import Prelude ControlModels ControlWorld RunState ControlStore StoreDeletion StoreJournal Delegation Redaction RunRecovery ControlComputers ControlTasks ControlRuns.

(** ** The order on runs *)

(** The same run, with its fence moved forward or left where it was. *)
Record run_le (r r' : TaskRun) : Prop := {
  rl_id : run_id r' = run_id r;
  rl_task : run_task_id r' = run_task_id r;
  rl_fence : (run_epoch r < run_epoch r')%Z ∨
    run_epoch r = run_epoch r' ∧ (run_last_event_seq r ≤ run_last_event_seq r')%Z;
}.

#[export] Instance run_le_preorder : PreOrder run_le.
Proof.
  split; [intros r; split; [done|done|right; split; [done|lia]]|].
  intros r1 r2 r3 [I1 T1 F1] [I2 T2 F2]. split; [congruence|congruence|lia].
Qed.

Definition runs_le (w w' : World) : Prop :=
  ∀ id r, stored TaskRun w id = Some r → ∃ r', stored TaskRun w' id = Some r' ∧ run_le r r'.

(** A well-formed store with no unfinished transaction. *)
Definition sound (w : World) : Prop := store_wf w ∧ disk_journal (w_disk w) = None.

(** From a sound store to a sound store whose runs have only moved forward. *)
Definition forward (w w' : World) : Prop := sound w → sound w' ∧ runs_le w w'.

(** From a sound store to a sound store with the same runs. *)
Definition same_runs (w w' : World) : Prop :=
  sound w → sound w' ∧ ∀ id, stored TaskRun w' id = stored TaskRun w id.

#[export] Instance forward_preorder : PreOrder forward.
Proof.
  split; [intros w Hw; split; [done|]; intros id r Hr; by exists r|].
  intros w1 w2 w3 H1 H2 Hw. destruct (H1 Hw) as [Hw2 L1]. destruct (H2 Hw2) as [Hw3 L2].
  split; [done|]. intros id r Hr. destruct (L1 id r Hr) as (r2 & Hr2 & ?).
  destruct (L2 id r2 Hr2) as (r3 & Hr3 & ?). exists r3. split; [done|by trans r2].
Qed.

#[export] Instance same_runs_preorder : PreOrder same_runs.
Proof.
  split; [intros w Hw; by split|].
  intros w1 w2 w3 H1 H2 Hw. destruct (H1 Hw) as [Hw2 L1]. destruct (H2 Hw2) as [Hw3 L2].
  split; [done|]. intros id. by rewrite L2, L1.
Qed.

Lemma same_runs_forward w w' : same_runs w w' → forward w w'.
Proof. intros H Hw. destruct (H Hw) as [Hw' Hs]. split; [done|]. intros id r Hr. exists r. by rewrite Hs. Qed.

Lemma within_same_runs_forward {A} (m : op A) : within same_runs m → within forward m.
Proof. intros H w. apply same_runs_forward, H. Qed.

(** Writes outside the [runs] collection keep the runs. *)
#[export] Instance same_runs_frame : Frame same_runs.
Proof.
  assert (Ht : ∀ {A} (m : op A) cs, within (touches cs) m → within keeps_wf m → runs ∉ cs → within same_runs m).
  { intros A m cs Ht Hk Hc w [Hw Hj]. split; [|intros id; by apply (touches_stored TaskRun cs)].
    split; [by apply Hk|]. destruct (Ht w) as [Hr _]. by rewrite (rs_journal _ _ Hr). }
  refine {| may_write c := c ≠ runs |}.
  - intros w w' He [Hw Hj]. split; [|intros id; by apply env_step_stored].
    split; [by eapply store_wf_env|]. by rewrite (es_disk _ _ He).
  - intros c d Hc Hd. apply (Ht _ _ [c]).
    + apply save_frame; [by left|done].
    + by apply save_frame.
    + intros <-%list_elem_of_singleton. done.
  - intros c id Hc. apply (Ht _ _ [c]).
    + apply delete_doc_frame. by left.
    + by apply delete_doc_frame.
    + intros <-%list_elem_of_singleton. done.
  - intros w v [[] Hj]. split; [split; [by split|done]|done].
  - intros w v [[] Hj]. split; [split; [by split|done]|done].
Defined.
#[export] Hint Extern 1 (may_write same_runs _) => discriminate : frame.
#[export] Hint Resolve same_runs_frame : frame.

(** ** Saving a run *)

Lemma save_run_forward x w :
  (∀ r, stored TaskRun w (run_id x) = Some r → run_le r x) → forward w (save_run x w).1.
Proof.
  intros Hle [Hw Hj]. split.
  { split; [by apply (save_run_frame (R := keeps_wf))|].
    pose proof (save_run_frame (R := touches [runs]) x) as Ht. specialize (Ht ltac:(by_touches) w) as [Hr _].
    by rewrite (rs_journal _ _ Hr). }
  intros id r Hr. destruct (save_run x w) as [w' [e|y]] eqn:Es; cbn.
  - unfold save_run in Es. apply bind_inl in Es as [[=]|(w1 & now & Hn & Es)].
    apply utc_now_inv in Hn as (He & _ & _).
    apply bind_inl in Es as [Es|(w2 & [] & _ & [=])]. rewrite save_eq in Es.
    destruct (id_pattern _); [done|]. injection Es as <- _. exists r.
    by rewrite (env_step_stored TaskRun _ _ _ He).
  - pose proof (save_run_stored _ _ _ _ Es) as [Hx Ho]. apply save_run_inr in Es as (-> & _ & _ & _).
    destruct (decide (id = run_id x)) as [->|Hne].
    + eexists. split; [exact Hx|]. destruct (Hle r Hr) as [Hi Ht Hf]. by split.
    + exists r. by rewrite Ho.
Qed.

(** [update_run] with an operation that leaves the stored runs alone and moves
    the run it is given forward. *)
Lemma update_run_forward id f :
  (∀ r, within same_runs (f r)) →
  (∀ r w w' r', f r w = (w', inr r') → run_le r r') →
  within forward (update_run id f).
Proof.
  intros Hf Hle w. unfold update_run, mbind, eff_bind.
  pose proof (get_env TaskRun id w) as Hge. change (get TaskRun) with get_run in Hge.
  destruct (get_run id w) as [w0 [e|before]] eqn:Eg; cbn in Hge; subst w0; [reflexivity|].
  apply get_inr in Eg as (_ & _ & Hs & _). specialize (Hf before w).
  destruct (f before w) as [w1 [e|after]] eqn:Ef; cbn in Hf; [by apply same_runs_forward|].
  apply Hle in Ef. destruct (decide (after = before)); [by apply same_runs_forward|].
  intros Hw. destruct (Hf Hw) as [Hw1 Hs1]. pose proof Hw as [Hwf _].
  assert (Hfw : forward w1 (save_run after w1).1).
  { apply save_run_forward. intros r Hr. destruct (stored_key _ _ _ _ Hwf Hs) as [Hid _].
    change (doc_id (wrap before)) with (run_id before) in Hid.
    rewrite Hs1, (rl_id _ _ Ef), Hid, Hs in Hr. by injection Hr as <-. }
  revert Hw. change (forward w (save_run after w1).1). trans w1; [by apply same_runs_forward|done].
Qed.

Lemma transition_run_le run target error w w' run' :
  transition_run run target error w = (w', inr run') → run_le run run'.
Proof.
  intros H. apply transition_run_inv in H as (_&_&?&?&_&?&?&_&_&_). split; [done|done|right; lia].
Qed.

Create HintDb forward.

Section ForwardOps.
Context {PF : Platform} (local_id : string).

Lemma set_run_status_forward r s e : within forward (set_run_status r s e).
Proof. apply update_run_forward; [intros ?; walk_frame|]. intros. by eapply transition_run_le. Qed.

Lemma sync_session_forward s : within forward (sync_session local_id s).
Proof.
  unfold sync_session. destruct (sess_run_id s) as [i|]; [|intros w; reflexivity].
  destruct (truthy i); [|intros w; reflexivity].
  apply update_run_forward; [intros ?; walk_frame|].
  intros r w w' r'. unfold reconcile. destruct (negb _); [intros [= _ <-]; reflexivity|].
  destruct (_ && _); [intros [= _ <-]; reflexivity|]. apply transition_run_le.
Qed.

Lemma expire_lease_le run now mode w w' run' :
  expire_lease run now mode w = (w', inr run') → run_le run run'.
Proof.
  unfold expire_lease. destruct (run_lease_expires_at run) as [t|]; [|by intros [= _ <-]].
  destruct (now <=? t)%Z; [by intros [= _ <-]|]. destruct (negb _); [by intros [= _ <-]|].
  set (r0 := update_field run_recovery_count _ _). intros H%transition_run_le.
  assert (H0 : run_le run r0) by (split; [done|done|left; cbn; lia]). by trans r0.
Qed.

Lemma expire_leases_forward : within forward expire_leases.
Proof.
  unfold expire_leases. apply within_bind; [apply _|apply within_same_runs_forward; walk_frame|intros now].
  apply within_bind; [apply _|apply within_same_runs_forward; walk_frame|intros l].
  apply within_for_each; [apply _|]. intros x. destruct (run_lease_expires_at x) as [t|]; [|intros w; reflexivity].
  destruct (now <=? t)%Z; [intros w; reflexivity|].
  apply within_bind; [apply _|apply within_same_runs_forward; walk_frame|intros ws].
  apply within_bind; [apply _| |intros _ w; reflexivity].
  apply update_run_forward; [intros ?; walk_frame|]. intros. by eapply expire_lease_le.
Qed.

Lemma claim_run_forward c l e : within forward (claim_run c l e).
Proof.
  intros w. unfold claim_run, mbind, eff_bind, list_runs, list_docs, gets. cbn iota beta.
  set (runs := base.filter _ _). destruct runs as [|first rest] eqn:Er; [reflexivity|].
  set (picked := min_by run_created_at first rest).
  set (r0 := update_field run_lease_expires_at _ _).
  assert (Hin : picked ∈ runs) by (rewrite Er; apply min_by_elem).
  pose proof (transition_run_frame (R := same_runs) r0 preparing None w) as Ht.
  destruct (transition_run r0 preparing None w) as [w1 [ex|r1]] eqn:Et; cbn in Ht;
    [by apply same_runs_forward|].
  apply transition_run_le in Et. intros Hw. destruct (Ht Hw) as [Hw1 Hs1]. pose proof Hw as [Hwf _].
  assert (Hp : stored TaskRun w (run_id picked) = Some picked).
  { unfold runs in Hin. apply list_elem_of_filter in Hin as [_ Hin].
    rewrite elem_of_sorted_desc, reorder_perm in Hin. apply elem_of_readable in Hin as (id & Hs & _).
    destruct (stored_key _ _ _ _ Hwf Hs) as [Hid _]. change (doc_id (wrap picked)) with (run_id picked) in Hid.
    by rewrite Hid. }
  assert (Hle : run_le picked r1).
  { trans r0; [split; [done|done|right; split; [done|cbn; lia]]|done]. }
  assert (Hfw : forward w1 (save_run r1 w1).1).
  { apply save_run_forward. intros r Hr. rewrite Hs1, (rl_id _ _ Hle), Hp in Hr. by injection Hr as <-. }
  destruct (save_run r1 w1) as [w2 [ex|y]] eqn:Es; cbn in *;
    revert Hw; change (forward w w2); (trans w1; [by apply same_runs_forward|done]).
Qed.

Lemma acquire_lease_forward c : within forward (acquire_lease c).
Proof.
  unfold acquire_lease. apply within_bind; [apply _|apply within_same_runs_forward; walk_frame|intros x].
  apply within_bind; [apply _|apply within_same_runs_forward; walk_frame|intros _].
  apply within_bind; [apply _|apply expire_leases_forward|intros _].
  apply within_bind; [apply _|apply within_same_runs_forward; walk_frame|intros t].
  apply within_bind; [apply _|apply within_same_runs_forward; walk_frame|intros now].
  apply within_bind; [apply _|apply claim_run_forward|intros r w; reflexivity].
Qed.

Lemma fence_le target allow run w w' run' : fence target allow run w = (w', inr run') → run_le run run'.
Proof. intros H%fence_inv. destruct H as (_&?&?&_&?&_). split; [done|done|left; lia]. Qed.

Lemma apply_recovery_forward id target allow : within forward (apply_recovery id target allow).
Proof.
  unfold apply_recovery. apply within_bind; [apply _|apply within_same_runs_forward; walk_frame|intros _].
  apply within_bind; [apply _| |intros saved; apply within_same_runs_forward; walk_frame].
  apply update_run_forward; [intros ?; walk_frame|]. intros. by eapply fence_le.
Qed.

Lemma recover_run_forward r c a : within forward (recover_run r c a).
Proof.
  unfold recover_run. apply within_bind; [apply _|apply within_same_runs_forward; walk_frame|intros x].
  apply within_bind; [apply _|apply within_same_runs_forward; walk_frame|intros y].
  apply within_bind; [apply _|apply within_same_runs_forward; walk_frame|intros z].
  apply within_bind; [apply _|apply within_same_runs_forward; walk_frame|intros _].
  apply apply_recovery_forward.
Qed.

Lemma reassign_queued_run_forward r c : within forward (reassign_queued_run local_id r c).
Proof.
  unfold reassign_queued_run. apply within_bind; [apply _|apply within_same_runs_forward; walk_frame|intros x].
  apply within_bind; [apply _|apply within_same_runs_forward; walk_frame|intros _].
  apply within_bind; [apply _|apply within_same_runs_forward; walk_frame|intros task].
  apply within_bind; [apply _|apply within_same_runs_forward; walk_frame|intros _].
  destruct (task_execution_project task); [|intros w; reflexivity].
  apply within_bind; [apply _|apply within_same_runs_forward; walk_frame|intros el].
  apply within_bind; [apply _|apply within_same_runs_forward; walk_frame|intros _].
  apply within_bind; [apply _| |intros saved; apply within_same_runs_forward; walk_frame].
  apply update_run_forward; [intros ?; walk_frame|].
  intros y w w' y' H. apply bind_inr in H as (w1 & [] & Hq & [= _ <-]). split; [done|done|right; split; [done|cbn; lia]].
Qed.
End ForwardOps.

(** ** Events *)

(** What [accept_event] relies on from the caller's effect: it leaves the runs
    in the store alone and does not touch the identity, ownership or sequence of
    the run it is shown, nor make it invalid. *)
Record benign (f : TaskRun → op TaskRun) : Prop := {
  benign_store : ∀ x, within same_runs (f x);
  benign_run : ∀ x w w' y, f x w = (w', inr y) →
    run_id y = run_id x ∧ run_task_id y = run_task_id x ∧ run_computer_id y = run_computer_id x ∧
    run_epoch y = run_epoch x ∧ (valid_run x = true → valid_run y = true);
}.

Definition benign_opt (f : option (TaskRun → op TaskRun)) : Prop :=
  match f with Some g => benign g | None => True end.

Lemma benign_opt_frame f : benign_opt f → ∀ g x, f = Some g → within same_runs (g x).
Proof. by intros H g x ->; apply H. Qed.

Section Events.
Context {PF : Platform}.

(** The operation on the run: an exact redelivery, or a new event of the
    owner. *)
Lemma event_operation_inr event f run w w' run' :
  benign_opt f → event_operation event f run w = (w', inr run') →
  (event_seq event = run_last_event_seq run ∧ run_last_event_id run = Some (event_id event) ∧
     run_computer_id run = event_computer_id event ∧ run_epoch run = event_epoch event ∧
     run' = run ∧ w' = w) ∨
  (fenced run (event_computer_id event) (event_lease_id event) (event_epoch event) (w_clock w (w_reads w)) ∧
     (run_last_event_seq run < event_seq event)%Z ∧
     run_id run' = run_id run ∧ run_task_id run' = run_task_id run ∧
     run_computer_id run' = run_computer_id run ∧ run_epoch run' = run_epoch run ∧
     run_last_event_seq run' = event_seq event ∧ run_last_event_id run' = Some (event_id event)).
Proof.
  intros Hb. unfold event_operation.
  destruct ((event_seq event =? run_last_event_seq run)%Z && _) eqn:Er.
  - apply andb_true_iff in Er as [Hs%Z.eqb_eq Hi%bool_decide_eq_true]. intros H.
    apply bind_inr in H as (w1 & [] & Ho & [= <- <-]). left.
    destruct (require_event_owner_spec run (event_computer_id event) (event_epoch event) w)
      as [(E & ? & ?)|(E & _)]; rewrite E in Ho; simplify_eq. done.
  - intros H. right. apply bind_inr in H as (w1 & [] & Hf & H).
    destruct (require_fence_spec run (event_computer_id event) (event_lease_id event) (event_epoch event) w)
      as (w1' & _ & [(E & Hfen)|(m & E & _)]); rewrite E in Hf; simplify_eq. split; [done|].
    apply bind_inr in H as (w2 & now & _ & H). apply bind_inr in H as (w3 & [] & Hseq & H).
    apply raise_if_inr in Hseq as [Hseq ->]. apply Z.leb_gt in Hseq. split; [exact Hseq|].
    apply bind_inr in H as (w4 & r1 & Ha & H). apply apply_event_inv in Ha as (_ & Hi & Ht & Hc & He & _).
    apply bind_inr in H as (w5 & r2 & Hg & [= <- <-]).
    assert (H2 : run_id r2 = run_id r1 ∧ run_task_id r2 = run_task_id r1 ∧
      run_computer_id r2 = run_computer_id r1 ∧ run_epoch r2 = run_epoch r1).
    { destruct f as [g|]; [|injection Hg as <- <-; done].
      apply (benign_run _ Hb) in Hg as (?&?&?&?&_). done. }
    destruct H2 as (Hi2 & Ht2 & Hc2 & He2).
    split_and!; [exact (eq_trans Hi2 Hi)|exact (eq_trans Ht2 Ht)|exact (eq_trans Hc2 Hc)|
                 exact (eq_trans He2 He)|done|done].
Qed.

Lemma accept_event_forward event f : benign_opt f → within forward (accept_event event f).
Proof.
  intros Hb. unfold accept_event.
  apply within_bind; [apply _|apply within_same_runs_forward; walk_frame|intros _].
  apply update_run_forward.
  - intros r. apply event_operation_frame. by apply benign_opt_frame.
  - intros r w w' r' H. apply event_operation_inr in H as [(_&_&_&_&->&_)|(_&Hl&Hi&Ht&_&He&Hs&_)]; [done| |done].
    split; [done|done|right; lia].
Qed.

Lemma accept_event_inr event f w w' run' :
  sound w → benign_opt f → accept_event event f w = (w', inr run') →
  ∃ run, stored TaskRun w (event_run_id event) = Some run ∧
  ((event_seq event = run_last_event_seq run ∧ run_last_event_id run = Some (event_id event) ∧
      run_computer_id run = event_computer_id event ∧ run_epoch run = event_epoch event ∧
      run' = run ∧ w' = w) ∨
   (fenced run (event_computer_id event) (event_lease_id event) (event_epoch event) (w_clock w (w_reads w)) ∧
      (run_last_event_seq run < event_seq event)%Z ∧
      stored TaskRun w' (event_run_id event) = Some run' ∧
      run_computer_id run' = run_computer_id run ∧ run_epoch run' = run_epoch run ∧
      run_last_event_seq run' = event_seq event ∧ run_last_event_id run' = Some (event_id event) ∧
      (∀ id, id ≠ event_run_id event → stored TaskRun w' id = stored TaskRun w id))).
Proof.
  intros Hsound Hb H. pose proof Hsound as [Hwf _]. unfold accept_event in H. apply bind_inr in H as (w1 & [] & Hp & H).
  apply raise_if_inr in Hp as [_ ->]. apply update_run_inr in H as (run & w1 & after & Hs & Hv & Hop & Hout).
  exists run. split; [done|].
  destruct (stored_key _ _ _ _ Hwf Hs) as [Hid _]. change (doc_id (wrap run)) with (run_id run) in Hid.
  pose proof (event_operation_frame (R := same_runs) event f run (benign_opt_frame _ Hb) w Hsound) as Hsame.
  rewrite Hop in Hsame. cbn in Hsame. destruct Hsame as [_ Hsame].
  pose proof (event_operation_inr _ _ _ _ _ _ Hb Hop) as
    [(Hq & Hl & Hc & He & -> & ->)|(Hfen & Hlt & Hi & Ht & Hc & He & Hq & Hl)].
  - left. destruct Hout as [(_ & -> & ->)|(Hne & _)]; [|done]. done.
  - right. destruct Hout as [(-> & _ & _)|(Hne & Hsave)]; [lia|].
    pose proof (save_run_stored _ _ _ _ Hsave) as [Hst Ho]. apply save_run_inr in Hsave as (-> & _ & _ & _).
    rewrite Hi, Hid in Hst, Ho. split_and!; try done. intros id Hne'. by rewrite Ho, Hsame.
Qed.

(** C7: an event takes effect only for the current owner of the run.  When
    [accept_event] returns, either the event is the last one applied, sent
    again by the computer that owns the run in that epoch, and nothing is
    written; or the caller holds the run's unexpired lease in the current
    epoch on the run's computer, the sequence number is higher than any
    applied in this epoch, and the saved run records the event and keeps its
    identity, owner and epoch. *)
Theorem accept_event_fenced event f w w' run' :
  sound w → benign_opt f → accept_event event f w = (w', inr run') →
  ∃ run, stored TaskRun w (event_run_id event) = Some run ∧
  ((event_seq event = run_last_event_seq run ∧ run_last_event_id run = Some (event_id event) ∧
      run_computer_id run = event_computer_id event ∧ run_epoch run = event_epoch event ∧
      run' = run ∧ w' = w) ∨
   (fenced run (event_computer_id event) (event_lease_id event) (event_epoch event) (w_clock w (w_reads w)) ∧
      (run_last_event_seq run < event_seq event)%Z ∧
      stored TaskRun w' (event_run_id event) = Some run' ∧
      run_computer_id run' = run_computer_id run ∧ run_epoch run' = run_epoch run ∧
      run_last_event_seq run' = event_seq event ∧ run_last_event_id run' = Some (event_id event) ∧
      (∀ id, id ≠ event_run_id event → stored TaskRun w' id = stored TaskRun w id))).
Proof. apply accept_event_inr. Qed.

Lemma valid_run_ext r r' :
  run_id r' = run_id r → run_task_id r' = run_task_id r → run_computer_id r' = run_computer_id r →
  run_epoch r' = run_epoch r → run_last_event_seq r' = run_last_event_seq r →
  run_last_event_id r' = run_last_event_id r → run_recovery_count r' = run_recovery_count r →
  max_len_opt LAST_ERROR_MAX (run_last_error r') = true → max_len_opt 128 (run_lease_id r') = true →
  valid_run r = true → valid_run r' = true.
Proof.
  intros Hid Ht Hc Hep Hs Hi Hr He Hl Hv. unfold valid_run in *.
  rewrite Hid, Ht, Hc, Hep, Hs, Hi, Hr, He, Hl. rewrite !andb_true_iff in *. tauto.
Qed.

Lemma transition_run_valid run target error w w' run' :
  transition_run run target error w = (w', inr run') →
  valid_run run = true → max_len_opt LAST_ERROR_MAX error = true → valid_run run' = true.
Proof.
  intros H Hv He. destruct (transition_run_cases run target error w) as [(_ & E)|[(_ & _ & E)|(_ & _ & E)]];
    rewrite E in H; simplify_eq; [done|].
  destruct (moved_run_frame run target error (w_clock w (w_reads w))) as (?&?&?&?&?&?&_&_&Hl&?).
  eapply valid_run_ext; try done; [by rewrite Hl|].
  unfold moved_run. repeat case_match; cbn [run_lease_id]; try done;
    unfold valid_run in Hv; rewrite !andb_true_iff in Hv; tauto.
Qed.

Lemma error_message_length p : String.length (error_message p) ≤ LAST_ERROR_MAX.
Proof. unfold error_message, LAST_ERROR_MAX. apply str_take_length. Qed.

Lemma apply_event_valid run event w w' run' :
  apply_event run event w = (w', inr run') → valid_run run = true → valid_run run' = true.
Proof.
  unfold apply_event. destruct (event_kind event); intros H Hv;
    try (injection H as <- <-; exact Hv).
  - destruct (obj_get _ _) as [[]|]; try (injection H as <- <-; exact Hv).
    destruct (RunStatus_of_string _); [|done]. by eapply transition_run_valid.
  - by eapply transition_run_valid.
  - eapply transition_run_valid; [exact H|done|]. cbn. apply Nat.leb_le, error_message_length.
Qed.

(** The bounds [RuntimeEvent] puts on an event's id and sequence. *)
Definition valid_event (event : RuntimeEvent) : bool :=
  max_len_opt 128 (Some (event_id event)) && (0 <=? event_seq event)%Z.

Lemma event_operation_valid event f run w w' run' :
  benign_opt f → valid_event event = true → valid_run run = true →
  event_operation event f run w = (w', inr run') → valid_run run' = true.
Proof.
  intros Hb Hev Hv. unfold event_operation. destruct (_ && _).
  { intros H. by apply bind_inr in H as (w1 & [] & _ & [= _ <-]). }
  intros H. apply bind_inr in H as (w1 & [] & _ & H). apply bind_inr in H as (w2 & now & _ & H).
  apply bind_inr in H as (w3 & [] & _ & H). apply bind_inr in H as (w4 & r1 & Ha & H).
  apply apply_event_valid in Ha; [|exact Hv]. apply bind_inr in H as (w5 & r2 & Hg & [= _ <-]).
  assert (Hv2 : valid_run r2 = true).
  { destruct f as [g|]; [|by injection Hg as _ <-]. apply (benign_run _ Hb) in Hg as (_&_&_&_&Hg). auto. }
  unfold valid_run in *. unfold valid_event in Hev. cbn -[len_ok max_len_opt LAST_ERROR_MAX id_pattern Z.leb].
  rewrite !andb_true_iff in *. tauto.
Qed.

(** A run that already records the event acknowledges it again. *)
Lemma accept_event_again event f run w :
  event_protocol_version event = RUNTIME_PROTOCOL_VERSION →
  store_wf w → stored TaskRun w (event_run_id event) = Some run → valid_run run = true →
  event_seq event = run_last_event_seq run → run_last_event_id run = Some (event_id event) →
  run_computer_id run = event_computer_id event → run_epoch run = event_epoch event →
  accept_event event f w = (w, inr run).
Proof.
  intros Hp Hwf Hs Hv Hq Hl Hc He. destruct (stored_key _ _ _ _ Hwf Hs) as [_ Hpat].
  unfold accept_event, mbind, eff_bind. rewrite Hp, String.eqb_refl. cbn [negb]. rewrite raise_if_false.
  unfold update_run, mbind, eff_bind.
  assert (Hg : get_run (event_run_id event) w = (w, inr run)) by (by apply get_inr). rewrite Hg.
  unfold event_operation. rewrite Hq, Z.eqb_refl, bool_decide_eq_true_2 by done. cbn [andb].
  unfold mbind, eff_bind.
  destruct (require_event_owner_spec run (event_computer_id event) (event_epoch event) w) as [(-> & _)|(_ & Hn)];
    [|by destruct Hn]. cbn. by destruct (decide (run = run)).
Qed.

(** An acknowledgement that was lost can be asked for again.  After
    [accept_event] has returned for an event, delivering exactly that event
    again, with whatever further effect attached, returns the same run and
    changes nothing: not even the event that ended the run and so cleared its
    lease is refused or applied twice. *)
Theorem accept_event_redelivery event f f' w w1 run :
  sound w → benign_opt f → valid_event event = true →
  accept_event event f w = (w1, inr run) →
  accept_event event f' w1 = (w1, inr run).
Proof.
  intros Hwf Hb Hev H.
  assert (Hwf1 : store_wf w1).
  { pose proof (accept_event_forward event f Hb w Hwf) as [[Hx _] _]. by rewrite H in Hx. }
  assert (Hp : event_protocol_version event = RUNTIME_PROTOCOL_VERSION).
  { pose proof H as H0. unfold accept_event in H0. apply bind_inr in H0 as (w2 & [] & Hp & _).
    apply raise_if_inr in Hp as [Hp _]. apply negb_false_iff in Hp. by apply String.eqb_eq. }
  pose proof (accept_event_inr _ _ _ _ _ Hwf Hb H) as (before & Hs & Hcase).
  pose proof H as H0. unfold accept_event in H0. apply bind_inr in H0 as (w2 & [] & Hr & H0).
  apply raise_if_inr in Hr as [_ ->]. apply update_run_inr in H0 as (b & w3 & after & Hs' & Hv & Hop & Hout).
  rewrite Hs in Hs'. injection Hs' as <-.
  pose proof (event_operation_valid _ _ _ _ _ _ Hb Hev Hv Hop) as Hva.
  destruct Hcase as [(Hq & Hl & Hc & He & -> & ->)|(Hfen & _ & Hst & Hc & He & Hq & Hl & _)].
  - by apply accept_event_again.
  - destruct Hfen as [Hfc Hfe _ _ _]. apply accept_event_again; try done; [|congruence..].
    destruct Hout as [(-> & -> & _)|(_ & Hsave)]; [done|].
    apply save_run_inr in Hsave as (-> & _). exact Hva.
Qed.
End Events.

(** ** New runs *)

Section NewRuns.
Context {PF : Platform} (local_id : string).

(** A bulk write only adds documents. *)
Lemma save_many_forward documents :
  Forall (λ cd, doc_collection cd.2 = cd.1) documents → within forward (save_many documents).
Proof.
  intros Hc w [Hw Hj]. pose proof (save_many_keeps documents Hc w Hw) as Hw'.
  destruct (save_many_cases documents w) as
    [(w' & E & Hok & Hnd & Hd & _)|(w' & e & E & _ & _ & Hsame & Hj' & _)]; rewrite E in *; cbn in *.
  - destruct (commit_docs documents (w_disk w) (w_uuid w (w_uuids w)) Hnd) as [Hdocs Hj'].
    split; [split; [done|by rewrite Hd]|]. intros id r Hr. exists r. split; [|done].
    unfold stored in *. unfold w_docs at 1. rewrite Hd, Hdocs. rewrite insert_all_lookup by done.
    destruct (list_find _ documents) as [[i cd]|] eqn:Ef; [|done].
    apply list_find_Some in Ef as (Hl & Hk & _). rewrite list.Forall_forall in Hok.
    destruct (Hok cd) as [_ Hnew]; [by eapply list_elem_of_lookup_2|]. rewrite Hk in Hnew.
    change (disk_docs (w_disk w)) with (w_docs w) in *. by rewrite Hnew in Hr.
  - split; [done|]. intros id r Hr. exists r. split; [|done]. unfold stored. by rewrite Hsame.
Qed.

Lemma create_task_run_forward t ti pr p rq c e st se :
  within forward (create_task_run local_id t ti pr p rq c e st se).
Proof.
  unfold create_task_run.
  do 5 (apply within_bind; [apply _|apply within_same_runs_forward; walk_frame|intros ?]).
  do 3 (apply within_bind; [apply _|apply within_same_runs_forward; walk_frame|intros ?]).
  do 3 (apply within_bind; [apply _|apply within_same_runs_forward; walk_frame|intros ?]).
  apply within_bind; [apply _| |intros [[] ]; intros w; reflexivity].
  unfold store_create_task_run. apply within_bind; [apply _| |intros _ w; reflexivity].
  apply save_many_forward. constructor; [done|]. constructor; [done|].
  match goal with |- Forall _ (map _ ?l) => induction l; cbn; by constructor end.
Qed.

(** Both remaining creators of runs save under an id that is not in use. *)
Lemma save_new_run_forward x w : stored TaskRun w (run_id x) = None → forward w (save_run x w).1.
Proof. intros H. apply save_run_forward. intros r Hr. congruence. Qed.

Lemma continue_task_forward t r w :
  w_docs w !! (runs, String.append "run-" (w_uuid w (w_uuids w))) = None →
  forward w (continue_task local_id t r w).1.
Proof.
  intros Hnew. unfold continue_task, mbind, eff_bind.
  pose proof (get_env TaskRun r w) as Hge. change (get TaskRun) with get_run in Hge.
  destruct (get_run r w) as [w0 [e|prev]]; cbn in Hge; subst w0; [reflexivity|].
  unfold raise_if at 1. destruct (negb _); [reflexivity|]. change ((mret () : op ()) w) with (w, @inr exn () ()).
  cbn iota beta.
  pose proof (get_env Computer (run_computer_id prev) w) as Hge. change (get Computer) with get_computer in Hge.
  destruct (get_computer _ w) as [w0 [e|c]]; cbn in Hge; subst w0; [reflexivity|].
  unfold raise_if at 1. destruct (negb _); [reflexivity|]. change ((mret () : op ()) w) with (w, @inr exn () ()).
  cbn iota beta. cbn [list_workspaces].
  pose proof (list_for_parent_state ExecutionWorkspace (run_id prev) w) as Hls.
  destruct (list_for_parent ExecutionWorkspace (run_id prev) w) as [w0 [e|ws]]; cbn in Hls; subst w0; [reflexivity|].
  destruct (uuid4_hex w) as [w1 r1] eqn:E1. apply uuid4_hex_inv in E1 as (H1 & -> & _). cbn iota beta.
  destruct (utc_now w1) as [w2 r2] eqn:E2. apply utc_now_inv in E2 as (H2 & -> & _). cbn iota beta.
  destruct (utc_now w2) as [w3 r3] eqn:E3. apply utc_now_inv in E3 as (H3 & -> & _). cbn iota beta.
  set (x := update_field run_recovery_count _ _).
  assert (He : env_step w w3) by (etrans; [exact H1|by etrans]).
  assert (Hid : run_id x = String.append "run-" (w_uuid w (w_uuids w))) by done.
  clearbody x. trans w3; [by apply same_runs_forward, frame_env|].
  unfold construct at 1. destruct (doc_valid (wrap x)); [|reflexivity].
  change ((mret x : op TaskRun) w3) with (w3, @inr exn TaskRun x). cbn iota beta.
  assert (Hfw : forward w3 (save_run x w3).1).
  { apply save_new_run_forward. unfold stored. change (collection_of TaskRun) with runs.
    by rewrite (env_step_docs _ _ He), Hid, Hnew. }
  destruct (save_run x w3) as [w4 [e|y]]; cbn in Hfw; [done|]. trans w4; [done|].
  match goal with |- forward w4 (fst (let (_, _) := for_each ws ?body w4 in _)) =>
    assert (Hloop : within same_runs (for_each ws body)) by walk_frame;
    specialize (Hloop w4); destruct (for_each ws body w4) as [w5 [e|[]]]
  end; by apply same_runs_forward.
Qed.

(** [get_run] that finds no document, then a save under that id. *)
Lemma create_missing_forward id (k : op TaskRun) w :
  (stored TaskRun w id = None → forward w (k w).1) →
  forward w (catch (get_run id) (λ e, if is_KeyError e then Some k else None) w).1.
Proof.
  intros Hk. unfold catch, get_run. rewrite get_eq.
  destruct (id_pattern id); [|reflexivity]. change (collection_of TaskRun) with runs.
  destruct (w_docs w !! (runs, id)) as [d|] eqn:Ed; cbn.
  - destruct d; try reflexivity. cbn. by destruct (valid_run _).
  - apply Hk. unfold stored. change (collection_of TaskRun) with runs. by rewrite Ed.
Qed.

Lemma migrate_session_forward s p : within forward (migrate_session local_id s p).
Proof.
  unfold migrate_session. apply within_bind; [apply _|apply within_same_runs_forward; walk_frame|intros scope].
  apply within_bind; [apply _|apply within_same_runs_forward, catch_key_frame; walk_frame|intros task].
  apply within_bind; [apply _| |intros run; apply within_same_runs_forward; walk_frame].
  intros w. apply create_missing_forward. intros Hnone. unfold mbind, eff_bind.
  destruct (utc_now w) as [w1 r1] eqn:E1. apply utc_now_inv in E1 as (H1 & -> & _). cbn iota beta.
  destruct (utc_now w1) as [w2 r2] eqn:E2. apply utc_now_inv in E2 as (H2 & -> & _). cbn iota beta.
  assert (He : env_step w w2) by by etrans.
  trans w2; [by apply same_runs_forward, frame_env|].
  set (x := update_field run_epoch _ _). unfold construct. destruct (doc_valid (wrap x)); [|reflexivity].
  apply save_new_run_forward. rewrite (env_step_stored TaskRun _ _ _ He). exact Hnone.
Qed.
End NewRuns.

(** ** Histories of the control plane *)

Section History.
Context {PF : Platform} (local_id : string).

(** One operation of the service or of the delegation service on the runs it
    keeps, whatever it returns.  A continued task gets a run id that is not in
    use.  Starting the service and deleting a task are added by [control_step]
    below. *)
Inductive service_step (w : World) : World → Prop :=
  | st_heartbeat c n : service_step w (heartbeat c n w).1
  | st_list_computers : service_step w (service_list_computers local_id w).1
  | st_rename c n : service_step w (rename_computer c n w).1
  | st_revoke_computer c : service_step w (revoke_computer c w).1
  | st_issue_registration : service_step w (issue_registration_token w).1
  | st_register t n c : service_step w (register_runtime t n c w).1
  | st_authenticate c t : service_step w (authenticate_runtime c t w).1
  | st_issue_run_token r : service_step w (issue_run_token r w).1
  | st_authenticate_run r c t : service_step w (authenticate_run_token r c t w).1
  | st_eligible p s e : service_step w (eligible_computers local_id p s e w).1
  | st_create t ti pr p rq c e st se : service_step w (create_task_run local_id t ti pr p rq c e st se w).1
  | st_refresh t p : service_step w (refresh_task_commands t p w).1
  | st_set_status r s e : service_step w (set_run_status r s e w).1
  | st_continue t r :
      w_docs w !! (runs, String.append "run-" (w_uuid w (w_uuids w))) = None →
      service_step w (continue_task local_id t r w).1
  | st_attach r l : service_step w (attach_prepared_workspaces r l w).1
  | st_release r : service_step w (release_workspaces r w).1
  | st_migrate s p : service_step w (migrate_session local_id s p w).1
  | st_sync s : service_step w (sync_session local_id s w).1
  | st_acquire c : service_step w (acquire_lease c w).1
  | st_event e f : benign_opt f → service_step w (accept_event e f w).1
  | st_queue r k p i : service_step w (queue_command r k p i w).1
  | st_claim r c l e : service_step w (claim_commands r c l e w).1
  | st_ack r c x l e s m : service_step w (acknowledge_command r c x l e s m w).1
  | st_wait r c x : service_step w (wait_poll r c x w).1
  | st_plan r : service_step w (recovery_plan local_id r w).1
  | st_recover r c a : service_step w (recover_run r c a w).1
  | st_reassign r c : service_step w (reassign_queued_run local_id r c w).1
  | st_expire_computers : service_step w (expire_stale_computers local_id w).1
  | st_expire_leases : service_step w (expire_leases w).1
  | st_issue_grant r p n a rc ttl : service_step w (issue r p n a rc ttl w).1
  | st_authorize g t a rc c : service_step w (authorize g t a rc c w).1
  | st_revoke_grants r : service_step w (revoke_for_run r w).1.

Lemma service_step_forward w w' : service_step w w' → forward w w'.
Proof.
  intros H.
  assert (Hs : ∀ {A} (m : op A), within same_runs m → forward w (m w).1)
    by (intros A m Hm; apply same_runs_forward, Hm).
  destruct H; try (apply Hs; solve [eauto 4 with frame]).
  - apply create_task_run_forward.
  - apply set_run_status_forward.
  - by apply continue_task_forward.
  - apply migrate_session_forward.
  - apply sync_session_forward.
  - apply acquire_lease_forward.
  - by apply accept_event_forward.
  - apply recover_run_forward.
  - apply reassign_queued_run_forward.
  - apply expire_leases_forward.
Qed.

Lemma history_forward w w' : rtc service_step w w' → forward w w'.
Proof. induction 1 as [w|w1 w2 w3 H1 _ IH]; [done|]. trans w2; [by apply service_step_forward|done]. Qed.

(** Deleting a task, from a sound store to a sound store: runs of other tasks
    stay as they are, runs of the task stay or go, none appears. *)
Definition only_removes (t : string) (w w' : World) : Prop :=
  sound w → sound w' ∧
  (∀ id r, stored TaskRun w id = Some r →
     stored TaskRun w' id = Some r ∨ stored TaskRun w' id = None ∧ run_task_id r = t) ∧
  (∀ id, stored TaskRun w id = None → stored TaskRun w' id = None).

#[export] Instance only_removes_preorder t : PreOrder (only_removes t).
Proof.
  split; [intros w Hw; split_and!; [done|by left|done]|].
  intros w1 w2 w3 H12 H23 Hw1. destruct (H12 Hw1) as (Hw2 & S12 & N12). destruct (H23 Hw2) as (Hw3 & S23 & N23).
  split_and!; [done| |by eauto]. intros id r Hr. destruct (S12 id r Hr) as [Hr2|[Hn Ht]]; [by apply S23|].
  right. split; [by apply N23|done].
Qed.

Lemma same_runs_removes t w w' : same_runs w w' → only_removes t w w'.
Proof. intros H Hw. destruct (H Hw) as [Hw' E]. split_and!; [done| |]; intros; rewrite E; [by left|done]. Qed.

Lemma delete_run_removes t rid w :
  (∀ r, stored TaskRun w rid = Some r → run_task_id r = t) → only_removes t w (delete_doc runs rid w).1.
Proof.
  intros Hrid [Hw Hj]. destruct (id_pattern rid) eqn:Hp.
  2: { unfold delete_doc, mbind, eff_bind. rewrite check_path_eq, Hp. split_and!; [by split|by left|done]. }
  pose proof (delete_doc_wf runs rid w Hw) as Hwf'.
  assert (Ht : within (touches [runs]) (delete_doc runs rid)) by (apply delete_doc_frame; by left).
  destruct (Ht w) as [Hr _]. clear Ht.
  destruct (delete_doc_docs runs rid w Hp) as (w' & E & Hd). rewrite E in *. cbn in *.
  assert (Hs : ∀ id, stored TaskRun w' id = if decide (id = rid) then None else stored TaskRun w id).
  { intros id. unfold stored. rewrite Hd. change (collection_of TaskRun) with runs. case_decide as Hid.
    - by rewrite Hid, lookup_delete_eq.
    - by rewrite lookup_delete_ne by congruence. }
  split_and!.
  - split; [done|]. by rewrite (rs_journal _ _ Hr).
  - intros id r Hr'. rewrite Hs. case_decide as Hid; [|by left]. subst id. right. split; [done|]. by apply Hrid.
  - intros id Hn. rewrite Hs. by case_decide.
Qed.

Lemma bind_removes {A B} t (m : op A) (k : A → op B) w :
  only_removes t w (m w).1 → (∀ w' x, m w = (w', inr x) → only_removes t w' (k x w').1) →
  only_removes t w ((m ≫= k) w).1.
Proof.
  intros Hm Hk. unfold mbind, eff_bind. destruct (m w) as [w1 [e|x]]; [done|]. cbn in Hm. trans w1; [done|by apply Hk].
Qed.

(** The runs a deletion may take, after a step that only removes runs. *)
Lemma of_task_removes t w w' rid :
  sound w → only_removes t w w' → (∀ r, stored TaskRun w rid = Some r → run_task_id r = t) →
  ∀ r, stored TaskRun w' rid = Some r → run_task_id r = t.
Proof.
  intros Hw H Hr r Hr'. destruct (H Hw) as (_ & S & N).
  destruct (stored TaskRun w rid) as [r0|] eqn:E; [|by rewrite N in Hr'].
  destruct (S rid r0 E) as [E'|[E' _]]; [|congruence]. rewrite E' in Hr'. injection Hr' as <-. by apply Hr.
Qed.

(** The loop over the runs of the task. *)
Lemma delete_runs_removes t rids w :
  sound w → (∀ rid r, rid ∈ rids → stored TaskRun w rid = Some r → run_task_id r = t) →
  only_removes t w (for_each rids (λ rid, delete_owned ExecutionWorkspace rid;; delete_owned ConnectorGrant rid;;
    delete_owned RuntimeCommand rid;; delete_owned TaskRunCredential rid;; delete_owned SecurityAuditEvent rid;;
    delete_doc runs rid) w).1.
Proof.
  revert w. induction rids as [|rid rids IH]; intros w Hw Hr; [reflexivity|].
  assert (Hbody : only_removes t w ((delete_owned ExecutionWorkspace rid;; delete_owned ConnectorGrant rid;;
    delete_owned RuntimeCommand rid;; delete_owned TaskRunCredential rid;; delete_owned SecurityAuditEvent rid;;
    delete_doc runs rid) w).1).
  { assert (H0 : ∀ r, stored TaskRun w rid = Some r → run_task_id r = t) by (intros r; apply Hr; set_solver).
    clear IH Hr. revert w Hw H0.
    assert (Hseq : ∀ {A} (m : op A) k, within same_runs m →
      (∀ w, sound w → (∀ r, stored TaskRun w rid = Some r → run_task_id r = t) → only_removes t w (k w : World * (exn + ())).1) →
      ∀ w, sound w → (∀ r, stored TaskRun w rid = Some r → run_task_id r = t) → only_removes t w ((m;; k) w).1).
    { intros A m k Hm Hk w Hw H0. pose proof (same_runs_removes t _ _ (Hm w)) as Hmr.
      apply bind_removes; [done|]. intros w' x E. rewrite E in Hmr. cbn in Hmr.
      apply Hk; [by apply Hmr|]. by apply (of_task_removes t w). }
    do 5 (apply Hseq; [unfold delete_owned; walk_frame; discriminate|]).
    intros w _ H0. by apply delete_run_removes. }
  cbn [for_each]. apply bind_removes; [exact Hbody|]. intros w' [] E. rewrite E in Hbody. cbn in Hbody.
  apply IH; [by apply Hbody|]. intros rid' r Hin. apply (of_task_removes t w); [done|done|].
  intros r'. apply Hr. set_solver.
Qed.

Lemma store_delete_task_removes t : within (only_removes t) (store_delete_task t).
Proof.
  intros w Hs. pose proof Hs as [Hwf _]. enough (only_removes t w (store_delete_task t w).1) by auto.
  unfold store_delete_task. pose proof (list_for_parent_state TaskRun t w) as Hst.
  apply bind_removes; [by rewrite Hst|]. intros w' owned El. rewrite El in Hst. cbn in Hst. subst w'.
  apply bind_removes; [apply delete_runs_removes; [done|]|].
  - intros rid r (x & -> & Hx)%list_elem_of_fmap Hr.
    destruct (list_for_parent_cases TaskRun t w Hwf) as [(l & El' & Hl & _)|[El' _]]; [set_solver| |congruence].
    assert (l = owned) as -> by congruence. rewrite Hl, list_elem_of_filter, elem_of_readable in Hx.
    destruct Hx as (Hp & id & Hid & _). destruct (stored_key _ _ _ _ Hwf Hid) as [Hk _].
    change (doc_id (wrap x)) with (run_id x) in Hk. subst id. rewrite Hid in Hr. injection Hr as <-.
    by apply (indexed_parent_run x t) in Hp as [? _].
  - intros w' _ _. apply same_runs_removes.
    assert (H : within same_runs (delete_doc tasks t)) by walk_frame. apply H.
Qed.

(** One operation of the control plane in its whole life: an operation of
    [service_step], the deletion of a task, a start of the service (which prunes
    protocol records and registers the computer), or a restart of the process,
    which opens the store again. *)
Inductive control_step (w : World) : World → Prop :=
  | cs_service w' : service_step w w' → control_step w w'
  | cs_delete r : control_step w (delete_task r w).1
  | cs_start hostname capabilities : control_step w (start_service hostname capabilities w).1
  | cs_restart : control_step w (open_store w).1.

Lemma start_service_same_runs h c : within same_runs (start_service h c).
Proof.
  assert (Hp : ∀ D (HD : Document D) f, collection_of D ≠ runs → within same_runs (prune_docs D f)).
  { intros D HD f Hc. unfold prune_docs. apply within_bind; [apply _|walk_frame|intros l].
    apply within_bind; [apply _|apply within_for_each; [apply _|]|intros _; walk_frame].
    intros x. by apply delete_doc_frame. }
  unfold start_service. apply within_bind; [apply _|walk_frame|intros now].
  apply within_bind; [apply _| |intros _; apply register_local_frame; discriminate].
  unfold prune. repeat (apply within_bind; [apply _|apply Hp; discriminate|intros ?]). walk_frame.
Qed.

Lemma open_store_same_runs w : same_runs w (open_store w).1.
Proof.
  intros [Hw Hj]. destruct (open_store_after_rollback w) as (w' & E & Hw' & Hd & Hj').
  { unfold recovered, recover_ops. rewrite Hj. exact (wf_key w Hw). }
  rewrite E. cbn. split; [done|]. intros id. unfold stored. rewrite Hd. unfold recovered, recover_ops. by rewrite Hj.
Qed.

(** What one step does to the runs that are there. *)
Lemma control_step_runs w w' :
  sound w → control_step w w' →
  sound w' ∧ ∀ id r, stored TaskRun w id = Some r →
    (∃ r', stored TaskRun w' id = Some r' ∧ run_le r r') ∨
    (∃ rid deleted, w' = (delete_task rid w).1 ∧ stored TaskRun w rid = Some deleted ∧
       run_task_id deleted = run_task_id r ∧ stored TaskRun w' id = None).
Proof.
  intros Hw H.
  assert (Hf : ∀ w', forward w w' → sound w' ∧ ∀ id r, stored TaskRun w id = Some r →
    (∃ r', stored TaskRun w' id = Some r' ∧ run_le r r') ∨
    (∃ rid deleted, w' = (delete_task rid w).1 ∧ stored TaskRun w rid = Some deleted ∧
       run_task_id deleted = run_task_id r ∧ stored TaskRun w' id = None)).
  { intros w'' Hf. destruct (Hf Hw) as [Hw'' Hle]. split; [done|]. intros id r Hr. left. by apply Hle. }
  destruct H as [w' H|rid|h c|].
  - by apply Hf, (service_step_forward).
  - unfold delete_task, mbind, eff_bind. pose proof (get_env TaskRun rid w) as Hge. change (get TaskRun) with get_run in Hge.
    destruct (get_run rid w) as [w0 [e|run]] eqn:Eg; cbn in Hge; subst w0; [by apply Hf|].
    pose proof Eg as Eg'. apply get_inr in Eg' as (_ & _ & Hs & _).
    destruct (store_delete_task_removes (run_task_id run) w Hw) as (Hw' & S & _). split; [done|].
    intros id r Hr. destruct (S id r Hr) as [E|[E Ht]]; [left; by exists r|right].
    exists rid, run. split_and!; [|done|done|done]. unfold delete_task, mbind, eff_bind. by rewrite Eg.
  - apply Hf, same_runs_forward, start_service_same_runs.
  - apply Hf, same_runs_forward, open_store_same_runs.
Qed.

(** C3: over any history of the control plane, restarts and deletions included,
    a run only moves forward for as long as it is there.  From a sound store the
    store stays sound, and each run stored at the start either is still there
    with the same task and an epoch and last event sequence that are
    lexicographically no smaller, or was removed on the way: in some state in
    between it was still there, no smaller, and [delete_task] was called for a
    run of its task and took it away. *)
Theorem run_fence_monotone w w' :
  sound w → rtc control_step w w' →
  sound w' ∧
  ∀ id r, stored TaskRun w id = Some r →
    (∃ r', stored TaskRun w' id = Some r' ∧ run_le r r') ∨
    (∃ wm rm rid deleted, rtc control_step w wm ∧ stored TaskRun wm id = Some rm ∧ run_le r rm ∧
       stored TaskRun wm rid = Some deleted ∧ run_task_id deleted = run_task_id r ∧
       stored TaskRun (delete_task rid wm).1 id = None ∧ rtc control_step (delete_task rid wm).1 w').
Proof.
  intros Hw H. induction H as [w|w1 w2 w3 H12 H23 IH].
  { split; [done|]. intros id r Hr. left. by exists r. }
  destruct (control_step_runs _ _ Hw H12) as [Hw2 Hruns]. destruct (IH Hw2) as [Hw3 Hrest]. split; [done|].
  intros id r Hr. destruct (Hruns id r Hr) as [(r2 & Hr2 & Hle)|(rid & x & -> & Hx & Ht & Hn)].
  - destruct (Hrest id r2 Hr2) as [(r3 & Hr3 & Hle3)|(wm & rm & rid & x & Hm & Hrm & Hlem & Hx & Ht & Hn & Hend)].
    + left. exists r3. split; [done|by trans r2].
    + right. exists wm, rm, rid, x. split_and!; [by eapply rtc_l|done|by trans r2|done| |done|done].
      by rewrite Ht, (rl_task _ _ Hle).
  - right. exists w1, r, rid, x. split_and!; [constructor|done|done|done|done|done|done].
Qed.

(** C1: an event is applied at most once.  Once an event has been accepted, in
    every later state of the control plane delivering it again either raises or
    is acknowledged without writing anything. *)
Theorem event_applied_at_most_once event f f' w w1 w2 run :
  sound w → benign_opt f → benign_opt f' → accept_event event f w = (w1, inr run) →
  rtc service_step w1 w2 →
  (∃ e, (accept_event event f' w2).2 = inl e) ∨
  (∃ run', accept_event event f' w2 = (w2, inr run')).
Proof.
  intros Hw Hb Hb' H Hh.
  pose proof (accept_event_forward event f Hb w Hw) as [Hw1 _]. rewrite H in Hw1. cbn in Hw1.
  destruct (history_forward _ _ Hh Hw1) as [Hw2 Hle].
  destruct (accept_event event f' w2) as [w3 [e|run']] eqn:E2; [left; by exists e|right].
  pose proof (accept_event_inr _ _ _ _ _ Hw2 Hb' E2) as (run2 & Hs2 & [(_&_&_&_&_&->)|(Hfen & Hlt & _)]);
    [by exists run'|]. exfalso.
  destruct (accept_event_inr _ _ _ _ _ Hw Hb H) as (run0 & Hs0 & Hcase).
  assert (H1 : stored TaskRun w1 (event_run_id event) = Some run ∧ run_epoch run = event_epoch event ∧
    run_last_event_seq run = event_seq event).
  { destruct Hcase as [(Hq & _ & _ & He & -> & ->)|(Hf & _ & Hst & _ & He & Hq & _)]; [done|].
    destruct Hf. split_and!; congruence. }
  destruct H1 as (Hs1 & He1 & Hq1). destruct (Hle _ _ Hs1) as (r2 & Hr2 & [_ _ Hf]).
  rewrite Hs2 in Hr2. injection Hr2 as <-. destruct Hfen as [_ He2 _ _ _]. lia.
Qed.

(** a superseded execution stays superseded.  Once a run has left an epoch,
    every event of that epoch is refused in every later state, whichever
    computer and lease it names. *)
Theorem stale_epoch_refused event f w w' run :
  sound w → stored TaskRun w (event_run_id event) = Some run →
  (event_epoch event < run_epoch run)%Z → benign_opt f →
  rtc service_step w w' →
  ∃ e, (accept_event event f w').2 = inl e.
Proof.
  intros Hw Hs Hlt Hb Hh. destruct (history_forward _ _ Hh Hw) as [Hw' Hle].
  destruct (Hle _ _ Hs) as (r' & Hr' & [_ _ Hf]).
  destruct (accept_event event f w') as [w3 [e|run']] eqn:E; [by exists e|].
  destruct (accept_event_inr _ _ _ _ _ Hw' Hb E) as (r2 & Hr2 & Hcase).
  rewrite Hr' in Hr2. injection Hr2 as <-.
  destruct Hcase as [(_ & _ & _ & He & _)|([_ He _ _ _] & _)]; lia.
Qed.
End History.
