(* ===== verification/RunContracts.v ===== *)
(** * What commands, acknowledgements and recovery promise.

    Theorems about [queue_command], [claim_commands], [acknowledge_command] and
    [recover_run] of [ControlPlaneService]: a command with an idempotency key is
    queued once, a claimed command is not handed out again while its claim
    lasts, the first acknowledgement of a command is the one that counts, and a
    recovery cuts off every credential of the execution it replaces. *)
From stdpp Require Import base list gmap strings option.
From Stdlib Require Import ZArith Lia.
From S2P Require Import Prelude ControlModels ControlWorld RunState ControlStore Delegation Redaction RunRecovery ControlComputers ControlTasks ControlRuns.

(** ** Saving a command *)

Lemma save_command_inr x w w' y :
  save_command x w = (w', inr y) →
  y = x ∧ w_docs w' = <[(commands, cmd_id x) := DCommand x]> (w_docs w) ∧ rest_step w w'.
Proof.
  unfold save_command. intros H. apply bind_inr in H as (w1 & [] & Hs & [= <- <-]).
  apply save_inr in Hs as (_ & Hd & Hr). done.
Qed.

Lemma save_command_stored x w w' y :
  save_command x w = (w', inr y) →
  stored RuntimeCommand w' (cmd_id x) = Some x ∧
  (∀ id, id ≠ cmd_id x → stored RuntimeCommand w' id = stored RuntimeCommand w id).
Proof.
  intros (_ & Hd & _)%save_command_inr. split.
  - exact (stored_insert_eq RuntimeCommand w w' x Hd).
  - intros id Hne. eapply (stored_insert_ne RuntimeCommand); [exact Hd|]. intros E. injection E. congruence.
Qed.

(** The command [id] is the same in both stores. *)
Definition same_command (id : string) (w w' : World) : Prop :=
  stored RuntimeCommand w' id = stored RuntimeCommand w id.

Section Acknowledge.
Context {PF : Platform}.

Lemma command_of_run_inr run_id command_id m run w w' c :
  command_of_run run_id command_id m run w = (w', inr c) →
  w' = w ∧ stored RuntimeCommand w command_id = Some c ∧ valid_command c = true ∧
  cmd_run_id c = run_id ∧ cmd_epoch c = run_epoch run.
Proof.
  unfold command_of_run. intros H. apply bind_inr in H as (w1 & x & Hg & H).
  apply get_unwrap_inr, get_inr in Hg as (-> & _ & Hs & Hv).
  apply bind_inr in H as (w2 & [] & Hr & H). apply raise_if_inr in Hr as [Hr ->].
  apply bind_inr in H as (w3 & [] & He & H). apply raise_if_inr in He as [He ->].
  injection H as <- <-. apply negb_false_iff, String.eqb_eq in Hr. apply negb_false_iff, Z.eqb_eq in He. done.
Qed.

(** What an acknowledgement read, and the command it left in the store. *)
Lemma acknowledge_command_inr run_id command_id computer_id lease_id epoch result error w w' c first :
  store_wf w →
  acknowledge_command run_id command_id computer_id lease_id epoch result error w = (w', inr (c, first)) →
  ∃ run before, stored TaskRun w run_id = Some run ∧
    fenced run computer_id lease_id epoch (w_clock w (w_reads w)) ∧
    stored RuntimeCommand w command_id = Some before ∧ cmd_run_id before = run_id ∧
    cmd_epoch before = epoch ∧ cmd_id before = command_id ∧
    stored RuntimeCommand w' command_id = Some c ∧ cmd_acked_at c ≠ None ∧
    (if first : bool then cmd_acked_at before = None ∧ cmd_result c = result ∧ cmd_error c = error ∧
       w_docs w' = <[(commands, command_id) := DCommand c]> (w_docs w)
     else c = before ∧ w_docs w' = w_docs w).
Proof.
  intros Hwf. unfold acknowledge_command. intros H. apply bind_inr in H as (w1 & run & Hg & H).
  apply get_inr in Hg as (-> & _ & Hrun & _). apply bind_inr in H as (w2 & [] & Hf & H).
  destruct (require_fence_spec run computer_id lease_id epoch w) as (w2' & He & [(E & Hfen)|(m & E & _)]);
    rewrite E in Hf; simplify_eq.
  apply bind_inr in H as (w3 & x & Hc & H). apply command_of_run_inr in Hc as (-> & Hx & Hv & Hr & Hep).
  rewrite (env_step_stored _ _ _ _ He) in Hx. exists run, x.
  destruct (stored_key _ _ _ _ Hwf Hx) as [Hid _]. change (doc_id (wrap x)) with (cmd_id x) in Hid.
  assert (Hepoch : cmd_epoch x = epoch) by (rewrite Hep; by destruct Hfen).
  destruct (decide (cmd_acked_at x = None)) as [Ha|Ha].
  - apply bind_inr in H as (w4 & now & Hn & H). apply utc_now_inv in Hn as (He2 & _ & _).
    apply bind_inr in H as (w5 & y & Hs & [= <- <- <-]).
    pose proof (save_command_stored _ _ _ _ Hs) as [Hst _]. apply save_command_inr in Hs as (_ & Hd & _).
    change (cmd_id (update_field cmd_error _ _)) with (cmd_id x) in Hst, Hd. rewrite Hid in Hst, Hd.
    rewrite (env_step_docs _ _ He2), (env_step_docs _ _ He) in Hd. split_and!; done.
  - injection H as <- <- <-. split_and!; try done; [by rewrite (env_step_stored _ _ _ _ He)|].
    by apply env_step_docs.
Qed.

(** The first acknowledgement of a command is the one that counts.  An
    acknowledgement is accepted only from the run's current owner for a command
    of its epoch; it reports "first" exactly when the command had none and then
    stores the given result; and any acknowledgement of the same command that
    follows while the command is left as it is reports "not first", returns the
    stored command and writes nothing. *)
Theorem acknowledge_command_once run_id command_id computer_id lease_id epoch result error w w1 c first :
  store_wf w →
  acknowledge_command run_id command_id computer_id lease_id epoch result error w = (w1, inr (c, first)) →
  (∃ run before, stored TaskRun w run_id = Some run ∧
     fenced run computer_id lease_id epoch (w_clock w (w_reads w)) ∧
     stored RuntimeCommand w command_id = Some before ∧ cmd_epoch before = epoch ∧
     (first = true ↔ cmd_acked_at before = None) ∧
     (first = true → cmd_result c = result ∧ cmd_error c = error)) ∧
  ∀ w2 computer' lease' epoch' result' error' w3 c' first',
    store_wf w2 → same_command command_id w1 w2 →
    acknowledge_command run_id command_id computer' lease' epoch' result' error' w2 = (w3, inr (c', first')) →
    c' = c ∧ first' = false ∧ w_docs w3 = w_docs w2.
Proof.
  intros Hwf H. destruct (acknowledge_command_inr _ _ _ _ _ _ _ _ _ _ _ Hwf H)
    as (run & before & Hrun & Hfen & Hb & _ & Hep & _ & Hst & Hacked & Hcase). split.
  - exists run, before. destruct first; [destruct Hcase as (? & ? & ? & _)|destruct Hcase as [-> _]];
      split_and!; try done.
  - intros w2 computer' lease' epoch' result' error' w3 c' first' Hwf2 Hsame H2. unfold same_command in Hsame.
    destruct (acknowledge_command_inr _ _ _ _ _ _ _ _ _ _ _ Hwf2 H2)
      as (run2 & b2 & _ & _ & Hb2 & _ & _ & _ & _ & _ & Hcase2).
    rewrite Hsame, Hst in Hb2. injection Hb2 as <-.
    destruct first'; [by destruct Hcase2 as [? _]|]. by destruct Hcase2 as [-> ->].
Qed.
End Acknowledge.

(** ** Claims *)

Section Claims.
Context {PF : Platform}.

Lemma claim_one_inr run now c w w' o :
  claim_one run now c w = (w', inr o) →
  match o with
  | None => w' = w
  | Some saved => cmd_acked_at c = None ∧ cmd_epoch c = run_epoch run ∧
      (∀ t, cmd_claim_expires_at c = Some t → (t ≤ now)%Z) ∧
      saved = c <| cmd_claimed_at := Some now |>
                <| cmd_claim_expires_at := Some (now + COMMAND_CLAIM_DURATION)%Z |>
                <| cmd_delivery_count := (cmd_delivery_count c + 1)%Z |> ∧
      stored RuntimeCommand w' (cmd_id c) = Some saved ∧
      (∀ id, id ≠ cmd_id c → stored RuntimeCommand w' id = stored RuntimeCommand w id)
  end.
Proof.
  unfold claim_one. destruct (_ || _) eqn:E; [by intros [= <- <-]|].
  apply orb_false_iff in E as [Ha He]. apply negb_false_iff, Z.eqb_eq in He.
  assert (Hacked : cmd_acked_at c = None) by (case_bool_decide as Hb; [done|]; by destruct (cmd_acked_at c)).
  set (saved := update_field cmd_delivery_count _ _).
  assert (Hsave : (x ← save_command saved; mret (Some x)) w = (w', inr o) →
    o = Some saved ∧ stored RuntimeCommand w' (cmd_id c) = Some saved ∧
    (∀ id, id ≠ cmd_id c → stored RuntimeCommand w' id = stored RuntimeCommand w id)).
  { intros H. apply bind_inr in H as (w1 & x & Hs & [= <- <-]).
    pose proof (save_command_stored _ _ _ _ Hs) as [? ?]. apply save_command_inr in Hs as (-> & _). done. }
  destruct (cmd_claim_expires_at c) as [t|] eqn:Et.
  - destruct (Z.ltb_spec now t); [by intros [= <- <-]|]. intros (-> & ? & ?)%Hsave.
    split_and!; try done. by intros ? [= ->].
  - intros (-> & ? & ?)%Hsave. by split_and!.
Qed.

(** The loop over commands with distinct ids: what was claimed is what is
    stored, and claimed. *)
Lemma claim_loop run now l w w' os :
  NoDup (map cmd_id l) → map_each (claim_one run now) l w = (w', inr os) →
  (∀ saved, Some saved ∈ os → ∃ c, c ∈ l ∧ cmd_acked_at c = None ∧ cmd_epoch c = run_epoch run ∧
     (∀ t, cmd_claim_expires_at c = Some t → (t ≤ now)%Z) ∧
     saved = c <| cmd_claimed_at := Some now |>
               <| cmd_claim_expires_at := Some (now + COMMAND_CLAIM_DURATION)%Z |>
               <| cmd_delivery_count := (cmd_delivery_count c + 1)%Z |> ∧
     stored RuntimeCommand w' (cmd_id c) = Some saved) ∧
  (∀ id, id ∉ map cmd_id l → stored RuntimeCommand w' id = stored RuntimeCommand w id).
Proof.
  revert w os. induction l as [|c l IH]; intros w os Hnd H; cbn [map_each] in H.
  { injection H as <- <-. split; [intros s Hs; by apply not_elem_of_nil in Hs|done]. }
  cbn in Hnd. apply list.NoDup_cons in Hnd as [Hni Hnd].
  apply bind_inr in H as (w1 & o & Ho & H). apply bind_inr in H as (w2 & rest & Hrest & [= <- <-]).
  apply claim_one_inr in Ho. destruct (IH _ _ Hnd Hrest) as [HA HB]. split.
  - intros saved [<-|Hin]%elem_of_cons.
    + destruct Ho as (Ha & He & Hx & Hs & Hst & _). exists c. split; [left|]. split_and!; try done.
      by rewrite HB.
    + destruct (HA _ Hin) as (c' & Hc' & ?). exists c'. split; [by right|done].
  - intros id Hid. apply not_elem_of_cons in Hid as [Hne Hid]. rewrite HB by done.
    destruct o as [s|]; [destruct Ho as (_&_&_&_&_&Ho); by apply Ho|by subst].
Qed.

(** What a claim returned. *)
Lemma claim_commands_inr run_id computer_id lease_id epoch w w' res x :
  store_wf w → claim_commands run_id computer_id lease_id epoch w = (w', inr res) → x ∈ res →
  ∃ now c, stored RuntimeCommand w (cmd_id c) = Some c ∧ cmd_acked_at c = None ∧ cmd_epoch c = epoch ∧
    (∀ t, cmd_claim_expires_at c = Some t → (t ≤ now)%Z) ∧
    x = c <| cmd_claimed_at := Some now |>
          <| cmd_claim_expires_at := Some (now + COMMAND_CLAIM_DURATION)%Z |>
          <| cmd_delivery_count := (cmd_delivery_count c + 1)%Z |> ∧
    stored RuntimeCommand w' (cmd_id c) = Some x.
Proof.
  intros Hwf. unfold claim_commands. intros H Hx. apply bind_inr in H as (w1 & run & Hg & H).
  apply get_inr in Hg as (-> & _ & _ & _). apply bind_inr in H as (w2 & [] & Hf & H).
  destruct (require_fence_spec run computer_id lease_id epoch w) as (w2' & He & [(E & Hfen)|(m & E & _)]);
    rewrite E in Hf; simplify_eq. destruct Hfen as [_ Hep _ _ _].
  apply bind_inr in H as (w3 & now & Hn & H). apply utc_now_inv in Hn as (He2 & _ & _).
  assert (He3 : env_step w w3) by (by etrans). apply bind_inr in H as (w4 & l & Hl & H).
  apply bind_inr in H as (w5 & os & Hm & [= <- <-]).
  pose proof (list_for_parent_state RuntimeCommand run_id w3) as Hw4. cbn [list_commands] in Hl.
  rewrite Hl in Hw4. cbn in Hw4. subst w4.
  assert (Hwf3 : store_wf w3) by (by eapply store_wf_env).
  pose proof (list_for_parent_NoDup RuntimeCommand _ _ _ _ Hwf3 Hl) as Hnd.
  destruct (claim_loop _ _ _ _ _ _ Hnd Hm) as [Hall _].
  apply list_elem_of_omap in Hx as (o & Ho & Eo). cbn in Eo. subst o.
  destruct (Hall _ Ho) as (c & Hc & Ha & Hce & Hexp & -> & Hst). exists now, c.
  destruct (list_for_parent_elem RuntimeCommand _ _ _ _ _ Hl Hc) as (id & Hs & _).
  rewrite (env_step_stored _ _ _ _ He3) in Hs. destruct (stored_key _ _ _ _ Hwf Hs) as [Hid _].
  change (doc_id (wrap c)) with (cmd_id c) in Hid. subst id. split_and!; try done. congruence.
Qed.

(** A claimed command is not handed out twice while its claim lasts.  When a
    claim returned a command and the command is still as that claim left it,
    another claim (by whichever caller passes the fence) returns it again only
    once the claim duration has passed since the first, and then counts one
    more delivery. *)
Theorem claim_exclusive run_id computer_id lease_id epoch w w1 first
    w2 computer' lease' epoch' w3 second x y :
  store_wf w → claim_commands run_id computer_id lease_id epoch w = (w1, inr first) → x ∈ first →
  store_wf w2 → same_command (cmd_id x) w1 w2 →
  claim_commands run_id computer' lease' epoch' w2 = (w3, inr second) → y ∈ second → cmd_id y = cmd_id x →
  ∃ t1 t2, cmd_claimed_at x = Some t1 ∧ cmd_claimed_at y = Some t2 ∧
    (t1 + COMMAND_CLAIM_DURATION ≤ t2)%Z ∧ cmd_delivery_count y = (cmd_delivery_count x + 1)%Z.
Proof.
  intros Hw H1 Hx Hw2 Hsame H2 Hy Hid. unfold same_command in Hsame.
  destruct (claim_commands_inr _ _ _ _ _ _ _ _ Hw H1 Hx) as (t1 & c & _ & _ & _ & _ & Ex & Hst).
  destruct (claim_commands_inr _ _ _ _ _ _ _ _ Hw2 H2 Hy) as (t2 & d & Hd & _ & _ & Hexp & Ey & _).
  assert (Hcx : cmd_id x = cmd_id c) by (by subst x). assert (Hdy : cmd_id y = cmd_id d) by (by subst y).
  assert (d = x) as ->.
  { rewrite <-Hdy, Hid, Hsame, Hcx, Hst in Hd. congruence. }
  exists t1, t2. split_and!; [by subst x|by subst y| |by subst y].
  apply Hexp. by subst x.
Qed.
End Claims.


(** ** Queueing *)

(** No two commands of a run and epoch carry the same idempotency key. *)
Definition keys_unique (w : World) : Prop :=
  ∀ i j c d, stored RuntimeCommand w i = Some c → stored RuntimeCommand w j = Some d →
    cmd_run_id c = cmd_run_id d → cmd_epoch c = cmd_epoch d →
    cmd_idempotency_key c = cmd_idempotency_key d → truthy (cmd_idempotency_key c) = true → i = j.

Definition commands_valid (w : World) : Prop :=
  ∀ id c, stored RuntimeCommand w id = Some c → valid_command c = true.

Section Queue.
Context {PF : Platform}.

Definition keyed (run : TaskRun) (key : string) (c : RuntimeCommand) : Prop :=
  cmd_epoch c = run_epoch run ∧ cmd_idempotency_key c = key.

(** The lookup of an earlier command with the key. *)
Lemma keyed_lookup run key w :
  truthy (run_id run) = true → store_wf w → commands_valid w →
  ∃ l, list_commands (Some (run_id run)) w = (w, inr l) ∧
    ∀ c, c ∈ base.filter (λ c, cmd_epoch c = run_epoch run ∧ cmd_idempotency_key c = key) l ↔
      stored RuntimeCommand w (cmd_id c) = Some c ∧ cmd_run_id c = run_id run ∧ keyed run key c.
Proof.
  intros Htr Hwf Hv. destruct (list_for_parent_eq RuntimeCommand (run_id run) w Hwf) as (l & El & Hp & _).
  { unfold indexed. cbn. set_solver. }
  { exact Hv. }
  exists l. split; [exact El|]. intros c. rewrite list_elem_of_filter, Hp, list_elem_of_filter, elem_of_readable.
  assert (indexed_parent (collection_of RuntimeCommand) (wrap c) =
    if truthy (cmd_run_id c) then Some (cmd_run_id c) else None) as ->.
  { change (indexed_parent (collection_of RuntimeCommand) (wrap c)) with
      (match (if truthy (cmd_run_id c) then Some (cmd_run_id c) else None) with
       | Some p => if truthy p then Some p else None | None => None end).
    destruct (truthy (cmd_run_id c)) eqn:E; [by rewrite E|done]. }
  split.
  - intros (Hk & Hr & id & Hs & _). destruct (truthy (cmd_run_id c)); [|done]. injection Hr as Hr. destruct (stored_key _ _ _ _ Hwf Hs) as [E _].
    change (doc_id (wrap c)) with (cmd_id c) in E. by subst id.
  - intros (Hs & Hr & Hk). split; [done|]. rewrite Hr, Htr. split; [done|]. exists (cmd_id c). split; [done|].
    exact (Hv _ _ Hs).
Qed.

(** a command with an idempotency key is queued once per execution.  From a
    store in which the keys are unique, [queue_command] with a key keeps them
    unique, returns a stored command of the run's current epoch with that key,
    and asking again (with whatever kind and payload) returns the same command
    and changes nothing. *)
Theorem queue_command_idempotent rid kind payload key w w1 c :
  store_wf w → commands_valid w → keys_unique w → truthy key = true →
  queue_command rid kind payload key w = (w1, inr c) →
  commands_valid w1 ∧ keys_unique w1 ∧
  stored RuntimeCommand w1 (cmd_id c) = Some c ∧ cmd_run_id c = rid ∧ cmd_idempotency_key c = key ∧
  (∃ run, stored TaskRun w1 rid = Some run ∧ cmd_epoch c = run_epoch run) ∧
  ∀ kind' payload', queue_command rid kind' payload' key w1 = (w1, inr c).
Proof.
  intros Hwf Hv Hu Hk H. unfold queue_command in H. apply bind_inr in H as (w0 & run & Hg & H).
  apply get_inr in Hg as (-> & Hpat & Hrun & Hvr).
  destruct (stored_key _ _ _ _ Hwf Hrun) as [Hid _]. change (doc_id (wrap run)) with (run_id run) in Hid.
  assert (Htr : truthy (run_id run) = true)
    by (rewrite Hid; unfold id_pattern in Hpat; by apply andb_true_iff in Hpat as [? _]).
  destruct (keyed_lookup run key w Htr Hwf Hv) as (l & El & Hl). rewrite Hk in H.
  apply bind_inr in H as (w2 & existing & He & H). rewrite <-Hid in He.
  apply bind_inr in He as (w3 & l' & El' & [= <- <-]). rewrite El in El'. injection El' as <- <-.
  (* a second call on a store where [c] is the only command with the key *)
  assert (Hagain : ∀ wx, store_wf wx → commands_valid wx → keys_unique wx →
    stored TaskRun wx rid = Some run → stored RuntimeCommand wx (cmd_id c) = Some c →
    cmd_run_id c = rid → keyed run key c →
    ∀ kind' payload', queue_command rid kind' payload' key wx = (wx, inr c)).
  { intros wx Hwx Hvx Hux Hrx Hcx Hcr Hck kind' payload'. unfold queue_command, mbind, eff_bind.
    assert (Hg : get_run rid wx = (wx, inr run)) by (by apply get_inr). rewrite Hg, Hk.
    destruct (keyed_lookup run key wx Htr Hwx Hvx) as (lx & Ex & Hlx). rewrite <-Hid at 1. rewrite Ex.
    set (hits := base.filter _ lx) in *. cbn.
    assert (Hc : c ∈ hits) by (apply Hlx; split_and!; [done|congruence|done]).
    destruct hits as [|d hits]; [by apply not_elem_of_nil in Hc|]. cbn. change ((wx, inr d) = (wx, inr (A := exn) c)). f_equal. f_equal.
    destruct (proj1 (Hlx d) ltac:(left)) as (Hd & Hdr & Hde & Hdk). destruct Hck as [Hce Hck'].
    assert (cmd_id d = cmd_id c) as E by (eapply (Hux _ _ d c); congruence). congruence. }
  destruct (head _) as [d|] eqn:Eh.
  - injection H as <- <-. apply head_Some_elem_of, Hl in Eh as (Hd & Hdr & Hdk).
    pose proof Hdk as [Hde Hdk']. split_and!; try done; [congruence|by exists run|].
    apply Hagain; try done. congruence.
  - apply bind_inr in H as (w4 & u & Hu4 & H). apply uuid4_hex_inv in Hu4 as (He1 & _ & _).
    apply bind_inr in H as (w5 & now & Hn & H). apply utc_now_inv in Hn as (He2 & _ & _).
    assert (He : env_step w w5) by (by etrans).
    apply bind_inr in H as (w6 & x & Hx & H). apply construct_inr in Hx as (-> & -> & Hvx).
    set (x := new_RuntimeCommand _ _ _ _ _ _ _) in *.
    assert (Hxr : cmd_run_id x = run_id run ∧ cmd_epoch x = run_epoch run ∧ cmd_idempotency_key x = key) by done.
    clearbody x. destruct Hxr as (Hxr & Hxe & Hxk).
    assert (Hwf1 : store_wf w1).
    { pose proof (save_command_frame (R := keeps_wf) x I w5) as Hs. rewrite H in Hs. apply Hs.
      by eapply store_wf_env. }
    assert (Hrun1 : stored TaskRun w1 rid = Some run).
    { apply save_command_inr in H as (_ & Hd & _).
      rewrite <-Hrun, <-(env_step_stored TaskRun _ _ rid He). by eapply (stored_insert_ne TaskRun); [exact Hd|]. }
    pose proof (save_command_stored _ _ _ _ H) as [Hst Hoth]. apply save_command_inr in H as (-> & _).
    assert (Hold : ∀ i d, i ≠ cmd_id x → stored RuntimeCommand w1 i = Some d → stored RuntimeCommand w i = Some d)
      by (intros i d Hne; rewrite Hoth, (env_step_stored _ _ _ _ He) by done; done).
    assert (Hnone : ∀ i d, stored RuntimeCommand w i = Some d → cmd_run_id d = run_id run →
      ¬ keyed run key d).
    { intros i d Hd Hdr Hdk. destruct (stored_key _ _ _ _ Hwf Hd) as [E _].
      change (doc_id (wrap d)) with (cmd_id d) in E. subst i.
      assert (Hin : d ∈ base.filter (λ c, cmd_epoch c = run_epoch run ∧ cmd_idempotency_key c = key) l)
        by (by apply Hl). destruct (base.filter _ l); [by apply not_elem_of_nil in Hin|done]. }
    assert (Hv1 : commands_valid w1).
    { intros i d Hd. destruct (decide (i = cmd_id x)) as [->|Hne]; [|by eapply Hv, Hold].
      rewrite Hst in Hd. injection Hd as <-. exact Hvx. }
    assert (Hu1 : keys_unique w1).
    { intros i j a b Ha Hb Hr Hep Hkk Ht.
      destruct (decide (i = cmd_id x)) as [->|Hi], (decide (j = cmd_id x)) as [->|Hj]; [done| | |].
      - rewrite Hst in Ha. injection Ha as <-. destruct (Hnone j b); [by eapply Hold|congruence|split; congruence].
      - rewrite Hst in Hb. injection Hb as <-. destruct (Hnone i a); [by eapply Hold|congruence|split; congruence].
      - eapply (Hu i j a b); eauto. }
    split_and!; try done; [congruence|by exists run|]. apply Hagain; try done. congruence.
Qed.
End Queue.

(** ** Recovery *)

Section Recovery.
Context {PF : Platform}.

(** No credential of an execution of the run up to [epoch] works: no run token
    at all, and no connector grant of those epochs. *)
Definition cut_off (rid : string) (epoch : Z) (w : World) : Prop :=
  (∀ cid token, ∃ e, (authenticate_run_token rid cid token w).2 = inl e) ∧
  (∀ gid g token action requested cid, stored ConnectorGrant w gid = Some g → grant_run_id g = rid →
     (grant_epoch g ≤ epoch)%Z → ∃ e, (authorize gid token action requested cid w).2 = inl e).

Lemma apply_recovery_inr rid target allow w w' run' :
  store_wf w → apply_recovery rid target allow w = (w', inr run') →
  ∃ run, stored TaskRun w rid = Some run ∧ stored TaskRun w' rid = Some run' ∧
    run_epoch run' = (run_epoch run + 1)%Z ∧ run_lease_id run' = None ∧
    run_last_event_seq run' = 0%Z ∧ run_last_event_id run' = None ∧ run_status run' = recovering ∧
    run_computer_id run' = cmp_id target ∧
    (cmp_id target ≠ run_computer_id run → allow = true ∧
       ∃ task project, stored CodeTask w (run_task_id run) = Some task ∧
         task_execution_project task = Some project ∧ Forall (λ r, portable r = true) (proj_resources project)).
Proof.
  intros Hwf. unfold apply_recovery. intros H. apply bind_inr in H as (w1 & [] & Ho & H).
  apply raise_if_inr in Ho as [_ ->]. apply bind_inr in H as (w2 & saved & Hup & H).
  apply bind_inr in H as (w3 & [] & Hws & [= <- <-]).
  assert (Hkeep : stored TaskRun w3 rid = stored TaskRun w2 rid).
  { assert (Hf : within (touches [workspaces]) (if decide (run_workspace_resume_mode saved = resume_recreate) then
       l ← list_workspaces (Some (run_id saved));
       for_each l (λ workspace, save_workspace (recreated_workspace target workspace);; mret ())
     else mret ())).
    { walk_frame. apply get_unless_missing_frame. }
    specialize (Hf w2). rewrite Hws in Hf. eapply (touches_stored TaskRun); [exact Hf|by_decide]. }
  apply update_run_inr in Hup as (run & wx & after & Hs & Hv & Hop & Hout). exists run. split; [done|].
  destruct (stored_key _ _ _ _ Hwf Hs) as [Hid _]. change (doc_id (wrap run)) with (run_id run) in Hid.
  apply fence_inv in Hop as (He & Hi & Ht & Hc & Hep & Hq & Hl & Hst & Hle & Hlx & Hck & Hrc & Hm & Hmove).
  destruct Hout as [(E & _)|(_ & Hsave)]; [subst after; lia|].
  pose proof (save_run_stored _ _ _ _ Hsave) as [Hnew _]. apply save_run_inr in Hsave as (-> & _).
  rewrite Hi, Hid in Hnew. rewrite Hkeep, Hnew. by split_and!.
Qed.

(** a recovery supersedes the execution it replaces.  When [recover_run]
    returns, the stored run is in the next epoch, without a lease, with its
    event sequence restarted, on the chosen computer (another one only with
    confirmation and when every resource of the frozen project is portable);
    no run token is accepted for it, and no connector grant issued in an
    earlier epoch authorizes anything. *)
Theorem recover_run_supersedes rid computer_id allow w w' run' :
  store_wf w → recover_run rid computer_id allow w = (w', inr run') →
  ∃ run, stored TaskRun w rid = Some run ∧ stored TaskRun w' rid = Some run' ∧
    run_epoch run' = (run_epoch run + 1)%Z ∧ run_lease_id run' = None ∧
    run_last_event_seq run' = 0%Z ∧ run_status run' = recovering ∧
    run_computer_id run' = str_or computer_id (run_computer_id run) ∧
    (run_computer_id run' ≠ run_computer_id run → allow = true ∧
       ∃ task project, stored CodeTask w (run_task_id run) = Some task ∧
         task_repository_setup task = None ∧
         task_execution_project task = Some project ∧ Forall (λ r, portable r = true) (proj_resources project)) ∧
    cut_off rid (run_epoch run) w'.
Proof.
  intros Hwf H.
  assert (Hwf' : store_wf w').
  { pose proof (recover_run_frame (R := keeps_wf) rid computer_id allow I I w Hwf) as Hk. by rewrite H in Hk. }
  unfold recover_run in H. apply bind_inr in H as (w1 & run & Hg & H).
  apply get_inr in Hg as (-> & _ & Hrun & _).
  destruct (stored_key _ _ _ _ Hwf Hrun) as [Hid _]. change (doc_id (wrap run)) with (run_id run) in Hid.
  apply bind_inr in H as (w2 & target & Ht & H). apply get_inr in Ht as (-> & _ & Ht & _).
  destruct (stored_key _ _ _ _ Hwf Ht) as [Htid _]. change (doc_id (wrap target)) with (cmp_id target) in Htid.
  apply bind_inr in H as (w3 & task & Htask & H). apply get_inr in Htask as (-> & _ & Htask & _).
  apply bind_inr in H as (w4 & [] & Hset & H). apply raise_if_inr in Hset as [Hset ->]. rewrite Hid in H.
  destruct (apply_recovery_inr _ _ _ _ _ _ Hwf H)
    as (r0 & Hr0 & Hst & Hep & Hle & Hq & _ & Hs & Hc & Hmove). simplify_eq.
  exists run. split_and!; try done; [congruence| |split].
  - rewrite Hc. intros Hne. destruct (Hmove Hne) as (Ha & task' & p & Htask' & Hp & Hport).
    split; [done|]. rewrite Htask in Htask'. injection Htask' as <-. exists task, p. split_and!; try done.
    apply String.eqb_neq in Hne. rewrite Hne in Hset. cbn in Hset. rewrite andb_true_r in Hset.
    case_bool_decide as Hb; [done|]. destruct (task_repository_setup task); [by destruct Hb|done].
  - intros cid token. destruct (authenticate_run_token (run_id run) cid token w') as [w5 [e|x]] eqn:E; [by exists e|].
    exfalso. apply authenticate_run_token_inr in E as (_ & Hx & _ & _ & Hl & _). simplify_eq. by rewrite Hle in Hl.
  - intros gid g token action requested cid Hgr Hgrun Hge.
    destruct (authorize gid token action requested cid w') as [w5 [e|x]] eqn:E; [by exists e|]. exfalso.
    destruct (authorize_inr _ _ _ _ _ _ _ _ Hwf' E) as (g2 & r2 & t & ev & Hg2 & Hr2 & Hadm & _).
    simplify_eq. destruct Hadm. rewrite Hgrun in Hr2. simplify_eq. lia.
Qed.
End Recovery.
