(* ===== verification/Scenarios.v ===== *)
(** * Concrete scenarios of the control plane.

    Small stores on which the theorems about computers, tasks and events are
    instantiated: a registered computer with a runtime token, a leased run that
    receives its events, a project with a repository and a folder. *)
From stdpp Require Import base list gmap strings option.
From Stdlib Require Import ZArith Lia.
From S2P Require Import Prelude ControlModels ControlWorld RunState ControlStore StoreJournal Delegation RunRecovery ControlComputers ControlTasks ControlRuns Fencing RunContracts.

(** ** A registered computer *)

Definition demo_caps : ComputerCapabilities := {|
  caps_platform := "linux"; caps_architecture := "x86_64"; caps_runtime_version := "1";
  caps_protocol_versions := [RUNTIME_PROTOCOL_VERSION]; caps_agent_engines := ["claude"];
  caps_shells := ["bash"]; caps_has_git := true; caps_has_terminal := true;
  caps_supports_local_folders := true; caps_task_capabilities := []; caps_max_concurrent_runs := 2 |}.

Definition demo_computer (id : string) (is_local : bool) : Computer :=
  new_Computer id "Build host" is_local demo_caps 0 0 0.

Definition demo_runtime_credential : RuntimeCredential := {|
  rcred_id := "c1"; rcred_computer_id := "c1";
  rcred_token_hash := digest (Platform := plain_platform) demo_secret;
  rcred_registration_epoch := 1; rcred_created_at := 0 |}.

Definition demo_computers : World :=
  (save_runtime_credential demo_runtime_credential
    (save_computer (demo_computer "c1" false)
      (save_computer (demo_computer "c0" true) (demo_world 0)).1).1).1.

Lemma demo_computers_wf : store_wf demo_computers.
Proof. do 3 (apply wf_after; [walk_frame|]). apply demo_world_wf. Qed.

Lemma revoke_computer_locks_out_witness :
  ∃ c, stored Computer (revoke_computer (PF := plain_platform) "c1" demo_computers).1 "c1" = Some c ∧
    cmp_status c = offline.
Proof.
  assert (E : (revoke_computer (PF := plain_platform) "c1" demo_computers).2 = inr ())
    by (vm_compute; reflexivity).
  destruct (revoke_computer_locks_out (PF := plain_platform) "c1" demo_computers _ demo_computers_wf
    (pair_eq_snd _ _ E)) as (_ & c & Hc & _ & Hs & _).
  exists c. exact (conj Hc Hs).
Defined.

(** ** A leased run *)

Definition demo_leased_run : TaskRun :=
  (demo_run "r1" "t" "c1" 10) <| run_status := preparing |> <| run_lease_id := Some "lease-1" |>
    <| run_lease_expires_at := Some 900000000%Z |>.

Definition demo_run_credential : TaskRunCredential := {|
  tcred_id := "r1"; tcred_run_id := "r1"; tcred_computer_id := "c1"; tcred_epoch := 1;
  tcred_token_hash := digest (Platform := plain_platform) demo_secret; tcred_created_at := 0 |}.

Definition demo_leased : World :=
  (save_run_credential demo_run_credential (save_run demo_leased_run demo_computers).1).1.

Lemma demo_leased_sound : sound demo_leased.
Proof.
  split; [do 2 (apply wf_after; [walk_frame|]); apply demo_computers_wf|]. vm_compute. reflexivity.
Qed.

Definition demo_event : RuntimeEvent := {|
  event_protocol_version := RUNTIME_PROTOCOL_VERSION; event_id := "event-1"; event_run_id := "r1";
  event_computer_id := "c1"; event_lease_id := "lease-1"; event_epoch := 1; event_seq := 1;
  event_kind := ev_status; event_payload := [("status", JStr "ready")]; event_timestamp := 0 |}.

#[local] Abbreviation demo_accept := (accept_event (PF := plain_platform) demo_event None).

Lemma demo_accept_ok : ∃ run, (demo_accept demo_leased).2 = inr run.
Proof. vm_compute. eauto. Qed.

Lemma accept_event_fenced_witness :
  ∃ run, stored TaskRun demo_leased "r1" = Some run ∧ (run_last_event_seq run < 1)%Z.
Proof.
  destruct demo_accept_ok as (run' & E).
  destruct (accept_event_fenced (PF := plain_platform) demo_event None demo_leased _ run' demo_leased_sound I
    (pair_eq_snd _ _ E)) as (run & Hs & _).
  exists run. split; [exact Hs|].
  assert (E0 : run_last_event_seq <$> stored TaskRun demo_leased "r1" = Some 0%Z) by (vm_compute; reflexivity).
  change (event_run_id demo_event) with "r1" in Hs. rewrite Hs in E0. injection E0 as ->. reflexivity.
Defined.

Lemma accept_event_redelivery_witness :
  ∃ run, (demo_accept demo_leased).2 = inr run ∧
    demo_accept (demo_accept demo_leased).1 = ((demo_accept demo_leased).1, inr run).
Proof.
  destruct demo_accept_ok as (run & E). exists run. split; [exact E|].
  exact (accept_event_redelivery (PF := plain_platform) demo_event None None demo_leased _ run
    demo_leased_sound I eq_refl (pair_eq_snd _ _ E)).
Defined.

(** An accepted event, a restart, and the deletion of the task: the run is gone,
    and it was never behind. *)
Definition one_life {PF : Platform} (e : RuntimeEvent) (r : string) (w : World) : World :=
  (delete_task r (open_store (accept_event e None w).1).1).1.

Lemma one_life_steps {PF : Platform} local_id e r w : rtc (control_step local_id) w (one_life e r w).
Proof.
  eapply rtc_l; [apply cs_service, (st_event local_id w e None I)|].
  eapply rtc_l; [apply cs_restart|]. apply rtc_once, cs_delete.
Qed.

Lemma run_fence_monotone_witness :
  stored TaskRun (one_life (PF := plain_platform) demo_event "r1" demo_leased) "r1" = None ∧
  ∃ r wm rm, stored TaskRun demo_leased "r1" = Some r ∧ stored TaskRun wm "r1" = Some rm ∧ run_le r rm.
Proof.
  split; [vm_compute; reflexivity|].
  assert (Hs : is_Some (stored TaskRun demo_leased "r1")) by (vm_compute; eauto).
  destruct Hs as [r Hs].
  destruct (run_fence_monotone (PF := plain_platform) "c0" demo_leased _ demo_leased_sound
    (one_life_steps (PF := plain_platform) "c0" demo_event "r1" demo_leased)) as [_ H].
  destruct (H "r1" _ Hs) as [(r' & Hr' & _)|(wm & rm & _ & _ & _ & Hrm & Hle & _)].
  - vm_compute in Hr'. discriminate Hr'.
  - exists r, wm, rm. split_and!; [exact Hs|exact Hrm|exact Hle].
Defined.

Lemma event_applied_at_most_once_witness :
  ∃ w2, w2 = (heartbeat "c1" 1 (demo_accept demo_leased).1).1 ∧
   ((∃ e, (demo_accept w2).2 = inl e) ∨ (∃ run', demo_accept w2 = (w2, inr run'))).
Proof.
  eexists. split; [reflexivity|]. destruct demo_accept_ok as (run & E).
  exact (event_applied_at_most_once (PF := plain_platform) "c0" demo_event None None demo_leased _ _ run
    demo_leased_sound I I (pair_eq_snd _ _ E)
    (rtc_once _ _ (st_heartbeat (PF := plain_platform) "c0" (demo_accept demo_leased).1 "c1" 1))).
Defined.

Definition demo_superseded : World :=
  (save_run (demo_leased_run <| run_epoch := 2%Z |>) demo_leased).1.

Lemma stale_epoch_refused_witness :
  ∃ e, (demo_accept demo_superseded).2 = inl e.
Proof.
  assert (Hs : sound demo_superseded).
  { split; [apply wf_after; [walk_frame|exact (proj1 demo_leased_sound)]|vm_compute; reflexivity]. }
  assert (E : run_epoch <$> stored TaskRun demo_superseded "r1" = Some 2%Z) by (vm_compute; reflexivity).
  destruct (stored TaskRun demo_superseded "r1") as [run|] eqn:Hr; [|discriminate E]. injection E as Hep.
  apply (stale_epoch_refused (PF := plain_platform) "c0" demo_event None demo_superseded demo_superseded run Hs Hr).
  - rewrite Hep. reflexivity.
  - exact I.
  - apply rtc_refl.
Defined.

(** ** A project *)

Definition demo_repository : RepositoryResource := {|
  repo_id := "repo"; repo_name := "Repo"; repo_source_url := Some "https://example.com/r.git";
  repo_provider := "github"; repo_repository := None; repo_connector_name := None;
  repo_use_connector_for_clone := false; repo_local_path := Some "/home/a/r";
  repo_computer_id := Some "c0"; repo_default_branch := None; repo_checkout_strategy := "worktree";
  repo_commands := [] |}.

Definition demo_project : CodeProject := {|
  proj_schema_version := 1; proj_id := "p"; proj_name := "P";
  proj_resources := [Repository demo_repository]; proj_folders := []; proj_playbook := JNull;
  proj_skill_sources := []; proj_connections := []; proj_environment := JNull;
  proj_default_engine_id := "claude"; proj_default_model := "m"; proj_default_reasoning_effort := None;
  proj_permission_mode := "ask"; proj_created_at := 0; proj_updated_at := 0 |}.

Lemma runtime_project_strips_witness :
  ∃ p, runtime_project (PF := plain_platform) demo_project all_scope "c1" = inr p ∧
    p = demo_project <| proj_resources := proj_resources p |>
          <| proj_folders := map resource_folder (proj_resources p) |>.
Proof.
  assert (E : ∃ p, runtime_project (PF := plain_platform) demo_project all_scope "c1" = inr p)
    by (vm_compute; eauto).
  destruct E as (p & E). exists p. split; [exact E|].
  exact (proj1 (runtime_project_strips (PF := plain_platform) demo_project "c1" p E)).
Defined.

#[local] Abbreviation demo_create :=
  (create_task_run (PF := plain_platform) "c0" "t1" "Title" "Prompt" (Some demo_project) None (Some "c1") "claude" None None).

Lemma create_task_run_creates_witness :
  ∃ snap, (demo_create demo_computers).2 = inr snap ∧ cmp_id (snap_computer snap) = "c1".
Proof.
  assert (E : ∃ snap, (demo_create demo_computers).2 = inr snap) by (vm_compute; eauto).
  destruct E as (snap & E). exists snap. split; [exact E|].
  destruct (create_task_run_creates (PF := plain_platform) "c0" "t1" "Title" "Prompt" (Some demo_project) None
    (Some "c1") "claude" None None demo_computers _ snap (pair_eq_snd _ _ E))
    as (w1 & sc & rs & _ & _ & _ & _ & _ & _ & _ & _ & _ & _ & _ & _ & _ & Hid & _).
  exact (Hid "c1" eq_refl eq_refl).
Defined.

Lemma refresh_task_commands_only_commands_witness :
  ∃ task', (refresh_task_commands (PF := plain_platform) "t1" demo_project (demo_create demo_computers).1).2 = inr task' ∧
    touches [tasks] (demo_create demo_computers).1
      (refresh_task_commands (PF := plain_platform) "t1" demo_project (demo_create demo_computers).1).1.
Proof.
  assert (E : ∃ task', (refresh_task_commands (PF := plain_platform) "t1" demo_project
    (demo_create demo_computers).1).2 = inr task') by (vm_compute; eauto).
  destruct E as (task' & E). exists task'. split; [exact E|].
  exact (proj1 (refresh_task_commands_only_commands (PF := plain_platform) "t1" demo_project
    (demo_create demo_computers).1 _ task' (pair_eq_snd _ _ E))).
Defined.

(** ** Commands and recovery *)

Definition demo_commanded : World :=
  (queue_command (PF := plain_platform) "r1" "start" [] "key-1" demo_leased).1.

Lemma demo_commanded_wf : store_wf demo_commanded.
Proof. apply wf_after; [walk_frame|exact (proj1 demo_leased_sound)]. Qed.

Lemma queue_command_idempotent_witness :
  ∃ c, (queue_command (PF := plain_platform) "r1" "start" [] "key-1" demo_leased).2 = inr c ∧
    (queue_command (PF := plain_platform) "r1" "cancel" [("x", JNull)] "key-1" demo_commanded).2 = inr c.
Proof.
  assert (E : ∃ c, (queue_command (PF := plain_platform) "r1" "start" [] "key-1" demo_leased).2 = inr c)
    by (vm_compute; eauto).
  assert (Hno : ∀ id c, stored RuntimeCommand demo_leased id = Some c → False).
  { intros id c Hc. assert (Hr : c ∈ readable RuntimeCommand demo_leased).
    { apply elem_of_readable. exists id. split; [exact Hc|]. revert Hc.
      apply (all_valid_stored RuntimeCommand), all_validb_true. vm_compute. reflexivity. }
    assert (Hl : readable RuntimeCommand demo_leased = []) by (vm_compute; reflexivity).
    rewrite Hl in Hr. by apply not_elem_of_nil in Hr. }
  destruct E as (c & E). exists c. split; [exact E|].
  destruct (queue_command_idempotent (PF := plain_platform) "r1" "start" [] "key-1" demo_leased _ c
    (proj1 demo_leased_sound) (λ id c H, False_ind _ (Hno id c H))
    (λ i j c d H _ _ _ _ _, False_ind _ (Hno i c H)) eq_refl (pair_eq_snd _ _ E))
    as (_ & _ & _ & _ & _ & _ & Hq).
  unfold demo_commanded. rewrite Hq. reflexivity.
Defined.

#[local] Abbreviation demo_claim := (claim_commands (PF := plain_platform) "r1" "c1" "lease-1" 1%Z).

(** The claim taken again half a minute later, when it has lapsed. *)
Definition demo_later : World :=
  (demo_claim demo_commanded).1 <| w_clock := λ n, (30000000 + w_clock demo_commanded n)%Z |>.

Lemma store_wf_clock w f : store_wf w → store_wf (w <| w_clock := f |>).
Proof. intros []. by split. Qed.

Lemma stored_clock D `{!Document D} w f id : stored D (w <| w_clock := f |>) id = stored D w id.
Proof. done. Qed.

Lemma claim_exclusive_witness :
  ∃ x y t1 t2, (demo_claim demo_commanded).2 = inr [x] ∧ (demo_claim demo_later).2 = inr [y] ∧
    cmd_claimed_at x = Some t1 ∧ cmd_claimed_at y = Some t2 ∧ (t1 + COMMAND_CLAIM_DURATION ≤ t2)%Z.
Proof.
  assert (E : ∃ x y, (demo_claim demo_commanded).2 = inr [x] ∧ (demo_claim demo_later).2 = inr [y] ∧
    cmd_id y = cmd_id x).
  { eexists _, _. split; [vm_compute; reflexivity|]. split; [vm_compute; reflexivity|]. reflexivity. }
  destruct E as (x & y & E1 & E2 & Hid).
  assert (Hw : store_wf (demo_claim demo_commanded).1) by (apply wf_after; [walk_frame|apply demo_commanded_wf]).
  assert (Hl : store_wf demo_later) by (unfold demo_later; apply store_wf_clock; exact Hw).
  destruct (claim_exclusive (PF := plain_platform) "r1" "c1" "lease-1" 1%Z demo_commanded _ [x] demo_later
    "c1" "lease-1" 1%Z _ [y] x y demo_commanded_wf (pair_eq_snd _ _ E1) ltac:(left) Hl (stored_clock _ _ _ _)
    (pair_eq_snd _ _ E2) ltac:(left) Hid) as (t1 & t2 & H1 & H2 & Ht & _).
  exists x, y, t1, t2. by split_and!.
Defined.

#[local] Abbreviation demo_ack :=
  (acknowledge_command "r1" "command-u0" "c1" "lease-1" 1%Z (Some []) None).

Lemma acknowledge_command_once_witness :
  ∃ c first, (demo_ack demo_commanded).2 = inr (c, first) ∧ cmd_result c = Some [].
Proof.
  assert (E : ∃ c, (demo_ack demo_commanded).2 = inr (c, true)) by (eexists; vm_compute; reflexivity).
  destruct E as (c & E). exists c, true. split; [exact E|].
  destruct (acknowledge_command_once "r1" "command-u0" "c1" "lease-1" 1%Z (Some []) None
    demo_commanded _ c true demo_commanded_wf (pair_eq_snd _ _ E)) as ((run & b & _ & _ & _ & _ & _ & H) & _).
  exact (proj1 (H eq_refl)).
Defined.

Definition demo_owned_task : World := (save_task (demo_task "t") demo_leased).1.

Lemma demo_owned_task_wf : store_wf demo_owned_task.
Proof. apply wf_after; [walk_frame|exact (proj1 demo_leased_sound)]. Qed.

Lemma recover_run_supersedes_witness :
  ∃ run', (recover_run (PF := plain_platform) "r1" None false demo_owned_task).2 = inr run' ∧
    run_lease_id run' = None.
Proof.
  assert (E : ∃ run', (recover_run (PF := plain_platform) "r1" None false demo_owned_task).2 = inr run')
    by (eexists; vm_compute; reflexivity).
  destruct E as (run' & E). exists run'. split; [exact E|].
  destruct (recover_run_supersedes (PF := plain_platform) "r1" None false demo_owned_task _ run'
    demo_owned_task_wf (pair_eq_snd _ _ E)) as (run & _ & _ & _ & Hl & _).
  exact Hl.
Defined.

(** ** A session with a long error *)

Definition long_error : string := Nat.iter 4001 (String.append "e") "".

Definition demo_session : CodingSession := {|
  sess_id := "t"; sess_title := "T"; sess_engine_id := "claude"; sess_status := s_failed;
  sess_task_id := Some "t"; sess_run_id := Some "r1"; sess_computer_id := Some "c1";
  sess_resource_ids := []; sess_scope_all_project_resources := true; sess_runtime_epoch := 1;
  sess_project_id := None; sess_workspace_path := ""; sess_workspace_kind := local_copy;
  sess_workspaces := []; sess_base_revision := None; sess_source_contexts := []; sess_deliveries := [];
  sess_last_error := Some long_error |}.

Lemma sync_session_unreadable_run_witness :
  ∃ w' r, sync_session "c1" demo_session demo_queue = (w', inr r) ∧
    get_run "r1" w' = (w', inl (ValidationError "TaskRun")).
Proof.
  assert (E : ∃ run, stored TaskRun demo_queue "r1" = Some run ∧ valid_run run = true ∧
    run_computer_id run = "c1" ∧ run_status run = queued).
  { eexists. split; [vm_compute; reflexivity|]. repeat split. }
  destruct E as (run & Hr & Hv & Hc & Hs).
  destruct (sync_session_unreadable_run "c1" demo_session "r1" run long_error demo_queue demo_queue_wf eq_refl
    Hr Hv Hc) as (w' & r & E & Hg & _).
  - rewrite Hs. discriminate.
  - rewrite Hs. by_decide.
  - intros _. discriminate.
  - reflexivity.
  - apply Nat.ltb_lt. vm_compute. reflexivity.
  - exists w', r. exact (conj E Hg).
Defined.
