(* ===== verification/StreamBuffer.v ===== *)
(** * Turn buffers kept in files.

    [src/cowork/streaming/records.py] and the file backend of
    [src/cowork/streaming/buffer.py]: the records of a turn, the reader that
    parses a growing file a little at a time ([_NewRecords]), the writer
    ([FileStreamBuffer]) and its live tail.

    A file is its bytes.  Everything between two [await]s or [yield]s of the
    event loop happens at once, so [append], [close] and one read are single
    steps. *)
From stdpp Require Import base list strings option relations.
From Stdlib Require Import ZArith Lia.
From S2P Require Import Prelude JsonText.

(** ** Records *)

Record TurnRecord := mk_TurnRecord {
  rec_seq : Z;
  rec_ts : string;
  rec_type : string;
  rec_data : list (string * json);
}.

Definition TERMINAL_TYPES : list string := ["Done"; "Cancelled"; "Error"; "Interrupted"].

Definition REASON_TO_TYPE : list (string * string) :=
  [("completed", "Done"); ("cancelled", "Cancelled"); ("error", "Error");
   ("interrupted", "Interrupted"); ("restart", "Interrupted")].

Definition reason_type (reason : string) : option string :=
  snd <$> head (base.filter (λ p, p.1 = reason) REASON_TO_TYPE).

Definition is_terminal (r : TurnRecord) : bool := bool_decide (rec_type r ∈ TERMINAL_TYPES).

(** [str.splitlines]: the line boundaries of a [str], in UTF-8. *)
Fixpoint line_break (s : string) : option string :=
  match s with
  | EmptyString => None
  | String.String c r =>
      let n := ord c in
      if Nat.eqb n 13 then
        match r with
        | String.String d r' => if Nat.eqb (ord d) 10 then Some r' else Some r
        | EmptyString => Some r
        end
      else if Nat.eqb n 10 || Nat.eqb n 11 || Nat.eqb n 12 || Nat.eqb n 28 || Nat.eqb n 29 || Nat.eqb n 30
      then Some r
      else
        match strip_prefix (String.String (chr 194) (String.String (chr 133) "")) s with
        | Some r' => Some r'
        | None =>
            match strip_prefix (String.String (chr 226) (String.String (chr 128) (String.String (chr 168) ""))) s with
            | Some r' => Some r'
            | None => strip_prefix (String.String (chr 226) (String.String (chr 128) (String.String (chr 169) ""))) s
            end
        end
  end.
Fixpoint splitlines_from (fuel : nat) (line s : string) : list string :=
  match fuel with
  | 0 => []
  | S fuel' =>
      match s with
      | EmptyString => if truthy line then [line] else []
      | String.String c r =>
          match line_break s with
          | Some r' => line :: splitlines_from fuel' "" r'
          | None => splitlines_from fuel' (String.append line (String.String c "")) r
          end
      end
  end.
Definition splitlines (s : string) : list string := splitlines_from (S (String.length s)) "" s.

Definition FINAL_EVENT_LINES : list string :=
  ["event: response.completed"; "event: response.failed"; "event: response.cancelled"].

(** [_is_final_client_frame]; [(data.get("sse") or "").splitlines()] fails on a
    value that is true and not a string. *)
Definition is_final_client_frame (type_ : string) (data : list (string * json)) : exn + bool :=
  if bool_decide (type_ ∈ map snd REASON_TO_TYPE) then inr true
  else if negb (String.eqb type_ "sse") then inr false
  else
    match obj_get data "sse" with
    | Some (JStr s) => inr (existsb (λ line, bool_decide (line ∈ FINAL_EVENT_LINES)) (splitlines s))
    | Some v => if json_truthy v then inl (AttributeError "splitlines") else inr false
    | None => inr false
    end.

(** ** Reading a file *)

(** [bytes.strip]. *)
Definition is_bspace (c : Ascii.ascii) : bool := (Nat.leb 9 (ord c) && Nat.leb (ord c) 13) || Nat.eqb (ord c) 32.
Fixpoint lstrip_bytes (s : string) : string :=
  match s with
  | String.String c s' => if is_bspace c then lstrip_bytes s' else s
  | EmptyString => ""
  end.
Fixpoint rstrip_bytes (s : string) : string :=
  match s with
  | EmptyString => ""
  | String.String c s' =>
      let t := rstrip_bytes s' in
      if truthy t then String.String c t else if is_bspace c then "" else String.String c ""
  end.
Definition strip_bytes (s : string) : string := rstrip_bytes (lstrip_bytes s).

(** [s.split(b"\n")]: the pieces between newlines, the last one included. *)
Fixpoint split_newline (s : string) : list string :=
  match s with
  | EmptyString => [""]
  | String.String c s' =>
      if Nat.eqb (ord c) 10 then "" :: split_newline s'
      else
        match split_newline s' with
        | l :: ls => String.String c l :: ls
        | [] => [String.String c ""]
        end
  end.

(** How [int()] and [dict()] convert values the buffers never write. *)
Class Conversions := {
  int_of_text : string → exn + Z;
  dict_of_value : json → exn + list (string * json);
}.

Section Parsing.
Context {PF : Platform} {CV : Conversions}.

(** [int(value)]. *)
Definition py_int (v : json) : exn + Z :=
  match v with
  | JInt n => inr n
  | JBool b => inr (if b then 1 else 0)%Z
  | JStr s | JFloat s => int_of_text s
  | _ => inl (TypeError "int")
  end.

(** [dict(value or {})]. *)
Definition py_dict (v : option json) : exn + list (string * json) :=
  match v with
  | Some (JObj l) => inr l
  | Some v => if json_truthy v then dict_of_value v else inr []
  | None => inr []
  end.

(** [TurnRecord(seq=int(obj.get("seq", -1)), ...)]. *)
Definition record_of (fields : list (string * json)) : exn + TurnRecord :=
  match py_int (default (JInt (-1)) (obj_get fields "seq")) with
  | inl e => inl e
  | inr seq =>
      match py_dict (obj_get fields "data") with
      | inl e => inl e
      | inr data =>
          inr (mk_TurnRecord seq (json_str (default (JStr "") (obj_get fields "ts")))
                 (json_str (default (JStr "") (obj_get fields "type"))) data)
      end
  end.

(** [_parse_record]: [None] for a blank or half-written line. *)
Definition parse_record (line : string) : exn + option TurnRecord :=
  let line := strip_bytes line in
  if negb (truthy line) then inr None
  else
    match loads line with
    | None => inr None
    | Some (JObj fields) =>
        match record_of fields with inl e => inl e | inr r => inr (Some r) end
    | Some _ => inl (AttributeError "get")
    end.

(** [_parse_record] of a [bytes] line, which [json.loads] decodes first. *)
Definition parse_record_bytes (line : string) : exn + option TurnRecord :=
  if truthy (strip_bytes line) && negb (utf8_valid false (strip_bytes line))
  then inl (UnicodeDecodeError "utf-8") else parse_record line.

(** [[record for record in map(_parse_record, lines) if record is not None]]. *)
Fixpoint parse_lines (parse : string → exn + option TurnRecord) (lines : list string) : exn + list TurnRecord :=
  match lines with
  | [] => inr []
  | line :: lines' =>
      match parse line with
      | inl e => inl e
      | inr o =>
          match parse_lines parse lines' with
          | inl e => inl e
          | inr rs => inr (match o with Some r => r :: rs | None => rs end)
          end
      end
  end.

(** Universal newlines of a text file. *)
Fixpoint universal_newlines (s : string) : string :=
  match s with
  | EmptyString => ""
  | String.String c r =>
      if Nat.eqb (ord c) 13 then
        String.String (chr 10)
          (match r with
           | String.String d r' => if Nat.eqb (ord d) 10 then universal_newlines r' else universal_newlines r
           | EmptyString => universal_newlines r
           end)
      else String.String c (universal_newlines r)
  end.

(** [read_records], consumed to its end.  The file is read as text, and only an
    [OSError] is caught. *)
Definition read_records (file : option string) (from_seq : Z) : exn + list TurnRecord :=
  match file with
  | None => inr []
  | Some content =>
      if negb (utf8_valid true content) then inl (UnicodeDecodeError "utf-8")
      else
      match parse_lines parse_record (split_newline (universal_newlines content)) with
      | inl e => inl e
      | inr rs => inr (base.filter (λ r, (from_seq <= rec_seq r)%Z) rs)
      end
  end.

(** ** [_NewRecords] *)

Record NewRecords := { nr_offset : nat; nr_partial : string }.
Definition new_NewRecords : NewRecords := {| nr_offset := 0; nr_partial := "" |}.

(** [*lines, partial = pieces]. *)
Definition split_last (pieces : list string) : list string * string :=
  (removelast pieces, List.last pieces "").

(** The lines completed since the last read, and the new position. *)
Definition new_lines (st : NewRecords) (content : string) : list string * NewRecords :=
  let chunk := String.substring (nr_offset st) (String.length content - nr_offset st) content in
  let '(lines, partial) := split_last (split_newline (String.append (nr_partial st) chunk)) in
  (lines, {| nr_offset := nr_offset st + String.length chunk; nr_partial := partial |}).

(** [read]; a file that cannot be opened holds no record. *)
Definition new_records_read (st : NewRecords) (file : option string) : NewRecords * (exn + list TurnRecord) :=
  match file with
  | None => (st, inr [])
  | Some content => let '(lines, st') := new_lines st content in (st', parse_lines parse_record_bytes lines)
  end.
End Parsing.

(** ** Reading in pieces is reading at once *)

Fixpoint str_drop (n : nat) (s : string) : string :=
  match n, s with
  | 0, _ => s
  | S n', String.String _ s' => str_drop n' s'
  | S _, EmptyString => ""
  end.

Lemma substring_drop n s : String.substring n (String.length s - n) s = str_drop n s.
Proof.
  revert n. induction s as [|c s IH]; intros [|n]; cbn; try done.
  f_equal. specialize (IH 0). by rewrite Nat.sub_0_r in IH.
Qed.

Lemma str_drop_app n a b : n ≤ String.length a → str_drop n (String.append a b) = String.append (str_drop n a) b.
Proof.
  revert n. induction a as [|c a IH]; intros [|n] Hn; cbn in Hn; try done; [lia|].
  rewrite append_cons. cbn. apply IH. lia.
Qed.

Lemma str_drop_length n s : String.length (str_drop n s) = String.length s - n.
Proof. revert n. induction s as [|c s IH]; intros [|n]; cbn; try done. Qed.

Lemma str_drop_all n s : String.length s ≤ n → str_drop n s = "".
Proof. revert n. induction s as [|c s IH]; intros [|n] Hn; cbn in *; try done; [lia|]. apply IH. lia. Qed.

Lemma split_newline_nonempty s : split_newline s ≠ [].
Proof. destruct s as [|c s]; cbn; [done|]. destruct (Nat.eqb _ _); [done|]. by destruct (split_newline s). Qed.

Lemma split_newline_app a b :
  split_newline (String.append a b) =
    (split_last (split_newline a)).1 ++ split_newline (String.append (split_last (split_newline a)).2 b).
Proof.
  induction a as [|c a IH]; [done|]. rewrite append_cons. cbn [split_newline].
  destruct (Nat.eqb (ord c) 10) eqn:Ec.
  - destruct (split_newline a) as [|l ls] eqn:E; [by apply split_newline_nonempty in E|].
    by rewrite IH.
  - rewrite IH. destruct (split_newline a) as [|l ls] eqn:E; [by apply split_newline_nonempty in E|].
    destruct ls as [|l' ls].
    + cbn. rewrite append_cons. cbn [split_newline]. by rewrite Ec.
    + done.
Qed.

Lemma split_last_app (a b : list string) :
  b ≠ [] → split_last (a ++ b) = (a ++ (split_last b).1, (split_last b).2).
Proof.
  intros Hb. unfold split_last. rewrite removelast_app by done. cbn. f_equal.
  induction a as [|x a IH]; [done|]. cbn. destruct (a ++ b) eqn:E; [|by rewrite <-IH].
  apply app_eq_nil in E as [_ ?]. done.
Qed.

Lemma new_lines_eq st content :
  new_lines st content =
    let chunk := str_drop (nr_offset st) content in
    let pieces := split_last (split_newline (String.append (nr_partial st) chunk)) in
    (pieces.1, {| nr_offset := nr_offset st + String.length chunk; nr_partial := pieces.2 |}).
Proof. unfold new_lines. rewrite substring_drop. cbn zeta. by destruct (split_last _). Qed.

(** Two reads of a growing file see the lines one read of its final content
    sees, and end in the same position. *)
Lemma new_lines_compose st c1 c2 l1 st1 l2 st2 :
  nr_offset st ≤ String.length c1 →
  new_lines st c1 = (l1, st1) → new_lines st1 (String.append c1 c2) = (l2, st2) →
  new_lines st (String.append c1 c2) = (l1 ++ l2, st2).
Proof.
  intros Ho. rewrite !new_lines_eq. cbn zeta. intros [= <- <-]. cbn [nr_offset nr_partial].
  rewrite (str_drop_app (nr_offset st)) by done.
  set (chunk := str_drop (nr_offset st) c1).
  assert (Hlen : nr_offset st + String.length chunk = String.length c1).
  { unfold chunk. rewrite str_drop_length. lia. }
  rewrite Hlen, str_drop_app, (str_drop_all (String.length c1) c1), append_nil by lia.
  intros [= <- <-]. rewrite <-append_assoc, split_newline_app.
  set (p := split_last (split_newline (String.append (nr_partial st) chunk))).
  rewrite split_last_app by apply split_newline_nonempty. cbn [fst snd].
  f_equal. f_equal. rewrite length_append. lia.
Qed.

Lemma new_lines_offset st c : nr_offset st ≤ String.length c → nr_offset (new_lines st c).2 = String.length c.
Proof. intros H. rewrite new_lines_eq. cbn. rewrite str_drop_length. lia. Qed.

Section Incremental.
Context {PF : Platform} {CV : Conversions}.

Lemma parse_lines_app p a b :
  parse_lines p (a ++ b) =
    match parse_lines p a with
    | inl e => inl e
    | inr ra => match parse_lines p b with inl e => inl e | inr rb => inr (ra ++ rb) end
    end.
Proof.
  induction a as [|x a IH]; cbn; [by destruct (parse_lines p b)|].
  destruct (p x) as [e|o]; [done|]. rewrite IH.
  destruct (parse_lines p a) as [e|ra]; [done|]. destruct (parse_lines p b) as [e|rb]; [done|]. by destruct o.
Qed.

(** Reading after each of a series of appends to the file. *)
Fixpoint read_growing (st : NewRecords) (content : string) (chunks : list string) :
    NewRecords * list (exn + list TurnRecord) :=
  match chunks with
  | [] => (st, [])
  | c :: chunks' =>
      let content := String.append content c in
      let '(st1, r) := new_records_read st (Some content) in
      let '(st2, rs) := read_growing st1 content chunks' in
      (st2, r :: rs)
  end.

(** The results of a series of reads, put together. *)
Fixpoint join_reads (rs : list (exn + list TurnRecord)) : exn + list TurnRecord :=
  match rs with
  | [] => inr []
  | inl e :: _ => inl e
  | inr l :: rs' => match join_reads rs' with inl e => inl e | inr l' => inr (l ++ l') end
  end.

Lemma read_growing_lines chunks st content :
  nr_offset st = String.length content → chunks ≠ [] →
  let '(st', rs) := read_growing st content chunks in
  let whole := String.append content (fold_right String.append "" chunks) in
  new_lines st whole = ((new_lines st whole).1, st') ∧
  join_reads rs = parse_lines parse_record_bytes (new_lines st whole).1.
Proof.
  revert st content. induction chunks as [|c chunks IH]; intros st content Ho Hne; [done|].
  cbn [read_growing new_records_read fold_right].
  destruct (new_lines st (String.append content c)) as [l1 st1] eqn:E1.
  assert (Ho1 : nr_offset st1 = String.length (String.append content c)).
  { pose proof (new_lines_offset st (String.append content c)) as H. rewrite E1 in H. apply H.
    rewrite length_append. lia. }
  destruct chunks as [|d chunks].
  - cbn [read_growing fold_right join_reads]. rewrite append_empty_r, E1. cbn [fst]. split; [done|].
    destruct (parse_lines parse_record_bytes l1); [done|]. by rewrite app_nil_r.
  - specialize (IH st1 (String.append content c) Ho1 ltac:(done)).
    destruct (read_growing st1 (String.append content c) (d :: chunks)) as [st2 rs].
    rewrite <-!append_assoc in *. set (rest := fold_right String.append "" (d :: chunks)) in *.
    destruct IH as [IH1 IH2]. destruct (new_lines st1 (String.append (String.append content c) rest)) as [l2 st2'] eqn:E2.
    cbn [fst] in *. injection IH1 as ->.
    assert (Hle : nr_offset st ≤ String.length (String.append content c)) by (rewrite length_append; lia).
    rewrite (new_lines_compose st _ rest _ _ _ _ Hle E1 E2). cbn [fst].
    split; [done|]. cbn [join_reads]. rewrite IH2, parse_lines_app. done.
Qed.

(** reading a growing file a little at a time is reading it once.  However
    the bytes of a turn file arrive, in pieces that end anywhere (inside a line
    or a character), the records that successive calls of [_NewRecords.read]
    return, put together, are those of one read of the whole file from the
    start, and a malformed line fails the one exactly when it fails the
    other. *)
Theorem new_records_incremental chunks :
  chunks ≠ [] →
  join_reads (read_growing new_NewRecords "" chunks).2 =
    (new_records_read new_NewRecords (Some (fold_right String.append "" chunks))).2.
Proof.
  intros Hne. pose proof (read_growing_lines chunks new_NewRecords "" eq_refl Hne) as H.
  destruct (read_growing new_NewRecords "" chunks) as [st rs]. destruct H as [_ H].
  cbn [snd]. rewrite H, append_nil. cbn [new_records_read].
  by destruct (new_lines new_NewRecords (fold_right String.append "" chunks)).
Qed.
End Incremental.
