(* ===== verification/StreamTail.v ===== *)
(** * One writer, many readers of a turn file.

    [FileStreamBuffer] of [src/cowork/streaming/buffer.py]: [append] and [close]
    as operations on the state of the buffer, [tail] as a machine that takes one
    step per [await] or [yield], and the interleavings of both.  The theorems
    say that a reader gets every record from its offset on, once and in order,
    that it never sleeps through a wake-up, and that it ends once the buffer is
    closed. *)
From stdpp Require Import base list strings option relations.
From Stdlib Require Import ZArith Lia.
From S2P Require Import Prelude JsonText StreamBuffer.

(** ** The buffer

    The [asyncio.Event] of [_new_data] is a number: [append] and [close] set
    the current event and put a new one in its place, so the events that are set
    are those below [fb_event]. *)

Record FileStreamBuffer := {
  fb_content : string;
  fb_seq : Z;
  fb_event : nat;
  fb_done : bool;
  fb_closed : bool;
  fb_finishing : bool;
}.

#[export] Instance fields_FileStreamBuffer : Fields FileStreamBuffer := λ b, {|
  fb_content := fb_content b; fb_seq := fb_seq b; fb_event := fb_event b; fb_done := fb_done b;
  fb_closed := fb_closed b; fb_finishing := fb_finishing b |}.

(** [__init__]: whatever the file held is dropped. *)
Definition open_buffer : FileStreamBuffer := {|
  fb_content := ""; fb_seq := 0; fb_event := 0; fb_done := false; fb_closed := false;
  fb_finishing := false |}.

(** Whether the write of a line raised, and what part of it reached the file. *)
Inductive write_result := Written | Failed (partial : string).

(** The line of a record. *)
Definition record_json (r : TurnRecord) : json :=
  JObj [("seq", JInt (rec_seq r)); ("ts", JStr (rec_ts r)); ("type", JStr (rec_type r)); ("data", JObj (rec_data r))].
Definition record_line (r : TurnRecord) : string :=
  String.append (dumps (record_json r)) (String.String (chr 10) "").

(** A record that can be written: its strings can be encoded and its data is a
    Python value. *)
Definition record_wf (r : TurnRecord) : Prop :=
  utf8_valid true (rec_ts r) = true ∧ utf8_valid true (rec_type r) = true ∧ json_wf (JObj (rec_data r)).

(** [append]; [ts] is [now_iso()]. *)
Definition buffer_append (ts : string) (io : write_result) (type_ : string) (data : list (string * json))
    (b : FileStreamBuffer) : FileStreamBuffer * (exn + Z) :=
  if fb_closed b then (b, inr (fb_seq b))
  else
    match is_final_client_frame type_ data with
    | inl e => (b, inl e)
    | inr final =>
        let b := if final : bool then b <| fb_finishing := true |> else b in
        match io with
        | Failed partial => (b <| fb_content := String.append (fb_content b) partial |>, inr (fb_seq b))
        | Written =>
            let line := record_line (mk_TurnRecord (fb_seq b) ts type_ data) in
            (b <| fb_content := String.append (fb_content b) line |>
               <| fb_seq := (fb_seq b + 1)%Z |> <| fb_event := S (fb_event b) |>,
             inr (fb_seq b))
        end
    end.

(** [{"reason": reason, **extra}]. *)
Definition close_data (reason : string) (extra : list (string * json)) : list (string * json) :=
  fold_left (λ d kv, obj_set d kv.1 kv.2) extra [("reason", JStr reason)].

(** [close]. *)
Definition buffer_close (ts : string) (io : write_result) (reason : string) (extra : list (string * json))
    (b : FileStreamBuffer) : FileStreamBuffer * (exn + ()) :=
  if fb_closed b then (b, inr ())
  else
    let '(b1, r) := buffer_append ts io (default "Done" (reason_type reason)) (close_data reason extra) b in
    match r with
    | inl e => (b1, inl e)
    | inr _ =>
        (b1 <| fb_closed := true |> <| fb_done := true |> <| fb_event := S (fb_event b1) |>, inr ())
    end.

(** ** The reader *)

Inductive reader_at :=
  | Top
  | Emitting (waiter : nat) (closed : bool) (batch : list TurnRecord) (emitted_terminal : bool)
  | Waiting (waiter : nat)
  | Returned
  | Raised (e : exn).

Record Reader := { rd_new : NewRecords; rd_out : list TurnRecord; rd_at : reader_at }.

Definition start_reader : Reader := {| rd_new := new_NewRecords; rd_out := []; rd_at := Top |}.

Section Tail.
Context {PF : Platform} {CV : Conversions} (from_seq : Z).

(** One step of [tail]: [None] while it is suspended on its two events. *)
Definition tail_step (b : FileStreamBuffer) (r : Reader) : option Reader :=
  match rd_at r with
  | Top =>
      let '(st, res) := new_records_read (rd_new r) (Some (fb_content b)) in
      Some {| rd_new := st; rd_out := rd_out r;
              rd_at := match res with
                       | inl e => Raised e
                       | inr batch => Emitting (fb_event b) (fb_closed b) batch false
                       end |}
  | Emitting w c (rec :: batch) t =>
      if (rec_seq rec <? from_seq)%Z
      then Some {| rd_new := rd_new r; rd_out := rd_out r; rd_at := Emitting w c batch t |}
      else Some {| rd_new := rd_new r; rd_out := rd_out r ++ [rec];
                   rd_at := Emitting w c batch (t || is_terminal rec) |}
  | Emitting w c [] t =>
      Some {| rd_new := rd_new r; rd_out := rd_out r; rd_at := if t || c then Returned else Waiting w |}
  | Waiting w =>
      if Nat.ltb w (fb_event b) || fb_done b
      then Some {| rd_new := rd_new r; rd_out := rd_out r; rd_at := Top |} else None
  | Returned | Raised _ => None
  end.

(** Interleavings of the producer and one reader.  The producer appends frames
    and closes; a write may fail without leaving bytes behind. *)
Inductive stream_step : FileStreamBuffer * Reader → FileStreamBuffer * Reader → Prop :=
  | step_append ts io type_ data b r :
      io = Written ∨ io = Failed "" → type_ ∉ TERMINAL_TYPES → record_wf (mk_TurnRecord 0 ts type_ data) →
      stream_step (b, r) ((buffer_append ts io type_ data b).1, r)
  | step_close ts io reason extra b r :
      io = Written ∨ io = Failed "" → record_wf (mk_TurnRecord 0 ts reason extra) →
      stream_step (b, r) ((buffer_close ts io reason extra b).1, r)
  | step_tail b r r' : tail_step b r = Some r' → stream_step (b, r) (b, r').
End Tail.

(** ** Lines and records *)

Lemma record_json_wf r : record_wf r → json_wf (record_json r).
Proof.
  intros (Hts & Hty & Hd). split; [by_decide|]. by repeat (split; [split; [done|]|]).
Qed.

Lemma rstrip_bytes_last s c :
  is_bspace c = false → rstrip_bytes (String.append s (String.String c "")) = String.append s (String.String c "").
Proof.
  intros Hc. induction s as [|d s IH]; [rewrite append_nil; cbn [rstrip_bytes truthy String.eqb negb]; by rewrite Hc|]. rewrite append_cons. cbn [rstrip_bytes].
  rewrite IH. by destruct s.
Qed.

Lemma strip_bytes_obj l : strip_bytes (dumps (JObj l)) = dumps (JObj l).
Proof.
  change (dumps (JObj l)) with (String.append "{" (String.append (dumps_members l) "}")).
  unfold strip_bytes. rewrite <-append_assoc. change (String.append "{" (dumps_members l))
    with (String.String (chr 123) (dumps_members l)).
  rewrite append_cons. cbn [lstrip_bytes]. change (is_bspace (chr 123)) with false. cbn iota.
  rewrite <-append_cons. by apply (rstrip_bytes_last (String.String (chr 123) (dumps_members l)) (chr 125)).
Qed.

Section Lines.
Context {PF : Platform} {CV : Conversions}.

Lemma parse_record_json r : record_wf r → parse_record (dumps (record_json r)) = inr (Some r).
Proof.
  intros Hw. unfold parse_record.
  assert (Hs : strip_bytes (dumps (record_json r)) = dumps (record_json r)) by apply strip_bytes_obj. rewrite Hs.
  pose proof (dumps_head _ (record_json_wf _ Hw)) as Hh.
  assert (Ht : truthy (dumps (record_json r)) = true) by (by destruct (dumps (record_json r))).
  rewrite Ht. cbn [negb]. rewrite (loads_dumps _ (record_json_wf _ Hw)). destruct r as [s ts ty d]. done.
Qed.

Lemma parse_record_bytes_json r : record_wf r → parse_record_bytes (dumps (record_json r)) = inr (Some r).
Proof.
  intros Hw. unfold parse_record_bytes.
  assert (Hs : strip_bytes (dumps (record_json r)) = dumps (record_json r)) by apply strip_bytes_obj.
  rewrite Hs, (utf8_strict _ (utf8_dumps _ (record_json_wf _ Hw))), andb_false_r. by apply parse_record_json.
Qed.

Lemma split_newline_line s t :
  no_newline s = true → split_newline (String.append s (String.String (chr 10) t)) = s :: split_newline t.
Proof.
  induction s as [|c s IH]; intros H; [done|]. cbn [no_newline] in H. apply andb_true_iff in H as [Hc H].
  rewrite append_cons. cbn [split_newline]. apply negb_true_iff in Hc. by rewrite Hc, (IH H).
Qed.

(** The file of a list of records. *)
Definition file_of (l : list TurnRecord) : string := fold_right (λ r s, String.append (record_line r) s) "" l.

Lemma file_of_cons r l : file_of (r :: l) = String.append (record_line r) (file_of l).
Proof. done. Qed.
Lemma file_of_app a b : file_of (a ++ b) = String.append (file_of a) (file_of b).
Proof. induction a as [|x a IH]; [done|]. rewrite <-app_comm_cons, !file_of_cons. by rewrite IH, append_assoc. Qed.

Lemma split_file l :
  Forall record_wf l → split_newline (file_of l) = map (λ r, dumps (record_json r)) l ++ [""].
Proof.
  induction 1 as [|r l Hr _ IH]; [done|]. rewrite file_of_cons. unfold record_line.
  rewrite append_assoc, append_cons, append_nil, split_newline_line
    by (by apply no_newline_dumps, record_json_wf). by rewrite IH.
Qed.

Lemma parse_file l : Forall record_wf l → parse_lines parse_record_bytes (map (λ r, dumps (record_json r)) l) = inr l.
Proof. induction 1 as [|r l Hr _ IH]; [done|]. cbn [map parse_lines]. by rewrite parse_record_bytes_json, IH. Qed.

(** Reading on from the end of a record. *)
Lemma read_file_from a b :
  Forall record_wf b →
  new_records_read {| nr_offset := String.length (file_of a); nr_partial := "" |} (Some (file_of (a ++ b))) =
    ({| nr_offset := String.length (file_of (a ++ b)); nr_partial := "" |}, inr b).
Proof.
  intros Hb. cbn [new_records_read]. rewrite new_lines_eq. cbn [nr_offset nr_partial]. cbn zeta.
  rewrite append_nil, file_of_app, str_drop_app, (str_drop_all (String.length (file_of a)) (file_of a)), append_nil by lia.
  rewrite split_file by done. rewrite split_last_app by done. cbn [fst snd]. rewrite app_nil_r, parse_file by done.
  by rewrite length_append.
Qed.
End Lines.

(** ** The buffer's invariant *)

Record buffer_ok (b : FileStreamBuffer) (l : list TurnRecord) : Prop := {
  bo_content : fb_content b = file_of l;
  bo_wf : Forall record_wf l;
  bo_seq : fb_seq b = Z.of_nat (length l);
  bo_numbered : ∀ i r, l !! i = Some r → rec_seq r = Z.of_nat i;
  bo_done : fb_done b = fb_closed b;
  bo_terminal : ∀ i r, l !! i = Some r → is_terminal r = true → fb_closed b = true ∧ S i = length l;
}.

Lemma open_buffer_ok : buffer_ok open_buffer [].
Proof. split; try done. Qed.

Lemma obj_set_keys l k v : ∀ x, x ∈ map fst (obj_set l k v) ↔ x = k ∨ x ∈ map fst l.
Proof.
  induction l as [|[k' v'] l IH]; intros x; cbn; [set_solver|].
  destruct (String.eqb_spec k' k) as [->|Hne]; cbn; [set_solver|]. set_solver.
Qed.

Lemma obj_set_wf l k v :
  json_wf (JObj l) → utf8_valid true k = true → json_wf v → json_wf (JObj (obj_set l k v)).
Proof.
  intros [Hnd Hw] Hk Hv. induction l as [|[k' v'] l IH]; cbn in *.
  { split; [apply NoDup_singleton|done]. }
  apply list.NoDup_cons in Hnd as [Hni Hnd]. destruct Hw as [[Hk' Hv'] Hw]. destruct (IH Hnd Hw) as [IH1 IH2].
  destruct (String.eqb_spec k' k) as [->|Hne]; cbn.
  - split; [by apply list.NoDup_cons|done].
  - split; [|done]. apply list.NoDup_cons. split; [|done]. rewrite obj_set_keys. naive_solver.
Qed.

Lemma close_data_wf reason extra :
  utf8_valid true reason = true → json_wf (JObj extra) → json_wf (JObj (close_data reason extra)).
Proof.
  intros Hr [_ Hw]. unfold close_data.
  assert (H0 : json_wf (JObj [("reason", JStr reason)])) by (split; [apply NoDup_singleton|repeat split; exact Hr]).
  revert H0. generalize [("reason", JStr reason)] as acc. induction extra as [|[k v] extra IH]; intros acc H0; [done|].
  destruct Hw as [[Hk Hv] Hw]. cbn [fold_left]. apply (IH Hw). by apply obj_set_wf.
Qed.

Lemma reason_type_terminal reason : default "Done" (reason_type reason) ∈ TERMINAL_TYPES.
Proof.
  unfold reason_type. destruct (head _) as [[r t]|] eqn:E; [|by_decide]. cbn.
  apply head_Some_elem_of, list_elem_of_filter in E as [_ E].
  unfold REASON_TO_TYPE in E. unfold TERMINAL_TYPES. set_solver.
Qed.

Section Writer.
Context {PF : Platform} {CV : Conversions}.

(** What an append leaves: the buffer as it was, or with one record more. *)
Lemma append_ok ts io type_ data b l b' res :
  buffer_ok b l → io = Written ∨ io = Failed "" → record_wf (mk_TurnRecord 0 ts type_ data) →
  buffer_append ts io type_ data b = (b', res) → fb_closed b = false →
  (fb_content b' = fb_content b ∧ fb_event b' = fb_event b ∧ fb_seq b' = fb_seq b ∧ fb_done b' = fb_done b ∧
    fb_closed b' = fb_closed b) ∨
  (let r := mk_TurnRecord (fb_seq b) ts type_ data in
   fb_content b' = file_of (l ++ [r]) ∧ fb_event b' = S (fb_event b) ∧ fb_seq b' = (fb_seq b + 1)%Z ∧
   fb_done b' = fb_done b ∧ fb_closed b' = fb_closed b ∧ record_wf r).
Proof.
  intros Hok Hio Hw H Hcl. unfold buffer_append in H. rewrite Hcl in H.
  destruct (is_final_client_frame type_ data) as [e|final]; [injection H as <- <-; by left|].
  set (b0 := if final then b <| fb_finishing := true |> else b) in H.
  assert (Hb0 : fb_content b0 = fb_content b ∧ fb_event b0 = fb_event b ∧ fb_seq b0 = fb_seq b ∧
    fb_done b0 = fb_done b ∧ fb_closed b0 = fb_closed b) by (unfold b0; by destruct final).
  clearbody b0. destruct Hb0 as (E1 & E2 & E3 & E4 & E5). destruct Hio as [Hio|Hio]; subst io; injection H as <- <-.
  - right. cbn. rewrite E1, E2, E3, E4, E5, (bo_content _ _ Hok), file_of_app.
    split_and!; [by rewrite file_of_cons, append_empty_r|done|done|done|done|apply Hw..].
  - left. cbn. by rewrite E1, append_empty_r.
Qed.

(** A write step keeps the invariant and only adds records. *)
Lemma grown_ok b l b' r :
  buffer_ok b l → fb_closed b = false → fb_content b' = file_of (l ++ [r]) → record_wf r → rec_seq r = fb_seq b →
  fb_seq b' = (fb_seq b + 1)%Z → fb_done b' = fb_closed b' → (is_terminal r = true → fb_closed b' = true) →
  buffer_ok b' (l ++ [r]).
Proof.
  intros [Hc Hw Hs Hn Hd Ht] Hcl Hc' Hwr Hsr Hs' Hd' Htr. split; try done.
  - apply Forall_app. split; [exact Hw|]. constructor; [exact Hwr|constructor].
  - rewrite Hs', Hs, length_app. cbn. lia.
  - intros i x [[_ Hi]|[-> <-]]%lookup_snoc_Some; [by apply Hn|congruence].
  - intros i x [[_ Hi]|[-> <-]]%lookup_snoc_Some Hx; [by destruct (Ht i x Hi Hx); congruence|].
    split; [by apply Htr|]. rewrite length_app. cbn. lia.
Qed.

Lemma same_ok b l b' :
  buffer_ok b l → fb_closed b = false → fb_content b' = fb_content b → fb_seq b' = fb_seq b →
  fb_done b' = fb_closed b' → buffer_ok b' l.
Proof.
  intros [Hc Hw Hs Hn Hd Ht] Hcl Hc' Hs' Hd'. split; try done; [congruence|congruence|].
  intros i x Hi Hx. destruct (Ht i x Hi Hx). congruence.
Qed.

(** Every write step: nothing, or one more record, or the close. *)
Definition grows (b b' : FileStreamBuffer) (l l' : list TurnRecord) : Prop :=
  buffer_ok b' l' ∧ (∃ more, l' = l ++ more) ∧ fb_event b ≤ fb_event b' ∧
  (fb_closed b = true → b' = b ∧ l' = l) ∧ (fb_event b' = fb_event b → l' = l ∧ fb_closed b' = fb_closed b).

Lemma append_grows ts io type_ data b l :
  buffer_ok b l → io = Written ∨ io = Failed "" → type_ ∉ TERMINAL_TYPES →
  record_wf (mk_TurnRecord 0 ts type_ data) →
  ∃ l', grows b (buffer_append ts io type_ data b).1 l l'.
Proof.
  intros Hok Hio Hty Hw. destruct (fb_closed b) eqn:Hcl.
  { exists l. unfold buffer_append. rewrite Hcl. cbn. split; [done|]. split; [exists []; by rewrite app_nil_r|]. done. }
  destruct (buffer_append ts io type_ data b) as [b' res] eqn:E. cbn [fst].
  destruct (append_ok _ _ _ _ _ _ _ _ Hok Hio Hw E Hcl) as [(Hc & He & Hs & Hd & Hx)|(Hc & He & Hs & Hd & Hx & Hwr)].
  - exists l. split; [|split; [exists []; by rewrite app_nil_r|split; [lia|split; [congruence|done]]]].
    apply (same_ok b); try done. by rewrite Hd, Hx, (bo_done _ _ Hok).
  - eexists. split; [|split; [by eexists|split; [lia|split; [congruence|lia]]]].
    eapply (grown_ok b); try done; [by rewrite Hd, Hx, (bo_done _ _ Hok)|].
    unfold is_terminal. cbn. by rewrite bool_decide_eq_false_2.
Qed.

Lemma close_grows ts io reason extra b l :
  buffer_ok b l → io = Written ∨ io = Failed "" → record_wf (mk_TurnRecord 0 ts reason extra) →
  ∃ l', grows b (buffer_close ts io reason extra b).1 l l'.
Proof.
  intros Hok Hio Hw. unfold buffer_close. destruct (fb_closed b) eqn:Hcl.
  { exists l. cbn. split; [done|]. split; [exists []; by rewrite app_nil_r|]. done. }
  destruct (buffer_append ts io _ (close_data reason extra) b) as [b' res] eqn:E.
  assert (Hwc : record_wf (mk_TurnRecord 0 ts (default "Done" (reason_type reason)) (close_data reason extra))).
  { destruct Hw as (Hts & Hr & Hx). split; [exact Hts|]. split; [|by apply close_data_wf].
    pose proof (reason_type_terminal reason) as Ht. revert Ht. generalize (default "Done" (reason_type reason)).
    intros x Hx'. cbn. unfold TERMINAL_TYPES in Hx'.
    repeat (apply elem_of_cons in Hx' as [->|Hx']; [done|]). by apply not_elem_of_nil in Hx'. }
  pose proof (append_ok _ _ _ _ _ _ _ _ Hok Hio Hwc E Hcl) as Hcase.
  assert (Hres : ∃ n, res = inr n).
  { unfold buffer_append in E. rewrite Hcl in E.
    assert (is_final_client_frame (default "Done" (reason_type reason)) (close_data reason extra) = inr true) as Hf.
    { unfold is_final_client_frame. rewrite bool_decide_eq_true_2; [done|].
      unfold reason_type. destruct (head _) as [[r t]|] eqn:Eh; [|by_decide]. cbn.
      apply head_Some_elem_of, list_elem_of_filter in Eh as [_ Eh]. unfold REASON_TO_TYPE in *. set_solver. }
    rewrite Hf in E. destruct Hio as [Hio|Hio]; subst io; injection E as <- <-; eauto. }
  destruct Hres as [n ->]. cbn [fst].
  set (b2 := update_field fb_event _ _).
  assert (Hb2 : fb_content b2 = fb_content b' ∧ fb_seq b2 = fb_seq b' ∧ fb_event b2 = S (fb_event b') ∧
    fb_closed b2 = true ∧ fb_done b2 = true) by done.
  clearbody b2. destruct Hb2 as (H1 & H2 & H3 & H4 & H5).
  destruct Hcase as [(Hc & He & Hs & Hd & Hx)|(Hc & He & Hs & Hd & Hx & Hwr)].
  - exists l. split; [|split; [exists []; by rewrite app_nil_r|split; [lia|split; [congruence|lia]]]].
    apply (same_ok b); congruence.
  - eexists. split; [|split; [by eexists|split; [lia|split; [congruence|lia]]]].
    eapply (grown_ok b); try done; congruence.
Qed.
End Writer.

(** ** The reader's invariant *)

Section ReaderFacts.
Context {PF : Platform} {CV : Conversions} (from_seq : Z).

Definition wanted (l : list TurnRecord) : list TurnRecord :=
  base.filter (λ r, (from_seq <= rec_seq r)%Z) l.

(** The reader has taken in the first [k] records of [l]. *)
Record reader_ok (b : FileStreamBuffer) (l : list TurnRecord) (r : Reader) (k : nat) : Prop := {
  ro_k : k ≤ length l;
  ro_new : rd_new r = {| nr_offset := String.length (file_of (take k l)); nr_partial := "" |};
  ro_at : match rd_at r with
    | Top => rd_out r = wanted (take k l)
    | Emitting w c batch t =>
        rd_out r ++ wanted batch = wanted (take k l) ∧ (∃ pre, take k l = pre ++ batch) ∧ w ≤ fb_event b ∧
        (w = fb_event b → k = length l ∧ c = fb_closed b) ∧
        (c = true → k = length l ∧ fb_closed b = true) ∧
        (t = true → batch = [] ∧ k = length l ∧ fb_closed b = true)
    | Waiting w => rd_out r = wanted (take k l) ∧ w ≤ fb_event b ∧
        (w = fb_event b → k = length l ∧ fb_closed b = false)
    | Returned => rd_out r = wanted l ∧ fb_closed b = true
    | Raised _ => False
    end;
}.

Lemma start_reader_ok b l : reader_ok b l start_reader 0.
Proof. split; [lia|done|done]. Qed.

(** What the reader does keeps its invariant. *)
Lemma tail_step_ok b l r k r' :
  buffer_ok b l → reader_ok b l r k → tail_step from_seq b r = Some r' → ∃ k', k ≤ k' ∧ reader_ok b l r' k'.
Proof.
  intros Hok [Hk Hn Hat] H. unfold tail_step in H. destruct (rd_at r) as [|w c batch t|w| |e] eqn:Ea.
  - rewrite Hn, (bo_content _ _ Hok) in H. rewrite <-(take_drop k l) in H at 2.
    rewrite read_file_from in H by (apply Forall_drop, Hok). rewrite take_drop in H.
    injection H as <-. exists (length l). split; [done|]. split; cbn; [done|by rewrite firstn_all|].
    rewrite firstn_all, Hat. unfold wanted. rewrite <-filter_app, take_drop.
    split_and!; [done|by exists (take k l); rewrite take_drop|done|done|done|done].
  - destruct Hat as (Ho & (pre & Hp) & Hw & Hwe & Hc & Ht). destruct batch as [|x batch].
    + injection H as <-. exists k. split; [done|]. split; [done|done|]. cbn.
      cbn in Ho. rewrite app_nil_r in Ho. destruct (t || c) eqn:Etc.
      * assert (Hend : k = length l ∧ fb_closed b = true).
        { apply orb_true_iff in Etc as [E|E]; [by destruct (Ht E) as (_ & ? & ?)|by apply Hc]. }
        destruct Hend as [-> Hcl]. by rewrite firstn_all in Ho.
      * apply orb_false_iff in Etc as [-> ->]. split_and!; [done|done|]. intros E.
        destruct (Hwe E) as [? ?]. by split.
    + exists k. split; [done|].
      assert (Htx : t = false) by (destruct t; [by destruct (Ht eq_refl)|done]).
      assert (Hterm : is_terminal x = true → batch = [] ∧ k = length l ∧ fb_closed b = true).
      { intros Hx. assert (Hi : take k l !! length pre = Some x) by (rewrite Hp; by apply list_lookup_middle).
        assert (Hlen : length (take k l) = length pre + S (length batch)) by (by rewrite Hp, length_app).
        apply lookup_take_Some in Hi as [Hi Hlt]. destruct (bo_terminal _ _ Hok _ _ Hi Hx) as [Hcl Hl].
        rewrite length_take in Hlen. destruct batch; [|cbn in Hlen; lia]. cbn in Hlen. split_and!; [done|lia|done]. }
      destruct (rec_seq x <? from_seq)%Z eqn:Es; injection H as <-; (split; [done|done|]); cbn.
      * unfold wanted in Ho. rewrite filter_cons_False in Ho by (apply Z.ltb_lt in Es; lia).
        split_and!; try done; [exists (pre ++ [x]); by rewrite Hp, <-(assoc_L (++))|by rewrite Htx].
      * unfold wanted in Ho. rewrite filter_cons_True in Ho by (apply Z.ltb_ge in Es; lia).
        split_and!; try done; [by rewrite <-(assoc_L (++))|exists (pre ++ [x]); by rewrite Hp, <-(assoc_L (++))|].
        by rewrite Htx.
  - destruct Hat as (Ho & Hw & Hwe). destruct (_ || _); [|done]. injection H as <-. exists k. by split.
  - done.
  - done.
Qed.

(** A write step keeps the reader's invariant. *)
Lemma grows_reader_ok b b' l l' r k : reader_ok b l r k → grows b b' l l' → reader_ok b' l' r k.
Proof.
  intros [Hk Hn Hat] (Hok & (more & ->) & He & Hcl & Hsame).
  assert (Ht : take k (l ++ more) = take k l) by (by rewrite take_app_le).
  assert (Hup : k = length l → fb_closed b = true → k = length (l ++ more) ∧ fb_closed b' = true).
  { intros -> Hc. destruct (Hcl Hc) as [-> El]. by rewrite El. }
  split; [rewrite length_app; lia|by rewrite Ht|]. rewrite Ht.
  destruct (rd_at r) as [|w c batch t|w| |e]; [done| | | |done].
  - destruct Hat as (Ho & Hp & Hw & Hwe & Hc & Hterm). split_and!; [done|done|lia| | |].
    + intros ->. assert (E : fb_event b' = fb_event b) by lia. destruct (Hsame E) as [-> ->]. apply Hwe. lia.
    + intros E. destruct (Hc E). auto.
    + intros E. destruct (Hterm E) as (? & ? & ?). split; [done|]. auto.
  - destruct Hat as (Ho & Hw & Hwe). split_and!; [done|lia|]. intros ->.
    assert (E : fb_event b' = fb_event b) by lia. destruct (Hsame E) as [-> ->]. apply Hwe. lia.
  - destruct Hat as [Ho Hc]. destruct (Hcl Hc) as [-> ->]. done.
Qed.

Lemma stream_step_ok b l r k b' r' :
  buffer_ok b l → reader_ok b l r k → stream_step from_seq (b, r) (b', r') →
  ∃ l' k', buffer_ok b' l' ∧ reader_ok b' l' r' k'.
Proof.
  intros Hok Hr H. inversion H as [ts io ty data ? ? Hio Hty Hw|ts io reason extra ? ? Hio Hw|? ? ? Hs]; subst.
  - destruct (append_grows ts io ty data b l Hok Hio Hty Hw) as (l' & Hg). exists l', k.
    split; [apply Hg|by eapply grows_reader_ok].
  - destruct (close_grows ts io reason extra b l Hok Hio Hw) as (l' & Hg). exists l', k.
    split; [apply Hg|by eapply grows_reader_ok].
  - destruct (tail_step_ok _ _ _ _ _ Hok Hr Hs) as (k' & _ & Hr'). by exists l, k'.
Qed.

Lemma stream_history_ok b r :
  rtc (stream_step from_seq) (open_buffer, start_reader) (b, r) → ∃ l k, buffer_ok b l ∧ reader_ok b l r k.
Proof.
  intros H. remember (open_buffer, start_reader) as s0. remember (b, r) as s1.
  assert (Hinv : ∀ s s', rtc (stream_step from_seq) s s' → (∃ l k, buffer_ok s.1 l ∧ reader_ok s.1 l s.2 k) →
    ∃ l k, buffer_ok s'.1 l ∧ reader_ok s'.1 l s'.2 k).
  { induction 1 as [s|s1' s2' s3' Hs _ IH]; [done|]. intros (l & k & Ho & Hr). apply IH.
    destruct s1' as [b1 r1], s2' as [b2 r2]. destruct (stream_step_ok _ _ _ _ _ _ Ho Hr Hs) as (l' & k' & ?). eauto. }
  destruct (Hinv _ _ H) as (l & k & Ho & Hr).
  - subst s0. exists [], 0. split; [apply open_buffer_ok|apply start_reader_ok].
  - subst s1. eauto.
Qed.
End ReaderFacts.

(** ** What the buffer promises *)

Section TailTheorems.
Context {PF : Platform} {CV : Conversions} (from_seq : Z).

(** The records a file holds. *)
Definition file_records (content : string) : exn + list TurnRecord :=
  (new_records_read new_NewRecords (Some content)).2.

Lemma buffer_ok_records b l : buffer_ok b l → file_records (fb_content b) = inr l.
Proof.
  intros Hok. unfold file_records. rewrite (bo_content _ _ Hok).
  pose proof (read_file_from [] l (bo_wf _ _ Hok)) as E. cbn [app] in E.
  change new_NewRecords with {| nr_offset := String.length (file_of []); nr_partial := "" |}. by rewrite E.
Qed.

(** what is appended is read back.  A record written to an open buffer whose
    file ends with a complete line is read from the file as the last record,
    with the sequence number [append] returned, the same type and the same
    data, and every earlier record reads as before. *)
Theorem append_read_back ts type_ data b b' n l :
  file_records (fb_content b) = inr l →
  nr_partial (new_records_read new_NewRecords (Some (fb_content b))).1 = "" →
  record_wf (mk_TurnRecord 0 ts type_ data) → fb_closed b = false →
  buffer_append ts Written type_ data b = (b', inr n) →
  file_records (fb_content b') = inr (l ++ [mk_TurnRecord n ts type_ data]).
Proof.
  intros Hl Hp Hw Hcl H. unfold file_records in *. cbn [new_records_read] in *.
  destruct (new_lines new_NewRecords (fb_content b)) as [lines st] eqn:E1. cbn [fst snd] in *.
  unfold buffer_append in H. rewrite Hcl in H. destruct (is_final_client_frame type_ data) as [e|final]; [done|].
  set (b0 := if final then _ else b) in H.
  assert (Hb0 : fb_content b0 = fb_content b ∧ fb_seq b0 = fb_seq b) by (unfold b0; by destruct final).
  clearbody b0. destruct Hb0 as [Ec Es]. injection H as <- <-.
  match goal with |- context [fb_content ?x] => change (fb_content x)
    with (String.append (fb_content b0) (record_line (mk_TurnRecord (fb_seq b0) ts type_ data))) end.
  rewrite Ec, Es. set (r := mk_TurnRecord (fb_seq b) ts type_ data).
  assert (Hr : record_wf r) by exact Hw.
  assert (Ho : nr_offset st = String.length (fb_content b)).
  { pose proof (new_lines_offset new_NewRecords (fb_content b)) as Hx. rewrite E1 in Hx. apply Hx. cbn. lia. }
  assert (E2 : ∃ st2, new_lines st (String.append (fb_content b) (record_line r)) = ([dumps (record_json r)], st2)).
  { rewrite new_lines_eq. cbn zeta. rewrite Hp, append_nil, Ho, str_drop_app, str_drop_all, append_nil by lia.
    unfold record_line. rewrite split_newline_line by (by apply no_newline_dumps, record_json_wf).
    eexists. reflexivity. }
  destruct E2 as (st2 & E2).
  rewrite (new_lines_compose new_NewRecords (fb_content b) (record_line r) _ _ _ _ ltac:(cbn; lia) E1 E2).
  cbn [snd]. rewrite parse_lines_app, Hl. cbn [parse_lines]. by rewrite parse_record_bytes_json.
Qed.

(** C4: a reader gets every record from its offset on, once and in order.
    Whatever the producer does meanwhile (appends, failed appends, the close)
    and however the steps interleave, the records a reader has been given are a
    prefix of the wanted records of the file; it never fails; and when it
    returns, the buffer is closed and it has been given all of them. *)
Theorem tail_exact b r :
  rtc (stream_step from_seq) (open_buffer, start_reader) (b, r) →
  ∃ l, file_records (fb_content b) = inr l ∧
    (∃ rest, wanted from_seq l = rd_out r ++ rest) ∧
    (rd_at r = Returned → fb_closed b = true ∧ rd_out r = wanted from_seq l) ∧
    (∀ e, rd_at r ≠ Raised e).
Proof.
  intros H. apply stream_history_ok in H as (l & k & Hok & [Hk _ Hat]).
  exists l. split; [by apply buffer_ok_records|].
  assert (Hpre : ∃ rest, wanted from_seq l = wanted from_seq (take k l) ++ rest).
  { exists (wanted from_seq (drop k l)). unfold wanted. by rewrite <-filter_app, take_drop. }
  destruct Hpre as [rest Hpre].
  destruct (rd_at r) as [|w c batch t|w| |e]; [| | | |done]; (split; [|split; [|done]]); try done.
  - rewrite Hat. eauto.
  - destruct Hat as (Ho & _). exists (wanted from_seq batch ++ rest). by rewrite Hpre, <-Ho, (assoc_L (++)).
  - destruct Hat as (-> & _). eauto.
  - destruct Hat as (-> & _). exists []. by rewrite app_nil_r.
  - intros _. naive_solver.
Qed.

(** no wake-up is lost.  A reader that is suspended and cannot go on has
    been given every wanted record of the file, and the buffer is still open:
    neither a record nor the close can slip in between its read and its
    wait. *)
Theorem tail_no_lost_wakeup b r w :
  rtc (stream_step from_seq) (open_buffer, start_reader) (b, r) →
  rd_at r = Waiting w → tail_step from_seq b r = None →
  fb_closed b = false ∧
  ∃ l, file_records (fb_content b) = inr l ∧ rd_out r = wanted from_seq l.
Proof.
  intros H Ha Hs. apply stream_history_ok in H as (l & k & Hok & [Hk _ Hat]).
  rewrite Ha in Hat. destruct Hat as (Ho & Hw & Hwe). unfold tail_step in Hs. rewrite Ha in Hs.
  destruct (_ || _) eqn:E; [done|]. apply orb_false_iff in E as [E _]. apply Nat.ltb_ge in E.
  destruct (Hwe ltac:(lia)) as [-> Hc]. split; [done|]. exists l. split; [by apply buffer_ok_records|].
  by rewrite firstn_all in Ho.
Qed.

(** The steps of the reader alone. *)
Definition reader_run (b : FileStreamBuffer) : Reader → Reader → Prop := rtc (λ r r', tail_step from_seq b r = Some r').

Lemma emit_batch b r w c batch t :
  rd_at r = Emitting w c batch t →
  ∃ r' t', reader_run b r r' ∧ rd_at r' = Emitting w c [] t'.
Proof.
  revert r t. induction batch as [|x batch IH]; intros r t Ha; [exists r, t; split; [apply rtc_refl|done]|].
  destruct (tail_step from_seq b r) as [r1|] eqn:E.
  - assert (Hn : ∃ t1, rd_at r1 = Emitting w c batch t1).
    { unfold tail_step in E. rewrite Ha in E. destruct (_ <? _)%Z; injection E as <-; eauto. }
    destruct Hn as (t1 & Hn). destruct (IH _ _ Hn) as (r' & t' & Hr & Hx). exists r', t'.
    split; [|done]. by eapply rtc_l.
  - unfold tail_step in E. rewrite Ha in E. by destruct (_ <? _)%Z.
Qed.

Lemma emitting_ends b r w batch t :
  rd_at r = Emitting w true batch t → ∃ r', reader_run b r r' ∧ rd_at r' = Returned.
Proof.
  intros Ha. destruct (emit_batch b _ _ _ _ _ Ha) as (r1 & t1 & Hr & H1). eexists. split.
  - eapply rtc_r; [exact Hr|]. unfold tail_step. rewrite H1. reflexivity.
  - cbn. by rewrite orb_true_r.
Qed.

Lemma top_ends b l r k :
  buffer_ok b l → reader_ok from_seq b l r k → fb_closed b = true → rd_at r = Top →
  ∃ r', reader_run b r r' ∧ rd_at r' = Returned.
Proof.
  intros Hok Hr Hcl Ha. destruct (tail_step from_seq b r) as [r1|] eqn:E.
  - destruct (tail_step_ok _ _ _ _ _ _ Hok Hr E) as (k1 & _ & [_ _ Hat]).
    assert (Hn : (∃ batch, rd_at r1 = Emitting (fb_event b) true batch false) ∨ (∃ e, rd_at r1 = Raised e)).
    { unfold tail_step in E. rewrite Ha, Hcl in E. destruct (new_records_read _ _) as [st [e|batch]]; injection E as <-; eauto. }
    destruct Hn as [(batch & Hn)|(e & Hn)]; [|by rewrite Hn in Hat].
    destruct (emitting_ends b _ _ _ _ Hn) as (r2 & H2 & ?). exists r2. split; [|done]. by eapply rtc_l.
  - unfold tail_step in E. rewrite Ha in E. by destruct (new_records_read _ _) as [st [e|batch]].
Qed.

Lemma waiting_ends b l r k w :
  buffer_ok b l → reader_ok from_seq b l r k → fb_closed b = true → rd_at r = Waiting w →
  ∃ r', reader_run b r r' ∧ rd_at r' = Returned.
Proof.
  intros Hok Hr Hcl Ha.
  assert (E : tail_step from_seq b r = Some {| rd_new := rd_new r; rd_out := rd_out r; rd_at := Top |}).
  { unfold tail_step. by rewrite Ha, (bo_done _ _ Hok), Hcl, orb_true_r. }
  destruct (tail_step_ok _ _ _ _ _ _ Hok Hr E) as (k1 & _ & Hr1).
  destruct (top_ends _ _ _ _ Hok Hr1 Hcl eq_refl) as (r' & Hrun & ?). exists r'. split; [|done]. by eapply rtc_l.
Qed.

Lemma reader_run_ok b l r k r' :
  buffer_ok b l → reader_ok from_seq b l r k → reader_run b r r' → ∃ k', reader_ok from_seq b l r' k'.
Proof.
  intros Hok Hr H. revert k Hr. induction H as [r|r1 r2 r3 H1 _ IH]; intros k Hr; [eauto|].
  destruct (tail_step_ok _ _ _ _ _ _ Hok Hr H1) as (k' & _ & Hr'). eauto.
Qed.

(** a closed buffer ends its readers.  Once the buffer is closed, a reader
    in whatever state (reading, giving out a batch, or suspended) reaches the
    end of its stream by its own steps alone, with every wanted record given
    out. *)
Theorem tail_ends b r :
  rtc (stream_step from_seq) (open_buffer, start_reader) (b, r) → fb_closed b = true →
  ∃ r' l, reader_run b r r' ∧ rd_at r' = Returned ∧
    file_records (fb_content b) = inr l ∧ rd_out r' = wanted from_seq l.
Proof.
  intros H Hcl. destruct (stream_history_ok _ _ _ H) as (l & k & Hok & Hr).
  assert (Hend : ∃ r', reader_run b r r' ∧ rd_at r' = Returned).
  { destruct (rd_at r) as [|w c batch t|w| |e] eqn:Ha.
    - by eapply top_ends.
    - destruct (emit_batch b _ _ _ _ _ Ha) as (r1 & t1 & Hrun & H1).
      destruct (reader_run_ok _ _ _ _ _ Hok Hr Hrun) as (k1 & Hr1).
      assert (E : tail_step from_seq b r1 = Some {| rd_new := rd_new r1; rd_out := rd_out r1;
        rd_at := if t1 || c then Returned else Waiting w |}) by (unfold tail_step; by rewrite H1).
      destruct (tail_step_ok _ _ _ _ _ _ Hok Hr1 E) as (k2 & _ & Hr2). destruct (t1 || c).
      + eexists. split; [eapply rtc_r; [exact Hrun|exact E]|done].
      + destruct (waiting_ends _ _ _ _ _ Hok Hr2 Hcl eq_refl) as (r' & Hrun' & ?). exists r'. split; [|done].
        etrans; [exact Hrun|]. by eapply rtc_l.
    - by eapply waiting_ends.
    - exists r. split; [apply rtc_refl|done].
    - destruct Hr as [_ _ Hat]. by rewrite Ha in Hat. }
  destruct Hend as (r' & Hrun & Ha). destruct (reader_run_ok _ _ _ _ _ Hok Hr Hrun) as (k' & [_ _ Hat]).
  rewrite Ha in Hat. exists r', l. split_and!; try done; [by apply buffer_ok_records|apply Hat].
Qed.
End TailTheorems.

(** ** A concrete turn *)

#[local] Instance plain_conversions : Conversions := {|
  int_of_text s := inl (ValueError s); dict_of_value v := inl (TypeError "dict") |}.
#[local] Existing Instance plain_platform.

Definition demo_frame : list (string * json) := [("sse", JStr "event: response.output_text.delta")].

Lemma demo_frame_wf n : record_wf (mk_TurnRecord n "now" "sse" demo_frame).
Proof. repeat split; by_decide. Qed.

Lemma demo_close_wf : record_wf (mk_TurnRecord 0 "now" "completed" []).
Proof. repeat split. constructor. Qed.

Definition demo_open : FileStreamBuffer := (buffer_append "now" Written "sse" demo_frame open_buffer).1.
Definition demo_closed : FileStreamBuffer := (buffer_close "now" Written "completed" [] demo_open).1.

Lemma demo_history : rtc (stream_step 0) (open_buffer, start_reader) (demo_closed, start_reader).
Proof.
  eapply rtc_l; [apply (step_append 0 "now" Written "sse" demo_frame);
    [by left|by_decide|apply demo_frame_wf]|].
  apply rtc_once. apply (step_close 0 "now" Written "completed" []); [by left|apply demo_close_wf].
Qed.

Lemma new_records_incremental_witness :
  join_reads (read_growing new_NewRecords ""
    (let line := record_line (mk_TurnRecord 0 "now" "sse" demo_frame) in
     [String.substring 0 20 line; String.substring 20 1000 line])).2 =
  inr [mk_TurnRecord 0 "now" "sse" demo_frame].
Proof.
  rewrite (new_records_incremental (let line := record_line (mk_TurnRecord 0 "now" "sse" demo_frame) in
     [String.substring 0 20 line; String.substring 20 1000 line])).
  - vm_compute. reflexivity.
  - discriminate.
Defined.

Lemma append_read_back_witness :
  file_records (fb_content demo_open) = inr ([] ++ [mk_TurnRecord 0 "now" "sse" demo_frame]).
Proof.
  apply (append_read_back "now" "sse" demo_frame open_buffer demo_open 0 []).
  - vm_compute. reflexivity.
  - vm_compute. reflexivity.
  - apply demo_frame_wf.
  - reflexivity.
  - vm_compute. reflexivity.
Defined.

Lemma tail_exact_witness :
  ∃ l, file_records (fb_content demo_closed) = inr l ∧ ∃ rest, wanted 0 l = [] ++ rest.
Proof.
  destruct (tail_exact 0 demo_closed start_reader demo_history) as (l & Hl & Hr & _).
  exists l. exact (conj Hl Hr).
Defined.

Definition demo_waiting : Reader := {| rd_new := new_NewRecords; rd_out := []; rd_at := Waiting 0 |}.

Lemma tail_no_lost_wakeup_witness : fb_closed open_buffer = false.
Proof.
  refine (proj1 (tail_no_lost_wakeup 0 open_buffer demo_waiting 0 _ eq_refl eq_refl)).
  eapply rtc_l; [apply step_tail; vm_compute; reflexivity|].
  apply rtc_once, step_tail. vm_compute. reflexivity.
Defined.

Lemma tail_ends_witness :
  ∃ r', reader_run 0 demo_closed start_reader r' ∧ rd_at r' = Returned.
Proof.
  destruct (tail_ends 0 demo_closed start_reader demo_history eq_refl) as (r' & l & Hr & Ha & _).
  exists r'. exact (conj Hr Ha).
Defined.
