(* ===== verification/RedisStream.v ===== *)
(** * The entries of a Redis stream.

    An append-only list of entries whose ids grow, all above [0-0]; [after] is
    what [XREAD] and [XRANGE] select beyond an id. *)
From stdpp Require Import base list gmap sorting.
From Stdlib Require Import Lia.
From S2P Require Import Prelude.

Section Entries.
Context {A : Type}.
Implicit Types (l P rest : list (nat * A)).

Definition ids_grow l : Prop := StronglySorted lt (0 :: map fst l).

Definition last_id l : nat := default 0 (fst <$> list.last l).

Definition after (last : nat) l : list (nat * A) := base.filter (λ e, last < e.1) l.

Lemma last_id_snoc l id a : last_id (l ++ [(id, a)]) = id.
Proof. unfold last_id. by rewrite last_snoc. Qed.

(** Reading after the last id of a prefix gives the rest. *)
Lemma after_rest P rest : ids_grow (P ++ rest) → after (last_id P) (P ++ rest) = rest.
Proof.
  unfold ids_grow, after. intros Hs. rewrite map_app in Hs. rewrite list.filter_app.
  assert (Hall : Forall (λ i, last_id P < i) (map fst rest) ∧ Forall (λ e, ¬ last_id P < e.1) P).
  { destruct P as [|e P'] using rev_ind.
    - split; [|constructor]. apply StronglySorted_inv in Hs as [_ Hs]. exact Hs.
    - clear IHP'. destruct e as [i a]. rewrite last_id_snoc. rewrite map_app in Hs. cbn in Hs.
      apply StronglySorted_inv in Hs as [Hs _]. rewrite <-app_assoc in Hs.
      apply StronglySorted_app in Hs as (Hcross & _ & Hs). cbn in Hs, Hcross.
      apply StronglySorted_inv in Hs as [_ Hs]. split; [exact Hs|].
      apply list.Forall_forall. intros e [He|He]%elem_of_app.
      + assert (Hlt : e.1 < i); [|lia]. apply Hcross; [|set_solver]. apply list_elem_of_fmap. eauto.
      + apply list_elem_of_singleton in He as ->. cbn. lia. }
  destruct Hall as [H1 H2]. rewrite (filter_none _ P) by done. cbn. apply filter_every.
  apply list.Forall_forall. intros e He. rewrite list.Forall_forall in H1. apply H1, list_elem_of_fmap. eauto.
Qed.

(** The entries after an id are the end of the stream. *)
Lemma after_split n l : ids_grow l → ∃ pre, l = pre ++ after n l ∧ Forall (λ e, e.1 ≤ n) pre.
Proof.
  unfold ids_grow, after. intros [Hs _]%StronglySorted_inv. induction l as [|[i a] l IH]; [by exists []|].
  cbn in Hs. apply StronglySorted_inv in Hs as [Hs Hi]. destruct (decide (n < i)) as [Hlt|Hge].
  - exists []. split; [|constructor]. cbn [app]. symmetry. apply filter_every. constructor; [done|].
    apply list.Forall_forall. intros e He. rewrite list.Forall_forall in Hi.
    assert (i < e.1); [|lia]. apply Hi, list_elem_of_fmap. eauto.
  - destruct (IH Hs) as (pre & E & Hp). exists ((i, a) :: pre). rewrite list.filter_cons_False by done.
    cbn. rewrite <-E. split; [done|]. constructor; [cbn; lia|done].
Qed.

(** What precedes an entry has smaller ids. *)
Lemma ids_before P id a rest : ids_grow (P ++ (id, a) :: rest) → Forall (λ e, e.1 ≤ id) P.
Proof.
  unfold ids_grow. intros [Hs _]%StronglySorted_inv. rewrite map_app in Hs.
  apply StronglySorted_app in Hs as (Hc & _ & _). apply list.Forall_forall. intros e He.
  apply Nat.lt_le_incl, Hc; [|cbn; set_solver]. apply list_elem_of_fmap. eauto.
Qed.

(** An entry that [XADD] appends. *)
Lemma ids_grow_snoc l id a : ids_grow l → last_id l < id → ids_grow (l ++ [(id, a)]).
Proof.
  unfold ids_grow. intros Hs Hlt. rewrite map_app. cbn [map fst].
  change (0 :: map fst l ++ [id]) with ((0 :: map fst l) ++ [id]).
  apply StronglySorted_app. split; [|split; [done|constructor; constructor]].
  intros i j Hi Hj%list_elem_of_singleton. subst j.
  destruct l as [|[k b] l'] using rev_ind; cbn in Hi, Hlt.
  - apply list_elem_of_singleton in Hi as ->. done.
  - clear IHl'. rewrite last_id_snoc in Hlt. rewrite map_app in Hs, Hi. cbn in Hs, Hi.
    change (0 :: map fst l' ++ [k]) with ((0 :: map fst l') ++ [k]) in Hs.
    apply StronglySorted_app in Hs as (Hcross & _ & _).
    assert (Hi' : i ∈ 0 :: map fst l' ∨ i = k) by set_solver.
    destruct Hi' as [Hi'| ->]; [|done]. assert (i < k); [|lia]. apply Hcross; [done|set_solver].
Qed.

Lemma ids_grow_snoc_inv l id a : ids_grow (l ++ [(id, a)]) → ids_grow l ∧ last_id l < id.
Proof.
  unfold ids_grow. rewrite map_app. cbn [map fst].
  change (0 :: map fst l ++ [id]) with ((0 :: map fst l) ++ [id]).
  intros (Hc & Hs & _)%StronglySorted_app. split; [done|]. apply Hc; [|set_solver].
  destruct l as [|[k b] l' _] using rev_ind; [left|]. rewrite last_id_snoc, map_app. set_solver.
Qed.

End Entries.
