(* ===== verification/RedisBuffer.v ===== *)
(** * Turn buffers kept in Redis.

    [RedisStreamBuffer] of [src/cowork/streaming/buffer.py]: a Redis Stream per
    turn, written by the replica that runs the turn and read by any.  [tail] is a
    machine that takes one step per [await] or [yield]; between two of its steps
    any replica may have added entries, and the stream may have been deleted.

    Redis itself is a parameter: [RedisServer] lists the commands the buffer
    uses and what their documentation promises of a stream, an append-only
    sequence of entries with growing ids.  Nothing is promised of the ids of a
    stream that is deleted and begun again: they may start below the old ones.
    Entries are kept as the records [_record] rebuilds from their fields. *)
From stdpp Require Import base list gmap strings option relations sorting.
From Stdlib Require Import ZArith Lia.
From S2P Require Import Prelude JsonText RedisStream StreamBuffer StreamTail.

Definition REDIS_TAIL_IDLE_TIMEOUT_SECONDS : Z := 300.
Definition BLOCK_MS : Z := 5000.

(** [stream_key]. *)
Definition stream_key (conversation_id : string) (turn_id : Z) : string :=
  String.append "cowork:stream:" (String.append conversation_id (String.append ":" (pretty.pretty turn_id))).

(** ** The server *)

Class RedisServer := {
  Db : Type;
  (** The entries of a stream, oldest first ([XRANGE key]). *)
  stream : Db → string → list (nat * TurnRecord);
  (** [XADD key *] and [DEL key]. *)
  xadd : string → TurnRecord → Db → Db;
  del : string → Db → Db;
  stream_xadd : ∀ key rec db, ∃ id, stream (xadd key rec db) key = stream db key ++ [(id, rec)];
  stream_xadd_ne : ∀ key key' rec db, key ≠ key' → stream (xadd key rec db) key' = stream db key';
  stream_del : ∀ key db, stream (del key db) key = [];
  stream_del_ne : ∀ key key' db, key ≠ key' → stream (del key db) key' = stream db key';
  (** Ids grow along a stream, and [0-0] is below all of them. *)
  stream_ids : ∀ db key, StronglySorted lt (0 :: map fst (stream db key));
}.

Section Redis.
Context {RS : RedisServer} (key : string).

(** [XREAD] after an id, and [XREVRANGE key count=1]. *)
Definition xread (last : nat) (db : Db) : list (nat * TurnRecord) :=
  after last (stream db key).
Definition xrevrange1 (db : Db) : option TurnRecord := snd <$> list.last (stream db key).

(** ** The buffer object of one process *)

Record RedisStreamBuffer := {
  rb_next_seq : Z;
  rb_closed : bool;
  rb_finishing : bool;
}.

#[export] Instance fields_RedisStreamBuffer : Fields RedisStreamBuffer := λ b, {|
  rb_next_seq := rb_next_seq b; rb_closed := rb_closed b; rb_finishing := rb_finishing b |}.

(** [__init__]. *)
Definition new_redis_buffer : RedisStreamBuffer := {|
  rb_next_seq := 0; rb_closed := false; rb_finishing := false |}.

(** [append]; [io] is the exception the pipeline raised, if it did.  The
    number of a record that could not be written is not used again. *)
Definition redis_append (ts : string) (io : option exn) (type_ : string) (data : list (string * json))
    (b : RedisStreamBuffer) (db : Db) : RedisStreamBuffer * Db * (exn + Z) :=
  match is_final_client_frame type_ data with
  | inl e => (b, db, inl e)
  | inr final =>
      let b := if final : bool then b <| rb_finishing := true |> else b in
      let seq := rb_next_seq b in
      let b := b <| rb_next_seq := (seq + 1)%Z |> in
      match io with
      | Some e => (b, db, inl e)
      | None => (b, xadd key (mk_TurnRecord seq ts type_ data) db, inr seq)
      end
  end.

(** [close]: [_closed] only once the terminal record is written. *)
Definition redis_close (ts : string) (io : option exn) (reason : string) (extra : list (string * json))
    (b : RedisStreamBuffer) (db : Db) : RedisStreamBuffer * Db * (exn + ()) :=
  if rb_closed b then (b, db, inr ())
  else
    match reason_type reason with
    | None => (b, db, inl (KeyError reason))
    | Some type_ =>
        match redis_append ts io type_ (close_data reason extra) b db with
        | (b, db, inl e) => (b, db, inl e)
        | (b, db, inr _) => (b <| rb_closed := true |>, db, inr ())
        end
    end.

(** [clear_if_ended]. *)
Definition clear_if_ended (db : Db) : Db :=
  match xrevrange1 db with
  | Some rec => if is_terminal rec then del key db else db
  | None => db
  end.

(** [refresh]. *)
Definition redis_refresh (b : RedisStreamBuffer) (db : Db) : RedisStreamBuffer * (exn + ()) :=
  match xrevrange1 db with
  | None => (b <| rb_next_seq := 0%Z |> <| rb_closed := true |>, inr ())
  | Some rec =>
      let b := b <| rb_next_seq := (rec_seq rec + 1)%Z |> <| rb_closed := is_terminal rec |> in
      match is_final_client_frame (rec_type rec) (rec_data rec) with
      | inl e => (b, inl e)
      | inr final => (b <| rb_finishing := final |>, inr ())
      end
  end.

(** ** The reader *)

Inductive redis_at :=
  | Connecting                                  (* before the XRANGE *)
  | Replaying (todo : list (nat * TurnRecord))
  | Polling                                     (* in an XREAD *)
  | Delivering (todo : list (nat * TurnRecord))
  | Abandoned                                   (* idle too long: before the XREVRANGE *)
  | Sealing (next_seq : Z)                      (* before close("interrupted") writes *)
  | Reporting                                   (* before the last XREVRANGE *)
  | Ended                                       (* a terminal record was read *)
  | EndedOrphan                                 (* after _terminate_as_orphan *)
  | Broken (e : exn).

Record RedisReader := {
  rr_last : nat;
  rr_idle : Z;
  rr_out : list TurnRecord;
  rr_at : redis_at;
}.

#[export] Instance fields_RedisReader : Fields RedisReader := λ r, {|
  rr_last := rr_last r; rr_idle := rr_idle r; rr_out := rr_out r; rr_at := rr_at r |}.

Definition start_redis_reader : RedisReader := {|
  rr_last := 0; rr_idle := 0; rr_out := []; rr_at := Connecting |}.

Definition ORPHAN_ERROR : list (string * json) :=
  [("error", JStr "the worker running this turn stopped responding")].

Context (from_seq : Z).

(** One entry of a batch: remembered, and yielded from [from_seq] on; the
    terminal record ends the tail. *)
Definition deliver (again : list (nat * TurnRecord) → redis_at) (id : nat) (rec : TurnRecord)
    (todo : list (nat * TurnRecord)) (r : RedisReader) : RedisReader :=
  let r := r <| rr_last := id |> in
  if (rec_seq rec <? from_seq)%Z then r <| rr_at := again todo |>
  else
    r <| rr_out := rr_out r ++ [rec] |>
      <| rr_at := if is_terminal rec then Ended else again todo |>.

(** One step of [tail], [_terminate_as_orphan] included: what it reads from
    or does to the server; [io] is the exception its write raised, if it did.
    [None] when it has returned. *)
Definition redis_tail_step (ts : string) (io : option exn) (db : Db) (r : RedisReader) : option (Db * RedisReader) :=
  match rr_at r with
  | Connecting => Some (db, r <| rr_at := Replaying (stream db key) |>)
  | Replaying ((id, rec) :: todo) => Some (db, deliver Replaying id rec todo r)
  | Replaying [] => Some (db, r <| rr_idle := 0%Z |> <| rr_at := Polling |>)
  | Polling =>
      match xread (rr_last r) db with
      | [] =>
          let idle := (rr_idle r + BLOCK_MS)%Z in
          Some (db, r <| rr_idle := idle |>
                      <| rr_at := if (REDIS_TAIL_IDLE_TIMEOUT_SECONDS * 1000 <=? idle)%Z
                                  then Abandoned else Polling |>)
      | todo => Some (db, r <| rr_idle := 0%Z |> <| rr_at := Delivering todo |>)
      end
  | Delivering ((id, rec) :: todo) => Some (db, deliver Delivering id rec todo r)
  | Delivering [] => Some (db, r <| rr_at := Polling |>)
  | Abandoned =>
      match xrevrange1 db with
      | Some rec =>
          if is_terminal rec
          then Some (db, r <| rr_out := rr_out r ++ [rec] |> <| rr_at := EndedOrphan |>)
          else Some (db, r <| rr_at := Sealing (rec_seq rec + 1)%Z |>)
      | None => Some (db, r <| rr_at := Sealing 0%Z |>)
      end
  | Sealing next_seq =>
      let b := {| rb_next_seq := next_seq; rb_closed := false; rb_finishing := false |} in
      match redis_close ts io "interrupted" ORPHAN_ERROR b db with
      | (_, db, inr _) => Some (db, r <| rr_at := Reporting |>)
      | (_, db, inl e) => Some (db, r <| rr_at := Broken e |>)
      end
  | Reporting =>
      Some (db, r <| rr_out := match xrevrange1 db with Some rec => rr_out r ++ [rec] | None => rr_out r end |>
                  <| rr_at := EndedOrphan |>)
  | Ended | EndedOrphan | Broken _ => None
  end.

(** A reader among other replicas, which add entries and delete the stream:
    [clear_if_ended] before a new turn at the same number (its test and its
    [DEL] are two commands, so the [DEL] may hit entries added in between),
    [_remove_redis_buffers] with the conversation, or the server when the key
    expires.  [gone] records the entries deleted so far. *)
Record RedisWorld := mk_RedisWorld {
  w_db : Db;
  w_reader : RedisReader;
  w_gone : list (nat * TurnRecord);
}.

Inductive redis_step : RedisWorld → RedisWorld → Prop :=
  | others_add rec db r gone : redis_step (mk_RedisWorld db r gone) (mk_RedisWorld (xadd key rec db) r gone)
  | others_delete db r gone :
      redis_step (mk_RedisWorld db r gone) (mk_RedisWorld (del key db) r (gone ++ stream db key))
  | reader_steps ts io db r gone db' r' :
      redis_tail_step ts io db r = Some (db', r') →
      redis_step (mk_RedisWorld db r gone) (mk_RedisWorld db' r' gone).

(** Every entry there has been, in order. *)
Definition entries_so_far (w : RedisWorld) : list (nat * TurnRecord) := w_gone w ++ stream (w_db w) key.

(** ** What a reader is owed *)

Definition wanted (l : list (nat * TurnRecord)) : list TurnRecord :=
  base.filter (λ rec, (from_seq ≤ rec_seq rec)%Z) (map snd l).

(** The records up to the first terminal one. *)
Fixpoint until_terminal (l : list TurnRecord) : list TurnRecord :=
  match l with
  | [] => []
  | rec :: l' => if is_terminal rec then [rec] else rec :: until_terminal l'
  end.

Definition no_terminal (l : list TurnRecord) : Prop := Forall (λ rec, is_terminal rec = false) l.
End Redis.

(** ** Reading *)

Section Reading.
Context {RS : RedisServer} (key : string) (from_seq : Z).

Abbreviation wanted := (wanted from_seq).
Abbreviation step := (redis_tail_step key from_seq).

(** The terminal record a reader writes for a turn that stopped. *)
Definition orphan_record (seq : Z) (ts : string) : TurnRecord :=
  mk_TurnRecord seq ts "Interrupted" (close_data "interrupted" ORPHAN_ERROR).

Lemma wanted_app l1 l2 : wanted (l1 ++ l2) = wanted l1 ++ wanted l2.
Proof. unfold RedisBuffer.wanted. by rewrite map_app, list.filter_app. Qed.

(** [XREAD] after the last id of a prefix returns the rest of the stream. *)
Lemma xread_rest db P rest : stream db key = P ++ rest → xread key (last_id P) db = rest.
Proof.
  intros E. unfold xread. pose proof (stream_ids db key) as Hs. rewrite E in Hs |- *. by apply after_rest.
Qed.

(** What has been consumed: the entries of [P] are read, those of [rest] are
    not; everything wanted of [P] was yielded and was not terminal. *)
Definition consumed (E : list (nat * TurnRecord)) (r : RedisReader) (todo : list (nat * TurnRecord)) : Prop :=
  ∃ P rest, E = P ++ todo ++ rest ∧ rr_out r = wanted P ∧ no_terminal (wanted P) ∧ rr_last r = last_id P.

(** How far a reader is, against the stream. *)
Definition reader_ok (E : list (nat * TurnRecord)) (r : RedisReader) : Prop :=
  match rr_at r with
  | Connecting => rr_out r = [] ∧ rr_last r = 0
  | Replaying todo | Delivering todo => consumed E r todo
  | Polling | Abandoned | Sealing _ | Broken _ => consumed E r []
  | Reporting => consumed E r [] ∧ E ≠ []
  | Ended =>
      ∃ P id rec rest, E = P ++ (id, rec) :: rest ∧ (from_seq ≤ rec_seq rec)%Z ∧ is_terminal rec = true ∧
        no_terminal (wanted P) ∧ rr_out r = wanted P ++ [rec]
  | EndedOrphan =>
      ∃ P rest rec, E = P ++ rest ∧ no_terminal (wanted P) ∧ rec ∈ map snd E ∧ rr_out r = wanted P ++ [rec]
  end.

Lemma consumed_grows E E' r todo : consumed E r todo → consumed (E ++ E') r todo.
Proof. intros (P & rest & -> & H). exists P, (rest ++ E'). by rewrite <-!app_assoc. Qed.

Lemma reader_ok_grows E E' r : reader_ok E r → reader_ok (E ++ E') r.
Proof.
  unfold reader_ok. destruct (rr_at r); try done; try apply consumed_grows.
  - intros [H Hne]. split; [by apply consumed_grows|]. by destruct E.
  - intros (P & id & rec & rest & -> & H). exists P, id, rec, (rest ++ E'). by rewrite <-app_assoc.
  - intros (P & rest & rec & -> & Hn & H1 & H2). exists P, (rest ++ E'), rec. rewrite <-app_assoc.
    split; [done|]. split; [done|]. split; [|done]. rewrite app_assoc, map_app. set_solver.
Qed.

Lemma wanted_snoc P id rec :
  wanted (P ++ [(id, rec)]) = wanted P ++ if (rec_seq rec <? from_seq)%Z then [] else [rec].
Proof.
  rewrite wanted_app. f_equal. unfold RedisBuffer.wanted. cbn [map snd].
  destruct (Z.ltb_spec (rec_seq rec) from_seq).
  - rewrite list.filter_cons_False by lia. done.
  - rewrite list.filter_cons_True by lia. done.
Qed.

(** Delivering one entry. *)
Lemma deliver_ok E r again id rec todo :
  (∀ l, again l = Replaying l ∨ again l = Delivering l) →
  consumed E r ((id, rec) :: todo) → reader_ok E (deliver from_seq again id rec todo r).
Proof.
  intros Hag (P & rest & -> & Hout & Hn & Hl). unfold deliver.
  assert (Hc : ∀ r', rr_out r' = wanted (P ++ [(id, rec)]) → no_terminal (wanted (P ++ [(id, rec)])) →
    rr_last r' = id → consumed (P ++ ((id, rec) :: todo) ++ rest) r' todo).
  { intros r' Ho Hn' Hl'. exists (P ++ [(id, rec)]), rest. rewrite last_id_snoc, <-app_assoc. done. }
  assert (Hok : ∀ r', rr_at r' = again todo → consumed (P ++ ((id, rec) :: todo) ++ rest) r' todo →
    reader_ok (P ++ ((id, rec) :: todo) ++ rest) r').
  { intros r' Ha H. unfold reader_ok. rewrite Ha. destruct (Hag todo) as [-> | ->]; exact H. }
  pose proof (wanted_snoc P id rec) as Hw. destruct (rec_seq rec <? from_seq)%Z eqn:Es.
  - rewrite app_nil_r in Hw. apply Hok; [done|]. apply Hc; cbn; rewrite ?Hw; done.
  - apply Z.ltb_ge in Es. destruct (is_terminal rec) eqn:Et.
    + unfold reader_ok. cbn. exists P, id, rec, (todo ++ rest). rewrite Hout. done.
    + apply Hok; [done|]. apply Hc; [cbn; by rewrite Hout, Hw| |done]. rewrite Hw.
      unfold no_terminal. apply list.Forall_app. split; [exact Hn|]. by repeat constructor.
Qed.

Lemma xrevrange1_elem db rec : xrevrange1 key db = Some rec → rec ∈ map snd (stream db key).
Proof.
  unfold xrevrange1. destruct (list.last (stream db key)) as [e|] eqn:El; [|done]. intros [= <-].
  apply list_elem_of_fmap. exists e. split; [done|]. by apply last_Some_elem_of.
Qed.

(** A step of the reader, on the stream it leaves. *)
Lemma redis_tail_step_ok ts io db r db' r' :
  step ts io db r = Some (db', r') → reader_ok (stream db key) r → reader_ok (stream db' key) r'.
Proof.
  unfold redis_tail_step. destruct (rr_at r) as [|todo| |todo| |n| | | |e] eqn:Ea; intros H Hr; try done;
    unfold reader_ok in Hr; rewrite Ea in Hr.
  - injection H as <- <-. destruct Hr as [H1 H2]. unfold reader_ok. cbn.
    exists [], []. split; [by rewrite app_nil_r|]. split; [exact H1|]. split; [constructor|exact H2].
  - destruct todo as [|[id rec] todo]; injection H as <- <-.
    + exact Hr.
    + apply deliver_ok; [auto|done].
  - destruct (xread key (rr_last r) db) as [|e todo] eqn:Ex; injection H as <- <-.
    + unfold reader_ok. cbn. by destruct (_ <=? _)%Z.
    + destruct Hr as (P & rest & E & Ho & Hn & Hl). cbn in E. unfold reader_ok. cbn.
      rewrite Hl, (xread_rest db P rest E) in Ex. subst rest.
      exists P, []. rewrite app_nil_r. done.
  - destruct todo as [|[id rec] todo]; injection H as <- <-; [exact Hr|]. apply deliver_ok; [auto|done].
  - destruct (xrevrange1 key db) as [rec|] eqn:Ex; [|injection H as <- <-; exact Hr].
    destruct (is_terminal rec); injection H as <- <-; [|exact Hr].
    destruct Hr as (P & rest & E & Ho & Hn & Hl). unfold reader_ok. cbn. exists P, rest, rec.
    rewrite Ho. split; [done|]. split; [done|]. split; [|done]. by apply xrevrange1_elem.
  - cbn in H. destruct io as [e|]; injection H as <- <-; [exact Hr|].
    destruct (stream_xadd key (orphan_record n ts) db) as [id Hid]. unfold reader_ok. cbn [rr_at update_field]. 
    apply (consumed_grows _ [(id, orphan_record n ts)]) in Hr.
    rewrite <-Hid in Hr. split; [exact Hr|].
    change (stream (xadd key (orphan_record n ts) db) key ≠ []). rewrite Hid. by destruct (stream db key).
  - injection H as <- <-. destruct Hr as [(P & rest & E & Ho & Hn & Hl) Hne]. unfold reader_ok. cbn.
    destruct (xrevrange1 key db) as [rec|] eqn:Ex.
    + exists P, rest, rec. rewrite Ho. split; [done|]. split; [done|]. split; [|done]. by apply xrevrange1_elem.
    + unfold xrevrange1 in Ex. destruct (stream db key) as [|e l]; [done|].
      rewrite last_cons in Ex. by destruct (list.last l).
Qed.

(** Against the stream as it stands, as long as no entry was deleted. *)
Lemma redis_reachable db0 w :
  rtc (redis_step key from_seq) (mk_RedisWorld db0 start_redis_reader []) w →
  w_gone w = [] → reader_ok (stream (w_db w) key) (w_reader w).
Proof.
  revert w. apply (rtc_ind_r (λ w, w_gone w = [] → reader_ok (stream (w_db w) key) (w_reader w))); [done|]. intros y z _ Hyz IH.
  destruct Hyz as [rec d q gone|d q gone|ts io d q gone d' q' Hs]; cbn in *.
  - intros Hg. destruct (stream_xadd key rec d) as [id ->]. by apply reader_ok_grows, IH.
  - intros [Hg He]%app_eq_nil. rewrite stream_del. rewrite <-He. by apply IH.
  - intros Hg. by eapply redis_tail_step_ok; [done|apply IH].
Qed.

(** *** When the stream is deleted under the reader

    The position of a reader in all the entries there have been: those before
    it were yielded or passed over, and none of the current stream's that
    still count as unread ([XREAD] after the last id) is before it. *)

Definition positioned (gone S : list (nat * TurnRecord)) (r : RedisReader) (todo : list (nat * TurnRecord)) : Prop :=
  ∃ P rest, gone ++ S = P ++ todo ++ rest ∧ rr_out r `sublist_of` wanted P ∧ no_terminal (rr_out r) ∧
    ((∃ more, gone = P ++ more) ∨ ∃ P', P = gone ++ P' ∧ Forall (λ e, e.1 ≤ rr_last r) P').

Definition reader_placed (gone S : list (nat * TurnRecord)) (r : RedisReader) : Prop :=
  match rr_at r with
  | Connecting => rr_out r = []
  | Replaying todo | Delivering todo => positioned gone S r todo
  | Polling | Abandoned | Sealing _ | Reporting | Broken _ => positioned gone S r []
  | Ended =>
      ∃ out rec, rr_out r = out ++ [rec] ∧ no_terminal out ∧ is_terminal rec = true ∧
        rr_out r `sublist_of` wanted (gone ++ S)
  | EndedOrphan =>
      ∃ out l, rr_out r = out ++ l ∧ no_terminal out ∧ out `sublist_of` wanted (gone ++ S) ∧
        length l ≤ 1 ∧ l ⊆ map snd (gone ++ S)
  end.

Lemma wanted_mono P Q : wanted P `sublist_of` wanted (P ++ Q).
Proof. rewrite wanted_app. by apply sublist_inserts_r. Qed.

Lemma reader_placed_grows gone S S' r : reader_placed gone S r → reader_placed gone (S ++ S') r.
Proof.
  assert (Hp : ∀ todo, positioned gone S r todo → positioned gone (S ++ S') r todo).
  { intros todo (P & rest & E & H). exists P, (rest ++ S'). by rewrite app_assoc, E, <-!app_assoc. }
  unfold reader_placed. destruct (rr_at r); auto.
  - intros (out & rec & Ho & Hn & Ht & Hs). exists out, rec. do 3 (split; [done|]).
    etrans; [done|]. rewrite app_assoc. apply wanted_mono.
  - intros (out & l & Ho & Hn & Hs & Hl & Hin). exists out, l. do 2 (split; [done|]).
    split; [etrans; [done|]; rewrite app_assoc; apply wanted_mono|]. split; [done|].
    etrans; [done|]. rewrite app_assoc, (map_app snd (gone ++ S)). set_solver.
Qed.

Lemma reader_placed_deleted gone S r : reader_placed gone S r → reader_placed (gone ++ S) [] r.
Proof.
  assert (Hp : ∀ todo, positioned gone S r todo → positioned (gone ++ S) [] r todo).
  { intros todo (P & rest & E & Ho & Hn & _). exists P, rest. rewrite app_nil_r. do 3 (split; [done|]). left. eauto. }
  unfold reader_placed. destruct (rr_at r); rewrite ?app_nil_r; auto.
Qed.

Lemma positioned_out gone S r todo : positioned gone S r todo → rr_out r `sublist_of` wanted (gone ++ S).
Proof. intros (P & rest & -> & H & _). etrans; [done|]. apply wanted_mono. Qed.

(** The entry at the reader's position is passed. *)
Lemma position_passes (gone S P : list (nat * TurnRecord)) id rec rest n :
  ids_grow S → gone ++ S = P ++ (id, rec) :: rest →
  ((∃ more, gone = P ++ more) ∨ ∃ P', P = gone ++ P' ∧ Forall (λ e, e.1 ≤ n) P') →
  (∃ more, gone = (P ++ [(id, rec)]) ++ more) ∨ ∃ P', P ++ [(id, rec)] = gone ++ P' ∧ Forall (λ e, e.1 ≤ id) P'.
Proof.
  intros Hs E [[more ->]|(P' & -> & _)].
  - rewrite <-app_assoc in E. apply app_inv_head in E. destruct more as [|e more].
    + right. exists [(id, rec)]. rewrite app_nil_r. split; [done|]. by repeat constructor.
    + injection E as -> _. left. exists more. by rewrite <-app_assoc.
  - rewrite <-app_assoc in E. apply app_inv_head in E. right. exists (P' ++ [(id, rec)]).
    rewrite app_assoc. split; [done|]. apply list.Forall_app. rewrite E in Hs. split; [by eapply ids_before|].
    by repeat constructor.
Qed.

Lemma deliver_placed gone S r again id rec todo :
  ids_grow S → (∀ l, again l = Replaying l ∨ again l = Delivering l) →
  positioned gone S r ((id, rec) :: todo) → reader_placed gone S (deliver from_seq again id rec todo r).
Proof.
  intros Hs Hag (P & rest & E & Hout & Hn & Hpos).
  pose proof (position_passes gone S P id rec (todo ++ rest) _ Hs E Hpos) as Hpos'.
  assert (E' : gone ++ S = (P ++ [(id, rec)]) ++ todo ++ rest) by by rewrite <-app_assoc.
  assert (Hok : ∀ r', rr_at r' = again todo → rr_last r' = id → rr_out r' `sublist_of` wanted (P ++ [(id, rec)]) →
    no_terminal (rr_out r') → reader_placed gone S r').
  { intros r' Ha Hl Ho Hn'. unfold reader_placed. rewrite Ha.
    assert (positioned gone S r' todo); [|by destruct (Hag todo) as [-> | ->]].
    exists (P ++ [(id, rec)]), rest. rewrite Hl. done. }
  pose proof (wanted_snoc P id rec) as Hw. unfold deliver. destruct (rec_seq rec <? from_seq)%Z eqn:Es.
  - apply Hok; [done|done| |done]. rewrite Hw, app_nil_r. done.
  - assert (Hout' : rr_out r ++ [rec] `sublist_of` wanted (P ++ [(id, rec)])).
    { rewrite Hw. by apply sublist_app. }
    destruct (is_terminal rec) eqn:Et.
    + unfold reader_placed. cbn. exists (rr_out r), rec. do 3 (split; [done|]). rewrite E'.
      etrans; [done|]. apply wanted_mono.
    + apply Hok; [done|done|done|]. cbn. unfold no_terminal. apply list.Forall_app. split; [exact Hn|].
      by repeat constructor.
Qed.

(** [XREAD] takes up after the reader's position. *)
Lemma xread_placed gone db r :
  positioned gone (stream db key) r [] → positioned gone (stream db key) r (xread key (rr_last r) db).
Proof.
  intros (P & rest & E & Hout & Hn & Hpos). cbn in E. unfold xread.
  destruct (after_split (rr_last r) (stream db key) (stream_ids db key)) as (pre & Epre & Hpre).
  exists (gone ++ pre), []. rewrite app_nil_r, <-app_assoc, <-Epre. split; [done|].
  split; [|split; [done|right; eauto]].
  assert (∃ Q, gone ++ pre = P ++ Q) as [Q ->]; [|etrans; [done|]; apply wanted_mono].
  destruct Hpos as [[more ->]|(P' & -> & Hle)]; [rewrite <-app_assoc; eauto|].
  rewrite <-app_assoc in E. apply app_inv_head in E. rewrite Epre in E.
  apply app_eq_app in E as (k & [[-> Ek]|[-> Ek]]); [by exists k; rewrite app_assoc|].
  destruct k as [|e k]; [exists []; by rewrite !app_nil_r|]. exfalso.
  assert (He : e ∈ after (rr_last r) (stream db key)) by (rewrite Ek; set_solver).
  unfold after in He. apply list_elem_of_filter in He as [He _].
  apply list.Forall_app in Hle as [_ Hle]. apply list.Forall_cons in Hle as [Hle _]. lia.
Qed.

Lemma redis_tail_step_placed gone ts io db r db' r' :
  step ts io db r = Some (db', r') →
  reader_placed gone (stream db key) r → reader_placed gone (stream db' key) r'.
Proof.
  pose proof (stream_ids db key : ids_grow _) as Hs.
  unfold redis_tail_step. destruct (rr_at r) as [|todo| |todo| |n| | | |e] eqn:Ea; intros H Hr; try done;
    unfold reader_placed in Hr; rewrite Ea in Hr.
  - injection H as <- <-. unfold reader_placed. cbn. exists gone, []. rewrite app_nil_r. cbn. rewrite Hr.
    split; [done|]. split; [apply sublist_nil_l|]. split; [constructor|]. left. exists []. by rewrite app_nil_r.
  - destruct todo as [|[id rec] todo]; injection H as <- <-; [exact Hr|]. apply deliver_placed; auto.
  - apply xread_placed in Hr as Hx. destruct (xread key (rr_last r) db) as [|e todo] eqn:Ex; injection H as <- <-.
    + unfold reader_placed. cbn. by destruct (_ <=? _)%Z.
    + exact Hx.
  - destruct todo as [|[id rec] todo]; injection H as <- <-; [exact Hr|]. apply deliver_placed; auto.
  - destruct (xrevrange1 key db) as [rec|] eqn:Ex; [|injection H as <- <-; exact Hr].
    destruct (is_terminal rec); injection H as <- <-; [|exact Hr]. unfold reader_placed. cbn.
    exists (rr_out r), [rec]. split; [done|]. split; [by destruct Hr as (? & ? & ? & ? & ? & _)|].
    split; [by eapply positioned_out|]. split; [done|]. apply xrevrange1_elem in Ex. rewrite map_app. set_solver.
  - cbn in H. destruct io as [e|]; injection H as <- <-; [exact Hr|].
    destruct (stream_xadd key (orphan_record n ts) db) as [id Hid].
    change (reader_placed gone (stream (xadd key (orphan_record n ts) db) key) (r <| rr_at := Reporting |>)).
    rewrite Hid. apply (reader_placed_grows _ _ [(id, orphan_record n ts)]). exact Hr.
  - injection H as <- <-. unfold reader_placed. cbn. exists (rr_out r), (option_list (xrevrange1 key db)).
    destruct (xrevrange1 key db) as [rec|] eqn:Ex; cbn; rewrite ?app_nil_r; (split; [done|]);
      (split; [by destruct Hr as (? & ? & ? & ? & ? & _)|]); (split; [by eapply positioned_out|]); (split; [lia|]).
    + apply xrevrange1_elem in Ex. rewrite map_app. set_solver.
    + set_solver.
Qed.

Lemma redis_placed db0 w :
  rtc (redis_step key from_seq) (mk_RedisWorld db0 start_redis_reader []) w →
  reader_placed (w_gone w) (stream (w_db w) key) (w_reader w).
Proof.
  revert w. apply (rtc_ind_r (λ w, reader_placed (w_gone w) (stream (w_db w) key) (w_reader w))); [done|]. intros y z _ Hyz IH.
  destruct Hyz as [rec d q gone|d q gone|ts io d q gone d' q' Hs]; cbn in *.
  - destruct (stream_xadd key rec d) as [id ->]. by apply reader_placed_grows.
  - rewrite stream_del. by apply reader_placed_deleted.
  - by eapply redis_tail_step_placed.
Qed.

Lemma until_terminal_app l1 l2 : no_terminal l1 → until_terminal (l1 ++ l2) = l1 ++ until_terminal l2.
Proof. induction 1 as [|rec l Hr _ IH]; [done|]. cbn. by rewrite Hr, IH. Qed.
End Reading.

(** Whatever a reader yielded before it gave a turn up. *)
Lemma redis_yields_some key `{RedisServer} from_seq db0 w :
  rtc (redis_step key from_seq) (mk_RedisWorld db0 start_redis_reader []) w →
  ∃ out l, rr_out (w_reader w) = out ++ l ∧ out `sublist_of` wanted from_seq (entries_so_far key w) ∧
    out = until_terminal out ∧ (rr_at (w_reader w) ≠ EndedOrphan → l = []) ∧ length l ≤ 1 ∧
    l ⊆ map snd (entries_so_far key w).
Proof.
  intros Hst. apply redis_placed in Hst. unfold reader_placed, entries_so_far in *.
  assert (Hu : ∀ l1 l2, no_terminal l1 → l2 = until_terminal l2 → l1 ++ l2 = until_terminal (l1 ++ l2)).
  { intros l1 l2 Hn E. by rewrite until_terminal_app, <-E. }
  assert (Hpos : ∀ todo, positioned from_seq (w_gone w) (stream (w_db w) key) (w_reader w) todo →
    ∃ out l, rr_out (w_reader w) = out ++ l ∧ out `sublist_of` wanted from_seq (w_gone w ++ stream (w_db w) key) ∧
    out = until_terminal out ∧ (rr_at (w_reader w) ≠ EndedOrphan → l = []) ∧ length l ≤ 1 ∧
    l ⊆ map snd (w_gone w ++ stream (w_db w) key)).
  { intros todo Hp. exists (rr_out (w_reader w)), []. rewrite app_nil_r. split; [done|].
    split; [by eapply positioned_out|]. destruct Hp as (P & rest & _ & _ & Hn & _).
    split; [|cbn; split; [done|]; split; [lia|set_solver]].
    pose proof (Hu _ [] Hn eq_refl) as E. by rewrite app_nil_r in E. }
  destruct (rr_at (w_reader w)) eqn:Ea; try (by eapply Hpos).
  - rewrite Hst. exists [], []. split; [done|]. split; [apply sublist_nil_l|]. cbn. split; [done|].
    split; [done|]. split; [lia|set_solver].
  - destruct Hst as (out & rec & E & Hn & Ht & Hsub). rewrite E in *. exists (out ++ [rec]), []. rewrite app_nil_r.
    split; [done|]. split; [done|]. split; [apply Hu; [done|]; cbn; by rewrite Ht|]. cbn.
    split; [done|]. split; [lia|set_solver].
  - destruct Hst as (out & l & E & Hn & Hsub & Hl & Hin). exists out, l. split; [done|]. split; [done|].
    split; [|done]. pose proof (Hu _ [] Hn eq_refl) as E'. by rewrite app_nil_r in E'.
Qed.

(** C35: a reader of a Redis turn buffer on any replica, under every
    interleaving with replicas that add records and delete the stream.
    - As long as no entry was deleted and the reader did not give the turn up,
      it has yielded a prefix of the records from its offset on, in order,
      without gaps or repetitions, none beyond the first terminal record; when
      it ends at a terminal record it has yielded exactly the records up to it.
    - A reader that gave the turn up (no new record for five minutes) has
      yielded such a prefix, no terminal record in it, and then one record of
      the stream; records added between its last poll and that one are skipped.
    - When the stream is deleted under it, it yields a subsequence of the
      wanted records there have been, in order and none after a terminal one,
      but for the one record it ends with when it gives the turn up; others may
      then be missing. *)
Theorem redis_tail_exact {RS : RedisServer} key from_seq db0 db r gone :
  rtc (redis_step key from_seq) (mk_RedisWorld db0 start_redis_reader []) (mk_RedisWorld db r gone) →
  (gone = [] → rr_at r ≠ EndedOrphan →
     rr_out r `prefix_of` until_terminal (wanted from_seq (stream db key)) ∧
     (rr_at r = Ended → rr_out r = until_terminal (wanted from_seq (stream db key)) ∧
        ∃ rec, list.last (rr_out r) = Some rec ∧ is_terminal rec = true)) ∧
  (gone = [] → rr_at r = EndedOrphan →
     ∃ P rest rec, stream db key = P ++ rest ∧ no_terminal (wanted from_seq P) ∧
       rec ∈ map snd (stream db key) ∧ rr_out r = wanted from_seq P ++ [rec]) ∧
  (∃ out l, rr_out r = out ++ l ∧ out `sublist_of` wanted from_seq (gone ++ stream db key) ∧
     out = until_terminal out ∧ (rr_at r ≠ EndedOrphan → l = []) ∧ length l ≤ 1 ∧
     l ⊆ map snd (gone ++ stream db key)).
Proof.
  intros Hst. pose proof (redis_reachable key from_seq _ _ Hst) as Hr. cbn in Hr.
  split; [|split; [|exact (redis_yields_some key from_seq _ _ Hst)]];
    intros Hg Hat; specialize (Hr Hg); unfold reader_ok in Hr; [|by rewrite Hat in Hr].
  assert (Hpre : ∀ todo, consumed from_seq (stream db key) r todo →
    rr_out r `prefix_of` until_terminal (wanted from_seq (stream db key))).
  { intros todo (P & rest & -> & -> & Hn & _). rewrite wanted_app, until_terminal_app by done. by eexists. }
  destruct (rr_at r) eqn:Ea; try done; try (split; [by eapply Hpre|done]).
  - split; [|done]. destruct Hr as [-> _]. apply prefix_nil.
  - split; [|done]. by eapply Hpre, Hr.
  - destruct Hr as (P & id & rec & rest & -> & Hs & Ht & Hn & Ho).
    assert (Hw : wanted from_seq (P ++ (id, rec) :: rest) = wanted from_seq P ++ rec :: wanted from_seq rest).
    { rewrite wanted_app. f_equal. unfold wanted. cbn [map snd]. by rewrite list.filter_cons_True. }
    rewrite Hw, until_terminal_app by done. cbn. rewrite Ht, Ho. split; [done|]. intros _. split; [done|].
    exists rec. by rewrite last_snoc.
Qed.

(** ** A turn whose replica died *)

Section Orphans.
Context {RS : RedisServer} (key : string) (from_seq : Z) (ts : string).

(** [n] steps of a reader nobody disturbs. *)
Fixpoint run_reader (n : nat) (db : Db) (r : RedisReader) : Db * RedisReader :=
  match n with
  | 0 => (db, r)
  | S n' =>
      match redis_tail_step key from_seq ts None db r with
      | Some (db', r') => run_reader n' db' r'
      | None => (db, r)
      end
  end.

Lemma run_reader_app n m db r :
  run_reader (n + m) db r = let '(db', r') := run_reader n db r in run_reader m db' r'.
Proof.
  revert db r. induction n as [|n IH]; intros db r; [done|]. cbn.
  destruct (redis_tail_step key from_seq ts None db r) as [[db' r']|] eqn:E; [apply IH|].
  destruct m; cbn; [done|]. by rewrite E.
Qed.

(** The replay of entries without a terminal record. *)
Lemma run_replay todo db out last idle :
  no_terminal (map snd todo) →
  run_reader (length todo) db {| rr_last := last; rr_idle := idle; rr_out := out; rr_at := Replaying todo |} =
    (db, {| rr_last := default last (fst <$> list.last todo); rr_idle := idle;
            rr_out := out ++ wanted from_seq todo; rr_at := Replaying [] |}).
Proof.
  revert out last. induction todo as [|[id rec] todo IH]; intros out last Hn.
  { cbn. by rewrite app_nil_r. }
  apply list.Forall_cons in Hn as [Ht Hn]. cbn in Ht. cbn -[wanted deliver].
  assert (Hl : default last (fst <$> list.last ((id, rec) :: todo)) = default id (fst <$> list.last todo)).
  { rewrite last_cons. by destruct (list.last todo). }
  rewrite Hl. unfold deliver. cbn -[wanted]. unfold wanted. cbn [map snd].
  destruct (Z.ltb_spec (rec_seq rec) from_seq).
  - rewrite list.filter_cons_False by lia. apply (IH out id Hn).
  - rewrite list.filter_cons_True by lia. rewrite Ht.
    etrans; [apply (IH (out ++ [rec]) id Hn)|]. by rewrite <-app_assoc.
Qed.

(** Polls of a stream that does not grow. *)
Lemma run_polls n k db out :
  (Z.of_nat (k + n) < 60)%Z →
  run_reader n db {| rr_last := last_id (stream db key); rr_idle := 5000 * Z.of_nat k; rr_out := out; rr_at := Polling |} =
    (db, {| rr_last := last_id (stream db key); rr_idle := 5000 * Z.of_nat (k + n); rr_out := out; rr_at := Polling |}).
Proof.
  revert k. induction n as [|n IH]; intros k Hk; [by rewrite Nat.add_0_r|].
  cbn [run_reader]. unfold redis_tail_step. cbn [rr_at rr_last rr_idle].
  rewrite (xread_rest key db (stream db key) []) by by rewrite app_nil_r.
  unfold REDIS_TAIL_IDLE_TIMEOUT_SECONDS, BLOCK_MS.
  destruct (Z.leb_spec (300 * 1000) (5000 * Z.of_nat k + 5000)) as [Hc|Hc]; [lia|].
  specialize (IH (S k)). replace (S k + n) with (k + S n) in IH by lia. rewrite <-IH by lia.
  by replace (5000 * Z.of_nat (S k))%Z with (5000 * Z.of_nat k + 5000)%Z by lia.
Qed.

(** The number the terminal record gets. *)
Definition next_seq (db : Db) : Z :=
  match xrevrange1 key db with Some rec => rec_seq rec + 1 | None => 0 end.

(** A reader that is told to close the turn, and one more. *)
Lemma sealing_step db r seq :
  rr_at r = Sealing seq →
  redis_tail_step key from_seq ts None db r = Some (xadd key (orphan_record seq ts) db, r <| rr_at := Reporting |>).
Proof. intros H. unfold redis_tail_step. by rewrite H. Qed.
Lemma orphan_run db :
  no_terminal (map snd (stream db key)) →
  ∃ db' id, run_reader (length (stream db key) + 65) db start_redis_reader =
      (db', {| rr_last := last_id (stream db key); rr_idle := 300000;
               rr_out := wanted from_seq (stream db key) ++ [orphan_record (next_seq db) ts];
               rr_at := EndedOrphan |}) ∧
    stream db' key = stream db key ++ [(id, orphan_record (next_seq db) ts)].
Proof.
  intros Hn. destruct (stream_xadd key (orphan_record (next_seq db) ts) db) as [id Hid].
  exists (xadd key (orphan_record (next_seq db) ts) db), id. split; [|done].
  replace (length (stream db key) + 65) with (1 + (length (stream db key) + (1 + (59 + (1 + 3))))) by lia.
  set (E := stream db key) in *.
  assert (H1 : run_reader 1 db start_redis_reader =
    (db, {| rr_last := 0; rr_idle := 0; rr_out := []; rr_at := Replaying E |})) by done.
  assert (H2 : run_reader 1 db {| rr_last := last_id E; rr_idle := 0; rr_out := wanted from_seq E; rr_at := Replaying [] |} =
    (db, {| rr_last := last_id E; rr_idle := 5000 * Z.of_nat 0; rr_out := wanted from_seq E; rr_at := Polling |})) by done.
  assert (H3 : run_reader 1 db {| rr_last := last_id E; rr_idle := 5000 * Z.of_nat (0 + 59); rr_out := wanted from_seq E; rr_at := Polling |} =
    (db, {| rr_last := last_id E; rr_idle := 300000; rr_out := wanted from_seq E; rr_at := Abandoned |})).
  { cbn [run_reader]. unfold redis_tail_step. cbn [rr_at rr_last].
    rewrite (xread_rest key db E []) by by rewrite app_nil_r. done. }
  assert (H4 : run_reader 1 db {| rr_last := last_id E; rr_idle := 300000; rr_out := wanted from_seq E; rr_at := Abandoned |} =
    (db, {| rr_last := last_id E; rr_idle := 300000; rr_out := wanted from_seq E; rr_at := Sealing (next_seq db) |})).
  { cbn [run_reader]. unfold redis_tail_step, next_seq. cbn [rr_at].
    destruct (xrevrange1 key db) as [rec|] eqn:Ex; [|done].
    apply xrevrange1_elem in Ex. unfold no_terminal in Hn. rewrite list.Forall_forall in Hn. by rewrite (Hn rec Ex). }
  assert (Hx : xrevrange1 key (xadd key (orphan_record (next_seq db) ts) db) = Some (orphan_record (next_seq db) ts)).
  { unfold xrevrange1. by rewrite Hid, last_snoc. }
  rewrite run_reader_app, H1, run_reader_app, (run_replay E db [] 0 0 Hn). cbn [app].
  rewrite run_reader_app. fold (last_id E). rewrite H2, run_reader_app, (run_polls 59 0 db _ ltac:(lia)).
  fold E. rewrite run_reader_app, H3. change 3 with (1 + 2). rewrite run_reader_app, H4. clear H1 H2 H3 H4.
  cbn [run_reader]. rewrite (sealing_step db _ (next_seq db)) by done.
  unfold redis_tail_step. cbn [rr_at update_field]. rewrite Hx. done.
Qed.
End Orphans.

(** a reader of a turn whose replica died is not left waiting. On a stream
    without a terminal record that nobody writes any more, its tail ends by
    itself, sixty polls of five seconds after the replay, having yielded every
    wanted record and then one terminal record, numbered after the last, which
    it has also written to the stream for every other reader. *)
Theorem redis_orphan_ends {RS : RedisServer} key from_seq ts db :
  no_terminal (map snd (stream db key)) →
  ∃ db' r' id, run_reader key from_seq ts (length (stream db key) + 65) db start_redis_reader = (db', r') ∧
    rr_at r' = EndedOrphan ∧ rr_idle r' = (REDIS_TAIL_IDLE_TIMEOUT_SECONDS * 1000)%Z ∧
    rr_out r' = wanted from_seq (stream db key) ++ [orphan_record (next_seq key db) ts] ∧
    stream db' key = stream db key ++ [(id, orphan_record (next_seq key db) ts)] ∧
    is_terminal (orphan_record (next_seq key db) ts) = true.
Proof.
  intros Hn. destruct (orphan_run key from_seq ts db Hn) as (db' & id & E & Hs).
  eexists db', _, id. split; [exact E|]. done.
Qed.

(** the terminal record of an abandoned turn can be written twice. The
    check of [_terminate_as_orphan] and its write are separate commands, so two
    readers that give up at the same moment both find no terminal record and
    both add one, with the same number. *)
Theorem redis_orphan_sealed_twice {RS : RedisServer} key from1 from2 ts1 ts2 db a b :
  no_terminal (map snd (stream db key)) → rr_at a = Abandoned → rr_at b = Abandoned →
  ∃ a1 b1 a2 b2 db1 db2 i j,
    redis_tail_step key from1 ts1 None db a = Some (db, a1) ∧
    redis_tail_step key from2 ts2 None db b = Some (db, b1) ∧
    redis_tail_step key from1 ts1 None db a1 = Some (db1, a2) ∧
    redis_tail_step key from2 ts2 None db1 b1 = Some (db2, b2) ∧
    stream db2 key = stream db key ++
      [(i, orphan_record (next_seq key db) ts1); (j, orphan_record (next_seq key db) ts2)].
Proof.
  intros Hn Ha Hb.
  assert (Hchk : ∀ from ts r, rr_at r = Abandoned → redis_tail_step key from ts None db r =
    Some (db, r <| rr_at := Sealing (next_seq key db) |>)).
  { intros from ts r Hr. unfold redis_tail_step, next_seq. rewrite Hr.
    destruct (xrevrange1 key db) as [rec|] eqn:E; [|done].
    apply xrevrange1_elem in E. unfold no_terminal in Hn. rewrite list.Forall_forall in Hn. by rewrite (Hn rec E). }
  destruct (stream_xadd key (orphan_record (next_seq key db) ts1) db) as [i Hi].
  destruct (stream_xadd key (orphan_record (next_seq key db) ts2) (xadd key (orphan_record (next_seq key db) ts1) db))
    as [j Hj].
  exists (a <| rr_at := Sealing (next_seq key db) |>), (b <| rr_at := Sealing (next_seq key db) |>).
  eexists _, _, _, _, i, j. split; [by apply Hchk|]. split; [by apply Hchk|].
  split; [by apply sealing_step|]. split; [by apply sealing_step|]. by rewrite Hj, Hi, <-app_assoc.
Qed.

(** ** The producer and the replicas that only look *)

Section Producer.
Context {RS : RedisServer} (key : string).

(** [close] of an open buffer: the terminal record is written and the buffer
    closed, or neither. *)
Lemma redis_close_all_or_nothing ts io reason extra b db :
  rb_closed b = false →
  match redis_close key ts io reason extra b db with
  | (b', db', inr _) =>
      rb_closed b' = true ∧ ∃ id type_, reason_type reason = Some type_ ∧
        stream db' key = stream db key ++ [(id, mk_TurnRecord (rb_next_seq b) ts type_ (close_data reason extra))]
  | (b', db', inl e) => rb_closed b' = false ∧ db' = db
  end.
Proof.
  intros Hc. unfold redis_close. rewrite Hc. destruct (reason_type reason) as [type_|] eqn:Et; [|done].
  unfold redis_append. destruct (is_final_client_frame _ _) as [e|final]; [done|].
  destruct io as [e|]; [by destruct final|]. split; [by destruct final|].
  destruct (stream_xadd key (mk_TurnRecord (rb_next_seq b) ts type_ (close_data reason extra)) db) as [id Hid].
  exists id, type_. split; [done|]. by destruct final.
Qed.

(** The turn as its producer knows it: every record it numbered is in the
    stream. *)
Definition producer_ok (b : RedisStreamBuffer) (db : Db) : Prop :=
  rb_next_seq b = next_seq key db ∧
  (rb_closed b = true → ∃ rec, xrevrange1 key db = Some rec ∧ is_terminal rec = true) ∧
  (rb_closed b = false → ∀ rec, xrevrange1 key db = Some rec → is_terminal rec = false).

(** [refresh] on a replica that did not write the turn: it sees what the
    producer sees, and a stream that is gone counts as ended. *)
Lemma redis_refresh_agrees b producer db :
  producer_ok producer db →
  (redis_refresh key b db).1.(rb_next_seq) = rb_next_seq producer ∧
  (stream db key ≠ [] → (redis_refresh key b db).1.(rb_closed) = rb_closed producer) ∧
  (stream db key = [] → (redis_refresh key b db).1.(rb_closed) = true).
Proof.
  intros (Hseq & Hc & Ho). unfold redis_refresh. rewrite Hseq. unfold next_seq.
  destruct (xrevrange1 key db) as [rec|] eqn:Ex.
  - assert (Hne : stream db key ≠ []) by (intros H; unfold xrevrange1 in Ex; by rewrite H in Ex).
    assert (Ht : is_terminal rec = rb_closed producer).
    { destruct (rb_closed producer) eqn:Ec; [by destruct (Hc eq_refl) as (? & [= <-] & ?)|by apply Ho]. }
    destruct (is_final_client_frame _ _); cbn; rewrite Ht; done.
  - cbn. split; [done|]. split; [|done]. intros Hne. unfold xrevrange1 in Ex.
    destruct (stream db key) as [|e l] eqn:E; [done|]. by rewrite last_cons in Ex; destruct (list.last l).
Qed.

(** [clear_if_ended] drops a turn that ended and nothing else. *)
Lemma clear_if_ended_exact db :
  (stream (clear_if_ended key db) key =
     match xrevrange1 key db with
     | Some rec => if is_terminal rec then [] else stream db key
     | None => stream db key
     end) ∧
  ∀ key', key ≠ key' → stream (clear_if_ended key db) key' = stream db key'.
Proof.
  unfold clear_if_ended. destruct (xrevrange1 key db) as [rec|]; [|done].
  destruct (is_terminal rec); [|done]. split; [apply stream_del|]. intros. by apply stream_del_ne.
Qed.
End Producer.

(** ** A server for examples: streams as lists, ids counted from one *)

Definition number (l : list TurnRecord) : list (nat * TurnRecord) := imap (λ i rec, (S i, rec)) l.

Lemma number_snoc l rec : number (l ++ [rec]) = number l ++ [(S (length l), rec)].
Proof. unfold number. rewrite imap_app. cbn. by rewrite Nat.add_0_r. Qed.

Lemma number_ids l : StronglySorted lt (0 :: map fst (number l)).
Proof.
  induction l as [|rec l IH] using rev_ind; [by repeat constructor|].
  rewrite number_snoc, map_app. cbn [map fst].
  change (0 :: map fst (number l) ++ [S (length l)]) with ((0 :: map fst (number l)) ++ [S (length l)]).
  apply StronglySorted_app_2; [|done|by repeat constructor].
  intros x1 x2 Hx ->%list_elem_of_singleton. apply elem_of_cons in Hx as [->|Hx]; [lia|].
  apply list_elem_of_fmap in Hx as ([i r] & -> & Hi). cbn. unfold number in Hi.
  apply elem_of_lookup_imap in Hi as (j & y & [= -> ->] & Hj). apply lookup_lt_Some in Hj. lia.
Qed.

Definition list_server : RedisServer.
Proof.
  refine {| Db := gmap string (list TurnRecord);
    stream db key := number (default [] (db !! key));
    xadd key rec db := <[key := default [] (db !! key) ++ [rec]]> db;
    del key db := delete key db |}.
  - intros key rec db. exists (S (length (default [] (db !! key)))).
    by rewrite lookup_insert_eq, <-number_snoc.
  - intros key key' rec db Hne. by rewrite lookup_insert_ne.
  - intros key db. by rewrite lookup_delete_eq.
  - intros key key' db Hne. by rewrite lookup_delete_ne.
  - intros db key. apply number_ids.
Defined.

Definition demo_frame (seq : Z) : TurnRecord := mk_TurnRecord seq "t" "sse" [("sse", JStr "data: x")].
Definition demo_done (seq : Z) : TurnRecord := mk_TurnRecord seq "t" "Done" [("reason", JStr "completed")].

Definition demo_streams : gmap string (list TurnRecord) := {["k" := [demo_frame 0; demo_frame 1]]}.

(** A reader from the second record on: it reads two entries, the turn ends;
    and one whose stream is deleted after its first record, and begun again by
    another turn with ids below the ones it has seen. *)
Lemma redis_tail_exact_witness :
  (∃ r, rtc (redis_step (RS := list_server) "k" 1)
      (mk_RedisWorld (RS := list_server) demo_streams start_redis_reader [])
      (mk_RedisWorld (RS := list_server) {["k" := [demo_frame 0; demo_frame 1; demo_done 2]]} r []) ∧
    rr_out r = [demo_frame 1; demo_done 2]) ∧
  (∃ r, rtc (redis_step (RS := list_server) "k" 0)
      (mk_RedisWorld (RS := list_server) demo_streams start_redis_reader [])
      (mk_RedisWorld (RS := list_server) {["k" := [demo_frame 0; demo_done 1]]} r [(1, demo_frame 0); (2, demo_frame 1)]) ∧
    rr_out r = until_terminal (rr_out r) ∧
    rr_out r `sublist_of` [demo_frame 0; demo_frame 1; demo_frame 0; demo_done 1]).
Proof.
  split.
  - assert (Hst : ∃ r, rtc (redis_step (RS := list_server) "k" 1)
      (mk_RedisWorld (RS := list_server) demo_streams start_redis_reader [])
      (mk_RedisWorld (RS := list_server) {["k" := [demo_frame 0; demo_frame 1; demo_done 2]]} r []) ∧ rr_at r = Ended).
    { eexists. split.
      - do 4 (eapply rtc_l; [apply (reader_steps (RS := list_server) "k" 1 "t" None); vm_compute; reflexivity|]).
        eapply rtc_l; [apply (others_add (RS := list_server) "k" 1 (demo_done 2))|].
        do 2 (eapply rtc_l; [apply (reader_steps (RS := list_server) "k" 1 "t" None); vm_compute; reflexivity|]).
        apply rtc_refl.
      - reflexivity. }
    destruct Hst as (r & Hst & He). exists r. split; [exact Hst|].
    assert (Hno : rr_at r ≠ EndedOrphan) by (rewrite He; discriminate).
    destruct (redis_tail_exact (RS := list_server) "k" 1 _ _ r [] Hst) as [H _].
    destruct (H eq_refl Hno) as [_ H2]. destruct (H2 He) as [Ho _]. rewrite Ho. vm_compute. reflexivity.
  - assert (Hst : ∃ r, rtc (redis_step (RS := list_server) "k" 0)
      (mk_RedisWorld (RS := list_server) demo_streams start_redis_reader [])
      (mk_RedisWorld (RS := list_server) {["k" := [demo_frame 0; demo_done 1]]} r [(1, demo_frame 0); (2, demo_frame 1)])
      ∧ rr_at r = Polling).
    { eexists. split.
      - do 4 (eapply rtc_l; [apply (reader_steps (RS := list_server) "k" 0 "t" None); vm_compute; reflexivity|]).
        eapply rtc_l; [apply (others_delete (RS := list_server) "k" 0)|].
        eapply rtc_l; [apply (others_add (RS := list_server) "k" 0 (demo_frame 0))|].
        eapply rtc_l; [apply (others_add (RS := list_server) "k" 0 (demo_done 1))|].
        eapply rtc_l; [apply (reader_steps (RS := list_server) "k" 0 "t" None); vm_compute; reflexivity|].
        apply rtc_refl.
      - reflexivity. }
    destruct Hst as (r & Hst & He). exists r. split; [exact Hst|].
    assert (Hno : rr_at r ≠ EndedOrphan) by (rewrite He; discriminate).
    destruct (redis_tail_exact (RS := list_server) "k" 0 _ _ r _ Hst) as (_ & _ & out & l & E & Hs & Hu & Hl & _).
    rewrite (Hl Hno), app_nil_r in E. rewrite E. split; [exact Hu|]. exact Hs.
Defined.

Lemma demo_streams_open : no_terminal (map snd (stream (RedisServer := list_server) demo_streams "k")).
Proof. vm_compute. repeat constructor. Qed.

Lemma redis_orphan_ends_witness :
  ∃ db' r', run_reader (RS := list_server) "k" 1 "t" 67 demo_streams start_redis_reader = (db', r') ∧
    rr_at r' = EndedOrphan ∧ rr_out r' = [demo_frame 1; orphan_record 2 "t"].
Proof.
  destruct (redis_orphan_ends (RS := list_server) "k" 1 "t" demo_streams demo_streams_open)
    as (db' & r' & id & E & Ha & _ & Ho & _).
  exists db', r'. split; [exact E|]. split; [exact Ha|]. rewrite Ho. vm_compute. reflexivity.
Defined.

Definition demo_abandoned : RedisReader := {|
  rr_last := 2; rr_idle := 300000; rr_out := [demo_frame 0; demo_frame 1]; rr_at := Abandoned |}.

Lemma redis_orphan_sealed_twice_witness :
  ∃ db2 i j, stream (RedisServer := list_server) db2 "k" =
    stream (RedisServer := list_server) demo_streams "k" ++ [(i, orphan_record 2 "t1"); (j, orphan_record 2 "t2")].
Proof.
  destruct (redis_orphan_sealed_twice (RS := list_server) "k" 0 0 "t1" "t2" demo_streams demo_abandoned demo_abandoned
    demo_streams_open eq_refl eq_refl) as (a1 & b1 & a2 & b2 & db1 & db2 & i & j & _ & _ & _ & _ & H).
  exists db2, i, j. exact H.
Defined.
