(* ===== verification/AnswerText.v ===== *)
(** * The answer text of a turn, and the stored form of its events.

    [src/cowork/streaming/answer_text.py]: [accumulate_answer_text] rebuilds the
    answer from a turn's events, [coalesce_text_deltas] merges adjacent text
    deltas before the events are stored.  The theorem says that the merge is
    invisible to the first function. *)
From stdpp Require Import base list strings option.
From Stdlib Require Import ZArith Lia.
From S2P Require Import Prelude JsonObject JsonText.

(** An event is a dict; [type], [delta] and [text] of the events read here are
    strings. *)
Definition event : Type := list (string * json).

Definition TEXT_DELTA : string := "response.output_text.delta".
Definition PLAIN_DELTA_KEYS : list string := ["type"; "sequence_number"; "item_id"; "delta"; "at_ms"].

(** [data.get(name, "")]. *)
Definition get_or_empty (data : event) (name : string) : json := default (JStr "") (obj_get data name).

(** [accumulate_answer_text]: the accumulator is a list of the values found. *)
Definition accumulate_answer_text (collected : list json) (event_type : string) (data : event) : list json :=
  if String.eqb event_type TEXT_DELTA then collected ++ [get_or_empty data "delta"]
  else if String.eqb event_type "response.answer_reset" then []
  else if String.eqb event_type "response.answer_restore" then get_or_empty data "text" :: collected
  else collected.

(** ["".join(collected)] raises on a value that is not a string. *)
Fixpoint join_text (collected : list json) : exn + string :=
  match collected with
  | [] => inr ""
  | JStr s :: l => match join_text l with inl e => inl e | inr t => inr (String.append s t) end
  | _ :: _ => inl (TypeError "sequence item: expected str instance")
  end.

(** The type the consumers dispatch on: [data["type"]]. *)
Definition event_type (e : event) : string :=
  match obj_get e "type" with Some (JStr t) => t | _ => "" end.

(** The text a consumer of these events ends with. *)
Definition answer_text (events : list event) : exn + string :=
  join_text (fold_left (λ acc e, accumulate_answer_text acc (event_type e) e) events []).

(** [_is_plain_delta]. *)
Definition is_plain_delta (e : event) : bool :=
  bool_decide (obj_get e "type" = Some (JStr TEXT_DELTA))
  && match obj_get e "delta" with Some (JStr _) => true | _ => false end
  && forallb (λ kv, bool_decide (kv.1 ∈ PLAIN_DELTA_KEYS)) e.

(** [event["delta"]] of a plain delta. *)
Definition delta_text (e : event) : string :=
  match obj_get e "delta" with Some (JStr s) => s | _ => "" end.

(** [flush]: what the run becomes. *)
Definition flush (run : list event) : list event :=
  match run with
  | [] => []
  | [e] => [e]
  | e :: _ => [obj_set e "delta" (JStr (str_join "" (map delta_text run)))]
  end.

(** The loop of [coalesce_text_deltas], with its two lists. *)
Fixpoint coalesce (out run events : list event) : list event :=
  match events with
  | [] => out ++ flush run
  | e :: events' =>
      if negb (is_plain_delta e) then coalesce (out ++ flush run ++ [e]) [] events'
      else
        match run with
        | first :: _ =>
            if bool_decide (obj_get first "item_id" = obj_get e "item_id") then coalesce out (run ++ [e]) events'
            else coalesce (out ++ flush run) [e] events'
        | [] => coalesce out [e] events'
        end
  end.

Definition coalesce_text_deltas (events : list event) : list event := coalesce [] [] events.

(** ** The merge is invisible *)

(** Two accumulators with the same text. *)
Definition same_text (a b : list json) : Prop := join_text a = join_text b.

Lemma join_text_app a b :
  join_text (a ++ b) =
    match join_text a with
    | inl e => inl e
    | inr s => match join_text b with inl e => inl e | inr t => inr (String.append s t) end
    end.
Proof.
  induction a as [|x a IH]; cbn [app join_text]; [by destruct (join_text b)|].
  destruct x; try done. rewrite IH. destruct (join_text a); [done|]. destruct (join_text b); [done|].
  by rewrite append_assoc.
Qed.

#[export] Instance same_text_equiv : Equivalence same_text.
Proof. split; unfold same_text; [done|by intros a b|intros a b c; congruence]. Qed.

#[export] Instance app_same_text : Proper (same_text ==> same_text ==> same_text) (++).
Proof. intros a a' Ha b b' Hb. unfold same_text in *. by rewrite !join_text_app, Ha, Hb. Qed.

#[export] Instance cons_same_text x : Proper (same_text ==> same_text) (cons x).
Proof. intros a a' Ha. exact (app_same_text [x] [x] ltac:(done) a a' Ha). Qed.

#[export] Instance accumulate_same_text : Proper (same_text ==> eq ==> eq ==> same_text) accumulate_answer_text.
Proof.
  intros a a' Ha t ? <- d ? <-. unfold accumulate_answer_text.
  destruct (String.eqb t TEXT_DELTA); [by rewrite Ha|]. destruct (String.eqb t _); [done|].
  destruct (String.eqb t _); [by rewrite Ha|done].
Qed.

(** The events of a run put into an accumulator. *)
Definition accumulate_all (acc : list json) (events : list event) : list json :=
  fold_left (λ acc e, accumulate_answer_text acc (event_type e) e) events acc.

#[export] Instance accumulate_all_same_text : Proper (same_text ==> eq ==> same_text) accumulate_all.
Proof.
  intros a a' Ha l ? <-. unfold accumulate_all. revert a a' Ha.
  induction l as [|e l IH]; intros a a' Ha; [done|]. cbn. apply IH. by rewrite Ha.
Qed.

Lemma accumulate_all_app acc a b : accumulate_all acc (a ++ b) = accumulate_all (accumulate_all acc a) b.
Proof. apply fold_left_app. Qed.

Lemma plain_delta_step acc e :
  is_plain_delta e = true → accumulate_answer_text acc (event_type e) e = acc ++ [JStr (delta_text e)].
Proof.
  unfold is_plain_delta. intros [[Ht Hd]%andb_true_iff _]%andb_true_iff.
  apply bool_decide_eq_true in Ht. unfold event_type, accumulate_answer_text, get_or_empty, delta_text.
  rewrite Ht, String.eqb_refl. by destruct (obj_get e "delta") as [[]|].
Qed.

Lemma run_accumulates acc run :
  Forall (λ e, is_plain_delta e = true) run →
  accumulate_all acc run = acc ++ map (λ e, JStr (delta_text e)) run.
Proof.
  intros H. revert acc. induction H as [|e run He _ IH]; intros acc; [by rewrite app_nil_r|].
  cbn. rewrite plain_delta_step by done. unfold accumulate_all in IH. by rewrite IH, <-(assoc_L (++)).
Qed.

Lemma join_text_strings l : join_text (map JStr l) = inr (str_join "" l).
Proof.
  induction l as [|s l IH]; [done|]. cbn [map join_text]. rewrite IH. destruct l as [|s' l]; [by rewrite append_empty_r|].
  done.
Qed.

(** Flushing a run gives the same text as the run. *)
Lemma flush_text acc run :
  Forall (λ e, is_plain_delta e = true ∧ NoDup (map fst e)) run →
  same_text (accumulate_all acc (flush run)) (accumulate_all acc run).
Proof.
  intros H. destruct run as [|e [|e2 run]]; [done|done|].
  assert (Hp : Forall (λ e, is_plain_delta e = true) (e :: e2 :: run)) by (eapply list.Forall_impl; [exact H|naive_solver]).
  rewrite (run_accumulates acc _ Hp). apply list.Forall_cons in H as [[He Hnd] _]. cbn [flush].
  set (merged := obj_set e "delta" _).
  change (same_text (accumulate_answer_text acc (event_type merged) merged)
    (acc ++ map (λ e, JStr (delta_text e)) (e :: e2 :: run))).
  assert (Ht : event_type merged = TEXT_DELTA).
  { unfold event_type, merged. rewrite obj_get_set_ne by done. unfold is_plain_delta in He.
    apply andb_true_iff in He as [[He _]%andb_true_iff _]. apply bool_decide_eq_true in He. by rewrite He. }
  unfold accumulate_answer_text. rewrite Ht, String.eqb_refl. apply app_same_text; [done|].
  unfold get_or_empty, merged. rewrite obj_get_set_eq by done. unfold same_text.
  rewrite <-(map_map delta_text JStr), join_text_strings.
  set (s := str_join "" _). change (inr (A := exn) (String.append s "") = inr s). by rewrite append_empty_r.
Qed.

Definition dict_event (e : event) : Prop := NoDup (map fst e).

Lemma coalesce_text out run events acc :
  Forall (λ e, is_plain_delta e = true ∧ dict_event e) run → Forall dict_event events →
  same_text (accumulate_all acc (coalesce out run events)) (accumulate_all acc (out ++ run ++ events)).
Proof.
  intros Hr He. revert out run Hr. induction He as [|e events Hd _ IH]; intros out run Hr; cbn [coalesce].
  - rewrite app_nil_r, !accumulate_all_app. by apply flush_text.
  - destruct (is_plain_delta e) eqn:Ep; cbn [negb].
    + destruct run as [|first run].
      * rewrite IH by (by constructor). done.
      * case_bool_decide.
        -- rewrite IH; [by rewrite <-!(assoc_L (++))|]. apply Forall_app. split; [done|by constructor].
        -- rewrite IH by (by constructor). rewrite !accumulate_all_app. by rewrite flush_text.
    + rewrite IH by constructor. cbn [app]. rewrite !accumulate_all_app. by rewrite flush_text.
Qed.

Lemma merged_plain e s : is_plain_delta e = true → dict_event e → is_plain_delta (obj_set e "delta" (JStr s)) = true.
Proof.
  unfold is_plain_delta. intros [[Ht _]%andb_true_iff Hk]%andb_true_iff Hd.
  rewrite obj_get_set_ne, obj_get_set_eq by done. rewrite Ht. cbn [andb].
  clear -Hk. induction e as [|[k v] e IH]; [done|]. cbn [forallb] in Hk. apply andb_true_iff in Hk as [Hk He].
  cbn [obj_set]. destruct (String.eqb k "delta"); cbn [forallb fst] in *; rewrite Hk; [done|]. by apply IH.
Qed.

Lemma flush_plain run :
  Forall (λ e, is_plain_delta e = true ∧ dict_event e) run →
  base.filter (λ e, is_plain_delta e = false) (flush run) = [] ∧ length (flush run) ≤ length run.
Proof.
  intros H. destruct run as [|e [|e2 run]]; [done| |]; apply list.Forall_cons in H as [[He Hd] _].
  - cbn. rewrite decide_False by congruence. split; [done|lia].
  - cbn [flush]. set (m := obj_set _ _ _). assert (Hm : is_plain_delta m = true) by (by apply merged_plain).
    cbn. rewrite decide_False by congruence. split; [done|lia].
Qed.

Lemma plain_filter run :
  Forall (λ e, is_plain_delta e = true ∧ dict_event e) run → base.filter (λ e, is_plain_delta e = false) run = [].
Proof.
  induction 1 as [|e run [He _] _ IH]; [done|]. by rewrite filter_cons_False by congruence.
Qed.

Lemma coalesce_others out run events :
  Forall (λ e, is_plain_delta e = true ∧ dict_event e) run → Forall dict_event events →
  base.filter (λ e, is_plain_delta e = false) (coalesce out run events) =
    base.filter (λ e, is_plain_delta e = false) (out ++ events) ∧
  length (coalesce out run events) ≤ length out + length run + length events.
Proof.
  intros Hr He. revert out run Hr. induction He as [|e events Hd _ IH]; intros out run Hr; cbn [coalesce];
    destruct (flush_plain run Hr) as [Hf Hl].
  - rewrite !list.filter_app, Hf, !length_app. cbn. split; [done|lia].
  - destruct (is_plain_delta e) eqn:Ep; cbn [negb].
    + assert (Hskip : base.filter (λ e, is_plain_delta e = false) (out ++ e :: events) =
        base.filter (λ e, is_plain_delta e = false) (out ++ events))
        by (rewrite !list.filter_app, filter_cons_False by congruence; done).
      rewrite Hskip. cbn [length]. destruct run as [|first run].
      * destruct (IH out [e] ltac:(by constructor)) as [H1 H2]. cbn in H2. split; [done|cbn; lia].
      * case_bool_decide.
        -- destruct (IH out (first :: run ++ [e])) as [H1 H2].
           { rewrite app_comm_cons. apply Forall_app. split; [done|by constructor]. }
           split; [done|]. cbn in *. rewrite length_app in H2. cbn in H2. lia.
        -- destruct (IH (out ++ flush (first :: run)) [e] ltac:(by constructor)) as [H1 H2].
           rewrite H1, !list.filter_app, Hf, app_nil_r. split; [done|]. rewrite length_app in H2. cbn in *. lia.
    + destruct (IH (out ++ flush run ++ [e]) [] ltac:(constructor)) as [H1 H2]. rewrite H1. split.
      * rewrite !list.filter_app, Hf, !filter_cons_True by done. by rewrite <-(assoc_L (++)).
      * rewrite !length_app in H2. cbn in *. lia.
Qed.

(** merging text deltas does not change the answer.  For every list of
    events, the text a consumer rebuilds from the stored (merged) events,
    resets and restores included, is the text it rebuilds from the live ones,
    and it fails on the one exactly when it fails on the other; the events that
    are not plain text deltas are kept as they are and in their order; and no
    event is added. *)
Theorem coalesce_text_deltas_equiv events :
  Forall dict_event events →
  answer_text (coalesce_text_deltas events) = answer_text events ∧
  base.filter (λ e, is_plain_delta e = false) (coalesce_text_deltas events) =
    base.filter (λ e, is_plain_delta e = false) events ∧
  length (coalesce_text_deltas events) ≤ length events.
Proof.
  intros Hd. destruct (coalesce_others [] [] events ltac:(constructor) Hd) as [H1 H2].
  split_and!; [|exact H1|exact H2].
  exact (coalesce_text [] [] events [] ltac:(constructor) Hd).
Qed.

Definition demo_events : list event :=
  [[("type", JStr TEXT_DELTA); ("delta", JStr "Hel")]; [("type", JStr TEXT_DELTA); ("delta", JStr "lo")];
   [("type", JStr "response.answer_reset")]; [("type", JStr TEXT_DELTA); ("delta", JStr "Bye")]].

Lemma coalesce_text_deltas_equiv_witness :
  answer_text (coalesce_text_deltas demo_events) = answer_text demo_events ∧ answer_text demo_events = inr "Bye".
Proof.
  split; [|vm_compute; reflexivity].
  refine (proj1 (coalesce_text_deltas_equiv demo_events _)).
  unfold demo_events, dict_event. repeat (constructor; [by_decide|]). constructor.
Defined.
