(* ===== verification/StreamRecovery.v ===== *)
(** * Boot recovery of turn files.

    [src/cowork/streaming/recovery.py]: [latest_terminal_reason] looks at the
    end of a turn file, [seal_orphan_buffers] appends an [Interrupted] record to
    the files that have no terminal record, [_read_buffer_events] replays a
    file's events, [gc_old_buffers] deletes old files.  A directory is the list
    of the contents of its turn files in the order they are visited. *)
From stdpp Require Import base list strings option.
From Stdlib Require Import ZArith Lia.
From S2P Require Import Prelude JsonText StreamBuffer StreamTail AnswerText.

Definition TAIL_READ_BYTES : nat := 8192.

Section Recovery.
Context {PF : Platform} {CV : Conversions}.

(** [latest_terminal_reason]; the file is [None] when it cannot be read. *)
Definition latest_terminal_reason (file : option string) : exn + option string :=
  match file with
  | None | Some EmptyString => inr None
  | Some content =>
      let tail := str_drop (String.length content - TAIL_READ_BYTES) content in
      match list.last (base.filter (λ ln, truthy (strip_bytes ln) = true) (split_newline tail)) with
      | None => inr None
      | Some line =>
          if negb (utf8_valid false line) then inr None
          else
            match loads line with
            | None => inr None
            | Some (JObj fields) =>
                match record_of fields with
                | inl e => inl e
                | inr rec =>
                    if is_terminal rec then
                      inr (match obj_get (rec_data rec) "reason" with Some (JStr r) => Some r | _ => None end)
                    else inr None
                end
            | Some _ => inl (AttributeError "get")
            end
      end
  end.

(** The record that seals a file. *)
Definition seal_record (next_seq : Z) (ts : string) : TurnRecord :=
  mk_TurnRecord next_seq ts "Interrupted" [("reason", JStr "restart")].

(** The body of the loop of [seal_orphan_buffers]: the new content and whether
    it was sealed.  Only the look at the file's end is inside a [try]. *)
Definition seal_one (ts content : string) : exn + (string * bool) :=
  match latest_terminal_reason (Some content) with
  | inl _ => inr (content, false)
  | inr (Some _) => inr (content, false)
  | inr None =>
      match read_records (Some content) 0 with
      | inl e => inl e
      | inr rs =>
          inr (String.append content (record_line (seal_record (Z.of_nat (length rs)) ts)), true)
      end
  end.

(** [seal_orphan_buffers]: the files as they are left, and the count or the
    exception that ended the sweep; [now n] is the time read for the [n]-th
    file. *)
Fixpoint seal_orphan_buffers (now : nat → string) (files : list string) : list string * (exn + nat) :=
  match files with
  | [] => ([], inr 0)
  | content :: files' =>
      match seal_one (now (length files')) content with
      | inl e => (files, inl e)
      | inr (content', sealed) =>
          let '(rest, r) := seal_orphan_buffers now files' in
          (content' :: rest,
           match r with inl e => inl e | inr n => inr (if sealed then S n else n) end)
      end
  end.

(** [s.split(sep)] for a separator that is not empty. *)
Fixpoint split_on_from (fuel : nat) (sep piece s : string) : list string :=
  match fuel with
  | 0 => [piece]
  | S fuel' =>
      match s with
      | EmptyString => [piece]
      | String.String c r =>
          match strip_prefix sep s with
          | Some r' => piece :: split_on_from fuel' sep "" r'
          | None => split_on_from fuel' sep (String.append piece (String.String c "")) r
          end
      end
  end.
Definition split_on (sep s : string) : list string := split_on_from (S (String.length s)) sep "" s.

Definition newlines (n : nat) : string := Nat.iter n (String.append (String.String (chr 10) "")) "".

(** The event of one SSE block: [None] when it carries none. *)
Definition block_event (block : string) : exn + option (string * event) :=
  match base.filter (λ ln, is_Some (strip_prefix "data:" ln)) (split_on (newlines 1) block) with
  | [] => inr None
  | line :: _ =>
      match loads (strip_bytes (str_drop 5 line)) with
      | None => inr None
      | Some (JObj payload) =>
          inr (match obj_get payload "type" with Some (JStr t) => Some (t, payload) | _ => None end)
      | Some _ => inl (AttributeError "get")
      end
  end.

(** [_read_buffer_events], consumed to its end. *)
Fixpoint block_events (blocks : list string) : exn + list (string * event) :=
  match blocks with
  | [] => inr []
  | b :: blocks' =>
      match block_event b with
      | inl e => inl e
      | inr o =>
          match block_events blocks' with
          | inl e => inl e
          | inr l => inr (match o with Some x => x :: l | None => l end)
          end
      end
  end.

(** [str(rec.data.get("sse") or "")]. *)
Definition sse_text (r : TurnRecord) : string :=
  match obj_get (rec_data r) "sse" with
  | Some v => if json_truthy v then json_str v else ""
  | None => ""
  end.

Definition read_buffer_events (content : string) : exn + list (string * event) :=
  match read_records (Some content) 0 with
  | inl e => inl e
  | inr rs =>
      block_events (concat (map (λ r, split_on (newlines 2) (sse_text r))
        (base.filter (λ r, rec_type r = "sse") rs)))
  end.

(** The answer and the terminal event [seal_orphan_turns_in_history] writes
    into the history for a file; [lost] is
    [response_failed_payload(TURN_LOST_MESSAGE, TURN_LOST_CODE)]. *)
Definition recovered_turn (lost : event) (content : string) : exn + (string * event) :=
  match read_buffer_events content with
  | inl e => inl e
  | inr evs =>
      match join_text (fold_left (λ acc e, accumulate_answer_text acc e.1 e.2) evs []) with
      | inl e => inl e
      | inr text =>
          let terminal := list.last (base.filter (λ e, e.1 = "response.completed" ∨ e.1 = "response.failed") evs) in
          inr (text, match terminal with
                     | Some (_, data) => if json_truthy (JObj data) then data else lost
                     | None => lost
                     end)
      end
  end.

(** [gc_old_buffers] on the files with their modification times. *)
Definition gc_old_buffers (now : Z) (max_age_days : Z) (files : list (Z * string)) : list (Z * string) * nat :=
  if (max_age_days <=? 0)%Z then (files, 0)
  else
    let cutoff := (now - max_age_days * 86400)%Z in
    (base.filter (λ f, (cutoff <= f.1)%Z) files, length (base.filter (λ f, (f.1 < cutoff)%Z) files)).
End Recovery.

(** ** Files of whole lines *)

Definition ends_line (s : string) : Prop := (split_last (split_newline s)).2 = "".

Lemma ends_line_tail c s : ends_line (String.String c s) → ends_line s.
Proof.
  unfold ends_line, split_last. cbn [snd split_newline].
  destruct (split_newline s) as [|l ls] eqn:E; [by apply split_newline_nonempty in E|].
  destruct (Nat.eqb (ord c) 10); [done|]. by destruct ls.
Qed.

Lemma ends_line_drop n s : ends_line s → ends_line (str_drop n s).
Proof.
  revert s. induction n as [|n IH]; intros [|c s]; cbn [str_drop]; try done.
  intros H. apply IH. by eapply ends_line_tail.
Qed.

Lemma file_ends_line l : Forall record_wf l → ends_line (file_of l).
Proof.
  intros H. unfold ends_line. rewrite split_file by done. by rewrite split_last_app.
Qed.

Lemma split_after_line s x t :
  ends_line s → no_newline x = true →
  split_newline (String.append s (String.append x (String.String (chr 10) t))) =
    (split_last (split_newline s)).1 ++ x :: split_newline t.
Proof. intros Hs Hx. rewrite split_newline_app, Hs, append_nil. by rewrite split_newline_line. Qed.

(** The last line decides, when it fits into the window. *)
Lemma last_nonblank s x :
  ends_line s → no_newline x = true → truthy (strip_bytes x) = true →
  list.last (base.filter (λ ln, truthy (strip_bytes ln) = true)
    (split_newline (String.append s (String.append x (String.String (chr 10) ""))))) = Some x.
Proof.
  intros Hs Hn Hx. rewrite split_after_line by done. cbn [split_newline]. rewrite list.filter_app.
  rewrite filter_cons_True by done. rewrite filter_cons_False, filter_nil by done. by rewrite last_snoc.
Qed.

Lemma last_nonblank_open s x :
  ends_line s → no_newline x = true → truthy (strip_bytes x) = true →
  list.last (base.filter (λ ln, truthy (strip_bytes ln) = true) (split_newline (String.append s x))) = Some x.
Proof.
  intros Hs Hn Hx. rewrite split_newline_app, Hs, append_nil.
  assert (E : split_newline x = [x]).
  { clear -Hn. induction x as [|c x IH]; [done|]. unfold no_newline in *. cbn [str_forall] in Hn.
    apply andb_true_iff in Hn as [Hc Hn]. apply negb_true_iff in Hc. cbn [split_newline]. by rewrite Hc, (IH Hn). }
  rewrite E, list.filter_app, filter_cons_True, filter_nil by done. by rewrite last_snoc.
Qed.

(** The window holds the end of a file and the line after it. *)
Lemma window_app a x :
  String.length x ≤ TAIL_READ_BYTES →
  str_drop (String.length (String.append a x) - TAIL_READ_BYTES) (String.append a x) =
    String.append (str_drop (String.length (String.append a x) - TAIL_READ_BYTES) a) x.
Proof. intros H. apply str_drop_app. rewrite length_append. lia. Qed.

(** Universal newlines and decoding do nothing to a file of records. *)
Lemma universal_newlines_id s :
  str_forall (λ c, negb (Nat.eqb (ord c) 13)) s = true → universal_newlines s = s.
Proof.
  induction s as [|c s IH]; [done|]. cbn [str_forall universal_newlines]. intros [Hc Hs]%andb_true_iff.
  apply negb_true_iff in Hc. by rewrite Hc, (IH Hs).
Qed.

Lemma no_cr_dumps j : json_wf j → str_forall (λ c, negb (Nat.eqb (ord c) 13)) (dumps j) = true.
Proof.
  intros Hw. apply no_control_dumps in Hw. revert Hw. apply str_forall_impl. intros c Hc%Nat.leb_le.
  destruct (Nat.eqb_spec (ord c) 13); [lia|done].
Qed.

Lemma file_no_cr l : Forall record_wf l → str_forall (λ c, negb (Nat.eqb (ord c) 13)) (file_of l) = true.
Proof.
  induction 1 as [|r l Hr _ IH]; [done|]. rewrite file_of_cons. unfold record_line.
  by rewrite !str_forall_app, IH, no_cr_dumps by (by apply record_json_wf).
Qed.

Lemma file_utf8 l : Forall record_wf l → utf8_valid true (file_of l) = true.
Proof.
  induction 1 as [|r l Hr _ IH]; [done|]. rewrite file_of_cons. unfold record_line.
  apply utf8_valid_app; [|done]. apply utf8_valid_app; [by apply utf8_dumps, record_json_wf|done].
Qed.

Definition numbered (l : list TurnRecord) : Prop := ∀ i r, l !! i = Some r → rec_seq r = Z.of_nat i.

Lemma numbered_filter l : numbered l → base.filter (λ r, (0 <= rec_seq r)%Z) l = l.
Proof.
  intros H. assert (Hall : Forall (λ r, (0 <= rec_seq r)%Z) l).
  { apply list.Forall_forall. intros r Hr. apply list_elem_of_lookup in Hr as [i Hi]. rewrite (H i r Hi). lia. }
  clear H. induction Hall as [|r l Hr _ IH]; [done|]. by rewrite filter_cons_True, IH.
Qed.

Section Sealing.
Context {PF : Platform} {CV : Conversions}.

Lemma parse_text_lines l rest :
  Forall record_wf l →
  parse_lines parse_record (map (λ r, dumps (record_json r)) l ++ rest) =
    match parse_lines parse_record rest with inl e => inl e | inr rs => inr (l ++ rs) end.
Proof.
  intros Hl. rewrite parse_lines_app.
  assert (E : parse_lines parse_record (map (λ r, dumps (record_json r)) l) = inr l); [|by rewrite E].
  induction Hl as [|r l Hr _ IH]; [done|]. cbn [map parse_lines]. by rewrite parse_record_json, IH.
Qed.

Lemma read_records_file l : Forall record_wf l → numbered l → read_records (Some (file_of l)) 0 = inr l.
Proof.
  intros Hl Hn. unfold read_records. rewrite file_utf8 by done. cbn [negb].
  rewrite universal_newlines_id by (by apply file_no_cr). rewrite split_file, parse_text_lines by done.
  change (parse_lines parse_record [""]) with (inr (A := exn) (@nil TurnRecord)). cbn iota.
  by rewrite app_nil_r, numbered_filter.
Qed.

(** The reason of a file whose last record fits into the window. *)
Lemma latest_reason_file l r :
  Forall record_wf l → record_wf r → String.length (record_line r) ≤ TAIL_READ_BYTES →
  latest_terminal_reason (Some (file_of (l ++ [r]))) =
    inr (if is_terminal r then match obj_get (rec_data r) "reason" with Some (JStr x) => Some x | _ => None end
         else None).
Proof.
  intros Hl Hr Hlen. rewrite file_of_app, file_of_cons. change (file_of []) with "". rewrite append_empty_r.
  pose proof (dumps_head _ (record_json_wf _ Hr)) as Hh.
  assert (Hs : strip_bytes (dumps (record_json r)) = dumps (record_json r)) by apply strip_bytes_obj.
  assert (Ht : truthy (strip_bytes (dumps (record_json r))) = true) by (rewrite Hs; by destruct (dumps (record_json r))).
  assert (Hne : String.append (file_of l) (record_line r) ≠ "").
  { intros E. apply (f_equal String.length) in E. unfold record_line in E. rewrite !length_append in E. cbn in E. lia. }
  unfold latest_terminal_reason. destruct (String.append (file_of l) (record_line r)) as [|c s] eqn:E; [done|].
  rewrite <-E, window_app by done.
  set (s0 := str_drop _ (file_of l)). assert (Hs0 : ends_line s0) by (by apply ends_line_drop, file_ends_line).
  clearbody s0. unfold record_line.
  rewrite last_nonblank; [|done|by apply no_newline_dumps, record_json_wf|done].
  rewrite (utf8_strict _ (utf8_dumps _ (record_json_wf _ Hr))). cbn [negb].
  rewrite (loads_dumps _ (record_json_wf _ Hr)). cbn iota. destruct r as [q ts ty d]. cbn [record_json].
  change (record_of _) with (inr (A := exn) (mk_TurnRecord q ts ty d)). cbn iota.
  by destruct (is_terminal (mk_TurnRecord q ts ty d)).
Qed.

Lemma seal_record_wf n ts : utf8_valid true ts = true → record_wf (seal_record n ts).
Proof. intros H. split; [exact H|]. split; [done|]. split; [apply NoDup_singleton|done]. Qed.

(** boot recovery ends the stream of an orphaned turn, once.  A file of
    whole records without a terminal record gets exactly one [Interrupted]
    record with the next sequence number; a reader then reads the old records
    and that one; the file counts as ended, and sealing it again changes
    nothing. *)
Theorem seal_one_seals ts l :
  Forall record_wf l → numbered l → utf8_valid true ts = true →
  latest_terminal_reason (Some (file_of l)) = inr None →
  String.length (record_line (seal_record (Z.of_nat (length l)) ts)) ≤ TAIL_READ_BYTES →
  ∃ content', seal_one ts (file_of l) = inr (content', true) ∧
    file_records content' = inr (l ++ [seal_record (Z.of_nat (length l)) ts]) ∧
    latest_terminal_reason (Some content') = inr (Some "restart") ∧
    ∀ ts', seal_one ts' content' = inr (content', false).
Proof.
  intros Hl Hn Hts Hopen Hlen. set (r := seal_record _ _) in *.
  assert (Hr : record_wf r) by (by apply seal_record_wf).
  exists (file_of (l ++ [r])).
  assert (Hlast : latest_terminal_reason (Some (file_of (l ++ [r]))) = inr (Some "restart"))
    by (by rewrite latest_reason_file).
  split_and!; [| |done|].
  - unfold seal_one. rewrite Hopen, read_records_file by done. fold r.
    by rewrite file_of_app, file_of_cons, append_empty_r.
  - unfold file_records.
    pose proof (read_file_from [] (l ++ [r])) as E. cbn [app] in E.
    change new_NewRecords with {| nr_offset := String.length (file_of []); nr_partial := "" |}.
    rewrite E; [done|]. apply Forall_app. split; [done|]. by constructor.
  - intros ts'. unfold seal_one. by rewrite Hlast.
Qed.

(** ** Files a crash cut off *)

(** A record's line without its last brace and newline. *)
Definition torn_line (r : TurnRecord) : string :=
  torn_object [("seq", JInt (rec_seq r)); ("ts", JStr (rec_ts r)); ("type", JStr (rec_type r)); ("data", JObj (rec_data r))].

Lemma torn_line_eq r : dumps (record_json r) = String.append (torn_line r) "}".
Proof. unfold torn_line, torn_object. by rewrite append_assoc. Qed.

(** It starts with a brace and ends with the brace of its data. *)
Lemma torn_line_shape r :
  ∃ s, torn_line r = String.append (String.String (chr 123) s) (String.String (chr 125) "").
Proof.
  unfold torn_line, torn_object. cbn [dumps_members].
  change (dumps (JObj (rec_data r))) with (String.append "{" (String.append (dumps_members (rec_data r)) "}")).
  rewrite <-!append_assoc.
  eexists (str_drop 1 _). match goal with |- String.append ?a "}" = _ => instantiate (1 := a) end. reflexivity.
Qed.

Lemma torn_facts r :
  record_wf r → no_newline (torn_line r) = true ∧ utf8_valid true (torn_line r) = true ∧
  str_forall (λ c, negb (Nat.eqb (ord c) 13)) (torn_line r) = true.
Proof.
  intros Hr. pose proof (record_json_wf _ Hr) as Hw.
  pose proof (no_newline_dumps _ Hw) as Hn. pose proof (no_cr_dumps _ Hw) as Hc. pose proof (utf8_dumps _ Hw) as Hu.
  rewrite torn_line_eq in Hn, Hc, Hu. unfold no_newline in *. rewrite str_forall_app in Hn, Hc.
  apply andb_true_iff in Hn as [Hn _]. apply andb_true_iff in Hc as [Hc _]. split_and!; try done.
  rewrite utf8_valid_run, utf8_run_app in *. destruct (utf8_run true utf8_start (torn_line r)) as [st|] eqn:E; [|done].
  assert (Hst : utf8_state_ok st) by (by eapply utf8_run_ok; [|exact E]).
  destruct st as [[|k] [lo hi]]; [cbn in Hst; by injection Hst as -> ->|].
  exfalso. cbn [utf8_run] in Hu. unfold utf8_step in Hu. cbn in Hst.
  assert (Nat.leb lo (ord (Ascii.Ascii true false true true true true true false)) = false) as E1
    by (apply Nat.leb_gt; vm_compute; lia).
  rewrite E1 in Hu. by destruct k.
Qed.

(** A text that starts and ends with a brace is not blank, and stripping keeps
    it. *)
Lemma braces_strip s :
  strip_bytes (String.append (String.String (chr 123) s) (String.String (chr 125) "")) =
    String.append (String.String (chr 123) s) (String.String (chr 125) "").
Proof.
  unfold strip_bytes. rewrite append_cons. cbn [lstrip_bytes]. change (is_bspace (chr 123)) with false. cbn iota.
  rewrite <-append_cons. by apply rstrip_bytes_last.
Qed.

Lemma torn_then_object r l :
  ∃ s, String.append (torn_line r) (dumps (JObj l)) =
    String.append (String.String (chr 123) s) (String.String (chr 125) "").
Proof.
  destruct (torn_line_shape r) as [s ->].
  exists (String.append s (String.append (String.String (chr 125) "") (String.append "{" (dumps_members l)))).
  change (dumps (JObj l)) with (String.append "{" (String.append (dumps_members l) "}")).
  rewrite !append_cons, !append_assoc. done.
Qed.

Lemma torn_not_read r t :
  record_wf r → not_continued t → loads (String.append (torn_line r) t) = None.
Proof. intros Hr Ht. apply loads_torn; [by apply record_json_wf|done|done]. Qed.

(** The end of a file whose last line cannot be read. *)
Lemma latest_reason_unreadable l x tl :
  Forall record_wf l → x ≠ "" → no_newline x = true → strip_bytes x = x → loads x = None →
  tl = "" ∨ tl = String.String (chr 10) "" → String.length (String.append x tl) ≤ TAIL_READ_BYTES →
  latest_terminal_reason (Some (String.append (file_of l) (String.append x tl))) = inr None.
Proof.
  intros Hl Hne Hn Hs Hx Htl Hlen.
  assert (Ht : truthy (strip_bytes x) = true) by (rewrite Hs; by destruct x).
  unfold latest_terminal_reason. destruct (String.append (file_of l) (String.append x tl)) as [|c s] eqn:E; [done|].
  rewrite <-E, window_app by done.
  set (s0 := str_drop _ (file_of l)). assert (Hs0 : ends_line s0) by (by apply ends_line_drop, file_ends_line).
  clearbody s0.
  assert (Elast : list.last (base.filter (λ ln, truthy (strip_bytes ln) = true)
    (split_newline (String.append s0 (String.append x tl)))) = Some x).
  { destruct Htl as [-> | ->]; [rewrite append_empty_r; by apply last_nonblank_open|by apply last_nonblank]. }
  rewrite Elast, Hx. by destruct (utf8_valid false x).
Qed.

Lemma file_records_lines content :
  file_records content = parse_lines parse_record_bytes (split_last (split_newline content)).1.
Proof. unfold file_records. cbn [new_records_read]. by rewrite new_lines_eq. Qed.

(** a line cut off by a crash swallows the record that should seal the file.
    A file of whole records followed by a record whose last brace and newline
    were not written is treated as sealed: the sweep counts it and appends its
    [Interrupted] record, but right after the torn text, on the same line.
    That line cannot be read, so the file still has no terminal record, and a
    reader finds only the old records. *)
Theorem seal_one_torn_line ts l r :
  Forall record_wf l → numbered l → record_wf r → utf8_valid true ts = true →
  String.length (String.append (torn_line r) (record_line (seal_record (Z.of_nat (length l)) ts))) ≤ TAIL_READ_BYTES →
  ∃ content', seal_one ts (String.append (file_of l) (torn_line r)) = inr (content', true) ∧
    latest_terminal_reason (Some content') = inr None ∧ file_records content' = inr l.
Proof.
  intros Hl Hn Hr Hts Hlen. set (q := seal_record _ _) in *.
  assert (Hq : record_wf q) by (by apply seal_record_wf).
  destruct (torn_facts r Hr) as (Hnl & Hu & Hcr). destruct (torn_line_shape r) as [s Hshape].
  assert (Hstrip : strip_bytes (torn_line r) = torn_line r) by (rewrite Hshape; apply braces_strip).
  assert (Hne : torn_line r ≠ "") by (by rewrite Hshape).
  assert (Hno : loads (torn_line r) = None).
  { rewrite <-(append_empty_r (torn_line r)). by apply torn_not_read. }
  unfold record_line in Hlen. rewrite !length_append in Hlen. cbn [String.length] in Hlen.
  exists (String.append (file_of l) (String.append (torn_line r) (record_line q))).
  (* the torn text followed by the sealing record, as one line *)
  destruct (torn_then_object r [("seq", JInt (rec_seq q)); ("ts", JStr (rec_ts q)); ("type", JStr (rec_type q));
    ("data", JObj (rec_data q))]) as [s2 Hs2]. fold (record_json q) in Hs2.
  set (x := String.append (torn_line r) (dumps (record_json q))) in *.
  assert (Hx : loads x = None) by (apply torn_not_read; [done|split; [exact eq_refl|split; exact eq_refl]]).
  assert (Hxs : strip_bytes x = x) by (rewrite Hs2; apply braces_strip).
  assert (Hxn : no_newline x = true).
  { unfold x, no_newline in *. rewrite str_forall_app, Hnl. by apply no_newline_dumps, record_json_wf. }
  assert (Hxne : x ≠ "") by (by rewrite Hs2).
  assert (Hline : String.append (torn_line r) (record_line q) = String.append x (String.String (chr 10) "")).
  { unfold x, record_line. by rewrite append_assoc. }
  split_and!.
  - unfold seal_one. rewrite <-(append_empty_r (torn_line r)) at 1.
    rewrite latest_reason_unreadable; try done; [|by left|rewrite append_empty_r; lia].
    unfold read_records. rewrite (utf8_valid_app true) by (done || by apply file_utf8). cbn [negb].
    rewrite universal_newlines_id by (rewrite str_forall_app, file_no_cr by done; done).
    assert (Esplit : split_newline (String.append (file_of l) (torn_line r)) =
      map (λ r, dumps (record_json r)) l ++ [torn_line r]).
    { rewrite split_newline_app, split_file by done. rewrite split_last_app by done. cbn [fst snd].
      rewrite app_nil_r. f_equal. change (split_last [""]).2 with "". rewrite append_nil.
      clear -Hnl. induction (torn_line r) as [|c u IH]; [done|]. unfold no_newline in *. cbn [str_forall] in Hnl.
      apply andb_true_iff in Hnl as [Hc Hnl]. apply negb_true_iff in Hc. cbn [split_newline]. by rewrite Hc, (IH Hnl). }
    rewrite Esplit, parse_text_lines by done. cbn [parse_lines].
    assert (Ep : parse_record (torn_line r) = inr None).
    { unfold parse_record. rewrite Hstrip, Hno. by destruct (truthy (torn_line r)). }
    rewrite Ep. cbn iota. rewrite app_nil_r, numbered_filter by done. fold q. by rewrite append_assoc.
  - rewrite Hline. apply latest_reason_unreadable; try done; [by right|].
    rewrite <-Hline. unfold record_line. rewrite !length_append. cbn [String.length]. lia.
  - rewrite Hline, file_records_lines, split_after_line by (done || by apply file_ends_line).
    rewrite split_file by done. rewrite split_last_app by done. cbn [fst split_last removelast split_newline].
    rewrite removelast_app by done. cbn [removelast]. rewrite app_nil_r.
    rewrite parse_lines_app, parse_file by done. cbn [parse_lines].
    assert (Ep : parse_record_bytes x = inr None).
    { unfold parse_record_bytes, parse_record. rewrite Hxs, Hx.
      assert (Hux : utf8_valid false x = true).
      { apply utf8_strict, utf8_valid_app; [done|by apply utf8_dumps, record_json_wf]. }
      rewrite Hux, andb_false_r. by destruct (truthy x). }
    rewrite Ep. cbn iota. by rewrite app_nil_r.
Qed.

(** A character cut off by a crash ends the whole sweep.  When a file that
    has no terminal record ends inside a multi-byte character, counting its
    records raises instead of skipping the half-written line, the exception
    leaves [seal_orphan_buffers], and neither this file nor any file visited
    after it is sealed. *)
Theorem seal_sweep_stops now content files :
  latest_terminal_reason (Some content) = inr None → utf8_valid true content = false →
  seal_orphan_buffers now (content :: files) = (content :: files, inl (UnicodeDecodeError "utf-8")).
Proof. intros Ho Hu. cbn [seal_orphan_buffers]. unfold seal_one. rewrite Ho. unfold read_records. by rewrite Hu. Qed.
End Sealing.

(** ** Concrete files *)

#[local] Existing Instance plain_conversions.
#[local] Existing Instance plain_platform.

Definition demo_record (n : Z) : TurnRecord := mk_TurnRecord n "now" "sse" demo_frame.

Lemma demo_record_numbered : numbered [demo_record 0].
Proof. intros [|[|i]] r; cbn; [by intros [= <-]|done|done]. Qed.

Lemma seal_one_seals_witness :
  ∃ content', seal_one "later" (file_of [demo_record 0]) = inr (content', true) ∧
    latest_terminal_reason (Some content') = inr (Some "restart").
Proof.
  destruct (seal_one_seals "later" [demo_record 0]) as (content' & H1 & _ & H2 & _).
  - constructor; [apply demo_frame_wf|constructor].
  - apply demo_record_numbered.
  - reflexivity.
  - vm_compute. reflexivity.
  - apply Nat.leb_le. vm_compute. reflexivity.
  - exists content'. exact (conj H1 H2).
Defined.

Lemma seal_one_torn_line_witness :
  ∃ content', seal_one "later" (String.append (file_of [demo_record 0]) (torn_line (demo_record 1))) =
      inr (content', true) ∧ latest_terminal_reason (Some content') = inr None.
Proof.
  destruct (seal_one_torn_line "later" [demo_record 0] (demo_record 1)) as (content' & H1 & H2 & _).
  - constructor; [apply demo_frame_wf|constructor].
  - apply demo_record_numbered.
  - apply demo_frame_wf.
  - reflexivity.
  - apply Nat.leb_le. vm_compute. reflexivity.
  - exists content'. exact (conj H1 H2).
Defined.

(** A line cut inside the two bytes of a letter with an accent. *)
Definition demo_cut : string :=
  let line := record_line (mk_TurnRecord 0 "now" "sse"
    [("sse", JStr (String.String (chr 195) (String.String (chr 169) "")))]) in
  String.substring 0 (String.length line - 5) line.

Lemma seal_sweep_stops_witness :
  seal_orphan_buffers (λ _, "later") [demo_cut; file_of [demo_record 0]] =
    ([demo_cut; file_of [demo_record 0]], inl (UnicodeDecodeError "utf-8")).
Proof.
  apply (seal_sweep_stops (λ _, "later") demo_cut [file_of [demo_record 0]]).
  - vm_compute. reflexivity.
  - vm_compute. reflexivity.
Defined.
