(* ===== verification/AnswerBroker.v ===== *)
(** * Questions a turn asks its user.

    [src/cowork/streaming/answers.py]: [AnswerBroker], the map of open questions;
    [src/cowork/api/v1/endpoints/responses.py]: the in-process branch of
    [answer_question], which turns an HTTP body into an answer and its outcome
    into a reply; [src/cowork/harnesses/anton_harness/elicitor.py]:
    [CoworkElicitor], which waits for the answer.

    Futures are shared between the broker and the waiting turn, so they live in
    a heap of their own and the broker's entries hold their index.  Of anton's
    [AskRequest] the record below has the fields this code reads. *)
From stdpp Require Import base list gmap strings option.
From Stdlib Require Import ZArith Lia.
From S2P Require Import Prelude.

Record AskRequest := {
  ask_options : list string;      (* the [value] of each option *)
  ask_select : string;
  ask_allow_custom : bool;
  ask_timeout_s : option Z;
}.

(** The answer dict; [None] is an absent key. *)
Record Answer := {
  a_values : option (list string);
  a_text : option string;
  a_skipped : option bool;
}.

Inductive SubmitResult := ACCEPTED | NOT_FOUND | ALREADY_ANSWERED | INVALID_OPTION.

(** An [asyncio.Future] of an answer. *)
Inductive future := FuturePending | FutureResult (a : Answer) | FutureCancelled.
Definition future_done (f : future) : bool := match f with FuturePending => false | _ => true end.

Record Pending := { p_future : nat; p_request : AskRequest }.

Record AnswerBroker := {
  br_pending : gmap (string * string) Pending;
  br_futures : list future;
}.

#[export] Instance fields_AnswerBroker : Fields AnswerBroker := λ b, {|
  br_pending := br_pending b; br_futures := br_futures b |}.

Definition new_broker : AnswerBroker := {| br_pending := ∅; br_futures := [] |}.

(** [open]: the future of the question. *)
Definition broker_open (conversation_id question_id : string) (request : AskRequest) (b : AnswerBroker) :
    AnswerBroker * nat :=
  let key := (conversation_id, question_id) in
  match br_pending b !! key with
  | Some existing => (b, p_future existing)
  | None =>
      let f := length (br_futures b) in
      (b <| br_futures := br_futures b ++ [FuturePending] |>
         <| br_pending := <[key := {| p_future := f; p_request := request |}]> (br_pending b) |>, f)
  end.

(** Why an answer is refused: the log line of [_violation].  The values that
    were never offered are in the order they were given. *)
Inductive violation_reason :=
  | NeverOffered (unknown : list string)
  | Duplicates
  | TooMany (n : nat)
  | FreeForm.

(** [_violation]. *)
Definition violation (request : AskRequest) (answer : Answer) : option violation_reason :=
  let values := default [] (a_values answer) in
  let unknown := base.filter (λ v, v ∉ ask_options request) values in
  let text := if truthy_opt (a_text answer) && negb (ask_allow_custom request) then Some FreeForm else None in
  match values with
  | [] => text
  | _ :: _ =>
      match unknown with
      | _ :: _ => Some (NeverOffered (unique_values unknown))
      | [] =>
          if negb (Nat.eqb (length (unique_values values)) (length values)) then Some Duplicates
          else if String.eqb (ask_select request) "one" && Nat.ltb 1 (length values)
          then Some (TooMany (length values)) else text
      end
  end.

(** [submit]. *)
Definition broker_submit (conversation_id question_id : string) (answer : Answer) (b : AnswerBroker) :
    AnswerBroker * SubmitResult :=
  match br_pending b !! (conversation_id, question_id) with
  | None => (b, NOT_FOUND)
  | Some pending =>
      if from_option future_done true (br_futures b !! p_future pending) then (b, ALREADY_ANSWERED)
      else
        match (if default false (a_skipped answer) then None else violation (p_request pending) answer) with
        | Some _ => (b, INVALID_OPTION)
        | None => (b <| br_futures := <[p_future pending := FutureResult answer]> (br_futures b) |>, ACCEPTED)
        end
  end.

(** [close]. *)
Definition broker_close (conversation_id question_id : string) (b : AnswerBroker) : AnswerBroker :=
  match br_pending b !! (conversation_id, question_id) with
  | None => b
  | Some pending =>
      let b := b <| br_pending := delete (conversation_id, question_id) (br_pending b) |> in
      if from_option future_done true (br_futures b !! p_future pending) then b
      else b <| br_futures := <[p_future pending := FutureCancelled]> (br_futures b) |>
  end.

(** [reset]: the keys in some order. *)
Definition broker_reset (b : AnswerBroker) : AnswerBroker :=
  fold_left (λ b k, broker_close k.1 k.2 b) (map_to_list (br_pending b)).*1 b.

(** ** The answer endpoint *)

Record AnswerRequest := {
  req_conversation_id : string;
  req_question_id : string;
  req_values : option (list string);
  req_text : option string;
  req_skipped : option bool;
}.

(** A reply: its status code, and the [status] of its body or its [accepted]. *)
Definition reply : Type := Z * string.

Definition ANSWER_RESPONSES : list (string * reply) :=
  [("not_found", (404%Z, "not_found")); ("already_answered", (409%Z, "already_answered"));
   ("invalid_option", (400%Z, "invalid_option")); ("too_large", (400%Z, "answer_too_large"))].

Definition submit_value (r : SubmitResult) : string :=
  match r with
  | ACCEPTED => "accepted" | NOT_FOUND => "not_found"
  | ALREADY_ANSWERED => "already_answered" | INVALID_OPTION => "invalid_option"
  end.

(** [_answer_response]; [None] is its [AssertionError]. *)
Definition answer_response (value : string) : option reply :=
  if String.eqb value "accepted" then Some (200%Z, "accepted")
  else snd <$> find (λ kv, String.eqb kv.1 value) ANSWER_RESPONSES.

(** The answer a body stands for, or the reply that refuses it. *)
Definition answer_payload (req : AnswerRequest) : reply + Answer :=
  let values := base.filter (λ v, truthy v = true) (default [] (req_values req)) in
  let text := str_strip (default "" (req_text req)) in
  let skipped := default false (req_skipped req) in
  let has_values := negb (Nat.eqb (length values) 0) in
  if skipped && (has_values || truthy text) then inl (400%Z, "ambiguous_answer")
  else if negb (has_values || truthy text || skipped) then inl (400%Z, "empty_answer")
  else inr {| a_values := if has_values then Some values else None;
              a_text := if truthy text then Some text else None;
              a_skipped := if skipped then Some true else None |}.

(** [answer_question] on the in-process backend; [authorized] is whether
    [_authorized_handle] found a turn of the caller. *)
Definition answer_question (authorized : bool) (req : AnswerRequest) (b : AnswerBroker) : AnswerBroker * option reply :=
  if negb authorized then (b, Some (404%Z, "not_found"))
  else
    match answer_payload req with
    | inl r => (b, Some r)
    | inr payload =>
        let '(b1, r) := broker_submit (req_conversation_id req) (req_question_id req) payload b in
        (b1, answer_response (submit_value r))
    end.

(** ** The waiting turn *)

Definition DEFAULT_TIMEOUT_S : Z := 300.

(** The answers [ask] returns: their status, and for [answered] what was chosen. *)
Inductive AskAnswer := AskTimeout | AskCancelled | AskAnswered (values : list string) (text : string).

(** How long [ask] waits. *)
Definition ask_timeout (timeout_s : Z) (request : AskRequest) : Z := default timeout_s (ask_timeout_s request).

(** What [ask] returns, from the state its future is in when the wait ends: a
    future still pending is a wait that timed out. *)
Definition ask_result (f : future) : exn + AskAnswer :=
  match f with
  | FuturePending => inr AskTimeout
  | FutureCancelled => inl CancelledError
  | FutureResult payload =>
      if default false (a_skipped payload) then inr AskCancelled
      else inr (AskAnswered (default [] (a_values payload)) (default "" (a_text payload)))
  end.

(** ** What an answer must be *)

(** The contract of a question: only values that were offered, none twice, one
    for a single choice, and text only where it was invited. *)
Definition answer_fits (request : AskRequest) (values : list string) (text : string) : Prop :=
  values ⊆ ask_options request ∧ NoDup values ∧
  (ask_select request = "one" → length values ≤ 1) ∧ (text ≠ "" → ask_allow_custom request = true).

Definition answer_accepts (request : AskRequest) (a : Answer) : Prop :=
  a_skipped a = Some true ∨ answer_fits request (default [] (a_values a)) (default "" (a_text a)).

Lemma length_dict_fromkeys {A} `{EqDecision A} (seen l : list A) :
  length (dict_fromkeys seen l) ≤ length l ∧
  (length (dict_fromkeys seen l) = length l ↔ NoDup l ∧ ∀ x, x ∈ l → x ∉ seen).
Proof.
  revert seen. induction l as [|y l IH]; intros seen; cbn.
  { split; [lia|]. split; [|done]. split; [constructor|]. set_solver. }
  case_decide as Hy; cbn.
  - destruct (IH seen) as [Hle _]. split; [lia|]. split; [lia|]. intros [_ Hs]. destruct (Hs y); set_solver.
  - destruct (IH (y :: seen)) as [Hle Heq]. split; [lia|]. rewrite list.NoDup_cons. split.
    + intros [= Hl]. apply Heq in Hl as [Hnd Hs]. set_solver.
    + intros [[Hyl Hnd] Hs]. f_equal. apply Heq. split; [done|]. set_solver.
Qed.

Lemma length_unique_values {A} `{EqDecision A} (l : list A) : length (unique_values l) = length l ↔ NoDup l.
Proof. unfold unique_values. rewrite (proj2 (length_dict_fromkeys [] l)). set_solver. Qed.

Lemma filter_nil_iff {A} (P : A → Prop) `{!∀ x, Decision (P x)} (l : list A) :
  base.filter P l = [] ↔ ∀ x, x ∈ l → ¬ P x.
Proof.
  split.
  - intros Hf x Hx HP. assert (x ∈ base.filter P l) as Hin by (by apply list_elem_of_filter).
    rewrite Hf in Hin. set_solver.
  - intros Hno. destruct (base.filter P l) as [|x f] eqn:Hf; [done|].
    assert (x ∈ base.filter P l) as Hin by (rewrite Hf; set_solver).
    apply list_elem_of_filter in Hin as [??]. naive_solver.
Qed.

Lemma text_violation request a :
  truthy_opt (a_text a) && negb (ask_allow_custom request) = false ↔
  (default "" (a_text a) ≠ "" → ask_allow_custom request = true).
Proof.
  unfold truthy_opt. destruct (a_text a) as [s|]; cbn; [|naive_solver].
  rewrite andb_false_iff, negb_false_iff, <- not_true_iff_false, truthy_ne.
  destruct (decide (s = "")); naive_solver.
Qed.

(** [_violation] decides the contract. *)
Lemma violation_None request a :
  violation request a = None ↔ answer_fits request (default [] (a_values a)) (default "" (a_text a)).
Proof.
  unfold violation, answer_fits. rewrite <- text_violation. set (vs := default [] (a_values a)).
  set (tv := truthy_opt (a_text a) && negb (ask_allow_custom request)).
  assert ((if tv then Some FreeForm else None) = None ↔ tv = false) as Htv by (destruct tv; naive_solver).
  destruct vs as [|v vs'] eqn:Evs.
  { rewrite Htv. split; [|naive_solver]. intros ->. split_and!; [set_solver|constructor|cbn; lia|done]. }
  rewrite <- Evs. clearbody vs. clear v vs' Evs.
  pose proof (filter_nil_iff (λ v, v ∉ ask_options request) vs) as Hf.
  destruct (base.filter _ vs) eqn:Ef.
  - assert (vs ⊆ ask_options request) as Hsub.
    { intros x Hx. destruct (decide (x ∈ ask_options request)); [done|]. destruct (proj1 Hf eq_refl x Hx). done. }
    destruct (Nat.eqb_spec (length (unique_values vs)) (length vs)) as [Hl|Hl]; cbn [negb].
    + apply length_unique_values in Hl.
      destruct (String.eqb_spec (ask_select request) "one"), (Nat.ltb_spec 1 (length vs)); cbn [andb];
        rewrite ?Htv; (split; [intros; split_and!; done || (intros; done || lia)|intros (_ & _ & Hone & ?); done || (exfalso; specialize (Hone ltac:(done)); lia)]).
    + rewrite length_unique_values in Hl. naive_solver.
  - split; [done|]. intros (Hsub & _). enough (s :: l = []) by done. apply Hf. intros x Hx Hn. by apply Hn, Hsub.
Qed.

(** ** Histories of the broker *)

Inductive broker_step (b : AnswerBroker) : AnswerBroker → Prop :=
  | step_open c q request : broker_step b (broker_open c q request b).1
  | step_submit c q a : broker_step b (broker_submit c q a b).1
  | step_close c q : broker_step b (broker_close c q b)
  | step_reset : broker_step b (broker_reset b).

(** One future for each question, in the heap, and no future left pending that
    no question can resolve any more. *)
Record broker_wf (b : AnswerBroker) : Prop := {
  wf_bound : ∀ k p, br_pending b !! k = Some p → p_future p < length (br_futures b);
  wf_one : ∀ k k' p p', br_pending b !! k = Some p → br_pending b !! k' = Some p' →
    p_future p = p_future p' → k = k';
  wf_live : ∀ i, br_futures b !! i = Some FuturePending → ∃ k p, br_pending b !! k = Some p ∧ p_future p = i;
}.

(** What a step does to the futures and entries a waiting turn depends on. *)
Record preserves (b b' : AnswerBroker) : Prop := {
  pr_length : length (br_futures b) ≤ length (br_futures b');
  pr_settled : ∀ i f, br_futures b !! i = Some f → future_done f = true → br_futures b' !! i = Some f;
  pr_entry : ∀ k p, br_pending b' !! k = Some p → p_future p < length (br_futures b) → br_pending b !! k = Some p;
  pr_result : ∀ i a, i < length (br_futures b) → br_futures b' !! i = Some (FutureResult a) →
    br_futures b !! i = Some (FutureResult a) ∨
    ∃ k p, br_pending b !! k = Some p ∧ p_future p = i ∧ answer_accepts (p_request p) a;
}.

#[export] Instance preserves_refl : Reflexive preserves.
Proof. intros b. split; naive_solver. Qed.

Lemma new_broker_wf : broker_wf new_broker.
Proof. split; cbn; intros *; rewrite ?lookup_empty; done. Qed.

Lemma open_preserves c q request b :
  broker_wf b → broker_wf (broker_open c q request b).1 ∧ preserves b (broker_open c q request b).1.
Proof.
  intros [Hb Ho Hl]. unfold broker_open. destruct (br_pending b !! (c, q)) as [p|] eqn:Hk; [done|]. cbn.
  split; split; cbn; rewrite ?length_app; cbn.
  - intros k p. destruct (decide (k = (c, q))) as [->|Hne].
    + rewrite lookup_insert_eq. intros [= <-]. cbn. lia.
    + rewrite lookup_insert_ne by done. intros Hp%Hb. lia.
  - intros k k' p p'. rewrite !lookup_insert_Some. intros [[<- <-]|[? Hp]] [[<- <-]|[? Hp']]; cbn; [done| | |eauto].
    + apply Hb in Hp'. lia.
    + apply Hb in Hp. lia.
  - intros i [Hi|[Hge [Hi _]%list_lookup_singleton_Some]]%lookup_app_Some.
    + destruct (Hl i Hi) as (k & p & Hp & <-). exists k, p. split; [|done].
      rewrite lookup_insert_ne; [done|]. congruence.
    + exists (c, q). eexists. rewrite lookup_insert_eq. split; [done|]. cbn. lia.
  - lia.
  - intros i f Hi _. by apply lookup_app_l_Some.
  - intros k p [[<- <-]|[_ ?]]%lookup_insert_Some; cbn; [lia|done].
  - intros i a _ [Hi|[_ Hi]]%lookup_app_Some; [by left|]. by apply list_lookup_singleton_Some in Hi as [_ ?].
Qed.

(** Settling the future of an open question. *)
Lemma settle_preserves k p f b pend :
  broker_wf b → br_pending b !! k = Some p → br_futures b !! p_future p = Some FuturePending →
  future_done f = true → pend = br_pending b ∨ pend = delete k (br_pending b) →
  (∀ a, f = FutureResult a → answer_accepts (p_request p) a) →
  let b' := {| br_pending := pend; br_futures := <[p_future p := f]> (br_futures b) |} in
  broker_wf b' ∧ preserves b b'.
Proof.
  intros [Hb Ho Hl] Hk Hf Hdone Hpend Hacc b'.
  assert (∀ k' p', pend !! k' = Some p' → br_pending b !! k' = Some p') as Hsub.
  { destruct Hpend as [-> | ->]; [done|]. intros k' p'. by rewrite lookup_delete_Some; intros [_ ?]. }
  assert (∀ i g, <[p_future p := f]> (br_futures b) !! i = Some g → (i = p_future p ∧ g = f) ∨ (i ≠ p_future p ∧ br_futures b !! i = Some g)) as Hcases.
  { intros i g. rewrite list_lookup_insert_Some. naive_solver. }
  split; split; cbn; rewrite ?length_insert.
  - eauto.
  - eauto.
  - intros i [[_ <-]|[Hne Hi]]%Hcases; [done|]. destruct (Hl i Hi) as (k' & p' & Hp' & Hi'). exists k', p'.
    split; [|done]. destruct Hpend as [-> | ->]; [done|]. rewrite lookup_delete_ne; [done|]. intros <-. congruence.
  - lia.
  - intros i g Hi Hg. rewrite list_lookup_insert_ne; [done|]. intros <-. rewrite Hf in Hi. by simplify_eq.
  - eauto.
  - intros i a _ [[-> <-]|[_ Hi]]%Hcases; [right; eauto 6|by left].
Qed.

Lemma pending_future (o : option future) : from_option future_done true o = false → o = Some FuturePending.
Proof. by destruct o as [[]|]. Qed.

Lemma submit_preserves c q a b :
  broker_wf b → broker_wf (broker_submit c q a b).1 ∧ preserves b (broker_submit c q a b).1.
Proof.
  intros Hwf. unfold broker_submit. destruct (br_pending b !! (c, q)) as [p|] eqn:Hk; [|done].
  destruct (from_option _ _ _) eqn:Hd; [done|]. apply pending_future in Hd.
  destruct (if default false (a_skipped a) then None else violation (p_request p) a) eqn:Hv; [done|].
  apply (settle_preserves (c, q) p); auto. intros a' [= <-]. unfold answer_accepts.
  destruct (a_skipped a) as [[]|]; cbn in *; [by left| |]; right; by apply violation_None.
Qed.

Lemma close_preserves c q b : broker_wf b → broker_wf (broker_close c q b) ∧ preserves b (broker_close c q b).
Proof.
  intros Hwf. unfold broker_close. destruct (br_pending b !! (c, q)) as [p|] eqn:Hk; [|done]. cbn.
  destruct (from_option _ _ _) eqn:Hd.
  - destruct Hwf as [Hb Ho Hl]. split; split; cbn; intros *; rewrite ?lookup_delete_Some; try naive_solver.
    intros Hi. destruct (Hl i Hi) as (k & p' & Hp' & <-). exists k, p'. rewrite lookup_delete_Some.
    split_and!; try done. intros <-. rewrite Hk in Hp'. simplify_eq. by rewrite Hi in Hd.
  - apply pending_future in Hd. by apply (settle_preserves (c, q) p); auto.
Qed.

#[export] Instance preserves_trans : Transitive preserves.
Proof.
  intros b1 b2 b3 [L1 S1 E1 R1] [L2 S2 E2 R2]. split; [lia|auto| |].
  - intros k p Hp Hlt. apply E1; [|done]. apply E2; [done|lia].
  - intros i a Hi Ha. destruct (R2 i a ltac:(lia) Ha) as [Ha'|(k & p & Hp & <- & Hacc)]; [by apply R1|].
    right. exists k, p. auto.
Qed.

Lemma reset_preserves b : broker_wf b → broker_wf (broker_reset b) ∧ preserves b (broker_reset b).
Proof.
  unfold broker_reset. generalize (map_to_list (br_pending b)).*1 as keys. intros keys.
  revert b. induction keys as [|[c q] keys IH]; intros b Hwf; cbn; [done|].
  destruct (close_preserves c q b Hwf) as [Hwf' Hp]. destruct (IH _ Hwf') as [? Hp']. split; [done|]. by etrans.
Qed.

Lemma step_preserves b b' : broker_wf b → broker_step b b' → broker_wf b' ∧ preserves b b'.
Proof.
  intros Hwf [].
  - by apply open_preserves.
  - by apply submit_preserves.
  - by apply close_preserves.
  - by apply reset_preserves.
Qed.

Lemma history_preserves b b' : broker_wf b → rtc broker_step b b' → broker_wf b' ∧ preserves b b'.
Proof.
  intros Hwf Hsteps. induction Hsteps as [b|b b1 b2 Hstep _ IH]; [done|].
  destruct (step_preserves b b1 Hwf Hstep) as [Hwf1 Hp]. destruct (IH Hwf1) as [? Hp']. split; [done|]. by etrans.
Qed.

(** ** Theorems *)

(** In every history of the broker a question has one future of its own, no
    future is left pending without a question that can still resolve it, and a
    future that was answered or cancelled stays as it is: the first answer is
    the one the turn gets. *)
Theorem question_answered_once b b' :
  rtc broker_step new_broker b → rtc broker_step b b' →
  broker_wf b' ∧
  ∀ i f, br_futures b !! i = Some f → future_done f = true → br_futures b' !! i = Some f.
Proof.
  intros Hb Hb'. destruct (history_preserves _ _ new_broker_wf Hb) as [Hwf _].
  destruct (history_preserves _ _ Hwf Hb') as [Hwf' Hp]. split; [done|]. apply (pr_settled _ _ Hp).
Qed.

(** What a turn gets from [ask] is an answer to the question it asked: for
    the future of a newly opened question, whatever else happens to the broker,
    an [answered] outcome names only offered values, none twice, one for a
    single choice, and has text only where the question invited it. *)
Theorem ask_answer_fits b c q request b' i b2 f values text :
  rtc broker_step new_broker b → br_pending b !! (c, q) = None →
  broker_open c q request b = (b', i) → rtc broker_step b' b2 →
  br_futures b2 !! i = Some f → ask_result f = inr (AskAnswered values text) →
  answer_fits request values text.
Proof.
  intros Hb Hk Hopen Hb2 Hf Hask. destruct (history_preserves _ _ new_broker_wf Hb) as [Hwf _].
  destruct (open_preserves c q request b Hwf) as [Hwf' _]. rewrite Hopen in Hwf'. cbn in Hwf'.
  destruct (history_preserves _ _ Hwf' Hb2) as [_ Hp].
  unfold broker_open in Hopen. rewrite Hk in Hopen. injection Hopen as <- <-.
  destruct f as [|a|]; cbn in Hask; try done.
  destruct (pr_result _ _ Hp (length (br_futures b)) a ltac:(cbn; rewrite length_app; cbn; lia) Hf) as [Ha|(k & p & Hkp & Hi & Hacc)]; cbn in *.
  { by rewrite lookup_app_r, Nat.sub_diag in Ha by done. }
  apply lookup_insert_Some in Hkp as [[_ <-]|[_ Hkp]]; [|apply (wf_bound b Hwf) in Hkp; lia]. cbn in Hacc.
  unfold answer_accepts in Hacc. destruct (a_skipped a) as [[]|]; cbn in *; simplify_eq; naive_solver.
Qed.

(** The replies of the endpoint.  The dict has an entry for every outcome. *)
Lemma answer_response_submit r :
  answer_response (submit_value r) =
  Some (match r with
        | ACCEPTED => (200%Z, "accepted") | NOT_FOUND => (404%Z, "not_found")
        | ALREADY_ANSWERED => (409%Z, "already_answered") | INVALID_OPTION => (400%Z, "invalid_option")
        end).
Proof. by destruct r. Qed.

Lemma submit_cases c q a b :
  (br_pending b !! (c, q) = None ∧ broker_submit c q a b = (b, NOT_FOUND)) ∨
  ∃ p, br_pending b !! (c, q) = Some p ∧
    ((br_futures b !! p_future p ≠ Some FuturePending ∧ broker_submit c q a b = (b, ALREADY_ANSWERED)) ∨
     br_futures b !! p_future p = Some FuturePending ∧
     ((¬ answer_accepts (p_request p) a ∧ broker_submit c q a b = (b, INVALID_OPTION)) ∨
      (answer_accepts (p_request p) a ∧
       broker_submit c q a b = (b <| br_futures := <[p_future p := FutureResult a]> (br_futures b) |>, ACCEPTED)))).
Proof.
  unfold broker_submit. destruct (br_pending b !! (c, q)) as [p|]; [right; exists p; split; [done|]|by left].
  destruct (br_futures b !! p_future p) as [[]|]; cbn; try (by left). right. split; [done|].
  pose proof (violation_None (p_request p) a) as Hv. unfold answer_accepts.
  destruct (a_skipped a) as [[]|]; cbn; [by right; split; [left|]| |];
    destruct (violation (p_request p) a); naive_solver.
Qed.

(** The replies of [POST /answer] tell exactly what happened.  200 is sent
    only when the caller's turn has that question open and unanswered and the
    answer fits the offer, and then the waiting turn's future holds that answer;
    409 exactly when the question is no longer waiting; an answer that does not
    fit gives 400; every reply but 200 leaves the broker as it was, and no
    outcome is without a reply. *)
Theorem answer_question_replies authorized req b b' r :
  answer_question authorized req b = (b', r) →
  let k := (req_conversation_id req, req_question_id req) in
  is_Some r ∧ (r ≠ Some (200%Z, "accepted") → b' = b) ∧
  (r = Some (200%Z, "accepted") ↔
    authorized = true ∧ ∃ a p, answer_payload req = inr a ∧ br_pending b !! k = Some p ∧
      br_futures b !! p_future p = Some FuturePending ∧ answer_accepts (p_request p) a ∧
      br_futures b' !! p_future p = Some (FutureResult a)) ∧
  (r = Some (409%Z, "already_answered") ↔
    authorized = true ∧ ∃ a p, answer_payload req = inr a ∧ br_pending b !! k = Some p ∧
      br_futures b !! p_future p ≠ Some FuturePending) ∧
  (r = Some (400%Z, "invalid_option") ↔
    authorized = true ∧ ∃ a p, answer_payload req = inr a ∧ br_pending b !! k = Some p ∧
      br_futures b !! p_future p = Some FuturePending ∧ ¬ answer_accepts (p_request p) a).
Proof.
  intros H k. unfold answer_question in H. destruct authorized; cbn in H; [|simplify_eq; naive_solver].
  destruct (answer_payload req) as [e|a] eqn:Hpay.
  { unfold answer_payload in Hpay. repeat case_match; simplify_eq; split_and!; naive_solver. }
  fold k in H |- *.
  destruct (submit_cases (req_conversation_id req) (req_question_id req) a b)
    as [[Hk Hs]|(p & Hk & [[Hf Hs]|(Hf & [[Hacc Hs]|[Hacc Hs]])])];
    rewrite Hs, answer_response_submit in H; injection H as <- <-; fold k in Hk; split_and!;
    try done; try naive_solver.
  split; [|done]. intros _. split; [done|]. exists a, p. split_and!; try done. cbn.
  apply list_lookup_insert_eq. by apply lookup_lt_Some in Hf.
Qed.

(** ** Concrete questions *)

Definition demo_request : AskRequest := {|
  ask_options := ["yes"; "no"]; ask_select := "one"; ask_allow_custom := false; ask_timeout_s := None |}.
Definition demo_answer : Answer := {| a_values := Some ["yes"]; a_text := None; a_skipped := None |}.
Definition demo_asked : AnswerBroker := (broker_open "c" "q" demo_request new_broker).1.
Definition demo_answered : AnswerBroker := (broker_submit "c" "q" demo_answer demo_asked).1.

Lemma demo_asked_reachable : rtc broker_step new_broker demo_asked.
Proof. apply rtc_once, step_open. Qed.
Lemma demo_answered_reachable : rtc broker_step demo_asked demo_answered.
Proof. apply rtc_once, step_submit. Qed.

Lemma question_answered_once_witness :
  br_futures (broker_close "c" "q" demo_answered) !! 0 = Some (FutureResult demo_answer).
Proof.
  refine (proj2 (question_answered_once demo_answered (broker_close "c" "q" demo_answered) _ _) 0 _ _ _).
  - etrans; [apply demo_asked_reachable|apply demo_answered_reachable].
  - apply rtc_once, step_close.
  - reflexivity.
  - reflexivity.
Defined.

Lemma ask_answer_fits_witness : answer_fits demo_request ["yes"] "".
Proof.
  apply (ask_answer_fits new_broker "c" "q" demo_request demo_asked 0 demo_answered (FutureResult demo_answer)).
  - apply rtc_refl.
  - reflexivity.
  - reflexivity.
  - apply demo_answered_reachable.
  - reflexivity.
  - reflexivity.
Defined.

Definition demo_post (values : list string) : AnswerRequest := {|
  req_conversation_id := "c"; req_question_id := "q"; req_values := Some values; req_text := None;
  req_skipped := None |}.

Lemma answer_question_replies_witness :
  answer_question true (demo_post ["maybe"]) demo_asked = (demo_asked, Some (400%Z, "invalid_option")) ∧
  ∃ a p, answer_payload (demo_post ["yes"]) = inr a ∧ br_pending demo_asked !! ("c", "q") = Some p ∧
    br_futures demo_asked !! p_future p = Some FuturePending ∧ answer_accepts (p_request p) a ∧
    br_futures demo_answered !! p_future p = Some (FutureResult a).
Proof.
  split; [reflexivity|].
  destruct (answer_question_replies true (demo_post ["yes"]) demo_asked demo_answered (Some (200%Z, "accepted")) eq_refl)
    as (_ & _ & [H _] & _). by destruct (H eq_refl) as [_ ?].
Defined.
