(* ===== verification/TurnIndex.v ===== *)
(** * The turn index: which turn is current for each conversation.

    [src/cowork/streaming/turn_index.py] on Redis.  Every replica of the server
    writes the same keys, so what matters is how its commands interleave: a
    [MULTI] block is one step, two commands in a row are two steps, and a
    [WATCH] makes the block after it do nothing when a watched key was written
    in between.  Of Redis the model has the hash of each conversation with the
    number of writes to it, which is what [WATCH] compares, and the set
    [cowork:turns]; an entry may expire at any moment. *)
From stdpp Require Import base list gmap strings option.
From Stdlib Require Import ZArith Lia.
From S2P Require Import Prelude.

(** The hash of a turn. *)
Record TurnEntry := {
  te_turn_id : Z;
  te_run_id : option string;
  te_correlation_id : string;
  te_org_id : string;
  te_user_id : string;
}.

Record Redis := {
  rd_hash : gmap string TurnEntry;
  rd_writes : gmap string nat;
  rd_turns : gset string;
}.

#[export] Instance fields_Redis : Fields Redis := λ r, {|
  rd_hash := rd_hash r; rd_writes := rd_writes r; rd_turns := rd_turns r |}.

Definition empty_redis : Redis := {| rd_hash := ∅; rd_writes := ∅; rd_turns := ∅ |}.

Definition key_version (r : Redis) (cid : string) : nat := default 0 (rd_writes r !! cid).

(** A write to a hash counts; deleting a hash that is not there does not. *)
Definition redis_hset (cid : string) (e : TurnEntry) (r : Redis) : Redis :=
  r <| rd_hash := <[cid := e]> (rd_hash r) |> <| rd_writes := <[cid := S (key_version r cid)]> (rd_writes r) |>.
Definition redis_delete (cid : string) (r : Redis) : Redis :=
  match rd_hash r !! cid with
  | None => r
  | Some _ => r <| rd_hash := delete cid (rd_hash r) |>
                <| rd_writes := <[cid := S (key_version r cid)]> (rd_writes r) |>
  end.
Definition redis_sadd (cid : string) (r : Redis) : Redis := r <| rd_turns := {[cid]} ∪ rd_turns r |>.
Definition redis_srem (cids : list string) (r : Redis) : Redis :=
  r <| rd_turns := rd_turns r ∖ list_to_set cids |>.

(** [TurnOwner.from_index]: a missing id was written as "". *)
Definition turn_owner (e : TurnEntry) : option string * option string :=
  (if truthy (te_org_id e) then Some (te_org_id e) else None,
   if truthy (te_user_id e) then Some (te_user_id e) else None).

(** [record_turn]: one [MULTI]. *)
Definition record_turn (cid : string) (turn_id : Z) (correlation_id : string) (org_id user_id : option string)
    (run_id : option string) (r : Redis) : Redis :=
  redis_sadd cid (redis_hset cid {|
    te_turn_id := turn_id; te_run_id := run_id; te_correlation_id := correlation_id;
    te_org_id := default "" org_id; te_user_id := default "" user_id |} (redis_delete cid r)).

(** [get_turn]. *)
Definition get_turn (cid : string) (r : Redis) : option TurnEntry := rd_hash r !! cid.

(** The operations that take several commands, by what they do next. *)
Inductive pending_op :=
  | ForgetTurnSrem (cid : string)                                (* [forget_turn] after its DELETE *)
  | ForgetRunRead (cid run_id : string) (watched : nat)          (* after WATCH *)
  | ForgetRunExec (cid run_id : string) (watched : nat)          (* after HGET found [run_id] *)
  | ListRead (members : list string)                             (* after SMEMBERS *)
  | PruneWatch (expired : list string)                           (* after the pipelined HGETALLs *)
  | PruneRead (expired : list string) (watched : list nat)       (* after WATCH *)
  | PruneExec (expired : list string) (watched : list nat).      (* after EXISTS found none *)

(** The first command of each. *)
Definition forget_turn (cid : string) (r : Redis) : Redis * pending_op := (redis_delete cid r, ForgetTurnSrem cid).
Definition forget_run (cid run_id : string) (r : Redis) : Redis * pending_op :=
  (r, ForgetRunRead cid run_id (key_version r cid)).
Definition list_turns (r : Redis) : Redis * pending_op := (r, ListRead (elements (rd_turns r))).

(** What [list_turns] returns from the hashes it read. *)
Definition listed_turns (members : list string) (r : Redis) : list (string * TurnEntry) :=
  omap (λ c, (λ e, (c, e)) <$> rd_hash r !! c) members.

(** One more command of an operation, and what is left of it. *)
Definition op_step (op : pending_op) (r : Redis) : Redis * option pending_op :=
  match op with
  | ForgetTurnSrem cid => (redis_srem [cid] r, None)
  | ForgetRunRead cid run_id v =>
      (r, if bool_decide ((rd_hash r !! cid) ≫= te_run_id = Some run_id) then Some (ForgetRunExec cid run_id v) else None)
  | ForgetRunExec cid run_id v =>
      (if Nat.eqb (key_version r cid) v then redis_srem [cid] (redis_delete cid r) else r, None)
  | ListRead members =>
      let expired := base.filter (λ c, rd_hash r !! c = None) members in
      (r, match expired with [] => None | _ => Some (PruneWatch expired) end)
  | PruneWatch expired => (r, Some (PruneRead expired (map (key_version r) expired)))
  | PruneRead expired vs =>
      (r, if bool_decide (Exists (λ c, is_Some (rd_hash r !! c)) expired) then None else Some (PruneExec expired vs))
  | PruneExec expired vs =>
      (if bool_decide (map (key_version r) expired = vs) then redis_srem expired r else r, None)
  end.

(** Histories: the operations of all replicas, interleaved command by command. *)
Inductive index_step : Redis * list pending_op → Redis * list pending_op → Prop :=
  | index_record cid turn_id corr org user run r ops :
      index_step (r, ops) (record_turn cid turn_id corr org user run r, ops)
  | index_expire cid r ops : index_step (r, ops) (redis_delete cid r, ops)
  | index_forget_turn cid r ops : index_step (r, ops) ((forget_turn cid r).1, (forget_turn cid r).2 :: ops)
  | index_forget_run cid run r ops : index_step (r, ops) ((forget_run cid run r).1, (forget_run cid run r).2 :: ops)
  | index_list r ops : index_step (r, ops) ((list_turns r).1, (list_turns r).2 :: ops)
  | index_command ops1 op ops2 r :
      index_step (r, ops1 ++ op :: ops2) ((op_step op r).1, ops1 ++ option_list (op_step op r).2 ++ ops2).

(** ** How the keys evolve *)

(** Writes are counted, and a hash changes only with its count: what [WATCH]
    relies on. *)
Definition evolves (r r' : Redis) : Prop := ∀ c,
  key_version r c ≤ key_version r' c ∧ (key_version r c = key_version r' c → rd_hash r' !! c = rd_hash r !! c).

#[export] Instance evolves_preorder : PreOrder evolves.
Proof.
  split; [by intros r c|]. intros r1 r2 r3 H12 H23 c. destruct (H12 c) as [? He1], (H23 c) as [? He2].
  split; [lia|]. intros. rewrite He2, He1 by lia. done.
Qed.

Lemma evolves_insert r cid h :
  evolves r (r <| rd_hash := partial_alter (λ _, h) cid (rd_hash r) |> <| rd_writes := <[cid := S (key_version r cid)]> (rd_writes r) |>).
Proof.
  intros c. unfold key_version. cbn. destruct (decide (c = cid)) as [->|Hne].
  - rewrite lookup_insert_eq. cbn. lia.
  - rewrite lookup_insert_ne, lookup_partial_alter_ne by done. done.
Qed.

Lemma redis_hset_evolves cid e r : evolves r (redis_hset cid e r).
Proof. apply (evolves_insert r cid (Some e)). Qed.
Lemma redis_delete_evolves cid r : evolves r (redis_delete cid r).
Proof. unfold redis_delete. destruct (rd_hash r !! cid); [apply (evolves_insert r cid None)|done]. Qed.
Lemma same_hashes_evolve r r' : rd_hash r' = rd_hash r → rd_writes r' = rd_writes r → evolves r r'.
Proof. intros Hh Hw c. unfold key_version. by rewrite Hh, Hw. Qed.

Create HintDb redis.
#[export] Hint Resolve redis_hset_evolves redis_delete_evolves : redis.

Lemma record_turn_evolves cid t corr org user run r : evolves r (record_turn cid t corr org user run r).
Proof.
  unfold record_turn. etrans; [apply (redis_delete_evolves cid)|].
  etrans; [apply redis_hset_evolves|]. by apply same_hashes_evolve.
Qed.

Lemma op_step_evolves op r : evolves r (op_step op r).1.
Proof.
  destruct op; cbn; try done.
  - case_match; [|done]. etrans; [apply (redis_delete_evolves cid)|]. by apply same_hashes_evolve.
  - case_match; [|done]. by apply same_hashes_evolve.
Qed.
#[export] Hint Resolve record_turn_evolves op_step_evolves : redis.

(** What an operation in flight knows of the keys it watches. *)
Definition op_ok (r : Redis) (op : pending_op) : Prop :=
  match op with
  | ForgetRunRead cid _ v => v ≤ key_version r cid
  | ForgetRunExec cid run_id v =>
      v ≤ key_version r cid ∧ (v = key_version r cid → (rd_hash r !! cid) ≫= te_run_id = Some run_id)
  | PruneRead expired vs => Forall2 (λ c v, v ≤ key_version r c) expired vs
  | PruneExec expired vs =>
      Forall2 (λ c v, v ≤ key_version r c ∧ (v = key_version r c → rd_hash r !! c = None)) expired vs
  | _ => True
  end.

Lemma op_ok_evolves r r' op : evolves r r' → op_ok r op → op_ok r' op.
Proof.
  intros He. destruct op; cbn; try done.
  - destruct (He cid). lia.
  - destruct (He cid) as [? Heq]. intros [? Hrun]. split; [lia|]. intros. rewrite Heq by lia. apply Hrun. lia.
  - apply Forall2_impl. intros c v. destruct (He c). lia.
  - apply Forall2_impl. intros c v. destruct (He c) as [? Heq]. intros [? Hn]. split; [lia|].
    intros. rewrite Heq by lia. apply Hn. lia.
Qed.

Lemma op_step_ok op r op' : op_ok r op → (op_step op r).2 = Some op' → op_ok (op_step op r).1 op'.
Proof.
  destruct op; cbn; try done.
  - intros Hv. case_bool_decide as Hrun; [|done]. intros [= <-]. cbn. done.
  - intros _. by case_match; intros [= <-].
  - intros _ [= <-]. cbn. induction expired; cbn; constructor; auto.
  - intros Hvs. case_bool_decide as Hex; [done|]. intros [= <-]. cbn. rewrite <- Forall_Exists_neg in Hex. cbn.
    clear -Hvs Hex. induction Hvs; constructor; [|apply IHHvs]; inversion Hex; subst; [|done].
    split; [done|]. intros _. by apply eq_None_not_Some.
Qed.

Definition index_ok (s : Redis * list pending_op) : Prop := Forall (op_ok s.1) s.2.

Lemma index_step_ok s s' : index_step s s' → index_ok s → index_ok s'.
Proof.
  unfold index_ok. intros Hstep.
  assert (∀ r r' ops, evolves r r' → Forall (op_ok r) ops → Forall (op_ok r') ops) as Hev.
  { intros r r' ops He Hok. eapply list.Forall_impl; [exact Hok|]. intros op. by apply op_ok_evolves. }
  destruct Hstep; cbn [fst snd]; intros Hok.
  - eauto with redis.
  - eauto with redis.
  - constructor; [done|]. cbn. eauto with redis.
  - constructor; [cbn; lia|done].
  - by constructor.
  - apply list.Forall_app in Hok as [Hok1 [Hop Hok2]%list.Forall_cons].
    rewrite !list.Forall_app. split_and!; eauto with redis.
    destruct (op_step op r).2 as [op'|] eqn:Hop'; cbn; [|constructor]. constructor; [|constructor].
    by apply op_step_ok.
Qed.

Lemma index_history_ok s : rtc index_step (empty_redis, []) s → index_ok s.
Proof.
  intros Hs. assert (index_ok (empty_redis, [])) as H0 by constructor.
  remember (empty_redis, []) as s0 eqn:Hs0. clear Hs0. induction Hs; eauto using index_step_ok.
Qed.

(** ** Theorems *)

(** The commands of [forget_run] for one run, and those of [list_turns]. *)
Definition op_of_run (cid run_id : string) (op : pending_op) : Prop :=
  match op with ForgetRunRead c run _ | ForgetRunExec c run _ => c = cid ∧ run = run_id | _ => False end.
Definition op_of_list (op : pending_op) : Prop :=
  match op with ListRead _ | PruneWatch _ | PruneRead _ _ | PruneExec _ _ => True | _ => False end.

Lemma redis_delete_hash cid r c : c ≠ cid → rd_hash (redis_delete cid r) !! c = rd_hash r !! c.
Proof. intros Hne. unfold redis_delete. case_match; [|done]. cbn. by rewrite lookup_delete_ne. Qed.

Lemma redis_delete_gone cid r : rd_hash (redis_delete cid r) !! cid = None.
Proof. unfold redis_delete. case_match eqn:He; [|done]. cbn. apply lookup_delete_eq. Qed.
Lemma redis_delete_turns cid r : rd_turns (redis_delete cid r) = rd_turns r.
Proof. unfold redis_delete. by case_match. Qed.
Lemma redis_srem_turns cids r c : c ∈ rd_turns (redis_srem cids r) ↔ c ∈ rd_turns r ∧ c ∉ cids.
Proof. unfold redis_srem. cbn. by rewrite elem_of_difference, elem_of_list_to_set. Qed.

Lemma Forall2_map_elem {A B} (P : A → B → Prop) (f : A → B) l x : Forall2 P l (map f l) → x ∈ l → P x (f x).
Proof.
  induction l as [|y l IH]; cbn; [set_solver|]. intros Hl Hx. inversion Hl; subst.
  apply elem_of_cons in Hx as [-> | Hx]; auto.
Qed.

(** No operation in flight writes a hash. *)
Lemma op_step_hash op r c e : rd_hash (op_step op r).1 !! c = Some e → rd_hash r !! c = Some e.
Proof.
  destruct op; cbn; try done.
  - case_match; [|done]. cbn. destruct (decide (c = cid)) as [->|Hne].
    + by rewrite redis_delete_gone.
    + by rewrite redis_delete_hash.
  - by case_bool_decide.
Qed.

(** The set after a step keeps every conversation whose hash it leaves. *)
Lemma op_step_keeps op r c :
  op_ok r op → (∀ cid, op ≠ ForgetTurnSrem cid) → is_Some (rd_hash (op_step op r).1 !! c) → c ∈ rd_turns r →
  c ∈ rd_turns (op_step op r).1.
Proof.
  intros Hok Hno. destruct op; cbn -[redis_srem]; try done.
  - naive_solver.
  - case_match; [|done]. rewrite redis_srem_turns, redis_delete_turns. intros Hc Hin. split; [done|].
    intros ->%list_elem_of_singleton. change (rd_hash (redis_srem _ ?x)) with (rd_hash x) in Hc.
    rewrite redis_delete_gone in Hc. by destruct Hc.
  - case_bool_decide as Hvs; [|done]. rewrite redis_srem_turns. intros Hc Hin. split; [done|].
    intros Hex. cbn in Hok. subst watched.
    apply (Forall2_map_elem _ _ _ _ Hok) in Hex as [_ Hnone]. change (rd_hash (redis_srem _ ?x)) with (rd_hash x) in Hc.
    rewrite (Hnone eq_refl) in Hc. by destruct Hc.
Qed.

(** Histories in which no conversation is deleted. *)
Definition no_forget (ops : list pending_op) : Prop := ∀ cid, ForgetTurnSrem cid ∉ ops.
Definition live_step (s s' : Redis * list pending_op) : Prop := index_step s s' ∧ no_forget s'.2.

Lemma live_step_complete s s' :
  live_step s s' → no_forget s.2 → index_ok s →
  (∀ c, is_Some (rd_hash s.1 !! c) → c ∈ rd_turns s.1) → ∀ c, is_Some (rd_hash s'.1 !! c) → c ∈ rd_turns s'.1.
Proof.
  intros [Hstep Hno'] Hno Hok Hin c. destruct Hstep; cbn in *.
  - unfold record_turn, redis_sadd, redis_hset. cbn. rewrite redis_delete_turns.
    destruct (decide (c = cid)) as [->|Hne]; [set_solver|].
    rewrite lookup_insert_ne, redis_delete_hash by done. set_solver.
  - destruct (decide (c = cid)) as [->|Hne].
    + rewrite redis_delete_gone. by intros [? ?].
    + rewrite redis_delete_hash, redis_delete_turns by done. apply Hin.
  - destruct (Hno' cid). set_solver.
  - apply Hin.
  - apply Hin.
  - intros Hc. apply list.Forall_app in Hok as [_ [Hop _]%list.Forall_cons]. apply op_step_keeps; try done.
    + intros cid ->. destruct (Hno cid). set_solver.
    + apply Hin. destruct Hc as [e He]. apply op_step_hash in He. eauto.
Qed.

Record index_complete (s : Redis * list pending_op) : Prop := {
  ic_no_forget : no_forget s.2;
  ic_ok : index_ok s;
  ic_in : ∀ c, is_Some (rd_hash s.1 !! c) → c ∈ rd_turns s.1;
}.

Lemma live_history_complete s : rtc live_step (empty_redis, []) s → index_complete s.
Proof.
  intros Hs. assert (index_complete (empty_redis, [])) as H0.
  { split; [intros ?; set_solver|constructor|]. cbn. intros c. rewrite lookup_empty. by intros [? ?]. }
  remember (empty_redis, []) as s0 eqn:Hs0. clear Hs0.
  induction Hs as [|s1 s2 s3 Hstep _ IH]; [done|]. apply IH. destruct H0 as [Hno Hok Hin].
  split; [apply Hstep|apply (index_step_ok s1); [apply Hstep|done]|by apply (live_step_complete s1)].
Qed.

(** While conversations are not deleted, listing the turn index finds every
    recorded turn, however the commands of the replicas interleave with the
    pruning of expired members and with the removal of runs that never started. *)
Theorem list_turns_complete s cid e :
  rtc live_step (empty_redis, []) s → get_turn cid s.1 = Some e →
  ∃ members, (list_turns s.1).2 = ListRead members ∧ (cid, e) ∈ listed_turns members s.1.
Proof.
  intros Hs He. destruct (live_history_complete s Hs) as [_ _ Hin]. unfold get_turn in He.
  eexists. split; [reflexivity|]. unfold listed_turns. apply list_elem_of_omap. exists cid.
  rewrite elem_of_elements, He. split; [apply Hin; eauto|done].
Qed.

(** Removing a run that was never started removes no other run's entry: in
    every history, with all operations interleaved, a command of
    [forget_run(cid, run_id)] takes away an entry only if it is that run's, and
    [list_turns] takes none away. *)
Theorem forget_run_only_own r ops op c e :
  rtc index_step (empty_redis, []) (r, ops) → op ∈ ops → get_turn c r = Some e →
  get_turn c (op_step op r).1 = Some e ∨ ∃ run, te_run_id e = Some run ∧ op_of_run c run op.
Proof.
  intros Hs Hop He. apply index_history_ok in Hs. unfold index_ok in Hs. rewrite list.Forall_forall in Hs.
  specialize (Hs op Hop). unfold get_turn in *. destruct op; cbn in *; try (by left).
  - case_match eqn:Hv; [|by left]. cbn. destruct (decide (c = cid)) as [->|Hne].
    + right. exists run_id. apply Nat.eqb_eq in Hv. destruct Hs as [_ Hrun]. rewrite He in Hrun.
      cbn in Hrun. by rewrite (Hrun (eq_sym Hv)).
    + left. by rewrite redis_delete_hash.
  - left. by case_bool_decide.
Qed.

Definition index_run (cid : string) (turn_id : Z) (run_id : string) (r : Redis) : Redis :=
  record_turn cid turn_id "corr" None None (Some run_id) r.

(** [forget_turn] is two commands: a turn another replica records between
    its DELETE and its SREM keeps its hash but drops out of the set, so
    [list_turns] no longer lists that running turn. *)
Theorem forget_turn_hides_turn (cid : string) (turn_id : Z) (run_id : string) (r : Redis) :
  ∃ s e,
    rtc index_step (r, []) s ∧ get_turn cid s.1 = Some e ∧ te_run_id e = Some run_id ∧
    ∀ members, (list_turns s.1).2 = ListRead members → (cid, e) ∉ listed_turns members s.1.
Proof.
  pose (r1 := index_run cid turn_id run_id (redis_delete cid r)).
  pose (e := {| te_turn_id := turn_id; te_run_id := Some run_id; te_correlation_id := "corr"; te_org_id := ""; te_user_id := "" |}).
  exists (redis_srem [cid] r1, []), e. split_and!.
  - eapply rtc_l; [apply (index_forget_turn cid)|]. eapply rtc_l; [apply (index_record cid turn_id "corr" None None (Some run_id))|].
    apply rtc_once. exact (index_command [] (ForgetTurnSrem cid) [] r1).
  - unfold get_turn, r1, index_run, record_turn. cbn. by rewrite lookup_insert_eq.
  - done.
  - intros members [= <-] Hin. unfold listed_turns in Hin. apply list_elem_of_omap in Hin as (c & Hc & Hl).
    rewrite elem_of_elements in Hc. apply fmap_Some in Hl as (e' & _ & [= -> _]). cbn in Hc. set_solver.
Qed.

(** ** A concrete index *)

Definition demo_index : Redis := index_run "c" 2 "run" empty_redis.

Lemma list_turns_complete_witness : ∃ members, (list_turns demo_index).2 = ListRead members ∧
  ("c", {| te_turn_id := 2; te_run_id := Some "run"; te_correlation_id := "corr"; te_org_id := ""; te_user_id := "" |})
    ∈ listed_turns members demo_index.
Proof.
  apply (list_turns_complete (demo_index, []) "c").
  - apply rtc_once. split; [apply index_record|]. intros cid. set_solver.
  - reflexivity.
Defined.

Lemma forget_run_only_own_witness :
  get_turn "c" (op_step (ForgetRunRead "c" "other" 1) demo_index).1 =
    Some {| te_turn_id := 2; te_run_id := Some "run"; te_correlation_id := "corr"; te_org_id := ""; te_user_id := "" |} ∨
  ∃ run, Some "run" = Some run ∧ op_of_run "c" run (ForgetRunRead "c" "other" 1).
Proof.
  apply (forget_run_only_own demo_index [ForgetRunRead "c" "other" 1] (ForgetRunRead "c" "other" 1) "c"
    {| te_turn_id := 2; te_run_id := Some "run"; te_correlation_id := "corr"; te_org_id := ""; te_user_id := "" |}).
  - eapply rtc_l; [apply (index_record "c" 2 "corr" None None (Some "run"))|].
    apply rtc_once. exact (index_forget_run "c" "other" demo_index []).
  - set_solver.
  - reflexivity.
Defined.
