(* ===== verification/RunRegistry.v ===== *)
(** * The registry of turns in flight.

    [src/cowork/streaming/registry.py]: [RunRegistry], its handles and their
    shared [TurnLifecycle], and [src/cowork/streaming/cancellation.py].  The
    registry runs on one event loop: the code between two [await]s is one step,
    and anything may run at an [await].  [start] is therefore a process with a
    program point; the per-conversation lock lets one start at a time past its
    first point.  Handles are shared by the registry, the producer and captured
    endpoints, so they live in a heap, as do the starts.

    A producer is an environment that may save its question, write frames, close
    its buffer and finish, in this order; its text is not part of this model.
    [RunRegistry.reset] serves tests only and is not a step. *)
From stdpp Require Import base list gmap strings option.
From Stdlib Require Import ZArith Lia.
From S2P Require Import Prelude TurnIndex.

Definition TURN_SHUTDOWN_GRACE_SECONDS : Z := 5.
Definition SHUTDOWN_FRAME_SECONDS_PAST_GRACE : Z := 1.

(** [_idle_bound_seconds]; [parse] is [int(raw)], [None] when it raises
    [ValueError]. *)
Definition idle_bound_seconds (parse : string → option Z) (raw : option string) : Z :=
  match raw with
  | None => 600
  | Some raw => match parse raw with
                | None => 600
                | Some val => if (val <=? 0)%Z then 600 else val
                end
  end.

Record RunIdentity := { run_id : string; correlation_id : string; remote : bool }.

Record TurnLifecycle := {
  discarded : bool;
  shutting_down : bool;
  shutdown_frame_deadline : option Z;
  timed_out : bool;
  saved_question : bool;
  stalled : bool;
  cancel_requested : bool;
  identity : RunIdentity;
}.
#[export] Instance fields_TurnLifecycle : Fields TurnLifecycle := λ l, {|
  discarded := discarded l; shutting_down := shutting_down l; shutdown_frame_deadline := shutdown_frame_deadline l;
  timed_out := timed_out l; saved_question := saved_question l; stalled := stalled l;
  cancel_requested := cancel_requested l; identity := identity l |}.

Definition new_lifecycle (i : RunIdentity) : TurnLifecycle := {|
  discarded := false; shutting_down := false; shutdown_frame_deadline := None; timed_out := false;
  saved_question := false; stalled := false; cancel_requested := false; identity := i |}.

(** [RunHandle]; of the buffer and of the task, what this code reads and does. *)
Record RunHandle := {
  conversation_id : string;
  turn_id : Z;
  buffer_closed : bool;         (* [buffer.is_closed] *)
  buffer_finishing : bool;      (* [buffer.is_finishing] *)
  buffer_terminal : option string;  (* the reason the buffer was closed with *)
  task_done : bool;
  task_cancel : bool;           (* [task.cancel()] was called *)
  created_at : Z;
  org_id : option string;
  user_id : option string;
  lifecycle : TurnLifecycle;
}.
#[export] Instance fields_RunHandle : Fields RunHandle := λ h, {|
  conversation_id := conversation_id h; turn_id := turn_id h; buffer_closed := buffer_closed h;
  buffer_finishing := buffer_finishing h; buffer_terminal := buffer_terminal h; task_done := task_done h;
  task_cancel := task_cancel h; created_at := created_at h; org_id := org_id h; user_id := user_id h;
  lifecycle := lifecycle h |}.

Definition is_running (h : RunHandle) : bool := negb (task_done h).
Definition is_answering (h : RunHandle) : bool :=
  is_running h && negb (buffer_closed h) && negb (buffer_finishing h).

(** [RunHandle.request_cancel]. *)
Definition request_cancel (h : RunHandle) : RunHandle * bool :=
  if is_running h
  then (h <| lifecycle := (lifecycle h) <| cancel_requested := true |> |> <| task_cancel := true |>, true)
  else (h, false).

(** ** A start in progress *)

Record StartArgs := {
  sa_conversation : string;
  sa_turn : Z;
  sa_org : option string;
  sa_user : option string;
  sa_identity : RunIdentity;
}.

Inductive start_point :=
  | Queued                            (* at [async with lock] *)
  | AwaitPrevious (existing : nat)    (* at the [gather] of the earlier turn's task *)
  | Opening                           (* at [open_buffer()] *)
  | Publishing                        (* at [run_to_completion(publish())] *)
  | Registering (published : bool)    (* before the last check *)
  | Started (handle : nat)
  | StartRaised (e : exn).

Record Start := { st_args : StartArgs; st_at : start_point }.

(** The lock of the conversation is held from the first check to the end. *)
Definition holds_lock (p : start_point) : bool :=
  match p with AwaitPrevious _ | Opening | Publishing | Registering _ => true | _ => false end.

Record Registry := {
  by_cid : gmap string nat;
  handles : list RunHandle;
  closed : bool;
  starts : list Start;
  index : Redis;
  discarding : list nat;     (* popped by [discard], not yet marked *)
  cancel_soon : list nat;    (* [call_soon_threadsafe(task.cancel)] *)
}.
#[export] Instance fields_Registry : Fields Registry := λ r, {|
  by_cid := by_cid r; handles := handles r; closed := closed r; starts := starts r; index := index r;
  discarding := discarding r; cancel_soon := cancel_soon r |}.

Definition new_registry : Registry := {|
  by_cid := ∅; handles := []; closed := false; starts := []; index := empty_redis;
  discarding := []; cancel_soon := [] |}.

(** [get]. *)
Definition registry_get (r : Registry) (cid : string) : option RunHandle :=
  i ← by_cid r !! cid; handles r !! i.

(** [close]. *)
Definition registry_close (r : Registry) : Registry := r <| closed := true |>.

(** The checks of [start] under the lock, up to its first [await]. *)
Definition start_checks (r : Registry) (a : StartArgs) : start_point :=
  if closed r then StartRaised ServerShuttingDown
  else
    match by_cid r !! sa_conversation a with
    | None => Opening
    | Some i =>
        match handles r !! i with
        | None => Opening
        | Some existing =>
            if is_answering existing
            then StartRaised (TurnInProgress (sa_conversation a) (turn_id existing))
            else if saved_question (lifecycle existing) && (sa_turn a <=? turn_id existing)%Z
            then StartRaised (TurnInProgress (sa_conversation a) (turn_id existing))
            else if is_running existing && negb (buffer_closed existing) then AwaitPrevious i
            else Opening
        end
    end.

(** The handle a start registers. *)
Definition new_handle (now : Z) (a : StartArgs) : RunHandle := {|
  conversation_id := sa_conversation a; turn_id := sa_turn a; buffer_closed := false; buffer_finishing := false;
  buffer_terminal := None; task_done := false; task_cancel := false; created_at := now; org_id := sa_org a;
  user_id := sa_user a; lifecycle := new_lifecycle (sa_identity a) |}.

(** [record_turn], and [_forget_unstarted_run] when Redis answers in time. *)
Definition publish (a : StartArgs) (ix : Redis) : Redis :=
  record_turn (sa_conversation a) (sa_turn a) (correlation_id (sa_identity a)) (sa_org a) (sa_user a)
    (Some (run_id (sa_identity a))) ix.
Definition forget_unstarted_run (a : StartArgs) (ix : Redis) : Redis :=
  let '(ix, op) := forget_run (sa_conversation a) (run_id (sa_identity a)) ix in
  match op_step op ix with
  | (ix, Some op) => (op_step op ix).1
  | (ix, None) => ix
  end.

(** The last segment of [start]: the second check and the registration. *)
Definition start_register (now : Z) (published : bool) (a : StartArgs) (r : Registry) : Registry * start_point :=
  if closed r then
    (if published then r <| index := forget_unstarted_run a (index r) |> else r, StartRaised ServerShuttingDown)
  else
    let i := length (handles r) in
    (r <| handles := handles r ++ [new_handle now a] |> <| by_cid := <[sa_conversation a := i]> (by_cid r) |>,
     Started i).

Definition set_point (s : nat) (st : Start) (p : start_point) (r : Registry) : Registry :=
  r <| starts := <[s := {| st_args := st_args st; st_at := p |}]> (starts r) |>.

(** What the awaited things may do to a start: the buffer opens or the call
    raises, the index write succeeds or raises, in which case it may have been
    committed. *)
Inductive outcome := Ok | Fails (e : exn) (committed : bool).

(** One segment of start number [s]; [None] while it cannot run.  [redis] is
    [get_backend() == "redis"]. *)
Definition start_segment (redis : bool) (now : Z) (o : outcome) (s : nat) (r : Registry) : option Registry :=
  match starts r !! s with
  | None => None
  | Some st =>
      let a := st_args st in
      match st_at st with
      | Queued =>
          if bool_decide (Exists (λ st', sa_conversation (st_args st') = sa_conversation a ∧ holds_lock (st_at st') = true)
                            (starts r))
          then None else Some (set_point s st (start_checks r a) r)
      | AwaitPrevious i =>
          if from_option task_done true (handles r !! i) then Some (set_point s st Opening r) else None
      | Opening =>
          Some (match o with
                | Fails e _ => set_point s st (StartRaised e) r
                | Ok => set_point s st (if redis then Publishing else Registering false) r
                end)
      | Publishing =>
          Some (match o with
                | Fails e committed =>
                    let ix := if committed : bool then publish a (index r) else index r in
                    set_point s st (StartRaised e) (r <| index := forget_unstarted_run a ix |>)
                | Ok => set_point s st (Registering true) (r <| index := publish a (index r) |>)
                end)
      | Registering published =>
          let '(r', p) := start_register now published a r in Some (set_point s st p r')
      | Started _ | StartRaised _ => None
      end
  end.

(** ** The other operations *)

Definition update_handle (i : nat) (f : RunHandle → RunHandle) (r : Registry) : Registry :=
  r <| handles := alter f i (handles r) |>.

(** [in_flight]. *)
Definition in_flight (r : Registry) : list nat :=
  base.filter (λ i, from_option is_running false (handles r !! i) = true) (map_to_list (by_cid r)).*2.

(** [discard], called from a thread of the pool: the pop, then the mark, which
    schedules the cancel on the loop unless the task is done. *)
Definition discard_pop (cid : string) (r : Registry) : Registry :=
  match by_cid r !! cid with
  | None => r
  | Some i => r <| by_cid := delete cid (by_cid r) |> <| discarding := i :: discarding r |>
  end.
Definition discard_mark (i : nat) (r : Registry) : Registry :=
  let r := update_handle i (λ h, h <| lifecycle := (lifecycle h) <| discarded := true |> |>) r in
  let r := r <| discarding := base.filter (λ j, j ≠ i) (discarding r) |> in
  if from_option task_done true (handles r !! i) then r else r <| cancel_soon := i :: cancel_soon r |>.

(** [task.cancel()]: nothing happens to a task that is done. *)
Definition task_cancelled (h : RunHandle) : RunHandle := if task_done h then h else h <| task_cancel := true |>.
Definition run_cancel_soon (i : nat) (r : Registry) : Registry :=
  update_handle i task_cancelled (r <| cancel_soon := base.filter (λ j, j ≠ i) (cancel_soon r) |>).

(** [shutdown]: the turns it ends, their marks, the turns whose controller it
    stops, the cancels, and the sealing of a stream a task left open. *)
Definition shutdown_turns (r : Registry) : list nat :=
  base.filter (λ i, from_option (λ h, negb (shutting_down (lifecycle h))) false (handles r !! i) = true) (in_flight r).
Definition mark_shutdown (deadline : Z) (h : RunHandle) : RunHandle :=
  h <| lifecycle := (lifecycle h) <| shutting_down := true |>
       <| shutdown_frame_deadline := Some (deadline + SHUTDOWN_FRAME_SECONDS_PAST_GRACE)%Z |> |>.
Definition shutdown_mark (now timeout_seconds : Z) (r : Registry) : Registry * list nat :=
  let ids := shutdown_turns r in
  (foldr (λ i, update_handle i (mark_shutdown (now + timeout_seconds))) r ids, ids).
Definition shutdown_remote (ids : list nat) (r : Registry) : list string :=
  omap (λ i, h ← handles r !! i;
             if remote (identity (lifecycle h)) && is_answering h then Some (correlation_id (identity (lifecycle h))) else None) ids.
Definition shutdown_cancel (ids : list nat) (r : Registry) : Registry :=
  foldr (λ i, update_handle i task_cancelled) r ids.
Definition seal_interrupted (h : RunHandle) : RunHandle :=
  if task_done h && negb (discarded (lifecycle h)) && negb (buffer_closed h)
  then h <| buffer_closed := true |> <| buffer_terminal := Some "interrupted" |> else h.

(** [gc_finished]. *)
Definition gc_finished (now max_age_seconds : Z) (r : Registry) : Registry :=
  r <| by_cid := base.filter (λ kv, from_option (λ h, is_running h || (now - created_at h <=? max_age_seconds)%Z) true
                                      (handles r !! kv.2) = true) (by_cid r) |>.

(** [cancel_run] after its Redis write: the second check and the cancel. *)
Definition STALLED_CANCEL_REASON : string := "stalled".
Definition cancel_run_checks (h : RunHandle) : bool := is_answering h && negb (shutting_down (lifecycle h)).
Definition cancel_run (reason : option string) (h : RunHandle) : RunHandle * bool :=
  if negb (cancel_run_checks h) then (h, false)
  else if cancel_requested (lifecycle h) then (h, true)
  else request_cancel (h <| lifecycle := (lifecycle h) <| stalled := bool_decide (reason = Some STALLED_CANCEL_REASON) |> |>).

(** [watch_cancel] once it has seen the flag and read its cause. *)
Definition watch_cancel (cause : option string) (h : RunHandle) : RunHandle :=
  if buffer_closed h || buffer_finishing h || shutting_down (lifecycle h) || cancel_requested (lifecycle h) then h
  else task_cancelled (h <| lifecycle := (lifecycle h) <| stalled := bool_decide (cause = Some STALLED_CANCEL_REASON) |>
                                           <| cancel_requested := true |> |>).

(** The watchdog's reap. *)
Definition reap (h : RunHandle) : RunHandle :=
  task_cancelled (h <| lifecycle := (lifecycle h) <| timed_out := true |> |>).

(** ** Histories *)

(** Whether a turn can still write to its buffer. *)
Definition live (h : RunHandle) : bool := is_running h && negb (buffer_closed h).

(** What may happen to a turn: its producer saves the question while the turn is
    answering, writes the final frame, closes the buffer and ends; the others
    cancel, reap or seal it. *)
Inductive handle_effect : (RunHandle → RunHandle) → Prop :=
  | producer_saves :
      handle_effect (λ h, if is_answering h then h <| lifecycle := (lifecycle h) <| saved_question := true |> |> else h)
  | producer_finishes : handle_effect (λ h, if live h then h <| buffer_finishing := true |> else h)
  | producer_closes reason :
      handle_effect (λ h, if live h then h <| buffer_closed := true |> <| buffer_terminal := Some reason |> else h)
  | producer_ends : handle_effect (λ h, h <| task_done := true |>)
  | stop_requested : handle_effect (λ h, (request_cancel h).1)
  | run_cancelled reason : handle_effect (λ h, (cancel_run reason h).1)
  | cancel_watched cause : handle_effect (watch_cancel cause)
  | turn_reaped : handle_effect reap
  | stream_sealed : handle_effect seal_interrupted.

Inductive registry_step (redis : bool) (r : Registry) : Registry → Prop :=
  | step_request a : registry_step redis r (r <| starts := starts r ++ [{| st_args := a; st_at := Queued |}] |>)
  | step_start now o s r' : start_segment redis now o s r = Some r' → registry_step redis r r'
  | step_close : registry_step redis r (registry_close r)
  | step_handle i f : handle_effect f → registry_step redis r (update_handle i f r)
  | step_discard_pop cid : registry_step redis r (discard_pop cid r)
  | step_discard_mark i : i ∈ discarding r → registry_step redis r (discard_mark i r)
  | step_cancel_soon i : registry_step redis r (run_cancel_soon i r)
  | step_shutdown_mark now timeout : registry_step redis r (shutdown_mark now timeout r).1
  | step_shutdown_cancel ids : registry_step redis r (shutdown_cancel ids r)
  | step_gc now max_age : registry_step redis r (gc_finished now max_age r).

(** How a turn evolves, whatever happens to it. *)
Record handle_mono (h h' : RunHandle) : Prop := {
  hm_conversation : conversation_id h' = conversation_id h;
  hm_turn : turn_id h' = turn_id h;
  hm_live : live h' = true → live h = true;
  hm_answering : is_answering h' = true → is_answering h = true;
  hm_discarded : discarded (lifecycle h) = true → discarded (lifecycle h') = true;
  hm_shutting : shutting_down (lifecycle h) = true → shutting_down (lifecycle h') = true;
  hm_saved : saved_question (lifecycle h') = true → saved_question (lifecycle h) = true ∨ is_answering h = true;
}.

#[export] Instance handle_mono_preorder : PreOrder handle_mono.
Proof.
  split; [by intros h; split; auto|]. intros h1 h2 h3 [] []. split; auto; try congruence. naive_solver.
Qed.

(** Settles an effect by cases on the flags it reads. *)
Ltac by_flags h :=
  destruct h as [? ? [] [] ? [] ? ? ? ? [[] [] ? ? [] ? [] ?]]; split; cbn; auto; try (case_bool_decide; auto).

Lemma handle_effect_mono f h : handle_effect f → handle_mono h (f h).
Proof. intros []; by_flags h. Qed.
Lemma task_cancelled_mono h : handle_mono h (task_cancelled h).
Proof. by_flags h. Qed.
Lemma mark_shutdown_mono d h : handle_mono h (mark_shutdown d h).
Proof. by_flags h. Qed.
Lemma discarded_mono h : handle_mono h (h <| lifecycle := (lifecycle h) <| discarded := true |> |>).
Proof. by_flags h. Qed.

Create HintDb turns.
#[export] Hint Resolve handle_effect_mono task_cancelled_mono mark_shutdown_mono discarded_mono : turns.

(** ** The registry's invariant *)

(** What a start that holds the lock of its conversation knows of the turn
    registered there. *)
Definition admitted (a : StartArgs) (p : start_point) (i : nat) (h : RunHandle) : Prop :=
  is_answering h = false ∧ (saved_question (lifecycle h) = true → (turn_id h < sa_turn a)%Z) ∧
  match p with AwaitPrevious j => i = j | _ => live h = false end.

Record registry_ok (r : Registry) : Prop := {
  ok_entry : ∀ c i, by_cid r !! c = Some i → ∃ h, handles r !! i = Some h ∧ conversation_id h = c;
  ok_live : ∀ i h, handles r !! i = Some h → live h = true → discarded (lifecycle h) = false → i ∉ discarding r →
    by_cid r !! conversation_id h = Some i;
  ok_lock : ∀ s s' st st', starts r !! s = Some st → starts r !! s' = Some st' →
    holds_lock (st_at st) = true → holds_lock (st_at st') = true →
    sa_conversation (st_args st) = sa_conversation (st_args st') → s = s';
  ok_start : ∀ s st i h, starts r !! s = Some st → holds_lock (st_at st) = true →
    by_cid r !! sa_conversation (st_args st) = Some i → handles r !! i = Some h → admitted (st_args st) (st_at st) i h;
}.

Lemma new_registry_ok : registry_ok new_registry.
Proof. split; cbn; intros *; rewrite ?lookup_empty; done. Qed.

Lemma admitted_mono a p i h h' : handle_mono h h' → admitted a p i h → admitted a p i h'.
Proof.
  intros [_ Hturn Hlive Hans _ _ Hsav] (Ha & Hs & Hp). unfold admitted. rewrite Hturn. split_and!.
  - apply not_true_iff_false. intros H%Hans. congruence.
  - intros [H|H]%Hsav; [by apply Hs|congruence].
  - destruct p; try done; apply not_true_iff_false; intros H%Hlive; congruence.
Qed.

(** Changes to turns only. *)
Record turns_only (r r' : Registry) : Prop := {
  to_by_cid : by_cid r' = by_cid r;
  to_starts : starts r' = starts r;
  to_discarding : discarding r' = discarding r;
  to_closed : closed r' = closed r;
  to_handles : Forall2 handle_mono (handles r) (handles r');
}.

Lemma Forall2_refl_mono (l : list RunHandle) : Forall2 handle_mono l l.
Proof. induction l; constructor; done. Qed.

#[export] Instance turns_only_preorder : PreOrder turns_only.
Proof.
  split; [intros r; split; auto using Forall2_refl_mono|]. intros r1 r2 r3 [] []. split; try congruence.
  by etrans.
Qed.

Lemma Forall2_alter_mono (f : RunHandle → RunHandle) i l :
  (∀ h, handle_mono h (f h)) → Forall2 handle_mono l (alter f i l).
Proof.
  intros Hf. revert i. induction l as [|h l IH]; intros [|i]; cbn; constructor; auto using Forall2_refl_mono. done.
Qed.

Lemma update_handle_turns f i r : (∀ h, handle_mono h (f h)) → turns_only r (update_handle i f r).
Proof. intros Hf. split; try done. by apply Forall2_alter_mono. Qed.
#[export] Hint Resolve update_handle_turns : turns.

Lemma foldr_update_turns f ids r : (∀ h, handle_mono h (f h)) → turns_only r (foldr (λ i, update_handle i f) r ids).
Proof. intros Hf. induction ids as [|i ids IH]; cbn; [done|]. etrans; [apply IH|]. by apply update_handle_turns. Qed.
#[export] Hint Resolve foldr_update_turns : turns.

Lemma turns_only_back r r' i h' :
  turns_only r r' → handles r' !! i = Some h' → ∃ h, handles r !! i = Some h ∧ handle_mono h h'.
Proof. intros [_ _ _ _ Hh] Hi. destruct (Forall2_lookup_r _ _ _ _ _ Hh Hi) as (h & ? & ?). eauto. Qed.
Lemma turns_only_forth r r' i h :
  turns_only r r' → handles r !! i = Some h → ∃ h', handles r' !! i = Some h' ∧ handle_mono h h'.
Proof. intros [_ _ _ _ Hh] Hi. destruct (Forall2_lookup_l _ _ _ _ _ Hh Hi) as (h' & ? & ?). eauto. Qed.

Lemma not_discarded_mono h h' : handle_mono h h' → discarded (lifecycle h') = false → discarded (lifecycle h) = false.
Proof. intros Hm. rewrite <- !not_true_iff_false. intros Hn H. by apply Hn, (hm_discarded _ _ Hm). Qed.

Lemma turns_only_ok r r' : turns_only r r' → registry_ok r → registry_ok r'.
Proof.
  intros Ht [He Hl Hk Hs]. pose proof Ht as [Hby Hst Hd _ _]. split; rewrite ?Hby, ?Hst, ?Hd.
  - intros c i Hc. destruct (He c i Hc) as (h & Hh & <-). destruct (turns_only_forth _ _ _ _ Ht Hh) as (h' & ? & Hm).
    exists h'. split; [done|]. by rewrite (hm_conversation _ _ Hm).
  - intros i h' Hi Hlive Hdisc Hnot. destruct (turns_only_back _ _ _ _ Ht Hi) as (h & Hh & Hm).
    rewrite (hm_conversation _ _ Hm). apply Hl; auto.
    + by apply (hm_live _ _ Hm).
    + by apply (not_discarded_mono _ _ Hm).
  - done.
  - intros s st i h' Hstart Hlock Hc Hi. destruct (turns_only_back _ _ _ _ Ht Hi) as (h & Hh & Hm).
    apply (admitted_mono _ _ _ h); eauto.
Qed.

(** Handles taken out of the map: finished ones, and ones being discarded. *)
Lemma pop_ok r r' :
  registry_ok r → starts r' = starts r → handles r' = handles r → by_cid r' ⊆ by_cid r → discarding r ⊆ discarding r' →
  (∀ c i h, by_cid r !! c = Some i → by_cid r' !! c = None → handles r !! i = Some h → live h = false ∨ i ∈ discarding r') →
  registry_ok r'.
Proof.
  intros [He Hl Hk Hs] Est Eh Hsub Hdsub Hpop.
  assert (∀ c i, by_cid r' !! c = Some i → by_cid r !! c = Some i) as Hin by (intros c i Hc; by eapply lookup_weaken).
  split; rewrite ?Est, ?Eh; eauto 8.
  intros i h Hi Hlive Hd Hnot. assert (by_cid r !! conversation_id h = Some i) as Hc by (apply Hl; auto).
  destruct (by_cid r' !! conversation_id h) as [j|] eqn:Hj.
  - apply Hin in Hj as Hj'. congruence.
  - destruct (Hpop _ _ _ Hc Hj Hi); [congruence|done].
Qed.

Lemma discard_pop_ok cid r : registry_ok r → registry_ok (discard_pop cid r).
Proof.
  intros Hok. unfold discard_pop. destruct (by_cid r !! cid) as [i|] eqn:Hi; [|done].
  apply (pop_ok r); cbn; auto; [apply delete_subseteq|set_solver|].
  intros c j h Hc Hc' Hh. right. destruct (decide (c = cid)) as [->|Hne].
  - rewrite Hi in Hc. simplify_eq. set_solver.
  - rewrite lookup_delete_ne in Hc' by done. congruence.
Qed.

Lemma gc_finished_ok now max_age r : registry_ok r → registry_ok (gc_finished now max_age r).
Proof.
  intros Hok. apply (pop_ok r); cbn; auto; [apply map_filter_subseteq|].
  intros c i h Hc Hn Hh. left. apply map_lookup_filter_None in Hn as [Hn|Hn]; [congruence|].
  specialize (Hn i Hc). cbn in Hn. rewrite Hh in Hn. cbn in Hn. unfold live.
  destruct (is_running h); [done|]. done.
Qed.

Lemma discard_mark_ok i r : registry_ok r → registry_ok (discard_mark i r).
Proof.
  intros [He Hl Hk Hs]. unfold discard_mark.
  set (r1 := update_handle i (λ h, h <| lifecycle := (lifecycle h) <| discarded := true |> |>) r).
  assert (turns_only r r1) as Ht by (apply update_handle_turns; apply discarded_mono).
  assert (registry_ok r1) as [He1 Hl1 Hk1 Hs1] by (by apply (turns_only_ok r)).
  enough (registry_ok (r1 <| discarding := base.filter (λ j, j ≠ i) (discarding r1) |>)) as Hok.
  { case_match; [done|]. destruct Hok. by split. }
  split; cbn; auto. intros j h Hj Hlive Hd Hnot. destruct (decide (j = i)) as [->|Hne].
  - exfalso. cbn in Hj. rewrite list_lookup_alter_eq in Hj. apply fmap_Some in Hj as (h0 & _ & ->). done.
  - apply Hl1; auto. intros Hin. apply Hnot, list_elem_of_filter. done.
Qed.

(** Moving a start to another point. *)
Lemma set_point_ok s st p r :
  registry_ok r → starts r !! s = Some st →
  (holds_lock p = true →
     (∀ s' st', starts r !! s' = Some st' → holds_lock (st_at st') = true →
        sa_conversation (st_args st') = sa_conversation (st_args st) → s' = s) ∧
     ∀ i h, by_cid r !! sa_conversation (st_args st) = Some i → handles r !! i = Some h → admitted (st_args st) p i h) →
  registry_ok (set_point s st p r).
Proof.
  intros [He Hl Hk Hs] Hst Hp. split; cbn; auto.
  - intros s1 s2 st1 st2 [(<- & <- & _)|[Hn1 H1]]%list_lookup_insert_Some [(<- & <- & _)|[Hn2 H2]]%list_lookup_insert_Some; cbn; eauto.
    + intros Hl1 Hl2 Hc. symmetry. by apply (proj1 (Hp Hl1) s2 st2).
    + intros Hl1 Hl2 Hc. by apply (proj1 (Hp Hl2) s1 st1).
  - intros s1 st1 i h [(<- & <- & _)|[Hn1 H1]]%list_lookup_insert_Some; cbn; eauto.
    intros Hl1. by apply Hp.
Qed.

Lemma start_checks_admits r a i h :
  holds_lock (start_checks r a) = true → by_cid r !! sa_conversation a = Some i → handles r !! i = Some h →
  admitted a (start_checks r a) i h.
Proof.
  unfold start_checks, admitted, live. intros Hp Hi Hh. rewrite Hi, Hh in *.
  destruct (closed r); [done|]. destruct (is_answering h) eqn:Ha; [done|].
  destruct (saved_question (lifecycle h)) eqn:Hs; cbn in *.
  - destruct (Z.leb_spec (sa_turn a) (turn_id h)) as [Hle|Hlt]; [done|].
    split; [done|]. split; [lia|]. by destruct (is_running h), (buffer_closed h).
  - split; [done|]. split; [done|]. by destruct (is_running h), (buffer_closed h).
Qed.

Lemma index_only_ok ix r : registry_ok r → registry_ok (r <| index := ix |>).
Proof. intros []. by split. Qed.

Lemma register_ok s st now r :
  registry_ok r → starts r !! s = Some st → holds_lock (st_at st) = true → (∀ j, st_at st ≠ AwaitPrevious j) →
  let i := length (handles r) in
  registry_ok (set_point s st (Started i)
    (r <| handles := handles r ++ [new_handle now (st_args st)] |>
       <| by_cid := <[sa_conversation (st_args st) := i]> (by_cid r) |>)).
Proof.
  intros [He Hl Hk Hs] Hst Hlock Hnw i. set (c := sa_conversation (st_args st)).
  assert (∀ j h, by_cid r !! c = Some j → handles r !! j = Some h → live h = false) as Hdead.
  { intros j h Hj Hh. destruct (Hs s st j h Hst Hlock Hj Hh) as (_ & _ & Hp). destruct (st_at st); naive_solver. }
  split; cbn.
  - intros c' j [[<- <-]|[Hne Hj]]%lookup_insert_Some.
    + exists (new_handle now (st_args st)). rewrite lookup_app_r, Nat.sub_diag by done. done.
    + destruct (He c' j Hj) as (h & Hh & Hc). exists h. split; [by apply lookup_app_l_Some|done].
  - intros j h [Hj|[Hge Hj]]%lookup_app_Some Hlive Hd Hnot.
    + pose proof (Hl j h Hj Hlive Hd Hnot) as Hc. rewrite lookup_insert_ne; [done|].
      intros Heq. subst c. rewrite Heq in Hdead. rewrite (Hdead j h Hc Hj) in Hlive. done.
    + apply list_lookup_singleton_Some in Hj as [Hj <-]. cbn. subst c i. rewrite lookup_insert_eq. f_equal. lia.
  - intros s1 s2 st1 st2 [(<- & <- & _)|[Hn1 H1]]%list_lookup_insert_Some
      [(<- & <- & _)|[Hn2 H2]]%list_lookup_insert_Some; cbn; try done. eauto.
  - intros s1 st1 j h [(<- & <- & _)|[Hn1 H1]]%list_lookup_insert_Some; cbn; [done|].
    intros Hl1 [[Hc _]|[Hne Hj]]%lookup_insert_Some Hh; [destruct Hn1; by apply (Hk s s1 st st1)|].
    apply lookup_app_Some in Hh as [Hh|[Hge Hh]]; [by eauto|].
    destruct (He _ _ Hj) as (h' & Hh'%lookup_lt_Some & _). lia.
Qed.

(** A start that holds the lock goes on once the earlier turn is over. *)
Lemma advance_ok s st p r :
  registry_ok r → starts r !! s = Some st → holds_lock (st_at st) = true → (∀ j, p ≠ AwaitPrevious j) →
  (∀ i h, st_at st = AwaitPrevious i → handles r !! i = Some h → task_done h = true) →
  registry_ok (set_point s st p r).
Proof.
  intros Hok Hst Hlock Hp Hdone. apply set_point_ok; [done|done|]. intros _. split.
  - intros s' st' Hs' Hl' Hc. by apply (ok_lock r Hok s' s st' st).
  - intros i h Hi Hh. destruct (ok_start r Hok s st i h Hst Hlock Hi Hh) as (Ha & Hsv & Hd). split; [done|]. split; [done|].
    assert (live h = false) as Hdead.
    { destruct (st_at st) eqn:Hat; try done. subst. unfold live, is_running. by rewrite (Hdone _ _ eq_refl Hh). }
    destruct p; naive_solver.
Qed.

Lemma start_segment_ok redis now o s r r' : registry_ok r → start_segment redis now o s r = Some r' → registry_ok r'.
Proof.
  intros Hok. unfold start_segment. destruct (starts r !! s) as [st|] eqn:Hst; [|done].
  assert (∀ p r0, registry_ok r0 → starts r0 !! s = Some st → holds_lock (st_at st) = true →
    (∀ j, p ≠ AwaitPrevious j) → (∀ j, st_at st ≠ AwaitPrevious j) → registry_ok (set_point s st p r0)) as Hmove.
  { intros p r0 ???? Hn. apply advance_ok; try done. intros i h Heq. by destruct (Hn i). }
  destruct (st_at st) as [|i| | |pub| |] eqn:Hat; try done.
  - case_bool_decide as Hno; [done|]. intros [= <-]. apply set_point_ok; [done|done|]. intros Hl. split.
    + intros s' st' Hs' Hl' Hc. destruct Hno. apply list.Exists_exists. exists st'.
      split; [by apply (list_elem_of_lookup_2 _ s')|done].
    + intros i h Hi Hh. by apply start_checks_admits.
  - intros Hseg. case_match eqn:Hd; [|done]. injection Hseg as <-. apply advance_ok; [done|done|by rewrite Hat|done|].
    intros j h. rewrite Hat. intros [= <-] Hh. by rewrite Hh in Hd.
  - destruct o; intros [= <-]; apply Hmove; try done. by destruct redis.
  - destruct o; intros [= <-]; apply Hmove; try done; by apply index_only_ok.
  - unfold start_register. destruct (closed r) eqn:Hc; intros [= <-].
    + apply Hmove; try done; destruct pub; try done. by apply index_only_ok.
    + apply register_ok; [done|done|by rewrite Hat|by rewrite Hat].
Qed.

Lemma registry_step_ok redis r r' : registry_ok r → registry_step redis r r' → registry_ok r'.
Proof.
  intros Hok [].
  - destruct Hok as [He Hl Hk Hs]. split; cbn; auto.
    + intros s s' st st' [H1|[_ H1]]%lookup_app_Some [H2|[_ H2]]%lookup_app_Some; eauto;
        apply list_lookup_singleton_Some in H1 as [_ <-] || apply list_lookup_singleton_Some in H2 as [_ <-]; done.
    + intros s st i h [H1|[_ H1]]%lookup_app_Some; eauto. by apply list_lookup_singleton_Some in H1 as [_ <-].
  - by eapply start_segment_ok.
  - destruct Hok. by split.
  - apply (turns_only_ok r); auto with turns.
  - by apply discard_pop_ok.
  - by apply discard_mark_ok.
  - apply (turns_only_ok (r <| cancel_soon := base.filter (λ j, j ≠ i) (cancel_soon r) |>));
    [apply update_handle_turns, task_cancelled_mono|].
    destruct Hok. split; cbn; auto.
  - apply (turns_only_ok r); [|done]. apply foldr_update_turns. auto with turns.
  - apply (turns_only_ok r); [|done]. apply foldr_update_turns. auto with turns.
  - by apply gc_finished_ok.
Qed.

Lemma registry_history_ok redis r r' : registry_ok r → rtc (registry_step redis) r r' → registry_ok r'.
Proof. intros Hok Hs. induction Hs; eauto using registry_step_ok. Qed.

(** ** Shutdown *)

(** Once the registry is closed no turn is added, and a turn being discarded
    stays so until it is marked. *)
Record no_new_turn (r r' : Registry) : Prop := {
  nn_closed : closed r' = true;
  nn_handles : ∀ i h', handles r' !! i = Some h' → ∃ h, handles r !! i = Some h ∧ handle_mono h h' ∧
    (i ∈ discarding r → i ∈ discarding r' ∨ discarded (lifecycle h') = true);
}.

Lemma turns_only_no_new r r' : closed r = true → turns_only r r' → no_new_turn r r'.
Proof.
  intros Hc Ht. split; [by rewrite (to_closed _ _ Ht)|]. intros i h' Hi.
  destruct (turns_only_back _ _ _ _ Ht Hi) as (h & ? & ?). exists h. rewrite (to_discarding _ _ Ht). auto.
Qed.

Lemma same_turns_no_new r r' :
  closed r' = true → handles r' = handles r → discarding r ⊆ discarding r' → no_new_turn r r'.
Proof. intros Hc Hh Hd. split; [done|]. intros i h'. rewrite Hh. intros Hi. exists h'. split_and!; auto. done. Qed.

Lemma start_segment_closed redis now o s r r' :
  closed r = true → start_segment redis now o s r = Some r' →
  closed r' = true ∧ handles r' = handles r ∧ discarding r' = discarding r.
Proof.
  intros Hc. unfold start_segment, start_register. rewrite Hc. intros Hseg.
  repeat (case_match; simplify_eq; try done).
Qed.

Lemma discard_mark_no_new i r : closed r = true → no_new_turn r (discard_mark i r).
Proof.
  intros Hc. unfold discard_mark. set (f := λ h, h <| lifecycle := (lifecycle h) <| discarded := true |> |>).
  enough (no_new_turn r (update_handle i f r <| discarding := base.filter (λ j, j ≠ i) (discarding r) |>)) as [? Hh].
  { case_match; split; auto. }
  split; [done|]. intros j h' Hj. cbn in Hj |- *. destruct (decide (j = i)) as [->|Hne].
  - rewrite list_lookup_alter_eq in Hj. apply fmap_Some in Hj as (h & Hh & ->). exists h.
    split_and!; [done|apply discarded_mono|by right].
  - rewrite list_lookup_alter_ne in Hj by done. exists h'. split_and!; [done|done|]. left. by apply list_elem_of_filter.
Qed.

Lemma closed_step redis r r' : closed r = true → registry_step redis r r' → no_new_turn r r'.
Proof.
  intros Hc [].
  - by apply same_turns_no_new.
  - match goal with H : start_segment _ _ _ _ _ = _ |- _ => destruct (start_segment_closed _ _ _ _ _ _ Hc H) as (? & ? & Hd) end.
    apply same_turns_no_new; [done|done|]. by rewrite Hd.
  - by apply same_turns_no_new.
  - apply turns_only_no_new; auto with turns.
  - unfold discard_pop. case_match; [|by apply same_turns_no_new]. apply same_turns_no_new; cbn; [done|done|set_solver].
  - by apply discard_mark_no_new.
  - split; [done|]. intros j h' Hj. cbn in Hj.
    destruct (turns_only_back r (update_handle i task_cancelled r) j h') as (h & ? & ?); [|done|]; eauto.
    apply update_handle_turns, task_cancelled_mono.
  - apply turns_only_no_new; [done|]. apply foldr_update_turns. auto with turns.
  - apply turns_only_no_new; [done|]. apply foldr_update_turns. auto with turns.
  - by apply same_turns_no_new.
Qed.

Lemma closed_history redis r r' : closed r = true → rtc (registry_step redis) r r' → no_new_turn r r'.
Proof.
  intros Hc Hs. induction Hs as [r|r1 r2 r3 Hstep _ IH]; [by apply same_turns_no_new|].
  destruct (closed_step redis r1 r2 Hc Hstep) as [Hc2 H12]. destruct (IH Hc2) as [Hc3 H23]. split; [done|].
  intros i h3 Hi. destruct (H23 i h3 Hi) as (h2 & Hi2 & Hm2 & Hd2). destruct (H12 i h2 Hi2) as (h1 & Hi1 & Hm1 & Hd1).
  exists h1. split_and!; [done|by etrans|]. intros [Hd|Hd]%Hd1; [auto|]. right. by apply (hm_discarded _ _ Hm2).
Qed.

Lemma foldr_update_marks d ids r i h :
  i ∈ ids → handles (foldr (λ j, update_handle j (mark_shutdown d)) r ids) !! i = Some h →
  shutting_down (lifecycle h) = true.
Proof.
  revert h. induction ids as [|j ids IH]; cbn; intros h Hi; [set_solver|]. destruct (decide (i = j)) as [->|Hne].
  - rewrite list_lookup_alter_eq. intros (h0 & _ & ->)%fmap_Some. done.
  - rewrite list_lookup_alter_ne by done. apply IH. set_solver.
Qed.

(** ** Theorems *)

Section Theorems.
Context (redis : bool).

(** C5: In every history a conversation has at most one turn that can still
    write to its buffer, not counting turns that were discarded or are being
    discarded (whose writers may still run beside a new turn), and a start that
    has passed its checks finds no other turn than such in its conversation that
    can write: opening its buffer, which drops what the file of that turn number
    held, takes nothing from a turn that is still writing and not discarded. *)
Theorem one_turn_writes r :
  rtc (registry_step redis) new_registry r →
  (∀ i j h h', handles r !! i = Some h → handles r !! j = Some h' → conversation_id h = conversation_id h' →
     live h = true → live h' = true → discarded (lifecycle h) = false → discarded (lifecycle h') = false →
     i ∉ discarding r → j ∉ discarding r → i = j) ∧
  (∀ s st i h, starts r !! s = Some st → st_at st = Opening ∨ st_at st = Publishing ∨ (∃ p, st_at st = Registering p) →
     handles r !! i = Some h → conversation_id h = sa_conversation (st_args st) → live h = true →
     discarded (lifecycle h) = true ∨ i ∈ discarding r).
Proof.
  intros Hr. destruct (registry_history_ok redis _ _ new_registry_ok Hr) as [He Hl Hk Hs]. split.
  - intros i j h h' Hi Hj Hc Hli Hlj Hdi Hdj Hni Hnj. pose proof (Hl i h Hi Hli Hdi Hni) as Hbi.
    pose proof (Hl j h' Hj Hlj Hdj Hnj) as Hbj. rewrite Hc in Hbi. congruence.
  - intros s st i h Hst Hp Hi Hc Hli. destruct (discarded (lifecycle h)) eqn:Hd; [by left|]. right.
    destruct (decide (i ∈ discarding r)); [done|]. pose proof (Hl i h Hi Hli Hd n) as Hb. rewrite Hc in Hb.
    destruct (Hs s st i h Hst) as (_ & _ & Hdead); [|done..|].
    + by destruct Hp as [-> | [-> | [? ->]]].
    + destruct Hp as [Hp | [Hp | [? Hp]]]; rewrite Hp in Hdead; congruence.
Qed.

(** C10: A turn is registered only when the server is open, the conversation's
    earlier turn answers no more, and, if that turn saved its question, the new
    turn's number is above its number; this holds at the moment of the
    registration, whatever ran while the start was waiting. *)
Theorem start_admission now o s r r' :
  rtc (registry_step redis) new_registry r → start_segment redis now o s r = Some r' → handles r' ≠ handles r →
  ∃ st, starts r !! s = Some st ∧ closed r = false ∧
    handles r' = handles r ++ [new_handle now (st_args st)] ∧
    by_cid r' !! sa_conversation (st_args st) = Some (length (handles r)) ∧
    ∀ h, registry_get r (sa_conversation (st_args st)) = Some h →
      is_answering h = false ∧ live h = false ∧ (saved_question (lifecycle h) = true → (turn_id h < sa_turn (st_args st))%Z).
Proof.
  intros Hr Hseg Hnew. destruct (registry_history_ok redis _ _ new_registry_ok Hr) as [_ _ _ Hs].
  unfold start_segment in Hseg. destruct (starts r !! s) as [st|] eqn:Hst; [|done]. exists st. split; [done|].
  destruct (st_at st) as [|i| | |pub| |] eqn:Hat; try done; try (repeat case_match; simplify_eq; done).
  unfold start_register in Hseg. destruct (closed r); [destruct pub; by simplify_eq|].
  injection Hseg as <-. cbn. split_and!; [done|done|by rewrite lookup_insert_eq|].
  intros h Hh. unfold registry_get in Hh. apply bind_Some in Hh as (i & Hi & Hh).
  destruct (Hs s st i h Hst) as (Ha & Hsv & Hd); [by rewrite Hat|done..|]. rewrite Hat in Hd. auto.
Qed.

(** A shutdown misses no turn: when the registry was closed before
    [shutdown] marked the turns in flight, then in every later state each turn
    that can still write to its buffer is marked [shutting_down], deleted
    conversations apart, and no turn was started behind it. *)
Theorem shutdown_covers r now timeout r1 ids r2 i h :
  rtc (registry_step redis) new_registry r → closed r = true → shutdown_mark now timeout r = (r1, ids) →
  rtc (registry_step redis) r1 r2 → handles r2 !! i = Some h →
  i < length (handles r) ∧
  (live h = true → shutting_down (lifecycle h) = true ∨ discarded (lifecycle h) = true ∨ i ∈ discarding r2).
Proof.
  intros Hr Hc Hmark H12 Hi. injection Hmark as Hr1 Hids.
  pose proof (registry_history_ok redis _ _ new_registry_ok Hr) as [_ Hl _ _].
  assert (turns_only r r1) as Ht by (subst r1; apply foldr_update_turns; auto with turns).
  assert (closed r1 = true) as Hc1 by (by rewrite (to_closed _ _ Ht)).
  destruct (nn_handles _ _ (closed_history redis r1 r2 Hc1 H12) i h Hi) as (h1 & Hi1 & Hm1 & Hd1).
  destruct (turns_only_back _ _ _ _ Ht Hi1) as (h0 & Hi0 & Hm0).
  split; [by apply lookup_lt_Some in Hi0|]. intros Hlive.
  destruct (discarded (lifecycle h)) eqn:Hd; [by right; left|].
  destruct (decide (i ∈ discarding r2)) as [|Hnot]; [by right; right|]. left.
  assert (i ∉ discarding r) as Hnot0.
  { intros Hin. rewrite <- (to_discarding _ _ Ht) in Hin. destruct (Hd1 Hin); congruence. }
  assert (handle_mono h0 h) as Hm by (by etrans).
  pose proof (Hl i h0 Hi0 (hm_live _ _ Hm Hlive) (not_discarded_mono _ _ Hm Hd) Hnot0) as Hb.
  destruct (shutting_down (lifecycle h0)) eqn:Hsd; [by apply (hm_shutting _ _ Hm)|].
  apply (hm_shutting _ _ Hm1). subst r1. apply (foldr_update_marks (now + timeout) (shutdown_turns r) r i); [|done].
  unfold shutdown_turns, in_flight. rewrite !list_elem_of_filter, Hi0. cbn. rewrite Hsd. split_and!; [done| |].
  - pose proof (hm_live _ _ Hm Hlive) as Hl0. unfold live in Hl0. by destruct (is_running h0).
  - apply list_elem_of_fmap. exists (conversation_id h0, i). split; [done|]. by apply elem_of_map_to_list.
Qed.

Lemma forget_unstarted_run_gone a ix :
  get_turn (sa_conversation a) (forget_unstarted_run a ix) ≫= te_run_id ≠ Some (run_id (sa_identity a)).
Proof.
  unfold forget_unstarted_run. cbn. case_bool_decide as Hrun; cbn; [|done].
  rewrite Nat.eqb_refl. unfold get_turn. cbn. by rewrite redis_delete_gone.
Qed.

(** A start that is refused or fails leaves nothing behind: no turn is
    registered or replaced, and the turn index does not name its run, whether
    its own write to the index had been committed or not. *)
Theorem refused_start_leaves_nothing now o s r r' e :
  start_segment redis now o s r = Some r' →
  st_at <$> starts r' !! s = Some (StartRaised e) →
  handles r' = handles r ∧ by_cid r' = by_cid r ∧
  (index r' = index r ∨
   ∃ st, starts r !! s = Some st ∧
     get_turn (sa_conversation (st_args st)) (index r') ≫= te_run_id ≠ Some (run_id (sa_identity (st_args st)))).
Proof.
  intros Hseg He. unfold start_segment, start_register in Hseg. destruct (starts r !! s) as [st|] eqn:Hst; [|done].
  assert (s < length (starts r)) as Hlt by (by apply lookup_lt_Some in Hst).
  assert (∀ p r0, starts r0 = starts r → st_at <$> starts (set_point s st p r0) !! s = Some p) as Hpt.
  { intros p r0 Hr0. cbn. rewrite Hr0, list_lookup_insert_eq by done. done. }
  pose proof (forget_unstarted_run_gone (st_args st)) as Hgone.
  destruct (st_at st) as [|i| | |pub| |] eqn:Hat; try done.
  - case_match; [done|]. simplify_eq. auto.
  - case_match; [|done]. simplify_eq. auto.
  - destruct o; simplify_eq; auto.
  - destruct o as [|e' committed]; simplify_eq; [by rewrite Hpt in He|]. split_and!; [done|done|]. right.
    exists st. split; [done|]. apply Hgone.
  - destruct (closed r); simplify_eq; [|by rewrite Hpt in He]. destruct pub; [|auto]. split_and!; [done|done|]. right.
    exists st. split; [done|]. apply Hgone.
Qed.
End Theorems.

(** ** A concrete conversation *)

Definition demo_args (turn : Z) : StartArgs := {|
  sa_conversation := "c"; sa_turn := turn; sa_org := None; sa_user := None;
  sa_identity := {| run_id := "run"; correlation_id := "corr"; remote := false |} |}.
Definition demo_ask (turn : Z) (r : Registry) : Registry :=
  r <| starts := starts r ++ [{| st_args := demo_args turn; st_at := Queued |}] |>.
Definition demo_segment (s : nat) (r : Registry) : Registry := default r (start_segment false 10 Ok s r).
Definition demo_opened : Registry := demo_segment 0 (demo_segment 0 (demo_ask 2 new_registry)).
Definition demo_started : Registry := demo_segment 0 demo_opened.

Lemma demo_step s r : is_Some (start_segment false 10 Ok s r) → registry_step false r (demo_segment s r).
Proof. intros [r' Hr]. apply (step_start false r 10 Ok s). unfold demo_segment. by rewrite Hr. Qed.

Lemma demo_opened_reachable : rtc (registry_step false) new_registry demo_opened.
Proof.
  eapply rtc_l; [apply (step_request false _ (demo_args 2))|].
  eapply rtc_l; [apply (demo_step 0); vm_compute; eauto|].
  apply rtc_once. apply demo_step. vm_compute; eauto.
Qed.

Lemma demo_started_reachable : rtc (registry_step false) new_registry demo_started.
Proof. eapply rtc_r; [apply demo_opened_reachable|]. apply demo_step. vm_compute; eauto. Qed.

Lemma one_turn_writes_witness :
  handles demo_started !! 0 = Some (new_handle 10 (demo_args 2)) ∧
  ∀ j h', handles demo_started !! j = Some h' → conversation_id h' = "c" → live h' = true →
    discarded (lifecycle h') = false → 0 = j.
Proof.
  split; [reflexivity|]. intros j h' Hj Hc Hl Hd.
  apply (proj1 (one_turn_writes false demo_started demo_started_reachable) 0 j (new_handle 10 (demo_args 2)) h');
    try done; vm_compute; inversion 1.
Defined.

Lemma start_admission_witness : ∃ st, starts demo_opened !! 0 = Some st ∧ closed demo_opened = false ∧
  handles demo_started = handles demo_opened ++ [new_handle 10 (st_args st)] ∧
  by_cid demo_started !! sa_conversation (st_args st) = Some (length (handles demo_opened)) ∧
  ∀ h, registry_get demo_opened (sa_conversation (st_args st)) = Some h →
    is_answering h = false ∧ live h = false ∧ (saved_question (lifecycle h) = true → (turn_id h < sa_turn (st_args st))%Z).
Proof.
  apply (start_admission false 10 Ok 0 demo_opened demo_started).
  - apply demo_opened_reachable.
  - vm_compute. reflexivity.
  - vm_compute. discriminate.
Defined.

Definition demo_shut : Registry := registry_close demo_started.

Lemma shutdown_covers_witness : ∃ h, handles (shutdown_mark 20 5 demo_shut).1 !! 0 = Some h ∧ live h = true ∧
  (shutting_down (lifecycle h) = true ∨ discarded (lifecycle h) = true ∨ 0 ∈ discarding (shutdown_mark 20 5 demo_shut).1).
Proof.
  exists (mark_shutdown 25 (new_handle 10 (demo_args 2))). split; [reflexivity|]. split; [reflexivity|].
  refine (proj2 (shutdown_covers false demo_shut 20 5 (shutdown_mark 20 5 demo_shut).1 (shutdown_mark 20 5 demo_shut).2
    (shutdown_mark 20 5 demo_shut).1 0 _ _ _ _ _ _) _).
  - eapply rtc_r; [apply demo_started_reachable|apply step_close].
  - reflexivity.
  - reflexivity.
  - apply rtc_refl.
  - reflexivity.
  - reflexivity.
Defined.

Lemma refused_start_leaves_nothing_witness :
  handles (demo_segment 1 (demo_ask 2 demo_started)) = handles demo_started.
Proof.
  refine (proj1 (refused_start_leaves_nothing false 10 Ok 1 (demo_ask 2 demo_started)
    (demo_segment 1 (demo_ask 2 demo_started)) (TurnInProgress "c" 2) _ _)).
  - vm_compute. reflexivity.
  - vm_compute. reflexivity.
Defined.
