(* ===== verification/TurnLiveness.v ===== *)
(** * The idle bound of a turn and the frames that keep a waiting turn alive.

    [RunRegistry._run_bounded] of [src/cowork/streaming/registry.py] runs a
    watchdog that cancels a producer whose buffer made no progress for
    [COWORK_MAX_TURN_IDLE_SECONDS]; [src/cowork/streaming/liveness.py] writes a
    progress frame while anton waits on a silent model call.  Times are in
    milliseconds of the loop's clock. *)
From stdpp Require Import base list strings option.
From Stdlib Require Import ZArith Lia.
From S2P Require Import Prelude RunRegistry.

Local Open Scope Z_scope.

(** ** The watchdog *)

Record Watchdog := { wd_last_seq : Z; wd_last_progress : Z }.

(** One poll, after the sleep: [None] is the reap. *)
Definition watchdog_poll (bound now seq : Z) (w : Watchdog) : option Watchdog :=
  if negb (seq =? wd_last_seq w) then Some {| wd_last_seq := seq; wd_last_progress := now |}
  else if bound <=? now - wd_last_progress w then None
  else Some w.

(** The polls of one turn, each with its time and the buffer's [latest_seq]. *)
Fixpoint watchdog_run (bound : Z) (w : Watchdog) (polls : list (Z * Z)) : option Watchdog :=
  match polls with
  | [] => Some w
  | (now, seq) :: polls => w' ← watchdog_poll bound now seq w; watchdog_run bound w' polls
  end.

(** The watchdog starts with a look at the buffer. *)
Definition watchdog (bound : Z) (first : Z * Z) (polls : list (Z * Z)) : option Watchdog :=
  watchdog_run bound {| wd_last_seq := first.2; wd_last_progress := first.1 |} polls.

(** ** The ticker *)

Definition MODEL_WAIT_PHASE : string := "model_wait".
Definition MODEL_WAIT_LABEL : string := "Still working".
Definition MODEL_WAIT_TICK_MS : Z := 20000.

(** The payload of a [model_wait] frame; [waited_s] is a float. *)
Definition model_wait_data (message : string) (waited_s : json) (sequence_number : option Z) (at_ms : Z) :
    list (string * json) :=
  [("type", JStr "response.in_progress")] ++
  option_list ((λ n, ("sequence_number", JInt n)) <$> sequence_number) ++
  [("thought_role", JStr "thought.progress");
   ("content", JStr (if truthy message then String.append MODEL_WAIT_LABEL (String.append ": " message) else MODEL_WAIT_LABEL));
   ("phase", JStr MODEL_WAIT_PHASE); ("message", JStr message); ("eta_seconds", waited_s); ("tool_use_id", JStr "");
   ("at_ms", JInt at_ms)].

(** anton's [ModelCallSnapshot], the fields that are read. *)
Record ModelCallSnapshot := { sn_message : string; sn_open_for_s : json }.

Record Ticker := { tk_last_seq : Z; tk_quiet_since : Z }.

(** One poll of [_tick] on an open buffer: the frame it appends, if any.  The
    append takes the next number, so [latest_seq] is one more after it. *)
Definition tick_poll (now seq : Z) (snapshot : option ModelCallSnapshot) (t : Ticker) :
    Ticker * option (list (string * json)) :=
  if negb (seq =? tk_last_seq t) then ({| tk_last_seq := seq; tk_quiet_since := now |}, None)
  else if now - tk_quiet_since t <? MODEL_WAIT_TICK_MS then (t, None)
  else
    match snapshot with
    | None => (t, None)
    | Some s =>
        ({| tk_last_seq := seq + 1; tk_quiet_since := now |},
         Some (model_wait_data (sn_message s) (sn_open_for_s s) None now))
    end.

(** ** A turn under both *)

Inductive turn_event :=
  | ProducerAppends
  | TickerPolls (snapshot : option ModelCallSnapshot)
  | WatchdogPolls.

Record BoundedTurn := { bt_seq : Z; bt_ticker : Ticker; bt_watchdog : Watchdog }.

Definition start_turn (now seq : Z) : BoundedTurn := {|
  bt_seq := seq; bt_ticker := {| tk_last_seq := seq; tk_quiet_since := now |};
  bt_watchdog := {| wd_last_seq := seq; wd_last_progress := now |} |}.

(** [None] once the watchdog has reaped the turn. *)
Definition turn_event_step (bound now : Z) (e : turn_event) (b : BoundedTurn) : option BoundedTurn :=
  match e with
  | ProducerAppends => Some {| bt_seq := bt_seq b + 1; bt_ticker := bt_ticker b; bt_watchdog := bt_watchdog b |}
  | TickerPolls snapshot =>
      let '(t, frame) := tick_poll now (bt_seq b) snapshot (bt_ticker b) in
      Some {| bt_seq := bt_seq b + (if frame then 1 else 0); bt_ticker := t; bt_watchdog := bt_watchdog b |}
  | WatchdogPolls =>
      w ← watchdog_poll bound now (bt_seq b) (bt_watchdog b);
      Some {| bt_seq := bt_seq b; bt_ticker := bt_ticker b; bt_watchdog := w |}
  end.

Fixpoint turn_run (bound : Z) (b : BoundedTurn) (events : list (Z * turn_event)) : option BoundedTurn :=
  match events with
  | [] => Some b
  | (now, e) :: events => b' ← turn_event_step bound now e b; turn_run bound b' events
  end.

(** ** The watchdog reaps idle turns only, and every one of them *)

(** A turn was idle over a stretch of polls of at least [bound]. *)
Definition idle_stretch (bound : Z) (looks : list (Z * Z)) : Prop :=
  ∃ before first middle last after, looks = before ++ [first] ++ middle ++ [last] ++ after ∧
    Forall (λ p, p.2 = first.2) (middle ++ [last]) ∧ bound <= last.1 - first.1.

(** The time stamps of a list of looks do not go back. *)
Fixpoint in_order (t : Z) (looks : list (Z * Z)) : Prop :=
  match looks with [] => True | (now, _) :: looks => t <= now ∧ in_order now looks end.

Lemma idle_stretch_cons bound p looks :
  idle_stretch bound (p :: looks) ↔
  (∃ middle last after, looks = middle ++ [last] ++ after ∧
     Forall (λ q, q.2 = p.2) (middle ++ [last]) ∧ bound <= last.1 - p.1) ∨
  idle_stretch bound looks.
Proof.
  split.
  - intros ([|q before] & first & middle & last & after & Heq & Hall & Hb); cbn in Heq; simplify_eq.
    + left. exists middle, last, after. auto.
    + right. exists before, first, middle, last, after. auto.
  - intros [(middle & last & after & -> & Hall & Hb)|(before & first & middle & last & after & -> & Hall & Hb)].
    + exists [], p, middle, last, after. auto.
    + exists (p :: before), first, middle, last, after. auto.
Qed.

(** Idle since the state's last progress. *)
Definition idle_since (bound : Z) (w : Watchdog) (polls : list (Z * Z)) : Prop :=
  ∃ middle last after, polls = middle ++ [last] ++ after ∧
    Forall (λ q, q.2 = wd_last_seq w) (middle ++ [last]) ∧ bound <= last.1 - wd_last_progress w.

Lemma idle_since_cons bound w now seq polls :
  idle_since bound w ((now, seq) :: polls) ↔
  seq = wd_last_seq w ∧ (bound <= now - wd_last_progress w ∨ idle_since bound w polls).
Proof.
  split.
  - intros ([|q middle] & last & after & Heq & Hall & Hb); cbn in Heq; simplify_eq; cbn in *.
    + apply list.Forall_cons in Hall as [? _]. auto.
    + apply list.Forall_cons in Hall as [? Hall]. split; [done|]. right. exists middle, last, after. auto.
  - intros (-> & [Hb|(middle & last & after & -> & Hall & Hb)]).
    + exists [], (now, wd_last_seq w), polls. split; [done|]. split; [|done]. by repeat constructor.
    + exists ((now, wd_last_seq w) :: middle), last, after. split; [done|]. split; [|done]. by constructor.
Qed.

Lemma in_order_weaken t t' looks : t' <= t → in_order t looks → in_order t' looks.
Proof. destruct looks as [|[now s] looks]; cbn; [done|]. intros ? [? ?]. split; [lia|done]. Qed.

Lemma watchdog_run_idle bound w polls :
  in_order (wd_last_progress w) polls →
  watchdog_run bound w polls = None ↔ idle_since bound w polls ∨ idle_stretch bound polls.
Proof.
  revert w. induction polls as [|[now seq] polls IH]; intros w Hord; cbn [watchdog_run].
  { split; [done|]. intros [(m & l & a & H & _)|(b & f & m & l & a & H & _)]; [by destruct m|by destruct b]. }
  destruct Hord as [Hle Hord]. rewrite idle_since_cons, idle_stretch_cons. unfold watchdog_poll.
  destruct (Z.eqb_spec seq (wd_last_seq w)) as [->|Hne]; cbn [negb].
  - destruct (Z.leb_spec bound (now - wd_last_progress w)) as [Hb|Hb]; cbn; [by split; auto|].
    rewrite IH by (by apply (in_order_weaken now)). split; [naive_solver|].
    intros [(_ & [?|?])|[(m & l & a & -> & Hall & Hb')|?]]; [lia|by left| |by right].
    left. exists m, l, a. cbn in *. split_and!; [done|done|lia].
  - cbn. rewrite IH by done. unfold idle_since at 1. cbn. naive_solver.
Qed.

(** The watchdog reaps exactly the idle turns: over polls at non-decreasing
    times it cancels the producer if and only if two of its looks at the buffer,
    the first one at the start of the turn included, lie at least the bound
    apart and every look between them saw the same [latest_seq].  A turn that
    appends anything is never reaped for its length. *)
Theorem watchdog_exact bound first polls :
  in_order first.1 polls → watchdog bound first polls = None ↔ idle_stretch bound (first :: polls).
Proof. intros Hord. unfold watchdog. rewrite watchdog_run_idle, idle_stretch_cons by done. done. Qed.

(** ** A waiting model call keeps its turn alive *)

(** The ticker is polled often enough: no event, and so no moment at which
    something happens, is more than [gap] after the last poll, and times do not
    go back.  Every poll finds the call still waiting. *)
Fixpoint paced (gap last_tick t : Z) (events : list (Z * turn_event)) : Prop :=
  match events with
  | [] => True
  | (now, e) :: events =>
      t <= now ∧ now <= last_tick + gap ∧
      match e with
      | TickerPolls None => False
      | TickerPolls (Some _) => paced gap now now events
      | _ => paced gap last_tick now events
      end
  end.

(** [last] is when something was last appended. *)
Record waiting_ok (gap last_tick t last : Z) (b : BoundedTurn) : Prop := {
  wo_last : last <= t;
  wo_tick : last_tick <= t;
  wo_ticker : tk_last_seq (bt_ticker b) <= bt_seq b;
  wo_watchdog : wd_last_seq (bt_watchdog b) <= bt_seq b;
  wo_quiet : tk_last_seq (bt_ticker b) = bt_seq b →
    last_tick - tk_quiet_since (bt_ticker b) < MODEL_WAIT_TICK_MS ∧ tk_quiet_since (bt_ticker b) <= last + gap;
  wo_new : tk_last_seq (bt_ticker b) ≠ bt_seq b → last_tick <= last;
  wo_seen : wd_last_seq (bt_watchdog b) = bt_seq b → last <= wd_last_progress (bt_watchdog b);
}.

Lemma waiting_step bound gap last_tick t last b now e :
  0 <= gap → MODEL_WAIT_TICK_MS + 2 * gap <= bound → waiting_ok gap last_tick t last b →
  t <= now → now <= last_tick + gap → e ≠ TickerPolls None →
  ∃ b' last', turn_event_step bound now e b = Some b' ∧
    waiting_ok gap (if e is TickerPolls _ then now else last_tick) now last' b'.
Proof.
  intros Hgap Hbound [H1 H2 H3 H4 H5 H6 H7] Ht Hnow He. unfold MODEL_WAIT_TICK_MS in *. destruct e as [|[s|]|]; [| |done|].
  - eexists _, now. split; [reflexivity|]. split; cbn; lia.
  - unfold turn_event_step, tick_poll, MODEL_WAIT_TICK_MS.
    destruct (Z.eqb_spec (bt_seq b) (tk_last_seq (bt_ticker b))) as [Heq|Hne]; cbn [negb].
    + destruct (Z.ltb_spec (now - tk_quiet_since (bt_ticker b)) 20000) as [Hq|Hq].
      * eexists _, last. split; [reflexivity|]. unfold MODEL_WAIT_TICK_MS in *. split; cbn; rewrite ?Z.add_0_r; try lia.
        unfold MODEL_WAIT_TICK_MS. lia.
      * eexists _, now. split; [reflexivity|]. split; cbn; unfold MODEL_WAIT_TICK_MS; lia.
    + eexists _, last. split; [reflexivity|]. split; cbn; unfold MODEL_WAIT_TICK_MS; lia.
  - unfold turn_event_step, watchdog_poll.
    destruct (Z.eqb_spec (bt_seq b) (wd_last_seq (bt_watchdog b))) as [Heq|Hne]; cbn [negb].
    + destruct (Z.leb_spec bound (now - wd_last_progress (bt_watchdog b))) as [Hb|Hb].
      * exfalso. destruct (Z.eq_dec (tk_last_seq (bt_ticker b)) (bt_seq b)); lia.
      * eexists _, last. split; [reflexivity|]. split; cbn; unfold MODEL_WAIT_TICK_MS; lia.
    + eexists _, last. split; [reflexivity|]. split; cbn; unfold MODEL_WAIT_TICK_MS; lia.
Qed.

Lemma waiting_run bound gap last_tick t last b events :
  0 <= gap → MODEL_WAIT_TICK_MS + 2 * gap <= bound → waiting_ok gap last_tick t last b →
  paced gap last_tick t events → is_Some (turn_run bound b events).
Proof.
  intros Hgap Hbound. revert last_tick t last b. induction events as [|[now e] events IH]; intros * Hok; cbn; [eauto|].
  intros (Ht & Hnow & Hrest).
  destruct (waiting_step bound gap last_tick t last b now e) as (b' & last' & -> & Hok'); try done; [by intros ->|].
  cbn. eapply IH; [exact Hok'|]. by destruct e as [|[]|].
Qed.

(** A turn that waits on a silent model call is not reaped: while anton
    reports the call and the ticker is polled at least every [gap], the frames
    it appends keep every look of the watchdog within the bound, for any
    interleaving of the polls and the producer's own appends, provided the
    bound is at least [MODEL_WAIT_TICK_SECONDS] plus two gaps. *)
Theorem model_wait_keeps_alive bound gap now seq events :
  0 <= gap → MODEL_WAIT_TICK_MS + 2 * gap <= bound → paced gap now now events →
  is_Some (turn_run bound (start_turn now seq) events).
Proof.
  intros Hgap Hbound. apply (waiting_run bound gap now now now); [done|done|].
  split; cbn; unfold MODEL_WAIT_TICK_MS; lia.
Qed.

(** ** Concrete turns *)

Lemma watchdog_exact_witness :
  watchdog 600000 (0, 3) [(15000, 4); (400000, 4); (620000, 4)] = None ∧
  idle_stretch 600000 [(0, 3); (15000, 4); (400000, 4); (620000, 4)].
Proof.
  split; [reflexivity|].
  apply (watchdog_exact 600000 (0, 3) [(15000, 4); (400000, 4); (620000, 4)]); [|reflexivity].
  cbn. lia.
Defined.

Definition demo_snapshot : option ModelCallSnapshot := Some {| sn_message := "thinking"; sn_open_for_s := JFloat "5.0" |}.

Lemma model_wait_keeps_alive_witness :
  is_Some (turn_run (1000 * idle_bound_seconds (λ _, None) None) (start_turn 0 7)
    [(5000, TickerPolls demo_snapshot); (25000, TickerPolls demo_snapshot); (30000, WatchdogPolls)]).
Proof.
  apply (model_wait_keeps_alive (1000 * idle_bound_seconds (λ _, None) None) 20000 0 7).
  - lia.
  - vm_compute. discriminate.
  - cbn. lia.
Defined.
