(* ===== verification/ScheduleTiming.v ===== *)
(** * When a schedule runs next.

    [src/cowork/schedule_timing.py].  An instant is its number of microseconds
    since 1970 in UTC, a wall-clock time the same number read off the clock of a
    zone with its [fold].  The zone database is a parameter: [ZoneInfo]'s
    conversions, the lookup of a name and the zone of the machine. *)
From stdpp Require Import base list strings option.
From Stdlib Require Import ZArith Lia.
From S2P Require Import Prelude.

Local Open Scope Z_scope.

Definition HOUR : Z := 3600 * 1000000.
Definition DAY : Z := 24 * HOUR.

Inductive Cadence := once | hourly | daily | weekdays | weekly.

#[export] Instance Cadence_eq_dec : EqDecision Cadence.
Proof. solve_decision. Defined.

(** A zone: [astimezone(tz)] and back. *)
Record Zone := {
  to_local : Z → Z * bool;
  to_utc : Z * bool → Z;
}.

(** What is relied on: from the wall clock of an instant, the same wall clock a
    number of days later is a later instant.  The offsets of a zone may change
    in between by up to a day and a later wall clock may be skipped; a skipped
    one is read with the offset from before the change.  It is not assumed that
    a skipped wall clock is before the same one of the next day: in a zone that
    skips a whole day (Pacific/Apia on 30 December 2011, [apia] below) the two
    are the same instant. *)
Record zone_ok (z : Zone) : Prop := {
  zone_later : ∀ t days, 1 <= days → t < to_utc z ((to_local z t).1 + days * DAY, (to_local z t).2);
}.

Definition UTC : Zone := {| to_local t := (t, false); to_utc l := l.1 |}.

(** [zoneinfo] is [None] where [ZoneInfo] raises [ZoneInfoNotFoundError], and
    [local_zone] where the machine's zone cannot be found. *)
Class Zones := { zoneinfo : string → option Zone; local_zone : option Zone }.

Section Timing.
Context {ZN : Zones}.

(** [resolve_timezone]. *)
Definition resolve_timezone (name : option string) : Zone :=
  match name with
  | None => UTC
  | Some name =>
      if negb (truthy name) then UTC
      else if String.eqb name "local" then default UTC local_zone
      else default UTC (zoneinfo name)
  end.

(** [date.weekday()]: Monday is 0; 1970-01-01 was a Thursday. *)
Definition weekday (date : Z) : Z := (date + 3) mod 7.

(** [while next_date.weekday() >= 5: next_date += 1 day]. *)
Fixpoint skip_weekend (fuel : nat) (date : Z) : Z :=
  match fuel with
  | O => date
  | S fuel => if 5 <=? weekday date then skip_weekend fuel (date + 1) else date
  end.

(** [advance_occurrence]. *)
Definition advance_occurrence (cadence : Cadence) (at_ : Z) (timezone_name : option string) : exn + Z :=
  match cadence with
  | hourly => inr (at_ + HOUR)
  | once => inl (ValueError "Unsupported cadence for recurrence: once")
  | _ =>
      let tz := resolve_timezone timezone_name in
      let '(local, fold) := to_local tz at_ in
      let date := local / DAY in
      let next_date :=
        match cadence with
        | daily => date + 1
        | weekdays => skip_weekend 7 (date + 1)
        | _ => date + 7
        end in
      inr (to_utc tz (next_date * DAY + local mod DAY, fold))
  end.

(** A [while] loop of at most [2 ^ n] rounds: the state after them, or what the
    loop left with. *)
Fixpoint while_pow {St R} (n : nat) (step : St → St + R) (s : St) : St + R :=
  match n with
  | O => step s
  | S n => match while_pow n step s with inl s' => while_pow n step s' | inr r => inr r end
  end.

(** One round of the loops below. *)
Definition occurrence_round (cadence : Cadence) (timezone_name : option string) (reference : Z)
    (s : Z * Z) : (Z * Z) + (exn + (Z * Z)) :=
  let '(missed, cursor) := s in
  if cursor <=? reference then
    match advance_occurrence cadence cursor timezone_name with
    | inl e => inr (inl e)
    | inr next => inl (missed + 1, next)
    end
  else inr (inr (missed, cursor)).

(** Enough rounds for two instants of years 1 to 9999. *)
Definition ROUNDS : nat := 64.

(** [count_missed_occurrences] and [next_future_occurrence]. *)
Definition count_missed_occurrences (cadence : Cadence) (next_run_at : Z) (timezone_name : option string)
    (now : Z) : exn + (Z * Z) :=
  match while_pow ROUNDS (occurrence_round cadence timezone_name now) (0, next_run_at) with
  | inr r => r
  | inl _ => inl (RuntimeError "does not return")
  end.

Definition next_future_occurrence (cadence : Cadence) (next_run_at : Z) (timezone_name : option string)
    (now : Z) : exn + Z :=
  match count_missed_occurrences cadence next_run_at timezone_name now with
  | inl e => inl e
  | inr (_, cursor) => inr cursor
  end.

(** ** The loop *)

(** The schedule's occurrences: the [n]-th after the given one. *)
Fixpoint occurrence (cadence : Cadence) (timezone_name : option string) (first : Z) (n : nat) : exn + Z :=
  match n with
  | O => inr first
  | S n => match occurrence cadence timezone_name first n with
           | inl e => inl e
           | inr t => advance_occurrence cadence t timezone_name
           end
  end.

Definition zones_ok : Prop := ∀ name, zone_ok (resolve_timezone name).

Lemma utc_ok : zone_ok UTC.
Proof. split; cbn. unfold DAY, HOUR. lia. Qed.

Lemma skip_weekend_weekday date :
  weekday (skip_weekend 7 date) < 5 ∧ date <= skip_weekend 7 date <= date + 2.
Proof.
  unfold weekday. cbn. unfold weekday.
  repeat match goal with |- context [5 <=? ?x] => destruct (Z.leb_spec 5 x) end;
    try lia; exfalso; Z.to_euclidean_division_equations; lia.
Qed.

Lemma skip_weekend_skipped fuel : ∀ date d, date <= d < skip_weekend fuel date → 5 <= weekday d.
Proof.
  induction fuel as [|fuel IH]; intros date d; cbn; [lia|]. destruct (Z.leb_spec 5 (weekday date)); [|lia].
  intros Hd. destruct (Z.eq_dec d date) as [->|]; [done|]. apply (IH (date + 1)). lia.
Qed.

Lemma advance_increases cadence at_ name :
  zones_ok → cadence ≠ once → ∃ t, advance_occurrence cadence at_ name = inr t ∧ at_ < t.
Proof.
  intros Hz Hc. unfold advance_occurrence. destruct (Hz name) as [Hlate]. specialize (Hlate at_).
  destruct (to_local (resolve_timezone name) at_) as [local fold] eqn:Hl. cbn [fst snd] in Hlate.
  assert (∀ d, local / DAY + 1 <= d → at_ < to_utc (resolve_timezone name) (d * DAY + local mod DAY, fold)) as Hlater.
  { intros d Hd. replace (d * DAY + local mod DAY) with (local + (d - local / DAY) * DAY).
    - apply Hlate. lia.
    - rewrite Z.mod_eq by done. lia. }
  pose proof (skip_weekend_weekday (local / DAY + 1)) as [_ Hskip].
  destruct cadence; [done| | | |]; eexists; (split; [reflexivity|]); try (apply Hlater; lia).
  unfold HOUR. lia.
Qed.

(** [k] rounds of a loop. *)
Inductive loops {St R} (step : St → St + R) : St → nat → St → Prop :=
  | loops_O s : loops step s 0 s
  | loops_S s s1 k s2 : step s = inl s1 → loops step s1 k s2 → loops step s (S k) s2.

Lemma loops_split {St R} (step : St → St + R) a : ∀ b s s',
  loops step s (a + b) s' → ∃ s1, loops step s a s1 ∧ loops step s1 b s'.
Proof.
  induction a as [|a IH]; intros b s s'; cbn; [eauto using loops_O|].
  inversion 1; subst. edestruct IH as (s2 & ? & ?); [done|]. eauto using loops_S.
Qed.

Lemma while_pow_run {St R} (step : St → St + R) n : ∀ s s', loops step s (2 ^ n) s' → while_pow n step s = inl s'.
Proof.
  induction n as [|n IH]; intros s s'; cbn.
  - inversion 1 as [|? ? ? ? Hstep Hrest]; subst. by inversion Hrest; subst.
  - rewrite Nat.add_0_r. intros (s1 & H1 & H2)%loops_split. by rewrite (IH _ _ H1), (IH _ _ H2).
Qed.

Lemma while_pow_done {St R} (step : St → St + R) n : ∀ k s s' r,
  loops step s k s' → step s' = inr r → (k < 2 ^ n)%nat → while_pow n step s = inr r.
Proof.
  induction n as [|n IH]; intros k s s' r Hk Hr Hlt; cbn in *.
  - destruct k; [|lia]. by inversion Hk; subst.
  - destruct (le_lt_dec (2 ^ n) k) as [Hge|Hlt'].
    + replace k with (2 ^ n + (k - 2 ^ n))%nat in Hk by lia. apply loops_split in Hk as (s1 & H1 & H2).
      rewrite (while_pow_run _ _ _ _ H1). eapply IH; eauto. lia.
    + by rewrite (IH _ _ _ _ Hk Hr Hlt').
Qed.

Lemma occurrence_shift cadence name c c' n :
  advance_occurrence cadence c name = inr c' → occurrence cadence name c (S n) = occurrence cadence name c' n.
Proof. intros Hc. induction n as [|n IH]; [done|]. cbn [occurrence] in *. by rewrite IH. Qed.

(** The first occurrence after the reference, and the rounds to reach it. *)
Lemma first_future cadence name reference :
  zones_ok → cadence ≠ once → ∀ d i c, reference - c < Z.of_nat d →
  ∃ m t, (m ≤ d)%nat ∧ loops (occurrence_round cadence name reference) (i, c) m (i + Z.of_nat m, t) ∧
    occurrence cadence name c m = inr t ∧ reference < t ∧
    ∀ k, (k < m)%nat → ∃ u, occurrence cadence name c k = inr u ∧ u <= reference.
Proof.
  intros Hz Hc d. induction d as [|d IH]; intros i c Hd.
  { exists 0%nat, c. rewrite Z.add_0_r. split_and!; [done|constructor|done|lia|lia]. }
  destruct (Z_lt_le_dec reference c) as [Hlt|Hle].
  { exists 0%nat, c. rewrite Z.add_0_r. split_and!; [lia|constructor|done|lia|lia]. }
  destruct (advance_increases cadence c name Hz Hc) as (c' & Hadv & Hlt).
  destruct (IH (i + 1) c') as (m & t & Hm & Hloop & Hocc & Ht & Hbefore); [lia|].
  exists (S m), t. split_and!; [lia| | |done|].
  - apply (loops_S _ _ (i + 1, c')).
    + cbn. rewrite (proj2 (Z.leb_le c reference)) by done. by rewrite Hadv.
    + by replace (i + Z.of_nat (S m)) with (i + 1 + Z.of_nat m) by lia.
  - by rewrite (occurrence_shift _ _ _ c').
  - intros [|k] Hk; [by exists c|]. rewrite (occurrence_shift _ _ _ c') by done. apply Hbefore. lia.
Qed.

(** Both loops, from the first future occurrence. *)
Lemma missed_counted cadence next_run_at name now :
  zones_ok → cadence ≠ once → now - next_run_at < 2 ^ 64 - 1 →
  ∃ missed t, count_missed_occurrences cadence next_run_at name now = inr (Z.of_nat missed, t) ∧
    next_future_occurrence cadence next_run_at name now = inr t ∧
    occurrence cadence name next_run_at missed = inr t ∧ now < t ∧
    ∀ k, (k < missed)%nat → ∃ u, occurrence cadence name next_run_at k = inr u ∧ u <= now.
Proof.
  intros Hz Hc Hspan.
  destruct (first_future cadence name now Hz Hc (Z.to_nat (now - next_run_at + 1)) 0 next_run_at)
    as (m & t & Hm & Hloop & Hocc & Ht & Hbefore); [lia|].
  assert (count_missed_occurrences cadence next_run_at name now = inr (Z.of_nat m, t)) as Hcount.
  { unfold count_missed_occurrences. rewrite (while_pow_done _ ROUNDS m (0, next_run_at) (0 + Z.of_nat m, t) (inr (Z.of_nat m, t))); [done|done| |].
    - cbn. by rewrite (proj2 (Z.leb_gt t now)).
    - apply Nat2Z.inj_lt. rewrite Nat2Z.inj_pow. change (Z.of_nat 2 ^ Z.of_nat ROUNDS) with (2 ^ 64). lia. }
  exists m, t. split_and!; try done. unfold next_future_occurrence. by rewrite Hcount.
Qed.


(** A weekday schedule skips Saturdays and Sundays and no other day. *)
Lemma weekdays_occurrence at_ name local fold :
  to_local (resolve_timezone name) at_ = (local, fold) →
  ∃ date, advance_occurrence weekdays at_ name = inr (to_utc (resolve_timezone name) (date * DAY + local mod DAY, fold)) ∧
    weekday date < 5 ∧ local / DAY < date ∧ ∀ d, local / DAY < d < date → 5 <= weekday d.
Proof.
  intros Hl. unfold advance_occurrence. rewrite Hl. exists (skip_weekend 7 (local / DAY + 1)).
  pose proof (skip_weekend_weekday (local / DAY + 1)) as [Hw Hb]. split_and!; [done|done|lia|].
  intros d Hd. apply (skip_weekend_skipped 7 (local / DAY + 1)). lia.
Qed.
End Timing.

(** ** Concrete zones *)

(** A machine in a zone two hours ahead of UTC. *)
Definition demo_zone : Zone := {| to_local t := (t + 2 * HOUR, false); to_utc l := l.1 - 2 * HOUR |}.
Definition demo_zones : Zones := {| zoneinfo _ := Some demo_zone; local_zone := None |}.

(** Pacific/Apia: ten hours behind UTC up to midnight of 29 December 2011 there,
    fourteen hours ahead from then on, so that the 30th is skipped.  A wall clock
    of that day is read with the offset before the change, or after it when its
    [fold] is set. *)
Definition APIA_CHANGE : Z := 15338 * DAY + 10 * HOUR.
Definition apia : Zone := {|
  to_local t := (if t <? APIA_CHANGE then t - 10 * HOUR else t + 14 * HOUR, false);
  to_utc l :=
    if l.1 <? APIA_CHANGE - 10 * HOUR then l.1 + 10 * HOUR
    else if l.1 <? APIA_CHANGE + 14 * HOUR then (if l.2 then l.1 - 14 * HOUR else l.1 + 10 * HOUR)
    else l.1 - 14 * HOUR |}.
Definition apia_zones : Zones := {| zoneinfo _ := Some apia; local_zone := None |}.

Lemma named_zone_ok z : zone_ok z → zones_ok (ZN := {| zoneinfo _ := Some z; local_zone := None |}).
Proof.
  intros Hz [name|]; cbn; [|apply utc_ok]. destruct (truthy name); [|apply utc_ok].
  cbn. destruct (String.eqb name "local"); [apply utc_ok|done].
Qed.

Lemma demo_zones_ok : zones_ok (ZN := demo_zones).
Proof. apply named_zone_ok. split; cbn; unfold DAY, HOUR; lia. Qed.

Lemma apia_zones_ok : zones_ok (ZN := apia_zones).
Proof.
  apply named_zone_ok. split. intros t days Hd. cbn [to_local to_utc apia fst snd]. unfold DAY, HOUR in *.
  repeat match goal with |- context [?a <? ?b] => destruct (Z.ltb_spec a b) end; lia.
Qed.

(** The two wall clocks that are one instant, and the daily schedule that
    crosses the skipped day: ten o'clock of the 29th, the instant that is ten
    o'clock of the 31st, and ten o'clock of the 1st. *)
Lemma apia_skips_a_day :
  to_utc apia (15338 * DAY + 10 * HOUR, false) = to_utc apia (15339 * DAY + 10 * HOUR, false).
Proof. vm_compute. reflexivity. Qed.

