(* ===== verification/Scheduler.v ===== *)
(** * Scheduled runs.

    [src/cowork/services/schedules.py] ([ScheduleRunService]) and
    [src/cowork/scheduler.py].  Every replica polls the same tables; a cron run
    claims its slot by inserting its row, holds a lease while its process lives,
    and records how it ended.  A database unit ([run_db]) is one transaction and
    one step here; between units anything may happen, a crash included.  Times
    are microseconds since 1970.  Of a schedule the record has what this code
    reads and writes; schedules are not deleted. *)
From stdpp Require Import base list gmap strings option.
From Stdlib Require Import ZArith Lia.
From S2P Require Import Prelude ScheduleTiming.

Definition SECOND : Z := 1000000.

Inductive ScheduleRunStatus := run_running | run_success | run_failed | run_cancelled.

#[export] Instance ScheduleRunStatus_eq_dec : EqDecision ScheduleRunStatus.
Proof. solve_decision. Defined.

Record Schedule := {
  cadence : Cadence;
  next_run_at : Z;
  timezone : string;
  enabled : bool;
  last_run_at : option Z;
  last_result_conversation_id : option string;
  last_error : option string;
  missed_runs : Z;
}.
#[export] Instance fields_Schedule : Fields Schedule := λ s, {|
  cadence := cadence s; next_run_at := next_run_at s; timezone := timezone s; enabled := enabled s;
  last_run_at := last_run_at s; last_result_conversation_id := last_result_conversation_id s;
  last_error := last_error s; missed_runs := missed_runs s |}.

Record ScheduleRun := {
  schedule_id : string;
  started_at : Z;
  finished_at : option Z;
  duration_ms : option Z;
  status : ScheduleRunStatus;
  error : option string;
  run_conversation : option string;
  is_manual : bool;
  slot_at : option Z;
  lease_expires_at : option Z;
}.
#[export] Instance fields_ScheduleRun : Fields ScheduleRun := λ r, {|
  schedule_id := schedule_id r; started_at := started_at r; finished_at := finished_at r;
  duration_ms := duration_ms r; status := status r; error := error r; run_conversation := run_conversation r;
  is_manual := is_manual r; slot_at := slot_at r; lease_expires_at := lease_expires_at r |}.

Record DB := {
  db_schedules : gmap string Schedule;
  db_runs : gmap string ScheduleRun;
  db_conversations : gset string;
}.
#[export] Instance fields_DB : Fields DB := λ d, {|
  db_schedules := db_schedules d; db_runs := db_runs d; db_conversations := db_conversations d |}.

Definition RUN_LEASE_SECONDS : Z := 120.
Definition ONCE_CATCHUP_WINDOW_SECONDS : Z := 60 * 60.
Definition FRESHNESS_WINDOW_SECONDS (c : Cadence) : Z :=
  match c with hourly => 30 * 60 | _ => 60 * 60 end.
Definition LAPSED_RUN_ERROR : string := "Run was interrupted: the server running it stopped before it finished.".
Definition SHUTDOWN_RUN_ERROR : string := "Run did not start: the server was shutting down.".
Definition INTERRUPTED_RUN_ERROR : string := "Run was interrupted: the server shut down before it finished.".
Definition INCOMPLETE_RUN_ERROR : string := "Run did not complete — open the run's task for details.".

(** ** ScheduleRunService *)

(** The unique index on [(schedule_id, slot_at)], and the row that holds a slot. *)
Definition holds_slot (sid : string) (slot : Z) (r : ScheduleRun) : bool :=
  String.eqb (schedule_id r) sid && bool_decide (slot_at r = Some slot).
Definition slot_holder (sid : string) (slot : Z) (d : DB) : option string :=
  fst <$> find (λ kv, holds_slot sid slot kv.2) (map_to_list (db_runs d)).

(** [create_run]; [run_id] is the row's new id.  [None] is [SlotAlreadyClaimed]. *)
Definition create_run (run_id sid : string) (manual : bool) (slot : option Z) (lease_seconds : option Z) (now : Z)
    (d : DB) : option DB :=
  let claimed := match slot with Some s => bool_decide (slot_holder sid s d ≠ None) | None => false end in
  if claimed then None
  else Some (d <| db_runs := <[run_id := {|
    schedule_id := sid; started_at := now; finished_at := None; duration_ms := None; status := run_running;
    error := None; run_conversation := None; is_manual := manual; slot_at := slot;
    lease_expires_at := (λ l, (now + l * SECOND)%Z) <$> lease_seconds |}]> (db_runs d) |>).

(** [renew_lease]. *)
Definition renew_lease (run_id : string) (lease_seconds now : Z) (d : DB) : DB * bool :=
  match db_runs d !! run_id with
  | Some r =>
      if bool_decide (status r = run_running)
      then (d <| db_runs := <[run_id := r <| lease_expires_at := Some (now + lease_seconds * SECOND)%Z |>]> (db_runs d) |>, true)
      else (d, false)
  | None => (d, false)
  end.

(** [still_running]. *)
Definition still_running (run_id : string) (d : DB) : bool :=
  match db_runs d !! run_id with Some r => bool_decide (status r = run_running) | None => false end.

(** [has_active_run], for the scheduler's scope. *)
Definition has_active_run (sid : string) (d : DB) : bool :=
  bool_decide (is_Some (db_schedules d !! sid)) &&
  existsb (λ kv, String.eqb (schedule_id kv.2) sid && bool_decide (status kv.2 = run_running)) (map_to_list (db_runs d)).

(** [last_successful_finish]: the latest finish; a successful run has one. *)
Definition last_successful_finish (sid : string) (d : DB) : option Z :=
  fold_left (λ best kv,
    if String.eqb (schedule_id kv.2) sid && bool_decide (status kv.2 = run_success) then
      match finished_at kv.2, best with
      | Some f, Some b => Some (Z.max b f)
      | Some f, None => Some f
      | None, _ => best
      end
    else best) (map_to_list (db_runs d)) None.

(** [still_exists]. *)
Definition still_exists (conversation : option string) (d : DB) : option string :=
  match conversation with
  | Some c => if bool_decide (c ∈ db_conversations d) then Some c else None
  | None => None
  end.

(** [set_run_conversation]. *)
Definition set_run_conversation (run_id conversation : string) (d : DB) : DB * bool :=
  match db_runs d !! run_id with
  | Some r =>
      if bool_decide (status r = run_running)
      then (d <| db_runs := <[run_id := r <| run_conversation := still_exists (Some conversation) d |>]> (db_runs d) |>, true)
      else (d, false)
  | None => (d, false)
  end.

(** The fields every end of a run sets. *)
Definition ended (now : Z) (st : ScheduleRunStatus) (e : option string) (r : ScheduleRun) : ScheduleRun :=
  r <| finished_at := Some now |> <| duration_ms := Some (Z.quot (now - started_at r) 1000) |> <| status := st |>
    <| error := e |> <| lease_expires_at := None |>.

(** [finish_run]; [None] is its [ValueError]. *)
Definition finish_run (run_id : string) (conversation e : option string) (st : option ScheduleRunStatus)
    (release_slot : bool) (now : Z) (d : DB) : option DB :=
  match db_runs d !! run_id with
  | None => None
  | Some r =>
      let r := ended now (default (if truthy_opt e then run_failed else run_success) st) e r in
      let r := if release_slot then r <| slot_at := None |> else r in
      let r := match conversation with Some _ => r <| run_conversation := still_exists conversation d |> | None => r end in
      Some (d <| db_runs := <[run_id := r]> (db_runs d) |>)
  end.

(** [reap_orphaned_runs]. *)
Definition orphaned (started_before : option Z) (r : ScheduleRun) : bool :=
  bool_decide (status r = run_running) &&
  match started_before with Some t => (started_at r <? t)%Z | None => true end.
Definition reap_orphaned_runs (e : string) (started_before : option Z) (now : Z) (d : DB) : DB :=
  d <| db_runs := (λ r, if orphaned started_before r then ended now run_failed (Some e) r <| slot_at := None |> else r)
                    <$> db_runs d |>.

(** [reap_lapsed_runs]: the tables after it and the runs that keep their slot. *)
Definition lapsed (now : Z) (r : ScheduleRun) : bool :=
  bool_decide (status r = run_running) &&
  match lease_expires_at r with Some l => (l <? now)%Z | None => false end.
Definition reaped_run (now : Z) (e : string) (r : ScheduleRun) : ScheduleRun :=
  let r := ended now run_failed (Some e) r in
  match run_conversation r with None => r <| slot_at := None |> | Some _ => r end.
Definition reap_lapsed_runs (now : Z) (e : string) (d : DB) : DB * list ScheduleRun :=
  (d <| db_runs := (λ r, if lapsed now r then reaped_run now e r else r) <$> db_runs d |>,
   base.filter (λ r, run_conversation r ≠ None ∧ slot_at r ≠ None)
     (map (λ kv, reaped_run now e kv.2) (base.filter (λ kv, lapsed now kv.2 = true) (map_to_list (db_runs d))))).

(** [release_conversation], with the delete of the conversation it is part of. *)
Definition delete_conversation (c : string) (d : DB) : DB :=
  d <| db_conversations := db_conversations d ∖ {[c]} |>
    <| db_runs := (λ r, if bool_decide (run_conversation r = Some c) then r <| run_conversation := None |> else r) <$> db_runs d |>
    <| db_schedules := (λ s, if bool_decide (last_result_conversation_id s = Some c)
                             then s <| last_result_conversation_id := None |> else s) <$> db_schedules d |>.

Section Scheduler.
Context {ZN : Zones}.

(** ** The poll *)

(** [_advance_next_run_at]. *)
Definition advance_next_run_at (now : Z) (s : Schedule) : exn + Schedule :=
  if bool_decide (cadence s = once) then inr (s <| enabled := false |>)
  else
    match next_future_occurrence (cadence s) (next_run_at s) (Some (timezone s)) now with
    | inl e => inl e
    | inr t => inr (s <| next_run_at := t |>)
    end.

(** A unit that rewrites schedules one by one: an exception anywhere rolls back
    the unit. *)
Definition try_schedules (f : string → Schedule → exn + Schedule) (m : gmap string Schedule) : exn + gmap string Schedule :=
  match omap (λ kv, match f kv.1 kv.2 with inl e => Some e | inr _ => None end) (map_to_list m) with
  | e :: _ => inl e
  | [] => inr (map_imap (λ k s, match f k s with inr s' => Some s' | inl _ => None end) m)
  end.

(** The body of the loop of [_handle_missed_runs]. *)
Definition settle_missed (now : Z) (s : Schedule) : exn + Schedule :=
  if negb (enabled s) || (now <=? next_run_at s)%Z then inr s
  else if bool_decide (cadence s = once) then
    if (ONCE_CATCHUP_WINDOW_SECONDS * SECOND <? now - next_run_at s)%Z
    then inr (s <| missed_runs := (missed_runs s + 1)%Z |> <| enabled := false |>) else inr s
  else
    match count_missed_occurrences (cadence s) (next_run_at s) (Some (timezone s)) now with
    | inl e => inl e
    | inr (missed, future) =>
        if (1 <? missed)%Z
        then inr (s <| missed_runs := (missed_runs s + missed)%Z |> <| next_run_at := future |>) else inr s
    end.
Definition handle_missed_runs (now : Z) (d : DB) : exn + DB :=
  match try_schedules (λ _, settle_missed now) (db_schedules d) with
  | inl e => inl e
  | inr m => inr (d <| db_schedules := m |>)
  end.

(** [_ran_recently]. *)
Definition ran_recently (sid : string) (s : Schedule) (now : Z) (d : DB) : bool :=
  match last_successful_finish sid d with
  | Some last => (now - last <? FRESHNESS_WINDOW_SECONDS (cadence s) * SECOND)%Z
  | None => false
  end.

(** [_due_schedules]: the slots to start, skipped ones advanced. *)
Definition slot_due (now : Z) (d : DB) (sid : string) (s : Schedule) : bool :=
  enabled s && (next_run_at s <=? now)%Z && negb (has_active_run sid d).
Definition due_schedules (now : Z) (d : DB) : exn + (DB * list (string * Z)) :=
  let skip sid s := slot_due now d sid s && ran_recently sid s now d in
  match try_schedules (λ sid s, if skip sid s then advance_next_run_at now s else inr s) (db_schedules d) with
  | inl e => inl e
  | inr m =>
      inr (d <| db_schedules := m |>,
           map (λ kv, (kv.1, next_run_at kv.2))
             (base.filter (λ kv, slot_due now d kv.1 kv.2 && negb (ran_recently kv.1 kv.2 now d) = true)
                (map_to_list (db_schedules d))))
  end.

(** [_reap_lapsed_runs]: a lapsed run that keeps its slot consumes it. *)
Fixpoint consume_kept (now : Z) (kept : list ScheduleRun) (m : gmap string Schedule) : exn + gmap string Schedule :=
  match kept with
  | [] => inr m
  | r :: kept =>
      match m !! schedule_id r with
      | Some s =>
          if negb (is_manual r) && bool_decide (slot_at r = Some (next_run_at s)) then
            match advance_next_run_at now s with
            | inl e => inl e
            | inr s => consume_kept now kept (<[schedule_id r := s]> m)
            end
          else consume_kept now kept m
      | None => consume_kept now kept m
      end
  end.
Definition reap_lapsed (now : Z) (d : DB) : exn + DB :=
  let '(d, kept) := reap_lapsed_runs now LAPSED_RUN_ERROR d in
  match consume_kept now kept (db_schedules d) with
  | inl e => inl e
  | inr m => inr (d <| db_schedules := m |>)
  end.

(** [_poll], with the time of each of its parts. *)
Definition poll (now1 now2 now3 : Z) (d : DB) : exn + (DB * list (string * Z)) :=
  match reap_lapsed now1 d with
  | inl e => inl e
  | inr d =>
      match handle_missed_runs now2 d with
      | inl e => inl e
      | inr d => due_schedules now3 d
      end
  end.

(** ** The units of a run *)

(** [_record_turn_outcome]: the tables, the run's status and error. *)
Definition record_turn_outcome (sid : string) (reason : option string) (manual : bool) (conversation : string)
    (now : Z) (d : DB) : exn + (DB * option ScheduleRunStatus * option string) :=
  match db_schedules d !! sid with
  | None => inl (ValueError "Schedule not found")
  | Some s =>
      let '(s, st, e) :=
        if bool_decide (reason = Some "cancelled") then (s, Some run_cancelled, None)
        else if bool_decide (reason ≠ None ∧ reason ≠ Some "completed")
        then (s <| last_error := Some INCOMPLETE_RUN_ERROR |>, Some run_failed, Some INCOMPLETE_RUN_ERROR)
        else (s <| last_run_at := Some now |> <| last_result_conversation_id := still_exists (Some conversation) d |>
                <| last_error := None |> <| missed_runs := 0%Z |>, None, None) in
      match (if manual then inr s else advance_next_run_at now s) with
      | inl e => inl e
      | inr s => inr (d <| db_schedules := <[sid := s]> (db_schedules d) |>, st, e)
      end
  end.

(** [_record_schedule_error]: whether it consumed the slot. *)
Definition record_schedule_error (sid e : string) (consume_slot : bool) (now : Z) (d : DB) : exn + (DB * bool) :=
  match db_schedules d !! sid with
  | None => inl (ValueError "Schedule not found")
  | Some s =>
      let s := s <| last_error := Some e |> in
      let consumed := consume_slot && enabled s in
      match (if consumed then advance_next_run_at now s else inr s) with
      | inl e => inl e
      | inr s => inr (d <| db_schedules := <[sid := s]> (db_schedules d) |>, consumed)
      end
  end.

(** ** One run, [execute_schedule] *)

Inductive exec_point :=
  | Reading                                                      (* [_read_schedule], the permission check *)
  | Linking                                                      (* [_link_conversation] *)
  | InTurn                                                       (* [_drain_run] *)
  | Recording (reason : option string)                           (* [_record_turn_outcome] *)
  | Failing (e : string) (consume_slot : bool)                   (* [_record_schedule_error] *)
  | Finishing (e : option string) (st : option ScheduleRunStatus) (consumed : bool)   (* [_finish_run] *)
  | Ended.

Record Exec := {
  ex_run : string;
  ex_schedule : string;
  ex_slot : option Z;
  ex_manual : bool;
  ex_conversation : option string;
  ex_at : exec_point;
  ex_turn : bool;            (* [turn_started] *)
}.
#[export] Instance fields_Exec : Fields Exec := λ x, {|
  ex_run := ex_run x; ex_schedule := ex_schedule x; ex_slot := ex_slot x; ex_manual := ex_manual x;
  ex_conversation := ex_conversation x; ex_at := ex_at x; ex_turn := ex_turn x |}.

(** What the awaited thing at the run's point did: it worked, the turn ended
    with a reason, the turn was refused for a shutdown, it raised (a transient
    error is a full pool or an unavailable permission service), or the run was
    cancelled. *)
Inductive exec_event :=
  | Works
  | CorruptRow (e : string)
  | TurnEnds (reason : option string)
  | TurnRefused (conversation_deleted : bool)
  | Raises (e : string) (transient : bool)
  | Cancelled.

(** [_link_conversation]; [None] is [RunClaimLost]. *)
Definition link_conversation (run_id new_conversation : string) (conversation : option string) (d : DB) :
    option (DB * string) :=
  if negb (still_running run_id d) then None
  else
    let '(d, c) := match conversation with
                   | Some c => (d, c)
                   | None => (d <| db_conversations := {[new_conversation]} ∪ db_conversations d |>, new_conversation)
                   end in
    let '(d, linked) := set_run_conversation run_id c d in
    if linked then Some (d, c) else None.

(** The handlers of the [try]: an exception and a cancel. *)
Definition on_raise (x : Exec) (e : string) (transient : bool) : exec_point :=
  Failing e (negb (ex_manual x) && negb (negb (ex_turn x) && transient)).
Definition on_cancel : exec_point := Finishing (Some INTERRUPTED_RUN_ERROR) None false.

(** One unit of a run. *)
Definition exec_step (now : Z) (new_conversation : string) (ev : exec_event) (x : Exec) (d : DB) : DB * Exec :=
  match ex_at x, ev with
  | Ended, _ => (d, x)
  | Finishing e st consumed, Works =>
      let release := bool_decide (ex_slot x ≠ None) && negb consumed in
      (default d (finish_run (ex_run x) (ex_conversation x) e st release now d), x <| ex_at := Ended |>)
  | Finishing _ _ _, _ => (d, x <| ex_at := Ended |>)
  | Failing e consume, Works =>
      match record_schedule_error (ex_schedule x) e consume now d with
      | inr (d, consumed) => (d, x <| ex_at := Finishing (Some e) None consumed |>)
      | inl _ => (d, x <| ex_at := Finishing (Some e) None false |>)
      end
  | Failing e _, _ => (d, x <| ex_at := Finishing (Some e) None false |>)
  | _, Cancelled => (d, x <| ex_at := on_cancel |>)
  | Reading, CorruptRow e =>
      (match db_schedules d !! ex_schedule x with
       | Some s => d <| db_schedules := <[ex_schedule x := s <| enabled := false |>]> (db_schedules d) |>
       | None => d
       end, x <| ex_at := on_raise x e false |>)
  | _, Raises e transient => (d, x <| ex_at := on_raise x e transient |>)
  | Reading, _ => (d, x <| ex_at := Linking |>)
  | Linking, _ =>
      match link_conversation (ex_run x) new_conversation (ex_conversation x) d with
      | None => (d, x <| ex_at := Finishing (Some LAPSED_RUN_ERROR) None false |>)
      | Some (d, c) => (d, x <| ex_conversation := Some c |> <| ex_at := InTurn |> <| ex_turn := true |>)
      end
  | InTurn, TurnRefused deleted =>
      ((if deleted : bool then from_option (λ c, delete_conversation c d) d (ex_conversation x) else d),
       x <| ex_conversation := if deleted then None else ex_conversation x |>
         <| ex_at := Finishing (Some SHUTDOWN_RUN_ERROR) None false |>)
  | InTurn, TurnEnds reason => (d, x <| ex_at := Recording reason |>)
  | InTurn, _ => (d, x <| ex_at := Recording None |>)
  | Recording reason, _ =>
      match record_turn_outcome (ex_schedule x) reason (ex_manual x) (default "" (ex_conversation x)) now d with
      | inr (d, st, e) => (d, x <| ex_at := Finishing e st (negb (ex_manual x)) |>)
      | inl e => (d, x <| ex_at := on_raise x (exn_str e) false |>)
      end
  end.

(** ** The replicas together *)

Record Sys := {
  sys_db : DB;
  sys_execs : list Exec;
  sys_given : list string;     (* the runs that decided to give their slot back, were reaped at boot, or
                                  lost their conversation *)
}.

Definition gives_back (x : Exec) : bool := match ex_at x with Finishing _ _ false => true | _ => false end.

(** The runs of a conversation, by their rows and by their processes. *)
Definition conversation_runs (c : string) (s : Sys) : list string :=
  map fst (base.filter (λ kv, run_conversation kv.2 = Some c) (map_to_list (db_runs (sys_db s)))) ++
  map ex_run (base.filter (λ x, ex_conversation x = Some c) (sys_execs s)).

(** The conversation a unit deletes: the empty one of a refused turn. *)
Definition deletes (ev : exec_event) (x : Exec) : option string :=
  match ex_at x, ev with InTurn, TurnRefused true => ex_conversation x | _, _ => None end.

(** A start, by a poll for a slot or by a user (the id of its row is new); a
    unit of a run; a poll; a renewal of a lease; a boot; an edit of the
    schedules; the deletion of a conversation. *)
Inductive sys_step (s : Sys) : Sys → Prop :=
  | sys_start run_id sid manual slot conversation now d :
      db_runs (sys_db s) !! run_id = None → (slot ≠ None → manual = false ∧ conversation = None) →
      create_run run_id sid manual slot (Some RUN_LEASE_SECONDS) now (sys_db s) = Some d →
      sys_step s {| sys_db := d; sys_given := sys_given s;
        sys_execs := sys_execs s ++ [{| ex_run := run_id; ex_schedule := sid; ex_slot := slot; ex_manual := manual;
          ex_conversation := conversation; ex_at := Reading; ex_turn := false |}] |}
  | sys_exec i x now c ev d x' :
      sys_execs s !! i = Some x → exec_step now c ev x (sys_db s) = (d, x') →
      sys_step s {| sys_db := d; sys_execs := <[i := x']> (sys_execs s);
        sys_given := from_option (λ c, conversation_runs c s) [] (deletes ev x) ++
                     (if gives_back x' then ex_run x :: sys_given s else sys_given s) |}
  | sys_delete c :
      sys_step s {| sys_db := delete_conversation c (sys_db s); sys_execs := sys_execs s;
        sys_given := conversation_runs c s ++ sys_given s |}
  | sys_poll now1 now2 now3 d due :
      poll now1 now2 now3 (sys_db s) = inr (d, due) →
      sys_step s {| sys_db := d; sys_execs := sys_execs s; sys_given := sys_given s |}
  | sys_renew run_id now :
      sys_step s {| sys_db := (renew_lease run_id RUN_LEASE_SECONDS now (sys_db s)).1;
        sys_execs := sys_execs s; sys_given := sys_given s |}
  | sys_boot e started_before now :
      sys_step s {| sys_db := reap_orphaned_runs e started_before now (sys_db s); sys_execs := sys_execs s;
        sys_given := map fst (base.filter (λ kv, orphaned started_before kv.2 = true) (map_to_list (db_runs (sys_db s))))
                     ++ sys_given s |}
  | sys_user m :
      sys_step s {| sys_db := (sys_db s) <| db_schedules := m |>; sys_execs := sys_execs s; sys_given := sys_given s |}.

(** How the rows of the runs evolve; a run in [given] may lose its slot. *)
Record row_evolves (given : list string) (run_id : string) (r r' : ScheduleRun) : Prop := {
  re_schedule : schedule_id r' = schedule_id r;
  re_slot : slot_at r' = slot_at r ∨ slot_at r' = None;
  re_running : status r' = run_running → status r = run_running ∧ slot_at r' = slot_at r;
  re_linked : run_id ∉ given → slot_at r ≠ None → run_conversation r ≠ None →
    slot_at r' = slot_at r ∧ run_conversation r' ≠ None;
}.

Definition rows_evolve (given : list string) (d d' : DB) : Prop :=
  ∀ k, option_Forall2 (row_evolves given k) (db_runs d !! k) (db_runs d' !! k).

Record runs_evolve (given : list string) (d d' : DB) : Prop := {
  rv_rows : rows_evolve given d d';
  rv_conversations : db_conversations d ⊆ db_conversations d';
}.

Lemma row_evolves_refl given k r : row_evolves given k r r.
Proof. split; auto. Qed.

Lemma option_evolves_refl given k o : option_Forall2 (row_evolves given k) o o.
Proof. destruct o; constructor. apply row_evolves_refl. Qed.

(** Units that rewrite schedules only. *)
Lemma same_runs_evolve given d d' :
  db_runs d' = db_runs d → db_conversations d ⊆ db_conversations d' → runs_evolve given d d'.
Proof. intros Hr Hc. split; [|done]. intros k. rewrite Hr. apply option_evolves_refl. Qed.

(** Units that rewrite one row, and units that rewrite all rows. *)
Lemma insert_evolves given d d' k r r' :
  db_runs d !! k = Some r → db_runs d' = <[k := r']> (db_runs d) → db_conversations d ⊆ db_conversations d' →
  row_evolves given k r r' → runs_evolve given d d'.
Proof.
  intros Hk Hr Hc Hrow. split; [|done]. intros j. rewrite Hr. destruct (decide (j = k)) as [->|Hne].
  - rewrite lookup_insert_eq, Hk. by constructor.
  - rewrite lookup_insert_ne by done. apply option_evolves_refl.
Qed.

Lemma fmap_evolves given d d' f :
  db_runs d' = f <$> db_runs d → db_conversations d ⊆ db_conversations d' →
  (∀ k r, db_runs d !! k = Some r → row_evolves given k r (f r)) → runs_evolve given d d'.
Proof.
  intros Hr Hc Hrow. split; [|done]. intros j. rewrite Hr, lookup_fmap.
  destruct (db_runs d !! j) as [r|] eqn:Hj; cbn; constructor. by apply Hrow.
Qed.

Lemma renew_evolves given run_id l now d : runs_evolve given d (renew_lease run_id l now d).1.
Proof.
  unfold renew_lease. destruct (db_runs d !! run_id) as [r|] eqn:Hr; [|by apply same_runs_evolve].
  case_bool_decide; [|by apply same_runs_evolve]. eapply insert_evolves; [exact Hr|reflexivity|done|]. split; cbn; auto.
Qed.

Lemma reap_lapsed_runs_evolve given now e d : runs_evolve given d (reap_lapsed_runs now e d).1.
Proof.
  eapply fmap_evolves; cbn; [reflexivity|done|]. intros k r _. cbn beta. destruct (lapsed now r); [|apply row_evolves_refl].
  unfold reaped_run. cbn. destruct (run_conversation r) eqn:Hc; split; cbn; rewrite ?Hc; auto; done.
Qed.

Lemma boot_evolves given e before now d :
  (∀ k r, db_runs d !! k = Some r → orphaned before r = true → k ∈ given) →
  runs_evolve given d (reap_orphaned_runs e before now d).
Proof.
  intros Hgiven. eapply fmap_evolves; cbn; [reflexivity|done|]. intros k r Hk. cbn beta.
  destruct (orphaned before r) eqn:Ho; [|apply row_evolves_refl]. split; cbn; auto; [done|].
  intros Hn. by destruct (Hn (Hgiven k r Hk Ho)).
Qed.

Lemma poll_evolves given now1 now2 now3 d d' due : poll now1 now2 now3 d = inr (d', due) → runs_evolve given d d'.
Proof.
  unfold poll, reap_lapsed, handle_missed_runs, due_schedules. intros Hp.
  pose proof (reap_lapsed_runs_evolve given now1 LAPSED_RUN_ERROR d) as [Hrows Hconv].
  destruct (reap_lapsed_runs now1 LAPSED_RUN_ERROR d) as [d1 kept]. cbn in *.
  repeat (case_match; simplify_eq; try done).
Qed.

(** ** The invariant *)

(** What the row of a run tells about the process that runs it. *)
Record exec_ok (given : list string) (d : DB) (x : Exec) : Prop := {
  xo_row : ∃ r, db_runs d !! ex_run x = Some r ∧ schedule_id r = ex_schedule x ∧
    (slot_at r = ex_slot x ∨ slot_at r = None) ∧
    (ex_run x ∉ given → status r = run_running → slot_at r = ex_slot x) ∧
    (ex_run x ∉ given → ex_turn x = true → ex_slot x ≠ None → slot_at r = ex_slot x ∧ run_conversation r ≠ None);
  xo_conversation : ex_run x ∉ given → ex_slot x ≠ None → if ex_turn x then ∃ c, ex_conversation x = Some c ∧ c ∈ db_conversations d
                                       else ex_conversation x = None;
  xo_gives : gives_back x = true → ex_run x ∈ given;
  xo_status : ∀ e st consumed, ex_at x = Finishing e (Some st) consumed → st ≠ run_running;
}.

Record sys_ok (s : Sys) : Prop := {
  so_index : ∀ k k' r r' slot, db_runs (sys_db s) !! k = Some r → db_runs (sys_db s) !! k' = Some r' →
    schedule_id r = schedule_id r' → slot_at r = Some slot → slot_at r' = Some slot → k = k';
  so_execs : ∀ i x, sys_execs s !! i = Some x → exec_ok (sys_given s) (sys_db s) x;
  so_distinct : ∀ i j x y, sys_execs s !! i = Some x → sys_execs s !! j = Some y → ex_run x = ex_run y → i = j;
}.

Lemma exec_ok_rows given given' d d' x :
  given ⊆ given' → rows_evolve given' d d' →
  (∀ c, ex_run x ∉ given' → ex_conversation x = Some c → c ∈ db_conversations d → c ∈ db_conversations d') →
  exec_ok given d x → exec_ok given' d' x.
Proof.
  intros Hsub Hrows Hconv [(r & Hr & Hs & Hslot & Hrun & Hlink) Hc Hg Hst]. specialize (Hrows (ex_run x)).
  rewrite Hr in Hrows. inversion Hrows as [? r' [Es Esl Er El] Hr0 Hr'|]; subst. split.
  - exists r'. rewrite Es. split_and!; [done|done| | |].
    + destruct Esl as [-> | ->]; auto.
    + intros Hn Hrun'. destruct (Er Hrun') as [? ->]. apply Hrun; [|done]. set_solver.
    + intros Hn Ht Hne. destruct (Hlink ltac:(set_solver) Ht Hne) as [Heq Hne']. rewrite <- Heq. apply El; [done| |done]. by rewrite Heq.
  - intros Hn Hne. specialize (Hc ltac:(set_solver) Hne). destruct (ex_turn x); [|done].
    destruct Hc as (c & Hcx & Hin). eauto.
  - intros H. apply Hsub. auto.
  - done.
Qed.

Lemma exec_ok_evolves given given' d d' x :
  given ⊆ given' → runs_evolve given' d d' → exec_ok given d x → exec_ok given' d' x.
Proof. intros Hsub [Hrows Hconv]. apply exec_ok_rows; [done|done|]. set_solver. Qed.

Definition index_ok (d : DB) : Prop :=
  ∀ k k' r r' slot, db_runs d !! k = Some r → db_runs d !! k' = Some r' →
    schedule_id r = schedule_id r' → slot_at r = Some slot → slot_at r' = Some slot → k = k'.

Lemma index_evolves given d d' : rows_evolve given d d' → index_ok d → index_ok d'.
Proof.
  intros Hrows Hidx k k' r r' slot Hk Hk' Hs Hsl Hsl'. pose proof (Hrows k) as R. pose proof (Hrows k') as R'.
  rewrite Hk in R. rewrite Hk' in R'. inversion R as [r0 ? [E1 E2 _ _] Hr0|]; subst. inversion R' as [r0' ? [E1' E2' _ _] Hr0'|]; subst.
  apply (Hidx k k' r0 r0' slot); [done|done|congruence| |]; destruct E2, E2'; congruence.
Qed.

(** Deleting a conversation only matters to its own runs. *)
Lemma delete_evolves given c d :
  (∀ k r, db_runs d !! k = Some r → run_conversation r = Some c → k ∈ given) →
  rows_evolve given d (delete_conversation c d).
Proof.
  intros Hgiven k. cbn. rewrite lookup_fmap. destruct (db_runs d !! k) as [r|] eqn:Hk; cbn; constructor.
  case_bool_decide as Hc; [|apply row_evolves_refl]. specialize (Hgiven k r Hk Hc). by split; auto.
Qed.

Lemma elem_of_conversation_runs c s :
  (∀ k r, db_runs (sys_db s) !! k = Some r → run_conversation r = Some c → k ∈ conversation_runs c s) ∧
  (∀ i x, sys_execs s !! i = Some x → ex_conversation x = Some c → ex_run x ∈ conversation_runs c s).
Proof.
  unfold conversation_runs. split.
  - intros k r Hk Hc. apply elem_of_app. left. apply list_elem_of_fmap. exists (k, r). split; [done|].
    apply list_elem_of_filter. split; [done|]. by apply elem_of_map_to_list.
  - intros i x Hx Hc. apply elem_of_app. right. apply list_elem_of_fmap. exists x. split; [done|].
    apply list_elem_of_filter. split; [done|]. by eapply list_elem_of_lookup_2.
Qed.

(** The runs that have given their slot back once [x] is at its point. *)
Definition given_after (x : Exec) (given : list string) : list string :=
  if gives_back x then ex_run x :: given else given.

Lemma given_after_sub x given : given ⊆ given_after x given.
Proof. unfold given_after. destruct (gives_back x); set_solver. Qed.

(** A step that only moves the process. *)
Lemma exec_move given d x p :
  exec_ok given d x → (∀ e st consumed, p = Finishing e (Some st) consumed → st ≠ run_running) →
  exec_ok (given_after (x <| ex_at := p |>) given) d (x <| ex_at := p |>).
Proof.
  intros Hx Hp. apply (exec_ok_evolves given (given_after (x <| ex_at := p |>) given) d d) in Hx as [Hrow Hc _ _];
    [|apply given_after_sub|by apply same_runs_evolve].
  split; try done. intros Hg. unfold given_after in *. rewrite Hg. cbn. set_solver.
Qed.

Lemma finish_evolves given d x e st consumed now d' :
  exec_ok given d x → ex_at x = Finishing e st consumed →
  finish_run (ex_run x) (ex_conversation x) e st (bool_decide (ex_slot x ≠ None) && negb consumed) now d = Some d' →
  runs_evolve given d d'.
Proof.
  intros [(r & Hr & Hs & Hslot & Hrun & Hlink) Hc Hg Hst] Hat. unfold finish_run. rewrite Hr. intros [= <-].
  eapply insert_evolves; [exact Hr|reflexivity|done|].
  assert (default (if truthy_opt e then run_failed else run_success) st ≠ run_running) as Hnot.
  { destruct st as [st|]; cbn; [by eapply Hst|]. by destruct (truthy_opt e). }
  assert (bool_decide (ex_slot x ≠ None) && negb consumed = true → ex_run x ∈ given) as Hrel.
  { intros [_ Hn]%andb_true_iff. apply Hg. unfold gives_back. rewrite Hat. by destruct consumed. }
  assert (ex_run x ∉ given → slot_at r ≠ None → ∀ c, ex_conversation x = Some c → c ∈ db_conversations d) as Hin.
  { intros Hn Hne c Hcx. assert (ex_slot x ≠ None) as Hne' by (destruct Hslot; congruence).
    specialize (Hc Hn Hne'). rewrite Hcx in Hc. destruct (ex_turn x); [|done]. by destruct Hc as (? & [= <-] & ?). }
  destruct (bool_decide (ex_slot x ≠ None) && negb consumed).
  - split; [by destruct (ex_conversation x)|right; by destruct (ex_conversation x)| |].
    + intros H. exfalso. apply Hnot. rewrite <- H. by destruct (ex_conversation x).
    + intros Hn. by destruct (Hn (Hrel eq_refl)).
  - split; [by destruct (ex_conversation x)|left; by destruct (ex_conversation x)| |].
    + intros H. exfalso. apply Hnot. rewrite <- H. by destruct (ex_conversation x).
    + intros Hn Hne Hconv. split; [by destruct (ex_conversation x)|]. destruct (ex_conversation x) as [c|] eqn:Hcx; cbn; [|done].
      by rewrite bool_decide_true by (by apply Hin).
Qed.

Lemma link_evolves given d x new d' c :
  exec_ok given d x → link_conversation (ex_run x) new (ex_conversation x) d = Some (d', c) →
  runs_evolve given d d' ∧
  exec_ok given d' (x <| ex_conversation := Some c |> <| ex_at := InTurn |> <| ex_turn := true |>).
Proof.
  intros [(r & Hr & Hs & Hslot & Hrun & Hlink) Hc Hg Hst]. unfold link_conversation, still_running. rewrite Hr.
  case_bool_decide as Hst'; cbn [negb]; [|done].
  set (d1 := match ex_conversation x with Some c => (d, c) | None => (d <| db_conversations := {[new]} ∪ db_conversations d |>, new) end).
  assert (db_runs d1.1 = db_runs d ∧ db_conversations d ⊆ db_conversations d1.1 ∧ (ex_run x ∉ given → ex_slot x ≠ None → d1.2 ∈ db_conversations d1.1)) as (Hruns & Hsub & Hin).
  { subst d1. destruct (ex_conversation x) as [c0|] eqn:Hcx; cbn.
    - split_and!; try done. intros Hn Hne. specialize (Hc Hn Hne). destruct (ex_turn x); [|done]. by destruct Hc as (? & [= <-] & ?).
    - split_and!; [done|set_solver|set_solver]. }
  destruct d1 as [d1 c1]. cbn in *. unfold set_run_conversation. rewrite Hruns, Hr, bool_decide_true by done. intros [= <- <-].
  split.
  - eapply insert_evolves; [exact Hr|reflexivity|done|]. split; cbn; auto.
    intros Hn Hne _. split; [done|]. rewrite bool_decide_true; [done|]. apply Hin; [done|]. destruct Hslot; congruence.
  - split; cbn; [|eauto|done|done]. eexists. rewrite lookup_insert_eq. split; [reflexivity|]. cbn.
    split_and!; try done. intros Hn _ Hne. split; [by apply Hrun|]. by rewrite bool_decide_true by (by apply Hin).
Qed.

Lemma record_outcome_status sid reason manual c now d d' st e :
  record_turn_outcome sid reason manual c now d = inr (d', Some st, e) → st ≠ run_running.
Proof. unfold record_turn_outcome. intros H. repeat (case_match; simplify_eq; try done). Qed.

Lemma record_outcome_runs sid reason manual c now d r :
  record_turn_outcome sid reason manual c now d = inr r → db_runs r.1.1 = db_runs d ∧ db_conversations r.1.1 = db_conversations d.
Proof. unfold record_turn_outcome. intros H. repeat (case_match; simplify_eq; try done). Qed.

Lemma record_error_runs sid e consume now d r :
  record_schedule_error sid e consume now d = inr r → db_runs r.1 = db_runs d ∧ db_conversations r.1 = db_conversations d.
Proof. unfold record_schedule_error. intros H. repeat (case_match; simplify_eq; try done). Qed.

(** A unit of a run leaves its own row and the others as they must be. *)
Lemma exec_step_ok given now c ev x d d' x' :
  exec_ok given d x → ¬ (ex_at x = InTurn ∧ ev = TurnRefused true) → exec_step now c ev x d = (d', x') →
  ex_run x' = ex_run x ∧ runs_evolve (given_after x' given) d d' ∧ exec_ok (given_after x' given) d' x'.
Proof.
  intros Hx Hev Hstep.
  assert (∀ p d1, db_runs d1 = db_runs d → db_conversations d1 = db_conversations d →
    (∀ e st consumed, p = Finishing e (Some st) consumed → st ≠ run_running) →
    ex_run (x <| ex_at := p |>) = ex_run x ∧ runs_evolve (given_after (x <| ex_at := p |>) given) d d1 ∧
    exec_ok (given_after (x <| ex_at := p |>) given) d1 (x <| ex_at := p |>)) as Hmove.
  { intros p d1 Hr Hc Hp. assert (runs_evolve (given_after (x <| ex_at := p |>) given) d d1) as He
      by (apply same_runs_evolve; [done|by rewrite Hc]).
    split_and!; [done|done|]. eapply exec_ok_evolves; [|exact He|by apply exec_move]. done. }
  assert (∀ p d1, (d1, x <| ex_at := p |>) = (d', x') → db_runs d1 = db_runs d → db_conversations d1 = db_conversations d →
    (∀ e st consumed, p = Finishing e (Some st) consumed → st ≠ run_running) →
    ex_run x' = ex_run x ∧ runs_evolve (given_after x' given) d d' ∧ exec_ok (given_after x' given) d' x') as Hto.
  { intros p d1 [= <- <-]. apply Hmove. }
  unfold exec_step, on_raise, on_cancel in Hstep. destruct (ex_at x) as [| | |reason|e consume|e st consumed|] eqn:Hat.
  - destruct ev; apply Hto in Hstep; done || (by destruct (db_schedules d !! ex_schedule x)).
  - assert (match link_conversation (ex_run x) c (ex_conversation x) d with
            | None => (d, x <| ex_at := Finishing (Some LAPSED_RUN_ERROR) None false |>)
            | Some (d, c) => (d, x <| ex_conversation := Some c |> <| ex_at := InTurn |> <| ex_turn := true |>)
            end = (d', x') → ex_run x' = ex_run x ∧ runs_evolve (given_after x' given) d d' ∧ exec_ok (given_after x' given) d' x') as Hlink.
    { destruct (link_conversation _ _ _ _) as [[d1 c1]|] eqn:Hl; intros H; [|by apply Hto in H]. injection H as <- <-.
      destruct (link_evolves given d x c d1 c1 Hx Hl). by split. }
    destruct ev; try (apply Hlink, Hstep); apply Hto in Hstep; done.
  - destruct ev as [| |reason|[]|e transient|]; try (by destruct Hev); apply Hto in Hstep; done.
  - assert (∀ r, record_turn_outcome (ex_schedule x) reason (ex_manual x) (default "" (ex_conversation x)) now d = r →
      match r with
      | inr (d, st, e) => (d, x <| ex_at := Finishing e st (negb (ex_manual x)) |>)
      | inl e => (d, x <| ex_at := Failing (exn_str e) (negb (ex_manual x) && negb (negb (ex_turn x) && false)) |>)
      end = (d', x') → ex_run x' = ex_run x ∧ runs_evolve (given_after x' given) d d' ∧ exec_ok (given_after x' given) d' x') as Hrec.
    { intros [e|[[d1 st] e]] Hr H; [by apply Hto in H|]. destruct (record_outcome_runs _ _ _ _ _ _ _ Hr).
      apply Hto in H; try done. intros e' st' cons [= -> -> _]. by eapply record_outcome_status. }
    destruct ev; try (eapply Hrec; [reflexivity|exact Hstep]); apply Hto in Hstep; done.
  - destruct ev; try (apply Hto in Hstep; done).
    destruct (record_schedule_error _ _ _ _ _) as [|[d1 b]] eqn:Hr; [by apply Hto in Hstep|].
    destruct (record_error_runs _ _ _ _ _ _ Hr). by apply Hto in Hstep.
  - destruct ev; try (apply Hto in Hstep; done). injection Hstep as <- <-.
    assert (given_after (x <| ex_at := Ended |>) given = given) as Hga by done. rewrite Hga. clear Hga.
    destruct (finish_run _ _ _ _ _ _ _) as [d1|] eqn:Hf; cbn [default]; [|by apply (Hmove Ended)].
    pose proof (finish_evolves given d x e st consumed now d1 Hx Hat Hf) as He. split_and!; [done|done|].
    eapply exec_ok_evolves; [reflexivity|exact He|]. by apply (Hmove Ended d).
  - injection Hstep as <- <-. assert (given_after x given = given) as -> by (unfold given_after, gives_back; by rewrite Hat).
    split_and!; [done|by apply same_runs_evolve|done].
Qed.

(** The turn of a run is refused and its empty conversation deleted: the run
    gives its slot back, and so do the others of that conversation. *)
Lemma exec_refused given now c x d d' x' :
  exec_ok given d x → ex_at x = InTurn → exec_step now c (TurnRefused true) x d = (d', x') →
  (∀ k r c0, ex_conversation x = Some c0 → db_runs d !! k = Some r → run_conversation r = Some c0 → k ∈ given) →
  d' = from_option (λ c, delete_conversation c d) d (ex_conversation x) ∧ ex_run x' = ex_run x ∧
  gives_back x' = true ∧ rows_evolve (given_after x' given) d d' ∧ exec_ok (given_after x' given) d' x'.
Proof.
  intros Hx Hat Hstep Hc. unfold exec_step in Hstep. rewrite Hat in Hstep. injection Hstep as <- <-.
  set (d' := from_option (λ c, delete_conversation c d) d (ex_conversation x)).
  set (x' := x <| ex_conversation := None |> <| ex_at := Finishing (Some SHUTDOWN_RUN_ERROR) None false |>).
  assert (Hg : given_after x' given = ex_run x :: given) by done.
  assert (Hev : rows_evolve (given_after x' given) d d').
  { unfold d'. destruct (ex_conversation x) as [c0|]; cbn; [|by apply same_runs_evolve].
    apply delete_evolves. intros k r Hk Hr. apply elem_of_cons. right. by eapply Hc. }
  split_and!; [done|done|done|done|].
  pose proof (exec_ok_rows given (given_after x' given) d d' x) as [Hrow Hconv Hgb Hst];
    [rewrite Hg; set_solver|done| |done|].
  { intros c0 Hn. destruct Hn. change (ex_run x ∈ given_after x' given). rewrite Hg. left. }
  split; [exact Hrow| | |done].
  - intros Hn. destruct Hn. change (ex_run x ∈ given_after x' given). rewrite Hg. left.
  - intros _. change (ex_run x ∈ given_after x' given). rewrite Hg. left.
Qed.

Lemma slot_holder_None sid slot d k r :
  slot_holder sid slot d = None → db_runs d !! k = Some r → schedule_id r = sid → slot_at r ≠ Some slot.
Proof.
  unfold slot_holder. intros Hn Hk Hs Hslot. apply fmap_None in Hn.
  assert (holds_slot sid slot r = false) as Hh.
  { apply (find_none _ _ Hn (k, r)). apply list_elem_of_In. by apply elem_of_map_to_list. }
  unfold holds_slot in Hh. by rewrite Hs, String.eqb_refl, bool_decide_true in Hh.
Qed.

(** A unit that keeps the rows of all runs. *)
Lemma evolve_ok s d given :
  sys_ok s → sys_given s ⊆ given → runs_evolve given (sys_db s) d →
  sys_ok {| sys_db := d; sys_execs := sys_execs s; sys_given := given |}.
Proof.
  intros [Hi He Hd] Hsub Hev. split; cbn; [by eapply index_evolves; [apply Hev|]| |done].
  intros i x Hx. eapply exec_ok_evolves; eauto.
Qed.

(** The units of one run, seen from the others. *)
Lemma exec_others s i x x' d given :
  sys_ok s → sys_execs s !! i = Some x → ex_run x' = ex_run x → exec_ok given d x' →
  rows_evolve given (sys_db s) d →
  (∀ j y, sys_execs s !! j = Some y → i ≠ j → exec_ok given d y) →
  sys_ok {| sys_db := d; sys_execs := <[i := x']> (sys_execs s); sys_given := given |}.
Proof.
  intros [Hi He Hd] Hx Hrun Hx' Hev Hothers. split; cbn; [by eapply index_evolves| |].
  - intros j y [(<- & <- & _)|[Hne Hy]]%list_lookup_insert_Some; [done|]. by eapply Hothers.
  - intros j k y z [(<- & <- & _)|[Hne Hy]]%list_lookup_insert_Some [(<- & <- & _)|[Hne' Hz]]%list_lookup_insert_Some; auto.
    + rewrite Hrun. intros Heq. by apply (Hd i k x z).
    + rewrite Hrun. intros Heq. by apply (Hd j i y x).
    + by apply Hd.
Qed.

Lemma start_ok s run_id sid manual slot conversation now d :
  sys_ok s → db_runs (sys_db s) !! run_id = None → (slot ≠ None → manual = false ∧ conversation = None) →
  create_run run_id sid manual slot (Some RUN_LEASE_SECONDS) now (sys_db s) = Some d →
  sys_ok {| sys_db := d; sys_given := sys_given s;
    sys_execs := sys_execs s ++ [{| ex_run := run_id; ex_schedule := sid; ex_slot := slot; ex_manual := manual;
      ex_conversation := conversation; ex_at := Reading; ex_turn := false |}] |}.
Proof.
  intros [Hi He Hd] Hnew Hslot. unfold create_run. case_match eqn:Hcl; [done|]. intros [= <-].
  assert (∀ x i, sys_execs s !! i = Some x → ex_run x ≠ run_id) as Hne.
  { intros x i Hx. destruct (He i x Hx) as [(r & Hr & _) _ _ _]. congruence. }
  assert (∀ k r s0, slot = Some s0 → db_runs (sys_db s) !! k = Some r → schedule_id r = sid → slot_at r ≠ Some s0) as Hfree.
  { intros k r s0 -> Hk. apply bool_decide_eq_false in Hcl. eapply slot_holder_None; [|exact Hk].
    by destruct (slot_holder sid s0 (sys_db s)); [destruct Hcl|]. }
  split; cbn.
  - intros k k' r r' s0. rewrite !lookup_insert_Some. intros [[<- <-]|[Hk1 Hk]] [[<- <-]|[Hk1' Hk']]; cbn; auto; [| |by eauto].
    + intros Hs -> Hs'. by destruct (Hfree k' r' s0 eq_refl Hk' (eq_sym Hs)).
    + intros Hs Hs' ->. by destruct (Hfree k r s0 eq_refl Hk Hs).
  - intros i x [Hx|[_ [_ <-]%list_lookup_singleton_Some]]%lookup_app_Some.
    + destruct (He i x Hx) as [(r & Hr & Hrest) Hc Hg Hst]. split; cbn; auto. exists r.
      rewrite lookup_insert_ne by (symmetry; by eapply Hne). auto.
    + split; cbn; [|naive_solver|done|done]. eexists. rewrite lookup_insert_eq. split; [done|]. cbn. auto.
  - intros i j x y [Hx|[Hix [Hx0 <-]%list_lookup_singleton_Some]]%lookup_app_Some
      [Hy|[Hjy [Hy0 <-]%list_lookup_singleton_Some]]%lookup_app_Some; cbn; [by eauto|..].
    + intros Heq. by destruct (Hne x i Hx).
    + intros Heq. by destruct (Hne y j Hy).
    + intros _. lia.
Qed.

Lemma delete_ok s c :
  sys_ok s → sys_ok {| sys_db := delete_conversation c (sys_db s); sys_execs := sys_execs s;
                       sys_given := conversation_runs c s ++ sys_given s |}.
Proof.
  intros [Hi He Hd]. destruct (elem_of_conversation_runs c s) as [Hrows Hexecs].
  assert (Hev : rows_evolve (conversation_runs c s ++ sys_given s) (sys_db s) (delete_conversation c (sys_db s))).
  { apply delete_evolves. intros k r Hk Hr. apply elem_of_app. left. by eapply Hrows. }
  split; [exact (index_evolves _ _ _ Hev Hi)| |exact Hd]. intros i x Hx.
  apply (exec_ok_rows (sys_given s) _ (sys_db s)); [set_solver|done| |by eauto].
  intros c0 Hn Hc0 Hin. cbn. assert (c0 ≠ c); [|set_solver]. intros ->. apply Hn, elem_of_app. left. by eapply Hexecs.
Qed.

Lemma exec_ok_step s i x now c ev d x' :
  sys_ok s → sys_execs s !! i = Some x → exec_step now c ev x (sys_db s) = (d, x') →
  sys_ok {| sys_db := d; sys_execs := <[i := x']> (sys_execs s);
    sys_given := from_option (λ c, conversation_runs c s) [] (deletes ev x) ++
                 (if gives_back x' then ex_run x :: sys_given s else sys_given s) |}.
Proof.
  intros Hok Hx Hstep. pose proof (so_execs s Hok i x Hx) as Hxo.
  assert (Hcase : (ex_at x = InTurn ∧ ev = TurnRefused true) ∨
    ¬ (ex_at x = InTurn ∧ ev = TurnRefused true) ∧ deletes ev x = None).
  { unfold deletes. destruct (ex_at x); try (right; split; [by intros [? _]|done]).
    destruct ev as [| | |[]| |]; try (right; split; [by intros [_ ?]|done]). by left. }
  destruct Hcase as [[Hat ->]|[Hno ->]].
  - assert (Hdel : deletes (TurnRefused true) x = ex_conversation x) by (unfold deletes; by rewrite Hat). rewrite Hdel.
    set (lost := from_option (λ c, conversation_runs c s) [] (ex_conversation x)).
    assert (Hsub : sys_given s ⊆ lost ++ sys_given s) by set_solver.
    assert (Hxo' : exec_ok (lost ++ sys_given s) (sys_db s) x).
    { eapply exec_ok_evolves; [exact Hsub|by apply same_runs_evolve|done]. }
    destruct (exec_refused _ now c x (sys_db s) d x' Hxo' Hat Hstep) as (Hd & Hrun & Hgb & Hev & Hx').
    { intros k r c0 Hc0 Hk Hr. unfold lost. rewrite Hc0. apply elem_of_app. left.
      by eapply (proj1 (elem_of_conversation_runs c0 s)). }
    assert (Hga : given_after x' (lost ++ sys_given s) ⊆ lost ++ ex_run x :: sys_given s).
    { unfold given_after. rewrite Hgb, Hrun. set_solver. }
    rewrite Hgb. assert (Hev' : rows_evolve (lost ++ ex_run x :: sys_given s) (sys_db s) d).
    { intros k. specialize (Hev k). inversion Hev as [r1 r2 [? ? ? El]|]; constructor. split; [done..|]. set_solver. }
    apply (exec_others s i x); [done|done|done| |done|].
    + eapply exec_ok_evolves; [exact Hga|by apply same_runs_evolve|done].
    + intros j y Hy _. apply (exec_ok_rows (sys_given s) _ (sys_db s)); [set_solver|done| |by eapply so_execs].
      intros c0 Hn Hc0 Hin. rewrite Hd. destruct (ex_conversation x) as [c1|] eqn:Hc1; [|done]. cbn.
      assert (c0 ≠ c1); [|set_solver]. intros ->. apply Hn, elem_of_app. left. unfold lost. cbn.
      by eapply (proj2 (elem_of_conversation_runs c1 s)).
  - cbn [from_option app].
    destruct (exec_step_ok (sys_given s) now c ev x (sys_db s) d x' Hxo Hno Hstep) as (Hrun & Hevo & Hx').
    assert ((if gives_back x' then ex_run x :: sys_given s else sys_given s) = given_after x' (sys_given s)) as ->
      by (unfold given_after; by rewrite Hrun).
    apply (exec_others s i x); [done|done|done|done|apply Hevo|].
    intros j y Hy _. eapply exec_ok_evolves; [apply given_after_sub|done|by eapply so_execs].
Qed.

Lemma sys_step_ok s s' : sys_ok s → sys_step s s' → sys_ok s'.
Proof.
  intros Hok [].
  - by eapply start_ok.
  - by eapply exec_ok_step.
  - apply delete_ok. done.
  - apply evolve_ok; [done|done|]. by eapply poll_evolves.
  - apply evolve_ok; [done|done|]. apply renew_evolves.
  - apply evolve_ok; [done|set_solver|]. apply boot_evolves. intros k r Hk Ho.
    apply elem_of_app. left. apply list_elem_of_fmap. exists (k, r). split; [done|].
    apply list_elem_of_filter. split; [done|]. by apply elem_of_map_to_list.
  - apply evolve_ok; [done|done|]. by apply same_runs_evolve.
Qed.

Lemma sys_history_ok s s' : sys_ok s → rtc sys_step s s' → sys_ok s'.
Proof. intros Hok Hs. induction Hs; eauto using sys_step_ok. Qed.

(** ** Theorems *)

(** No replica has run anything yet. *)
Definition fresh_sys (schedules : gmap string Schedule) (conversations : gset string) : Sys := {|
  sys_db := {| db_schedules := schedules; db_runs := ∅; db_conversations := conversations |};
  sys_execs := []; sys_given := [] |}.

Lemma fresh_sys_ok schedules conversations : sys_ok (fresh_sys schedules conversations).
Proof. split; cbn; intros *; rewrite ?lookup_empty; done. Qed.

(** C11: A cron slot starts one turn.  In every history of any number of replicas,
    with polls, lapsed and renewed leases, boots, edits of the schedules and
    deletions of conversations interleaved between the units of the runs, two
    runs of the same schedule and slot that both started their turn are the same
    run, unless one of them had given its slot back (a shutdown cut it, or its
    error could not be recorded), was reaped by age at a boot, or had its
    conversation deleted ([deleted_chat_frees_slot] shows that such a slot can
    run again). *)
Theorem slot_turn_once schedules conversations s i j x y slot :
  rtc sys_step (fresh_sys schedules conversations) s →
  sys_execs s !! i = Some x → sys_execs s !! j = Some y →
  ex_schedule x = ex_schedule y → ex_slot x = Some slot → ex_slot y = Some slot →
  ex_turn x = true → ex_turn y = true → ex_run x ∉ sys_given s → ex_run y ∉ sys_given s → i = j.
Proof.
  intros Hs Hx Hy Hsch Hsx Hsy Htx Hty Hgx Hgy.
  destruct (sys_history_ok _ _ (fresh_sys_ok schedules conversations) Hs) as [Hi He Hd].
  destruct (He i x Hx) as [(r & Hr & Hsr & _ & _ & Hlx) _ _ _].
  destruct (He j y Hy) as [(r' & Hr' & Hsr' & _ & _ & Hly) _ _ _].
  destruct (Hlx Hgx Htx ltac:(congruence)) as [Hslx _]. destruct (Hly Hgy Hty ltac:(congruence)) as [Hsly _].
  apply (Hd i j x y Hx Hy). by apply (Hi _ _ r r' slot); congruence.
Qed.

(** The catch-up of a poll neither loses an occurrence silently nor fires a
    backlog: a schedule that is one occurrence late stays due; a recurring one
    that is several late moves to its first occurrence after [now] with all of
    them counted in [missed_runs]; a one-off late by more than the catch-up
    window is disabled and counted; nothing else changes.  Afterwards no enabled
    recurring schedule is more than one occurrence late. *)
Theorem settle_missed_spec now s :
  zones_ok → (now - next_run_at s < 2 ^ 64 - 1)%Z →
  ∃ s', settle_missed now s = inr s' ∧
    (s' = s ∨
     (cadence s = once ∧ enabled s = true ∧ (ONCE_CATCHUP_WINDOW_SECONDS * SECOND < now - next_run_at s)%Z ∧
        s' = s <| missed_runs := (missed_runs s + 1)%Z |> <| enabled := false |>) ∨
     (∃ missed future, (2 ≤ missed)%nat ∧ enabled s = true ∧
        occurrence (cadence s) (Some (timezone s)) (next_run_at s) missed = inr future ∧ (now < future)%Z ∧
        s' = s <| missed_runs := (missed_runs s + Z.of_nat missed)%Z |> <| next_run_at := future |>)) ∧
    (enabled s' = true → cadence s' ≠ once → (next_run_at s' < now)%Z →
       ∃ following, advance_occurrence (cadence s') (next_run_at s') (Some (timezone s')) = inr following ∧ (now < following)%Z).
Proof.
  intros Hz Hspan. unfold settle_missed.
  destruct (enabled s) eqn:Hen; cbn [negb orb]; [|exists s; split_and!; [done|by left|congruence]].
  destruct (Z.leb_spec now (next_run_at s)) as [Hle|Hlt]; [exists s; split_and!; [done|by left|lia]|].
  case_bool_decide as Hc.
  { destruct (Z.ltb_spec (ONCE_CATCHUP_WINDOW_SECONDS * SECOND) (now - next_run_at s)) as [Hlate|Hlate].
    - eexists. split; [reflexivity|]. split; [by right; left|done].
    - exists s. split_and!; [done|by left|done]. }
  destruct (missed_counted (cadence s) (next_run_at s) (Some (timezone s)) now Hz Hc Hspan)
    as (missed & future & Hcount & _ & Hocc & Hfut & Hbefore). rewrite Hcount.
  destruct (Z.ltb_spec 1 (Z.of_nat missed)) as [Hmany|Hfew].
  - eexists. split; [reflexivity|]. split; [|cbn; lia].
    right; right. exists missed, future. split_and!; [lia|done|done|done|done].
  - exists s. split; [done|]. split; [by left|]. intros _ _ _.
    destruct missed as [|[|]]; [cbn in Hocc; simplify_eq; lia| |lia]. exists future. split; [exact Hocc|done].
Qed.
End Scheduler.

(** The unique index of the table. *)
Definition unique_slots (d : DB) : Prop := ∀ k k' r r' slot,
  db_runs d !! k = Some r → db_runs d !! k' = Some r' → schedule_id r = schedule_id r' →
  slot_at r = Some slot → slot_at r' = Some slot → k = k'.

Lemma slot_holder_Some sid slot d k r :
  db_runs d !! k = Some r → schedule_id r = sid → slot_at r = Some slot → slot_holder sid slot d ≠ None.
Proof. intros Hk Hs Hslot Hn. by destruct (slot_holder_None sid slot d k r Hn Hk Hs). Qed.

Lemma slot_holder_none sid slot d :
  (∀ k r, db_runs d !! k = Some r → schedule_id r = sid → slot_at r ≠ Some slot) → slot_holder sid slot d = None.
Proof.
  intros Hfree. unfold slot_holder. destruct (find _ _) as [[k r]|] eqn:Hf; [|done].
  apply find_some in Hf as [Hin%list_elem_of_In Hh]. apply elem_of_map_to_list in Hin. cbn in Hh.
  unfold holds_slot in Hh. apply andb_true_iff in Hh as [Hs%String.eqb_eq Hsl%bool_decide_eq_true].
  by destruct (Hfree k r Hin Hs).
Qed.

(** A lapsed run whose turn started keeps its slot, so that the slot does not
    run twice, but only as long as its conversation exists: if the user deletes
    the conversation before the run is reaped, the row looks like that of a run
    that never started, the slot is given back and a second run can claim it. *)
Theorem deleted_chat_frees_slot now e run_id r c slot new_id lease d :
  unique_slots d → db_runs d !! run_id = Some r → lapsed now r = true →
  run_conversation r = Some c → slot_at r = Some slot → 
  create_run new_id (schedule_id r) false (Some slot) lease now (reap_lapsed_runs now e d).1 = None ∧
  is_Some (create_run new_id (schedule_id r) false (Some slot) lease now (reap_lapsed_runs now e (delete_conversation c d)).1).
Proof.
  intros Huniq Hr Hlapsed Hc Hslot. unfold create_run. split.
  - rewrite bool_decide_true; [done|]. apply (slot_holder_Some _ _ _ run_id (reaped_run now e r)).
    + cbn. by rewrite lookup_fmap, Hr; cbn; rewrite Hlapsed.
    + unfold reaped_run. cbn. by rewrite Hc.
    + unfold reaped_run. cbn. by rewrite Hc.
  - rewrite bool_decide_false; [by eexists|]. intros Hn. apply Hn. clear Hn. apply slot_holder_none.
    intros k r' Hk Hs Hsl. cbn in Hk. rewrite !lookup_fmap in Hk. destruct (db_runs d !! k) as [r0|] eqn:Hk0; [|done].
    cbn in Hk. injection Hk as Hk. destruct (decide (k = run_id)) as [->|Hne].
    + rewrite Hr in Hk0. injection Hk0 as <-. rewrite bool_decide_true in Hk by done.
      assert (lapsed now (r <| run_conversation := None |>) = true) as Hl by done. rewrite Hl in Hk. subst r'. done.
    + destruct Hne. apply (Huniq k run_id r0 r slot Hk0 Hr).
      * rewrite <- Hs. subst r'. repeat case_match; cbn; unfold reaped_run; cbn; repeat case_match; done.
      * revert Hsl. subst r'. repeat case_match; cbn; unfold reaped_run; cbn; repeat case_match; done.
      * done.
Qed.

(** ** A concrete schedule *)

Definition demo_schedule : Schedule := {|
  cadence := daily; next_run_at := 0; timezone := "Europe/Athens"; enabled := true; last_run_at := None;
  last_result_conversation_id := None; last_error := None; missed_runs := 0 |}.
Definition demo_sys : Sys := fresh_sys {["s" := demo_schedule]} ∅.
Definition demo_db_started : DB := default (sys_db demo_sys) (create_run "r" "s" false (Some 0%Z) (Some RUN_LEASE_SECONDS) 5 (sys_db demo_sys)).
Definition demo_exec : Exec := {|
  ex_run := "r"; ex_schedule := "s"; ex_slot := Some 0%Z; ex_manual := false; ex_conversation := None;
  ex_at := Reading; ex_turn := false |}.
Definition demo_linking := exec_step (ZN := demo_zones) 6 "c" Works demo_exec demo_db_started.
Definition demo_in_turn := exec_step (ZN := demo_zones) 7 "c" Works demo_linking.2 demo_linking.1.
Definition demo_turn_sys : Sys := {| sys_db := demo_in_turn.1; sys_execs := [demo_in_turn.2]; sys_given := [] |}.

Definition demo_start_sys : Sys := {| sys_db := demo_db_started; sys_execs := [demo_exec]; sys_given := [] |}.
Definition demo_link_sys : Sys := {| sys_db := demo_linking.1; sys_execs := [demo_linking.2]; sys_given := [] |}.

Lemma demo_turn_reachable : rtc (sys_step (ZN := demo_zones)) demo_sys demo_turn_sys.
Proof.
  apply (rtc_l _ _ demo_start_sys).
  { exact (sys_start demo_sys "r" "s" false (Some 0%Z) None 5 demo_db_started eq_refl (λ _, conj eq_refl eq_refl) eq_refl). }
  apply (rtc_l _ _ demo_link_sys).
  { apply (sys_exec demo_start_sys 0 demo_exec 6 "c" Works demo_linking.1 demo_linking.2); done. }
  apply rtc_once. apply (sys_exec demo_link_sys 0 demo_linking.2 7 "c" Works demo_in_turn.1 demo_in_turn.2); done.
Qed.

Lemma slot_turn_once_witness :
  sys_execs demo_turn_sys !! 0 = Some demo_in_turn.2 ∧ ex_turn demo_in_turn.2 = true ∧
  ∀ j y, sys_execs demo_turn_sys !! j = Some y → ex_schedule y = "s" → ex_slot y = Some 0%Z → ex_turn y = true → 0 = j.
Proof.
  split; [reflexivity|]. split; [reflexivity|]. intros j y Hy Hs Hsl Ht.
  apply (slot_turn_once (ZN := demo_zones) {["s" := demo_schedule]} ∅ demo_turn_sys 0 j demo_in_turn.2 y 0%Z); try done.
  - apply demo_turn_reachable.
  - apply not_elem_of_nil.
  - apply not_elem_of_nil.
Defined.

Lemma settle_missed_spec_witness :
  (∃ s', settle_missed (ZN := demo_zones) (3 * DAY + 1) demo_schedule = inr s' ∧ missed_runs s' = 4%Z) ∧
  ∃ s', settle_missed (ZN := demo_zones) (3 * DAY + 1) demo_schedule = inr s' ∧
    (enabled s' = true → cadence s' ≠ once → (next_run_at s' < 3 * DAY + 1)%Z →
       ∃ following, advance_occurrence (ZN := demo_zones) (cadence s') (next_run_at s') (Some (timezone s')) = inr following ∧
         (3 * DAY + 1 < following)%Z).
Proof.
  split; [eexists; split; [vm_compute; reflexivity|reflexivity]|].
  destruct (settle_missed_spec (ZN := demo_zones) (3 * DAY + 1) demo_schedule demo_zones_ok) as (s' & Hs & _ & Hnext).
  - vm_compute. reflexivity.
  - exists s'. split; [exact Hs|exact Hnext].
Defined.

Lemma demo_unique : unique_slots demo_in_turn.1.
Proof. exact (so_index demo_turn_sys (sys_history_ok _ _ (fresh_sys_ok _ _) demo_turn_reachable)). Qed.

Lemma deleted_chat_frees_slot_witness :
  is_Some (create_run "r2" "s" false (Some 0%Z) None (200 * SECOND)
    (reap_lapsed_runs (200 * SECOND) LAPSED_RUN_ERROR (delete_conversation "c" demo_in_turn.1)).1).
Proof.
  assert (∃ r, db_runs demo_in_turn.1 !! "r" = Some r ∧ lapsed (200 * SECOND) r = true ∧ run_conversation r = Some "c" ∧
    slot_at r = Some 0%Z ∧ schedule_id r = "s") as (r & Hr & Hl & Hc & Hs & Hsch).
  { eexists. split; [vm_compute; reflexivity|]. split_and!; vm_compute; reflexivity. }
  rewrite <- Hsch.
  exact (proj2 (deleted_chat_frees_slot (200 * SECOND) LAPSED_RUN_ERROR "r" r "c" 0%Z "r2" None demo_in_turn.1
    demo_unique Hr Hl Hc Hs)).
Defined.
