(* ===== verification/CommandRules.v ===== *)
(** * Remembered command approvals ([src/cowork/coding/command_approvals.py]).

    When the user approves a command for the whole task, what is remembered is
    the fingerprint of a prefix of that command, proposed by the engine.
    [command_rule] decides which requests have such a rule at all: a literal
    command run by a known shell.  The words of a command are found by
    [shlex.split] of the standard library, modelled here as the state machine of
    [shlex.read_token] in POSIX mode with [whitespace_split]; a Python string is
    its UTF-8 encoding.

    The theorems say what a rule guarantees about the command it was made from,
    and which commands a remembered approval can authorize. *)
From stdpp Require Import base list strings option.
From Stdlib Require Import ZArith Lia.
From S2P Require Import Prelude JsonText JsonAscii.

(** [len(s)]: code points, so bytes that are not continuation bytes. *)
Fixpoint py_len (s : string) : nat :=
  match s with
  | EmptyString => 0
  | String.String c s' => (if Nat.leb 128 (ord c) && Nat.leb (ord c) 191 then 0 else 1) + py_len s'
  end.

(** ** [shlex.split] *)

Definition lex_space (c : Ascii.ascii) : bool := bool_decide (ord c ∈ [32; 9; 13; 10]).
Definition lex_quote (c : Ascii.ascii) : bool := bool_decide (ord c ∈ [39; 34]).

(** [state]: between words, in a word, in a quotation, after a backslash (in a
    word, or in a quotation). *)
Inductive lex_state :=
  | LSpace
  | LWord
  | LQuote (q : Ascii.ascii)
  | LEscape (back : option Ascii.ascii).

Definition snoc (s : string) (c : Ascii.ascii) : string := String.append s (String.String c "").

Definition after_escape (back : option Ascii.ascii) : lex_state :=
  match back with Some q => LQuote q | None => LWord end.

(** In a quotation a backslash only hides the quote and itself. *)
Definition escaped (back : option Ascii.ascii) (token : string) (c : Ascii.ascii) : string :=
  match back with
  | Some q => if Ascii.eqb c cBackslash || Ascii.eqb c q then snoc token c else snoc (snoc token cBackslash) c
  | None => snoc token c
  end.

Fixpoint shlex_from (st : lex_state) (token : string) (quoted : bool) (s : string) : exn + list string :=
  match s with
  | EmptyString =>
      match st with
      | LQuote _ => inl (ValueError "No closing quotation")
      | LEscape _ => inl (ValueError "No escaped character")
      | _ => inr (if truthy token || quoted then [token] else [])
      end
  | String.String c s' =>
      match st with
      | LSpace =>
          if lex_space c then shlex_from LSpace token quoted s'
          else if Ascii.eqb c cBackslash then shlex_from (LEscape None) token quoted s'
          else if lex_quote c then shlex_from (LQuote c) token true s'
          else shlex_from LWord (snoc token c) quoted s'
      | LWord =>
          if lex_space c then
            if truthy token || quoted then
              match shlex_from LSpace "" false s' with
              | inr words => inr (token :: words)
              | inl e => inl e
              end
            else shlex_from LSpace token quoted s'
          else if lex_quote c then shlex_from (LQuote c) token true s'
          else if Ascii.eqb c cBackslash then shlex_from (LEscape None) token quoted s'
          else shlex_from LWord (snoc token c) quoted s'
      | LQuote q =>
          if Ascii.eqb c q then shlex_from LWord token quoted s'
          else if Ascii.eqb c cBackslash && Nat.eqb (ord q) 34 then shlex_from (LEscape (Some q)) token quoted s'
          else shlex_from (LQuote q) (snoc token c) quoted s'
      | LEscape back => shlex_from (after_escape back) (escaped back token c) quoted s'
      end
  end.

Definition shlex_split (s : string) : exn + list string := shlex_from LSpace "" false s.

Example shlex_split_examples :
  shlex_split "bash -lc 'git status --short'" = inr ["bash"; "-lc"; "git status --short"] ∧
  shlex_split "a  'b c'd '' " = inr ["a"; "b cd"; ""] ∧
  shlex_split "it's" = inl (ValueError "No closing quotation").
Proof. repeat split; vm_compute; reflexivity. Qed.

(** ** [json.dumps] with [ensure_ascii] *)

(** [json.dumps] of a list of strings. *)
Definition dumps_ascii_list (l : list string) : string :=
  String.append "[" (String.append (str_join ", " (map dumps_ascii_str l)) "]").

(** ** Rules *)

Record CommandRule := {
  rule_context : list string;
  rule_command : list string;
  rule_prefix : list string;
}.

Section Rules.
Context {PF : Platform}.

(** [_key]. *)
Definition rule_payload (context prefix : list string) : string :=
  String.append "[" (String.append (str_join ", "
    [dumps_ascii_str "command-approval-v1"; dumps_ascii_list context; dumps_ascii_list prefix]) "]").
Definition rule_key (context prefix : list string) : string := digest (rule_payload context prefix).

(** [grant]. *)
Definition rule_grant (r : CommandRule) : string := rule_key (rule_context r) (rule_prefix r).

(** [matches]. *)
Definition rule_matches (r : CommandRule) (grants : list string) : bool :=
  existsb (λ size, bool_decide (rule_key (rule_context r) (take size (rule_command r)) ∈ grants))
    (seq 1 (length (rule_command r))).
End Rules.

Definition SHELLS : list string :=
  ["bash"; "zsh"; "/bin/bash"; "/bin/zsh"; "/usr/bin/bash"; "/usr/bin/zsh"].

(** [_LITERAL_COMMAND.fullmatch]. *)
Definition literal_char (c : Ascii.ascii) : bool :=
  let n := ord c in
  (Nat.leb 65 n && Nat.leb n 90) || (Nat.leb 97 n && Nat.leb n 122) || (Nat.leb 48 n && Nat.leb n 57) ||
  bool_decide (n ∈ map ord (String.list_ascii_of_string "_./:=@%+,- '") ++ [34]).

Definition literal_command (s : string) : bool := truthy s && str_forall literal_char s.

(** [isinstance(value, str)], and the non-empty strings of a list. *)
Definition as_str (j : option json) : option string :=
  match j with Some (JStr s) => Some s | _ => None end.
Fixpoint as_words (l : list json) : option (list string) :=
  match l with
  | [] => Some []
  | JStr w :: l' => if truthy w then cons w <$> as_words l' else None
  | _ => None
  end.

Definition EXTRA_PERMISSIONS : list string :=
  ["additionalPermissions"; "networkApprovalContext"; "proposedNetworkPolicyAmendments"; "approvalId"].

Definition contains_char (c : Ascii.ascii) (s : string) : bool :=
  existsb (Ascii.eqb c) (String.list_ascii_of_string s).

(** The proposed prefix: a list of 1 to 32 non-empty words. *)
Definition proposed_prefix (params : list (string * json)) : option (list string) :=
  match (match obj_get params "proposedExecpolicyAmendment" with
         | Some v => Some v
         | None => obj_get params "proposedExecPolicyAmendment"
         end) with
  | Some (JArr l) =>
      if Nat.ltb 0 (length l) && Nat.leb (length l) 32 then as_words l else None
  | _ => None
  end.

Definition command_rule (method : string) (params : list (string * json)) : option CommandRule :=
  if negb (String.eqb method "item/commandExecution/requestApproval") then None
  else if existsb (λ key, match obj_get params key with Some v => json_truthy v | None => false end)
            EXTRA_PERMISSIONS then None
  else
    match as_str (obj_get params "command"), as_str (obj_get params "cwd") with
    | Some command, Some cwd =>
        if Nat.ltb 8192 (py_len command) || negb (truthy cwd) then None
        else if negb (bool_decide (default (JStr "local") (obj_get params "environmentId") = JStr "local")) then None
        else
          match proposed_prefix params with
          | None => None
          | Some prefix =>
              match shlex_split command with
              | inr [shell; flag; inner] =>
                  if negb (bool_decide (shell ∈ SHELLS) && bool_decide (flag ∈ ["-c"; "-lc"])) then None
                  else if negb (literal_command inner) then None
                  else
                    match shlex_split inner with
                    | inl _ => None
                    | inr words =>
                        match words with
                        | [] => None
                        | first :: _ =>
                            if Nat.ltb 128 (length words) || contains_char (chr 61) first
                               || negb (bool_decide (take (length prefix) words = prefix)) then None
                            else Some {| rule_context := [cwd; "local"; shell; flag];
                                         rule_command := words; rule_prefix := prefix |}
                        end
                    end
              | _ => None
              end
          end
    | _, _ => None
    end.

(** ** What a rule guarantees *)

(** The characters a POSIX shell gives a meaning to, quotes and blanks apart:
    expansion, substitution, lists, pipes, redirection, grouping, globs,
    history, comments, escapes, line ends. *)
Definition shell_special (c : Ascii.ascii) : bool :=
  bool_decide (ord c ∈ map ord (String.list_ascii_of_string "$`\;&|<>(){}*?[]!#~^") ++ [9; 10; 13]).

Lemma literal_not_special c : literal_char c = true → shell_special c = false.
Proof.
  destruct c as [[] [] [] [] [] [] [] []]; vm_compute; (reflexivity || discriminate).
Qed.

Lemma literal_not_backslash c : literal_char c = true → Ascii.eqb c cBackslash = false.
Proof. destruct c as [[] [] [] [] [] [] [] []]; vm_compute; (reflexivity || discriminate). Qed.

(** What is neither a quote nor a blank. *)
Definition letters (s : string) : list Ascii.ascii :=
  base.filter (λ c, lex_space c || lex_quote c = false) (String.list_ascii_of_string s).

Lemma ascii_of_snoc s c : String.list_ascii_of_string (snoc s c) = String.list_ascii_of_string s ++ [c].
Proof. unfold snoc. induction s as [|d s IH]; [done|]. rewrite append_cons. cbn. by rewrite IH. Qed.

Lemma letters_snoc s c :
  letters (snoc s c) = letters s ++ (if lex_space c || lex_quote c then [] else [c]).
Proof.
  unfold letters. rewrite ascii_of_snoc, list.filter_app. f_equal.
  destruct (lex_space c || lex_quote c) eqn:E.
  - rewrite list.filter_cons_False; [done|]. rewrite E. done.
  - by rewrite list.filter_cons_True.
Qed.

Lemma letters_cons c s :
  letters (String.String c s) = (if lex_space c || lex_quote c then [] else [c]) ++ letters s.
Proof.
  unfold letters. cbn [String.list_ascii_of_string]. destruct (lex_space c || lex_quote c) eqn:E.
  - rewrite list.filter_cons_False; [done|]. rewrite E. done.
  - by rewrite list.filter_cons_True.
Qed.

(** A state the lexer can be in on text without backslashes. *)
Definition plain_state (st : lex_state) : Prop :=
  match st with LEscape _ => False | LQuote q => lex_quote q = true | _ => True end.

Definition lexed (token s : string) (words : list string) : Prop :=
  mjoin (map letters words) = letters token ++ letters s ∧
  Forall (λ w, str_forall literal_char w = true) words.

(** The last word. *)
Lemma lexed_end token quoted :
  str_forall literal_char token = true →
  lexed token "" (if truthy token || quoted then [token] else []).
Proof.
  intros Ht. unfold lexed. change (letters "") with (@nil Ascii.ascii). rewrite app_nil_r.
  destruct (truthy token || quoted) eqn:E.
  - cbn. rewrite app_nil_r. split; [done|]. by repeat constructor.
  - apply orb_false_iff in E as [E _]. unfold truthy in E. apply negb_false_iff, String.eqb_eq in E as ->.
    split; [done|constructor].
Qed.

(** A character that becomes part of the word, and one that is dropped. *)
Lemma lexed_keep token c s words : lexed (snoc token c) s words → lexed token (String.String c s) words.
Proof.
  intros [H1 H2]. split; [|done]. by rewrite H1, letters_snoc, letters_cons, <-app_assoc.
Qed.
Lemma lexed_drop token c s words :
  lex_space c || lex_quote c = true → lexed token s words → lexed token (String.String c s) words.
Proof. intros Hl [H1 H2]. split; [|done]. by rewrite H1, letters_cons, Hl. Qed.

Lemma literal_snoc token c :
  str_forall literal_char token = true → literal_char c = true → str_forall literal_char (snoc token c) = true.
Proof. intros Ht Hc. unfold snoc. rewrite str_forall_app, Ht. cbn. by rewrite Hc. Qed.

(** On literal text the lexer drops blanks and quotes and nothing else, and adds
    nothing. *)
Lemma shlex_literal s st token quoted words :
  plain_state st → str_forall literal_char s = true → str_forall literal_char token = true →
  shlex_from st token quoted s = inr words → lexed token s words.
Proof.
  revert st token quoted words. induction s as [|c s IH]; intros st token quoted words Hst Hs Ht.
  { destruct st; cbn; try done; intros [= <-]; by apply lexed_end. }
  cbn in Hs. apply andb_true_iff in Hs as [Hc Hs].
  pose proof (literal_not_backslash c Hc) as Hb. pose proof (literal_snoc token c Ht Hc) as Htok.
  destruct st as [| |q|back]; [| | |done]; cbn [shlex_from]; rewrite ?Hb; cbn [andb].
  - destruct (lex_space c) eqn:E1; [intros E; apply lexed_drop; [by rewrite E1|exact (IH LSpace token quoted words I Hs Ht E)]|].
    destruct (lex_quote c) eqn:E2; [intros E; apply lexed_drop; [by rewrite E2, orb_true_r|exact (IH (LQuote c) token true words E2 Hs Ht E)]|].
    intros E. apply lexed_keep. exact (IH LWord _ quoted words I Hs Htok E).
  - destruct (lex_space c) eqn:E1.
    + destruct (truthy token || quoted) eqn:Etq; [|intros E; apply lexed_drop; [by rewrite E1|exact (IH LSpace token quoted words I Hs Ht E)]].
      destruct (shlex_from LSpace "" false s) as [e|ws] eqn:E; [done|]. intros [= <-].
      destruct (IH LSpace "" false ws I Hs eq_refl E) as [H1 H2]. apply lexed_drop; [by rewrite E1|].
      split; [|by constructor].
      change (mjoin (map letters (token :: ws))) with (letters token ++ mjoin (map letters ws)). by rewrite H1.
    + destruct (lex_quote c) eqn:E2; [intros E; apply lexed_drop; [by rewrite E2, orb_true_r|exact (IH (LQuote c) token true words E2 Hs Ht E)]|].
      intros E. apply lexed_keep. exact (IH LWord _ quoted words I Hs Htok E).
  - destruct (Ascii.eqb c q) eqn:Eq.
    + apply Ascii.eqb_eq in Eq as ->. intros E. apply lexed_drop; [by rewrite Hst, orb_true_r|]. exact (IH LWord token quoted words I Hs Ht E).
    + intros E. apply lexed_keep. exact (IH (LQuote q) _ quoted words Hst Hs Htok E).
Qed.

(** A word with no character the lexer treats specially. *)
Definition plain_char (c : Ascii.ascii) : bool :=
  negb (lex_space c) && negb (lex_quote c) && negb (Ascii.eqb c cBackslash).
Definition plain_word (w : string) : bool := truthy w && str_forall plain_char w.

Lemma shlex_in_word w token quoted s :
  str_forall plain_char w = true →
  shlex_from LWord token quoted (String.append w s) = shlex_from LWord (String.append token w) quoted s.
Proof.
  revert token. induction w as [|c w IH]; intros token Hw.
  { by rewrite append_empty_r. }
  cbn in Hw. apply andb_true_iff in Hw as [Hc Hw]. rewrite append_cons. cbn [shlex_from].
  unfold plain_char in Hc. rewrite !andb_true_iff, !negb_true_iff in Hc. destruct Hc as [[-> ->] ->].
  rewrite IH by done. unfold snoc. by rewrite append_assoc, append_cons, append_nil.
Qed.

Lemma shlex_word w s :
  plain_word w = true →
  shlex_from LSpace "" false (String.append w s) = shlex_from LWord w false s.
Proof.
  unfold plain_word. destruct w as [|c w]; [done|]. cbn [truthy]. intros [_ Hw]%andb_true_iff.
  cbn in Hw. apply andb_true_iff in Hw as [Hc Hw]. rewrite append_cons. cbn [shlex_from].
  unfold plain_char in Hc. rewrite !andb_true_iff, !negb_true_iff in Hc. destruct Hc as [[-> ->] ->].
  by rewrite shlex_in_word.
Qed.

(** Plain words separated by spaces are read back as they are. *)
Lemma shlex_split_plain words :
  forallb plain_word words = true → shlex_split (str_join " " words) = inr words.
Proof.
  unfold shlex_split. induction words as [|w words IH]; [done|]. cbn [forallb]. intros [Hw Hws]%andb_true_iff.
  assert (Htr : truthy w = true) by (by apply andb_true_iff in Hw as [? _]).
  destruct words as [|w' words].
  - cbn [str_join]. rewrite <-(append_empty_r w) at 1. rewrite shlex_word by done. cbn. by rewrite Htr.
  - cbn [str_join] in IH |- *. rewrite shlex_word by done. rewrite append_cons. cbn [shlex_from].
    change (lex_space (chr 32)) with true. cbn iota. rewrite Htr. cbn [orb].
    change (String.append "" ?x) with x. rewrite IH by done. done.
Qed.

Lemma as_words_length l ws : as_words l = Some ws → length ws = length l.
Proof.
  revert ws. induction l as [|j l IH]; intros ws; cbn; [by intros [= <-]|].
  destruct j; try done. destruct (truthy s); [|done].
  destruct (as_words l) as [ws'|]; [|done]. intros [= <-]. cbn. by rewrite (IH ws').
Qed.

Lemma proposed_prefix_nonempty params prefix :
  proposed_prefix params = Some prefix → prefix ≠ [] ∧ length prefix ≤ 32.
Proof.
  unfold proposed_prefix. destruct (match _ with Some v => Some v | None => _ end) as [[]|]; try done.
  destruct (Nat.ltb 0 (length items) && Nat.leb (length items) 32) eqn:E; [|done].
  apply andb_true_iff in E as [H1 H2]. apply Nat.ltb_lt in H1. apply Nat.leb_le in H2.
  intros Hw%as_words_length. split; [|lia]. intros ->. cbn in Hw. lia.
Qed.

(** Reads [command_rule] backwards. *)
Lemma command_rule_inv method params rule :
  command_rule method params = Some rule →
  ∃ command cwd shell flag inner,
    (∀ key, key ∈ EXTRA_PERMISSIONS → match obj_get params key with Some v => json_truthy v = false | None => True end) ∧
    obj_get params "command" = Some (JStr command) ∧ obj_get params "cwd" = Some (JStr cwd) ∧
    shlex_split command = inr [shell; flag; inner] ∧ shell ∈ SHELLS ∧ flag ∈ ["-c"; "-lc"] ∧
    literal_command inner = true ∧ shlex_split inner = inr (rule_command rule) ∧
    proposed_prefix params = Some (rule_prefix rule) ∧
    rule_context rule = [cwd; "local"; shell; flag] ∧
    rule_prefix rule `prefix_of` rule_command rule ∧
    match rule_command rule with first :: _ => contains_char (chr 61) first = false | [] => False end.
Proof.
  unfold command_rule. destruct (String.eqb method _); cbn [negb]; [|done].
  destruct (existsb _ EXTRA_PERMISSIONS) eqn:Eperm; [done|].
  destruct (obj_get params "command") as [[| | | |command| |]|] eqn:Ecmd; try done. cbn [as_str].
  destruct (obj_get params "cwd") as [[| | | |cwd| |]|] eqn:Ecwd; try done. cbn [as_str].
  destruct (_ || negb (truthy cwd)); [done|]. destruct (negb (bool_decide _)); [done|].
  destruct (proposed_prefix params) as [prefix|] eqn:Ep; [|done].
  destruct (shlex_split command) as [e|[|shell [|flag [|inner [|]]]]] eqn:Es; try done.
  destruct (bool_decide (shell ∈ SHELLS) && bool_decide (flag ∈ ["-c"; "-lc"])) eqn:Esf; cbn [negb]; [|done].
  destruct (literal_command inner) eqn:El; cbn [negb]; [|done].
  destruct (shlex_split inner) as [e|[|first words]] eqn:Ei; try done.
  destruct (Nat.ltb 128 _ || _ || _) eqn:Eg; [done|]. intros [= <-]. cbn.
  rewrite !orb_false_iff, negb_false_iff, bool_decide_eq_true in Eg. destruct Eg as [[_ Heq] Htake].
  rewrite andb_true_iff, !bool_decide_eq_true in Esf. destruct Esf as [Hsh Hfl].
  exists command, cwd, shell, flag, inner. split_and!; try done.
  - intros key Hkey. destruct (obj_get params key) as [v|] eqn:Ev; [|done].
    destruct (json_truthy v) eqn:Et; [|done]. exfalso. apply not_true_iff_false in Eperm. apply Eperm.
    apply existsb_exists. exists key. split; [by apply list_elem_of_In|]. by rewrite Ev.
  - exists (drop (length prefix) (first :: words)). rewrite <-Htake at 1. by rewrite take_drop.
Qed.

(** only literal commands get a rule. A request has a rule only when it runs
    a known shell with [-c] or [-lc] on a text in which no character has a
    meaning to the shell (no expansion, substitution, list, pipe, redirection,
    glob, escape or line end) and asks for no extra permission; the words of the
    rule are the characters of that text, in order, without its blanks and
    quotes, the first of them assigns no variable, and the remembered prefix is
    a non-empty prefix of them. *)
Theorem command_rule_literal method params rule :
  command_rule method params = Some rule →
  ∃ command cwd shell flag inner,
    obj_get params "command" = Some (JStr command) ∧ obj_get params "cwd" = Some (JStr cwd) ∧
    shlex_split command = inr [shell; flag; inner] ∧ shell ∈ SHELLS ∧ flag ∈ ["-c"; "-lc"] ∧
    Forall (λ c, shell_special c = false) (String.list_ascii_of_string inner) ∧
    (∀ key, key ∈ EXTRA_PERMISSIONS → match obj_get params key with Some v => json_truthy v = false | None => True end) ∧
    rule_context rule = [cwd; "local"; shell; flag] ∧
    mjoin (map letters (rule_command rule)) = letters inner ∧
    Forall (λ w, str_forall literal_char w = true) (rule_command rule) ∧
    rule_prefix rule ≠ [] ∧ rule_prefix rule `prefix_of` rule_command rule ∧
    match rule_command rule with first :: _ => contains_char (chr 61) first = false | [] => False end.
Proof.
  intros H. destruct (command_rule_inv method params rule H)
    as (command & cwd & shell & flag & inner & Hperm & Hcmd & Hcwd & Hs & Hsh & Hfl & Hl & Hi & Hpp & Hctx & Hpre & Heq).
  apply andb_true_iff in Hl as [_ Hl].
  destruct (shlex_literal inner LSpace "" false (rule_command rule) I Hl eq_refl Hi) as [H1 H2].
  exists command, cwd, shell, flag, inner. split_and!; try done.
  - clear -Hl. induction inner as [|c inner IH]; cbn in *; [constructor|].
    apply andb_true_iff in Hl as [Hc Hl]. constructor; [by apply literal_not_special|by apply IH].
  - by apply (proposed_prefix_nonempty params).
Qed.

(** ** What a remembered approval authorizes *)

Section Grants.
Context {PF : Platform}.

(** The fingerprints of the remembered rules and of the prefixes of a command
    do not collide. *)
Definition no_collision (remembered : list CommandRule) (r : CommandRule) : Prop :=
  ∀ r0 p, r0 ∈ remembered → p `prefix_of` rule_command r →
    rule_key (rule_context r) p = rule_grant r0 → rule_context r = rule_context r0 ∧ p = rule_prefix r0.

Lemma rule_matches_iff r grants :
  rule_matches r grants = true ↔
  ∃ p, p ≠ [] ∧ p `prefix_of` rule_command r ∧ rule_key (rule_context r) p ∈ grants.
Proof.
  unfold rule_matches. rewrite existsb_exists. split.
  - intros (size & Hin & Hk). apply in_seq in Hin. apply bool_decide_eq_true in Hk.
    exists (take size (rule_command r)). split; [|split; [apply prefix_take|done]].
    destruct size; [lia|]. destruct (rule_command r); cbn in *; [lia|done].
  - intros (p & Hne & [k Hk] & Hin). exists (length p). split.
    + apply in_seq. rewrite Hk, length_app. destruct p; [done|]. cbn. lia.
    + apply bool_decide_eq_true. rewrite Hk, take_app_length. done.
Qed.

(** what an approval for the session authorizes later. Barring collisions of
    fingerprints, a command is let through on remembered approvals exactly when
    one of them was given in the same context (directory, shell and flag) for a
    non-empty prefix of this command's words. *)
Theorem remembered_approval_scope remembered r :
  no_collision remembered r →
  rule_matches r (map rule_grant remembered) = true ↔
  ∃ r0, r0 ∈ remembered ∧ rule_context r0 = rule_context r ∧ rule_prefix r0 ≠ [] ∧
    rule_prefix r0 `prefix_of` rule_command r.
Proof.
  intros Hnc. rewrite rule_matches_iff. split.
  - intros (p & Hne & Hp & Hin). apply list_elem_of_fmap in Hin as (r0 & Hk & Hr0).
    destruct (Hnc r0 p Hr0 Hp Hk) as [Hc ->]. exists r0. done.
  - intros (r0 & Hr0 & Hc & Hne & Hp). exists (rule_prefix r0). split; [done|]. split; [done|].
    apply list_elem_of_fmap. exists r0. split; [|done]. unfold rule_grant. by rewrite Hc.
Qed.
End Grants.

(** ** Concrete requests *)

Definition demo_params (command : string) (prefix : list string) : list (string * json) :=
  [("command", JStr command); ("cwd", JStr "/work");
   ("proposedExecpolicyAmendment", JArr (map JStr prefix))].
Definition demo_method : string := "item/commandExecution/requestApproval".

Example command_rule_refuses :
  command_rule demo_method (demo_params "bash -lc 'git status; rm -rf /'" ["git"; "status"]) = None ∧
  command_rule demo_method (demo_params "bash -lc 'git log > out'" ["git"]) = None ∧
  command_rule demo_method (demo_params "bash -lc 'PATH=/tmp git log'" ["PATH=/tmp"]) = None ∧
  command_rule demo_method (demo_params "bash -lc 'git push'" ["git"; "status"]) = None ∧
  command_rule demo_method (demo_params "python -c 'print'" ["print"]) = None.
Proof. repeat split; vm_compute; reflexivity. Qed.

Definition demo_rule (words prefix : list string) : CommandRule := {|
  rule_context := ["/work"; "local"; "bash"; "-lc"]; rule_command := words; rule_prefix := prefix |}.

Lemma command_rule_literal_witness :
  command_rule demo_method (demo_params "bash -lc 'git status --short'" ["git"; "status"]) =
    Some (demo_rule ["git"; "status"; "--short"] ["git"; "status"]) ∧
  ["git"; "status"] `prefix_of` ["git"; "status"; "--short"].
Proof.
  assert (E : command_rule demo_method (demo_params "bash -lc 'git status --short'" ["git"; "status"]) =
    Some (demo_rule ["git"; "status"; "--short"] ["git"; "status"])) by (vm_compute; reflexivity).
  split; [exact E|].
  destruct (command_rule_literal _ _ _ E) as (? & ? & ? & ? & ? & _ & _ & _ & _ & _ & _ & _ & _ & _ & _ & _ & H & _).
  exact H.
Defined.

Lemma remembered_approval_scope_witness :
  rule_matches (PF := plain_platform) (demo_rule ["git"; "status"; "--short"] ["git"])
    [rule_grant (PF := plain_platform) (demo_rule ["git"; "status"] ["git"; "status"])] = true.
Proof.
  apply (remembered_approval_scope (PF := plain_platform)
    [demo_rule ["git"; "status"] ["git"; "status"]] (demo_rule ["git"; "status"; "--short"] ["git"])).
  - intros r0 p ->%list_elem_of_singleton Hp Hk. split; [reflexivity|].
    assert (Hcases : p = [] ∨ p = ["git"] ∨ p = ["git"; "status"] ∨ p = ["git"; "status"; "--short"]).
    { destruct Hp as [k Hk']. cbn in Hk'.
      destruct p as [|a [|b [|c [|d p]]]]; cbn in Hk'; simplify_eq; auto. }
    destruct Hcases as [-> | [-> | [-> | ->]]]; vm_compute in Hk |- *; (reflexivity || discriminate).
  - exists (demo_rule ["git"; "status"] ["git"; "status"]). split; [by apply list_elem_of_singleton|].
    split; [reflexivity|]. split; [discriminate|]. by exists ["--short"].
Defined.
