(* ===== verification/Approvals.v ===== *)
(** * Approval cards ([src/cowork/coding/approvals.py]).

    [ApprovalBroker] blocks the thread that serves a coding agent until the user
    decides on a request.  Three kinds of thread meet on a card: the request
    itself, which waits for an hour at most, the HTTP call that resolves the card
    and the one that cancels its session.  The lock makes some of their code
    atomic; the calls that persist the card ([_on_open], [_on_close]) run outside
    it, may fail, and interleave.

    A card is the [_Waiter] object with the place each of these threads has
    reached on it.  [cancel_session] treats the cards it closed one after the
    other; here each of them is closed on its own, in any order.

    The theorems: a request is let through only on a recorded decision, or a
    remembered rule, unless its hour ran out while the decision was being
    recorded; a card is closed, and its closing stored, once; and a session
    shows one card at a time. *)
From stdpp Require Import base list gmap strings option relations.
From Stdlib Require Import ZArith Lia.
From S2P Require Import Prelude JsonText Redaction CommandRules.

(** ** Describing a request *)

Record PendingApproval := {
  pa_id : string;
  pa_method : string;
  pa_kind : string;
  pa_title : string;
  pa_detail : string;
  pa_cwd : option string;
  pa_risk : string;
  pa_scope : string;
  pa_allow_session : bool;
}.

(** [params.get(a) or params.get(b) or ...]. *)
Fixpoint first_of (params : list (string * json)) (keys : list string) : option json :=
  match keys with
  | [] => None
  | [key] => obj_get params key
  | key :: rest =>
      match obj_get params key with
      | Some v => if json_truthy v then Some v else first_of params rest
      | None => first_of params rest
      end
  end.

Section Describe.
Context {PF : Platform}.

(** [_string]. *)
Definition approval_string (value : option json) : string :=
  match value with
  | Some (JStr s) => s
  | Some (JArr l) => str_join (String.String (chr 10) "") (map json_str (take 20 l))
  | Some (JObj l) => str_join ", " (map (λ kv, String.append kv.1 (String.append ": " (json_str kv.2))) (take 20 l))
  | _ => ""
  end.

Definition or_text (s fallback : string) : string := if truthy s then s else fallback.

(** [_describe]: kind, title, detail, risk and whether the approval may be
    remembered; [id] is the fresh [uuid4]. *)
Definition describe (id method : string) (params : list (string * json)) : PendingApproval :=
  let detail0 := "Codex requested elevated access." in
  let cwd := approval_string (first_of params ["cwd"; "workingDirectory"]) in
  let '(kind, title, detail, risk, allow_session) :=
    if str_contains "commandExecution" method then
      ("command", "Run command",
       or_text (approval_string (first_of params ["command"; "commands"; "reason"]))
         "Codex requested permission to run a command.",
       "The command may modify files, start processes, or access resources outside the task sandbox.",
       bool_decide (is_Some (command_rule method params)))
    else if str_contains "fileChange" method then
      ("file_change", "Modify protected files",
       or_text (approval_string (obj_get params "reason"))
         "Codex requested a file change outside its normal write policy.",
       "This change may write outside the managed task worktree or alter protected files.", false)
    else if str_contains "network" (str_lower method) || str_contains "permission" (str_lower method) then
      ("network_or_permission", "Grant additional access",
       or_text (approval_string (first_of params ["reason"; "permissions"])) detail0,
       "This may access the network or expand the agent's permissions.", false)
    else
      ("elevated_action", "Approve elevated action", detail0,
       "This action requires access beyond the task's normal workspace policy.", false) in
  {| pa_id := id; pa_method := str_take 256 method; pa_kind := kind; pa_title := title;
     pa_detail := str_take 8192 (redact_text detail []);
     pa_cwd := if truthy cwd then Some (str_take 32768 (redact_text cwd [])) else None;
     pa_risk := risk; pa_scope := "This task only"; pa_allow_session := allow_session |}.
End Describe.

(** ** Cards *)

Inductive ApprovalDecision := approve_once | approve_session | deny.

#[export] Instance ApprovalDecision_eq_dec : EqDecision ApprovalDecision.
Proof. solve_decision. Defined.

(** Whether a decision lets the request through. *)
Definition accepts (d : ApprovalDecision) : bool := bool_decide (d ∈ [approve_once; approve_session]).

(** Where the thread of [request] is: before or in [_on_open], in
    [event.wait], before the [_on_close] of a card nobody decided, or back. *)
Inductive request_at :=
  | Opening
  | Blocked
  | ClosingItself (d : ApprovalDecision)
  | Answered (d : ApprovalDecision)
  | RequestRaised (e : exn).

(** Where the thread that closed the card is: [resolve] before [_on_close],
    before the denial of a decision that could not be recorded, before
    [event.set()]; [cancel_session] before [_on_close]; done. *)
Inductive closer_at :=
  | NobodyYet
  | Recording (d : ApprovalDecision)
  | Unrecorded (e : exn)
  | Waking (e : option exn)
  | Cancelling
  | Released (e : option exn).

(** One call of [_on_close]: the decision, the rule to remember, and whether
    it was stored. *)
Record Closing := {
  cl_decision : ApprovalDecision;
  cl_grant : option string;
  cl_stored : bool;
}.

Record Card := {
  cd_session : string;
  cd_command_grant : option string;
  cd_decision : option ApprovalDecision;
  cd_closed : bool;
  cd_event : bool;
  (** Whether [_waiters] still holds it. *)
  cd_listed : bool;
  cd_request : request_at;
  cd_closer : closer_at;
  cd_closings : list Closing;
  (** Whether [event.wait] gave up. *)
  cd_timed_out : bool;
}.

#[export] Instance fields_Card : Fields Card := λ c, {|
  cd_session := cd_session c; cd_command_grant := cd_command_grant c; cd_decision := cd_decision c;
  cd_closed := cd_closed c; cd_event := cd_event c; cd_listed := cd_listed c;
  cd_request := cd_request c; cd_closer := cd_closer c; cd_closings := cd_closings c;
  cd_timed_out := cd_timed_out c |}.

(** The broker: a card for every request that opened one. *)
Abbreviation Broker := (gmap string Card).

Definition new_card (session_id : string) (grant : option string) : Card := {|
  cd_session := session_id; cd_command_grant := grant; cd_decision := None; cd_closed := false;
  cd_event := false; cd_listed := true; cd_request := Opening; cd_closer := NobodyYet;
  cd_closings := []; cd_timed_out := false |}.

(** [item.session_id == session_id and not item.closed], over [_waiters]. *)
Definition open_in (session_id : string) (c : Card) : bool :=
  cd_listed c && String.eqb (cd_session c) session_id && negb (cd_closed c).

(** How [request] begins: declined, let through by a remembered rule, or with a
    new card. *)
Inductive request_start := Declined | Remembered | Opened.

Section Request.
Context {PF : Platform}.

(** The beginning of [request] up to the end of its first locked section;
    [grants] is [_get_command_grants(session_id)]. *)
Definition request_begin (session_id id method : string) (params : list (string * json))
    (read_only : bool) (grants : list string) (b : Broker) : Broker * request_start :=
  if read_only then (b, Declined)
  else
    let rule := command_rule method params in
    if existsb (λ kc, open_in session_id kc.2) (map_to_list b) then (b, Declined)
    else if match rule with Some r => rule_matches r grants | None => false end then (b, Remembered)
    else (<[id := new_card session_id (rule_grant <$> rule)]> b, Opened).
End Request.

(** The second locked section of [request], after the wait. *)
Definition leave (timed_out : bool) (c : Card) : Card :=
  let decision := default deny (cd_decision c) in
  let close_now := negb (cd_closed c) in
  c <| cd_listed := false |> <| cd_closed := true |> <| cd_timed_out := timed_out |>
    <| cd_request := if close_now then ClosingItself decision else Answered decision |>.

(** A call of [_on_close]. *)
Definition on_close (d : ApprovalDecision) (grant : option string) (stored : bool) (c : Card) : Card :=
  c <| cd_closings := cd_closings c ++ [{| cl_decision := d; cl_grant := grant; cl_stored := stored |}] |>.

(** The locked section of [resolve]. *)
Definition resolve_begin (session_id id : string) (d : ApprovalDecision) (b : Broker) : Broker * (exn + ()) :=
  match b !! id with
  | Some c =>
      if cd_listed c && String.eqb (cd_session c) session_id && negb (cd_closed c)
      then (<[id := c <| cd_decision := Some d |> <| cd_closed := true |> <| cd_closer := Recording d |>]> b, inr ())
      else (b, inl (KeyError "approval is no longer pending"))
  | None => (b, inl (KeyError "approval is no longer pending"))
  end.

(** The [_on_close] of [resolve]. *)
Definition resolve_record (d : ApprovalDecision) (failure : option exn) (c : Card) : Card :=
  let grant := if bool_decide (d = approve_session) then cd_command_grant c else None in
  match failure with
  | None => (on_close d grant true c) <| cd_closer := Waking None |>
  | Some e => (on_close d grant false c) <| cd_closer := Unrecorded e |>
  end.

(** [waiter.decision = ApprovalDecision.deny], after a failure. *)
Definition resolve_deny (e : exn) (c : Card) : Card :=
  c <| cd_decision := Some deny |> <| cd_closer := Waking (Some e) |>.

(** [waiter.event.set()]. *)
Definition event_set (e : option exn) (c : Card) : Card :=
  c <| cd_event := true |> <| cd_closer := Released e |>.

(** The locked section of [cancel_session]. *)
Definition cancel_begin (session_id : string) (b : Broker) : Broker :=
  (λ c, if open_in session_id c
        then c <| cd_decision := Some deny |> <| cd_closed := true |> <| cd_closer := Cancelling |> else c) <$> b.

(** Its loop, for one card. *)
Definition cancel_close (failure : option exn) (c : Card) : Card :=
  event_set failure (on_close deny None (bool_decide (failure = None)) c).

(** The [_on_close] of [request], when nobody decided. *)
Definition close_itself (d : ApprovalDecision) (failure : option exn) (c : Card) : Card :=
  (on_close d None (bool_decide (failure = None)) c)
    <| cd_request := match failure with None => Answered d | Some e => RequestRaised e end |>.

(** ** All interleavings *)

(** A step of one of the threads on a card. *)
Inductive card_step : Card → Card → Prop :=
  | opens c : cd_request c = Opening → card_step c (c <| cd_request := Blocked |>)
  | open_fails c e : cd_request c = Opening →
      card_step c (c <| cd_listed := false |> <| cd_request := RequestRaised e |>)
  | wakes c : cd_request c = Blocked → cd_event c = true → card_step c (leave false c)
  | times_out c : cd_request c = Blocked → cd_event c = false → card_step c (leave true c)
  | closes_itself c d failure : cd_request c = ClosingItself d → card_step c (close_itself d failure c)
  | records c d failure : cd_closer c = Recording d → card_step c (resolve_record d failure c)
  | denies c e : cd_closer c = Unrecorded e → card_step c (resolve_deny e c)
  | sets_event c e : cd_closer c = Waking e → card_step c (event_set e c)
  | cancels c failure : cd_closer c = Cancelling → card_step c (cancel_close failure c).

Inductive broker_step {PF : Platform} : Broker → Broker → Prop :=
  | step_request session_id id method params read_only grants b :
      b !! id = None →
      broker_step b (request_begin session_id id method params read_only grants b).1
  | step_resolve session_id id d b : broker_step b (resolve_begin session_id id d b).1
  | step_cancel session_id b : broker_step b (cancel_begin session_id b)
  | step_card id c c' b : b !! id = Some c → card_step c c' → broker_step b (<[id := c']> b).

(** ** The invariant of a card *)

(** What is known while its closer is at each place. *)
Definition closer_ok (c : Card) : Prop :=
  match cd_closer c with
  | NobodyYet => cd_decision c = None ∧ cd_event c = false ∧ (cd_closed c = false → cd_closings c = [])
  | Recording d => cd_decision c = Some d ∧ cd_event c = false ∧ cd_closed c = true ∧ cd_closings c = []
  | Unrecorded e => cd_event c = false ∧ cd_closed c = true ∧ ∃ d g, cd_closings c = [Build_Closing d g false]
  | Waking None =>
      cd_event c = false ∧ cd_closed c = true ∧
      ∃ d g, cd_decision c = Some d ∧ cd_closings c = [Build_Closing d g true]
  | Waking (Some e) =>
      cd_event c = false ∧ cd_closed c = true ∧ cd_decision c = Some deny ∧
      ∃ d g, cd_closings c = [Build_Closing d g false]
  | Cancelling => cd_decision c = Some deny ∧ cd_event c = false ∧ cd_closed c = true ∧ cd_closings c = []
  | Released e =>
      cd_closed c = true ∧ ∃ d d' g stored, cd_decision c = Some d ∧ cd_closings c = [Build_Closing d' g stored] ∧
        (d = deny ∨ (d' = d ∧ stored = true))
  end.

Definition request_ok (c : Card) : Prop :=
  match cd_request c with
  | Opening | Blocked => cd_timed_out c = false ∧ (cd_closer c = NobodyYet → cd_closed c = false)
  | ClosingItself d =>
      cd_listed c = false ∧ cd_closed c = true ∧ cd_closer c = NobodyYet ∧ d = deny ∧ cd_closings c = []
  | Answered d =>
      cd_listed c = false ∧ cd_closed c = true ∧
      (accepts d = true → cd_timed_out c = true ∨ ∃ g, cd_closings c = [Build_Closing d g true])
  | RequestRaised e => cd_listed c = false
  end.

Record card_ok (c : Card) : Prop := {
  ck_closer : closer_ok c;
  ck_request : request_ok c;
  ck_once : length (cd_closings c) ≤ 1;
  ck_grant : ∀ x g, x ∈ cd_closings c → cl_grant x = Some g →
    cl_decision x = approve_session ∧ cd_command_grant c = Some g;
}.

Lemma new_card_ok session_id grant : card_ok (new_card session_id grant).
Proof. split; cbn; try done; [lia|]. intros x g H. by apply not_elem_of_nil in H. Qed.

(** Nobody has closed a card that is open, and only an event releases it. *)
Lemma open_nobody c : closer_ok c → cd_closed c = false → cd_closer c = NobodyYet.
Proof.
  unfold closer_ok. destruct (cd_closer c) as [| | |[]| |]; [done|..]; intros H Hc;
    repeat match goal with H : _ ∧ _ |- _ => destruct H end; congruence.
Qed.
Lemma event_released c : closer_ok c → cd_event c = true → ∃ e, cd_closer c = Released e.
Proof.
  unfold closer_ok. destruct (cd_closer c) as [| | |[]| |]; [..|eauto]; intros H Hc;
    repeat match goal with H : _ ∧ _ |- _ => destruct H end; congruence.
Qed.

(** A closing by [resolve] or [cancel_session] of a card that was open. *)
Lemma closed_card_ok c d closer :
  card_ok c → cd_listed c = true → cd_closed c = false →
  closer = Recording d ∨ (closer = Cancelling ∧ d = deny) →
  card_ok (c <| cd_decision := Some d |> <| cd_closed := true |> <| cd_closer := closer |>).
Proof.
  intros [Hc Hr Ho Hg] Hl Hcl Hk. pose proof (open_nobody c Hc Hcl) as Hn. unfold closer_ok in Hc.
  unfold request_ok in Hr.
  rewrite Hn in Hc. destruct Hc as (Hdec & Hev & Hnil). specialize (Hnil Hcl).
  split; try done.
  - unfold closer_ok. cbn. destruct Hk as [-> | [-> ->]]; done.
  - unfold request_ok. cbn. destruct (cd_request c) eqn:Er; try congruence.
    + destruct Hr as [? _]. split; [done|]. destruct Hk as [-> | [-> _]]; done.
    + destruct Hr as [? _]. split; [done|]. destruct Hk as [-> | [-> _]]; done.
    + destruct Hr. congruence.
    + destruct Hr. congruence.
Qed.

Lemma on_close_grant c d grant stored :
  (∀ x g, x ∈ cd_closings c → cl_grant x = Some g → cl_decision x = approve_session ∧ cd_command_grant c = Some g) →
  (∀ g, grant = Some g → d = approve_session ∧ cd_command_grant c = Some g) →
  ∀ x g, x ∈ cd_closings c ++ [Build_Closing d grant stored] → cl_grant x = Some g →
    cl_decision x = approve_session ∧ cd_command_grant c = Some g.
Proof.
  intros H1 H2 x g [H | ->%list_elem_of_singleton]%elem_of_app; [by apply H1|]. apply H2.
Qed.

Lemma leave_ok c timed_out :
  card_ok c → cd_request c = Blocked → cd_event c = negb timed_out → card_ok (leave timed_out c).
Proof.
  intros [Hc Hr Ho Hg] Hb He. unfold request_ok in Hr. rewrite Hb in Hr. destruct Hr as [Ht Hn].
  split; try done.
  - unfold closer_ok in Hc |- *. cbn. destruct (cd_closer c) as [| | |[]| |]; try done.
    + destruct Hc as (? & ? & _). done.
    + destruct Hc as (? & ? & _ & ?). done.
    + destruct Hc as (? & _ & ?). done.
    + destruct Hc as (? & _ & ?). done.
    + destruct Hc as (? & _ & ?). done.
    + destruct Hc as (? & ? & _ & ?). done.
    + destruct Hc as (_ & ?). done.
  - unfold request_ok, leave. cbn. destruct (cd_closed c) eqn:Ecl; cbn.
    + split; [done|]. split; [done|]. intros Hacc. destruct timed_out; [by left|right]. cbn in He.
      destruct (event_released c Hc He) as [e Ek]. unfold closer_ok in Hc. rewrite Ek in Hc.
      destruct Hc as (_ & d & d' & g & stored & Hd & Hcl & [-> | [-> ->]]); rewrite Hd in Hacc |- *; [done|].
      cbn. eauto.
    + pose proof (open_nobody c Hc Ecl) as Hk. unfold closer_ok in Hc. rewrite Hk in Hc. destruct Hc as (Hd & _ & Hnil). rewrite Hd. by rewrite (Hnil Ecl).
Qed.

(** The closer's steps leave the request where it is. *)
Lemma request_after_closer c c' :
  request_ok c → cd_closer c ≠ NobodyYet → cd_closer c' ≠ NobodyYet →
  cd_request c' = cd_request c → cd_listed c' = cd_listed c → cd_closed c' = cd_closed c →
  cd_timed_out c' = cd_timed_out c → cd_closings c' = cd_closings c ∨ cd_closings c = [] →
  request_ok c'.
Proof.
  unfold request_ok. intros Hr Hk Hk' -> -> -> -> Hcl. destruct (cd_request c) as [| |d|d|e]; try done.
  - by destruct Hr.
  - by destruct Hr.
  - destruct Hr as (_ & _ & ? & _). done.
  - destruct Hr as (Hl & Hc & Ha). split; [done|]. split; [done|]. intros [Ht|[g Hg]]%Ha; [by left|].
    destruct Hcl as [->|Hnil]; [by right; eauto|]. congruence.
Qed.

Lemma card_step_ok c c' : card_step c c' → card_ok c → card_ok c'.
Proof.
  intros Hs Hok. pose proof Hok as [Hc Hr Ho Hg].
  destruct Hs as [c Hq|c e Hq|c Hq He|c Hq He|c d failure Hq|c d failure Hk|c e Hk|c e Hk|c failure Hk].
  - split; try done. unfold request_ok in Hr |- *. rewrite Hq in Hr. exact Hr.
  - by split.
  - by apply leave_ok.
  - by apply leave_ok.
  - unfold request_ok in Hr. rewrite Hq in Hr. destruct Hr as (Hl & Hcl & Hn & -> & Hnil).
    unfold closer_ok in Hc. rewrite Hn in Hc. destruct Hc as (Hd & Hev & _).
    split; cbn.
    + unfold closer_ok. cbn. rewrite Hn, Hcl. done.
    + unfold request_ok. cbn. destruct failure; done.
    + by rewrite Hnil.
    + by apply (on_close_grant c).
  - unfold closer_ok in Hc. rewrite Hk in Hc. destruct Hc as (Hd & Hev & Hcl & Hnil).
    assert (Hgr : ∀ g, (if bool_decide (d = approve_session) then cd_command_grant c else None) = Some g →
      d = approve_session ∧ cd_command_grant c = Some g) by (intros g; case_bool_decide; done).
    split.
    + unfold closer_ok, resolve_record. destruct failure; cbn; rewrite Hnil; cbn; eauto 10.
    + apply (request_after_closer c); try done; try (by destruct failure); [by rewrite Hk|by right].
    + unfold resolve_record. destruct failure; cbn; by rewrite Hnil.
    + unfold resolve_record. destruct failure; cbn; by apply (on_close_grant c).
  - unfold closer_ok in Hc. rewrite Hk in Hc. destruct Hc as (Hev & Hcl & d & g & Hl).
    split; try done.
    + unfold closer_ok. cbn. eauto 10.
    + apply (request_after_closer c); try done; [by rewrite Hk|by left].
  - unfold closer_ok in Hc. rewrite Hk in Hc. split; try done.
    + unfold closer_ok. cbn. destruct e as [e|].
      * destruct Hc as (_ & Hcl & Hd & d & g & Hl). eauto 10.
      * destruct Hc as (_ & Hcl & d & g & Hd & Hl). split; [done|]. exists d, d, g, true. auto.
    + apply (request_after_closer c); try done; [by rewrite Hk|by left].
  - unfold closer_ok in Hc. rewrite Hk in Hc. destruct Hc as (Hd & Hev & Hcl & Hnil).
    split; cbn.
    + unfold closer_ok. cbn. split; [done|]. rewrite Hnil. cbn. eauto 10.
    + apply (request_after_closer c); try done; [by rewrite Hk|by right].
    + by rewrite Hnil.
    + by apply (on_close_grant c).
Qed.

(** ** The invariant of the broker *)

Record broker_ok (b : Broker) : Prop := {
  bk_cards : map_Forall (λ _, card_ok) b;
  bk_one : ∀ id1 id2 c1 c2 session_id, b !! id1 = Some c1 → b !! id2 = Some c2 →
    open_in session_id c1 = true → open_in session_id c2 = true → id1 = id2;
}.

Lemma open_in_iff session_id c :
  open_in session_id c = true ↔ cd_listed c = true ∧ cd_session c = session_id ∧ cd_closed c = false.
Proof. unfold open_in. rewrite !andb_true_iff, String.eqb_eq, negb_true_iff. tauto. Qed.

(** No card opens again. *)
Lemma card_step_open session_id c c' :
  card_step c c' → open_in session_id c' = true → open_in session_id c = true.
Proof.
  rewrite !open_in_iff. intros Hs. destruct Hs; cbn; try done; try (intros (? & _); done).
  by destruct failure.
Qed.

Lemma broker_ok_update b id c c' :
  broker_ok b → b !! id = Some c → card_ok c' →
  (∀ session_id, open_in session_id c' = true → open_in session_id c = true) → broker_ok (<[id := c']> b).
Proof.
  intros [Hcards Hone] Hid Hc' Hop. split.
  - by apply map_Forall_insert_2.
  - intros id1 id2 c1 c2 session_id H1 H2 Ho1 Ho2.
    assert (Hback : ∀ i x, <[id := c']> b !! i = Some x → open_in session_id x = true →
      ∃ y, b !! i = Some y ∧ open_in session_id y = true).
    { intros i x [[<- <-]|[_ Hx]]%lookup_insert_Some Ho; eauto. }
    destruct (Hback id1 c1 H1 Ho1) as (y1 & Hy1 & Hoy1), (Hback id2 c2 H2 Ho2) as (y2 & Hy2 & Hoy2).
    exact (Hone id1 id2 y1 y2 session_id Hy1 Hy2 Hoy1 Hoy2).
Qed.

Section BrokerFacts.
Context {PF : Platform}.

Lemma request_begin_ok session_id id method params read_only grants b :
  b !! id = None → broker_ok b → broker_ok (request_begin session_id id method params read_only grants b).1.
Proof.
  intros Hid Hb. unfold request_begin. destruct read_only; [done|].
  destruct (existsb _ (map_to_list b)) eqn:Eex; [done|].
  destruct (match command_rule method params with Some r => _ | None => false end); [done|]. cbn.
  assert (Hno : ∀ i c, b !! i = Some c → open_in session_id c = false).
  { intros i c Hc. destruct (open_in session_id c) eqn:E; [|done]. exfalso.
    apply not_true_iff_false in Eex. apply Eex, existsb_exists. exists (i, c).
    split; [by apply list_elem_of_In, elem_of_map_to_list|done]. }
  destruct Hb as [Hcards Hone]. split.
  - apply map_Forall_insert_2; [apply new_card_ok|done].
  - intros id1 id2 c1 c2 s [[<- <-]|[Hn1 H1]]%lookup_insert_Some [[<- <-]|[Hn2 H2]]%lookup_insert_Some Ho1 Ho2;
      [done| | |by eauto].
    + apply open_in_iff in Ho1 as (_ & Hs & _). cbn in Hs. subst s. by rewrite (Hno _ _ H2) in Ho2.
    + apply open_in_iff in Ho2 as (_ & Hs & _). cbn in Hs. subst s. by rewrite (Hno _ _ H1) in Ho1.
Qed.

Lemma resolve_begin_ok session_id id d b : broker_ok b → broker_ok (resolve_begin session_id id d b).1.
Proof.
  intros Hb. unfold resolve_begin. destruct (b !! id) as [c|] eqn:Hid; [|done].
  destruct (cd_listed c && _ && _) eqn:E; [|done]. cbn.
  rewrite !andb_true_iff, negb_true_iff in E. destruct E as [[Hl _] Hcl].
  apply (broker_ok_update b id c); [done|done| |].
  - apply (closed_card_ok c); [by apply (bk_cards b Hb id)|done|done|by left].
  - intros s Ho. apply open_in_iff in Ho as (_ & _ & Ho). done.
Qed.

Lemma cancel_begin_ok session_id b : broker_ok b → broker_ok (cancel_begin session_id b).
Proof.
  intros [Hcards Hone]. split.
  - intros id c. unfold cancel_begin. rewrite lookup_fmap. destruct (b !! id) as [c0|] eqn:E; [|done].
    cbn. intros [= <-]. pose proof (Hcards id c0 E) as Hok.
    destruct (open_in session_id c0) eqn:Eo; [|done]. apply open_in_iff in Eo as (Hl & _ & Hcl).
    apply (closed_card_ok c0); [done|done|done|by right].
  - assert (Hback : ∀ i x s, cancel_begin session_id b !! i = Some x → open_in s x = true →
      ∃ y, b !! i = Some y ∧ open_in s y = true).
    { intros i x s. unfold cancel_begin. rewrite lookup_fmap. destruct (b !! i) as [y|] eqn:Ey; [|done]. cbn.
      intros [= <-] Ho. exists y. split; [done|]. destruct (open_in session_id y); [|done].
      apply open_in_iff in Ho as (_ & _ & Ho). done. }
    intros id1 id2 c1 c2 s H1 H2 Ho1 Ho2.
    destruct (Hback id1 c1 s H1 Ho1) as (y1 & Hy1 & Hoy1), (Hback id2 c2 s H2 Ho2) as (y2 & Hy2 & Hoy2).
    exact (Hone id1 id2 y1 y2 s Hy1 Hy2 Hoy1 Hoy2).
Qed.

Lemma broker_reachable b : rtc broker_step ∅ b → broker_ok b.
Proof.
  intros Hst. apply (rtc_ind_r broker_ok) with ∅ b in Hst; [done| |].
  - split; [apply map_Forall_empty|]. intros id1 id2 c1 c2 s H. by rewrite lookup_empty in H.
  - clear. intros b b' _ Hs Hb.
    destruct Hs as [s id method params ro grants b Hid|s id d b|s b|id c c' b Hid Hc].
    + by apply request_begin_ok.
    + by apply resolve_begin_ok.
    + by apply cancel_begin_ok.
    + apply (broker_ok_update b id c); [done|done| |].
      * eapply card_step_ok; [exact Hc|]. by apply (bk_cards b Hb id).
      * intros session_id. by apply card_step_open.
Qed.
End BrokerFacts.

(** C33: an action is let through only on a decision that was stored. Under every
    interleaving of the agent's requests with the calls that resolve and cancel
    them, whatever fails to be stored, a request whose card was answered with an
    approval either has that approval stored, as the one closing of its card, or
    its wait of an hour ran out. *)
Theorem approval_stored {PF : Platform} b id c d :
  rtc broker_step ∅ b → b !! id = Some c → cd_request c = Answered d → accepts d = true →
  cd_timed_out c = true ∨ ∃ g, cd_closings c = [Build_Closing d g true].
Proof.
  intros Hst Hid Hr Ha. pose proof (bk_cards b (broker_reachable b Hst) id c Hid) as [_ Hq _ _].
  unfold request_ok in Hq. rewrite Hr in Hq. destruct Hq as (_ & _ & H). by apply H.
Qed.

(** a card is closed once, and a session shows one at a time. Under every
    interleaving the closing of a card is stored at most once, a rule is only
    remembered for a command that has one and only on an approval for the
    session, and two different cards of a session are never both open. *)
Theorem approval_closed_once {PF : Platform} b :
  rtc broker_step ∅ b →
  (∀ id c, b !! id = Some c → length (cd_closings c) ≤ 1 ∧
     ∀ x g, x ∈ cd_closings c → cl_grant x = Some g →
       cl_decision x = approve_session ∧ cd_command_grant c = Some g) ∧
  (∀ id1 id2 c1 c2 session_id, b !! id1 = Some c1 → b !! id2 = Some c2 →
     open_in session_id c1 = true → open_in session_id c2 = true → id1 = id2).
Proof.
  intros Hst. destruct (broker_reachable b Hst) as [Hcards Hone]. split; [|exact Hone].
  intros id c Hid. destruct (Hcards id c Hid) as [_ _ Ho Hg]. done.
Qed.

(** ** The hour that runs out while a decision is being stored *)

(** A request that has its answer keeps it. *)
Lemma answered_stays {PF : Platform} b b' id c d :
  rtc broker_step b b' → b !! id = Some c → cd_request c = Answered d →
  ∃ c', b' !! id = Some c' ∧ cd_request c' = Answered d.
Proof.
  intros Hst. revert c. induction Hst as [b|b1 b2 b3 Hs _ IH]; intros c Hid Hr; [eauto|].
  enough (∃ c2, b2 !! id = Some c2 ∧ cd_request c2 = Answered d) as (c2 & Hc2 & Hr2) by (by eapply IH).
  destruct Hs as [s id' method params ro grants b Hnew|s id' d' b|s b|id' x x' b Hx Hcs].
  - unfold request_begin. destruct ro; [eauto|]. destruct (existsb _ _); [eauto|].
    destruct (match command_rule method params with Some r => _ | None => false end); [eauto|]. cbn.
    rewrite lookup_insert_ne by congruence. eauto.
  - unfold resolve_begin. destruct (b !! id') as [x|] eqn:Hx; [|eauto]. destruct (_ && _ && _); [|eauto]. cbn.
    destruct (decide (id' = id)) as [->|Hne]; [rewrite lookup_insert_eq|rewrite lookup_insert_ne by done; eauto].
    simplify_eq. eauto.
  - unfold cancel_begin. rewrite lookup_fmap, Hid. cbn. eexists. split; [done|]. by destruct (open_in s c).
  - destruct (decide (id' = id)) as [->|Hne]; [rewrite lookup_insert_eq|rewrite lookup_insert_ne by done; eauto].
    simplify_eq. eexists. split; [done|]. destruct Hcs; try congruence; try done. by destruct failure.
Qed.

(** C38: an approval that could not be stored can authorize its action. In every
    reachable state where [resolve] has noted an approving decision on the card
    of a waiting request and has not stored it yet, the hour of the request may
    run out: the request then answers with the approval and keeps it whatever
    happens later, also when storing the decision fails, with any error, and
    the denial that follows comes too late. *)
Theorem unstored_approval_accepted {PF : Platform} b id c d e :
  rtc broker_step ∅ b → b !! id = Some c → cd_request c = Blocked → cd_closer c = Recording d → accepts d = true →
  ∃ b', broker_step b b' ∧
    (∀ b2, rtc broker_step b' b2 → ∃ c2, b2 !! id = Some c2 ∧ cd_request c2 = Answered d) ∧
    ∃ b2 c2 g, rtc broker_step b' b2 ∧ b2 !! id = Some c2 ∧ cd_timed_out c2 = true ∧
      cd_closer c2 = Released (Some e) ∧ cd_closings c2 = [Build_Closing d g false].
Proof.
  intros Hst Hid Hq Hk Ha.
  destruct (bk_cards b (broker_reachable b Hst) id c Hid) as [Hc _ _ _].
  unfold closer_ok in Hc. rewrite Hk in Hc. destruct Hc as (Hd & Hev & Hcl & Hnil).
  assert (Hcard : ∀ x x' : Card, card_step x x' → broker_step (PF := PF) (<[id := x]> b) (<[id := x']> b)).
  { intros x x' Hs. rewrite <-(insert_insert_eq b id x' x). apply (step_card id x); [|done].
    by rewrite lookup_insert_eq. }
  assert (Hans : cd_request (leave true c) = Answered d) by (cbn; by rewrite Hcl, Hd).
  exists (<[id := leave true c]> b). split; [by apply (step_card id c); [|apply times_out]|]. split.
  { intros b2 H2. eapply answered_stays; [exact H2|apply lookup_insert_eq|done]. }
  eexists _, (event_set (Some e) (resolve_deny e (resolve_record d (Some e) (leave true c)))), _.
  split; [|split; [apply lookup_insert_eq|]].
  - eapply rtc_l; [apply Hcard, (records _ d (Some e)); done|].
    eapply rtc_l; [apply Hcard, (denies _ e); done|]. apply rtc_once, Hcard, (sets_event _ (Some e)). done.
  - split_and!; [done|done|]. cbn. by rewrite Hnil.
Qed.

(** ** Concrete histories *)

Definition demo_card : Card := new_card "s" None.

Lemma demo_open_step {PF : Platform} : broker_step ∅ {["a" := demo_card]}.
Proof.
  pose proof (step_request "s" "a" "item/fileChange/requestApproval" [] false [] ∅ (lookup_empty "a")) as H.
  unfold request_begin in H. rewrite map_to_list_empty in H. cbn in H. by rewrite insert_empty in H.
Qed.

(** A card that is resolved, stored, and answered. *)
Lemma demo_approved {PF : Platform} :
  ∃ c, rtc broker_step ∅ ({["a" := c]} : Broker) ∧ cd_request c = Answered approve_once ∧ cd_timed_out c = false.
Proof.
  set (c1 := demo_card <| cd_request := Blocked |>).
  set (c2 := c1 <| cd_decision := Some approve_once |> <| cd_closed := true |> <| cd_closer := Recording approve_once |>).
  assert (Hcard : ∀ c c' : Card, card_step c c' → broker_step (PF := PF) {["a" := c]} {["a" := c']}).
  { intros c c' Hs. rewrite <-(insert_singleton_eq "a" c' c). apply (step_card "a" c); [|done].
    by rewrite lookup_singleton_eq. }
  exists (leave false (event_set None (resolve_record approve_once None c2))). split; [|done].
  eapply rtc_l; [apply demo_open_step|].
  eapply rtc_l; [apply Hcard, (opens demo_card); done|]. fold c1.
  eapply (rtc_l _ _ {["a" := c2]}).
  { pose proof (step_resolve "s" "a" approve_once {["a" := c1]}) as H. unfold resolve_begin in H.
    rewrite lookup_singleton_eq in H. cbn in H. by rewrite insert_singleton_eq in H. }
  eapply rtc_l; [apply Hcard, (records c2 approve_once None); done|].
  eapply rtc_l; [apply Hcard, (sets_event _ None); done|].
  eapply rtc_l; [apply Hcard, (wakes (event_set None (resolve_record approve_once None c2))); done|].
  apply rtc_refl.
Qed.

Lemma approval_stored_witness :
  ∃ c : Card, cd_request c = Answered approve_once ∧ ∃ g, cd_closings c = [Build_Closing approve_once g true].
Proof.
  destruct (demo_approved (PF := plain_platform)) as (c & Hst & Hr & Ht). exists c. split; [exact Hr|].
  destruct (approval_stored (PF := plain_platform) {["a" := c]} "a" c approve_once Hst
    (lookup_singleton_eq "a" c) Hr eq_refl) as [H|H]; [congruence|exact H].
Defined.

Lemma approval_closed_once_witness :
  ∃ c : Card, cd_request c = Answered approve_once ∧ length (cd_closings c) ≤ 1.
Proof.
  destruct (demo_approved (PF := plain_platform)) as (c & Hst & Hr & Ht). exists c. split; [exact Hr|].
  apply (proj1 (approval_closed_once (PF := plain_platform) {["a" := c]} Hst) "a" c (lookup_singleton_eq "a" c)).
Defined.

(** A card whose approval is being stored while its request waits. *)
Definition demo_waiting : Card := demo_card <| cd_request := Blocked |>.
Definition demo_recording (d : ApprovalDecision) : Card :=
  demo_waiting <| cd_decision := Some d |> <| cd_closed := true |> <| cd_closer := Recording d |>.

Lemma demo_recording_reached {PF : Platform} d : rtc broker_step ∅ {["a" := demo_recording d]}.
Proof.
  eapply rtc_l; [apply demo_open_step|]. eapply (rtc_l _ _ {["a" := demo_waiting]}).
  { rewrite <-(insert_singleton_eq "a" demo_waiting demo_card).
    apply (step_card "a" demo_card); [by rewrite lookup_singleton_eq|by apply (opens demo_card)]. }
  apply rtc_once. pose proof (step_resolve "s" "a" d {["a" := demo_waiting]}) as H. unfold resolve_begin in H.
  rewrite lookup_singleton_eq in H. cbn in H. by rewrite insert_singleton_eq in H.
Qed.

Lemma unstored_approval_accepted_witness :
  ∃ b' b2 c2 g, broker_step (PF := plain_platform) {["a" := demo_recording approve_session]} b' ∧
    rtc (broker_step (PF := plain_platform)) b' b2 ∧ b2 !! "a" = Some c2 ∧
    cd_request c2 = Answered approve_session ∧ cd_closings c2 = [Build_Closing approve_session g false].
Proof.
  destruct (unstored_approval_accepted (PF := plain_platform) {["a" := demo_recording approve_session]} "a"
    (demo_recording approve_session) approve_session (OSError "disk full") (demo_recording_reached _)
    (lookup_singleton_eq _ _) eq_refl eq_refl eq_refl)
    as (b' & Hs & Hkeep & b2 & c2 & g & H2 & Hc2 & _ & _ & Hcl).
  destruct (Hkeep b2 H2) as (c3 & Hc3 & Hr).
  exists b', b2, c2, g. split; [exact Hs|]. split; [exact H2|]. split; [exact Hc2|]. split; [|exact Hcl].
  rewrite Hc2 in Hc3. injection Hc3 as ->. exact Hr.
Defined.
