(* ===== verification/AgentQuestions.v ===== *)
(** * Questions of a coding agent ([src/cowork/coding/questions.py]).

    [QuestionBroker] blocks the thread that serves a coding agent until the user
    answers its questions, the session is cancelled or the time is up.  Unlike
    the approval broker it stores a closing while it holds its lock, so every
    method is one step between waits; the theorems say that an answer which
    reaches the agent was stored and fits its questions, whatever else happens,
    and that no thread is left waiting on a question that was closed. *)
From stdpp Require Import base list gmap strings option relations.
From Stdlib Require Import ZArith Lia.
From S2P Require Import Prelude ControlModels.

(** ** Questions and answers *)

Record QuestionOption := { qo_label : string; qo_description : string }.

Record AgentQuestion := {
  aq_id : string;
  aq_header : string;
  aq_question : string;
  aq_options : option (list QuestionOption);
  aq_isOther : bool;
  aq_isSecret : bool;
}.

Record PendingQuestion := { pq_id : string; pq_questions : list AgentQuestion }.

Definition valid_option (o : QuestionOption) : bool :=
  len_ok 1 512 (qo_label o) && len_ok 0 4000 (qo_description o).

Definition valid_question (q : AgentQuestion) : bool :=
  len_ok 1 128 (aq_id q) && len_ok 0 256 (aq_header q) && len_ok 1 8000 (aq_question q) &&
  match aq_options q with
  | Some l => items_ok 0 12 l && forallb valid_option l
  | None => true
  end.

(** [PendingQuestion.model_validate]; [id] is the fresh [uuid4]. *)
Definition mk_PendingQuestion (id : string) (questions : list AgentQuestion) : exn + PendingQuestion :=
  if negb (items_ok 1 3 questions && forallb valid_question questions)
  then inl (ValidationError "questions")
  else if negb (bool_decide (NoDup (map aq_id questions)))
  then inl (ValidationError "Question identifiers must be unique")
  else inr {| pq_id := id; pq_questions := questions |}.

(** [answers], a dict. *)
Record QuestionResponse := { qr_answers : gmap string (list string) }.

(** [QuestionResponse(answers=...)]: every text is stripped and 1 to 8000
    characters long. *)
Definition mk_QuestionResponse (answers : gmap string (list string)) : exn + QuestionResponse :=
  let answers := map str_strip <$> answers in
  if Nat.leb (size answers) 3 && forallb (λ kv, forallb (len_ok 1 8000) kv.2) (map_to_list answers)
  then inr {| qr_answers := answers |} else inl (ValidationError "answers").

(** Whether [values[0]] must be one of the offered labels. *)
Definition closed_choice (q : AgentQuestion) : bool :=
  match aq_options q with Some (_ :: _) => negb (aq_isOther q) && negb (aq_isSecret q) | _ => false end.

Definition offered (q : AgentQuestion) : list string := map qo_label (default [] (aq_options q)).

(** The loop of [validate_for]. *)
Fixpoint validate_each (answers : gmap string (list string)) (questions : list AgentQuestion) : exn + () :=
  match questions with
  | [] => inr ()
  | q :: rest =>
      match default [] (answers !! aq_id q) with
      | [value] =>
          if closed_choice q && negb (bool_decide (value ∈ offered q))
          then inl (ValueError "Choose one of the offered answers")
          else validate_each answers rest
      | _ => inl (ValueError "Choose one answer for each question")
      end
  end.

(** [validate_for]. *)
Definition validate_for (r : QuestionResponse) (p : PendingQuestion) : exn + () :=
  if bool_decide (dom (qr_answers r) = (list_to_set (map aq_id (pq_questions p)) : gset string))
  then validate_each (qr_answers r) (pq_questions p)
  else inl (ValueError "Answer each question before continuing").

(** ** The broker *)

(** Where the thread of [request] is: in [event.wait], before its [finally]
    clause with the response it read or the exception it met, or back. *)
Inductive asker_at :=
  | Waiting
  | Leaving (result : exn + option QuestionResponse)
  | Returned (result : exn + option QuestionResponse).

(** One call of [_on_close]: the response, and whether it was stored. *)
Abbreviation closing := (option QuestionResponse * bool)%type.

Record Asked := {
  as_session : string;
  as_pending : PendingQuestion;
  as_event : bool;
  as_response : option QuestionResponse;
  as_closed : bool;
  (** Whether [_waiters] still holds it. *)
  as_listed : bool;
  as_at : asker_at;
  as_closings : list closing;
}.

#[export] Instance fields_Asked : Fields Asked := λ a, {|
  as_session := as_session a; as_pending := as_pending a; as_event := as_event a;
  as_response := as_response a; as_closed := as_closed a; as_listed := as_listed a;
  as_at := as_at a; as_closings := as_closings a |}.

Abbreviation Broker := (gmap string Asked).

Definition new_asked (session_id : string) (p : PendingQuestion) : Asked := {|
  as_session := session_id; as_pending := p; as_event := false; as_response := None;
  as_closed := false; as_listed := true; as_at := Waiting; as_closings := [] |}.

(** The first locked section of [request], [_on_open] included; the answer
    when it does not wait. *)
Definition ask_begin (session_id : string) (p : PendingQuestion) (failure : option exn) (b : Broker) :
    Broker * option (exn + option QuestionResponse) :=
  if existsb (λ ka, as_listed ka.2 && String.eqb (as_session ka.2) session_id) (map_to_list b)
  then (b, Some (inr None))
  else
    match failure with
    | Some e => (b, Some (inl e))
    | None => (<[pq_id p := new_asked session_id p]> b, None)
    end.

(** [_close]; [failure] is what [_on_close] raised. *)
Definition close_asked (response : option QuestionResponse) (failure : option exn) (a : Asked) : Asked :=
  a <| as_closed := true |> <| as_event := true |>
    <| as_response := match failure with None => response | Some _ => as_response a end |>
    <| as_closings := as_closings a ++ [(response, bool_decide (failure = None))] |>.

(** [resolve]. *)
Definition resolve_question (session_id question_id : string) (response : QuestionResponse)
    (failure : option exn) (b : Broker) : Broker * (exn + ()) :=
  match b !! question_id with
  | Some a =>
      if as_listed a && String.eqb (as_session a) session_id && negb (as_closed a) then
        match validate_for response (as_pending a) with
        | inl e => (b, inl e)
        | inr _ =>
            (<[question_id := close_asked (Some response) failure a]> b,
             match failure with None => inr () | Some e => inl e end)
        end
      else (b, inl (KeyError "This question is no longer waiting for an answer"))
  | None => (b, inl (KeyError "This question is no longer waiting for an answer"))
  end.

(** [cancel_session]: an exception of [_on_close] ends the loop. *)
Fixpoint cancel_loop (session_id : string) (failures : string → option exn) (ids : list string) (b : Broker) :
    Broker * (exn + ()) :=
  match ids with
  | [] => (b, inr ())
  | id :: rest =>
      match b !! id with
      | Some a =>
          if as_listed a && String.eqb (as_session a) session_id && negb (as_closed a) then
            let b := <[id := close_asked None (failures id) a]> b in
            match failures id with
            | Some e => (b, inl e)
            | None => cancel_loop session_id failures rest b
            end
          else cancel_loop session_id failures rest b
      | None => cancel_loop session_id failures rest b
      end
  end.

Definition cancel_session (session_id : string) (failures : string → option exn) (b : Broker) :
    Broker * (exn + ()) :=
  cancel_loop session_id failures (map fst (map_to_list b)) b.

(** The thread of [request] after its wait: it timed out (and closes the
    question unless that has happened), or was woken. *)
Definition ask_times_out (failure : option exn) (a : Asked) : Asked :=
  if as_closed a then a <| as_at := Leaving (inr (as_response a)) |>
  else
    (close_asked None failure a)
      <| as_at := Leaving (match failure with None => inr None | Some e => inl e end) |>.

Inductive asked_step : Asked → Asked → Prop :=
  | ask_timeout a failure : as_at a = Waiting → asked_step a (ask_times_out failure a)
  | ask_wakes a : as_at a = Waiting → as_event a = true →
      asked_step a (a <| as_at := Leaving (inr (as_response a)) |>)
  | ask_leaves a result : as_at a = Leaving result →
      asked_step a (a <| as_listed := false |> <| as_at := Returned result |>).

Inductive question_step : Broker → Broker → Prop :=
  | step_ask session_id p failure b :
      b !! pq_id p = None → question_step b (ask_begin session_id p failure b).1
  | step_answer session_id question_id response failure b :
      question_step b (resolve_question session_id question_id response failure b).1
  | step_cancel session_id failures b : question_step b (cancel_session session_id failures b).1
  | step_asked id a a' b : b !! id = Some a → asked_step a a' → question_step b (<[id := a']> b).

(** ** The invariant *)

(** An answer that fits: one text for each question and no other, one of the
    labels where nothing else may be said. *)
Definition fits (r : QuestionResponse) (p : PendingQuestion) : Prop :=
  dom (qr_answers r) = (list_to_set (map aq_id (pq_questions p)) : gset string) ∧
  ∀ q, q ∈ pq_questions p → ∃ value, qr_answers r !! aq_id q = Some [value] ∧
    (closed_choice q = true → value ∈ offered q).

Lemma validate_for_fits r p : validate_for r p = inr () → fits r p.
Proof.
  unfold validate_for. case_bool_decide as Hd; [|done]. intros Hv. split; [done|]. clear Hd.
  induction (pq_questions p) as [|q l IH]; [intros q H; by apply not_elem_of_nil in H|].
  cbn in Hv. destruct (qr_answers r !! aq_id q) as [[|v [|]]|] eqn:El; cbn in Hv; try done.
  destruct (closed_choice q) eqn:Ec; cbn in Hv.
  - case_bool_decide as Ho; cbn in Hv; [|done].
    intros q' [->|H]%elem_of_cons; [eauto|by apply IH].
  - intros q' [->|H]%elem_of_cons; [|by apply IH]. exists v. split; [done|]. congruence.
Qed.

Record asked_ok (a : Asked) : Prop := {
  (** A closed question has woken its thread. *)
  ao_event : as_event a = as_closed a;
  ao_once : length (as_closings a) = if as_closed a then 1 else 0;
  ao_response : ∀ r, as_response a = Some r →
    fits r (as_pending a) ∧ as_closings a = [(Some r, true)];
  ao_at : match as_at a with
          | Waiting => True
          | Leaving result | Returned result =>
              as_closed a = true ∧ ∀ r, result = inr (Some r) → as_response a = Some r
          end;
}.

Lemma close_asked_ok response failure a :
  asked_ok a → as_closed a = false → (∀ r, response = Some r → fits r (as_pending a)) →
  asked_ok (close_asked response failure a).
Proof.
  intros [He Ho Hr Ha] Hc Hf. rewrite Hc in Ho. apply nil_length_inv in Ho.
  assert (Hn : as_response a = None).
  { destruct (as_response a) as [r|]; [|done]. destruct (Hr r eq_refl) as [_ H]. congruence. }
  split; cbn; rewrite ?Ho; try done.
  - intros r. destruct failure; [by rewrite Hn|]. intros ->. split; [by apply Hf|done].
  - destruct (as_at a); [done|..]; destruct Ha; congruence.
Qed.

Lemma asked_step_ok a a' : asked_step a a' → asked_ok a → asked_ok a'.
Proof.
  intros Hs Hok. destruct Hs as [a failure Hw|a Hw He|a result Hl]; pose proof Hok as [Hev Ho Hr Ha].
  - unfold ask_times_out. destruct (as_closed a) eqn:Ec.
    + split; try done; cbn; [by rewrite Ec..|]. split; [done|]. by intros r [= ->].
    + destruct (close_asked_ok None failure a Hok Ec) as [H1 H2 H3 H4]; [done|].
      split; try done. cbn. split; [done|]. by destruct failure.
  - rewrite Hev in He. split; try done. cbn. split; [done|]. by intros r [= ->].
  - rewrite Hl in Ha. by split.
Qed.

Record questions_ok (b : Broker) : Prop := {
  qk_asked : map_Forall (λ _, asked_ok) b;
  qk_one : ∀ id1 id2 a1 a2, b !! id1 = Some a1 → b !! id2 = Some a2 →
    as_listed a1 = true → as_listed a2 = true → as_session a1 = as_session a2 → id1 = id2;
}.

Lemma questions_ok_update b id a a' :
  questions_ok b → b !! id = Some a → asked_ok a' → as_session a' = as_session a →
  (as_listed a' = true → as_listed a = true) → questions_ok (<[id := a']> b).
Proof.
  intros [Hall Hone] Hid Ha' Hs Hl. split; [by apply map_Forall_insert_2|].
  assert (Hback : ∀ i x, <[id := a']> b !! i = Some x → as_listed x = true →
    ∃ y, b !! i = Some y ∧ as_listed y = true ∧ as_session y = as_session x).
  { intros i x [[<- <-]|[_ Hx]]%lookup_insert_Some Hx'; eauto. }
  intros id1 id2 a1 a2 H1 H2 Hl1 Hl2 E.
  destruct (Hback id1 a1 H1 Hl1) as (y1 & Hy1 & Hly1 & Hs1), (Hback id2 a2 H2 Hl2) as (y2 & Hy2 & Hly2 & Hs2).
  apply (Hone id1 id2 y1 y2); congruence.
Qed.

Lemma close_in_ok b id a response failure :
  questions_ok b → b !! id = Some a → as_closed a = false →
  (∀ r, response = Some r → fits r (as_pending a)) →
  questions_ok (<[id := close_asked response failure a]> b).
Proof.
  intros Hb Hid Hc Hf. apply (questions_ok_update b id a); try done.
  apply close_asked_ok; [by apply (qk_asked b Hb id)|done|done].
Qed.

Lemma cancel_loop_ok session_id failures ids b :
  questions_ok b → questions_ok (cancel_loop session_id failures ids b).1.
Proof.
  revert b. induction ids as [|id ids IH]; intros b Hb; [done|]. cbn.
  destruct (b !! id) as [a|] eqn:Hid; [|by apply IH].
  destruct (as_listed a && _ && _) eqn:E; [|by apply IH].
  apply andb_true_iff in E as [_ Hc%negb_true_iff].
  assert (Hb' : questions_ok (<[id := close_asked None (failures id) a]> b)) by by apply close_in_ok.
  destruct (failures id); [done|]. by apply IH.
Qed.

Lemma question_reachable b : rtc question_step ∅ b → questions_ok b.
Proof.
  intros Hst. apply (rtc_ind_r questions_ok) with ∅ b in Hst; [done| |].
  - split; [apply map_Forall_empty|]. intros id1 id2 a1 a2 H. by rewrite lookup_empty in H.
  - clear. intros b b' _ Hs Hb.
    destruct Hs as [session_id p failure b Hid|session_id qid r failure b|session_id failures b|id a a' b Hid Ha].
    + unfold ask_begin. destruct (existsb _ (map_to_list b)) eqn:Eex; [done|]. destruct failure; [done|]. cbn.
      assert (Hno : ∀ i a, b !! i = Some a → as_listed a = true → as_session a ≠ session_id).
      { intros i a Hi Hl <-. apply not_true_iff_false in Eex. apply Eex, existsb_exists. exists (i, a).
        split; [by apply list_elem_of_In, elem_of_map_to_list|]. cbn. by rewrite Hl, String.eqb_refl. }
      destruct Hb as [Hall Hone]. split; [by apply map_Forall_insert_2|].
      intros id1 id2 a1 a2 [[<- <-]|[_ H1]]%lookup_insert_Some [[<- <-]|[_ H2]]%lookup_insert_Some Hl1 Hl2 E;
        [done| | |by eauto].
      * exfalso. by apply (Hno _ _ H2 Hl2).
      * exfalso. by apply (Hno _ _ H1 Hl1).
    + unfold resolve_question. destruct (b !! qid) as [a|] eqn:Hid; [|done].
      destruct (as_listed a && _ && _) eqn:E; [|done]. apply andb_true_iff in E as [_ Hc%negb_true_iff].
      destruct (validate_for r (as_pending a)) as [e|[]] eqn:Ev; [done|]. cbn.
      apply close_in_ok; try done. intros ? [= <-]. by apply validate_for_fits.
    + by apply cancel_loop_ok.
    + apply (questions_ok_update b id a); try done.
      * eapply asked_step_ok; [exact Ha|]. by apply (qk_asked b Hb id).
      * destruct Ha as [a failure Hw| |]; try done. unfold ask_times_out. by destruct (as_closed a).
      * destruct Ha as [a failure Hw| |]; try done. unfold ask_times_out. by destruct (as_closed a).
Qed.

(** an answer that reaches the agent was stored and fits. Under every
    interleaving of questions, answers, cancellations and timeouts, whatever
    fails to be stored: if the request of a question returns with a response,
    then that response has exactly one text for each of its questions, a listed
    one where only those are allowed, and it is the one thing that was ever
    stored for the question. *)
Theorem question_answer_stored b id a r :
  rtc question_step ∅ b → b !! id = Some a → as_at a = Returned (inr (Some r)) →
  fits r (as_pending a) ∧ as_closings a = [(Some r, true)].
Proof.
  intros Hst Hid Hr. destruct (qk_asked b (question_reachable b Hst) id a Hid) as [_ _ Hresp Hat].
  rewrite Hr in Hat. destruct Hat as [_ H]. by apply Hresp, H.
Qed.

(** nobody waits on a question that is closed, and a session asks one at a
    time. Under every interleaving a question that was answered, cancelled or
    given up, even if that could not be stored, has set the event its thread
    waits for, its closing was attempted exactly once, and two questions of a
    session are never both in the broker. *)
Theorem question_closed_releases b :
  rtc question_step ∅ b →
  (∀ id a, b !! id = Some a → as_closed a = true → as_event a = true ∧ length (as_closings a) = 1) ∧
  (∀ id1 id2 a1 a2, b !! id1 = Some a1 → b !! id2 = Some a2 →
     as_listed a1 = true → as_listed a2 = true → as_session a1 = as_session a2 → id1 = id2).
Proof.
  intros Hst. destruct (question_reachable b Hst) as [Hall Hone]. split; [|exact Hone].
  intros id a Hid Hc. destruct (Hall id a Hid) as [He Ho _ _]. rewrite Hc in He, Ho. done.
Qed.

(** ** A concrete question *)

Definition demo_question : AgentQuestion := {|
  aq_id := "q"; aq_header := "Question"; aq_question := "Which?";
  aq_options := Some [{| qo_label := "red"; qo_description := "" |}; {| qo_label := "blue"; qo_description := "" |}];
  aq_isOther := false; aq_isSecret := false |}.
Definition demo_pending : PendingQuestion := {| pq_id := "p"; pq_questions := [demo_question] |}.
Definition demo_answer : QuestionResponse := {| qr_answers := {["q" := ["red"]]} |}.

Definition demo_returned : Asked :=
  (close_asked (Some demo_answer) None (new_asked "s" demo_pending))
    <| as_listed := false |> <| as_at := Returned (inr (Some demo_answer)) |>.

Lemma demo_question_history : rtc question_step ∅ ({["p" := demo_returned]} : Broker).
Proof.
  set (a1 := close_asked (Some demo_answer) None (new_asked "s" demo_pending)).
  assert (Hst : ∀ a a' : Asked, asked_step a a' → question_step {["p" := a]} {["p" := a']}).
  { intros a a' Hs. rewrite <-(insert_singleton_eq "p" a' a). apply (step_asked "p" a); [|done].
    by rewrite lookup_singleton_eq. }
  eapply (rtc_l _ _ {["p" := new_asked "s" demo_pending]}).
  { pose proof (step_ask "s" demo_pending None ∅ (lookup_empty _)) as H. unfold ask_begin in H.
    rewrite map_to_list_empty in H. cbn in H. by rewrite insert_empty in H. }
  eapply (rtc_l _ _ {["p" := a1]}).
  { pose proof (step_answer "s" "p" demo_answer None {["p" := new_asked "s" demo_pending]}) as H.
    unfold resolve_question in H. rewrite lookup_singleton_eq in H. cbn -[validate_for] in H.
    assert (Ev : validate_for demo_answer demo_pending = inr ()) by (vm_compute; reflexivity).
    rewrite Ev in H. cbn in H. by rewrite insert_singleton_eq in H. }
  eapply rtc_l; [apply Hst, (ask_wakes a1); done|].
  eapply rtc_l; [apply Hst, (ask_leaves _ (inr (Some demo_answer))); done|]. apply rtc_refl.
Qed.

Lemma question_answer_stored_witness :
  fits demo_answer demo_pending ∧ as_closings demo_returned = [(Some demo_answer, true)].
Proof.
  apply (question_answer_stored {["p" := demo_returned]} "p" demo_returned demo_answer demo_question_history
    (lookup_singleton_eq "p" demo_returned) eq_refl).
Defined.

Lemma question_closed_releases_witness : as_event demo_returned = true ∧ length (as_closings demo_returned) = 1.
Proof.
  apply (proj1 (question_closed_releases {["p" := demo_returned]} demo_question_history) "p" demo_returned
    (lookup_singleton_eq "p" demo_returned) eq_refl).
Defined.
