(* ===== verification/TurnErrors.v ===== *)
(** * What a user is told of a failed remote turn.

    The worker reports a failure as one string; [remote_turn_error] of
    [src/cowork/handlers/turn_errors.py] turns it into a code and a sentence,
    and [remote_error_label] names the branch it took for the log.  A pod's
    string can quote a provider, so the theorem is one of non-interference: two
    failures with the same label are told alike, except for the types whose own
    message is meant to be shown. *)
From stdpp Require Import base list strings.
From S2P Require Import Prelude JsonText.

(** ** Codes and sentences *)

Definition CONTENT_RECOVERY_CODE : string := "content_recovery".
Definition CONTENT_RECOVERY_USER_MESSAGE : string :=
  "An image earlier in this conversation couldn't be sent to the model due to an internal formatting issue. I've fixed it automatically — you can keep going.".
Definition CONTENT_TOO_LARGE_CODE : string := "content_too_large".
Definition CONTENT_TOO_LARGE_USER_MESSAGE : string :=
  "An image in this conversation is too large for the model to accept, so it's been removed and the conversation can continue. Attach a smaller or lower-resolution copy if you still need it.".
Definition TOKEN_LIMIT_CODE : string := "token_limit".
Definition TOKEN_LIMIT_USER_MESSAGE : string := "You're out of credits. Add credits to keep working.".
Definition ALLOWANCE_EXHAUSTED_CODE : string := "included_allowance_exhausted".
Definition ALLOWANCE_EXHAUSTED_USER_MESSAGE : string :=
  "You have no free MindsHub Air allowance left. Add credits to keep working now.".
Definition FREE_SERVING_PAUSED_CODE : string := "free_serving_paused".
Definition FREE_SERVING_PAUSED_USER_MESSAGE : string :=
  "Free MindsHub Air is paused for everyone until the daily budget resets. Add credits to keep working now.".
Definition MODEL_NOT_FOUND_CODE : string := "model_not_found".
Definition MODEL_UNAVAILABLE_FALLBACK_MESSAGE : string :=
  "That model isn't available right now. Switch to another model in Settings.".
Definition MODEL_RESTRICTED_CODE : string := "model_restricted".
Definition AUTH_ERROR_CODE : string := "provider_auth".
Definition AUTH_ERROR_USER_MESSAGE : string :=
  "Your MindsHub session is no longer valid — reconnect to keep going, or update your provider key in Settings.".
Definition PROVIDER_OVERLOADED_CODE : string := "provider_overloaded".
Definition PROVIDER_OVERLOADED_FALLBACK_MESSAGE : string :=
  "The model provider is having a temporary incident and didn't recover in time. Try again in a moment.".
Definition MODEL_TIMEOUT_CODE : string := "model_timeout".
Definition MODEL_TIMEOUT_USER_MESSAGE : string :=
  "The model didn't respond, so this turn was ended. Please try again.".
Definition WORKER_UNRESPONSIVE_CODE : string := "worker_unresponsive".
Definition WORKER_UNRESPONSIVE_MESSAGE : string :=
  "The agent didn't start, so this turn never ran. That's a fault on our side rather than a problem with your request. Try again in a moment.".
Definition MODEL_RESTRICTED_USER_MESSAGE : string :=
  "An admin in your organization restricted this model. Choose another model in Settings.".
Definition GENERIC_TURN_ERROR_CODE : string := "anton_error".
Definition GENERIC_TURN_ERROR_MESSAGE : string := "An unexpected error occurred.".

(** The codes whose failure carries the instant the allowance comes back. *)
Definition RESET_AT_CODES : list string := [ALLOWANCE_EXHAUSTED_CODE; FREE_SERVING_PAUSED_CODE].

Definition LEGACY_AUTH_ERROR_MESSAGE_PREFIX : string := "invalid api key".
Definition POD_STREAM_ENDED_PREFIX : string := "pod stream ended without a terminal event".
Definition POD_STREAM_ENDED_USER_MESSAGE : string := "The turn ended unexpectedly. Please try again.".
Definition TURN_ABORTED_TIMEOUT_PREFIX : string := "turn aborted: hard turn timeout".
Definition TURN_ABORTED_TIMEOUT_USER_MESSAGE : string :=
  "This turn took too long and was stopped. Try again with a smaller request.".
Definition TURN_ABORTED_STALL_PREFIX : string := "turn aborted: no output within stall window".
Definition TURN_ABORTED_STALL_USER_MESSAGE : string :=
  "This turn stopped producing output and was ended. Please try again.".
Definition MISSING_ORGANIZATION_SUFFIX : string :=
  "has no organization_id; refusing to run a turn without an organization-scoped workspace".
Definition MISSING_ORGANIZATION_PREFIXES : list string := ["job "; "MissingOrganization:"].
Definition MISSING_ORGANIZATION_USER_MESSAGE : string :=
  "This task's workspace couldn't be set up. Please try again — if it keeps happening, contact support.".
Definition SELF_AUTHORED_TURN_FAILURES : list string := [
  "TurnInterrupted: The turn ended unexpectedly. Please try again.";
  "TurnWorkerLost: the worker running this turn stopped before it finished; the turn was not retried"].
Definition REMOTE_CANCEL_LITERAL : string := "cancelled".
Definition REMOTE_CANCEL_VIA_FAIL_JOB : string := "RuntimeError: cancelled".
Definition LIVE_POD_PREFIX : string := "live pod ".
Definition LIVE_POD_NEVER_RAN_MARKERS : list string := ["before Running"; "did not reach Running within"].
Definition LIVE_POD_NEVER_RAN_USER_MESSAGE : string := "This task's sandbox failed to start. Please try again.".
Definition POD_IDENTITY_MISMATCH_PREFIX : string := "pod ".
Definition POD_IDENTITY_MISMATCH_MARKER : string := "belongs to scratchpad".
Definition POD_IDENTITY_MISMATCH_USER_MESSAGE : string :=
  "This task's sandbox couldn't be started safely. Please try again — if it keeps happening, contact support.".
Definition WORKER_UNRESPONSIVE_TYPE_NAME : string := "TurnWorkerUnresponsive".
Definition PROVIDER_AUTH_ERROR_TYPE_NAME : string := "ProviderAuthError".
Definition CONTENT_TOO_LARGE_TYPE_NAME : string := "ContentTooLargeError".

Record RemoteTypeMapping := {
  rt_code : string;
  rt_message : string;
  rt_passes_message_through : bool;
}.

Definition mapping (code message : string) (passes : bool) : RemoteTypeMapping :=
  {| rt_code := code; rt_message := message; rt_passes_message_through := passes |}.

(** [_REMOTE_TYPE_MAPPINGS]. *)
Definition REMOTE_TYPE_MAPPINGS : list (string * RemoteTypeMapping) := [
  (WORKER_UNRESPONSIVE_TYPE_NAME, mapping WORKER_UNRESPONSIVE_CODE WORKER_UNRESPONSIVE_MESSAGE false);
  ("WalletEmptyError", mapping TOKEN_LIMIT_CODE TOKEN_LIMIT_USER_MESSAGE false);
  ("AllowanceExhaustedError", mapping ALLOWANCE_EXHAUSTED_CODE ALLOWANCE_EXHAUSTED_USER_MESSAGE false);
  ("FreeServingPausedError", mapping FREE_SERVING_PAUSED_CODE FREE_SERVING_PAUSED_USER_MESSAGE false);
  ("TokenLimitExceeded", mapping TOKEN_LIMIT_CODE TOKEN_LIMIT_USER_MESSAGE false);
  ("ProviderOverloadedError", mapping PROVIDER_OVERLOADED_CODE PROVIDER_OVERLOADED_FALLBACK_MESSAGE true);
  ("ModelCallTimeoutError", mapping MODEL_TIMEOUT_CODE MODEL_TIMEOUT_USER_MESSAGE true);
  ("ModelUnavailableError", mapping MODEL_NOT_FOUND_CODE MODEL_UNAVAILABLE_FALLBACK_MESSAGE true);
  ("ModelRestrictedError", mapping MODEL_RESTRICTED_CODE MODEL_RESTRICTED_USER_MESSAGE true);
  (PROVIDER_AUTH_ERROR_TYPE_NAME, mapping AUTH_ERROR_CODE AUTH_ERROR_USER_MESSAGE false);
  (CONTENT_TOO_LARGE_TYPE_NAME, mapping CONTENT_TOO_LARGE_CODE CONTENT_TOO_LARGE_USER_MESSAGE true);
  ("ContentValidationError", mapping CONTENT_RECOVERY_CODE CONTENT_RECOVERY_USER_MESSAGE false)].

Fixpoint lookup_key {A} (key : string) (l : list (string * A)) : option A :=
  match l with
  | [] => None
  | (k, v) :: l' => if String.eqb k key then Some v else lookup_key key l'
  end.

(** The colon of [partition]. *)
Definition cColon : Ascii.ascii := chr 58.

(** [remote_turn_error]. *)
Definition remote_turn_error (error : option string) : string * string :=
  let text := str_strip (default "" error) in
  if bool_decide (text ∈ SELF_AUTHORED_TURN_FAILURES)
  then (GENERIC_TURN_ERROR_CODE, str_strip (str_partition cColon text).2)
  else if str_starts POD_STREAM_ENDED_PREFIX text
  then (GENERIC_TURN_ERROR_CODE, POD_STREAM_ENDED_USER_MESSAGE)
  else if str_starts TURN_ABORTED_TIMEOUT_PREFIX text
  then (GENERIC_TURN_ERROR_CODE, TURN_ABORTED_TIMEOUT_USER_MESSAGE)
  else if str_starts TURN_ABORTED_STALL_PREFIX text
  then (GENERIC_TURN_ERROR_CODE, TURN_ABORTED_STALL_USER_MESSAGE)
  else if existsb (λ p, str_starts p text) MISSING_ORGANIZATION_PREFIXES && str_ends MISSING_ORGANIZATION_SUFFIX text
  then (GENERIC_TURN_ERROR_CODE, MISSING_ORGANIZATION_USER_MESSAGE)
  else if str_starts LIVE_POD_PREFIX text && existsb (λ m, str_contains m text) LIVE_POD_NEVER_RAN_MARKERS
  then (GENERIC_TURN_ERROR_CODE, LIVE_POD_NEVER_RAN_USER_MESSAGE)
  else if str_starts POD_IDENTITY_MISMATCH_PREFIX text && str_contains POD_IDENTITY_MISMATCH_MARKER text
  then (GENERIC_TURN_ERROR_CODE, POD_IDENTITY_MISMATCH_USER_MESSAGE)
  else
    let (type_name, message) := str_partition cColon text in
    let message := str_strip message in
    match lookup_key type_name REMOTE_TYPE_MAPPINGS with
    | Some m => if rt_passes_message_through m && truthy message then (rt_code m, message) else (rt_code m, rt_message m)
    | None =>
        if String.eqb type_name "ConnectionError" && str_starts LEGACY_AUTH_ERROR_MESSAGE_PREFIX (str_lower message)
        then (AUTH_ERROR_CODE, AUTH_ERROR_USER_MESSAGE)
        else (GENERIC_TURN_ERROR_CODE, GENERIC_TURN_ERROR_MESSAGE)
    end.

(** [remote_error_label]. *)
Definition remote_error_label (error : option string) : string :=
  let text := str_strip (default "" error) in
  if bool_decide (text ∈ SELF_AUTHORED_TURN_FAILURES) then (str_partition cColon text).1
  else if str_starts POD_STREAM_ENDED_PREFIX text then "pod_stream_ended"
  else if str_starts TURN_ABORTED_TIMEOUT_PREFIX text then "turn_aborted_timeout"
  else if str_starts TURN_ABORTED_STALL_PREFIX text then "turn_aborted_stall"
  else if existsb (λ p, str_starts p text) MISSING_ORGANIZATION_PREFIXES && str_ends MISSING_ORGANIZATION_SUFFIX text
  then "missing_organization"
  else if str_starts LIVE_POD_PREFIX text && existsb (λ m, str_contains m text) LIVE_POD_NEVER_RAN_MARKERS
  then "live_pod_never_ran"
  else if str_starts POD_IDENTITY_MISMATCH_PREFIX text && str_contains POD_IDENTITY_MISMATCH_MARKER text
  then "pod_identity_mismatch"
  else if bool_decide (text ∈ [REMOTE_CANCEL_LITERAL; REMOTE_CANCEL_VIA_FAIL_JOB]) then "cancelled"
  else
    let (type_name, message) := str_partition cColon text in
    match lookup_key type_name REMOTE_TYPE_MAPPINGS with
    | Some _ => type_name
    | None =>
        if String.eqb type_name "ConnectionError" &&
           str_starts LEGACY_AUTH_ERROR_MESSAGE_PREFIX (str_lower (str_strip message))
        then "ConnectionError"
        else "unmapped"
    end.

(** ** The label decides *)

(** The labels that are not names of the table, and what they stand for. *)
Definition FIXED_LABELS : list (string * (string * string)) := [
  ("TurnInterrupted", (GENERIC_TURN_ERROR_CODE, "The turn ended unexpectedly. Please try again."));
  ("TurnWorkerLost", (GENERIC_TURN_ERROR_CODE,
     "the worker running this turn stopped before it finished; the turn was not retried"));
  ("pod_stream_ended", (GENERIC_TURN_ERROR_CODE, POD_STREAM_ENDED_USER_MESSAGE));
  ("turn_aborted_timeout", (GENERIC_TURN_ERROR_CODE, TURN_ABORTED_TIMEOUT_USER_MESSAGE));
  ("turn_aborted_stall", (GENERIC_TURN_ERROR_CODE, TURN_ABORTED_STALL_USER_MESSAGE));
  ("missing_organization", (GENERIC_TURN_ERROR_CODE, MISSING_ORGANIZATION_USER_MESSAGE));
  ("live_pod_never_ran", (GENERIC_TURN_ERROR_CODE, LIVE_POD_NEVER_RAN_USER_MESSAGE));
  ("pod_identity_mismatch", (GENERIC_TURN_ERROR_CODE, POD_IDENTITY_MISMATCH_USER_MESSAGE));
  ("cancelled", (GENERIC_TURN_ERROR_CODE, GENERIC_TURN_ERROR_MESSAGE));
  ("ConnectionError", (AUTH_ERROR_CODE, AUTH_ERROR_USER_MESSAGE));
  ("unmapped", (GENERIC_TURN_ERROR_CODE, GENERIC_TURN_ERROR_MESSAGE))].

Definition REMOTE_LABELS : list string := map fst FIXED_LABELS ++ map fst REMOTE_TYPE_MAPPINGS.

(** Whether the sentence of a type may be the pod's own. *)
Definition shows_message (label : string) : bool :=
  match lookup_key label REMOTE_TYPE_MAPPINGS with Some m => rt_passes_message_through m | None => false end.

(** What a label and the text after the colon amount to. *)
Definition told (label message : string) : string * string :=
  match lookup_key label REMOTE_TYPE_MAPPINGS with
  | Some m => (rt_code m, if rt_passes_message_through m && truthy message then message else rt_message m)
  | None => default (GENERIC_TURN_ERROR_CODE, GENERIC_TURN_ERROR_MESSAGE) (lookup_key label FIXED_LABELS)
  end.

Definition error_message (error : option string) : string :=
  str_strip (str_partition cColon (str_strip (default "" error))).2.

Lemma lookup_key_elem {A} key (l : list (string * A)) v : lookup_key key l = Some v → key ∈ map fst l.
Proof.
  induction l as [|[k x] l IH]; cbn; [done|]. destruct (String.eqb_spec k key) as [-> |_]; [left|].
  intros H. right. by apply IH.
Qed.

(** [remote_turn_error] and [remote_error_label] take the same branch. *)
Lemma told_by_label error :
  remote_turn_error error = told (remote_error_label error) (error_message error) ∧
  remote_error_label error ∈ REMOTE_LABELS.
Proof.
  unfold remote_turn_error, remote_error_label, error_message.
  set (text := str_strip (default "" error)). clearbody text.
  assert (Hin : ∀ l, bool_decide (l ∈ REMOTE_LABELS) = true → l ∈ REMOTE_LABELS) by (intros l; apply bool_decide_eq_true).
  case_bool_decide as Hself.
  { unfold SELF_AUTHORED_TURN_FAILURES in Hself.
    repeat (apply elem_of_cons in Hself as [-> |Hself];
      [split; [vm_compute; reflexivity|apply Hin; vm_compute; reflexivity]|]).
    by apply not_elem_of_nil in Hself. }
  repeat (match goal with |- context [if ?c then (GENERIC_TURN_ERROR_CODE, _) else _] =>
    destruct c; [by split; [|apply Hin]|] end).
  case_bool_decide as Hcancel.
  { repeat (apply elem_of_cons in Hcancel as [-> |Hcancel];
      [split; [vm_compute; reflexivity|apply Hin; vm_compute; reflexivity]|]).
    by apply not_elem_of_nil in Hcancel. }
  destruct (str_partition cColon text) as [type_name message] eqn:Ep. cbn [snd].
  destruct (lookup_key type_name REMOTE_TYPE_MAPPINGS) as [m|] eqn:Em.
  - split; [|apply elem_of_app; right; by eapply lookup_key_elem].
    unfold told. rewrite Em. by destruct (rt_passes_message_through m && _).
  - destruct (_ && _); by split; [|apply Hin].
Qed.

(** a pod's text reaches the user only where it is meant to. The label that
    is logged is one of a fixed list; two failure strings with the same label
    get the same code, and the same sentence unless the label is one of the
    types whose own message is shown. So what the pod wrote around an error it
    was not written for (provider text, stderr, ids) never reaches the user. *)
Theorem remote_error_redacted e1 e2 :
  remote_error_label e1 ∈ REMOTE_LABELS ∧
  (remote_error_label e1 = remote_error_label e2 →
     (remote_turn_error e1).1 = (remote_turn_error e2).1 ∧
     (shows_message (remote_error_label e1) = false → remote_turn_error e1 = remote_turn_error e2)).
Proof.
  destruct (told_by_label e1) as [E1 Hin]. destruct (told_by_label e2) as [E2 _].
  split; [done|]. intros Hl. rewrite E1, E2, Hl. unfold told, shows_message.
  destruct (lookup_key _ REMOTE_TYPE_MAPPINGS) as [m|]; [|done]. split; [done|]. by intros ->.
Qed.

Definition demo_provider_error : option string := Some "APIError: sk-live-123 refused".

Lemma remote_error_redacted_witness :
  remote_turn_error demo_provider_error = remote_turn_error (Some "cannot reach host") ∧
  remote_turn_error demo_provider_error = ("anton_error", "An unexpected error occurred.").
Proof.
  split; [|vm_compute; reflexivity].
  refine (proj2 (proj2 (remote_error_redacted demo_provider_error (Some "cannot reach host")) _) _);
    vm_compute; reflexivity.
Defined.
