(* ===== verification/TurnRequest.v ===== *)
(** * The request of a remote turn ([src/cowork/turnqueue/producer.py]).

    The pod reads the request as one line of bounded length, so [_fit_request]
    sheds what is optional until it fits: the skills recalled on demand, then
    project memory, then the always-on skills.  It keeps a running size instead
    of serialising the request again for each skill; the theorems say that this
    finds exactly the first request that fits in the documented order.

    The skills block is that of [src/cowork/schemas/turn_skills.py].  Texts are
    UTF-8 bytes and [json.dumps] writes ASCII, so a length is a size in bytes. *)
From stdpp Require Import base list gmap strings option.
From Stdlib Require Import ZArith Lia.
From S2P Require Import Prelude JsonObject JsonText JsonAscii.

Definition MAX_REQUEST_BYTES : Z := 10 * 1024 * 1024.
Definition REQUEST_BYTES_MARGIN : Z := 64 * 1024.
Definition DEFAULT_WORKSPACE_PATH : string := "projects/general".

Abbreviation params_t := (list (string * json)).

(** ** The skills block *)

Record TurnSkillEntry := { ts_files : list (string * string); ts_always_on : bool }.

(** [entry.model_dump(exclude_defaults=True)]. *)
Definition skill_wire (e : TurnSkillEntry) : json :=
  JObj (("files", JObj (map (λ f, (f.1, JStr f.2)) (ts_files e))) ::
        if ts_always_on e then [("always_on", JBool true)] else []).

(** [turn_skills_wire]. *)
Definition turn_skills_wire (skills : list (string * TurnSkillEntry)) : params_t :=
  map (λ s, (s.1, skill_wire s.2)) skills.

(** How pydantic reads a [bool]. *)
Definition lax_bool (j : json) : option bool :=
  match j with
  | JBool b => Some b
  | JInt n => if (n =? 0)%Z then Some false else if (n =? 1)%Z then Some true else None
  | JFloat r =>
      if bool_decide (r ∈ ["0.0"; "-0.0"]) then Some false else if String.eqb r "1.0" then Some true else None
  | JStr s =>
      if bool_decide (str_lower s ∈ ["0"; "off"; "f"; "false"; "n"; "no"]) then Some false
      else if bool_decide (str_lower s ∈ ["1"; "on"; "t"; "true"; "y"; "yes"]) then Some true else None
  | _ => None
  end.

Definition is_JStr (j : json) : bool := match j with JStr _ => true | _ => false end.

(** [TurnSkillEntry.model_validate(entry).always_on]. *)
Definition entry_always_on (entry : json) : exn + bool :=
  match entry with
  | JObj l =>
      match obj_get l "files" with
      | Some (JObj files) =>
          if forallb (λ f, is_JStr f.2) files then
            match obj_get l "always_on" with
            | None => inr false
            | Some v => match lax_bool v with Some b => inr b | None => inl (ValidationError "always_on") end
            end
          else inl (ValidationError "files")
      | _ => inl (ValidationError "files")
      end
  | _ => inl (ValidationError "TurnSkillEntry")
  end.

(** ** Shedding *)

(** [_request_wire_size]. *)
Definition request_wire_size (params : params_t) : Z := Z.of_nat (String.length (dumps_compact (JObj params))).

(** The comprehension of [_shed_skills]: the slugs of one rank, in the order of
    the block. *)
Fixpoint ranked_slugs (always_on : bool) (skills : params_t) : exn + list string :=
  match skills with
  | [] => inr []
  | (slug, entry) :: rest =>
      match entry_always_on entry with
      | inl e => inl e
      | inr b =>
          match ranked_slugs always_on rest with
          | inl e => inl e
          | inr slugs => inr (if Bool.eqb b always_on then slug :: slugs else slugs)
          end
      end
  end.

(** The loop of [_shed_skills], over [reversed(ranked)]. *)
Fixpoint shed_loop (budget : Z) (slugs : list string) (skills : params_t) (size : Z) : exn + params_t * Z :=
  match slugs with
  | [] => inr (skills, size)
  | slug :: rest =>
      if (size <=? budget)%Z then inr (skills, size)
      else
        match obj_get skills slug with
        | None => inl (KeyError slug)
        | Some entry =>
            let skills := obj_del skills slug in
            let entry_bytes := (request_wire_size [(slug, entry)] - 2)%Z in
            shed_loop budget rest skills (size - (entry_bytes + match skills with [] => 0 | _ => 1 end))%Z
        end
  end.

(** [_shed_skills]. *)
Definition shed_skills (params : params_t) (size budget : Z) (always_on : bool) : exn + params_t * Z :=
  match obj_get params "skills" with
  | Some (JObj skills) =>
      if (size <=? budget)%Z then inr (params, size)
      else
        match ranked_slugs always_on skills with
        | inl e => inl e
        | inr ranked =>
            match shed_loop budget (rev ranked) skills size with
            | inl e => inl e
            | inr (skills, size) => inr (obj_set params "skills" (JObj skills), size)
            end
        end
  | _ => inr (params, size)
  end.

(** The memory branch of [_fit_request]: [params.pop("memory", None) is not None]
    and the new size. *)
Definition shed_memory (params : params_t) (size budget : Z) : params_t * Z :=
  if (size <=? budget)%Z then (params, size)
  else
    match obj_get params "memory" with
    | None => (params, size)
    | Some JNull => (obj_del params "memory", size)
    | Some _ => (obj_del params "memory", request_wire_size (obj_del params "memory"))
    end.

Definition BUDGET : Z := MAX_REQUEST_BYTES - REQUEST_BYTES_MARGIN.

(** [_fit_request], with the size it ends with, which only its log lines use. *)
Definition fit_request_sized (params : params_t) : exn + params_t * Z :=
  match shed_skills params (request_wire_size params) BUDGET false with
  | inl e => inl e
  | inr (params, size) =>
      let (params, size) := shed_memory params size BUDGET in
      shed_skills params size BUDGET true
  end.
Definition fit_request (params : params_t) : exn + params_t :=
  match fit_request_sized params with inl e => inl e | inr (params, _) => inr params end.

(** ** The parameters of a turn *)

Record TurnArgs := {
  ta_input : string;
  ta_workspace_path : option string;   (* workspace.workspace_rel_path *)
  ta_workspace_mode : string;
  ta_model : string;
  ta_history : list json;
  ta_llm : params_t;
  ta_interactive : bool;
  ta_tool_messages : bool;
  ta_memory : option json;
  ta_skills : list (string * TurnSkillEntry);
  ta_oauth : option json;
  ta_connectors : option json;
  ta_datasource : option json;
  ta_started_at : option string;
  ta_trace : params_t;
}.

(** [s.lstrip("/")]. *)
Fixpoint lstrip_slash (s : string) : string :=
  match s with
  | String.String c s' => if Nat.eqb (ord c) 47 then lstrip_slash s' else s
  | EmptyString => ""
  end.

(** [project_memory] and [memory_block]: only the project tier travels. *)
Definition memory_block (memory : option json) : option json :=
  match memory with
  | Some (JObj l) =>
      match obj_get l "project" with
      | Some (JObj (x :: p)) => Some (JObj [("project", JObj (x :: p))])
      | _ => None
      end
  | _ => None
  end.

Definition optional (key : string) (o : option json) : params_t :=
  match o with Some j => if json_truthy j then [(key, j)] else [] | None => [] end.

(** [params] of [stream_remote_replies], before it is fitted. *)
Definition turn_params (a : TurnArgs) : params_t :=
  [("input", JStr (ta_input a));
   ("workspace_path", JStr (lstrip_slash (default DEFAULT_WORKSPACE_PATH (ta_workspace_path a))));
   ("workspace_mode", JStr (ta_workspace_mode a)); ("model", JStr (ta_model a));
   ("history", JArr (ta_history a)); ("llm", JObj (ta_llm a));
   ("interactive", JBool (ta_interactive a)); ("tool_messages", JBool (ta_tool_messages a))] ++
  optional "memory" (memory_block (ta_memory a)) ++
  [("skills", JObj (turn_skills_wire (ta_skills a)))] ++
  optional "oauth" (ta_oauth a) ++ optional "connectors" (ta_connectors a) ++
  optional "datasource" (ta_datasource a) ++ optional "started_at" (JStr <$> ta_started_at a) ++
  [("trace", JObj (ta_trace a))].

(** ** The reference: one thing at a time, measured afresh *)

Inductive part := Skill (slug : string) | Memory.

(** A request without one of its optional parts. *)
Definition drop_part (x : part) (params : params_t) : params_t :=
  match x with
  | Memory => obj_del params "memory"
  | Skill slug =>
      match obj_get params "skills" with
      | Some (JObj skills) => obj_set params "skills" (JObj (obj_del skills slug))
      | _ => params
      end
  end.

(** Drop the parts in order until the request fits. *)
Fixpoint shed_until (budget : Z) (parts : list part) (params : params_t) : params_t :=
  match parts with
  | [] => params
  | x :: rest => if (request_wire_size params <=? budget)%Z then params else shed_until budget rest (drop_part x params)
  end.

Definition slugs_of (always_on : bool) (skills : list (string * TurnSkillEntry)) : list string :=
  map fst (base.filter (λ s, ts_always_on s.2 = always_on) skills).

(** Least needed first. *)
Definition shed_order (a : TurnArgs) : list part :=
  map Skill (rev (slugs_of false (ta_skills a))) ++
  match memory_block (ta_memory a) with Some _ => [Memory] | None => [] end ++
  map Skill (rev (slugs_of true (ta_skills a))).

(** ** Sizes *)

(** The members of an object with a comma each. *)
Definition members_size (l : params_t) : Z :=
  foldr (λ kv acc, (Z.of_nat (String.length (dumps_member kv)) + 1 + acc)%Z) 0%Z l.

Lemma length_join l :
  Z.of_nat (String.length (str_join "," l)) =
  (foldr (λ s acc, Z.of_nat (String.length s) + 1 + acc) 0 l - match l with [] => 0 | _ => 1 end)%Z.
Proof.
  induction l as [|s [|s' l] IH]; [done| |].
  - cbn [str_join foldr]. lia.
  - cbn [str_join] in IH |- *. rewrite !length_append, !Nat2Z.inj_add. cbn [foldr] in IH |- *. rewrite IH.
    cbn. lia.
Qed.

Lemma size_object l :
  request_wire_size l = (2 + members_size l - match l with [] => 0 | _ => 1 end)%Z.
Proof.
  unfold request_wire_size. cbn [dumps_compact]. rewrite !length_append, !Nat2Z.inj_add, length_join.
  assert (E : foldr (λ s acc, (Z.of_nat (String.length s) + 1 + acc)%Z) 0%Z (map dumps_member l) = members_size l).
  { induction l as [|kv l IH]; [done|]. cbn [map foldr]. rewrite IH. done. }
  change (map _ l) with (map dumps_member l). rewrite E. cbn. destruct l; cbn; lia.
Qed.

Lemma member_size k j :
  Z.of_nat (String.length (dumps_member (k, j))) =
  (Z.of_nat (String.length (dumps_ascii_str k)) + 1 + Z.of_nat (String.length (dumps_compact j)))%Z.
Proof. unfold dumps_member. rewrite !length_append. cbn [String.length fst snd]. lia. Qed.

Lemma members_size_app l1 l2 : members_size (l1 ++ l2) = (members_size l1 + members_size l2)%Z.
Proof. induction l1 as [|kv l1 IH]; [done|]. cbn. unfold members_size in *. cbn. rewrite IH. lia. Qed.

(** What the loop subtracts for a skill is what the block loses. *)
Lemma size_del l k v :
  NoDup (keys l) → obj_get l k = Some v →
  request_wire_size (obj_del l k) =
  (request_wire_size l - (request_wire_size [(k, v)] - 2 + match obj_del l k with [] => 0 | _ => 1 end))%Z.
Proof.
  intros Hnd Hg. destruct (obj_get_split l k v Hnd Hg) as (l1 & l2 & -> & H1 & H2).
  rewrite obj_del_split, !size_object, !members_size_app by done.
  replace (members_size ((k, v) :: l2)) with
    (members_size [(k, v)] + members_size l2)%Z by (unfold members_size; cbn [foldr]; lia).
  destruct l1 as [|? l1]; cbn [app]; destruct l2; lia.
Qed.

(** The size of a request in which one value is replaced. *)
Lemma size_set l k v x :
  NoDup (keys l) → obj_get l k = Some v →
  request_wire_size (obj_set l k x) =
  (request_wire_size l - Z.of_nat (String.length (dumps_compact v)) + Z.of_nat (String.length (dumps_compact x)))%Z.
Proof.
  intros Hnd Hg. destruct (obj_get_split l k v Hnd Hg) as (l1 & l2 & -> & H1 & H2).
  rewrite obj_set_split, !size_object, !members_size_app by done.
  unfold members_size at 2 4. cbn [foldr]. rewrite !member_size. fold (members_size l2).
  destruct l1; cbn [app]; lia.
Qed.

(** ** Requests with a skills block *)

Record request_ok (params skills : params_t) : Prop := {
  ro_keys : NoDup (keys params);
  ro_skills : obj_get params "skills" = Some (JObj skills);
  ro_slugs : NoDup (keys skills);
}.

Lemma request_ok_set params skills skills' :
  request_ok params skills → NoDup (keys skills') → request_ok (obj_set params "skills" (JObj skills')) skills'.
Proof.
  intros [Hk Hs Hn] Hn'. assert (Hk' : NoDup (keys (obj_set params "skills" (JObj skills')))).
  { by rewrite (keys_obj_set _ _ (JObj skills)). }
  split; [done| |done]. apply obj_get_elem; [done|].
  destruct (obj_get_split _ _ _ Hk Hs) as (l1 & l2 & -> & H1 & _). rewrite obj_set_split by done. set_solver.
Qed.

(** The running size is the size of the request. *)
Lemma drop_skill_size params skills slug entry :
  request_ok params skills → obj_get skills slug = Some entry →
  request_ok (drop_part (Skill slug) params) (obj_del skills slug) ∧
  request_wire_size (drop_part (Skill slug) params) =
  (request_wire_size params -
   (request_wire_size [(slug, entry)] - 2 + match obj_del skills slug with [] => 0 | _ => 1 end))%Z.
Proof.
  intros Hok He. pose proof Hok as [Hk Hs Hn]. unfold drop_part. rewrite Hs.
  split; [by apply (request_ok_set _ skills); [|apply NoDup_obj_del]|].
  rewrite (size_set _ _ (JObj skills)) by done.
  pose proof (size_del skills slug entry Hn He) as E.
  fold (request_wire_size skills) (request_wire_size (obj_del skills slug)). lia.
Qed.

(** Removing some of the skills. *)
Definition without (gone : list string) (skills : params_t) : params_t :=
  base.filter (λ kv, kv.1 ∉ gone) skills.

Lemma without_del gone skills slug : without gone (obj_del skills slug) = without (slug :: gone) skills.
Proof.
  unfold without, obj_del. rewrite list_filter_filter. apply list_filter_iff. intros [k v]. cbn.
  rewrite not_elem_of_cons. naive_solver.
Qed.

Lemma shed_loop_spec budget slugs : ∀ params skills,
  request_ok params skills → NoDup slugs → slugs ⊆ keys skills →
  ∃ skills' gone,
    shed_loop budget slugs skills (request_wire_size params) =
      inr (skills', request_wire_size (shed_until budget (map Skill slugs) params)) ∧
    obj_set params "skills" (JObj skills') = shed_until budget (map Skill slugs) params ∧
    skills' = without gone skills ∧ gone ⊆ slugs.
Proof.
  induction slugs as [|slug slugs IH]; intros params skills Hok Hnd Hsub; cbn [shed_loop map shed_until].
  all: assert (Hstop : obj_set params "skills" (JObj skills) = params ∧ skills = without [] skills) by
    (split; [by apply obj_set_same; apply Hok|symmetry; apply filter_every, list.Forall_forall; set_solver]).
  { destruct Hstop. exists skills, []. eauto. }
  destruct (_ <=? _)%Z; [destruct Hstop; exists skills, []; split; [done|]; split; [done|]; split; [done|set_solver]|].
  apply list.NoDup_cons in Hnd as [Hni Hnd].
  destruct (key_obj_get skills slug) as [entry He]; [set_solver|]. rewrite He.
  destruct (drop_skill_size params skills slug entry Hok He) as [Hok' <-].
  assert (Eset : ∀ x, obj_set (drop_part (Skill slug) params) "skills" x = obj_set params "skills" x).
  { intros x. unfold drop_part. rewrite (ro_skills _ _ Hok). apply obj_set_set. }
  destruct (IH _ _ Hok') as (skills' & gone & H1 & H2 & -> & H4); [done| |].
  { intros s Hs. rewrite keys_obj_del. apply list_elem_of_filter. split; [by intros ->|set_solver]. }
  exists (without gone (obj_del skills slug)), (slug :: gone).
  rewrite H1, <-H2, Eset. split; [done|]. split; [done|]. split; [apply without_del|set_solver].
Qed.

(** ** The reference is reached *)

Lemma entry_wire e : entry_always_on (skill_wire e) = inr (ts_always_on e).
Proof.
  unfold skill_wire, entry_always_on. destruct e as [files []]; cbn.
  all: assert (Hf : forallb (λ f, is_JStr f.2) (map (λ f : string * string, (f.1, JStr f.2)) files) = true)
    by (induction files; cbn; auto).
  all: by rewrite Hf.
Qed.

Lemma ranked_wire b s : ranked_slugs b (turn_skills_wire s) = inr (slugs_of b s).
Proof.
  induction s as [|[slug e] s IH]; [done|]. cbn [turn_skills_wire map ranked_slugs fst snd].
  rewrite entry_wire. fold (turn_skills_wire s). rewrite IH. unfold slugs_of. f_equal.
  destruct (decide (ts_always_on e = b)) as [E|E].
  - rewrite list.filter_cons_True by done. cbn. by rewrite E, Bool.eqb_reflx.
  - rewrite list.filter_cons_False by done. by destruct (ts_always_on e), b.
Qed.

Lemma keys_wire s : keys (turn_skills_wire s) = map fst s.
Proof. unfold keys, turn_skills_wire. rewrite map_map. by apply map_ext. Qed.

Definition kept (gone : list string) (s : list (string * TurnSkillEntry)) : list (string * TurnSkillEntry) :=
  base.filter (λ kv, kv.1 ∉ gone) s.

Lemma without_wire gone s : without gone (turn_skills_wire s) = turn_skills_wire (kept gone s).
Proof.
  induction s as [|[slug e] s IH]; [done|]. unfold without, kept in *. cbn [turn_skills_wire map fst snd].
  destruct (decide (slug ∈ gone)).
  - rewrite !list.filter_cons_False by (cbn; auto). done.
  - rewrite !list.filter_cons_True by (cbn; auto). cbn. by f_equal.
Qed.

Lemma slugs_sub b s : slugs_of b s ⊆ map fst s.
Proof.
  intros k (x & -> & [_ H]%list_elem_of_filter)%list_elem_of_fmap. apply list_elem_of_fmap. eauto.
Qed.

Lemma NoDup_slugs b s : NoDup (map fst s) → NoDup (slugs_of b s).
Proof.
  induction s as [|[slug e] s IH]; [done|]. cbn [map fst]. intros [Hni Hnd]%list.NoDup_cons. unfold slugs_of in *.
  destruct (decide (ts_always_on e = b)).
  - rewrite list.filter_cons_True by done. cbn. apply list.NoDup_cons. split; [|by apply IH].
    intros H. by apply Hni, (slugs_sub b s).
  - rewrite list.filter_cons_False by done. by apply IH.
Qed.

(** Shedding on-demand skills leaves the always-on ones. *)
Lemma slugs_kept gone s :
  NoDup (map fst s) → gone ⊆ slugs_of false s → slugs_of true (kept gone s) = slugs_of true s.
Proof.
  intros Hnd Hg. assert (Hno : ∀ kv, kv ∈ s → ts_always_on kv.2 = true → kv.1 ∉ gone).
  { intros [k e] Hin Ht Hk%Hg. cbn in Ht, Hk. apply list_elem_of_lookup in Hin as [i Hi].
    apply list_elem_of_fmap in Hk as ([k' e'] & E & [Hf Hin]%list_elem_of_filter). cbn in E, Hf. subst k'.
    apply list_elem_of_lookup in Hin as [j Hj].
    assert (i = j); [|congruence]. eapply (NoDup_lookup (fst <$> s)); [exact Hnd|..].
    - rewrite list_lookup_fmap, Hi. done.
    - rewrite list_lookup_fmap, Hj. done. }
  clear Hnd Hg. unfold slugs_of, kept. f_equal.
  induction s as [|kv s IH]; [done|]. specialize (IH ltac:(set_solver)).
  destruct (decide (kv.1 ∈ gone)) as [Hd|Hd].
  - rewrite (list.filter_cons_False (λ kv, kv.1 ∉ gone)) by auto. rewrite IH, list.filter_cons_False; [done|].
    intros Ht. by apply (Hno kv); [left|..].
  - rewrite (list.filter_cons_True (λ kv, kv.1 ∉ gone)) by auto.
    destruct (decide (ts_always_on kv.2 = true)).
    + rewrite !list.filter_cons_True by done. by f_equal.
    + rewrite !list.filter_cons_False by done. done.
Qed.

Lemma shed_until_fits budget parts params : (request_wire_size params ≤ budget)%Z → shed_until budget parts params = params.
Proof. intros H. destruct parts; [done|]. cbn [shed_until]. by rewrite (proj2 (Z.leb_le _ _) H). Qed.

Lemma shed_until_app budget p1 p2 params :
  shed_until budget (p1 ++ p2) params = shed_until budget p2 (shed_until budget p1 params).
Proof.
  revert params. induction p1 as [|x p1 IH]; intros params; [done|]. cbn [app shed_until].
  destruct (Z.leb_spec (request_wire_size params) budget); [by rewrite shed_until_fits|apply IH].
Qed.

Lemma shed_skills_spec budget b params s :
  request_ok params (turn_skills_wire s) →
  let params' := shed_until budget (map Skill (rev (slugs_of b s))) params in
  ∃ gone, shed_skills params (request_wire_size params) budget b = inr (params', request_wire_size params') ∧
    request_ok params' (turn_skills_wire (kept gone s)) ∧ gone ⊆ slugs_of b s.
Proof.
  intros Hok. pose proof Hok as [Hk Hs Hn]. cbn zeta. unfold shed_skills. rewrite Hs.
  destruct (Z.leb_spec (request_wire_size params) budget) as [Hle|Hgt].
  { exists []. rewrite shed_until_fits by done. split; [done|]. split; [|set_solver].
    rewrite <-without_wire. unfold without. rewrite filter_every; [done|]. apply list.Forall_forall. set_solver. }
  rewrite ranked_wire. rewrite keys_wire in Hn.
  destruct (shed_loop_spec budget (rev (slugs_of b s)) params (turn_skills_wire s)) as (sk & gone & H1 & H2 & -> & H4);
    [done|by apply NoDup_ListNoDup, NoDup_rev, NoDup_ListNoDup, NoDup_slugs| |].
  { intros x Hx%list_elem_of_In%in_rev%list_elem_of_In. rewrite keys_wire. by apply (slugs_sub b). }
  exists gone. rewrite H1, H2. split; [done|]. rewrite <-H2, without_wire. split.
  - apply (request_ok_set _ (turn_skills_wire s)); [done|]. rewrite <-without_wire.
    unfold without, keys. rewrite <-keys_wire in Hn. unfold keys in Hn. clear -Hn.
    induction (turn_skills_wire s) as [|kv l IH]; [done|]. cbn in Hn. apply list.NoDup_cons in Hn as [Hni Hn].
    destruct (decide (kv.1 ∈ gone)).
    + rewrite list.filter_cons_False by auto. by apply IH.
    + rewrite list.filter_cons_True by auto. cbn. apply list.NoDup_cons. split; [|by apply IH].
      intros (x & E & [_ Hx]%list_elem_of_filter)%list_elem_of_fmap. apply Hni, list_elem_of_fmap. eauto.
  - intros x Hx%H4. by apply list_elem_of_In, in_rev, list_elem_of_In in Hx.
Qed.

(** ** The fitted request *)

Lemma drop_part_keys x params : NoDup (keys params) → NoDup (keys (drop_part x params)).
Proof.
  intros Hnd. destruct x; cbn [drop_part]; [|by apply NoDup_obj_del].
  destruct (obj_get params "skills") as [[]|] eqn:E; try done. by rewrite (keys_obj_set _ _ _ _ Hnd E).
Qed.

Lemma drop_part_get x params k :
  NoDup (keys params) → k ≠ "skills" → (x = Memory → k ≠ "memory") →
  obj_get (drop_part x params) k = obj_get params k.
Proof.
  intros Hnd Hs Hm. destruct x; cbn [drop_part]; [|by apply obj_get_del; auto].
  destruct (obj_get params "skills") as [[]|]; try done. by apply obj_get_set_ne.
Qed.

Lemma shed_until_get budget parts params k :
  NoDup (keys params) → k ≠ "skills" → (Memory ∈ parts → k ≠ "memory") →
  obj_get (shed_until budget parts params) k = obj_get params k.
Proof.
  revert params. induction parts as [|x parts IH]; intros params Hnd Hs Hm; [done|]. cbn [shed_until].
  destruct (_ <=? _)%Z; [done|]. rewrite IH; [|by apply drop_part_keys|done|set_solver].
  apply drop_part_get; [done|done|]. intros ->. apply Hm. by left.
Qed.

Definition ALL_KEYS : list string :=
  ["input"; "workspace_path"; "workspace_mode"; "model"; "history"; "llm"; "interactive"; "tool_messages"; "memory";
   "skills"; "oauth"; "connectors"; "datasource"; "started_at"; "trace"].

Lemma keys_optional k o : keys (optional k o) `sublist_of` [k].
Proof.
  unfold optional. destruct o as [j|]; [destruct (json_truthy j)|]; cbn; eauto using sublist_nil_l.
Qed.

Lemma turn_params_keys a : NoDup (keys (turn_params a)).
Proof.
  apply (sublist_NoDup _ ALL_KEYS); [by apply (bool_decide_unpack (NoDup ALL_KEYS)); vm_compute|].
  unfold turn_params, keys. rewrite !map_app.
  change ALL_KEYS with (["input"; "workspace_path"; "workspace_mode"; "model"; "history"; "llm"; "interactive";
    "tool_messages"] ++ ["memory"] ++ ["skills"] ++ ["oauth"] ++ ["connectors"] ++ ["datasource"] ++ ["started_at"] ++
    ["trace"]).
  repeat (apply sublist_app; [first [apply keys_optional|done]|]). done.
Qed.

Lemma turn_params_ok a : NoDup (map fst (ta_skills a)) → request_ok (turn_params a) (turn_skills_wire (ta_skills a)).
Proof.
  intros Hnd. split; [apply turn_params_keys| |by rewrite keys_wire].
  apply obj_get_elem; [apply turn_params_keys|]. unfold turn_params. set_solver.
Qed.

Lemma turn_params_optional a k o :
  (k, o) ∈ [("memory", memory_block (ta_memory a)); ("oauth", ta_oauth a); ("connectors", ta_connectors a);
            ("datasource", ta_datasource a)] →
  obj_get (turn_params a) k = match o with Some j => if json_truthy j then Some j else None | None => None end.
Proof.
  intros Hk. assert (Hin : ∀ v, (k, v) ∈ turn_params a ↔ (k, v) ∈ optional k o).
  { intros v. unfold turn_params. rewrite !elem_of_app.
    assert (Hother : ∀ k' o', k' ≠ k → (k, v) ∉ optional k' o').
    { intros k' o' Hne. unfold optional. destruct o' as [j|]; [destruct (json_truthy j)|]; set_solver. }
    repeat (apply elem_of_cons in Hk as [[= -> ->]|Hk];
      [rewrite !elem_of_cons; split; [|tauto];
       intros H; repeat (match type of H with _ ∨ _ => destruct H as [H|H] end); try done; try (exfalso; revert H; by apply Hother);
         try (by apply not_elem_of_nil in H)|]).
    by apply not_elem_of_nil in Hk. }
  apply option_eq. intros v. rewrite obj_get_elem by apply turn_params_keys. rewrite Hin. unfold optional.
  destruct o as [j|]; [destruct (json_truthy j)|]; set_solver.
Qed.

Lemma memory_block_truthy m j : memory_block m = Some j → json_truthy j = true ∧ j ≠ JNull.
Proof. unfold memory_block. intros H. repeat case_match; simplify_eq. done. Qed.

Lemma shed_memory_spec budget a params s :
  request_ok params s → obj_get params "memory" = memory_block (ta_memory a) →
  let params' := shed_until budget match memory_block (ta_memory a) with Some _ => [Memory] | None => [] end params in
  shed_memory params (request_wire_size params) budget = (params', request_wire_size params') ∧ request_ok params' s.
Proof.
  intros [Hk Hs Hn] Hm. cbn zeta. unfold shed_memory. rewrite Hm.
  destruct (memory_block (ta_memory a)) as [j|] eqn:E; cbn [shed_until].
  - apply memory_block_truthy in E as [_ Hj]. destruct (_ <=? _)%Z; [done|]. split; [by destruct j|].
    cbn [drop_part]. split; [by apply NoDup_obj_del| |done]. by rewrite obj_get_del.
  - split; [by destruct (_ <=? _)%Z|done].
Qed.

(** The whole of [_fit_request], its running size included. *)
Lemma fit_request_sized_spec a :
  NoDup (map fst (ta_skills a)) →
  let params := shed_until BUDGET (shed_order a) (turn_params a) in
  fit_request_sized (turn_params a) = inr (params, request_wire_size params) ∧
  ∃ s, request_ok params (turn_skills_wire s).
Proof.
  intros Hnd. cbn zeta. pose proof (turn_params_ok a Hnd) as Hok. unfold fit_request_sized.
  destruct (shed_skills_spec BUDGET false _ _ Hok) as (gone & -> & Hok1 & Hgone).
  set (p1 := shed_until BUDGET (map Skill _) (turn_params a)) in *.
  assert (Hm : obj_get p1 "memory" = memory_block (ta_memory a)).
  { unfold p1. rewrite shed_until_get; [|apply turn_params_keys|done|].
    - rewrite (turn_params_optional a _ (memory_block (ta_memory a))) by left.
      destruct (memory_block (ta_memory a)) eqn:E; [|done]. apply memory_block_truthy in E as [-> _]. done.
    - intros (x & ? & _)%list_elem_of_fmap. done. }
  destruct (shed_memory_spec BUDGET a p1 _ Hok1 Hm) as [-> Hok2].
  destruct (shed_skills_spec BUDGET true _ _ Hok2) as (gone' & -> & Hok3 & _).
  rewrite slugs_kept in Hok3 |- * by done. unfold shed_order. rewrite !shed_until_app. eauto.
Qed.

(** the fitted request is the first that fits in the documented order.
    Whatever the request of a turn holds, [_fit_request] succeeds, and its
    incremental size arithmetic gives what dropping one optional part at a time
    and serialising the request again would: skills recalled on demand from the
    last to the first, then project memory, then always-on skills from the last
    to the first, stopping at the first request within the limit. *)
Theorem fit_request_spec a :
  NoDup (map fst (ta_skills a)) →
  fit_request (turn_params a) = inr (shed_until BUDGET (shed_order a) (turn_params a)).
Proof. intros Hnd. unfold fit_request. by rewrite (proj1 (fit_request_sized_spec a Hnd)). Qed.

(** ** When nothing is left to shed *)

Definition slug_in (slug : string) (params : params_t) : Prop :=
  ∃ skills, obj_get params "skills" = Some (JObj skills) ∧ slug ∈ keys skills.

Definition present (x : part) (params : params_t) : Prop :=
  match x with Skill slug => slug_in slug params | Memory => is_Some (obj_get params "memory") end.

Lemma present_drop x y params :
  NoDup (keys params) → present x (drop_part y params) → present x params ∧ x ≠ y.
Proof.
  intros Hnd. destruct y as [slug|]; cbn [drop_part].
  - destruct (obj_get params "skills") as [[]|] eqn:E; try (destruct x; cbn; unfold slug_in; rewrite ?E; naive_solver).
    destruct x as [slug'|]; cbn [present].
    + intros (sk & Hg & Hk). rewrite obj_get_set_eq in Hg by done. simplify_eq.
      rewrite keys_obj_del in Hk. apply list_elem_of_filter in Hk as [Hne Hk]. split; [by exists fields|congruence].
    + rewrite obj_get_set_ne by done. done.
  - destruct x as [slug'|]; cbn [present].
    + intros (sk & Hg & Hk). rewrite obj_get_del in Hg by done. split; [by exists sk|done].
    + intros [v Hv%obj_get_is_key]. rewrite keys_obj_del in Hv. by apply list_elem_of_filter in Hv as [? _].
Qed.

Lemma shed_until_present budget parts params x :
  NoDup (keys params) → present x (shed_until budget parts params) → present x params.
Proof.
  revert params. induction parts as [|y parts IH]; intros params Hnd; [done|]. cbn [shed_until].
  destruct (_ <=? _)%Z; [done|]. intros H%IH; [|by apply drop_part_keys]. by apply present_drop in H as [? _].
Qed.

(** A request that still does not fit has lost every part. *)
Lemma shed_until_exhausts budget parts params x :
  NoDup (keys params) → (budget < request_wire_size (shed_until budget parts params))%Z → x ∈ parts →
  ¬ present x (shed_until budget parts params).
Proof.
  revert params. induction parts as [|y parts IH]; intros params Hnd; [by intros _ ?%not_elem_of_nil|].
  cbn [shed_until]. destruct (Z.leb_spec (request_wire_size params) budget); [lia|]. intros Hgt.
  pose proof (drop_part_keys y params Hnd) as Hnd'.
  intros [-> |Hx]%elem_of_cons; [|by apply IH]. intros Hp%shed_until_present; [|done].
  by apply present_drop in Hp as [_ ?].
Qed.

Lemma slug_in_order a slug : slug ∈ map fst (ta_skills a) → Skill slug ∈ shed_order a.
Proof.
  intros ([k e] & -> & Hin)%list_elem_of_fmap. cbn. unfold shed_order. rewrite !elem_of_app.
  assert (Hs : k ∈ slugs_of (ts_always_on e) (ta_skills a)).
  { unfold slugs_of. apply list_elem_of_fmap. exists (k, e). split; [done|]. by apply list_elem_of_filter. }
  assert (Hrev : ∀ l, k ∈ l → Skill k ∈ map Skill (rev l)).
  { intros l Hl. apply list_elem_of_fmap. exists k. split; [done|]. by apply list_elem_of_In, in_rev; rewrite rev_involutive; apply list_elem_of_In. }
  destruct (ts_always_on e); auto.
Qed.

(** a request goes out within the limit if it can. The fitted request fits
    the line the pod reads, or it carries neither project memory nor any skill,
    so that only required fields are left; and those are never touched: every
    field but the two optional ones is the original, and the skills block is
    there even when it is empty. *)
Theorem fit_request_fits a :
  NoDup (map fst (ta_skills a)) →
  ∃ params skills, fit_request (turn_params a) = inr params ∧ obj_get params "skills" = Some (JObj skills) ∧
    ((request_wire_size params ≤ BUDGET)%Z ∨ obj_get params "memory" = None ∧ skills = []) ∧
    ∀ k, k ∉ ["skills"; "memory"] → obj_get params k = obj_get (turn_params a) k.
Proof.
  intros Hnd. destruct (fit_request_sized_spec a Hnd) as [E [s [Hk Hs _]]].
  set (params := shed_until BUDGET (shed_order a) (turn_params a)) in *.
  exists params, (turn_skills_wire s). pose proof (turn_params_keys a) as Hk0.
  split; [unfold fit_request; by rewrite E|]. split; [done|]. split.
  - destruct (Z.le_gt_cases (request_wire_size params) BUDGET) as [|Hgt]; [by left|right].
    assert (Hgone : ∀ x, present x params → x ∉ shed_order a).
    { intros x Hp Hx. by apply (shed_until_exhausts BUDGET (shed_order a) (turn_params a) x). }
    split.
    + destruct (obj_get params "memory") as [v|] eqn:Ev; [|done]. exfalso.
      assert (Hp : present Memory params) by (unfold present; rewrite Ev; eauto).
      apply (Hgone Memory Hp). apply shed_until_present in Hp; [|done]. destruct Hp as [v' Hv'].
      rewrite (turn_params_optional a _ (memory_block (ta_memory a))) in Hv' by left.
      unfold shed_order. destruct (memory_block (ta_memory a)); [set_solver|done].
    + destruct s as [|[slug e] s]; [done|exfalso].
      assert (Hp : present (Skill slug) params) by (eexists; split; [exact Hs|by left]).
      apply (Hgone _ Hp), slug_in_order. apply shed_until_present in Hp; [|done].
      destruct Hp as (sk & Hsk & Hin). rewrite (ro_skills _ _ (turn_params_ok a Hnd)) in Hsk.
      injection Hsk as <-. by rewrite keys_wire in Hin.
  - intros k Hkk. apply shed_until_get; set_solver.
Qed.

(** ** A concrete turn *)

Definition demo_skill (always_on : bool) : TurnSkillEntry :=
  {| ts_files := [("SKILL.md", "Use it.")]; ts_always_on := always_on |}.

Definition demo_args : TurnArgs := {|
  ta_input := "hello"; ta_workspace_path := Some "/projects/demo"; ta_workspace_mode := "ephemeral"; ta_model := "m";
  ta_history := []; ta_llm := [("provider", JStr "minds-cloud")]; ta_interactive := true; ta_tool_messages := true;
  ta_memory := Some (JObj [("project", JObj [("rules", JStr "be kind")]); ("global", JStr "private")]);
  ta_skills := [("house-style", demo_skill true); ("charts", demo_skill false); ("sql", demo_skill false)];
  ta_oauth := None; ta_connectors := None; ta_datasource := None; ta_started_at := None; ta_trace := [] |}.

(** Ten bytes too many cost the last on-demand skill; three hundred all of
    them, the memory and the always-on skill. *)
Example demo_shed :
  let params := turn_params demo_args in
  let size := request_wire_size params in
  shed_skills params size (size - 10) false =
    inr (drop_part (Skill "sql") params, request_wire_size (drop_part (Skill "sql") params)) ∧
  obj_get (shed_until (size - 10) (shed_order demo_args) params) "skills" =
    Some (JObj (turn_skills_wire [("house-style", demo_skill true); ("charts", demo_skill false)])) ∧
  shed_order demo_args = [Skill "sql"; Skill "charts"; Memory; Skill "house-style"] ∧
  obj_get (shed_until (size - 300) (shed_order demo_args) params) "skills" = Some (JObj []).
Proof. repeat split; vm_compute; reflexivity. Qed.

Lemma fit_request_spec_witness :
  fit_request (turn_params demo_args) = inr (shed_until BUDGET (shed_order demo_args) (turn_params demo_args)).
Proof. apply fit_request_spec. apply (bool_decide_unpack (NoDup (map fst (ta_skills demo_args)))). vm_compute. exact I. Defined.

Lemma fit_request_fits_witness :
  ∃ params skills, fit_request (turn_params demo_args) = inr params ∧ obj_get params "skills" = Some (JObj skills) ∧
    ((request_wire_size params ≤ BUDGET)%Z ∨ obj_get params "memory" = None ∧ skills = []) ∧
    ∀ k, k ∉ ["skills"; "memory"] → obj_get params k = obj_get (turn_params demo_args) k.
Proof. apply fit_request_fits. apply (bool_decide_unpack (NoDup (map fst (ta_skills demo_args)))). vm_compute. exact I. Defined.
