(* ===== verification/TurnGrants.v ===== *)
(** * Datasource grants and the job of a remote turn
    ([src/cowork/turnqueue/producer.py], [src/cowork/turnqueue/models.py]).

    Before a turn is queued the auth service is asked which datasource
    connections are verified, and to grant this turn those the conversation has
    not disabled; the block on the job names them only if the answer matches in
    every respect.  The job is validated again when it is built.  The two HTTP
    calls of [src/cowork/turnqueue/auth_keys.py] are arguments: what they
    return or raise. *)
From stdpp Require Import base list gmap strings option.
From Stdlib Require Import ZArith Lia.
From S2P Require Import Prelude JsonObject JsonText JsonAscii TurnRequest.

Definition MAX_DATASOURCE_CONNECTIONS : nat := 100.
Definition DATASOURCE_PROTOCOL_VERSION : Z := 1.
Definition MAX_DEADLINE_MS : Z := 24 * 60 * 60 * 1000.

(** ** The grant set *)

(** Whether a value can be an element of a set. *)
Definition hashable (o : option json) : bool :=
  match o with Some (JArr _) | Some (JObj _) => false | _ => true end.

(** [disabled_keys]. *)
Fixpoint disabled_keys (disabled : list json) : exn + list (option json * option json) :=
  match disabled with
  | [] => inr []
  | JObj l :: rest =>
      if hashable (obj_get l "engine") && hashable (obj_get l "name") then
        match disabled_keys rest with
        | inl e => inl e
        | inr keys => inr ((obj_get l "engine", obj_get l "name") :: keys)
        end
      else inl (TypeError "unhashable type")
  | _ :: rest => disabled_keys rest
  end.

Definition is_disabled (keys : list (option json * option json)) (connector_id name : string) : bool :=
  existsb (λ k, match k with (Some (JStr e), Some (JStr n)) => String.eqb e connector_id && String.eqb n name | _ => false end)
    keys.

(** [_refuse_datasource_grants]. *)
Definition refuse_datasource_grants {A} : exn + A := inl ProductPermissionUnavailable.

(** The loop of [_datasource_connection_refs]. *)
Fixpoint refs_loop (keys : list (option json * option json)) (seen : list Z) (connections : list json) :
    exn + list (Z * Z) :=
  match connections with
  | [] => inr []
  | JObj l :: rest =>
      match obj_get l "connector_id", obj_get l "name", obj_get l "status" with
      | Some (JStr c), Some (JStr n), Some (JStr status) =>
          if truthy c && truthy n && String.eqb status "verified" then
            if is_disabled keys c n then refs_loop keys seen rest
            else
              match obj_get l "id", obj_get l "credential_version" with
              | Some (JInt i), Some (JInt v) =>
                  if (i <? 1)%Z || (v <? 1)%Z || bool_decide (i ∈ seen) then refuse_datasource_grants
                  else
                    match refs_loop keys (i :: seen) rest with
                    | inl e => inl e
                    | inr refs => inr ((i, v) :: refs)
                    end
              | _, _ => refuse_datasource_grants
              end
          else refuse_datasource_grants
      | _, _, _ => refuse_datasource_grants
      end
  | _ :: _ => refuse_datasource_grants
  end.

(** [_datasource_connection_refs]. *)
Definition datasource_connection_refs (connections : list json) (disabled : option (list json)) : exn + list (Z * Z) :=
  match disabled_keys (default [] disabled) with
  | inl e => inl e
  | inr keys =>
      match refs_loop keys [] connections with
      | inl e => inl e
      | inr refs => if Nat.ltb MAX_DATASOURCE_CONNECTIONS (length refs) then refuse_datasource_grants else inr refs
      end
  end.

(** ** Identifiers *)

(** [s.strip("{}")]. *)
Fixpoint lstrip_braces (s : string) : string :=
  match s with
  | String.String c s' => if bool_decide (ord c ∈ [123; 125]) then lstrip_braces s' else s
  | EmptyString => ""
  end.
Fixpoint rstrip_braces (s : string) : string :=
  match s with
  | EmptyString => ""
  | String.String c s' =>
      match rstrip_braces s' with
      | EmptyString => if bool_decide (ord c ∈ [123; 125]) then "" else String.String c ""
      | t => String.String c t
      end
  end.

(** The digits of [int(s, 16)]: single underscores only between digits. *)
Fixpoint hex_digits (s : string) (acc : Z) (after_digit : bool) : option Z :=
  match s with
  | EmptyString => if after_digit then Some acc else None
  | String.String c s' =>
      if Nat.eqb (ord c) 95 then (if after_digit then hex_digits s' acc false else None)
      else
        match hex_value c with
        | Some d => hex_digits s' (16 * acc + Z.of_nat d)%Z true
        | None => None
        end
  end.

(** [int(s, 16)], for ASCII text. *)
Definition int16 (s : string) : option Z :=
  let s := str_strip s in
  let (sign, s) :=
    match s with
    | String.String c s' => if Nat.eqb (ord c) 43 then (1%Z, s') else if Nat.eqb (ord c) 45 then ((-1)%Z, s') else (1%Z, s)
    | EmptyString => (1%Z, s)
    end in
  let s :=
    match strip_prefix "0x" (str_lower s) with
    | Some t => match strip_prefix "_" t with Some t' => t' | None => t end
    | None => s
    end in
  Z.mul sign <$> hex_digits s 0 false.

(** [uuid.UUID(s).int]; [None] where it raises [ValueError]. *)
Definition uuid_int (s : string) : option Z :=
  let hex := str_replace "uuid:" "" (str_replace "urn:" "" s) in
  let hex := str_replace "-" "" (rstrip_braces (lstrip_braces hex)) in
  if Nat.eqb (String.length hex) 32 then
    match int16 hex with Some n => if (0 <=? n)%Z then Some n else None | None => None end
  else None.

(** [_same_identifier]. *)
Definition same_identifier (echoed : option json) (ours : string) : bool :=
  match echoed with
  | Some (JStr e) =>
      match uuid_int e, uuid_int ours with
      | Some a, Some b => (a =? b)%Z
      | _, _ => String.eqb e ours
      end
  | _ => false
  end.

(** ** Registration *)

Section Grants.
(** The integer a float is equal to, if there is one. *)
Context (float_int : string → option Z).

(** The integer a value is [==] to. *)
Definition equal_int (o : option json) : option Z :=
  match o with
  | Some (JInt n) => Some n
  | Some (JBool b) => Some (if b then 1%Z else 0%Z)
  | Some (JFloat r) => float_int r
  | _ => None
  end.

(** The pairs of [returned]; [None] for one that is not a pair of integers. *)
Fixpoint returned_pairs (grants : list json) : exn + list (option (Z * Z)) :=
  match grants with
  | [] => inr []
  | JObj l :: rest =>
      if hashable (obj_get l "connection_id") && hashable (obj_get l "credential_version") then
        match returned_pairs rest with
        | inl e => inl e
        | inr pairs =>
            inr (match equal_int (obj_get l "connection_id"), equal_int (obj_get l "credential_version") with
                 | Some i, Some v => Some (i, v)
                 | _, _ => None
                 end :: pairs)
        end
      else inl (TypeError "unhashable type")
  | _ :: rest => returned_pairs rest
  end.

Definition is_str (s : string) (o : option json) : bool :=
  match o with Some (JStr t) => String.eqb t s | _ => false end.

Definition datasource_block (refs : list (Z * Z)) : json :=
  JObj [("protocol_version", JInt 1);
        ("connections", JArr (map (λ r, JObj [("connection_id", JInt r.1); ("credential_version", JInt r.2)]) refs))].

(** The checks of [_mint_datasource_block] on the answer to the registration. *)
Definition granted_block (org user correlation_id key : string) (refs : list (Z * Z)) (response : params_t) :
    exn + option json :=
  if same_identifier (obj_get response "user_id") user &&
     same_identifier (obj_get response "organization_id") org &&
     is_str key (obj_get response "turn_key_id") &&
     same_identifier (obj_get response "correlation_id") correlation_id &&
     is_str "datasource-gateway" (obj_get response "audience") &&
     is_str "execute" (obj_get response "purpose")
  then
    match obj_get response "grants" with
    | Some (JArr grants) =>
        match returned_pairs grants with
        | inl e => inl e
        | inr returned =>
            if bool_decide ((list_to_set returned : gset (option (Z * Z))) = list_to_set (map Some refs)) &&
               Nat.eqb (length grants) (size (list_to_set refs : gset (Z * Z)))
            then inr (Some (datasource_block refs))
            else refuse_datasource_grants
        end
    | _ => refuse_datasource_grants
    end
  else refuse_datasource_grants.

(** [_mint_datasource_block]: [listing] is what [list_verified_datasource_connections]
    gave, [register] what [register_datasource_grants] gives for the ids. *)
Definition mint_datasource_block (enabled : bool) (org_id user_id : option string) (correlation_id : string)
    (turn_key_id : option string) (disabled : option (list json)) (listing : exn + list json)
    (register : list Z → exn + params_t) : exn + option json :=
  match org_id, user_id with
  | Some org, Some user =>
      if enabled && truthy org && truthy user then
        match turn_key_id with
        | Some key =>
            if truthy (str_strip key) then
              match listing with
              | inl _ => inr None
              | inr connections =>
                  match datasource_connection_refs connections disabled with
                  | inl e => inl e
                  | inr refs =>
                      if bool_decide (refs = []) then inr None
                      else
                        match register (map fst refs) with
                        | inl e => inl e
                        | inr response => granted_block org user correlation_id key refs response
                        end
                  end
              end
            else refuse_datasource_grants
        | None => refuse_datasource_grants
        end
      else inr None
  | _, _ => inr None
  end.

End Grants.

(** ** The job *)

(** [set(value) == {...}], of the keys of an object. *)
Definition has_keys (l : params_t) (ks : list string) : bool :=
  bool_decide ((list_to_set (keys l) : gset string) = list_to_set ks).

(** The loop of [_validate_datasource_block]. *)
Fixpoint validate_refs (seen : list Z) (connections : list json) : bool :=
  match connections with
  | [] => true
  | JObj l :: rest =>
      has_keys l ["connection_id"; "credential_version"] &&
      match obj_get l "connection_id", obj_get l "credential_version" with
      | Some (JInt i), Some (JInt v) =>
          negb ((i <? 1)%Z || (v <? 1)%Z || bool_decide (i ∈ seen)) && validate_refs (i :: seen) rest
      | _, _ => false
      end
  | _ :: _ => false
  end.

(** [_validate_datasource_block]. *)
Definition validate_datasource_block (value : json) : exn + () :=
  match value with
  | JObj l =>
      if has_keys l ["protocol_version"; "connections"] then
        match obj_get l "protocol_version" with
        | Some (JInt v) =>
            if (v =? DATASOURCE_PROTOCOL_VERSION)%Z then
              match obj_get l "connections" with
              | Some (JArr connections) =>
                  if negb (bool_decide (connections = [])) && Nat.leb (length connections) MAX_DATASOURCE_CONNECTIONS
                  then
                    if validate_refs [] connections then inr ()
                    else inl (ValueError "datasource connection reference is invalid")
                  else inl (ValueError "datasource connections are invalid")
              | _ => inl (ValueError "datasource connections are invalid")
              end
            else inl (ValueError "unsupported datasource protocol version")
        | _ => inl (ValueError "unsupported datasource protocol version")
        end
      else inl (ValueError "datasource contains unsupported fields")
  | _ => inl (ValueError "datasource must be an object")
  end.

(** [_deadline_is_a_duration]. *)
Definition deadline_is_a_duration (v : option Z) : exn + () :=
  match v with
  | None => inr ()
  | Some v =>
      if (v <=? 0)%Z then inl (ValueError "deadline_ms must be positive")
      else if (MAX_DEADLINE_MS <? v)%Z then inl (ValueError "deadline_ms is a duration, not an epoch timestamp")
      else inr ()
  end.

(** [TurnJob(...)]: its field and model validators. *)
Definition validate_job (op : string) (deadline_ms : option Z) (params : params_t) : exn + () :=
  match deadline_is_a_duration deadline_ms with
  | inl e => inl e
  | inr _ =>
      if String.eqb op "anton_turn_v2" &&
         negb (is_str "persistent" (obj_get params "workspace_mode") || is_str "ephemeral" (obj_get params "workspace_mode"))
      then inl (ValueError "anton_turn_v2 requires a persistent or ephemeral workspace_mode")
      else
        match obj_get params "datasource" with
        | Some block => validate_datasource_block block
        | None => inr ()
        end
  end.

(** ** What a minted block holds *)

(** A listed connection is well-formed and verified. *)
Definition verified (conn : json) : Prop :=
  ∃ l c n, conn = JObj l ∧ obj_get l "connector_id" = Some (JStr c) ∧ obj_get l "name" = Some (JStr n) ∧
    obj_get l "status" = Some (JStr "verified") ∧ truthy c = true ∧ truthy n = true.

(** The reference of a connection that is not disabled. *)
Definition enabled_ref (keys : list (option json * option json)) (conn : json) : option (Z * Z) :=
  match conn with
  | JObj l =>
      match obj_get l "connector_id", obj_get l "name", obj_get l "id", obj_get l "credential_version" with
      | Some (JStr c), Some (JStr n), Some (JInt i), Some (JInt v) => if is_disabled keys c n then None else Some (i, v)
      | _, _, _, _ => None
      end
  | _ => None
  end.

Record refs_ok (refs : list (Z * Z)) : Prop := {
  rf_unique : NoDup (map fst refs);
  rf_positive : Forall (λ r, (1 ≤ r.1)%Z ∧ (1 ≤ r.2)%Z) refs;
}.

Lemma refs_loop_ok keys connections : ∀ seen refs,
  refs_loop keys seen connections = inr refs →
  refs_ok refs ∧ (∀ i, i ∈ map fst refs → i ∉ seen) ∧ refs = omap (enabled_ref keys) connections ∧
  Forall verified connections.
Proof.
  induction connections as [|conn rest IH]; intros seen refs H; cbn in H.
  { simplify_eq. split; [by split; [apply NoDup_nil_2|]|]. split; [set_solver|done]. }
  destruct conn as [| | | | | |l]; try done. unfold omap. cbn [list_omap enabled_ref].
  destruct (obj_get l "connector_id") as [[| | | |c| |]|] eqn:Ec; try done.
  destruct (obj_get l "name") as [[| | | |n| |]|] eqn:En; try done.
  destruct (obj_get l "status") as [[| | | |status| |]|] eqn:Es; try done.
  destruct (truthy c && truthy n && String.eqb status "verified") eqn:Ev; [|done].
  apply andb_true_iff in Ev as [[Hc Hn]%andb_true_iff ->%String.eqb_eq].
  assert (Hv : verified (JObj l)) by (by exists l, c, n).
  destruct (is_disabled keys c n).
  - destruct (IH _ _ H) as (Hok & Hseen & -> & Hall).
    split; [done|]. split; [done|]. split; [|by constructor].
    destruct (obj_get l "id") as [[]|]; try done. by destruct (obj_get l "credential_version") as [[]|].
  - destruct (obj_get l "id") as [[| |i| | | |]|]; try done.
    destruct (obj_get l "credential_version") as [[| |v| | | |]|]; try done.
    destruct (_ || _) eqn:Eb; [done|]. apply orb_false_iff in Eb as [[Hi Hv1]%orb_false_iff Hs%bool_decide_eq_false].
    destruct (refs_loop keys (i :: seen) rest) as [e|refs'] eqn:Er; [done|]. simplify_eq.
    destruct (IH _ _ Er) as ([Hnd Hpos] & Hseen & -> & Hall).
    split; [split; cbn; [apply list.NoDup_cons; split; [|done]; intros Hin; apply (Hseen i Hin); by left
                       |constructor; [cbn; lia|done]]|].
    split; [|by split; [|constructor]]. cbn. intros j [-> |Hj]%elem_of_cons; [done|]. apply Hseen in Hj. set_solver.
Qed.

Lemma datasource_refs_ok connections disabled refs :
  datasource_connection_refs connections disabled = inr refs →
  ∃ keys, disabled_keys (default [] disabled) = inr keys ∧ refs_ok refs ∧ length refs ≤ MAX_DATASOURCE_CONNECTIONS ∧
    refs = omap (enabled_ref keys) connections ∧ Forall verified connections.
Proof.
  unfold datasource_connection_refs. destruct (disabled_keys _) as [|keys]; [done|].
  destruct (refs_loop keys [] connections) as [|refs'] eqn:E; [done|].
  destruct (Nat.ltb_spec MAX_DATASOURCE_CONNECTIONS (length refs')); [done|]. intros [= ->].
  apply refs_loop_ok in E as (? & _ & ? & ?). eauto 10.
Qed.

Lemma refs_size refs : refs_ok refs → size (list_to_set refs : gset (Z * Z)) = length refs.
Proof. intros [Hnd _]. apply size_list_to_set. by apply NoDup_fmap_1 in Hnd. Qed.

(** The answer of the auth service is about this turn. *)
Record bound_to (org user key correlation_id : string) (response : params_t) : Prop := {
  bt_user : same_identifier (obj_get response "user_id") user = true;
  bt_org : same_identifier (obj_get response "organization_id") org = true;
  bt_key : obj_get response "turn_key_id" = Some (JStr key);
  bt_turn : same_identifier (obj_get response "correlation_id") correlation_id = true;
  bt_audience : obj_get response "audience" = Some (JStr "datasource-gateway");
  bt_purpose : obj_get response "purpose" = Some (JStr "execute");
}.

Lemma is_str_eq s o : is_str s o = true → o = Some (JStr s).
Proof. destruct o as [[]|]; try done. by intros ->%String.eqb_eq. Qed.

(** The steps that led to a block. *)
Lemma minted_block float_int enabled org_id user_id corr key disabled listing register block :
  mint_datasource_block float_int enabled org_id user_id corr key disabled listing register = inr (Some block) →
  ∃ org user k connections refs response,
    org_id = Some org ∧ user_id = Some user ∧ key = Some k ∧ listing = inr connections ∧
    datasource_connection_refs connections disabled = inr refs ∧ refs ≠ [] ∧
    register (map fst refs) = inr response ∧ granted_block float_int org user corr k refs response = inr (Some block).
Proof.
  unfold mint_datasource_block. destruct org_id as [org|], user_id as [user|]; try done.
  destruct (enabled && _ && _); [|done]. destruct key as [k|]; [|done]. destruct (truthy _); [|done].
  destruct listing as [|connections]; [done|].
  destruct (datasource_connection_refs connections disabled) as [|refs] eqn:Er; [done|].
  case_bool_decide as Hne; [done|]. destruct (register (map fst refs)) as [|response] eqn:Ereg; [done|].
  intros H. by exists org, user, k, connections, refs, response.
Qed.

Lemma granted_block_ok float_int org user corr k refs response block :
  refs_ok refs → granted_block float_int org user corr k refs response = inr (Some block) →
  block = datasource_block refs ∧ bound_to org user k corr response ∧
  ∃ grants returned, obj_get response "grants" = Some (JArr grants) ∧ length grants = length refs ∧
    returned_pairs float_int grants = inr returned ∧ ∀ r, Some r ∈ returned ↔ r ∈ refs.
Proof.
  intros Hok. unfold granted_block. destruct (_ && _ && _ && _ && _ && _) eqn:Eb; [|done].
  rewrite !andb_true_iff in Eb. destruct Eb as [[[[[H1 H2] H3] H4] H5] H6].
  destruct (obj_get response "grants") as [[| | | | |grants|]|] eqn:Eg; try done.
  destruct (returned_pairs float_int grants) as [|returned] eqn:Ep; [done|].
  destruct (bool_decide _ && _) eqn:Es; [|done]. intros [= <-].
  apply andb_true_iff in Es as [Hset%bool_decide_eq_true Hn%Nat.eqb_eq].
  rewrite refs_size in Hn by done. split; [done|]. split; [by split; auto using is_str_eq|].
  exists grants, returned. split; [done|]. split; [done|]. split; [done|]. intros r.
  assert (Hiff : Some r ∈ (list_to_set returned : gset (option (Z * Z))) ↔ Some r ∈ (list_to_set (map Some refs) : gset _))
    by by rewrite Hset.
  rewrite !elem_of_list_to_set in Hiff. rewrite Hiff. rewrite list_elem_of_fmap. naive_solver.
Qed.

(** a datasource block names exactly what was granted to this turn. When one
    is minted, every connection the auth service listed is verified; the block
    holds, in their order, the references of those the conversation has not
    disabled, at least one and at most a hundred, no connection twice; and the
    service answered the registration of exactly these for this user,
    organization, turn key and turn, with one grant for each at the listed
    credential version. *)
Theorem datasource_block_granted float_int enabled org_id user_id corr key disabled listing register block :
  mint_datasource_block float_int enabled org_id user_id corr key disabled listing register = inr (Some block) →
  ∃ org user k connections keys refs response grants returned,
    org_id = Some org ∧ user_id = Some user ∧ key = Some k ∧ listing = inr connections ∧
    disabled_keys (default [] disabled) = inr keys ∧
    Forall verified connections ∧ refs = omap (enabled_ref keys) connections ∧ block = datasource_block refs ∧
    refs ≠ [] ∧ length refs ≤ MAX_DATASOURCE_CONNECTIONS ∧ refs_ok refs ∧
    register (map fst refs) = inr response ∧ bound_to org user k corr response ∧
    obj_get response "grants" = Some (JArr grants) ∧ length grants = length refs ∧
    returned_pairs float_int grants = inr returned ∧ ∀ r, Some r ∈ returned ↔ r ∈ refs.
Proof.
  intros (org & user & k & connections & refs & response & -> & -> & -> & -> & Hrefs & Hne & Hreg & Hg)%minted_block.
  apply datasource_refs_ok in Hrefs as (keys & Hkeys & Hok & Hlen & Hrefs & Hall).
  apply granted_block_ok in Hg as (-> & Hb & grants & returned & H); [|done].
  by exists org, user, k, connections, keys, refs, response, grants, returned.
Qed.

(** ** The job is accepted *)

Lemma has_keys_ref i v : has_keys [("connection_id", JInt i); ("credential_version", JInt v)]
  ["connection_id"; "credential_version"] = true.
Proof. vm_compute. reflexivity. Qed.

Lemma validate_refs_ok refs : ∀ seen,
  refs_ok refs → (∀ i, i ∈ map fst refs → i ∉ seen) →
  validate_refs seen (map (λ r, JObj [("connection_id", JInt r.1); ("credential_version", JInt r.2)]) refs) = true.
Proof.
  induction refs as [|[i v] refs IH]; intros seen [Hnd Hpos] Hseen; [done|].
  cbn [map validate_refs fst snd]. rewrite has_keys_ref. cbn [obj_get String.eqb Ascii.eqb Bool.eqb andb].
  cbn [map fst] in Hnd. apply list.NoDup_cons in Hnd as [Hni Hnd]. apply list.Forall_cons in Hpos as [[Hi Hv] Hpos]. cbn in Hi, Hv.
  replace (i <? 1)%Z with false by lia. replace (v <? 1)%Z with false by lia.
  rewrite bool_decide_eq_false_2 by (apply Hseen; by left). cbn.
  apply IH; [by split|]. intros j Hj [-> |Hj']%elem_of_cons; [done|]. apply (Hseen j); [by right|done].
Qed.

Lemma validate_block_ok refs :
  refs_ok refs → refs ≠ [] → length refs ≤ MAX_DATASOURCE_CONNECTIONS →
  validate_datasource_block (datasource_block refs) = inr ().
Proof.
  intros Hok Hne Hlen. unfold datasource_block, validate_datasource_block.
  set (conns := map _ refs).
  assert (Hk : has_keys [("protocol_version", JInt 1); ("connections", JArr conns)] ["protocol_version"; "connections"] = true)
    by (unfold has_keys; cbn; by apply bool_decide_eq_true).
  rewrite Hk. cbn [obj_get String.eqb Ascii.eqb Bool.eqb]. cbn.
  rewrite bool_decide_eq_false_2 by (unfold conns; by destruct refs).
  unfold conns at 1. rewrite length_map. rewrite (proj2 (Nat.leb_le _ _) Hlen). cbn.
  unfold conns. rewrite validate_refs_ok; [done|done|set_solver].
Qed.

(** the job of a turn is never refused by its own validation. Whatever was
    sent, granted and shed, the parameters [stream_remote_replies] queues are
    accepted by [TurnJob]: the workspace mode is one of the two, and a minted
    datasource block passes the checks of the model. *)
Theorem turn_job_accepted float_int enabled org_id user_id corr key disabled listing register (persistent : bool) a :
  NoDup (map fst (ta_skills a)) →
  ta_workspace_mode a = (if persistent then "persistent" else "ephemeral") →
  mint_datasource_block float_int enabled org_id user_id corr key disabled listing register = inr (ta_datasource a) →
  ∃ params, fit_request (turn_params a) = inr params ∧ validate_job "anton_turn_v2" None params = inr ().
Proof.
  intros Hnd Hmode Hmint. exists (shed_until BUDGET (shed_order a) (turn_params a)).
  split; [unfold fit_request; by rewrite (proj1 (fit_request_sized_spec a Hnd))|].
  unfold validate_job. cbn [deadline_is_a_duration].
  rewrite !shed_until_get by (apply turn_params_keys || done).
  assert (Hm : obj_get (turn_params a) "workspace_mode" = Some (JStr (ta_workspace_mode a))).
  { apply obj_get_elem; [apply turn_params_keys|]. unfold turn_params. set_solver. }
  rewrite Hm, (turn_params_optional a "datasource" (ta_datasource a)) by set_solver.
  assert (Hd : match ta_datasource a with
    | Some j => json_truthy j = true ∧ validate_datasource_block j = inr () | None => True end).
  { destruct (ta_datasource a) as [j|]; [|done].
    apply minted_block in Hmint as (? & ? & ? & ? & refs & ? & _ & _ & _ & _ & Hrefs & Hne & _ & Hg).
    apply datasource_refs_ok in Hrefs as (? & _ & Hok & Hlen & _). apply granted_block_ok in Hg as [-> _]; [|done].
    split; [done|by apply validate_block_ok]. }
  rewrite Hmode. destruct persistent; cbn [is_str String.eqb Ascii.eqb Bool.eqb negb orb andb].
  all: destruct (ta_datasource a) as [j|]; [|done]; by destruct Hd as [-> ->].
Qed.

(** ** A concrete grant *)

Definition demo_connection (name : string) (id version : Z) : json :=
  JObj [("id", JInt id); ("connector_id", JStr "postgres"); ("name", JStr name); ("status", JStr "verified");
        ("credential_version", JInt version)].

Definition demo_register (ids : list Z) : exn + params_t :=
  inr [("user_id", JStr "4F9D9B9A-0000-4000-8000-000000000001"); ("organization_id", JStr "org"); ("turn_key_id", JStr "mdb_1");
       ("correlation_id", JStr "turn"); ("audience", JStr "datasource-gateway"); ("purpose", JStr "execute");
       ("grants", JArr (map (λ i, JObj [("connection_id", JInt i); ("credential_version", JInt 3)]) ids))].

Definition demo_mint : exn + option json :=
  mint_datasource_block (λ _, None) true (Some "org") (Some "{4f9d9b9a-0000-4000-8000-000000000001}") "turn" (Some "mdb_1")
    (Some [JObj [("engine", JStr "postgres"); ("name", JStr "staging")]])
    (inr [demo_connection "live" 7 3; demo_connection "staging" 8 1]) demo_register.

Example demo_mint_block : demo_mint = inr (Some (datasource_block [(7, 3)%Z])).
Proof. vm_compute. reflexivity. Qed.

Lemma datasource_block_granted_witness : ∃ refs, datasource_block [(7, 3)%Z] = datasource_block refs ∧ refs_ok refs.
Proof.
  destruct (datasource_block_granted (λ _, None) true (Some "org") (Some "{4f9d9b9a-0000-4000-8000-000000000001}") "turn"
    (Some "mdb_1") (Some [JObj [("engine", JStr "postgres"); ("name", JStr "staging")]])
    (inr [demo_connection "live" 7 3; demo_connection "staging" 8 1]) demo_register (datasource_block [(7, 3)%Z]))
    as (org & user & k & conns & keys & refs & response & grants & returned & _ & _ & _ & _ & _ & _ & _ & E & _ & _ & Hok & _).
  - vm_compute. reflexivity.
  - exists refs. split; [exact E|exact Hok].
Defined.

Definition demo_job_args : TurnArgs := {|
  ta_input := "hello"; ta_workspace_path := None; ta_workspace_mode := "persistent"; ta_model := "m";
  ta_history := []; ta_llm := []; ta_interactive := false; ta_tool_messages := false; ta_memory := None;
  ta_skills := [("sql", demo_skill false)]; ta_oauth := None; ta_connectors := None;
  ta_datasource := Some (datasource_block [(7, 3)%Z]); ta_started_at := None; ta_trace := [] |}.

Lemma turn_job_accepted_witness :
  ∃ params, fit_request (turn_params demo_job_args) = inr params ∧ validate_job "anton_turn_v2" None params = inr ().
Proof.
  apply (turn_job_accepted (λ _, None) true (Some "org") (Some "{4f9d9b9a-0000-4000-8000-000000000001}") "turn"
    (Some "mdb_1") (Some [JObj [("engine", JStr "postgres"); ("name", JStr "staging")]])
    (inr [demo_connection "live" 7 3; demo_connection "staging" 8 1]) demo_register true).
  - apply (bool_decide_unpack (NoDup (map fst (ta_skills demo_job_args)))). vm_compute. exact I.
  - reflexivity.
  - vm_compute. reflexivity.
Defined.
