(* ===== verification/RemoteReplies.v ===== *)
(** * The replies of a remote turn ([stream_remote_replies] of
    [src/cowork/turnqueue/producer.py]).

    The job is queued for the sandbox controller, which relays what the pod
    says onto one stream per conversation; the generator reads that stream and
    yields the replies of its own turn.  It is a machine that takes one step per
    [await] or [yield]; between two of its steps the controller may add entries
    and time passes.

    The parser behind [model_validate_json] and [datetime.fromisoformat] are
    arguments.  Instants are in seconds, on any scale. *)
From stdpp Require Import base list gmap strings option relations.
From Stdlib Require Import ZArith Lia.
From S2P Require Import Prelude JsonObject JsonText JsonAscii RedisStream TurnErrors TurnRequest TurnGrants.

(** ** Replies *)

(** [TurnReply.kind]. *)
Definition REPLY_KINDS : list string :=
  ["progress"; "cell"; "error"; "turn_delta"; "turn_step"; "turn_memory"; "turn_skill"; "turn_history";
   "turn_compaction"; "turn_completed"; "turn_failed"].

(** The kinds that need an authorized workspace. *)
Definition GATED_KINDS : list string :=
  ["turn_delta"; "turn_step"; "turn_memory"; "turn_skill"; "turn_history"; "turn_compaction"; "turn_completed"].

(** An entry of the stream: its [payload] field, if it has one. *)
Abbreviation entry := (option string).
Abbreviation reply := (string * params_t)%type.

Definition UNRESPONSIVE_WORKER_ERROR : string :=
  String.append WORKER_UNRESPONSIVE_TYPE_NAME ": the turn worker stopped responding".

(** [_setup_permission_failure] and [_workspace_permission_failure]. *)
Definition permission_detail : params_t :=
  [("code", JStr "permission_unavailable");
   ("message", JStr "Your current permissions could not be verified. Try again.")].
Definition setup_permission_failure : params_t :=
  ("error", JStr "ProductPermissionUnavailable: turn setup could not be authorized") :: permission_detail.
Definition workspace_permission_failure : params_t :=
  ("error", JStr "WorkspacePermissionUnavailable: worker storage authority could not be verified") :: permission_detail.

(** What is yielded when nothing was heard for too long. *)
Definition unresponsive_failure : params_t :=
  let (code, message) := remote_turn_error (Some UNRESPONSIVE_WORKER_ERROR) in
  [("error", JStr UNRESPONSIVE_WORKER_ERROR); ("code", JStr code); ("message", JStr message)].

Definition MODES : list string := ["persistent"; "ephemeral"].

Section Relay.
Context (from_json : string → option json) (with_offset : string → option string).
(** The turn: its correlation id, the workspace mode it asked for, and
    [reply_idle_timeout_seconds]. *)
Context (corr requested : string) (idle_timeout : Z).

(** [_remote_reset_at]. *)
Definition remote_reset_at (code : string) (value : option json) : option string :=
  match value with
  | Some (JStr s) => if bool_decide (code ∈ RESET_AT_CODES) then with_offset s else None
  | _ => None
  end.

(** [TurnReplyHeader.model_validate_json(...).correlation_id]. *)
Definition reply_header (payload : string) : exn + string :=
  match from_json payload with
  | Some (JObj l) =>
      match obj_get l "correlation_id" with Some (JStr c) => inr c | _ => inl (ValidationError "TurnReplyHeader") end
  | _ => inl (ValidationError "TurnReplyHeader")
  end.

(** [TurnReply.model_validate_json], the kind and the data. *)
Definition turn_reply (payload : string) : exn + reply :=
  match from_json payload with
  | Some (JObj l) =>
      match obj_get l "correlation_id", obj_get l "kind", obj_get l "data" with
      | Some (JStr _), Some (JStr kind), data =>
          if bool_decide (kind ∈ REPLY_KINDS) then
            match data with
            | None => inr (kind, [])
            | Some (JObj d) => inr (kind, d)
            | Some _ => inl (ValidationError "data")
            end
          else inl (ValidationError "kind")
      | _, _, _ => inl (ValidationError "TurnReply")
      end
  | _ => inl (ValidationError "TurnReply")
  end.

(** The reply of an entry, or [None] for one of another turn. *)
Definition own_reply (e : entry) : exn + option reply :=
  match e with
  | None => inl (KeyError "payload")
  | Some payload =>
      match reply_header payload with
      | inl err => inl err
      | inr c =>
          if String.eqb c corr then match turn_reply payload with inl err => inl err | inr r => inr (Some r) end
          else inr None
      end
  end.

(** The argument of [remote_turn_error]: [(error or "").strip()] raises for
    anything but a string and a false value. *)
Definition error_text (o : option json) : exn + option string :=
  match o with
  | None => inr None
  | Some (JStr s) => inr (Some s)
  | Some j => if json_truthy j then inl (AttributeError "strip") else inr None
  end.

(** The [data] of a [turn_failed] that is passed on. *)
Definition classified_failure (data : params_t) : exn + params_t :=
  match error_text (obj_get data "error") with
  | inl e => inl e
  | inr error =>
      let (code, message) := remote_turn_error error in
      let data := obj_set (obj_set data "code" (JStr code)) "message" (JStr message) in
      let reset_at := remote_reset_at code (obj_get data "reset_at") in
      let data := obj_del data "reset_at" in
      inr match reset_at with Some t => obj_set data "reset_at" (JStr t) | None => data end
  end.

(** What the loop does with one of its replies: the authorized mode, what is
    yielded, and whether it returns. *)
Definition refused (authorized : option string) : option string * list reply * bool :=
  (authorized, [("turn_failed", workspace_permission_failure)], true).

Definition handle_reply (authorized : option string) (r : reply) : exn + option string * list reply * bool :=
  let (kind, data) := r in
  if String.eqb kind "progress" && is_str "workspace_authorized" (obj_get data "phase") then
    inr
      match obj_get data "workspace_mode" with
      | Some (JStr mode) =>
          if negb (bool_decide (mode ∈ MODES)) ||
             (String.eqb requested "ephemeral" && negb (String.eqb mode "ephemeral")) ||
             match authorized with Some m => negb (String.eqb mode m) | None => false end
          then refused authorized
          else (Some mode, [("progress", [("phase", JStr "workspace_authorized"); ("workspace_mode", JStr mode)])], false)
      | _ => refused authorized
      end
  else if String.eqb kind "error" || (bool_decide (kind ∈ GATED_KINDS) && bool_decide (authorized = None))
  then inr (refused authorized)
  else if String.eqb kind "turn_failed" then
    if is_str "permission_unavailable" (obj_get data "code") then inr (refused authorized)
    else
      match classified_failure data with
      | inl e => inl e
      | inr data => inr (authorized, [(kind, data)], true)
      end
  else if bool_decide (kind ∈ GATED_KINDS) then inr (authorized, [(kind, data)], String.eqb kind "turn_completed")
  else inr (authorized, [], false).

(** ** The generator *)

Inductive relay_at :=
  | ReadingTail                        (* before the XREVRANGE *)
  | Registering                        (* before the SADD *)
  | Queueing                           (* before the XADD of the job *)
  | Recording                          (* in record_turn *)
  | Polling                            (* in the XREAD *)
  | Delivering (todo : list (nat * entry))
  | Ended                              (* after a terminal reply *)
  | GaveUp                             (* after the idle timeout *)
  | Raised (e : exn).

Record Relay := {
  rl_last : nat;
  rl_authorized : option string;
  rl_last_reply_at : Z;
  rl_out : list reply;
  rl_at : relay_at;
}.

#[export] Instance fields_Relay : Fields Relay := λ r, {|
  rl_last := rl_last r; rl_authorized := rl_authorized r; rl_last_reply_at := rl_last_reply_at r;
  rl_out := rl_out r; rl_at := rl_at r |}.

Definition new_relay : Relay := {|
  rl_last := 0; rl_authorized := None; rl_last_reply_at := 0; rl_out := []; rl_at := ReadingTail |}.

(** One entry of a batch. *)
Definition deliver_entry (now : Z) (id : nat) (e : entry) (rest : list (nat * entry)) (r : Relay) : Relay :=
  let r := r <| rl_last := id |> in
  let next := match rest with [] => Polling | _ => Delivering rest end in
  match own_reply e with
  | inl err => r <| rl_at := Raised err |>
  | inr None => r <| rl_at := next |>
  | inr (Some reply) =>
      match handle_reply (rl_authorized r) reply with
      | inl err => r <| rl_last_reply_at := now |> <| rl_at := Raised err |>
      | inr (authorized, yields, finished) =>
          r <| rl_authorized := authorized |> <| rl_last_reply_at := now |> <| rl_out := rl_out r ++ yields |>
            <| rl_at := if finished : bool then Ended else next |>
      end
  end.

(** The answer of [XREAD ... COUNT 100 BLOCK 5000]. *)
Definition poll_result (now : Z) (batch : list (nat * entry)) (r : Relay) : Relay :=
  match batch with
  | [] =>
      if (0 <? idle_timeout)%Z && (idle_timeout <? now - rl_last_reply_at r)%Z
      then r <| rl_out := rl_out r ++ [("turn_failed", unresponsive_failure)] |> <| rl_at := GaveUp |>
      else r
  | _ => r <| rl_at := Delivering batch |>
  end.

(** What the generator shares with the controller. *)
Record Shared := {
  sh_stream : list (nat * entry);
  sh_registered : bool;
  sh_queued : bool;
  sh_now : Z;
}.

#[export] Instance fields_Shared : Fields Shared := λ s, {|
  sh_stream := sh_stream s; sh_registered := sh_registered s; sh_queued := sh_queued s; sh_now := sh_now s |}.

Definition relay_step (s : Shared) (r : Relay) : option (Shared * Relay) :=
  match rl_at r with
  | ReadingTail => Some (s, r <| rl_last := last_id (sh_stream s) |> <| rl_at := Registering |>)
  | Registering => Some (s <| sh_registered := true |>, r <| rl_at := Queueing |>)
  | Queueing => Some (s <| sh_queued := true |>, r <| rl_at := Recording |>)
  | Recording => Some (s, r <| rl_last_reply_at := sh_now s |> <| rl_at := Polling |>)
  | Polling => Some (s, poll_result (sh_now s) (take 100 (after (rl_last r) (sh_stream s))) r)
  | Delivering ((id, e) :: rest) => Some (s, deliver_entry (sh_now s) id e rest r)
  | Delivering [] => Some (s, r <| rl_at := Polling |>)
  | Ended | GaveUp | Raised _ => None
  end.

(** Whether an entry answers this turn. *)
Definition answers_turn (e : entry) : bool :=
  match e with
  | Some payload => match reply_header payload with inr c => String.eqb c corr | inl _ => false end
  | None => false
  end.

Inductive remote_step : Shared * Relay → Shared * Relay → Prop :=
  | step_relay s r s' r' : relay_step s r = Some (s', r') → remote_step (s, r) (s', r')
  (* a command of the generator fails, or it is closed at a yield *)
  | step_fails s r e : relay_step s r ≠ None → remote_step (s, r) (s, r <| rl_at := Raised e |>)
  (* the controller relays something; this turn is answered only once queued *)
  | step_controller s r id e :
      last_id (sh_stream s) < id → (answers_turn e = true → sh_queued s = true) →
      remote_step (s, r) (s <| sh_stream := sh_stream s ++ [(id, e)] |>, r)
  | step_time s r now : (sh_now s ≤ now)%Z → remote_step (s, r) (s <| sh_now := now |>, r).

(** The world a turn starts in: earlier turns have left replies, none to it. *)
Definition start_shared (stream : list (nat * entry)) (now : Z) : Shared := {|
  sh_stream := stream; sh_registered := false; sh_queued := false; sh_now := now |}.

(** ** What a stream says of a turn *)

Inductive relay_status := Open (authorized : option string) | Closed | Broken (e : exn).

(** The yields for the replies of one turn, in order, to the first that ends it. *)
Fixpoint relayed (authorized : option string) (l : list entry) : list reply * relay_status :=
  match l with
  | [] => ([], Open authorized)
  | e :: rest =>
      match own_reply e with
      | inl err => ([], Broken err)
      | inr None => relayed authorized rest
      | inr (Some reply) =>
          match handle_reply authorized reply with
          | inl err => ([], Broken err)
          | inr (_, yields, true) => (yields, Closed)
          | inr (authorized, yields, false) => (yields ++ (relayed authorized rest).1, (relayed authorized rest).2)
          end
      end
  end.

(** The entries of a stream that answer the turn. *)
Definition mine (stream : list (nat * entry)) : list entry := base.filter (λ e, answers_turn e = true) (map snd stream).

(** What a turn may see: nothing before its workspace is authorized, in the mode
    it asked for or a weaker one, the same throughout; nothing after the end. *)
Fixpoint gated (authorized : option string) (out : list reply) : Prop :=
  match out with
  | [] => True
  | (kind, data) :: rest =>
      if String.eqb kind "turn_failed" then rest = []
      else if String.eqb kind "progress" then
        ∃ mode, data = [("phase", JStr "workspace_authorized"); ("workspace_mode", JStr mode)] ∧ mode ∈ MODES ∧
          (requested = "ephemeral" → mode = "ephemeral") ∧ (authorized = None ∨ authorized = Some mode) ∧
          gated (Some mode) rest
      else
        kind ∈ GATED_KINDS ∧ is_Some authorized ∧ (kind = "turn_completed" → rest = []) ∧ gated authorized rest
  end.

Definition terminal (y : reply) : Prop := y.1 ∈ ["turn_completed"; "turn_failed"].

(** ** Lemmas on the reference *)

Lemma mine_app l1 l2 : mine (l1 ++ l2) = mine l1 ++ mine l2.
Proof. unfold mine. by rewrite map_app, list.filter_app. Qed.

Lemma own_reply_answers e o : own_reply e = inr o → answers_turn e = bool_decide (is_Some o).
Proof.
  unfold own_reply, answers_turn. destruct e as [payload|]; [|done].
  destruct (reply_header payload) as [|c]; [done|]. destruct (String.eqb c corr); [|by intros [= <-]].
  destruct (turn_reply payload); [done|]. by intros [= <-].
Qed.

Lemma relayed_app a l1 l2 :
  relayed a (l1 ++ l2) =
  match relayed a l1 with
  | (out, Open a') => (out ++ (relayed a' l2).1, (relayed a' l2).2)
  | done => done
  end.
Proof.
  revert a. induction l1 as [|e l1 IH]; intros a; cbn [app relayed]; [by destruct (relayed a l2)|].
  destruct (own_reply e) as [|[reply|]]; [done| |apply IH].
  destruct (handle_reply a reply) as [|[[a' yields] []]]; [done|done|]. rewrite IH.
  destruct (relayed a' l1) as [out []]; cbn; [by rewrite app_assoc|done|done].
Qed.

(** Reading on from an open turn, and from one that ended. *)
Lemma relayed_prefix a l1 l2 out st : relayed a l1 = (out, st) → out `prefix_of` (relayed a (l1 ++ l2)).1.
Proof. intros E. rewrite relayed_app, E. destruct st; cbn; [by apply prefix_app_r|done|done]. Qed.

Lemma relayed_closed a l1 l2 out : relayed a l1 = (out, Closed) → (relayed a (l1 ++ l2)).1 = out.
Proof. intros E. by rewrite relayed_app, E. Qed.

(** One reply of the turn. *)
Lemma handle_reply_gated a reply a' yields finished rest :
  handle_reply a reply = inr (a', yields, finished) →
  (finished = true → rest = []) → gated a' rest → gated a (yields ++ rest).
Proof.
  unfold handle_reply, refused. destruct reply as [kind data]. intros H Hrest Hg.
  destruct (String.eqb kind "progress" && _) eqn:Ep.
  { apply andb_true_iff in Ep as [->%String.eqb_eq _].
    destruct (obj_get data "workspace_mode") as [[| | | |mode| |]|]; simplify_eq; try (by cbn; apply Hrest).
    destruct (_ || _) eqn:Eb in H; simplify_eq; [by cbn; apply Hrest|].
    apply orb_false_iff in Eb as [[Hm Hr]%orb_false_iff Ha].
    cbn. exists mode. split; [done|]. split; [by apply negb_false_iff, bool_decide_eq_true in Hm|].
    split; [intros E; rewrite E in Hr; cbn in Hr; by apply negb_false_iff, String.eqb_eq in Hr|].
    split; [|done]. destruct a as [m|]; [right|by left]. apply negb_false_iff, String.eqb_eq in Ha. by subst. }
  destruct (_ || _) eqn:Eb in H; [simplify_eq; by cbn; apply Hrest|].
  apply orb_false_iff in Eb as [He Hga].
  destruct (String.eqb_spec kind "turn_failed") as [-> |Hf].
  { destruct (is_str _ _); [simplify_eq; by cbn; apply Hrest|].
    destruct (classified_failure data); simplify_eq. by cbn; apply Hrest. }
  destruct (bool_decide_reflect (kind ∈ GATED_KINDS)) as [Hk|Hk]; simplify_eq; [|exact Hg]. cbn [app gated].
  destruct (String.eqb_spec kind "turn_failed"); [done|].
  destruct (String.eqb_spec kind "progress") as [-> |]; [unfold GATED_KINDS in Hk; set_solver|].
  split; [done|]. split.
  - cbn in Hga. apply bool_decide_eq_false in Hga. destruct a'; [eauto|done].
  - split; [|done]. intros ->. by apply Hrest.
Qed.

Lemma handle_reply_terminal a reply a' yields finished :
  handle_reply a reply = inr (a', yields, finished) →
  if finished then ∃ y, yields = [y] ∧ terminal y else Forall (λ y, ¬ terminal y) yields.
Proof.
  unfold handle_reply, refused, terminal. destruct reply as [kind data]. intros H.
  assert (Hf : ∃ y : reply, [("turn_failed", workspace_permission_failure)] = [y] ∧ y.1 ∈ ["turn_completed"; "turn_failed"]).
  { eexists. split; [done|]. set_solver. }
  destruct (String.eqb kind "progress" && _) eqn:Ep.
  { destruct (obj_get data "workspace_mode") as [[| | | |mode| |]|]; simplify_eq; try exact Hf.
    destruct (_ || _) in H; simplify_eq; [exact Hf|]. constructor; [|done]. cbn. set_solver. }
  destruct (_ || _) in H; [simplify_eq; exact Hf|].
  destruct (String.eqb_spec kind "turn_failed") as [-> |Hne].
  { destruct (is_str _ (obj_get data "code")); [simplify_eq; exact Hf|]. destruct (classified_failure data); simplify_eq.
    eexists. split; [done|]. cbn. set_solver. }
  case_bool_decide; simplify_eq; [|by constructor].
  destruct (String.eqb_spec kind "turn_completed") as [-> |]; [eexists; split; [done|]; cbn; set_solver|].
  constructor; [|done]. cbn. set_solver.
Qed.

Lemma relayed_gated l : ∀ a, gated a (relayed a l).1.
Proof.
  induction l as [|e l IH]; intros a; cbn [relayed]; [done|].
  destruct (own_reply e) as [|[reply|]]; [done| |apply IH].
  destruct (handle_reply a reply) as [|[[a' yields] []]] eqn:E; [done| |].
  - cbn. rewrite <-(app_nil_r yields). by eapply handle_reply_gated.
  - cbn. eapply handle_reply_gated; [done|done|apply IH].
Qed.

Lemma relayed_terminal l : ∀ a,
  match (relayed a l).2 with
  | Closed => ∃ out y, (relayed a l).1 = out ++ [y] ∧ terminal y
  | _ => Forall (λ y, ¬ terminal y) (relayed a l).1
  end.
Proof.
  induction l as [|e l IH]; intros a; cbn [relayed]; [by constructor|].
  destruct (own_reply e) as [|[reply|]]; [by constructor| |apply IH].
  destruct (handle_reply a reply) as [|[[a' yields] []]] eqn:E; [by constructor|..];
    apply handle_reply_terminal in E; cbn in E |- *.
  - destruct E as (y & -> & Hy). exists [], y. done.
  - specialize (IH a'). destruct (relayed a' l) as [out st]. cbn in IH |- *.
    destruct st; [by apply list.Forall_app| |by apply list.Forall_app].
    destruct IH as (out' & y & -> & Hy). exists (yields ++ out'), y. by rewrite app_assoc.
Qed.

(** Giving up may follow anything that did not end. *)
Lemma gated_gives_up out data : ∀ a, Forall (λ y, ¬ terminal y) out → gated a out → gated a (out ++ [("turn_failed", data)]).
Proof.
  induction out as [|[kind d] out IH]; intros a Hn Hg; [done|]. apply list.Forall_cons in Hn as [Hk Hn].
  cbn [app gated] in Hg |- *. unfold terminal in Hk. cbn in Hk.
  destruct (String.eqb_spec kind "turn_failed") as [-> |]; [set_solver|].
  destruct (String.eqb_spec kind "progress").
  - destruct Hg as (mode & ? & ? & ? & ? & Hg). exists mode. auto 10.
  - destruct Hg as (? & ? & ? & Hg). split; [done|]. split; [done|]. split; [|by apply IH]. intros ->. set_solver.
Qed.

(** ** The invariant *)

(** The entries of [P] are read and those of [todo] are in hand. *)
Definition caught_up (stream todo : list (nat * entry)) (r : Relay) : Prop :=
  ∃ P rest, stream = P ++ todo ++ rest ∧ rl_last r = last_id P ∧
    relayed None (mine P) = (rl_out r, Open (rl_authorized r)).

Definition relay_ok (stream : list (nat * entry)) (r : Relay) : Prop :=
  match rl_at r with
  | ReadingTail => rl_out r = [] ∧ rl_authorized r = None
  | Registering | Queueing | Recording | Polling => caught_up stream [] r
  | Delivering todo => caught_up stream todo r
  | Ended => ∃ P rest, stream = P ++ rest ∧ relayed None (mine P) = (rl_out r, Closed)
  | GaveUp =>
      ∃ P rest out a, stream = P ++ rest ∧ relayed None (mine P) = (out, Open a) ∧
        rl_out r = out ++ [("turn_failed", unresponsive_failure)]
  | Raised _ => ∃ P rest a, stream = P ++ rest ∧ relayed None (mine P) = (rl_out r, Open a)
  end.

Record remote_ok (s : Shared) (r : Relay) : Prop := {
  ro_ids : ids_grow (sh_stream s);
  ro_unqueued : sh_queued s = false → mine (sh_stream s) = [];
  ro_visible : sh_queued s = true → sh_registered s = true;
  ro_early : match rl_at r with
             | ReadingTail | Registering => sh_queued s = false
             | Queueing => sh_queued s = false ∧ sh_registered s = true
             | _ => True
             end;
  ro_relay : relay_ok (sh_stream s) r;
}.

Lemma caught_up_grows stream todo r more : caught_up stream todo r → caught_up (stream ++ more) todo r.
Proof. intros (P & rest & -> & H). exists P, (rest ++ more). by rewrite <-!app_assoc. Qed.

Lemma relay_ok_grows stream r more : relay_ok stream r → relay_ok (stream ++ more) r.
Proof.
  unfold relay_ok. destruct (rl_at r); try done; try apply caught_up_grows.
  - intros (P & rest & -> & H). exists P, (rest ++ more). by rewrite <-app_assoc.
  - intros (P & rest & out & a & -> & H). exists P, (rest ++ more), out, a. by rewrite <-app_assoc.
  - intros (P & rest & a & -> & H). exists P, (rest ++ more), a. by rewrite <-app_assoc.
Qed.

(** What was read so far when the generator stops. *)
Lemma relay_ok_raised s r e :
  relay_step s r ≠ None → relay_ok (sh_stream s) r → relay_ok (sh_stream s) (r <| rl_at := Raised e |>).
Proof.
  unfold relay_step, relay_ok. cbn. intros Hs Hr.
  assert (Hc : ∀ todo, caught_up (sh_stream s) todo r →
    ∃ P rest a, sh_stream s = P ++ rest ∧ relayed None (mine P) = (rl_out r, Open a)).
  { intros todo (P & rest & -> & _ & H). by exists P, (todo ++ rest), (rl_authorized r). }
  destruct (rl_at r); try done; eauto.
  destruct Hr as [-> _]. exists [], (sh_stream s), None. done.
Qed.

Lemma deliver_entry_ok now stream id e todo r :
  caught_up stream ((id, e) :: todo) r → relay_ok stream (deliver_entry now id e todo r).
Proof.
  intros (P & rest & -> & Hlast & Hrel). unfold deliver_entry.
  set (next := match todo with [] => Polling | _ => Delivering todo end).
  assert (Hnext : ∀ r', rl_at r' = next → rl_last r' = id →
    relayed None (mine (P ++ [(id, e)])) = (rl_out r', Open (rl_authorized r')) →
    relay_ok (P ++ ((id, e) :: todo) ++ rest) r').
  { intros r' Ht Hid Hr. unfold relay_ok. rewrite Ht. unfold next.
    assert (Hc : caught_up (P ++ ((id, e) :: todo) ++ rest) todo r').
    { exists (P ++ [(id, e)]), rest. split; [by rewrite <-app_assoc|]. split; [by rewrite last_id_snoc|done]. }
    by destruct todo. }
  assert (Hskip : mine [(id, e)] = if answers_turn e then [e] else []).
  { unfold mine. cbn. by destruct (answers_turn e). }
  destruct (own_reply e) as [err|[reply|]] eqn:Eo.
  - by exists P, (((id, e) :: todo) ++ rest), (rl_authorized r).
  - assert (Hone : mine (P ++ [(id, e)]) = mine P ++ [e]).
    { rewrite mine_app, Hskip, (own_reply_answers _ _ Eo). done. }
    change (rl_authorized (r <| rl_last := id |>)) with (rl_authorized r).
    destruct (handle_reply (rl_authorized r) reply) as [err|[[a yields] finished]] eqn:Eh.
    + by exists P, (((id, e) :: todo) ++ rest), (rl_authorized r).
    + assert (Hrel' : relayed None (mine (P ++ [(id, e)])) = (rl_out r ++ yields, if finished then Closed else Open a)).
      { rewrite Hone, relayed_app, Hrel. cbn [relayed]. rewrite Eo, Eh. destruct finished; cbn; by rewrite ?app_nil_r. }
      destruct finished.
      * exists (P ++ [(id, e)]), (todo ++ rest). split; [by rewrite <-app_assoc|done].
      * by apply Hnext.
  - apply Hnext; [done|done|]. rewrite mine_app, Hskip, (own_reply_answers _ _ Eo). cbn. by rewrite app_nil_r.
Qed.

Lemma poll_result_ok now stream r :
  ids_grow stream → rl_at r = Polling → caught_up stream [] r →
  relay_ok stream (poll_result now (take 100 (after (rl_last r) stream)) r).
Proof.
  intros Hids Hat (P & rest & -> & Hlast & Hrel). cbn [app] in *. rewrite Hlast, after_rest by done.
  unfold poll_result. destruct (take 100 rest) as [|x batch] eqn:Et.
  - destruct (_ && _); unfold relay_ok; cbn; [|rewrite Hat].
    + by exists P, rest, (rl_out r), (rl_authorized r).
    + exists P, rest. done.
  - unfold relay_ok. cbn -[app]. exists P, (drop 100 rest). split; [|done]. by rewrite <-Et, take_drop.
Qed.

Lemma remote_step_ok s r s' r' : remote_step (s, r) (s', r') → remote_ok s r → remote_ok s' r'.
Proof.
  intros Hs [Hids Hun Hvis Hearly Hrel]. inversion Hs as [? ? ? ? Hst|? ? e Hne|? ? id e Hlt Hq|? ? now Hle]; subst.
  - unfold relay_step in Hst. destruct (rl_at r) as [ | | | | |[|[id e] todo]| | |] eqn:Eat; simplify_eq;
      unfold relay_ok in Hrel; rewrite Eat in Hrel; try (split; cbn; try done; by rewrite Eat).
    + destruct Hrel as [Ho Ha]. split; try done. unfold relay_ok. cbn. exists (sh_stream s'), [].
      rewrite app_nil_r. split; [done|]. split; [done|]. cbn. by rewrite Hun, Ho, Ha.
    + destruct Hearly. split; cbn; try done; congruence.
    + split; try done. unfold poll_result. destruct (take 100 _); [destruct (_ && _)|]; cbn; rewrite ?Eat; done.
      by apply poll_result_ok.
    + split; try done; [|by apply deliver_entry_ok].
      unfold deliver_entry. repeat case_match; cbn; try done; by destruct todo.
  - split; try done. by apply relay_ok_raised.
  - split; try done; [by apply ids_grow_snoc| |by apply relay_ok_grows].
    intros Hf. change (mine (sh_stream s ++ [(id, e)]) = []). rewrite mine_app, Hun by done. unfold mine. cbn. destruct (answers_turn e) eqn:Ea; [|done].
    cbn in Hf. rewrite Hq in Hf by done. done.
  - by split.
Qed.

Section Reachable.
Context (stream : list (nat * entry)) (now : Z) (Hids : ids_grow stream) (Hnew : mine stream = []).

Lemma remote_reachable s r : rtc remote_step (start_shared stream now, new_relay) (s, r) → remote_ok s r.
Proof.
  intros Hst. apply (rtc_ind_r (λ p, remote_ok p.1 p.2)) with (start_shared stream now, new_relay) (s, r) in Hst; [done|..].
  - by split.
  - clear. intros [s1 r1] [s2 r2] _ Hs Hok. by eapply remote_step_ok.
Qed.

(** C15: a remote turn yields its own replies, all of them, in order. Under every
    interleaving of the generator with the controller, with other turns' replies
    on the same stream and failures anywhere: what was yielded is at every moment
    a prefix of what the replies to this turn amount to, and all of it once the
    turn has ended; giving up adds one failure. No reply is missed, because the
    read position is taken before the job is queued, and a queued job is always
    visible to the controller. *)
Theorem remote_replies_exact s r :
  rtc remote_step (start_shared stream now, new_relay) (s, r) →
  let all := (relayed None (mine (sh_stream s))).1 in
  match rl_at r with
  | Ended => rl_out r = all
  | GaveUp => ∃ seen, seen `prefix_of` all ∧ rl_out r = seen ++ [("turn_failed", unresponsive_failure)]
  | _ => rl_out r `prefix_of` all
  end ∧ (sh_queued s = true → sh_registered s = true).
Proof.
  intros Hst. destruct (remote_reachable s r Hst) as [_ _ Hvis _ Hok]. cbn zeta. split; [|done].
  assert (Hpre : ∀ P rest out st, sh_stream s = P ++ rest → relayed None (mine P) = (out, st) →
    out `prefix_of` (relayed None (mine (sh_stream s))).1).
  { intros P rest out st -> E. rewrite mine_app. by apply relayed_prefix with st. }
  unfold relay_ok in Hok. destruct (rl_at r).
  - destruct Hok as [-> _]. apply prefix_nil.
  - destruct Hok as (P & rest & E & _ & H). by eapply Hpre.
  - destruct Hok as (P & rest & E & _ & H). by eapply Hpre.
  - destruct Hok as (P & rest & E & _ & H). by eapply Hpre.
  - destruct Hok as (P & rest & E & _ & H). by eapply Hpre.
  - destruct Hok as (P & rest & E & _ & H). by eapply Hpre.
  - destruct Hok as (P & rest & -> & H). rewrite mine_app. by rewrite (relayed_closed _ _ _ _ H).
  - destruct Hok as (P & rest & out & a & E & H & Ho). exists out. split; [by eapply Hpre|done].
  - destruct Hok as (P & rest & a & E & H). by eapply Hpre.
Qed.

(** C16: nothing of a turn is shown before its workspace is authorized. Whatever the
    worker sends, text, steps, memory, skills, history and the completion are
    yielded only after an authorization, of a mode that is never stronger than
    the one asked for and never changes; a turn that ended yielded exactly one
    terminal reply, as its last, and one that did not end yielded none. *)
Theorem remote_workspace_gated s r :
  rtc remote_step (start_shared stream now, new_relay) (s, r) →
  gated None (rl_out r) ∧
  match rl_at r with
  | Ended | GaveUp => ∃ out y, rl_out r = out ++ [y] ∧ terminal y
  | _ => Forall (λ y, ¬ terminal y) (rl_out r)
  end.
Proof.
  intros Hst. destruct (remote_reachable s r Hst) as [_ _ _ _ Hok].
  assert (Hopen : ∀ l out a, relayed None l = (out, Open a) → gated None out ∧ Forall (λ y, ¬ terminal y) out).
  { intros l out a E. pose proof (relayed_gated l None) as Hg. pose proof (relayed_terminal l None) as Ht.
    by rewrite E in Hg, Ht. }
  unfold relay_ok in Hok. destruct (rl_at r).
  - destruct Hok as [-> _]. by split.
  - destruct Hok as (P & rest & E & _ & H). by eapply Hopen.
  - destruct Hok as (P & rest & E & _ & H). by eapply Hopen.
  - destruct Hok as (P & rest & E & _ & H). by eapply Hopen.
  - destruct Hok as (P & rest & E & _ & H). by eapply Hopen.
  - destruct Hok as (P & rest & E & _ & H). by eapply Hopen.
  - destruct Hok as (P & rest & E & H). pose proof (relayed_gated (mine P) None) as Hg.
    pose proof (relayed_terminal (mine P) None) as Ht. by rewrite H in Hg, Ht.
  - destruct Hok as (P & rest & out & a & E & H & ->). apply Hopen in H as [Hg Ht].
    split; [by apply gated_gives_up|]. exists out, ("turn_failed", unresponsive_failure). split; [done|].
    unfold terminal. cbn. set_solver.
  - destruct Hok as (P & rest & a & E & H). by eapply Hopen.
Qed.

End Reachable.

(** ** The idle timeout *)

(** A poll and the delivery of its batch, with the clock at its answer. *)
Fixpoint deliver_all (now : Z) (batch : list (nat * entry)) (r : Relay) : Relay :=
  match batch with
  | [] => r
  | (id, e) :: rest =>
      match rl_at r with
      | Delivering _ => deliver_all now rest (deliver_entry now id e rest r)
      | _ => r
      end
  end.
Definition poll_round (now : Z) (batch : list (nat * entry)) (r : Relay) : Relay :=
  deliver_all now batch (poll_result now batch r).

(** Such a round is what the generator does on its own. *)
Lemma deliver_all_steps s batch : ∀ r,
  rl_at r = Delivering batch → batch ≠ [] → rtc remote_step (s, r) (s, deliver_all (sh_now s) batch r).
Proof.
  induction batch as [|[id e] rest IH]; intros r Hat Hne; [done|]. cbn [deliver_all]. rewrite Hat.
  eapply rtc_l; [apply step_relay; unfold relay_step; rewrite Hat; reflexivity|].
  set (r' := deliver_entry (sh_now s) id e rest r).
  destruct rest as [|x rest]; [apply rtc_refl|].
  assert (Hor : rl_at r' = Delivering (x :: rest) ∨ deliver_all (sh_now s) (x :: rest) r' = r').
  { destruct x as [id' e']. cbn [deliver_all]. unfold r', deliver_entry.
    destruct (own_reply e) as [|[reply|]]; [by right| |by left].
    destruct (handle_reply _ reply) as [|[[a ys] []]]; [by right|by right|by left]. }
  destruct Hor as [Hat'| ->]; [|apply rtc_refl]. by apply IH.
Qed.

Lemma poll_round_steps s r :
  rl_at r = Polling →
  rtc remote_step (s, r) (s, poll_round (sh_now s) (take 100 (after (rl_last r) (sh_stream s))) r).
Proof.
  intros Hat. set (batch := take 100 _). unfold poll_round.
  eapply rtc_l; [apply step_relay; unfold relay_step; rewrite Hat; reflexivity|]. fold batch.
  destruct (decide (batch = [])) as [-> |Hne]; [apply rtc_refl|].
  assert (Hd : rl_at (poll_result (sh_now s) batch r) = Delivering batch) by (by destruct batch).
  by apply deliver_all_steps.
Qed.

(** The polls of a turn, each with the time and the entries of its answer. *)
Fixpoint poll_rounds (rounds : list (Z * list (nat * entry))) (r : Relay) : Relay :=
  match rounds with
  | [] => r
  | (now, batch) :: rest =>
      match rl_at r with
      | Polling => poll_rounds rest (poll_round now batch r)
      | _ => r
      end
  end.

Lemma deliver_foreign now batch : ∀ r,
  Forall (λ e, own_reply e.2 = inr None) batch → batch ≠ [] → rl_at r = Delivering batch →
  ∃ last, deliver_all now batch r = r <| rl_last := last |> <| rl_at := Polling |>.
Proof.
  induction batch as [|[id e] rest IH]; intros r Hf Hne Hat; [done|].
  apply list.Forall_cons in Hf as [He Hf]. cbn in He. cbn [deliver_all]. rewrite Hat.
  unfold deliver_entry. rewrite He. destruct rest as [|x rest]; [by exists id|].
  destruct (IH (r <| rl_last := id |> <| rl_at := Delivering (x :: rest) |>)) as [last ->]; [done..|].
  by exists last.
Qed.

(** C39: a worker that answers nothing fails the turn at the first quiet poll after
    the timeout, but only a quiet one counts. A poll that returns nothing, more
    than the timeout after the last reply to this turn, ends it with the failure
    [worker_unresponsive]. As long as every poll returns replies of other turns,
    though, the bound is not looked at: the turn goes on polling and has yielded
    nothing more, however late it gets and however much time has passed since
    its own last reply. *)
Theorem remote_idle_timeout r :
  rl_at r = Polling → (0 < idle_timeout)%Z →
  (∀ now, (idle_timeout < now - rl_last_reply_at r)%Z →
     rl_at (poll_round now [] r) = GaveUp ∧
     rl_out (poll_round now [] r) = rl_out r ++ [("turn_failed",
       [("error", JStr UNRESPONSIVE_WORKER_ERROR); ("code", JStr WORKER_UNRESPONSIVE_CODE);
        ("message", JStr WORKER_UNRESPONSIVE_MESSAGE)])]) ∧
  (∀ rounds, Forall (λ nb, nb.2 ≠ [] ∧ Forall (λ e, own_reply e.2 = inr None) nb.2) rounds →
     rl_at (poll_rounds rounds r) = Polling ∧ rl_out (poll_rounds rounds r) = rl_out r ∧
     rl_last_reply_at (poll_rounds rounds r) = rl_last_reply_at r).
Proof.
  intros Hat Hidle. split.
  - intros now Hlate. unfold poll_round, poll_result.
    rewrite (proj2 (Z.ltb_lt _ _) Hidle), (proj2 (Z.ltb_lt _ _) Hlate). cbn. done.
  - intros rounds. revert r Hat. induction rounds as [|[now batch] rounds IH]; intros r Hat Hf; [done|].
    apply list.Forall_cons in Hf as [[Hne Hb] Hf]. cbn in Hne, Hb. cbn [poll_rounds]. rewrite Hat.
    assert (Hround : ∃ last, poll_round now batch r = r <| rl_last := last |> <| rl_at := Polling |>).
    { unfold poll_round, poll_result. destruct batch as [|x batch]; [done|].
      destruct (deliver_foreign now (x :: batch) (r <| rl_at := Delivering (x :: batch) |>)) as [last ->]; [done..|].
      by exists last. }
    destruct Hround as [last ->]. set (r' := r <| rl_last := last |> <| rl_at := Polling |>).
    destruct (IH r' eq_refl Hf) as (H1 & H2 & H3). split; [exact H1|]. by split; [rewrite H2|rewrite H3].
Qed.

End Relay.

(** ** A concrete turn *)

Definition demo_entry (correlation_id kind : string) (data : params_t) : entry :=
  Some (dumps (JObj [("correlation_id", JStr correlation_id); ("kind", JStr kind); ("data", JObj data)])).

(** Another turn left a reply; this one is authorized, answers and completes. *)
Definition demo_before : list (nat * entry) := [(3, demo_entry "earlier" "turn_delta" [("text", JStr "old")])].
Definition demo_replies : list (nat * entry) := [
  (5, demo_entry "turn" "progress" [("phase", JStr "workspace_authorized"); ("workspace_mode", JStr "ephemeral")]);
  (6, demo_entry "earlier" "turn_completed" []);
  (8, demo_entry "turn" "turn_delta" [("text", JStr "hi")]);
  (9, demo_entry "turn" "turn_completed" [])].

Abbreviation demo_step := (remote_step loads Some "turn" "ephemeral" 60%Z).
Definition demo_run (n : nat) (p : Shared * Relay) : Shared * Relay :=
  Nat.iter n (λ p, default p (relay_step loads Some "turn" "ephemeral" 60 p.1 p.2)) p.

Lemma demo_run_steps n p : rtc demo_step p (demo_run n p).
Proof.
  induction n as [|n IH]; [apply rtc_refl|]. etrans; [exact IH|].
  change (demo_run (S n) p) with
    (default (demo_run n p) (relay_step loads Some "turn" "ephemeral" 60 (demo_run n p).1 (demo_run n p).2)).
  destruct (demo_run n p) as [s r]. cbn [fst snd].
  destruct (relay_step loads Some "turn" "ephemeral" 60 s r) as [[s' r']|] eqn:E; [|apply rtc_refl].
  apply rtc_once. by apply step_relay.
Qed.

Definition demo_queued : Shared * Relay := demo_run 4 (start_shared demo_before 0, new_relay).
Definition demo_answered : Shared :=
  {| sh_stream := demo_before ++ demo_replies; sh_registered := true; sh_queued := true; sh_now := 0 |}.
Definition demo_end : Shared * Relay := demo_run 5 (demo_answered, demo_queued.2).

Lemma demo_reachable : rtc demo_step (start_shared demo_before 0, new_relay) (demo_end.1, demo_end.2).
Proof.
  etrans; [exact (demo_run_steps 4 _)|]. fold demo_queued.
  assert (E : demo_queued = (demo_queued.1, demo_queued.2)) by (by destruct demo_queued). rewrite E.
  assert (Hadd : ∀ l s r, sh_queued s = true → ids_grow (sh_stream s ++ l) →
    rtc demo_step (s, r) (s <| sh_stream := sh_stream s ++ l |>, r)).
  { intros l. induction l as [|[id e] l IH] using rev_ind; intros s r Hq Hi.
    - rewrite app_nil_r. destruct s. apply rtc_refl.
    - rewrite app_assoc in Hi. apply ids_grow_snoc_inv in Hi as [Hi Hlt].
      eapply rtc_r; [exact (IH s r Hq Hi)|]. rewrite app_assoc.
      set (s1 := s <| sh_stream := sh_stream s ++ l |>).
      exact (step_controller loads Some "turn" "ephemeral" 60 s1 r id e Hlt (λ _, Hq)). }
  etrans; [apply (Hadd demo_replies)|].
  - vm_compute. reflexivity.
  - unfold ids_grow. vm_compute. repeat constructor.
  - replace (demo_end.1, demo_end.2) with demo_end by (by destruct demo_end).
    exact (demo_run_steps 5 (demo_answered, demo_queued.2)).
Qed.

Lemma demo_before_ok : ids_grow demo_before ∧ mine loads "turn" demo_before = [].
Proof. split; [unfold ids_grow; vm_compute; repeat constructor|vm_compute; reflexivity]. Qed.

Lemma remote_replies_exact_witness :
  rl_at demo_end.2 = Ended ∧
  rl_out demo_end.2 = (relayed loads Some "turn" "ephemeral" None (mine loads "turn" (sh_stream demo_end.1))).1 ∧
  length (rl_out demo_end.2) = 3.
Proof.
  split; [vm_compute; reflexivity|]. split; [|vm_compute; reflexivity].
  exact (proj1 (remote_replies_exact loads Some "turn" "ephemeral" 60 demo_before 0 (proj1 demo_before_ok)
    (proj2 demo_before_ok) demo_end.1 demo_end.2 demo_reachable)).
Defined.

Lemma remote_workspace_gated_witness : gated "ephemeral" None (rl_out demo_end.2).
Proof.
  exact (proj1 (remote_workspace_gated loads Some "turn" "ephemeral" 60 demo_before 0 (proj1 demo_before_ok)
    (proj2 demo_before_ok) demo_end.1 demo_end.2 demo_reachable)).
Defined.

Definition demo_foreign (now : Z) (id : nat) : Z * list (nat * entry) := (now, [(id, demo_entry "earlier" "turn_delta" [])]).

Lemma remote_idle_timeout_witness :
  rl_at (poll_round loads Some "turn" "ephemeral" 60 61 [] demo_queued.2) = GaveUp ∧
  rl_at (poll_rounds loads Some "turn" "ephemeral" 60
    [demo_foreign 4 4; demo_foreign 1000 5; demo_foreign 100000 6] demo_queued.2) = Polling.
Proof.
  destruct (remote_idle_timeout loads Some "turn" "ephemeral" 60 demo_queued.2) as [H1 H2].
  - vm_compute. reflexivity.
  - vm_compute. reflexivity.
  - split; [apply H1; vm_compute; reflexivity|]. apply H2.
    repeat (constructor; [split; [vm_compute; discriminate|constructor; [vm_compute; reflexivity|constructor]]|]).
    constructor.
Defined.
