(* ===== verification/RemoteAnswers.v ===== *)
(** * Answers to questions of a remote turn
    ([src/cowork/turnqueue/answers.py], and the remote branch of [answer_question]
    in [src/cowork/api/v1/endpoints/responses.py]).

    [submit_remote_answer] queues an answer in Redis for the controller, which
    writes it to the pod; the pod alone decides whether it closes the question
    and says so on the reply stream, naming the answer.  The function waits for
    that verdict.  It is a machine that takes one step per [await]; between two
    of its steps the controller may add entries, take the answer, and time
    passes. *)
From stdpp Require Import base list gmap strings option relations.
From Stdlib Require Import ZArith Lia.
From S2P Require Import Prelude JsonObject JsonText JsonAscii RedisStream AnswerBroker TurnRequest TurnGrants RemoteReplies.

(** In milliseconds and bytes. *)
Definition ACK_TIMEOUT_MS : Z := 15000.
Definition MAX_ANSWER_BYTES : Z := 64 * 1024.
Definition WRAP_HEADROOM_BYTES : Z := 256.
Definition TERMINAL_KINDS : list string := ["turn_completed"; "turn_failed"].
Definition TAIL_COUNT : nat := 10.

Inductive RemoteAnswerResult := RAccepted | RInvalidOption | RNotFound | RAlreadyAnswered | RTooLarge.

#[export] Instance RemoteAnswerResult_eq_dec : EqDecision RemoteAnswerResult.
Proof. solve_decision. Defined.

(** The values of the enum. *)
Definition remote_value (r : RemoteAnswerResult) : string :=
  match r with
  | RAccepted => "accepted" | RInvalidOption => "invalid_option" | RNotFound => "not_found"
  | RAlreadyAnswered => "already_answered" | RTooLarge => "too_large"
  end.

(** [_REJECTIONS.get(reason, INVALID_OPTION)] after [reason not in _REJECTIONS],
    which raises for a value that cannot be hashed. *)
Definition rejection (reason : option json) : exn + RemoteAnswerResult :=
  match reason with
  | Some (JArr _) | Some (JObj _) => inl (TypeError "unhashable type")
  | Some (JStr s) =>
      inr (if String.eqb s "not_found" then RNotFound
           else if String.eqb s "already_answered" then RAlreadyAnswered else RInvalidOption)
  | _ => inr RInvalidOption
  end.

(** ** The queued entry *)

(** [json.dumps(value, separators=(",", ":"), ensure_ascii=False)]. *)
Fixpoint dumps_compact_utf8 (j : json) : string :=
  match j with
  | JNull => "null"
  | JBool b => if b then "true" else "false"
  | JInt n => dumps_int n
  | JFloat r => r
  | JStr s => dumps_str s
  | JArr l => String.append "[" (String.append (str_join "," (map dumps_compact_utf8 l)) "]")
  | JObj l =>
      String.append "{" (String.append
        (str_join "," (map (λ kv, String.append (dumps_str kv.1) (String.append ":" (dumps_compact_utf8 kv.2))) l)) "}")
  end.

(** [payload] of [answer_question]. *)
Definition payload_of (a : Answer) : params_t :=
  match a_values a with Some vs => [("values", JArr (map JStr vs))] | None => [] end ++
  match a_text a with Some t => [("text", JStr t)] | None => [] end ++
  match a_skipped a with Some b => [("skipped", JBool b)] | None => [] end.

Definition answer_entry (question_id answer_id : string) (payload : params_t) : string :=
  dumps_compact_utf8 (JObj (foldl (λ d kv, obj_set d kv.1 kv.2)
    [("question_id", JStr question_id); ("answer_id", JStr answer_id)] payload)).

Definition too_large (entry : string) : bool :=
  (MAX_ANSWER_BYTES <? Z.of_nat (String.length entry) + WRAP_HEADROOM_BYTES)%Z.

Section Submit.
(** [text] is the entry, [answer_entry question_id answer_id payload]. *)
Context (from_json : string → option json) (corr answer_id text : string) (ack_timeout : Z).

(** [_own_reply]: an entry that does not parse is skipped. *)
Definition read_reply (e : entry) : option reply :=
  match e with
  | None => None
  | Some payload =>
      match reply_header from_json payload, turn_reply from_json payload with
      | inr c, inr r => if String.eqb c corr then Some r else None
      | _, _ => None
      end
  end.

Definition is_terminal_reply (r : reply) : bool := bool_decide (r.1 ∈ TERMINAL_KINDS).

(** The scan of the newest entries: whether the turn has already ended. *)
Fixpoint tail_ended (newest : list entry) : bool :=
  match newest with
  | [] => false
  | e :: rest => match read_reply e with Some r => is_terminal_reply r | None => tail_ended rest end
  end.

(** What a reply says of the answer, if anything. *)
Definition verdict (r : reply) : option (exn + RemoteAnswerResult) :=
  let (kind, data) := r in
  if is_terminal_reply r then Some (inr RNotFound)
  else if String.eqb kind "turn_step" && is_str answer_id (obj_get data "answer_id") then
    if is_str "ask_user_answered" (obj_get data "step") then Some (inr RAccepted)
    else if is_str "ask_user_answer_rejected" (obj_get data "step") then Some (rejection (obj_get data "reason"))
    else None
  else None.

Definition entry_verdict (e : entry) : option (exn + RemoteAnswerResult) :=
  match read_reply e with Some r => verdict r | None => None end.

(** ** The call *)

(** Why it returned. *)
Inductive cause := EndedBefore | TooLarge | Verdict | Late | LostRedis | Failed.

Inductive submit_at :=
  | ReadingTail                        (* before the XREVRANGE *)
  | Pushing                            (* before the pipeline *)
  | Starting                           (* before the deadline is set *)
  | Waiting                            (* at the head of the loop *)
  | Scanning (todo : list (nat * entry))
  | Returned (why : cause) (result : exn + RemoteAnswerResult).

Record Submit := { sb_last : nat; sb_deadline : Z; sb_at : submit_at }.

#[export] Instance fields_Submit : Fields Submit := λ c, {|
  sb_last := sb_last c; sb_deadline := sb_deadline c; sb_at := sb_at c |}.

(** What the call shares with the controller; [aw_pushes] is everything that was
    ever pushed by this call. *)
Record AnswerWorld := { aw_stream : list (nat * entry); aw_pushes : list string; aw_now : Z }.

#[export] Instance fields_AnswerWorld : Fields AnswerWorld := λ w, {|
  aw_stream := aw_stream w; aw_pushes := aw_pushes w; aw_now := aw_now w |}.

Definition submit_step (w : AnswerWorld) (c : Submit) : option (AnswerWorld * Submit) :=
  match sb_at c with
  | ReadingTail =>
      let c := c <| sb_last := last_id (aw_stream w) |> in
      Some (w, c <| sb_at :=
        if tail_ended (take TAIL_COUNT (rev (map snd (aw_stream w)))) then Returned EndedBefore (inr RNotFound)
        else if too_large text then Returned TooLarge (inr RTooLarge) else Pushing |>)
  | Pushing => Some (w <| aw_pushes := aw_pushes w ++ [text] |>, c <| sb_at := Starting |>)
  | Starting => Some (w, c <| sb_deadline := (aw_now w + ack_timeout)%Z |> <| sb_at := Waiting |>)
  | Waiting =>
      if (0 <? sb_deadline c - aw_now w)%Z then
        match take 50 (after (sb_last c) (aw_stream w)) with
        | [] => Some (w, c)
        | batch => Some (w, c <| sb_at := Scanning batch |>)
        end
      else Some (w, c <| sb_at := Returned Late (inr RAccepted) |>)
  | Scanning [] => Some (w, c <| sb_at := Waiting |>)
  | Scanning ((id, e) :: rest) =>
      let c := c <| sb_last := id |> in
      Some (w, c <| sb_at :=
        match entry_verdict e with
        | Some result => Returned Verdict result
        | None => match rest with [] => Waiting | _ => Scanning rest end
        end |>)
  | Returned _ _ => None
  end.

Definition new_submit : Submit := {| sb_last := 0; sb_deadline := 0; sb_at := ReadingTail |}.

(** Whether an entry is the pod's word on this answer. *)
Definition names_answer (e : entry) : bool :=
  match read_reply e with Some (kind, data) => is_str answer_id (obj_get data "answer_id") | None => false end.

Inductive answer_step : AnswerWorld * Submit → AnswerWorld * Submit → Prop :=
  | step_submit w c w' c' : submit_step w c = Some (w', c') → answer_step (w, c) (w', c')
  (* a command before the wait fails; the pipeline may still have been applied *)
  | step_tail_fails w c e : sb_at c = ReadingTail → answer_step (w, c) (w, c <| sb_at := Returned Failed (inl e) |>)
  | step_push_fails w c e (applied : bool) : sb_at c = Pushing →
      answer_step (w, c) (w <| aw_pushes := if applied then aw_pushes w ++ [text] else aw_pushes w |>,
                          c <| sb_at := Returned Failed (inl e) |>)
  (* a RedisError in the wait *)
  | step_wait_fails w c : sb_at c = Waiting → answer_step (w, c) (w, c <| sb_at := Returned LostRedis (inr RAccepted) |>)
  (* the controller relays something; it can name the answer only once it is queued *)
  | step_reply w c id e :
      last_id (aw_stream w) < id → (names_answer e = true → aw_pushes w ≠ []) →
      answer_step (w, c) (w <| aw_stream := aw_stream w ++ [(id, e)] |>, c)
  | step_clock w c now : (aw_now w ≤ now)%Z → answer_step (w, c) (w <| aw_now := now |>, c).

(** ** The invariant *)

Definition silent (l : list (nat * entry)) : Prop := Forall (λ e, entry_verdict e.2 = None) l.
Definition unnamed (l : list (nat * entry)) : Prop := Forall (λ e, names_answer e.2 = false) l.

(** What lies before the position that was read, what was read since without a
    word on the answer, what is in hand and the rest. *)
Definition heard (stream todo : list (nat * entry)) (last : nat) : Prop :=
  ∃ before read rest, stream = before ++ read ++ todo ++ rest ∧ last = last_id (before ++ read) ∧
    unnamed before ∧ silent read.

Definition ended_reply (e : nat * entry) : Prop := ∃ r, read_reply e.2 = Some r ∧ is_terminal_reply r = true.

Definition submit_ok (w : AnswerWorld) (c : Submit) : Prop :=
  match sb_at c with
  | ReadingTail => aw_pushes w = []
  | Pushing => aw_pushes w = [] ∧ too_large text = false ∧ heard (aw_stream w) [] (sb_last c)
  | Starting | Waiting => aw_pushes w = [text] ∧ too_large text = false ∧ heard (aw_stream w) [] (sb_last c)
  | Scanning todo => aw_pushes w = [text] ∧ too_large text = false ∧ heard (aw_stream w) todo (sb_last c)
  | Returned EndedBefore result =>
      aw_pushes w = [] ∧ result = inr RNotFound ∧ Exists ended_reply (aw_stream w)
  | Returned TooLarge result => aw_pushes w = [] ∧ result = inr RTooLarge ∧ too_large text = true
  | Returned Verdict result =>
      aw_pushes w = [text] ∧ too_large text = false ∧
      ∃ before read e rest, aw_stream w = before ++ read ++ e :: rest ∧ unnamed before ∧ silent read ∧
        entry_verdict e.2 = Some result
  | Returned Late result =>
      aw_pushes w = [text] ∧ too_large text = false ∧ result = inr RAccepted ∧ (sb_deadline c ≤ aw_now w)%Z ∧
      heard (aw_stream w) [] (sb_last c)
  | Returned LostRedis result =>
      aw_pushes w = [text] ∧ too_large text = false ∧ result = inr RAccepted ∧ heard (aw_stream w) [] (sb_last c)
  | Returned Failed result =>
      (∃ e, result = inl e) ∧ (aw_pushes w = [] ∨ aw_pushes w = [text] ∧ too_large text = false)
  end.

Record answer_ok (w : AnswerWorld) (c : Submit) : Prop := {
  an_ids : ids_grow (aw_stream w);
  an_fresh : aw_pushes w = [] → unnamed (aw_stream w);
  an_call : submit_ok w c;
}.

Lemma tail_ended_exists newest : tail_ended newest = true → Exists (λ e, ended_reply (0, e)) newest.
Proof.
  induction newest as [|e newest IH]; cbn; [done|]. destruct (read_reply e) as [r|] eqn:E.
  - intros Ht. left. exists r. done.
  - intros H. right. by apply IH.
Qed.

Lemma heard_grows stream todo last more : heard stream todo last → heard (stream ++ more) todo last.
Proof. intros (b & r & rest & -> & H). exists b, r, (rest ++ more). by rewrite <-!app_assoc. Qed.

(** The reply stream only grows, and so does the clock. *)
Lemma submit_ok_grows w c more now :
  (aw_now w ≤ now)%Z → submit_ok w c →
  submit_ok (w <| aw_stream := aw_stream w ++ more |> <| aw_now := now |>) c.
Proof.
  intros Hle. unfold submit_ok. cbn. destruct (sb_at c) as [ | | | | |[] result]; try done.
  - intros (? & ? & ?). eauto using heard_grows.
  - intros (? & ? & ?). eauto using heard_grows.
  - intros (? & ? & ?). eauto using heard_grows.
  - intros (? & ? & ?). eauto using heard_grows.
  - intros (? & ? & H). split; [done|]. split; [done|]. apply Exists_app. by left.
  - intros (? & ? & before & read & e & rest & -> & H). split; [done|]. split; [done|].
    exists before, read, e, (rest ++ more). by rewrite <-!app_assoc.
  - intros (? & ? & ? & ? & ?). split; [done|]. split; [done|]. split; [done|]. split; [lia|by apply heard_grows].
  - intros (? & ? & ? & ?). eauto using heard_grows.
Qed.

Lemma scan_entry_ok w c id e rest last' :
  aw_pushes w = [text] → too_large text = false → heard (aw_stream w) ((id, e) :: rest) last' →
  submit_ok w (c <| sb_last := id |> <| sb_at :=
    match entry_verdict e with
    | Some result => Returned Verdict result
    | None => match rest with [] => Waiting | _ => Scanning rest end
    end |>).
Proof.
  intros Hp Ht (before & read & rest' & Hs & _ & Hb & Hr). unfold submit_ok. cbn [sb_at].
  destruct (entry_verdict e) as [result|] eqn:Ev.
  - split; [done|]. split; [done|]. by exists before, read, (id, e), (rest ++ rest').
  - assert (Hh : heard (aw_stream w) rest id).
    { exists before, (read ++ [(id, e)]), rest'. split; [by rewrite Hs, <-!app_assoc|].
      split; [by rewrite app_assoc, last_id_snoc|]. split; [done|]. apply list.Forall_app. split; [done|].
      by constructor. }
    destruct rest; cbn; done.
Qed.

Lemma submit_step_ok w c w' c' : submit_step w c = Some (w', c') → answer_ok w c → answer_ok w' c'.
Proof.
  intros Hs [Hids Hf Hc]. unfold submit_step in Hs. unfold submit_ok in Hc.
  destruct (sb_at c) as [ | | | |[|[id e] rest]|] eqn:Eat; simplify_eq.
  - split; [done|done|]. unfold submit_ok. cbn [sb_at sb_last].
    destruct (tail_ended _) eqn:Et; [|destruct (too_large text) eqn:El].
    + split; [done|]. split; [done|]. apply tail_ended_exists, Exists_exists in Et as (e & He & r & Hr & Ht).
      apply Exists_exists. apply elem_of_take in He as (i & Hi & _). apply list_elem_of_lookup_2 in Hi.
      apply list_elem_of_In, in_rev, list_elem_of_In, list_elem_of_fmap in Hi as (x & -> & Hx).
      exists x. split; [done|]. by exists r.
    + done.
    + split; [done|]. split; [done|]. exists (aw_stream w'), [], []. rewrite !app_nil_r. split; [done|].
      split; [done|]. split; [by apply Hf|constructor].
  - destruct Hc as (Hp & Hl & Hh). split; cbn; [done|by rewrite Hp|]. unfold submit_ok. cbn. by rewrite Hp.
  - split; done.
  - destruct Hc as (Hp & Hl & Hh). destruct (Z.ltb_spec 0 (sb_deadline c - aw_now w)).
    + destruct (take 50 _) as [|x batch] eqn:Et; simplify_eq.
      * split; [done|done|]. unfold submit_ok. rewrite Eat. done.
      * split; [done|done|]. unfold submit_ok. cbn [sb_at sb_last]. split; [done|]. split; [done|].
        destruct Hh as (before & read & rest & Hst & Hlast & Hb & Hr). cbn [app] in Hst.
        rewrite Hlast, Hst, app_assoc, after_rest in Et by (rewrite <-app_assoc, <-Hst; done).
        exists before, read, (drop 50 rest). rewrite <-Et, take_drop. done.
    + simplify_eq. split; [done|done|]. unfold submit_ok. cbn. split; [done|]. split; [done|]. split; [done|].
      split; [lia|done].
  - split; [done|done|]. unfold submit_ok. cbn. done.
  - destruct Hc as (Hp & Hl & Hh). split; [done|done|]. by eapply scan_entry_ok.
Qed.

Lemma answer_step_ok w c w' c' : answer_step (w, c) (w', c') → answer_ok w c → answer_ok w' c'.
Proof.
  intros Hs Hok. inversion Hs as [? ? ? ? Hst|? ? e Hat|? ? e applied Hat|? ? Hat|? ? id e Hlt Hn|? ? now Hle]; subst.
  - by eapply submit_step_ok.
  - destruct Hok as [Hids Hf Hc]. unfold submit_ok in Hc. rewrite Hat in Hc. split; [done|done|].
    unfold submit_ok. cbn. eauto.
  - destruct Hok as [Hids Hf Hc]. unfold submit_ok in Hc. rewrite Hat in Hc. destruct Hc as (Hp & Hl & _).
    split; [done| |unfold submit_ok; cbn; rewrite Hp; destruct applied; eauto].
    cbn. rewrite Hp. destruct applied; [done|auto].
  - destruct Hok as [Hids Hf Hc]. unfold submit_ok in Hc. rewrite Hat in Hc. split; [done|done|].
    unfold submit_ok. cbn. tauto.
  - destruct Hok as [Hids Hf Hc]. split; [by apply ids_grow_snoc| |].
    + cbn. intros Hp. apply list.Forall_app. split; [by apply Hf|]. constructor; [|done].
      destruct (names_answer e) eqn:En; [|done]. by specialize (Hn eq_refl).
    + pose proof (submit_ok_grows w c' [(id, e)] (aw_now w) (Z.le_refl _) Hc) as H. by destruct w.
  - destruct Hok as [Hids Hf Hc]. split; [done|done|].
    pose proof (submit_ok_grows w c' [] now Hle Hc) as H. destruct w as [st ps n]. cbn in H. by rewrite app_nil_r in H.
Qed.

(** what a caller is told of an answer to a remote question is the pod's word
    on that very answer. Under every interleaving with the controller, with
    failures anywhere, the answer is queued at most once, and never when it was
    refused as too large or because the turn had ended. A result that is neither
    late nor the consequence of a lost connection is the first word on the
    stream after the position that was read before the answer was queued, so no
    verdict naming the answer can have been missed; late, nothing read so far
    said anything of it. What was queued leaves room for the controller's
    wrapping within its limit of a line. *)
Theorem remote_answer_verdict stream now w c why result :
  ids_grow stream → unnamed stream →
  rtc answer_step ({| aw_stream := stream; aw_pushes := []; aw_now := now |}, new_submit) (w, c) →
  sb_at c = Returned why result →
  match why with
  | EndedBefore => aw_pushes w = [] ∧ result = inr RNotFound ∧ Exists ended_reply (aw_stream w)
  | TooLarge => aw_pushes w = [] ∧ result = inr RTooLarge ∧ too_large text = true
  | Verdict => aw_pushes w = [text] ∧
      ∃ before read e rest, aw_stream w = before ++ read ++ e :: rest ∧ unnamed before ∧ silent read ∧
        entry_verdict e.2 = Some result
  | Late => aw_pushes w = [text] ∧ result = inr RAccepted ∧ (sb_deadline c ≤ aw_now w)%Z ∧
      ∃ before read rest, aw_stream w = before ++ read ++ rest ∧ unnamed before ∧ silent read
  | LostRedis => aw_pushes w = [text] ∧ result = inr RAccepted
  | Failed => (∃ e, result = inl e) ∧ (aw_pushes w = [] ∨ aw_pushes w = [text])
  end ∧ (aw_pushes w ≠ [] → (Z.of_nat (String.length text) + WRAP_HEADROOM_BYTES ≤ MAX_ANSWER_BYTES)%Z).
Proof.
  intros Hids Hun Hst Hat. apply (rtc_ind_r (λ p, answer_ok p.1 p.2)) with
    ({| aw_stream := stream; aw_pushes := []; aw_now := now |}, new_submit) (w, c) in Hst.
  2: by split.
  2: clear; intros [w1 c1] [w2 c2] _ Hs Hok; by eapply answer_step_ok.
  destruct Hst as [_ _ Hc]. cbn [fst snd] in Hc. unfold submit_ok in Hc. rewrite Hat in Hc.
  assert (Hl : aw_pushes w = [] ∨ too_large text = false) by (destruct why; tauto).
  split.
  - destruct why; try tauto. destruct Hc as (? & ? & ? & ? & before & read & rest & H & _ & ?). cbn [app] in H.
    split; [done|]. split; [done|]. split; [done|]. exists before, read, rest. tauto.
  - intros Hne. destruct Hl as [|Hl]; [done|]. unfold too_large in Hl. lia.
Qed.

End Submit.

(** [answer_question] on the remote backend: [in_flight] is whether [_shared_turn]
    found a running turn of the caller, [submitted] what the submission gave. *)
Definition remote_answer_question (in_flight : bool) (req : AnswerRequest)
    (submitted : params_t → exn + RemoteAnswerResult) : exn + option AnswerBroker.reply :=
  if negb in_flight then inr (Some (404%Z, "not_found"))
  else
    match answer_payload req with
    | inl r => inr (Some r)
    | inr payload =>
        match submitted (payload_of payload) with
        | inl e => inl e
        | inr result => inr (answer_response (remote_value result))
        end
    end.

(** Every result has a reply: the [AssertionError] of [_answer_response] is dead
    code, and an answer is accepted in the reply exactly when it was in the result. *)
Lemma remote_answer_replies result :
  ∃ status body, answer_response (remote_value result) = Some (status, body) ∧
    (status = 200%Z ↔ result = RAccepted).
Proof. destruct result; do 2 eexists; (split; [reflexivity|]); split; congruence || done. Qed.

(** ** A concrete answer *)

Definition demo_text : string :=
  answer_entry "q" "a1" (payload_of {| a_values := Some ["yes"]; a_text := None; a_skipped := None |}).

Definition demo_verdict : entry :=
  demo_entry "turn" "turn_step" [("step", JStr "ask_user_answered"); ("id", JStr "q"); ("answer_id", JStr "a1")].

Abbreviation demo_answer_step := (answer_step loads "turn" "a1" demo_text ACK_TIMEOUT_MS).
Definition demo_submit (n : nat) (p : AnswerWorld * Submit) : AnswerWorld * Submit :=
  Nat.iter n (λ p, default p (submit_step loads "turn" "a1" demo_text ACK_TIMEOUT_MS p.1 p.2)) p.

Lemma demo_submit_steps n p : rtc demo_answer_step p (demo_submit n p).
Proof.
  induction n as [|n IH]; [apply rtc_refl|]. etrans; [exact IH|].
  change (demo_submit (S n) p) with (default (demo_submit n p)
    (submit_step loads "turn" "a1" demo_text ACK_TIMEOUT_MS (demo_submit n p).1 (demo_submit n p).2)).
  destruct (demo_submit n p) as [w c]. cbn [fst snd].
  destruct (submit_step loads "turn" "a1" demo_text ACK_TIMEOUT_MS w c) as [[w' c']|] eqn:E; [|apply rtc_refl].
  apply rtc_once. by apply step_submit.
Qed.

Definition demo_pushed : AnswerWorld * Submit :=
  demo_submit 3 ({| aw_stream := []; aw_pushes := []; aw_now := 0 |}, new_submit).
Definition demo_replied : AnswerWorld := {| aw_stream := [(1, demo_verdict)]; aw_pushes := [demo_text]; aw_now := 0 |}.
Definition demo_told : AnswerWorld * Submit := demo_submit 2 (demo_replied, demo_pushed.2).

Lemma demo_told_reachable :
  rtc demo_answer_step ({| aw_stream := []; aw_pushes := []; aw_now := 0 |}, new_submit) (demo_told.1, demo_told.2).
Proof.
  etrans; [exact (demo_submit_steps 3 _)|]. fold demo_pushed.
  assert (E : demo_pushed = ({| aw_stream := []; aw_pushes := [demo_text]; aw_now := 0 |}, demo_pushed.2))
    by (vm_compute; reflexivity).
  rewrite E. eapply rtc_l.
  - apply (step_reply loads "turn" "a1" demo_text ACK_TIMEOUT_MS _ _ 1 demo_verdict); [cbn; lia|done].
  - replace (demo_told.1, demo_told.2) with demo_told by (by destruct demo_told).
    exact (demo_submit_steps 2 (demo_replied, demo_pushed.2)).
Qed.

Lemma remote_answer_verdict_witness :
  sb_at demo_told.2 = Returned Verdict (inr RAccepted) ∧ aw_pushes demo_told.1 = [demo_text] ∧
  (Z.of_nat (String.length demo_text) + WRAP_HEADROOM_BYTES ≤ MAX_ANSWER_BYTES)%Z.
Proof.
  assert (Hat : sb_at demo_told.2 = Returned Verdict (inr RAccepted)) by (vm_compute; reflexivity).
  split; [exact Hat|].
  destruct (remote_answer_verdict loads "turn" "a1" demo_text ACK_TIMEOUT_MS [] 0 demo_told.1 demo_told.2 Verdict (inr RAccepted))
    as [[Hp _] Hl].
  - unfold ids_grow. cbn. repeat constructor.
  - constructor.
  - exact demo_told_reachable.
  - exact Hat.
  - split; [exact Hp|]. apply Hl. rewrite Hp. discriminate.
Defined.
