(* ===== verification/SessionStore.v ===== *)
(** * The store of coding sessions ([src/cowork/coding/store.py]).

    [CodingStore] keeps a session's metadata in one JSON file, replaced as a
    whole, and its events in an append-only file of JSON lines that is compacted
    when it grows; caches of the newest events, the last number, the number of
    lines and the ids of redelivered events spare it from reading that file.
    Every method holds one lock, so an operation is a function on the store;
    what a crash leaves on disk is modelled at the grain of its file-system
    calls, an append possibly cut anywhere.

    How pydantic writes and reads an event is a parameter ([EventCodec]). *)
From stdpp Require Import base list gmap strings option relations.
From Stdlib Require Import ZArith Lia.
From S2P Require Import Prelude JsonText CommandRules Approvals AgentQuestions ControlTasks.

Definition MAX_EVENTS : Z := 6000.
Definition MAX_EVENT_FILE_BYTES : Z := 32 * 1024 * 1024.
Definition MAX_RECENT_EVENTS : nat := 512.

(** ** Data *)

(** [CodingEvent]; the fields the store does not read are in the order of the
    class. *)
Record CodingEvent := {
  ev_seq : Z;
  ev_timestamp : Z;
  ev_type : string;
  ev_title : string;
  ev_text : string;
  ev_phase : option string;
  ev_item_id : option string;
  ev_turn_id : option string;
  ev_source_event_id : option string;
  ev_data : list (string * json);
}.

#[export] Instance fields_CodingEvent : Fields CodingEvent := λ e, {|
  ev_seq := ev_seq e; ev_timestamp := ev_timestamp e; ev_type := ev_type e; ev_title := ev_title e;
  ev_text := ev_text e; ev_phase := ev_phase e; ev_item_id := ev_item_id e; ev_turn_id := ev_turn_id e;
  ev_source_event_id := ev_source_event_id e; ev_data := ev_data e |}.

(** [item.source_event_id], where it is true. *)
Definition source_of (e : CodingEvent) : option string :=
  match ev_source_event_id e with Some s => if truthy s then Some s else None | None => None end.

(** [CodingSession]: the fields the store and its clients change; [ss_rest] is
    everything else. *)
Record Session := {
  ss_id : string;
  ss_title : string;
  ss_status : SessionStatus;
  ss_active_turn_id : option string;
  ss_pending_approval : option PendingApproval;
  ss_pending_question : option PendingQuestion;
  ss_pinned : bool;
  ss_archived : bool;
  ss_fix_failing_checks : bool;                  (* delivery_policy *)
  ss_max_fix_attempts : Z;
  ss_fix_attempts : list (string * Z);           (* delivery_automation *)
  ss_event_count : Z;
  ss_updated_at : Z;
  ss_rest : list (string * json);
}.

#[export] Instance fields_Session : Fields Session := λ s, {|
  ss_id := ss_id s; ss_title := ss_title s; ss_status := ss_status s; ss_active_turn_id := ss_active_turn_id s;
  ss_pending_approval := ss_pending_approval s; ss_pending_question := ss_pending_question s;
  ss_pinned := ss_pinned s; ss_archived := ss_archived s; ss_fix_failing_checks := ss_fix_failing_checks s;
  ss_max_fix_attempts := ss_max_fix_attempts s; ss_fix_attempts := ss_fix_attempts s;
  ss_event_count := ss_event_count s; ss_updated_at := ss_updated_at s; ss_rest := ss_rest s |}.

(** ** Lines *)

(** [text.splitlines()], on UTF-8 bytes: besides line feed and carriage return it
    splits at VT, FF, FS, GS, RS, NEL, LINE SEPARATOR and PARAGRAPH SEPARATOR. *)
Definition line_break (c : Ascii.ascii) : bool := bool_decide (ord c ∈ [10; 11; 12; 28; 29; 30]).

Fixpoint lines_from (cur s : string) : list string :=
  match s with
  | EmptyString => if truthy cur then [cur] else []
  | String.String c s1 =>
      if line_break c then cur :: lines_from "" s1
      else if Nat.eqb (ord c) 13 then
        match s1 with
        | String.String d s2 => if Nat.eqb (ord d) 10 then cur :: lines_from "" s2 else cur :: lines_from "" s1
        | EmptyString => [cur]
        end
      else
        match s1 with
        | String.String d s2 =>
            if Nat.eqb (ord c) 194 && Nat.eqb (ord d) 133 then cur :: lines_from "" s2
            else
              match s2 with
              | String.String e s3 =>
                  if Nat.eqb (ord c) 226 && Nat.eqb (ord d) 128 && bool_decide (ord e ∈ [168; 169])
                  then cur :: lines_from "" s3
                  else lines_from (snoc cur c) s1
              | EmptyString => lines_from (snoc cur c) s1
              end
        | EmptyString => [snoc cur c]
        end
  end.
Definition splitlines (s : string) : list string := lines_from "" s.

Definition newline : string := String.String (chr 10) "".

(** Whether [splitlines] keeps a text together. *)
Fixpoint plain_line (s : string) : bool :=
  match s with
  | EmptyString => true
  | String.String c s1 =>
      negb (line_break c) && negb (Nat.eqb (ord c) 13) &&
      match s1 with
      | String.String d s2 =>
          negb (Nat.eqb (ord c) 194 && Nat.eqb (ord d) 133) &&
          match s2 with
          | String.String e _ => negb (Nat.eqb (ord c) 226 && Nat.eqb (ord d) 128 && bool_decide (ord e ∈ [168; 169]))
          | EmptyString => true
          end
      | EmptyString => true
      end && plain_line s1
  end.

(** ** The codec *)

(** [event.model_dump_json()] and [CodingEvent.model_validate_json(line)].  The
    validators of the class redact and cut title, text and data, which adds no
    line break, so an event reads back with its number and its source.  JSON
    escapes control characters and keeps everything above ASCII. *)
Class EventCodec := {
  event_wf : CodingEvent → Prop;
  print_event : CodingEvent → string;
  parse_event : string → option CodingEvent;
  print_text : ∀ e, event_wf e → utf8_valid true (print_event e) = true ∧ truthy (print_event e) = true;
  parse_print : ∀ e, event_wf e →
    ∃ e', parse_event (print_event e) = Some e' ∧ event_wf e' ∧ ev_seq e' = ev_seq e ∧
      ev_source_event_id e' = ev_source_event_id e ∧
      (plain_line (print_event e) = true → plain_line (print_event e') = true);
  numbered : ∀ e n, event_wf e → event_wf (e <| ev_seq := n |>) ∧
    (plain_line (print_event e) = true → plain_line (print_event (e <| ev_seq := n |>)) = true);
}.

(** ** The store *)

(** The disk, then the memory of the process. *)
Record CodingStore := {
  cs_dirs : gset string;
  cs_meta : gmap string Session;
  cs_files : gmap string string;
  cs_now : Z;
  cs_recent : list (string * CodingEvent);
  cs_last_sequences : gmap string Z;
  cs_retained_counts : gmap string Z;
  cs_source_event_ids : gmap string (gset string);
}.

#[export] Instance fields_CodingStore : Fields CodingStore := λ s, {|
  cs_dirs := cs_dirs s; cs_meta := cs_meta s; cs_files := cs_files s; cs_now := cs_now s; cs_recent := cs_recent s;
  cs_last_sequences := cs_last_sequences s; cs_retained_counts := cs_retained_counts s;
  cs_source_event_ids := cs_source_event_ids s |}.

Abbreviation st := (eff CodingStore).

(** [deque.append] with [maxlen]. *)
Definition push_recent (x : string * CodingEvent) (l : list (string * CodingEvent)) : list (string * CodingEvent) :=
  let l := l ++ [x] in drop (length l - MAX_RECENT_EVENTS) l.

Section Store.
Context {EC : EventCodec} {PF : Platform}.
(** Whether [CodingSession.model_validate] accepts a stored session. *)
Context (session_valid : Session → bool).

(** The check of [_dir]. *)
Definition dir_char (c : Ascii.ascii) : bool :=
  let n := ord c in
  (Nat.leb 97 n && Nat.leb n 122) || (Nat.leb 65 n && Nat.leb n 90) || (Nat.leb 48 n && Nat.leb n 57) ||
  Nat.eqb n 45 || Nat.eqb n 95.
Definition check_dir (session_id : string) : st () :=
  raise_if (negb (truthy session_id && str_forall dir_char session_id)) (ValueError "invalid coding session id").

(** [save_session]: the file is replaced as a whole. *)
Definition save_session (session : Session) (touch_updated_at : bool) : st Session :=
  check_dir (ss_id session);;
  now ← gets cs_now;
  let session := if touch_updated_at then session <| ss_updated_at := now |> else session in
  modify (λ s, s <| cs_dirs := cs_dirs s ∪ {[ss_id session]} |>
                 <| cs_meta := <[ss_id session := session]> (cs_meta s) |>);;
  mret session.

(** [load_session], [_migrate] included. *)
Definition load_session (session_id : string) : st Session :=
  check_dir session_id;;
  meta ← gets cs_meta;
  match meta !! session_id with
  | None => raise (FileNotFoundError session_id)
  | Some session => raise_if (negb (session_valid session)) (ValidationError "CodingSession");; mret session
  end.

(** [update_session]. *)
Definition update_session (session_id : string) (update : Session → exn + Session) (touch_updated_at : bool) : st Session :=
  session ← load_session session_id;
  match update session with
  | inl e => raise e
  | inr session => save_session session touch_updated_at
  end.

(** [list_sessions]; unreadable files are skipped. *)
Definition list_sessions : st (list Session) :=
  meta ← gets cs_meta;
  mret (sorted_desc ss_updated_at (base.filter (λ s, session_valid s = true) (reorder (map snd (map_to_list meta))))).

(** [delete_session]. *)
Definition forget_caches (session_id : string) (s : CodingStore) : CodingStore :=
  s <| cs_last_sequences := delete session_id (cs_last_sequences s) |>
    <| cs_retained_counts := delete session_id (cs_retained_counts s) |>
    <| cs_source_event_ids := delete session_id (cs_source_event_ids s) |>.

Definition delete_session (session_id : string) : st () :=
  check_dir session_id;;
  dirs ← gets cs_dirs;
  raise_if (negb (bool_decide (session_id ∈ dirs))) (FileNotFoundError session_id);;
  modify (λ s, forget_caches session_id
    (s <| cs_dirs := cs_dirs s ∖ {[session_id]} |> <| cs_meta := delete session_id (cs_meta s) |>
       <| cs_files := delete session_id (cs_files s) |>
       <| cs_recent := base.filter (λ ie, ie.1 ≠ session_id) (cs_recent s) |>)).

(** The events in the text of a file. *)
Definition read_events (content : string) : exn + list CodingEvent :=
  if utf8_valid true content then inr (omap parse_event (splitlines content))
  else inl (UnicodeDecodeError "utf-8").

Definition recent_of (session_id : string) (s : CodingStore) : list CodingEvent :=
  map snd (base.filter (λ ie, ie.1 = session_id) (cs_recent s)).

(** [events_after]: from the cache when it reaches back far enough. *)
Definition file_events (session_id : string) : st (list CodingEvent) :=
  check_dir session_id;;
  files ← gets cs_files;
  match files !! session_id with
  | None => mret []
  | Some content => match read_events content with inl e => raise e | inr events => mret events end
  end.

Definition later (after : Z) (events : list CodingEvent) : list CodingEvent :=
  base.filter (λ e, (after < ev_seq e)%Z) events.

Definition events_after (session_id : string) (after : Z) : st (list CodingEvent) :=
  recent ← gets (recent_of session_id);
  if match recent with first :: _ => (ev_seq first - 1 <=? after)%Z | [] => false end
  then mret (later after recent)
  else
    events ← file_events session_id;
    mret (later after events).

(** [copy_event_history]. *)
Definition copy_event_history (source_id : string) (target : Session) : st () :=
  check_dir source_id;;
  check_dir (ss_id target);;
  modify (λ s, s <| cs_dirs := cs_dirs s ∪ {[ss_id target]} |>
    <| cs_files := match cs_files s !! source_id with
                   | Some content => <[ss_id target := content]> (cs_files s)
                   | None => cs_files s
                   end |>);;
  source ← load_session source_id;
  _ ← save_session (target <| ss_event_count := ss_event_count source |>) true;
  modify (forget_caches (ss_id target)).

(** [_compact_events]: the file is replaced as a whole. *)
Definition source_ids (events : list CodingEvent) : gset string := list_to_set (omap source_of events).

Definition file_text (events : list CodingEvent) : string :=
  str_join "" (map (λ e, String.append (print_event e) newline) events).

Definition compact_events (session_id : string) : st () :=
  events ← events_after session_id 0;
  let kept := drop (length events - Z.to_nat (MAX_EVENTS / 2)) events in
  modify (λ s, s <| cs_files := <[session_id := file_text kept]> (cs_files s) |>
    <| cs_retained_counts := <[session_id := Z.of_nat (length kept)]> (cs_retained_counts s) |>
    <| cs_source_event_ids := <[session_id := source_ids kept]> (cs_source_event_ids s) |>
    <| cs_recent := match kept with
                    | [] => cs_recent s
                    | first :: _ =>
                        base.filter (λ ie, ie.1 ≠ session_id ∨ (ev_seq first ≤ ev_seq ie.2)%Z) (cs_recent s)
                    end |>).

(** What the caches of [append_event] say: the last number, the number of lines
    and the sources, each read from the file when it is not there. *)
Definition cached_or_read (session_id : string) : st (Z * Z * gset string) :=
  last ← gets (λ s, cs_last_sequences s !! session_id);
  retained ← gets (λ s, cs_retained_counts s !! session_id);
  sources ← gets (λ s, cs_source_event_ids s !! session_id);
  match last, retained, sources with
  | Some l, Some n, Some ids => mret (l, n, ids)
  | _, _, _ =>
      stored ← events_after session_id 0;
      let ids := default (source_ids stored) sources in
      modify (λ s, s <| cs_source_event_ids := <[session_id := ids]> (cs_source_event_ids s) |>);;
      mret (default (default 0%Z (ev_seq <$> list.last stored)) last, default (Z.of_nat (length stored)) retained, ids)
  end.

(** The first half of [append_event], which writes nothing to disk: the session
    after [update], and the event with its number unless it is a redelivery. *)
Definition plan_append (session_id : string) (event : CodingEvent) (update : Session → exn + Session) :
    st (Session * option (CodingEvent * Z)) :=
  session ← load_session session_id;
  '(last, retained, ids) ← cached_or_read session_id;
  match update session with
  | inl e => raise e
  | inr session =>
      match source_of event with
      | Some source => if bool_decide (source ∈ ids) then mret (session, None) else
          mret (session, Some (event <| ev_seq := (Z.max (ss_event_count session) last + 1)%Z |>, retained))
      | None => mret (session, Some (event <| ev_seq := (Z.max (ss_event_count session) last + 1)%Z |>, retained))
      end
  end.

(** The line on disk, and what is remembered of it.  The path is that of
    [session.id], the caches are under [session_id]. *)
Definition write_text (id text : string) (s : CodingStore) : CodingStore :=
  s <| cs_dirs := cs_dirs s ∪ {[id]} |>
    <| cs_files := <[id := String.append (default "" (cs_files s !! id)) text]> (cs_files s) |>.
Definition remember (session_id id : string) (event : CodingEvent) (retained : Z) (s : CodingStore) : CodingStore :=
  s <| cs_last_sequences := <[session_id := ev_seq event]> (cs_last_sequences s) |>
    <| cs_retained_counts := <[session_id := (retained + 1)%Z]> (cs_retained_counts s) |>
    <| cs_source_event_ids := match source_of event with
         | Some source => alter (λ ids, ids ∪ {[source]}) session_id (cs_source_event_ids s)
         | None => cs_source_event_ids s
         end |>
    <| cs_recent := push_recent (id, event) (cs_recent s) |>.
Definition write_line (session_id id : string) (event : CodingEvent) (retained : Z) : st () :=
  check_dir id;;
  modify (λ s, remember session_id id event retained
    (write_text id (String.append (print_event event) newline) s)).

(** Whether the file is due for compaction. *)
Definition compaction_due (session_id id : string) (s : CodingStore) : bool :=
  (MAX_EVENTS <? default 0%Z (cs_retained_counts s !! session_id))%Z ||
  (MAX_EVENT_FILE_BYTES <? Z.of_nat (String.length (default "" (cs_files s !! id))))%Z.
Definition compact_if_due (session_id id : string) : st () :=
  due ← gets (compaction_due session_id id);
  if due : bool then compact_events id else mret ().

(** [append_event]. *)
Definition append_event (session_id : string) (event : CodingEvent) (update : Session → exn + Session) : st CodingEvent :=
  '(session, fresh) ← plan_append session_id event update;
  match fresh with
  | None =>
      _ ← save_session session true;
      events ← events_after session_id 0;
      match find (λ e, bool_decide (ev_source_event_id e = ev_source_event_id event)) events with
      | Some e => mret e
      | None => raise StopIteration
      end
  | Some (event, retained) =>
      write_line session_id (ss_id session) event retained;;
      compact_if_due session_id (ss_id session);;
      _ ← save_session (session <| ss_event_count := ev_seq event |>) true;
      mret event
  end.

(** [_mark_interrupted] and [reconcile_interrupted]. *)
Definition mark_interrupted (session : Session) : exn + Session :=
  inr (session <| ss_status := s_interrupted |> <| ss_active_turn_id := None |>
               <| ss_pending_approval := None |> <| ss_pending_question := None |>).

Definition interrupted_event (now : Z) : CodingEvent := {|
  ev_seq := 0; ev_timestamp := now; ev_type := "session"; ev_title := "Task interrupted";
  ev_text := "The app stopped while this task was running. Send a follow-up to resume the same coding session.";
  ev_phase := Some "failed"; ev_item_id := None; ev_turn_id := None; ev_source_event_id := None; ev_data := [] |}.

Definition reconcile_interrupted : st () :=
  sessions ← list_sessions;
  for_each sessions (λ session,
    if bool_decide (ss_status session ∈ [s_running; s_awaiting_approval]) then
      now ← gets cs_now;
      _ ← append_event (ss_id session) (interrupted_event now) mark_interrupted;
      mret ()
    else mret ()).

(** A new process on the same disk. *)
Definition restart (s : CodingStore) : CodingStore :=
  s <| cs_recent := [] |> <| cs_last_sequences := ∅ |> <| cs_retained_counts := ∅ |> <| cs_source_event_ids := ∅ |>.

End Store.
