(* ===== verification/SessionLog.v ===== *)
(** * What the session store keeps.

    The theorems on [SessionStore]: over all histories of operations, restarts
    and crashes between two file-system calls, the event file of a session is
    the tail of everything that was ever written to it, numbered upwards; the
    caches never show; and an event is stored once.  They hold for events
    without a line separator in their text; what happens to the others, and to a
    file that a crash cut inside a line, is stated last. *)
From stdpp Require Import base list gmap strings option relations sorting functions.
From Stdlib Require Import ZArith Lia.
From S2P Require Import Prelude JsonText CommandRules ControlTasks SessionStore.

Section Log.
Context {EC : EventCodec}.

(** What identifies a stored event. *)
Definition key (e : CodingEvent) : Z * option string := (ev_seq e, ev_source_event_id e).
Definition keys_of (l : list CodingEvent) : list (Z * option string) := map key l.

Definition storable (e : CodingEvent) : Prop := event_wf e ∧ plain_line (print_event e) = true.

(** ** Reading a file back *)

Lemma snoc_app cur c s : String.append (snoc cur c) s = String.append cur (String.String c s).
Proof. unfold snoc. by rewrite append_assoc. Qed.

Lemma newline_app rest : String.append newline rest = String.String (chr 10) rest.
Proof. done. Qed.

Lemma lines_plain p rest : ∀ cur,
  plain_line p = true →
  lines_from cur (String.append p (String.append newline rest)) = String.append cur p :: lines_from "" rest.
Proof.
  rewrite newline_app. induction p as [|c p IH]; intros cur Hp.
  { rewrite append_empty_r. done. }
  cbn [plain_line] in Hp. apply andb_true_iff in Hp as [[[Hc Hr]%andb_true_iff Hn]%andb_true_iff Hp].
  apply negb_true_iff in Hc, Hr. rewrite append_cons. cbn [lines_from]. rewrite Hc, Hr.
  assert (Hgo : lines_from (snoc cur c) (String.append p (String.String (chr 10) rest)) =
    String.append cur (String.String c p) :: lines_from "" rest) by (rewrite (IH _ Hp), snoc_app; done).
  destruct p as [|d p].
  - rewrite append_nil in *. replace (Nat.eqb (ord (chr 10)) 133) with false by done.
    replace (Nat.eqb (ord (chr 10)) 128) with false by done. rewrite !andb_false_r. by destruct rest.
  - rewrite append_cons in *. apply andb_true_iff in Hn as [H1%negb_true_iff H2]. rewrite H1.
    destruct p as [|e p].
    + rewrite append_nil in *. replace (bool_decide (ord (chr 10) ∈ [168; 169])) with false by done.
      by rewrite andb_false_r.
    + rewrite append_cons in *. apply negb_true_iff in H2. by rewrite H2.
Qed.

Lemma file_text_cons e l :
  file_text (e :: l) = String.append (print_event e) (String.append newline (file_text l)).
Proof.
  unfold file_text. cbn [map]. destruct l; cbn [map str_join]; [by rewrite append_empty_r|]. by rewrite append_assoc.
Qed.

Lemma file_text_snoc l e :
  file_text (l ++ [e]) = String.append (file_text l) (String.append (print_event e) newline).
Proof.
  induction l as [|x l IH]; [done|]. rewrite <-app_comm_cons, !file_text_cons, IH, !append_assoc. done.
Qed.

Lemma lines_file l : Forall storable l → splitlines (file_text l) = map print_event l.
Proof.
  induction 1 as [|e l [_ He] _ IH]; [done|]. rewrite file_text_cons. unfold splitlines in *.
  by rewrite lines_plain, IH.
Qed.

Lemma file_text_utf8 l : Forall storable l → utf8_valid true (file_text l) = true.
Proof.
  induction 1 as [|e l [He _] _ IH]; [done|]. rewrite file_text_cons.
  apply utf8_valid_app; [by apply print_text|]. by apply utf8_valid_app.
Qed.

Lemma read_file l :
  Forall storable l → ∃ l', read_events (file_text l) = inr l' ∧ keys_of l' = keys_of l ∧ Forall storable l'.
Proof.
  intros Hl. unfold read_events. rewrite file_text_utf8, lines_file by done.
  exists (omap parse_event (map print_event l)). split; [done|].
  induction Hl as [|e l [He Hp] _ IH]; [done|]. destruct IH as [IH1 IH2].
  destruct (parse_print e He) as (e' & E & Hw & Hs & Hsrc & Hpl). cbn [map omap list_omap]. rewrite E.
  unfold keys_of in *. cbn. unfold key at 1 3. rewrite Hs, Hsrc, IH1. split; [done|].
  constructor; [|done]. split; auto.
Qed.

(** ** One session's log *)

Abbreviation ekey := (Z * option string)%type.

Definition ksource (k : ekey) : option string :=
  match k.2 with Some s => if truthy s then Some s else None | None => None end.
Definition last_seq (ks : list ekey) : Z := default 0%Z (fst <$> list.last ks).
Definition increasing (ks : list ekey) : Prop :=
  StronglySorted (λ k k' : ekey, (k.1 < k'.1)%Z) ks ∧ Forall (λ k : ekey, (0 < k.1)%Z) ks.

Definition dir_ok (id : string) : bool := truthy id && str_forall dir_char id.

(** What disk and memory say of a session whose file holds the keys [ks]. *)
Record log_ok (s : CodingStore) (id : string) (ks : list ekey) : Prop := {
  lo_file : match cs_files s !! id with
            | Some content => dir_ok id = true ∧ ∃ evs, content = file_text evs ∧ keys_of evs = ks ∧ Forall storable evs
            | None => ks = []
            end;
  lo_sorted : increasing ks;
  lo_sources : NoDup (omap ksource ks);
  lo_last : ∀ l, cs_last_sequences s !! id = Some l → l = last_seq ks;
  lo_count : ∀ n, cs_retained_counts s !! id = Some n → n = Z.of_nat (length ks);
  lo_ids : ∀ x, cs_source_event_ids s !! id = Some x → x = list_to_set (omap ksource ks);
  lo_recent : keys_of (recent_of id s) `suffix_of` ks;
  lo_storable : Forall storable (recent_of id s);
}.

Lemma keys_of_app l l' : keys_of (l ++ l') = keys_of l ++ keys_of l'.
Proof. apply map_app. Qed.

Lemma omap_source l : omap source_of l = omap ksource (keys_of l).
Proof.
  induction l as [|e l IH]; [done|].
  change (match source_of e with Some y => y :: omap source_of l | None => omap source_of l end =
    match ksource (key e) with
    | Some y => y :: omap ksource (keys_of l)
    | None => omap ksource (keys_of l)
    end).
  by rewrite IH.
Qed.
Lemma source_ids_keys l : source_ids l = list_to_set (omap ksource (keys_of l)).
Proof. unfold source_ids. by rewrite omap_source. Qed.
Lemma last_seq_keys l : last_seq (keys_of l) = default 0%Z (ev_seq <$> list.last l).
Proof. unfold last_seq, keys_of. change (map key l) with (key <$> l). rewrite fmap_last. by destruct (list.last l). Qed.
Lemma keys_length l : length (keys_of l) = length l.
Proof. apply length_map. Qed.
Lemma keys_drop n l : keys_of (drop n l) = drop n (keys_of l).
Proof. symmetry. apply skipn_map. Qed.
Lemma keys_later a l : keys_of (later a l) = base.filter (λ k : ekey, (a < k.1)%Z) (keys_of l).
Proof.
  unfold later. induction l as [|e l IH]; [done|]. cbn [keys_of map].
  destruct (decide (a < ev_seq e)%Z) as [H|H].
  - rewrite !list.filter_cons_True by done. cbn. f_equal. exact IH.
  - rewrite !list.filter_cons_False by done. exact IH.
Qed.

(** *** Sorted keys *)

Lemma increasing_app ks1 ks2 :
  increasing (ks1 ++ ks2) → increasing ks1 ∧ increasing ks2 ∧ ∀ k1 k2, k1 ∈ ks1 → k2 ∈ ks2 → (k1.1 < k2.1)%Z.
Proof.
  intros [Hs Hp]. apply list.Forall_app in Hp as [Hp1 Hp2]. induction ks1 as [|k ks1 IH]; cbn in Hs.
  - split; [by split; [constructor|]|]. split; [by split|]. set_solver.
  - inversion Hs as [|? ? Hs' Hk]; subst. inversion Hp1; subst. apply list.Forall_app in Hk as [Hk1 Hk2].
    destruct (IH Hs') as ([Ha _] & Hb & Hc); [done|]. split; [split; constructor; done|]. split; [done|].
    rewrite list.Forall_forall in Hk2. intros k1 k2 [-> | H]%elem_of_cons; auto.
Qed.

Lemma increasing_suffix ks ks' : ks `suffix_of` ks' → increasing ks' → increasing ks.
Proof. intros [pre ->] H. by apply increasing_app in H as (_ & ? & _). Qed.

Lemma last_seq_max ks k : increasing ks → k ∈ ks → (k.1 ≤ last_seq ks)%Z.
Proof.
  intros H. destruct ks as [|x ks _] using rev_ind; [by intros ?%not_elem_of_nil|].
  unfold last_seq. rewrite last_snoc. cbn. apply increasing_app in H as (_ & _ & H).
  intros [Hk|Hk%list_elem_of_singleton]%elem_of_app; [|by subst]. specialize (H k x Hk). set_solver by lia.
Qed.

Lemma last_seq_nonneg ks : increasing ks → (0 ≤ last_seq ks)%Z.
Proof.
  intros [_ H]. destruct ks as [|x ks _] using rev_ind; [done|]. unfold last_seq. rewrite last_snoc. cbn.
  apply list.Forall_app in H as [_ H]. inversion H; subst. lia.
Qed.

Lemma increasing_snoc ks k : increasing ks → (last_seq ks < k.1)%Z → increasing (ks ++ [k]).
Proof.
  intros H Hk. pose proof (last_seq_nonneg ks H) as H0.
  assert (Hm : Forall (λ k', (k'.1 < k.1)%Z) ks).
  { apply list.Forall_forall. intros x Hx. pose proof (last_seq_max ks x H Hx). lia. }
  destruct H as [Hs Hp].
  split; [|apply list.Forall_app; split; [done|]; constructor; [lia|done]].
  clear -Hs Hm. induction Hs as [|x ks _ IH Hx]; cbn; [repeat constructor|].
  inversion Hm; subst. constructor; [auto|]. apply list.Forall_app. split; [done|]. by constructor.
Qed.

Lemma last_seq_drop n ks : n < length ks → last_seq (drop n ks) = last_seq ks.
Proof.
  intros Hn. unfold last_seq. destruct ks as [|x ks _] using rev_ind; [cbn in Hn; lia|].
  rewrite length_app in Hn. cbn in Hn. rewrite drop_app_le by lia. by rewrite !last_snoc.
Qed.

(** *** The caches only lag *)

Lemma log_ok_weaken s s' id ks :
  log_ok s id ks → cs_files s' !! id = cs_files s !! id →
  (cs_last_sequences s' !! id = None ∨ cs_last_sequences s' !! id = cs_last_sequences s !! id) →
  (cs_retained_counts s' !! id = None ∨ cs_retained_counts s' !! id = cs_retained_counts s !! id) →
  (cs_source_event_ids s' !! id = None ∨ cs_source_event_ids s' !! id = cs_source_event_ids s !! id) →
  recent_of id s' `suffix_of` recent_of id s →
  log_ok s' id ks.
Proof.
  intros [] Hf Hl Hc Hi [pre Hr]. split; try done.
  - by rewrite Hf.
  - destruct Hl as [-> | ->]; [done|]. exact lo_last0.
  - destruct Hc as [-> | ->]; [done|]. exact lo_count0.
  - destruct Hi as [-> | ->]; [done|]. exact lo_ids0.
  - etrans; [|exact lo_recent0]. rewrite Hr, keys_of_app. by eexists.
  - rewrite Hr in lo_storable0. apply list.Forall_app in lo_storable0. apply lo_storable0.
Qed.

Lemma recent_suffix (P : string * CodingEvent → Prop) `{∀ x, Decision (P x)} l l' :
  l `suffix_of` l' → map snd (base.filter P l) `suffix_of` map snd (base.filter P l').
Proof. intros [pre ->]. rewrite list.filter_app, map_app. by eexists. Qed.

Lemma push_recent_suffix x l : push_recent x l `suffix_of` l ++ [x].
Proof. unfold push_recent. apply suffix_drop. Qed.

(** ** Reading *)

(** The first number in the cache decides: below it nothing is missing. *)
Lemma suffix_later ks ks' k a :
  increasing ks → k :: ks' `suffix_of` ks → (k.1 - 1 ≤ a)%Z →
  base.filter (λ k : ekey, (a < k.1)%Z) (k :: ks') = base.filter (λ k : ekey, (a < k.1)%Z) ks.
Proof.
  intros H [pre ->] Hk. apply increasing_app in H as (_ & _ & H). rewrite list.filter_app.
  rewrite (filter_none _ pre); [done|]. apply list.Forall_forall. intros x Hx.
  specialize (H x k Hx ltac:(apply elem_of_cons; by left)). lia.
Qed.

Lemma check_dir_ok id (s : CodingStore) : dir_ok id = true → check_dir id s = (s, inr ()).
Proof. unfold dir_ok, check_dir. by intros ->. Qed.

Lemma storable_later a l : Forall storable l → Forall storable (later a l).
Proof. intros H. unfold later. rewrite list.Forall_forall in *. intros x [_ Hx]%list_elem_of_filter. auto. Qed.

Lemma file_events_keys s id ks :
  log_ok s id ks → dir_ok id = true →
  ∃ r, file_events id s = (s, inr r) ∧ keys_of r = ks ∧ Forall storable r.
Proof.
  intros [Hf _ _ _ _ _ _ _] Hd. unfold file_events. unfold mbind, eff_bind. rewrite check_dir_ok by done. cbn.
  destruct (cs_files s !! id) as [content|]; [|subst; by exists []].
  destruct Hf as [_ (evs & -> & Hk & Hs)]. destruct (read_file evs Hs) as (l' & -> & Hk' & Hs').
  exists l'. by rewrite Hk'.
Qed.

Lemma events_after_run id a s :
  events_after id a s =
  if match recent_of id s with first :: _ => (ev_seq first - 1 <=? a)%Z | [] => false end
  then (s, inr (later a (recent_of id s)))
  else match file_events id s with (s', inl e) => (s', inl e) | (s', inr r) => (s', inr (later a r)) end.
Proof. unfold events_after, mbind at 1, eff_bind at 1. cbn [gets]. by case_match. Qed.

Lemma events_after_keys s id ks a :
  log_ok s id ks → dir_ok id = true →
  ∃ r, events_after id a s = (s, inr r) ∧ keys_of r = base.filter (λ k : ekey, (a < k.1)%Z) ks ∧ Forall storable r.
Proof.
  intros H Hd. destruct (file_events_keys s id ks H Hd) as (r & Hr & Hk & Hs).
  rewrite events_after_run, Hr. destruct H as [_ Hi _ _ _ _ Hsuf Hst]. destruct (recent_of id s) as [|x rest] eqn:E.
  { exists (later a r). rewrite keys_later, Hk. split; [done|]. split; [done|]. by apply storable_later. }
  destruct (Z.leb_spec (ev_seq x - 1) a) as [Hx|Hx].
  - exists (later a (x :: rest)). split; [done|]. rewrite keys_later. split; [|by apply storable_later].
    by apply (suffix_later ks (keys_of rest) (key x)).
  - exists (later a r). rewrite keys_later, Hk. split; [done|]. split; [done|]. by apply storable_later.
Qed.

(** [events_after(session_id)] is everything. *)
Lemma all_events_keys s id ks :
  log_ok s id ks → dir_ok id = true →
  ∃ r, events_after id 0 s = (s, inr r) ∧ keys_of r = ks ∧ Forall storable r.
Proof.
  intros H Hd. destruct (events_after_keys s id ks 0 H Hd) as (r & Hr & Hk & Hs). exists r.
  rewrite Hk, filter_every; [done|]. apply (lo_sorted _ _ _ H).
Qed.

(** ** Writing *)

Definition others_ok (id : string) (s s' : CodingStore) : Prop :=
  ∀ id' ks, id' ≠ id → log_ok s id' ks → log_ok s' id' ks.

#[local] Instance others_ok_pre id : PreOrder (others_ok id).
Proof. split; [by intros s id' ks|]. intros s1 s2 s3 H1 H2 id' ks Hne H. by apply H2, H1. Qed.

Definition put_line (id : string) (e : CodingEvent) (retained : Z) (s : CodingStore) : CodingStore :=
  remember id id e retained (write_text id (String.append (print_event e) newline) s).

Lemma write_line_run id e retained s :
  dir_ok id = true → write_line id id e retained s = (put_line id e retained s, inr ()).
Proof. intros Hd. unfold write_line, mbind, eff_bind. by rewrite check_dir_ok. Qed.

Lemma recent_put id id' e retained s :
  recent_of id' (put_line id e retained s) `suffix_of` recent_of id' s ++ (if bool_decide (id = id') then [e] else []).
Proof.
  unfold recent_of, put_line, remember. cbn.
  etrans; [apply recent_suffix, push_recent_suffix|]. rewrite list.filter_app, map_app.
  case_bool_decide as E.
  - by rewrite list.filter_cons_True.
  - by rewrite list.filter_cons_False.
Qed.

Lemma put_line_others id e retained s : others_ok id s (put_line id e retained s).
Proof.
  intros id' ks Hne H. eapply log_ok_weaken; [exact H|..].
  - cbn. by rewrite lookup_insert_ne.
  - right. cbn. by rewrite lookup_insert_ne.
  - right. cbn. by rewrite lookup_insert_ne.
  - right. cbn. destruct (source_of e); [by rewrite lookup_alter_ne|done].
  - pose proof (recent_put id id' e retained s) as Hr. rewrite bool_decide_false, app_nil_r in Hr by done. exact Hr.
Qed.

Lemma put_line_ok id e s ks :
  log_ok s id ks → dir_ok id = true → storable e → (last_seq ks < ev_seq e)%Z →
  (∀ x, source_of e = Some x → x ∉ omap ksource ks) →
  log_ok (put_line id e (Z.of_nat (length ks)) s) id (ks ++ [key e]).
Proof.
  intros H Hd He Hseq Hsrc. pose proof (recent_put id id e (Z.of_nat (length ks)) s) as Hr.
  rewrite bool_decide_true in Hr by done. destruct H as [Hf Hi Hn _ _ Hids Hrec Hst]. split.
  - cbn. rewrite lookup_insert_eq. split; [done|]. destruct (cs_files s !! id) as [content|].
    + destruct Hf as [_ (evs & -> & Hk & Hs)]. exists (evs ++ [e]). cbn. rewrite file_text_snoc, keys_of_app, Hk.
      split; [done|]. split; [done|]. apply list.Forall_app. split; [done|]. by constructor.
    + exists [e]. subst ks. split; [done|]. split; [done|]. by constructor.
  - by apply increasing_snoc.
  - rewrite omap_app. cbn. destruct (ksource (key e)) as [x|] eqn:E; [|by rewrite app_nil_r].
    apply list.NoDup_app. split; [done|]. split; [|by apply NoDup_singleton].
    intros y Hy ->%list_elem_of_singleton. by apply (Hsrc x).
  - cbn. rewrite lookup_insert_eq. intros l [= <-]. unfold last_seq. by rewrite last_snoc.
  - cbn. rewrite lookup_insert_eq, length_app. intros n [= <-]. cbn. lia.
  - cbn. intros x. change (source_of e) with (ksource (key e)). rewrite omap_app. cbn.
    destruct (ksource (key e)) as [y|] eqn:E; [|rewrite app_nil_r; apply Hids].
    rewrite lookup_alter_eq. destruct (cs_source_event_ids s !! id) as [ids|]; [|done].
    cbn. intros [= <-]. rewrite (Hids ids eq_refl). set_solver.
  - destruct Hr as [pre Hr]. destruct Hrec as [pre' Hrec]. exists (pre' ++ keys_of pre).
    by rewrite <-app_assoc, <-keys_of_app, <-Hr, keys_of_app, app_assoc, <-Hrec.
  - destruct Hr as [pre Hr]. assert (Ha : Forall storable (recent_of id s ++ [e])).
    { apply list.Forall_app. split; [done|]. by constructor. }
    rewrite Hr in Ha. apply list.Forall_app in Ha. apply Ha.
Qed.

(** ** Compaction *)

Definition kept_keys (ks : list ekey) : list ekey := drop (length ks - Z.to_nat (MAX_EVENTS / 2)) ks.

Lemma recent_trim id n l :
  map snd (base.filter (λ ie : string * CodingEvent, ie.1 = id)
    (base.filter (λ ie, ie.1 ≠ id ∨ (n ≤ ev_seq ie.2)%Z) l)) =
  later (n - 1) (map snd (base.filter (λ ie : string * CodingEvent, ie.1 = id) l)).
Proof.
  unfold later. induction l as [|[i e] l IH]; [done|].
  destruct (decide (i = id)) as [-> | Hi].
  - rewrite (list.filter_cons_True (λ ie : string * CodingEvent, ie.1 = id) (id, e) l) by done. cbn [map snd].
    destruct (decide (n ≤ ev_seq e)%Z) as [He|He].
    + rewrite list.filter_cons_True by (by right). rewrite list.filter_cons_True by done. cbn [map snd].
      rewrite IH, (list.filter_cons_True _ e) by lia. done.
    + rewrite list.filter_cons_False by (cbn; tauto). by rewrite IH, (list.filter_cons_False _ e) by lia.
  - rewrite list.filter_cons_True by (by left). by rewrite !list.filter_cons_False by done.
Qed.

Lemma recent_trim_other id id' n l :
  id' ≠ id →
  map snd (base.filter (λ ie : string * CodingEvent, ie.1 = id')
    (base.filter (λ ie, ie.1 ≠ id ∨ (n ≤ ev_seq ie.2)%Z) l)) =
  map snd (base.filter (λ ie : string * CodingEvent, ie.1 = id') l).
Proof.
  intros Hne. rewrite list_filter_filter. f_equal. apply list_filter_iff. intros [i e]. cbn. naive_solver.
Qed.

(** What [_compact_events] leaves. *)
Definition compacted (id : string) (kept : list CodingEvent) (s : CodingStore) : CodingStore :=
  s <| cs_files := <[id := file_text kept]> (cs_files s) |>
    <| cs_retained_counts := <[id := Z.of_nat (length kept)]> (cs_retained_counts s) |>
    <| cs_source_event_ids := <[id := source_ids kept]> (cs_source_event_ids s) |>
    <| cs_recent := match kept with
                    | [] => cs_recent s
                    | first :: _ => base.filter (λ ie, ie.1 ≠ id ∨ (ev_seq first ≤ ev_seq ie.2)%Z) (cs_recent s)
                    end |>.

Lemma compact_events_run s id ks :
  log_ok s id ks → dir_ok id = true →
  ∃ kept, compact_events id s = (compacted id kept s, inr ()) ∧ keys_of kept = kept_keys ks ∧ Forall storable kept.
Proof.
  intros H Hd. destruct (all_events_keys s id ks H Hd) as (r & Hr & Hk & Hs).
  exists (drop (length r - Z.to_nat (MAX_EVENTS / 2)) r).
  split; [unfold compact_events, mbind, eff_bind; by rewrite Hr|].
  split; [by rewrite keys_drop, Hk, <-(keys_length r), Hk|]. by apply Forall_drop.
Qed.

Lemma compacted_others id kept s : others_ok id s (compacted id kept s).
Proof.
  intros id' ks Hne H. eapply log_ok_weaken; [exact H|..].
  - cbn. by rewrite lookup_insert_ne.
  - by right.
  - right. cbn. by rewrite lookup_insert_ne.
  - right. cbn. by rewrite lookup_insert_ne.
  - unfold recent_of. cbn. destruct kept; [done|]. by rewrite recent_trim_other.
Qed.

Lemma kept_last ks : last_seq (kept_keys ks) = last_seq ks.
Proof.
  destruct ks as [|k ks]; [done|]. apply last_seq_drop.
  cbn [length]. change (Z.to_nat (MAX_EVENTS / 2)) with 3000. lia.
Qed.

Lemma kept_suffix ks : kept_keys ks `suffix_of` ks.
Proof. apply suffix_drop. Qed.

Lemma sources_suffix ks ks' : ks `suffix_of` ks' → NoDup (omap ksource ks') → NoDup (omap ksource ks).
Proof. intros [pre ->]. rewrite omap_app. by intros (_ & _ & ?)%list.NoDup_app. Qed.

Lemma trim_suffix ks R k t :
  increasing ks → R `suffix_of` ks → k :: t `suffix_of` ks →
  base.filter (λ x : ekey, (k.1 - 1 < x.1)%Z) R `suffix_of` k :: t.
Proof.
  intros Hi [pre HR] Hk. pose proof (suffix_later ks t k (k.1 - 1) Hi Hk ltac:(lia)) as E.
  assert (Hall : base.filter (λ x : ekey, (k.1 - 1 < x.1)%Z) (k :: t) = k :: t).
  { apply filter_every. apply (increasing_suffix _ _ Hk) in Hi as [Hs _]. inversion Hs as [|? ? _ Hf]; subst.
    constructor; [lia|]. eapply list.Forall_impl; [exact Hf|]. cbn. lia. }
  rewrite Hall in E. rewrite E, HR, list.filter_app. by eexists.
Qed.

Lemma compacted_ok s id ks kept :
  log_ok s id ks → dir_ok id = true → keys_of kept = kept_keys ks → Forall storable kept →
  log_ok (compacted id kept s) id (kept_keys ks).
Proof.
  intros H Hd Hk Hs. pose proof (kept_suffix ks) as Hsuf. destruct H as [_ Hi Hn Hl _ _ Hrec Hst]. split.
  - cbn. rewrite lookup_insert_eq. eauto.
  - by eapply increasing_suffix.
  - by eapply sources_suffix.
  - intros l El. rewrite kept_last. by apply Hl.
  - cbn. rewrite lookup_insert_eq. intros n [= <-]. by rewrite <-Hk, keys_length.
  - cbn. rewrite lookup_insert_eq. intros n [= <-]. by rewrite source_ids_keys, Hk.
  - unfold recent_of. cbn. destruct kept as [|e kept].
    + assert (ks = []) as ->.
      { destruct ks; [done|]. apply (f_equal length) in Hk. unfold kept_keys in Hk. rewrite length_drop in Hk.
        change (Z.to_nat (MAX_EVENTS / 2)) with 3000 in Hk. cbn in Hk. lia. }
      exact Hrec.
    + rewrite recent_trim, keys_later, <-Hk. cbn [keys_of map].
      apply (trim_suffix ks _ (key e) (keys_of kept)); [done|done|]. by rewrite <-Hk in Hsuf.
  - unfold recent_of. cbn. destruct kept; [done|]. rewrite recent_trim. by apply storable_later.
Qed.

(** ** Appending *)

Context (session_valid : Session → bool).

Definition warmed (id : string) (ks : list ekey) (s : CodingStore) : CodingStore :=
  s <| cs_source_event_ids := <[id := list_to_set (omap ksource ks)]> (cs_source_event_ids s) |>.

Lemma warmed_ok id ks s : log_ok s id ks → log_ok (warmed id ks s) id ks.
Proof. intros []. split; try done. cbn. rewrite lookup_insert_eq. by intros x [= <-]. Qed.

Lemma warmed_others id ks s : others_ok id s (warmed id ks s).
Proof.
  intros id' ks' Hne H. eapply log_ok_weaken; [exact H|done|by right|by right| |done].
  right. cbn. by rewrite lookup_insert_ne.
Qed.

Lemma cached_or_read_run s id ks :
  log_ok s id ks → dir_ok id = true →
  cached_or_read id s = (warmed id ks s, inr (last_seq ks, Z.of_nat (length ks), list_to_set (omap ksource ks))).
Proof.
  intros H Hd. destruct (all_events_keys s id ks H Hd) as (r & Hr & Hk & _).
  destruct H as [_ _ _ Hl Hc Hi _ _]. unfold cached_or_read, mbind, eff_bind. cbn [gets].
  assert (Hids : default (source_ids r) (cs_source_event_ids s !! id) = list_to_set (omap ksource ks)).
  { destruct (cs_source_event_ids s !! id) as [x|]; [by apply Hi|]. by rewrite <-Hk, source_ids_keys. }
  assert (Hlast : default (default 0%Z (ev_seq <$> list.last r)) (cs_last_sequences s !! id) = last_seq ks).
  { destruct (cs_last_sequences s !! id) as [x|]; [by apply Hl|]. by rewrite <-Hk, last_seq_keys. }
  assert (Hcnt : default (Z.of_nat (length r)) (cs_retained_counts s !! id) = Z.of_nat (length ks)).
  { destruct (cs_retained_counts s !! id) as [x|]; [by apply Hc|]. by rewrite <-Hk, keys_length. }
  destruct (cs_last_sequences s !! id) as [l|]; [destruct (cs_retained_counts s !! id) as [n|];
    [destruct (cs_source_event_ids s !! id) as [x|] eqn:E|]|]; rewrite ?Hr; cbn [mret eff_ret modify];
    rewrite ?Hids, ?Hlast, ?Hcnt; try done.
  cbn in Hids, Hlast, Hcnt. subst. unfold warmed. rewrite insert_id by done. by destruct s.
Qed.

(** Whether an event is a redelivery. *)
Definition redelivered (event : CodingEvent) (ks : list ekey) : bool :=
  match source_of event with Some x => bool_decide (x ∈ omap ksource ks) | None => false end.

Definition numbered_event (event : CodingEvent) (session : Session) (ks : list ekey) : CodingEvent :=
  event <| ev_seq := (Z.max (ss_event_count session) (last_seq ks) + 1)%Z |>.

Lemma load_session_run id s :
  (∃ e, load_session session_valid id s = (s, inl e)) ∨
  (∃ session, load_session session_valid id s = (s, inr session) ∧ cs_meta s !! id = Some session ∧
    dir_ok id = true ∧ session_valid session = true).
Proof.
  unfold load_session, check_dir, mbind, eff_bind. fold (dir_ok id). destruct (dir_ok id) eqn:Hd; [|left; by eexists].
  rewrite raise_if_false. cbn [gets]. destruct (cs_meta s !! id) as [session|] eqn:E; [|left; by eexists].
  destruct (session_valid session) eqn:V; cbn; [right|left; by eexists].
  exists session. by rewrite raise_if_false.
Qed.

Lemma load_known id s session :
  dir_ok id = true → cs_meta s !! id = Some session → session_valid session = true →
  load_session session_valid id s = (s, inr session).
Proof.
  intros Hd Hm Hv. unfold load_session, mbind, eff_bind. rewrite check_dir_ok by done. cbn [gets]. by rewrite Hm, Hv.
Qed.

Lemma plan_append_run s id ks event update session :
  load_session session_valid id s = (s, inr session) → log_ok s id ks → dir_ok id = true →
  plan_append session_valid id event update s =
  (warmed id ks s,
   match update session with
   | inl e => inl e
   | inr session => inr (session,
       if redelivered event ks then None else Some (numbered_event event session ks, Z.of_nat (length ks)))
   end).
Proof.
  intros HL H Hd. unfold plan_append, mbind, eff_bind. rewrite HL, (cached_or_read_run s id ks) by done.
  destruct (update session) as [e|session']; [done|]. unfold redelivered.
  destruct (source_of event) as [x|]; [|done].
  rewrite (bool_decide_ext (x ∈ list_to_set (omap ksource ks)) (x ∈ omap ksource ks)) by set_solver.
  by case_bool_decide.
Qed.

Lemma compact_if_due_run s id ks :
  log_ok s id ks → dir_ok id = true → cs_retained_counts s !! id ≠ None →
  ∃ s' ks', compact_if_due id id s = (s', inr ()) ∧ log_ok s' id ks' ∧ (ks' = ks ∨ ks' = kept_keys ks) ∧
    (Z.of_nat (length ks') ≤ MAX_EVENTS)%Z ∧ others_ok id s s' ∧ cs_meta s' = cs_meta s ∧ cs_now s' = cs_now s.
Proof.
  intros H Hd Hn. unfold compact_if_due, mbind, eff_bind. cbn [gets].
  destruct (compaction_due id id s) eqn:E.
  - destruct (compact_events_run s id ks H Hd) as (kept & Hr & Hk & Hs). exists (compacted id kept s), (kept_keys ks).
    split; [done|]. split; [by apply compacted_ok|]. split; [by right|]. split; [|split; [apply compacted_others|done]].
    unfold kept_keys. rewrite length_drop. change (Z.to_nat (MAX_EVENTS / 2)) with 3000. unfold MAX_EVENTS. lia.
  - exists s, ks. split; [done|]. split; [done|]. split; [by left|]. split; [|done].
    unfold compaction_due in E. apply orb_false_iff in E as [E%Z.ltb_ge _].
    destruct (cs_retained_counts s !! id) as [n|] eqn:En; [|done]. cbn in E. rewrite (lo_count _ _ _ H n En) in E. lia.
Qed.

Definition saved (session : Session) (s : CodingStore) : CodingStore :=
  s <| cs_dirs := cs_dirs s ∪ {[ss_id session]} |> <| cs_meta := <[ss_id session := session]> (cs_meta s) |>.

Lemma save_session_run session s :
  dir_ok (ss_id session) = true →
  save_session session true s =
    (saved (session <| ss_updated_at := cs_now s |>) s, inr (session <| ss_updated_at := cs_now s |>)).
Proof. intros Hd. unfold save_session, mbind, eff_bind. by rewrite check_dir_ok. Qed.

Lemma saved_ok session s id ks : log_ok s id ks → log_ok (saved session s) id ks.
Proof. intros H. eapply log_ok_weaken; [exact H|done|by right..|done]. Qed.

Lemma saved_others id session s : others_ok id s (saved session s).
Proof. intros id' ks _. apply saved_ok. Qed.

(** A redelivery: the stored event is returned, the file is as it was. *)
Lemma append_redelivered s id ks event update session session1 :
  load_session session_valid id s = (s, inr session) → log_ok s id ks → dir_ok id = true →
  update session = inr session1 → ss_id session1 = id → redelivered event ks = true →
  ∃ s' e, append_event session_valid id event update s = (s', inr e) ∧
    key e ∈ ks ∧ ev_source_event_id e = ev_source_event_id event ∧
    log_ok s' id ks ∧ others_ok id s s' ∧ cs_files s' = cs_files s ∧ cs_now s' = cs_now s ∧
    cs_meta s' = <[id := session1 <| ss_updated_at := cs_now s |>]> (cs_meta s).
Proof.
  intros HL H Hd Hu Hid Hre. pose proof (plan_append_run s id ks event update session HL H Hd) as Hp.
  rewrite Hu, Hre in Hp. set (s2 := saved (session1 <| ss_updated_at := cs_now s |>) (warmed id ks s)).
  assert (H2 : log_ok s2 id ks) by (by apply saved_ok, warmed_ok).
  destruct (all_events_keys s2 id ks H2 Hd) as (r & Hr & Hk & _).
  unfold append_event, mbind, eff_bind. rewrite Hp. cbv iota beta. rewrite save_session_run by (by rewrite Hid).
  change (cs_now (warmed id ks s)) with (cs_now s). fold s2. rewrite Hr.
  assert (Hin : ∃ e, e ∈ r ∧ ev_source_event_id e = ev_source_event_id event).
  { unfold redelivered in Hre. destruct (source_of event) as [x|] eqn:Ex; [|done].
    apply bool_decide_eq_true in Hre. rewrite <-Hk, <-omap_source in Hre.
    apply list_elem_of_omap in Hre as (e & He & Hx). exists e. split; [done|].
    unfold source_of in Hx, Ex. repeat case_match; by simplify_eq. }
  destruct (find _ r) as [e|] eqn:Ef.
  - apply find_some in Ef as [He%list_elem_of_In Hs%bool_decide_eq_true]. exists s2, e. split; [done|].
    split; [rewrite <-Hk; unfold keys_of; by apply (list_elem_of_fmap_2 key)|]. split; [done|]. split; [done|].
    split; [etrans; [apply warmed_others|apply saved_others]|]. split; [done|]. split; [done|].
    cbn. by rewrite Hid.
  - destruct Hin as (e & He & Hs). eapply find_none in Ef; [|by apply list_elem_of_In].
    by rewrite bool_decide_true in Ef.
Qed.

(** The line of any other event. *)
Lemma put_new s id ks event session1 :
  log_ok s id ks → dir_ok id = true → storable event → redelivered event ks = false →
  let e := numbered_event event session1 ks in
  let s' := put_line id e (Z.of_nat (length ks)) (warmed id ks s) in
  log_ok s' id (ks ++ [key e]) ∧ others_ok id s s' ∧ cs_retained_counts s' !! id ≠ None.
Proof.
  intros H Hd [He Hpl] Hre e s'. split; [|split].
  - apply put_line_ok; [by apply warmed_ok|done|split|..].
    + by apply numbered.
    + by apply numbered.
    + cbn. lia.
    + intros x Hx. change (source_of e) with (source_of event) in Hx. unfold redelivered in Hre.
      rewrite Hx in Hre. by apply bool_decide_eq_false in Hre.
  - etrans; [apply warmed_others|apply put_line_others].
  - cbn. by rewrite lookup_insert_eq.
Qed.

(** Any other event: its number is new, its line is the last one. *)
Lemma append_new s id ks event update session session1 :
  load_session session_valid id s = (s, inr session) → log_ok s id ks → dir_ok id = true →
  update session = inr session1 → ss_id session1 = id → storable event → redelivered event ks = false →
  let e := numbered_event event session1 ks in
  ∃ s' ks', append_event session_valid id event update s = (s', inr e) ∧
    log_ok s' id ks' ∧ (ks' = ks ++ [key e] ∨ ks' = kept_keys (ks ++ [key e])) ∧
    (Z.of_nat (length ks') ≤ MAX_EVENTS)%Z ∧ others_ok id s s' ∧ cs_now s' = cs_now s ∧
    cs_meta s' = <[id := session1 <| ss_event_count := ev_seq e |> <| ss_updated_at := cs_now s |>]> (cs_meta s).
Proof.
  intros HL H Hd Hu Hid He Hre e. pose proof (plan_append_run s id ks event update session HL H Hd) as Hp.
  rewrite Hu, Hre in Hp. fold e in Hp. destruct (put_new s id ks event session1 H Hd He Hre) as (H2 & Ho2 & Hn).
  fold e in H2, Ho2, Hn. set (s2 := put_line id e (Z.of_nat (length ks)) (warmed id ks s)) in *.
  destruct (compact_if_due_run s2 id _ H2 Hd Hn) as (s3 & ks' & Hc & H3 & Hks & Hlen & Ho & Hm & Hnow).
  exists (saved (session1 <| ss_event_count := ev_seq e |> <| ss_updated_at := cs_now s |>) s3), ks'.
  split.
  { unfold append_event, mbind, eff_bind. rewrite Hp. cbv iota beta. rewrite Hid, write_line_run by done.
    fold s2. rewrite Hc, save_session_run by (cbn; by rewrite Hid). by rewrite Hnow. }
  split; [by apply saved_ok|]. split; [done|]. split; [done|].
  split; [|split; [by cbn; rewrite Hnow|cbn; by rewrite Hm, Hid]].
  etrans; [exact Ho2|]. etrans; [exact Ho|apply saved_others].
Qed.

(** ** Histories *)

(** What an append that got as far as writing its line wrote. *)
Definition written (id : string) (event : CodingEvent) (update : Session → exn + Session) (s : CodingStore) : list ekey :=
  match plan_append session_valid id event update s with
  | (_, inr (_, Some (e, _))) => [key e]
  | _ => []
  end.

(** A process that dies after [append_event] wrote its line, or after it also
    compacted the file; and the next one. *)
Definition crash_append (id : string) (event : CodingEvent) (update : Session → exn + Session) (after_compaction : bool)
    (s : CodingStore) : CodingStore :=
  match plan_append session_valid id event update s with
  | (s1, inr (session, Some (e, retained))) =>
      let s2 := (write_line id (ss_id session) e retained s1).1 in
      restart (if after_compaction then (compact_if_due id (ss_id session) s2).1 else s2)
  | (s1, _) => restart s1
  end.

(** Updates do not rename a session. *)
Definition keeps_id (update : Session → exn + Session) : Prop :=
  ∀ session session1, update session = inr session1 → ss_id session1 = ss_id session.

(** A fork's target: nothing was appended to it. *)
Definition unused (id : string) (s : CodingStore) : Prop :=
  cs_files s !! id = None ∧ cs_last_sequences s !! id = None ∧ cs_retained_counts s !! id = None ∧
  cs_source_event_ids s !! id = None.

(** The second component records what was written to each session since it
    exists. *)
Inductive store_step : CodingStore * (string → list ekey) → CodingStore * (string → list ekey) → Prop :=
  | step_append id event update s W :
      storable event → keeps_id update →
      store_step (s, W) ((append_event session_valid id event update s).1, <[id := W id ++ written id event update s]> W)
  | step_crash id event update after_compaction s W :
      storable event → keeps_id update →
      store_step (s, W) (crash_append id event update after_compaction s, <[id := W id ++ written id event update s]> W)
  | step_save session touch s W : store_step (s, W) ((save_session session touch s).1, W)
  | step_update id update touch s W : store_step (s, W) ((update_session session_valid id update touch s).1, W)
  | step_delete id s s' W : delete_session id s = (s', inr ()) → store_step (s, W) (s', <[id := ([] : list ekey)]> W)
  | step_copy source target s W :
      dir_ok source = true → dir_ok (ss_id target) = true → unused (ss_id target) s →
      store_step (s, W) ((copy_event_history session_valid source target s).1, <[ss_id target := W source]> W)
  | step_restart s W : store_step (s, W) (restart s, W)
  | step_time now s W : store_step (s, W) (s <| cs_now := now |>, W).

Definition new_store (now : Z) : CodingStore := {|
  cs_dirs := ∅; cs_meta := ∅; cs_files := ∅; cs_now := now; cs_recent := [];
  cs_last_sequences := ∅; cs_retained_counts := ∅; cs_source_event_ids := ∅ |}.

Definition store_reaches (now : Z) : CodingStore → (string → list ekey) → Prop :=
  λ s W, rtc store_step (new_store now, λ _, []) (s, W).

(** *** The invariant *)

Definition tail_of (ks w : list ekey) : Prop :=
  ks `suffix_of` w ∧ increasing w ∧ Nat.min (length w) (Z.to_nat (MAX_EVENTS / 2)) ≤ length ks.

Definition owns (s : CodingStore) : Prop := ∀ id session, cs_meta s !! id = Some session → ss_id session = id ∧ dir_ok id = true.

Definition logs (s : CodingStore) (W : string → list ekey) : Prop :=
  ∀ id, ∃ ks, log_ok s id ks ∧ tail_of ks (W id).

Lemma tail_of_nil w : tail_of [] w → w = [].
Proof.
  intros (_ & _ & H). destruct w; [done|]. change (Z.to_nat (MAX_EVENTS / 2)) with 3000 in H. cbn [length] in H. lia.
Qed.

Lemma tail_of_last ks w : tail_of ks w → last_seq ks = last_seq w.
Proof.
  intros Ht. destruct ks as [|k ks _] using rev_ind; [by rewrite (tail_of_nil w)|].
  destruct Ht as ([pre ->] & _ & _). unfold last_seq. by rewrite app_assoc, !last_snoc.
Qed.

Lemma tail_of_snoc ks w k : tail_of ks w → (last_seq ks < k.1)%Z → tail_of (ks ++ [k]) (w ++ [k]).
Proof.
  intros Ht Hk. pose proof (tail_of_last ks w Ht) as E. destruct Ht as ([pre ->] & Hi & Hl).
  split; [|split].
  - rewrite <-app_assoc. by eexists.
  - apply increasing_snoc; [done|]. lia.
  - rewrite !length_app in *. cbn. lia.
Qed.

Lemma tail_of_kept ks w : tail_of ks w → tail_of (kept_keys ks) w.
Proof.
  intros (Hs & Hi & Hl). split; [etrans; [apply kept_suffix|done]|]. split; [done|].
  unfold kept_keys. rewrite length_drop. lia.
Qed.

Lemma tail_of_new ks w event session ks' :
  let k := key (numbered_event event session ks) in
  tail_of ks w → ks' = ks ++ [k] ∨ ks' = kept_keys (ks ++ [k]) → tail_of ks' (w ++ [k]).
Proof.
  intros k Ht Hks. assert (Hsn : tail_of (ks ++ [k]) (w ++ [k])) by (apply tail_of_snoc; [done|cbn; lia]).
  destruct Hks as [-> | ->]; [done|by apply tail_of_kept].
Qed.

Lemma logs_extend s s' W id ks' w' :
  logs s W → others_ok id s s' → log_ok s' id ks' → tail_of ks' w' → logs s' (<[id := w']> W).
Proof.
  intros HL Ho H' Ht id'. destruct (decide (id = id')) as [<- | Hne].
  - exists ks'. by rewrite fn_lookup_insert.
  - destruct (HL id') as (ks & Hk & Htk). exists ks. rewrite fn_lookup_insert_ne by done. auto.
Qed.

Lemma logs_same s s' W : logs s W → (∀ id ks, log_ok s id ks → log_ok s' id ks) → logs s' W.
Proof. intros HL Hs id. destruct (HL id) as (ks & Hk & Ht). eauto. Qed.

Lemma restart_ok s id ks : log_ok s id ks → log_ok (restart s) id ks.
Proof.
  intros H. eapply log_ok_weaken; [exact H|done|left; apply lookup_empty..|].
  unfold recent_of. cbn. apply suffix_nil.
Qed.

(** What [plan_append] finds, in a store that satisfies the invariant. *)
Lemma plan_cases s W id event update :
  logs s W → owns s → keeps_id update →
  ∃ ks, log_ok s id ks ∧ tail_of ks (W id) ∧
    ((∃ e s1, plan_append session_valid id event update s = (s1, inl e) ∧ (s1 = s ∨ s1 = warmed id ks s)) ∨
     (∃ session session1, load_session session_valid id s = (s, inr session) ∧ dir_ok id = true ∧
        update session = inr session1 ∧ ss_id session1 = id)).
Proof.
  intros HL Ho Hu. destruct (HL id) as (ks & Hk & Ht). exists ks. split; [done|]. split; [done|].
  destruct (load_session_run id s) as [(e & He)|(session & HLd & Hm & Hd & Hv)].
  - left. exists e, s. split; [|by left]. unfold plan_append, mbind, eff_bind. by rewrite He.
  - destruct (update session) as [e|session1] eqn:E.
    + left. exists e, (warmed id ks s). split; [|by right].
      rewrite (plan_append_run s id ks event update session) by done. by rewrite E.
    + right. exists session, session1. split; [done|]. split; [done|]. split; [done|].
      rewrite (Hu _ _ E). by apply (Ho id).
Qed.

Lemma append_plan_fails id event update s s1 e :
  plan_append session_valid id event update s = (s1, inl e) → append_event session_valid id event update s = (s1, inl e).
Proof. intros H. unfold append_event, mbind, eff_bind. by rewrite H. Qed.

Lemma logs_unwritten s s' W id ks :
  logs s W → (s' = s ∨ s' = warmed id ks s) → log_ok s id ks → tail_of ks (W id) → logs s' (<[id := W id ++ []]> W).
Proof.
  intros HL Hs Hk Ht. rewrite app_nil_r. apply (logs_extend s s' W id ks); [done| |..|done].
  - destruct Hs as [-> | ->]; [done|apply warmed_others].
  - destruct Hs as [-> | ->]; [done|by apply warmed_ok].
Qed.

Lemma owns_put s s' id session :
  owns s → cs_meta s' = <[id := session]> (cs_meta s) → ss_id session = id → dir_ok id = true → owns s'.
Proof.
  intros Ho Hm Hid Hd id' session'. rewrite Hm. intros [[<- <-]|[Hne H]]%lookup_insert_Some; [done|]. by apply Ho.
Qed.

Lemma owns_meta s s' : owns s → cs_meta s' = cs_meta s → owns s'.
Proof. intros Ho Hm id session. rewrite Hm. apply Ho. Qed.

Lemma append_preserves s W id event update :
  logs s W → owns s → storable event → keeps_id update →
  logs (append_event session_valid id event update s).1 (<[id := W id ++ written id event update s]> W) ∧
  owns (append_event session_valid id event update s).1.
Proof.
  intros HL Ho He Hu. unfold written.
  destruct (plan_cases s W id event update HL Ho Hu) as (ks & Hk & Ht & [(e & s1 & Hp & Hs)|(session & session1 & HLd & Hd & E & Hid)]).
  - rewrite Hp, (append_plan_fails _ _ _ _ _ _ Hp). cbn [fst]. split; [by eapply logs_unwritten|].
    apply (owns_meta s); [done|]. by destruct Hs as [-> | ->].
  - rewrite (plan_append_run s id ks event update session), E by done. destruct (redelivered event ks) eqn:R.
    + destruct (append_redelivered s id ks event update session session1)
        as (s' & e & -> & _ & _ & Hk' & Ho' & _ & _ & Hm); try done. cbn [fst]. split.
      * rewrite app_nil_r. by apply (logs_extend s s' W id ks).
      * by eapply owns_put.
    + destruct (append_new s id ks event update session session1)
        as (s' & ks' & -> & Hk' & Hks & _ & Ho' & _ & Hm); try done. cbn [fst]. split.
      * apply (logs_extend s s' W id ks'); [done|done|done|].
        by apply tail_of_new.
      * eapply owns_put; [done|exact Hm|done|done].
Qed.

Lemma crash_preserves s W id event update after_compaction :
  logs s W → owns s → storable event → keeps_id update →
  logs (crash_append id event update after_compaction s) (<[id := W id ++ written id event update s]> W) ∧
  owns (crash_append id event update after_compaction s).
Proof.
  intros HL Ho He Hu. unfold written, crash_append.
  destruct (plan_cases s W id event update HL Ho Hu) as (ks & Hk & Ht & [(e & s1 & Hp & Hs)|(session & session1 & HLd & Hd & E & Hid)]).
  - rewrite Hp. split; [|apply (owns_meta s); [done|]; by destruct Hs as [-> | ->]].
    eapply logs_same; [|apply restart_ok]. by eapply logs_unwritten.
  - rewrite (plan_append_run s id ks event update session), E by done. destruct (redelivered event ks) eqn:R.
    { split; [|by apply (owns_meta s)]. eapply logs_same; [|apply restart_ok]. eapply logs_unwritten; eauto. }
    rewrite Hid, write_line_run by done. cbn [fst]. set (e := numbered_event event session1 ks).
    destruct (put_new s id ks event session1 Hk Hd He R) as (H2 & Ho2 & Hn). fold e in H2, Ho2, Hn.
    set (s2 := put_line id e (Z.of_nat (length ks)) (warmed id ks s)) in *.
    destruct (compact_if_due_run s2 id _ H2 Hd Hn) as (s3 & ks' & Hc & H3 & Hks & _ & Ho3 & Hm & _).
    rewrite Hc. cbn [fst]. destruct after_compaction.
    + split; [|by apply (owns_meta s); [|cbn; rewrite Hm]]. eapply logs_same; [|apply restart_ok].
      apply (logs_extend s s3 W id ks'); [done|by etrans|done|]. by apply tail_of_new.
    + split; [|by apply (owns_meta s)]. eapply logs_same; [|apply restart_ok].
      apply (logs_extend s s2 W id (ks ++ [key e])); [done|done|done|]. apply tail_of_new; [done|by left].
Qed.

Lemma save_preserves session touch s W :
  logs s W → owns s → logs (save_session session touch s).1 W ∧ owns (save_session session touch s).1.
Proof.
  intros HL Ho. unfold save_session, check_dir, mbind, eff_bind. fold (dir_ok (ss_id session)).
  destruct (dir_ok (ss_id session)) eqn:Hd; [|done]. rewrite raise_if_false. cbn [gets modify mret eff_ret fst].
  assert (Hid : ss_id (if touch then session <| ss_updated_at := cs_now s |> else session) = ss_id session) by (by destruct touch).
  split; [eapply logs_same; [exact HL|]; intros id ks H; apply (saved_ok _ _ _ _ H)|].
  eapply owns_put; [exact Ho|by cbn; rewrite Hid|done|done].
Qed.

Lemma update_preserves id update touch s W :
  logs s W → owns s →
  logs (update_session session_valid id update touch s).1 W ∧ owns (update_session session_valid id update touch s).1.
Proof.
  intros HL Ho. unfold update_session, mbind, eff_bind.
  destruct (load_session_run id s) as [(e & ->)|(session & -> & _)]; [done|].
  destruct (update session) as [e|session1]; [done|]. by apply save_preserves.
Qed.

Lemma increasing_nil : increasing [].
Proof. split; constructor. Qed.
Lemma tail_of_empty : tail_of [] [].
Proof. split; [done|]. split; [apply increasing_nil|]. cbn. lia. Qed.

Lemma recent_deleted id id' (l : list (string * CodingEvent)) :
  map snd (base.filter (λ ie, ie.1 = id') (base.filter (λ ie, ie.1 ≠ id) l)) =
  if bool_decide (id = id') then [] else map snd (base.filter (λ ie, ie.1 = id') l).
Proof.
  rewrite list_filter_filter. case_bool_decide as E.
  - rewrite filter_none; [done|]. apply list.Forall_forall. naive_solver.
  - f_equal. apply list_filter_iff. naive_solver.
Qed.

Definition deleted (id : string) (s : CodingStore) : CodingStore :=
  forget_caches id
    (s <| cs_dirs := cs_dirs s ∖ {[id]} |> <| cs_meta := delete id (cs_meta s) |>
       <| cs_files := delete id (cs_files s) |>
       <| cs_recent := base.filter (λ ie, ie.1 ≠ id) (cs_recent s) |>).

Lemma delete_run id s s' : delete_session id s = (s', inr ()) → s' = deleted id s.
Proof.
  unfold delete_session, check_dir. fold (dir_ok id). unfold mbind, eff_bind.
  destruct (dir_ok id); [|done]. rewrite raise_if_false. cbn [gets].
  destruct (bool_decide (id ∈ cs_dirs s)); [|done]. rewrite raise_if_false. by intros [= <-].
Qed.

Lemma delete_preserves id s s' W :
  logs s W → owns s → delete_session id s = (s', inr ()) → logs s' (<[id := []]> W) ∧ owns s'.
Proof.
  intros HL Ho ->%delete_run. split.
  - apply (logs_extend s _ W id []); [done| | |apply tail_of_empty].
    + intros id' ks Hne Hk. eapply log_ok_weaken; [exact Hk|..].
      1-4: cbn; rewrite lookup_delete_ne by done; auto.
      pose proof (recent_deleted id id' (cs_recent s)) as E. rewrite bool_decide_false in E by done.
      exact (reflexive_eq (R:=suffix) _ _ E).
    + assert (Hr : recent_of id (deleted id s) = []).
      { pose proof (recent_deleted id id (cs_recent s)) as E. rewrite bool_decide_true in E by done. exact E. }
      split; rewrite ?Hr; cbn; rewrite ?lookup_delete_eq; try done; [apply increasing_nil|constructor].
  - intros id' session. cbn. rewrite lookup_delete_Some. intros [_ Hm]. by apply Ho.
Qed.

Lemma unused_ok id s ks : log_ok s id ks → unused id s → ks = [] ∧ recent_of id s = [].
Proof.
  intros [Hf _ _ _ _ _ Hr _] (Hn & _). rewrite Hn in Hf. subst. split; [done|].
  apply suffix_nil_inv in Hr. by destruct (recent_of id s).
Qed.

(** The copied file, before the metadata is saved. *)
Definition copied (source target : string) (s : CodingStore) : CodingStore :=
  s <| cs_dirs := cs_dirs s ∪ {[target]} |>
    <| cs_files := match cs_files s !! source with
                   | Some content => <[target := content]> (cs_files s)
                   | None => cs_files s
                   end |>.

Lemma copied_logs source target s W :
  logs s W → dir_ok target = true → unused target s → logs (copied source target s) (<[target := W source]> W).
Proof.
  intros HL Hd Hu. destruct (HL target) as (kt & Hkt & _). destruct (unused_ok _ _ _ Hkt Hu) as [_ Hr].
  destruct Hu as (Hf & Hl & Hc & Hi). destruct (HL source) as (ks & Hks & Hts).
  apply (logs_extend s _ W target ks); [done| | |done].
  - intros id ks' Hne Hk. eapply log_ok_weaken; [exact Hk| |by right..|done].
    cbn. destruct (cs_files s !! source); [by rewrite lookup_insert_ne|done].
  - change (recent_of target (copied source target s) = []) in Hr. destruct Hks as [Hfs Hin Hno _ _ _ _ _].
    split; rewrite ?Hr; cbn; rewrite ?Hl, ?Hc, ?Hi; try done; [|apply suffix_nil].
    destruct (cs_files s !! source) as [content|]; [|by rewrite Hf].
    rewrite lookup_insert_eq. split; [done|]. apply Hfs.
Qed.

Lemma forget_ok target s id ks : log_ok s id ks → log_ok (forget_caches target s) id ks.
Proof.
  intros H. eapply log_ok_weaken; [exact H|done|..|done]; cbn;
    (destruct (decide (target = id)) as [-> | Hne]; [left; apply lookup_delete_eq|right; by rewrite lookup_delete_ne]).
Qed.

Lemma copy_preserves source target s W :
  logs s W → owns s → dir_ok source = true → dir_ok (ss_id target) = true → unused (ss_id target) s →
  logs (copy_event_history session_valid source target s).1 (<[ss_id target := W source]> W) ∧
  owns (copy_event_history session_valid source target s).1.
Proof.
  intros HL Ho Hs Ht Hu. pose proof (copied_logs source (ss_id target) s W HL Ht Hu) as HC.
  unfold copy_event_history, mbind, eff_bind. rewrite !check_dir_ok by done. cbn [modify].
  fold (copied source (ss_id target) s). set (s1 := copied source (ss_id target) s) in *.
  assert (Ho1 : owns s1) by done.
  destruct (load_session_run source s1) as [(e & ->)|(session & -> & _)]; [done|].
  set (target' := target <| ss_event_count := ss_event_count session |>).
  assert (Ht' : dir_ok (ss_id target') = true) by done.
  pose proof (save_preserves target' true s1 _ HC Ho1) as [HC2 Ho2]. rewrite save_session_run in * by done.
  cbn [fst] in *. split; [|done]. eapply logs_same; [exact HC2|]. apply forget_ok.
Qed.

Lemma store_step_preserves s W s' W' :
  store_step (s, W) (s', W') → logs s W → owns s → logs s' W' ∧ owns s'.
Proof.
  intros H HL Ho. inversion H; subst.
  - by apply append_preserves.
  - by apply crash_preserves.
  - by apply save_preserves.
  - by apply update_preserves.
  - by eapply delete_preserves.
  - by apply copy_preserves.
  - split; [|done]. eapply logs_same; [done|apply restart_ok].
  - split; [|done]. eapply logs_same; [done|]. intros id ks Hk. eapply log_ok_weaken; [exact Hk|done|by right..|done].
Qed.

Lemma store_steps_preserve p q : rtc store_step p q → logs p.1 p.2 ∧ owns p.1 → logs q.1 q.2 ∧ owns q.1.
Proof.
  induction 1 as [|[s W] [s' W'] q Hst _ IH]; [done|]. intros [HL Ho]. by apply IH, (store_step_preserves s W).
Qed.

Lemma reaches_logs now s W : store_reaches now s W → logs s W ∧ owns s.
Proof.
  intros H. apply (store_steps_preserve _ _ H). split; [|by intros id session]. intros id. exists [].
  split; [|apply tail_of_empty]. split; try done; [apply increasing_nil|constructor].
Qed.

Lemma increasing_numbers ks : increasing ks → StronglySorted Z.lt (map fst ks).
Proof. intros [Hi _]. induction Hi; constructor; [done|]. by apply list.Forall_fmap. Qed.

Lemma increasing_below ks n : increasing ks → (last_seq ks < n)%Z → Forall (λ k : ekey, (k.1 < n)%Z) ks.
Proof. intros H Hn. apply list.Forall_forall. intros k Hk. pose proof (last_seq_max ks k H Hk). lia. Qed.

(** ** What the store keeps *)


(** C29: Over the same histories (storable events, crashes between two
    file-system calls) the caches do not show in what a client is told apart by:
    whatever the process has cached, a client with any cursor is given events
    with the numbers and sources, in the order, of those that a new process would
    read from disk, and neither raises ([CodingStore.events_after]).  Titles,
    texts and data are not compared: reading a line back runs the redacting
    validators again. *)
Theorem session_cache_transparent now s W id after :
  store_reaches now s W → dir_ok id = true →
  ∃ warm cold, events_after id after s = (s, inr warm) ∧
    events_after id after (restart s) = (restart s, inr cold) ∧ keys_of warm = keys_of cold.
Proof.
  intros H Hd. destruct (reaches_logs now s W H) as [HL _]. destruct (HL id) as (ks & Hk & _).
  destruct (events_after_keys s id ks after Hk Hd) as (r & Hr & Hkr & _).
  destruct (events_after_keys (restart s) id ks after (restart_ok _ _ _ Hk) Hd) as (r' & Hr' & Hkr' & _).
  exists r, r'. by rewrite Hkr, Hkr'.
Qed.

(** An append to a known session succeeds and answers for the event it was
    given.  If the file holds an event with the same source it returns that one
    and the file keeps its events; otherwise the event gets a number above every
    number ever written to the session and its line is the last one of the file,
    which holds at most [MAX_EVENTS].  Either way the session is saved as the
    update left it, with the time, and only that session
    ([CodingStore.append_event]). *)
Theorem append_event_stores now s W id event update session session1 :
  store_reaches now s W → storable event → keeps_id update →
  cs_meta s !! id = Some session → session_valid session = true → update session = inr session1 →
  ∃ s' e before after,
    append_event session_valid id event update s = (s', inr e) ∧
    ev_source_event_id e = ev_source_event_id event ∧
    events_after id 0 (restart s) = (restart s, inr before) ∧
    events_after id 0 (restart s') = (restart s', inr after) ∧
    cs_now s' = cs_now s ∧
    if redelivered event (keys_of before) then
      key e ∈ keys_of before ∧ keys_of after = keys_of before ∧ cs_files s' = cs_files s ∧
      cs_meta s' = <[id := session1 <| ss_updated_at := cs_now s |>]> (cs_meta s)
    else
      Forall (λ k, (k.1 < ev_seq e)%Z) (W id) ∧
      (keys_of after = keys_of before ++ [key e] ∨ keys_of after = kept_keys (keys_of before ++ [key e])) ∧
      (Z.of_nat (length after) ≤ MAX_EVENTS)%Z ∧
      cs_meta s' = <[id := session1 <| ss_event_count := ev_seq e |> <| ss_updated_at := cs_now s |>]> (cs_meta s).
Proof.
  intros H He Hu Hm Hv E. destruct (reaches_logs now s W H) as [HL Ho]. destruct (HL id) as (ks & Hk & Ht).
  destruct (Ho id session Hm) as [Hid Hd]. rewrite <-(Hu _ _ E) in Hid.
  pose proof (load_known id s session Hd Hm Hv) as HLd.
  destruct (all_events_keys (restart s) id ks (restart_ok _ _ _ Hk) Hd) as (before & Hb & Hkb & _).
  destruct (redelivered event ks) eqn:R.
  - destruct (append_redelivered s id ks event update session session1)
      as (s' & e & Ha & Hin & Hsrc & Hk' & _ & Hf & Hnow & Hm'); try done.
    destruct (all_events_keys (restart s') id ks (restart_ok _ _ _ Hk') Hd) as (after & Haf & Hka & _).
    exists s', e, before, after. by rewrite Hkb, Hka, R.
  - destruct (append_new s id ks event update session session1)
      as (s' & ks' & Ha & Hk' & Hks & Hlen & _ & Hnow & Hm'); try done.
    destruct (all_events_keys (restart s') id ks' (restart_ok _ _ _ Hk') Hd) as (after & Haf & Hka & _).
    exists s', (numbered_event event session1 ks), before, after.
    rewrite Hkb, R, <-(keys_length after), Hka. split; [done|]. split; [done|]. split; [done|]. split; [done|].
    split; [done|]. split; [|done]. apply increasing_below; [apply Ht|]. rewrite <-(tail_of_last ks) by done. cbn. lia.
Qed.

(** ** A new process *)

Definition active (session : Session) : bool := bool_decide (ss_status session ∈ [s_running; s_awaiting_approval]).

Lemma mark_keeps_id : keeps_id mark_interrupted.
Proof. by intros session session1 [= <-]. Qed.

Lemma append_known s W id event update session session1 :
  logs s W → owns s → storable event → keeps_id update →
  cs_meta s !! id = Some session → session_valid session = true → update session = inr session1 →
  ∃ s' e session2, append_event session_valid id event update s = (s', inr e) ∧
    cs_meta s' = <[id := session2]> (cs_meta s) ∧ ss_status session2 = ss_status session1 ∧
    logs s' (<[id := W id ++ written id event update s]> W) ∧ owns s'.
Proof.
  intros HL Ho He Hu Hm Hv E. pose proof (append_preserves s W id event update HL Ho He Hu) as [HL' Ho'].
  destruct (HL id) as (ks & Hk & _). destruct (Ho id session Hm) as [Hid Hd]. rewrite <-(Hu _ _ E) in Hid.
  pose proof (load_known id s session Hd Hm Hv) as HLd.
  destruct (redelivered event ks) eqn:R.
  - destruct (append_redelivered s id ks event update session session1)
      as (s' & e & Ha & _ & _ & _ & _ & _ & _ & Hm'); try done. rewrite Ha in HL', Ho'.
    exists s', e. eexists. split; [done|]. split; [exact Hm'|done].
  - destruct (append_new s id ks event update session session1)
      as (s' & ks' & Ha & _ & _ & _ & _ & _ & Hm'); try done. rewrite Ha in HL', Ho'.
    exists s'. eexists _, _. split; [exact Ha|]. split; [exact Hm'|done].
Qed.

Definition interrupt (session : Session) : st () :=
  if active session then
    now ← gets cs_now;
    _ ← append_event session_valid (ss_id session) (interrupted_event now) mark_interrupted;
    mret ()
  else mret ().

(** Each session of a listing is left inactive, the others as they were. *)
Lemma interrupt_all l : ∀ s W,
  (∀ now, storable (interrupted_event now)) → logs s W → owns s → NoDup (map ss_id l) →
  (∀ x, x ∈ l → cs_meta s !! ss_id x = Some x ∧ session_valid x = true) →
  ∃ s', for_each l interrupt s = (s', inr ()) ∧
    (∀ id, id ∉ map ss_id l → cs_meta s' !! id = cs_meta s !! id) ∧
    (∀ x, x ∈ l → active x = false → cs_meta s' !! ss_id x = Some x) ∧
    (∀ x, x ∈ l → ∃ y, cs_meta s' !! ss_id x = Some y ∧ active y = false).
Proof.
  induction l as [|x l IH]; intros s W He HL Ho Hn Hx.
  { exists s. split; [done|]. split; [done|]. split; intros x H; by apply not_elem_of_nil in H. }
  cbn in Hn. apply list.NoDup_cons in Hn as [Hnx Hn].
  destruct (Hx x ltac:(apply elem_of_cons; by left)) as [Hmx Hvx].
  assert (Hstep : ∃ s1 W1 y, interrupt x s = (s1, inr ()) ∧ logs s1 W1 ∧ owns s1 ∧
    cs_meta s1 = <[ss_id x := y]> (cs_meta s) ∧ active y = false ∧ (active x = false → y = x)).
  { unfold interrupt. destruct (active x) eqn:Ax; [|exists s, W, x; by rewrite insert_id].
    destruct (append_known s W (ss_id x) (interrupted_event (cs_now s)) mark_interrupted x _ HL Ho (He _) mark_keeps_id
      Hmx Hvx eq_refl) as (s1 & e & y & Ha & Hm & Hst & HL1 & Ho1).
    exists s1. eexists _, y. split; [unfold mbind, eff_bind; cbn [gets]; by rewrite Ha|]. split; [done|]. split; [done|].
    split; [done|]. split; [|done]. unfold active. by rewrite Hst. }
  destruct Hstep as (s1 & W1 & y & Hi & HL1 & Ho1 & Hm1 & Hy & Hyx).
  destruct (IH s1 W1 He HL1 Ho1 Hn) as (s' & Hr & Hout & Hkeep & Hin).
  { intros z Hz. rewrite Hm1, lookup_insert_ne; [apply Hx; apply elem_of_cons; by right|].
    intros Ez. apply Hnx. rewrite Ez. by apply (list_elem_of_fmap_2 ss_id). }
  exists s'. split; [cbn; unfold mbind, eff_bind; by rewrite Hi|].
  assert (Hsx : cs_meta s' !! ss_id x = Some y) by (by rewrite Hout, Hm1, lookup_insert_eq).
  split; [|split].
  - intros id Hid. cbn in Hid. apply not_elem_of_cons in Hid as [Hne Hid].
    rewrite Hout by done. rewrite Hm1. by rewrite lookup_insert_ne.
  - intros z [-> | Hz]%elem_of_cons Az; [by rewrite Hsx, (Hyx Az)|by apply Hkeep].
  - intros z [-> | Hz]%elem_of_cons; [by exists y|by apply Hin].
Qed.

Context {PF : Platform}.

Lemma listed_sessions s :
  owns s → ∃ l, list_sessions session_valid s = (s, inr l) ∧ NoDup (map ss_id l) ∧
    ∀ x, x ∈ l ↔ cs_meta s !! ss_id x = Some x ∧ session_valid x = true.
Proof.
  intros Ho. eexists. split; [reflexivity|].
  assert (Hin : ∀ x, x ∈ map snd (map_to_list (cs_meta s)) ↔ cs_meta s !! ss_id x = Some x).
  { intros x. change (map snd ?l) with (snd <$> l). rewrite list_elem_of_fmap. split.
    - intros ([i y] & -> & Hy%elem_of_map_to_list). cbn. by rewrite (proj1 (Ho i y Hy)).
    - intros Hx. exists (ss_id x, x). by rewrite elem_of_map_to_list. }
  assert (Hl : ∀ x, x ∈ sorted_desc ss_updated_at (base.filter (λ s, session_valid s = true)
    (reorder (map snd (map_to_list (cs_meta s))))) ↔ cs_meta s !! ss_id x = Some x ∧ session_valid x = true).
  { intros x. rewrite elem_of_sorted_desc, list_elem_of_filter, reorder_perm, Hin. tauto. }
  split; [|done]. apply NoDup_fmap_2_strong.
  - intros x y Hx%Hl Hy%Hl E. rewrite E in Hx. destruct Hx as [Hx _], Hy as [Hy _]. congruence.
  - rewrite sorted_desc_perm. apply list.NoDup_filter. rewrite reorder_perm. apply NoDup_fmap_2_strong.
    + intros [i x] [j y] Hx%elem_of_map_to_list Hy%elem_of_map_to_list E. cbn in E. subst y.
      by rewrite <-(proj1 (Ho i x Hx)), <-(proj1 (Ho j x Hy)).
    + apply NoDup_map_to_list.
Qed.

(** A new process settles the turns the last one left: it succeeds, after it no
    session that can be read is running or waiting for an approval, sessions that
    were not are as they were, and none is lost
    ([CodingStore.reconcile_interrupted]). *)
Theorem reconcile_settles now s W :
  store_reaches now s W → (∀ t, storable (interrupted_event t)) →
  ∃ s', reconcile_interrupted session_valid s = (s', inr ()) ∧
    (∀ id session, cs_meta s' !! id = Some session → session_valid session = true → active session = false) ∧
    (∀ id session, cs_meta s !! id = Some session → active session = false → cs_meta s' !! id = Some session) ∧
    dom (cs_meta s') = dom (cs_meta s).
Proof.
  intros H He. destruct (reaches_logs now s W H) as [HL Ho].
  destruct (listed_sessions s Ho) as (l & Hl & Hn & Hin).
  destruct (interrupt_all l s W He HL Ho Hn) as (s' & Hr & Hout & Hkeep & Hset).
  { intros x. by rewrite Hin. }
  exists s'. split; [unfold reconcile_interrupted, mbind at 1, eff_bind at 1; by rewrite Hl|].
  assert (Hold : ∀ id, (∃ x, x ∈ l ∧ ss_id x = id) ∨ cs_meta s' !! id = cs_meta s !! id).
  { intros id. destruct (decide (id ∈ map ss_id l)) as [Hi|Hi]; [left|right; by apply Hout].
    apply list_elem_of_fmap in Hi as (x & -> & Hx). eauto. }
  split; [|split].
  - intros id session Hm Hv. destruct (Hold id) as [(x & Hx & <-)|E].
    + destruct (Hset x Hx) as (y & Hy & Ay). congruence.
    + rewrite E in Hm. destruct (active session) eqn:A; [|done]. exfalso.
      destruct (Ho id session Hm) as [<- _]. assert (Hx : session ∈ l) by (by apply Hin).
      destruct (Hset session Hx) as (y & Hy & Ay). rewrite E in Hy. congruence.
  - intros id session Hm A. destruct (Hold id) as [(x & Hx & <-)|E]; [|congruence].
    pose proof (proj1 (Hin x) Hx) as [Hmx _]. rewrite Hmx in Hm. injection Hm as <-. by apply Hkeep.
  - apply set_eq. intros id. rewrite !elem_of_dom. destruct (Hold id) as [(x & Hx & <-)|E]; [|by rewrite E].
    pose proof (proj1 (Hin x) Hx) as [Hmx _]. destruct (Hset x Hx) as (y & Hy & _). by rewrite Hmx, Hy.
Qed.

End Log.
