(* ===== verification/SessionCodec.v ===== *)
(** * A codec for the session store, and what it shows.

    A concrete [EventCodec], the JSON of the fields the store reads, on which the
    theorems of [SessionLog] are applied and what the store does to the texts they
    leave out is evaluated: line separators that JSON does not escape, and a file
    cut by a crash. *)
From stdpp Require Import base list gmap strings option relations sorting functions.
From Stdlib Require Import ZArith Lia.
From S2P Require Import Prelude JsonText CommandRules ControlTasks SessionStore SessionLog.

Definition source_json (source : option string) : json :=
  match source with Some x => JStr x | None => JNull end.
Definition event_members (e : CodingEvent) : list (string * json) :=
  [("source_event_id", source_json (ev_source_event_id e)); ("text", JStr (ev_text e))].
Definition json_print (e : CodingEvent) : string := dumps (JObj (("seq", JInt (ev_seq e)) :: event_members e)).

Definition json_event (seq : Z) (source : option string) (text : string) : CodingEvent := {|
  ev_seq := seq; ev_timestamp := 0; ev_type := "message"; ev_title := ""; ev_text := text; ev_phase := None;
  ev_item_id := None; ev_turn_id := None; ev_source_event_id := source; ev_data := [] |}.

Definition json_parse (line : string) : option CodingEvent :=
  match loads line with
  | Some (JObj fields) =>
      match obj_get fields "seq", obj_get fields "source_event_id", obj_get fields "text" with
      | Some (JInt n), Some JNull, Some (JStr text) => Some (json_event n None text)
      | Some (JInt n), Some (JStr x), Some (JStr text) => Some (json_event n (Some x) text)
      | _, _, _ => None
      end
  | _ => None
  end.

Definition json_event_wf (e : CodingEvent) : Prop :=
  utf8_valid true (ev_text e) = true ∧ utf8_valid true (default "" (ev_source_event_id e)) = true.

Lemma json_print_wf e : json_event_wf e → json_wf (JObj (("seq", JInt (ev_seq e)) :: event_members e)).
Proof.
  intros [Ht Hs]. split; [by_decide|]. repeat split; try done. by destruct (ev_source_event_id e).
Qed.

(** Only what is above ASCII can break a line of JSON. *)
Lemma ascii_plain c :
  Nat.leb 32 (ord c) = true → Nat.ltb (ord c) 128 = true →
  line_break c = false ∧ Nat.eqb (ord c) 13 = false ∧ Nat.eqb (ord c) 194 = false ∧ Nat.eqb (ord c) 226 = false.
Proof. destruct c as [[] [] [] [] [] [] [] []]; vm_compute; done. Qed.

Lemma plain_line_ascii a b : no_control a = true → is_ascii a = true → plain_line (String.append a b) = plain_line b.
Proof.
  unfold no_control, is_ascii. induction a as [|c a IH]; cbn [str_forall]; [done|].
  intros [Hc Ha]%andb_true_iff [Hc' Ha']%andb_true_iff. rewrite append_cons. cbn [plain_line]. rewrite IH by done.
  destruct (ascii_plain c Hc Hc') as (-> & -> & -> & ->). cbn. by destruct (String.append a b) as [|? []].
Qed.

Lemma json_print_split e :
  ∃ rest, ∀ n, json_print (e <| ev_seq := n |>) =
    String.append (String.append "{" (String.append (dumps_str "seq") ": ")) (String.append (dumps_int n) rest).
Proof. eexists. intros n. cbn. rewrite !append_assoc. reflexivity. Qed.

Lemma json_print_numbered e n :
  plain_line (json_print e) = true → plain_line (json_print (e <| ev_seq := n |>)) = true.
Proof.
  destruct (json_print_split e) as [rest H]. intros Hp.
  assert (E : e = e <| ev_seq := ev_seq e |>) by (by destruct e). rewrite E, H in Hp. rewrite H. clear E H.
  rewrite !plain_line_ascii in *; try apply number_text_plain, number_text_int; done.
Qed.

Lemma json_parse_print e :
  json_event_wf e → json_parse (json_print e) = Some (json_event (ev_seq e) (ev_source_event_id e) (ev_text e)).
Proof.
  intros H. unfold json_parse, json_print. rewrite loads_dumps by (by apply json_print_wf). cbn.
  by destruct (ev_source_event_id e).
Qed.

#[export] Instance json_codec : EventCodec.
Proof.
  refine {| event_wf := json_event_wf; print_event := json_print; parse_event := json_parse |}.
  - intros e H. split; [by apply utf8_dumps, json_print_wf|done].
  - intros e H. exists (json_event (ev_seq e) (ev_source_event_id e) (ev_text e)). split; [by apply json_parse_print|].
    by split.
  - intros e n H. split; [done|]. apply json_print_numbered.
Defined.

(** ** The theorems at work *)

Definition demo_session (id : string) (status : SessionStatus) : Session := {|
  ss_id := id; ss_title := ""; ss_status := status; ss_active_turn_id := Some "t"; ss_pending_approval := None;
  ss_pending_question := None; ss_pinned := false; ss_archived := false; ss_fix_failing_checks := false;
  ss_max_fix_attempts := 2; ss_fix_attempts := []; ss_event_count := 0; ss_updated_at := 0; ss_rest := [] |}.

Definition any_session : Session → bool := λ _, true.
Definition no_update : Session → exn + Session := inr.

Lemma no_update_keeps : keeps_id no_update.
Proof. by intros session session1 [= <-]. Qed.

Definition demo_event : CodingEvent := json_event 0 (Some "a") "hello".

Lemma demo_storable : storable demo_event.
Proof. split; [split|]; vm_compute; reflexivity. Qed.

Lemma interrupted_storable t : storable (interrupted_event t).
Proof. split; [split|]; vm_compute; reflexivity. Qed.

(** A session is saved while it runs, an event is appended and the process dies
    before it saves the metadata. *)
Definition demo_saved : CodingStore := (save_session (demo_session "s1" s_running) true (new_store 7)).1.
Definition demo_store : CodingStore := crash_append any_session "s1" demo_event no_update false demo_saved.
Definition demo_written : string → list (Z * option string) :=
  <["s1" := [] ++ written any_session "s1" demo_event no_update demo_saved]> (λ _, []).

Lemma demo_reaches : store_reaches any_session 7 demo_store demo_written.
Proof.
  unfold store_reaches. eapply rtc_l; [apply step_save|]. apply rtc_once.
  refine (step_crash any_session "s1" demo_event no_update false demo_saved (λ _, []) demo_storable no_update_keeps).
Qed.


Lemma session_cache_transparent_witness :
  ∃ warm cold, events_after "s1" 0 demo_store = (demo_store, inr warm) ∧
    events_after "s1" 0 (restart demo_store) = (restart demo_store, inr cold) ∧ keys_of warm = keys_of cold.
Proof.
  apply (session_cache_transparent any_session 7 demo_store demo_written "s1" 0 demo_reaches). vm_compute. reflexivity.
Defined.

(** The redelivery of the event finds it. *)
Lemma append_event_stores_witness :
  ∃ s' e, append_event any_session "s1" demo_event no_update demo_store = (s', inr e) ∧
    ev_source_event_id e = Some "a" ∧ redelivered demo_event [(1%Z, Some "a")] = true.
Proof.
  destruct (append_event_stores any_session 7 demo_store demo_written "s1" demo_event no_update
    ((demo_session "s1" s_running) <| ss_updated_at := 7%Z |>) ((demo_session "s1" s_running) <| ss_updated_at := 7%Z |>)
    demo_reaches demo_storable no_update_keeps) as (s' & e & before & after & Ha & Hs & _);
    [vm_compute; reflexivity..|]. exists s', e. split; [exact Ha|]. split; [exact Hs|]. vm_compute. reflexivity.
Defined.

#[local] Existing Instance plain_platform.

Lemma reconcile_settles_witness :
  ∃ s', reconcile_interrupted any_session demo_store = (s', inr ()) ∧
    ∀ id session, cs_meta s' !! id = Some session → any_session session = true → active session = false.
Proof.
  destruct (reconcile_settles any_session 7 demo_store demo_written demo_reaches interrupted_storable) as (s' & Hr & Hs & _).
  by exists s'.
Defined.

(** ** What the store loses *)

Definition on_value {A B} (f : A → B) (r : exn + A) : exn + B :=
  match r with inl e => inl e | inr a => inr (f a) end.

(** The line separator U+2028, which JSON does not escape. *)
Definition line_separator : string := String.String (chr 226) (String.String (chr 128) (String.String (chr 168) "")).
Definition separator_event : CodingEvent := json_event 0 (Some "b") line_separator.
Definition separator_store : CodingStore :=
  (append_event any_session "s1" separator_event no_update demo_saved).1.

(** The event is acknowledged and served from memory; a new process does not find
    it, and stores its redelivery as a new event. *)
Example separator_lost :
  on_value keys_of (snd (events_after "s1" 0 separator_store)) = inr [(1%Z, Some "b")] ∧
  on_value keys_of (snd (events_after "s1" 0 (restart separator_store))) = inr [] ∧
  on_value key (snd (append_event any_session "s1" separator_event no_update (restart separator_store))) = inr (2%Z, Some "b").
Proof. vm_compute. done. Qed.

(** A line cut by a crash swallows the next one. *)
Definition torn_store : CodingStore :=
  restart (write_text "s1" (str_take 20 (json_print demo_event)) demo_saved).

Example torn_line_swallows :
  let '(s, answer) := append_event any_session "s1" demo_event no_update torn_store in
  on_value key answer = inr (1%Z, Some "a") ∧ on_value keys_of (snd (events_after "s1" 0 (restart s))) = inr [].
Proof. vm_compute. done. Qed.

(** Cut inside a character, the file cannot be read at all: neither its history
    nor the next event of the session. *)
Definition cut_store : CodingStore :=
  restart (write_text "s1" (str_take (String.length (json_print separator_event) - 3) (json_print separator_event)) demo_saved).

Example torn_character_raises :
  snd (events_after "s1" 0 cut_store) = inl (UnicodeDecodeError "utf-8") ∧
  snd (append_event any_session "s1" demo_event no_update cut_store) = inl (UnicodeDecodeError "utf-8").
Proof. vm_compute. done. Qed.
