(* ===== verification/Uuid.v ===== *)
(** * UUIDs of the Python standard library.

    [uuid.UUID(text)] and [str(uuid)], on text of 8-bit characters: what the
    server accepts as an id from a header or a file, and the one spelling it
    writes.  A UUID is its 32 hexadecimal digits. *)
From stdpp Require Import base list strings option.
From Stdlib Require Import ZArith Lia.
From S2P Require Import Prelude JsonText.

(** ** [int(text, 16)] *)

Definition int_space (c : Ascii.ascii) : bool :=
  let n := ord c in (Nat.leb 9 n && Nat.leb n 13) || Nat.eqb n 32 || Nat.eqb n 133 || Nat.eqb n 160.

Definition lower_hex (c : Ascii.ascii) : bool :=
  let n := ord c in (Nat.leb 48 n && Nat.leb n 57) || (Nat.leb 97 n && Nat.leb n 102).
Definition hex_char (c : Ascii.ascii) : bool := lower_hex (lower c).

Fixpoint drop_while (p : Ascii.ascii → bool) (s : string) : string :=
  match s with
  | String.String c s' => if p c then drop_while p s' else s
  | EmptyString => ""
  end.

(** The digits of a run of digits and single underscores, and what follows. *)
Fixpoint hex_run (after_underscore : bool) (s : string) : option (string * string) :=
  match s with
  | EmptyString => if after_underscore then None else Some ("", "")
  | String.String c s' =>
      if Nat.eqb (ord c) 95 then if after_underscore then None else hex_run true s'
      else if hex_char c then
        match hex_run false s' with Some (ds, rest) => Some (String.String (lower c) ds, rest) | None => None end
      else if after_underscore then None else Some ("", s)
  end.

Definition drop_char (c : Ascii.ascii) (s : string) : string :=
  match s with String.String d s' => if Ascii.eqb d c then s' else s | EmptyString => s end.

(** The digits of the number.  A sign other than plus does not occur where this
    is used. *)
Definition int16 (s : string) : option string :=
  let s := drop_char (chr 43) (drop_while int_space s) in
  let s := match strip_prefix "0x" (str_lower (str_take 2 s)) with
           | Some _ => drop_char (chr 95) (String.substring 2 (String.length s - 2) s)
           | None => s
           end in
  match s with
  | String.String c _ =>
      if Nat.eqb (ord c) 95 then None
      else
        match hex_run false s with
        | Some (ds, rest) => if truthy ds && negb (truthy (drop_while int_space rest)) then Some ds else None
        | None => None
        end
  | EmptyString => None
  end.

(** ** [UUID(text)] and [str(uuid)] *)

Definition brace (c : Ascii.ascii) : bool := Nat.eqb (ord c) 123 || Nat.eqb (ord c) 125.
Fixpoint drop_while_end (p : Ascii.ascii → bool) (s : string) : string :=
  match s with
  | EmptyString => ""
  | String.String c s' =>
      match drop_while_end p s' with
      | EmptyString => if p c then "" else String.String c ""
      | r => String.String c r
      end
  end.

Fixpoint zeros (n : nat) : string := match n with 0 => "" | S n => String.String (chr 48) (zeros n) end.

Definition uuid_hex (text : string) : string :=
  str_replace "-" "" (drop_while_end brace (drop_while brace (str_replace "uuid:" "" (str_replace "urn:" "" text)))).

(** The digits, or [None] for [ValueError]. *)
Definition UUID (text : string) : option string :=
  let hex := uuid_hex text in
  if Nat.eqb (String.length hex) 32 then
    match int16 hex with
    | Some ds => Some (String.append (zeros (32 - String.length ds)) ds)
    | None => None
    end
  else None.

Definition uuid_str (u : string) : string :=
  let part i n := String.substring i n u in
  str_join "-" [part 0 8; part 8 4; part 12 4; part 16 4; part 20 12].

(** [str(UUID(text))]. *)
Definition uuid_text (text : string) : option string := uuid_str <$> UUID text.

Definition uuid_digits (u : string) : bool := Nat.eqb (String.length u) 32 && str_forall lower_hex u.

(** ** Facts *)

Lemma length_zeros n : String.length (zeros n) = n.
Proof. induction n; cbn; congruence. Qed.
Lemma zeros_hex n : str_forall lower_hex (zeros n) = true.
Proof. by induction n. Qed.

Lemma hex_run_digits s : ∀ b ds rest,
  hex_run b s = Some (ds, rest) → str_forall lower_hex ds = true ∧ String.length ds ≤ String.length s.
Proof.
  induction s as [|c s IH]; intros b ds rest; cbn.
  - destruct b; [done|]. intros [= <- <-]. cbn. split; [done|lia].
  - destruct (Nat.eqb (ord c) 95).
    + destruct b; [done|]. intros H. destruct (IH _ _ _ H). split; [done|]. cbn. lia.
    + destruct (hex_char c) eqn:E.
      * destruct (hex_run false s) as [[ds' r']|] eqn:H; [|done]. intros [= <- <-].
        destruct (IH _ _ _ H) as [H1 H2]. cbn. unfold hex_char in E. rewrite E, H1. split; [done|]. lia.
      * destruct b; [done|]. intros [= <- <-]. cbn. split; [done|lia].
Qed.

Lemma length_drop_while p s : String.length (drop_while p s) ≤ String.length s.
Proof. induction s as [|c s IH]; cbn; [done|]. destruct (p c); cbn; lia. Qed.
Lemma length_drop_char c s : String.length (drop_char c s) ≤ String.length s.
Proof. destruct s as [|d s]; cbn; [done|]. destruct (Ascii.eqb d c); cbn; lia. Qed.

Lemma length_substring n m s : String.length (String.substring n m s) ≤ m.
Proof.
  revert n m. induction s as [|c s IH]; intros [|n] [|m]; cbn; try lia.
  - specialize (IH 0 m). lia.
  - apply (IH n 0).
  - apply IH.
Qed.

Lemma int16_digits s ds : int16 s = Some ds → str_forall lower_hex ds = true ∧ String.length ds ≤ String.length s.
Proof.
  unfold int16. set (s1 := drop_char (chr 43) (drop_while int_space s)).
  assert (H1 : String.length s1 ≤ String.length s).
  { unfold s1. etrans; [apply length_drop_char|apply length_drop_while]. }
  set (s2 := match strip_prefix _ _ with Some _ => _ | None => _ end).
  assert (H2 : String.length s2 ≤ String.length s).
  { unfold s2. destruct (strip_prefix _ _); [|done]. etrans; [apply length_drop_char|].
    etrans; [apply length_substring|]. lia. }
  clearbody s2. destruct s2 as [|c s2]; [done|]. destruct (Nat.eqb (ord c) 95); [done|].
  destruct (hex_run false _) as [[ds' rest]|] eqn:E; [|done]. apply hex_run_digits in E as [Hd Hl].
  destruct (_ && _); [|done]. intros [= <-]. split; [done|]. lia.
Qed.

Lemma UUID_digits text u : UUID text = Some u → uuid_digits u = true.
Proof.
  unfold UUID, uuid_digits. destruct (Nat.eqb_spec (String.length (uuid_hex text)) 32) as [Hl|]; [|done].
  destruct (int16 (uuid_hex text)) as [ds|] eqn:E; [|done]. intros [= <-]. apply int16_digits in E as [Hd Hle].
  rewrite length_append, length_zeros, str_forall_app, zeros_hex, Hd.
  replace (32 - String.length ds + String.length ds) with 32 by lia. done.
Qed.

(** *** The written spelling is read back *)

Definition keep_char (c : Ascii.ascii) : string → string :=
  fix go s := match s with
              | EmptyString => ""
              | String.String d s' => if Ascii.eqb c d then go s' else String.String d (go s')
              end.

Lemma replace_char_from c fuel s :
  String.length s < fuel → replace_from fuel (String.String c "") "" s = keep_char c s.
Proof.
  revert s. induction fuel as [|fuel IH]; intros s Hf; [lia|]. destruct s as [|d s]; [done|].
  cbn in Hf |- *. destruct (Ascii.eqb c d); rewrite ?append_nil; [|f_equal]; apply IH; lia.
Qed.

Lemma replace_char c s : str_replace (String.String c "") "" s = keep_char c s.
Proof. unfold str_replace. cbn [truthy String.eqb negb]. apply replace_char_from. lia. Qed.

Lemma keep_char_app c a b : keep_char c (String.append a b) = String.append (keep_char c a) (keep_char c b).
Proof.
  induction a as [|d a IH]; [done|]. rewrite append_cons. cbn. rewrite IH. by destruct (Ascii.eqb c d).
Qed.

Lemma keep_char_absent c s : str_forall (λ d, negb (Ascii.eqb c d)) s = true → keep_char c s = s.
Proof.
  induction s as [|d s IH]; [done|]. cbn. intros [H1%negb_true_iff H2]%andb_true_iff. by rewrite H1, IH.
Qed.

Lemma replace_absent c old s :
  str_forall (λ d, negb (Ascii.eqb c d)) s = true → str_replace (String.String c old) "" s = s.
Proof.
  unfold str_replace. cbn [truthy String.eqb negb]. generalize (S (String.length s)) as fuel. intros fuel. revert s.
  induction fuel as [|fuel IH]; intros s; [done|]. destruct s as [|d s]; [done|]. cbn.
  intros [H1%negb_true_iff H2]%andb_true_iff. by rewrite H1, IH.
Qed.

Lemma hex_not c d : lower_hex c = false → lower_hex d = true → negb (Ascii.eqb c d) = true.
Proof. intros Hc Hd. destruct (Ascii.eqb_spec c d) as [->|]; [congruence|done]. Qed.

Lemma lower_lower_hex c : lower_hex c = true → lower c = c ∧ hex_char c = true ∧ Nat.eqb (ord c) 95 = false ∧ int_space c = false.
Proof. destruct c as [[] [] [] [] [] [] [] []]; vm_compute; done. Qed.

Lemma hex_run_hex s : str_forall lower_hex s = true → hex_run false s = Some (s, "").
Proof.
  induction s as [|c s IH]; [done|]. cbn. intros [Hc Hs]%andb_true_iff.
  destruct (lower_lower_hex c Hc) as (-> & -> & -> & _). by rewrite IH.
Qed.

Lemma int16_hex s : str_forall lower_hex s = true → 2 ≤ String.length s → int16 s = Some s.
Proof.
  destruct s as [|c [|d s]]; cbn [String.length]; try lia. intros Hs _. pose proof Hs as Hs'. cbn in Hs'.
  apply andb_true_iff in Hs' as [Hc [Hd _]%andb_true_iff].
  unfold int16. cbn [drop_while]. destruct (lower_lower_hex c Hc) as (Ec & _ & Hu & Hsp). rewrite Hsp.
  assert (Hp : drop_char (chr 43) (String.String c (String.String d s)) = String.String c (String.String d s)).
  { cbn [drop_char]. destruct (Ascii.eqb_spec c (chr 43)) as [->|]; done. }
  rewrite Hp. assert (Hx : strip_prefix "0x" (str_lower (str_take 2 (String.String c (String.String d s)))) = None).
  { destruct (lower_lower_hex d Hd) as (Ed & _).
    replace (str_take 2 (String.String c (String.String d s))) with (String.String c (String.String d ""))
      by (by destruct s).
    change ((if Ascii.eqb (chr 48) (lower c) then if Ascii.eqb (chr 120) (lower d) then Some "" else None else None) = None).
    rewrite Ed, (proj1 (negb_true_iff _) (hex_not (chr 120) d eq_refl Hd)). by destruct (Ascii.eqb _ _). }
  rewrite Hx, Hu, hex_run_hex by done. done.
Qed.

Lemma forall_hex_not c s :
  lower_hex c = false → str_forall lower_hex s = true → str_forall (λ d, negb (Ascii.eqb c d)) s = true.
Proof. intros Hc. apply str_forall_impl. intros d. by apply hex_not. Qed.

(** A UUID in four hyphens. *)
Lemma uuid_parts u :
  String.length u = 32 → ∃ a b c d e, u = String.append a (String.append b (String.append c (String.append d e))) ∧
    uuid_str u = String.append a (String.append "-" (String.append b (String.append "-" (String.append c
      (String.append "-" (String.append d (String.append "-" e))))))) ∧
    String.length a = 8 ∧ String.length e = 12.
Proof.
  intros Hl. unfold uuid_str. cbn [str_join].
  exists (String.substring 0 8 u), (String.substring 8 4 u), (String.substring 12 4 u), (String.substring 16 4 u),
    (String.substring 20 12 u).
  do 32 (destruct u as [|? u]; [done|]). destruct u; [|done]. done.
Qed.

Lemma uuid_str_forall p u :
  uuid_digits u = true → (∀ c, lower_hex c = true → p c = true) → p (chr 45) = true → str_forall p (uuid_str u) = true.
Proof.
  unfold uuid_digits. intros [Hl%Nat.eqb_eq Hu]%andb_true_iff Hp Hd.
  destruct (uuid_parts u Hl) as (a & b & c & d & e & E & -> & _). rewrite E in Hu.
  assert (Hh : str_forall p "-" = true) by (cbn [str_forall]; rewrite andb_true_r; exact Hd).
  rewrite !str_forall_app in Hu. rewrite !str_forall_app, Hh.
  repeat (apply andb_true_iff in Hu as [?%(str_forall_impl _ p) Hu]; [|done]).
  apply (str_forall_impl _ p) in Hu; [|done].
  repeat (apply andb_true_iff; split); done.
Qed.

Lemma UUID_uuid_str u : uuid_digits u = true → UUID (uuid_str u) = Some u.
Proof.
  intros Hd. assert (Hu : uuid_hex (uuid_str u) = u).
  { unfold uuid_hex.
    assert (Hn : ∀ c old, lower_hex c = false → Ascii.eqb c (chr 45) = false →
      str_replace (String.String c old) "" (uuid_str u) = uuid_str u).
    { intros c old Hc Hc45. apply replace_absent, uuid_str_forall; [done|intros d; by apply hex_not|by rewrite Hc45]. }
    rewrite (Hn _ "rn:"), (Hn _ "uid:") by done.
    pose proof Hd as Hd'. unfold uuid_digits in Hd'. apply andb_true_iff in Hd' as [Hl%Nat.eqb_eq Hx].
    destruct (uuid_parts u Hl) as (a & b & c & d & e & E & Es & _).
    assert (Hb : ∀ s, str_forall (λ c, negb (brace c)) s = true → drop_while_end brace (drop_while brace s) = s).
    { intros s Hs. assert (Hw : drop_while brace s = s).
      { destruct s as [|x s]; [done|]. cbn in Hs |- *. by destruct (brace x). }
      rewrite Hw. clear Hw. induction s as [|x s IH]; [done|]. cbn in Hs |- *.
      apply andb_true_iff in Hs as [Hbx%negb_true_iff Hs]. rewrite IH, Hbx by done. by destruct s. }
    rewrite Hb.
    2: { apply uuid_str_forall; [done| |done]. intros x. destruct x as [[] [] [] [] [] [] [] []]; vm_compute; done. }
    change "-" with (String.String (chr 45) ""). rewrite replace_char, Es, !keep_char_app. rewrite E in Hx.
    rewrite !str_forall_app in Hx. cbn [keep_char Ascii.eqb Bool.eqb].
    repeat (apply andb_true_iff in Hx as [?%(forall_hex_not (chr 45)) Hx]; [|done]).
    apply (forall_hex_not (chr 45)) in Hx; [|done].
    change (keep_char (chr 45) "-") with "". rewrite !append_nil, !keep_char_absent by done. done. }
  unfold UUID. rewrite Hu. pose proof Hd as Hd'. unfold uuid_digits in Hd'.
  apply andb_true_iff in Hd' as [Hl Hx]. rewrite Hl. apply Nat.eqb_eq in Hl.
  rewrite int16_hex by (done || lia). by rewrite Hl.
Qed.

(** A canonical spelling is a fixed point, and determines the UUID. *)
Lemma uuid_text_canonical text t : uuid_text text = Some t → uuid_text t = Some t.
Proof.
  unfold uuid_text. destruct (UUID text) as [u|] eqn:E; [|done]. intros [= <-].
  by rewrite UUID_uuid_str by (by eapply UUID_digits).
Qed.

Lemma uuid_text_chars p text t :
  uuid_text text = Some t → (∀ c, lower_hex c = true → p c = true) → p (chr 45) = true → str_forall p t = true.
Proof.
  unfold uuid_text. destruct (UUID text) as [u|] eqn:E; [|done]. intros [= <-] Hp Hd.
  apply uuid_str_forall; [by eapply UUID_digits|done|done].
Qed.

Lemma uuid_text_nonempty text t : uuid_text text = Some t → truthy t = true.
Proof.
  unfold uuid_text. destruct (UUID text) as [u|] eqn:E; [|done]. intros [= <-].
  apply UUID_digits in E. unfold uuid_digits in E. apply andb_true_iff in E as [Hl%Nat.eqb_eq _].
  do 32 (destruct u as [|? u]; [done|]). done.
Qed.

Example uuid_examples :
  uuid_text "{6BA7B810-9DAD-11D1-80B4-00C04FD430C8}" = Some "6ba7b810-9dad-11d1-80b4-00c04fd430c8" ∧
  uuid_text "6ba7b810" = None ∧ uuid_text "../../6ba7b810-9dad-11d1-80b4-00c04fd430c8" = None.
Proof. vm_compute. done. Qed.
