(* ===== verification/Identity.v ===== *)
(** * Who is calling ([src/cowork/principal.py]).

    The middleware that turns the identity headers of the gateway into a
    [Principal], the fence against browser pages of another organization, and the
    permission classes that read the principal
    ([src/cowork/api/v1/permissions.py]).  Header values are Latin-1 text, one
    character a byte, as the web framework decodes them.

    Outside the model: [uuid5], a hash, and [json.loads] on bytes, whose guess of
    the encoding is left open. *)
From stdpp Require Import base list gmap strings option.
From Stdlib Require Import ZArith Lia.
From S2P Require Import Prelude JsonText Uuid.

(** ** Settings *)

(** [PersonalResource]. *)
Inductive PersonalResource :=
  | CONVERSATIONS | PROJECTS | FILES | SKILLS | CONNECTIONS | SCHEDULES | PINS | MEMORY | SETTINGS.

#[export] Instance PersonalResource_eq_dec : EqDecision PersonalResource.
Proof. solve_decision. Defined.

(** The settings that decide about tenancy. *)
Record AppSettings := {
  tenancy_org : bool;                  (* tenancy_mode == "org" *)
  trust_identity_headers : bool;
  identity_enforce : bool;             (* identity_enforce == "enforce" *)
  personal_resources : list PersonalResource;
  shared_root : list string;
  exempt_paths : list string;          (* the webhook and live-app paths of create_app *)
}.

(** ** Requests *)

Record Request := {
  rq_method : string;
  rq_path : string;
  rq_headers : list (string * string);
}.

(** [request.headers.get(name)]: names are compared without case. *)
Fixpoint find_header (name : string) (headers : list (string * string)) : option string :=
  match headers with
  | [] => None
  | (k, v) :: headers => if String.eqb (str_lower k) name then Some v else find_header name headers
  end.
Definition header (rq : Request) (name : string) : option string := find_header (str_lower name) (rq_headers rq).

(** [text.split(c)]. *)
Fixpoint split_from (c : Ascii.ascii) (piece s : string) : list string :=
  match s with
  | EmptyString => [piece]
  | String.String d s' => if Ascii.eqb d c then piece :: split_from c "" s' else split_from c (String.append piece (String.String d "")) s'
  end.
Definition split_char (c : Ascii.ascii) (s : string) : list string := split_from c "" s.

Definition HEADER_USER_ID : string := "X-User-Id".
Definition HEADER_ORG_ID : string := "X-Organization-Id".
Definition HEADER_USER_EMAIL : string := "X-User-Email".
Definition HEADER_USER_ROLES : string := "X-User-Roles".
Definition HEADER_EXPECTED_ORG_ID : string := "X-Cowork-Expected-Organization-Id".
Definition HEADER_HUB_CREDENTIAL : string := "X-MindsHub-Authorization".
Definition EXEMPT_PATHS : list string := ["/api/v1/health"; "/api/v1/health/"; "/api/v1/health/live"].

(** [Principal]. *)
Record Principal := {
  p_user_id : string;
  p_org_id : string;
  p_email : string;
  p_roles : gset string;
}.

(** ** Credentials *)

(** [binascii.a2b_base64] as [urlsafe_b64decode] calls it: characters outside the
    alphabet are skipped, a full padding ends the text. *)
Definition b64_value (c : Ascii.ascii) : option nat :=
  let n := ord c in
  if Nat.leb 65 n && Nat.leb n 90 then Some (n - 65)
  else if Nat.leb 97 n && Nat.leb n 122 then Some (n - 71)
  else if Nat.leb 48 n && Nat.leb n 57 then Some (n + 4)
  else if Nat.eqb n 45 || Nat.eqb n 43 then Some 62
  else if Nat.eqb n 95 || Nat.eqb n 47 then Some 63
  else None.

Fixpoint b64_from (quad left pads : nat) (s : string) : option string :=
  match s with
  | EmptyString => match quad with 0 => Some "" | _ => None end
  | String.String c s' =>
      if Nat.eqb (ord c) 61 then
        if Nat.leb 2 quad && Nat.leb 4 (quad + S pads) then Some ""
        else b64_from quad left (if Nat.leb 2 quad then S pads else pads) s'
      else
        match b64_value c with
        | None => b64_from quad left pads s'
        | Some v =>
            match quad with
            | 0 => b64_from 1 v 0 s'
            | 1 => String.String (chr (left * 4 + v / 16)) <$> b64_from 2 (v mod 16) 0 s'
            | 2 => String.String (chr (left * 16 + v / 4)) <$> b64_from 3 (v mod 4) 0 s'
            | _ => String.String (chr (left * 64 + v)) <$> b64_from 0 0 0 s'
            end
        end
  end.
Definition urlsafe_b64decode (s : string) : option string := if is_ascii s then b64_from 0 0 0 s else None.

Class IdentityEnv := {
  uuid5 : string → string → string;
  uuid5_uuid : ∀ namespace name, uuid_text (uuid5 namespace name) = Some (uuid5 namespace name);
  loads_bytes : string → option json;
}.

Section Identity.
Context {IE : IdentityEnv}.

(** [_has_jose_header]. *)
Definition padding (segment : string) : string :=
  str_take ((4 - String.length segment mod 4) mod 4) "===".
Definition has_jose_header (segment : string) : bool :=
  match urlsafe_b64decode (String.append segment (padding segment)) with
  | Some bytes =>
      match loads_bytes bytes with
      | Some (JObj fields) => match obj_get fields "alg" with Some (JStr alg) => truthy alg | _ => false end
      | _ => false
      end
  | None => false
  end.

Definition bearer_of (value : string) : option string :=
  if str_starts "bearer " (str_lower value) then Some (str_strip (String.substring 7 (String.length value - 7) value))
  else None.

(** [_is_browser_jwt_request]. *)
Definition is_browser_jwt_request (rq : Request) : bool :=
  match bearer_of (str_strip (default "" (header rq "Authorization"))) with
  | None => false
  | Some credential =>
      if negb (truthy credential) || str_starts "mdb_" (str_lower credential) then false
      else
        match split_char (chr 46) credential with
        | [a; b; c] => truthy a && truthy b && truthy c && has_jose_header a
        | _ => false
        end
  end.

(** [caller_bearer] and [mindshub_credential]. *)
Definition caller_bearer (rq : Request) : string := default "" (bearer_of (default "" (header rq "Authorization"))).
Definition mindshub_credential (settings : AppSettings) (rq : Request) : string :=
  match bearer_of (default "" (header rq HEADER_HUB_CREDENTIAL)) with
  | Some credential => credential
  | None => if tenancy_org settings then caller_bearer rq else ""
  end.

(** ** The middleware *)

(** What a request meets: the handler, with the principal on its state, or an
    answer of the middleware. *)
Inductive Outcome :=
  | Next (principal : option Principal)
  | Answer (status : Z) (reason : option string).

(** [personal_partition_id]. *)
Definition personal_partition_id (organization_id user_id : string) : option string :=
  match uuid_text organization_id, uuid_text user_id with
  | Some organization_id, Some user_id => Some (uuid5 organization_id user_id)
  | _, _ => None
  end.

(** [_organization_boundary_response]. *)
Definition organization_boundary_response (rq : Request) (trusted_org_id : string) : option Outcome :=
  if negb (is_browser_jwt_request rq) then None
  else
    match header rq HEADER_EXPECTED_ORG_ID with
    | None => Some (Answer 426 (Some "expected_organization_missing"))
    | Some supplied =>
        if negb (truthy (str_strip supplied)) then Some (Answer 426 (Some "expected_organization_missing"))
        else
          match uuid_text (str_strip supplied) with
          | None => Some (Answer 409 (Some "expected_organization_invalid"))
          | Some expected => if String.eqb expected trusted_org_id then None else Some (Answer 409 (Some "organization_mismatch"))
          end
    end.

Definition preflight (rq : Request) : bool :=
  String.eqb (rq_method rq) "OPTIONS" && truthy_opt (header rq "origin") &&
  truthy_opt (header rq "access-control-request-method").

Definition dotted_path (path : string) : bool :=
  existsb (λ segment, String.eqb segment "." || String.eqb segment "..") (split_char (chr 47) path).

Definition roles_of (value : string) : gset string :=
  list_to_set (base.filter (λ r, truthy r = true) (map str_strip (split_char (chr 44) value))).

Definition header_uuid (rq : Request) (name : string) : option string :=
  uuid_text (str_strip (default "" (header rq name))).

Definition new_principal (rq : Request) (user_id org_id : string) : Principal := {|
  p_user_id := user_id; p_org_id := org_id;
  p_email := str_strip (default "" (header rq HEADER_USER_EMAIL));
  p_roles := roles_of (default "" (header rq HEADER_USER_ROLES)) |}.

(** [TrustedHeaderMiddleware.dispatch]. *)
Definition dispatch (exempt : list string) (enforce personal_partitions : bool) (rq : Request) : Outcome :=
  if preflight rq then Next None
  else if bool_decide (rq_path rq ∈ EXEMPT_PATHS) || bool_decide (rq_path rq ∈ exempt) then Next None
  else if personal_partitions && dotted_path (rq_path rq) then Answer 400 None
  else if personal_partitions && negb (str_starts "/api/" (rq_path rq)) then Next None
  else
    match header_uuid rq HEADER_USER_ID, header_uuid rq HEADER_ORG_ID with
    | Some user_id, Some org_id =>
        if personal_partitions then
          match personal_partition_id org_id user_id with
          | Some partition => Next (Some (new_principal rq user_id partition))
          | None => Answer 500 None
          end
        else
          match organization_boundary_response rq org_id with
          | Some answer => answer
          | None => Next (Some (new_principal rq user_id org_id))
          end
    | _, _ =>
        let named := bool_decide (is_Some (header rq HEADER_USER_ID)) || bool_decide (is_Some (header rq HEADER_ORG_ID)) in
        if enforce || (personal_partitions && named) then Answer 401 None else Next None
    end.

(** What [create_app] installs: nothing in local tenancy without trusted
    headers. *)
Definition admit_request (settings : AppSettings) (rq : Request) : Outcome :=
  if tenancy_org settings || trust_identity_headers settings
  then dispatch (exempt_paths settings) (identity_enforce settings) (trust_identity_headers settings) rq
  else Next None.

(** ** Permissions *)

Definition ORG_MANAGE_ROLE : string := "manage-organization".
Definition can_manage_org (principal : option Principal) : bool :=
  match principal with Some p => bool_decide (ORG_MANAGE_ROLE ∈ p_roles p) | None => false end.

(** [check] of the classes that read the principal: a status that refuses, or
    the identity. *)
Definition authenticated (principal : option Principal) : Z + option Principal :=
  match principal with Some p => inr (Some p) | None => inl 401%Z end.
Definition authenticated_in_org_mode (settings : AppSettings) (principal : option Principal) : Z + option Principal :=
  if tenancy_org settings then authenticated principal else inr None.
Definition authenticated_org_admin (settings : AppSettings) (principal : option Principal) : Z + option Principal :=
  match authenticated_in_org_mode settings principal with
  | inl status => inl status
  | inr principal => if tenancy_org settings && negb (can_manage_org principal) then inl 403%Z else inr principal
  end.
Definition desktop_only (settings : AppSettings) : Z + option Principal :=
  if tenancy_org settings then inl 403%Z else inr None.

(** [identity_trace_metadata]. *)
Definition identity_trace_metadata (principal : option Principal) (base : option (list (string * json))) :
    option (list (string * json)) :=
  match principal with
  | None => base
  | Some p =>
      Some (obj_set (obj_set (default [] base) "user_id" (JStr (p_user_id p))) "organization_id" (JStr (p_org_id p)))
  end.

End Identity.
