(* ===== verification/TenantScope.v ===== *)
(** * Tenancy: which rows and folders a request may use
    ([src/cowork/db/scoped.py], [src/cowork/db/personal_resources.py]).

    A [TenantScope] comes from the principal of a request or from a stored row.
    It says which tables and stores are keyed by an organization (or a person's
    partition), and where the keyed stores live.  A path is the list of its
    names below the root of the file system. *)
From stdpp Require Import base list gmap strings option.
From Stdlib Require Import ZArith Lia.
From S2P Require Import Prelude JsonText Uuid Identity.

(** ** Personal resources *)

Definition PERSONAL_RESOURCE_REQUIRES (r : PersonalResource) : list PersonalResource :=
  match r with
  | PROJECTS => [CONVERSATIONS]
  | CONVERSATIONS => [FILES; PINS; SCHEDULES]
  | _ => []
  end.

(** [check_personal_resource_dependencies]: the first resource with a missing
    one, in some order. *)
Definition missing_dependencies (resources : list PersonalResource) : list PersonalResource :=
  base.filter (λ r, ¬ Forall (λ q, q ∈ resources) (PERSONAL_RESOURCE_REQUIRES r)) resources.
Definition check_personal_resource_dependencies (resources : list PersonalResource) : exn + () :=
  match missing_dependencies resources with [] => inr () | _ => inl (ValueError "COWORK_PERSONAL_RESOURCES") end.

(** [MODEL_RESOURCE], by table; [None] where the table is not listed. *)
Definition MODEL_RESOURCE (table : string) : option PersonalResource :=
  if bool_decide (table ∈ ["conversations"; "messages"; "channel_installations"; "channel_bindings"; "channel_events"])
  then Some CONVERSATIONS
  else if bool_decide (table ∈ ["projects"; "artifact_identities"; "artifact_owner_choices"; "shared_resource_attributions";
      "shared_resource_mutations"]) then Some PROJECTS
  else if bool_decide (table = "files") then Some FILES
  else if bool_decide (table = "custom_connectors") then Some CONNECTIONS
  else if bool_decide (table ∈ ["skill_access"; "skill_user_setting"]) then Some SKILLS
  else if bool_decide (table = "schedules") then Some SCHEDULES
  else if bool_decide (table = "pins") then Some PINS
  else if bool_decide (table = "settings") then Some SETTINGS
  else None.

(** [STORE_RESOURCE]; the sandbox store maps to none, as an unknown one. *)
Definition STORE_RESOURCE (store : string) : option PersonalResource :=
  if bool_decide (store ∈ ["projects"; "publish"]) then Some PROJECTS
  else if bool_decide (store = "files") then Some FILES
  else if bool_decide (store ∈ ["skills"; "code-skills"]) then Some SKILLS
  else if bool_decide (store = "data-vault") then Some CONNECTIONS
  else if bool_decide (store = "memory") then Some MEMORY
  else None.

(** ** Scopes *)

Record TenantScope := {
  sc_org_mode : bool;
  sc_org_id : option string;
  sc_user_id : option string;
  sc_personal : bool;
  sc_personal_resources : list PersonalResource;
}.

#[export] Instance TenantScope_eq_dec : EqDecision TenantScope.
Proof. solve_decision. Defined.

Definition LOCAL_SCOPE : TenantScope := {|
  sc_org_mode := false; sc_org_id := None; sc_user_id := None; sc_personal := false; sc_personal_resources := [] |}.

Definition partitioned (scope : TenantScope) : bool := sc_org_mode scope || sc_personal scope.
Definition partitioned_for (scope : TenantScope) (resource : PersonalResource) : bool :=
  sc_org_mode scope || (sc_personal scope && bool_decide (resource ∈ sc_personal_resources scope)).
Definition for_resource (scope : TenantScope) (resource : PersonalResource) : TenantScope :=
  if partitioned_for scope resource then scope else LOCAL_SCOPE.

Definition partitions_store (scope : TenantScope) (store : string) : bool :=
  match STORE_RESOURCE store with None => partitioned scope | Some r => partitioned_for scope r end.
Definition partitions_model (scope : TenantScope) (table : string) : bool :=
  match MODEL_RESOURCE table with None => partitioned scope | Some r => partitioned_for scope r end.

Section Scopes.
Context (settings : AppSettings).

Definition tenant_scope_required : bool := tenancy_org settings || trust_identity_headers settings.

(** [scope_for_identity]. *)
Definition scope_for_identity (org_id user_id : option string) : TenantScope :=
  if tenancy_org settings then {|
    sc_org_mode := true; sc_org_id := org_id; sc_user_id := user_id; sc_personal := false; sc_personal_resources := [] |}
  else if trust_identity_headers settings && truthy_opt org_id then {|
    sc_org_mode := false; sc_org_id := org_id; sc_user_id := user_id; sc_personal := true;
    sc_personal_resources := personal_resources settings |}
  else LOCAL_SCOPE.

(** [scope_from_principal]. *)
Definition scope_from_principal (principal : option Principal) : TenantScope :=
  match principal with
  | Some p => scope_for_identity (Some (p_org_id p)) (Some (p_user_id p))
  | None =>
      if tenancy_org settings then {|
        sc_org_mode := true; sc_org_id := None; sc_user_id := None; sc_personal := false; sc_personal_resources := [] |}
      else LOCAL_SCOPE
  end.

(** [scope_for_org]. *)
Definition scope_for_org (org_id : option string) : TenantScope :=
  match org_id with None => LOCAL_SCOPE | Some _ => scope_for_identity org_id None end.

(** [scope_for_background_context]. *)
Definition scope_for_background_context : exn + TenantScope :=
  if tenancy_org settings then inl (MissingTenantScopeError "background conversation") else inr LOCAL_SCOPE.

(** [service_principal_for]. *)
Definition service_principal_for (org_id user_id : option string) : exn + option Principal :=
  let personal_schedules := trust_identity_headers settings && bool_decide (SCHEDULES ∈ personal_resources settings) in
  if negb (tenancy_org settings) && negb personal_schedules then inr None
  else
    match org_id, user_id with
    | Some org_id, Some user_id =>
        if truthy org_id && truthy user_id
        then inr (Some {| p_user_id := user_id; p_org_id := org_id; p_email := ""; p_roles := ∅ |})
        else inl (MissingTenantScopeError "service principal")
    | _, _ => inl (MissingTenantScopeError "service principal")
    end.

(** ** Folders *)

Definition path : Type := list string.

(** [os.path.basename]: what follows the last slash. *)
Definition basename (s : string) : string := default "" (list.last (split_char (chr 47) s)).

(** [storage_segment]. *)
Definition storage_segment (what value : string) : exn + string :=
  let segment := basename value in
  if negb (String.eqb segment value) || bool_decide (segment ∈ [""; "."; ".."]) || str_contains (String.String cBackslash "") segment
  then inl (ValueError what) else inr segment.

(** [scoped_storage_root]. *)
Definition scoped_storage_root (base : path) (scope : option TenantScope) (store : string) : exn + path :=
  match scope with
  | None => if tenant_scope_required then inl (MissingTenantScopeError store) else inr base
  | Some scope =>
      if negb (partitions_store scope store) then inr base
      else
        match sc_org_id scope with
        | Some org_id =>
            if truthy org_id then
              match storage_segment "partition" org_id with
              | inl e => inl e
              | inr partition =>
                  match storage_segment "store" store with
                  | inl e => inl e
                  | inr store => inr (shared_root settings ++ [partition; store])
                  end
              end
            else inl (MissingTenantScopeError "organization")
        | None => inl (MissingTenantScopeError "organization")
        end
  end.

Definition USER_STORE_TIER_SEGMENT : string := "users".
Definition user_store_tiers_segments (partition store : string) : path := [partition; store; USER_STORE_TIER_SEGMENT].
Definition user_store_segments (partition user_id store : string) : path :=
  user_store_tiers_segments partition store ++ [user_id].

(** [scoped_user_storage_root]. *)
Definition scoped_user_storage_root (base : path) (scope : option TenantScope) (store : string) : exn + path :=
  match scope with
  | None => if tenant_scope_required then inl (MissingTenantScopeError store) else inr base
  | Some scope =>
      if negb (partitions_store scope store) then inr base
      else
        match sc_user_id scope with
        | Some user_id =>
            if truthy user_id then
              match storage_segment "user" user_id with
              | inl e => inl e
              | inr user_id =>
                  match scoped_storage_root base (Some scope) store with
                  | inl e => inl e
                  | inr _ =>
                      match storage_segment "partition" (default "" (sc_org_id scope)) with
                      | inl e => inl e
                      | inr partition => inr (shared_root settings ++ user_store_segments partition user_id store)
                      end
                  end
              end
            else inl (MissingTenantScopeError "user")
        | None => inl (MissingTenantScopeError "user")
        end
  end.

End Scopes.
