(* ===== verification/TenantRoots.v ===== *)
(** * From a request to its folders.

    What the middleware lets through ([Identity]) and where the storage of such a
    request lies ([TenantScope]), together: the identity is the gateway's, and
    the folders of two organizations, or of two people, have no path in common. *)
From stdpp Require Import base list gmap strings option.
From Stdlib Require Import ZArith Lia.
From S2P Require Import Prelude JsonText Uuid Identity TenantScope.

(** ** Names that stay in their folder *)

Definition no_char (c : Ascii.ascii) : string → bool := str_forall (λ d, negb (Ascii.eqb d c)).

(** One name: it cannot leave the folder it is joined to. *)
Definition plain_name (s : string) : Prop :=
  no_char (chr 47) s = true ∧ s ≠ "" ∧ s ≠ "." ∧ s ≠ "..".

Lemma split_no_char c s : ∀ piece, no_char c piece = true → Forall (λ x, no_char c x = true) (split_from c piece s).
Proof.
  induction s as [|d s IH]; intros piece Hp; cbn; [by constructor|].
  destruct (Ascii.eqb_spec d c) as [-> | Hd]; [constructor; [done|by apply IH]|].
  apply IH. unfold no_char. rewrite str_forall_app. fold (no_char c piece). rewrite Hp. cbn.
  destruct (Ascii.eqb_spec d c); done.
Qed.

Lemma basename_no_slash s : no_char (chr 47) (basename s) = true.
Proof.
  unfold basename. pose proof (split_no_char (chr 47) s "" eq_refl) as H. fold (split_char (chr 47) s) in H.
  destruct (list.last (split_char (chr 47) s)) as [x|] eqn:E; [|done]. cbn.
  apply last_Some_elem_of in E. rewrite list.Forall_forall in H. by apply H.
Qed.

Lemma storage_segment_inr what value s : storage_segment what value = inr s → s = value ∧ plain_name value.
Proof.
  unfold storage_segment. destruct (String.eqb_spec (basename value) value) as [E|]; [|done]. cbn [negb orb].
  destruct (bool_decide (basename value ∈ [""; "."; ".."])) eqn:B; [done|]. apply bool_decide_eq_false in B.
  destruct (str_contains _ _); [done|]. intros [= <-]. split; [done|]. rewrite E in B.
  split; [rewrite <-E; apply basename_no_slash|]. set_solver.
Qed.

(** A UUID is such a name. *)
Lemma split_absent c s : no_char c s = true → ∀ piece, split_from c piece s = [String.append piece s].
Proof.
  unfold no_char. induction s as [|d s IH]; intros H piece; cbn; [by rewrite append_empty_r|].
  cbn in H. apply andb_true_iff in H as [Hd%negb_true_iff H]. rewrite Hd, (IH H), append_assoc. done.
Qed.

Lemma contains_absent c s : no_char c s = true → str_contains (String.String c "") s = false.
Proof.
  unfold no_char. induction s as [|d s IH]; [done|]. cbn. intros [Hd%negb_true_iff H]%andb_true_iff.
  rewrite IH by done. destruct (Ascii.eqb_spec c d) as [->|]; [|done]. by rewrite Ascii.eqb_refl in Hd.
Qed.

Lemma storage_segment_uuid what text t : uuid_text text = Some t → storage_segment what t = inr t.
Proof.
  intros H. unfold storage_segment, basename, split_char.
  assert (Hc : ∀ c, lower_hex c = false → c ≠ chr 45 → no_char c t = true).
  { intros c Hc Hd. apply (uuid_text_chars _ text); [done| |].
    - intros d Hx. destruct (Ascii.eqb_spec d c) as [->|]; [congruence|done].
    - destruct (Ascii.eqb_spec (chr 45) c) as [E|]; [by destruct Hd|done]. }
  rewrite split_absent by (by apply Hc). cbn. rewrite append_nil, String.eqb_refl. cbn [negb orb].
  rewrite contains_absent by (by apply Hc). rewrite orb_false_r.
  destruct (bool_decide (t ∈ [""; "."; ".."])) eqn:B; [|done]. exfalso. apply bool_decide_eq_true in B.
  assert (Hdot : no_char (chr 46) t = true) by (by apply Hc). pose proof (uuid_text_nonempty _ _ H).
  apply elem_of_cons in B as [-> | [-> | [-> | []%not_elem_of_nil]%elem_of_cons]%elem_of_cons]; done.
Qed.

(** ** The identity of a request *)

Section Requests.
Context {IE : IdentityEnv}.

(** A header that is there and not empty. *)
Definition has_header (rq : Request) (name : string) : Prop := ∃ v, header rq name = Some v ∧ v ≠ "".

(** Why a request may pass without a principal. *)
Inductive anonymous (settings : AppSettings) (rq : Request) : Prop :=
  (** Neither organization tenancy nor trusted headers: no identity is asked for. *)
  | desktop_mode : tenancy_org settings = false → trust_identity_headers settings = false → anonymous settings rq
  (** The browser's question before a cross-origin request. *)
  | cors_preflight : rq_method rq = "OPTIONS" → has_header rq "origin" →
      has_header rq "access-control-request-method" → anonymous settings rq
  | exempt_path : rq_path rq ∈ EXEMPT_PATHS ∨ rq_path rq ∈ exempt_paths settings → anonymous settings rq
  (** With trusted headers, a page outside the API, by a path without dot segments. *)
  | outside_api : trust_identity_headers settings = true → str_starts "/api/" (rq_path rq) = false →
      (∀ segment, segment ∈ split_char (chr 47) (rq_path rq) → segment ≠ "." ∧ segment ≠ "..") → anonymous settings rq
  (** Identity is not enforced and the headers do not name a user and an
      organization; with trusted headers they are not there at all. *)
  | audit_mode : identity_enforce settings = false →
      header_uuid rq HEADER_USER_ID = None ∨ header_uuid rq HEADER_ORG_ID = None →
      (trust_identity_headers settings = true → header rq HEADER_USER_ID = None ∧ header rq HEADER_ORG_ID = None) →
      anonymous settings rq.

(** A request of a browser page: its bearer credential is a token of three parts
    with a JOSE header, and not an API key. *)
Definition browser_page (rq : Request) : Prop :=
  ∃ authorization credential a b c, header rq "Authorization" = Some authorization ∧
    bearer_of (str_strip authorization) = Some credential ∧ str_starts "mdb_" (str_lower credential) = false ∧
    split_char (chr 46) credential = [a; b; c] ∧ a ≠ "" ∧ b ≠ "" ∧ c ≠ "" ∧ has_jose_header a = true.

Lemma browser_page_seen rq : browser_page rq → is_browser_jwt_request rq = true.
Proof.
  intros (auth & cred & a & b & c & Ha & Hb & Hm & Hs & Hna & Hnb & Hnc & Hj). unfold is_browser_jwt_request.
  rewrite Ha. change (default "" (Some auth)) with auth. rewrite Hb, Hm. destruct (truthy cred) eqn:T.
  - cbn. by rewrite Hs, (proj2 (truthy_ne a)), (proj2 (truthy_ne b)), (proj2 (truthy_ne c)).
  - destruct cred; [|done]. vm_compute in Hs. done.
Qed.

Lemma preflight_iff rq :
  preflight rq = true → rq_method rq = "OPTIONS" ∧ has_header rq "origin" ∧ has_header rq "access-control-request-method".
Proof.
  unfold preflight, has_header, truthy_opt. rewrite !andb_true_iff, String.eqb_eq. intros [[Hm Ho] Ha]. split; [done|].
  destruct (header rq "origin") as [o|]; [|done]. destruct (header rq "access-control-request-method") as [m|]; [|done].
  split; eexists; (split; [done|]); by apply truthy_ne.
Qed.

Lemma plain_segments p :
  dotted_path p = false → ∀ segment, segment ∈ split_char (chr 47) p → segment ≠ "." ∧ segment ≠ "..".
Proof.
  unfold dotted_path. intros H segment Hin.
  assert (E : (String.eqb segment "." || String.eqb segment "..") = false).
  { destruct (_ || _) eqn:E; [|done]. exfalso. apply not_true_iff_false in H. apply H, existsb_exists.
    exists segment. split; [by apply list_elem_of_In|done]. }
  apply orb_false_iff in E as [E1%String.eqb_neq E2%String.eqb_neq]. done.
Qed.

(** The principal of a request, from its headers. *)
Definition principal_of (settings : AppSettings) (rq : Request) (p : Principal) : Prop :=
  ∃ user org, header_uuid rq HEADER_USER_ID = Some user ∧ header_uuid rq HEADER_ORG_ID = Some org ∧
    p_user_id p = user ∧ p_org_id p = (if trust_identity_headers settings then uuid5 org user else org) ∧
    (trust_identity_headers settings = false → browser_page rq →
       ∃ supplied, header rq HEADER_EXPECTED_ORG_ID = Some supplied ∧ uuid_text (str_strip supplied) = Some org).

Lemma boundary_passes rq org :
  organization_boundary_response rq org = None → is_browser_jwt_request rq = true →
  ∃ supplied, header rq HEADER_EXPECTED_ORG_ID = Some supplied ∧ uuid_text (str_strip supplied) = Some org.
Proof.
  unfold organization_boundary_response. intros H Hb. rewrite Hb in H. cbn in H.
  destruct (header rq HEADER_EXPECTED_ORG_ID) as [supplied|]; [|done]. exists supplied. split; [done|].
  destruct (truthy (str_strip supplied)); [|done]. cbn in H.
  destruct (uuid_text (str_strip supplied)) as [x|]; [|done].
  destruct (String.eqb x org) eqn:E; [|done]. apply String.eqb_eq in E. by subst.
Qed.

Lemma header_uuid_canonical rq name t : header_uuid rq name = Some t → uuid_text t = Some t.
Proof. apply uuid_text_canonical. Qed.

Lemma partition_id org user t u :
  uuid_text t = Some org → uuid_text u = Some user → personal_partition_id org user = Some (uuid5 org user).
Proof.
  intros Ho Hu. unfold personal_partition_id. by rewrite (uuid_text_canonical _ _ Ho), (uuid_text_canonical _ _ Hu).
Qed.

Lemma boundary_not_next rq org p : organization_boundary_response rq org ≠ Some (Next p).
Proof. unfold organization_boundary_response. repeat case_match; congruence. Qed.

Lemma unnamed (enforce : bool) rq principal :
  (if enforce || (bool_decide (is_Some (header rq HEADER_USER_ID)) || bool_decide (is_Some (header rq HEADER_ORG_ID)))
   then Answer 401 None else Next None) = Next principal →
  principal = None ∧ enforce = false ∧ header rq HEADER_USER_ID = None ∧ header rq HEADER_ORG_ID = None.
Proof.
  destruct enforce; [done|]. cbn [orb]. destruct (header rq HEADER_USER_ID), (header rq HEADER_ORG_ID); cbn; try done.
  by intros [= <-].
Qed.

Lemma admit_cases settings rq principal :
  admit_request settings rq = Next principal →
  match principal with Some p => principal_of settings rq p | None => anonymous settings rq end.
Proof.
  unfold admit_request. destruct (tenancy_org settings || trust_identity_headers settings) eqn:M.
  2: { intros [= <-]. apply orb_false_iff in M as [M1 M2]. by apply desktop_mode. }
  unfold dispatch. destruct (preflight rq) eqn:Hp.
  { intros [= <-]. apply preflight_iff in Hp as (? & ? & ?). by apply cors_preflight. }
  destruct (bool_decide (rq_path rq ∈ EXEMPT_PATHS)) eqn:B1.
  { apply bool_decide_eq_true in B1. intros [= <-]. apply exempt_path. by left. }
  destruct (bool_decide (rq_path rq ∈ exempt_paths settings)) eqn:B2; cbn [orb].
  { apply bool_decide_eq_true in B2. intros [= <-]. apply exempt_path. by right. }
  destruct (trust_identity_headers settings) eqn:T; cbn [andb].
  - destruct (dotted_path (rq_path rq)) eqn:D; [done|]. destruct (str_starts "/api/" (rq_path rq)) eqn:S; cbn [negb].
    2: { intros [= <-]. apply outside_api; [done|done|by apply plain_segments]. }
    destruct (header_uuid rq HEADER_USER_ID) as [user|] eqn:U.
    + destruct (header_uuid rq HEADER_ORG_ID) as [org|] eqn:O.
      * rewrite (partition_id org user _ _ O U). intros [= <-]. exists user, org. by rewrite T.
      * intros H. apply unnamed in H as (-> & En & Hu & Ho). apply audit_mode; [done|by right|done].
    + intros H. apply unnamed in H as (-> & En & Hu & Ho). apply audit_mode; [done|by left|done].
  - destruct (header_uuid rq HEADER_USER_ID) as [user|] eqn:U; [destruct (header_uuid rq HEADER_ORG_ID) as [org|] eqn:O|].
    + destruct (organization_boundary_response rq org) as [a|] eqn:B.
      { intros ->. by apply boundary_not_next in B. }
      intros [= <-]. exists user, org. rewrite T. repeat split; try done. intros _ Hb. apply boundary_passes; [done|by apply browser_page_seen].
    + rewrite orb_false_r. destruct (identity_enforce settings) eqn:En; [done|]. intros [= <-].
      apply audit_mode; [done|by right|congruence].
    + rewrite orb_false_r. destruct (identity_enforce settings) eqn:En; [done|]. intros [= <-].
      apply audit_mode; [done|by left|congruence].
Qed.

(** C21: The identity of a request is the gateway's: a principal is the pair of
    UUIDs in the identity headers, or with trusted headers the partition derived
    from it; without trusted headers a browser page is served only when it names
    that very organization.  Without a principal a request passes only in one of
    the five cases of [anonymous]: there is neither organization tenancy nor
    trusted headers (the desktop), it is a cross-origin preflight, its path is
    exempt, it is a page outside the API under trusted headers, or identity is not
    enforced and the headers do not name a user and an organization
    ([TrustedHeaderMiddleware.dispatch], [_organization_boundary_response]). *)
Theorem admitted_identity settings rq principal :
  admit_request settings rq = Next principal →
  match principal with Some p => principal_of settings rq p | None => anonymous settings rq end.
Proof. apply admit_cases. Qed.

(** ** Folders *)

(** A store's folder, the organization's or a person's. *)
Definition store_root (settings : AppSettings) (base : path) (scope : TenantScope) (user_tier : bool) (store : string) : exn + path :=
  if user_tier then scoped_user_storage_root settings base (Some scope) store
  else scoped_storage_root settings base (Some scope) store.

Definition tier_of (scope : TenantScope) (user_tier : bool) (store : string) : path :=
  if user_tier then [store; USER_STORE_TIER_SEGMENT; default "" (sc_user_id scope)] else [store].

Lemma store_root_inr settings base scope user_tier store r :
  store_root settings base scope user_tier store = inr r → partitions_store scope store = true →
  ∃ org, sc_org_id scope = Some org ∧ plain_name org ∧ plain_name store ∧
    (user_tier = true → plain_name (default "" (sc_user_id scope))) ∧
    r = shared_root settings ++ org :: tier_of scope user_tier store.
Proof.
  intros H Hs.
  assert (Horg : ∀ r, scoped_storage_root settings base (Some scope) store = inr r →
    ∃ org, sc_org_id scope = Some org ∧ plain_name org ∧ plain_name store ∧ r = shared_root settings ++ [org; store]).
  { intros r'. unfold scoped_storage_root. rewrite Hs. cbn [negb]. destruct (sc_org_id scope) as [org|]; [|done].
    destruct (truthy org); [|done]. destruct (storage_segment "partition" org) as [|a] eqn:Ea; [done|].
    destruct (storage_segment "store" store) as [|b] eqn:Eb; [done|]. intros [= <-].
    apply storage_segment_inr in Ea as [-> Ha], Eb as [-> Hb]. by exists org. }
  unfold store_root in H. destruct user_tier.
  - unfold scoped_user_storage_root in H. rewrite Hs in H. cbn [negb] in H.
    destruct (sc_user_id scope) as [user|] eqn:U; [|done]. destruct (truthy user); [|done].
    destruct (storage_segment "user" user) as [|u] eqn:Eu; [done|]. apply storage_segment_inr in Eu as [-> Hu].
    destruct (scoped_storage_root settings base (Some scope) store) as [|r'] eqn:Er; [done|].
    destruct (Horg _ eq_refl) as (org & Ho & Hpo & Hps & _). rewrite Ho in H. cbn in H.
    destruct (storage_segment "partition" org) as [|a] eqn:Ea; [done|]. apply storage_segment_inr in Ea as [-> _].
    injection H as <-. exists org. split; [done|]. split; [done|]. split; [done|]. split; [by intros _|].
    unfold tier_of. by rewrite U.
  - destruct (Horg r H) as (org & Ho & Hpo & Hps & ->). by exists org.
Qed.

Lemma prefix_common (a p : path) (x y : string) (s t : path) :
  (a ++ x :: s) `prefix_of` p → (a ++ y :: t) `prefix_of` p → x = y.
Proof.
  intros [k ->] [k' E]. rewrite <-!app_assoc in E. apply app_inv_head in E. cbn in E. congruence.
Qed.

(** The scope of an admitted request. *)
Lemma scope_of_principal settings rq p :
  admit_request settings rq = Next (Some p) →
  tenancy_org settings || trust_identity_headers settings = true ∧
  scope_from_principal settings (Some p) = scope_for_identity settings (Some (p_org_id p)) (Some (p_user_id p)) ∧
  sc_org_id (scope_from_principal settings (Some p)) = Some (p_org_id p) ∧
  sc_user_id (scope_from_principal settings (Some p)) = Some (p_user_id p) ∧
  uuid_text (p_org_id p) = Some (p_org_id p) ∧ uuid_text (p_user_id p) = Some (p_user_id p).
Proof.
  intros H. destruct (admit_cases _ _ _ H) as (user & org & Hu & Ho & Eu & Eo & _).
  assert (M : tenancy_org settings || trust_identity_headers settings = true).
  { unfold admit_request in H. by destruct (tenancy_org settings || trust_identity_headers settings). }
  assert (Huo : uuid_text (p_org_id p) = Some (p_org_id p)).
  { rewrite Eo. destruct (trust_identity_headers settings); [apply uuid5_uuid|by apply header_uuid_canonical in Ho]. }
  assert (Huu : uuid_text (p_user_id p) = Some (p_user_id p)) by (rewrite Eu; by apply header_uuid_canonical in Hu).
  split; [done|]. split; [done|]. cbn. unfold scope_for_identity. destruct (tenancy_org settings); [done|].
  cbn in M. rewrite M. cbn. by rewrite (uuid_text_nonempty _ _ Huo).
Qed.

(** The names the server uses for its stores. *)
Definition valid_store (store : string) : Prop :=
  plain_name store ∧ str_contains (String.String cBackslash "") store = false.

Lemma request_store_root settings rq p base user_tier store :
  admit_request settings rq = Next (Some p) → valid_store store →
  partitions_store (scope_from_principal settings (Some p)) store = true →
  store_root settings base (scope_from_principal settings (Some p)) user_tier store =
    inr (shared_root settings ++ p_org_id p :: tier_of (scope_from_principal settings (Some p)) user_tier store).
Proof.
  intros H [(Hc & He & Hd & Hdd) Hb] Hs. destruct (scope_of_principal _ _ _ H) as (_ & _ & Ho & Hu & Huo & Huu).
  assert (Est : ∀ what, storage_segment what store = inr store).
  { intros what. unfold storage_segment, basename, split_char. rewrite split_absent by done. cbn.
    rewrite append_nil, String.eqb_refl, Hb. cbn [negb orb]. rewrite bool_decide_false by set_solver. done. }
  assert (Hroot : scoped_storage_root settings base (Some (scope_from_principal settings (Some p))) store =
    inr (shared_root settings ++ [p_org_id p; store])).
  { unfold scoped_storage_root. rewrite Hs. cbn [negb]. rewrite Ho, (uuid_text_nonempty _ _ Huo).
    by rewrite (storage_segment_uuid _ _ _ Huo), Est. }
  destruct user_tier; [|exact Hroot]. unfold store_root, scoped_user_storage_root. rewrite Hs. cbn [negb].
  rewrite Hu, (uuid_text_nonempty _ _ Huu), (storage_segment_uuid _ _ _ Huu), Hroot, Ho. cbn [default].
  rewrite (storage_segment_uuid _ _ _ Huo). unfold tier_of. by rewrite Hu.
Qed.

(** C20: Each partitioned store of a request with a principal is the folder of its
    own id below the shared root, made of plain names that no header can make lead
    elsewhere; it is never refused.  Requests of different organizations, or of
    different people where identity headers are trusted, have no path in common:
    no folder is below the roots of both, whatever the stores.  The same holds of
    the personal folders of two people in one organization
    ([scoped_storage_root], [scoped_user_storage_root]). *)
Theorem request_storage_disjoint settings rq1 rq2 p1 p2 base tier1 tier2 store1 store2 :
  admit_request settings rq1 = Next (Some p1) → admit_request settings rq2 = Next (Some p2) →
  valid_store store1 → valid_store store2 →
  partitions_store (scope_from_principal settings (Some p1)) store1 = true →
  partitions_store (scope_from_principal settings (Some p2)) store2 = true →
  ∃ r1 r2 names,
    store_root settings base (scope_from_principal settings (Some p1)) tier1 store1 = inr r1 ∧
    store_root settings base (scope_from_principal settings (Some p2)) tier2 store2 = inr r2 ∧
    r1 = shared_root settings ++ p_org_id p1 :: names ∧ Forall plain_name (p_org_id p1 :: names) ∧
    (p_org_id p1 ≠ p_org_id p2 → ∀ p, ¬ (r1 `prefix_of` p ∧ r2 `prefix_of` p)) ∧
    (tier1 = true → tier2 = true → p_user_id p1 ≠ p_user_id p2 → ∀ p, ¬ (r1 `prefix_of` p ∧ r2 `prefix_of` p)).
Proof.
  intros H1 H2 Hv1 Hv2 Hs1 Hs2.
  pose proof (request_store_root _ _ _ base tier1 store1 H1 Hv1 Hs1) as Hr1.
  pose proof (request_store_root _ _ _ base tier2 store2 H2 Hv2 Hs2) as Hr2.
  destruct (store_root_inr _ _ _ _ _ _ Hr1 Hs1) as (o1 & Ho1 & Hp1 & Hst1 & Hu1 & _).
  destruct (scope_of_principal _ _ _ H1) as (_ & _ & Eo1 & Eu1 & _).
  destruct (scope_of_principal _ _ _ H2) as (_ & _ & _ & Eu2 & _).
  rewrite Eo1 in Ho1. injection Ho1 as <-. eexists _, _, _. split; [exact Hr1|]. split; [exact Hr2|].
  split; [reflexivity|]. split; [|split].
  - constructor; [done|]. unfold tier_of. destruct tier1.
    + constructor; [done|]. constructor; [by vm_compute|]. constructor; [by apply Hu1|done].
    + by constructor.
  - intros Hne p [Ha Hb]. apply Hne. eapply prefix_common; [exact Ha|exact Hb].
  - intros -> -> Hne p [[ka ->] [kb Hb]]. unfold tier_of in Hb. rewrite Eu1, Eu2 in Hb. cbn in Hb.
    rewrite <-!app_assoc in Hb. apply app_inv_head in Hb. cbn in Hb. by injection Hb as _ _ ?.
Qed.

End Requests.

(** ** Two people of one organization, and two organizations *)

#[local] Instance demo_identity : IdentityEnv.
Proof.
  refine {| uuid5 := λ n u, match uuid_text u with Some t => t | None => "00000000-0000-0000-0000-000000000000" end;
            loads_bytes := loads |}.
  intros n u. destruct (uuid_text u) as [t|] eqn:E; [by apply uuid_text_canonical in E|]. vm_compute. reflexivity.
Defined.

Definition demo_settings : AppSettings := {|
  tenancy_org := true; trust_identity_headers := false; identity_enforce := true; personal_resources := [];
  shared_root := ["mnt"; "cowork-shared"]; exempt_paths := [] |}.

Definition demo_request (user org : string) : Request := {|
  rq_method := "GET"; rq_path := "/api/v1/projects"; rq_headers := [("x-user-id", user); ("x-organization-id", org)] |}.
Definition org_a : string := "6BA7B810-9DAD-11D1-80B4-00C04FD430C8".
Definition org_b : string := "6ba7b811-9dad-11d1-80b4-00c04fd430c8".
Definition demo_principal (org : string) : Principal := {|
  p_user_id := "6ba7b812-9dad-11d1-80b4-00c04fd430c8"; p_org_id := str_lower org; p_email := ""; p_roles := ∅ |}.

Lemma demo_admitted org :
  org = org_a ∨ org = org_b →
  admit_request demo_settings (demo_request "6ba7b812-9dad-11d1-80b4-00c04fd430c8" org) = Next (Some (demo_principal org)).
Proof. intros [-> | ->]; vm_compute; reflexivity. Qed.

Lemma admitted_identity_witness :
  ∃ p, admit_request demo_settings (demo_request "6ba7b812-9dad-11d1-80b4-00c04fd430c8" org_a) = Next (Some p) ∧
    principal_of demo_settings (demo_request "6ba7b812-9dad-11d1-80b4-00c04fd430c8" org_a) p.
Proof.
  exists (demo_principal org_a). split; [apply demo_admitted; by left|].
  apply (admitted_identity demo_settings _ (Some (demo_principal org_a))). apply demo_admitted. by left.
Defined.

Lemma request_storage_disjoint_witness :
  ∃ r1 r2, store_root demo_settings [] (scope_from_principal demo_settings (Some (demo_principal org_a))) false "projects" = inr r1 ∧
    store_root demo_settings [] (scope_from_principal demo_settings (Some (demo_principal org_b))) true "memory" = inr r2 ∧
    ∀ p, ¬ (r1 `prefix_of` p ∧ r2 `prefix_of` p).
Proof.
  destruct (request_storage_disjoint demo_settings _ _ _ _ [] false true "projects" "memory"
    (demo_admitted org_a (or_introl eq_refl)) (demo_admitted org_b (or_intror eq_refl)))
    as (r1 & r2 & names & Hr1 & Hr2 & _ & _ & Hd & _).
  - split; [repeat split|]; by vm_compute.
  - split; [repeat split|]; by vm_compute.
  - vm_compute. reflexivity.
  - vm_compute. reflexivity.
  - exists r1, r2. split; [exact Hr1|]. split; [exact Hr2|]. apply Hd. by vm_compute.
Defined.
