(* ===== verification/ScopedSession.v ===== *)
(** * The tenant-scoped database session ([src/cowork/db/scoped.py]).

    [ScopedSession] wraps the session every service uses: it filters what is
    read, stamps what is added, and checks every flush.  The session below it is
    modelled as SQLAlchemy's: rows of the transaction, an identity map of loaded
    objects that callers may change at will, new and deleted objects, the
    objects its relationships load, delete and add without going through the
    wrapper, flushes that may happen at any time, commit and rollback. *)
From stdpp Require Import base list gmap strings option relations.
From Stdlib Require Import ZArith Lia.
From S2P Require Import Prelude JsonText Uuid Identity TenantScope.

(** ** Tables and rows *)

Record Row := {
  row_org : option string;
  row_created_by : option string;
  row_data : json;
}.

#[export] Instance fields_Row : Fields Row := λ r, {|
  row_org := row_org r; row_created_by := row_created_by r; row_data := row_data r |}.

(** What the models declare: an [org_id] column, one typed as a UUID, a
    [created_by] column. *)
Class Schema := {
  has_org : string → bool;
  org_is_uuid : string → bool;
  has_created_by : string → bool;
}.

(** A row's table and primary key. *)
Abbreviation rowkey := (string * string)%type.

Record DbSession := {
  se_committed : gmap rowkey Row;
  se_db : gmap rowkey Row;         (* as the open transaction sees it *)
  se_loaded : gmap rowkey Row;     (* the identity map *)
  se_new : gmap rowkey Row;
  se_dirty : gset rowkey;
  se_deleted : gset rowkey;
  se_handed : gset rowkey;         (* loaded objects the wrapper gave to a caller *)
  se_related : gset rowkey;        (* loaded objects a caller reached through a relationship *)
}.

#[export] Instance fields_DbSession : Fields DbSession := λ s, {|
  se_committed := se_committed s; se_db := se_db s; se_loaded := se_loaded s; se_new := se_new s;
  se_dirty := se_dirty s; se_deleted := se_deleted s; se_handed := se_handed s; se_related := se_related s |}.

Definition open_session (rows : gmap rowkey Row) : DbSession := {|
  se_committed := rows; se_db := rows; se_loaded := ∅; se_new := ∅; se_dirty := ∅; se_deleted := ∅; se_handed := ∅;
  se_related := ∅ |}.

Abbreviation ss := (eff DbSession).

Section Scoped.
Context {SC : Schema} (scope : TenantScope).

Definition TENANCY_DEFERRED_TABLES : list string := ["settings"].

(** [_is_org_scoped]. *)
Definition is_org_scoped (table : string) : bool :=
  if bool_decide (table ∈ TENANCY_DEFERRED_TABLES) then false else has_org table.

(** [_partitions]. *)
Definition partitions (table : string) : exn + bool :=
  if negb (is_org_scoped table && partitions_model scope table) then inr false
  else match sc_org_id scope with None => inl (MissingTenantScopeError table) | Some _ => inr true end.

(** [_org_id_for], called where [partitions] said yes. *)
Definition org_id_for (table : string) : exn + string :=
  let org_id := default "" (sc_org_id scope) in
  if negb (org_is_uuid table) then inr org_id
  else match uuid_text org_id with Some org_id => inr org_id | None => inl (TenantMismatchError table) end.

(** The organization that keys the rows of a table, where the scope keys them. *)
Definition key_org (table : string) : exn + option string :=
  match partitions table with
  | inl e => inl e
  | inr false => inr None
  | inr true => match org_id_for table with inl e => inl e | inr org => inr (Some org) end
  end.

Definition lift {A} (r : exn + A) : ss A := match r with inl e => raise e | inr a => mret a end.

(** Stamp or reject a row. *)
Definition stamp_org (table : string) (row : Row) : exn + Row :=
  match key_org table with
  | inl e => inl e
  | inr None => inr row
  | inr (Some org) =>
      match row_org row with
      | None => inr (row <| row_org := Some org |>)
      | Some o => if String.eqb o org then inr row else inl (TenantMismatchError table)
      end
  end.

Definition stamp_author (table : string) (row : Row) : Row :=
  if truthy_opt (sc_user_id scope) && has_created_by table && bool_decide (row_created_by row = None) && partitions_model scope table
  then row <| row_created_by := sc_user_id scope |> else row.

(** A row that may be deleted: of the scope, or of nobody. *)
Definition deletable (table : string) (row : Row) : exn + () :=
  match key_org table with
  | inl e => inl e
  | inr None => inr ()
  | inr (Some org) =>
      match row_org row with
      | None => inr ()
      | Some o => if String.eqb o org then inr () else inl (TenantMismatchError table)
      end
  end.

(** ** The flush *)

(** [_before_flush]: the new and the dirty rows are stamped or rejected, new ones
    get their author, and deleted ones are checked.  The keys are visited in some
    order; the first that fails stops it. *)
Definition stamp_new (k : rowkey) : ss () :=
  s ← gets id;
  match se_new s !! k with
  | None => mret ()
  | Some row =>
      row ← lift (stamp_org k.1 row);
      modify (λ s, s <| se_new := <[k := row]> (se_new s) |>)
  end.
Definition stamp_dirty (k : rowkey) : ss () :=
  s ← gets id;
  match se_loaded s !! k with
  | None => mret ()
  | Some row =>
      row ← lift (stamp_org k.1 row);
      modify (λ s, s <| se_loaded := <[k := row]> (se_loaded s) |>)
  end.
Definition stamp_new_author (k : rowkey) : ss () :=
  modify (λ s, s <| se_new := alter (stamp_author k.1) k (se_new s) |>).
Definition check_deleted (k : rowkey) : ss () :=
  s ← gets id;
  match se_loaded s !! k with
  | None => mret ()
  | Some row => lift (deletable k.1 row)
  end.
Definition before_flush (news dirty deleted : list rowkey) : ss () :=
  for_each news stamp_new;;
  for_each dirty stamp_dirty;;
  for_each news stamp_new_author;;
  for_each deleted check_deleted.

(** The statements of a flush: inserts, updates, deletes. *)
Definition write_rows (s : DbSession) : DbSession :=
  s <| se_db := filter (λ kr : rowkey * Row, kr.1 ∉ se_deleted s)
                  (se_new s ∪ (filter (λ kr : rowkey * Row, kr.1 ∈ se_dirty s) (se_loaded s) ∪ se_db s)) |>
    <| se_loaded := filter (λ kr : rowkey * Row, kr.1 ∉ se_deleted s) (se_new s ∪ se_loaded s) |>
    <| se_handed := (se_handed s ∪ dom (se_new s)) ∖ se_deleted s |>
    <| se_related := se_related s ∖ se_deleted s |>
    <| se_new := ∅ |> <| se_dirty := ∅ |> <| se_deleted := ∅ |>.

Definition scoped_flush : ss () :=
  s ← gets id;
  before_flush (elements (dom (se_new s))) (elements (se_dirty s)) (elements (se_deleted s));;
  s ← gets id;
  raise_if (negb (bool_decide ((dom (se_new s) : gset rowkey) ## dom (se_db s)))) (IntegrityError "primary key");;
  modify write_rows.

(** ** Operations *)

(** Rows read from the database become objects, unless they are already. *)
Definition load_rows (rows : gmap rowkey Row) (s : DbSession) : DbSession :=
  s <| se_loaded := se_loaded s ∪ rows |>.
Definition hand_out (ks : gset rowkey) (s : DbSession) : DbSession := s <| se_handed := se_handed s ∪ ks |>.

Definition of_org (org : option string) (row : Row) : bool :=
  match org with Some o => bool_decide (row_org row = Some o) | None => true end.

(** [exec(select(model)...)], with the caller's own conditions. *)
Definition scoped_select (table : string) (cond : rowkey → Row → bool) : ss (gset rowkey) :=
  org ← lift (key_org table);
  s ← gets id;
  let rows := filter (λ kr : rowkey * Row, kr.1.1 = table ∧ cond kr.1 kr.2 = true ∧ of_org org kr.2 = true) (se_db s) in
  modify (λ s, hand_out (dom rows) (load_rows rows s));;
  mret (dom rows).

(** [get(model, ident)]: from the identity map, or read. *)
Definition identity_get (k : rowkey) : ss (option Row) :=
  s ← gets id;
  match se_loaded s !! k with
  | Some row => mret (Some row)
  | None =>
      match se_db s !! k with
      | Some row => modify (load_rows {[k := row]});; mret (Some row)
      | None => mret None
      end
  end.
Definition scoped_get (k : rowkey) : ss (option Row) :=
  org ← lift (key_org k.1);
  row ← identity_get k;
  match row with
  | Some row => if of_org org row then modify (hand_out {[k]});; mret (Some row) else mret None
  | None => mret None
  end.

(** [add] of a new object. *)
Definition scoped_add (k : rowkey) (row : Row) : ss () :=
  row ← lift (stamp_org k.1 row);
  modify (λ s, s <| se_new := <[k := stamp_author k.1 row]> (se_new s) |>).

(** [delete] of an object the caller holds. *)
Definition scoped_delete (k : rowkey) : ss () :=
  org ← lift (key_org k.1);
  s ← gets id;
  match se_loaded s !! k with
  | None => raise (InvalidRequestError "not persisted")
  | Some row =>
      raise_if (negb (of_org org row)) (TenantMismatchError k.1);;
      modify (λ s, s <| se_deleted := se_deleted s ∪ {[k]} |>)
  end.

Definition scoped_commit : ss () :=
  scoped_flush;;
  modify (λ s, s <| se_committed := se_db s |>).
(** [rollback]: objects of the transaction are forgotten; loaded ones expire, and
    what a caller still holds is read again from the committed rows. *)
Definition scoped_rollback : ss () :=
  modify (λ s, s <| se_db := se_committed s |>
                 <| se_loaded := filter (λ kr : rowkey * Row, kr.1 ∈ (dom (se_loaded s) : gset rowkey)) (se_committed s) |>
                 <| se_new := ∅ |> <| se_dirty := ∅ |> <| se_deleted := ∅ |>
                 <| se_handed := se_handed s ∩ dom (se_committed s) |>
                 <| se_related := se_related s ∩ dom (se_committed s) |>).

(** [refresh] of an object: its attributes are read again. *)
Definition refresh (k : rowkey) (s : DbSession) : DbSession :=
  match se_loaded s !! k, se_db s !! k with
  | Some _, Some row => s <| se_loaded := <[k := row]> (se_loaded s) |> <| se_dirty := se_dirty s ∖ {[k]} |>
  | _, _ => s
  end.

(** What a service may do between two calls: change any attribute of an object it
    holds, loaded or new. *)
Definition mutate (k : rowkey) (row : Row) (s : DbSession) : DbSession :=
  if bool_decide (k ∈ se_handed s) && bool_decide (is_Some (se_loaded s !! k))
  then s <| se_loaded := <[k := row]> (se_loaded s) |> <| se_dirty := se_dirty s ∪ {[k]} |>
  else s.
Definition mutate_new (k : rowkey) (row : Row) (s : DbSession) : DbSession :=
  s <| se_new := alter (λ _, row) k (se_new s) |>.

(** *** Relationships

    The attributes of a relationship ([Project.schedules], [Schedule.runs]) load
    their rows by foreign key, whatever their organization, and the session
    applies their cascades by itself. *)

Definition rows_of (ks : gset rowkey) (s : DbSession) : gmap rowkey Row :=
  filter (λ kr : rowkey * Row, kr.1 ∈ ks) (se_db s).

(** A relationship is read: its rows become objects the caller holds. *)
Definition follow (ks : gset rowkey) (s : DbSession) : DbSession :=
  (load_rows (rows_of ks s) s) <| se_related := se_related s ∪ dom (rows_of ks s) |>.
(** A change to such an object; its [org_id] is not assigned. *)
Definition mutate_related (k : rowkey) (row : Row) (s : DbSession) : DbSession :=
  match se_loaded s !! k with
  | Some old =>
      if bool_decide (k ∈ se_related s) && bool_decide (row_org row = row_org old)
      then s <| se_loaded := <[k := row]> (se_loaded s) |> <| se_dirty := se_dirty s ∪ {[k]} |> else s
  | None => s
  end.
(** [cascade="all, delete-orphan"]: what is related to a deleted object is loaded
    and deleted with it; what is related to a new one is added with it. *)
Definition cascade_delete (ks : gset rowkey) (s : DbSession) : DbSession :=
  (load_rows (rows_of ks s) s) <| se_deleted := se_deleted s ∪ dom (rows_of ks s) |>.
Definition cascade_new (k : rowkey) (row : Row) (s : DbSession) : DbSession :=
  s <| se_new := <[k := row]> (se_new s) |>.

Inductive session_step : DbSession → DbSession → Prop :=
  | step_select table cond s : session_step s (scoped_select table cond s).1
  | step_get k s : session_step s (scoped_get k s).1
  | step_add k row s : session_step s (scoped_add k row s).1
  | step_delete_row k s : k ∈ se_handed s ∪ se_related s → session_step s (scoped_delete k s).1
  | step_refresh k s : session_step s (refresh k s)
  | step_mutate k row s : session_step s (mutate k row s)
  | step_mutate_new k row s : session_step s (mutate_new k row s)
  | step_follow ks s : session_step s (follow ks s)
  | step_mutate_related k row s : session_step s (mutate_related k row s)
  | step_cascade_delete ks s : session_step s (cascade_delete ks s)
  | step_cascade_new k row s : session_step s (cascade_new k row s)
  | step_flush s : session_step s (scoped_flush s).1
  | step_commit s : session_step s (scoped_commit s).1
  | step_rollback s : session_step s (scoped_rollback s).1.

End Scoped.
