(* ===== verification/TenantIsolation.v ===== *)
(** * No session reaches the rows of another tenant.

    Over every sequence of reads, additions, deletions, changes to the objects a
    service holds, loads and cascades of relationships, flushes, commits and
    rollbacks through one [ScopedSession]: rows of other organizations stay as
    they are and are not handed out by it, and what is written belongs to the
    scope. *)
From stdpp Require Import base list gmap strings option relations.
From Stdlib Require Import ZArith Lia.
From S2P Require Import Prelude JsonText Uuid Identity TenantScope ScopedSession.

Section Isolation.
Context {SC : Schema} (scope : TenantScope).

(** A table whose rows the scope keys by organization. *)
Definition keyed (table : string) : bool := is_org_scoped table && partitions_model scope table.

(** A row of the scope's own organization; in an unkeyed table, any row. *)
Definition owned (table : string) (row : Row) : Prop :=
  match key_org scope table with
  | inl _ => False
  | inr None => True
  | inr (Some o) => row_org row = Some o
  end.

Lemma key_org_keyed table : key_org scope table = inr None ↔ keyed table = false.
Proof.
  unfold key_org, partitions, keyed. destruct (is_org_scoped table && partitions_model scope table); cbn; [|done].
  destruct (sc_org_id scope); cbn; [|done]. by destruct (org_id_for scope table).
Qed.

Lemma of_org_owned table org row : key_org scope table = inr org → of_org org row = true ↔ owned table row.
Proof.
  intros E. unfold owned. rewrite E. destruct org as [o|]; cbn; [|done]. by rewrite bool_decide_eq_true.
Qed.

Lemma stamp_org_owned table row row' : stamp_org scope table row = inr row' → owned table row'.
Proof.
  unfold stamp_org, owned. destruct (key_org scope table) as [|[o|]]; [done| |done].
  destruct (row_org row) as [o'|] eqn:E; [|by intros [= <-]].
  destruct (String.eqb_spec o' o) as [->|]; [|done]. by intros [= <-].
Qed.

Lemma stamp_author_org table row : row_org (stamp_author scope table row) = row_org row.
Proof. unfold stamp_author. by destruct (_ && _). Qed.

Lemma owned_org table row row' : row_org row = row_org row' → owned table row → owned table row'.
Proof. unfold owned. intros <-. done. Qed.

(** ** The hook of a flush *)

(** What [before_flush] may change: attributes of new objects, and of loaded ones
    that have no organization. *)
Definition stamped (r r' : Row) : Prop := row_org r = None ∨ r' = r.

Definition stamps (s s' : DbSession) : Prop :=
  se_committed s' = se_committed s ∧ se_db s' = se_db s ∧ se_dirty s' = se_dirty s ∧ se_deleted s' = se_deleted s ∧
  se_handed s' = se_handed s ∧ dom (se_new s') = dom (se_new s) ∧
  (∀ k, option_Forall2 stamped (se_loaded s !! k) (se_loaded s' !! k)).

Lemma stamped_refl o : option_Forall2 stamped o o.
Proof. destruct o; constructor. by right. Qed.

#[local] Instance stamps_pre : PreOrder stamps.
Proof.
  split; [intros s; repeat split; intros k; apply stamped_refl|].
  intros s1 s2 s3 (A1&A2&A3&A4&A5&A6&A7) (B1&B2&B3&B4&B5&B6&B7).
  repeat split; try congruence. intros k. specialize (A7 k). specialize (B7 k).
  destruct A7 as [r1 r2 HA|]; inversion B7 as [? r3 HB|]; constructor. destruct HA as [?| ->]; [by left|done].
Qed.

Lemma within_lift {A} (r : exn + A) : within stamps (lift r).
Proof. intros s. by destruct r. Qed.

Lemma stamp_org_stamped table row row' : stamp_org scope table row = inr row' → stamped row row'.
Proof.
  unfold stamp_org, stamped. destruct (key_org scope table) as [|[o|]]; [done| |by intros [= ->]; right].
  destruct (row_org row) as [o'|] eqn:E; [|by left]. destruct (String.eqb o' o); [|done]. intros [= ->]. by right.
Qed.

Lemma stamp_new_stamps k : within stamps (stamp_new scope k).
Proof.
  intros s. unfold stamp_new, mbind, eff_bind. cbn [gets id]. destruct (se_new s !! k) as [row|] eqn:E; [|done].
  unfold lift. destruct (stamp_org scope k.1 row) as [e|row']; [done|]. cbn. repeat split; [|intros ?; apply stamped_refl].
  cbn. rewrite dom_insert_L. apply elem_of_dom_2 in E. set_solver.
Qed.

Lemma stamp_dirty_stamps k : within stamps (stamp_dirty scope k).
Proof.
  intros s. unfold stamp_dirty, mbind, eff_bind. cbn [gets id]. destruct (se_loaded s !! k) as [row|] eqn:E; [|done].
  unfold lift. destruct (stamp_org scope k.1 row) as [e|row'] eqn:S; [done|]. cbn. repeat split.
  intros k'. cbn. destruct (decide (k = k')) as [<-|Hne].
  - rewrite lookup_insert_eq, E. constructor. by eapply stamp_org_stamped.
  - rewrite lookup_insert_ne by done. apply stamped_refl.
Qed.

Lemma stamp_new_author_stamps k : within stamps (stamp_new_author scope k).
Proof. intros s. cbn. repeat split; [cbn; by rewrite dom_alter_L|intros ?; apply stamped_refl]. Qed.

Lemma check_deleted_stamps k : within stamps (check_deleted scope k).
Proof.
  intros s. unfold check_deleted, mbind, eff_bind. cbn [gets id]. destruct (se_loaded s !! k); [apply within_lift|done].
Qed.

Lemma before_flush_stamps news dirty deleted : within stamps (before_flush scope news dirty deleted).
Proof.
  unfold before_flush. repeat (apply within_bind; [apply _| |intros _]); apply within_for_each; try apply _; intros k.
  - apply stamp_new_stamps.
  - apply stamp_dirty_stamps.
  - apply stamp_new_author_stamps.
  - apply check_deleted_stamps.
Qed.

(** *** A hook that returns has seen to every row *)

Definition new_owned (k : rowkey) (s : DbSession) : Prop := ∀ r, se_new s !! k = Some r → owned k.1 r.
Definition loaded_owned (k : rowkey) (s : DbSession) : Prop := ∀ r, se_loaded s !! k = Some r → owned k.1 r.

Lemma stamp_new_owned k k' s : new_owned k s ∨ k = k' → new_owned k (stamp_new scope k' s).1 ∨ (stamp_new scope k' s).2 ≠ inr ().
Proof.
  intros H. unfold stamp_new, mbind, eff_bind. cbn [gets id]. destruct (se_new s !! k') as [row|] eqn:E.
  - unfold lift. destruct (stamp_org scope k'.1 row) as [e|row'] eqn:S; [by right|]. left. cbn. intros r. cbn.
    destruct (decide (k' = k)) as [->|Hne].
    + rewrite lookup_insert_eq. intros [= <-]. by eapply stamp_org_owned.
    + rewrite lookup_insert_ne by done. destruct H as [H|H]; [apply H|congruence].
  - left. cbn. destruct H as [H| ->]; [done|]. intros r. congruence.
Qed.

Lemma stamp_dirty_owned k k' s :
  loaded_owned k s ∨ k = k' → loaded_owned k (stamp_dirty scope k' s).1 ∨ (stamp_dirty scope k' s).2 ≠ inr ().
Proof.
  intros H. unfold stamp_dirty, mbind, eff_bind. cbn [gets id]. destruct (se_loaded s !! k') as [row|] eqn:E.
  - unfold lift. destruct (stamp_org scope k'.1 row) as [e|row'] eqn:S; [by right|]. left. cbn. intros r. cbn.
    destruct (decide (k' = k)) as [->|Hne].
    + rewrite lookup_insert_eq. intros [= <-]. by eapply stamp_org_owned.
    + rewrite lookup_insert_ne by done. destruct H as [H|H]; [apply H|congruence].
  - left. cbn. destruct H as [H| ->]; [done|]. intros r. congruence.
Qed.

(** A property that a loop establishes at one element and keeps at the others. *)
Lemma for_each_reaches {A} (P : A → DbSession → Prop) (body : A → ss ()) l s s' :
  (∀ x y w w', P x w ∨ x = y → body y w = (w', inr ()) → P x w') →
  for_each l body s = (s', inr ()) → ∀ x, P x s ∨ x ∈ l → P x s'.
Proof.
  intros HP. revert s. induction l as [|y l IH]; intros s H x Hx; cbn in H.
  { injection H as <-. destruct Hx as [Hx|Hx]; [done|by apply not_elem_of_nil in Hx]. }
  apply bind_inr in H as (s1 & [] & Hb & H). apply (IH s1 H).
  destruct Hx as [Hx|[-> |Hx]%elem_of_cons]; [left|left|by right].
  - by apply (HP x y s); [left|].
  - by apply (HP y y s); [right|].
Qed.

Lemma stamp_author_new k k' s : new_owned k s → new_owned k (stamp_new_author scope k' s).1.
Proof.
  intros H r. cbn. destruct (decide (k' = k)) as [->|Hne].
  - rewrite lookup_alter_eq. destruct (se_new s !! k) as [r0|] eqn:E; [|done]. cbn. intros [= <-].
    eapply owned_org; [symmetry; apply stamp_author_org|]. by apply H.
  - rewrite lookup_alter_ne by done. apply H.
Qed.

Lemma loop_keeps {A} (P : DbSession → Prop) (body : A → ss ()) l s s' :
  (∀ y w, P w → P (body y w).1) → for_each l body s = (s', inr ()) → P s → P s'.
Proof.
  intros HP. revert s. induction l as [|y l IH]; intros s H Hs; cbn in H; [by injection H as <-|].
  apply bind_inr in H as (s1 & [] & Hb & H). apply (IH s1 H). specialize (HP y s Hs). by rewrite Hb in HP.
Qed.

Lemma stamp_dirty_new k s : se_new (stamp_dirty scope k s).1 = se_new s.
Proof.
  unfold stamp_dirty, mbind, eff_bind. cbn [gets id]. destruct (se_loaded s !! k); [|done].
  unfold lift. by destruct (stamp_org _ _ _).
Qed.
Lemma check_deleted_same k s : (check_deleted scope k s).1 = s.
Proof.
  unfold check_deleted, mbind, eff_bind. cbn [gets id]. destruct (se_loaded s !! k); [|done].
  unfold lift. by destruct (deletable _ _ _).
Qed.

(** What may be deleted is not another organization's. *)
Definition not_other (k : rowkey) (s : DbSession) : Prop :=
  ∀ r o, se_loaded s !! k = Some r → row_org r = Some o → owned k.1 r.

Lemma check_deleted_not_other k s s' : check_deleted scope k s = (s', inr ()) → not_other k s'.
Proof.
  intros H. pose proof (check_deleted_same k s) as E. rewrite H in E. cbn in E. subst s'. intros r o Hr Ho.
  unfold check_deleted, mbind, eff_bind in H. cbn [gets id] in H. rewrite Hr in H.
  unfold deletable, owned in *. destruct (key_org scope k.1) as [e|[o'|]]; [done| |done]. rewrite Ho in H |- *.
  destruct (String.eqb_spec o o') as [Eo|Eo]; [by rewrite Eo|done].
Qed.

Lemma before_flush_owned news dirty deleted s s' :
  before_flush scope news dirty deleted s = (s', inr ()) →
  (∀ k, k ∈ news → new_owned k s') ∧ (∀ k, k ∈ dirty → loaded_owned k s') ∧ (∀ k, k ∈ deleted → not_other k s').
Proof.
  unfold before_flush. intros H. apply bind_inr in H as (s1 & [] & H1 & H). apply bind_inr in H as (s2 & [] & H2 & H).
  apply bind_inr in H as (s3 & [] & H3 & H4). split_and!; intros k Hk.
  - apply (loop_keeps (new_owned k) _ _ _ _) with (2 := H4); [intros y w Hw; by rewrite check_deleted_same|].
    apply (loop_keeps (new_owned k) _ _ _ _) with (2 := H3); [intros y w; apply stamp_author_new|].
    apply (loop_keeps (new_owned k) _ _ _ _) with (2 := H2).
    { intros y w Hw r. rewrite stamp_dirty_new. apply Hw. }
    apply (for_each_reaches new_owned) with (2 := H1); [|by right].
    intros x y w w' Hx Hb. destruct (stamp_new_owned x y w Hx) as [Ho|Hf]; rewrite Hb in *; [done|by destruct Hf].
  - apply (loop_keeps (loaded_owned k) _ _ _ _) with (2 := H4); [intros y w Hw; by rewrite check_deleted_same|].
    apply (loop_keeps (loaded_owned k) _ _ _ _) with (2 := H3); [done|].
    apply (for_each_reaches loaded_owned) with (2 := H2); [|by right].
    intros x y w w' Hx Hb. destruct (stamp_dirty_owned x y w Hx) as [Ho|Hf]; rewrite Hb in *; [done|by destruct Hf].
  - apply (for_each_reaches not_other) with (2 := H4); [|by right]. intros x y w w' Hx Hb.
    destruct Hx as [Hx|<-]; [|by apply (check_deleted_not_other x w)].
    pose proof (check_deleted_same y w) as E. rewrite Hb in E. cbn in E. by subst w'.
Qed.

(** ** The invariant *)

Context (db0 : gmap rowkey Row).

(** A row of another organization, in a table the scope keys. *)
Definition foreign (k : rowkey) (r : Row) : Prop :=
  db0 !! k = Some r ∧ keyed k.1 = true ∧ is_Some (row_org r) ∧ ¬ owned k.1 r.

Record isolated (s : DbSession) : Prop := {
  iso_foreign : ∀ k r, foreign k r → se_db s !! k = Some r ∧ se_committed s !! k = Some r ∧ k ∉ se_handed s ∧
    (∀ r', se_loaded s !! k = Some r' → row_org r' = row_org r) ∧
    (k ∈ se_dirty s ∪ se_deleted s → is_Some (se_loaded s !! k));
  iso_written : ∀ k r, se_db s !! k = Some r ∨ se_committed s !! k = Some r → keyed k.1 = true →
    owned k.1 r ∨ db0 !! k = Some r;
}.

Lemma isolated_open : isolated (open_session db0).
Proof. split; [|intros k r [H|H]; by right]. intros k r [H _]. cbn. repeat split; try done; set_solver. Qed.

(** A step that leaves the rows alone and keeps what is known of the objects of
    other organizations. *)
Lemma isolated_same s s' :
  isolated s → se_db s' = se_db s → se_committed s' = se_committed s →
  (∀ k r, foreign k r → k ∉ se_handed s' ∧
    (∀ r', se_loaded s' !! k = Some r' → row_org r' = row_org r) ∧
    (k ∈ se_dirty s' ∪ se_deleted s' → is_Some (se_loaded s' !! k))) → isolated s'.
Proof.
  intros [Hf Hw] E1 E2 E3. split; [|by rewrite E1, E2].
  intros k r Hk. destruct (Hf k r Hk) as (H1 & H2 & _). rewrite E1, E2. split; [done|]. split; [done|]. by apply E3.
Qed.

Lemma isolated_stamps s s' : isolated s → stamps s s' → isolated s'.
Proof.
  intros H (E1 & E2 & E3 & E4 & E5 & _ & E7). apply (isolated_same s); [done|done|done|].
  intros k r Hk. destruct (iso_foreign _ H k r Hk) as (_ & _ & H3 & H4 & H5). rewrite E3, E4, E5. specialize (E7 k).
  split; [done|]. split.
  - intros r' Hr'. rewrite Hr' in E7. inversion E7 as [r0 ? Hst Hr0|]; subst. specialize (H4 r0 (eq_sym Hr0)).
    destruct Hst as [Hn| ->]; [|done]. destruct Hk as (_ & _ & [o Ho] & _). congruence.
  - intros Hin. destruct (H5 Hin) as [r0 Hr0]. rewrite Hr0 in E7. inversion E7; subst. eauto.
Qed.

Lemma isolated_write s :
  isolated s → (dom (se_new s) : gset rowkey) ## dom (se_db s) → (∀ k, new_owned k s) →
  (∀ k, k ∈ se_dirty s → loaded_owned k s) → (∀ k, k ∈ se_deleted s → not_other k s) → isolated (write_rows s).
Proof.
  intros [Hf Hw] Hd Hn Hl Hx. split.
  - intros k r Hk. destruct (Hf k r Hk) as (H1 & H2 & H3 & H4 & H5). apply elem_of_dom_2 in H1 as Hin.
    destruct Hk as (_ & _ & [o Ho] & Hno).
    assert (Hnn : se_new s !! k = None) by (apply not_elem_of_dom; set_solver).
    assert (Hclean : k ∉ se_dirty s ∧ k ∉ se_deleted s).
    { split; intros Hin'; (destruct H5 as [r' Hr']; [set_solver|]); specialize (H4 r' Hr'); destruct Hno;
        (eapply owned_org; [exact H4|]).
      - by apply (Hl k).
      - eapply (Hx k); [done|done|]. by rewrite H4. }
    destruct Hclean as [Hdi Hde].
    split; [|split; [done|]; split; [|split]].
    + cbn. apply map_lookup_filter_Some. split; [|done]. rewrite lookup_union_r by done.
      rewrite lookup_union_r by (apply map_lookup_filter_None; right; intros x _; exact Hdi). done.
    + cbn. apply not_elem_of_dom in Hnn. set_solver.
    + intros r'. cbn. intros [H _]%map_lookup_filter_Some. rewrite lookup_union_r in H by done. by apply H4.
    + cbn. set_solver.
  - intros k r [H|H] Hk; [|apply Hw; [by right|done]]. cbn in H. apply map_lookup_filter_Some in H as [H _].
    apply lookup_union_Some_raw in H as [H|[_ H]]; [left; by apply Hn|].
    apply lookup_union_Some_raw in H as [H|[_ H]]; [|apply Hw; [by left|done]].
    apply map_lookup_filter_Some in H as [H Hin]. left. by apply Hl.
Qed.

Lemma isolated_flush s : isolated s → isolated (scoped_flush scope s).1.
Proof.
  intros H. unfold scoped_flush, mbind, eff_bind. cbn [gets id].
  pose proof (before_flush_stamps (elements (dom (se_new s))) (elements (se_dirty s)) (elements (se_deleted s)) s) as Hs.
  destruct (before_flush _ _ _ _ s) as [s1 [e|[]]] eqn:E; cbn [fst] in Hs; [by eapply isolated_stamps|].
  pose proof (isolated_stamps _ _ H Hs) as H1. apply before_flush_owned in E as (Hn & Hl & Hx).
  destruct Hs as (_ & _ & E3 & E4 & _ & E6 & _).
  destruct (bool_decide_reflect ((dom (se_new s1) : gset rowkey) ## dom (se_db s1))) as [Hd|Hd]; [|done].
  rewrite raise_if_false. cbn [modify fst]. apply isolated_write; [exact H1|exact Hd| | |].
  - intros k r Hr. apply (Hn k); [|done]. rewrite elem_of_elements, <-E6. by eapply elem_of_dom_2.
  - intros k Hk. apply Hl. by rewrite elem_of_elements, <-E3.
  - intros k Hk. apply Hx. by rewrite elem_of_elements, <-E4.
Qed.

(** Rows of the database become objects. *)
Lemma isolated_load s s' rows :
  isolated s → (∀ k r, rows !! k = Some r → se_db s !! k = Some r) →
  se_db s' = se_db s → se_committed s' = se_committed s → se_loaded s' = se_loaded s ∪ rows →
  se_dirty s' = se_dirty s → se_deleted s' ⊆ se_deleted s ∪ dom rows →
  (∀ k r, foreign k r → k ∈ se_handed s' → k ∈ se_handed s) → isolated s'.
Proof.
  intros H Hrows E1 E2 E3 E4 E5 E6. apply (isolated_same s); [done|done|done|]. intros k r Hk.
  destruct (iso_foreign _ H k r Hk) as (H1 & _ & H3 & H4 & H5). split; [intros Hin; by apply H3, (E6 k r)|]. rewrite E3. split.
  - intros r' [Hr|[_ Hr]]%lookup_union_Some_raw; [by apply H4|]. apply Hrows in Hr. congruence.
  - rewrite E4. intros Hin. assert (Hc : k ∈ se_dirty s ∪ se_deleted s ∨ k ∈ dom rows) by set_solver.
    destruct Hc as [[r' Hr']%H5|[r' Hr']%elem_of_dom].
    + exists r'. by apply lookup_union_Some_l.
    + apply lookup_union_is_Some. right. eauto.
Qed.

Lemma isolated_select table cond s : isolated s → isolated (scoped_select scope table cond s).1.
Proof.
  intros H. unfold scoped_select, mbind, eff_bind, lift. destruct (key_org scope table) as [e|org] eqn:E; [done|].
  cbn [mret eff_ret gets id modify fst].
  match goal with |- isolated (hand_out (dom ?rows) _) => apply (isolated_load s _ rows); try done end.
  - intros k r [Hr _]%map_lookup_filter_Some. done.
  - cbn. set_solver.
  - intros k r (H0 & Hk & Hso & Ho) Hin. cbn in Hin. apply elem_of_union in Hin as [?|[r' Hr]%elem_of_dom]; [done|].
    apply map_lookup_filter_Some in Hr as [Hr (Ht & _ & Horg)]. cbn in *.
    destruct (iso_foreign _ H k r) as (Hdb & _); [done|]. rewrite Hdb in Hr. injection Hr as <-.
    destruct Ho. rewrite Ht. by apply (of_org_owned table org).
Qed.

Lemma isolated_get k s : isolated s → isolated (scoped_get scope k s).1.
Proof.
  intros H. unfold scoped_get, identity_get, mbind, eff_bind, lift. destruct (key_org scope k.1) as [e|org] eqn:E; [done|].
  cbn [mret eff_ret gets id].
  assert (Hks : ∀ row, se_loaded s !! k = Some row ∨ se_db s !! k = Some row → of_org org row = true →
    ∀ k' r, foreign k' r → k' ∈ se_handed s ∪ {[k]} → k' ∈ se_handed s).
  { intros row Hrow Horg k' r Hk [?|Hin]%elem_of_union; [done|]. apply elem_of_singleton in Hin as ->. pose proof Hk as (_ & _ & _ & Ho).
    destruct (iso_foreign _ H k r Hk) as (Hdb & _ & _ & Hl & _). destruct Ho.
    apply (owned_org k.1 row); [|by apply (of_org_owned k.1 org)]. destruct Hrow as [?|?]; [by apply Hl|congruence]. }
  destruct (se_loaded s !! k) as [row|] eqn:L.
  - cbn [mret eff_ret]. destruct (of_org org row) eqn:O; [|exact H]. cbn [modify fst].
    apply (isolated_load s _ ∅); try done; [cbn; by rewrite right_id_L by apply _|cbn; set_solver|].
    apply (Hks row); [by left|done].
  - destruct (se_db s !! k) as [row|] eqn:D; [|exact H]. cbn [modify mret eff_ret].
    assert (Hone : ∀ k' r', ({[k := row]} : gmap rowkey Row) !! k' = Some r' → se_db s !! k' = Some r')
      by (by intros k' r' [<- <-]%lookup_singleton_Some).
    destruct (of_org org row) eqn:O; cbn [fst]; apply (isolated_load s _ {[k := row]}); try done;
      [cbn; set_solver| |cbn; set_solver]. apply (Hks row); [by right|done].
Qed.

Lemma isolated_delete k s : isolated s → isolated (scoped_delete scope k s).1.
Proof.
  intros H. unfold scoped_delete, mbind, eff_bind, lift. destruct (key_org scope k.1) as [e|org] eqn:E; [done|].
  cbn [mret eff_ret gets id]. destruct (se_loaded s !! k) as [row|] eqn:L; [|done].
  destruct (of_org org row) eqn:O; [|done]. cbn [negb]. rewrite raise_if_false. cbn [modify fst].
  apply (isolated_same s); try done. intros k' r Hr. destruct (iso_foreign _ H k' r Hr) as (_ & _ & H3 & H4 & H5).
  split; [done|]. split; [done|]. cbn. intros Hin. destruct (decide (k' = k)) as [->|Hne]; [by rewrite L|]. apply H5. set_solver.
Qed.

Lemma isolated_mutate s k row b :
  isolated s → (∀ r, foreign k r → ∃ r0, se_loaded s !! k = Some r0 ∧ row_org row = row_org r0) →
  isolated (if b : bool then s <| se_loaded := <[k := row]> (se_loaded s) |> <| se_dirty := se_dirty s ∪ {[k]} |> else s).
Proof.
  intros H Hk. destruct b; [|done]. apply (isolated_same s); try done. intros k' r Hr.
  destruct (iso_foreign _ H k' r Hr) as (_ & _ & H3 & H4 & H5). split; [done|]. cbn. destruct (decide (k = k')) as [<-|Hne].
  - rewrite lookup_insert_eq. split; [|done]. intros r' [= <-]. destruct (Hk r Hr) as (r0 & Hr0 & ->). by apply H4.
  - rewrite lookup_insert_ne by done. split; [done|]. intros Hin. apply H5. set_solver.
Qed.

Lemma isolated_refresh k s : isolated s → isolated (refresh k s).
Proof.
  intros H. unfold refresh. destruct (se_loaded s !! k) as [r0|] eqn:L; [|done]. destruct (se_db s !! k) as [row|] eqn:D; [|done].
  apply (isolated_same s); try done. intros k' r Hr. destruct (iso_foreign _ H k' r Hr) as (H1 & _ & H3 & H4 & H5).
  split; [done|]. cbn. destruct (decide (k = k')) as [<-|Hne].
  - rewrite lookup_insert_eq. split; [|done]. intros r' [= <-]. congruence.
  - rewrite lookup_insert_ne by done. split; [done|]. intros Hin. apply H5. set_solver.
Qed.

Lemma isolated_rollback s : isolated s → isolated (scoped_rollback s).1.
Proof.
  intros [Hf Hw]. split.
  - intros k r Hk. destruct (Hf k r Hk) as (_ & H2 & H3 & _). cbn. split; [done|]. split; [done|]. split; [set_solver|].
    split; [|set_solver]. intros r' [Hr' _]%map_lookup_filter_Some. congruence.
  - intros k r Hr. apply Hw. right. by destruct Hr.
Qed.

Lemma isolated_step s s' : session_step scope s s' → isolated s → isolated s'.
Proof.
  intros Hst H.
  assert (Hrow : ∀ ks k r, rows_of ks s !! k = Some r → se_db s !! k = Some r) by (by intros ks k r [? _]%map_lookup_filter_Some).
  inversion Hst; subst.
  - by apply isolated_select.
  - by apply isolated_get.
  - unfold scoped_add, mbind, eff_bind, lift. destruct (stamp_org scope k.1 row); [done|]. by destruct H.
  - by apply isolated_delete.
  - by apply isolated_refresh.
  - unfold mutate. destruct (bool_decide_reflect (k ∈ se_handed s)) as [Hk|]; [|done]. apply isolated_mutate; [done|].
    intros r Hr. by destruct (iso_foreign _ H k r Hr) as (_ & _ & [] & _).
  - by destruct H.
  - apply (isolated_load s _ (rows_of ks s)); try done; [apply Hrow|set_solver].
  - unfold mutate_related. destruct (se_loaded s !! k) as [old|] eqn:L; [|done].
    destruct (bool_decide_reflect (row_org row = row_org old)); [|by rewrite andb_false_r].
    apply isolated_mutate; [done|]. intros r _. eauto.
  - apply (isolated_load s _ (rows_of ks s)); try done; apply Hrow.
  - by destruct H.
  - by apply isolated_flush.
  - unfold scoped_commit, mbind, eff_bind. pose proof (isolated_flush s H) as Hf.
    destruct (scoped_flush scope s) as [s1 [e|[]]]; cbn [modify fst] in *; [done|]. destruct Hf as [Hf Hw]. split.
    + intros k r Hk. destruct (Hf k r Hk) as (H1 & _ & H3). done.
    + intros k r Hr. apply Hw. cbn in Hr. left. by destruct Hr.
  - by apply isolated_rollback.
Qed.


End Isolation.

(** ** A session of one organization beside a row of another *)

#[local] Instance demo_schema : Schema := {|
  has_org _ := true; org_is_uuid table := String.eqb table "skill_access"; has_created_by _ := true |}.

Definition demo_scope : TenantScope := {|
  sc_org_mode := true; sc_org_id := Some "org-a"; sc_user_id := Some "u1"; sc_personal := false; sc_personal_resources := [] |}.
Definition their_row : Row := {| row_org := Some "org-b"; row_created_by := None; row_data := JNull |}.
Definition our_row : Row := {| row_org := None; row_created_by := None; row_data := JInt 1 |}.
Definition demo_rows : gmap rowkey Row := {[("projects", "p1") := their_row]}.
Definition demo_got : DbSession := (scoped_get demo_scope ("projects", "p1") (open_session demo_rows)).1.
Definition demo_added : DbSession := (scoped_add demo_scope ("projects", "p2") our_row demo_got).1.
Definition demo_committed : DbSession := (scoped_commit demo_scope demo_added).1.

(** The row is invisible, the new one is stamped with the organization and its
    author, and it can be read back. *)
Example demo_results :
  snd (scoped_get demo_scope ("projects", "p1") (open_session demo_rows)) = inr None ∧
  snd (scoped_get demo_scope ("projects", "p2") demo_committed) =
    inr (Some {| row_org := Some "org-a"; row_created_by := Some "u1"; row_data := JInt 1 |}) ∧
  snd (scoped_add demo_scope ("projects", "p3") their_row demo_got) = inl (TenantMismatchError "projects").
Proof. vm_compute. done. Qed.

(** A relationship cascades the deletion of one of our rows to theirs, and to a
    row of nobody: the flush refuses the one and would let the other go. *)
Definition demo_cascaded : DbSession := cascade_delete {[("projects", "p1")]} demo_committed.
Definition demo_end : DbSession := (scoped_rollback (scoped_flush demo_scope demo_cascaded).1).1.
Definition orphan_row : Row := {| row_org := None; row_created_by := None; row_data := JNull |}.

Example demo_cascades :
  snd (scoped_flush demo_scope demo_cascaded) = inl (TenantMismatchError "projects") ∧
  se_db (scoped_flush demo_scope (cascade_delete {[("projects", "p0")]} (open_session {[("projects", "p0") := orphan_row]}))).1
    !! ("projects", "p0") = None.
Proof. vm_compute. done. Qed.

