(* ===== verification/ArtifactRevisions.v ===== *)
(** * Revisions of an artifact and agent repairs
    ([src/cowork/services/artifact_revisions.py]).

    An artifact folder holds the sources a person and the agent edit, and a
    journal with the revisions, their contents by hash, a record of a write under
    way, and the repairs agents were asked for.  Every operation runs under the
    artifact's lock.  Files are replaced as a whole; the process may die before any write, which [fo_budget]
    counts, so one definition is also all of its crashes.

    What the file system resolves a path to, which files count as the user's, and
    which one is the project's secret file are parameters, as are the ids of
    [uuid4]. *)
From stdpp Require Import base list gmap strings option.
From Stdlib Require Import ZArith Lia.
From S2P Require Import Prelude JsonText Uuid Identity.

Definition EDITABLE_EXTENSIONS : list string := [".md"; ".txt"; ".html"; ".htm"].
Definition MAX_SOURCE_BYTES : Z := 2000000.
Definition MAX_REVISIONS : nat := 80.
Definition QUEUED_REPAIR_TTL_SECONDS : Z := 3600.
Definition JOURNAL_DIRNAME : string := ".revisions".

(** ** Records *)

(** One entry of the manifest, as [_new_revision] makes it. *)
Record Revision := {
  rv_id : string;
  rv_number : Z;
  rv_artifact_id : string;
  rv_path : string;
  rv_created_at : Z;
  rv_actor_kind : string;
  rv_actor_id : option string;
  rv_summary : string;
  rv_base : option string;
  rv_hash : string;
  rv_bytes : Z;
  rv_conversation : option string;
  rv_threads : list string;
}.

#[export] Instance fields_Revision : Fields Revision := λ r, {|
  rv_id := rv_id r; rv_number := rv_number r; rv_artifact_id := rv_artifact_id r; rv_path := rv_path r;
  rv_created_at := rv_created_at r; rv_actor_kind := rv_actor_kind r; rv_actor_id := rv_actor_id r;
  rv_summary := rv_summary r; rv_base := rv_base r; rv_hash := rv_hash r; rv_bytes := rv_bytes r;
  rv_conversation := rv_conversation r; rv_threads := rv_threads r |}.

(** The record of a write under way. *)
Record PendingWrite := {
  pw_version : Z;
  pw_path : string;
  pw_before : string;
  pw_revision : Revision;
}.

Inductive RepairStatus := r_queued | r_ready | r_conflict | r_no_change | r_cancelled | r_discarded | r_accepted | r_rejected.

#[export] Instance RepairStatus_eq_dec : EqDecision RepairStatus.
Proof. solve_decision. Defined.

Record Repair := {
  rp_id : string;
  rp_artifact_id : string;
  rp_path : string;
  rp_base : string;
  rp_base_hash : string;
  rp_thread_id : string;
  rp_selector : option string;
  rp_thread : json;
  rp_conversation : string;
  rp_status : RepairStatus;
  rp_revision : option string;
  rp_created_at : option Z;      (* as [_parse_timestamp] reads it *)
  rp_updated_at : Z;
}.

#[export] Instance fields_Repair : Fields Repair := λ r, {|
  rp_id := rp_id r; rp_artifact_id := rp_artifact_id r; rp_path := rp_path r; rp_base := rp_base r;
  rp_base_hash := rp_base_hash r; rp_thread_id := rp_thread_id r; rp_selector := rp_selector r;
  rp_thread := rp_thread r; rp_conversation := rp_conversation r; rp_status := rp_status r;
  rp_revision := rp_revision r; rp_created_at := rp_created_at r; rp_updated_at := rp_updated_at r |}.

(** What a journal file reads as: nothing there, refused or damaged, or a
    record. *)
Inductive stored (A : Type) := Absent | Unreadable | Stored (a : A).
Arguments Absent {A}.
Arguments Unreadable {A}.
Arguments Stored {A} a.

Record Folder := {
  fo_sources : gmap string string;           (* regular files, by path below the folder *)
  fo_manifest : stored (list Revision);
  fo_pending : stored PendingWrite;
  fo_blobs : gmap string string;
  fo_repairs : gmap string Repair;
  fo_now : Z;
  fo_minted : nat;                           (* how many ids were made *)
  fo_budget : option nat;                    (* writes left before the process dies *)
}.

#[export] Instance fields_Folder : Fields Folder := λ f, {|
  fo_sources := fo_sources f; fo_manifest := fo_manifest f; fo_pending := fo_pending f; fo_blobs := fo_blobs f;
  fo_repairs := fo_repairs f; fo_now := fo_now f; fo_minted := fo_minted f; fo_budget := fo_budget f |}.

Abbreviation af := (eff Folder).

Class ArtifactEnv := {
  sha : string → string;
  uuid4 : nat → string;
  resolve_path : list string → option (list string);
  user_file : string → bool;
  project_secret : string → bool;
}.

Section Revisions.
Context {AE : ArtifactEnv} {PF : Platform}.

(** ** Files *)

(** A write to disk: the process may die before it. *)
Definition on_disk (f : Folder → Folder) : af () :=
  budget ← gets fo_budget;
  match budget with
  | None => modify f
  | Some 0 => raise ProcessKilled
  | Some (S n) => modify (λ s, f s <| fo_budget := Some n |>)
  end.

Definition mint : af string := λ s, (s <| fo_minted := S (fo_minted s) |>, inr (uuid4 (fo_minted s))).

(** [_read_manifest]. *)
Definition read_manifest : af (list Revision) :=
  manifest ← gets fo_manifest;
  match manifest with
  | Absent => mret []
  | Unreadable => raise (RevisionValidationError "Artifact revision history is unreadable")
  | Stored revisions => mret revisions
  end.
Definition write_manifest (revisions : list Revision) : af () :=
  on_disk (λ s, s <| fo_manifest := Stored revisions |>).
Definition write_pending (pending : PendingWrite) : af () := on_disk (λ s, s <| fo_pending := Stored pending |>).
Definition clear_pending : af () :=
  pending ← gets fo_pending;
  match pending with Absent => mret () | _ => on_disk (λ s, s <| fo_pending := Absent |>) end.

(** [_is_content_hash], [_is_repair_id]. *)
Definition is_content_hash (h : string) : bool := Nat.eqb (String.length h) 64 && str_forall lower_hex h.
Definition is_repair_id (id : string) : bool := bool_decide (uuid_text id = Some id).

(** [_write_repair] and the readers of repairs. *)
Definition write_repair (repair : Repair) : af () :=
  raise_if (negb (is_repair_id (rp_id repair))) (RevisionValidationError "Agent repair id is invalid");;
  on_disk (λ s, s <| fo_repairs := <[rp_id repair := repair]> (fo_repairs s) |>).
Definition own_record (repair_id : string) (repair : Repair) : option Repair :=
  if String.eqb (rp_id repair) repair_id then Some repair else None.
Definition read_repair (repair_id : string) : af Repair :=
  repairs ← gets fo_repairs;
  match (if is_repair_id repair_id then repairs !! repair_id else None) with
  | None => raise (FileNotFoundError "Agent repair not found")
  | Some repair =>
      match own_record repair_id repair with
      | Some repair => mret repair
      | None => raise (FileNotFoundError "Agent repair not found")
      end
  end.
(** [_repair_records], in the order of the file names. *)
Definition repair_records : af (list Repair) :=
  repairs ← gets fo_repairs;
  mret (omap (λ ir : string * Repair, if is_repair_id ir.1 then own_record ir.1 ir.2 else None)
    (reorder (map_to_list repairs))).

(** ** Sources *)

Definition path_parts (text : string) : list string :=
  base.filter (λ p, p ≠ "" ∧ p ≠ ".") (split_char (chr 47) text).
Definition join_path (parts : list string) : string := str_join "/" parts.
Definition is_absolute (text : string) : bool := str_starts "/" text.

(** [Path(p).suffix.lower()]: from the last dot of the last name, unless it is
    its first or last character. *)
Fixpoint last_dot (s : string) : option string :=
  match s with
  | EmptyString => None
  | String.String c s' =>
      match last_dot s' with
      | Some t => Some t
      | None => if Nat.eqb (ord c) 46 then Some s else None
      end
  end.
Definition path_suffix (p : string) : string :=
  match default "" (list.last (path_parts p)) with
  | EmptyString => ""
  | String.String c rest =>
      match last_dot rest with Some t => if Nat.leb (String.length t) 1 then "" else str_lower t | None => "" end
  end.
Definition editable (p : string) : bool := bool_decide (path_suffix p ∈ EDITABLE_EXTENSIONS).

(** The least of the editable files, names compared one after the other. *)
Fixpoint parts_leb (a b : list string) : bool :=
  match a, b with
  | [], _ => true
  | _, [] => false
  | x :: a, y :: b => if String.eqb x y then parts_leb a b else String.leb x y
  end.
Definition least_path (l : list string) : option string :=
  match l with
  | [] => None
  | p :: l => Some (foldl (λ best p, if parts_leb (path_parts best) (path_parts p) then best else p) p l)
  end.

(** [resolve_source]; [primary] is the one of the metadata. *)
Definition resolve_source (s : Folder) (primary rel_path : option string) : exn + string :=
  let candidate := str_replace (String.String cBackslash "") "/"
    (str_strip (if truthy_opt rel_path then default "" rel_path else default "" primary)) in
  let target :=
    if negb (truthy candidate) then
      match least_path (base.filter (λ p, user_file p && editable p && bool_decide (JOURNAL_DIRNAME ∉ path_parts p) = true)
              (map fst (map_to_list (fo_sources s)))) with
      | None => inl (RevisionValidationError "Artifact has no editable source file")
      | Some p => inr p
      end
    else
      let parts := path_parts candidate in
      if is_absolute candidate || bool_decide (".." ∈ parts) || bool_decide (JOURNAL_DIRNAME ∈ parts)
      then inl (RevisionValidationError "Invalid artifact source path")
      else
        match resolve_path parts with
        | None => inl (RevisionValidationError "Invalid artifact source path")
        | Some parts => inr (join_path parts)
        end
  in
  match target with
  | inl e => inl e
  | inr target =>
      if negb (bool_decide (is_Some (fo_sources s !! target))) || project_secret target
      then inl (FileNotFoundError "Artifact source not found")
      else if negb (editable target) then inl (RevisionValidationError "This artifact type is not source-editable")
      else inr target
  end.

(** [_read_source]. *)
Definition read_source (target : string) : af string :=
  sources ← gets fo_sources;
  match sources !! target with
  | None => raise (FileNotFoundError "Artifact source not found")
  | Some content =>
      raise_if (MAX_SOURCE_BYTES <? Z.of_nat (String.length content))%Z
        (RevisionValidationError "Artifact source is too large to edit");;
      mret content
  end.
Definition lift_source (primary rel_path : option string) : af string :=
  s ← gets id;
  match resolve_source s primary rel_path with inl e => raise e | inr target => mret target end.

(** [_atomic_bytes] on a source. *)
Definition write_source (target content : string) : af () :=
  on_disk (λ s, s <| fo_sources := <[target := content]> (fo_sources s) |>).

(** ** Contents *)

(** [_blob_bytes]. *)
Definition blob_bytes (s : Folder) (content_hash : string) : option string :=
  if negb (is_content_hash content_hash) then None
  else
    match fo_blobs s !! content_hash with
    | None => None
    | Some content =>
        if (MAX_SOURCE_BYTES <? Z.of_nat (String.length content))%Z then None
        else if String.eqb (sha content) content_hash then Some content else None
    end.
(** [_store_blob]. *)
Definition store_blob (content_hash content : string) : af () :=
  s ← gets id;
  match blob_bytes s content_hash with
  | Some _ => mret ()
  | None => on_disk (λ s, s <| fo_blobs := <[content_hash := content]> (fo_blobs s) |>)
  end.
(** [_content_for_revision]. *)
Definition content_for_revision (revision : Revision) : af string :=
  s ← gets id;
  match blob_bytes s (rv_hash revision) with
  | Some content => if utf8_valid true content then mret content else raise (FileNotFoundError "Revision not found")
  | None => raise (FileNotFoundError "Revision not found")
  end.

(** ** Revisions *)

(** The newest revision of a path. *)
Definition latest_of (path : string) (revisions : list Revision) : option Revision :=
  list.last (base.filter (λ r, rv_path r = path) revisions).
Definition head_revision_id (revisions : list Revision) (path : string) : option string := rv_id <$> latest_of path revisions.
Definition last_number (revisions : list Revision) : Z := default 0%Z (rv_number <$> list.last revisions).

(** [_new_revision]. *)
Definition new_revision (revisions : list Revision) (artifact_id rel_path content actor_kind : string)
    (actor_id : option string) (summary : string) (base_revision_id conversation_id : option string)
    (threads : list string) : af Revision :=
  id ← mint;
  now ← gets fo_now;
  mret {|
    rv_id := id; rv_number := (last_number revisions + 1)%Z; rv_artifact_id := artifact_id; rv_path := rel_path;
    rv_created_at := now; rv_actor_kind := actor_kind; rv_actor_id := actor_id;
    rv_summary := str_take 240 (str_strip (if truthy summary then summary else "Updated artifact"));
    rv_base := base_revision_id; rv_hash := sha content; rv_bytes := Z.of_nat (String.length content);
    rv_conversation := conversation_id; rv_threads := unique_values threads |}.

(** [prune_journal_folder] on the blobs, one name at a time. *)
Definition prune_blobs (keep : list string) : af () :=
  blobs ← gets fo_blobs;
  for_each (base.filter (λ h, h ∉ keep) (reorder (map fst (map_to_list blobs))))
    (λ h, on_disk (λ s, s <| fo_blobs := delete h (fo_blobs s) |>)).

(** [_persist_revision]; the list is the caller's, changed in place. *)
Definition persist_revision (revisions : list Revision) (entry : Revision) (content : string) :
    af (Revision * list Revision) :=
  raise_if (negb (String.eqb (rv_hash entry) (sha content))) (RevisionValidationError "Revision content hash is invalid");;
  store_blob (rv_hash entry) content;;
  match find (λ r, String.eqb (rv_id r) (rv_id entry)) revisions with
  | Some existing => mret (existing, revisions)
  | None =>
      let entry :=
        match revisions with
        | [] => entry
        | _ => if (rv_number entry <=? last_number revisions)%Z then entry <| rv_number := (last_number revisions + 1)%Z |> else entry
        end in
      let revisions := revisions ++ [entry] in
      let pruned := Nat.ltb MAX_REVISIONS (length revisions) in
      let revisions := drop (length revisions - MAX_REVISIONS) revisions in
      write_manifest revisions;;
      (if pruned : bool then prune_blobs (map rv_hash revisions) else mret ());;
      mret (entry, revisions)
  end.

(** [_append_revision]. *)
Definition append_revision (revisions : list Revision) (artifact_id rel_path content actor_kind : string)
    (actor_id : option string) (summary : string) (base_revision_id conversation_id : option string)
    (threads : list string) : af (Revision * list Revision) :=
  entry ← new_revision revisions artifact_id rel_path content actor_kind actor_id summary base_revision_id conversation_id threads;
  persist_revision revisions entry content.

(** [_recover_pending_source_write]. *)
Definition try_source (rel_path : string) : af (option (string * string)) :=
  s ← gets id;
  match resolve_source s None (Some rel_path) with
  | inl (FileNotFoundError _) | inl (RevisionValidationError _) => mret None
  | inl e => raise e
  | inr target =>
      match fo_sources s !! target with
      | None => mret None
      | Some content =>
          if (MAX_SOURCE_BYTES <? Z.of_nat (String.length content))%Z then mret None else mret (Some (target, content))
      end
  end.
Definition recover_pending_source_write : af () :=
  s ← gets id;
  match fo_pending s with
  | Absent => mret ()
  | Unreadable => clear_pending
  | Stored pending =>
      let entry := pw_revision pending in
      if negb (pw_version pending =? 1)%Z || negb (truthy (str_strip (pw_path pending))) ||
         negb (String.eqb (rv_path entry) (pw_path pending))
      then clear_pending
      else
        match blob_bytes s (rv_hash entry) with
        | None => clear_pending
        | Some content =>
            source ← try_source (pw_path pending);
            match source with
            | None => clear_pending
            | Some (target, current) =>
                revisions ← read_manifest;
                if existsb (λ r, String.eqb (rv_id r) (rv_id entry)) revisions then clear_pending
                else if negb (bool_decide (head_revision_id revisions (pw_path pending) = rv_base entry)) ||
                        negb (bool_decide (sha current ∈ [pw_before pending; rv_hash entry]))
                then clear_pending
                else
                  (if String.eqb (sha current) (pw_before pending) then write_source target content else mret ());;
                  _ ← persist_revision revisions entry content;
                  clear_pending
            end
        end
  end.

(** [_commit_source_revision]. *)
Definition commit_source_revision (revisions : list Revision) (target artifact_id rel_path before_content content actor_kind : string)
    (actor_id : option string) (summary : string) (base_revision_id conversation_id : option string)
    (threads : list string) : af Revision :=
  entry ← new_revision revisions artifact_id rel_path content actor_kind actor_id summary base_revision_id conversation_id threads;
  store_blob (rv_hash entry) content;;
  write_pending {| pw_version := 1; pw_path := rel_path; pw_before := sha before_content; pw_revision := entry |};;
  write_source target content;;
  _ ← persist_revision revisions entry content;
  clear_pending;;
  mret entry.

(** What an editor shows: path, text, revision. *)
Record Source := { so_path : string; so_content : string; so_revision : Revision }.

(** The head of a path, after its content was captured if it is not in it. *)
Definition captured_head (revisions : list Revision) (artifact_id relative content summary : string) :
    af (Revision * list Revision) :=
  let latest := latest_of relative revisions in
  match latest with
  | Some r => if String.eqb (rv_hash r) (sha content) then mret (r, revisions) else
      append_revision revisions artifact_id relative content "system" None summary (Some (rv_id r)) None []
  | None => append_revision revisions artifact_id relative content "system" None summary None None []
  end.

(** [_current_source_locked]. *)
Definition current_source_locked (primary : option string) (artifact_id : string) (rel_path : option string) : af Source :=
  recover_pending_source_write;;
  relative ← lift_source primary rel_path;
  content ← read_source relative;
  raise_if (negb (utf8_valid true content)) (RevisionValidationError "Artifact source is not UTF-8 text");;
  revisions ← read_manifest;
  '(latest, _) ← captured_head revisions artifact_id relative content "Captured current draft";
  mret {| so_path := relative; so_content := content; so_revision := latest |}.

(** [current_workspace]: the source with the revisions of its path, newest first. *)
Definition current_workspace (primary : option string) (artifact_id : string) (rel_path : option string) :
    af (Source * list Revision) :=
  source ← current_source_locked primary artifact_id rel_path;
  revisions ← read_manifest;
  mret (source, rev (base.filter (λ r, rv_path r = so_path source) revisions)).

(** [save_source]. *)
Definition save_source (primary : option string) (artifact_id content expected_revision_id : string) (rel_path : option string)
    (actor_kind : string) (actor_id : option string) (summary : string) (conversation_id : option string)
    (threads : list string) : af Source :=
  raise_if (MAX_SOURCE_BYTES <? Z.of_nat (String.length content))%Z
    (RevisionValidationError "Artifact source is too large to edit");;
  recover_pending_source_write;;
  relative ← lift_source primary rel_path;
  existing ← read_source relative;
  revisions ← read_manifest;
  '(latest, revisions) ← captured_head revisions artifact_id relative existing "Captured concurrent draft change";
  raise_if (negb (String.eqb (rv_id latest) expected_revision_id))
    (RevisionConflict "Artifact changed since this edit began" (rv_id latest));;
  if String.eqb (rv_hash latest) (sha content) then
    mret {| so_path := relative; so_content := content; so_revision := latest |}
  else
    entry ← commit_source_revision revisions relative artifact_id relative existing content actor_kind actor_id summary
      (Some (rv_id latest)) conversation_id threads;
    mret {| so_path := relative; so_content := content; so_revision := entry |}.

(** [list_revisions], [revision_with_content]. *)
Definition list_revisions (rel_path : option string) : af (list Revision) :=
  recover_pending_source_write;;
  revisions ← read_manifest;
  mret (rev (match rel_path with Some p => base.filter (λ r, rv_path r = p) revisions | None => revisions end)).
Definition revision_with_content_locked (revision_id : string) : af (Revision * string) :=
  revisions ← read_manifest;
  match find (λ r, String.eqb (rv_id r) revision_id) revisions with
  | None => raise (FileNotFoundError "Revision not found")
  | Some revision => content ← content_for_revision revision; mret (revision, content)
  end.
Definition revision_with_content (revision_id : string) : af (Revision * string) :=
  recover_pending_source_write;;
  revision_with_content_locked revision_id.

End Revisions.
