(* ===== verification/ArtifactRepairs.v ===== *)
(** * Agent repairs ([src/cowork/services/artifact_revisions.py]).

    A repair hands one comment thread to an agent: it is queued against the head
    revision of a source, becomes ready when the agent's turn ends with an edit,
    and is accepted or rejected by the owner.  At most one repair that can still
    land gates a source. *)
From stdpp Require Import base list gmap strings option.
From Stdlib Require Import ZArith Lia.
From S2P Require Import Prelude JsonText Uuid Identity ArtifactRevisions.

Section Repairs.
Context {AE : ArtifactEnv} {PF : Platform}.

(** [_is_superseded]. *)
Definition is_superseded (revisions : list Revision) (repair : Repair) : bool :=
  match rp_revision repair with
  | Some revision_id =>
      if truthy revision_id then
        match head_revision_id revisions (rp_path repair) with
        | Some head => negb (String.eqb head revision_id)
        | None => false
        end
      else false
  | None => false
  end.

Definition actionable (repair : Repair) : bool := bool_decide (rp_status repair ∈ [r_queued; r_ready]).

(** [_actionable_repairs_for_path]. *)
Definition actionable_repairs_for_path (rel_path : string) : af (list Repair) :=
  repairs ← repair_records;
  mret (base.filter (λ r, actionable r && String.eqb (rp_path r) rel_path = true) repairs).

(** [_partition_actionable_repairs]: what one repair is, with the status that
    finishes a dead one. *)
Inductive Standing := Superseded | Blocking | Dead (status : RepairStatus).
#[export] Instance Standing_eq_dec : EqDecision Standing.
Proof. solve_decision. Defined.

Definition standing (now : Z) (revisions : list Revision) (rel_path : string) (repair : Repair) : Standing :=
  if is_superseded revisions repair then Superseded
  else if bool_decide (rp_status repair = r_queued) then
    match head_revision_id revisions rel_path with
    | Some head =>
        if negb (String.eqb (rp_base repair) head) then Dead r_conflict
        else
          match rp_created_at repair with
          | None => Dead r_no_change
          | Some created => if (QUEUED_REPAIR_TTL_SECONDS <? now - created)%Z then Dead r_no_change else Blocking
          end
    | None =>
        match rp_created_at repair with
        | None => Dead r_no_change
        | Some created => if (QUEUED_REPAIR_TTL_SECONDS <? now - created)%Z then Dead r_no_change else Blocking
        end
    end
  else Blocking.
Definition partition_actionable_repairs (revisions : list Revision) (rel_path : string) :
    af (list Repair * list (Repair * RepairStatus)) :=
  now ← gets fo_now;
  repairs ← actionable_repairs_for_path rel_path;
  mret (base.filter (λ r, standing now revisions rel_path r = Blocking) repairs,
        omap (λ r, match standing now revisions rel_path r with Dead status => Some (r, status) | _ => None end) repairs).

(** [has_queued_agent_repair]. *)
Definition has_queued_agent_repair (conversation_id : string) : af bool :=
  repairs ← repair_records;
  mret (existsb (λ r, bool_decide (rp_status r = r_queued) && String.eqb (rp_conversation r) conversation_id) repairs).

(** A repair with a new status. *)
Definition settle (status : RepairStatus) (repair : Repair) : af Repair :=
  now ← gets fo_now;
  let repair := repair <| rp_status := status |> <| rp_updated_at := now |> in
  write_repair repair;;
  mret repair.

(** [_finish_queued_repairs]. *)
Definition finish_queued_repairs (repairs : list Repair) (matching_base_id revision_id : option string) : af () :=
  for_each repairs (λ repair,
    let status :=
      if negb (bool_decide (Some (rp_base repair) = matching_base_id)) then r_conflict
      else if truthy_opt revision_id then r_ready else r_no_change in
    _ ← settle status (repair <| rp_revision := revision_id |>);
    mret ()).

(** [capture_agent_revision]; artifact id and metadata are the caller's. *)
Definition capture_locked (primary : option string) (artifact_id : string) (conversation_id : option string) : af Revision :=
  recover_pending_source_write;;
  relative ← lift_source primary None;
  content ← read_source relative;
  raise_if (negb (utf8_valid true content)) (UnicodeDecodeError "utf-8");;
  revisions ← read_manifest;
  let latest := latest_of relative revisions in
  repairs ← repair_records;
  let turn_repairs := base.filter (λ r, rp_status r = r_queued ∧ Some (rp_conversation r) = conversation_id) repairs in
  let queued := base.filter (λ r, rp_path r = relative) turn_repairs in
  for_each (base.filter (λ r, rp_path r ≠ relative) turn_repairs) (λ r, _ ← settle r_conflict r; mret ());;
  let unchanged := match latest with Some r => String.eqb (rv_hash r) (sha content) | None => false end in
  match latest, unchanged with
  | Some r, true =>
      finish_queued_repairs queued (Some (rv_id r)) None;;
      mret r
  | _, _ =>
      let latest_id := rv_id <$> latest in
      let matching := base.filter (λ r, Some (rp_base r) = latest_id) queued in
      '(entry, _) ← append_revision revisions artifact_id relative content "agent" None "Agent updated artifact" latest_id
        conversation_id (base.filter (λ t, truthy t = true) (map rp_thread_id matching));
      finish_queued_repairs queued latest_id (Some (rv_id entry));;
      mret entry
  end.
Definition capture_agent_revision (primary : option string) (artifact_id : string) (conversation_id : option string) :
    af (option Revision) :=
  catch (revision ← capture_locked primary artifact_id conversation_id; mret (Some revision))
    (λ e, match e with
          | OSError _ | FileNotFoundError _ | UnicodeDecodeError _ | ValueError _ | RevisionValidationError _ | TimeoutError _ =>
              Some (mret None)
          | _ => None
          end).

(** [create_agent_repair]; the prompt it also returns is only text. *)
Definition create_agent_repair (primary : option string) (artifact_id expected_revision_id comment_thread_id : string)
    (selector : option string) (thread : json) (conversation_id : string) : af Repair :=
  source ← current_source_locked primary artifact_id None;
  let current := so_revision source in
  raise_if (negb (String.eqb (rv_id current) expected_revision_id))
    (RevisionConflict "Artifact changed since this edit began" (rv_id current));;
  revisions ← read_manifest;
  '(blocking, dead) ← partition_actionable_repairs revisions (so_path source);
  match blocking with
  | repair :: _ => raise (RepairAlreadyPending (rp_id repair))
  | [] =>
      for_each dead (λ rs : Repair * RepairStatus, _ ← settle rs.2 rs.1; mret ());;
      id ← mint;
      now ← gets fo_now;
      let repair := {|
        rp_id := id; rp_artifact_id := artifact_id; rp_path := so_path source; rp_base := rv_id current;
        rp_base_hash := rv_hash current; rp_thread_id := comment_thread_id; rp_selector := selector; rp_thread := thread;
        rp_conversation := conversation_id; rp_status := r_queued; rp_revision := None; rp_created_at := Some now;
        rp_updated_at := now |} in
      write_repair repair;;
      mret repair
  end.

(** [agent_repair_detail]: the repair, whether it is superseded, and what to
    compare. *)
Definition agent_repair_detail (repair_id : string) : af (Repair * bool * option ((Revision * string) * (Revision * string))) :=
  recover_pending_source_write;;
  repair ← read_repair repair_id;
  revisions ← read_manifest;
  let superseded := is_superseded revisions repair in
  match rp_revision repair with
  | Some revision_id =>
      if bool_decide (rp_status repair = r_ready) && truthy revision_id then
        before ← revision_with_content_locked (rp_base repair);
        after ← revision_with_content_locked revision_id;
        raise_if (negb (String.eqb (rv_path before.1) (rp_path repair)) || negb (String.eqb (rv_path after.1) (rp_path repair)))
          (RevisionValidationError "Agent repair revision path is inconsistent");;
        mret (repair, superseded, Some (before, after))
      else mret (repair, superseded, None)
  | None => mret (repair, superseded, None)
  end.

(** [active_agent_repair]. *)
Definition newest (candidates : list Repair) : option Repair :=
  match candidates with
  | [] => None
  | r :: rest => Some (foldl (λ best r, if (default 0 (rp_created_at best) <? default 0 (rp_created_at r))%Z then r else best) r rest)
  end.
Definition active_agent_repair (rel_path : option string) : af (option (Repair * bool)) :=
  repairs ← repair_records;
  let candidates := base.filter (λ r, actionable r = true ∧
    match rel_path with Some p => bool_decide (rp_path r = p) | None => true end = true) repairs in
  match candidates with
  | [] => mret None
  | _ =>
      revisions ← read_manifest;
      let live := base.filter (λ r, is_superseded revisions r = false) candidates in
      mret ((λ r, (r, is_superseded revisions r)) <$> (match newest live with Some r => Some r | None => newest candidates end))
  end.

(** [cancel_agent_repair]. *)
Definition cancel_agent_repair (repair_id : string) (discard_ready : bool) : af Repair :=
  repair ← read_repair repair_id;
  match rp_status repair with
  | r_cancelled | r_discarded => mret repair
  | r_queued => settle r_cancelled repair
  | r_ready =>
      if discard_ready then settle r_discarded repair
      else raise (RevisionValidationError "Only a queued agent repair can be cancelled")
  | _ => raise (RevisionValidationError "Only a queued agent repair can be cancelled")
  end.

(** [release_repairs_for_comment]. *)
Definition release_repairs_for_comment (comment_thread_id : string) : af (list Repair) :=
  repairs ← repair_records;
  map_each (settle r_discarded)
    (base.filter (λ r, rp_thread_id r = comment_thread_id ∧ rp_status r = r_ready) repairs).

(** [finalize_agent_repair]. *)
Inductive Decision_ := d_accepted | d_rejected.
Definition decided (decision : Decision_) : RepairStatus :=
  match decision with d_accepted => r_accepted | d_rejected => r_rejected end.

Definition superseded_conflict (current : Revision) : exn :=
  RevisionConflict "This artifact changed after the agent's edit. Review the current revision, then keep or discard the suggestion."
    (rv_id current).

(** The rejection already committed, its status was not yet written. *)
Definition half_rejected (repair : Repair) (current : Revision) : bool :=
  bool_decide (rv_base current = rp_revision repair) && String.eqb (rv_summary current) "Rejected agent suggestion" &&
  bool_decide (rp_thread_id repair ∈ rv_threads current).

Definition check_decision (decision : Decision_) (repair : Repair) (current : Revision) (revisions : list Revision)
    (expected_head : option string) : exn + () :=
  match decision with
  | d_accepted =>
      if negb (existsb (λ r, bool_decide (Some (rv_id r) = rp_revision repair) && String.eqb (rv_path r) (rp_path repair)) revisions)
      then inl (RevisionValidationError "The agent's revision is no longer in this artifact's history")
      else if is_superseded revisions repair && negb (bool_decide (expected_head = Some (rv_id current)))
      then inl (superseded_conflict current)
      else inr ()
  | d_rejected =>
      match expected_head with
      | Some head => if String.eqb (rv_id current) head then inr () else inl (superseded_conflict current)
      | None => if bool_decide (Some (rv_id current) = rp_revision repair) then inr () else inl (superseded_conflict current)
      end
  end.

Definition finalize_agent_repair (primary : option string) (artifact_id repair_id : string) (decision : Decision_)
    (actor_id expected_head : option string) : af Repair :=
  repair ← read_repair repair_id;
  if bool_decide (rp_status repair = decided decision) then mret repair
  else
    raise_if (negb (bool_decide (rp_status repair = r_ready))) (RevisionValidationError "Agent repair is not ready for review");;
    source ← current_source_locked primary artifact_id (Some (rp_path repair));
    let current := so_revision source in
    if bool_decide (decided decision = r_rejected) && half_rejected repair current then settle (decided decision) repair
    else
      revisions ← read_manifest;
      match check_decision decision repair current revisions expected_head with
      | inl e => raise e
      | inr _ =>
          match decision with
          | d_accepted => mret ()
          | d_rejected =>
              before ← revision_with_content_locked (rp_base repair);
              raise_if (negb (String.eqb (rv_path before.1) (rp_path repair)))
                (RevisionValidationError "Agent repair revision path is inconsistent");;
              relative ← lift_source primary (Some (rp_path repair));
              _ ← commit_source_revision revisions relative artifact_id relative (so_content source) before.2 "manual" actor_id
                "Rejected agent suggestion" (Some (rv_id current)) None [rp_thread_id repair];
              mret ()
          end;;
          settle (decided decision) repair
      end.

End Repairs.
