(* ===== verification/Triples.v ===== *)
(** * Triples for effects.

    [triple E P m Q]: run in a state of [P], the effect [m] returns in one of [Q]
    or raises in one of [E].  The rules are those of the constructs of [eff]. *)
From stdpp Require Import base list option.
From S2P Require Import Prelude.

Section Triples.
Context {W : Type} (E : W → Prop).

Definition triple {A} (P : W → Prop) (m : eff W A) (Q : A → W → Prop) : Prop :=
  ∀ w, P w → match m w with (w', inr a) => Q a w' | (w', inl _) => E w' end.

Lemma triple_ret {A} (P : W → Prop) (a : A) Q : (∀ w, P w → Q a w) → triple P (mret a) Q.
Proof. intros H w Hw. by apply H. Qed.

Lemma triple_raise {A} (P : W → Prop) e (Q : A → W → Prop) : (∀ w, P w → E w) → triple P (raise e) Q.
Proof. intros H w Hw. by apply H. Qed.

Lemma triple_bind {A B} P (m : eff W A) (f : A → eff W B) R Q :
  triple P m R → (∀ a, triple (R a) (f a) Q) → triple P (m ≫= f) Q.
Proof.
  intros Hm Hf w Hw. specialize (Hm w Hw). unfold mbind, eff_bind. destruct (m w) as [w1 [e|a]]; [done|].
  by apply Hf.
Qed.

Lemma triple_gets {A} (P : W → Prop) (f : W → A) Q : (∀ w, P w → Q (f w) w) → triple P (gets f) Q.
Proof. intros H w Hw. by apply H. Qed.

(** What is read is known of the state. *)
Lemma triple_get {A B} (P : W → Prop) (f : W → A) (k : A → eff W B) Q :
  (∀ a, triple (λ w, P w ∧ f w = a) (k a) Q) → triple P (gets f ≫= k) Q.
Proof. intros H. eapply triple_bind; [apply (triple_gets _ _ (λ a w, P w ∧ f w = a)); auto|]. done. Qed.

Lemma triple_modify (P : W → Prop) (f : W → W) Q : (∀ w, P w → Q () (f w)) → triple P (modify f) Q.
Proof. intros H w Hw. by apply H. Qed.

Lemma triple_raise_if (P : W → Prop) b e Q :
  (∀ w, P w → b = true → E w) → (∀ w, P w → b = false → Q () w) → triple P (raise_if b e) Q.
Proof. intros H1 H2 w Hw. destruct b; cbn; [by apply H1|by apply H2]. Qed.

Lemma triple_conseq {A} (P P' : W → Prop) (m : eff W A) (Q Q' : A → W → Prop) :
  triple P' m Q' → (∀ w, P w → P' w) → (∀ a w, Q' a w → Q a w) → triple P m Q.
Proof. intros H HP HQ w Hw. specialize (H w (HP w Hw)). destruct (m w) as [w1 [e|a]]; auto. Qed.

Lemma triple_pre {A} (P : W → Prop) (m : eff W A) (Q : A → W → Prop) :
  (∀ w0, P w0 → triple (λ w, w = w0) m Q) → triple P m Q.
Proof. intros H w Hw. exact (H w Hw w eq_refl). Qed.

Lemma triple_for_each {A} (P : W → Prop) (l : list A) body :
  (∀ x, x ∈ l → triple P (body x) (λ _, P)) → triple P (for_each l body) (λ _, P).
Proof.
  induction l as [|x l IH]; intros H; cbn; [by apply triple_ret|].
  eapply triple_bind; [apply H; by left|]. intros []. apply IH. intros y Hy. apply H. by right.
Qed.

Lemma triple_map_each {A B} (P : W → Prop) (f : A → eff W B) (l : list A) :
  (∀ x, triple P (f x) (λ _, P)) → triple P (map_each f l) (λ _, P).
Proof.
  intros H. induction l as [|x l IH]; cbn; [by apply triple_ret|].
  eapply triple_bind; [apply H|]. intros y. eapply triple_bind; [apply IH|]. intros ys. by apply triple_ret.
Qed.

(** Where raising keeps what returning keeps, a handler may go on. *)
Lemma triple_catch {A} P (m : eff W A) h Q :
  triple P m Q → (∀ e k, h e = Some k → triple E k Q) → triple P (catch m h) Q.
Proof.
  intros Hm Hh w Hw. specialize (Hm w Hw). unfold catch. destruct (m w) as [w1 [e|a]]; [|done].
  destruct (h e) as [k|] eqn:He; [|done]. by apply (Hh e k He).
Qed.

End Triples.

Lemma triple_exn {W A} (E E' P : W → Prop) (m : eff W A) Q : (∀ w, E w → E' w) → triple E P m Q → triple E' P m Q.
Proof. intros HE H w Hw. specialize (H w Hw). destruct (m w) as [w' [e|a]]; auto. Qed.

(** Running a sequence whose first part returns. *)
Lemma run_bind {W A B} (m : eff W A) (k : A → eff W B) w w' a : m w = (w', inr a) → (m ≫= k) w = k a w'.
Proof. intros H. unfold mbind, eff_bind. by rewrite H. Qed.
