(* ===== verification/ArtifactLog.v ===== *)
(** * The history of an artifact.

    Over all operations on an artifact, the process dying before any write and
    the agent rewriting the sources in between: the manifest holds the last
    revisions of an append-only history, numbered upwards, with distinct ids, and
    each one's content can be read. *)
From stdpp Require Import base list gmap strings option relations sorting.
From Stdlib Require Import ZArith Lia.
From S2P Require Import Prelude JsonText Uuid Identity Triples ArtifactRevisions ArtifactRepairs.

(** What is known of hashes and ids. *)
Class ArtifactLaws {AE : ArtifactEnv} := {
  sha_hex : ∀ content, is_content_hash (sha content) = true;
  uuid4_text : ∀ n, uuid_text (uuid4 n) = Some (uuid4 n);
}.

Section Log.
Context {AE : ArtifactEnv} {AL : ArtifactLaws} {PF : Platform}.

(** ** The invariant *)

Definition last80 (l : list Revision) : list Revision := drop (length l - MAX_REVISIONS) l.

Definition manifest_of (f : Folder) : option (list Revision) :=
  match fo_manifest f with Absent => Some [] | Unreadable => None | Stored l => Some l end.

Record revs_ok (f : Folder) (revs : list Revision) : Prop := {
  ro_ids : NoDup (map rv_id revs);
  ro_numbers : StronglySorted Z.lt (map rv_number revs);
  ro_length : length revs ≤ MAX_REVISIONS;
  ro_blobs : Forall (λ r, is_Some (blob_bytes f (rv_hash r))) revs;
}.

(** The manifest is the tail of a history that began with [revs0]. *)
Record kept (revs0 : list Revision) (f : Folder) : Prop := {
  ke_history : ∃ new, manifest_of f = Some (last80 (revs0 ++ new));
  ke_revs : ∀ revs, manifest_of f = Some revs → revs_ok f revs;
}.

Lemma last80_last80 a b : last80 (last80 a ++ b) = last80 (a ++ b).
Proof.
  unfold last80. rewrite !length_app, length_drop.
  destruct (decide (length a ≤ MAX_REVISIONS)) as [Ha|Ha].
  - replace (length a - MAX_REVISIONS) with 0 by lia. cbn. f_equal. lia.
  - destruct (decide (length b ≤ MAX_REVISIONS)) as [Hb|Hb].
    + rewrite !drop_app_le by (rewrite ?length_drop; lia). rewrite drop_drop. f_equal. f_equal. lia.
    + rewrite !drop_app_ge by (rewrite ?length_drop; lia). rewrite length_drop. f_equal. lia.
Qed.

Lemma last80_length l : length (last80 l) ≤ MAX_REVISIONS.
Proof. unfold last80. rewrite length_drop. lia. Qed.
Lemma last80_suffix l : last80 l `suffix_of` l.
Proof. apply suffix_drop. Qed.

(** ** Blobs *)

Lemma blob_bytes_sha f h c : blob_bytes f h = Some c → sha c = h ∧ (Z.of_nat (String.length c) ≤ MAX_SOURCE_BYTES)%Z.
Proof.
  unfold blob_bytes. destruct (is_content_hash h); [|done]. cbn. destruct (fo_blobs f !! h) as [c'|]; [|done].
  destruct (Z.ltb_spec MAX_SOURCE_BYTES (Z.of_nat (String.length c'))); [done|].
  destruct (String.eqb_spec (sha c') h); [|done]. by intros [= <-].
Qed.

Lemma blob_bytes_same f f' h : fo_blobs f' !! h = fo_blobs f !! h → blob_bytes f' h = blob_bytes f h.
Proof. unfold blob_bytes. by intros ->. Qed.

(** ** Frames *)

Lemma kept_frame revs0 f f' :
  kept revs0 f → manifest_of f' = manifest_of f →
  (∀ h, is_Some (blob_bytes f h) → is_Some (blob_bytes f' h)) → kept revs0 f'.
Proof.
  intros [Hh Hr] Em Hb. split; [by rewrite Em|].
  intros revs. rewrite Em. intros H. destruct (Hr revs H) as [H1 H3 H4 H5]. split; try done.
  eapply list.Forall_impl; [exact H5|]. cbn. auto.
Qed.

(** ** The operations *)

(** A write: what holds before it is what a crash leaves. *)
Lemma triple_on_disk (E P : Folder → Prop) f (Q : () → Folder → Prop) :
  (∀ s, P s → fo_budget s = Some 0 → E s) → (∀ s n, P s → Q () (f s <| fo_budget := n |>)) →
  (∀ s, P s → fo_budget s = None → Q () (f s)) → triple E P (on_disk f) Q.
Proof.
  intros HI HQ HN w Hw. unfold on_disk, mbind, eff_bind. cbn [gets].
  destruct (fo_budget w) as [[|n]|] eqn:B; cbn; [by apply HI| |by apply HN]. by apply HQ.
Qed.

Section Ops.
Context (revs0 : list Revision).
Abbreviation I := (kept revs0).
Abbreviation tri := (triple I).

Lemma tri_read_manifest : tri I read_manifest (λ revs s, I s ∧ manifest_of s = Some revs).
Proof.
  apply triple_get. intros m. destruct m; [apply triple_ret|apply triple_raise|apply triple_ret]; intros w [H E]; try done;
    (split; [done|]; unfold manifest_of; by rewrite E).
Qed.

Lemma tri_clear_pending : tri I clear_pending (λ _, I).
Proof.
  apply triple_get. intros p. destruct p; [apply triple_ret; by intros w []| |];
    (apply triple_on_disk; [by intros s []|intros s n [H _]|intros s [H _] _]; eapply kept_frame; eauto; done).
Qed.

Lemma kept_store f h c :
  I f → sha c = h → (Z.of_nat (String.length c) ≤ MAX_SOURCE_BYTES)%Z →
  let f' := f <| fo_blobs := <[h := c]> (fo_blobs f) |> in I f' ∧ blob_bytes f' h = Some c.
Proof.
  intros H Hs Hl f'. assert (Hb : blob_bytes f' h = Some c).
  { unfold blob_bytes. rewrite <-Hs, sha_hex. cbn. rewrite Hs, lookup_insert_eq.
    destruct (Z.ltb_spec MAX_SOURCE_BYTES (Z.of_nat (String.length c))); [lia|]. by rewrite Hs, String.eqb_refl. }
  split; [|done]. apply (kept_frame revs0 f); try done. intros h' Hh'.
  destruct (decide (h = h')) as [<-|Hne]; [by rewrite Hb|].
  rewrite (blob_bytes_same f f'); [done|]. cbn. by rewrite lookup_insert_ne.
Qed.

Lemma tri_store_blob (R : Folder → Prop) h c :
  sha c = h → (Z.of_nat (String.length c) ≤ MAX_SOURCE_BYTES)%Z →
  (∀ s b n, R s → R (s <| fo_blobs := b |> <| fo_budget := n |>)) → (∀ s b, R s → R (s <| fo_blobs := b |>)) →
  tri (λ s, I s ∧ R s) (store_blob h c) (λ _ s, I s ∧ R s ∧ is_Some (blob_bytes s h)).
Proof.
  intros Hs Hl HR1 HR2. apply triple_get. intros s0. destruct (blob_bytes s0 h) as [c'|] eqn:B.
  { apply triple_ret. intros w [[H1 H2] <-]. cbn in B. rewrite B. eauto. }
  apply triple_on_disk; [by intros s [[] _]| |].
  - intros s n [[H1 H2] _]. destruct (kept_store s h c H1 Hs Hl) as [H3 H4]. split; [|split; [by apply HR1|]].
    + eapply kept_frame; eauto.
    + change (is_Some (blob_bytes (s <| fo_blobs := <[h:=c]> (fo_blobs s) |>) h)). rewrite H4. eauto.
  - intros s [[H1 H2] _] _. destruct (kept_store s h c H1 Hs Hl) as [H3 H4]. rewrite H4. eauto.
Qed.

(** *** The next manifest *)

Definition renumbered (revs : list Revision) (entry : Revision) : Revision :=
  match revs with
  | [] => entry
  | _ => if (rv_number entry <=? last_number revs)%Z then entry <| rv_number := (last_number revs + 1)%Z |> else entry
  end.

Lemma renumbered_same revs entry :
  rv_id (renumbered revs entry) = rv_id entry ∧ rv_hash (renumbered revs entry) = rv_hash entry ∧
  rv_path (renumbered revs entry) = rv_path entry.
Proof. unfold renumbered. destruct revs; [done|]. by destruct (_ <=? _)%Z. Qed.

Lemma renumbered_above revs entry : revs ≠ [] → (last_number revs < rv_number (renumbered revs entry))%Z.
Proof.
  unfold renumbered. destruct revs as [|r revs]; [done|]. intros _.
  destruct (Z.leb_spec (rv_number entry) (last_number (r :: revs))); cbn; lia.
Qed.

Lemma sorted_snoc (l : list Revision) r :
  StronglySorted Z.lt (map rv_number l) → (l ≠ [] → (last_number l < rv_number r)%Z) →
  StronglySorted Z.lt (map rv_number (l ++ [r])).
Proof.
  intros Hs Hr. rewrite map_app. destruct (decide (l = [])) as [-> | Hne]; [repeat constructor|]. specialize (Hr Hne).
  assert (Hall : Forall (λ n, (n < rv_number r)%Z) (map rv_number l)).
  { destruct l as [|x l _] using rev_ind; [done|]. unfold last_number in Hr. rewrite last_snoc in Hr. cbn in Hr.
    rewrite map_app in *. apply list.Forall_app. split; [|by repeat constructor].
    clear Hne. induction (map rv_number l) as [|n ns IH]; [constructor|]. cbn in Hs. inversion Hs as [|? ? Hs' Hf]; subst.
    apply list.Forall_app in Hf as [_ Hf]. inversion Hf; subst. constructor; [lia|by apply IH]. }
  clear -Hs Hall. induction Hs as [|n ns _ IH Hn]; [repeat constructor|]. inversion Hall; subst. cbn.
  constructor; [by apply IH|]. apply list.Forall_app. split; [done|by repeat constructor].
Qed.

Lemma sorted_suffix {A} (R : relation A) l l' : l `suffix_of` l' → StronglySorted R l' → StronglySorted R l.
Proof. intros [pre ->]. induction pre as [|x pre IH]; [done|]. cbn. inversion 1. auto. Qed.

Lemma revs_ok_next f revs entry :
  revs_ok f revs → is_Some (blob_bytes f (rv_hash entry)) →
  find (λ r, String.eqb (rv_id r) (rv_id entry)) revs = None →
  revs_ok f (last80 (revs ++ [renumbered revs entry])).
Proof.
  intros [H1 H3 H4 H5] Hb Hf. destruct (renumbered_same revs entry) as (Ei & Eh & _).
  set (e := renumbered revs entry) in *. destruct (last80_suffix (revs ++ [e])) as [pre Hpre].
  pose proof (last80_length (revs ++ [e])) as HL. set (L := last80 (revs ++ [e])) in *. clearbody L. split.
  - assert (Hn : NoDup (map rv_id (revs ++ [e]))).
    { rewrite map_app. apply list.NoDup_app. split; [done|]. split; [|by apply NoDup_singleton].
      intros id Hin ->%list_elem_of_singleton. apply list_elem_of_fmap in Hin as (r & Hid & Hr).
      eapply find_none in Hf; [|by apply list_elem_of_In]. rewrite <-Hid, Ei in Hf. by rewrite String.eqb_refl in Hf. }
    rewrite Hpre, map_app in Hn. by apply list.NoDup_app in Hn as (_ & _ & ?).
  - apply (sorted_suffix _ _ (map rv_number (revs ++ [e]))); [rewrite Hpre, map_app; by eexists|].
    apply sorted_snoc; [done|]. intros Hne. by apply renumbered_above.
  - exact HL.
  - assert (Ha : Forall (λ r, is_Some (blob_bytes f (rv_hash r))) (revs ++ [e])).
    { apply list.Forall_app. split; [done|]. constructor; [by rewrite Eh|done]. }
    rewrite Hpre in Ha. by apply list.Forall_app in Ha as [_ ?].
Qed.

Lemma kept_manifest f revs entry :
  I f → manifest_of f = Some revs → is_Some (blob_bytes f (rv_hash entry)) →
  find (λ r, String.eqb (rv_id r) (rv_id entry)) revs = None →
  I (f <| fo_manifest := Stored (last80 (revs ++ [renumbered revs entry])) |>).
Proof.
  intros [Hh Hr] Hm Hb Hf. pose proof (revs_ok_next f revs entry (Hr _ Hm) Hb Hf) as Hok.
  destruct Hh as [new Hh]. rewrite Hm in Hh. injection Hh as ->. split.
  - exists (new ++ [renumbered (last80 (revs0 ++ new)) entry]). cbn. by rewrite last80_last80, <-app_assoc.
  - intros revs. cbn. intros [= <-]. destruct Hok. by split.
Qed.

Lemma tri_prune revs : tri (λ s, I s ∧ manifest_of s = Some revs) (prune_blobs (map rv_hash revs)) (λ _ s, I s ∧ manifest_of s = Some revs).
Proof.
  apply triple_get. intros blobs.
  apply (triple_conseq _ _ (λ s, I s ∧ manifest_of s = Some revs) _ _ (λ _ s, I s ∧ manifest_of s = Some revs));
    [|by intros w [H _]|done].
  apply triple_for_each. intros h [Hh _]%list_elem_of_filter.
  assert (HI : ∀ s, I s → manifest_of s = Some revs → I (s <| fo_blobs := delete h (fo_blobs s) |>)).
  { intros s [H1 H2] Hm. split; [exact H1|]. intros revs' Hm'. change (manifest_of s = Some revs') in Hm'.
    rewrite Hm in Hm'. injection Hm' as <-. destruct (H2 _ Hm) as [A1 A3 A4 A5]. split; try done.
    rewrite list.Forall_forall in A5 |- *. intros r Hr. rewrite (blob_bytes_same s); [by apply A5|]. cbn.
    apply lookup_delete_ne. intros ->. apply Hh. by apply (list_elem_of_fmap_2 rv_hash). }
  apply triple_on_disk; [by intros s []| |].
  - intros s n [H1 H2]. split; [|done]. eapply kept_frame; [apply HI; eassumption|..]; try done.
  - intros s [H1 H2] _. split; [by apply HI|done].
Qed.

(** [_persist_revision]. *)
Lemma tri_persist revs entry content :
  (Z.of_nat (String.length content) ≤ MAX_SOURCE_BYTES)%Z →
  tri (λ s, I s ∧ manifest_of s = Some revs) (persist_revision revs entry content)
    (λ er s, I s ∧ manifest_of s = Some er.2).
Proof.
  intros Hl. unfold persist_revision. destruct (String.eqb_spec (rv_hash entry) (sha content)) as [Hs|_];
    [|intros w [H _]; exact H].
  eapply triple_bind; [apply (triple_ret _ _ _ (λ _ s, I s ∧ manifest_of s = Some revs)); done|]. intros [].
  eapply triple_bind; [by apply (tri_store_blob (λ s, manifest_of s = Some revs))|]. intros [].
  destruct (find _ revs) as [existing|] eqn:F; [apply triple_ret; by intros w (A & B & _)|].
  fold (renumbered revs entry). fold (last80 (revs ++ [renumbered revs entry])).
  set (revs' := last80 (revs ++ [renumbered revs entry])).
  eapply triple_bind; [apply (triple_on_disk _ _ _ (λ _ s, I s ∧ manifest_of s = Some revs')); [by intros s []| |]|].
  - intros s n (A & B & D). split; [|done]. eapply kept_frame; [by apply (kept_manifest s revs entry)|..]; done.
  - intros s (A & B & D) _. split; [by apply kept_manifest|done].
  - intros []. apply triple_bind with (R := λ _ s, I s ∧ manifest_of s = Some revs').
    + destruct (Nat.ltb _ _); [apply tri_prune|by apply triple_ret].
    + intros []. by apply triple_ret.
Qed.

(** *** Everything else *)

Lemma tri_new_revision revs aid path content kind actor summary base conv threads :
  tri (λ s, I s ∧ manifest_of s = Some revs) (new_revision revs aid path content kind actor summary base conv threads)
    (λ e s, I s ∧ manifest_of s = Some revs).
Proof. intros w [H Hm]. cbn. split; [|done]. by apply (kept_frame revs0 w). Qed.

Lemma tri_append revs aid path content kind actor summary base conv threads :
  (Z.of_nat (String.length content) ≤ MAX_SOURCE_BYTES)%Z →
  tri (λ s, I s ∧ manifest_of s = Some revs) (append_revision revs aid path content kind actor summary base conv threads)
    (λ er s, I s ∧ manifest_of s = Some er.2).
Proof. intros Hl. eapply triple_bind; [apply tri_new_revision|]. intros e. by apply tri_persist. Qed.

Lemma tri_read_source target : tri I (read_source target)
  (λ c s, I s ∧ (Z.of_nat (String.length c) ≤ MAX_SOURCE_BYTES)%Z).
Proof.
  apply triple_get. intros sources. destruct (sources !! target) as [c|]; [|apply triple_raise; by intros w []].
  eapply triple_bind; [apply (triple_raise_if _ _ _ _ (λ _ s, I s ∧ (Z.of_nat (String.length c) ≤ MAX_SOURCE_BYTES)%Z)); [by intros w []|]|].
  { intros w [H _] Hl%Z.ltb_ge. done. }
  intros []. apply triple_ret. by intros w [].
Qed.

Lemma tri_lift_source primary rel : tri I (lift_source primary rel) (λ _, I).
Proof.
  apply triple_get. intros s0. destruct (resolve_source s0 primary rel); [apply triple_raise|apply triple_ret]; by intros w [].
Qed.

Lemma tri_raise_if b e : tri I (raise_if b e) (λ _, I).
Proof. by apply triple_raise_if. Qed.

Lemma tri_captured_head revs aid rel content summary :
  (Z.of_nat (String.length content) ≤ MAX_SOURCE_BYTES)%Z →
  tri (λ s, I s ∧ manifest_of s = Some revs) (captured_head revs aid rel content summary) (λ er s, I s ∧ manifest_of s = Some er.2).
Proof.
  intros Hl. unfold captured_head. destruct (latest_of rel revs) as [r|]; [|by apply tri_append].
  destruct (String.eqb _ _); [by apply triple_ret|by apply tri_append].
Qed.

Lemma tri_write_source target content (R : Folder → Prop) :
  (∀ s x n, R s → R (s <| fo_sources := x |> <| fo_budget := n |>)) → (∀ s x, R s → R (s <| fo_sources := x |>)) →
  tri (λ s, I s ∧ R s) (write_source target content) (λ _ s, I s ∧ R s).
Proof.
  intros HR1 HR2. apply triple_on_disk; [by intros s []| |].
  - intros s n [H HR]. split; [|by apply HR1]. by apply (kept_frame revs0 s).
  - intros s [H HR] _. split; [|by apply HR2]. by apply (kept_frame revs0 s).
Qed.

Lemma tri_commit revs target aid path before content kind actor summary base conv threads :
  (Z.of_nat (String.length content) ≤ MAX_SOURCE_BYTES)%Z →
  tri (λ s, I s ∧ manifest_of s = Some revs)
    (commit_source_revision revs target aid path before content kind actor summary base conv threads) (λ _, I).
Proof.
  intros Hl. unfold commit_source_revision.
  apply triple_bind with (R := λ e s, (I s ∧ manifest_of s = Some revs) ∧ rv_hash e = sha content).
  { intros w Hw. pose proof (tri_new_revision revs aid path content kind actor summary base conv threads w Hw) as Ht.
    cbn in Ht |- *. split; [exact Ht|done]. }
  intros e. apply triple_pre. intros w0 [H0 Hh]. set (R s := manifest_of s = Some revs).
  apply triple_bind with (R := λ _ s, I s ∧ R s).
  { eapply triple_conseq; [apply (tri_store_blob R (rv_hash e) content); done|intros w ->; exact H0|].
    intros u w (A & B & _). done. }
  intros []. apply triple_bind with (R := λ _ s, I s ∧ R s).
  { apply triple_on_disk; [by intros s []| |].
    - intros s n [HI Hm]. split; [|done]. apply (kept_frame revs0 s); done.
    - intros s [HI Hm] _. split; [|done]. apply (kept_frame revs0 s); done. }
  intros []. apply triple_bind with (R := λ _ s, I s ∧ R s); [by apply tri_write_source|].
  intros []. apply triple_bind with (R := λ er s, I s ∧ manifest_of s = Some er.2); [by apply tri_persist|].
  intros er. apply triple_bind with (R := λ _, I).
  { eapply triple_conseq; [apply tri_clear_pending|by intros w []|done]. }
  intros []. by apply triple_ret.
Qed.

Lemma tri_try_source p : tri I (try_source p) (λ _, I).
Proof.
  apply triple_get. intros s0. destruct (resolve_source s0 None (Some p)) as [e|t].
  - destruct e; (apply triple_ret || apply triple_raise); by intros w [].
  - destruct (fo_sources s0 !! t) as [c|]; [destruct (_ <? _)%Z|]; apply triple_ret; by intros w [].
Qed.

Lemma tri_recover : tri I recover_pending_source_write (λ _, I).
Proof.
  apply triple_get. intros s0. destruct (fo_pending s0) as [| |pw] eqn:P.
  { apply triple_ret. by intros w []. }
  { eapply triple_conseq; [apply tri_clear_pending|by intros w []|done]. }
  assert (Hclear : ∀ R : Folder → Prop, (∀ w, R w → I w) → tri R clear_pending (λ _, I)).
  { intros R HR. eapply triple_conseq; [apply tri_clear_pending|done|done]. }
  cbv zeta. match goal with |- triple _ _ (if ?b then _ else _) _ => destruct b end; [apply Hclear; by intros w []|].
  destruct (blob_bytes s0 (rv_hash (pw_revision pw))) as [content|] eqn:B; [|apply Hclear; by intros w []].
  destruct (blob_bytes_sha _ _ _ B) as [_ Hl].
  apply triple_bind with (R := λ _, I); [eapply triple_conseq; [apply tri_try_source|by intros w []|done]|].
  intros source. destruct source as [[target current]|]; [|by apply Hclear].
  eapply triple_bind; [apply tri_read_manifest|]. intros revs. destruct (existsb _ revs); [apply Hclear; by intros w []|].
  match goal with |- triple _ _ (if ?b then _ else _) _ => destruct b end; [apply Hclear; by intros w []|].
  apply triple_bind with (R := λ _ s, I s ∧ manifest_of s = Some revs).
  { destruct (String.eqb _ _); [by apply tri_write_source|by apply triple_ret]. }
  intros []. eapply triple_bind; [by apply tri_persist|].
  intros er. apply Hclear. by intros w [].
Qed.

(** *** Effects that only read *)

Definition reads {A} (m : af A) : Prop := ∀ s, (m s).1 = s.

Lemma reads_bind {A B} (m : af A) (k : A → af B) : reads m → (∀ a, reads (k a)) → reads (m ≫= k).
Proof. intros Hm Hk s. unfold mbind, eff_bind. specialize (Hm s). destruct (m s) as [s' [e|a]]; cbn in *; subst; [done|apply Hk]. Qed.
Lemma reads_gets {A} (f : Folder → A) : reads (gets f).
Proof. done. Qed.
Lemma reads_ret {A} (a : A) : reads (mret a).
Proof. done. Qed.
Lemma reads_raise {A} e : reads (raise e : af A).
Proof. done. Qed.
Lemma reads_raise_if b e : reads (raise_if b e).
Proof. by destruct b. Qed.
#[local] Hint Resolve reads_bind reads_gets reads_ret reads_raise reads_raise_if : reads.

Lemma reads_manifest : reads read_manifest.
Proof. apply reads_bind; [done|]. by intros []. Qed.
Lemma reads_lift_source primary rel : reads (lift_source primary rel).
Proof. apply reads_bind; [done|]. intros s. by destruct (resolve_source s primary rel). Qed.
Lemma reads_content r : reads (content_for_revision r).
Proof. apply reads_bind; [done|]. intros s. destruct (blob_bytes s _); [|done]. by destruct (utf8_valid _ _). Qed.
Lemma reads_revision rid : reads (revision_with_content_locked rid).
Proof.
  apply reads_bind; [apply reads_manifest|]. intros revs. destruct (find _ revs); [|done].
  apply reads_bind; [apply reads_content|done].
Qed.
Lemma reads_repair rid : reads (read_repair rid).
Proof. apply reads_bind; [done|]. intros rs. destruct (if is_repair_id rid then _ else _) as [r|]; [|done]. by destruct (own_record rid r). Qed.
Lemma reads_repair_records : reads repair_records.
Proof. by apply reads_bind. Qed.
Lemma reads_partition revs p : reads (partition_actionable_repairs revs p).
Proof. by apply reads_bind. Qed.

Lemma tri_reads {A} (P : Folder → Prop) (m : af A) : reads m → (∀ s, P s → I s) → tri P m (λ _, P).
Proof. intros Hm HP w Hw. specialize (Hm w). destruct (m w) as [w' [e|a]]; cbn in Hm; subst; [by apply HP|done]. Qed.

Lemma tri_revision P rid : (∀ s, P s → I s) →
  tri P (revision_with_content_locked rid) (λ rc s, P s ∧ (Z.of_nat (String.length rc.2) ≤ MAX_SOURCE_BYTES)%Z).
Proof.
  intros HP. eapply triple_bind; [by apply (tri_reads P); [apply reads_manifest|]|]. intros revs. cbn beta.
  destruct (find _ revs) as [r|]; [|by apply triple_raise].
  apply triple_bind with (R := λ c s, P s ∧ (Z.of_nat (String.length c) ≤ MAX_SOURCE_BYTES)%Z); [|intros c; by apply triple_ret].
  apply triple_get. intros s0. destruct (blob_bytes s0 (rv_hash r)) as [c|] eqn:B; [|apply triple_raise; by intros w [H _]; apply HP].
  apply blob_bytes_sha in B as [_ B].
  destruct (utf8_valid true c); [apply triple_ret; by intros w [H _]|apply triple_raise; intros w [H _]; by apply HP].
Qed.

(** *** The operations as a whole *)

Lemma tri_seq {A B} (m : af A) (k : A → af B) :
  tri I m (λ _, I) → (∀ a, tri I (k a) (λ _, I)) → tri I (m ≫= k) (λ _, I).
Proof. apply triple_bind. Qed.

(** Writing a repair touches nothing else. *)
Lemma tri_write_repair (R : Folder → Prop) r :
  (∀ s x n, R s → R (s <| fo_repairs := x |> <| fo_budget := n |>)) → (∀ s x, R s → R (s <| fo_repairs := x |>)) →
  tri (λ s, I s ∧ R s) (write_repair r) (λ _ s, I s ∧ R s).
Proof.
  intros HR1 HR2. eapply triple_bind; [apply (tri_reads (λ s, I s ∧ R s)); [apply reads_raise_if|by intros s []]|]. intros [].
  apply triple_on_disk; [by intros s []| |].
  - intros s n [H HR]. split; [|by apply HR1]. by apply (kept_frame revs0 s).
  - intros s [H HR] _. split; [|by apply HR2]. by apply (kept_frame revs0 s).
Qed.

Lemma tri_settle_m st r revs : tri (λ s, I s ∧ manifest_of s = Some revs) (_ ← settle st r; mret ()) (λ _ s, I s ∧ manifest_of s = Some revs).
Proof.
  unfold settle. set (R s := I s ∧ manifest_of s = Some revs).
  apply triple_bind with (R := λ _, R); [|intros ?; by apply triple_ret].
  apply triple_bind with (R := λ _, R); [by apply tri_reads; [|intros s []]|]. intros now.
  apply triple_bind with (R := λ _, R); [by apply tri_write_repair|]. intros []. by apply triple_ret.
Qed.

Lemma tri_settle st r : tri I (settle st r) (λ _, I).
Proof.
  apply tri_seq; [by apply tri_reads|]. intros now. apply tri_seq; [|intros []; by apply triple_ret].
  eapply triple_conseq; [by apply (tri_write_repair (λ _, True))|done|by intros [] w []].
Qed.

Lemma tri_settle_ st r : tri I (_ ← settle st r; mret ()) (λ _, I).
Proof. apply tri_seq; [apply tri_settle|]. intros ?. by apply triple_ret. Qed.

Lemma tri_current primary aid rel : tri I (current_source_locked primary aid rel) (λ _ s, I s).
Proof.
  apply tri_seq; [apply tri_recover|]. intros []. apply tri_seq; [apply tri_lift_source|]. intros relative.
  eapply triple_bind; [apply tri_read_source|]. intros content. apply triple_pre. intros w0 [H0 Hl].
  eapply triple_conseq with (P' := I) (Q' := λ _, I); [|by intros w ->|done].
  apply tri_seq; [apply tri_raise_if|]. intros []. eapply triple_bind; [apply tri_read_manifest|]. intros revs.
  eapply triple_bind; [by apply tri_captured_head|]. intros [latest revs']. apply triple_ret. by intros w [].
Qed.

Lemma tri_workspace primary aid rel : tri I (current_workspace primary aid rel) (λ _, I).
Proof.
  apply tri_seq; [apply tri_current|]. intros src. apply tri_seq; [apply tri_reads; [apply reads_manifest|done]|].
  intros revs. by apply triple_ret.
Qed.

Lemma tri_save primary aid content expected rel kind actor summary conv threads :
  tri I (save_source primary aid content expected rel kind actor summary conv threads) (λ _, I).
Proof.
  unfold save_source. destruct (Z.ltb_spec MAX_SOURCE_BYTES (Z.of_nat (String.length content))) as [_|Hl].
  { intros w Hw. exact Hw. }
  apply tri_seq; [apply tri_raise_if|]. intros [].
  apply tri_seq; [apply tri_recover|]. intros []. apply tri_seq; [apply tri_lift_source|]. intros relative.
  eapply triple_bind; [apply tri_read_source|]. intros existing. apply triple_pre. intros w0 [H0 He].
  eapply triple_conseq with (P' := I) (Q' := λ _, I); [|by intros w ->|done].
  eapply triple_bind; [apply tri_read_manifest|]. intros revs.
  eapply triple_bind; [by apply tri_captured_head|]. intros [latest revs']. cbn [snd].
  eapply triple_bind; [apply (tri_reads (λ s, I s ∧ manifest_of s = Some revs')); [apply reads_raise_if|by intros s []]|].
  intros []. destruct (String.eqb _ _); [apply triple_ret; by intros w []|].
  eapply triple_bind; [by apply tri_commit|]. intros e. by apply triple_ret.
Qed.

Lemma tri_list rel : tri I (list_revisions rel) (λ _, I).
Proof. apply tri_seq; [apply tri_recover|]. intros []. apply tri_seq; [apply tri_reads; [apply reads_manifest|done]|]. intros l. by apply triple_ret. Qed.

Lemma tri_revision_with_content rid : tri I (revision_with_content rid) (λ _, I).
Proof. apply tri_seq; [apply tri_recover|]. intros []. apply tri_reads; [apply reads_revision|done]. Qed.

Lemma tri_finish repairs base rid : tri I (finish_queued_repairs repairs base rid) (λ _, I).
Proof. apply triple_for_each. intros r _. apply tri_settle_. Qed.

Lemma tri_mint : tri I mint (λ _, I).
Proof. intros w H. cbn. by apply (kept_frame revs0 w). Qed.

Lemma tri_capture_locked primary aid conv : tri I (capture_locked primary aid conv) (λ _, I).
Proof.
  apply tri_seq; [apply tri_recover|]. intros []. apply tri_seq; [apply tri_lift_source|]. intros relative.
  eapply triple_bind; [apply tri_read_source|]. intros content. apply triple_pre. intros w0 [H0 Hl].
  eapply triple_conseq with (P' := I) (Q' := λ _, I); [|by intros w ->|done].
  apply tri_seq; [apply tri_raise_if|]. intros []. eapply triple_bind; [apply tri_read_manifest|]. intros revs. cbv zeta.
  set (R s := I s ∧ manifest_of s = Some revs).
  apply triple_bind with (R := λ _, R); [apply tri_reads; [apply reads_repair_records|by intros s []]|]. intros repairs.
  apply triple_bind with (R := λ _, R); [apply triple_for_each; intros r _; apply tri_settle_m|]. intros [].
  assert (Hdone : ∀ queued b rid (r : Revision), tri R (finish_queued_repairs queued b rid;; mret r) (λ _, I)).
  { intros queued b rid r. eapply triple_conseq with (P' := I) (Q' := λ _, I); [|by intros w []|done].
    apply tri_seq; [apply tri_finish|]. intros []. by apply triple_ret. }
  assert (Happ : ∀ queued matching, tri R
    ('(entry, _) ← append_revision revs aid relative content "agent" None "Agent updated artifact" (rv_id <$> latest_of relative revs)
        conv (base.filter (λ t, truthy t = true) (map rp_thread_id matching));
     finish_queued_repairs queued (rv_id <$> latest_of relative revs) (Some (rv_id entry));; mret entry) (λ _, I)).
  { intros queued matching. eapply triple_bind; [by apply tri_append|]. intros [entry revs'].
    eapply triple_conseq with (P' := I) (Q' := λ _, I); [|by intros w []|done].
    apply tri_seq; [apply tri_finish|]. intros []. by apply triple_ret. }
  destruct (latest_of relative revs) as [r|]; [destruct (String.eqb _ _); [apply Hdone|apply Happ]|apply Happ].
Qed.

Lemma tri_capture primary aid conv : tri I (capture_agent_revision primary aid conv) (λ _, I).
Proof.
  apply triple_catch.
  - apply tri_seq; [apply tri_capture_locked|]. intros r. by apply triple_ret.
  - intros e k. destruct e; try done; intros [= <-]; by apply triple_ret.
Qed.

Lemma tri_create primary aid expected thread_id selector thread conv :
  tri I (create_agent_repair primary aid expected thread_id selector thread conv) (λ _, I).
Proof.
  apply tri_seq; [apply tri_current|]. intros source. apply tri_seq; [apply tri_raise_if|]. intros [].
  apply tri_seq; [apply tri_reads; [apply reads_manifest|done]|]. intros revs.
  apply tri_seq; [apply tri_reads; [apply reads_partition|done]|]. intros [[|b blocking] dead]; [|by apply triple_raise].
  apply tri_seq; [apply triple_for_each; intros r _; apply tri_settle_|]. intros [].
  apply tri_seq; [apply tri_mint|]. intros id. apply tri_seq; [by apply tri_reads|]. intros now. cbv zeta.
  apply tri_seq; [|intros []; by apply triple_ret].
  eapply triple_conseq; [by apply (tri_write_repair (λ _, True))|done|by intros [] w []].
Qed.

Lemma tri_detail rid : tri I (agent_repair_detail rid) (λ _, I).
Proof.
  apply tri_seq; [apply tri_recover|]. intros []. apply tri_reads; [|done].
  apply reads_bind; [apply reads_repair|]. intros r. apply reads_bind; [apply reads_manifest|]. intros revs. cbv zeta.
  destruct (rp_revision r) as [rev|]; [|done]. destruct (_ && _); [|done].
  apply reads_bind; [apply reads_revision|]. intros before. apply reads_bind; [apply reads_revision|]. intros after.
  apply reads_bind; [apply reads_raise_if|done].
Qed.

Lemma tri_cancel rid discard : tri I (cancel_agent_repair rid discard) (λ _, I).
Proof.
  apply tri_seq; [apply tri_reads; [apply reads_repair|done]|]. intros r.
  destruct (rp_status r); try (by apply triple_ret); try (by apply triple_raise); try apply tri_settle.
  destruct discard; [apply tri_settle|by apply triple_raise].
Qed.

Lemma tri_release thread_id : tri I (release_repairs_for_comment thread_id) (λ _, I).
Proof.
  apply tri_seq; [apply tri_reads; [apply reads_repair_records|done]|]. intros rs. apply triple_map_each.
  intros r. apply tri_settle.
Qed.

Lemma tri_finalize primary aid rid decision actor expected :
  tri I (finalize_agent_repair primary aid rid decision actor expected) (λ _, I).
Proof.
  apply tri_seq; [apply tri_reads; [apply reads_repair|done]|]. intros repair.
  destruct (bool_decide _); [by apply triple_ret|].
  apply tri_seq; [apply tri_raise_if|]. intros []. apply tri_seq; [apply tri_current|]. intros source. cbv zeta.
  destruct (_ && _); [apply tri_settle|].
  eapply triple_bind; [apply tri_read_manifest|]. intros revs. set (R s := I s ∧ manifest_of s = Some revs).
  assert (HR : ∀ s, R s → I s) by by intros s [].
  destruct (check_decision _ _ _ _ _); [by apply triple_raise|].
  apply triple_bind with (R := λ _, I); [|intros ?; apply tri_settle].
  destruct decision; [by apply triple_ret|].
  eapply triple_bind; [by apply (tri_revision R)|]. intros before. apply triple_pre. intros w0 [H0 Hl].
  eapply triple_conseq with (P' := R) (Q' := λ _, I); [|by intros w ->|done].
  apply triple_bind with (R := λ _, R); [by apply tri_reads; [apply reads_raise_if|]|]. intros [].
  apply triple_bind with (R := λ _, R); [by apply tri_reads; [apply reads_lift_source|]|]. intros relative.
  eapply triple_bind; [by apply tri_commit|]. intros e. by apply triple_ret.
Qed.

End Ops.

(** ** Histories *)

(** A call of the service, with its arguments. *)
Inductive ArtifactOp :=
  | op_current (primary : option string) (artifact_id : string) (rel_path : option string)
  | op_workspace (primary : option string) (artifact_id : string) (rel_path : option string)
  | op_save (primary : option string) (artifact_id content expected : string) (rel_path : option string) (kind : string)
      (actor : option string) (summary : string) (conversation : option string) (threads : list string)
  | op_list (rel_path : option string)
  | op_revision (revision_id : string)
  | op_capture (primary : option string) (artifact_id : string) (conversation : option string)
  | op_create (primary : option string) (artifact_id expected thread_id : string) (selector : option string) (thread : json)
      (conversation : string)
  | op_detail (repair_id : string)
  | op_active (rel_path : option string)
  | op_cancel (repair_id : string) (discard_ready : bool)
  | op_release (thread_id : string)
  | op_finalize (primary : option string) (artifact_id repair_id : string) (decision : Decision_) (actor expected : option string).

Definition run_op (op : ArtifactOp) : af () :=
  match op with
  | op_current primary aid rel => _ ← current_source_locked primary aid rel; mret ()
  | op_workspace primary aid rel => _ ← current_workspace primary aid rel; mret ()
  | op_save primary aid content expected rel kind actor summary conv threads =>
      _ ← save_source primary aid content expected rel kind actor summary conv threads; mret ()
  | op_list rel => _ ← list_revisions rel; mret ()
  | op_revision rid => _ ← revision_with_content rid; mret ()
  | op_capture primary aid conv => _ ← capture_agent_revision primary aid conv; mret ()
  | op_create primary aid expected tid selector thread conv =>
      _ ← create_agent_repair primary aid expected tid selector thread conv; mret ()
  | op_detail rid => _ ← agent_repair_detail rid; mret ()
  | op_active rel => _ ← active_agent_repair rel; mret ()
  | op_cancel rid discard => _ ← cancel_agent_repair rid discard; mret ()
  | op_release tid => _ ← release_repairs_for_comment tid; mret ()
  | op_finalize primary aid rid decision actor expected =>
      _ ← finalize_agent_repair primary aid rid decision actor expected; mret ()
  end.

(** A call, which ends in any way and may be cut short by the process dying
    before any of its writes; the agent's code rewriting sources, the record of a
    write under way and repairs; time. *)
Inductive artifact_step : Folder → Folder → Prop :=
  | step_call f op budget : artifact_step f (run_op op (f <| fo_budget := budget |>)).1
  | step_agent f sources pending repairs :
      artifact_step f (f <| fo_sources := sources |> <| fo_pending := pending |> <| fo_repairs := repairs |>)
  | step_time f now : artifact_step f (f <| fo_now := now |>).

Lemma reads_active rel : reads (active_agent_repair rel).
Proof.
  apply reads_bind; [apply reads_repair_records|]. intros rs. cbv zeta. destruct (base.filter _ rs); [done|].
  apply reads_bind; [apply reads_manifest|done].
Qed.

Lemma tri_op revs0 op : triple (kept revs0) (kept revs0) (run_op op) (λ _, kept revs0).
Proof.
  destruct op; (apply tri_seq; [|intros ?; by apply triple_ret]);
    [apply tri_current|apply tri_workspace|apply tri_save|apply tri_list|apply tri_revision_with_content|apply tri_capture|apply tri_create
    |apply tri_detail|apply tri_reads; [apply reads_active|done]|apply tri_cancel|apply tri_release|apply tri_finalize].
Qed.

Lemma artifact_step_kept revs0 f f' : artifact_step f f' → kept revs0 f → kept revs0 f'.
Proof.
  intros H Hk. destruct H as [f op budget| |]; [|by apply (kept_frame revs0 f)..].
  assert (Hk' : kept revs0 (f <| fo_budget := budget |>)) by by apply (kept_frame revs0 f).
  specialize (tri_op revs0 op _ Hk'). by destruct (run_op op _) as [f' [e|a]].
Qed.

Lemma artifact_steps_kept revs0 f f' : rtc artifact_step f f' → kept revs0 f → kept revs0 f'.
Proof. induction 1; eauto using artifact_step_kept. Qed.

Lemma kept_fresh f : fo_manifest f = Absent → kept [] f.
Proof.
  intros H. split.
  - exists []. unfold manifest_of. by rewrite H.
  - unfold manifest_of. rewrite H. intros revs [= <-]. split; [constructor|constructor|cbn; lia|constructor].
Qed.

(** What is in the manifest now is what the rest of the history goes on from. *)
Lemma kept_restart revs0 f : kept revs0 f → ∃ revs, manifest_of f = Some revs ∧ kept revs f.
Proof.
  intros [[new Hn] Hr]. eexists. split; [exact Hn|]. split; [|done]. exists []. rewrite app_nil_r. rewrite Hn. f_equal.
  unfold last80 at 2. pose proof (last80_length (revs0 ++ new)). by replace (_ - _) with 0 by lia.
Qed.

(** C17: over any sequence of calls on an artifact, each ending in any way or cut
    short by the process dying before any of its writes, with the agent's code
    rewriting the sources, the record of a write under way and the repairs in
    between: the revisions of an artifact are append-only.  What a later manifest
    lists is the last 80 of what an earlier one listed followed by new entries; ids
    are distinct, numbers go up, and the content of every listed revision is in the
    journal under the hash the entry names. *)
Theorem artifact_history_append_only f0 f f' :
  fo_manifest f0 = Absent → rtc artifact_step f0 f → rtc artifact_step f f' →
  ∃ revs new, manifest_of f = Some revs ∧ manifest_of f' = Some (last80 (revs ++ new)) ∧
    let revs' := last80 (revs ++ new) in
    NoDup (map rv_id revs') ∧ StronglySorted Z.lt (map rv_number revs') ∧ length revs' ≤ MAX_REVISIONS ∧
    ∀ r, r ∈ revs' → ∃ content, blob_bytes f' (rv_hash r) = Some content ∧ sha content = rv_hash r.
Proof.
  intros H0 H1 H2. pose proof (artifact_steps_kept [] _ _ H1 (kept_fresh _ H0)) as Hk.
  destruct (kept_restart _ _ Hk) as (revs & Hm & Hk1). pose proof (artifact_steps_kept _ _ _ H2 Hk1) as [[new Hn] Hr].
  exists revs, new. split; [done|]. split; [done|]. destruct (Hr _ Hn) as [A B C D]. split; [done|]. split; [done|].
  split; [done|]. intros r Hin. rewrite list.Forall_forall in D. destruct (D r Hin) as [c Hc].
  exists c. split; [done|]. by apply blob_bytes_sha in Hc as [? _].
Qed.

End Log.
