(* ===== verification/ArtifactCrash.v ===== *)
(** * Saving a source is all or nothing.

    [save_source] stores the new content, records the write it is about to make,
    replaces the source, extends the manifest and drops the record.  The process
    may die before any of these writes, and again before any write of the
    recoveries that follow: once a recovery gets through, the source and the
    history either both have the edit or both lack it. *)
From stdpp Require Import base list gmap strings option relations.
From Stdlib Require Import ZArith Lia.
From S2P Require Import Prelude JsonText Uuid Identity Triples ArtifactRevisions ArtifactRepairs ArtifactLog.

Section Crash.
Context {AE : ArtifactEnv} {AL : ArtifactLaws} {PF : Platform}.

(** ** Small facts *)

Lemma last80_snoc l x : ∃ l', last80 (l ++ [x]) = l' ++ [x].
Proof.
  unfold last80. rewrite length_app. cbn [length]. exists (drop (length l + 1 - MAX_REVISIONS) l).
  apply drop_app_le. unfold MAX_REVISIONS. lia.
Qed.

Lemma latest_snoc l x : latest_of (rv_path x) (l ++ [x]) = Some x.
Proof.
  unfold latest_of. rewrite list.filter_app, list.filter_cons_True, list.filter_nil by done. apply last_snoc.
Qed.

Lemma latest_last80 l x : latest_of (rv_path x) (last80 (l ++ [x])) = Some x.
Proof. destruct (last80_snoc l x) as [l' ->]. apply latest_snoc. Qed.

Lemma find_existsb {A} (p : A → bool) l : find p l = None → existsb p l = false.
Proof. induction l as [|x l IH]; cbn; [done|]. by destruct (p x). Qed.

(** A path that names itself: stripped, with forward slashes, inside the folder,
    leading through no link, and editable. *)
Definition plain_path (p : string) : bool :=
  truthy (str_strip p) && String.eqb (str_replace (String.String cBackslash "") "/" (str_strip p)) p &&
  negb (is_absolute p || bool_decide (".." ∈ path_parts p) || bool_decide (JOURNAL_DIRNAME ∈ path_parts p)) &&
  bool_decide (join_path <$> resolve_path (path_parts p) = Some p) && negb (project_secret p) && editable p.

Lemma plain_truthy p : plain_path p = true → truthy (str_strip p) = true ∧ truthy p = true.
Proof.
  unfold plain_path. intros H. repeat (apply andb_true_iff in H as [H ?]). split; [done|].
  destruct p; [|done]. by vm_compute in H.
Qed.

Lemma resolve_plain s primary p :
  plain_path p = true → is_Some (fo_sources s !! p) → resolve_source s primary (Some p) = inr p.
Proof.
  intros Hp Hs. destruct (plain_truthy p Hp) as [_ Ht]. unfold plain_path in Hp. rewrite !andb_true_iff in Hp.
  destruct Hp as [[[[[_ E%String.eqb_eq] Hd%negb_true_iff] Hr%bool_decide_eq_true] Hsec%negb_true_iff] Hed].
  apply fmap_Some in Hr as (parts & Hr & Hj).
  unfold resolve_source, truthy_opt. rewrite Ht. cbv [default from_option id]. rewrite E, Ht. cbn [negb].
  rewrite Hd, Hr, <-Hj, (bool_decide_eq_true_2 _ Hs), Hsec, Hed. done.
Qed.

(** ** A commit, step by step *)

(** What a revision says of who made it and why. *)
Definition attributes (r : Revision) : string * option string * string * option string * list string :=
  (rv_actor_kind r, rv_actor_id r, rv_summary r, rv_conversation r, rv_threads r).
Definition attributes_of (kind : string) (actor : option string) (summary : string) (conv : option string) (threads : list string) :=
  (kind, actor, str_take 240 (str_strip (if truthy summary then summary else "Updated artifact")), conv, unique_values threads).

Lemma renumbered_attributes revs e : attributes (renumbered revs e) = attributes e ∧ rv_base (renumbered revs e) = rv_base e.
Proof. unfold renumbered. destruct revs; [done|]. by destruct (_ <=? _)%Z. Qed.

(** The history a save extends: as it was, or with the draft found in place of
    the source captured first. *)
Definition grown (p existing : string) (revs0 revs : list Revision) : Prop :=
  revs = revs0 ∨ ∃ cap, revs = last80 (revs0 ++ [cap]) ∧ rv_path cap = p ∧ rv_hash cap = sha existing.

Section Commit.
Context (p existing content expected : string) (sources0 : gmap string string) (revs0 : list Revision).
Context (attrs : string * option string * string * option string * list string) (G : list Revision → Prop).
Hypothesis Hplain : plain_path p = true.
Hypothesis Hexisting : sources0 !! p = Some existing.
Hypothesis Hsize0 : (Z.of_nat (String.length existing) ≤ MAX_SOURCE_BYTES)%Z.
Hypothesis Hsize : (Z.of_nat (String.length content) ≤ MAX_SOURCE_BYTES)%Z.

Record commit_ok (revs : list Revision) (e : Revision) : Prop := {
  co_revs : G revs;
  co_path : rv_path e = p;
  co_hash : rv_hash e = sha content;
  co_base : rv_base e = head_revision_id revs p;
  co_expected : rv_base e = Some expected;
  co_attributes : attributes e = attrs;
  co_fresh : find (λ r, String.eqb (rv_id r) (rv_id e)) revs = None;
}.

(** Nothing was written but perhaps the captured draft. *)
Definition untouched (s : Folder) : Prop :=
  fo_pending s = Absent ∧ fo_sources s = sources0 ∧ ∃ revs, manifest_of s = Some revs ∧ G revs.

Definition pending_record (e : Revision) : PendingWrite :=
  {| pw_version := 1; pw_path := p; pw_before := sha existing; pw_revision := e |}.

Definition replaced (s : Folder) : Prop :=
  ∃ c, fo_sources s = <[p := c]> sources0 ∧ sha c = sha content ∧ (Z.of_nat (String.length c) ≤ MAX_SOURCE_BYTES)%Z.

(** The write is recorded and the content stored; the source may already be
    replaced. *)
Definition recorded (revs : list Revision) (e : Revision) (s : Folder) : Prop :=
  fo_pending s = Stored (pending_record e) ∧ (fo_sources s = sources0 ∨ replaced s) ∧ manifest_of s = Some revs ∧
  is_Some (blob_bytes s (sha content)).
Definition written (revs : list Revision) (e : Revision) (s : Folder) : Prop :=
  fo_pending s = Stored (pending_record e) ∧ replaced s ∧ manifest_of s = Some revs ∧ is_Some (blob_bytes s (sha content)).
Definition listed (revs : list Revision) (e : Revision) (s : Folder) : Prop :=
  replaced s ∧ manifest_of s = Some (last80 (revs ++ [renumbered revs e])).
Definition logged (revs : list Revision) (e : Revision) (s : Folder) : Prop :=
  fo_pending s = Stored (pending_record e) ∧ listed revs e s.
Definition finished (revs : list Revision) (e : Revision) (s : Folder) : Prop :=
  fo_pending s = Absent ∧ listed revs e s.

(** Where a crash can leave the folder. *)
Definition crashed (s : Folder) : Prop :=
  untouched s ∨ ∃ revs e, commit_ok revs e ∧ (recorded revs e s ∨ logged revs e s ∨ finished revs e s).
Definition settled (s : Folder) : Prop := untouched s ∨ ∃ revs e, commit_ok revs e ∧ finished revs e s.

Lemma written_recorded revs e s : written revs e s → recorded revs e s.
Proof. intros (A & B & C & D). split; eauto. Qed.
Lemma recorded_crashed revs e s : commit_ok revs e → recorded revs e s → crashed s.
Proof. right. eauto 8. Qed.
Lemma logged_crashed revs e s : commit_ok revs e → logged revs e s → crashed s.
Proof. right. eauto 8. Qed.
Lemma settled_crashed s : settled s → crashed s.
Proof. intros [H|(revs & e & H & Hf)]; [by left|right]. eauto 8. Qed.
#[local] Hint Resolve written_recorded recorded_crashed logged_crashed settled_crashed : crash.

(** Dying is the one way a commit is cut short. *)
Definition dead (s : Folder) : Prop := crashed s ∧ fo_budget s = Some 0.

Lemma dead_crashed s : dead s → crashed s.
Proof. by intros []. Qed.
Lemma dead_recorded revs e s : commit_ok revs e → recorded revs e s → fo_budget s = Some 0 → dead s.
Proof. split; eauto with crash. Qed.
Lemma dead_logged revs e s : commit_ok revs e → logged revs e s → fo_budget s = Some 0 → dead s.
Proof. split; eauto with crash. Qed.
#[local] Hint Resolve dead_crashed dead_recorded dead_logged : crash.

Abbreviation tri := (triple dead).

Lemma tri_commit_persist revs e c :
  commit_ok revs e → sha c = sha content → tri (written revs e) (persist_revision revs e c) (λ _, logged revs e).
Proof.
  intros Hok Hc. unfold persist_revision. rewrite (co_hash _ _ Hok), <-Hc, String.eqb_refl.
  eapply triple_bind; [apply (triple_ret _ _ _ (λ _, written revs e)); done|]. intros [].
  apply triple_bind with (R := λ _, written revs e).
  { intros w Hw. unfold store_blob, mbind, eff_bind. cbn [gets]. change (Datatypes.id w) with w. rewrite Hc.
    destruct Hw as (A & B & C & [c' D]). rewrite D. by repeat split; eauto. }
  intros []. rewrite (co_fresh _ _ Hok). fold (renumbered revs e). fold (last80 (revs ++ [renumbered revs e])).
  apply triple_bind with (R := λ _, logged revs e).
  { apply triple_on_disk; [eauto with crash| |].
    - intros s n (A & B & C & D). by repeat split.
    - intros s (A & B & C & D) _. by repeat split. }
  intros []. apply triple_bind with (R := λ _, logged revs e).
  { destruct (Nat.ltb _ _); [|by apply triple_ret]. apply triple_get. intros blobs.
    apply (triple_conseq _ _ (logged revs e) _ _ (λ _, logged revs e)); [|by intros w []|done].
    apply triple_for_each. intros h _. apply triple_on_disk; [eauto with crash|done|done]. }
  intros []. by apply triple_ret.
Qed.

Lemma tri_commit_clear revs e : commit_ok revs e → tri (logged revs e) clear_pending (λ _, finished revs e).
Proof.
  intros Hok. apply triple_get. intros m. destruct m; [apply triple_ret; intros w [[A _] B]; congruence|..];
    (apply triple_on_disk; [intros s [H _]; eauto with crash|intros s n [[_ H] _]; done|intros s [[_ H] _] _; done]).
Qed.

Lemma tri_commit_write revs e c :
  commit_ok revs e → sha c = sha content → (Z.of_nat (String.length c) ≤ MAX_SOURCE_BYTES)%Z →
  tri (recorded revs e) (write_source p c) (λ _, written revs e).
Proof.
  intros Hok Hc Hl. assert (Hw : ∀ s, recorded revs e s → <[p := c]> (fo_sources s) = <[p := c]> sources0).
  { intros s (_ & [-> | (c' & -> & _)] & _); [done|]. apply insert_insert_eq. }
  apply triple_on_disk; [eauto with crash| |].
  - intros s n H. pose proof (Hw s H). destruct H as (A & _ & C & D). repeat split; [done|exists c; by repeat split|done|done].
  - intros s H _. pose proof (Hw s H). destruct H as (A & _ & C & D). repeat split; [done|exists c; by repeat split|done|done].
Qed.

(** ** Recovery *)

Lemma recorded_source revs e s : recorded revs e s → ∃ current, fo_sources s !! p = Some current ∧
  (Z.of_nat (String.length current) ≤ MAX_SOURCE_BYTES)%Z ∧
  (sha current = sha existing ∧ fo_sources s = sources0 ∨ sha current = sha content ∧ replaced s).
Proof.
  intros (_ & [Hs|Hr] & _).
  - exists existing. rewrite Hs. eauto.
  - destruct Hr as (c & Hs & Hc & Hl). exists c. rewrite Hs, lookup_insert_eq. split; [done|]. split; [done|]. right.
    split; [done|]. exists c. eauto.
Qed.

Lemma replaced_source s : replaced s → ∃ c, fo_sources s !! p = Some c ∧ (Z.of_nat (String.length c) ≤ MAX_SOURCE_BYTES)%Z.
Proof. intros (c & -> & _ & Hl). exists c. by rewrite lookup_insert_eq. Qed.

Lemma try_source_plain s current :
  fo_sources s !! p = Some current → (Z.of_nat (String.length current) ≤ MAX_SOURCE_BYTES)%Z →
  try_source p s = (s, inr (Some (p, current))).
Proof.
  intros Hs Hl. unfold try_source, mbind, eff_bind. cbn [gets]. change (Datatypes.id s) with s.
  rewrite (resolve_plain s None p Hplain) by (rewrite Hs; eauto). rewrite Hs.
  destruct (Z.ltb_spec MAX_SOURCE_BYTES (Z.of_nat (String.length current))); [lia|done].
Qed.

Lemma read_manifest_of s revs : manifest_of s = Some revs → read_manifest s = (s, inr revs).
Proof.
  unfold manifest_of, read_manifest, mbind, eff_bind. cbn [gets]. destruct (fo_manifest s); [|done|]; by intros [= <-].
Qed.

(** What recovery does once the record checks out. *)
Definition redo (revs : list Revision) (e : Revision) (c : string) (write : bool) : af () :=
  (if write then write_source p c else mret ());;
  _ ← persist_revision revs e c;
  clear_pending.

Lemma recover_recorded revs e s :
  commit_ok revs e → recorded revs e s → ∃ c write, recover_pending_source_write s = redo revs e c write s ∧
    sha c = sha content ∧ (Z.of_nat (String.length c) ≤ MAX_SOURCE_BYTES)%Z ∧ (write = false → replaced s).
Proof.
  intros Hok H. destruct (recorded_source _ _ _ H) as (current & Hcur & Hlc & Hcase).
  destruct H as (Hpend & _ & Hman & [c Hb]). destruct (blob_bytes_sha _ _ _ Hb) as [Hc Hl].
  exists c, (String.eqb (sha current) (sha existing)). split; [|split; [done|split; [done|]]].
  - unfold recover_pending_source_write, mbind at 1, eff_bind at 1. cbn [gets]. change (Datatypes.id s) with s. rewrite Hpend.
    cbn [pending_record pw_version pw_path pw_revision pw_before]. rewrite (proj1 (plain_truthy p Hplain)), (co_path _ _ Hok), String.eqb_refl.
    cbn [negb orb Z.eqb Pos.eqb]. rewrite (co_hash _ _ Hok), Hb.
    unfold mbind at 1, eff_bind at 1. rewrite (try_source_plain s current) by done.
    unfold mbind at 1, eff_bind at 1. rewrite (read_manifest_of s revs) by done.
    rewrite (find_existsb _ _ (co_fresh _ _ Hok)), (bool_decide_eq_true_2 (head_revision_id revs p = rv_base e)) by by rewrite (co_base _ _ Hok).
    rewrite bool_decide_eq_true_2; [done|]. apply list_elem_of_In. cbn. destruct Hcase as [[-> _]|[-> _]]; auto.
  - intros Hn%String.eqb_neq. by destruct Hcase as [[? _]|[_ ?]].
Qed.

Lemma recover_logged revs e s :
  commit_ok revs e → logged revs e s → recover_pending_source_write s = clear_pending s.
Proof.
  intros Hok (Hpend & Hr & Hman). destruct (replaced_source s Hr) as (c & Hs & Hl).
  unfold recover_pending_source_write, mbind at 1, eff_bind at 1. cbn [gets]. change (Datatypes.id s) with s. rewrite Hpend.
  cbn [pending_record pw_version pw_path pw_revision pw_before]. rewrite (proj1 (plain_truthy p Hplain)), (co_path _ _ Hok), String.eqb_refl.
  cbn [negb orb Z.eqb Pos.eqb]. destruct (blob_bytes s (rv_hash e)); [|done].
  unfold mbind at 1, eff_bind at 1. rewrite (try_source_plain s c) by done.
  unfold mbind at 1, eff_bind at 1. rewrite (read_manifest_of s _ Hman).
  destruct (existsb _ _) eqn:X; [done|]. exfalso. apply not_true_iff_false in X. apply X, existsb_exists.
  exists (renumbered revs e). destruct (last80_snoc revs (renumbered revs e)) as [l' ->].
  split; [apply in_or_app; right; by left|]. apply String.eqb_eq, renumbered_same.
Qed.

(** From wherever a crash left the folder, recovery settles it, or is cut short
    itself and leaves a state it can be run from again. *)
Lemma tri_recover_crashed : tri crashed recover_pending_source_write (λ _, settled).
Proof.
  intros s [H|(revs & e & Hok & [H|[H|H]])].
  - unfold recover_pending_source_write, mbind, eff_bind. cbn [gets]. change (Datatypes.id s) with s.
    rewrite (proj1 H). by left.
  - destruct (recover_recorded revs e s Hok H) as (c & write & -> & Hc & Hl & Hw).
    assert (Ht : tri (λ w, w = s) (redo revs e c write) (λ _, finished revs e)).
    { unfold redo. apply triple_bind with (R := λ _, written revs e).
      - destruct write.
        + eapply triple_conseq; [by apply (tri_commit_write revs e c)|by intros w ->|done].
        + apply triple_ret. intros w ->. destruct H as (A & _ & C & D). split; [done|]. split; [by apply Hw|done].
      - intros []. eapply triple_bind; [by apply tri_commit_persist|]. intros er. by apply tri_commit_clear. }
    specialize (Ht s eq_refl). destruct (redo revs e c write s) as [s' [x|u]]; [done|]. right. eauto.
  - rewrite (recover_logged revs e s Hok H). pose proof (tri_commit_clear revs e Hok s H) as Ht.
    destruct (clear_pending s) as [s' [x|u]]; [done|]. right. eauto.
  - unfold recover_pending_source_write, mbind, eff_bind. cbn [gets]. change (Datatypes.id s) with s.
    rewrite (proj1 H). right. eauto.
Qed.

(** ** Saving *)

Abbreviation try_ := (triple crashed).

Definition idle (revs : list Revision) (s : Folder) : Prop :=
  fo_pending s = Absent ∧ fo_sources s = sources0 ∧ manifest_of s = Some revs.
Definition fresh_id (n : nat) (revs : list Revision) : Prop := uuid4 n ∉ map rv_id revs.

Lemma idle_crashed revs s : G revs → idle revs s → crashed s.
Proof. intros Hg (A & B & C). left. repeat split; eauto. Qed.
Lemma idle_dead revs s : G revs → idle revs s → fo_budget s = Some 0 → dead s.
Proof. split; eauto using idle_crashed. Qed.
#[local] Hint Resolve idle_crashed idle_dead : crash.

Lemma fresh_find n revs : fresh_id n revs → find (λ r, String.eqb (rv_id r) (uuid4 n)) revs = None.
Proof.
  unfold fresh_id. induction revs as [|r revs IH]; [done|]. cbn. intros [Hne Hni]%not_elem_of_cons.
  destruct (String.eqb_spec (rv_id r) (uuid4 n)); [by subst|auto].
Qed.

Lemma fresh_next n revs x : fresh_id n revs → rv_id x ≠ uuid4 n → fresh_id n (last80 (revs ++ [x])).
Proof.
  unfold fresh_id. intros H Hx. destruct (last80_suffix (revs ++ [x])) as [pre Hpre].
  assert (Hn : uuid4 n ∉ map rv_id (revs ++ [x])).
  { rewrite map_app, elem_of_app. intros [?|?%list_elem_of_singleton]; [done|]. by apply Hx. }
  rewrite Hpre, map_app in Hn. intros ?. apply Hn, elem_of_app. by right.
Qed.

Lemma tri_idle_store (R : Folder → Prop) revs h c :
  G revs → (∀ s b n, R s → R (s <| fo_blobs := b |> <| fo_budget := n |>)) → (∀ s b, R s → R (s <| fo_blobs := b |>)) →
  try_ (λ s, idle revs s ∧ R s) (store_blob h c) (λ _ s, idle revs s ∧ R s).
Proof.
  intros Hg HR1 HR2. apply triple_get. intros s0. destruct (blob_bytes s0 h); [apply triple_ret; by intros w []|].
  apply triple_on_disk; [intros s [[H _] _]; eauto with crash| |].
  - intros s n [[H HR] _]. split; [done|by apply HR1].
  - intros s [[H HR] _] _. split; [done|by apply HR2].
Qed.

Section Captured.
Hypothesis HG0 : G revs0.
Hypothesis HG1 : ∀ cap, rv_path cap = p → rv_hash cap = sha existing → G (last80 (revs0 ++ [cap])).

Lemma tri_capture_persist n cap :
  rv_id cap = uuid4 n → rv_path cap = p → rv_hash cap = sha existing → fresh_id n revs0 →
  let cap' := renumbered revs0 cap in
  try_ (λ s, idle revs0 s ∧ fo_minted s = S n) (persist_revision revs0 cap existing)
    (λ er s, er = (cap', last80 (revs0 ++ [cap'])) ∧ idle er.2 s ∧ fo_minted s = S n).
Proof.
  intros Hid Hp Hh Hf cap'. unfold persist_revision. rewrite Hh, String.eqb_refl, Hid, (fresh_find n revs0 Hf).
  assert (Hg : G (last80 (revs0 ++ [cap']))).
  { destruct (renumbered_same revs0 cap) as (_ & E1 & E2). subst cap'. apply HG1; by rewrite ?E1, ?E2. }
  eapply triple_bind; [apply (triple_ret _ _ _ (λ _ s, idle revs0 s ∧ fo_minted s = S n)); done|]. intros [].
  eapply triple_bind; [by apply (tri_idle_store (λ s, fo_minted s = S n))|]. intros [].
  fold (renumbered revs0 cap). fold cap'. fold (last80 (revs0 ++ [cap'])). set (L := last80 (revs0 ++ [cap'])) in *.
  apply triple_bind with (R := λ _ s, idle L s ∧ fo_minted s = S n).
  { apply triple_on_disk; [|by intros s m [(A & B & _) ?]|by intros s [(A & B & _) ?] _].
    intros s [H _] _. by apply (idle_crashed revs0). }
  intros []. apply triple_bind with (R := λ _ s, idle L s ∧ fo_minted s = S n).
  { destruct (Nat.ltb _ _); [|by apply triple_ret]. apply triple_get. intros blobs.
    apply (triple_conseq _ _ (λ s, idle L s ∧ fo_minted s = S n) _ _ (λ _ s, idle L s ∧ fo_minted s = S n)); [|by intros w []|done].
    apply triple_for_each. intros h _. apply triple_on_disk; [intros s [H _]; eauto with crash|done|done]. }
  intros []. by apply triple_ret.
Qed.

(** The head that the save is compared with. *)
Definition head_ready (n : nat) (er : Revision * list Revision) (s : Folder) : Prop :=
  idle er.2 s ∧ G er.2 ∧ latest_of p er.2 = Some er.1 ∧ rv_hash er.1 = sha existing ∧ fresh_id (fo_minted s) er.2.

Lemma tri_captured n aid summary :
  fresh_id n revs0 → fresh_id (S n) revs0 → uuid4 n ≠ uuid4 (S n) →
  try_ (λ s, idle revs0 s ∧ fo_minted s = n) (captured_head revs0 aid p existing summary) (head_ready n).
Proof.
  intros F0 F1 Hne. unfold captured_head.
  assert (Happ : ∀ base, try_ (λ s, idle revs0 s ∧ fo_minted s = n)
    (append_revision revs0 aid p existing "system" None summary base None []) (head_ready n)).
  { intros base. intros w [Hw Hm]. unfold append_revision, new_revision, mint, mbind, eff_bind. cbn [gets mret eff_ret].
    match goal with |- context [persist_revision _ ?x _ ?st] => set (cap := x); set (w1 := st) end.
    pose proof (tri_capture_persist n cap) as Ht. specialize (Ht ltac:(by subst cap; cbn; rewrite Hm) eq_refl eq_refl F0 w1).
    specialize (Ht ltac:(split; [done|by subst w1; cbn; rewrite Hm])).
    destruct (persist_revision revs0 cap existing w1) as [w2 [x|er]]; [done|]. destruct Ht as (-> & Hi & Hm2).
    destruct (renumbered_same revs0 cap) as (E0 & E1 & E2). cbn [fst snd] in *. split; [done|]. cbn [fst snd].
    split; [apply HG1; by rewrite ?E1, ?E2|]. split; [|split; [by rewrite E1|]].
    - change p with (rv_path cap). rewrite <-E2. apply latest_last80.
    - rewrite Hm2. apply fresh_next; [done|]. rewrite E0. subst cap. cbn. by rewrite Hm. }
  destruct (latest_of p revs0) as [r|] eqn:L; [|apply Happ].
  destruct (String.eqb_spec (rv_hash r) (sha existing)); [|apply Happ].
  apply triple_ret. intros w [Hw Hm]. split; [done|]. cbn. rewrite Hm. by repeat split.
Qed.

End Captured.

Lemma tri_commit_save n latest revs aid kind actor summary conv threads :
  rv_id latest = expected → attributes_of kind actor summary conv threads = attrs →
  tri (head_ready n (latest, revs))
    (commit_source_revision revs p aid p existing content kind actor summary (Some (rv_id latest)) conv threads)
    (λ e s, ∃ e', commit_ok revs e' ∧ finished revs e' s).
Proof.
  intros Hexp Hattrs. apply triple_pre. intros w0 (Hi & Hg & Hlat & Hh & Hf). cbn [fst snd] in *.
  intros w ->. unfold commit_source_revision, new_revision, mint, mbind at 1, eff_bind at 1. unfold mbind at 1, eff_bind at 1.
  unfold mbind at 1, eff_bind at 1. cbn [gets mret eff_ret].
  match goal with |- context [store_blob (rv_hash ?x) content] => set (e := x) end.
  match goal with |- match ?m ?st with _ => _ end => set (w1 := st); set (rest := m) end.
  assert (Hok : commit_ok revs e).
  { split; [done|done|done| |by subst e; cbn; rewrite Hexp|done|by apply fresh_find].
    subst e. cbn. unfold head_revision_id. by rewrite Hlat. }
  assert (Ht : tri (λ s, idle revs s) rest (λ _, finished revs e)).
  { subst rest. apply triple_bind with (R := λ _ s, idle revs s ∧ is_Some (blob_bytes s (sha content))).
    { change (rv_hash e) with (sha content). apply triple_get. intros s0. destruct (blob_bytes s0 (sha content)) as [c|] eqn:B.
      { apply triple_ret. intros w [H <-]. split; [done|]. cbn in B. rewrite B. eauto. }
      assert (Hstore : ∀ s, is_Some (blob_bytes (s <| fo_blobs := <[sha content := content]> (fo_blobs s) |>) (sha content))).
      { intros s. unfold blob_bytes. rewrite sha_hex. cbn. rewrite lookup_insert_eq.
        destruct (Z.ltb_spec MAX_SOURCE_BYTES (Z.of_nat (String.length content))); [lia|]. rewrite String.eqb_refl. eauto. }
      apply triple_on_disk; [intros s [H _]; eauto with crash|intros s m [H _]; split; [done|exact (Hstore s)]
        |intros s [H _] _; split; [done|exact (Hstore s)]]. }
    intros []. apply triple_bind with (R := λ _, recorded revs e).
    { apply triple_on_disk; [intros s [H _]; eauto with crash| |].
      - intros s m [(A & B & C) D]. by repeat split; [left|..].
      - intros s [(A & B & C) D] _. by repeat split; [left|..]. }
    intros []. eapply triple_bind; [by apply (tri_commit_write revs e content)|]. intros [].
    eapply triple_bind; [by apply (tri_commit_persist revs e content)|]. intros er. cbn beta.
    eapply triple_bind; [by apply tri_commit_clear|]. intros []. by apply triple_ret. }
  specialize (Ht w1 Hi). destruct (rest w1) as [w2 [x|e']]; [done|]. eauto.
Qed.

Lemma recover_absent s : fo_pending s = Absent → recover_pending_source_write s = (s, inr ()).
Proof.
  intros H. unfold recover_pending_source_write, mbind, eff_bind. cbn [gets]. change (Datatypes.id s) with s. by rewrite H.
Qed.

(** The file on disk has the content. *)
Definition holds_content (s : Folder) : Prop := ∃ c, fo_sources s !! p = Some c ∧ sha c = sha content.

Lemma listed_holds revs e s : listed revs e s → holds_content s.
Proof. intros [(c & Hs & Hc & _) _]. exists c. by rewrite Hs, lookup_insert_eq. Qed.

Section Save.
Hypothesis HG0 : G revs0.
Hypothesis HG1 : ∀ cap, rv_path cap = p → rv_hash cap = sha existing → G (last80 (revs0 ++ [cap])).

Lemma tri_save_crash primary aid rel kind actor summary conv threads n :
  fresh_id n revs0 → fresh_id (S n) revs0 → uuid4 n ≠ uuid4 (S n) → attributes_of kind actor summary conv threads = attrs →
  try_ (λ s, (idle revs0 s ∧ fo_minted s = n) ∧ resolve_source s primary rel = inr p)
    (save_source primary aid content expected rel kind actor summary conv threads)
    (λ _ s, settled s ∧ holds_content s).
Proof.
  intros F0 F1 Hne Hattrs. apply triple_pre. intros w0 [[Hi Hm] Hr]. intros w ->. unfold save_source, raise_if.
  destruct (Z.ltb_spec MAX_SOURCE_BYTES (Z.of_nat (String.length content))) as [|_]; [lia|].
  unfold mbind at 1, eff_bind at 1. cbn [mret eff_ret].
  unfold mbind at 1, eff_bind at 1. rewrite (recover_absent w0 (proj1 Hi)).
  unfold mbind at 1, eff_bind at 1. unfold lift_source at 1, mbind at 1, eff_bind at 1. cbn [gets]. change (Datatypes.id w0) with w0.
  rewrite Hr. cbn [mret eff_ret]. unfold mbind at 1, eff_bind at 1. unfold read_source at 1, mbind at 1, eff_bind at 1. cbn [gets].
  rewrite (proj1 (proj2 Hi)), Hexisting. unfold raise_if at 1.
  destruct (Z.ltb_spec MAX_SOURCE_BYTES (Z.of_nat (String.length existing))) as [|_]; [lia|].
  unfold mbind at 1, eff_bind at 1. cbn [mret eff_ret].
  unfold mbind at 1, eff_bind at 1. rewrite (read_manifest_of w0 _ (proj2 (proj2 Hi))).
  match goal with |- match ?m w0 with _ => _ end => set (rest := m) end.
  assert (Ht : try_ (λ s, idle revs0 s ∧ fo_minted s = n) rest (λ _ s, settled s ∧ holds_content s)); [|by apply Ht].
  subst rest. eapply triple_bind; [by apply tri_captured|]. intros [latest revs].
  destruct (String.eqb_spec (rv_id latest) expected) as [Hexp|_].
  2: { intros w (H & Hg & _). cbn. by apply (idle_crashed revs). }
  eapply triple_bind; [apply (triple_ret _ _ _ (λ _, head_ready n (latest, revs))); done|]. intros [].
  destruct (String.eqb_spec (rv_hash latest) (sha content)) as [Hsame|_].
  - apply triple_ret. intros w (H & Hg & Hl & Hh & _). cbn [fst snd] in *. split.
    + left. destruct H as (A & B & C). repeat split; eauto.
    + exists existing. destruct H as (_ & -> & _). by rewrite Hexisting, <-Hsame, Hh.
  - eapply triple_bind; [by apply (triple_exn dead); [apply dead_crashed|apply tri_commit_save]|]. intros e. apply triple_ret. intros w (e' & Hok & Hf). split.
    + right. eauto.
    + apply (listed_holds revs e'), Hf.
Qed.

End Save.
End Commit.
(** ** What stays as it is *)

(** Repairs and ids, and a process that does not die. *)

Definition same_rest (s s' : Folder) : Prop :=
  fo_repairs s' = fo_repairs s ∧ fo_minted s' = fo_minted s ∧ (fo_budget s = None → fo_budget s' = None).
#[local] Instance same_rest_preorder : PreOrder same_rest.
Proof. split; [by intros s|]. intros s1 s2 s3 (A & B & C) (A' & B' & C'). split; [congruence|]. split; [congruence|auto]. Qed.

Definition steady {A} (m : af A) : Prop := ∀ s, same_rest s (m s).1.

Lemma steady_reads {A} (m : af A) : reads m → steady m.
Proof. intros H s. by rewrite H. Qed.
Lemma steady_bind {A B} (m : af A) (k : A → af B) : steady m → (∀ a, steady (k a)) → steady (m ≫= k).
Proof.
  intros Hm Hk s. unfold mbind, eff_bind. specialize (Hm s). destruct (m s) as [s' [e|a]]; [done|].
  etrans; [exact Hm|apply Hk].
Qed.
Lemma steady_on_disk f :
  (∀ s, fo_repairs (f s) = fo_repairs s ∧ fo_minted (f s) = fo_minted s ∧ fo_budget (f s) = fo_budget s) → steady (on_disk f).
Proof.
  intros H s. unfold on_disk, mbind, eff_bind. cbn [gets]. destruct (fo_budget s) as [[|n]|] eqn:E; [done| |].
  - destruct (H (s <| fo_budget := Some n |>)) as (A & B & _). split; [exact A|]. split; [exact B|]. congruence.
  - destruct (H s) as (A & B & C). split; [exact A|]. split; [exact B|]. cbn. congruence.
Qed.
Lemma steady_for_each {A} (l : list A) body : (∀ x, steady (body x)) → steady (for_each l body).
Proof. intros H. induction l as [|x l IH]; [by intros ?|]. cbn. apply steady_bind; [apply H|]. by intros []. Qed.

Lemma steady_clear : steady clear_pending.
Proof. apply steady_bind; [by intros ?|]. intros []; [by intros ?|..]; by apply steady_on_disk. Qed.

Lemma steady_persist revs e c : steady (persist_revision revs e c).
Proof.
  apply steady_bind; [apply steady_reads, reads_raise_if|]. intros []. apply steady_bind.
  { apply steady_bind; [by intros ?|]. intros s0. destruct (blob_bytes s0 _); [by intros ?|]. by apply steady_on_disk. }
  intros []. destruct (find _ revs); [by intros ?|]. apply steady_bind; [by apply steady_on_disk|]. intros [].
  apply steady_bind; [|intros []; by intros ?]. destruct (Nat.ltb _ _); [|by intros ?].
  apply steady_bind; [by intros ?|]. intros blobs. apply steady_for_each. intros h. by apply steady_on_disk.
Qed.

Lemma steady_recover : steady recover_pending_source_write.
Proof.
  apply steady_bind; [by intros ?|]. intros s0. destruct (fo_pending s0) as [| |pw]; [by intros ?|apply steady_clear|].
  cbv zeta. match goal with |- steady (if ?b then _ else _) => destruct b end; [apply steady_clear|].
  destruct (blob_bytes s0 _) as [c|]; [|apply steady_clear]. apply steady_bind.
  { apply steady_reads, reads_bind; [done|]. intros s. destruct (resolve_source s _ _) as [[]|t]; try done.
    destruct (fo_sources s !! t) as [x|]; [|done]. by destruct (_ <? _)%Z. }
  intros [[t current]|]; [|apply steady_clear]. apply steady_bind; [apply steady_reads, reads_manifest|]. intros revs.
  destruct (existsb _ _); [apply steady_clear|].
  match goal with |- steady (if ?b then _ else _) => destruct b end; [apply steady_clear|].
  apply steady_bind; [destruct (String.eqb _ _); [by apply steady_on_disk|by intros ?]|]. intros [].
  apply steady_bind; [apply steady_persist|]. intros er. apply steady_clear.
Qed.

(** ** The claim *)

(** Recoveries, each cut short where its budget says. *)
Definition recoveries (s : Folder) (budgets : list (option nat)) : Folder :=
  foldl (λ s b, (recover_pending_source_write (s <| fo_budget := b |>)).1) s budgets.

Section Recoveries.
Context (p existing content expected : string) (sources0 : gmap string string).
Context (attrs : string * option string * string * option string * list string) (G : list Revision → Prop).
Hypothesis Hplain : plain_path p = true.
Hypothesis Hexisting : sources0 !! p = Some existing.
Hypothesis Hsize0 : (Z.of_nat (String.length existing) ≤ MAX_SOURCE_BYTES)%Z.
Abbreviation crashed := (crashed p existing content expected sources0 attrs G).
Abbreviation settled := (settled p content expected sources0 attrs G).

Lemma recovery s : crashed s →
  crashed (recover_pending_source_write s).1 ∧ 
  (fo_budget s = None → settled (recover_pending_source_write s).1 ∧ (recover_pending_source_write s).2 = inr ()).
Proof.
  intros Hs. pose proof (tri_recover_crashed p existing content expected sources0 attrs G Hplain Hexisting Hsize0 s Hs) as Ht.
  pose proof (steady_recover s) as Hi. destruct (recover_pending_source_write s) as [s' [e|u]]; cbn in *.
  - split; [by apply dead_crashed|]. intros Hn. destruct Ht as [_ Hd]. destruct Hi as (_ & _ & Hi). rewrite Hi in Hd by done. done.
  - split; [by apply settled_crashed|]. by destruct u.
Qed.

Lemma recoveries_settle budgets : ∀ s, crashed s → settled (recoveries s (budgets ++ [None])).
Proof.
  unfold recoveries. induction budgets as [|b budgets IH]; intros s Hs; cbn [app foldl].
  - by apply recovery.
  - by apply IH, recovery.
Qed.

End Recoveries.

(** An artifact with no write under way, whose source is at a path that names
    itself, and whose next two ids are new. *)
Definition ready_to_save (f : Folder) (p existing : string) (revs : list Revision) : Prop :=
  fo_pending f = Absent ∧ plain_path p = true ∧ fo_sources f !! p = Some existing ∧
  (Z.of_nat (String.length existing) ≤ MAX_SOURCE_BYTES)%Z ∧ manifest_of f = Some revs ∧
  fresh_id (fo_minted f) revs ∧ fresh_id (S (fo_minted f)) revs ∧ uuid4 (fo_minted f) ≠ uuid4 (S (fo_minted f)).

(** C12: saving a source is all or nothing across crashes.  Let the process die
    before any write of a save, and before any write of any number of recoveries
    after it; once a recovery runs to its end, no write is left under way, and
    either the sources are as before the save and the history has at most the
    captured draft more, or the source has the saved content, no other source
    changed, and the history ends in the save's revision, based on the revision the
    editor expected.  A save that reported success left its content on disk. *)
Theorem save_source_crash_atomic f p existing revs primary aid content expected rel kind actor summary conv threads budget budgets :
  ready_to_save f p existing revs → resolve_source f primary rel = inr p →
  let saved := save_source primary aid content expected rel kind actor summary conv threads (f <| fo_budget := budget |>) in
  let h := recoveries saved.1 (budgets ++ [None]) in
  fo_pending h = Absent ∧
  (fo_sources h = fo_sources f ∧
     (manifest_of h = Some revs ∨ ∃ draft, manifest_of h = Some (last80 (revs ++ [draft])) ∧ rv_path draft = p ∧ rv_hash draft = sha existing) ∨
   ∃ c before entry, fo_sources h = <[p := c]> (fo_sources f) ∧ sha c = sha content ∧
     (before = revs ∨ ∃ draft, before = last80 (revs ++ [draft]) ∧ rv_path draft = p ∧ rv_hash draft = sha existing) ∧
     manifest_of h = Some (last80 (before ++ [entry])) ∧ rv_path entry = p ∧ rv_hash entry = sha content ∧
     rv_base entry = Some expected ∧ attributes entry = attributes_of kind actor summary conv threads) ∧
  (∀ src, saved.2 = inr src → fo_pending saved.1 = Absent ∧ ∃ c, fo_sources saved.1 !! p = Some c ∧ sha c = sha content).
Proof.
  intros (Hp & Hpl & Hx & Hl & Hm & F0 & F1 & Hne) Hr saved h.
  assert (Hs : crashed p existing content expected (fo_sources f) (attributes_of kind actor summary conv threads) (grown p existing revs) saved.1 ∧
    (∀ src, saved.2 = inr src → fo_pending saved.1 = Absent ∧ holds_content p content saved.1)).
  { destruct (Z.leb_spec (Z.of_nat (String.length content)) MAX_SOURCE_BYTES) as [Hc|Hc].
    - pose proof (tri_save_crash p existing content expected (fo_sources f) revs (attributes_of kind actor summary conv threads) (grown p existing revs)
        Hx Hl Hc (or_introl eq_refl) ltac:(intros cap ? ?; right; eauto) primary aid rel kind actor summary conv threads (fo_minted f) F0 F1 Hne eq_refl (f <| fo_budget := budget |>)) as Ht.
      specialize (Ht (conj (conj (conj Hp (conj eq_refl Hm)) eq_refl) Hr)). fold saved in Ht.
      destruct saved as [g [e|src]]; [split; [exact Ht|done]|]. destruct Ht as [Hset Hh].
      split; [by apply settled_crashed|]. intros ? _. split; [|done]. by destruct Hset as [[? _]|(? & ? & _ & [? _])].
    - subst saved. unfold save_source, raise_if. destruct (Z.ltb_spec MAX_SOURCE_BYTES (Z.of_nat (String.length content))); [|lia].
      split; [|done]. left. split; [done|]. split; [done|]. exists revs. split; [done|by left]. }
  destruct Hs as [Hs Hret]. apply (recoveries_settle _ _ _ _ _ _ _ Hpl Hx Hl budgets) in Hs. fold h in Hs. clearbody h saved.
  destruct Hs as [(A & B & r & C & G)|(r & e & Hok & A & (c & B & C & _) & D)].
  - split; [done|]. split; [|exact Hret]. left. split; [done|]. destruct G as [->|(cap & -> & ? & ?)]; [by left|right; eauto].
  - split; [done|]. split; [|exact Hret]. right. destruct Hok as [G E1 E2 _ E4 E5 _].
    destruct (renumbered_same r e) as (_ & H1 & H2). destruct (renumbered_attributes r e) as [H3 H4].
    exists c, r, (renumbered r e). rewrite H1, H2, H3, H4. by repeat split.
Qed.

End Crash.
