(* ===== verification/ArtifactReview.v ===== *)
(** * Deciding on an agent's edit.

    Rejecting a repair restores the content from before the agent's edit and then
    marks the repair.  The process may die before any of these writes; deciding
    again completes what was begun, and restores only once. *)
From stdpp Require Import base list gmap strings option relations.
From Stdlib Require Import ZArith Lia.
From S2P Require Import Prelude JsonText Uuid Identity Triples ArtifactRevisions ArtifactRepairs ArtifactLog ArtifactCrash.

Section Review.
Context {AE : ArtifactEnv} {AL : ArtifactLaws} {PF : Platform}.

(** A source whose file is what the newest revision of its path says. *)
Record in_sync (f : Folder) (p text : string) (revs : list Revision) (head : Revision) : Prop := {
  sy_pending : fo_pending f = Absent;
  sy_path : plain_path p = true;
  sy_source : fo_sources f !! p = Some text;
  sy_size : (Z.of_nat (String.length text) ≤ MAX_SOURCE_BYTES)%Z;
  sy_utf8 : utf8_valid true text = true;
  sy_manifest : manifest_of f = Some revs;
  sy_head : latest_of p revs = Some head;
  sy_hash : rv_hash head = sha text;
}.

Lemma current_in_sync f p text revs head primary aid rel :
  in_sync f p text revs head → resolve_source f primary rel = inr p →
  current_source_locked primary aid rel f = (f, inr {| so_path := p; so_content := text; so_revision := head |}).
Proof.
  intros [H1 H2 H3 H4 H5 H6 H7 H8] Hr. unfold current_source_locked.
  unfold mbind at 1, eff_bind at 1. rewrite (recover_absent f H1).
  unfold mbind at 1, eff_bind at 1. unfold lift_source at 1, mbind at 1, eff_bind at 1. cbn [gets]. change (Datatypes.id f) with f.
  rewrite Hr. cbn [mret eff_ret]. unfold mbind at 1, eff_bind at 1. unfold read_source at 1, mbind at 1, eff_bind at 1. cbn [gets].
  rewrite H3. unfold raise_if at 1. destruct (Z.ltb_spec MAX_SOURCE_BYTES (Z.of_nat (String.length text))) as [|_]; [lia|].
  unfold mbind at 1, eff_bind at 1. cbn [mret eff_ret]. rewrite H5. unfold mbind at 1, eff_bind at 1. unfold raise_if at 1; cbn [negb mret eff_ret].
  unfold mbind at 1, eff_bind at 1. rewrite (read_manifest_of f revs H6).
  unfold captured_head. rewrite H7, H8, String.eqb_refl. done.
Qed.

Lemma in_sync_budget f p text revs head b : in_sync f p text revs head → in_sync (f <| fo_budget := b |>) p text revs head.
Proof. by intros []. Qed.

(** ** A rejection *)

Section Rejection.
Context (p text old : string) (revs : list Revision) (head base : Revision) (repair : Repair) (sources0 : gmap string string).
Context (primary : option string) (aid : string) (actor expected : option string).

(** The repair is ready, its revision is the head, and the revision it started
    from is in the history. *)
Record rejectable : Prop := {
  rj_id : is_repair_id (rp_id repair) = true;
  rj_path : rp_path repair = p;
  rj_status : rp_status repair = r_ready;
  rj_revision : rp_revision repair = Some (rv_id head);
  rj_base : find (λ r, String.eqb (rv_id r) (rp_base repair)) revs = Some base;
  rj_base_path : rv_path base = p;
  rj_content : rv_hash base = sha old;
  rj_utf8 : utf8_valid true old = true;
  rj_head : rv_base head ≠ Some (rv_id head);
  rj_expected : expected = None ∨ expected = Some (rv_id head);
}.
Hypothesis Hrj : rejectable.
Hypothesis Hcollision : ∀ c, sha c = sha old → c = old.

Definition rejected_as := attributes_of "manual" actor "Rejected agent suggestion" None [rp_thread_id repair].

Abbreviation finalize := (finalize_agent_repair primary aid (rp_id repair) d_rejected actor expected).

Lemma read_own s : fo_repairs s !! rp_id repair = Some repair → read_repair (rp_id repair) s = (s, inr repair).
Proof.
  intros H. unfold read_repair, mbind, eff_bind. cbn [gets]. rewrite (rj_id Hrj), H. unfold own_record. by rewrite String.eqb_refl.
Qed.

(** From a folder in sync: the commit, then the mark. *)
Lemma finalize_in_sync s :
  in_sync s p text revs head → fo_repairs s !! rp_id repair = Some repair → blob_bytes s (rv_hash base) = Some old →
  finalize s = ((_ ← commit_source_revision revs p aid p text old "manual" actor "Rejected agent suggestion" (Some (rv_id head)) None
                   [rp_thread_id repair]; mret ());; settle r_rejected repair) s.
Proof.
  intros Hsy Hrep Hblob. destruct Hrj as [A1 A2 A3 A4 A5 A6 A7 A8 A9 A10]. unfold finalize_agent_repair.
  unfold mbind at 1, eff_bind at 1. rewrite (read_own s Hrep). cbn [decided].
  rewrite A3. cbn [bool_decide RepairStatus_eq_dec]. rewrite !bool_decide_eq_false_2 by done. rewrite !bool_decide_eq_true_2 by done.
  cbn [negb andb]. unfold mbind at 1, eff_bind at 1. unfold raise_if at 1; cbn [mret eff_ret].
  assert (Hres : ∀ pr, resolve_source s pr (Some p) = inr p).
  { intros pr. apply resolve_plain; [apply Hsy|]. rewrite (sy_source _ _ _ _ _ Hsy). eauto. }
  unfold mbind at 1, eff_bind at 1. rewrite A2, (current_in_sync s p text revs head primary aid (Some p) Hsy (Hres _)).
  cbn [so_revision so_content]. unfold half_rejected. rewrite A4, bool_decide_eq_false_2 by done. cbn [andb].
  unfold mbind at 1, eff_bind at 1. rewrite (read_manifest_of s revs (sy_manifest _ _ _ _ _ Hsy)).
  assert (check_decision d_rejected repair head revs expected = inr ()) as ->.
  { cbn. destruct A10 as [-> | ->]; [by rewrite A4, bool_decide_eq_true_2|by rewrite String.eqb_refl]. }
  unfold mbind at 1, eff_bind at 1. unfold mbind at 1, eff_bind at 1.
  assert (revision_with_content_locked (rp_base repair) s = (s, inr (base, old))) as ->.
  { unfold revision_with_content_locked, mbind, eff_bind. rewrite (read_manifest_of s revs (sy_manifest _ _ _ _ _ Hsy)), A5.
    unfold content_for_revision, mbind, eff_bind. cbn [gets]. change (Datatypes.id s) with s. by rewrite Hblob, A8. }
  cbn [fst snd]. rewrite A6, String.eqb_refl. cbn [negb]. unfold mbind at 1, eff_bind at 1. unfold raise_if at 1. cbn [mret eff_ret].
  unfold mbind at 1, eff_bind at 1. unfold lift_source at 1, mbind at 1, eff_bind at 1. cbn [gets]. change (Datatypes.id s) with s.
  rewrite Hres. done.
Qed.

Abbreviation crashed := (crashed p text old (rv_id head) sources0 rejected_as (λ r, r = revs)).
Abbreviation finished := (finished p old sources0).

(** What the commit leaves alone. *)
Lemma steady_commit rs t path before content kind act summary b conv threads s :
  same_rest (s <| fo_minted := S (fo_minted s) |>)
    (commit_source_revision rs t aid path before content kind act summary b conv threads s).1.
Proof.
  unfold commit_source_revision, new_revision, mint, mbind at 1, eff_bind at 1. unfold mbind at 1, eff_bind at 1.
  unfold mbind at 1, eff_bind at 1. cbn [gets mret eff_ret].
  match goal with |- same_rest ?s1 (?m _).1 => enough (Hm : steady m) by exact (Hm s1) end.
  apply steady_bind.
  { apply steady_bind; [by intros ?|]. intros s0. destruct (blob_bytes s0 _); [by intros ?|]. by apply steady_on_disk. }
  intros []. apply steady_bind; [by apply steady_on_disk|]. intros []. apply steady_bind; [by apply steady_on_disk|].
  intros []. apply steady_bind; [apply steady_persist|]. intros er. apply steady_bind; [apply steady_clear|].
  intros []. by intros ?.
Qed.

(** Marking the repair. *)
Lemma settle_own st s : match settle st repair s with
  | (s', inl _) => s' = s ∧ fo_budget s = Some 0
  | (s', inr r) => rp_status r = st ∧ rp_id r = rp_id repair ∧
      ∃ b, s' = s <| fo_repairs := <[rp_id repair := r]> (fo_repairs s) |> <| fo_budget := b |>
  end.
Proof.
  unfold settle, write_repair, on_disk, raise_if, mbind, eff_bind. cbn [gets mret eff_ret].
  cbn -[is_repair_id]. rewrite (rj_id Hrj). cbn [negb mret eff_ret].
  destruct (fo_budget s) as [[|n]|] eqn:B; cbn; [done|..]; (split; [done|]; split; [done|]); [by exists (Some n)|].
  exists None. by destruct s; cbn in *; subst.
Qed.

(** The first time: it is marked, or it died where recovery can go on. *)
Lemma first_rejection s :
  in_sync s p text revs head → fo_repairs s !! rp_id repair = Some repair → blob_bytes s (rv_hash base) = Some old →
  fo_sources s = sources0 → fresh_id (fo_minted s) revs →
  match finalize s with
  | (g, inl _) => crashed g ∧ fo_repairs g = fo_repairs s ∧ fo_minted g = S (fo_minted s) ∧ fo_budget s ≠ None
  | (g, inr r) => rp_status r = r_rejected ∧ rp_id r = rp_id repair ∧ fo_repairs g !! rp_id repair = Some r ∧
      ∃ e, commit_ok p old (rv_id head) rejected_as (λ r, r = revs) revs e ∧ finished revs e g
  end.
Proof.
  intros Hsy Hrep Hblob Hsrc Hfr. rewrite (finalize_in_sync s Hsy Hrep Hblob).
  destruct (blob_bytes_sha _ _ _ Hblob) as [_ Hl].
  set (cm := commit_source_revision _ _ _ _ _ _ _ _ _ _ _ _).
  pose proof (tri_commit_save p text old (rv_id head) sources0 rejected_as (λ r, r = revs) Hl 0 head revs aid "manual" actor
    "Rejected agent suggestion" None [rp_thread_id repair] eq_refl eq_refl s) as Ht.
  assert (Hready : head_ready p text sources0 (λ r, r = revs) 0 (head, revs) s).
  { destruct Hsy. by repeat split. }
  specialize (Ht Hready). fold cm in Ht.
  pose proof (steady_commit revs p p text old "manual" actor "Rejected agent suggestion" (Some (rv_id head)) None [rp_thread_id repair] s)
    as (R1 & R2 & R3). fold cm in R1, R2, R3. cbn in R1, R2, R3.
  unfold mbind at 1, eff_bind at 1. unfold mbind at 1, eff_bind at 1. destruct (cm s) as [g [x|e0]]; cbn [mret eff_ret fst] in *.
  - destruct Ht as [Hc Hd]. split; [done|]. split; [done|]. split; [done|]. intros Hn. rewrite R3 in Hd by done. done.
  - destruct Ht as (e & Hok & Hfin). pose proof (settle_own r_rejected g) as Hs.
    destruct (settle r_rejected repair g) as [h [x|r]].
    + destruct Hs as [-> Hd]. split; [right; eauto 8|]. split; [done|]. split; [done|]. intros Hn. rewrite R3 in Hd by done. done.
    + destruct Hs as (S1 & S2 & b & ->). split; [done|]. split; [done|]. split; [by cbn; rewrite lookup_insert_eq|]. eauto.
Qed.

(** ** Deciding again *)

(** A recovery first makes no difference to what the decision does. *)
Lemma finalize_recovered s s' :
  recover_pending_source_write s = (s', inr ()) → fo_pending s' = Absent → fo_repairs s' = fo_repairs s →
  fo_repairs s !! rp_id repair = Some repair → finalize s = finalize s'.
Proof.
  intros Hrec Hp Hr Hrep. unfold finalize_agent_repair.
  rewrite (run_bind _ _ s s repair) by by apply read_own. rewrite (run_bind _ _ s' s' repair) by by apply read_own; rewrite Hr.
  rewrite (rj_status Hrj). cbn [decided]. rewrite !bool_decide_eq_false_2 by done. rewrite !bool_decide_eq_true_2 by done. cbn [negb].
  assert (Hcur : ∀ pr rel, current_source_locked pr aid rel s = current_source_locked pr aid rel s').
  { intros pr rel. unfold current_source_locked. rewrite (run_bind _ _ s s' ()) by done.
    by rewrite (run_bind _ _ s' s' ()) by by apply recover_absent. }
  unfold raise_if, mbind, eff_bind. cbn [mret eff_ret]. by rewrite Hcur.
Qed.

(** The restored content is in place and listed, only the mark is missing. *)
Lemma finalize_half s e :
  commit_ok p old (rv_id head) rejected_as (λ r, r = revs) revs e → finished revs e s →
  fo_repairs s !! rp_id repair = Some repair → plain_path p = true → finalize s = settle r_rejected repair s.
Proof.
  intros [_ C1 C2 _ C4 C5 _] (Hp & (c & Hs & Hc & Hl) & Hm) Hrep Hpl. apply Hcollision in Hc as ->.
  destruct (renumbered_same revs e) as (_ & E1 & E2). destruct (renumbered_attributes revs e) as [E3 E4].
  set (e' := renumbered revs e) in *.
  assert (Hsy : in_sync s p old (last80 (revs ++ [e'])) e').
  { split; try done; [by rewrite Hs, lookup_insert_eq|apply Hrj| |by rewrite E1].
    rewrite <-C1, <-E2. apply latest_last80. }
  unfold finalize_agent_repair. rewrite (run_bind _ _ s s repair) by by apply read_own.
  rewrite (rj_status Hrj). cbn [decided]. rewrite !bool_decide_eq_false_2 by done. rewrite !bool_decide_eq_true_2 by done. cbn [negb].
  rewrite (run_bind _ _ s s ()) by done. rewrite (rj_path Hrj).
  erewrite run_bind by (apply (current_in_sync s p old (last80 (revs ++ [e'])) e'); [done|]; apply resolve_plain; [done|]; rewrite Hs, lookup_insert_eq; eauto).
  cbn [so_revision]. assert (half_rejected repair e' = true) as ->; [|done].
  unfold half_rejected. rewrite E4, C4, (rj_revision Hrj), bool_decide_eq_true_2 by done.
  rewrite C5 in E3. unfold attributes in E3. injection E3 as _ _ -> _ ->. cbn [andb].
  apply bool_decide_eq_true_2. cbn. by left.
Qed.

(** The repair is marked and the content restored, once. *)
Definition rejected (after : Folder * (exn + Repair)) : Prop :=
  ∃ result entry, after.2 = inr result ∧ rp_status result = r_rejected ∧ fo_repairs after.1 !! rp_id repair = Some result ∧
    fo_pending after.1 = Absent ∧ fo_sources after.1 = <[p := old]> sources0 ∧
    manifest_of after.1 = Some (last80 (revs ++ [entry])) ∧ rv_path entry = p ∧ rv_hash entry = sha old ∧
    rv_base entry = Some (rv_id head).

Lemma rejected_intro g r e :
  commit_ok p old (rv_id head) rejected_as (λ r, r = revs) revs e → finished revs e g →
  rp_status r = r_rejected → fo_repairs g !! rp_id repair = Some r → rejected (g, inr r).
Proof.
  intros [_ C1 C2 _ C4 _ _] (Hp & (c & Hs & Hc & _) & Hm) Hst Hrep. apply Hcollision in Hc as ->.
  destruct (renumbered_same revs e) as (_ & E1 & E2). destruct (renumbered_attributes revs e) as [_ E4].
  exists r, (renumbered revs e). cbn. rewrite E1, E2, E4. by repeat split.
Qed.

Lemma base_readable s : kept revs s → manifest_of s = Some revs → blob_bytes s (rv_hash base) = Some old.
Proof.
  intros [_ Hr] Hm. destruct (Hr _ Hm) as [_ _ _ Hb]. rewrite list.Forall_forall in Hb.
  destruct (find_some _ _ (rj_base Hrj)) as [Hin _]. apply list_elem_of_In in Hin. destruct (Hb _ Hin) as [c Hc].
  rewrite Hc. apply blob_bytes_sha in Hc as [Hc _]. rewrite (rj_content Hrj) in Hc. by rewrite (Hcollision c).
Qed.

(** From a folder in sync, a decision that nothing interrupts. *)
Lemma rejection_alive s :
  kept revs s → in_sync s p text revs head → fo_repairs s !! rp_id repair = Some repair → fo_sources s = sources0 →
  fresh_id (fo_minted s) revs → fo_budget s = None → rejected (finalize s).
Proof.
  intros Hk Hsy Hrep Hs Hf Hb. assert (Hblob := base_readable s Hk (sy_manifest _ _ _ _ _ Hsy)).
  pose proof (first_rejection s Hsy Hrep Hblob Hs Hf) as H. destruct (finalize s) as [g [x|r]].
  - by destruct H as (_ & _ & _ & ?).
  - destruct H as (H1 & H2 & H3 & e & H4 & H5). by apply (rejected_intro g r e).
Qed.

Lemma rejection_again g :
  plain_path p = true → sources0 !! p = Some text → (Z.of_nat (String.length text) ≤ MAX_SOURCE_BYTES)%Z →
  utf8_valid true text = true → latest_of p revs = Some head → rv_hash head = sha text →
  kept revs g → crashed g → fo_repairs g !! rp_id repair = Some repair → fresh_id (fo_minted g) revs → fo_budget g = None →
  rejected (finalize g).
Proof.
  intros Hpl Hx Hl Hu Hh Hhash Hk Hc Hrep Hf Hb.
  destruct (recovery p text old (rv_id head) sources0 rejected_as (λ r, r = revs) Hpl Hx Hl g Hc) as [_ Hrec].
  destruct (Hrec Hb) as [Hset Hret]. pose proof (steady_recover g) as (R1 & R2 & R3). specialize (R3 Hb).
  pose proof (tri_recover revs g Hk) as Hk'. destruct (recover_pending_source_write g) as [s x] eqn:R. cbn in *. subst x.
  assert (Hp : fo_pending s = Absent) by by destruct Hset as [[? _]|(? & ? & _ & [? _])].
  rewrite (finalize_recovered g s R Hp R1 Hrep).
  destruct Hset as [(_ & Hs & r & Hm & ->)|(r & e & Hok & Hfin)].
  - apply rejection_alive; [done| |by rewrite R1|done|by rewrite R2|done]. split; try done. by rewrite Hs.
  - assert (r = revs) as -> by apply (co_revs _ _ _ _ _ _ _ Hok).
    rewrite (finalize_half s e Hok Hfin) by (done || by rewrite R1).
    pose proof (settle_own r_rejected s) as Hst. destruct (settle r_rejected repair s) as [h [x|r]].
    + destruct Hst as [_ Hd]. congruence.
    + destruct Hst as (S1 & S2 & b & ->). apply (rejected_intro _ r e); [done|done|done|]. cbn. by rewrite lookup_insert_eq.
Qed.

End Rejection.

(** C34: a rejection of the newest revision that was cut short is completed by deciding
    again.  The repair is ready, the agent's revision is the newest one of its source and
    was not moved past ([rejectable]), the file holds what that revision says and no write
    is under way ([in_sync]); no other content has the hash of the restored one, and the
    ids drawn are new.  The process may die before any write of the first attempt (or not
    at all); deciding the same again then reports the repair as rejected, and leaves the
    content from before the agent's edit in the source, no write under way, and exactly
    one revision more in the history than before the first attempt: the restored content,
    based on the agent's revision.  (For a suggestion the artifact has moved past see
    below.) *)
Theorem rejection_retry_completes f p text old revs head base repair primary aid actor expected budget :
  kept revs f → in_sync f p text revs head → rejectable p old revs head base repair expected →
  fo_repairs f !! rp_id repair = Some repair → (∀ c, sha c = sha old → c = old) →
  fresh_id (fo_minted f) revs → fresh_id (S (fo_minted f)) revs →
  let finalize := finalize_agent_repair primary aid (rp_id repair) d_rejected actor expected in
  let again := finalize ((finalize (f <| fo_budget := budget |>)).1 <| fo_budget := None |>) in
  ∃ result entry, again.2 = inr result ∧ rp_status result = r_rejected ∧ fo_repairs again.1 !! rp_id repair = Some result ∧
    fo_pending again.1 = Absent ∧ fo_sources again.1 = <[p := old]> (fo_sources f) ∧
    manifest_of again.1 = Some (last80 (revs ++ [entry])) ∧ rv_path entry = p ∧ rv_hash entry = sha old ∧
    rv_base entry = Some (rv_id head).
Proof.
  intros Hk Hsy Hrj Hrep Hcol F0 F1 finalize again.
  change (rejected p old revs head repair (fo_sources f) again). set (f1 := f <| fo_budget := budget |>) in *.
  assert (Hk1 : kept revs f1) by by apply (kept_frame revs f). assert (Hsy1 : in_sync f1 p text revs head) by by destruct Hsy.
  assert (Hblob : blob_bytes f1 (rv_hash base) = Some old) by (eapply base_readable; [done..|apply Hsy]).
  pose proof (first_rejection p text old revs head base repair (fo_sources f) primary aid actor expected Hrj f1 Hsy1 Hrep Hblob
    eq_refl F0) as H. fold finalize in H.
  pose proof (tri_finalize revs primary aid (rp_id repair) d_rejected actor expected f1 Hk1) as Hkg. fold finalize in Hkg.
  subst again. destruct (finalize f1) as [g [x|r]]; cbn [fst] in *.
  - destruct H as (Hc & Hr & Hm & _). destruct Hsy as [S1 S2 S3 S4 S5 S6 S7 S8].
    eapply rejection_again; try done; [by apply (kept_frame revs g)|change (fo_repairs g !! rp_id repair = Some repair); by rewrite Hr
      |change (fresh_id (fo_minted g) revs); by rewrite Hm].
  - destruct H as (H1 & H2 & H3 & e & H4 & H5).
    assert (finalize (g <| fo_budget := None |>) = (g <| fo_budget := None |>, inr r)) as ->.
    { unfold finalize, finalize_agent_repair. rewrite (run_bind _ _ (g <| fo_budget := None |>) (g <| fo_budget := None |>) r).
      - cbn [decided]. by rewrite H1, bool_decide_eq_true_2.
      - unfold read_repair, mbind, eff_bind. cbn [gets]. rewrite (rj_id _ _ _ _ _ _ _ Hrj).
        change (fo_repairs (g <| fo_budget := None |>)) with (fo_repairs g). rewrite H3. unfold own_record.
        by rewrite H2, String.eqb_refl. }
    by eapply rejected_intro.
Qed.

(** C40: the rejection of a suggestion the artifact has moved past is not completed
    by deciding again.  When a rejection against a head [moved] that is not the
    agent's own revision has restored the content (the head of the source is
    based on [moved]) and was cut short before it marked the repair, deciding the
    same again is answered with a conflict and nothing changes: the repair stays
    ready. *)
Theorem superseded_rejection_retry_refused f p text revs head moved repair primary aid actor :
  in_sync f p text revs head → fo_repairs f !! rp_id repair = Some repair →
  is_repair_id (rp_id repair) = true → rp_path repair = p → rp_status repair = r_ready →
  rv_base head = Some moved → rp_revision repair ≠ Some moved → rv_id head ≠ moved →
  finalize_agent_repair primary aid (rp_id repair) d_rejected actor (Some moved) f =
    (f, inl (superseded_conflict head)).
Proof.
  intros Hsy Hrep Hid Hpath Hst Hbase Hrev Hmoved. unfold finalize_agent_repair.
  unfold mbind at 1, eff_bind at 1.
  assert (read_repair (rp_id repair) f = (f, inr repair)) as ->.
  { unfold read_repair, mbind, eff_bind. cbn [gets]. rewrite Hid, Hrep. unfold own_record. by rewrite String.eqb_refl. }
  cbn [decided]. rewrite Hst. rewrite !bool_decide_eq_false_2 by done. rewrite !bool_decide_eq_true_2 by done.
  cbn [negb andb]. unfold mbind at 1, eff_bind at 1. unfold raise_if at 1; cbn [mret eff_ret].
  assert (Hres : resolve_source f primary (Some p) = inr p).
  { apply resolve_plain; [apply Hsy|]. rewrite (sy_source _ _ _ _ _ Hsy). eauto. }
  unfold mbind at 1, eff_bind at 1. rewrite Hpath, (current_in_sync f p text revs head primary aid (Some p) Hsy Hres).
  cbn [so_revision so_content]. unfold half_rejected. rewrite Hbase, bool_decide_eq_false_2 by done. cbn [andb].
  unfold mbind at 1, eff_bind at 1. rewrite (read_manifest_of f revs (sy_manifest _ _ _ _ _ Hsy)).
  cbn [check_decision]. by rewrite (proj2 (String.eqb_neq _ _) Hmoved).
Qed.

End Review.
