(* ===== verification/ArtifactDemo.v ===== *)
(** * An artifact with concrete hashes and ids.

    Shows that what is asked of hashes and ids can be had, and runs the service on
    it: a document is captured, handed to an agent, edited by it, and the edit is
    decided on. *)
From stdpp Require Import base list gmap strings option relations sorting.
From Stdlib Require Import ZArith NArith Lia.
From S2P Require Import Prelude JsonText Uuid Identity Triples ArtifactRevisions ArtifactRepairs ArtifactLog ArtifactCrash ArtifactReview.

#[local] Existing Instance plain_platform.

(** ** Hashes and ids *)

Fixpoint hex_of (k : nat) (n : N) : string :=
  match k with
  | 0 => ""
  | S k => String.String (hex_digit (N.to_nat (n mod 16))) (hex_of k (n / 16))
  end.

Fixpoint mixed (n : N) (s : string) : N :=
  match s with "" => n | String.String c s => mixed (257 * n + N.of_nat (ord c) + 1) s end.

(** One text has a hash of its own. *)
Definition demo_sha (s : string) : string :=
  if String.eqb s "v1" then String.String (chr 48) (hex_of 63 0) else String.String (chr 49) (hex_of 63 (mixed 0 s)).
Definition demo_uuid (n : nat) : string := uuid_str (hex_of 32 (N.of_nat n)).

#[export] Instance demo_env : ArtifactEnv := {|
  sha := demo_sha; uuid4 := demo_uuid; resolve_path := Some; user_file := λ _, true; project_secret := λ _, false |}.

Lemma hex_of_length k : ∀ n, String.length (hex_of k n) = k.
Proof. induction k as [|k IH]; intros n; cbn; [done|]. by rewrite IH. Qed.

Lemma hex_digit_lower n : n < 16 → lower_hex (hex_digit n) = true.
Proof. intros H. do 16 (destruct n as [|n]; [done|]). lia. Qed.

Lemma hex_of_lower k : ∀ n, str_forall lower_hex (hex_of k n) = true.
Proof.
  induction k as [|k IH]; intros n; cbn [hex_of str_forall]; [done|]. rewrite IH, hex_digit_lower; [done|].
  pose proof (N.mod_lt n 16). lia.
Qed.

#[export] Instance demo_laws : ArtifactLaws.
Proof.
  split.
  - intros s. cbn [sha demo_env]. unfold demo_sha, is_content_hash.
    destruct (String.eqb s "v1"); cbn [String.length str_forall]; rewrite hex_of_length, hex_of_lower; done.
  - intros n. cbn [uuid4 demo_env]. unfold demo_uuid, uuid_text. rewrite UUID_uuid_str; [done|].
    unfold uuid_digits. by rewrite hex_of_length, hex_of_lower.
Qed.

Lemma demo_collision c : sha c = sha "v1" → c = "v1".
Proof. cbn. unfold demo_sha. destruct (String.eqb_spec c "v1"); [done|]. cbn. by intros [=]. Qed.

(** ** A document and a repair *)

Definition demo_page : string := "index.md".
Definition demo_new : Folder := {|
  fo_sources := {[demo_page := "v1"]}; fo_manifest := Absent; fo_pending := Absent; fo_blobs := ∅; fo_repairs := ∅;
  fo_now := 0; fo_minted := 0; fo_budget := None |}.
Definition demo_captured : Folder := (run_op (op_current (Some demo_page) "a" None) (demo_new <| fo_budget := None |>)).1.
Definition demo_queued : Folder :=
  (run_op (op_create (Some demo_page) "a" (uuid4 0) "t1" None JNull "conv") (demo_captured <| fo_budget := None |>)).1.
Definition demo_edited : Folder :=
  demo_queued <| fo_sources := {[demo_page := "v2"]} |> <| fo_pending := fo_pending demo_queued |>
    <| fo_repairs := fo_repairs demo_queued |>.
Definition demo_ready : Folder := (run_op (op_capture (Some demo_page) "a" (Some "conv")) (demo_edited <| fo_budget := None |>)).1.

Definition demo_revisions (f : Folder) : list Revision := default [] (manifest_of f).
Definition demo_repair : option Repair := fo_repairs demo_ready !! uuid4 1.

Lemma demo_steps : rtc artifact_step demo_new demo_captured ∧ rtc artifact_step demo_captured demo_ready.
Proof.
  split; [apply rtc_once, step_call|]. eapply rtc_l; [apply step_call|]. eapply rtc_l; [apply step_agent|]. apply rtc_once, step_call.
Qed.

Example demo_artifact_history :
  map (λ r, (rv_number r, rv_hash r, rv_base r, rv_actor_kind r)) (demo_revisions demo_ready) =
    [(1%Z, sha "v1", None, "system"); (2%Z, sha "v2", Some (uuid4 0), "agent")] ∧
  (rp_status <$> demo_repair) = Some r_ready ∧ (demo_repair ≫= rp_revision) = Some (uuid4 2).
Proof. vm_compute. done. Qed.

(** ** The theorems on it *)

Lemma artifact_history_append_only_witness :
  ∃ revs new, manifest_of demo_captured = Some revs ∧ manifest_of demo_ready = Some (last80 (revs ++ new)) ∧
    let revs' := last80 (revs ++ new) in
    NoDup (map rv_id revs') ∧ StronglySorted Z.lt (map rv_number revs') ∧ length revs' ≤ MAX_REVISIONS ∧
    ∀ r, r ∈ revs' → ∃ content, blob_bytes demo_ready (rv_hash r) = Some content ∧ sha content = rv_hash r.
Proof. apply (artifact_history_append_only demo_new); [reflexivity|apply demo_steps|apply demo_steps]. Defined.

Lemma demo_ready_to_save : ready_to_save demo_ready demo_page "v2" (demo_revisions demo_ready).
Proof.
  split; [reflexivity|]. split; [reflexivity|]. split; [reflexivity|]. split; [vm_compute; discriminate|]. split; [vm_compute; reflexivity|].
  split; [|split]; apply (bool_decide_unpack _); vm_compute; exact I.
Qed.

Definition demo_save : af Source := save_source (Some demo_page) "a" "v3" (uuid4 2) None "manual" None "Edited" None [].

Lemma save_source_crash_atomic_witness :
  fo_pending (recoveries (demo_save (demo_ready <| fo_budget := Some 2 |>)).1 ([Some 1] ++ [None])) = Absent.
Proof.
  assert (H : resolve_source demo_ready (Some demo_page) None = inr demo_page) by (vm_compute; reflexivity).
  exact (proj1 (save_source_crash_atomic demo_ready demo_page "v2" (demo_revisions demo_ready) (Some demo_page) "a" "v3" (uuid4 2) None
    "manual" None "Edited" None [] (Some 2) [Some 1] demo_ready_to_save H)).
Defined.

Example demo_save_recovered :
  let saved := demo_save (demo_ready <| fo_budget := Some 2 |>) in
  let h := recoveries saved.1 ([Some 1] ++ [None]) in
  saved.2 = inl ProcessKilled ∧ fo_sources saved.1 !! demo_page = Some "v2" ∧ fo_sources h !! demo_page = Some "v3" ∧
  map rv_hash (demo_revisions h) = [sha "v1"; sha "v2"; sha "v3"].
Proof. vm_compute. done. Qed.

(** *** The rejection *)

Definition the_repair : Repair := default {|
  rp_id := ""; rp_artifact_id := ""; rp_path := ""; rp_base := ""; rp_base_hash := ""; rp_thread_id := ""; rp_selector := None;
  rp_thread := JNull; rp_conversation := ""; rp_status := r_queued; rp_revision := None; rp_created_at := None; rp_updated_at := 0 |}
  demo_repair.
Definition the_revision (n : nat) : Revision := default {|
  rv_id := ""; rv_number := 0; rv_artifact_id := ""; rv_path := ""; rv_created_at := 0; rv_actor_kind := ""; rv_actor_id := None;
  rv_summary := ""; rv_base := None; rv_hash := ""; rv_bytes := 0; rv_conversation := None; rv_threads := [] |}
  (demo_revisions demo_ready !! n).

Lemma demo_kept : kept (demo_revisions demo_ready) demo_ready.
Proof.
  destruct demo_steps as [H1 H2]. pose proof (artifact_steps_kept [] _ _ (transitivity H1 H2) (kept_fresh demo_new eq_refl)) as Hk.
  destruct (kept_restart _ _ Hk) as (revs & Hm & Hr). unfold demo_revisions. by rewrite Hm.
Qed.

Lemma demo_in_sync : in_sync demo_ready demo_page "v2" (demo_revisions demo_ready) (the_revision 1).
Proof. split; try reflexivity; try (vm_compute; reflexivity). vm_compute. discriminate. Qed.

Lemma demo_rejectable :
  rejectable demo_page "v1" (demo_revisions demo_ready) (the_revision 1) (the_revision 0) the_repair None.
Proof. split; try (vm_compute; reflexivity); [vm_compute; discriminate|by left]. Qed.

Lemma rejection_retry_completes_witness :
  let finalize := finalize_agent_repair (Some demo_page) "a" (rp_id the_repair) d_rejected (Some "owner") None in
  rejected demo_page "v1" (demo_revisions demo_ready) (the_revision 1) the_repair (fo_sources demo_ready)
    (finalize ((finalize (demo_ready <| fo_budget := Some 3 |>)).1 <| fo_budget := None |>)).
Proof.
  assert (H : fo_repairs demo_ready !! rp_id the_repair = Some the_repair) by (vm_compute; reflexivity).
  assert (F0 : fresh_id (fo_minted demo_ready) (demo_revisions demo_ready)) by (apply (bool_decide_unpack _); vm_compute; exact I).
  assert (F1 : fresh_id (S (fo_minted demo_ready)) (demo_revisions demo_ready)) by (apply (bool_decide_unpack _); vm_compute; exact I).
  exact (rejection_retry_completes demo_ready demo_page "v2" "v1" (demo_revisions demo_ready) (the_revision 1) (the_revision 0)
    the_repair (Some demo_page) "a" (Some "owner") None (Some 3) demo_kept demo_in_sync demo_rejectable H demo_collision F0 F1).
Defined.

(** *** A rejection after the artifact moved on *)

(** The owner edits past the agent's revision, then rejects the suggestion
    against the head that is shown. *)
Definition demo_moved : Folder :=
  (save_source (Some demo_page) "a" "v3" (uuid4 2) None "manual" None "Edited" None [] (demo_ready <| fo_budget := None |>)).1.
Definition reject_moved : af Repair :=
  finalize_agent_repair (Some demo_page) "a" (uuid4 1) d_rejected (Some "owner") (Some (uuid4 3)).

(** Uninterrupted, that rejection goes through. *)
Example demo_moved_rejected : ∃ done, (reject_moved demo_moved).2 = inr done ∧ rp_status done = r_rejected.
Proof. eexists. split; vm_compute; reflexivity. Qed.

(** The process dies after the content was restored and before the repair is
    marked. *)
Definition demo_cut : Folder := (reject_moved (demo_moved <| fo_budget := Some 4 |>)).1 <| fo_budget := None |>.
Definition demo_cut_head : Revision := default (the_revision 0) (list.last (demo_revisions demo_cut)).

Lemma demo_cut_in_sync : in_sync demo_cut demo_page "v1" (demo_revisions demo_cut) demo_cut_head.
Proof. split; try (vm_compute; reflexivity). vm_compute. discriminate. Qed.

Lemma superseded_rejection_retry_refused_witness :
  (reject_moved (demo_moved <| fo_budget := Some 4 |>)).2 = inl ProcessKilled ∧
  reject_moved demo_cut = (demo_cut, inl (superseded_conflict demo_cut_head)) ∧
  (rp_status <$> (fo_repairs demo_cut !! uuid4 1)) = Some r_ready.
Proof.
  split; [vm_compute; reflexivity|]. split; [|vm_compute; reflexivity].
  assert (H : fo_repairs demo_cut !! uuid4 1 = Some the_repair) by (vm_compute; reflexivity).
  assert (Hid : rp_id the_repair = uuid4 1) by (vm_compute; reflexivity).
  unfold reject_moved. rewrite <-Hid at 1.
  apply (superseded_rejection_retry_refused demo_cut demo_page "v1" (demo_revisions demo_cut) demo_cut_head (uuid4 3) the_repair).
  - exact demo_cut_in_sync.
  - rewrite Hid. exact H.
  - vm_compute. reflexivity.
  - vm_compute. reflexivity.
  - vm_compute. reflexivity.
  - vm_compute. reflexivity.
  - vm_compute. discriminate.
  - vm_compute. discriminate.
Defined.
