(* ===== verification/ArtifactLock.v ===== *)
(** * The lock of an artifact ([src/cowork/services/artifact_lock.py]).

    The lock is a file created exclusively in the journal.  Any number of
    processes take it, each file-system call a step of its own; a process may die
    anywhere and leave its file, which others remove once it is thirty seconds
    old.  An attempt creates at most one file, so a file is named by the attempt
    that created it; what is written through the descriptor of a file that was
    removed meanwhile is seen by nobody. *)
From stdpp Require Import base list gmap option relations.
From Stdlib Require Import ZArith Lia.
From S2P Require Import Prelude.

(** Seconds of a lock's age, in milliseconds. *)
Definition STALE_MS : Z := 30000.

(** Where an attempt is: about to create the file, to look at the one in the way,
    to remove the one of attempt [o] as stale; the file created and empty; inside;
    about to remove its own file; done. *)
Inductive Phase := Trying | Looking | StaleSeen (o : nat) | Created | Holding | Releasing | Left_ | Crashed.

Record LockFile := { lf_owner : nat; lf_written : bool; lf_mtime : Z }.

Record LockState := { lk_file : option LockFile; lk_now : Z; lk_procs : gmap nat Phase }.

#[export] Instance fields_LockState : Fields LockState := λ s, {|
  lk_file := lk_file s; lk_now := lk_now s; lk_procs := lk_procs s |}.

Definition enter (p : nat) (ph : Phase) (s : LockState) : LockState := s <| lk_procs := <[p := ph]> (lk_procs s) |>.

(** [dir_open(... O_CREAT | O_EXCL)]. *)
Definition try_create (p : nat) (s : LockState) : LockState :=
  match lk_file s with
  | None => enter p Created (s <| lk_file := Some {| lf_owner := p; lf_written := false; lf_mtime := lk_now s |} |>)
  | Some _ => enter p Looking s
  end.
(** [dir_lstat] of the file in the way. *)
Definition look (p : nat) (s : LockState) : LockState :=
  match lk_file s with
  | None => enter p Trying s
  | Some f => if (STALE_MS <? lk_now s - lf_mtime f)%Z then enter p (StaleSeen (lf_owner f)) s else enter p Trying s
  end.
(** [dir_unlink] of a stale file: of whatever is at the name by now. *)
Definition unlink_stale (p : nat) (s : LockState) : LockState := enter p Trying (s <| lk_file := None |>).
(** [os.write(fd, token)]. *)
Definition write_token (p : nat) (s : LockState) : LockState :=
  enter p Holding
    match lk_file s with
    | Some f => if Nat.eqb (lf_owner f) p
                then s <| lk_file := Some {| lf_owner := p; lf_written := true; lf_mtime := lk_now s |} |> else s
    | None => s
    end.
(** [_holds]: the file at the name has this attempt's token. *)
Definition holds (p : nat) (s : LockState) : bool :=
  match lk_file s with Some f => Nat.eqb (lf_owner f) p && lf_written f | None => false end.
Definition check_own (p : nat) (s : LockState) : LockState := enter p (if holds p s then Releasing else Left_) s.
Definition unlink_own (p : nat) (s : LockState) : LockState := enter p Left_ (s <| lk_file := None |>).

(** The attempts interleaved.  An attempt gives up when its time is over, and may
    die at any point. *)
Inductive lock_step : LockState → LockState → Prop :=
  | lk_start p s : lk_procs s !! p = None → lock_step s (enter p Trying s)
  | lk_create p s : lk_procs s !! p = Some Trying → lock_step s (try_create p s)
  | lk_look p s : lk_procs s !! p = Some Looking → lock_step s (look p s)
  | lk_stale p o s : lk_procs s !! p = Some (StaleSeen o) → lock_step s (unlink_stale p s)
  | lk_write p s : lk_procs s !! p = Some Created → lock_step s (write_token p s)
  | lk_check p s : lk_procs s !! p = Some Holding → lock_step s (check_own p s)
  | lk_unlink p s : lk_procs s !! p = Some Releasing → lock_step s (unlink_own p s)
  | lk_timeout p s : lk_procs s !! p = Some Trying → lock_step s (enter p Left_ s)
  | lk_crash p ph s : lk_procs s !! p = Some ph → lock_step s (enter p Crashed s)
  | lk_tick d s : (0 ≤ d)%Z → lock_step s (s <| lk_now := (lk_now s + d)%Z |>).

Definition no_lock (now : Z) : LockState := {| lk_file := None; lk_now := now; lk_procs := ∅ |}.

(** ** Exclusion *)

Definition locking (ph : Phase) : Prop := ph = Created ∨ ph = Holding ∨ ph = Releasing.

(** The attempt whose lock is in place for more than thirty seconds. *)
Definition overdue (s : LockState) : gset nat :=
  match lk_file s with
  | Some f => if (STALE_MS <? lk_now s - lf_mtime f)%Z then {[lf_owner f]} else ∅
  | None => ∅
  end.

(** What the protocol does not ensure: while an attempt is about to remove a
    stale lock, no other lock takes its place, and the lock's own attempt is not
    between the check of its token and the removal. *)
Definition undisturbed (s : LockState) : Prop :=
  ∀ p o, lk_procs s !! p = Some (StaleSeen o) →
    (∀ f, lk_file s = Some f → lf_owner f = o) ∧ lk_procs s !! o ≠ Some Releasing.

(** A step, with the attempts so far whose lock was ever in place for more than
    thirty seconds.  Attempts may take as long as they like. *)
Definition careful_step (s s' : LockState * gset nat) : Prop :=
  lock_step s.1 s'.1 ∧ undisturbed s'.1 ∧ s'.2 = s.2 ∪ overdue s'.1.

(** The file at the lock's name is this attempt's. *)
Definition owns (p : nat) (s : LockState) : Prop := ∃ f, lk_file s = Some f ∧ lf_owner f = p.

Record locked_once (s : LockState) (late : gset nat) : Prop := {
  lo_owner : ∀ p ph, lk_procs s !! p = Some ph → locking ph → p ∈ late ∨ owns p s;
  lo_leaving : ∀ p, lk_procs s !! p = Some Releasing → owns p s;
  lo_file : ∀ f, lk_file s = Some f → ∃ ph, lk_procs s !! lf_owner f = Some ph ∧ (locking ph ∨ ph = Crashed) ∧
    (ph = Holding → lf_written f = true);
  lo_stale : ∀ p o, lk_procs s !! p = Some (StaleSeen o) → o ∈ late;
}.

Lemma locked_later s late late' : late ⊆ late' → locked_once s late → locked_once s late'.
Proof. intros Hsub [H1 H2 H3 H4]. split; [|done|done|]; [intros p ph Hp Hl; destruct (H1 p ph Hp Hl); auto|eauto]. Qed.

(** One attempt moves on, the file stays. *)
Lemma enter_keeps p ph s late :
  locked_once s late → (locking ph → p ∈ late ∨ owns p s) → (ph = Releasing → owns p s) →
  (∀ f, lk_file s = Some f → lf_owner f = p → (locking ph ∨ ph = Crashed) ∧ (ph = Holding → lf_written f = true)) →
  (∀ o, ph = StaleSeen o → o ∈ late) →
  locked_once (enter p ph s) late.
Proof.
  intros [H1 H2 H3 H4] A B C D. split; cbn.
  - intros q phq [[<- <-]|[_ Hq]]%lookup_insert_Some; [exact A|exact (H1 q phq Hq)].
  - intros q [[<- ->]|[_ Hq]]%lookup_insert_Some; [by apply B|by apply H2].
  - intros f Hf. destruct (decide (lf_owner f = p)) as [E|Hne].
    + exists ph. rewrite E, lookup_insert_eq. split; [done|]. by apply C.
    + destruct (H3 f Hf) as (ph' & Hp & Hc). exists ph'. by rewrite lookup_insert_ne.
  - intros q o [[<- ->]|[_ Hq]]%lookup_insert_Some; eauto.
Qed.

(** An attempt that waits has no file in place. *)
Lemma waiting_owns_not p ph s late :
  locked_once s late → lk_procs s !! p = Some ph → ¬ locking ph → ph ≠ Crashed → ¬ owns p s.
Proof.
  intros H Hp Hn Hc (f & Hf & E). destruct (lo_file _ _ H f Hf) as (ph' & Ho & [?|?] & _); rewrite E, Hp in Ho; by simplify_eq.
Qed.

Lemma enter_waiting p ph0 ph s late :
  locked_once s late → lk_procs s !! p = Some ph0 → ¬ locking ph0 → ph0 ≠ Crashed → ¬ locking ph →
  (∀ o, ph = StaleSeen o → o ∈ late) → locked_once (enter p ph s) late.
Proof.
  intros H Hp Hn Hc Hl Hs. pose proof (waiting_owns_not p ph0 s late H Hp Hn Hc) as Hno.
  apply enter_keeps; [done|done| | |done].
  - intros ->. destruct Hl. right. by right.
  - intros f Hf E. destruct Hno. by exists f.
Qed.

Lemma create_keeps p s late : locked_once s late → lk_procs s !! p = Some Trying → locked_once (try_create p s) late.
Proof.
  intros H Hp. unfold try_create. destruct (lk_file s) as [f|] eqn:F.
  { eapply enter_waiting; [done|done|by intros [?|[?|?]]|done|by intros [?|[?|?]]|done]. }
  assert (Hno : ∀ q, ¬ owns q s) by (intros q (f & Hf & _); congruence).
  destruct H as [H1 H2 H3 H4]. split; cbn.
  - intros q ph [[<- <-]|[Hne Hq]]%lookup_insert_Some Hl; [right; by eexists|].
    destruct (H1 q ph Hq Hl) as [?|Hq']; [by left|by destruct (Hno q)].
  - intros q [[<- ?]|[Hne Hq]]%lookup_insert_Some; [done|]. by destruct (Hno q (H2 q Hq)).
  - intros f [= <-]. cbn. exists Created. rewrite lookup_insert_eq. split; [done|]. split; [|done]. left. by left.
  - intros q o [[<- ?]|[Hne Hq]]%lookup_insert_Some; [done|eauto].
Qed.

Lemma look_keeps p s late :
  locked_once s late → overdue s ⊆ late → lk_procs s !! p = Some Looking → locked_once (look p s) late.
Proof.
  intros H Hlate Hp. unfold look, overdue in *.
  assert (Htry : locked_once (enter p Trying s) late)
    by (eapply enter_waiting; [done|done|by intros [?|[?|?]]|done|by intros [?|[?|?]]|done]).
  destruct (lk_file s) as [f|]; [|done]. destruct (_ <? _)%Z; [|done].
  eapply enter_waiting; [done|done|by intros [?|[?|?]]|done|by intros [?|[?|?]]|]. intros o [= <-]. set_solver.
Qed.

Lemma stale_keeps p o s late :
  locked_once s late → undisturbed s → lk_procs s !! p = Some (StaleSeen o) → locked_once (unlink_stale p s) late.
Proof.
  intros H Hu Hp. destruct (Hu p o Hp) as [Hown Hrel]. pose proof (lo_stale _ _ H p o Hp) as Ho.
  destruct H as [H1 H2 H3 H4]. split; cbn.
  - intros q ph [[<- <-]|[Hne Hq]]%lookup_insert_Some Hl; [by destruct Hl as [?|[?|?]]|].
    destruct (H1 q ph Hq Hl) as [?|(f & Hf & <-)]; [by left|]. left. by rewrite (Hown f Hf).
  - intros q [[<- ?]|[Hne Hq]]%lookup_insert_Some; [done|]. destruct (H2 q Hq) as (f & Hf & Hq').
    rewrite (Hown f Hf) in Hq'. congruence.
  - done.
  - intros q o' [[<- ?]|[Hne Hq]]%lookup_insert_Some; [done|eauto].
Qed.

Lemma write_keeps p s late : locked_once s late → lk_procs s !! p = Some Created → locked_once (write_token p s) late.
Proof.
  intros H Hp. unfold write_token.
  assert (Hin : p ∈ late ∨ owns p s) by (apply (lo_owner _ _ H p Created Hp); by left).
  destruct (lk_file s) as [f|] eqn:F; [destruct (Nat.eqb_spec (lf_owner f) p) as [E|Hne]|].
  - apply enter_keeps; [|by right; eexists|done| |done].
    + destruct H as [H1 H2 H3 H4]. split; cbn; [| | |done].
      * intros q ph Hq Hl. destruct (H1 q ph Hq Hl) as [?|(g & Hg & <-)]; [by left|]. right. eexists. split; [done|]. cbn. congruence.
      * intros q Hq. destruct (H2 q Hq) as (g & Hg & <-). eexists. split; [done|]. cbn. congruence.
      * intros g [= <-]. cbn. exists Created. split; [done|]. split; [|done]. left. by left.
    + intros g. cbn. intros [= <-] _. split; [|done]. left. right. by left.
  - apply enter_keeps; [done|by intros _|done| |done]. intros g Hg E. congruence.
  - apply enter_keeps; [done|by intros _|done| |done]. intros g Hg E. congruence.
Qed.

(** The check of the token: an attempt whose file is in place removes it, one
    whose file is not leaves what is there. *)
Lemma check_keeps p s late : locked_once s late → lk_procs s !! p = Some Holding → locked_once (check_own p s) late.
Proof.
  intros H Hp. unfold check_own. destruct (holds p s) eqn:Hh.
  - assert (owns p s) as Hown.
    { unfold holds in Hh. destruct (lk_file s) as [f|] eqn:F; [|done]. apply andb_true_iff in Hh as [E%Nat.eqb_eq _]. by exists f. }
    apply enter_keeps; [done|by right|done| |done]. intros f _ _. split; [|done]. left. right. by right.
  - apply enter_keeps; [done|by intros [?|[?|?]]|done| |done]. intros f Hf E. exfalso.
    destruct (lo_file _ _ H f Hf) as (ph & Ho & _ & Hw). rewrite E, Hp in Ho. injection Ho as <-.
    unfold holds in Hh. by rewrite Hf, E, Nat.eqb_refl, Hw in Hh.
Qed.

Lemma unlink_keeps p s late : locked_once s late → lk_procs s !! p = Some Releasing → locked_once (unlink_own p s) late.
Proof.
  intros H Hp. destruct (lo_leaving _ _ H p Hp) as (f & Hf & Hown). destruct H as [H1 H2 H3 H4]. split; cbn.
  - intros q ph [[<- <-]|[Hne Hq]]%lookup_insert_Some Hl; [by destruct Hl as [?|[?|?]]|].
    destruct (H1 q ph Hq Hl) as [?|(g & Hg & Hq')]; [by left|]. destruct Hne. congruence.
  - intros q [[<- ?]|[Hne Hq]]%lookup_insert_Some; [done|]. destruct (H2 q Hq) as (g & Hg & Hq'). destruct Hne. congruence.
  - done.
  - intros q o [[<- ?]|[Hne Hq]]%lookup_insert_Some; [done|eauto].
Qed.

Lemma lock_step_keeps s s' late :
  lock_step s s' → overdue s ⊆ late → undisturbed s → locked_once s late → locked_once s' late.
Proof.
  intros Hs Hlate Hu H. destruct Hs as [p s Hp|p s Hp|p s Hp|p o s Hp|p s Hp|p s Hp|p s Hp|p s Hp|p ph s Hp|d s _].
  - apply enter_keeps; [done|by intros [?|[?|?]]|done| |done].
    intros f Hf E. destruct (lo_file _ _ H f Hf) as (ph & Ho & _). congruence.
  - by apply create_keeps.
  - by apply look_keeps.
  - by apply (stale_keeps p o).
  - by apply write_keeps.
  - by apply check_keeps.
  - by apply unlink_keeps.
  - eapply enter_waiting; [done|done|by intros [?|[?|?]]|done|by intros [?|[?|?]]|done].
  - apply enter_keeps; [done|by intros [?|[?|?]]|done| |done]. intros f _ _. split; [by right|done].
  - destruct H as [H1 H2 H3 H4]. by split.
Qed.

(** C22: the lock of an artifact excludes.  Any number of processes take it, any of
    them dying anywhere or pausing for any time.  As long as no new lock takes the
    place of a stale one, and the stale one's own process is not about to remove it,
    while another process is about to remove that stale one:
    - of the attempts inside, at most one has never had its lock in place for more than
      thirty seconds, and the file at the lock's name is that attempt's;
    - an attempt that is about to remove its lock on leaving has its own file there,
      also one that paused so long that others took the lock meanwhile;
    - the file at the lock's name is never that of an attempt that has left. *)
Theorem artifact_lock_exclusive now s late :
  rtc careful_step (no_lock now, ∅) (s, late) →
  (∀ p ph, lk_procs s !! p = Some ph → locking ph → p ∉ late →
     owns p s ∧ ∀ q ph', lk_procs s !! q = Some ph' → locking ph' → q ∉ late → q = p) ∧
  (∀ p, lk_procs s !! p = Some Releasing → owns p s) ∧
  (∀ f, lk_file s = Some f → lk_procs s !! lf_owner f ≠ Some Left_).
Proof.
  intros Hr. assert (H : locked_once s late).
  { enough (H : ∀ x y, rtc careful_step x y → locked_once x.1 x.2 ∧ overdue x.1 ⊆ x.2 ∧ undisturbed x.1 → locked_once y.1 y.2).
    { apply (H _ _ Hr). split; [split; cbn; intros; done|]. split; [done|]. intros p o Hp. cbn in Hp. by rewrite lookup_empty in Hp. }
    clear. induction 1 as [x|x y z (Hs & Hu & Hl) _ IH]; [by intros [? _]|]. intros (H & Hlate & Hux). apply IH. rewrite Hl.
    split; [|split; [set_solver|done]]. apply (locked_later _ x.2); [set_solver|]. by apply (lock_step_keeps x.1). }
  split_and!.
  - intros p ph Hp Hl Hn. destruct (lo_owner _ _ H p ph Hp Hl) as [?|Hown]; [done|]. split; [done|].
    intros q ph' Hq Hlq Hnq. destruct (lo_owner _ _ H q ph' Hq Hlq) as [?|(g & Hg & <-)]; [done|].
    destruct Hown as (f & Hf & <-). congruence.
  - apply (lo_leaving _ _ H).
  - intros f Hf Hp. destruct (lo_file _ _ H f Hf) as (ph & Ho & [Hl|Hl] & _); rewrite Hp in Ho; simplify_eq.
    by destruct Hl as [?|[?|?]].
Qed.

(** ** Concrete histories *)

Definition undisturbed_b (s : LockState) : bool :=
  forallb (λ pp : nat * Phase,
    match pp.2 with
    | StaleSeen o =>
        match lk_file s with Some f => Nat.eqb (lf_owner f) o | None => true end &&
        match lk_procs s !! o with Some Releasing => false | _ => true end
    | _ => true
    end) (map_to_list (lk_procs s)).
Lemma undisturbed_b_sound s : undisturbed_b s = true → undisturbed s.
Proof.
  unfold undisturbed_b. intros H p o Hp. rewrite forallb_forall in H.
  assert (Hin : List.In (p, StaleSeen o) (map_to_list (lk_procs s))) by (by apply list_elem_of_In, elem_of_map_to_list).
  apply H in Hin. cbn in Hin. apply andb_true_iff in Hin as [H1 H2]. split.
  - intros f Hf. rewrite Hf in H1. by apply Nat.eqb_eq.
  - intros Ho. by rewrite Ho in H2.
Qed.

(** Attempt 0 dies with its file empty.  Half a minute later attempt 1 removes that
    file and takes the lock, and pauses for longer than half a minute itself;
    attempt 2 removes its lock and takes it.  Attempt 1 then wakes up, sees that the
    lock is not its own any more and leaves it. *)
Definition demo_taken_over : LockState :=
  check_own 1 (write_token 2 (try_create 2 (unlink_stale 2 (look 2 (try_create 2 (enter 2 Trying
    ((write_token 1 (try_create 1 (unlink_stale 1 (look 1 (try_create 1 (enter 1 Trying
      ((enter 0 Crashed (try_create 0 (enter 0 Trying (no_lock 0)))) <| lk_now := 30001%Z |>)))))))
      <| lk_now := 60002%Z |>))))))).

Ltac careful_by c :=
  eapply (rtc_l _ _ (_, _)); [split; [cbn [fst]; apply c; (reflexivity || done)|split; [apply undisturbed_b_sound; vm_compute; reflexivity|reflexivity]]|].

Lemma demo_taken_over_reachable : ∃ late, rtc careful_step (no_lock 0, ∅) (demo_taken_over, late) ∧ 2 ∉ late.
Proof.
  eexists. split.
  - careful_by (lk_start 0). careful_by (lk_create 0). careful_by (lk_crash 0 Created). careful_by (lk_tick 30001).
    careful_by (lk_start 1). careful_by (lk_create 1). careful_by (lk_look 1). careful_by (lk_stale 1 0).
    careful_by (lk_create 1). careful_by (lk_write 1). careful_by (lk_tick 30001).
    careful_by (lk_start 2). careful_by (lk_create 2). careful_by (lk_look 2). careful_by (lk_stale 2 1).
    careful_by (lk_create 2). careful_by (lk_write 2). careful_by (lk_check 1). apply rtc_refl.
  - apply (bool_decide_unpack _). vm_compute. exact I.
Qed.

Lemma artifact_lock_exclusive_witness :
  lk_procs demo_taken_over !! 1 = Some Left_ ∧ lk_procs demo_taken_over !! 2 = Some Holding ∧ owns 2 demo_taken_over.
Proof.
  split; [vm_compute; reflexivity|]. split; [vm_compute; reflexivity|].
  destruct demo_taken_over_reachable as (late & Hr & Hn).
  refine (proj1 (proj1 (artifact_lock_exclusive 0 demo_taken_over late Hr) 2 Holding _ _ Hn)).
  - vm_compute. reflexivity.
  - right. left. reflexivity.
Defined.

(** ** The race that is left *)

(** What the protocol counts on: an operation under the lock takes less than the
    thirty seconds, so an older lock is a dead process's. *)
Definition prompt (s : LockState) : Prop :=
  ∀ f ph, lk_file s = Some f → lk_procs s !! lf_owner f = Some ph → locking ph → (lk_now s - lf_mtime f ≤ STALE_MS)%Z.

Definition prompt_b (s : LockState) : bool :=
  match lk_file s with
  | None => true
  | Some f =>
      match lk_procs s !! lf_owner f with
      | Some Created | Some Holding | Some Releasing => (lk_now s - lf_mtime f <=? STALE_MS)%Z
      | _ => true
      end
  end.
Lemma prompt_b_sound s : prompt_b s = true → prompt s.
Proof.
  unfold prompt_b. intros H f ph Hf Hp Hl. rewrite Hf, Hp in H. apply Z.leb_le. by destruct Hl as [->|[->| ->]].
Qed.

(** A dead process's lock, half a minute later, and two processes that find it. *)
Definition prompt_step (s s' : LockState) : Prop := lock_step s s' ∧ prompt s'.

Ltac prompt_by c := eapply rtc_l; [split; [apply c; (reflexivity || done)|apply prompt_b_sound; vm_compute; reflexivity]|].

(** Both judge the lock stale; the first removes it and takes its own; the second
    then removes that one: both are inside, although no operation outlasted the
    thirty seconds. *)
Theorem stale_lock_race : ∃ s, rtc prompt_step (no_lock 0) s ∧ lk_procs s !! 1 = Some Holding ∧ lk_procs s !! 2 = Some Holding.
Proof.
  eexists. split; [|].
  - prompt_by (lk_start 0). prompt_by (lk_create 0). prompt_by (lk_crash 0 Created). prompt_by (lk_tick 30001).
    prompt_by (lk_start 1). prompt_by (lk_start 2). prompt_by (lk_create 1). prompt_by (lk_create 2).
    prompt_by (lk_look 1). prompt_by (lk_look 2). prompt_by (lk_stale 1 0). prompt_by (lk_create 1). prompt_by (lk_write 1).
    prompt_by (lk_stale 2 0). prompt_by (lk_create 2). prompt_by (lk_write 2). apply rtc_refl.
  - vm_compute. done.
Qed.
