(* ===== verification/DbUnits.v ===== *)
(** * Database units ([src/cowork/db/units.py]).

    A caller on the event loop hands a function to a worker thread and waits: for a
    slot, for a connection, and for the function.  It may be cancelled at any time
    and stops waiting at its deadline.  Caller, unit task and thread of any number
    of calls are interleaved, each section that nothing interrupts a step; the two
    meet in the hand-off, under its lock.

    The pool of connections is the environment's: a thread is given one or times
    out at any time.  What the function returns or raises is arbitrary. *)
From stdpp Require Import base list gmap option relations.
From Stdlib Require Import ZArith Lia.
From S2P Require Import Prelude.

(** How a unit ends: as the function did, without a slot or connection in time, or
    because its caller had left. *)
Inductive UnitResult := u_value (v : nat) | u_raised (v : nat) | u_busy | u_abandoned.

(** What the caller of [run_db] gets. *)
Inductive CallOutcome := o_result (r : UnitResult) | o_busy | o_cancelled.

(** The caller: waiting for its conversation's lock, in [asyncio.wait], cancelled
    and draining the unit, awaiting the unit, gone. *)
Inductive CallerPhase := c_locking | c_waiting | c_draining | c_finishing | c_left (o : CallOutcome).

(** The unit task and its thread. *)
Inductive UnitPhase := u_none | u_slot | u_connecting | u_connected | u_running | u_returning (r : UnitResult) | u_ended (r : UnitResult).

Record Call := {
  ca_conversation : option nat;
  ca_caller : CallerPhase;
  ca_unit : UnitPhase;
  ca_admitted : bool;
  ca_given_up : bool;
  ca_ran : nat;                      (* how often the function was called *)
}.

#[export] Instance fields_Call : Fields Call := λ c, {|
  ca_conversation := ca_conversation c; ca_caller := ca_caller c; ca_unit := ca_unit c; ca_admitted := ca_admitted c;
  ca_given_up := ca_given_up c; ca_ran := ca_ran c |}.

Record Units := {
  un_calls : gmap nat Call;
  un_total : option nat;             (* slots; [None] where the pool has no limit *)
  un_borrowed : nat;
  un_locks : gset nat;               (* conversations whose lock is taken *)
}.

#[export] Instance fields_Units : Fields Units := λ s, {|
  un_calls := un_calls s; un_total := un_total s; un_borrowed := un_borrowed s; un_locks := un_locks s |}.

(** [_Handoff]. *)
Definition handoff_admit (c : Call) : Call * bool :=
  let c := if ca_given_up c then c else c <| ca_admitted := true |> in (c, ca_admitted c).
Definition handoff_give_up (c : Call) : Call * bool :=
  let c := if ca_admitted c then c else c <| ca_given_up := true |> in (c, ca_given_up c).

Definition unit_done (c : Call) : option UnitResult := match ca_unit c with u_ended r => Some r | _ => None end.

(** ** The caller *)

Definition set_call (i : nat) (c : Call) (s : Units) : Units := s <| un_calls := <[i := c]> (un_calls s) |>.

(** Out of [conversation_writes] with its outcome. *)
Definition leave_call (i : nat) (o : CallOutcome) (c : Call) (s : Units) : Units :=
  (set_call i (c <| ca_caller := c_left o |>) s) <| un_locks := match ca_conversation c with Some k => un_locks s ∖ {[k]} | None => un_locks s end |>.

(** The lock is taken, [run_db] starts the unit task. *)
Definition lock_free (c : Call) (s : Units) : bool :=
  match ca_conversation c with Some k => bool_decide (k ∉ un_locks s) | None => true end.
Definition begin_call (i : nat) (c : Call) (s : Units) : Units :=
  (set_call i (c <| ca_caller := c_waiting |> <| ca_unit := u_slot |>) s)
    <| un_locks := match ca_conversation c with Some k => un_locks s ∪ {[k]} | None => un_locks s end |>.
(** [asyncio.wait] returned: the unit is done, or the deadline passed. *)
Definition wait_over (i : nat) (c : Call) (s : Units) : Units :=
  match unit_done c with
  | Some _ => set_call i (c <| ca_caller := c_finishing |>) s
  | None =>
      let '(c, gave_up) := handoff_give_up c in
      if gave_up : bool then leave_call i o_busy c s else set_call i (c <| ca_caller := c_finishing |>) s
  end.
(** Cancelled in [asyncio.wait]. *)
Definition wait_cancelled (i : nat) (c : Call) (s : Units) : Units :=
  let '(c, gave_up) := handoff_give_up c in
  if gave_up : bool then leave_call i o_cancelled c s else set_call i (c <| ca_caller := c_draining |>) s.
(** [_finish_even_if_cancelled] and [_drain]. *)
Definition finish (i : nat) (c : Call) (r : UnitResult) (s : Units) : Units := leave_call i (o_result r) c s.
Definition finish_cancelled (i : nat) (c : Call) (s : Units) : Units := set_call i (c <| ca_caller := c_draining |>) s.
Definition drained (i : nat) (c : Call) (s : Units) : Units := leave_call i o_cancelled c s.

(** ** The unit *)

Definition slot_free (s : Units) : bool := match un_total s with Some n => Nat.ltb (un_borrowed s) n | None => true end.
(** [_unit_task]: a slot is taken and, unless the caller has left, the thread
    started. *)
Definition take_slot (i : nat) (c : Call) (s : Units) : Units :=
  if ca_given_up c then set_call i (c <| ca_unit := u_ended u_abandoned |>) s
  else (set_call i (c <| ca_unit := u_connecting |>) s) <| un_borrowed := S (un_borrowed s) |>.
Definition slot_timeout (i : nat) (c : Call) (s : Units) : Units := set_call i (c <| ca_unit := u_ended u_busy |>) s.
(** [_run_unit] and [unit_session]. *)
Definition connect (i : nat) (c : Call) (s : Units) : Units := set_call i (c <| ca_unit := u_connected |>) s.
Definition pool_timeout (i : nat) (c : Call) (s : Units) : Units := set_call i (c <| ca_unit := u_returning u_busy |>) s.
Definition enter_unit (i : nat) (c : Call) (s : Units) : Units :=
  let '(c, admitted) := handoff_admit c in
  if admitted : bool then set_call i (c <| ca_unit := u_running |> <| ca_ran := S (ca_ran c) |>) s
  else set_call i (c <| ca_unit := u_returning u_abandoned |>) s.
Definition fn_ends (i : nat) (c : Call) (r : UnitResult) (s : Units) : Units := set_call i (c <| ca_unit := u_returning r |>) s.
(** The thread's outcome reaches the task, which gives the slot back. *)
Definition release_slot (i : nat) (c : Call) (r : UnitResult) (s : Units) : Units :=
  (set_call i (c <| ca_unit := u_ended r |>) s) <| un_borrowed := pred (un_borrowed s) |>.

Definition of_fn (r : UnitResult) : bool := match r with u_value _ | u_raised _ => true | _ => false end.

Definition new_call (conversation : option nat) : Call := {|
  ca_conversation := conversation; ca_caller := c_locking; ca_unit := u_none; ca_admitted := false; ca_given_up := false; ca_ran := 0 |}.

Inductive unit_step : Units → Units → Prop :=
  | us_new i conversation s : un_calls s !! i = None → unit_step s (set_call i (new_call conversation) s)
  | us_begin i c s : un_calls s !! i = Some c → ca_caller c = c_locking → lock_free c s = true → unit_step s (begin_call i c s)
  | us_lock_cancelled i c s :
      un_calls s !! i = Some c → ca_caller c = c_locking → unit_step s (set_call i (c <| ca_caller := c_left o_cancelled |>) s)
  | us_wait_over i c s : un_calls s !! i = Some c → ca_caller c = c_waiting → unit_step s (wait_over i c s)
  | us_wait_cancelled i c s : un_calls s !! i = Some c → ca_caller c = c_waiting → unit_step s (wait_cancelled i c s)
  | us_finish i c r s : un_calls s !! i = Some c → ca_caller c = c_finishing → unit_done c = Some r → unit_step s (finish i c r s)
  | us_finish_cancelled i c s : un_calls s !! i = Some c → ca_caller c = c_finishing → unit_step s (finish_cancelled i c s)
  | us_drained i c r s : un_calls s !! i = Some c → ca_caller c = c_draining → unit_done c = Some r → unit_step s (drained i c s)
  | us_take_slot i c s : un_calls s !! i = Some c → ca_unit c = u_slot → slot_free s = true → unit_step s (take_slot i c s)
  | us_slot_timeout i c s : un_calls s !! i = Some c → ca_unit c = u_slot → unit_step s (slot_timeout i c s)
  | us_connect i c s : un_calls s !! i = Some c → ca_unit c = u_connecting → unit_step s (connect i c s)
  | us_pool_timeout i c s : un_calls s !! i = Some c → ca_unit c = u_connecting → unit_step s (pool_timeout i c s)
  | us_enter i c s : un_calls s !! i = Some c → ca_unit c = u_connected → unit_step s (enter_unit i c s)
  | us_fn_ends i c r s : un_calls s !! i = Some c → ca_unit c = u_running → of_fn r = true → unit_step s (fn_ends i c r s)
  | us_release i c r s : un_calls s !! i = Some c → ca_unit c = u_returning r → unit_step s (release_slot i c r s).

Definition no_calls (total : option nat) : Units := {| un_calls := ∅; un_total := total; un_borrowed := 0; un_locks := ∅ |}.

(** ** One call *)

Definition result_ok (c : Call) (r : UnitResult) : Prop :=
  match r with
  | u_value _ | u_raised _ => ca_admitted c = true
  | u_busy => ca_admitted c = false
  | u_abandoned => ca_given_up c = true
  end.

Definition unit_ok (c : Call) : Prop :=
  match ca_unit c with
  | u_none => ca_admitted c = false ∧ ca_given_up c = false
  | u_slot | u_connecting | u_connected => ca_admitted c = false
  | u_running => ca_admitted c = true
  | u_returning r | u_ended r => result_ok c r
  end.

Definition caller_ok (c : Call) : Prop :=
  match ca_caller c with
  | c_locking => ca_unit c = u_none
  | c_waiting => ca_given_up c = false ∧ ca_unit c ≠ u_none
  | c_finishing | c_draining => ca_given_up c = false ∧ (ca_admitted c = true ∨ is_Some (unit_done c))
  | c_left o_busy => ca_given_up c = true
  | c_left o_cancelled => ca_given_up c = true ∨ is_Some (unit_done c) ∨ ca_unit c = u_none
  | c_left (o_result r) => ca_given_up c = false ∧ ca_unit c = u_ended r
  end.

Record call_ok (c : Call) : Prop := {
  ck_unit : unit_ok c;
  ck_caller : caller_ok c;
  ck_once : ca_given_up c = true → ca_admitted c = false;
  ck_ran : ca_ran c = if ca_admitted c then 1 else 0;
}.

(** A call by cases on what it is made of. *)
Ltac by_call c :=
  destruct c as [conv caller unit adm giv ran]; cbn in *; subst;
  repeat match goal with H : call_ok _ |- _ => destruct H as [? ? ? ?] end;
  unfold unit_ok, caller_ok, unit_done, result_ok, handoff_admit, handoff_give_up in *; cbn in *;
  repeat match goal with
    | b : bool |- _ => destruct b
    | u : UnitPhase |- _ => destruct u
    | u : UnitResult |- _ => destruct u
    end; cbn in *; try discriminate;
  (split; unfold unit_ok, caller_ok, unit_done, result_ok; cbn;
   repeat match goal with x : CallerPhase |- _ => destruct x | o : CallOutcome |- _ => destruct o end;
   try done; try tauto; try naive_solver).

(** Every step of the protocol keeps a call sound. *)
Lemma call_step_ok i s s' :
  unit_step s s' → (∀ j c, un_calls s !! j = Some c → call_ok c) → ∀ c', un_calls s' !! i = Some c' → call_ok c'.
Proof.
  intros Hs H c'.
  assert (Hset : ∀ j c, call_ok c → <[j := c]> (un_calls s) !! i = Some c' → call_ok c').
  { intros j c Hok. destruct (decide (j = i)) as [<-|Hne]; [rewrite lookup_insert_eq; by intros [= <-]|].
    rewrite lookup_insert_ne by done. apply H. }
  destruct Hs as [j k s Hj|j c s Hj Hc Hl|j c s Hj Hc|j c s Hj Hc|j c s Hj Hc|j c r s Hj Hc Hd|j c s Hj Hc|j c r s Hj Hc Hd
    |j c s Hj Hu Hf|j c s Hj Hu|j c s Hj Hu|j c s Hj Hu|j c s Hj Hu|j c r s Hj Hu Hr|j c r s Hj Hu].
  { apply (Hset j (new_call k)). split; done. }
  all: specialize (H j c Hj).
  - cbn; apply Hset. by_call c.
  - cbn; apply Hset. by_call c.
  - unfold wait_over. destruct (unit_done c) eqn:D.
    + cbn; apply Hset. by_call c.
    + unfold handoff_give_up. destruct (ca_admitted c) eqn:A; cbn.
      * destruct (ca_given_up c) eqn:G; (cbn; apply Hset); by_call c.
      * cbn; apply Hset. by_call c.
  - unfold wait_cancelled, handoff_give_up. destruct (ca_admitted c) eqn:A; cbn.
    + destruct (ca_given_up c) eqn:G; (cbn; apply Hset); by_call c.
    + cbn; apply Hset. by_call c.
  - cbn; apply Hset. by_call c.
  - cbn; apply Hset. by_call c.
  - cbn; apply Hset. by_call c.
  - unfold take_slot. destruct (ca_given_up c) eqn:G; (cbn; apply Hset); by_call c.
  - cbn; apply Hset. by_call c.
  - cbn; apply Hset. by_call c.
  - cbn; apply Hset. by_call c.
  - unfold enter_unit, handoff_admit. destruct (ca_given_up c) eqn:G; cbn.
    + destruct (ca_admitted c) eqn:A; (cbn; apply Hset); by_call c.
    + cbn; apply Hset. by_call c.
  - cbn; apply Hset. by_call c.
  - cbn; apply Hset. by_call c.
Qed.

(** ** Locks *)

Definition holding (c : Call) : bool := match ca_caller c with c_waiting | c_draining | c_finishing => true | _ => false end.

(** A call inside [conversation_writes] has taken the lock, and no two have the
    same. *)
Definition locks_ok (s : Units) : Prop :=
  (∀ i c k, un_calls s !! i = Some c → holding c = true → ca_conversation c = Some k → k ∈ un_locks s) ∧
  (∀ i j c d k, un_calls s !! i = Some c → un_calls s !! j = Some d → holding c = true → holding d = true →
     ca_conversation c = Some k → ca_conversation d = Some k → i = j).

(** One call changes, its place in the lock does not. *)
Lemma locks_same j c c' s s' :
  locks_ok s → un_calls s !! j = Some c → ca_conversation c' = ca_conversation c → holding c' = holding c →
  un_calls s' = <[j := c']> (un_calls s) → un_locks s' = un_locks s → locks_ok s'.
Proof.
  intros [H1 H2] Hj Hk Hh Ec El.
  assert (Hold : ∀ i d, un_calls s' !! i = Some d → ∃ d0, un_calls s !! i = Some d0 ∧ holding d0 = holding d ∧ ca_conversation d0 = ca_conversation d).
  { intros i d. rewrite Ec. destruct (decide (j = i)) as [<-|Hne]; [rewrite lookup_insert_eq; intros [= <-]; eauto|].
    rewrite lookup_insert_ne by done. eauto. }
  split.
  - intros i d k Hi Hd Hc. destruct (Hold i d Hi) as (d0 & A & B & C). rewrite El. apply (H1 i d0); congruence.
  - intros i i' d d' k Hi Hi' Hd Hd' Hc Hc'. destruct (Hold i d Hi) as (d0 & A & B & C). destruct (Hold i' d' Hi') as (d1 & A' & B' & C').
    apply (H2 i i' d0 d1 k); congruence.
Qed.

Lemma locks_begin j c s :
  locks_ok s → un_calls s !! j = Some c → holding c = false → lock_free c s = true → locks_ok (begin_call j c s).
Proof.
  intros [H1 H2] Hj Hh Hf. unfold lock_free in Hf. split; cbn.
  - intros i d k. destruct (decide (j = i)) as [<-|Hne].
    + rewrite lookup_insert_eq. intros [= <-] _. cbn. intros ->. set_solver.
    + rewrite lookup_insert_ne by done. intros Hi Hd Hc. pose proof (H1 i d k Hi Hd Hc). destruct (ca_conversation c); set_solver.
  - assert (Hnew : ∀ i d k, un_calls s !! i = Some d → holding d = true → ca_conversation d = Some k → ca_conversation c ≠ Some k).
    { intros i d k Hi Hd Hc E. rewrite E in Hf. apply bool_decide_eq_true in Hf. by apply Hf, (H1 i d). }
    intros i i' d d' k. destruct (decide (j = i)) as [<-|Hne]; destruct (decide (j = i')) as [<-|Hne'];
      rewrite ?lookup_insert_eq, ?lookup_insert_ne by done; [done| | |apply H2].
    + intros [= <-] Hi' _ Hd' Hc Hc'. cbn in Hc. by destruct (Hnew i' d' k).
    + intros Hi [= <-] Hd _ Hc Hc'. cbn in Hc'. by destruct (Hnew i d k).
Qed.

Lemma locks_leave j c c0 o s :
  locks_ok s → un_calls s !! j = Some c0 → ca_conversation c = ca_conversation c0 → holding c0 = true →
  locks_ok (leave_call j o c s).
Proof.
  intros [H1 H2] Hj Hk Hh. split; cbn.
  - intros i d k. destruct (decide (j = i)) as [<-|Hne]; [rewrite lookup_insert_eq; by intros [= <-]|].
    rewrite lookup_insert_ne by done. intros Hi Hd Hc. pose proof (H1 i d k Hi Hd Hc). rewrite Hk.
    destruct (ca_conversation c0) as [k0|] eqn:E; [|done]. apply elem_of_difference. split; [done|].
    intros ->%elem_of_singleton. apply Hne. by apply (H2 j i c0 d k0).
  - intros i i' d d' k. destruct (decide (j = i)) as [<-|Hne]; [rewrite lookup_insert_eq; by intros [= <-]|].
    destruct (decide (j = i')) as [<-|Hne']; [rewrite lookup_insert_eq; by intros ? [= <-]|].
    rewrite !lookup_insert_ne by done. apply H2.
Qed.

Lemma locks_step s s' : unit_step s s' → locks_ok s → locks_ok s'.
Proof.
  intros Hs H.
  destruct Hs as [j k s Hj|j c s Hj Hc Hl|j c s Hj Hc|j c s Hj Hc|j c s Hj Hc|j c r s Hj Hc Hd|j c s Hj Hc|j c r s Hj Hc Hd
    |j c s Hj Hu Hf|j c s Hj Hu|j c s Hj Hu|j c s Hj Hu|j c s Hj Hu|j c r s Hj Hu Hr|j c r s Hj Hu].
  - destruct H as [H1 H2]. split; cbn.
    + intros i d x. destruct (decide (j = i)) as [<-|Hne]; [rewrite lookup_insert_eq; by intros [= <-]|].
      rewrite lookup_insert_ne by done. apply H1.
    + intros i i' d d' x. destruct (decide (j = i)) as [<-|Hne]; [rewrite lookup_insert_eq; by intros [= <-]|].
      destruct (decide (j = i')) as [<-|Hne']; [rewrite lookup_insert_eq; by intros ? [= <-]|].
      rewrite !lookup_insert_ne by done. apply H2.
  - apply locks_begin; try done. unfold holding. by rewrite Hc.
  - apply (locks_same j c (c <| ca_caller := c_left o_cancelled |>) s); try done. unfold holding. by rewrite Hc.
  - assert (Hh : holding c = true) by (unfold holding; by rewrite Hc).
    unfold wait_over. destruct (unit_done c); [by eapply (locks_same j c); [..|reflexivity|]; try done; rewrite Hh|].
    unfold handoff_give_up. destruct (ca_admitted c); cbn; [destruct (ca_given_up c)|].
    + by apply (locks_leave j c c).
    + by eapply (locks_same j c); [..|reflexivity|]; try done; rewrite Hh.
    + by apply (locks_leave j _ c).
  - assert (Hh : holding c = true) by (unfold holding; by rewrite Hc).
    unfold wait_cancelled, handoff_give_up. destruct (ca_admitted c); cbn; [destruct (ca_given_up c)|].
    + by apply (locks_leave j c c).
    + by eapply (locks_same j c); [..|reflexivity|]; try done; rewrite Hh.
    + by apply (locks_leave j _ c).
  - apply (locks_leave j c c); try done. unfold holding. by rewrite Hc.
  - apply (locks_same j c (c <| ca_caller := c_draining |>) s); try done. unfold holding. by rewrite Hc.
  - apply (locks_leave j c c); try done. unfold holding. by rewrite Hc.
  - unfold take_slot. destruct (ca_given_up c); by eapply (locks_same j c); [..|reflexivity|].
  - by eapply (locks_same j c); [..|reflexivity|].
  - by eapply (locks_same j c); [..|reflexivity|].
  - by eapply (locks_same j c); [..|reflexivity|].
  - unfold enter_unit, handoff_admit. destruct (ca_given_up c); cbn; [destruct (ca_admitted c)|]; by eapply (locks_same j c); [..|reflexivity|].
  - by eapply (locks_same j c); [..|reflexivity|].
  - by eapply (locks_same j c); [..|reflexivity|].
Qed.

(** ** Slots *)

Definition in_slot (c : Call) : bool := match ca_unit c with u_connecting | u_connected | u_running | u_returning _ => true | _ => false end.
Definition busy_calls (m : gmap nat Call) : gmap nat Call := filter (λ ic : nat * Call, in_slot ic.2 = true) m.

Definition slots_ok (s : Units) : Prop :=
  un_borrowed s = size (busy_calls (un_calls s)) ∧ (∀ n, un_total s = Some n → un_borrowed s ≤ n).

Lemma busy_set j c' (m : gmap nat Call) :
  size (busy_calls (<[j := c']> m)) = (if in_slot c' then 1 else 0) + size (busy_calls (delete j m)).
Proof.
  unfold busy_calls. rewrite <-insert_delete_eq, map_filter_insert. cbn. destruct (in_slot c') eqn:E.
  - rewrite decide_True by done. rewrite map_size_insert_None; [done|]. apply map_lookup_filter_None_2. left. apply lookup_delete_eq.
  - rewrite decide_False by done. by rewrite delete_delete_eq.
Qed.

Lemma busy_old j c (m : gmap nat Call) :
  m !! j = Some c → size (busy_calls m) = (if in_slot c then 1 else 0) + size (busy_calls (delete j m)).
Proof. intros H. rewrite <-(insert_id m j c H) at 1. apply busy_set. Qed.

Lemma slots_set j c c' s s' :
  slots_ok s → un_calls s !! j = Some c → un_calls s' = <[j := c']> (un_calls s) → un_total s' = un_total s →
  un_borrowed s' + (if in_slot c then 1 else 0) = un_borrowed s + (if in_slot c' then 1 else 0) →
  (∀ n, un_total s = Some n → un_borrowed s' ≤ n) → slots_ok s'.
Proof.
  intros [H1 H2] Hj Ec Et Eb Hn. split; [|by rewrite Et]. rewrite Ec, busy_set.
  rewrite (busy_old j c _ Hj) in H1. destruct (in_slot c), (in_slot c'); lia.
Qed.

Lemma slots_same j c c' s s' :
  slots_ok s → un_calls s !! j = Some c → un_calls s' = <[j := c']> (un_calls s) → un_total s' = un_total s →
  un_borrowed s' = un_borrowed s → in_slot c' = in_slot c → slots_ok s'.
Proof. intros H Hj Ec Et Eb Es. apply (slots_set j c c' s); try done; [by rewrite Eb, Es|rewrite Eb; apply H]. Qed.

Lemma slots_step s s' :
  unit_step s s' → (∀ j c, un_calls s !! j = Some c → call_ok c) → slots_ok s → slots_ok s'.
Proof.
  intros Hs Hok H.
  destruct Hs as [j k s Hj|j c s Hj Hc Hl|j c s Hj Hc|j c s Hj Hc|j c s Hj Hc|j c r s Hj Hc Hd|j c s Hj Hc|j c r s Hj Hc Hd
    |j c s Hj Hu Hf|j c s Hj Hu|j c s Hj Hu|j c s Hj Hu|j c s Hj Hu|j c r s Hj Hu Hr|j c r s Hj Hu].
  - destruct H as [H1 H2]. split; [|done]. cbn. by rewrite busy_set, delete_id.
  - eapply (slots_same j c); [done|done|reflexivity|done|done|]. pose proof (ck_caller _ (Hok j c Hj)) as Hn. unfold caller_ok in Hn.
    rewrite Hc in Hn. unfold in_slot. by rewrite Hn.
  - by eapply (slots_same j c); [..|reflexivity| | |].
  - unfold wait_over. destruct (unit_done c); [by eapply (slots_same j c); [..|reflexivity| | |]|].
    unfold handoff_give_up. destruct (ca_admitted c); cbn; [destruct (ca_given_up c)|]; by eapply (slots_same j c); [..|reflexivity| | |].
  - unfold wait_cancelled, handoff_give_up.
    destruct (ca_admitted c); cbn; [destruct (ca_given_up c)|]; by eapply (slots_same j c); [..|reflexivity| | |].
  - by eapply (slots_same j c); [..|reflexivity| | |].
  - by eapply (slots_same j c); [..|reflexivity| | |].
  - by eapply (slots_same j c); [..|reflexivity| | |].
  - assert (E : in_slot c = false) by (unfold in_slot; by rewrite Hu). unfold take_slot. destruct (ca_given_up c).
    + eapply (slots_same j c); [done|done|reflexivity|done|done|by rewrite E].
    + eapply (slots_set j c); [done|done|reflexivity|done|by rewrite E; cbn; lia|].
      intros n Hn. unfold slot_free in Hf. rewrite Hn in Hf. apply Nat.ltb_lt in Hf. cbn. lia.
  - eapply (slots_same j c); [done|done|reflexivity|done|done|]. unfold in_slot. by rewrite Hu.
  - eapply (slots_same j c); [done|done|reflexivity|done|done|]. unfold in_slot. by rewrite Hu.
  - eapply (slots_same j c); [done|done|reflexivity|done|done|]. unfold in_slot. by rewrite Hu.
  - unfold enter_unit, handoff_admit. destruct (ca_given_up c); cbn; [destruct (ca_admitted c)|];
      (eapply (slots_same j c); [done|done|reflexivity|done|done|]; unfold in_slot; by rewrite Hu).
  - eapply (slots_same j c); [done|done|reflexivity|done|done|]. unfold in_slot. by rewrite Hu.
  - assert (E : in_slot c = true) by (unfold in_slot; by rewrite Hu).
    assert (Hpos : 1 ≤ un_borrowed s) by (destruct H as [-> _]; rewrite (busy_old j c _ Hj), E; lia).
    eapply (slots_set j c); [done|done|reflexivity|done|rewrite E; cbn; lia|]. cbn. intros n Hn.
    pose proof (proj2 H n Hn). lia.
Qed.

(** ** Histories *)

Lemma units_ok total s : rtc unit_step (no_calls total) s →
  (∀ j c, un_calls s !! j = Some c → call_ok c) ∧ locks_ok s ∧ slots_ok s.
Proof.
  intros H. assert (H0 : (∀ j c, un_calls (no_calls total) !! j = Some c → call_ok c) ∧ locks_ok (no_calls total) ∧ slots_ok (no_calls total)).
  { split; [by intros j c|]. split; [by split|]. split; [done|]. cbn. lia. }
  induction H as [s|s1 s2 s3 Hs _ IH]; [done|]. apply IH. destruct H0 as (A & B & C).
  split; [by intros j c; apply (call_step_ok j s1)|]. split; [by apply (locks_step s1)|by apply (slots_step s1)].
Qed.

Lemma total_kept s s' : rtc unit_step s s' → un_total s' = un_total s.
Proof.
  induction 1 as [|s1 s2 s3 Hs _ IH]; [done|]. rewrite IH. clear IH.
  destruct Hs; try done; unfold wait_over, wait_cancelled, take_slot, enter_unit, handoff_give_up, handoff_admit;
    repeat case_match; by simplify_eq.
Qed.

(** C18: database units and their callers keep to each other.  Over every interleaving
    of any number of calls, each refused, timed out or cancelled at any time: the
    function of a call runs at most once; a caller that was told the database is busy,
    or that left on a cancel before its unit had a connection, leaves a function that
    never runs; while the function runs its caller is still waiting, so units under
    one conversation's lock never run together; a caller gets the function's own
    result exactly when it ran; and no more units run than there are slots. *)
Theorem db_units_disciplined total s i c :
  rtc unit_step (no_calls total) s → un_calls s !! i = Some c →
  ca_ran c ≤ 1 ∧
  (ca_given_up c = true → ca_ran c = 0) ∧
  (ca_caller c = c_left o_busy → ca_ran c = 0) ∧
  (ca_unit c = u_running → holding c = true) ∧
  (∀ r, ca_caller c = c_left (o_result r) → ca_unit c = u_ended r ∧ r ≠ u_abandoned ∧ ca_ran c = if of_fn r then 1 else 0) ∧
  (∀ j d k, un_calls s !! j = Some d → ca_unit c = u_running → ca_unit d = u_running →
     ca_conversation c = Some k → ca_conversation d = Some k → i = j) ∧
  (∀ n, total = Some n → size (filter (λ ic : nat * Call, in_slot ic.2 = true) (un_calls s)) ≤ n).
Proof.
  intros Hr Hi. destruct (units_ok total s Hr) as (Hok & [_ Hl] & Hs & Hn).
  assert (Hrun : ∀ j d, un_calls s !! j = Some d → ca_unit d = u_running → holding d = true).
  { intros j d Hj Hu. destruct (Hok j d Hj) as [A B C D]. unfold unit_ok, caller_ok, unit_done, holding in *. rewrite Hu in *.
    destruct (ca_caller d) as [| | | |[]]; try done; naive_solver. }
  destruct (Hok i c Hi) as [A B C D]. split; [destruct (ca_admitted c); lia|].
  split; [intros Hg; by rewrite D, C|]. split; [|split; [|split; [|split]]].
  - intros Hc. unfold caller_ok in B. rewrite Hc in B. by rewrite D, C.
  - by apply (Hrun i).
  - intros r Hc. unfold caller_ok in B. rewrite Hc in B. destruct B as [Hg Hu]. split; [done|].
    unfold unit_ok, result_ok in A. rewrite Hu in A. rewrite D. destruct r; cbn in *; [by rewrite A|by rewrite A|by rewrite A|congruence].
  - intros j d k Hj Hu Hu' Hk Hk'. apply (Hl i j c d k); eauto.
  - intros n ->. pose proof (total_kept _ _ Hr) as Ht. cbn in Ht. pose proof (Hn n Ht). unfold busy_calls in Hs. lia.
Qed.

(** Two calls on one conversation: the first runs, the second waits for the lock. *)
Definition demo_units : Units :=
  let s := set_call 1 (new_call (Some 7)) (set_call 0 (new_call (Some 7)) (no_calls (Some 1))) in
  let at_ i f s := match un_calls s !! i with Some c => f i c s | None => s end in
  at_ 0 enter_unit (at_ 0 connect (at_ 0 take_slot (at_ 0 begin_call s))).

Lemma demo_units_reachable : rtc unit_step (no_calls (Some 1)) demo_units.
Proof.
  eapply rtc_l; [apply (us_new 0 (Some 7)); reflexivity|]. eapply rtc_l; [apply (us_new 1 (Some 7)); reflexivity|].
  eapply rtc_l; [eapply (us_begin 0); reflexivity|]. eapply rtc_l; [eapply (us_take_slot 0); reflexivity|].
  eapply rtc_l; [eapply (us_connect 0); reflexivity|]. eapply rtc_l; [eapply (us_enter 0); reflexivity|]. apply rtc_refl.
Qed.

Lemma db_units_disciplined_witness :
  ∃ c, un_calls demo_units !! 0 = Some c ∧ ca_unit c = u_running ∧ ca_ran c ≤ 1.
Proof.
  eexists. split; [reflexivity|]. split; [reflexivity|].
  refine (proj1 (db_units_disciplined (Some 1) demo_units 0 _ demo_units_reachable _)). reflexivity.
Defined.
