(* ===== verification/ArtifactJournal.v ===== *)
(** * The journal of an artifact ([src/cowork/services/artifact_journal.py],
    [src/cowork/common/paths.py]).

    The journal sits in a folder that the agent's code can write.  The file system
    here has inodes, directories that name them, and links; the agent moves between
    any two system calls of the server ([agent], by the rules of [agent_move]), and
    may put links and second names of any file where the server keeps its records.
    Folders are held by descriptors, which stay with the inode.

    Only the branch with directory descriptors is modelled.  A directory names its
    entries; names with a separator and the dot names, which the kernel would
    resolve elsewhere, are refused by the server first and not resolved here. *)
From stdpp Require Import base list gmap strings option relations.
From Stdlib Require Import ZArith Lia.
From S2P Require Import Prelude JsonText Uuid Identity ArtifactRevisions.

(** ** Files *)

Inductive Node := NDir (entries : gmap string nat) | NFile (content : string) | NLink (target : string) | NOther.

Record Disk := {
  dk_nodes : gmap nat Node;
  dk_next : nat;
  dk_area : gset nat;         (* the directories the agent may change *)
  dk_own : gset nat;          (* the files it may write *)
  dk_calls : nat;             (* system calls made *)
}.

#[export] Instance fields_Disk : Fields Disk := λ s, {|
  dk_nodes := dk_nodes s; dk_next := dk_next s; dk_area := dk_area s; dk_own := dk_own s; dk_calls := dk_calls s |}.

Definition entries (s : Disk) (d : nat) : option (gmap string nat) :=
  match dk_nodes s !! d with Some (NDir es) => Some es | _ => None end.
Definition child (s : Disk) (d : nat) (name : string) : option nat := entries s d ≫= λ es, es !! name.

Definition set_node (i : nat) (n : Node) (s : Disk) : Disk := s <| dk_nodes := <[i := n]> (dk_nodes s) |>.
Definition set_child (d : nat) (name : string) (i : nat) (s : Disk) : Disk :=
  match entries s d with Some es => set_node d (NDir (<[name := i]> es)) s | None => s end.
Definition drop_child (d : nat) (name : string) (s : Disk) : Disk :=
  match entries s d with Some es => set_node d (NDir (delete name es)) s | None => s end.

(** A new inode with a name. *)
Definition new_dir (d : nat) (name : string) (s : Disk) : Disk :=
  let i := dk_next s in
  set_child d name i ((set_node i (NDir ∅) s) <| dk_next := S i |> <| dk_area := dk_area s ∪ {[i]} |>).
Definition new_file (d : nat) (name : string) (n : Node) (s : Disk) : Disk :=
  let i := dk_next s in
  set_child d name i ((set_node i n s) <| dk_next := S i |> <| dk_own := dk_own s ∪ {[i]} |>).

(** [st_nlink]: the names of an inode. *)
Definition names_of (s : Disk) (i : nat) : gset (nat * string) :=
  list_to_set (map_to_list (dk_nodes s) ≫= λ dn : nat * Node,
    match dn.2 with
    | NDir es => map (λ e : string * nat, (dn.1, e.1)) (base.filter (λ e : string * nat, e.2 = i) (map_to_list es))
    | _ => []
    end).
Definition nlink (s : Disk) (i : nat) : nat := size (names_of s i).

Definition is_dir (n : Node) : bool := match n with NDir _ => true | _ => false end.

(** What the agent can do: name files that are there, folders and new files in its
    own directories, remove and move names between them, and write its files. *)
Inductive agent_move : Disk → Disk → Prop :=
  | am_mkdir d name s : d ∈ dk_area s → child s d name = None → agent_move s (new_dir d name s)
  | am_create d name n s : d ∈ dk_area s → is_dir n = false → agent_move s (new_file d name n s)
  | am_link d name i n s : d ∈ dk_area s → dk_nodes s !! i = Some n → is_dir n = false → agent_move s (set_child d name i s)
  | am_unlink d name s : d ∈ dk_area s → agent_move s (drop_child d name s)
  | am_rename d name i e name' s :
      d ∈ dk_area s → e ∈ dk_area s → child s d name = Some i → agent_move s (set_child e name' i (drop_child d name s))
  | am_write i c s : i ∈ dk_own s → agent_move s (match dk_nodes s !! i with Some (NFile _) => set_node i (NFile c) s | _ => s end).

(** ** System calls *)

Abbreviation jf := (eff Disk).

Section Journal.
Context (agent : nat → Disk → Disk).

(** The agent moves, then the call runs. *)
Definition syscall {A} (m : jf A) : jf A := λ s,
  m ((agent (dk_calls s) s) <| dk_calls := S (dk_calls s) |>).

Definition enoent : exn := FileNotFoundError "ENOENT".

(** [is_child_name]: [os.path.basename(name) == name] says there is no slash. *)
Definition is_child_name (name : string) : bool :=
  str_forall (λ c, negb (Nat.eqb (ord c) 47 || Nat.eqb (ord c) 92 || Nat.eqb (ord c) 0)) name &&
  negb (String.eqb name "" || String.eqb name "." || String.eqb name "..").

Definition dir_lstat (d : nat) (name : string) : jf Node :=
  syscall (s ← gets id; match child s d name ≫= λ i, dk_nodes s !! i with Some n => mret n | None => raise enoent end).
(** [open_pinned_child]: [O_DIRECTORY | O_NOFOLLOW]. *)
Definition open_pinned_child (d : nat) (name : string) : jf nat :=
  syscall (s ← gets id;
    match child s d name with
    | None => raise enoent
    | Some i =>
        match dk_nodes s !! i with
        | Some (NDir _) => mret i
        | Some (NLink _) => raise (OSError "ELOOP")
        | Some _ => raise (OSError "ENOTDIR")
        | None => raise enoent
        end
    end).
Definition dir_unlink (d : nat) (name : string) : jf () :=
  raise_if (negb (is_child_name name)) (ValueError "Unlink path must be a direct-child name");;
  syscall (s ← gets id;
    match child s d name ≫= λ i, dk_nodes s !! i with
    | None => raise enoent
    | Some (NDir _) => raise (OSError "EISDIR")
    | Some _ => modify (drop_child d name)
    end).
Definition dir_mkdir (d : nat) (name : string) : jf () :=
  syscall (s ← gets id;
    match entries s d with
    | None => raise enoent
    | Some es => match es !! name with Some _ => raise (OSError "EEXIST") | None => modify (new_dir d name) end
    end).
(** [dir_open(... O_RDONLY | O_NOFOLLOW | O_NONBLOCK)]. *)
Definition dir_open (d : nat) (name : string) : jf nat :=
  syscall (s ← gets id;
    match child s d name with
    | None => raise enoent
    | Some i =>
        match dk_nodes s !! i with
        | Some (NLink _) => raise (OSError "ELOOP")
        | Some _ => mret i
        | None => raise enoent
        end
    end).
(** [dir_open(... O_WRONLY | O_CREAT | O_EXCL | O_NOFOLLOW)]. *)
Definition dir_create (d : nat) (name : string) : jf nat :=
  syscall (s ← gets id;
    match entries s d with
    | None => raise enoent
    | Some es =>
        match es !! name with
        | Some _ => raise (OSError "EEXIST")
        | None => modify (new_file d name (NFile ""));; mret (dk_next s)
        end
    end).
Definition fstat (fd : nat) : jf (Node * nat) :=
  syscall (s ← gets id; match dk_nodes s !! fd with Some n => mret (n, nlink s fd) | None => raise enoent end).
Definition write_fd (fd : nat) (content : string) : jf () :=
  syscall (modify (λ s, match dk_nodes s !! fd with Some (NFile _) => set_node fd (NFile content) s | _ => s end)).
(** [os.read(fd, n)] at an offset. *)
Definition os_read (fd : nat) (offset : nat) (n : nat) : jf string :=
  syscall (s ← gets id; match dk_nodes s !! fd with Some (NFile c) => mret (String.substring offset n c) | _ => mret "" end).
(** [dir_replace]: a folder is neither replaced nor put in place of a file. *)
Definition dir_replace (d : nat) (source destination : string) : jf () :=
  raise_if (negb (is_child_name source && is_child_name destination)) (ValueError "Replace paths must be direct-child names");;
  syscall (s ← gets id;
    match child s d source ≫= (λ i, (λ n, (i, n)) <$> dk_nodes s !! i), child s d destination ≫= λ i, dk_nodes s !! i with
    | None, _ => raise enoent
    | Some _, Some (NDir _) => raise (OSError "EISDIR")
    | Some (_, NDir _), Some _ => raise (OSError "ENOTDIR")
    | Some (i, _), _ => modify (λ s, set_child d destination i (drop_child d source s))
    end).
(** [dir_scandir]: the names, and whether each is a folder. *)
Definition dir_scandir (d : nat) : jf (list (string * bool)) :=
  syscall (s ← gets id;
    match entries s d with
    | None => raise enoent
    | Some es => mret (map (λ e : string * nat, (e.1, match dk_nodes s !! e.2 with Some n => is_dir n | None => false end)) (map_to_list es))
    end).

(** [read_bounded]: chunks of 65536 bytes, at most [size] in all. *)
Definition CHUNK : Z := 65536.
Fixpoint read_bounded (fuel : nat) (fd offset remaining : nat) : jf string :=
  match fuel, remaining with
  | S fuel, S _ =>
      chunk ← os_read fd offset (Z.to_nat (Z.min (Z.of_nat remaining) CHUNK));
      match chunk with
      | EmptyString => mret ""
      | _ =>
          rest ← read_bounded fuel fd (offset + String.length chunk) (remaining - String.length chunk);
          mret (String.append chunk rest)
      end
  | _, _ => mret ""
  end.

(** ** The journal *)

(** [_NO_FOLDER]. *)
Definition no_folder (e : exn) : bool :=
  match e with FileNotFoundError _ => true | OSError m => String.eqb m "ELOOP" || String.eqb m "ENOTDIR" | _ => false end.
Definition is_FileNotFoundError (e : exn) : bool := match e with FileNotFoundError _ => true | _ => false end.
Definition is_FileExistsError (e : exn) : bool := match e with OSError m => String.eqb m "EEXIST" | _ => false end.
Definition is_OSError (e : exn) : bool := match e with OSError _ | FileNotFoundError _ | JournalFileRefused _ => true | _ => false end.

(** [try: m  except <test>: default]. *)
Definition except {A} (m : jf A) (test : exn → bool) (default : A) : jf A :=
  catch m (λ e, if test e then Some (mret default) else None).

(** [_check_names]. *)
Definition check_names (names : list string) : jf () :=
  raise_if (negb (forallb is_child_name names)) (ValueError "Journal names must be direct-child names").

(** [_open_folder]. *)
Definition open_folder (create : bool) (parent : nat) (name : string) : jf (option nat) :=
  found ← except (n ← dir_lstat parent name; mret (Some n)) is_FileNotFoundError None;
  match found with
  | Some (NDir _) =>
      except (d ← open_pinned_child parent name; mret (Some d)) (λ e, negb create && no_folder e) None
  | _ =>
      if negb create then mret None
      else
        (match found with Some _ => except (dir_unlink parent name) is_FileNotFoundError () | None => mret () end);;
        except (dir_mkdir parent name) is_FileExistsError ();;
        d ← open_pinned_child parent name;
        mret (Some d)
  end.

(** [_open_chain]; the artifact folder is the child [folder] of the directory
    [home]. *)
Fixpoint open_parts (create : bool) (d : nat) (parts : list string) : jf (option nat) :=
  match parts with
  | [] => mret (Some d)
  | name :: parts =>
      next ← open_folder create d name;
      match next with
      | None => mret None
      | Some d => open_parts create d parts
      end
  end.
Definition opened_journal (home : nat) (folder : string) (parts : list string) (create : bool) : jf (option nat) :=
  check_names parts;;
  base ← except (d ← open_pinned_child home folder; mret (Some d)) (λ e, negb create && no_folder e) None;
  match base with
  | None => mret None
  | Some d => open_parts create d (JOURNAL_DIRNAME :: parts)
  end.

(** [_read_child]. *)
Definition read_child (journal : nat) (name : string) (max_bytes : Z) : jf (option string) :=
  fd ← catch (fd ← dir_open journal name; mret (Some fd))
    (λ e, match e with
          | FileNotFoundError _ => Some (mret None)
          | OSError m => if String.eqb m "ELOOP" then Some (raise (JournalFileRefused "link")) else None
          | _ => None
          end);
  match fd with
  | None => mret None
  | Some fd =>
      '(n, links) ← fstat fd;
      match n with
      | NFile content =>
          raise_if (negb (Nat.eqb links 1)) (JournalFileRefused "second_name");;
          raise_if (max_bytes <? Z.of_nat (String.length content))%Z (JournalFileRefused "too_large");;
          bytes ← read_bounded (S (String.length content)) fd 0 (String.length content);
          mret (Some bytes)
      | _ => raise (JournalFileRefused "not_regular")
      end
  end.

(** [read_journal_file] of [name] in the folder [folders]. *)
Definition read_journal_file (home : nat) (folder : string) (folders : list string) (name : string) (max_bytes : Z) :
    jf (option string) :=
  check_names [name];;
  journal ← opened_journal home folder folders false;
  match journal with
  | None => mret None
  | Some journal => read_child journal name max_bytes
  end.

(** [write_journal_file]; [tmp] is the unique name made of [name] and a new id. *)
Definition write_journal_file (home : nat) (folder : string) (folders : list string) (name tmp content : string) : jf () :=
  check_names [name];;
  journal ← opened_journal home folder folders true;
  match journal with
  | None => raise (AttributeError "'NoneType' object has no attribute 'fd'")
  | Some journal =>
      let cleanup := catch (dir_unlink journal tmp) (λ e, if is_OSError e then Some (mret ()) else None) in
      catch
        (fd ← dir_create journal tmp;
         write_fd fd content;;
         dir_replace journal tmp name)
        (λ e, Some (cleanup;; raise e));;
      cleanup
  end.

(** [remove_journal_file]. *)
Definition remove_journal_file (home : nat) (folder : string) (folders : list string) (name : string) : jf bool :=
  check_names [name];;
  journal ← opened_journal home folder folders false;
  match journal with
  | None => mret false
  | Some journal => except (dir_unlink journal name;; mret true) is_FileNotFoundError false
  end.

(** [prune_journal_folder]. *)
Definition prune_journal_folder (home : nat) (folder : string) (parts keep : list string) : jf () :=
  journal ← opened_journal home folder parts false;
  match journal with
  | None => mret ()
  | Some journal =>
      found ← dir_scandir journal;
      for_each (base.filter (λ e : string * bool, e.1 ∉ keep ∧ e.2 = false) found)
        (λ e, except (dir_unlink journal e.1) is_FileNotFoundError ())
  end.

End Journal.
