(* ===== verification/JournalConfined.v ===== *)
(** * The journal stays in its folder.

    Whatever the agent plants where the server keeps its records, and however it
    moves between the server's system calls, nothing outside the agent's own
    directories and files changes: no name in another directory, no byte of another
    file. *)
From stdpp Require Import base list gmap strings option relations.
From Stdlib Require Import ZArith Lia.
From S2P Require Import Prelude JsonText Uuid Identity Triples ArtifactRevisions ArtifactJournal.

(** ** Well-formed disks *)

(** A name in the area is of an inode that is there; where it is of a directory,
    that is in the area too, since a directory has no second name. *)
Definition entry_ok (s : Disk) (i : nat) : Prop := i < dk_next s ∧ ∀ es, dk_nodes s !! i = Some (NDir es) → i ∈ dk_area s.

Record disk_wf (s : Disk) : Prop := {
  dw_entries : ∀ d es n i, d ∈ dk_area s → dk_nodes s !! d = Some (NDir es) → es !! n = Some i → entry_ok s i;
  dw_fresh : ∀ i, dk_next s ≤ i → dk_nodes s !! i = None;
  dw_area : ∀ i, i ∈ dk_area s ∨ i ∈ dk_own s → i < dk_next s;
}.

(** Since [s0], with directories [A] and files [B] in the agent's hands. *)
Record confined (s0 : Disk) (A B : gset nat) (s : Disk) : Prop := {
  cf_next : dk_next s0 ≤ dk_next s;
  cf_area : ∀ i, i ∈ dk_area s → i ∈ dk_area s0 ∨ dk_next s0 ≤ i;
  cf_own : ∀ i, i ∈ dk_own s → i ∈ dk_own s0 ∨ dk_next s0 ≤ i;
  cf_outside : ∀ i, i < dk_next s0 → i ∉ dk_area s0 → i ∉ dk_own s0 → dk_nodes s !! i = dk_nodes s0 !! i;
  cf_dirs : A ⊆ dk_area s;
  cf_files : B ⊆ dk_own s;
  cf_wf : disk_wf s;
}.

Section Confined.
Context (s0 : Disk).
Implicit Types (s : Disk) (A B : gset nat).

Lemma confined_start : disk_wf s0 → confined s0 (dk_area s0) (dk_own s0) s0.
Proof. intros H. split; auto. Qed.

Lemma confined_weaken A B A' B' s : confined s0 A B s → A' ⊆ A → B' ⊆ B → confined s0 A' B' s.
Proof. intros [H1 H2 H3 H4 H5 H6 H7] HA HB. split; try done; set_solver. Qed.

(** ** Changes in the area *)

Lemma set_dir_keeps A B s d es :
  confined s0 A B s → d ∈ dk_area s → (∀ n i, es !! n = Some i → entry_ok s i) → confined s0 A B (set_node d (NDir es) s).
Proof.
  intros [H1 H2 H3 H4 H5 H6 [W1 W2 W3]] Hd Hes. split; cbn; try done.
  - intros i Hi Ha Ho. rewrite lookup_insert_ne; [by apply H4|]. intros <-. destruct (H2 d Hd); [done|lia].
  - assert (Hok : ∀ i, entry_ok s i → entry_ok (set_node d (NDir es) s) i).
    { intros i [Hn Hdir]. split; [done|]. cbn. intros es'. destruct (decide (d = i)) as [<-|Hne]; [done|].
      rewrite lookup_insert_ne by done. apply Hdir. }
    split; cbn; [|intros i Hi; rewrite lookup_insert_ne; [by apply W2|]; pose proof (W3 d (or_introl Hd)); lia|done].
    intros d' es' n i Hd'. destruct (decide (d = d')) as [<-|Hne].
    + rewrite lookup_insert_eq. intros [= <-] Hi. by apply Hok, (Hes n).
    + rewrite lookup_insert_ne by done. intros He Hi. by apply Hok, (W1 d' es' n).
Qed.

Lemma entries_ok s d es n i : disk_wf s → d ∈ dk_area s → entries s d = Some es → es !! n = Some i → entry_ok s i.
Proof.
  intros H Hd He Hi. unfold entries in He. destruct (dk_nodes s !! d) as [[]|] eqn:E; try done. injection He as ->.
  by apply (dw_entries _ H d es n).
Qed.

Lemma set_child_keeps A B s d n i : confined s0 A B s → d ∈ dk_area s → entry_ok s i → confined s0 A B (set_child d n i s).
Proof.
  intros H Hd Hi. unfold set_child. destruct (entries s d) as [es|] eqn:E; [|done]. apply set_dir_keeps; [done|done|].
  intros n' j. destruct (decide (n = n')) as [<-|Hne]; [rewrite lookup_insert_eq; by intros [= <-]|].
  rewrite lookup_insert_ne by done. apply (entries_ok s d); [apply H|done|done].
Qed.

Lemma drop_child_keeps A B s d n : confined s0 A B s → d ∈ dk_area s → confined s0 A B (drop_child d n s).
Proof.
  intros H Hd. unfold drop_child. destruct (entries s d) as [es|] eqn:E; [|done]. apply set_dir_keeps; [done|done|].
  intros n' j [_ Hj]%lookup_delete_Some. by apply (entries_ok s d es n'); [apply H|..].
Qed.

(** What a name refers to. *)
Lemma child_ok s d n i : disk_wf s → d ∈ dk_area s → child s d n = Some i → entry_ok s i.
Proof.
  intros H Hd Hc. unfold child in Hc. destruct (entries s d) as [es|] eqn:E; [|done]. by apply (entries_ok s d es n).
Qed.

Lemma entry_ok_drop s d n i : d ∈ dk_area s → entry_ok s i → entry_ok (drop_child d n s) i.
Proof.
  intros Hd [Hn Hdir]. unfold drop_child. destruct (entries s d) as [es|]; [|done]. split; [done|]. cbn. intros es'.
  destruct (decide (d = i)) as [<-|Hne]; [done|]. rewrite lookup_insert_ne by done. apply Hdir.
Qed.

Lemma drop_area s d n : dk_area (drop_child d n s) = dk_area s.
Proof. unfold drop_child. by destruct (entries s d). Qed.

Lemma rename_keeps A B s d n i e n' :
  confined s0 A B s → d ∈ dk_area s → e ∈ dk_area s → child s d n = Some i →
  confined s0 A B (set_child e n' i (drop_child d n s)).
Proof.
  intros H Hd He Hi. apply set_child_keeps; [by apply drop_child_keeps|by rewrite drop_area|].
  apply entry_ok_drop; [done|]. apply (child_ok s d n); [apply H|done|done].
Qed.

(** A new inode. *)
Definition with_new (n : Node) (s : Disk) : Disk :=
  let i := dk_next s in
  if is_dir n then (set_node i n s) <| dk_next := S i |> <| dk_area := dk_area s ∪ {[i]} |>
  else (set_node i n s) <| dk_next := S i |> <| dk_own := dk_own s ∪ {[i]} |>.

Lemma with_new_keeps A B s n :
  confined s0 A B s → (∀ es, n = NDir es → es = ∅) → confined s0 A B (with_new n s) ∧ entry_ok (with_new n s) (dk_next s) ∧
  dk_area s ⊆ dk_area (with_new n s) ∧ (is_dir n = false → dk_next s ∈ dk_own (with_new n s)).
Proof.
  intros [H1 H2 H3 H4 H5 H6 [W1 W2 W3]] Hn. set (i := dk_next s).
  assert (Hnodes : dk_nodes (with_new n s) = <[i := n]> (dk_nodes s)) by (unfold with_new; by destruct (is_dir n)).
  assert (Hnext : dk_next (with_new n s) = S i) by (unfold with_new; by destruct (is_dir n)).
  assert (Ha : dk_area (with_new n s) = if is_dir n then dk_area s ∪ {[i]} else dk_area s) by (unfold with_new; by destruct (is_dir n)).
  assert (Ho : dk_own (with_new n s) = if is_dir n then dk_own s else dk_own s ∪ {[i]}) by (unfold with_new; by destruct (is_dir n)).
  set (t := with_new n s) in *. clearbody t.
  assert (Hself : entry_ok t i).
  { split; [lia|]. intros es. rewrite Hnodes, lookup_insert_eq. intros [= ->]. rewrite Ha. cbn. set_solver. }
  assert (Hold : ∀ j, entry_ok s j → entry_ok t j).
  { intros j [Hj Hd]. split; [lia|]. intros es. rewrite Hnodes, lookup_insert_ne by lia. intros He. specialize (Hd es He).
    rewrite Ha. destruct (is_dir n); set_solver. }
  split; [|split; [done|split]].
  - split.
    + lia.
    + intros j. rewrite Ha. intros Hj. assert (j ∈ dk_area s ∨ j = i) as [Hj'| ->] by (destruct (is_dir n); set_solver); [by apply H2|].
      right. lia.
    + intros j. rewrite Ho. intros Hj. assert (j ∈ dk_own s ∨ j = i) as [Hj'| ->] by (destruct (is_dir n); set_solver); [by apply H3|].
      right. lia.
    + intros j Hj Hja Hjo. rewrite Hnodes, lookup_insert_ne by lia. by apply H4.
    + rewrite Ha. destruct (is_dir n); set_solver.
    + rewrite Ho. destruct (is_dir n); set_solver.
    + split.
      * intros d es m j Hd. rewrite Hnodes. destruct (decide (i = d)) as [<-|Hne].
        -- rewrite lookup_insert_eq. intros [= ->]. by rewrite (Hn es eq_refl).
        -- rewrite lookup_insert_ne by done. intros He Hj. apply Hold, (W1 d es m); try done. rewrite Ha in Hd.
           destruct (is_dir n); set_solver.
      * intros j. rewrite Hnext, Hnodes. intros Hj. rewrite lookup_insert_ne by lia. apply W2. lia.
      * intros j. rewrite Hnext, Ha, Ho. intros Hj. assert (j ∈ dk_area s ∨ j ∈ dk_own s ∨ j = i) as [?|[?| ->]].
        { destruct (is_dir n); set_solver. }
        -- pose proof (W3 j). naive_solver lia.
        -- pose proof (W3 j). naive_solver lia.
        -- lia.
  - rewrite Ha. destruct (is_dir n); set_solver.
  - intros Hd. rewrite Ho, Hd. set_solver.
Qed.

Lemma new_dir_keeps A B s d n : confined s0 A B s → d ∈ dk_area s → confined s0 A B (new_dir d n s).
Proof.
  intros H Hd. destruct (with_new_keeps A B s (NDir ∅) H) as (H1 & H2 & H3 & _); [by intros es [= <-]|].
  change (new_dir d n s) with (set_child d n (dk_next s) (with_new (NDir ∅) s)). apply set_child_keeps; [done|set_solver|done].
Qed.

Lemma set_child_own d n i s : dk_own (set_child d n i s) = dk_own s.
Proof. unfold set_child. by destruct (entries s d). Qed.

Lemma new_file_keeps A B s d n node :
  confined s0 A B s → d ∈ dk_area s → is_dir node = false → confined s0 A (B ∪ {[dk_next s]}) (new_file d n node s).
Proof.
  intros H Hd Hn. destruct (with_new_keeps A B s node H) as (H1 & H2 & H3 & H4); [by intros es ->|].
  assert (E : new_file d n node s = set_child d n (dk_next s) (with_new node s)) by (unfold new_file, with_new; by rewrite Hn).
  assert (Hc : confined s0 A B (new_file d n node s)) by (rewrite E; apply set_child_keeps; [done|set_solver|done]).
  destruct Hc as [C1 C2 C3 C4 C5 C6 C7]. split; try done. rewrite E, set_child_own. specialize (H4 Hn).
  pose proof (cf_files _ _ _ _ H1). set_solver.
Qed.

Lemma write_own_keeps A B s i c :
  confined s0 A B s → i ∈ dk_own s →
  confined s0 A B (match dk_nodes s !! i with Some (NFile _) => set_node i (NFile c) s | _ => s end).
Proof.
  intros H Hi. destruct (dk_nodes s !! i) as [[|c0| |]|] eqn:E; try done.
  destruct H as [H1 H2 H3 H4 H5 H6 [W1 W2 W3]]. split; cbn; try done.
  - intros j Hj Ha Ho. rewrite lookup_insert_ne; [by apply H4|]. intros <-. destruct (H3 i Hi); [done|lia].
  - assert (Hdir : ∀ d es, <[i := NFile c]> (dk_nodes s) !! d = Some (NDir es) → dk_nodes s !! d = Some (NDir es)).
    { intros d es. destruct (decide (i = d)) as [<-|Hne]; [by rewrite lookup_insert_eq|by rewrite lookup_insert_ne]. }
    split; cbn; [|intros j Hj; rewrite lookup_insert_ne; [by apply W2|]; pose proof (W3 i (or_intror Hi)); lia|done].
    intros d es n j Hd He Hj. destruct (W1 d es n j Hd (Hdir d es He) Hj) as [? Hok]. split; [done|]. cbn. eauto.
Qed.

(** ** The agent *)

Lemma agent_keeps A B s s' : agent_move s s' → confined s0 A B s → confined s0 A B s'.
Proof.
  intros Hm H. destruct Hm as [d n s Hd Hc|d n node s Hd Hn|d n i node s Hd Hi Hn|d n s Hd|d n i e n' s Hd He Hi|i c s Hi].
  - by apply new_dir_keeps.
  - eapply confined_weaken; [by apply (new_file_keeps A B s d n node)|done|set_solver].
  - apply set_child_keeps; [done|done|]. split; [|intros es E; rewrite Hi in E; by injection E as ->].
    destruct (decide (i < dk_next s)); [done|]. rewrite (dw_fresh _ (cf_wf _ _ _ _ H)) in Hi by lia. done.
  - by apply drop_child_keeps.
  - by apply rename_keeps.
  - by apply write_own_keeps.
Qed.

Lemma agent_rtc_keeps A B s s' : rtc agent_move s s' → confined s0 A B s → confined s0 A B s'.
Proof. induction 1; eauto using agent_keeps. Qed.

End Confined.

(** ** The server *)

Section Server.
Context (s0 : Disk) (agent : nat → Disk → Disk).
Hypothesis Hagent : ∀ t s, rtc agent_move s (agent t s).

Abbreviation J := (confined s0).
Abbreviation tri A B := (triple (J A B) (J A B)).

Lemma calls_keeps A B s n : J A B s → J A B (s <| dk_calls := n |>).
Proof. intros [H1 H2 H3 H4 H5 H6 [W1 W2 W3]]. split; [exact H1|exact H2|exact H3|exact H4|exact H5|exact H6|split; [exact W1|exact W2|exact W3]]. Qed.

Lemma tri_syscall {X} A B (m : jf X) Q : tri A B m Q → tri A B (syscall agent m) Q.
Proof.
  intros H s Hs. apply H, calls_keeps. by apply (agent_rtc_keeps s0 A B s).
Qed.

(** A call that changes nothing. *)
Lemma tri_look {X Y} A B (f : Disk → X) (k : X → jf Y) :
  (∀ x s, (k x s).1 = s) → tri A B (syscall agent (x ← gets f; k x)) (λ _, J A B).
Proof.
  intros Hk. apply tri_syscall. intros s Hs. unfold mbind, eff_bind. cbn [gets]. specialize (Hk (f s) s).
  destruct (k (f s) s) as [s' [e|y]]; cbn in Hk; subst; eauto.
Qed.

Lemma tri_lstat A B d n : tri A B (dir_lstat agent d n) (λ _, J A B).
Proof. apply tri_look. intros s0' s. by destruct (child s0' d n ≫= _). Qed.
Lemma tri_open A B d n : tri A B (dir_open agent d n) (λ _, J A B).
Proof. apply tri_look. intros s0' s. destruct (child s0' d n) as [i|]; [|done]. by destruct (dk_nodes s0' !! i) as [[]|]. Qed.
Lemma tri_fstat A B fd : tri A B (fstat agent fd) (λ _, J A B).
Proof. apply tri_look. intros s0' s. by destruct (dk_nodes s0' !! fd). Qed.
Lemma tri_os_read A B fd o n : tri A B (os_read agent fd o n) (λ _, J A B).
Proof. apply tri_look. intros s0' s. by destruct (dk_nodes s0' !! fd) as [[]|]. Qed.
Lemma tri_scandir A B d : tri A B (dir_scandir agent d) (λ _, J A B).
Proof. apply tri_look. intros s0' s. by destruct (entries s0' d). Qed.

Lemma tri_raise_ok {X} A B (m : jf X) b e : tri A B m (λ _, J A B) → tri A B (raise_if b e;; m) (λ _, J A B).
Proof. intros H. eapply triple_bind; [by apply (triple_raise_if _ _ _ _ (λ _, J A B)); eauto|]. by intros []. Qed.

(** A folder opened below one of the area is in the area. *)
Lemma tri_open_child A B d n : d ∈ A → tri A B (open_pinned_child agent d n) (λ i, J (A ∪ {[i]}) B).
Proof.
  intros Hd. apply tri_syscall, triple_get. intros s. destruct (child s d n) as [i|] eqn:C; [|apply triple_raise; intros w []; eauto].
  destruct (dk_nodes s !! i) as [[es| | |]|] eqn:N; try (apply triple_raise; intros w []; eauto).
  apply triple_ret. intros w [H <-]. cbn in C, N.
  assert (Hi : i ∈ dk_area w) by (apply (proj2 (child_ok w d n i (cf_wf _ _ _ _ H) (cf_dirs _ _ _ _ H d Hd) C) es N)).
  destruct H as [H1 H2 H3 H4 H5 H6 H7]. split; try done. set_solver.
Qed.

Lemma tri_change A B (f : Disk → Disk) : (∀ s, J A B s → J A B (f s)) → tri A B (modify f) (λ _, J A B).
Proof. intros H s Hs. by apply H. Qed.

Lemma tri_unlink A B d n : d ∈ A → tri A B (dir_unlink agent d n) (λ _, J A B).
Proof.
  intros Hd. apply tri_raise_ok, tri_syscall. apply triple_get. intros s.
  apply (triple_conseq _ _ (J A B) _ _ (λ _, J A B)); [|by intros w []|done].
  destruct (child s d n ≫= _) as [[]|]; try (by apply triple_raise; eauto);
    (apply tri_change; intros w H; apply drop_child_keeps; [done|by apply (cf_dirs _ _ _ _ H)]).
Qed.

Lemma tri_mkdir A B d n : d ∈ A → tri A B (dir_mkdir agent d n) (λ _, J A B).
Proof.
  intros Hd. apply tri_syscall, triple_get. intros s.
  apply (triple_conseq _ _ (J A B) _ _ (λ _, J A B)); [|by intros w []|done].
  destruct (entries s d) as [es|]; [|by apply triple_raise; eauto]. destruct (es !! n); [by apply triple_raise; eauto|].
  apply tri_change. intros w H. apply new_dir_keeps; [done|by apply (cf_dirs _ _ _ _ H)].
Qed.

Lemma tri_dir_create A B d n : d ∈ A → tri A B (dir_create agent d n) (λ fd, J A (B ∪ {[fd]})).
Proof.
  intros Hd. apply tri_syscall, triple_get. intros s. destruct (entries s d) as [es|]; [|apply triple_raise; intros w []; eauto].
  destruct (es !! n); [apply triple_raise; intros w []; eauto|]. intros w [H <-]. cbn.
  apply (new_file_keeps s0 A B w d n (NFile "")); [done|by apply (cf_dirs _ _ _ _ H)|done].
Qed.

Lemma tri_write_fd A B fd c : fd ∈ B → tri A B (write_fd agent fd c) (λ _, J A B).
Proof.
  intros Hf. apply tri_syscall, tri_change. intros s H. apply write_own_keeps; [done|by apply (cf_files _ _ _ _ H)].
Qed.

Lemma tri_replace A B d a b : d ∈ A → tri A B (dir_replace agent d a b) (λ _, J A B).
Proof.
  intros Hd. apply tri_raise_ok, tri_syscall, triple_get. intros s.
  destruct (child s d a) as [i|] eqn:C; cbn; [|by apply triple_raise; intros w []; eauto].
  destruct (dk_nodes s !! i) as [n|] eqn:N; cbn; [|by apply triple_raise; intros w []; eauto].
  assert (Hren : triple (J A B) (λ w, J A B w ∧ id w = s) (modify (λ w, set_child d b i (drop_child d a w))) (λ _, J A B)).
  { intros w [H <-]. cbn in *. pose proof (cf_dirs _ _ _ _ H d Hd). by apply rename_keeps. }
  destruct n; destruct (child s d b ≫= _) as [[]|]; try exact Hren; (apply triple_raise; intros w []; eauto).
Qed.

Lemma tri_read A B fuel : ∀ fd offset remaining, tri A B (read_bounded agent fuel fd offset remaining) (λ _, J A B).
Proof.
  induction fuel as [|fuel IH]; intros fd o [|r]; try by apply triple_ret. cbn [read_bounded].
  eapply triple_bind; [apply tri_os_read|]. intros [|c chunk]; [by apply triple_ret|].
  eapply triple_bind; [apply IH|]. intros rest. by apply triple_ret.
Qed.

(** *** The journal's operations *)

Lemma tri_except {X} A B (m : jf X) test x Q :
  tri A B m Q → (∀ s, J A B s → Q x s) → tri A B (except m test x) Q.
Proof. intros Hm Hx. apply triple_catch; [done|]. intros e k. destruct (test e); [|done]. intros [= <-]. by apply triple_ret. Qed.

(** Going on with more in hand. *)
Lemma tri_more {X} A B A' B' (m : jf X) Q : A ⊆ A' → B ⊆ B' → tri A' B' m (λ _, J A' B') → (∀ x s, J A' B' s → Q x s) →
  triple (J A B) (J A' B') m Q.
Proof.
  intros HA HB H HQ. eapply triple_exn; [|eapply triple_conseq; [exact H|done|exact HQ]].
  intros w Hw. by apply (confined_weaken s0 A' B').
Qed.

Definition opened (A B : gset nat) (r : option nat) : Disk → Prop := match r with Some d => J (A ∪ {[d]}) B | None => J A B end.

Lemma opened_weak A B r s : opened A B r s → J A B s.
Proof. destruct r; [|done]. intros H. by apply (confined_weaken s0 _ B _ _ _ H); [set_solver|]. Qed.

Lemma tri_open_some A B d n : d ∈ A → tri A B (x ← open_pinned_child agent d n; mret (Some x)) (opened A B).
Proof. intros Hd. eapply triple_bind; [by apply tri_open_child|]. intros x. by apply triple_ret. Qed.

Lemma tri_open_folder A B create d n : d ∈ A → tri A B (open_folder agent create d n) (opened A B).
Proof.
  intros Hd. unfold open_folder. apply triple_bind with (R := λ _, J A B).
  { apply tri_except; [|done]. eapply triple_bind; [apply tri_lstat|]. intros node. by apply triple_ret. }
  assert (Hmake : tri A B (except (dir_mkdir agent d n) is_FileExistsError ();; (x ← open_pinned_child agent d n; mret (Some x))) (opened A B)).
  { apply triple_bind with (R := λ _, J A B); [by apply tri_except; [apply tri_mkdir|]|]. intros []. by apply tri_open_some. }
  assert (Hreplace : tri A B (except (dir_unlink agent d n) is_FileNotFoundError ();; except (dir_mkdir agent d n) is_FileExistsError ();;
    (x ← open_pinned_child agent d n; mret (Some x))) (opened A B)).
  { apply triple_bind with (R := λ _, J A B); [by apply tri_except; [apply tri_unlink|]|]. by intros []. }
  intros [[es|c|t|]|]; [by apply tri_except; [apply tri_open_some|]|..]; (destruct create; [|by apply triple_ret]); cbn [negb]; try exact Hreplace.
  eapply triple_bind; [apply (triple_ret _ _ _ (λ _, J A B)); done|]. by intros [].
Qed.

Lemma tri_open_parts create parts : ∀ A B d, d ∈ A → tri A B (open_parts agent create d parts) (opened A B).
Proof.
  induction parts as [|n parts IH]; intros A B d Hd; cbn.
  { apply triple_ret. intros w H. cbn. by apply (confined_weaken s0 A B); [done|set_solver|]. }
  eapply triple_bind; [by apply tri_open_folder|]. intros [e|]; [|by apply triple_ret].
  cbn [opened]. eapply triple_exn; [|eapply triple_conseq; [apply (IH (A ∪ {[e]}) B e); set_solver|done|]].
  - intros w Hw. apply (confined_weaken s0 _ _ _ _ _ Hw); [set_solver|done].
  - intros [x|] w Hw; cbn in *; apply (confined_weaken s0 _ _ _ _ _ Hw); set_solver.
Qed.

Lemma tri_opened A B home folder parts create : home ∈ A → tri A B (opened_journal agent home folder parts create) (opened A B).
Proof.
  intros Hh. unfold opened_journal. eapply triple_bind; [by apply (triple_raise_if _ _ _ _ (λ _, J A B))|]. intros [].
  apply triple_bind with (R := opened A B); [by apply tri_except; [apply tri_open_some|]|].
  intros [d|]; [|by apply triple_ret]. cbn [opened].
  eapply triple_exn; [|eapply triple_conseq; [apply (tri_open_parts create _ (A ∪ {[d]}) B d); set_solver|done|]].
  - intros w Hw. apply (confined_weaken s0 _ _ _ _ _ Hw); [set_solver|done].
  - intros [x|] w Hw; cbn in *; apply (confined_weaken s0 _ _ _ _ _ Hw); set_solver.
Qed.

(** With the journal's folder in hand. *)
Lemma tri_with_journal {X} A B (r : option nat) (none : jf X) (some : nat → jf X) :
  tri A B none (λ _, J A B) → (∀ d, tri (A ∪ {[d]}) B (some d) (λ _, J (A ∪ {[d]}) B)) →
  triple (J A B) (opened A B r) (match r with None => none | Some d => some d end) (λ _, J A B).
Proof.
  intros Hn Hs. destruct r as [d|]; [|done]. apply (tri_more A B (A ∪ {[d]}) B); [set_solver|done|apply Hs|].
  intros x w Hw. apply (confined_weaken s0 _ _ _ _ _ Hw); [set_solver|done].
Qed.

Lemma tri_read_child A B d n max : tri A B (read_child agent d n max) (λ _, J A B).
Proof.
  unfold read_child. apply triple_bind with (R := λ _, J A B).
  { apply triple_catch; [eapply triple_bind; [apply tri_open|]; intros fd; by apply triple_ret|].
    intros e k. destruct e; try done; [intros [= <-]; by apply triple_ret|].
    destruct (String.eqb _ _); [|done]. intros [= <-]. by apply triple_raise. }
  intros [fd|]; [|by apply triple_ret]. eapply triple_bind; [apply tri_fstat|]. intros [[es|c|t|] links]; try by apply triple_raise.
  apply tri_raise_ok, tri_raise_ok. eapply triple_bind; [apply tri_read|]. intros bytes. by apply triple_ret.
Qed.

Lemma tri_read_journal A B home folder folders n max :
  home ∈ A → tri A B (read_journal_file agent home folder folders n max) (λ _, J A B).
Proof.
  intros Hh. apply tri_raise_ok. eapply triple_bind; [by apply tri_opened|]. intros r.
  apply tri_with_journal; [by apply triple_ret|]. intros d. apply tri_read_child.
Qed.

Lemma tri_cleanup A B d n : d ∈ A →
  tri A B (catch (dir_unlink agent d n) (λ e, if is_OSError e then Some (mret ()) else None)) (λ _, J A B).
Proof. intros Hd. by apply tri_except; [apply tri_unlink|]. Qed.

Lemma tri_write_journal A B home folder folders n tmp content :
  home ∈ A → tri A B (write_journal_file agent home folder folders n tmp content) (λ _, J A B).
Proof.
  intros Hh. apply tri_raise_ok. eapply triple_bind; [by apply tri_opened|]. intros r.
  apply tri_with_journal; [by apply triple_raise|]. intros d. cbv zeta. set (A' := A ∪ {[d]}).
  assert (Hd : d ∈ A') by set_solver. apply triple_bind with (R := λ _, J A' B); [|intros []; by apply tri_cleanup].
  apply triple_catch.
  - eapply triple_bind; [by apply tri_dir_create|]. intros fd. apply (tri_more A' B A' (B ∪ {[fd]})); [done|set_solver| |].
    + eapply triple_bind; [apply tri_write_fd; set_solver|]. intros []. by apply tri_replace.
    + intros x w Hw. apply (confined_weaken s0 _ _ _ _ _ Hw); [done|set_solver].
  - intros e k [= <-]. eapply triple_bind; [by apply tri_cleanup|]. intros []. by apply triple_raise.
Qed.

Lemma tri_remove_journal A B home folder folders n :
  home ∈ A → tri A B (remove_journal_file agent home folder folders n) (λ _, J A B).
Proof.
  intros Hh. apply tri_raise_ok. eapply triple_bind; [by apply tri_opened|]. intros r.
  apply tri_with_journal; [by apply triple_ret|]. intros d. apply tri_except; [|done].
  eapply triple_bind; [apply tri_unlink; set_solver|]. intros []. by apply triple_ret.
Qed.

Lemma tri_prune_journal A B home folder parts keep :
  home ∈ A → tri A B (prune_journal_folder agent home folder parts keep) (λ _, J A B).
Proof.
  intros Hh. eapply triple_bind; [by apply tri_opened|]. intros r. apply tri_with_journal; [by apply triple_ret|]. intros d.
  eapply triple_bind; [apply tri_scandir|]. intros found. apply triple_for_each. intros e _. apply tri_except; [|done].
  apply tri_unlink. set_solver.
Qed.

End Server.

(** ** The claim *)

(** A call on the journal. *)
Inductive JournalOp :=
  | jo_read (folder : string) (folders : list string) (name : string) (max_bytes : Z)
  | jo_write (folder : string) (folders : list string) (name tmp content : string)
  | jo_remove (folder : string) (folders : list string) (name : string)
  | jo_prune (folder : string) (parts keep : list string).

Definition run_journal (agent : nat → Disk → Disk) (home : nat) (op : JournalOp) : jf () :=
  match op with
  | jo_read folder folders name max_bytes => _ ← read_journal_file agent home folder folders name max_bytes; mret ()
  | jo_write folder folders name tmp content => write_journal_file agent home folder folders name tmp content
  | jo_remove folder folders name => _ ← remove_journal_file agent home folder folders name; mret ()
  | jo_prune folder parts keep => prune_journal_folder agent home folder parts keep
  end.

(** The names a call was given. *)
Definition op_names (op : JournalOp) : list string :=
  match op with
  | jo_read _ folders name _ | jo_write _ folders name _ _ | jo_remove _ folders name => name :: folders
  | jo_prune _ parts _ => parts
  end.

(** One that is not a direct child's is refused before the first system call. *)
Lemma names_refused agent home op s :
  forallb is_child_name (op_names op) = false →
  run_journal agent home op s = (s, inl (ValueError "Journal names must be direct-child names")).
Proof.
  assert (Hopened : ∀ folder parts create, forallb is_child_name parts = false →
    opened_journal agent home folder parts create s = (s, inl (ValueError "Journal names must be direct-child names"))).
  { intros folder parts create H. unfold opened_journal, check_names, mbind, eff_bind, raise_if. by rewrite H. }
  assert (Hname : ∀ name, check_names [name] s = (s, if is_child_name name then inr ()
    else inl (ValueError "Journal names must be direct-child names"))).
  { intros name. unfold check_names, raise_if. cbn. by destruct (is_child_name name). }
  destruct op as [folder folders name max|folder folders name tmp content|folder folders name|folder parts keep];
    cbn [op_names forallb run_journal]; intros H;
    unfold read_journal_file, write_journal_file, remove_journal_file, prune_journal_folder, mbind, eff_bind;
    rewrite ?Hname; try (destruct (is_child_name name); [|done]); by rewrite Hopened.
Qed.

(** Calls one after the other, whatever each of them ends in. *)
Definition run_journals (agent : nat → Disk → Disk) (home : nat) (ops : list JournalOp) (s : Disk) : Disk :=
  foldl (λ s op, (run_journal agent home op s).1) s ops.

Lemma run_journal_keeps s0 agent A B home op s :
  (∀ t s, rtc agent_move s (agent t s)) → home ∈ A → confined s0 A B s → confined s0 A B (run_journal agent home op s).1.
Proof.
  intros Hag Hh Hs. assert (H : triple (confined s0 A B) (confined s0 A B) (run_journal agent home op) (λ _, confined s0 A B)).
  { destruct op; [|by apply tri_write_journal| |by apply tri_prune_journal].
    - eapply triple_bind; [by apply tri_read_journal|]. intros ?. by apply triple_ret.
    - eapply triple_bind; [by apply tri_remove_journal|]. intros ?. by apply triple_ret. }
  specialize (H s Hs). by destruct (run_journal agent home op s) as [s' [e|u]].
Qed.

Lemma run_journals_keeps s0 agent A B home ops :
  (∀ t s, rtc agent_move s (agent t s)) → home ∈ A → ∀ s, confined s0 A B s → confined s0 A B (run_journals agent home ops s).
Proof.
  intros Hag Hh. induction ops as [|op ops IH]; intros s Hs; [done|]. cbn. apply IH. by apply run_journal_keeps.
Qed.

(** C23: the journal's reads, writes and removals stay inside the agent's folder.  Over
    any sequence of calls, with the agent moving as it likes before each system call
    (planting links, second names of files it can read, folders and files where the
    server keeps its records, and swapping any of them in between), every directory
    and every file that was not the agent's keeps its names and its bytes.  A call with
    a name that is not a direct child's (one that holds a separator, or a dot name,
    which would lead elsewhere) is refused before it makes any system call. *)
Theorem journal_confined agent home ops s :
  (∀ t s, rtc agent_move s (agent t s)) → disk_wf s → home ∈ dk_area s →
  let s' := run_journals agent home ops s in
  disk_wf s' ∧ (∀ i, i < dk_next s → i ∉ dk_area s → i ∉ dk_own s → dk_nodes s' !! i = dk_nodes s !! i) ∧
  ∀ op, forallb is_child_name (op_names op) = false →
    run_journal agent home op s' = (s', inl (ValueError "Journal names must be direct-child names")).
Proof.
  intros Hag Hwf Hh s'. assert (H : confined s (dk_area s) (dk_own s) s').
  { apply run_journals_keeps; [done|done|]. by apply confined_start. }
  split; [apply H|]. split; [apply H|]. intros op. apply names_refused.
Qed.

(** ** A disk and an agent that plants *)

(** The artifact folder [art] is in the agent's directory; a link stands at the
    journal; another directory holds a file that is not the agent's. *)
Definition planted : Disk := {|
  dk_nodes := <[0 := NDir {["art" := 1]}]> (<[1 := NDir {[JOURNAL_DIRNAME := 4]}]>
    (<[2 := NDir {["secret" := 3]}]> (<[3 := NFile "SECRET"]> {[4 := NLink "/elsewhere"]})));
  dk_next := 5; dk_area := {[0; 1]}; dk_own := {[4]}; dk_calls := 0;
|}.

Lemma planted_wf : disk_wf planted.
Proof.
  split.
  - intros d es n i Hd He Hi. assert (d = 0 ∨ d = 1) as [-> | ->] by (cbn in Hd; set_solver).
    + injection He as <-. apply lookup_singleton_Some in Hi as [<- <-]. split; [cbn; lia|]. cbn. set_solver.
    + injection He as <-. apply lookup_singleton_Some in Hi as [<- <-]. split; [cbn; lia|]. intros es. vm_compute. discriminate.
  - intros i Hi. cbn in Hi. cbn [dk_nodes planted]. rewrite !lookup_insert_ne by lia. rewrite lookup_singleton_ne by lia. done.
  - intros i Hi. assert (i = 0 ∨ i = 1 ∨ i = 4) as [-> | [-> | ->]] by (cbn in Hi; set_solver); cbn; lia.
Qed.

(** At the given system calls the agent names the file [i] as [name] in [d]. *)
Definition linker (at_calls : list nat) (d : nat) (name : string) (i : nat) (t : nat) (s : Disk) : Disk :=
  if bool_decide (t ∈ at_calls ∧ d ∈ dk_area s) && match dk_nodes s !! i with Some n => negb (is_dir n) | None => false end
  then set_child d name i s else s.

Lemma linker_moves at_calls d name i t s : rtc agent_move s (linker at_calls d name i t s).
Proof.
  unfold linker. destruct (bool_decide _) eqn:E; [|apply rtc_refl]. apply bool_decide_eq_true in E as [_ Hd].
  destruct (dk_nodes s !! i) as [n|] eqn:Ei; [|apply rtc_refl]. destruct (is_dir n) eqn:En; cbn; [apply rtc_refl|].
  apply rtc_once. by apply (am_link d name i n s).
Qed.

(** The journal's link is replaced by a folder, which gets number 5; there the agent
    names the secret file as the record before several of the server's calls. *)
Lemma journal_confined_witness :
  let ops := [jo_write "art" [] "state.json" "tmp1" "one"; jo_read "art" [] "state.json" 100; jo_write "art" [] "state.json" "tmp2" "two";
              jo_remove "art" [] "state.json"; jo_prune "art" [] []] in
  let s' := run_journals (linker [5; 9; 14; 19] 5 "state.json" 3) 0 ops planted in
  disk_wf s' ∧ dk_nodes s' !! 3 = Some (NFile "SECRET") ∧
  run_journal (linker [5; 9; 14; 19] 5 "state.json" 3) 0 (jo_write "art" [".."] "state.json" "tmp3" "three") s' =
    (s', inl (ValueError "Journal names must be direct-child names")).
Proof.
  intros ops s'. destruct (journal_confined (linker [5; 9; 14; 19] 5 "state.json" 3) 0 ops planted) as (H1 & H2 & H3).
  - intros t s. apply linker_moves.
  - exact planted_wf.
  - cbn. set_solver.
  - split; [exact H1|]. split; [|by apply H3]. unfold s'. rewrite (H2 3); [reflexivity|by apply Nat.ltb_lt| |].
    all: refine (bool_decide_unpack _ _); vm_compute; exact I.
Defined.
