(* ===== verification/JournalReadBack.v ===== *)
(** * What is written to the journal is read back.

    Where nothing moves in between, a write replaces whatever stands at its name,
    a link, a second name of another file or a record, makes the folders on the way
    in place of anything that is none, and is read back as it was written.  And what
    a second name can do when the agent does move: a read that is refused while the
    name is there passes when the name is taken away after the file was opened. *)
From stdpp Require Import base list gmap strings option relations.
From Stdlib Require Import ZArith Lia.
From S2P Require Import Prelude JsonText Uuid Identity Triples ArtifactRevisions ArtifactJournal JournalConfined.

(** The agent that does nothing. *)
Definition quiet : nat → Disk → Disk := λ _ s, s.

Section ReadBack.
Context (name tmp content : string).
Hypothesis Hname : is_child_name name = true.
Hypothesis Htmp : is_child_name tmp = true.
Hypothesis Hdiff : tmp ≠ name.

(** ** Names and folders *)

Definition linked (s : Disk) (a : nat) (m : string) (b : nat) : Prop := child s a m = Some b ∧ ∃ es, dk_nodes s !! b = Some (NDir es).

Record plain_disk (s : Disk) : Prop := {
  pd_refs : ∀ d m i, child s d m = Some i → is_Some (dk_nodes s !! i);
  pd_fresh : ∀ i, dk_next s ≤ i → dk_nodes s !! i = None;
  pd_tmp : ∀ d, child s d tmp = None;
  pd_name : ∀ d i, child s d name = Some i → ∀ es, dk_nodes s !! i ≠ Some (NDir es);
}.

Definition holds_links (L : list (nat * string * nat)) (s : Disk) : Prop := ∀ a m b, (a, m, b) ∈ L → linked s a m b.
Definition ready (L : list (nat * string * nat)) (s : Disk) : Prop := plain_disk s ∧ holds_links L s.

Fixpoint chain (s : Disk) (d : nat) (parts : list string) (j : nat) : Prop :=
  match parts with
  | [] => d = j
  | m :: parts => ∃ e, linked s d m e ∧ chain s e parts j
  end.

(** One system call later. *)
Definition bump (s : Disk) : Disk := s <| dk_calls := S (dk_calls s) |>.

Lemma ready_bump L s : ready L s → ready L (bump s).
Proof. intros [[H1 H2 H3 H4] H5]. split; [split; [exact H1|exact H2|exact H3|exact H4]|exact H5]. Qed.

Lemma dir_entries s d es : dk_nodes s !! d = Some (NDir es) → entries s d = Some es.
Proof. unfold entries. by intros ->. Qed.

(** What a changed entry leaves as it was. *)
Lemma child_set s d m i a m' :
  is_Some (entries s d) → child (set_child d m i s) a m' = if decide (a = d ∧ m' = m) then Some i else child s a m'.
Proof.
  intros [es He]. unfold child at 1, set_child. rewrite He. unfold entries at 1. cbn. destruct (decide (a = d)) as [->|Ha].
  - rewrite lookup_insert_eq. cbn. destruct (decide (m' = m)) as [->|Hm].
    + rewrite decide_True by done. apply lookup_insert_eq.
    + rewrite decide_False by naive_solver. rewrite lookup_insert_ne by done. unfold child. by rewrite He.
  - rewrite lookup_insert_ne by done. rewrite decide_False by naive_solver. done.
Qed.

Lemma child_drop s d m a m' : child (drop_child d m s) a m' = if decide (a = d ∧ m' = m) then None else child s a m'.
Proof.
  unfold drop_child. destruct (entries s d) as [es|] eqn:He.
  - unfold child at 1. unfold entries at 1. cbn. destruct (decide (a = d)) as [->|Ha].
    + rewrite lookup_insert_eq. cbn. destruct (decide (m' = m)) as [->|Hm].
      * rewrite decide_True by done. apply lookup_delete_eq.
      * rewrite decide_False by naive_solver. rewrite lookup_delete_ne by done. unfold child. by rewrite He.
    + rewrite lookup_insert_ne by done. rewrite decide_False by naive_solver. done.
  - destruct (decide _) as [[-> ->]|]; [|done]. unfold child. by rewrite He.
Qed.

(** A directory stays one. *)
Definition still_dirs (s s' : Disk) : Prop := ∀ b es, dk_nodes s !! b = Some (NDir es) → ∃ es', dk_nodes s' !! b = Some (NDir es').

Lemma still_set d m i s : still_dirs s (set_child d m i s).
Proof.
  intros b es Hb. unfold set_child. destruct (entries s d) as [es0|]; [|eauto]. cbn.
  destruct (decide (d = b)) as [<-|]; [rewrite lookup_insert_eq; eauto|rewrite lookup_insert_ne by done; eauto].
Qed.
Lemma still_drop d m s : still_dirs s (drop_child d m s).
Proof.
  intros b es Hb. unfold drop_child. destruct (entries s d) as [es0|]; [|eauto]. cbn.
  destruct (decide (d = b)) as [<-|]; [rewrite lookup_insert_eq; eauto|rewrite lookup_insert_ne by done; eauto].
Qed.

Lemma linked_keep s s' a m b : linked s a m b → child s' a m = child s a m → still_dirs s s' → linked s' a m b.
Proof. intros [H1 [es H2]] Hc Hd. split; [by rewrite Hc|]. by apply (Hd b es). Qed.

Lemma dir_below s d es : plain_disk s → dk_nodes s !! d = Some (NDir es) → d < dk_next s.
Proof. intros H Hd. destruct (decide (d < dk_next s)); [done|]. rewrite (pd_fresh _ H) in Hd by lia. done. Qed.

(** Nodes other than the directory itself. *)
Lemma set_nodes d m i s es b : dk_nodes s !! d = Some (NDir es) →
  dk_nodes (set_child d m i s) !! b = if decide (b = d) then Some (NDir (<[m := i]> es)) else dk_nodes s !! b.
Proof.
  intros Hd. unfold set_child. rewrite (dir_entries s d es Hd). cbn. destruct (decide (b = d)) as [->|]; [apply lookup_insert_eq|].
  by apply lookup_insert_ne.
Qed.
Lemma drop_nodes d m s es b : dk_nodes s !! d = Some (NDir es) →
  dk_nodes (drop_child d m s) !! b = if decide (b = d) then Some (NDir (delete m es)) else dk_nodes s !! b.
Proof.
  intros Hd. unfold drop_child. rewrite (dir_entries s d es Hd). cbn. destruct (decide (b = d)) as [->|]; [apply lookup_insert_eq|].
  by apply lookup_insert_ne.
Qed.
Lemma set_next d m i s : dk_next (set_child d m i s) = dk_next s.
Proof. unfold set_child. by destruct (entries s d). Qed.
Lemma drop_next d m s : dk_next (drop_child d m s) = dk_next s.
Proof. unfold drop_child. by destruct (entries s d). Qed.

Lemma plain_drop s d m es : plain_disk s → dk_nodes s !! d = Some (NDir es) → plain_disk (drop_child d m s).
Proof.
  intros H Hd. pose proof (dir_below s d es H Hd) as Hlt. destruct H as [H1 H2 H3 H4]. split.
  - intros a m' i. rewrite child_drop. destruct (decide _); [done|]. intros Hc. rewrite (drop_nodes d m s es) by done.
    destruct (decide (i = d)); eauto.
  - intros i. rewrite drop_next, (drop_nodes d m s es) by done. intros Hi. destruct (decide (i = d)); [lia|auto].
  - intros a. rewrite child_drop. by destruct (decide _).
  - intros a i. rewrite child_drop. destruct (decide _); [done|]. intros Hc es'. rewrite (drop_nodes d m s es) by done.
    destruct (decide (i = d)) as [->|]; [|by apply (H4 a)]. by destruct (H4 a d Hc es).
Qed.

Lemma plain_set s d m i es :
  plain_disk s → dk_nodes s !! d = Some (NDir es) → is_Some (dk_nodes s !! i) → m ≠ tmp →
  (m = name → ∀ es', dk_nodes s !! i ≠ Some (NDir es')) → plain_disk (set_child d m i s).
Proof.
  intros H Hd Hi Hm Hn. pose proof (dir_below s d es H Hd) as Hlt. destruct H as [H1 H2 H3 H4].
  assert (Hs : is_Some (entries s d)) by (rewrite (dir_entries s d es Hd); eauto). split.
  - intros a m' k. rewrite child_set by done. rewrite (set_nodes d m i s es) by done. intros Hc. destruct (decide (k = d)); [eauto|].
    destruct (decide (a = d ∧ m' = m)); [by injection Hc as <-|eauto].
  - intros k. rewrite set_next, (set_nodes d m i s es) by done. intros Hk. destruct (decide (k = d)); [lia|auto].
  - intros a. rewrite child_set by done. rewrite decide_False by naive_solver. done.
  - intros a k. rewrite child_set by done. rewrite (set_nodes d m i s es) by done. intros Hc es'.
    destruct (decide (a = d ∧ name = m)) as [[-> <-]|].
    + injection Hc as <-. destruct (decide (i = d)) as [->|]; [by destruct (Hn eq_refl es)|by apply Hn].
    + destruct (decide (k = d)) as [->|]; [by destruct (H4 a d Hc es)|by apply (H4 a)].
Qed.

(** A new inode. *)
Definition added (n : Node) (s s' : Disk) : Prop :=
  dk_nodes s' = <[dk_next s := n]> (dk_nodes s) ∧ dk_next s' = S (dk_next s).

Lemma child_added n s s' a m :
  plain_disk s → added n s s' → (∀ es, n = NDir es → es = ∅) → child s' a m = child s a m.
Proof.
  intros H [Hn _] He. unfold child, entries. rewrite Hn. destruct (decide (dk_next s = a)) as [<-|Hne].
  - rewrite lookup_insert_eq, (pd_fresh _ H) by lia. destruct n as [es| | |]; try done. cbn. by rewrite (He es eq_refl), lookup_empty.
  - by rewrite lookup_insert_ne.
Qed.

Lemma plain_added n s s' : plain_disk s → added n s s' → (∀ es, n = NDir es → es = ∅) → plain_disk s'.
Proof.
  intros H Ha He. pose proof (λ a m, child_added n s s' a m H Ha He) as Hc. destruct Ha as [Hn Hx].
  assert (Hlt : ∀ d m i, child s d m = Some i → dk_next s ≠ i).
  { intros d m i Hi <-. apply (pd_refs _ H) in Hi. rewrite (pd_fresh _ H) in Hi by lia. by destruct Hi. }
  destruct H as [H1 H2 H3 H4]. split.
  - intros d m i. rewrite Hc, Hn. intros Hi. rewrite lookup_insert_ne by by apply (Hlt d m). eauto.
  - intros i. rewrite Hx, Hn. intros Hi. rewrite lookup_insert_ne by lia. apply H2. lia.
  - intros d. by rewrite Hc.
  - intros d i. rewrite Hc, Hn. intros Hi. rewrite lookup_insert_ne by by apply (Hlt d name). by apply (H4 d).
Qed.

(** ** Opening folders *)

Lemma links_keep L s s' :
  holds_links L s → (∀ a m b, (a, m, b) ∈ L → child s' a m = child s a m) → still_dirs s s' → holds_links L s'.
Proof. intros H Hc Hd a m b Hin. apply (linked_keep s s'); [by apply H|by apply (Hc a m b)|done]. Qed.

Lemma new_dir_ready L s d n es :
  ready L s → dk_nodes s !! d = Some (NDir es) → child s d n = None → n ≠ name → n ≠ tmp →
  ready ((d, n, dk_next s) :: L) (new_dir d n s).
Proof.
  intros [H HL] Hd Hc Hn Ht. set (i := dk_next s). pose proof (dir_below s d es H Hd) as Hlt.
  set (t := (set_node i (NDir ∅) s) <| dk_next := S i |> <| dk_area := dk_area s ∪ {[i]} |>).
  change (new_dir d n s) with (set_child d n i t). assert (Ha : added (NDir ∅) s t) by done.
  assert (Hte : ∀ es', NDir ∅ = NDir es' → es' = ∅) by by intros es' [= <-].
  pose proof (plain_added _ _ _ H Ha Hte) as Hp.
  assert (Htd : dk_nodes t !! d = Some (NDir es)) by (cbn; rewrite lookup_insert_ne by (subst i; lia); done).
  assert (Hti : dk_nodes t !! i = Some (NDir ∅)) by apply lookup_insert_eq.
  assert (Hs : is_Some (entries t d)) by (rewrite (dir_entries t d es Htd); eauto).
  split; [by eapply (plain_set t d n i es); [..|by rewrite Hti|done|]|].
  intros a m b [[= -> -> ->]|Hin]%elem_of_cons.
  - split; [rewrite child_set by done; by rewrite decide_True|]. apply (still_set d n i t i ∅ Hti).
  - apply (linked_keep s); [by apply HL| |].
    + rewrite child_set, (child_added _ s t a m H Ha Hte) by done. destruct (decide (a = d ∧ m = n)) as [[-> ->]|]; [|done].
      destruct (HL d n b Hin) as [Hx _]. congruence.
    + intros b' es' Hb'. apply (still_set d n i t b' es'). cbn. rewrite lookup_insert_ne; [done|].
      pose proof (dir_below s b' es' H Hb'). subst i. lia.
Qed.

Lemma open_child_run s d n e : linked s d n e → open_pinned_child quiet d n s = (bump s, inr e).
Proof.
  intros [Hc [es He]]. unfold open_pinned_child, syscall, mbind, eff_bind, quiet. cbn [gets]. change (child _ d n) with (child s d n).
  rewrite Hc. change (dk_nodes _ !! e) with (dk_nodes s !! e). by rewrite He.
Qed.

Lemma linked_bump s a m b : linked s a m b → linked (bump s) a m b.
Proof. done. Qed.

Lemma make_folder L s d n es :
  ready L s → dk_nodes s !! d = Some (NDir es) → child s d n = None → n ≠ name → n ≠ tmp →
  ∃ s', (except (dir_mkdir quiet d n) is_FileExistsError ();; (x ← open_pinned_child quiet d n; mret (Some x))) s = (s', inr (Some (dk_next s))) ∧
    ready ((d, n, dk_next s) :: L) s'.
Proof.
  intros HL Hd Hc Hn Ht. pose proof (new_dir_ready L (bump s) d n es (ready_bump _ _ HL) Hd Hc Hn Ht) as Hr.
  eexists. split; [|by apply ready_bump, Hr].
  rewrite (run_bind _ _ s (new_dir d n (bump s)) ()).
  - rewrite (run_bind _ _ _ (bump (new_dir d n (bump s))) (dk_next s)); [done|].
    apply open_child_run. apply (proj2 Hr). by left.
  - unfold except, catch, dir_mkdir, syscall, mbind, eff_bind, quiet. cbn [gets].
    change (entries _ d) with (entries s d). unfold child in Hc. rewrite (dir_entries s d es Hd) in *. cbn in Hc. by rewrite Hc.
Qed.

Lemma open_folder_ready L s d n es :
  ready L s → dk_nodes s !! d = Some (NDir es) → is_child_name n = true → n ≠ name → n ≠ tmp →
  ∃ s' e, open_folder quiet true d n s = (s', inr (Some e)) ∧ ready ((d, n, e) :: L) s'.
Proof.
  intros HL Hd Hv Hn Ht. unfold open_folder. destruct (child s d n) as [i|] eqn:C.
  - destruct (pd_refs _ (proj1 HL) d n i C) as [node Hi].
    assert (Hstat : except (x ← dir_lstat quiet d n; mret (Some x)) is_FileNotFoundError None s = (bump s, inr (Some node))).
    { unfold except, catch, dir_lstat, syscall, mbind, eff_bind, quiet. cbn [gets]. change (child _ d n) with (child s d n).
      rewrite C. cbn. by rewrite Hi. }
    rewrite (run_bind _ _ _ _ _ Hstat). destruct (is_dir node) eqn:Dn.
    + destruct node as [es'| | |]; try done. exists (bump (bump s)), i. assert (Hl : linked (bump s) d n i) by (split; eauto).
      split; [unfold except, catch, mbind, eff_bind; by rewrite (open_child_run _ _ _ _ Hl)|].
      destruct (ready_bump _ _ (ready_bump _ _ HL)) as [P1 P2]. split; [done|].
      intros a m b [[= -> -> ->]|Hin]%elem_of_cons; [split; eauto|by apply P2].
    + assert (Hun : except (dir_unlink quiet d n) is_FileNotFoundError () (bump s) = (drop_child d n (bump (bump s)), inr ())).
      { unfold except, catch, dir_unlink. rewrite Hv. unfold raise_if, syscall, mbind, eff_bind, quiet. cbn [negb gets mret eff_ret].
        change (child _ d n) with (child s d n). rewrite C. cbn. rewrite Hi. by destruct node. }
      set (t := drop_child d n (bump (bump s))) in *.
      assert (Hrt : ready L t).
      { split; [by apply (plain_drop _ d n es); [apply (ready_bump L _ (ready_bump L s HL))|]|]. apply (links_keep L s); [apply HL| |exact (still_drop d n (bump (bump s)))].
        intros a m b Hin. unfold t. rewrite child_drop. destruct (decide _) as [[-> ->]|]; [|done].
        destruct (proj2 HL d n b Hin) as [Hx [es' He]]. rewrite C in Hx. injection Hx as <-. rewrite Hi in He. injection He as ->. done. }
      assert (Htd : ∃ es', dk_nodes t !! d = Some (NDir es')) by by apply (still_drop d n (bump (bump s)) d es).
      destruct Htd as [es' Htd]. assert (Hct : child t d n = None) by (unfold t; rewrite child_drop; by rewrite decide_True).
      destruct (make_folder L t d n es' Hrt Htd Hct Hn Ht) as (s' & Hm & Hr'). exists s', (dk_next t). split; [|done].
      destruct node; try done; cbn [negb]; by rewrite (run_bind _ _ _ _ _ Hun).
  - assert (Hstat : except (x ← dir_lstat quiet d n; mret (Some x)) is_FileNotFoundError None s = (bump s, inr None)).
    { unfold except, catch, dir_lstat, syscall, mbind, eff_bind, quiet. cbn [gets]. change (child _ d n) with (child s d n).
      by rewrite C. }
    rewrite (run_bind _ _ _ _ _ Hstat). cbn [negb].
    destruct (make_folder L (bump s) d n es (ready_bump _ _ HL) Hd C Hn Ht) as (s' & Hm & Hr'). exists s', (dk_next (bump s)). done.
Qed.

Lemma open_parts_ready parts : ∀ L s d es,
  ready L s → dk_nodes s !! d = Some (NDir es) → Forall (λ n, is_child_name n = true ∧ n ≠ name ∧ n ≠ tmp) parts →
  ∃ s' j, open_parts quiet true d parts s = (s', inr (Some j)) ∧ ready L s' ∧ chain s' d parts j ∧ ∃ es', dk_nodes s' !! j = Some (NDir es').
Proof.
  induction parts as [|n parts IH]; intros L s d es HL Hd Hp; cbn.
  { exists s, d. eauto 8. }
  inversion Hp as [|? ? (Hv & Hn & Ht) Hp']; subst.
  destruct (open_folder_ready L s d n es HL Hd Hv Hn Ht) as (s1 & e & Ho & H1).
  assert (Hl : linked s1 d n e) by (apply (proj2 H1); by left). destruct Hl as [_ [es1 He]].
  destruct (IH ((d, n, e) :: L) s1 e es1 H1 He Hp') as (s2 & j & Ho2 & H2 & Hch & Hj).
  exists s2, j. rewrite (run_bind _ _ _ _ _ Ho). split; [done|]. split; [|split; [|done]].
  - destruct H2 as [P1 P2]. split; [done|]. intros a m b Hin. apply P2. by right.
  - exists e. split; [|done]. apply (proj2 H2). by left.
Qed.

(** ** The file *)

Lemma elem_of_names s i a m : (a, m) ∈ names_of s i ↔ child s a m = Some i.
Proof.
  unfold names_of, child, entries. rewrite elem_of_list_to_set, list_elem_of_bind. split.
  - intros ([d n] & Hin & Hd). apply elem_of_map_to_list in Hd. cbn in *. destruct n as [es| | |]; try by apply elem_of_nil in Hin.
    apply list_elem_of_fmap in Hin as ([m' k] & [= -> ->] & [Hk Hin]%list_elem_of_filter). apply elem_of_map_to_list in Hin.
    cbn in *. subst. by rewrite Hd.
  - destruct (dk_nodes s !! a) as [[es| | |]|] eqn:E; try done. cbn. intros Hm. exists (a, NDir es). cbn. split.
    + apply list_elem_of_fmap. exists (m, i). split; [done|]. apply list_elem_of_filter. split; [done|]. by apply elem_of_map_to_list.
    + by apply elem_of_map_to_list.
Qed.

(** The disk after the write: the new file under its name, and nothing else. *)
Record stored_as (s1 s5 : Disk) (j i : nat) : Prop := {
  sa_child : ∀ a m, child s5 a m = if decide (a = j ∧ m = name) then Some i else if decide (a = j ∧ m = tmp) then None else child s1 a m;
  sa_file : dk_nodes s5 !! i = Some (NFile content);
  sa_dirs : still_dirs s1 s5;
}.

Definition written (j : nat) (s1 : Disk) : Disk :=
  let i := dk_next s1 in
  set_child j name i (drop_child j tmp (bump (set_node i (NFile content) (bump (new_file j tmp (NFile "") (bump s1)))))).

Lemma written_stored L s1 j es : ready L s1 → dk_nodes s1 !! j = Some (NDir es) → stored_as s1 (written j s1) j (dk_next s1).
Proof.
  intros [H _] Hj. set (i := dk_next s1). pose proof (dir_below s1 j es H Hj) as Hlt.
  set (t := (set_node i (NFile "") (bump s1)) <| dk_next := S i |> <| dk_own := dk_own s1 ∪ {[i]} |>).
  assert (Ha : added (NFile "") s1 t) by done. assert (Hte : ∀ es', NFile "" = NDir es' → es' = ∅) by done.
  assert (Htj : dk_nodes t !! j = Some (NDir es)) by (cbn; rewrite lookup_insert_ne by (subst i; lia); done).
  set (u := set_child j tmp i t). assert (Huj : dk_nodes u !! j = Some (NDir (<[tmp := i]> es))).
  { unfold u. rewrite (set_nodes j tmp i t es) by done. by rewrite decide_True. }
  set (v := bump (set_node i (NFile content) (bump u))).
  assert (Hvc : ∀ a m, child v a m = child u a m).
  { intros a m. unfold child, entries. cbn. destruct (decide (i = a)) as [<-|]; [|by rewrite lookup_insert_ne].
    rewrite lookup_insert_eq. unfold u. rewrite (set_nodes j tmp i t es) by done. rewrite decide_False by (subst i; lia).
    cbn. by rewrite lookup_insert_eq. }
  assert (Hvj : dk_nodes v !! j = Some (NDir (<[tmp := i]> es))) by (cbn; rewrite lookup_insert_ne by (subst i; lia); done).
  set (w := drop_child j tmp v). assert (Hwj : dk_nodes w !! j = Some (NDir (delete tmp (<[tmp := i]> es)))).
  { unfold w. rewrite (drop_nodes j tmp v (<[tmp := i]> es)) by done. by rewrite decide_True. }
  change (written j s1) with (set_child j name i w). split.
  - intros a m. rewrite child_set by (rewrite (dir_entries w j _ Hwj); eauto). destruct (decide (a = j ∧ m = name)); [done|].
    unfold w. rewrite child_drop. destruct (decide (a = j ∧ m = tmp)); [done|]. rewrite Hvc. unfold u.
    rewrite child_set by (rewrite (dir_entries t j _ Htj); eauto). rewrite decide_False by done. by apply (child_added (NFile "")).
  - rewrite (set_nodes j name i w _ i Hwj), decide_False by (subst i; lia). unfold w.
    rewrite (drop_nodes j tmp v _ i Hvj), decide_False by (subst i; lia). apply lookup_insert_eq.
  - intros b es' Hb. pose proof (dir_below s1 b es' H Hb) as Hbl. rewrite (set_nodes j name i w _ b Hwj).
    destruct (decide (b = j)); [eauto|]. unfold w. rewrite (drop_nodes j tmp v _ b Hvj), decide_False by done. cbn.
    rewrite lookup_insert_ne by (subst i; lia). unfold u. rewrite (set_nodes j tmp i t es) by done. rewrite decide_False by done. cbn.
    rewrite lookup_insert_ne by (subst i; lia). eauto.
Qed.

Lemma stored_linked L s1 s5 j i a m b : ready L s1 → stored_as s1 s5 j i → linked s1 a m b → linked s5 a m b.
Proof.
  intros [H _] [S1 S2 S3] [Hc [es Hb]]. split; [|by apply (S3 b es)]. rewrite S1.
  destruct (decide (a = j ∧ m = name)) as [[-> ->]|]; [by destruct (pd_name _ H j b Hc es)|].
  destruct (decide (a = j ∧ m = tmp)) as [[-> ->]|]; [by rewrite (pd_tmp _ H) in Hc|done].
Qed.

Lemma stored_chain L s1 s5 j i parts : ready L s1 → stored_as s1 s5 j i → ∀ d k, chain s1 d parts k → chain s5 d parts k.
Proof.
  intros H Hs. induction parts as [|m parts IH]; intros d k; cbn; [done|]. intros (e & Hl & Hc). exists e.
  split; [by apply (stored_linked L s1 s5 j i)|auto].
Qed.

(** The one name of the new file. *)
Lemma stored_nlink L s1 s5 j : ready L s1 → stored_as s1 s5 j (dk_next s1) → nlink s5 (dk_next s1) = 1.
Proof.
  intros [H _] [S1 S2 S3]. unfold nlink. assert (names_of s5 (dk_next s1) = {[(j, name)]}) as ->; [|apply size_singleton].
  apply set_eq. intros [a m]. rewrite elem_of_names, elem_of_singleton, S1.
  destruct (decide (a = j ∧ m = name)) as [[-> ->]|]; [done|]. destruct (decide (a = j ∧ m = tmp)) as [[-> ->]|]; [naive_solver|].
  split; [|naive_solver]. intros Hc%(pd_refs _ H). rewrite (pd_fresh _ H) in Hc by lia. by destruct Hc.
Qed.

(** ** The calls *)

Definition cleanup (j : nat) : jf () := catch (dir_unlink quiet j tmp) (λ e, if is_OSError e then Some (mret ()) else None).

Lemma cleanup_absent j s : child s j tmp = None → cleanup j s = (bump s, inr ()).
Proof.
  intros H. unfold cleanup, catch, dir_unlink. rewrite Htmp. unfold raise_if, syscall, mbind, eff_bind, quiet. cbn [negb gets mret eff_ret].
  change (child _ j tmp) with (child s j tmp). by rewrite H.
Qed.

Lemma write_file_run L s1 j es :
  ready L s1 → dk_nodes s1 !! j = Some (NDir es) →
  (catch (fd ← dir_create quiet j tmp; write_fd quiet fd content;; dir_replace quiet j tmp name) (λ e, Some (cleanup j;; raise e));;
   cleanup j) s1 = (bump (written j s1), inr ()).
Proof.
  intros HL Hj. pose proof (written_stored L s1 j es HL Hj) as Hst. pose proof (dir_below s1 j es (proj1 HL) Hj) as Hlt.
  set (i := dk_next s1) in *. set (a1 := new_file j tmp (NFile "") (bump s1)).
  assert (Hes : entries s1 j = Some es) by by apply dir_entries.
  assert (Hc : dir_create quiet j tmp s1 = (a1, inr i)).
  { unfold dir_create, syscall, mbind, eff_bind, quiet. cbn [gets]. change (entries _ j) with (entries s1 j). rewrite Hes.
    pose proof (pd_tmp _ (proj1 HL) j) as Ht. unfold child in Ht. rewrite Hes in Ht. cbn in Ht. by rewrite Ht. }
  assert (Ht1 : dk_nodes ((set_node i (NFile "") (bump s1)) <| dk_next := S i |> <| dk_own := dk_own (bump s1) ∪ {[i]} |>) !! j = Some (NDir es)).
  { cbn. rewrite lookup_insert_ne by (subst i; lia). done. }
  assert (Ha1 : dk_nodes a1 !! i = Some (NFile "")).
  { unfold a1, new_file. rewrite (set_nodes j tmp _ _ es) by done. rewrite decide_False by (subst i; cbn; lia). cbn. apply lookup_insert_eq. }
  set (a2 := set_node i (NFile content) (bump a1)).
  assert (Hw : write_fd quiet i content a1 = (a2, inr ())).
  { unfold write_fd, syscall, quiet, modify. change (dk_nodes (a1 <| dk_calls := S (dk_calls a1) |>) !! i) with (dk_nodes a1 !! i). by rewrite Ha1. }
  assert (Ha2 : dk_nodes a2 !! i = Some (NFile content)) by apply lookup_insert_eq.
  assert (Hch : ∀ m, child a2 j m = if decide (j = j ∧ m = tmp) then Some i else child s1 j m).
  { intros m. assert (Hj1 : child a2 j m = child a1 j m).
    { unfold child, entries, a2. cbn. by rewrite lookup_insert_ne by (subst i; lia). }
    rewrite Hj1. unfold a1, new_file. rewrite child_set by exact (ex_intro _ es (dir_entries _ j es Ht1)).
    destruct (decide _); [done|]. by apply (child_added (NFile "") s1); [apply HL|done|]. }
  assert (Hr : dir_replace quiet j tmp name a2 = (written j s1, inr ())).
  { unfold dir_replace. rewrite Htmp, Hname. unfold raise_if, syscall, mbind, eff_bind, quiet. cbn [negb andb gets mret eff_ret].
    change (child (Datatypes.id _) j tmp) with (child a2 j tmp). change (child (Datatypes.id _) j name) with (child a2 j name).
    rewrite (Hch tmp), decide_True by done. cbn [option_bind]. unfold mbind, option_bind at 1.
    change (dk_nodes (Datatypes.id _) !! i) with (dk_nodes a2 !! i). rewrite Ha2. cbn.
    rewrite (Hch name), decide_False by naive_solver. destruct (child s1 j name) as [k|] eqn:K; cbn; [|done].
    assert (Hk : ∀ es', dk_nodes a2 !! k ≠ Some (NDir es')).
    { destruct (pd_refs _ (proj1 HL) j name k K) as [nk Hnk]. assert (i ≠ k).
      { intros <-. rewrite (pd_fresh _ (proj1 HL)) in Hnk by (subst i; lia). done. }
      intros es'. unfold a2. cbn. rewrite lookup_insert_ne by done. unfold a1, new_file. rewrite (set_nodes j tmp _ _ es) by done.
      destruct (decide (k = j)) as [->|]; [by destruct (pd_name _ (proj1 HL) j j K es)|]. cbn. rewrite lookup_insert_ne by done.
      apply (pd_name _ (proj1 HL) j k K). }
    change (<[i := NFile content]> (dk_nodes a1) !! k) with (dk_nodes a2 !! k). destruct (dk_nodes a2 !! k) as [[es'| | |]|]; try done.
    by destruct (Hk es'). }
  rewrite (run_bind _ _ s1 (written j s1) ()).
  - apply cleanup_absent. rewrite (sa_child _ _ _ _ Hst). rewrite decide_False by naive_solver. by rewrite decide_True.
  - unfold catch. rewrite (run_bind _ _ _ _ _ Hc), (run_bind _ _ _ _ _ Hw), Hr. done.
Qed.

(** *** Reading *)

Lemma substring_split c : ∀ a k m, a + k ≤ String.length c →
  String.substring a (k + m) c = String.append (String.substring a k c) (String.substring (a + k) m c).
Proof.
  induction c as [|x c IH]; intros a k m H; cbn in H.
  { assert (a = 0 ∧ k = 0) as [-> ->] by lia. by destruct m. }
  destruct a as [|a]; [destruct k as [|k]|].
  - by destruct m.
  - cbn. f_equal. rewrite append_cons. f_equal. apply (IH 0 k m). lia.
  - cbn. apply IH. lia.
Qed.

Lemma substring_length c : ∀ a k, a + k ≤ String.length c → String.length (String.substring a k c) = k.
Proof.
  induction c as [|x c IH]; intros a k H; cbn in H; [by assert (a = 0 ∧ k = 0) as [-> ->] by lia|].
  destruct a as [|a]; [destruct k as [|k]; cbn; [done|]; f_equal; apply (IH 0 k); lia|]. cbn. apply IH. lia.
Qed.

Lemma substring_all c : String.substring 0 (String.length c) c = c.
Proof. induction c as [|x c IH]; cbn; [done|]. by f_equal. Qed.

Lemma read_bounded_run fd c : ∀ fuel offset remaining s,
  dk_nodes s !! fd = Some (NFile c) → offset + remaining ≤ String.length c → remaining < fuel →
  ∃ k, read_bounded quiet fuel fd offset remaining s = (s <| dk_calls := k |>, inr (String.substring offset remaining c)).
Proof.
  induction fuel as [|fuel IH]; intros o r s Hfd Hl Hf; [lia|]. destruct r as [|r].
  { exists (dk_calls s). cbn. destruct s. assert (String.substring o 0 c = "") as ->; [|done].
    destruct (String.substring o 0 c) eqn:E; [done|]. pose proof (substring_length c o 0 ltac:(lia)) as H. rewrite E in H. done. }
  cbn [read_bounded]. set (k := Z.to_nat (Z.min (Z.of_nat (S r)) CHUNK)).
  assert (Hk : 1 ≤ k ≤ S r) by (unfold k, CHUNK; lia).
  assert (Hread : os_read quiet fd o k s = (bump s, inr (String.substring o k c))).
  { unfold os_read, syscall, mbind, eff_bind, quiet. cbn [gets]. change (dk_nodes _ !! fd) with (dk_nodes s !! fd). by rewrite Hfd. }
  rewrite (run_bind _ _ _ _ _ Hread). pose proof (substring_length c o k ltac:(lia)) as Hlen.
  destruct (String.substring o k c) as [|x chunk] eqn:E; [cbn in Hlen; lia|]. rewrite Hlen.
  destruct (IH (o + k) (S r - k) (bump s) Hfd ltac:(lia) ltac:(lia)) as [n Hn]. rewrite (run_bind _ _ _ _ _ Hn).
  exists n. rewrite <-E. replace (S r) with (k + (S r - k)) at 2 by lia. by rewrite substring_split by lia.
Qed.

Lemma chain_bump s parts : ∀ d j, chain s d parts j → chain (bump s) d parts j.
Proof.
  induction parts as [|m parts IH]; intros d j; [done|].
  intros (e & Hl & Hc). exists e. split; [by apply linked_bump|by apply IH].
Qed.

Lemma open_parts_run parts : ∀ s d j, chain s d parts j →
  ∃ k, open_parts quiet false d parts s = (s <| dk_calls := k |>, inr (Some j)).
Proof.
  induction parts as [|m parts IH]; intros s d j; cbn.
  { intros ->. exists (dk_calls s). by destruct s. }
  intros (e & Hl & Hc). assert (Hof : open_folder quiet false d m s = (bump (bump s), inr (Some e))).
  { pose proof Hl as [Hch [es He]]. unfold open_folder.
    assert (Hstat : except (x ← dir_lstat quiet d m; mret (Some x)) is_FileNotFoundError None s = (bump s, inr (Some (NDir es)))).
    { unfold except, catch, dir_lstat, syscall, mbind, eff_bind, quiet. cbn [gets]. change (child _ d m) with (child s d m).
      rewrite Hch. cbn. by rewrite He. }
    rewrite (run_bind _ _ _ _ _ Hstat). unfold except, catch, mbind, eff_bind.
    by rewrite (open_child_run (bump s) d m e (linked_bump _ _ _ _ Hl)). }
  rewrite (run_bind _ _ _ _ _ Hof). destruct (IH (bump (bump s)) e j (chain_bump _ _ _ _ (chain_bump _ _ _ _ Hc))) as [k Hk]. by exists k.
Qed.

Lemma opened_run create home folder folders s f :
  forallb is_child_name folders = true → linked s home folder f →
  opened_journal quiet home folder folders create s = open_parts quiet create f (JOURNAL_DIRNAME :: folders) (bump s).
Proof.
  intros Hv Hl. unfold opened_journal, check_names. rewrite Hv. rewrite (run_bind _ _ s s ()) by done.
  assert (Ho : except (d ← open_pinned_child quiet home folder; mret (Some d)) (λ e, negb create && no_folder e) None s = (bump s, inr (Some f))).
  { unfold except, catch, mbind, eff_bind. by rewrite (open_child_run s home folder f Hl). }
  by rewrite (run_bind _ _ _ _ _ Ho).
Qed.

Lemma read_child_run s j i max :
  child s j name = Some i → dk_nodes s !! i = Some (NFile content) → nlink s i = 1 →
  (Z.of_nat (String.length content) ≤ max)%Z → (read_child quiet j name max s).2 = inr (Some content).
Proof.
  intros Hc Hi Hn Hl. unfold read_child.
  match goal with |- context [catch ?m ?h] => assert (Hopen : catch m h s = (bump s, inr (Some i))) end.
  { unfold catch, dir_open, syscall, mbind, eff_bind, quiet. cbn [gets]. change (child _ j name) with (child s j name). rewrite Hc.
    change (dk_nodes _ !! i) with (dk_nodes s !! i). by rewrite Hi. }
  rewrite (run_bind _ _ _ _ _ Hopen).
  assert (Hstat : fstat quiet i (bump s) = (bump (bump s), inr (NFile content, 1))).
  { unfold fstat, syscall, mbind, eff_bind, quiet. cbn [gets]. change (dk_nodes _ !! i) with (dk_nodes s !! i). rewrite Hi.
    change (nlink _ i) with (nlink s i). by rewrite Hn. }
  rewrite (run_bind _ _ _ _ _ Hstat). cbn [negb Nat.eqb]. rewrite (run_bind _ _ _ (bump (bump s)) ()) by done.
  destruct (Z.ltb_spec max (Z.of_nat (String.length content))); [lia|]. rewrite (run_bind _ _ _ (bump (bump s)) ()) by done.
  destruct (read_bounded_run i content (S (String.length content)) 0 (String.length content) (bump (bump s)) Hi) as [k Hk]; [lia|lia|].
  rewrite (run_bind _ _ _ _ _ Hk). by rewrite substring_all.
Qed.

End ReadBack.

(** C24: what is written to the journal is read back.  Nothing moves in between, the
    artifact folder is a real folder, the content is within the reader's limit, the
    temporary name is new on the disk, no name on the way is the record's or the
    temporary one, and nowhere is a folder called by the record's name
    ([plain_disk]; a folder at the name makes the write raise).  Then a write returns
    and the next read gives the very bytes, whatever else stood in the way: links,
    files or second names in place of the journal or a folder below it, and a link, a
    record or a second name of another file at the name itself. *)
Theorem journal_write_read home folder folders name tmp content s f max :
  is_child_name name = true → is_child_name tmp = true → tmp ≠ name →
  Forall (λ n, is_child_name n = true ∧ n ≠ name ∧ n ≠ tmp) (JOURNAL_DIRNAME :: folders) →
  plain_disk name tmp s → linked s home folder f → (Z.of_nat (String.length content) ≤ max)%Z →
  ∃ s', write_journal_file quiet home folder folders name tmp content s = (s', inr ()) ∧
    (read_journal_file quiet home folder folders name max s').2 = inr (Some content).
Proof.
  intros Hn Ht Hne Hp Hd Hl Hsize. assert (Hv : forallb is_child_name folders = true).
  { apply forallb_forall. intros x Hx%list_elem_of_In. rewrite list.Forall_forall in Hp. by apply Hp; right. }
  set (L := [(home, folder, f)]). assert (HL : ready name tmp L s) by (split; [done|]; by intros a m b [= -> -> ->]%list_elem_of_singleton).
  destruct Hl as [Hch [es Hf]].
  destruct (open_parts_ready name tmp (JOURNAL_DIRNAME :: folders) L (bump s) f es (ready_bump name tmp L s HL) Hf Hp)
    as (s1 & j & Ho & HL1 & Hchain & [es1 Hj]).
  pose proof (write_file_run name tmp content Hn Ht Hne L s1 j es1 HL1 Hj) as Hw.
  pose proof (written_stored name tmp content L s1 j es1 HL1 Hj) as Hst.
  exists (bump (written name tmp content j s1)). split.
  - unfold write_journal_file, check_names. cbn [forallb]. rewrite Hn. rewrite (run_bind _ _ s s ()) by done.
    rewrite <-(opened_run true home folder folders s f Hv (conj Hch (ex_intro _ es Hf))) in Ho. rewrite (run_bind _ _ _ _ _ Ho). exact Hw.
  - set (s5 := bump (written name tmp content j s1)).
    assert (Hl5 : linked s5 home folder f).
    { apply (linked_bump (written name tmp content j s1)), (stored_linked name tmp content L s1 _ j (dk_next s1)); [done|done|].
      apply (proj2 HL1). by left. }
    unfold read_journal_file, check_names. cbn [forallb]. rewrite Hn. rewrite (run_bind _ _ s5 s5 ()) by done.
    pose proof (opened_run false home folder folders s5 f Hv Hl5) as Hop.
    destruct (open_parts_run (JOURNAL_DIRNAME :: folders) (bump s5) f j) as [k Hk].
    { do 2 apply chain_bump. exact (stored_chain name tmp content L s1 _ j (dk_next s1) _ HL1 Hst f j Hchain). }
    rewrite Hk in Hop. rewrite (run_bind _ _ _ _ _ Hop).
    apply (read_child_run name content _ j (dk_next s1)); [|exact (sa_file _ _ _ _ _ _ _ Hst)| |done].
    + change (child (written name tmp content j s1) j name = Some (dk_next s1)). rewrite (sa_child _ _ _ _ _ _ _ Hst). by rewrite decide_True.
    + exact (stored_nlink name tmp content Hne L s1 _ j HL1 Hst).
Qed.

(** ** On the planted disk *)

Lemma planted_children d m i :
  child planted d m = Some i → (d, m, i) = (0, "art", 1) ∨ (d, m, i) = (1, JOURNAL_DIRNAME, 4) ∨ (d, m, i) = (2, "secret", 3).
Proof.
  unfold child, entries. intros H. destruct (decide (5 ≤ d)) as [Hd|Hd]; [by rewrite (dw_fresh _ planted_wf d Hd) in H|].
  assert (d = 0 ∨ d = 1 ∨ d = 2 ∨ d = 3 ∨ d = 4) as [-> | [-> | [-> | [-> | ->]]]] by lia; try done.
  - change (({["art" := 1]} : gmap string nat) !! m = Some i) in H. apply lookup_singleton_Some in H as [<- <-]. auto.
  - change (({[JOURNAL_DIRNAME := 4]} : gmap string nat) !! m = Some i) in H. apply lookup_singleton_Some in H as [<- <-]. auto.
  - change (({["secret" := 3]} : gmap string nat) !! m = Some i) in H. apply lookup_singleton_Some in H as [<- <-]. auto.
Qed.

Lemma planted_plain : plain_disk "state.json" ".state.json.tmp" planted.
Proof.
  split.
  - intros d m i [[= -> -> ->]|[[= -> -> ->]|[= -> -> ->]]]%planted_children; by eexists.
  - apply planted_wf.
  - intros d. destruct (child planted d _) as [i|] eqn:E; [|done]. by destruct (planted_children _ _ _ E) as [?|[?|?]].
  - intros d i E. by destruct (planted_children _ _ _ E) as [?|[?|?]].
Qed.

(** A write through the planted link, and the read after it. *)
Lemma journal_write_read_witness :
  ∃ s', write_journal_file quiet 0 "art" ["drafts"] "state.json" ".state.json.tmp" "one" planted = (s', inr ()) ∧
    (read_journal_file quiet 0 "art" ["drafts"] "state.json" 100 s').2 = inr (Some "one").
Proof.
  apply (journal_write_read 0 "art" ["drafts"] "state.json" ".state.json.tmp" "one" planted 1 100); try done.
  - repeat constructor; done.
  - exact planted_plain.
  - split; [done|]. by eexists.
Defined.

(** ** The second name that goes away *)

(** The journal as the server left it, and an agent that names the secret file as
    the record before the server opens it and, if it is told to, removes that name
    before the server looks at the number of names. *)
Definition journaled : Disk := (write_journal_file quiet 0 "art" [] "state.json" ".state.json.tmp" "one" planted).1.
Definition two_faced (back : bool) (t : nat) (s : Disk) : Disk :=
  let t := t - dk_calls journaled in
  if negb (bool_decide (5 ∈ dk_area s)) then s
  else if Nat.eqb t 3 then linker [t] 5 "state.json" 3 t s
  else if Nat.eqb t 4 && back then drop_child 5 "state.json" s
  else s.

Lemma two_faced_moves back t s : rtc agent_move s (two_faced back t s).
Proof.
  unfold two_faced. destruct (bool_decide _) eqn:E; cbn [negb]; [|apply rtc_refl]. apply bool_decide_eq_true in E.
  destruct (Nat.eqb _ 3); [apply linker_moves|]. destruct (_ && _); [|apply rtc_refl]. apply rtc_once. by apply am_unlink.
Qed.

(** A second name is refused while it stands, but the check sees the names of the
    file only after it was opened: when the agent removes the name in between, the
    file outside the journal has one name again and its bytes are returned. *)
Theorem second_name_race :
  (read_journal_file (two_faced false) 0 "art" [] "state.json" 100 journaled).2 = inl (JournalFileRefused "second_name") ∧
  (read_journal_file (two_faced true) 0 "art" [] "state.json" 100 journaled).2 = inr (Some "SECRET").
Proof. split; vm_compute; reflexivity. Qed.
