(* ===== verification/Base64.v ===== *)
(** * URL-safe base64 of the Python standard library.

    [base64.urlsafe_b64encode], and [base64.urlsafe_b64decode] as it is: letters
    outside the alphabet are skipped, and padding that completes a group ends the
    text whatever follows. *)
From stdpp Require Import base list strings option.
From Stdlib Require Import ZArith Lia.
From S2P Require Import Prelude JsonText.

(** ** The alphabet *)

Definition b64_letter (k : nat) : Ascii.ascii :=
  if Nat.ltb k 26 then chr (65 + k)
  else if Nat.ltb k 52 then chr (71 + k)
  else if Nat.ltb k 62 then chr (k - 4)
  else if Nat.eqb k 62 then chr 45
  else chr 95.

(** The decoder reads the letters of both alphabets. *)
Definition b64_value (c : Ascii.ascii) : option nat :=
  let n := ord c in
  if Nat.leb 65 n && Nat.leb n 90 then Some (n - 65)
  else if Nat.leb 97 n && Nat.leb n 122 then Some (n - 71)
  else if Nat.leb 48 n && Nat.leb n 57 then Some (n + 4)
  else if Nat.eqb n 45 || Nat.eqb n 43 then Some 62
  else if Nat.eqb n 95 || Nat.eqb n 47 then Some 63
  else None.

(** ** Encoding, three bytes at a time *)

Fixpoint urlsafe_b64encode (s : string) : string :=
  match s with
  | EmptyString => ""
  | String.String a EmptyString =>
      let x := ord a in
      String.String (b64_letter (x / 4)) (String.String (b64_letter (x mod 4 * 16)) "==")
  | String.String a (String.String b EmptyString) =>
      let x := ord a in let y := ord b in
      String.String (b64_letter (x / 4)) (String.String (b64_letter (x mod 4 * 16 + y / 16))
        (String.String (b64_letter (y mod 16 * 4)) "="))
  | String.String a (String.String b (String.String c s')) =>
      let x := ord a in let y := ord b in let z := ord c in
      String.String (b64_letter (x / 4)) (String.String (b64_letter (x mod 4 * 16 + y / 16))
        (String.String (b64_letter (y mod 16 * 4 + z / 64)) (String.String (b64_letter (z mod 64)) (urlsafe_b64encode s'))))
  end.

(** ** Decoding, a letter at a time: the place in the group, the bits left over and
    the padding seen *)

Definition b64_byte (n : nat) (r : option string) : option string := String.String (chr n) <$> r.

Fixpoint b64_decode (quad left pads : nat) (s : string) : option string :=
  match s with
  | EmptyString => if Nat.eqb quad 0 then Some "" else None
  | String.String c s =>
      if Nat.eqb (ord c) 61 then
        if Nat.leb 2 quad && Nat.leb 4 (quad + S pads) then Some ""
        else b64_decode quad left (if Nat.leb 2 quad then S pads else pads) s
      else
        match b64_value c with
        | None => b64_decode quad left pads s
        | Some v =>
            match quad with
            | 0 => b64_decode 1 v 0 s
            | 1 => b64_byte (left * 4 + v / 16) (b64_decode 2 (v mod 16) 0 s)
            | 2 => b64_byte (left * 16 + v / 4) (b64_decode 3 (v mod 4) 0 s)
            | _ => b64_byte (left * 64 + v) (b64_decode 0 0 0 s)
            end
        end
  end.
Definition urlsafe_b64decode (s : string) : option string := b64_decode 0 0 0 s.

(** ** The round trip *)

Lemma b64_letter_value k : k < 64 → b64_value (b64_letter k) = Some k ∧ Nat.eqb (ord (b64_letter k)) 61 = false.
Proof.
  intros Hk. assert (H : forallb (λ k, bool_decide (b64_value (b64_letter k) = Some k) && negb (Nat.eqb (ord (b64_letter k)) 61)) (seq 0 64) = true)
    by (vm_compute; reflexivity).
  rewrite forallb_forall in H. specialize (H k ltac:(apply in_seq; lia)). apply andb_true_iff in H as [H1 H2].
  apply bool_decide_eq_true in H1. by apply negb_true_iff in H2.
Qed.

Lemma b64_decode_letter quad left pads k s :
  k < 64 → b64_decode quad left pads (String.String (b64_letter k) s) =
    match quad with
    | 0 => b64_decode 1 k 0 s
    | 1 => b64_byte (left * 4 + k / 16) (b64_decode 2 (k mod 16) 0 s)
    | 2 => b64_byte (left * 16 + k / 4) (b64_decode 3 (k mod 4) 0 s)
    | _ => b64_byte (left * 64 + k) (b64_decode 0 0 0 s)
    end.
Proof. intros Hk. destruct (b64_letter_value k Hk) as [Hv Hp]. cbn. by rewrite Hp, Hv. Qed.

Lemma ord_bound c : ord c < 256.
Proof. apply Ascii.nat_ascii_bounded. Qed.

Lemma chr_is n c : n = ord c → chr n = c.
Proof. intros ->. apply Ascii.ascii_nat_embedding. Qed.

(** The bits of two bytes over three letters. *)
Lemma b64_bits x y : x < 256 → y < 256 →
  x / 4 < 64 ∧ x mod 4 * 16 + y / 16 < 64 ∧ x / 4 * 4 + (x mod 4 * 16 + y / 16) / 16 = x ∧ (x mod 4 * 16 + y / 16) mod 16 = y / 16.
Proof.
  intros Hx Hy. pose proof (Nat.div_mod_eq x 4). pose proof (Nat.mod_upper_bound x 4). pose proof (Nat.div_mod_eq y 16).
  pose proof (Nat.mod_upper_bound y 16). assert (Hd : (x mod 4 * 16 + y / 16) / 16 = x mod 4).
  { symmetry. apply (Nat.div_unique _ 16 _ (y / 16)); lia. }
  assert (Hm : (x mod 4 * 16 + y / 16) mod 16 = y / 16) by (symmetry; apply (Nat.mod_unique _ 16 (x mod 4)); lia).
  rewrite Hd, Hm. lia.
Qed.
Lemma b64_bits2 y z : y < 256 → z < 256 →
  y mod 16 * 4 + z / 64 < 64 ∧ y / 16 * 16 + (y mod 16 * 4 + z / 64) / 4 = y ∧ (y mod 16 * 4 + z / 64) mod 4 = z / 64 ∧ z / 64 * 64 + z mod 64 = z.
Proof.
  intros Hy Hz. pose proof (Nat.div_mod_eq y 16). pose proof (Nat.mod_upper_bound y 16). pose proof (Nat.div_mod_eq z 64).
  pose proof (Nat.mod_upper_bound z 64). assert (Hd : (y mod 16 * 4 + z / 64) / 4 = y mod 16).
  { symmetry. apply (Nat.div_unique _ 4 _ (z / 64)); lia. }
  assert (Hm : (y mod 16 * 4 + z / 64) mod 4 = z / 64) by (symmetry; apply (Nat.mod_unique _ 4 (y mod 16)); lia).
  rewrite Hd, Hm. lia.
Qed.

(** Induction three bytes at a time. *)
Lemma string_ind3 (P : string → Prop) :
  P "" → (∀ a, P (String.String a "")) → (∀ a b, P (String.String a (String.String b ""))) →
  (∀ a b c s, P s → P (String.String a (String.String b (String.String c s)))) → ∀ s, P s.
Proof.
  intros H0 H1 H2 H3. assert (H : ∀ n s, String.length s ≤ n → P s); [|intros s; by apply (H (String.length s))].
  induction n as [|n IH]; intros s Hs; [destruct s; [done|cbn in Hs; lia]|].
  destruct s as [|a [|b [|c s]]]; [done|apply H1|apply H2|apply H3, IH; cbn in Hs; lia].
Qed.

(** What is encoded decodes to itself. *)
Lemma b64_round_trip s : urlsafe_b64decode (urlsafe_b64encode s) = Some s.
Proof.
  unfold urlsafe_b64decode. induction s as [|a|a b|a b c s IH] using string_ind3; [done|..]; cbn [urlsafe_b64encode].
  - pose proof (ord_bound a) as Ha. destruct (b64_bits (ord a) 0 Ha ltac:(lia)) as (B1 & B2 & B3 & B4). rewrite Nat.add_0_r in B2, B3.
    rewrite !b64_decode_letter by done. rewrite B3. cbn. by rewrite (chr_is _ a).
  - pose proof (ord_bound a) as Ha. pose proof (ord_bound b) as Hb.
    destruct (b64_bits _ _ Ha Hb) as (B1 & B2 & B3 & B4). destruct (b64_bits2 (ord b) 0 Hb ltac:(lia)) as (C1 & C2 & C3 & C4).
    rewrite Nat.add_0_r in C1, C2. rewrite !b64_decode_letter by done. rewrite B3, B4, C2. cbn. by rewrite (chr_is _ a), (chr_is _ b).
  - pose proof (ord_bound a) as Ha. pose proof (ord_bound b) as Hb. pose proof (ord_bound c) as Hc.
    destruct (b64_bits _ _ Ha Hb) as (B1 & B2 & B3 & B4). destruct (b64_bits2 _ _ Hb Hc) as (C1 & C2 & C3 & C4).
    assert (Hl : ord c mod 64 < 64) by (apply Nat.mod_upper_bound; lia).
    rewrite !b64_decode_letter by done. rewrite B3, B4, C2, C3, C4, IH. cbn. by rewrite (chr_is _ a), (chr_is _ b), (chr_is _ c).
Qed.
