(* ===== verification/Conversations.v ===== *)
(** * Conversations ([src/cowork/services/conversations.py],
    [src/cowork/models/conversation.py, message.py, message_event.py]).

    A conversation's messages and their events, in three tables that all tenants
    share.  A table is the list of its rows as they were inserted; every read
    names its order.  A method runs in a unit that commits when it returns and
    rolls back when it raises ([DbUnits]); no method here writes before it raises,
    but the deletion, which rolls back itself.  What other services do with a
    conversation is kept as the list of calls made to them.

    The author of a message, the channel of a session's flushes and the figures
    of earlier answers are left out. *)
From stdpp Require Import base list gmap strings option.
From Stdlib Require Import ZArith Lia.
From S2P Require Import Prelude JsonObject JsonText Uuid AnswerText Identity TenantScope ScopedSession Base64.

(** ** Rows *)

Inductive Role :=
  | r_system | r_user | r_assistant
  | r_scratchpad_start | r_scratchpad_progress | r_scratchpad_result | r_scratchpad_end
  | r_memorize_start | r_memorize_end | r_recall_start | r_recall_end
  | r_progress | r_context_compacted
  | r_tool_call_start | r_tool_call_progress | r_tool_call_end | r_tool_call_message.

#[export] Instance Role_eq_dec : EqDecision Role.
Proof. solve_decision. Defined.

Definition role_value (r : Role) : string :=
  match r with
  | r_system => "system" | r_user => "user" | r_assistant => "assistant"
  | r_scratchpad_start => "thought.scratchpad.start" | r_scratchpad_progress => "thought.scratchpad.progress"
  | r_scratchpad_result => "thought.scratchpad.result" | r_scratchpad_end => "thought.scratchpad.end"
  | r_memorize_start => "thought.memorize.start" | r_memorize_end => "thought.memorize.end"
  | r_recall_start => "thought.recall.start" | r_recall_end => "thought.recall.end"
  | r_progress => "thought.progress" | r_context_compacted => "thought.context_compacted"
  | r_tool_call_start => "thought.tool_call.start" | r_tool_call_progress => "thought.tool_call.progress"
  | r_tool_call_end => "thought.tool_call.end" | r_tool_call_message => "thought.tool_call.message"
  end.

(** Ids are the canonical texts of UUIDs, whose order is the UUIDs'. *)
Record Message := {
  msg_id : string;
  msg_conversation : string;
  msg_role : Role;
  msg_content : json;
  msg_harness : option string;
  msg_seq : Z;
  msg_pending : bool;
  msg_created_at : Z;
}.

#[export] Instance fields_Message : Fields Message := λ m, {|
  msg_id := msg_id m; msg_conversation := msg_conversation m; msg_role := msg_role m; msg_content := msg_content m;
  msg_harness := msg_harness m; msg_seq := msg_seq m; msg_pending := msg_pending m; msg_created_at := msg_created_at m |}.

Record MessageEvent := { me_message : string; me_sequence : Z; me_data : json }.

Record Conversation := {
  cv_id : string;
  cv_topic : string;
  cv_project : string;
  cv_org : option string;
  cv_created_by : option string;
  cv_created_at : Z;
  cv_harness : option string;
  cv_model : option string;
  cv_reasoning_effort : option string;
  cv_summary : option string;
  cv_cutoff : option string;
}.

#[export] Instance fields_Conversation : Fields Conversation := λ c, {|
  cv_id := cv_id c; cv_topic := cv_topic c; cv_project := cv_project c; cv_org := cv_org c; cv_created_by := cv_created_by c;
  cv_created_at := cv_created_at c; cv_harness := cv_harness c; cv_model := cv_model c;
  cv_reasoning_effort := cv_reasoning_effort c; cv_summary := cv_summary c; cv_cutoff := cv_cutoff c |}.

Record Project := { pj_id : string; pj_org : option string; pj_path : string }.

(** Calls to other services, and what is removed after the commit. *)
Inductive Outside :=
  | x_task_objects (conversation : string)
  | x_attachments (conversation : string) (org_wide : bool)
  | x_schedules_released (conversation : string)
  | x_channels_released (conversation : string)
  | x_streams_discarded (conversation : string)
  | x_files_unlinked (dirs : list string)
  | x_sessions_removed (project_path : option string) (conversation : string)
  | x_workspace_removed (project_path : option string) (conversation : string)
  | x_drafts_swept (project_path : string) (slugs : list string).

Record ChatDb := {
  ch_conversations : list Conversation;
  ch_messages : list Message;
  ch_events : list MessageEvent;
  ch_projects : list Project;
  ch_next : nat;                 (* ids given out *)
  ch_now : Z;
  ch_outside : list Outside;
}.

#[export] Instance fields_ChatDb : Fields ChatDb := λ s, {|
  ch_conversations := ch_conversations s; ch_messages := ch_messages s; ch_events := ch_events s; ch_projects := ch_projects s;
  ch_next := ch_next s; ch_now := ch_now s; ch_outside := ch_outside s |}.

Abbreviation chat := (eff ChatDb).

(** [ORDER BY], with rows of equal keys in the order they have. *)
Fixpoint insert_by {A} (le : A → A → bool) (x : A) (l : list A) : list A :=
  match l with
  | [] => [x]
  | y :: l' => if le x y then x :: l else y :: insert_by le x l'
  end.
Definition order_by {A} (le : A → A → bool) (l : list A) : list A := foldr (insert_by le) [] l.

(** ** Order and cursors *)

Definition DEFAULT_PAGE_LIMIT : Z := 50.
Definition MAX_PAGE_LIMIT : Z := 200.
Definition SCAN_CAP_MULTIPLIER : Z := 10.
Definition EVENTS_IN_CHUNK_SIZE : nat := 500.
Definition MAX_CURSOR_SEQ : Z := 2 ^ 63 - 1.

(** [_message_cursor_key]. *)
Definition message_cursor_key (m : Message) : Z * Z * string :=
  (msg_seq m, if bool_decide (msg_role m = r_user) then 0%Z else 1%Z, msg_id m).

Definition key_lt (a b : Z * Z * string) : bool :=
  let '(s, r, i) := a in let '(s', r', i') := b in
  (s <? s')%Z || ((s =? s')%Z && ((r <? r')%Z || ((r =? r')%Z && match String.compare i i' with Lt => true | _ => false end))).

(** [_MESSAGE_ORDER] and its reverse. *)
Definition message_order (a b : Message) : bool := negb (key_lt (message_cursor_key b) (message_cursor_key a)).
Definition newest_first (a b : Message) : bool := message_order b a.

(** [_encode_message_cursor]. *)
Definition encode_message_cursor (m : Message) : string :=
  let '(seq, role_rank, message_id) := message_cursor_key m in
  urlsafe_b64encode (dumps (JArr [JInt seq; JInt role_rank; JStr message_id])).

(** [a, b, c = value]: a list, a text or the keys of a dict, of length three. *)
Definition unpack3 (j : json) : option (json * json * json) :=
  match j with
  | JArr [a; b; c] => Some (a, b, c)
  | JStr (String.String a (String.String b (String.String c EmptyString))) =>
      Some (JStr (String.String a ""), JStr (String.String b ""), JStr (String.String c ""))
  | JObj [(a, _); (b, _); (c, _)] => Some (JStr a, JStr b, JStr c)
  | _ => None
  end.

(** [int(value)]; of a text and of a float it is the platform's. *)
Class PyInt := { int_of_text : string → option Z; int_of_float : string → option Z }.
Definition py_int `{PyInt} (j : json) : option Z :=
  match j with
  | JInt n => Some n
  | JBool b => Some (if b then 1%Z else 0%Z)
  | JStr s => int_of_text s
  | JFloat r => int_of_float r
  | _ => None
  end.

(** [_decode_message_cursor]. *)
Definition decode_message_cursor `{PyInt} (cursor : string) : exn + (Z * Z * string) :=
  let decoded :=
    raw ← urlsafe_b64decode cursor;
    j ← loads raw;
    '(seq, role_rank, message_id) ← unpack3 j;
    seq ← py_int seq;
    role_rank ← py_int role_rank;
    message_id ← match message_id with JStr t => uuid_text t | _ => None end;
    mret (seq, role_rank, message_id) in
  match decoded with
  | None => inl (InvalidPaginationParams "Malformed pagination cursor")
  | Some (seq, role_rank, message_id) =>
      if negb ((0 <=? seq)%Z && (seq <=? MAX_CURSOR_SEQ)%Z) || negb ((role_rank =? 0)%Z || (role_rank =? 1)%Z)
      then inl (InvalidPaginationParams "Malformed pagination cursor")
      else inr (seq, role_rank, message_id)
  end.

(** ** Contents *)

Definition block_type (block : json) : option json := match block with JObj fields => obj_get fields "type" | _ => None end.

(** [_is_tool_row]. *)
Definition is_tool_block (block : json) : bool :=
  bool_decide (block_type block = Some (JStr "tool_use")) || bool_decide (block_type block = Some (JStr "tool_result")).
Definition is_tool_row (content : json) : bool :=
  match content with
  | JArr ((_ :: _) as blocks) => forallb is_tool_block blocks
  | _ => false
  end.

Definition IMAGE_PLACEHOLDER_TEXT : string :=
  "[An image here could not be sent to the model and was removed automatically so this conversation could continue. Re-share it if you still need it referenced.]".

(** [_strip_image_blocks]. *)
Fixpoint strip_image_blocks (content : json) : json * bool :=
  match content with
  | JArr blocks =>
      let stripped := map (λ block,
        match block with
        | JObj fields =>
            if bool_decide (obj_get fields "type" = Some (JStr "image")) then
              (JObj [("type", JStr "text"); ("text", JStr IMAGE_PLACEHOLDER_TEXT)], true)
            else if bool_decide (obj_get fields "type" = Some (JStr "tool_result")) then
              match (fix nested (fields : list (string * json)) : option (json * bool) :=
                       match fields with
                       | [] => None
                       | (k, v) :: fields =>
                           match nested fields with
                           | Some r => Some r
                           | None => if String.eqb k "content" then Some (strip_image_blocks v) else None
                           end
                       end) fields with
              | Some (content, true) => (JObj (obj_set fields "content" content), true)
              | _ => (block, false)
              end
            else (block, false)
        | _ => (block, false)
        end) blocks in
      if existsb snd stripped then (JArr (map fst stripped), true) else (content, false)
  | _ => (content, false)
  end.

(** [_skill_created_slug]. *)
Definition skill_created_slug (event_data : json) : option string :=
  match event_data with
  | JObj fields =>
      if negb (bool_decide (obj_get fields "type" = Some (JStr "response.skill_created"))) then None
      else
        match obj_get fields "skill" with
        | Some (JObj skill) => match obj_get skill "slug" with Some (JStr slug) => if truthy slug then Some slug else None | _ => None end
        | _ => None
        end
  | _ => None
  end.

(** ** The service *)

Section Service.
Context {SC : Schema} (scope : TenantScope) (new_id : nat → string).

(** The rows of [conversations] and [projects] that the session shows. *)
Definition of_scope (table : string) (org : option string) : exn + bool :=
  match key_org scope table with
  | inl e => inl e
  | inr None => inr true
  | inr (Some o) => inr (bool_decide (org = Some o))
  end.
Definition own_row (c : Conversation) : bool :=
  negb (sc_org_mode scope) || bool_decide (cv_created_by c = sc_user_id scope).

(** [_owned]. *)
Definition owned (conversation_id : string) : chat (option Conversation) :=
  s ← gets id;
  match list_find (λ c, cv_id c = conversation_id) (ch_conversations s) with
  | None => match of_scope "conversations" None with inl e => raise e | inr _ => mret None end
  | Some (_, c) =>
      match of_scope "conversations" (cv_org c) with
      | inl e => raise e
      | inr visible => mret (if visible && own_row c then Some c else None)
      end
  end.
Definition get_conversation (conversation_id : string) : chat Conversation :=
  c ← owned conversation_id;
  match c with Some c => mret c | None => raise (ValueError "Conversation not found") end.
(** [owned_ids]. *)
Definition owned_ids (conversation_ids : list string) : chat (list string) :=
  match conversation_ids with
  | [] => mret []
  | _ =>
      found ← map_each (λ i, c ← owned i; mret (cv_id <$> c)) conversation_ids;
      mret (remove_dups (omap id found))
  end.

(** [session.get(Project, ident)]. *)
Definition get_project (project_id : string) : chat (option Project) :=
  s ← gets id;
  match list_find (λ p, pj_id p = project_id) (ch_projects s) with
  | None => match of_scope "projects" None with inl e => raise e | inr _ => mret None end
  | Some (_, p) =>
      match of_scope "projects" (pj_org p) with
      | inl e => raise e
      | inr visible => mret (if visible then Some p else None)
      end
  end.

Definition messages_of (conversation_id : string) (s : ChatDb) : list Message :=
  base.filter (λ m, msg_conversation m = conversation_id) (ch_messages s).
Definition events_of (message_id : string) (s : ChatDb) : list MessageEvent :=
  base.filter (λ e, me_message e = message_id) (ch_events s).
Definition all_messages (conversation_id : string) (s : ChatDb) : list Message :=
  order_by message_order (messages_of conversation_id s).

(** [_next_seq]. *)
Definition next_seq (conversation_id : string) : chat Z :=
  s ← gets id;
  mret match order_by (λ a b, (msg_seq b <=? msg_seq a)%Z) (messages_of conversation_id s) with
       | [] => 0%Z
       | last :: _ => (msg_seq last + 1)%Z
       end.

Definition fresh_id : chat string :=
  s ← gets id;
  modify (λ s, s <| ch_next := S (ch_next s) |>);;
  mret (new_id (ch_next s)).
Definition add_messages (rows : list Message) : chat () := modify (λ s, s <| ch_messages := ch_messages s ++ rows |>).
Definition add_events (rows : list MessageEvent) : chat () := modify (λ s, s <| ch_events := ch_events s ++ rows |>).
Definition call_outside (x : Outside) : chat () := modify (λ s, s <| ch_outside := ch_outside s ++ [x] |>).
(** Changed objects, written at the commit. *)
Definition change_messages (p : Message → bool) (f : Message → Message) : chat () :=
  modify (λ s, s <| ch_messages := map (λ m, if p m then f m else m) (ch_messages s) |>).
Definition delete_messages (ids : list string) : chat () :=
  modify (λ s, s <| ch_messages := base.filter (λ m, msg_id m ∉ ids) (ch_messages s) |>
                 <| ch_events := base.filter (λ e, me_message e ∉ ids) (ch_events s) |>).

(** [save_user_message]. *)
Definition save_user_message (conversation_id : string) (content : json) (created_at : option Z) (pending : bool) : chat Message :=
  i ← fresh_id;
  seq ← next_seq conversation_id;
  now ← gets ch_now;
  let message := {|
    msg_id := i; msg_conversation := conversation_id; msg_role := r_user; msg_content := content; msg_harness := None;
    msg_seq := seq; msg_pending := pending; msg_created_at := default now created_at |} in
  add_messages [message];;
  mret message.

(** [clear_pending] and [finalize_pending]. *)
Definition clear_pending (conversation_id : string) (message_id : option string) : chat bool :=
  let hit m := bool_decide (msg_conversation m = conversation_id) && msg_pending m &&
    match message_id with Some i => bool_decide (msg_id m = i) | None => true end in
  found ← gets (λ s, existsb hit (ch_messages s));
  change_messages hit (λ m, m <| msg_pending := false |>);;
  mret found.
Definition finalize_pending (conversation_id : string) (message_id : option string) : chat () :=
  _ ← clear_pending conversation_id message_id;
  mret ().

(** [get_ordered_messages] and [_ordered_messages]. *)
Definition ordered_messages (conversation_id : string) (include_pending newest : bool) : chat (list Message) :=
  get_conversation conversation_id;;
  s ← gets id;
  mret (order_by (if newest then newest_first else message_order)
    (base.filter (λ m, include_pending = true ∨ msg_pending m = false) (messages_of conversation_id s))).
Definition get_ordered_messages (conversation_id : string) (include_pending : bool) : chat (list Message) :=
  ordered_messages conversation_id include_pending false.
(** [get_recent_messages]. *)
Definition get_recent_messages (conversation_id : string) (roles : list Role) (limit : nat) : chat (list Message) :=
  rows ← ordered_messages conversation_id false true;
  mret (rev (take limit (base.filter (λ m, msg_role m ∈ roles) rows))).
(** [message_count]. *)
Definition message_count (conversation_id : string) : chat nat := gets (λ s, length (messages_of conversation_id s)).

(** [repair_image_content]. *)
Definition repair_image_content (conversation_id : string) : chat (list string) :=
  messages ← get_ordered_messages conversation_id true;
  let repaired := base.filter (λ m, (strip_image_blocks (msg_content m)).2 = true) messages in
  change_messages (λ m, bool_decide (msg_id m ∈ map msg_id repaired)) (λ m, m <| msg_content := (strip_image_blocks (msg_content m)).1 |>);;
  mret (map msg_id repaired).

(** [last_message_at]. *)
Definition last_message_at (conversation_id : string) (s : ChatDb) : option Z :=
  match order_by (λ a b, (msg_created_at b <=? msg_created_at a)%Z) (messages_of conversation_id s) with
  | [] => None
  | last :: _ => Some (msg_created_at last)
  end.

(** [list_conversations]; [default_project_id] is [ProjectService]'s. *)
Definition last_activity (s : ChatDb) (c : Conversation) : Z := default (cv_created_at c) (last_message_at (cv_id c) s).
Definition activity_order (s : ChatDb) (a b : Conversation) : bool :=
  let ka := last_activity s a in let kb := last_activity s b in
  (kb <? ka)%Z || ((kb =? ka)%Z && ((cv_created_at b <? cv_created_at a)%Z ||
    ((cv_created_at b =? cv_created_at a)%Z && match String.compare (cv_id a) (cv_id b) with Gt => false | _ => true end))).
Definition list_conversations (default_project_id : string) (project_id : option string) (limit : nat) (all_projects : bool) :
    chat (list Conversation) :=
  s ← gets id;
  match of_scope "conversations" None with
  | inl e => raise e
  | inr _ =>
      mret (take limit (order_by (activity_order s)
        (base.filter (λ c, of_scope "conversations" (cv_org c) = inr true ∧ own_row c = true ∧
           (all_projects = true ∨ cv_project c = default default_project_id project_id)) (ch_conversations s))))
  end.
Definition list_conversations_with_activity (default_project_id : string) (project_id : option string) (limit : nat) (all_projects : bool) :
    chat (list (Conversation * Z)) :=
  convs ← list_conversations default_project_id project_id limit all_projects;
  s ← gets id;
  mret (map (λ c, (c, last_activity s c)) convs).

(** [create_conversation]. *)
Definition create_conversation (default_project_id topic : string) (project_id conversation_id harness model reasoning_effort : option string) :
    chat Conversation :=
  let target := default default_project_id project_id in
  p ← get_project target;
  match p with
  | None => raise (ValueError "Project not found")
  | Some _ =>
      i ← match conversation_id with Some i => mret i | None => fresh_id end;
      s ← gets id;
      match key_org scope "conversations" with
      | inl e => raise e
      | inr org =>
          let conversation := {|
            cv_id := i; cv_topic := topic; cv_project := target; cv_org := org;
            cv_created_by := if truthy_opt (sc_user_id scope) && has_created_by "conversations" && partitions_model scope "conversations"
                             then sc_user_id scope else None;
            cv_created_at := ch_now s; cv_harness := harness; cv_model := model; cv_reasoning_effort := reasoning_effort;
            cv_summary := None; cv_cutoff := None |} in
          raise_if (existsb (λ c, String.eqb (cv_id c) i) (ch_conversations s)) (IntegrityError "primary key");;
          modify (λ s, s <| ch_conversations := ch_conversations s ++ [conversation] |>);;
          mret conversation
      end
  end.

Definition put_conversation (c : Conversation) : chat () :=
  modify (λ s, s <| ch_conversations := map (λ d, if bool_decide (cv_id d = cv_id c) then c else d) (ch_conversations s) |>).
(** [update_conversation]. *)
Definition update_conversation (conversation_id : string) (topic project_id : option string) : chat Conversation :=
  c ← get_conversation conversation_id;
  let c := match topic with Some t => c <| cv_topic := t |> | None => c end in
  c ← match project_id with
      | None => mret c
      | Some p =>
          found ← get_project p;
          match found with None => raise (ValueError "Project not found") | Some _ => mret (c <| cv_project := p |>) end
      end;
  put_conversation c;;
  mret c.
(** [update_history_compaction]. *)
Definition update_history_compaction (conversation_id summary cutoff_message_id : string) : chat () :=
  c ← owned conversation_id;
  match c with
  | None => mret ()
  | Some c => put_conversation (c <| cv_summary := Some summary |> <| cv_cutoff := Some cutoff_message_id |>)
  end.
(** [archived_messages]. *)
Fixpoint archived_until (cutoff : string) (archived : list (string * json)) (messages : list Message) : list (string * json) :=
  match messages with
  | [] => []
  | m :: messages =>
      if bool_decide (msg_role m = r_user ∨ msg_role m = r_assistant) then
        let archived := archived ++ [(role_value (msg_role m), msg_content m)] in
        if String.eqb (msg_id m) cutoff then archived else archived_until cutoff archived messages
      else archived_until cutoff archived messages
  end.
Definition archived_messages (conversation_id : string) : chat (list (string * json)) :=
  c ← get_conversation conversation_id;
  match cv_cutoff c with
  | Some cutoff =>
      if truthy_opt (cv_summary c) then messages ← get_ordered_messages conversation_id false; mret (archived_until cutoff [] messages)
      else mret []
  | None => mret []
  end.

(** [_supersede_skill_cards]. *)
Definition supersede_skill_cards (conversation_id keep_message_id : string) (slugs : list string) : chat () :=
  s ← gets id;
  let msg_ids := map msg_id (messages_of conversation_id s) in
  modify (λ s, s <| ch_events := base.filter (λ e,
    ¬ (me_message e ∈ msg_ids ∧ me_message e ≠ keep_message_id ∧
       skill_created_slug (me_data e) ∈ Some <$> slugs)) (ch_events s) |>).

(** [save_assistant_turn]. *)
Definition turn_rows (conversation_id : string) (harness : option string) (now base_seq : Z) (rows : list (Role * json * string)) : list Message :=
  imap (λ offset '(role, content, i), {|
    msg_id := i; msg_conversation := conversation_id; msg_role := role; msg_content := content; msg_harness := harness;
    msg_seq := base_seq + Z.of_nat offset; msg_pending := false; msg_created_at := now |}) rows.
Definition save_assistant_turn (conversation_id text : string) (events : list event) (harness : option string) (tool_rows : list (Role * json)) :
    chat (option string) :=
  if negb (truthy text) && bool_decide (events = []) && bool_decide (tool_rows = []) then mret None
  else
    get_conversation conversation_id;;
    assistant ← fresh_id;
    rows ← map_each (λ row, i ← fresh_id; mret (row, i)) tool_rows;
    base_seq ← next_seq conversation_id;
    now ← gets ch_now;
    add_messages (turn_rows conversation_id harness now base_seq (rows ++ [(r_assistant, JStr text, assistant)]));;
    add_events (imap (λ n e, {| me_message := assistant; me_sequence := Z.of_nat n; me_data := JObj e |}) (coalesce_text_deltas events));;
    let new_slugs := omap skill_created_slug (map JObj events) in
    (match new_slugs with [] => mret () | _ => supersede_skill_cards conversation_id assistant new_slugs end);;
    mret (Some assistant).

(** [recover_interrupted_turn]; [turn_id] is a count. *)
Fixpoint has_terminal (events : list MessageEvent) : exn + bool :=
  match events with
  | [] => inr false
  | e :: events =>
      match me_data e with
      | JObj fields =>
          if bool_decide (obj_get fields "type" = Some (JStr "response.completed")) || bool_decide (obj_get fields "type" = Some (JStr "response.failed"))
          then inr true else has_terminal events
      | _ => inl (AttributeError "'get'")
      end
  end.
(** The reply among the rows after the question, unless a later turn begins first. *)
Fixpoint find_reply (messages : list Message) : option (option Message) :=
  match messages with
  | [] => Some None
  | m :: messages =>
      if is_tool_row (msg_content m) then find_reply messages
      else if bool_decide (msg_role m = r_user) then None
      else if bool_decide (msg_role m = r_assistant) then Some (Some m)
      else find_reply messages
  end.
Definition recover_interrupted_turn (conversation_id : string) (turn_id : nat) (text : string) (terminal_event : event) : chat bool :=
  conversation ← get_conversation conversation_id;
  messages ← get_ordered_messages conversation_id true;
  match messages !! turn_id with
  | None => mret false
  | Some question =>
      if negb (bool_decide (msg_role question = r_user)) || is_tool_row (msg_content question) then mret false
      else
        let settle := change_messages (λ m, bool_decide (msg_id m = msg_id question)) (λ m, m <| msg_pending := false |>) in
        match find_reply (drop (S turn_id) messages) with
        | None => mret false
        | Some (Some reply) =>
            s ← gets id;
            let events := events_of (msg_id reply) s in
            match has_terminal events with
            | inl e => raise e
            | inr true => mret false
            | inr false =>
                add_events [{| me_message := msg_id reply; me_sequence := (foldr Z.max (-1) (map me_sequence events) + 1)%Z; me_data := JObj terminal_event |}];;
                settle;;
                mret true
            end
        | Some None =>
            settle;;
            save_assistant_turn conversation_id text [terminal_event] (cv_harness conversation) [];;
            mret true
        end
  end.

(** [delete_turn]. *)
Fixpoint walk_back (messages : list Message) (j : nat) : nat :=
  match j with
  | 0 => 0
  | S k => match messages !! k with Some m => if is_tool_row (msg_content m) then walk_back messages k else j | None => j end
  end.
(** Whether the first visible row has an answer. *)
Fixpoint answered (messages : list Message) : bool :=
  match messages with
  | [] => false
  | m :: messages =>
      if is_tool_row (msg_content m) then answered messages
      else bool_decide (msg_role m = r_assistant) && json_truthy (msg_content m)
  end.
Definition cut_of (messages : list Message) (anchor_index : nat) (anchor : Message) : exn + nat :=
  if bool_decide (msg_role anchor = r_assistant) && negb (is_tool_row (msg_content anchor)) then
    inr match walk_back messages anchor_index with
        | 0 => 0
        | S j => match messages !! j with Some m => if bool_decide (msg_role m = r_user) then j else S j | None => S j end
        end
  else if bool_decide (msg_role anchor = r_user) && negb (is_tool_row (msg_content anchor)) then
    if answered (drop (S anchor_index) messages) then inl (ValueError "Turn anchor already has a reply") else inr anchor_index
  else inl (ValueError "Turn anchor is not a valid turn boundary").

(** [_sweep_skill_drafts]: of the names that are one path component. *)
Definition one_component (slug : string) : bool :=
  str_forall (λ c, negb (Nat.eqb (ord c) 47)) slug && negb (String.eqb slug "" || String.eqb slug "." || String.eqb slug "..").
Definition sweep_skill_drafts (project_id : string) (slugs : list string) : chat () :=
  p ← get_project project_id;
  match p with
  | Some p => if truthy (pj_path p) then call_outside (x_drafts_swept (pj_path p) (base.filter (λ s, one_component s = true) slugs)) else mret ()
  | None => mret ()
  end.

Definition delete_turn (conversation_id message_id : string) : chat nat :=
  conversation ← get_conversation conversation_id;
  messages ← gets (all_messages conversation_id);
  match list_find (λ m, msg_id m = message_id) messages with
  | None => raise (ValueError "Turn anchor not found")
  | Some (anchor_index, anchor) =>
      match cut_of messages anchor_index anchor with
      | inl e => raise e
      | inr cut_from =>
          let to_delete := drop cut_from messages in
          s ← gets id;
          let swept_slugs := remove_dups (omap skill_created_slug (map me_data (to_delete ≫= λ m, events_of (msg_id m) s))) in
          delete_messages (map msg_id to_delete);;
          (if Nat.eqb cut_from 0 then call_outside (x_task_objects conversation_id) else mret ());;
          (match swept_slugs with [] => mret () | _ => sweep_skill_drafts (cv_project conversation) swept_slugs end);;
          call_outside (x_streams_discarded conversation_id);;
          project ← get_project (cv_project conversation);
          call_outside (x_sessions_removed (pj_path <$> project) conversation_id);;
          mret (length to_delete)
      end
  end.

(** [stage_delete_conversation_row]; the file service stages its rows, or raises. *)
Record ConversationDeleteStage := { ds_conversation : string; ds_attachment_dirs : list string; ds_project_path : option string }.
Definition stage_delete_conversation_row (files : exn + list string) (conversation : Conversation) (include_org_attachments : bool) :
    chat ConversationDeleteStage :=
  let conversation_id := cv_id conversation in
  messages ← gets (all_messages conversation_id);
  delete_messages (map msg_id messages);;
  call_outside (x_task_objects conversation_id);;
  call_outside (x_attachments conversation_id include_org_attachments);;
  match files with
  | inl e => raise e
  | inr attachment_dirs =>
      call_outside (x_schedules_released conversation_id);;
      call_outside (x_channels_released conversation_id);;
      s ← gets id;
      let path := pj_path ∘ snd <$> list_find (λ p, pj_id p = cv_project conversation) (ch_projects s) in
      modify (λ s, s <| ch_conversations := base.filter (λ c, cv_id c ≠ conversation_id) (ch_conversations s) |>);;
      mret {| ds_conversation := conversation_id; ds_attachment_dirs := attachment_dirs; ds_project_path := path |}
  end.
(** [finalize_staged_conversation_delete]. *)
Definition finalize_staged_conversation_delete (stage : ConversationDeleteStage) (cleanup_project_files : bool) : chat () :=
  call_outside (x_streams_discarded (ds_conversation stage));;
  call_outside (x_files_unlinked (ds_attachment_dirs stage));;
  if cleanup_project_files : bool then
    call_outside (x_sessions_removed (ds_project_path stage) (ds_conversation stage));;
    call_outside (x_workspace_removed (ds_project_path stage) (ds_conversation stage))
  else mret ().
(** [delete_conversation] and [_delete_conversation], which rolls back. *)
Definition delete_conversation (files : exn + list string) (conversation_id : string) : chat bool :=
  c ← owned conversation_id;
  match c with
  | None => mret false
  | Some c =>
      before ← gets id;
      stage ← catch (stage_delete_conversation_row files c false) (λ e, Some (modify (λ _, before);; raise e));
      finalize_staged_conversation_delete stage true;;
      mret true
  end.

(** ** Reading *)

(** One item of the user's view. *)
Record MessageItem := {
  it_id : string; it_role : Role; it_content : json; it_created_at : Z; it_events : list json; it_harness : option string;
}.

Definition event_order (a b : MessageEvent) : bool :=
  match String.compare (me_message a) (me_message b) with
  | Lt => true
  | Gt => false
  | Eq => (me_sequence a <=? me_sequence b)%Z
  end.
Fixpoint chunks (fuel n : nat) (l : list string) : list (list string) :=
  match fuel, l with
  | S fuel, _ :: _ => take n l :: chunks fuel n (drop n l)
  | _, _ => []
  end.
(** [_hydrate_message_items]. *)
Definition append_event_of (acc : gmap string (list json)) (e : MessageEvent) : gmap string (list json) :=
  <[me_message e := default [] (acc !! me_message e) ++ [me_data e]]> acc.
Definition events_by_message (s : ChatDb) (visible_ids : list string) : gmap string (list json) :=
  foldl (λ acc chunk, foldl append_event_of acc (order_by event_order (base.filter (λ e, me_message e ∈ chunk) (ch_events s))))
    ∅ (chunks (length visible_ids) EVENTS_IN_CHUNK_SIZE visible_ids).
Definition item_of (events : list json) (m : Message) : MessageItem := {|
  it_id := msg_id m; it_role := msg_role m; it_content := msg_content m; it_created_at := msg_created_at m; it_events := events;
  it_harness := if truthy_opt (msg_harness m) then msg_harness m else None |}.
Definition visible_messages (messages : list Message) : list Message := base.filter (λ m, is_tool_row (msg_content m) = false) messages.
Definition hydrate_message_items (s : ChatDb) (messages : list Message) : list MessageItem :=
  let visible := visible_messages messages in
  let found := events_by_message s (map msg_id visible) in
  map (λ m, item_of (default [] (found !! msg_id m)) m) visible.

(** [get_messages]. *)
Definition get_messages (conversation_id : string) : chat (list MessageItem) :=
  get_conversation conversation_id;;
  s ← gets id;
  mret (hydrate_message_items s (all_messages conversation_id s)).

Record ConversationItemsPage := { pg_items : list MessageItem; pg_has_more : bool; pg_next_before : option string }.

(** The scan of the rows read: the visible ones, and how many were looked at. *)
Fixpoint scan_rows (limit scan_cap : nat) (raw : list Message) (visible : list Message) (consumed : nat) : list Message * nat :=
  match raw with
  | [] => (visible, consumed)
  | m :: raw =>
      if Nat.leb scan_cap consumed then (visible, consumed)
      else if is_tool_row (msg_content m) then scan_rows limit scan_cap raw visible (S consumed)
      else if Nat.eqb (length (visible ++ [m])) limit then (visible ++ [m], S consumed)
      else scan_rows limit scan_cap raw (visible ++ [m]) (S consumed)
  end.
(** [get_messages_page]. *)
Definition get_messages_page `{PyInt} (conversation_id : string) (limit : Z) (before : option string) : chat ConversationItemsPage :=
  get_conversation conversation_id;;
  raise_if (negb ((1 <=? limit)%Z && (limit <=? MAX_PAGE_LIMIT)%Z)) (InvalidPaginationParams "limit must be between 1 and 200");;
  cursor ← match before with
           | Some t => if truthy t then match decode_message_cursor t with inl e => raise e | inr k => mret (Some k) end else mret None
           | None => mret None
           end;
  s ← gets id;
  let rows := base.filter (λ m, match cursor with
      | Some k => (msg_seq m <=? k.1.1)%Z && key_lt (message_cursor_key m) k
      | None => true
      end = true) (messages_of conversation_id s) in
  let limit := Z.to_nat limit in
  let scan_cap := limit * Z.to_nat SCAN_CAP_MULTIPLIER in
  let raw := take (S scan_cap) (order_by newest_first rows) in
  let '(visible, consumed) := scan_rows limit scan_cap raw [] 0 in
  let has_more := if Nat.eqb (length visible) limit then Nat.ltb consumed (length raw) else Nat.ltb scan_cap (length raw) in
  mret {|
    pg_items := hydrate_message_items s (rev visible);
    pg_has_more := has_more;
    pg_next_before := if has_more && negb (Nat.eqb consumed 0) then encode_message_cursor <$> raw !! pred consumed else None |}.

End Service.
