(* ===== verification/ConversationOrder.v ===== *)
(** * The order of a conversation's messages.

    Every message gets the number after the last, so the order of insertion is the
    order every read gives; operations append behind, cut off a tail or change rows
    in place, and only in the conversation they are called for. *)
From stdpp Require Import base list gmap strings option relations.
From Stdlib Require Import ZArith Lia Sorting.Sorted.
From S2P Require Import Prelude JsonObject JsonText Uuid AnswerText Identity TenantScope ScopedSession Triples Base64 Conversations.

(** ** [ORDER BY] on rows that are in order *)

Section OrderBy.
Context {A : Type} (le : A → A → bool).

Lemma order_by_sorted l : StronglySorted (λ a b, le a b = true) l → order_by le l = l.
Proof.
  induction 1 as [|x l _ IH Hx]; [done|]. cbn [order_by foldr]. fold (order_by le l). rewrite IH. destruct l as [|y l]; [done|].
  cbn. inversion Hx as [|? ? Hy]; subst. by rewrite Hy.
Qed.

Lemma insert_by_last x l : Forall (λ y, le x y = false) l → insert_by le x l = l ++ [x].
Proof. induction 1 as [|y l Hy _ IH]; [done|]. cbn. by rewrite Hy, IH. Qed.

Lemma order_by_reversed l : StronglySorted (λ a b, le a b = false) l → order_by le l = rev l.
Proof.
  induction 1 as [|x l _ IH Hx]; [done|]. cbn [order_by foldr rev]. fold (order_by le l). rewrite IH.
  rewrite insert_by_last; [done|]. apply list.Forall_forall. intros y Hy%list_elem_of_In%in_rev%list_elem_of_In.
  rewrite list.Forall_forall in Hx. by apply Hx.
Qed.
Lemma elem_of_insert_by x y l : x ∈ insert_by le y l ↔ x = y ∨ x ∈ l.
Proof.
  induction l as [|z l IH]; cbn; [by rewrite elem_of_cons|]. destruct (le y z); rewrite !elem_of_cons; [done|]. rewrite IH. tauto.
Qed.
Lemma elem_of_order_by x l : x ∈ order_by le l ↔ x ∈ l.
Proof.
  induction l as [|y l IH]; [done|]. change (order_by le (y :: l)) with (insert_by le y (order_by le l)).
  by rewrite elem_of_insert_by, IH, elem_of_cons.
Qed.
End OrderBy.

Lemma sorted_impl {A} (R R' : A → A → Prop) l : (∀ a b, R a b → R' a b) → StronglySorted R l → StronglySorted R' l.
Proof. intros H. induction 1 as [|x l _ IH Hx]; constructor; [done|]. eapply list.Forall_impl; [exact Hx|]. intros y. apply H. Qed.

Lemma sorted_filter {A} (R : A → A → Prop) (P : A → Prop) `{∀ x, Decision (P x)} l :
  StronglySorted R l → StronglySorted R (base.filter P l).
Proof.
  induction 1 as [|x l _ IH Hx]; [constructor|]. rewrite list.filter_cons. destruct (decide (P x)); [|done]. constructor; [done|].
  apply list.Forall_forall. intros y [_ Hy]%list_elem_of_filter. rewrite list.Forall_forall in Hx. by apply Hx.
Qed.

Lemma sorted_app {A} (R : A → A → Prop) l k :
  StronglySorted R l → StronglySorted R k → (∀ x y, x ∈ l → y ∈ k → R x y) → StronglySorted R (l ++ k).
Proof.
  intros Hl Hk. induction Hl as [|x l _ IH Hx]; [done|]. intros H. cbn. constructor.
  - apply IH. intros a b Ha. apply H. by right.
  - apply list.Forall_app. split; [done|]. apply list.Forall_forall. intros y Hy. apply H; [by left|done].
Qed.

Lemma sorted_map {A B} (R : B → B → Prop) (f : A → B) l :
  StronglySorted (λ a b, R (f a) (f b)) l → StronglySorted R (map f l).
Proof.
  induction 1 as [|x l _ IH Hx]; cbn; [constructor|]. constructor; [done|]. apply list.Forall_forall.
  intros y (a & -> & Ha)%list_elem_of_fmap. rewrite list.Forall_forall in Hx. by apply Hx.
Qed.

(** ** Numbered tables *)

Definition earlier (a b : Message) : Prop := (msg_seq a < msg_seq b)%Z.

Lemma earlier_key a b : earlier a b → key_lt (message_cursor_key a) (message_cursor_key b) = true.
Proof. unfold earlier, key_lt, message_cursor_key. intros H. apply Z.ltb_lt in H. by rewrite H. Qed.
Lemma later_key a b : earlier a b → key_lt (message_cursor_key b) (message_cursor_key a) = false.
Proof.
  unfold earlier, key_lt, message_cursor_key. intros H. destruct (Z.ltb_spec (msg_seq b) (msg_seq a)); [lia|].
  destruct (Z.eqb_spec (msg_seq b) (msg_seq a)); [lia|done].
Qed.

Section Numbered.
Context (new_id : nat → string).

Record numbered (s : ChatDb) : Prop := {
  nb_sorted : ∀ c, StronglySorted earlier (messages_of c s);
  nb_low : ∀ m, m ∈ ch_messages s → (0 ≤ msg_seq m)%Z;
  nb_ids : NoDup (map msg_id (ch_messages s));
  nb_fresh : ∀ m n, m ∈ ch_messages s → ch_next s ≤ n → msg_id m ≠ new_id n;
  nb_events : ∀ e, e ∈ ch_events s → ∃ m, m ∈ ch_messages s ∧ msg_id m = me_message e;
}.

Lemma all_messages_rows c s : numbered s → all_messages c s = messages_of c s.
Proof.
  intros H. apply order_by_sorted. eapply sorted_impl; [|apply (nb_sorted s H)]. intros a b Hab. unfold message_order.
  by rewrite (later_key a b Hab).
Qed.

(** The newest first, of some of the rows. *)
Lemma newest_rows (P : Message → Prop) `{∀ m, Decision (P m)} c s :
  numbered s → order_by newest_first (base.filter P (messages_of c s)) = rev (base.filter P (messages_of c s)).
Proof.
  intros Hs. apply order_by_reversed, sorted_filter. eapply sorted_impl; [|apply (nb_sorted s Hs)]. intros a b Hab.
  unfold newest_first, message_order. by rewrite (earlier_key a b Hab).
Qed.

(** The number after the last. *)
Definition after_last (l : list Message) : Z := match list.last l with Some m => (msg_seq m + 1)%Z | None => 0%Z end.

Lemma next_seq_run c s : numbered s → next_seq c s = (s, inr (after_last (messages_of c s))).
Proof.
  intros H. unfold next_seq, mbind, eff_bind, gets, mret, eff_ret. do 2 f_equal. cbn [id].
  rewrite order_by_reversed.
  - unfold after_last. destruct (messages_of c s) as [|x l _] using rev_ind; [done|]. by rewrite rev_app_distr, last_snoc.
  - eapply sorted_impl; [|apply (nb_sorted s H)]. unfold earlier. intros a b Hab. apply Z.leb_gt. lia.
Qed.

Lemma after_last_above l : StronglySorted earlier l → (∀ m, m ∈ l → (0 ≤ msg_seq m)%Z) →
  (0 ≤ after_last l)%Z ∧ ∀ m, m ∈ l → (msg_seq m < after_last l)%Z.
Proof.
  unfold after_last. destruct l as [|x l _] using rev_ind; [intros _ _; split; [done|by intros m ?%not_elem_of_nil]|].
  rewrite last_snoc. intros Hs Hl. split; [pose proof (Hl x ltac:(apply elem_of_app; right; by left)); lia|].
  intros m [Hm| ->%list_elem_of_singleton]%elem_of_app; [|lia].
  induction l as [|y l IH]; [by apply not_elem_of_nil in Hm|]. cbn in Hs. inversion Hs as [|? ? Hs' Hy]; subst.
  apply elem_of_cons in Hm as [->|Hm].
  - rewrite list.Forall_forall in Hy. unfold earlier in Hy. specialize (Hy x). cbn in Hy.
    assert (msg_seq y < msg_seq x)%Z by (apply Hy, elem_of_app; right; by left). lia.
  - apply IH; [done|intros z Hz; apply Hl; by right|done].
Qed.
End Numbered.

(** ** Changes of the tables *)

Section Changes.
Context (new_id : nat → string) `{!Inj (=) (=) new_id}.
Implicit Types (s : ChatDb) (m : Message).

Lemma messages_of_app c s s' rows :
  ch_messages s' = ch_messages s ++ rows →
  messages_of c s' = messages_of c s ++ base.filter (λ m, msg_conversation m = c) rows.
Proof. unfold messages_of. intros ->. apply list.filter_app. Qed.

Lemma elem_messages_of c s m : m ∈ messages_of c s ↔ m ∈ ch_messages s ∧ msg_conversation m = c.
Proof. unfold messages_of. rewrite list_elem_of_filter. tauto. Qed.

(** New rows behind those of their conversation. *)
Record new_rows (c : string) (s : ChatDb) (next : nat) (rows : list Message) : Prop := {
  nr_of : Forall (λ m, msg_conversation m = c) rows;
  nr_sorted : StronglySorted earlier rows;
  nr_above : Forall (λ m, (after_last (messages_of c s) ≤ msg_seq m)%Z) rows;
  nr_ids : NoDup (map msg_id rows);
  nr_fresh : Forall (λ m, ∃ k, msg_id m = new_id k ∧ ch_next s ≤ k < next) rows;
}.

Lemma numbered_appended c s s' rows :
  numbered new_id s → new_rows c s (ch_next s') rows → ch_next s ≤ ch_next s' → ch_messages s' = ch_messages s ++ rows →
  (∀ e, e ∈ ch_events s' → e ∈ ch_events s ∨ ∃ m, m ∈ rows ∧ msg_id m = me_message e) → numbered new_id s'.
Proof.
  intros [H1 H2 H3 H4 H5] [R1 R2 R3 R4 R5] Hn Hm He. rewrite list.Forall_forall in R1, R3, R5.
  assert (Hlast := λ c, after_last_above (messages_of c s) (H1 c) (λ m Hc, H2 m (proj1 (proj1 (elem_messages_of c s m) Hc)))).
  split.
  - intros c'. rewrite (messages_of_app c' s s' rows Hm). apply sorted_app; [done|by apply sorted_filter|].
    intros x y Hx [Hc Hy]%list_elem_of_filter. pose proof (R1 y Hy). subst c'. subst c. unfold earlier.
    pose proof (proj2 (Hlast _) x Hx). pose proof (R3 y Hy). lia.
  - intros m. rewrite Hm. intros [Hin|Hin]%elem_of_app; [by apply H2|]. pose proof (R3 m Hin). pose proof (proj1 (Hlast c)). lia.
  - rewrite Hm, map_app. apply list.NoDup_app. split; [done|]. split; [|done].
    intros i (m & -> & Hin)%list_elem_of_fmap (m' & E & Hin')%list_elem_of_fmap.
    destruct (R5 m' Hin') as (k & Hk & Hr & _). rewrite Hk in E. by apply (H4 m k Hin Hr).
  - intros m n. rewrite Hm. intros [Hin|Hin]%elem_of_app Hge; [apply H4; [done|lia]|].
    destruct (R5 m Hin) as (k & -> & Hr). intros E%(inj new_id). lia.
  - intros e [Hin|(m & Hin & E)]%He.
    + destruct (H5 e Hin) as (m & Hin' & E). exists m. rewrite Hm. split; [|done]. apply elem_of_app. by left.
    + exists m. rewrite Hm. split; [|done]. apply elem_of_app. by right.
Qed.

(** Rows changed in place. *)
Definition same_place (m m' : Message) : Prop :=
  msg_id m' = msg_id m ∧ msg_conversation m' = msg_conversation m ∧ msg_role m' = msg_role m ∧ msg_seq m' = msg_seq m.

Lemma messages_of_map f c s s' :
  (∀ m, same_place m (f m)) → ch_messages s' = map f (ch_messages s) → messages_of c s' = map f (messages_of c s).
Proof.
  intros Hf. unfold messages_of. intros ->. induction (ch_messages s) as [|m l IH]; [done|]. cbn [map]. rewrite !list.filter_cons.
  destruct (Hf m) as (_ & E & _). destruct (decide (msg_conversation m = c)), (decide (msg_conversation (f m) = c)); try congruence.
  cbn. by rewrite IH.
Qed.

Lemma numbered_changed f s s' :
  (∀ m, same_place m (f m)) → numbered new_id s → ch_messages s' = map f (ch_messages s) → ch_next s ≤ ch_next s' →
  (∀ e, e ∈ ch_events s' → ∃ m, m ∈ ch_messages s ∧ msg_id m = me_message e) → numbered new_id s'.
Proof.
  intros Hf [H1 H2 H3 H4 H5] Hm Hn He.
  assert (Hid : ∀ m, msg_id (f m) = msg_id m) by (intros m; apply Hf). assert (Hseq : ∀ m, msg_seq (f m) = msg_seq m) by (intros m; apply Hf).
  split.
  - intros c. rewrite (messages_of_map f c s s' Hf Hm). apply sorted_map. eapply sorted_impl; [|apply H1]. unfold earlier. intros a b. by rewrite !Hseq.
  - intros m. rewrite Hm. intros (m0 & -> & Hin)%list_elem_of_fmap. rewrite Hseq. by apply H2.
  - rewrite Hm, map_map. rewrite (map_ext _ msg_id Hid). done.
  - intros m n. rewrite Hm. intros (m0 & -> & Hin)%list_elem_of_fmap Hge. rewrite Hid. apply H4; [done|lia].
  - intros e Hin. destruct (He e Hin) as (m & Hin' & E). exists (f m). rewrite Hm, Hid. split; [by apply list_elem_of_fmap_2|done].
Qed.

(** Rows removed. *)
Lemma numbered_removed (P : Message → Prop) `{∀ m, Decision (P m)} s s' :
  numbered new_id s → ch_messages s' = base.filter P (ch_messages s) → ch_next s ≤ ch_next s' →
  (∀ e, e ∈ ch_events s' → e ∈ ch_events s ∧ ∀ m, m ∈ ch_messages s → msg_id m = me_message e → P m) → numbered new_id s'.
Proof.
  intros [H1 H2 H3 H4 H5] Hm Hn He. split.
  - intros c. assert (messages_of c s' = base.filter P (messages_of c s)) as ->; [|by apply sorted_filter].
    unfold messages_of. rewrite Hm, !list.list_filter_filter. apply list.list_filter_iff. tauto.
  - intros m. rewrite Hm. intros [_ Hin]%list_elem_of_filter. by apply H2.
  - rewrite Hm. eapply list.sublist_NoDup; [exact H3|]. apply (fmap_sublist msg_id), list.sublist_filter.
  - intros m n. rewrite Hm. intros [_ Hin]%list_elem_of_filter Hge. apply H4; [done|lia].
  - intros e [Hin Hp]%He. destruct (H5 e Hin) as (m & Hin' & E). exists m. rewrite Hm. split; [|done].
    apply list_elem_of_filter. auto.
Qed.
End Changes.

(** ** Operations *)

Section Operations.
Context {SC : Schema} (scope : TenantScope) (new_id : nat → string) `{!Inj (=) (=) new_id}.
Implicit Types (s : ChatDb) (c : string).

Lemma owned_reads c s : ∃ r, owned scope c s = (s, r).
Proof.
  unfold owned, mbind, eff_bind, gets. cbn [id]. destruct (list_find _ _) as [[i v]|].
  - destruct (of_scope _ _ _); eexists; reflexivity.
  - destruct (of_scope _ _ _); eexists; reflexivity.
Qed.

Lemma get_conversation_reads c s :
  (∃ v, get_conversation scope c s = (s, inr v) ∧ owned scope c s = (s, inr (Some v))) ∨ ∃ e, get_conversation scope c s = (s, inl e).
Proof.
  unfold get_conversation, mbind, eff_bind. destruct (owned_reads c s) as [r ->]. destruct r as [e|[v|]]; eauto.
Qed.

Lemma get_project_reads p s : ∃ r, get_project scope p s = (s, r).
Proof.
  unfold get_project, mbind, eff_bind, gets. cbn [id]. destruct (list_find _ _) as [[i v]|].
  - destruct (of_scope _ _ _); eexists; reflexivity.
  - destruct (of_scope _ _ _); eexists; reflexivity.
Qed.

(** *** Appending *)

Lemma save_user_run c content at_ pending s :
  numbered new_id s →
  let m := {| msg_id := new_id (ch_next s); msg_conversation := c; msg_role := r_user; msg_content := content; msg_harness := None;
              msg_seq := after_last (messages_of c s); msg_pending := pending; msg_created_at := default (ch_now s) at_ |} in
  save_user_message new_id c content at_ pending s = (s <| ch_next := S (ch_next s) |> <| ch_messages := ch_messages s ++ [m] |>, inr m).
Proof.
  intros Hs m. unfold save_user_message. rewrite (run_bind _ _ s (s <| ch_next := S (ch_next s) |>) (new_id (ch_next s))) by done.
  assert (Hseq : next_seq c (s <| ch_next := S (ch_next s) |>) = (s <| ch_next := S (ch_next s) |>, inr (after_last (messages_of c s)))).
  { unfold next_seq, mbind, eff_bind, gets, mret, eff_ret. do 2 f_equal. pose proof (next_seq_run new_id c s Hs) as H.
    injection H as H. exact H. }
  by rewrite (run_bind _ _ _ _ _ Hseq).
Qed.

Lemma fresh_ids_run (tools : list (Role * json)) : ∀ s,
  map_each (λ row, i ← fresh_id new_id; mret (row, i)) tools s =
  (s <| ch_next := ch_next s + length tools |>, inr (imap (λ k row, (row, new_id (ch_next s + k))) tools)).
Proof.
  induction tools as [|row tools IH]; intros s.
  { cbn. rewrite Nat.add_0_r. by destruct s. }
  cbn [map_each]. rewrite (run_bind _ _ s (s <| ch_next := S (ch_next s) |>) (row, new_id (ch_next s))) by done.
  rewrite (run_bind _ _ _ _ _ (IH _)). cbn [imap length]. unfold mret, eff_ret. f_equal.
  - change (s <| ch_next := S (ch_next s) + length tools |> = s <| ch_next := ch_next s + S (length tools) |>). by rewrite Nat.add_succ_r.
  - f_equal. f_equal; [by rewrite Nat.add_0_r|]. apply imap_ext. intros k x _. cbn. by rewrite Nat.add_succ_r.
Qed.

(** The rows of a turn: what the tools left, then the answer. *)
Definition rows_of_turn (c text : string) (harness : option string) (tools : list (Role * json)) (s : ChatDb) : list Message :=
  turn_rows c harness (ch_now s) (after_last (messages_of c s))
    (imap (λ k row, (row, new_id (S (ch_next s) + k))) tools ++ [(r_assistant, JStr text, new_id (ch_next s))]).
Definition events_of_turn (assistant : string) (events : list event) : list MessageEvent :=
  imap (λ n e, {| me_message := assistant; me_sequence := Z.of_nat n; me_data := JObj e |}) (coalesce_text_deltas events).

Definition slugs_of (events : list event) : list string := omap skill_created_slug (map JObj events).
Definition superseded (ids : list string) (keep : string) (slugs : list string) (e : MessageEvent) : Prop :=
  me_message e ∈ ids ∧ me_message e ≠ keep ∧ skill_created_slug (me_data e) ∈ Some <$> slugs.
#[export] Instance superseded_dec ids keep slugs e : Decision (superseded ids keep slugs e).
Proof. unfold superseded. apply _. Defined.

Lemma save_turn_run c text events harness tools s v :
  numbered new_id s → get_conversation scope c s = (s, inr v) →
  negb (truthy text) && bool_decide (events = []) && bool_decide (tools = []) = false →
  let rows := rows_of_turn c text harness tools s in
  let a := new_id (ch_next s) in
  let s' := s <| ch_next := S (ch_next s) + length tools |> <| ch_messages := ch_messages s ++ rows |>
              <| ch_events := ch_events s ++ events_of_turn a events |> in
  save_assistant_turn scope new_id c text events harness tools s =
    (s' <| ch_events := base.filter (λ e, ¬ superseded (map msg_id (messages_of c s')) a (slugs_of events) e) (ch_events s') |>, inr (Some a)).
Proof.
  intros Hs Hc Hne rows a s'. unfold save_assistant_turn. rewrite Hne. rewrite (run_bind _ _ _ _ _ Hc).
  rewrite (run_bind _ _ s (s <| ch_next := S (ch_next s) |>) a) by done. rewrite (run_bind _ _ _ _ _ (fresh_ids_run tools _)).
  set (s1 := s <| ch_next := S (ch_next s) |> <| ch_next := _ |>).
  assert (Hseq : next_seq c s1 = (s1, inr (after_last (messages_of c s)))).
  { unfold next_seq, mbind, eff_bind, gets, mret, eff_ret. do 2 f_equal. pose proof (next_seq_run new_id c s Hs) as H.
    injection H as H. exact H. }
  rewrite (run_bind _ _ _ _ _ Hseq). rewrite (run_bind _ _ s1 s1 (ch_now s)) by done.
  rewrite (run_bind _ _ s1 (s1 <| ch_messages := ch_messages s ++ rows |>) ()) by done.
  rewrite (run_bind _ _ _ s' ()) by done.
  unfold slugs_of. destruct (omap skill_created_slug (map JObj events)) as [|slug slugs] eqn:E.
  - rewrite (run_bind _ _ s' s' ()) by done. unfold mret, eff_ret. f_equal. unfold superseded.
    rewrite (filter_every _ (ch_events s')); [by destruct s|].
    apply list.Forall_forall. intros e _ (_ & _ & H). by apply not_elem_of_nil in H.
  - done.
Qed.

(** *** The rows of a turn are new rows *)

Lemma sorted_imap {A B} (R : B → B → Prop) (l : list A) : ∀ f : nat → A → B,
  (∀ i j x y, i < j → R (f i x) (f j y)) → StronglySorted R (imap f l).
Proof.
  induction l as [|x l IH]; intros f H; [constructor|]. rewrite imap_cons. constructor.
  - apply IH. intros i j a b Hij. apply H. lia.
  - apply list.Forall_forall. intros y (k & a & -> & _)%elem_of_lookup_imap_1. apply H. lia.
Qed.

Lemma elem_of_turn_rows c harness now base rows m :
  m ∈ turn_rows c harness now base rows → ∃ k, k < length rows ∧ msg_conversation m = c ∧ msg_seq m = (base + Z.of_nat k)%Z.
Proof.
  unfold turn_rows. intros (k & [[role content] i] & -> & Hk)%elem_of_lookup_imap_1. exists k.
  split; [by apply lookup_lt_Some in Hk|done].
Qed.

Lemma ids_of_turn_rows c harness now base rows : map msg_id (turn_rows c harness now base rows) = map snd rows.
Proof.
  unfold turn_rows. change (map msg_id) with (fmap (M:=list) msg_id). rewrite fmap_imap. revert base.
  assert (H : ∀ f : nat → Role * json * string → string, (∀ k x, f k x = x.2) → imap f rows = map snd rows).
  { induction rows as [|x rows IH]; intros f Hf; [done|]. rewrite imap_cons, Hf. cbn. f_equal. apply IH. intros k y. apply Hf. }
  intros base. apply H. by intros k [[role content] i].
Qed.

Lemma turn_ids (tools : list (Role * json)) n a :
  map snd (imap (λ k row, (row, new_id (n + k))) tools ++ [(r_assistant, a, new_id (pred n))] : list (Role * json * string)) =
  map new_id (seq n (length tools)) ++ [new_id (pred n)].
Proof.
  rewrite map_app. f_equal. generalize (pred n). intros _. revert n. induction tools as [|x tools IH]; intros n; [done|].
  rewrite imap_cons. cbn. rewrite Nat.add_0_r. f_equal. rewrite <-(IH (S n)). f_equal. apply imap_ext. intros k y _. cbn. by rewrite Nat.add_succ_r.
Qed.

Lemma turn_rows_new c text harness tools s :
  numbered new_id s → new_rows new_id c s (S (ch_next s) + length tools) (rows_of_turn c text harness tools s).
Proof.
  intros Hs. unfold rows_of_turn. set (rows := imap _ tools ++ _).
  assert (Hids : map msg_id (turn_rows c harness (ch_now s) (after_last (messages_of c s)) rows) =
                 map new_id (seq (S (ch_next s)) (length tools)) ++ [new_id (ch_next s)]).
  { rewrite ids_of_turn_rows. apply (turn_ids tools (S (ch_next s))). }
  split.
  - apply list.Forall_forall. intros m Hm. by destruct (elem_of_turn_rows _ _ _ _ _ _ Hm) as (k & _ & ? & _).
  - apply sorted_imap. intros i j [[? ?] ?] [[? ?] ?] Hij. unfold earlier. cbn. lia.
  - apply list.Forall_forall. intros m Hm. destruct (elem_of_turn_rows _ _ _ _ _ _ Hm) as (k & _ & _ & ->). lia.
  - rewrite Hids. apply list.NoDup_app. split; [apply (NoDup_fmap_2 new_id), NoDup_seq|]. split; [|apply list.NoDup_singleton].
    intros i (k & -> & Hk%elem_of_seq)%list_elem_of_fmap E%list_elem_of_singleton. apply (inj new_id) in E. lia.
  - apply list.Forall_forall. intros m Hm. assert (Hi : msg_id m ∈ map new_id (seq (S (ch_next s)) (length tools)) ++ [new_id (ch_next s)]).
    { rewrite <-Hids. by apply list_elem_of_fmap_2. }
    apply elem_of_app in Hi as [(k & E & Hk%elem_of_seq)%list_elem_of_fmap|E%list_elem_of_singleton]; eexists; (split; [exact E|lia]).
Qed.

Lemma user_row_new c content at_ pending s :
  new_rows new_id c s (S (ch_next s))
    [{| msg_id := new_id (ch_next s); msg_conversation := c; msg_role := r_user; msg_content := content; msg_harness := None;
        msg_seq := after_last (messages_of c s); msg_pending := pending; msg_created_at := at_ |}].
Proof.
  split; [by repeat constructor|by repeat constructor|constructor; [cbn; lia|constructor]|apply list.NoDup_singleton|].
  constructor; [|constructor]. exists (ch_next s). split; [done|lia].
Qed.

End Operations.
