(* ===== verification/ConversationLog.v ===== *)
(** * A conversation as a log.

    What a user sees and a model is given is a log of entries per conversation.
    Every operation of the service is one step of that log: entries are added
    behind, a tail is cut off, or entries change in place; and no operation touches
    another conversation. *)
From stdpp Require Import base list gmap strings option relations pretty.
From Stdlib Require Import ZArith Lia Sorting.Sorted.
From S2P Require Import Prelude JsonObject JsonText Uuid AnswerText Identity TenantScope ScopedSession Triples Base64 Conversations ConversationOrder.

(** ** The log *)

Record Entry := { en_id : string; en_role : Role; en_content : json; en_pending : bool }.

Definition entry (m : Message) : Entry :=
  {| en_id := msg_id m; en_role := msg_role m; en_content := msg_content m; en_pending := msg_pending m |}.
Definition history (c : string) (s : ChatDb) : list Entry := map entry (all_messages c s).

Inductive ChatOp :=
  | op_user (c : string) (content : json) (created_at : option Z) (pending : bool)
  | op_turn (c text : string) (events : list event) (harness : option string) (tools : list (Role * json))
  | op_finalize (c : string) (message_id : option string)
  | op_repair (c : string)
  | op_recover (c : string) (turn_id : nat) (text : string) (terminal : event)
  | op_delete_turn (c message_id : string)
  | op_delete (files : exn + list string) (c : string)
  | op_create (default_project topic : string) (project conversation_id harness model effort : option string)
  | op_update (c : string) (topic project : option string)
  | op_compact (c summary cutoff : string).

Definition settled (i : option string) (e : Entry) : Entry :=
  match i with
  | Some i => if String.eqb (en_id e) i then {| en_id := en_id e; en_role := en_role e; en_content := en_content e; en_pending := false |} else e
  | None => {| en_id := en_id e; en_role := en_role e; en_content := en_content e; en_pending := false |}
  end.
Definition stripped (e : Entry) : Entry :=
  {| en_id := en_id e; en_role := en_role e; en_content := (strip_image_blocks (en_content e)).1; en_pending := en_pending e |}.
Definition shown (role : Role) (content : json) (e : Entry) : Prop := en_role e = role ∧ en_content e = content ∧ en_pending e = false.

(** One step of the log of the conversation. *)
Definition log_step (op : ChatOp) (before after : list Entry) : Prop :=
  match op with
  | op_user _ content _ pending => ∃ i, after = before ++ [{| en_id := i; en_role := r_user; en_content := content; en_pending := pending |}]
  | op_turn _ text _ _ tools =>
      after = before ∨
      ∃ rows answer, after = before ++ rows ++ [answer] ∧ Forall2 (λ t e, shown t.1 t.2 e) tools rows ∧ shown r_assistant (JStr text) answer
  | op_finalize _ i => after = map (settled i) before
  | op_repair _ => after = before ∨ after = map stripped before
  | op_recover _ _ text _ =>
      after = before ∨ ∃ i, after = map (settled (Some i)) before ∨
        ∃ answer, after = map (settled (Some i)) before ++ [answer] ∧ shown r_assistant (JStr text) answer
  | op_delete_turn _ _ => ∃ k, after = take k before
  | op_delete _ _ => after = before ∨ after = []
  | op_create _ _ _ _ _ _ _ | op_update _ _ _ | op_compact _ _ _ => after = before
  end.

(** Nothing of another conversation changes. *)
Record frame (c : string) (s s' : ChatDb) : Prop := {
  fr_messages : ∀ c', c' ≠ c → messages_of c' s' = messages_of c' s;
  fr_events : ∀ m, m ∈ ch_messages s → msg_conversation m ≠ c → events_of (msg_id m) s' = events_of (msg_id m) s;
  fr_conversations : base.filter (λ v, cv_id v ≠ c) (ch_conversations s') = base.filter (λ v, cv_id v ≠ c) (ch_conversations s);
}.

Section Log.
Context {SC : Schema} (scope : TenantScope) (new_id : nat → string) `{!Inj (=) (=) new_id}.
Implicit Types (s : ChatDb) (c : string).

Definition run_op (op : ChatOp) : chat () :=
  match op with
  | op_user c content at_ pending => _ ← save_user_message new_id c content at_ pending; mret ()
  | op_turn c text events harness tools => _ ← save_assistant_turn scope new_id c text events harness tools; mret ()
  | op_finalize c i => finalize_pending c i
  | op_repair c => _ ← repair_image_content scope c; mret ()
  | op_recover c turn text terminal => _ ← recover_interrupted_turn scope new_id c turn text terminal; mret ()
  | op_delete_turn c i => _ ← delete_turn scope c i; mret ()
  | op_delete files c => _ ← delete_conversation scope files c; mret ()
  | op_create d topic p c h m e => _ ← create_conversation scope new_id d topic p c h m e; mret ()
  | op_update c topic p => _ ← update_conversation scope c topic p; mret ()
  | op_compact c summary cutoff => update_history_compaction scope c summary cutoff
  end.
Definition target (s : ChatDb) (op : ChatOp) : string :=
  match op with
  | op_user c _ _ _ | op_turn c _ _ _ _ | op_finalize c _ | op_repair c | op_recover c _ _ _ | op_delete_turn c _ | op_delete _ c
  | op_update c _ _ | op_compact c _ _ => c
  | op_create _ _ _ c _ _ _ => default (new_id (ch_next s)) c
  end.

(** What every operation does. *)
Record stepped (op : ChatOp) (c : string) (s s' : ChatDb) : Prop := {
  sp_numbered : numbered new_id s';
  sp_frame : frame c s s';
  sp_log : log_step op (history c s) (history c s');
}.

(** *** Frames *)

Lemma messages_same_id s m m' :
  numbered new_id s → m ∈ ch_messages s → m' ∈ ch_messages s → msg_id m = msg_id m' → m = m'.
Proof.
  intros H. pose proof (nb_ids _ _ H) as Hnd. induction (ch_messages s) as [|x l IH]; [by intros ?%not_elem_of_nil|].
  cbn in Hnd. apply list.NoDup_cons in Hnd as [Hx Hnd]. intros [->|Hm]%elem_of_cons [->|Hm']%elem_of_cons E; [done| | |by apply IH].
  - destruct Hx. rewrite E. by apply list_elem_of_fmap_2.
  - destruct Hx. rewrite <-E. by apply list_elem_of_fmap_2.
Qed.

(** The events of a message that a change leaves alone. *)
Lemma events_kept (P : MessageEvent → Prop) `{∀ e, Decision (P e)} s s' i new :
  ch_events s' = base.filter P (ch_events s ++ new) → (∀ e, me_message e = i → P e) → (∀ e, e ∈ new → me_message e ≠ i) →
  events_of i s' = events_of i s.
Proof.
  intros He Hp Hn. unfold events_of. rewrite He, list.list_filter_filter.
  rewrite (list.list_filter_iff _ (λ e, me_message e = i)) by (intros e; naive_solver).
  rewrite list.filter_app, (filter_none _ new), app_nil_r; [done|]. apply list.Forall_forall. exact Hn.
Qed.

Lemma frame_refl c s s' :
  ch_messages s' = ch_messages s → ch_events s' = ch_events s →
  base.filter (λ v, cv_id v ≠ c) (ch_conversations s') = base.filter (λ v, cv_id v ≠ c) (ch_conversations s) → frame c s s'.
Proof. intros Hm He Hc. split; [|unfold events_of; by rewrite He|done]. unfold messages_of. by rewrite Hm. Qed.

Lemma history_rows c s : numbered new_id s → history c s = map entry (messages_of c s).
Proof. intros H. unfold history. by rewrite (all_messages_rows new_id c s H). Qed.

(** Nothing but the conversation rows, the ids and the calls outside. *)
Lemma quiet_step op c s s' :
  numbered new_id s → ch_messages s' = ch_messages s → ch_events s' = ch_events s → ch_next s ≤ ch_next s' →
  base.filter (λ v, cv_id v ≠ c) (ch_conversations s') = base.filter (λ v, cv_id v ≠ c) (ch_conversations s) →
  log_step op (history c s) (history c s) → stepped op c s s'.
Proof.
  intros Hs Hm He Hn Hc Hl. split.
  - apply (numbered_changed new_id id s); [by intros m|done|by rewrite Hm, map_id|done|]. rewrite He. apply (nb_events _ _ Hs).
  - by apply frame_refl.
  - assert (history c s' = history c s) as ->; [|done]. unfold history, all_messages, messages_of. by rewrite Hm.
Qed.

(** Rows changed in place, in one conversation, perhaps with new events there. *)
Lemma change_step op c s s' f new :
  numbered new_id s → (∀ m, same_place m (f m)) → (∀ m, m ∈ ch_messages s → msg_conversation m ≠ c → f m = m) →
  ch_messages s' = map f (ch_messages s) → ch_events s' = ch_events s ++ new →
  (∀ e, e ∈ new → me_message e ∈ map msg_id (messages_of c s)) → ch_conversations s' = ch_conversations s → ch_next s ≤ ch_next s' →
  log_step op (history c s) (map entry (map f (messages_of c s))) → stepped op c s s'.
Proof.
  intros Hs Hf Hother Hm He Hnew Hc Hn Hl.
  assert (Hev : ∀ e, e ∈ new → ∃ m, m ∈ messages_of c s ∧ msg_id m = me_message e).
  { intros e (m & E & Hin)%Hnew%list_elem_of_fmap. eauto. }
  assert (Hs' : numbered new_id s').
  { apply (numbered_changed new_id f s); [done|done|done|done|]. intros e. rewrite He. intros [Hin|Hin]%elem_of_app; [by apply (nb_events _ _ Hs)|].
    destruct (Hev e Hin) as (m & [Hin' _]%elem_messages_of & E). eauto. }
  split; [done| |].
  - split; [|intros m Hin Hmc|by rewrite Hc].
    + intros c' Hne. rewrite (messages_of_map f c' s s' Hf Hm).
      rewrite (map_ext_in f id), map_id; [done|]. intros m [Hin E]%list_elem_of_In%elem_messages_of. cbn. apply (Hother m Hin). by rewrite E.
    + apply (events_kept (λ _, True) s s' (msg_id m) new); [rewrite He, filter_every; [done|by apply list.Forall_forall]|done|].
      intros e He' E. destruct (Hev e He') as (m' & [Hin' Hc']%elem_messages_of & E'). rewrite E in E'.
      by rewrite (messages_same_id s m' m Hs Hin' Hin E') in Hc'.
  - rewrite (history_rows c s' Hs'), (messages_of_map f c s s' Hf Hm). done.
Qed.

(** Rows behind the others. *)
Lemma append_step op c s s' rows new (P : MessageEvent → Prop) `{∀ e, Decision (P e)} :
  numbered new_id s → new_rows new_id c s (ch_next s') rows → ch_next s ≤ ch_next s' → ch_messages s' = ch_messages s ++ rows →
  ch_events s' = base.filter P (ch_events s ++ new) → (∀ e, e ∈ new → me_message e ∈ map msg_id rows) →
  (∀ e, me_message e ∉ map msg_id (messages_of c s') → P e) → ch_conversations s' = ch_conversations s →
  log_step op (history c s) (history c s ++ map entry rows) → stepped op c s s'.
Proof.
  intros Hs Hr Hn Hm He Hnew HP Hc Hl. assert (Hs' : numbered new_id s').
  { apply (numbered_appended new_id c s s' rows); [done|done|done|done|]. intros e. rewrite He. intros [_ [Hin|Hin]%elem_of_app]%list_elem_of_filter; [by left|].
    right. pose proof (Hnew e Hin) as (m & E & Hm')%list_elem_of_fmap. by exists m. }
  assert (Hof : ∀ c', messages_of c' s' = messages_of c' s ++ base.filter (λ m, msg_conversation m = c') rows).
  { intros c'. by apply messages_of_app. }
  pose proof (nr_of _ _ _ _ _ Hr) as Hrc. split; [done| |].
  - split; [|intros m Hin Hmc|by rewrite Hc].
    + intros c' Hne. rewrite Hof, (filter_none _ rows), app_nil_r; [done|]. eapply list.Forall_impl; [exact Hrc|]. cbn. congruence.
    + assert (Hin' : m ∈ ch_messages s') by (rewrite Hm; apply elem_of_app; by left).
      apply (events_kept P s s' (msg_id m) new He).
      * intros e E. apply HP. rewrite E. intros (m' & E' & [Hm' Hc']%elem_messages_of)%list_elem_of_fmap.
        by rewrite (messages_same_id s' m m' Hs' Hin' Hm' E') in Hmc.
      * intros e Hin0 E. pose proof (Hnew e Hin0) as (m' & E' & Hm')%list_elem_of_fmap. rewrite E in E'.
        assert (Hm0 : m' ∈ ch_messages s') by (rewrite Hm; apply elem_of_app; by right).
        rewrite (messages_same_id s' m m' Hs' Hin' Hm0 E') in Hmc. rewrite list.Forall_forall in Hrc. by apply Hmc, Hrc.
  - rewrite (history_rows c s' Hs'), Hof, map_app, <-(history_rows c s Hs), (filter_every _ rows Hrc). done.
Qed.

(** A tail removed. *)
Lemma filter_tail k (l : list Message) : NoDup (map msg_id l) → base.filter (λ m, msg_id m ∉ map msg_id (drop k l)) l = take k l.
Proof.
  intros Hnd. rewrite <-(take_drop k l) in Hnd. rewrite map_app in Hnd. apply list.NoDup_app in Hnd as (_ & Hd & _).
  transitivity (base.filter (λ m, msg_id m ∉ map msg_id (drop k l)) (take k l ++ drop k l)); [by rewrite take_drop|]. rewrite list.filter_app, filter_every, filter_none, app_nil_r; [done| |].
  - apply list.Forall_forall. intros m Hm Hni. apply Hni. by apply list_elem_of_fmap_2.
  - apply list.Forall_forall. intros m Hm. apply Hd. by apply list_elem_of_fmap_2.
Qed.

Lemma ids_of_nodup c s : numbered new_id s → NoDup (map msg_id (messages_of c s)).
Proof.
  intros H. eapply list.sublist_NoDup; [apply (nb_ids _ _ H)|]. apply (fmap_sublist msg_id), list.sublist_filter.
Qed.

Lemma delete_step op c s s' k :
  numbered new_id s → let ids := map msg_id (drop k (messages_of c s)) in
  ch_messages s' = base.filter (λ m, msg_id m ∉ ids) (ch_messages s) → ch_events s' = base.filter (λ e, me_message e ∉ ids) (ch_events s) →
  ch_next s' = ch_next s →
  base.filter (λ v, cv_id v ≠ c) (ch_conversations s') = base.filter (λ v, cv_id v ≠ c) (ch_conversations s) →
  log_step op (history c s) (take k (history c s)) → stepped op c s s'.
Proof.
  intros Hs ids Hm He Hn Hc Hl. assert (Hs' : numbered new_id s').
  { apply (numbered_removed new_id (λ m, msg_id m ∉ ids) s); [done|done|lia|]. intros e. rewrite He. intros [Hni Hin]%list_elem_of_filter.
    split; [done|]. intros m _ E. by rewrite E. }
  assert (Hof : ∀ c', messages_of c' s' = base.filter (λ m, msg_id m ∉ ids) (messages_of c' s)).
  { intros c'. unfold messages_of. rewrite Hm, !list.list_filter_filter. apply list.list_filter_iff. tauto. }
  assert (Hids : ∀ m, m ∈ ch_messages s → msg_id m ∈ ids → msg_conversation m = c).
  { intros m Hin (m' & E & Hm')%list_elem_of_fmap. assert (Hd : m' ∈ messages_of c s).
    { rewrite <-(take_drop k (messages_of c s)). apply elem_of_app. by right. }
    apply elem_messages_of in Hd as [Hd <-]. by rewrite (messages_same_id s m m' Hs Hin Hd E). }
  split; [done| |].
  - split; [| |done].
    + intros c' Hne. rewrite Hof. apply filter_every, list.Forall_forall. intros m [Hin E]%elem_messages_of Hni. destruct Hne.
      rewrite <-E. by apply Hids.
    + intros m Hin Hmc. apply (events_kept (λ e, me_message e ∉ ids) s s' (msg_id m) []); [by rewrite app_nil_r| |by intros e ?%not_elem_of_nil].
      intros e -> Hni. by apply Hmc, Hids.
  - rewrite (history_rows c s' Hs'), Hof. unfold ids. rewrite (filter_tail k _ (ids_of_nodup c s Hs)).
    change (map entry) with (fmap (M:=list) entry). rewrite fmap_take. change (fmap (M:=list) entry) with (map entry).
    by rewrite <-(history_rows c s Hs).
Qed.

Lemma frame_trans c s1 s2 s3 : frame c s1 s2 → frame c s2 s3 → frame c s1 s3.
Proof.
  intros [A1 A2 A3] [B1 B2 B3]. split; [| |by rewrite B3, A3].
  - intros c' Hne. by rewrite B1, A1.
  - intros m Hin Hmc. rewrite <-A2 by done. apply B2; [|done].
    assert (Hm : m ∈ messages_of (msg_conversation m) s2) by (rewrite A1 by done; by apply elem_messages_of). by apply elem_messages_of in Hm as [? _].
Qed.

Lemma owned_same c s s1 r :
  ch_conversations s1 = ch_conversations s → owned scope c s = (s, r) → owned scope c s1 = (s1, r).
Proof.
  intros E. unfold owned, mbind, eff_bind, gets. cbn [id]. rewrite E. destruct (list_find _ _) as [[i v]|].
  - destruct (of_scope _ _ _); by intros [= <-].
  - destruct (of_scope _ _ _); by intros [= <-].
Qed.
Lemma get_conversation_same c s s1 v :
  ch_conversations s1 = ch_conversations s → get_conversation scope c s = (s, inr v) → get_conversation scope c s1 = (s1, inr v).
Proof.
  intros E. unfold get_conversation, mbind, eff_bind. destruct (owned_reads scope c s) as [r Hr]. rewrite Hr.
  rewrite (owned_same c s s1 r E Hr). destruct r as [e|[v'|]]; by intros [= <-].
Qed.
Lemma owned_id c s v : owned scope c s = (s, inr (Some v)) → cv_id v = c.
Proof.
  unfold owned, mbind, eff_bind, gets. cbn [id]. destruct (list_find _ _) as [[i w]|] eqn:F.
  - apply list_find_Some in F as (_ & E & _). destruct (of_scope _ _ _) as [|b]; [done|]. destruct (b && own_row scope w); [|done].
    by intros [= <-].
  - by destruct (of_scope _ _ _).
Qed.

(** *** The operations *)

Lemma user_step c content at_ pending s : numbered new_id s → stepped (op_user c content at_ pending) c s (run_op (op_user c content at_ pending) s).1.
Proof.
  intros Hs. unfold run_op. rewrite (run_bind _ _ _ _ _ (save_user_run new_id c content at_ pending s Hs)). cbn [fst mret eff_ret].
  eapply (append_step _ c s _ _ [] (λ _, True));
    [done|exact (user_row_new new_id c content (default (ch_now s) at_) pending s)|cbn; lia|reflexivity| |by intros e ?%not_elem_of_nil|done|done|].
  - cbn. rewrite app_nil_r. symmetry. apply filter_every. by apply list.Forall_forall.
  - eexists. reflexivity.
Qed.

Lemma turn_rows_shown c harness now rows : ∀ base : Z,
  Forall2 (λ t e, shown t.1 t.2 e) (map fst rows) (map entry (turn_rows c harness now base rows)).
Proof.
  unfold turn_rows. induction rows as [|[[role content] i] rows IH]; intros base; [constructor|]. rewrite imap_cons. cbn. constructor; [done|].
  rewrite (imap_ext _ (λ offset '(role, content, i), {| msg_id := i; msg_conversation := c; msg_role := role; msg_content := content; msg_harness := harness;
    msg_seq := (base + 1) + Z.of_nat offset; msg_pending := false; msg_created_at := now |})); [apply IH|].
  intros k [[r x] j] _. cbn. f_equal. lia.
Qed.

Lemma turn_log c text harness tools s :
  ∃ rows answer, map entry (rows_of_turn new_id c text harness tools s) = rows ++ [answer] ∧
    Forall2 (λ t e, shown t.1 t.2 e) tools rows ∧ shown r_assistant (JStr text) answer.
Proof.
  unfold rows_of_turn. set (ts := imap _ tools). assert (Ht : map fst ts = tools).
  { unfold ts. change (map fst) with (fmap (M:=list) (fst (A:=Role * json) (B:=string))). rewrite fmap_imap.
    generalize (S (ch_next s)). clear. induction tools as [|x tools IH]; intros n; [done|]. rewrite imap_cons. cbn. f_equal.
    rewrite <-(IH (S n)) at 2. apply imap_ext. intros k y _. done. }
  pose proof (turn_rows_shown c harness (ch_now s) (ts ++ [(r_assistant, JStr text, new_id (ch_next s))]) (after_last (messages_of c s))) as H.
  rewrite map_app, Ht in H. apply Forall2_app_inv_l in H as (rows & answers & H1 & H2 & ->). cbn in H2.
  apply Forall2_cons_inv_l in H2 as (answer & nil & H2 & ->%Forall2_nil_inv_l & ->). by exists rows, answer.
Qed.

Lemma turn_step c text events harness tools s :
  numbered new_id s → stepped (op_turn c text events harness tools) c s (run_op (op_turn c text events harness tools) s).1.
Proof.
  intros Hs. unfold run_op, mbind, eff_bind.
  destruct (negb (truthy text) && bool_decide (events = []) && bool_decide (tools = [])) eqn:Hne.
  { unfold save_assistant_turn. rewrite Hne. apply quiet_step; [done..|by left]. }
  destruct (get_conversation_reads scope c s) as [(v & Hc & _)|[e Hc]].
  - rewrite (save_turn_run scope new_id c text events harness tools s v Hs Hc Hne). set (s' := s <| ch_next := _ |> <| ch_messages := _ |> <| ch_events := _ |>).
    cbn [fst mret eff_ret].
    eapply (append_step _ c s _ _ (events_of_turn (new_id (ch_next s)) events)
      (λ e, ¬ superseded (map msg_id (messages_of c s')) (new_id (ch_next s)) (slugs_of events) e));
      [done|exact (turn_rows_new new_id c text harness tools s Hs)|cbn; lia|reflexivity|reflexivity| | |done|].
    + intros e (k & d & -> & _)%elem_of_lookup_imap_1. cbn. unfold rows_of_turn. rewrite ids_of_turn_rows, map_app.
      apply elem_of_app. right. by left.
    + intros e Hni [Hin _]. by apply Hni.
    + right. destruct (turn_log c text harness tools s) as (rows & answer & -> & H1 & H2). by exists rows, answer.
  - unfold save_assistant_turn. rewrite Hne. unfold mbind, eff_bind. rewrite Hc. apply quiet_step; [done..|by left].
Qed.

Lemma finalize_step c i s : numbered new_id s → stepped (op_finalize c i) c s (run_op (op_finalize c i) s).1.
Proof.
  intros Hs. unfold run_op, finalize_pending, clear_pending, change_messages, mbind, eff_bind, gets, modify, mret, eff_ret. cbn [fst].
  eapply (change_step _ c s _ _ []); [done| | |reflexivity|by rewrite app_nil_r|by intros e ?%not_elem_of_nil|done|done|].
  - intros m. cbn. by destruct (_ && _ && _).
  - intros m _ Hne. cbv beta. rewrite bool_decide_false by done. done.
  - cbn [log_step]. rewrite (history_rows c s Hs), !map_map. apply map_ext_in. intros m [_ E]%list_elem_of_In%elem_messages_of.
    cbv beta. rewrite bool_decide_true by done. destruct m as [mid cv role content h q p at_]. cbn in *. destruct p, i as [i|]; cbn; try done.
    + case_bool_decide as D; [subst; by rewrite String.eqb_refl|]. by destruct (String.eqb_spec mid i).
    + by destruct (String.eqb mid i).
Qed.

Lemma strip_unchanged content : (strip_image_blocks content).2 = false → (strip_image_blocks content).1 = content.
Proof. destruct content; try done. cbn. by destruct (existsb _ _). Qed.

(** Every message of a conversation, in order. *)
Lemma get_ordered_run c s v :
  numbered new_id s → get_conversation scope c s = (s, inr v) → get_ordered_messages scope c true s = (s, inr (messages_of c s)).
Proof.
  intros Hs Hc. unfold get_ordered_messages, ordered_messages. rewrite (run_bind _ _ _ _ _ Hc).
  unfold mbind, eff_bind, gets, mret, eff_ret. cbn [id]. rewrite filter_every by (apply list.Forall_forall; auto).
  do 2 f_equal. exact (all_messages_rows new_id c s Hs).
Qed.

Lemma repair_step c s : numbered new_id s → stepped (op_repair c) c s (run_op (op_repair c) s).1.
Proof.
  intros Hs. unfold run_op, mbind at 1, eff_bind. destruct (get_conversation_reads scope c s) as [(v & Hc & _)|[e Hc]].
  2: { unfold repair_image_content, get_ordered_messages, ordered_messages, mbind, eff_bind. rewrite Hc. apply quiet_step; [done..|by left]. }
  unfold repair_image_content. rewrite (run_bind _ _ _ _ _ (get_ordered_run c s v Hs Hc)). cbn [fst mret eff_ret].
  set (repaired := base.filter _ (messages_of c s)). unfold change_messages, mbind, eff_bind, modify. cbn [fst].
  assert (Hrep : ∀ m, m ∈ ch_messages s → msg_id m ∈ map msg_id repaired → msg_conversation m = c ∧ (strip_image_blocks (msg_content m)).2 = true).
  { intros m Hin (m' & E & [Hst [Hin' Hc']%elem_messages_of]%list_elem_of_filter)%list_elem_of_fmap.
    by rewrite (messages_same_id s m m' Hs Hin Hin' E). }
  eapply (change_step _ c s _ _ []); [done| | |reflexivity|by rewrite app_nil_r|by intros e ?%not_elem_of_nil|done|done|].
  - intros m. cbn. by destruct (bool_decide _).
  - intros m Hin Hne. cbv beta. rewrite bool_decide_false; [done|]. intros Hr. by destruct (Hrep m Hin Hr).
  - right. rewrite (history_rows c s Hs), !map_map. apply map_ext_in. intros m Hm%list_elem_of_In. pose proof Hm as [Hin E]%elem_messages_of.
    cbv beta. case_bool_decide as D; [done|]. unfold entry, stripped. cbn. rewrite strip_unchanged; [done|].
    destruct (strip_image_blocks (msg_content m)).2 eqn:F; [|done]. destruct D. apply list_elem_of_fmap_2. by apply list_elem_of_filter.
Qed.

(** The question of an interrupted turn is settled. *)
Definition settle_question (i : string) (m : Message) : Message := if bool_decide (msg_id m = i) then m <| msg_pending := false |> else m.

Lemma settle_place i m : same_place m (settle_question i m).
Proof. unfold settle_question. by destruct (bool_decide _). Qed.
Lemma settle_entry i m : entry (settle_question i m) = settled (Some i) (entry m).
Proof. unfold settle_question, settled. cbn. case_bool_decide as D; destruct (String.eqb_spec (msg_id m) i); done. Qed.

Lemma settle_step op c s s' q new :
  numbered new_id s → q ∈ messages_of c s → ch_messages s' = map (settle_question (msg_id q)) (ch_messages s) → ch_events s' = ch_events s ++ new →
  (∀ e, e ∈ new → me_message e ∈ map msg_id (messages_of c s)) → ch_conversations s' = ch_conversations s → ch_next s' = ch_next s →
  log_step op (history c s) (map (settled (Some (msg_id q))) (history c s)) → stepped op c s s'.
Proof.
  intros Hs [Hq Hqc]%elem_messages_of Hm He Hnew Hc Hn Hl.
  apply (change_step _ c s _ (settle_question (msg_id q)) new); [done|by intros m; apply settle_place| |done|done|done|done|lia|].
  - intros m Hin Hne. unfold settle_question. rewrite bool_decide_false; [done|]. intros E. by rewrite (messages_same_id s m q Hs Hin Hq E) in Hne.
  - rewrite map_map. rewrite (map_ext _ (λ m, settled (Some (msg_id q)) (entry m)) (settle_entry (msg_id q))). rewrite <-map_map, <-(history_rows c s Hs). done.
Qed.

Lemma find_reply_elem l m : find_reply l = Some (Some m) → m ∈ l.
Proof.
  induction l as [|x l IH]; [done|]. cbn. destruct (is_tool_row _); [intros H; right; auto|]. case_bool_decide; [done|].
  case_bool_decide; [intros [= <-]; by left|]. intros H'. right. auto.
Qed.

Lemma recover_step c turn text terminal s :
  numbered new_id s → stepped (op_recover c turn text terminal) c s (run_op (op_recover c turn text terminal) s).1.
Proof.
  intros Hs. assert (Hq0 : stepped (op_recover c turn text terminal) c s s) by (apply quiet_step; [done..|by left]).
  unfold run_op, mbind at 1, eff_bind. destruct (get_conversation_reads scope c s) as [(v & Hc & _)|[e Hc]].
  2: { unfold recover_interrupted_turn, mbind, eff_bind. by rewrite Hc. }
  unfold recover_interrupted_turn. rewrite (run_bind _ _ _ _ _ Hc), (run_bind _ _ _ _ _ (get_ordered_run c s v Hs Hc)).
  destruct (messages_of c s !! turn) as [q|] eqn:Eq; [|done]. destruct (_ || _); [done|].
  pose proof (list_elem_of_lookup_2 _ _ _ Eq) as Hq.
  destruct (find_reply _) as [[reply|]|] eqn:Er; [| |done].
  - rewrite (run_bind _ _ s s s) by done. destruct (has_terminal _) as [e|[|]]; [done|done|]. cbn [fst].
    eapply (settle_step _ c s _ q); [done|done|reflexivity|reflexivity| |done|done|right; exists (msg_id q); by left].
    intros e ->%list_elem_of_singleton. cbn. apply list_elem_of_fmap_2. apply find_reply_elem in Er.
    rewrite <-(take_drop (S turn) (messages_of c s)). apply elem_of_app. by right.
  - set (s1 := s <| ch_messages := map (settle_question (msg_id q)) (ch_messages s) |>).
    rewrite (run_bind _ _ s s1 ()) by done.
    assert (H1 : stepped (op_recover c turn text terminal) c s s1).
    { eapply (settle_step _ c s _ q); [done|done|reflexivity|by rewrite app_nil_r|by intros e ?%not_elem_of_nil|done|done|right; exists (msg_id q); by left]. }
    assert (Hh : history c s1 = map (settled (Some (msg_id q))) (history c s)).
    { rewrite (history_rows c s1 (sp_numbered _ _ _ _ H1)), (history_rows c s Hs), (messages_of_map (settle_question (msg_id q)) c s s1); [|by intros m; apply settle_place|done].
      rewrite !map_map. apply map_ext, settle_entry. }
    assert (Hw : ∀ w, stepped (op_turn c text [terminal] (cv_harness v) []) c s1 w → stepped (op_recover c turn text terminal) c s w).
    { intros w [W1 W2 W3]. split; [done|exact (frame_trans c s s1 w (sp_frame _ _ _ _ H1) W2)|]. right. exists (msg_id q). rewrite Hh in W3.
      destruct W3 as [Hl|(rows & answer & Hl & Hr%Forall2_nil_inv_l & Ha)]; [by left|right]. subst rows. by exists answer. }
    pose proof (turn_step c text [terminal] (cv_harness v) [] s1 (sp_numbered _ _ _ _ H1)) as H2. unfold run_op, mbind, eff_bind in H2 |- *.
    destruct (save_assistant_turn scope new_id c text [terminal] (cv_harness v) [] s1) as [w [e|a]]; apply Hw, H2.
Qed.

(** *** Deletion *)

(** Only calls to other services are made. *)
Definition same_tables (s s' : ChatDb) : Prop :=
  ch_messages s' = ch_messages s ∧ ch_events s' = ch_events s ∧ ch_conversations s' = ch_conversations s ∧ ch_next s' = ch_next s.
#[export] Instance same_tables_order : PreOrder same_tables.
Proof. split; [by intros s|]. intros a b d (A1 & A2 & A3 & A4) (B1 & B2 & B3 & B4). repeat split; congruence. Qed.

Lemma outside_within x : within same_tables (call_outside x).
Proof. by intros s. Qed.
Lemma project_within p : within same_tables (get_project scope p).
Proof. intros s. destruct (get_project_reads scope p s) as [r ->]. done. Qed.
Lemma sweep_within p slugs : within same_tables (sweep_skill_drafts scope p slugs).
Proof.
  apply (within_bind same_tables); [apply project_within|]. intros [pj|]; [destruct (truthy (pj_path pj)); [apply outside_within|]|]; apply (within_ret same_tables).
Qed.

Lemma step_then op c s s' s2 : stepped op c s s' → same_tables s' s2 → stepped op c s s2.
Proof.
  intros [H1 H2 H3] (E1 & E2 & E3 & E4). assert (H1' : numbered new_id s2).
  { apply (numbered_changed new_id id s'); [by intros m|done|by rewrite E1, map_id|lia|]. rewrite E2. apply (nb_events _ _ H1). }
  assert (Hf : frame c s' s2) by (apply frame_refl; [done|done|by rewrite E3]).
  split; [done|exact (frame_trans c s s' s2 H2 Hf)|]. assert (history c s2 = history c s') as ->; [|done].
  unfold history, all_messages, messages_of. by rewrite E1.
Qed.

Lemma delete_turn_step c i s : numbered new_id s → stepped (op_delete_turn c i) c s (run_op (op_delete_turn c i) s).1.
Proof.
  intros Hs. assert (Hq0 : stepped (op_delete_turn c i) c s s).
  { apply quiet_step; [done..|]. exists (length (history c s)). by rewrite firstn_all. }
  unfold run_op, mbind at 1, eff_bind. destruct (get_conversation_reads scope c s) as [(v & Hc & _)|[e Hc]].
  2: { unfold delete_turn, mbind, eff_bind. by rewrite Hc. }
  unfold delete_turn. rewrite (run_bind _ _ _ _ _ Hc). rewrite (run_bind _ _ s s (messages_of c s)) by (unfold gets; by rewrite (all_messages_rows new_id c s Hs)).
  destruct (list_find _ _) as [[j anchor]|]; [|done]. destruct (cut_of _ _ _) as [e|k]; [done|]. rewrite (run_bind _ _ s s s) by done.
  set (s1 := (delete_messages (map msg_id (drop k (messages_of c s))) s).1).
  rewrite (run_bind _ _ s s1 ()) by done.
  assert (H1 : stepped (op_delete_turn c i) c s s1).
  { apply (delete_step _ c s s1 k); [done|done|done|done|done|]. by exists k. }
  match goal with |- context [mbind ?f ?m s1] => assert (Hw : within same_tables (mbind f m)) end.
  { apply (within_bind same_tables); [destruct (Nat.eqb k 0); [apply outside_within|apply (within_ret same_tables)]|]. intros _.
    apply (within_bind same_tables); [destruct (remove_dups _); [apply (within_ret same_tables)|apply sweep_within]|]. intros _.
    apply (within_bind same_tables); [apply outside_within|]. intros _. apply (within_bind same_tables); [apply project_within|]. intros pj.
    apply (within_bind same_tables); [apply outside_within|]. intros _. apply (within_ret same_tables). }
  specialize (Hw s1). revert Hw.
  match goal with |- context [mbind ?f ?m s1] => destruct (mbind f m s1) as [w [e|n]] end; cbn [fst mret eff_ret]; exact (step_then _ c s s1 w H1).
Qed.

Lemma delete_conversation_step files c s : numbered new_id s → stepped (op_delete files c) c s (run_op (op_delete files c) s).1.
Proof.
  intros Hs. assert (Hq0 : stepped (op_delete files c) c s s) by (apply quiet_step; [done..|by left]).
  unfold run_op, mbind at 1, eff_bind. unfold delete_conversation. destruct (owned_reads scope c s) as [r Hr].
  destruct r as [e|[v|]]; [by unfold mbind, eff_bind; rewrite Hr| |by rewrite (run_bind _ _ _ _ _ Hr)].
  rewrite (run_bind _ _ _ _ _ Hr), (run_bind _ _ s s s) by done. pose proof (owned_id c s v Hr) as Hid.
  destruct files as [e|dirs]; [done|].
  match goal with |- context [catch ?m ?h] => destruct (catch m h s) as [s1 [e|stage]] eqn:F; [done|]; rewrite (run_bind _ _ _ _ _ F) end.
  assert (H1 : stepped (op_delete (inr dirs) c) c s s1).
  { unfold catch, stage_delete_conversation_row, mbind, eff_bind, gets, delete_messages, call_outside, modify, mret, eff_ret in F. cbn [id] in F.
    rewrite Hid, (all_messages_rows new_id c s Hs) in F. injection F as <- _.
    apply (delete_step _ c s _ 0); [done|done|done|done| |by right].
    cbn. rewrite list.list_filter_filter. apply list.list_filter_iff. tauto. }
  match goal with |- context [mbind ?f ?m s1] => assert (Hw : within same_tables (mbind f m)) end.
  { apply (within_bind same_tables); [|intros _; apply (within_ret same_tables)]. unfold finalize_staged_conversation_delete.
    repeat (apply (within_bind same_tables); [apply outside_within|]; intros _). apply outside_within. }
  specialize (Hw s1). revert Hw.
  match goal with |- context [mbind ?f ?m s1] => destruct (mbind f m s1) as [w [e|n]] end; cbn [fst mret eff_ret]; exact (step_then _ c s s1 w H1).
Qed.

(** *** Conversation rows *)

Lemma put_others c v l :
  cv_id v = c → base.filter (λ w, cv_id w ≠ c) (map (λ d, if bool_decide (cv_id d = cv_id v) then v else d) l) = base.filter (λ w, cv_id w ≠ c) l.
Proof.
  intros <-. induction l as [|d l IH]; [done|]. cbn [map]. rewrite !list.filter_cons, IH. case_bool_decide as D; [|done].
  by rewrite !decide_False by tauto.
Qed.

Lemma create_step d topic (p c h m e : option string) s :
  numbered new_id s → stepped (op_create d topic p c h m e) (target s (op_create d topic p c h m e)) s (run_op (op_create d topic p c h m e) s).1.
Proof.
  intros Hs. cbn [target]. set (t := default (new_id (ch_next s)) c). unfold run_op, mbind at 1, eff_bind. unfold create_conversation.
  assert (Hq : ∀ n l, ch_next s ≤ n → base.filter (λ v, cv_id v ≠ t) l = base.filter (λ v, cv_id v ≠ t) (ch_conversations s) →
    stepped (op_create d topic p c h m e) t s (s <| ch_next := n |> <| ch_conversations := l |>)) by (intros n l Hn Hl; by apply quiet_step).
  assert (Hq0 : stepped (op_create d topic p c h m e) t s s) by by apply quiet_step.
  destruct (get_project_reads scope (default d p) s) as [[x|[pj|]] Hp]; [by unfold mbind, eff_bind; rewrite Hp| |by rewrite (run_bind _ _ _ _ _ Hp)].
  rewrite (run_bind _ _ _ _ _ Hp).
  assert (Hi : ∃ n, ch_next s ≤ n ∧ (match c with Some i => mret i | None => fresh_id new_id end : chat string) s = (s <| ch_next := n |>, inr t)).
  { destruct c as [i|]; [exists (ch_next s); by destruct s|]. exists (S (ch_next s)). split; [lia|done]. }
  destruct Hi as (n & Hn & Hi). rewrite (run_bind _ _ _ _ _ Hi), (run_bind _ _ _ (s <| ch_next := n |>) (s <| ch_next := n |>)) by done.
  assert (Hq1 : stepped (op_create d topic p c h m e) t s (s <| ch_next := n |>)) by by apply quiet_step.
  destruct (key_org scope "conversations") as [x|org]; [done|]. unfold raise_if. destruct (existsb _ _); [done|].
  rewrite (run_bind _ _ _ (s <| ch_next := n |>) ()) by done. apply (Hq n); [done|].
  cbn. rewrite list.filter_app, (list.filter_cons_False _ _ []) by (cbn; tauto). by rewrite app_nil_r.
Qed.

Lemma put_step op c s v :
  numbered new_id s → cv_id v = c → log_step op (history c s) (history c s) → stepped op c s (put_conversation v s).1.
Proof. intros Hs Hv Hl. apply quiet_step; [done..| |done]. by apply put_others. Qed.

Lemma update_step c topic p s : numbered new_id s → stepped (op_update c topic p) c s (run_op (op_update c topic p) s).1.
Proof.
  intros Hs. assert (Hq0 : stepped (op_update c topic p) c s s) by by apply quiet_step.
  unfold run_op, mbind at 1, eff_bind. unfold update_conversation.
  destruct (get_conversation_reads scope c s) as [(v & Hc & Ho)|[e Hc]]; [|unfold mbind, eff_bind; by rewrite Hc].
  rewrite (run_bind _ _ _ _ _ Hc). pose proof (owned_id c s v Ho) as Hid.
  set (v1 := match topic with Some t => v <| cv_topic := t |> | None => v end). assert (Hv1 : cv_id v1 = c) by (unfold v1; by destruct topic). clearbody v1.
  destruct p as [p|]; [|exact (put_step (op_update c topic None) c s v1 Hs Hv1 eq_refl)].
  destruct (get_project_reads scope p s) as [[x|[pj|]] Hp].
  - unfold mbind, eff_bind. by rewrite Hp.
  - unfold mbind, eff_bind. rewrite Hp. apply (put_step (op_update c topic (Some p)) c s); done.
  - unfold mbind, eff_bind. by rewrite Hp.
Qed.

Lemma compact_step c summary cutoff s : numbered new_id s → stepped (op_compact c summary cutoff) c s (run_op (op_compact c summary cutoff) s).1.
Proof.
  intros Hs. assert (Hq0 : stepped (op_compact c summary cutoff) c s s) by by apply quiet_step.
  unfold run_op, update_history_compaction, mbind, eff_bind. destruct (owned_reads scope c s) as [[e|[v|]] Hr]; rewrite Hr; [done| |done].
  apply (put_step (op_compact c summary cutoff) c s); [done|exact (owned_id c s v Hr)|done].
Qed.
End Log.

(** ** The claim *)

(** Operations by anybody, one after the other. *)
Definition run_ops {SC : Schema} (new_id : nat → string) (ops : list (TenantScope * ChatOp)) (s : ChatDb) : ChatDb :=
  foldl (λ s so, (run_op so.1 new_id so.2 s).1) s ops.

Definition empty_chat (projects : list Project) (now : Z) : ChatDb := {|
  ch_conversations := []; ch_messages := []; ch_events := []; ch_projects := projects; ch_next := 0; ch_now := now; ch_outside := [] |}.

Lemma empty_numbered new_id projects now : numbered new_id (empty_chat projects now).
Proof. split; cbn; try (by intros ? ?%not_elem_of_nil); [constructor|constructor|by intros ? ? ?%not_elem_of_nil]. Qed.

Lemma run_op_stepped {SC : Schema} scope new_id `{!Inj (=) (=) new_id} op s :
  numbered new_id s → stepped new_id op (target new_id s op) s (run_op scope new_id op s).1.
Proof.
  intros Hs. destruct op; [by apply user_step|by apply turn_step|by apply finalize_step|by apply repair_step|by apply recover_step
    |by apply delete_turn_step|by apply delete_conversation_step|by apply create_step|by apply update_step|by apply compact_step].
Qed.

Lemma run_ops_numbered {SC : Schema} new_id `{!Inj (=) (=) new_id} ops s : numbered new_id s → numbered new_id (run_ops new_id ops s).
Proof.
  revert s. induction ops as [|[scope op] ops IH]; intros s Hs; [done|]. cbn. apply IH. by apply (run_op_stepped scope new_id op s Hs).
Qed.

(** C13: a conversation is a log.  After any operations by any users, the rows of each
    conversation are numbered upwards without ties, so every read gives them in the
    order they were written, and each further operation is one step of the log of its
    own conversation, in whatever way it ends: a question and a turn are added behind,
    with the rows of the tools before the answer; settling, repairing and recovering
    change entries in place (recovering may add the answer); deleting a turn cuts off a
    tail.  The messages and events of every other conversation are as before. *)
Theorem conversation_log_exact {SC : Schema} new_id `{!Inj (=) (=) new_id} projects now ops scope op :
  let s := run_ops new_id ops (empty_chat projects now) in
  stepped new_id op (target new_id s op) s (run_op scope new_id op s).1.
Proof. intros s. apply run_op_stepped; [done|]. by apply run_ops_numbered, empty_numbered. Qed.

(** *** Two users of an organization *)

Definition demo_schema : Schema :=
  {| has_org := λ t, bool_decide (t ∈ ["conversations"; "projects"]); org_is_uuid := λ _, false; has_created_by := λ _, true |}.
Definition demo_id (n : nat) : string := pretty (N.of_nat n).
#[export] Instance demo_id_inj : Inj (=) (=) demo_id.
Proof. intros a b H. apply (inj pretty) in H. lia. Qed.

Definition ada : TenantScope := {| sc_org_mode := true; sc_org_id := Some "org"; sc_user_id := Some "ada"; sc_personal := false; sc_personal_resources := [] |}.
Definition bob : TenantScope := {| sc_org_mode := true; sc_org_id := Some "org"; sc_user_id := Some "bob"; sc_personal := false; sc_personal_resources := [] |}.
Definition demo_project : Project := {| pj_id := "p"; pj_org := Some "org"; pj_path := "/p" |}.
Definition tool_use : json := JArr [JObj [("type", JStr "tool_use")]].
Definition tool_result : json := JArr [JObj [("type", JStr "tool_result")]].
Definition demo_ops : list (TenantScope * ChatOp) :=
  [(ada, op_create "p" "topic" None (Some "c1") None None None); (bob, op_create "p" "topic" None (Some "c2") None None None);
   (ada, op_user "c1" (JStr "q1") None true);
   (ada, op_turn "c1" "a1" [[("type", JStr "response.completed")]] None [(r_assistant, tool_use); (r_user, tool_result)]);
   (ada, op_finalize "c1" None); (bob, op_user "c2" (JStr "q") None false); (bob, op_user "c1" (JStr "q2") None true)].
Definition demo_chat : ChatDb := run_ops (SC:=demo_schema) demo_id demo_ops (empty_chat [demo_project] 0).

Example demo_chat_history :
  map (λ e, (en_role e, en_content e, en_pending e)) (history "c1" demo_chat) =
    [(r_user, JStr "q1", false); (r_assistant, tool_use, false); (r_user, tool_result, false); (r_assistant, JStr "a1", false);
     (r_user, JStr "q2", true)].
Proof. vm_compute. reflexivity. Qed.

(** Ada deletes her first turn. *)
Lemma conversation_log_exact_witness :
  let s := run_ops (SC:=demo_schema) demo_id demo_ops (empty_chat [demo_project] 0) in
  stepped demo_id (op_delete_turn "c1" "1") "c1" s (run_op (SC:=demo_schema) ada demo_id (op_delete_turn "c1" "1") s).1.
Proof. exact (conversation_log_exact (SC:=demo_schema) demo_id [demo_project] 0 demo_ops ada (op_delete_turn "c1" "1")). Defined.
