(* ===== verification/ConversationTurns.v ===== *)
(** * Turns: deleting one, recovering one, and who may.

    A turn is deleted from its question on, with the rows its tools left; a turn that
    died is recovered once, behind its question; and a conversation of another user
    answers like one that is not there. *)
From stdpp Require Import base list gmap strings option relations.
From Stdlib Require Import ZArith Lia Sorting.Sorted.
From S2P Require Import Prelude JsonObject JsonText Uuid AnswerText Identity TenantScope ScopedSession Triples Base64 Conversations ConversationOrder ConversationLog.

(** ** Where a turn begins *)

Definition tool_row (m : Message) : Prop := is_tool_row (msg_content m) = true.
Definition asked (m : Message) : Prop := msg_role m = r_user ∧ is_tool_row (msg_content m) = false.
Definition replied (m : Message) : Prop := msg_role m = r_assistant ∧ is_tool_row (msg_content m) = false.
(** The first visible row says something as the assistant. *)
Definition has_answer (l : list Message) : Prop :=
  ∃ tools a rest, l = tools ++ a :: rest ∧ Forall tool_row tools ∧ replied a ∧ json_truthy (msg_content a) = true.

(** The turn that the message [i] anchors begins at [k]: an answer with its question
    or without one, or a question that nothing answers. *)
Inductive turn_at (l : list Message) (i : string) : nat → Prop :=
  | ta_answered pre q tools a post :
      l = pre ++ q :: tools ++ a :: post → msg_role q = r_user → ¬ tool_row q → Forall tool_row tools → replied a → msg_id a = i →
      turn_at l i (length pre)
  | ta_unasked pre tools a post :
      l = pre ++ tools ++ a :: post → (∀ m, list.last pre = Some m → msg_role m ≠ r_user ∧ ¬ tool_row m) → Forall tool_row tools →
      replied a → msg_id a = i → turn_at l i (length pre)
  | ta_orphan pre q post :
      l = pre ++ q :: post → asked q → ¬ has_answer post → msg_id q = i → turn_at l i (length pre).

Lemma drop_mid (pre : list Message) q post : drop (S (length pre)) (pre ++ q :: post) = post.
Proof. by induction pre. Qed.

Lemma walk_back_run pre tools rest :
  Forall tool_row tools → (∀ m, list.last pre = Some m → ¬ tool_row m) →
  walk_back (pre ++ tools ++ rest) (length pre + length tools) = length pre.
Proof.
  intros Ht Hp. revert rest. induction tools as [|t tools IH] using rev_ind; intros rest.
  - cbn. rewrite Nat.add_0_r. destruct pre as [|m pre _] using rev_ind; [done|]. rewrite length_app, Nat.add_1_r. cbn.
    rewrite <-(assoc_L (++)). cbn [app]. rewrite list_lookup_middle by done. specialize (Hp m (last_snoc _ _)). unfold tool_row in Hp.
    by destruct (is_tool_row (msg_content m)).
  - apply list.Forall_app in Ht as [Ht Ht']. rewrite length_app, Nat.add_1_r, Nat.add_succ_r. cbn [walk_back].
    replace (pre ++ (tools ++ [t]) ++ rest) with ((pre ++ tools) ++ t :: rest) by by rewrite <-!(assoc_L (++)).
    rewrite list_lookup_middle by by rewrite length_app. apply list.Forall_cons in Ht' as [Ht' _]. unfold tool_row in Ht'. rewrite Ht'.
    rewrite <-(assoc_L (++)). by apply IH.
Qed.

(** A list ends in as many tool rows as it can. *)
Lemma trailing_tools (l : list Message) :
  ∃ pre tools, l = pre ++ tools ∧ Forall tool_row tools ∧ ∀ m, list.last pre = Some m → ¬ tool_row m.
Proof.
  induction l as [|m l (pre & tools & E & Ht & Hp)] using rev_ind; [by exists [], []|].
  destruct (is_tool_row (msg_content m)) eqn:F.
  - exists pre, (tools ++ [m]). rewrite E, (assoc_L (++)). split; [done|]. split; [|done]. apply list.Forall_app. by repeat constructor.
  - exists (l ++ [m]), []. rewrite app_nil_r. split; [done|]. split; [constructor|]. intros x. rewrite last_snoc. intros [= <-]. unfold tool_row. by rewrite F.
Qed.

Lemma answered_iff l : answered l = true ↔ has_answer l.
Proof.
  unfold has_answer. induction l as [|m l IH]; cbn; [split; [done|]; intros (ts & a & r & H & _); by destruct ts|].
  destruct (is_tool_row (msg_content m)) eqn:F.
  - rewrite IH. split; intros (ts & a & r & E & Ht & Ha & Hj).
    + exists (m :: ts), a, r. rewrite E. split; [done|]. split; [by constructor|done].
    + destruct ts as [|t ts]; cbn in E; injection E as -> ->; [destruct Ha; congruence|]. inversion Ht; subst. by exists ts, a, r.
  - rewrite andb_true_iff, bool_decide_eq_true. split.
    + intros [Hr Hj]. exists [], m, l. repeat split; done || by constructor.
    + intros (ts & a & r & E & Ht & Ha & Hj). destruct ts as [|t ts]; cbn in E; injection E as -> ->; [by destruct Ha|].
      inversion Ht as [|? ? H]; subst. unfold tool_row in H. congruence.
Qed.

(** The first row with an id that occurs once. *)
Lemma find_id l1 m l2 : NoDup (map msg_id (l1 ++ m :: l2)) → list_find (λ x, msg_id x = msg_id m) (l1 ++ m :: l2) = Some (length l1, m).
Proof.
  intros Hnd. apply list_find_Some. split; [by apply list_lookup_middle|]. split; [done|]. intros j x Hl Hj E.
  rewrite lookup_app_l in Hl by done. rewrite map_app in Hnd. apply list.NoDup_app in Hnd as (_ & Hd & _).
  apply (Hd (msg_id x)); [apply list_elem_of_fmap_2, (list_elem_of_lookup_2 _ _ _ Hl)|rewrite E; by left].
Qed.

Lemma cut_complete l i k :
  NoDup (map msg_id l) → turn_at l i k → ∃ j a, list_find (λ m, msg_id m = i) l = Some (j, a) ∧ cut_of l j a = inr k.
Proof.
  intros Hnd H. destruct H as [pre q tools a post -> Hq Hqt Ht [Ha Hat] <-|pre tools a post -> Hp Ht [Ha Hat] <-|pre q post -> [Hq Hqt] Hn <-].
  - replace (pre ++ q :: tools ++ a :: post) with ((pre ++ q :: tools) ++ a :: post) in * by by rewrite <-!(assoc_L (++)).
    exists (length (pre ++ q :: tools)), a. split; [by apply find_id|]. unfold cut_of. rewrite bool_decide_true by done. rewrite Hat. cbn [negb andb].
    replace ((pre ++ q :: tools) ++ a :: post) with ((pre ++ [q]) ++ tools ++ a :: post) by by rewrite <-!(assoc_L (++)).
    replace (length (pre ++ q :: tools)) with (length (pre ++ [q]) + length tools) by (rewrite !length_app; cbn; lia).
    rewrite walk_back_run; [|done|intros m; rewrite last_snoc; by intros [= <-]]. rewrite length_app, Nat.add_1_r.
    rewrite <-(assoc_L (++)). cbn [app]. rewrite list_lookup_middle by done. by rewrite bool_decide_true.
  - rewrite (assoc_L (++)) in *. exists (length (pre ++ tools)), a. split; [by apply find_id|]. unfold cut_of.
    rewrite bool_decide_true by done. rewrite Hat. cbn [negb andb]. rewrite <-(assoc_L (++)), length_app.
    rewrite walk_back_run; [|done|intros m Hm; by apply Hp]. destruct pre as [|m pre _] using rev_ind; [done|].
    rewrite length_app, Nat.add_1_r. rewrite <-(assoc_L (++)). cbn [app]. rewrite list_lookup_middle by done.
    rewrite bool_decide_false; [done|]. by destruct (Hp m (last_snoc _ _)).
  - exists (length pre), q. split; [by apply find_id|]. unfold cut_of. rewrite Hq, Hqt. cbn.
    rewrite drop_mid.
    destruct (answered post) eqn:F; [|done]. by apply answered_iff in F.
Qed.

Lemma cut_sound l i j a k : list_find (λ m, msg_id m = i) l = Some (j, a) → cut_of l j a = inr k → turn_at l i k.
Proof.
  intros (Hj & <- & _)%list_find_Some. pose proof (take_drop_middle l j a Hj) as E. apply lookup_lt_Some in Hj.
  assert (Hl : length (take j l) = j) by (rewrite length_take; lia). revert E Hl. generalize (take j l) (drop (S j) l). intros l1 l2 <- <-.
  unfold cut_of. case_bool_decide as Ha; cbn [andb].
  - destruct (is_tool_row (msg_content a)) eqn:Hat; cbn [negb]; [by rewrite bool_decide_false by congruence|].
    destruct (trailing_tools l1) as (pre & tools & -> & Ht & Hp). rewrite <-(assoc_L (++)), length_app, walk_back_run by done.
    destruct pre as [|m pre _] using rev_ind.
    { intros [= <-]. by eapply (ta_unasked _ _ []). }
    rewrite length_app, Nat.add_1_r. rewrite <-(assoc_L (++)). cbn [app]. rewrite list_lookup_middle by done.
    specialize (Hp m (last_snoc _ _)). case_bool_decide as Hm; intros [= <-].
    + by eapply ta_answered.
    + replace (S (length pre)) with (length (pre ++ [m])) by (rewrite length_app; cbn; lia).
      eapply (ta_unasked _ _ (pre ++ [m]) tools a l2); [by rewrite <-(assoc_L (++))| |done|done|done]. intros x. rewrite last_snoc. by intros [= <-].
  - case_bool_decide as Hu; cbn [andb]; [|done]. destruct (is_tool_row (msg_content a)) eqn:Hat; cbn [negb]; [done|]. rewrite drop_mid.
    destruct (answered l2) eqn:F; [done|]. intros [= <-]. eapply ta_orphan; [done|done| |done]. rewrite <-answered_iff. congruence.
Qed.

(** ** Deleting a turn *)

Section Turns.
Context {SC : Schema} (scope : TenantScope) (new_id : nat → string) `{!Inj (=) (=) new_id}.
Implicit Types (s : ChatDb) (c : string).

(** The scope can be used for projects. *)
Definition reads_projects : Prop := ∀ org, ∃ b, of_scope scope "projects" org = inr b.

Lemma get_project_some p s : reads_projects → ∃ r, get_project scope p s = (s, inr r).
Proof.
  intros H. unfold get_project, mbind, eff_bind, gets. cbn [id]. destruct (list_find _ _) as [[i v]|].
  - destruct (H (pj_org v)) as [b ->]. eexists. reflexivity.
  - destruct (H None) as [b ->]. eexists. reflexivity.
Qed.

Lemma sweep_some p slugs s : reads_projects → ∃ s', sweep_skill_drafts scope p slugs s = (s', inr ()) ∧ same_tables s s'.
Proof.
  intros H. unfold sweep_skill_drafts. destruct (get_project_some p s H) as [r Hr]. rewrite (run_bind _ _ _ _ _ Hr).
  destruct r as [pj|]; [destruct (truthy (pj_path pj))|]; by eexists.
Qed.

Lemma sweep_if p slugs s :
  reads_projects → ∃ s', (match slugs with [] => mret () | _ => sweep_skill_drafts scope p slugs end : chat ()) s = (s', inr ()) ∧ same_tables s s'.
Proof. intros H. destruct slugs; [by eexists|by apply sweep_some]. Qed.

Lemma delete_turn_run c i s v j a k :
  numbered new_id s → reads_projects → get_conversation scope c s = (s, inr v) →
  list_find (λ m, msg_id m = i) (messages_of c s) = Some (j, a) → cut_of (messages_of c s) j a = inr k →
  ∃ s', delete_turn scope c i s = (s', inr (length (drop k (messages_of c s)))) ∧
    same_tables (delete_messages (map msg_id (drop k (messages_of c s))) s).1 s' ∧ x_streams_discarded c ∈ ch_outside s'.
Proof.
  intros Hs Hp Hc Hf Hk. unfold delete_turn. rewrite (run_bind _ _ _ _ _ Hc).
  rewrite (run_bind _ _ s s (messages_of c s)) by (unfold gets; by rewrite (all_messages_rows new_id c s Hs)).
  rewrite Hf, Hk. rewrite (run_bind _ _ s s s) by done. set (s1 := (delete_messages _ s).1). rewrite (run_bind _ _ s s1 ()) by done.
  assert (H2 : ∃ s2, (if Nat.eqb k 0 then call_outside (x_task_objects c) else mret ()) s1 = (s2, inr ()) ∧ same_tables s1 s2).
  { destruct (Nat.eqb k 0); by eexists. }
  destruct H2 as (s2 & H2 & T2). rewrite (run_bind _ _ _ _ _ H2).
  match goal with |- context [remove_dups ?l] => destruct (sweep_if (cv_project v) (remove_dups l) s2 Hp) as (s3 & H3 & T3) end.
  rewrite (run_bind _ _ _ _ _ H3).
  rewrite (run_bind _ _ s3 (s3 <| ch_outside := ch_outside s3 ++ [x_streams_discarded c] |>) ()) by done.
  destruct (get_project_some (cv_project v) (s3 <| ch_outside := ch_outside s3 ++ [x_streams_discarded c] |>) Hp) as [r Hr].
  rewrite (run_bind _ _ _ _ _ Hr). eexists. split; [reflexivity|]. split.
  - etrans; [exact T2|]. etrans; [exact T3|]. done.
  - cbn. apply elem_of_app. left. apply elem_of_app. right. by left.
Qed.

(** C25: deleting a turn cuts the conversation where the turn begins.  When the message
    is the answer of a turn, the conversation is left as it was before the turn's
    question (or before the rows of its tools, where no question stands there); when it
    is a question that nothing answers, as it was before the question.  The events of
    what remains stay, those of what is gone are gone with it, the streams are
    discarded, and the number of rows deleted is returned.  Any other message is
    refused, and nothing changes. *)
Theorem delete_turn_cuts c i s v :
  numbered new_id s → reads_projects → get_conversation scope c s = (s, inr v) →
  (∀ k, turn_at (all_messages c s) i k →
    ∃ s', delete_turn scope c i s = (s', inr (length (all_messages c s) - k)) ∧
      all_messages c s' = take k (all_messages c s) ∧
      (∀ m, m ∈ take k (all_messages c s) → events_of (msg_id m) s' = events_of (msg_id m) s) ∧
      (∀ m, m ∈ drop k (all_messages c s) → events_of (msg_id m) s' = []) ∧
      x_streams_discarded c ∈ ch_outside s') ∧
  ((∀ k, ¬ turn_at (all_messages c s) i k) → ∃ msg, delete_turn scope c i s = (s, inl (ValueError msg))).
Proof.
  intros Hs Hp Hc. rewrite (all_messages_rows new_id c s Hs). pose proof (ids_of_nodup new_id c s Hs) as Hnd. split.
  - intros k Ht. destruct (cut_complete _ _ _ Hnd Ht) as (j & a & Hf & Hk).
    destruct (delete_turn_run c i s v j a k Hs Hp Hc Hf Hk) as (s' & Hrun & (T1 & T2 & T3 & T4) & Hx). exists s'.
    rewrite length_drop in Hrun. split; [done|].
    assert (Hst : stepped new_id (op_delete_turn c i) c s s').
    { apply (delete_step new_id _ c s s' k Hs T1 T2 T4); [by rewrite T3|]. by exists k. }
    assert (Hof : messages_of c s' = take k (messages_of c s)).
    { rewrite <-(filter_tail k _ Hnd). unfold messages_of. rewrite T1. cbn. rewrite !list.list_filter_filter. apply list.list_filter_iff. tauto. }
    split; [rewrite (all_messages_rows new_id c s' (sp_numbered _ _ _ _ _ Hst)); exact Hof|].
    rewrite <-(take_drop k (messages_of c s)), map_app in Hnd. apply list.NoDup_app in Hnd as (_ & Hd & _). cbn in T2. split; [|split; [|done]].
    + intros m Hm. apply (events_kept (λ e, me_message e ∉ map msg_id (drop k (messages_of c s))) s s' (msg_id m) []);
        [by rewrite T2, app_nil_r| |by intros e ?%not_elem_of_nil]. intros e ->. by apply Hd, list_elem_of_fmap_2.
    + intros m Hm. unfold events_of. rewrite T2, list.list_filter_filter. apply filter_none, list.Forall_forall. intros e _ [E Hni]. apply Hni.
      rewrite E. by apply list_elem_of_fmap_2.
  - intros Hno. unfold delete_turn. rewrite (run_bind _ _ _ _ _ Hc).
    rewrite (run_bind _ _ s s (messages_of c s)) by (unfold gets; by rewrite (all_messages_rows new_id c s Hs)).
    destruct (list_find _ _) as [[j a]|] eqn:Hf; [|by eexists].
    destruct (cut_of (messages_of c s) j a) as [e|k] eqn:Hk; [|by destruct (Hno k (cut_sound _ _ _ _ _ Hf Hk))].
    assert (He : ∃ msg, e = ValueError msg).
    { unfold cut_of in Hk. repeat (destruct (_ && _) in Hk; [try done|]); try (destruct (answered _) in Hk; [|done]); injection Hk as <-; by eexists. }
    destruct He as [msg ->]. by exists msg.
Qed.

(** ** Recovering a turn *)

Definition is_terminal_event (e : event) : Prop :=
  obj_get e "type" = Some (JStr "response.completed") ∨ obj_get e "type" = Some (JStr "response.failed").

Lemma terminal_kept e : is_terminal_event e → coalesce_text_deltas [e] = [e].
Proof.
  intros He. unfold coalesce_text_deltas. cbn. assert (is_plain_delta e = false) as ->; [|done]. unfold is_plain_delta.
  destruct He as [-> | ->]; done.
Qed.

Lemma has_terminal_snoc l e i n :
  has_terminal l = inr false → is_terminal_event e → has_terminal (l ++ [{| me_message := i; me_sequence := n; me_data := JObj e |}]) = inr true.
Proof.
  intros Hl He. induction l as [|x l IH]; cbn in *.
  - destruct He as [-> | ->]; done.
  - destruct (me_data x); try done. destruct (_ || _); [done|]. by apply IH.
Qed.

(** Looking for the reply does not see that questions are settled. *)
Lemma find_reply_settled i l :
  find_reply (map (settle_question i) l) = option_map (option_map (settle_question i)) (find_reply l).
Proof.
  induction l as [|m l IH]; [done|]. cbn. rewrite IH. assert (msg_content (settle_question i m) = msg_content m ∧ msg_role (settle_question i m) = msg_role m) as [-> ->].
  { unfold settle_question. by destruct (bool_decide _). }
  destruct (is_tool_row _); [done|]. case_bool_decide; [done|]. by case_bool_decide.
Qed.
Lemma find_reply_snoc l a : find_reply l = Some None → replied a → find_reply (l ++ [a]) = Some (Some a).
Proof.
  intros Hl [Ha Hat]. induction l as [|m l IH]; cbn in *.
  - rewrite Hat, Ha. done.
  - destruct (is_tool_row _); [auto|]. case_bool_decide; [done|]. case_bool_decide; [done|auto].
Qed.

(** The reply with a terminal event ends a recovery before it writes. *)
Lemma recover_done c turn text e s v q r :
  numbered new_id s → get_conversation scope c s = (s, inr v) → messages_of c s !! turn = Some q → asked q →
  find_reply (drop (S turn) (messages_of c s)) = Some (Some r) → has_terminal (events_of (msg_id r) s) = inr true →
  recover_interrupted_turn scope new_id c turn text e s = (s, inr false).
Proof.
  intros Hs Hc Hq [Hr Ht] Hf He. unfold recover_interrupted_turn. rewrite (run_bind _ _ _ _ _ Hc), (run_bind _ _ _ _ _ (get_ordered_run scope new_id c s v Hs Hc)).
  rewrite Hq, Hr, Ht, Hf. rewrite bool_decide_true by done. cbn [negb orb]. rewrite (run_bind _ _ s s s) by done. cbv zeta. by rewrite He.
Qed.

Definition recovered (c : string) (turn : nat) (e : event) (s : ChatDb) : Prop :=
  ∃ q r x, messages_of c s !! turn = Some q ∧ asked q ∧ msg_pending q = false ∧
    find_reply (drop (S turn) (messages_of c s)) = Some (Some r) ∧ x ∈ events_of (msg_id r) s ∧ me_data x = JObj e ∧
    has_terminal (events_of (msg_id r) s) = inr true.

Lemma settled_row i l turn q : l !! turn = Some q → msg_id q = i → asked q →
  map (settle_question i) l !! turn = Some (settle_question i q) ∧ asked (settle_question i q) ∧ msg_pending (settle_question i q) = false.
Proof.
  intros Hq <- Ha. split; [change (map (settle_question (msg_id q))) with (fmap (M:=list) (settle_question (msg_id q))); by rewrite list_lookup_fmap, Hq|].
  unfold settle_question. by rewrite bool_decide_true.
Qed.

(** The reply was there: it gets the terminal event. *)
Lemma recovered_reply c turn e s s1 q r :
  numbered new_id s → messages_of c s !! turn = Some q → asked q → find_reply (drop (S turn) (messages_of c s)) = Some (Some r) →
  has_terminal (events_of (msg_id r) s) = inr false → is_terminal_event e →
  ch_messages s1 = map (settle_question (msg_id q)) (ch_messages s) → ∀ n, ch_events s1 = ch_events s ++ [{| me_message := msg_id r; me_sequence := n; me_data := JObj e |}] →
  recovered c turn e s1.
Proof.
  intros Hs Hq Ha Hf Ht He Hm n Hev. pose proof (messages_of_map (settle_question (msg_id q)) c s s1 (λ m, settle_place _ m) Hm) as Hof.
  destruct (settled_row (msg_id q) _ turn q Hq eq_refl Ha) as (B1 & B2 & B3).
  exists (settle_question (msg_id q) q), (settle_question (msg_id q) r), {| me_message := msg_id r; me_sequence := n; me_data := JObj e |}.
  assert (Hid : msg_id (settle_question (msg_id q) r) = msg_id r) by (unfold settle_question; by destruct (bool_decide _)).
  assert (Hr : events_of (msg_id r) s1 = events_of (msg_id r) s ++ [{| me_message := msg_id r; me_sequence := n; me_data := JObj e |}]).
  { unfold events_of. rewrite Hev, list.filter_app. by rewrite (list.filter_cons_True _ _ []). }
  rewrite Hof, Hid, Hr. split; [done|]. split; [done|]. split; [done|]. split; [|split; [apply elem_of_app; right; by left|split; [done|by apply has_terminal_snoc]]].
  change (map (settle_question (msg_id q))) with (fmap (M:=list) (settle_question (msg_id q))). rewrite <-fmap_drop.
  change (fmap (M:=list) (settle_question (msg_id q))) with (map (settle_question (msg_id q))). by rewrite find_reply_settled, Hf.
Qed.

(** Saving a turn leaves the conversation rows. *)
Lemma save_turn_keeps c text events h tools s : ch_conversations (save_assistant_turn scope new_id c text events h tools s).1 = ch_conversations s.
Proof.
  unfold save_assistant_turn. destruct (_ && _ && _); [done|]. unfold mbind at 1, eff_bind.
  destruct (get_conversation_reads scope c s) as [(v & Hc & _)|[x Hc]]; rewrite Hc; [|done].
  rewrite (run_bind _ _ s (s <| ch_next := S (ch_next s) |>) (new_id (ch_next s))) by done. rewrite (run_bind _ _ _ _ _ (fresh_ids_run new_id tools _)).
  unfold mbind, eff_bind. cbn. by destruct (omap _ _).
Qed.

(** The events of a turn just saved are its own. *)
Lemma events_of_saved s a evs ids slugs s' :
  (∀ e, e ∈ ch_events s → me_message e ≠ a) → Forall (λ e, me_message e = a) evs →
  ch_events s' = base.filter (λ e, ¬ superseded ids a slugs e) (ch_events s ++ evs) → events_of a s' = evs.
Proof.
  intros Hno Ha E. unfold events_of. rewrite E, list.list_filter_filter.
  rewrite (list.list_filter_iff _ (λ e, me_message e = a)) by (intros e; unfold superseded; naive_solver).
  rewrite list.filter_app, filter_none, filter_every; [done|done|]. by apply list.Forall_forall.
Qed.

(** No reply was there: the answer is put behind, with its event. *)
Lemma recovered_none c turn text e s v q h s2 :
  numbered new_id s → get_conversation scope c s = (s, inr v) → messages_of c s !! turn = Some q → asked q →
  find_reply (drop (S turn) (messages_of c s)) = Some None → is_terminal_event e →
  (save_assistant_turn scope new_id c text [e] h [] (s <| ch_messages := map (settle_question (msg_id q)) (ch_messages s) |>)).1 = s2 →
  recovered c turn e s2.
Proof.
  intros Hs Hc Hq Ha Hf He H2. set (s1 := s <| ch_messages := _ |>) in H2.
  assert (Hs1 : numbered new_id s1).
  { apply (numbered_changed new_id (settle_question (msg_id q)) s); [intros m; apply settle_place|done|done|done|apply (nb_events _ _ Hs)]. }
  pose proof (messages_of_map (settle_question (msg_id q)) c s s1 (λ m, settle_place _ m) eq_refl) as Hof1.
  assert (Hne : negb (truthy text) && bool_decide ([e] = []) && bool_decide (([] : list (Role * json)) = []) = false).
  { rewrite (bool_decide_false ([e] = [])) by done. by rewrite andb_false_r. }
  rewrite (save_turn_run scope new_id c text [e] h [] s1 v Hs1 (get_conversation_same scope c s s1 v eq_refl Hc) Hne) in H2. cbn [fst] in H2.
  set (a := new_id (ch_next s1)) in H2. destruct (settled_row (msg_id q) _ turn q Hq eq_refl Ha) as (B1 & B2 & B3).
  assert (Hm2 : ch_messages s2 = ch_messages s1 ++ rows_of_turn new_id c text h [] s1) by by rewrite <-H2.
  pose proof (messages_of_app c s1 s2 _ Hm2) as Hof. rewrite (filter_every _ (rows_of_turn new_id c text h [] s1)) in Hof
    by exact (nr_of _ _ _ _ _ (turn_rows_new new_id c text h [] s1 Hs1)).
  set (answer := {| msg_id := a; msg_conversation := c; msg_role := r_assistant; msg_content := JStr text; msg_harness := h;
    msg_seq := after_last (messages_of c s1) + Z.of_nat 0; msg_pending := false; msg_created_at := ch_now s1 |}).
  change (rows_of_turn new_id c text h [] s1) with [answer] in Hof.
  assert (Hev : events_of a s2 = [{| me_message := a; me_sequence := 0; me_data := JObj e |}]).
  { assert (Hsaved : events_of_turn a [e] = [{| me_message := a; me_sequence := 0; me_data := JObj e |}])
      by (unfold events_of_turn; by rewrite terminal_kept).
    rewrite <-Hsaved. eapply (events_of_saved s1 a); [| |by rewrite <-H2].
    - intros x Hx E. destruct (nb_events _ _ Hs1 x Hx) as (m & Hin & Em). apply (nb_fresh _ _ Hs1 m (ch_next s1) Hin); [lia|]. by rewrite Em.
    - rewrite Hsaved. by repeat constructor. }
  exists (settle_question (msg_id q) q), answer, {| me_message := a; me_sequence := 0; me_data := JObj e |}.
  rewrite Hof, Hof1. split; [by apply lookup_app_l_Some|]. split; [done|]. split; [done|].
  change (msg_id answer) with a. rewrite Hev. split; [|split; [by left|split; [done|by apply (has_terminal_snoc [])]]].
  rewrite drop_app_le. 2: { apply lookup_lt_Some in B1. lia. }
  apply find_reply_snoc; [|done].
  change (map (settle_question (msg_id q))) with (fmap (M:=list) (settle_question (msg_id q))). rewrite <-fmap_drop.
  change (fmap (M:=list) (settle_question (msg_id q))) with (map (settle_question (msg_id q))). by rewrite find_reply_settled, Hf.
Qed.

(** C26: an interrupted turn is recovered once.  When the recovery of a turn reports that
    it wrote, the question at the turn's place is settled and the next visible row of
    the conversation that is not another question's is its reply, which carries the
    terminal event; and every later recovery of that turn, whatever it found in the
    turn's file, writes nothing. *)
Theorem recovered_once c turn text e s s1 :
  numbered new_id s → is_terminal_event e → recover_interrupted_turn scope new_id c turn text e s = (s1, inr true) →
  recovered c turn e s1 ∧ ∀ text' e', recover_interrupted_turn scope new_id c turn text' e' s1 = (s1, inr false).
Proof.
  intros Hs He Hrun. pose proof (recover_step scope new_id c turn text e s Hs) as Hst. unfold run_op, mbind at 1, eff_bind in Hst. rewrite Hrun in Hst.
  pose proof (sp_numbered _ _ _ _ _ Hst) as Hs1. cbn [fst mret eff_ret] in Hs1. clear Hst.
  destruct (get_conversation_reads scope c s) as [(v & Hc & _)|[x Hc]].
  2: { unfold recover_interrupted_turn, mbind, eff_bind in Hrun. by rewrite Hc in Hrun. }
  assert (H : recovered c turn e s1 ∧ ch_conversations s1 = ch_conversations s).
  { unfold recover_interrupted_turn in Hrun. rewrite (run_bind _ _ _ _ _ Hc), (run_bind _ _ _ _ _ (get_ordered_run scope new_id c s v Hs Hc)) in Hrun.
    destruct (messages_of c s !! turn) as [q|] eqn:Eq; [|done]. destruct (_ || _) eqn:Ea in Hrun; [done|].
    apply orb_false_iff in Ea as [Ea1%negb_false_iff%bool_decide_eq_true Ea2].
    destruct (find_reply _) as [[r|]|] eqn:Er; [| |done].
    - rewrite (run_bind _ _ s s s) in Hrun by done. cbv zeta in Hrun. destruct (has_terminal (events_of (msg_id r) s)) as [x|[|]] eqn:Et; [done|done|].
      injection Hrun as <-. split; [|done]. by eapply (recovered_reply c turn e s _ q r Hs Eq (conj Ea1 Ea2) Er Et He).
    - rewrite (run_bind _ _ s (s <| ch_messages := map (settle_question (msg_id q)) (ch_messages s) |>) ()) in Hrun by done.
      destruct (save_assistant_turn scope new_id c text [e] (cv_harness v) [] (s <| ch_messages := map (settle_question (msg_id q)) (ch_messages s) |>))
        as [s2 [x|o]] eqn:E2.
      { unfold mbind, eff_bind in Hrun. by rewrite E2 in Hrun. }
      rewrite (run_bind _ _ _ _ _ E2) in Hrun. injection Hrun as <-. split.
      + apply (recovered_none c turn text e s v q (cv_harness v) s2 Hs Hc Eq (conj Ea1 Ea2) Er He). by rewrite E2.
      + pose proof (save_turn_keeps c text [e] (cv_harness v) [] (s <| ch_messages := map (settle_question (msg_id q)) (ch_messages s) |>)) as Hk. by rewrite E2 in Hk. }
  destruct H as [Hr Hv]. split; [done|]. intros text' e'. destruct Hr as (q & r & x & H1 & H2 & _ & H3 & _ & _ & H4).
  exact (recover_done c turn text' e' s1 v q r Hs1 (get_conversation_same scope c s s1 v Hv Hc) H1 H2 H3 H4).
Qed.

(** ** Another user's conversation *)

Lemma owned_foreign c s j v :
  sc_org_mode scope = true → (∃ o, key_org scope "conversations" = inr o) → list_find (λ w, cv_id w = c) (ch_conversations s) = Some (j, v) →
  cv_created_by v ≠ sc_user_id scope → owned scope c s = (s, inr None).
Proof.
  intros Hm [o Ho] Hf Hu. unfold owned, mbind, eff_bind, gets. cbn [id]. rewrite Hf. unfold of_scope, own_row. rewrite Ho, Hm, bool_decide_false by done.
  cbn [negb orb]. destruct o as [o|]; [by rewrite andb_false_r|done].
Qed.

(** What is not there. *)
Definition absent {A} (s : ChatDb) : ChatDb * (exn + A) := (s, inl (ValueError "Conversation not found")).

(** C27: a conversation of another member of the organization answers like one that is
    not there.  Reading it in any way, saving an answer to it, deleting or recovering a
    turn of it, repairing and updating it raise "Conversation not found"; deleting it
    finds nothing, a summary for it is dropped, and it is not listed; and nothing at all
    changes.  (Saving a question and settling one do not look at the owner: their
    callers have.) *)
Theorem conversation_private `{PyInt} c s j v :
  sc_org_mode scope = true → (∃ o, key_org scope "conversations" = inr o) → list_find (λ w, cv_id w = c) (ch_conversations s) = Some (j, v) →
  cv_created_by v ≠ sc_user_id scope →
  get_messages scope c s = absent s ∧ (∀ limit before, get_messages_page scope c limit before s = absent s) ∧
  (∀ pending newest, ordered_messages scope c pending newest s = absent s) ∧ (∀ roles limit, get_recent_messages scope c roles limit s = absent s) ∧
  archived_messages scope c s = absent s ∧ repair_image_content scope c s = absent s ∧
  (∀ i, delete_turn scope c i s = absent s) ∧ (∀ turn text e, recover_interrupted_turn scope new_id c turn text e s = absent s) ∧
  (∀ text events h tools, truthy text = true → save_assistant_turn scope new_id c text events h tools s = absent s) ∧
  (∀ topic project, update_conversation scope c topic project s = absent s) ∧
  (∀ files, delete_conversation scope files c s = (s, inr false)) ∧
  (∀ summary cutoff, update_history_compaction scope c summary cutoff s = (s, inr ())) ∧
  (∀ d p limit everywhere s' l, list_conversations scope d p limit everywhere s = (s', inr l) → v ∉ l).
Proof.
  intros Hm Ho Hf Hu. pose proof (owned_foreign c s j v Hm Ho Hf Hu) as Hown.
  assert (Hget : get_conversation scope c s = absent s) by (unfold get_conversation, mbind, eff_bind; by rewrite Hown).
  assert (Hord : ∀ pending newest, ordered_messages scope c pending newest s = absent s)
    by (intros pending newest; unfold ordered_messages, mbind, eff_bind; by rewrite Hget).
  split; [unfold get_messages, mbind, eff_bind; by rewrite Hget|]. split; [intros limit before; unfold get_messages_page, mbind, eff_bind; by rewrite Hget|].
  split; [done|]. split; [intros roles limit; unfold get_recent_messages, mbind, eff_bind; by rewrite Hord|].
  split; [unfold archived_messages, mbind, eff_bind; by rewrite Hget|].
  split; [unfold repair_image_content, get_ordered_messages, mbind, eff_bind; by rewrite Hord|].
  split; [intros i; unfold delete_turn, mbind, eff_bind; by rewrite Hget|].
  split; [intros turn text e; unfold recover_interrupted_turn, mbind, eff_bind; by rewrite Hget|].
  split; [intros text events h tools Ht; unfold save_assistant_turn, mbind, eff_bind; rewrite Ht; cbn [negb andb]; by rewrite Hget|].
  split; [intros topic project; unfold update_conversation, mbind, eff_bind; by rewrite Hget|].
  split; [intros files; unfold delete_conversation, mbind, eff_bind; by rewrite Hown|].
  split; [intros summary cutoff; unfold update_history_compaction, mbind, eff_bind; by rewrite Hown|].
  intros d p limit everywhere s' l. unfold list_conversations, mbind, eff_bind, gets. cbn [id]. destruct (of_scope _ _ _); [done|]. intros [= _ <-] Hin.
  assert (Hsub : v ∈ order_by (activity_order s) (base.filter (λ w, of_scope scope "conversations" (cv_org w) = inr true ∧ own_row scope w = true ∧
    (everywhere = true ∨ cv_project w = default d p)) (ch_conversations s))).
  { rewrite <-(take_drop limit). apply elem_of_app. by left. }
  apply elem_of_order_by, list_elem_of_filter in Hsub as [(_ & Hw & _) _]. unfold own_row in Hw. rewrite Hm, bool_decide_false in Hw; done.
Qed.
End Turns.

(** ** Witnesses *)

Lemma demo_numbered : numbered demo_id demo_chat.
Proof. apply (run_ops_numbered (SC:=demo_schema)); [apply _|]. apply empty_numbered. Qed.

Lemma ada_projects : reads_projects (SC:=demo_schema) ada.
Proof. intros org. unfold of_scope. assert (key_org (SC:=demo_schema) ada "projects" = inr (Some "org")) as -> by by vm_compute. by eexists. Qed.

(** Ada deletes the turn answered by message 1: four of its rows and the question behind. *)
Lemma delete_turn_cuts_witness :
  ∃ s', delete_turn (SC:=demo_schema) ada "c1" "1" demo_chat = (s', inr 5) ∧ all_messages "c1" s' = [].
Proof.
  assert (Hc : ∃ v, get_conversation (SC:=demo_schema) ada "c1" demo_chat = (demo_chat, inr v)).
  { destruct (get_conversation_reads (SC:=demo_schema) ada "c1" demo_chat) as [(v & H & _)|[e H]]; [by exists v|]. exfalso. revert H. vm_compute. discriminate. }
  destruct Hc as [v Hc].
  destruct (delete_turn_cuts (SC:=demo_schema) ada demo_id "c1" "1" demo_chat v demo_numbered ada_projects Hc) as [H _].
  assert (Hl : length (all_messages "c1" demo_chat) = 5) by (vm_compute; reflexivity). rewrite Hl in H.
  destruct (H 0) as (s' & H1 & H2 & _); [|exists s'; exact (conj H1 H2)]. apply (cut_sound _ _ 3 {| msg_id := "1"; msg_conversation := "c1"; msg_role := r_assistant;
    msg_content := JStr "a1"; msg_harness := None; msg_seq := 3; msg_pending := false; msg_created_at := 0 |}); vm_compute; reflexivity.
Defined.

(** The question of turn 4 was never answered; its recovery is done once. *)
Lemma recovered_once_witness :
  let lost : event := [("type", JStr "response.failed")] in
  let s1 := (recover_interrupted_turn (SC:=demo_schema) ada demo_id "c1" 4 "partial" lost demo_chat).1 in
  recovered "c1" 4 lost s1 ∧ recover_interrupted_turn (SC:=demo_schema) ada demo_id "c1" 4 "again" lost s1 = (s1, inr false).
Proof.
  intros lost s1. destruct (recovered_once (SC:=demo_schema) ada demo_id "c1" 4 "partial" lost demo_chat s1 demo_numbered) as [H1 H2].
  - by right.
  - rewrite (pair_eq_snd (recover_interrupted_turn (SC:=demo_schema) ada demo_id "c1" 4 "partial" lost demo_chat) (inr true)); [reflexivity|vm_compute; reflexivity].
  - split; [exact H1|apply H2].
Defined.

Definition no_int : PyInt := {| int_of_text := λ _, None; int_of_float := λ _, None |}.

(** Bob at Ada's conversation. *)
Lemma conversation_private_witness :
  get_messages (SC:=demo_schema) bob "c1" demo_chat = (demo_chat, inl (ValueError "Conversation not found")).
Proof.
  assert (Hf : ∃ j v, list_find (λ w, cv_id w = "c1") (ch_conversations demo_chat) = Some (j, v) ∧ cv_created_by v = Some "ada").
  { eexists _, _. split; vm_compute; reflexivity. }
  destruct Hf as (j & v & Hf & Hv).
  refine (proj1 (conversation_private (SC:=demo_schema) bob demo_id (H:=no_int) "c1" demo_chat j v eq_refl _ Hf _)).
  - exists (Some "org"). vm_compute. reflexivity.
  - rewrite Hv. done.
Defined.
