(* ===== verification/ConversationPages.v ===== *)
(** * Reading a conversation page by page.

    The pages of a conversation, fetched one after the other from the newest with the
    cursor of the page before, are the whole conversation, every item once, although
    rows are hidden and a page looks at a bounded number of them. *)
From stdpp Require Import base list gmap strings option relations.
From Stdlib Require Import ZArith Lia Sorting.Sorted.
From S2P Require Import Prelude JsonObject JsonText Uuid AnswerText Identity TenantScope ScopedSession Triples Base64 Conversations ConversationOrder ConversationLog.

(** ** [ORDER BY] and filters *)

Section Sorting.
Context {A : Type} (le : A → A → bool).
Hypothesis le_trans : ∀ a b c, le a b = true → le b c = true → le a c = true.
Hypothesis le_total : ∀ a b, le a b = false → le b a = true.

Lemma insert_by_order x l : StronglySorted (λ a b, le a b = true) l → StronglySorted (λ a b, le a b = true) (insert_by le x l).
Proof.
  induction 1 as [|y l Hl IH Hy]; cbn; [repeat constructor|]. destruct (le x y) eqn:E.
  - constructor; [by constructor|]. constructor; [done|]. eapply list.Forall_impl; [exact Hy|]. cbn. intros z. by apply le_trans.
  - constructor; [done|]. rewrite list.Forall_forall in Hy |- *. intros z Hz.
    apply elem_of_insert_by in Hz as [->|Hz]; auto.
Qed.

Lemma order_by_order l : StronglySorted (λ a b, le a b = true) (order_by le l).
Proof. induction l as [|x l IH]; [constructor|]. by apply insert_by_order. Qed.

Lemma insert_by_filter (P : A → Prop) `{∀ x, Decision (P x)} x l :
  StronglySorted (λ a b, le a b = true) l →
  base.filter P (insert_by le x l) = if decide (P x) then insert_by le x (base.filter P l) else base.filter P l.
Proof.
  induction 1 as [|y l Hl IH Hy]; cbn [insert_by].
  { rewrite list.filter_cons. by destruct (decide (P x)). }
  destruct (le x y) eqn:E.
  - rewrite (list.filter_cons P x). destruct (decide (P x)) as [Hx|Hx]; [|done]. rewrite list.filter_cons. destruct (decide (P y)) as [HPy|HPy].
    + cbn. by rewrite E.
    + destruct (base.filter P l) as [|z k] eqn:F; [done|]. cbn. assert (Hz : z ∈ l).
      { assert (Hin : z ∈ base.filter P l) by (rewrite F; by left). by apply list_elem_of_filter in Hin as [_ ?]. }
      rewrite list.Forall_forall in Hy. by rewrite (le_trans x y z E (Hy z Hz)).
  - rewrite !(list.filter_cons P y), IH. destruct (decide (P y)), (decide (P x)); cbn; rewrite ?E; done.
Qed.

Lemma order_by_filter (P : A → Prop) `{∀ x, Decision (P x)} l : order_by le (base.filter P l) = base.filter P (order_by le l).
Proof.
  induction l as [|x l IH]; [done|]. change (order_by le (x :: l)) with (insert_by le x (order_by le l)).
  rewrite insert_by_filter by apply order_by_order. rewrite list.filter_cons. destruct (decide (P x)); [|done].
  change (order_by le (x :: base.filter P l)) with (insert_by le x (order_by le (base.filter P l))). by rewrite IH.
Qed.
End Sorting.

Lemma event_order_spec a b :
  event_order a b = true ↔ (me_message a ≤ me_message b)%string ∧ (me_message a = me_message b → (me_sequence a ≤ me_sequence b)%Z).
Proof.
  unfold event_order, String.le, String.leb. destruct (String.compare (me_message a) (me_message b)) eqn:E.
  - apply String.compare_eq_iff in E. rewrite Z.leb_le. naive_solver.
  - split; [|done]. intros _. split; [done|]. intros Heq. rewrite Heq in E.
    assert (String.compare (me_message b) (me_message b) = Eq) as H; [|by rewrite H in E].
    pose proof (String.compare_antisym (me_message b) (me_message b)) as H. by destruct (String.compare _ _).
  - split; [done|]. by intros [[] _].
Qed.

Lemma event_order_trans a b c : event_order a b = true → event_order b c = true → event_order a c = true.
Proof.
  rewrite !event_order_spec. intros [H1 H2] [H3 H4]. split; [by etrans|]. intros E. rewrite <-E in H3, H4.
  assert (Eab : me_message a = me_message b) by by apply (anti_symm String.le). specialize (H2 Eab). specialize (H4 (eq_sym Eab)). lia.
Qed.
Lemma event_order_total a b : event_order a b = false → event_order b a = true.
Proof.
  intros H. rewrite event_order_spec. destruct (total String.le (me_message a) (me_message b)) as [Hle|Hle].
  - destruct (decide (me_message a = me_message b)) as [E|Hne].
    + rewrite E. split; [done|]. intros _. destruct (decide (me_sequence b ≤ me_sequence a)%Z); [done|].
      assert (event_order a b = true); [|congruence]. apply event_order_spec. split; [done|lia].
    + assert (event_order a b = true); [|congruence]. by apply event_order_spec.
  - split; [done|]. intros E. destruct (decide (me_sequence b ≤ me_sequence a)%Z); [done|].
    assert (event_order a b = true); [|congruence]. apply event_order_spec. rewrite E. split; [done|lia].
Qed.

(** ** Items *)

(** The events of a message, in order. *)
Definition events_shown (s : ChatDb) (i : string) : list json := map me_data (order_by event_order (events_of i s)).

Lemma appended_events evs i : ∀ acc,
  default [] (foldl append_event_of acc evs !! i) = default [] (acc !! i) ++ map me_data (base.filter (λ e, me_message e = i) evs).
Proof.
  induction evs as [|e evs IH]; intros acc; [by rewrite app_nil_r|]. cbn [foldl]. rewrite IH, list.filter_cons. unfold append_event_of.
  destruct (decide (me_message e = i)) as [<-|Hne].
  - rewrite lookup_insert_eq. cbn. by rewrite <-(assoc_L (++)).
  - by rewrite lookup_insert_ne.
Qed.

Lemma chunk_events s i (chunk : list string) :
  map me_data (base.filter (λ e, me_message e = i) (order_by event_order (base.filter (λ e, me_message e ∈ chunk) (ch_events s)))) =
  if decide (i ∈ chunk) then events_shown s i else [].
Proof.
  rewrite <-(order_by_filter _ event_order_trans event_order_total), list.list_filter_filter. destruct (decide (i ∈ chunk)) as [Hi|Hi].
  - unfold events_shown, events_of. do 2 f_equal. apply list.list_filter_iff. intros e. naive_solver.
  - rewrite filter_none; [done|]. apply list.Forall_forall. intros e _ [E Hin]. apply Hi. by rewrite <-E.
Qed.

Lemma chunked_events s i (cs : list (list string)) : ∀ acc,
  default [] (foldl (λ acc chunk, foldl append_event_of acc (order_by event_order (base.filter (λ e, me_message e ∈ chunk) (ch_events s)))) acc cs !! i) =
  default [] (acc !! i) ++ (cs ≫= λ chunk, if decide (i ∈ chunk) then events_shown s i else []).
Proof.
  induction cs as [|chunk cs IH]; intros acc; [by rewrite app_nil_r|]. cbn [foldl]. rewrite IH, appended_events, chunk_events.
  by rewrite <-(assoc_L (++)).
Qed.

Lemma concat_chunks n : n ≠ 0 → ∀ fuel l, length l ≤ fuel → mjoin (chunks fuel n l) = l.
Proof.
  intros Hn. induction fuel as [|fuel IH]; intros l Hl; [by destruct l; [|cbn in Hl; lia]|]. destruct l as [|x l]; [done|].
  cbn [chunks mjoin list_join]. rewrite IH; [by rewrite take_drop|]. rewrite length_drop. cbn in Hl |- *. lia.
Qed.

Lemma no_chunk {B} (E : list B) (i : string) cs :
  i ∉ mjoin cs → (cs ≫= λ chunk : list string, if decide (i ∈ chunk) then E else []) = [].
Proof.
  induction cs as [|chunk cs IH]; [done|]. cbn. intros [H1 H2]%not_elem_of_app. rewrite decide_False by done. by apply IH.
Qed.
Lemma one_chunk {B} (E : list B) (i : string) cs :
  NoDup (mjoin cs) → i ∈ mjoin cs → (cs ≫= λ chunk : list string, if decide (i ∈ chunk) then E else []) = E.
Proof.
  induction cs as [|chunk cs IH]; intros Hnd Hi; [by apply not_elem_of_nil in Hi|]. cbn in Hnd, Hi. rewrite bind_cons.
  apply list.NoDup_app in Hnd as (_ & Hd & Hnd). apply elem_of_app in Hi as [Hi|Hi].
  - rewrite decide_True by done. by rewrite no_chunk, app_nil_r by by apply Hd.
  - rewrite decide_False by (intros H; by apply (Hd i H)). by apply IH.
Qed.

(** The batches of [_hydrate_message_items] do not show. *)
Lemma hydrate_items s ms :
  NoDup (map msg_id (visible_messages ms)) →
  hydrate_message_items s ms = map (λ m, item_of (events_shown s (msg_id m)) m) (visible_messages ms).
Proof.
  intros Hnd. unfold hydrate_message_items, events_by_message. apply map_ext_in. intros m Hm%list_elem_of_In. f_equal.
  set (ids := map msg_id (visible_messages ms)) in *. rewrite chunked_events. rewrite lookup_empty. cbn [default app].
  assert (Hj : mjoin (chunks (length ids) EVENTS_IN_CHUNK_SIZE ids) = ids) by by apply concat_chunks.
  apply one_chunk; rewrite Hj; [done|]. by apply list_elem_of_fmap_2.
Qed.

(** ** Cursors *)

(** What a cursor can name. *)
Definition cursor_fits (m : Message) : Prop := uuid_text (msg_id m) = Some (msg_id m) ∧ (0 ≤ msg_seq m ≤ MAX_CURSOR_SEQ)%Z.

Lemma cursor_round_trip `{PyInt} m : cursor_fits m → decode_message_cursor (encode_message_cursor m) = inr (message_cursor_key m).
Proof.
  intros [Hu Hs]. unfold decode_message_cursor, encode_message_cursor, message_cursor_key. rewrite b64_round_trip. cbn [mbind option_bind].
  set (rank := if bool_decide (msg_role m = r_user) then 0%Z else 1%Z).
  assert (Hwf : json_wf (JArr [JInt (msg_seq m); JInt rank; JStr (msg_id m)])).
  { cbn. repeat split. apply utf8_ascii. apply (uuid_text_chars (λ c, Nat.ltb (ord c) 128) (msg_id m) (msg_id m) Hu); [|done].
    intros c. unfold lower_hex. rewrite orb_true_iff, !andb_true_iff, !Nat.leb_le, Nat.ltb_lt. lia. }
  rewrite (loads_dumps _ Hwf). cbn. rewrite Hu. cbn. destruct (Z.leb_spec 0 (msg_seq m)); [|lia]. destruct (Z.leb_spec (msg_seq m) MAX_CURSOR_SEQ); [|lia].
  unfold rank. by case_bool_decide.
Qed.

Lemma encoded_truthy m : truthy (encode_message_cursor m) = true.
Proof.
  unfold encode_message_cursor, message_cursor_key. cbn [dumps]. unfold String.append at 1.
  destruct (String.append _ _) as [|a [|b s]]; done.
Qed.

(** The rows before a cursor are those before its row. *)
Lemma rows_before l1 m l2 :
  StronglySorted earlier (l1 ++ m :: l2) →
  base.filter (λ x, (msg_seq x <=? msg_seq m)%Z && key_lt (message_cursor_key x) (message_cursor_key m) = true) (l1 ++ m :: l2) = l1.
Proof.
  intros Hs. rewrite list.filter_app, filter_every, filter_none, app_nil_r; [done| |].
  - assert (Hs2 : StronglySorted earlier (m :: l2)) by (clear -Hs; induction l1; [done|inversion Hs; auto]). inversion Hs2 as [|? ? _ Hm]; subst.
    constructor.
    + rewrite andb_true_iff. intros [_ Hk]. unfold key_lt, message_cursor_key in Hk. rewrite Z.ltb_irrefl, Z.eqb_refl, Z.ltb_irrefl, Z.eqb_refl in Hk. cbn in Hk.
      destruct (String.compare (msg_id m) (msg_id m)) eqn:E; try done.
      pose proof (String.compare_antisym (msg_id m) (msg_id m)) as H. by rewrite E in H.
    + eapply list.Forall_impl; [exact Hm|]. intros x Hx. cbv beta. rewrite (later_key m x Hx). by rewrite andb_false_r.
  - apply list.Forall_forall. intros x Hx. assert (He : earlier x m).
    { clear -Hs Hx. induction l1 as [|y l1 IH]; [by apply not_elem_of_nil in Hx|]. inversion Hs as [|? ? Hs' Hy]; subst.
      apply elem_of_cons in Hx as [->|Hx]; [|by apply IH]. rewrite list.Forall_forall in Hy. apply Hy, elem_of_app. right. by left. }
    rewrite (earlier_key x m He). unfold earlier in He. destruct (Z.leb_spec (msg_seq x) (msg_seq m)); [done|lia].
Qed.

(** ** The scan of a page *)

Lemma scan_rows_spec limit cap raw : ∀ visible consumed,
  length visible < limit → consumed ≤ cap →
  ∃ k, scan_rows limit cap raw visible consumed = (visible ++ visible_messages (take k raw), consumed + k) ∧
    k ≤ length raw ∧ consumed + k ≤ cap ∧ length visible + length (visible_messages (take k raw)) ≤ limit ∧
    (length (visible_messages (take k raw)) + length visible = limit ∧ k ≠ 0 ∨ k = length raw ∨ consumed + k = cap).
Proof.
  induction raw as [|m raw IH]; intros visible consumed Hv Hc; cbn [scan_rows].
  { exists 0. rewrite Nat.add_0_r, app_nil_r. cbn. repeat split; [lia|lia|lia|auto]. }
  destruct (Nat.leb_spec cap consumed) as [Hcap|Hcap].
  { exists 0. rewrite Nat.add_0_r, app_nil_r. cbn. repeat split; [lia|lia|lia|right; right; lia]. }
  destruct (is_tool_row (msg_content m)) eqn:Ht; [|destruct (Nat.eqb_spec (length (visible ++ [m])) limit) as [El|Hl]].
  - destruct (IH visible (S consumed)) as (k & E & H1 & H2 & H3 & H4); [done|lia|]. exists (S k). rewrite E. cbn [take length].
    unfold visible_messages in *. rewrite list.filter_cons_False by congruence. rewrite <-Nat.add_succ_comm. repeat split; [lia|lia|done|].
    destruct H4 as [[H4 _]|[H4|H4]]; [left; split; [done|lia]|right; left; lia|right; right; lia].
  - exists 1. cbn [take length]. rewrite ?take_0. unfold visible_messages. rewrite list.filter_cons_True by done. cbn. rewrite length_app in El. cbn in El.
    rewrite Nat.add_1_r. repeat split; [lia|lia|lia|left; lia].
  - rewrite length_app in Hl. cbn in Hl. destruct (IH (visible ++ [m]) (S consumed)) as (k & E & H1 & H2 & H3 & H4); [rewrite length_app; cbn; lia|lia|].
    exists (S k). rewrite E. rewrite length_app in H3, H4. cbn [take length] in *. unfold visible_messages in *. rewrite list.filter_cons_True by done. cbn [length].
    rewrite <-(assoc_L (++)), <-Nat.add_succ_comm. cbn [app]. repeat split; [lia|lia|lia|].
    destruct H4 as [[H4 _]|[H4|H4]]; [left; lia|right; left; lia|right; right; lia].
Qed.

(** ** Pages *)

Lemma filter_rev {A} (P : A → Prop) `{∀ x, Decision (P x)} l : base.filter P (rev l) = rev (base.filter P l).
Proof.
  induction l as [|x l IH]; [done|]. cbn [rev]. rewrite list.filter_app, IH, (list.filter_cons P x l), (list.filter_cons P x []).
  destruct (decide (P x)); [done|]. by rewrite app_nil_r.
Qed.

Lemma rev_take_rev {A} k (l : list A) : rev (take k (rev l)) = drop (length l - k) l.
Proof. rewrite firstn_rev. apply rev_involutive. Qed.

Lemma sorted_prefix {A} (R : A → A → Prop) n (l : list A) : StronglySorted R l → StronglySorted R (take n l).
Proof.
  intros H. revert n. induction H as [|x l _ IH Hx]; intros [|n]; cbn; try constructor; [apply IH|].
  apply list.Forall_forall. intros y Hy. rewrite list.Forall_forall in Hx. apply Hx. rewrite <-(take_drop n l). apply elem_of_app. by left.
Qed.

(** The last row that was looked at. *)
Lemma last_scanned k cap (X : list Message) n :
  length X = n → 0 < k ≤ n → k ≤ S cap → take (S cap) (rev X) !! pred k = X !! (n - k).
Proof.
  intros HX Hk Hc. rewrite lookup_take_lt by lia. rewrite rev_alt. change (rev_append X []) with (reverse X).
  rewrite reverse_lookup by lia. rewrite HX. by replace (n - S (pred k)) with (n - k) by lia.
Qed.

Section Pages.
Context {SC : Schema} (scope : TenantScope) (new_id : nat → string) `{!PyInt}.
Context (c : string) (s : ChatDb) (v : Conversation) (limit : Z).
Hypothesis Hs : numbered new_id s.
Hypothesis Hc : get_conversation scope c s = (s, inr v).
Hypothesis Hlimit : (1 ≤ limit ≤ MAX_PAGE_LIMIT)%Z.

Definition shown_items (ms : list Message) : list MessageItem := map (λ m, item_of (events_shown s (msg_id m)) m) (visible_messages ms).

Lemma shown_app a b : shown_items (a ++ b) = shown_items a ++ shown_items b.
Proof. unfold shown_items, visible_messages. by rewrite list.filter_app, map_app. Qed.

Lemma rows_shown ms : sublist ms (messages_of c s) → hydrate_message_items s ms = shown_items ms.
Proof.
  intros Hsub. apply hydrate_items. eapply list.sublist_NoDup; [apply (ids_of_nodup new_id c s Hs)|]. apply (fmap_sublist msg_id).
  etrans; [apply list.sublist_filter|done].
Qed.

Lemma get_messages_run : get_messages scope c s = (s, inr (shown_items (messages_of c s))).
Proof.
  unfold get_messages. rewrite (run_bind _ _ _ _ _ Hc). unfold mbind, eff_bind, gets, mret, eff_ret. cbn [id].
  by rewrite (all_messages_rows new_id c s Hs), rows_shown.
Qed.

(** The page of the rows read, from the newest. *)
Definition page_of (rows : list Message) : ConversationItemsPage :=
  let limit := Z.to_nat limit in
  let scan_cap := limit * Z.to_nat SCAN_CAP_MULTIPLIER in
  let raw := take (S scan_cap) (order_by newest_first rows) in
  let '(visible, consumed) := scan_rows limit scan_cap raw [] 0 in
  let has_more := if Nat.eqb (length visible) limit then Nat.ltb consumed (length raw) else Nat.ltb scan_cap (length raw) in
  {| pg_items := hydrate_message_items s (rev visible); pg_has_more := has_more;
     pg_next_before := if has_more && negb (Nat.eqb consumed 0) then encode_message_cursor <$> raw !! pred consumed else None |}.

Definition cursor_of (before : option string) : exn + option (Z * Z * string) :=
  match before with
  | Some t => if truthy t then match decode_message_cursor t with inl e => inl e | inr k => inr (Some k) end else inr None
  | None => inr None
  end.
Definition before_cursor (k : option (Z * Z * string)) (m : Message) : bool :=
  match k with Some k => (msg_seq m <=? k.1.1)%Z && key_lt (message_cursor_key m) k | None => true end.

Lemma page_run before :
  get_messages_page scope c limit before s =
    match cursor_of before with
    | inl e => (s, inl e)
    | inr k => (s, inr (page_of (base.filter (λ m, before_cursor k m = true) (messages_of c s))))
    end.
Proof.
  unfold get_messages_page. rewrite (run_bind _ _ _ _ _ Hc). destruct (Z.leb_spec 1 limit); [|lia]. destruct (Z.leb_spec limit MAX_PAGE_LIMIT); [|lia].
  cbn [andb negb]. rewrite (run_bind _ _ s s ()) by done. unfold cursor_of, page_of. destruct before as [t|].
  - destruct (truthy t); [destruct (decode_message_cursor t) as [e|k]; [done|]|]; unfold mbind, eff_bind, gets, mret, eff_ret; cbn [id]; unfold before_cursor;
      by destruct (scan_rows _ _ _ _ _).
  - unfold mbind, eff_bind, gets, mret, eff_ret; cbn [id]. unfold before_cursor. by destruct (scan_rows _ _ _ _ _).
Qed.

Lemma page_small rows : length (pg_items (page_of rows)) ≤ Z.to_nat limit.
Proof.
  unfold page_of. set (raw := take _ _). destruct (scan_rows_spec (Z.to_nat limit) (Z.to_nat limit * Z.to_nat SCAN_CAP_MULTIPLIER) raw [] 0)
    as (k & -> & _ & _ & Hsmall & _); [cbn; lia|lia|]. cbn [app pg_items]. unfold hydrate_message_items. rewrite length_map. unfold visible_messages at 1.
  rewrite filter_rev, length_rev. etrans; [apply list.length_filter|]. exact Hsmall.
Qed.

(** The page of the first [n] rows: the last [k] of them, and where the next begins. *)
Lemma page_prefix n :
  n ≤ length (messages_of c s) → let p := page_of (take n (messages_of c s)) in
  ∃ k, k ≤ n ∧ pg_items p = shown_items (drop (n - k) (take n (messages_of c s))) ∧
    (k = n ∧ pg_next_before p = None ∨
     ∃ m, 0 < k < n ∧ messages_of c s !! (n - k) = Some m ∧ pg_next_before p = Some (encode_message_cursor m)).
Proof.
  intros Hn p. unfold p, page_of. set (X := take n (messages_of c s)). assert (HX : length X = n) by (unfold X; rewrite length_take; lia).
  assert (Hrev : order_by newest_first X = rev X).
  { apply order_by_reversed. eapply sorted_impl; [|eapply sorted_prefix, (nb_sorted _ _ Hs c)]. intros a b Hab.
    unfold newest_first, message_order. by rewrite (earlier_key a b Hab). }
  rewrite Hrev. set (L := Z.to_nat limit). set (cap := L * Z.to_nat SCAN_CAP_MULTIPLIER). assert (HL : 1 ≤ L) by (unfold L; lia).
  assert (Hcap : 1 ≤ cap) by (unfold cap, SCAN_CAP_MULTIPLIER; lia). set (raw := take (S cap) (rev X)).
  assert (Hraw : length raw = Nat.min (S cap) n) by (unfold raw; by rewrite length_take, length_rev, HX).
  destruct (scan_rows_spec L cap raw [] 0) as (k & -> & H1 & H2 & H3 & H4); [cbn; lia|lia|]. cbn [app length] in *. rewrite Nat.add_0_l in *.
  assert (Hk : take k raw = take k (rev X)) by (unfold raw; rewrite take_take; f_equal; lia).
  exists k. split; [lia|]. split.
  - cbn [pg_items]. unfold visible_messages at 1. rewrite <-filter_rev. fold (visible_messages (rev (take k raw))).
    rewrite Hk, rev_take_rev, HX. rewrite rows_shown.
    + unfold shown_items. f_equal. unfold visible_messages. rewrite list.list_filter_filter. apply list.list_filter_iff. tauto.
    + etrans; [apply list.sublist_filter|]. etrans; [apply list.sublist_drop|]. apply list.sublist_take.
  - cbn [pg_next_before]. destruct (Nat.eqb_spec (length (visible_messages (take k raw))) L) as [El|El].
    + destruct (Nat.ltb_spec k (length raw)) as [Hlt|Hge]; [right|left; split; [lia|done]]. assert (k ≠ 0) by (intros ->; cbn in El; lia).
      destruct (Nat.eqb_spec k 0); [done|]. cbn [andb negb]. unfold raw. rewrite (last_scanned k cap X n); [|done|lia|lia].
      destruct (lookup_lt_is_Some_2 (messages_of c s) (n - k)) as [m Hm]; [lia|]. exists m. split; [lia|]. split; [done|].
      unfold X. rewrite lookup_take_lt by lia. by rewrite Hm.
    + destruct (Nat.ltb_spec cap (length raw)) as [Hlt|Hge]; [right|left; split; [|done]].
      * assert (k = cap) as -> by lia. destruct (Nat.eqb_spec cap 0); [lia|]. cbn [andb negb]. unfold raw. rewrite (last_scanned cap cap X n); [|done|lia|lia].
        destruct (lookup_lt_is_Some_2 (messages_of c s) (n - cap)) as [m Hm]; [lia|]. exists m. split; [lia|]. split; [done|].
        unfold X. rewrite lookup_take_lt by lia. by rewrite Hm.
      * lia.
Qed.

(** Pages from the newest back, each with the cursor of the one before. *)
Fixpoint walk_pages (fuel : nat) (before : option string) : chat (list MessageItem) :=
  match fuel with
  | 0 => raise (RuntimeError "out of fuel")
  | S fuel =>
      page ← get_messages_page scope c limit before;
      match pg_next_before page with
      | None => mret (pg_items page)
      | Some cursor => older ← walk_pages fuel (Some cursor); mret (older ++ pg_items page)
      end
  end.

Hypothesis Hfits : Forall cursor_fits (messages_of c s).

Lemma cursor_prefix n m : messages_of c s !! n = Some m →
  cursor_of (Some (encode_message_cursor m)) = inr (Some (message_cursor_key m)) ∧
  base.filter (λ x, before_cursor (Some (message_cursor_key m)) x = true) (messages_of c s) = take n (messages_of c s).
Proof.
  intros Hm. unfold cursor_of. rewrite encoded_truthy, cursor_round_trip.
  2: { rewrite list.Forall_forall in Hfits. apply Hfits, (list_elem_of_lookup_2 _ _ _ Hm). }
  split; [done|]. pose proof (take_drop_middle _ n m Hm) as E. pose proof (nb_sorted _ _ Hs c) as Hsort. rewrite <-E in Hsort.
  pose proof (rows_before _ m _ Hsort) as Hr. rewrite E in Hr. exact Hr.
Qed.

Lemma walk_prefix fuel : ∀ n before, n < fuel → n ≤ length (messages_of c s) →
  (before = None ∧ n = length (messages_of c s) ∨ ∃ m, messages_of c s !! n = Some m ∧ before = Some (encode_message_cursor m)) →
  walk_pages fuel before s = (s, inr (shown_items (take n (messages_of c s)))).
Proof.
  induction fuel as [|fuel IH]; intros n before Hf Hn Hb; [lia|]. cbn [walk_pages].
  assert (Hpage : get_messages_page scope c limit before s = (s, inr (page_of (take n (messages_of c s))))).
  { rewrite page_run. destruct Hb as [[-> ->]|(m & Hm & ->)].
    - cbn [cursor_of]. do 3 f_equal. rewrite firstn_all. apply filter_every. by apply list.Forall_forall.
    - destruct (cursor_prefix n m Hm) as [-> E]. by rewrite E. }
  rewrite (run_bind _ _ _ _ _ Hpage). destruct (page_prefix n Hn) as (k & Hk & Hi & [[-> Hnext]|(m & Hkn & Hm & Hnext)]); rewrite Hnext.
  - rewrite Nat.sub_diag in Hi. unfold mret, eff_ret. by rewrite Hi.
  - rewrite (run_bind _ _ _ _ _ (IH (n - k) (Some (encode_message_cursor m)) ltac:(lia) ltac:(lia) (or_intror (ex_intro _ m (conj Hm eq_refl))))).
    unfold mret, eff_ret. rewrite Hi, <-shown_app. do 3 f_equal. rewrite <-(take_drop (n - k) (take n (messages_of c s))) at 2. f_equal.
    rewrite take_take. f_equal. lia.
Qed.
End Pages.

(** C14: the pages of a conversation are the conversation.  Fetching page after page from
    the newest, each with the cursor the page before gave, ends after at most as many
    pages as there are rows (and one), and the pages put one before the other are
    exactly what the unpaged read gives, each visible message once with its events in
    order, whatever runs of hidden rows lie between; and no page, for any cursor a
    client may send, has more items than were asked for. *)
Theorem message_pages_exact {SC : Schema} (scope : TenantScope) (new_id : nat → string) `{!PyInt} c s v limit :
  numbered new_id s → get_conversation scope c s = (s, inr v) → (1 ≤ limit ≤ MAX_PAGE_LIMIT)%Z → Forall cursor_fits (all_messages c s) →
  walk_pages scope c limit (S (length (all_messages c s))) None s = get_messages scope c s ∧
  ∀ before s' page, get_messages_page scope c limit before s = (s', inr page) → length (pg_items page) ≤ Z.to_nat limit.
Proof.
  intros Hs Hc Hl. rewrite (all_messages_rows new_id c s Hs). intros Hf. split.
  - rewrite (walk_prefix scope new_id c s v limit Hs Hc Hl Hf _ (length (messages_of c s))); [|lia|lia|by left].
    by rewrite (get_messages_run scope new_id c s v Hs Hc), firstn_all.
  - intros before s' page. rewrite (page_run scope c s v limit Hc Hl before). destruct (cursor_of before) as [e|k]; [done|].
    intros [= _ <-]. by apply page_small.
Qed.

(** ** A conversation with hidden rows, one item a page *)

Definition row (i : string) (role : Role) (content : json) (seq : Z) : Message := {|
  msg_id := i; msg_conversation := "c1"; msg_role := role; msg_content := content; msg_harness := None; msg_seq := seq;
  msg_pending := false; msg_created_at := 0 |}.
Definition page_rows : list Message :=
  [row "00000000-0000-4000-8000-000000000001" r_user (JStr "q1") 0; row "00000000-0000-4000-8000-000000000002" r_assistant tool_use 1;
   row "00000000-0000-4000-8000-000000000003" r_user tool_result 2; row "00000000-0000-4000-8000-000000000004" r_assistant (JStr "a1") 3;
   row "00000000-0000-4000-8000-000000000005" r_user (JStr "q2") 4].
Definition page_chat : ChatDb :=
  (run_ops (SC:=demo_schema) demo_id (take 1 demo_ops) (empty_chat [demo_project] 0)) <| ch_messages := page_rows |>
    <| ch_events := [{| me_message := "00000000-0000-4000-8000-000000000004"; me_sequence := 0; me_data := JStr "done" |}] |>.
Definition other_id (n : nat) : string := String.String (chr 120) (demo_id n).

Lemma page_chat_numbered : numbered other_id page_chat.
Proof.
  split.
  - intros c. destruct (decide (c = "c1")) as [->|Hne].
    + assert (messages_of "c1" page_chat = page_rows) as -> by (vm_compute; reflexivity). unfold page_rows, earlier.
      repeat (constructor; [|repeat (constructor; [cbn; lia|]); constructor]). constructor.
    + unfold messages_of. rewrite filter_none; [constructor|]. change (ch_messages page_chat) with page_rows. repeat (constructor; [cbn; congruence|]). constructor.
  - intros m Hm. change (ch_messages page_chat) with page_rows in Hm. unfold page_rows in Hm. repeat (apply elem_of_cons in Hm as [->|Hm]; [cbn; lia|]).
    by apply not_elem_of_nil in Hm.
  - by_decide.
  - intros m n Hm _. change (ch_messages page_chat) with page_rows in Hm. unfold page_rows in Hm. repeat (apply elem_of_cons in Hm as [->|Hm]; [done|]).
    by apply not_elem_of_nil in Hm.
  - intros e He. change (ch_events page_chat) with [{| me_message := "00000000-0000-4000-8000-000000000004"; me_sequence := 0; me_data := JStr "done" |}] in He.
    apply list_elem_of_singleton in He as ->. exists (row "00000000-0000-4000-8000-000000000004" r_assistant (JStr "a1") 3). split; [|done].
    change (ch_messages page_chat) with page_rows. right. right. right. by left.
Qed.

Lemma message_pages_exact_witness :
  walk_pages (SC:=demo_schema) (H:={| int_of_text := λ _, None; int_of_float := λ _, None |}) ada "c1" 1 6 None page_chat =
  get_messages (SC:=demo_schema) ada "c1" page_chat.
Proof.
  assert (Hc : ∃ v, get_conversation (SC:=demo_schema) ada "c1" page_chat = (page_chat, inr v)).
  { destruct (get_conversation_reads (SC:=demo_schema) ada "c1" page_chat) as [(v & Hv & _)|[e He]]; [by exists v|]. exfalso. revert He. vm_compute. discriminate. }
  destruct Hc as [v Hc]. assert (Hl : all_messages "c1" page_chat = page_rows) by (vm_compute; reflexivity).
  pose proof (message_pages_exact (SC:=demo_schema) ada other_id (H:={| int_of_text := λ _, None; int_of_float := λ _, None |})
    "c1" page_chat v 1 page_chat_numbered Hc) as Hp. rewrite Hl in Hp. apply Hp; [unfold MAX_PAGE_LIMIT; lia|].
  unfold page_rows. repeat (constructor; [split; [vm_compute; reflexivity|cbn; unfold MAX_CURSOR_SEQ; lia]|]). constructor.
Defined.
